(* ===== verification/_CoqProject ===== *)
-Q . S2P
Prelude.v
Mathext.v
Metadata.v
Sha256.v
Float.v
Common.v
Rng.v
Congestion.v
Replay.v
Cipher.v
Segment.v
Padding.v
Scheduler.v
Auth.v
Wire.v
UnderlayPacket.v
UnderlayStream.v
SessionState.v
Session.v
SessionRecv.v
SessionSend.v
SessionDelivery.v
SessionLife.v
UnderlayWriter.v
UnderlayLoop.v
Socks.v
Net.v
Egress.v
Interact.v
SocksAuth.v
SocksServer.v
SocksUDP.v
SocksRelay.v
SocksForward.v
Dns.v
Mux.v
MuxAccept.v
TrafficPattern.v
PortBinding.v
ConfigServer.v
ConfigClient.v
ServerControl.v
Metrics.v
Api.v
Deque.v
Cli.v
MitaCli.v
CliTables.v
PanelText.v
Url.v
Links.v
Log.v
MetricsJson.v
Updater.v
ClientCli.v
HttpProxy.v
PanelConfig.v
PanelAuth.v
PanelFactor.v
PanelUsers.v
PanelSettings.v
PanelMita.v
PanelStats.v
PanelDash.v
PanelMain.v
PanelBoard.v
Process.v
Connections.v
Reports.v
