(* ===== verification/Prelude.v ===== *)
(** * mieru: a verification development of the proxy

    mieru is a proxy: a client (mieru) carries socks5 traffic to a server (mita)
    inside encrypted segments over TCP or UDP.  This library models the protocol,
    the socks5 front and back end, and the configuration that starts them,
    translated from the Go sources, and proves what makes them work.  A web panel
    (mieru-panel) administers the server: its users, their subscriptions, its
    second factor and its settings are modelled too, down to the commands with
    which it drives the server.

    ** The program and its model

    An application reads and writes a [Session], which is one byte stream.  The
    session cuts what is written into segments, numbers them, keeps them in four
    segment trees (send queue, send buffer, receive buffer, receive queue), and
    on UDP also acknowledges, retransmits and limits them.  An underlay carries
    the segments of many sessions: it encrypts each segment with padding
    ([writeOneSegment]), decrypts and authenticates what arrives
    ([readOneSegment]), and its event loop hands segments to sessions.  The
    server finds out which user a first message comes from by trying the keys of
    the registered users, and drops replays.  A mux owns the underlays: the client
    side dials sessions over new or shared underlays, the server side listens on
    every endpoint and accepts sessions.  On top of a session the socks5 server
    authenticates, asks the egress rules what to do with a request, and relays a
    TCP connection or UDP datagrams.  Configuration patches are validated, merged
    and stored; the management service and the embedding API build muxes from
    what is stored.  Metrics count the traffic that quotas are checked against.

    - Prelude: results of Go code ([outcome]: value, error or panic), fixed-width
      integers, byte lists, the notations [let!] and [guard!] of scope [go_scope],
      the hint database [mieru], the tactics of the development.
    - Mathext, Common, Rng, Float, Sha256: pkg/mathext/numbers.go,
      pkg/common/ascii.go, bytes.go, entropy.go, pkg/rng/rng.go, bit.go; IEEE 754
      arithmetic and the hash functions of the standard library.
    - Metadata: pkg/protocol/metadata.go, the 32-byte headers.
    - Cipher: pkg/cipher, nonces, encryption modes, keys by time, cipher cache.
    - Replay: pkg/replay/replay.go.
    - Congestion: pkg/congestion, CUBIC window and RTT statistics.
    - Segment: pkg/protocol/segment.go, the segment and the segment tree.
    - Padding, Wire: pkg/protocol/padding.go and the padding step of writing.
    - Scheduler: pkg/protocol/scheduler.go.
    - Auth: how a server matches a user (both underlays).
    - UnderlayPacket, UnderlayStream: encoding and decoding of segments in
      pkg/protocol/underlay_packet.go and underlay_stream.go.
    - UnderlayLoop: pkg/protocol/underlay_base.go, the session map, and the event
      loops of the two underlays.
    - UnderlayWriter: [writeOneSegment] of both underlays as writers of segments,
      with what the constructors of an underlay ensure.
    - SessionState, Session: pkg/protocol/session.go, its state and every method
      that changes it.
    - SessionRecv, SessionSend, SessionDelivery, SessionLife: the theorems about
      sessions.
    - Socks: apis/model/addr.go, socks.go, apis/common/packet_over_stream.go,
      udp_associate_wrapper.go.
    - Net: the parts of Go's net package that are used (IP addresses, masks,
      parsing and printing); Dns: pkg/common/dns.go, ipdualstack.go, addr.go.
    - Egress: pkg/egress and pkg/socks5/egress.go, the filters and rules.
    - Interact: programs that read and write connections, see below.
    - SocksAuth, SocksServer, SocksUDP: pkg/socks5/auth.go, client.go,
      request.go, socks5.go, udp.go, apis/internal/handshake.go and
      pkg/common/copy.go (BidiCopyUDP).
    - SocksRelay: the TCP relay of a request ([BidiCopySocks5] and [BidiCopy] of
      pkg/socks5 and pkg/common/copy.go) as the moves of its two copying loops in
      any order, and the life of a socks5 server (New, Serve, acceptLoop, Close);
      SocksForward: [RunUDPForwardingLoop] of pkg/socks5/udp.go in the same way.
    - Mux: pkg/protocol/mux.go over the class [MuxUnderlay]; MuxAccept: the loop that
      accepts connections and forwards their sessions, over the class
      [ReadyUnderlay], and the count of underlays.
    - TrafficPattern: apis/trafficpattern/config.go.
    - PortBinding: pkg/appctl/appctlcommon/port_binding.go.
    - ConfigServer, ConfigClient: validation, merging and storing in
      pkg/appctl/server.go, client.go and pkg/appctl/appctlcommon.
    - ServerControl: Start, Stop, SetConfig and Reload of the management service
      (pkg/appctl/server.go), the proxy part of pkg/cli/server.go, and what the
      goroutine that serves does with an error of the listeners.
    - Metrics: pkg/metrics and [checkQuota] of pkg/protocol/session.go.
    - Api: apis/client, apis/server, apis/internal/early_conn.go.
    - Cli: pkg/cli/parser.go, helpfmt.go and the tables of client.go, server.go.
    - MitaCli: the commands of pkg/cli/server.go that act on the daemon, each an
      RPC on the service of ServerControl.
    - CliTables: pkg/cli/shared.go, pkg/common/format.go and the commands get users
      and get quotas.
    - Deque: pkg/deque/deque.go.
    - Url: what is used of net/url; Links: pkg/appctl/url.go, the share links, and
      their use in pkg/appctl/client.go.
    - Log: pkg/log and apis/log, levels, entries with their fields and pool,
      formatters, the logger and the log files of the client.
    - MetricsJson: the JSON of metrics and the logging loop of
      pkg/metrics/metric.go, export.go and registry.go.
    - Updater: pkg/version/scheme.go and pkg/version/updater.
    - ClientCli: the commands of pkg/cli/client.go over a machine with its
      configuration file, its running clients and their ports.
    - HttpProxy: pkg/socks5/http2socks.go and parse.go, the HTTP proxy of the client.
    - PanelText, PanelConfig: what the panel uses of strings, base64 and HMAC;
      mieru-panel/config/config.go with the arrays that its copies share.
    - PanelAuth, PanelFactor: logging in (handlers/auth.go, challenge.go, totp.go,
      login_totp_finish.go), pkg/admin2fa and pkg/ratelimit.
    - PanelUsers, PanelSettings: users, subscriptions, settings, backup, bootstrap
      (handlers/users.go, sub.go, security.go, backup.go, advanced.go,
      server_config.go, stats.go, main.go) over the class [MitaClient].
    - PanelMita: pkg/mita/client.go, which makes the server of MitaCli an instance
      of [MitaClient] and of [MitaTable].
    - PanelStats: the tables of CliTables as the panel reads them.
    - PanelDash: the log, the audit trail and the dashboard of the panel
      (pkg/applog, pkg/audit, pkg/dashboardmetrics, handlers/dashboard.go);
      PanelBoard: its collector and its handlers.
    - PanelMain: mieru-panel/main.go, the routes and who may use them, the pages,
      the init command and the monitor, with the handlers that report a status.
    - Process: pkg/stderror, the status and the type of the process, the configuration
      file on the disk (pkg/appctl), pkg/common/dialer.go and debug.go,
      apis/common/conn.go.
    - Connections: the list of sessions, from [ToSessionInfo] over the table of
      pkg/cli/shared.go to the panel.
    - Reports: the commands of pkg/cli that report of a daemon, and the first steps of
      the daemons.

    Names of definitions are those of the source wherever possible; a helper for
    a part of a method has a name of its own and a comment.

    ** How Go is modelled

    Integers are [Z] with their wrap-around written out ([u8], [u16], [u32],
    [i64]); slices are lists of bytes in [0, 255]; Go maps are [gmap]; floating
    point is computed exactly (Float).  State is passed explicitly, or through
    the state monad of Session.v.  Random numbers, clocks and the choice of a
    [select] are arguments, with their documented ranges as hypotheses
    ([draw_ok], [pad_draw_ok]).  A panic is a result: a theorem that something
    returns says that it does not panic.

    Code that is not part of the repository is an interface with its documented
    laws: XChaCha20-Poly1305 ([aead_laws]: opening what was sealed returns it,
    16 bytes of overhead), PBKDF2 (its output length), github.com/google/btree
    ([BTree], [BTreeLaws], with the list instance [listTree]), [math.Cbrt] and
    out-of-range float conversions.  Inside the repository, a session sees its
    underlay through the class [SegmentWriter] with [WriterLaws], which the packet
    underlay implements ([packetWriter_laws] in SessionDelivery); the event loops
    are proved over the writer of either underlay ([underlayWriter]).

    Name resolvers, dialers and listeners are arguments, and so are the JSON and
    protobuf encoders, [time.ParseDuration] and the file system, with the round
    trip or the meaning that the code relies on as a hypothesis of the theorems
    that need it.  The panel sees bcrypt, TOTP, AES-GCM and JSON through the record
    [libs] with [lib_laws], and the server through the class [MitaClient]; what it
    relies on is the class [MitaTable], which PanelMita discharges for the modelled
    server.  The JSON that the panel sends is a value ([payloadJSON]); that the
    server reads it by the field names of its proto files is the law of the
    encoders there ([readServerConfig]).  Repeated fields that are empty are absent
    on the wire, so the round trip of protobuf is assumed for such configurations
    only ([onWire], [wire]).

    Conversations: a [prog] (Interact) is a sequence of reads, writes and closes
    on connections that ends in an [outcome].  [run] executes one on the bytes
    that have arrived, [duo] executes a client and a server against each other
    over two pipes, so that a handshake is proved for both ends at once.

    Concurrency: each definition is what one goroutine does between two blocking
    points, under the lock the source holds there.  Where the source sleeps and
    polls, an argument says what the other goroutines do meanwhile; the theorems
    quantify over it.  The interleavings of calls are explicit lists of events
    ([rxEvent], [txEvent], [sessOp]); for the mux they are the stages of dials
    in progress mixed with cleaning and closing (Mux).

    Fuel: [removeAcked], [moveInOrder], [drainRecvQueue], [sendQueueStream] and
    [sendNew] get one more step than the tree has segments, and each step removes
    one; [readLoop] gets four rounds, and [readLoop_ret] shows that three are
    enough; [writeChunks] gets one round more than the data has bytes.  The polls
    of [waitForRoom] and [waitForProgress] are bounded by an argument, and running
    out is the result [Blocked], which the theorems allow for or exclude.  [duo] gets fuel
    that its theorems state as enough; the decimal and hexadecimal printers get
    one step per digit of the largest value, the IPv6 parser one per group and
    the binary search of DeltaBetween one more step than the history is long
    ([searchLoop_spec] shows the result is then exact).  [stripAll] gets as many
    steps as the text has bytes, [iecLoop] seven for the six powers of 1024 below
    2^64, and [double] 64 rounds, after which the doubled number has lost its bit.
    [GetAllStackTrace] grows its buffer 25 times, which is enough for 2^62 bytes.

    ** What is proved

    - Delivery (SessionDelivery, SessionSend, SessionRecv): whatever is written,
      and whatever the network loses, repeats or reorders, the peer reads a prefix
      of the accepted bytes; once every segment has arrived, it can read them
      all; no unacknowledged segment is lost by the sender.
    - Life of a session (SessionLife): under every interleaving the state only
      moves forward, the trees stay well formed, closing is final.
    - Dispatch (UnderlayLoop): a segment reaches the session it names and no
      other; the session map stays consistent; cleaning removes dead sessions.
    - Wire format (Metadata, UnderlayStream, UnderlayPacket, Padding, Socks):
      round trips through encoding, encryption, padding and fragmentation; bounds
      of paddings and datagrams; decoders that do not panic.
    - Cryptographic plumbing (Cipher, Auth, Replay): nonces do not repeat, client
      and server agree on keys within the clock window, only registered users are
      accepted, replays are detected and dropped, caches are bounded.
    - Socks5 (SocksAuth, SocksServer, SocksUDP, Egress): a client's dial through
      client, tunnel and server reaches the destination it names; only the
      configured users get in; the rules decide as their policy says; datagrams
      reach their destination, and answers only the client that asked.
    - Relay (SocksRelay): in every order of the two loops, what an end receives is
      a prefix of what the other sent, and all of it when its loop ends without an
      error; both loops end once both streams do.  Datagrams to another proxy keep
      their order, and their loop ends with its control connection (SocksForward).
    - Mux: cleaning never closes an underlay that a session uses or that a dial
      got within the idle time; every endpoint gets a listener; underlays are picked evenly.
      Sessions are accepted in the order in which an underlay opened them, each once,
      and none gets stuck while its forwarder runs (MuxAccept).
    - Configuration (TrafficPattern, PortBinding, ConfigServer, ConfigClient,
      ServerControl, Api): patches merge field by field and the passwords of the
      server reach the disk only as hashes; what validation accepts does start and does dial; the
      running client serves the configuration it reports.
    - Share links (Url, Links): a profile survives being written as links and read
      back, and dials the same endpoints.
    - Client commands (ClientCli, Updater): through every sequence of commands the
      file stays valid with every password hashed; a configuration that is
      exported and imported elsewhere gives the same client; a valid configuration
      starts, is reported, and stops; updates are announced and checked when due.
    - HTTP proxy (HttpProxy): tunnels reach the destination they name, requests and
      responses pass with every end-to-end header.
    - Metrics: counters account for all traffic through roll-ups, quotas refuse
      only who exceeded them, dumps can be loaded back; the JSON shows every
      metric with its value (MetricsJson).
    - Log: every line whose level is enabled is written once with its fields, the
      pool of entries cannot be observed, levels survive being printed and parsed.
    - Command line (Cli): the help text and the command tables agree.
    - Process: through every sequence of calls, and for every environment, the disk
      holds one configuration file as ConfigClient and ConfigServer have it; wrapping
      an error keeps its category.
    - Reports (Connections, Reports): the panel shows the sessions of a server;
      reports change nothing, a profile is saved through any of them; a first run
      creates an empty configuration.
    - Panel (PanelAuth, PanelFactor, PanelUsers, PanelSettings): a session cookie
      is given exactly for the right password, or, with a second factor, for a code
      and a token of the panel, within the limits; guesses between two accepted
      codes are bounded; enrolment leads to a login that works; subscriptions go
      exactly to their users, within the device limit; the configuration stays
      sound through every request and disk failure, as long as no file and no
      backup repeats a name.
    - Panel to server (PanelMita, PanelStats, MitaCli, CliTables): after a change
      that succeeds the server has exactly the panel's users, in the proxy too if
      it runs since the start of the daemon, and a
      profile from the panel has the key that the server expects; the bootstrap
      recovers from a late server; the traffic that the panel shows is the
      traffic that the server counted.
    - Panel pages (PanelDash): polling the log misses nothing, the audit page shows
      what was logged, the chart has the minutes of the last hour and adds up to the
      growth of the totals.  Without a session no request below /api/ but the login
      and the health check reaches a handler, and every clean path answers 401; a
      page is a file of the embedded directory (PanelMain).
    - The deque behaves as a list under every sequence of calls (Deque).
    - Segment tree as a bounded ordered map, congestion window bounds, RTT
      minimum, scheduler, fixed random integers.
    - Deviations: theorems of kind "error" show where the code does something
      that it does not mean to (a mirrored bit position, an unchecked length, a
      panic on a peer's input); each names its source line in the manifest.

    ** What is not modelled

    Sockets, timers and goroutine scheduling themselves; the start of the RPC
    servers; the HTTP server and client of the standard library; generated code;
    tests; of the panel the delivery of notifications and what its pages do in a
    browser.  The string methods only format.
    Full duplex in the delivery theorems: the sender's events are writes, output
    rounds and acknowledgements; data that it receives meanwhile is covered by
    the receiver's theorems and by the life of a session.  In the metrics, a pass
    of a roll-up is taken to end in the millisecond in which it began, and
    additions to take the lock in the order of their times, to the millisecond
    ([clock_ok], [ops_ok]). *)

From stdpp Require Import base list gmap strings sorting.
From stdpp Require Export base list gmap strings.
From Stdlib Require Export ZArith Lia.
Global Open Scope Z_scope.

(** ** Results of Go code

    A Go function either returns a value, returns an [error], or panics.  The
    three are kept apart: a panic is never an error value. *)

Inductive goerr : Type :=
| ErrAlreadyExist | ErrClosed | ErrEmpty | ErrFileNotExist | ErrFull | ErrInvalidArgument
| ErrInvalidOperation | ErrNotFound | ErrNotReady | ErrNullPointer
| ErrOutOfRange | ErrTimeout | ErrUnsupported
| ErrEOF | ErrUnexpectedEOF | ErrClosedPipe | ErrShortWrite
| Errorf (format : string).

Inductive outcome (A : Type) : Type :=
| Ret (a : A)
| Err (e : goerr)
| Panic (msg : string).
Arguments Ret {A} a.
Arguments Err {A} e.
Arguments Panic {A} msg.

Definition obind {A B} (m : outcome A) (k : A → outcome B) : outcome B :=
  match m with
  | Ret a => k a
  | Err e => Err e
  | Panic s => Panic s
  end.

Definition is_ret {A} (m : outcome A) : bool :=
  match m with Ret _ => true | _ => false end.

Definition is_panic {A} (m : outcome A) : bool :=
  match m with Panic _ => true | _ => false end.

Declare Scope go_scope.
Delimit Scope go_scope with go.
Notation "'let!' x ':=' m 'in' k" := (obind m (λ x, k))
  (at level 10, x pattern, m at level 100, k at level 200,
   format "'[v' 'let!'  x  ':='  m  'in'  '/' k ']'") : go_scope.
Notation "'guard!' b 'else' e 'in' k" := (if b then k else e)
  (at level 10, b at level 100, e at level 100, k at level 200,
   only parsing) : go_scope.
Global Open Scope go_scope.

#[global] Instance goerr_eq_dec : EqDecision goerr.
Proof. solve_decision. Defined.

Lemma obind_ret_inv {A B} (m : outcome A) (k : A → outcome B) b :
  obind m k = Ret b ↔ ∃ a, m = Ret a ∧ k a = Ret b.
Proof.
  destruct m; simpl; split; [eauto|intros (? & [= ->] & ?); done|done| |done|];
    intros (? & ? & ?); done.
Qed.

(** ** Machine integers

    A Go integer of width w is a [Z] in its range; the conversions below are
    the wrap-around of Go's conversions and arithmetic. *)

Definition u8 (z : Z) : Z := z `mod` 2 ^ 8.
Definition u16 (z : Z) : Z := z `mod` 2 ^ 16.
Definition u32 (z : Z) : Z := z `mod` 2 ^ 32.
Definition u64 (z : Z) : Z := z `mod` 2 ^ 64.
Definition i64 (z : Z) : Z := (z + 2 ^ 63) `mod` 2 ^ 64 - 2 ^ 63.

Definition in_u8 (z : Z) : Prop := 0 ≤ z < 2 ^ 8.
Definition in_u16 (z : Z) : Prop := 0 ≤ z < 2 ^ 16.
Definition in_u32 (z : Z) : Prop := 0 ≤ z < 2 ^ 32.
Definition in_u64 (z : Z) : Prop := 0 ≤ z < 2 ^ 64.

Lemma u8_small z : in_u8 z → u8 z = z.
Proof. apply Z.mod_small. Qed.
Lemma u16_small z : in_u16 z → u16 z = z.
Proof. apply Z.mod_small. Qed.
Lemma u32_small z : in_u32 z → u32 z = z.
Proof. apply Z.mod_small. Qed.
Lemma u64_small z : in_u64 z → u64 z = z.
Proof. apply Z.mod_small. Qed.
Lemma u8_range z : in_u8 (u8 z).
Proof. apply Z.mod_pos_bound; lia. Qed.
Lemma u16_range z : in_u16 (u16 z).
Proof. apply Z.mod_pos_bound; lia. Qed.
Lemma u32_range z : in_u32 (u32 z).
Proof. apply Z.mod_pos_bound; lia. Qed.
Lemma u64_range z : in_u64 (u64 z).
Proof. apply Z.mod_pos_bound; lia. Qed.
Lemma i64_small z : - 2 ^ 63 ≤ z < 2 ^ 63 → i64 z = z.
Proof. intros. unfold i64. rewrite Z.mod_small; lia. Qed.

Create HintDb mieru.
Create Rewrite HintDb mieru.
#[export] Hint Resolve u8_range u16_range u32_range u64_range : mieru.
#[export] Hint Rewrite u8_small u16_small u32_small u64_small
  using (unfold in_u8, in_u16, in_u32, in_u64 in *; lia) : mieru.

(** ** Bytes and byte slices

    A [[]byte] is a list of byte values; [bytes_ok] says that they are. *)

Abbreviation bytes := (list Z) (only parsing).
Definition bytes_ok (b : bytes) : Prop := Forall in_u8 b.

(** Length of a slice, as the Go [int] that [len] returns. *)
Definition len {A} (b : list A) : Z := Z.of_nat (length b).

Lemma len_nil {A} : len (@nil A) = 0.
Proof. done. Qed.
Lemma len_cons {A} (x : A) l : len (x :: l) = 1 + len l.
Proof. unfold len. simpl. lia. Qed.
Lemma len_app {A} (l k : list A) : len (l ++ k) = len l + len k.
Proof. unfold len. rewrite length_app. lia. Qed.
Lemma len_nonneg {A} (l : list A) : 0 ≤ len l.
Proof. unfold len. lia. Qed.
Lemma len_0 {A} (l : list A) : len l = 0 → l = [].
Proof. destruct l; unfold len; simpl; [done|lia]. Qed.
Lemma len_replicate {A} n (x : A) : len (replicate n x) = Z.of_nat n.
Proof. unfold len. by rewrite length_replicate. Qed.
Lemma in_u8_0 : in_u8 0.
Proof. done. Qed.
#[export] Hint Resolve in_u8_0 : mieru.
#[export] Hint Rewrite @len_nil @len_cons @len_app @len_replicate : mieru.
#[export] Hint Resolve len_nonneg : mieru.

(** [b[i:]], [b[:n]] for an index that may be out of range: Go panics. *)
Definition slice_from {A} (b : list A) (i : Z) : outcome (list A) :=
  if (0 <=? i) && (i <=? len b) then Ret (drop (Z.to_nat i) b)
  else Panic "slice bounds out of range".
Definition slice_to {A} (b : list A) (n : Z) : outcome (list A) :=
  if (0 <=? n) && (n <=? len b) then Ret (take (Z.to_nat n) b)
  else Panic "slice bounds out of range".

Lemma slice_to_app {A} (a b : list A) n : n = len a → slice_to (a ++ b) n = Ret a.
Proof.
  intros ->. unfold slice_to. rewrite len_app.
  pose proof (len_nonneg a). pose proof (len_nonneg b).
  rewrite (proj2 (Z.leb_le _ _)), (proj2 (Z.leb_le _ _)) by lia. simpl.
  unfold len. by rewrite Nat2Z.id, take_app_length.
Qed.
Lemma slice_from_app {A} (a b : list A) n : n = len a → slice_from (a ++ b) n = Ret b.
Proof.
  intros ->. unfold slice_from. rewrite len_app.
  pose proof (len_nonneg a). pose proof (len_nonneg b).
  rewrite (proj2 (Z.leb_le _ _)), (proj2 (Z.leb_le _ _)) by lia. simpl.
  unfold len. by rewrite Nat2Z.id, drop_app_length.
Qed.

(** Big-endian encoding ([encoding/binary]'s [BigEndian]). *)
Fixpoint be_put (n : nat) (v : Z) : bytes :=
  match n with
  | O => []
  | S n => u8 (Z.shiftr v (8 * Z.of_nat n)) :: be_put n v
  end.

Fixpoint be_get_acc (acc : Z) (b : bytes) : Z :=
  match b with
  | [] => acc
  | x :: b => be_get_acc (Z.shiftl acc 8 + x) b
  end.
Definition be_get (b : bytes) : Z := be_get_acc 0 b.

Lemma length_be_put n v : length (be_put n v) = n.
Proof. induction n; simpl; congruence. Qed.

Lemma be_put_ok n v : bytes_ok (be_put n v).
Proof. induction n; constructor; eauto with mieru. Qed.

Lemma be_get_acc_put n v acc :
  be_get_acc acc (be_put n v) = acc * 2 ^ (8 * Z.of_nat n) + v `mod` 2 ^ (8 * Z.of_nat n).
Proof.
  revert acc; induction n as [|n IH]; intros acc; simpl be_put; simpl be_get_acc.
  - rewrite Z.mod_1_r. lia.
  - rewrite IH. rewrite Z.shiftl_mul_pow2, Z.shiftr_div_pow2 by lia.
    unfold u8. set (p := 2 ^ (8 * Z.of_nat n)).
    assert (0 < p) by (apply Z.pow_pos_nonneg; lia).
    replace (2 ^ (8 * Z.of_nat (S n))) with (p * 2 ^ 8)
      by (unfold p; rewrite <- Z.pow_add_r by lia; f_equal; lia).
    rewrite (Z.rem_mul_r v p (2 ^ 8)) by lia. nia.
Qed.

Lemma be_get_put n v : be_get (be_put n v) = v `mod` 2 ^ (8 * Z.of_nat n).
Proof. unfold be_get. rewrite be_get_acc_put. lia. Qed.

Lemma be_get_acc_range acc b :
  0 ≤ acc → bytes_ok b → 0 ≤ be_get_acc acc b < (acc + 1) * 2 ^ (8 * len b).
Proof.
  intros Ha Hb. revert acc Ha. induction Hb as [|x b Hx Hb IH]; intros acc Ha; simpl.
  - change (8 * len []) with 0. lia.
  - destruct (IH (Z.shiftl acc 8 + x)) as [IH1 IH2].
    { rewrite Z.shiftl_mul_pow2 by lia. unfold in_u8 in Hx. lia. }
    split; [done|]. rewrite Z.shiftl_mul_pow2 in * by lia.
    rewrite len_cons. replace (8 * (1 + len b)) with (8 + 8 * len b) by lia.
    rewrite Z.pow_add_r by (pose proof (len_nonneg b); lia).
    assert (0 < 2 ^ (8 * len b)) by (apply Z.pow_pos_nonneg; pose proof (len_nonneg b); lia).
    unfold in_u8 in Hx. change (2 ^ 8) with 256 in *.
    set (q := 2 ^ (8 * len b)) in *.
    assert ((acc * 256 + x + 1) * q ≤ ((acc + 1) * 256) * q); [|lia].
    apply Z.mul_le_mono_nonneg_r; lia.
Qed.

Lemma be_get_range b : bytes_ok b → 0 ≤ be_get b < 2 ^ (8 * len b).
Proof.
  intros Hb. destruct (be_get_acc_range 0 b) as [? H]; [done..|].
  rewrite Z.mul_1_l in H. done.
Qed.

(** The bytes of a Go string. *)
Definition string_bytes (s : string) : bytes :=
  map (λ c, Z.of_N (Ascii.N_of_ascii c)) (String.list_ascii_of_string s).

(** The [n] bytes of a buffer at offset [off], and the update at that offset. *)
Definition sub_bytes (off n : nat) (b : bytes) : bytes := take n (drop off b).

(** Overwriting the last bytes of a buffer. *)
Lemma list_inserts_suffix {A} (i : nat) (h n : list A) :
  (i + length h = length n)%nat → list_inserts i h n = take i n ++ h.
Proof.
  intros H. rewrite <- (take_drop i n) at 1.
  replace i with (length (take i n) + 0)%nat at 1 by (rewrite length_take; lia).
  rewrite list_inserts_app_r. f_equal.
  rewrite <- (app_nil_r (drop i n)), list_inserts_0_r by (rewrite length_drop; lia).
  apply app_nil_r.
Qed.

(** ** Proof automation *)

(** Turn the boolean comparisons of the hypotheses and of the goal into
    propositions on [Z]. *)
Ltac bool_to_Z :=
  repeat match goal with
  | H : _ && _ = true |- _ => apply andb_true_iff in H; destruct H
  | H : _ || _ = false |- _ => apply orb_false_iff in H; destruct H
  | H : negb _ = true |- _ => apply negb_true_iff in H
  | H : negb _ = false |- _ => apply negb_false_iff in H
  | H : (_ <=? _) = true |- _ => apply Z.leb_le in H
  | H : (_ <=? _) = false |- _ => apply Z.leb_gt in H
  | H : (_ <? _) = true |- _ => apply Z.ltb_lt in H
  | H : (_ <? _) = false |- _ => apply Z.ltb_ge in H
  | H : (_ =? _) = true |- _ => apply Z.eqb_eq in H
  | H : (_ =? _) = false |- _ => apply Z.eqb_neq in H
  end.

(** Split on the condition of the first [if] or [match] of the goal. *)
Ltac case_if :=
  match goal with
  | |- context [if ?b then _ else _] => destruct b eqn:?
  end.

Ltac case_if_in H :=
  match type of H with
  | context [if ?b then _ else _] => destruct b eqn:?
  end.

(** Closes [bytes_ok] of an explicit list of bytes. *)
Ltac solve_bytes_ok :=
  unfold bytes_ok;
  repeat first [apply Forall_nil_2 | apply Forall_cons_2 | apply Forall_app_2];
  auto with mieru.
