(* ===== verification/Mathext.v ===== *)
(** * pkg/mathext: generic number helpers

    [Min], [Max], [Mid], [Abs] and [WithinRange] of numbers.go.  Go's type
    parameter [T] fixes the width of the arithmetic: [Abs] and [WithinRange],
    the two that compute, take the wrap function [w] of that type. *)

From S2P Require Import Prelude.

Module Mathext.

Definition Min (a b : Z) : Z := if a <=? b then a else b.
Definition Max (a b : Z) : Z := if b <=? a then a else b.

(** The three swaps of [Mid] on the slice [values]. *)
Definition Mid (a b c : Z) : Z :=
  let '(v0, v1, v2) := (a, b, c) in
  let '(v0, v1) := if v1 <? v0 then (v1, v0) else (v0, v1) in
  let '(v0, v2) := if v2 <? v0 then (v2, v0) else (v0, v2) in
  let '(v1, v2) := if v2 <? v1 then (v2, v1) else (v1, v2) in
  v1.

Definition Abs (w : Z → Z) (a : Z) : Z := if 0 <=? a then a else w (- a).

Definition WithinRange (w : Z → Z) (v target margin : Z) : bool :=
  Mid v (w (target - margin)) (w (target + margin)) =? v.

Lemma Min_spec a b : Min a b = Z.min a b.
Proof. unfold Min. case_if; bool_to_Z; lia. Qed.
Lemma Max_spec a b : Max a b = Z.max a b.
Proof. unfold Max. case_if; bool_to_Z; lia. Qed.

Lemma Mid_spec a b c : Mid a b c = Z.max (Z.min a b) (Z.min (Z.max a b) c).
Proof. unfold Mid. repeat case_if; bool_to_Z; lia. Qed.

Lemma WithinRange_iff w v target margin :
  w (target - margin) ≤ w (target + margin) →
  WithinRange w v target margin = true ↔
  w (target - margin) ≤ v ≤ w (target + margin).
Proof. intros. unfold WithinRange. rewrite Mid_spec, Z.eqb_eq. lia. Qed.

#[export] Hint Rewrite Min_spec Max_spec : mieru.

End Mathext.
Export Mathext.
