(* ===== verification/Metadata.v ===== *)
(** * pkg/protocol/metadata.go: segment metadata and its wire format

    The two metadata structures, their 32-byte encodings ([Marshal]) and
    decoders ([Unmarshal]).  The clock is an argument: [now] is the value of
    [time.Now().Unix()] when the function runs. *)

From S2P Require Import Prelude Mathext.

Module Metadata.

(** [protocolType], the constants. *)
Definition closeConnRequest : Z := 0.
Definition closeConnResponse : Z := 1.
Definition openSessionRequest : Z := 2.
Definition openSessionResponse : Z := 3.
Definition closeSessionRequest : Z := 4.
Definition closeSessionResponse : Z := 5.
Definition dataClientToServer : Z := 6.
Definition dataServerToClient : Z := 7.
Definition ackClientToServer : Z := 8.
Definition ackServerToClient : Z := 9.

Definition statusOK : Z := 0.
Definition statusQuotaExhausted : Z := 1.

Definition MetadataLength : nat := 32.
Definition MaxSessionOpenPayload : Z := 1024.

Record baseStruct := mkBase { protocol : Z; timestamp : Z }.

Record sessionStruct := mkSession {
  ss_base : baseStruct;
  ss_sessionID : Z;
  ss_seq : Z;
  ss_statusCode : Z;
  ss_payloadLen : Z;
  ss_suffixLen : Z
}.

Record dataAckStruct := mkDataAck {
  das_base : baseStruct;
  das_sessionID : Z;
  das_seq : Z;
  das_unAckSeq : Z;
  das_windowSize : Z;
  das_fragment : Z;
  das_prefixLen : Z;
  das_payloadLen : Z;
  das_suffixLen : Z
}.

(** [metadata] is implemented by [*sessionStruct] and [*dataAckStruct]. *)
Inductive metadata : Type :=
| MSession (ss : sessionStruct)
| MDataAck (das : dataAckStruct).

Definition Protocol (m : metadata) : Z :=
  match m with
  | MSession ss => protocol (ss_base ss)
  | MDataAck das => protocol (das_base das)
  end.

(** The zero values [&sessionStruct{}] and [&dataAckStruct{}]. *)
Definition zeroSession : sessionStruct := mkSession (mkBase 0 0) 0 0 0 0 0.
Definition zeroDataAck : dataAckStruct := mkDataAck (mkBase 0 0) 0 0 0 0 0 0 0 0.

Definition isSessionProtocol (p : Z) : bool :=
  (p =? openSessionRequest) || (p =? openSessionResponse) ||
  (p =? closeSessionRequest) || (p =? closeSessionResponse).

Definition isDataAckProtocol (p : Z) : bool :=
  (p =? dataClientToServer) || (p =? dataServerToClient) ||
  (p =? ackClientToServer) || (p =? ackServerToClient).

(** [uint32(time.Now().Unix() / 60)]; Go's division truncates. *)
Definition minuteOf (now : Z) : Z := u32 (Z.quot now 60).

(** [Marshal] stores the timestamp in the receiver and returns the buffer. *)
Definition sessionMarshal (now : Z) (ss : sessionStruct) : sessionStruct * bytes :=
  let b := replicate MetadataLength 0 in
  let b := <[0%nat := protocol (ss_base ss)]> b in
  let ts := minuteOf now in
  let b := list_inserts 2 (be_put 4 ts) b in
  let b := list_inserts 6 (be_put 4 (ss_sessionID ss)) b in
  let b := list_inserts 10 (be_put 4 (ss_seq ss)) b in
  let b := <[14%nat := ss_statusCode ss]> b in
  let b := list_inserts 15 (be_put 2 (ss_payloadLen ss)) b in
  let b := <[17%nat := ss_suffixLen ss]> b in
  (mkSession (mkBase (protocol (ss_base ss)) ts) (ss_sessionID ss) (ss_seq ss)
     (ss_statusCode ss) (ss_payloadLen ss) (ss_suffixLen ss), b).

Definition sessionUnmarshal (now : Z) (ss : sessionStruct) (b : bytes)
  : outcome sessionStruct :=
  guard! (Nat.eqb (length b) MetadataLength) else Err (Errorf "input bytes: %d, want %d") in
  let p := nth 0 b 0 in
  guard! isSessionProtocol p else Err (Errorf "invalid protocol %d") in
  let originalTimestamp := be_get (sub_bytes 2 4 b) in
  let currentTimestamp := minuteOf now in
  guard! WithinRange u32 currentTimestamp originalTimestamp 1
    else Err (Errorf "invalid timestamp %d") in
  if MaxSessionOpenPayload <? ss_payloadLen ss
  then Err (Errorf "payload size %d exceed maximum value %d")
  else Ret (mkSession (mkBase p originalTimestamp)
              (be_get (sub_bytes 6 4 b)) (be_get (sub_bytes 10 4 b))
              (nth 14 b 0) (be_get (sub_bytes 15 2 b)) (nth 17 b 0)).

Definition dataAckMarshal (now : Z) (das : dataAckStruct) : dataAckStruct * bytes :=
  let b := replicate MetadataLength 0 in
  let b := <[0%nat := protocol (das_base das)]> b in
  let ts := minuteOf now in
  let b := list_inserts 2 (be_put 4 ts) b in
  let b := list_inserts 6 (be_put 4 (das_sessionID das)) b in
  let b := list_inserts 10 (be_put 4 (das_seq das)) b in
  let b := list_inserts 14 (be_put 4 (das_unAckSeq das)) b in
  let b := list_inserts 18 (be_put 2 (das_windowSize das)) b in
  let b := <[20%nat := das_fragment das]> b in
  let b := <[21%nat := das_prefixLen das]> b in
  let b := list_inserts 22 (be_put 2 (das_payloadLen das)) b in
  let b := <[24%nat := das_suffixLen das]> b in
  (mkDataAck (mkBase (protocol (das_base das)) ts) (das_sessionID das) (das_seq das)
     (das_unAckSeq das) (das_windowSize das) (das_fragment das) (das_prefixLen das)
     (das_payloadLen das) (das_suffixLen das), b).

(** The receiver's old fields are all overwritten, and none is read. *)
Definition dataAckUnmarshal (now : Z) (b : bytes) : outcome dataAckStruct :=
  guard! (Nat.eqb (length b) MetadataLength) else Err (Errorf "input bytes: %d, want %d") in
  let p := nth 0 b 0 in
  guard! isDataAckProtocol p else Err (Errorf "invalid protocol %d") in
  let originalTimestamp := be_get (sub_bytes 2 4 b) in
  let currentTimestamp := minuteOf now in
  guard! WithinRange u32 currentTimestamp originalTimestamp 1
    else Err (Errorf "invalid timestamp %d") in
  Ret (mkDataAck (mkBase p originalTimestamp)
         (be_get (sub_bytes 6 4 b)) (be_get (sub_bytes 10 4 b))
         (be_get (sub_bytes 14 4 b)) (be_get (sub_bytes 18 2 b))
         (nth 20 b 0) (nth 21 b 0) (be_get (sub_bytes 22 2 b)) (nth 24 b 0)).

(** [m.Marshal()] and the two [to...Struct] views, whose type assertion panics
    when the protocol byte does not fit the dynamic type. *)
Definition Marshal (now : Z) (m : metadata) : metadata * bytes :=
  match m with
  | MSession ss => let '(ss, b) := sessionMarshal now ss in (MSession ss, b)
  | MDataAck das => let '(das, b) := dataAckMarshal now das in (MDataAck das, b)
  end.

Definition toSessionStruct (m : metadata) : outcome (option sessionStruct) :=
  if isSessionProtocol (Protocol m) then
    match m with
    | MSession ss => Ret (Some ss)
    | MDataAck _ => Panic "interface conversion"
    end
  else Ret None.

Definition toDataAckStruct (m : metadata) : outcome (option dataAckStruct) :=
  if isDataAckProtocol (Protocol m) then
    match m with
    | MDataAck das => Ret (Some das)
    | MSession _ => Panic "interface conversion"
    end
  else Ret None.

(** What both underlays do with a decrypted header: check its length, dispatch
    on the first byte, then [Unmarshal] into a zero structure. *)
Definition decodeMetadata (now : Z) (b : bytes) : outcome metadata :=
  guard! (Nat.eqb (length b) MetadataLength)
    else Err (Errorf "decrypted metadata size %d is unexpected") in
  let p := nth 0 b 0 in
  if isSessionProtocol p then
    let! ss := sessionUnmarshal now zeroSession b in Ret (MSession ss)
  else if isDataAckProtocol p then
    let! das := dataAckUnmarshal now b in Ret (MDataAck das)
  else Err (Errorf "unable to handle protocol %d").

(** ** Well-formed structures: every field in the range of its Go type. *)

Definition base_ok (b : baseStruct) : Prop := in_u8 (protocol b) ∧ in_u32 (timestamp b).

Definition session_ok (ss : sessionStruct) : Prop :=
  base_ok (ss_base ss) ∧ in_u32 (ss_sessionID ss) ∧ in_u32 (ss_seq ss) ∧
  in_u8 (ss_statusCode ss) ∧ in_u16 (ss_payloadLen ss) ∧ in_u8 (ss_suffixLen ss).

Definition dataack_ok (das : dataAckStruct) : Prop :=
  base_ok (das_base das) ∧ in_u32 (das_sessionID das) ∧ in_u32 (das_seq das) ∧
  in_u32 (das_unAckSeq das) ∧ in_u16 (das_windowSize das) ∧ in_u8 (das_fragment das) ∧
  in_u8 (das_prefixLen das) ∧ in_u16 (das_payloadLen das) ∧ in_u8 (das_suffixLen das).

(** The constructor of a metadata value fits its protocol byte. *)
Definition metadata_ok (m : metadata) : Prop :=
  match m with
  | MSession ss => session_ok ss ∧ isSessionProtocol (protocol (ss_base ss)) = true
  | MDataAck das => dataack_ok das ∧ isDataAckProtocol (protocol (das_base das)) = true
  end.

(** Two minutes are adjacent on the clock (and not at the ends of uint32). *)
Definition clocks_agree (t1 t2 : Z) : Prop :=
  1 ≤ minuteOf t1 < 2 ^ 32 - 1 ∧ Z.abs (minuteOf t2 - minuteOf t1) ≤ 1.

(** ** The encodings *)

Lemma WithinRange_minute (cur ts : Z) :
  1 ≤ ts < 2 ^ 32 - 1 → WithinRange u32 cur ts 1 = true ↔ Z.abs (cur - ts) ≤ 1.
Proof.
  intros. rewrite WithinRange_iff; autorewrite with mieru; lia.
Qed.

Lemma be_get_put4 v : in_u32 v → be_get (be_put 4 v) = v.
Proof. intros. rewrite be_get_put. by apply Z.mod_small. Qed.
Lemma be_get_put2 v : in_u16 v → be_get (be_put 2 v) = v.
Proof. intros. rewrite be_get_put. by apply Z.mod_small. Qed.
#[local] Hint Rewrite be_get_put4 be_get_put2 using (assumption || apply u32_range) : mieru.

Lemma sessionMarshal_length now ss : length (sessionMarshal now ss).2 = MetadataLength.
Proof. reflexivity. Qed.
Lemma dataAckMarshal_length now das : length (dataAckMarshal now das).2 = MetadataLength.
Proof. reflexivity. Qed.

Lemma sessionMarshal_ok now ss : session_ok ss → bytes_ok (sessionMarshal now ss).2.
Proof.
  intros (H0 & H1 & H2 & H3 & H4 & H5). destruct H0.
  simpl. solve_bytes_ok.
Qed.
Lemma dataAckMarshal_ok now das : dataack_ok das → bytes_ok (dataAckMarshal now das).2.
Proof.
  intros (H0 & H1 & H2 & H3 & H4 & H5 & H6 & H7 & H8). destruct H0.
  simpl. solve_bytes_ok.
Qed.

Lemma session_roundtrip t1 t2 ss :
  session_ok ss → isSessionProtocol (protocol (ss_base ss)) = true → clocks_agree t1 t2 →
  sessionUnmarshal t2 zeroSession (sessionMarshal t1 ss).2 = Ret (sessionMarshal t1 ss).1.
Proof.
  intros (H0 & H1 & H2 & H3 & H4 & H5) Hp [Ht1 Ht2].
  unfold sessionUnmarshal. set (b := (sessionMarshal t1 ss).2).
  change (nth 0 b 0) with (protocol (ss_base ss)).
  change (sub_bytes 2 4 b) with (be_put 4 (minuteOf t1)).
  change (sub_bytes 6 4 b) with (be_put 4 (ss_sessionID ss)).
  change (sub_bytes 10 4 b) with (be_put 4 (ss_seq ss)).
  change (sub_bytes 15 2 b) with (be_put 2 (ss_payloadLen ss)).
  unfold minuteOf at 2. autorewrite with mieru. fold (minuteOf t1).
  rewrite Hp, (proj2 (WithinRange_minute _ _ Ht1)) by done. reflexivity.
Qed.

Lemma dataAck_roundtrip t1 t2 das :
  dataack_ok das → isDataAckProtocol (protocol (das_base das)) = true → clocks_agree t1 t2 →
  dataAckUnmarshal t2 (dataAckMarshal t1 das).2 = Ret (dataAckMarshal t1 das).1.
Proof.
  intros (H0 & H1 & H2 & H3 & H4 & H5 & H6 & H7 & H8) Hp [Ht1 Ht2].
  unfold dataAckUnmarshal. set (b := (dataAckMarshal t1 das).2).
  change (nth 0 b 0) with (protocol (das_base das)).
  change (sub_bytes 2 4 b) with (be_put 4 (minuteOf t1)).
  change (sub_bytes 6 4 b) with (be_put 4 (das_sessionID das)).
  change (sub_bytes 10 4 b) with (be_put 4 (das_seq das)).
  change (sub_bytes 14 4 b) with (be_put 4 (das_unAckSeq das)).
  change (sub_bytes 18 2 b) with (be_put 2 (das_windowSize das)).
  change (sub_bytes 22 2 b) with (be_put 2 (das_payloadLen das)).
  unfold minuteOf at 2. autorewrite with mieru. fold (minuteOf t1).
  rewrite Hp, (proj2 (WithinRange_minute _ _ Ht1)) by done. reflexivity.
Qed.

Lemma dataAck_not_session p : isDataAckProtocol p = true → isSessionProtocol p = false.
Proof.
  unfold isDataAckProtocol, isSessionProtocol, openSessionRequest, openSessionResponse,
    closeSessionRequest, closeSessionResponse, dataClientToServer, dataServerToClient,
    ackClientToServer, ackServerToClient.
  rewrite !orb_true_iff, !orb_false_iff, !Z.eqb_eq, !Z.eqb_neq. lia.
Qed.

Lemma decode_marshal t1 t2 m :
  metadata_ok m → clocks_agree t1 t2 →
  decodeMetadata t2 (Marshal t1 m).2 = Ret (Marshal t1 m).1.
Proof.
  destruct m as [ss|das]; intros [Hok Hp] Hc; unfold decodeMetadata, Marshal.
  - pose proof (session_roundtrip t1 t2 ss Hok Hp Hc) as Hr.
    destruct (sessionMarshal t1 ss) as [ss' b] eqn:E. simpl in *.
    replace (length b) with MetadataLength by by (injection E; intros <-).
    replace (nth 0 b 0) with (protocol (ss_base ss)) by by (injection E; intros <-).
    simpl. by rewrite Hp, Hr.
  - pose proof (dataAck_roundtrip t1 t2 das Hok Hp Hc) as Hr.
    destruct (dataAckMarshal t1 das) as [das' b] eqn:E. simpl in *.
    replace (length b) with MetadataLength by by (injection E; intros <-).
    replace (nth 0 b 0) with (protocol (das_base das)) by by (injection E; intros <-).
    simpl. by rewrite (dataAck_not_session _ Hp), Hp, Hr.
Qed.

Lemma Marshal_length now m : length (Marshal now m).2 = MetadataLength.
Proof. by destruct m. Qed.
Lemma Marshal_ok now m : metadata_ok m → bytes_ok (Marshal now m).2.
Proof.
  destruct m; intros [? ?]; [by apply sessionMarshal_ok|by apply dataAckMarshal_ok].
Qed.

Lemma be_get_sub_range off n b :
  bytes_ok b → (off + n ≤ length b)%nat →
  0 ≤ be_get (sub_bytes off n b) < 2 ^ (8 * Z.of_nat n).
Proof.
  intros Hb Hl. unfold be_get, sub_bytes.
  pose proof (be_get_acc_range 0 (take n (drop off b))) as H.
  unfold len in H. rewrite length_take, length_drop, Nat.min_l in H by lia.
  rewrite Z.mul_1_l in H. apply H; [lia|]. by apply Forall_take, Forall_drop.
Qed.

Lemma nth_byte i b : bytes_ok b → in_u8 (nth i b 0).
Proof.
  intros Hb. destruct (nth_in_or_default i b 0) as [Hin| ->]; [|done].
  unfold bytes_ok in Hb. rewrite Forall_forall in Hb. apply Hb. by apply list_elem_of_In.
Qed.

Lemma session_unmarshal_ok now ss0 b ss :
  bytes_ok b → sessionUnmarshal now ss0 b = Ret ss →
  session_ok ss ∧ isSessionProtocol (protocol (ss_base ss)) = true.
Proof.
  intros Hb. unfold sessionUnmarshal. destruct (Nat.eqb_spec (length b) MetadataLength) as [Hl|];
    [|done]. repeat (case_if; [|done]). case_if; [done|]. intros [= <-]. split; [|done].
  unfold MetadataLength in Hl.
  repeat split; simpl; try (apply nth_byte; done);
    apply be_get_sub_range; (done || (rewrite Hl; lia)).
Qed.

Lemma dataAck_unmarshal_ok now b das :
  bytes_ok b → dataAckUnmarshal now b = Ret das →
  dataack_ok das ∧ isDataAckProtocol (protocol (das_base das)) = true.
Proof.
  intros Hb. unfold dataAckUnmarshal. destruct (Nat.eqb_spec (length b) MetadataLength) as [Hl|];
    [|done]. repeat (case_if; [|done]). intros [= <-]. split; [|done].
  unfold MetadataLength in Hl.
  repeat split; simpl; try (apply nth_byte; done);
    apply be_get_sub_range; (done || (rewrite Hl; lia)).
Qed.

(** ** Properties *)

(** C7: encoding a well-formed metadata value and decoding the 32 bytes within
    the allowed clock skew of one minute gives back every field (with the
    timestamp that [Marshal] stored), for session and data/ack metadata. *)
Theorem metadata_roundtrip t1 t2 m :
  metadata_ok m → clocks_agree t1 t2 →
  let '(m', b) := Marshal t1 m in
  length b = MetadataLength ∧ bytes_ok b ∧ decodeMetadata t2 b = Ret m'.
Proof.
  intros Hok Hc. pose proof (decode_marshal t1 t2 m Hok Hc).
  pose proof (Marshal_length t1 m). pose proof (Marshal_ok t1 m Hok).
  by destruct (Marshal t1 m).
Qed.

Lemma metadata_roundtrip_witness :
  let m := MDataAck (mkDataAck (mkBase dataClientToServer 0) 7 11 5 256 3 10 1200 20) in
  let '(m', b) := Marshal 1700000000 m in
  length b = MetadataLength ∧ bytes_ok b ∧ decodeMetadata 1700000059 b = Ret m'.
Proof.
  apply metadata_roundtrip; vm_compute; repeat split; congruence.
Defined.

(** the header decoder never panics, and it accepts exactly the 32-byte
    inputs with a known protocol byte and a fresh timestamp; what it accepts is
    well formed, so it can be marshalled again. *)
Theorem decode_metadata_total now b :
  bytes_ok b →
  (∃ m, decodeMetadata now b = Ret m ∧ metadata_ok m ∧ Protocol m = nth 0 b 0 ∧
        length b = MetadataLength ∧
        WithinRange u32 (minuteOf now) (be_get (sub_bytes 2 4 b)) 1 = true) ∨
  (∃ e, decodeMetadata now b = Err e ∧
        ¬ (length b = MetadataLength ∧
           (isSessionProtocol (nth 0 b 0) || isDataAckProtocol (nth 0 b 0)) = true ∧
           WithinRange u32 (minuteOf now) (be_get (sub_bytes 2 4 b)) 1 = true)).
Proof.
  intros Hb. unfold decodeMetadata.
  destruct (Nat.eqb_spec (length b) MetadataLength) as [Hl|Hl]; [|right; naive_solver].
  destruct (isSessionProtocol (nth 0 b 0)) eqn:Hs;
    [|destruct (isDataAckProtocol (nth 0 b 0)) eqn:Hd].
  - destruct (sessionUnmarshal now zeroSession b) eqn:E.
    + left. eexists. split; [done|]. pose proof (session_unmarshal_ok _ _ _ _ Hb E).
      split; [done|]. unfold sessionUnmarshal in E. rewrite Hl, Hs in E. simpl in E.
      case_if_in E; [|done]. by injection E as <-.
    + right. eexists. split; [done|]. unfold sessionUnmarshal in E. rewrite Hl, Hs in E.
      simpl in E. case_if_in E; naive_solver.
    + unfold sessionUnmarshal in E. by repeat case_if_in E.
  - destruct (dataAckUnmarshal now b) eqn:E.
    + left. eexists. split; [done|]. pose proof (dataAck_unmarshal_ok _ _ _ Hb E).
      split; [done|]. unfold dataAckUnmarshal in E. rewrite Hl, Hd in E. simpl in E.
      case_if_in E; [|done]. by injection E as <-.
    + right. eexists. split; [done|]. unfold dataAckUnmarshal in E. rewrite Hl, Hd in E.
      simpl in E. case_if_in E; naive_solver.
    + unfold dataAckUnmarshal in E. by repeat case_if_in E.
  - right. naive_solver.
Qed.

Lemma decode_metadata_total_witness :
  let b := (Marshal 1700000000
              (MSession (mkSession (mkBase openSessionRequest 0) 7 0 0 12 3))).2 in
  ∃ m, decodeMetadata 1700000061 b = Ret m.
Proof.
  intros b. destruct (decode_metadata_total 1700000061 b) as [(m & H & _)|(e & H & _)].
  - apply Marshal_ok. vm_compute. repeat split; congruence.
  - by exists m.
  - vm_compute in H. discriminate H.
Defined.

(** the payload limit of session metadata is not enforced.  [Unmarshal]
    tests the receiver's payload length before it reads the one on the wire,
    so every 16-bit payload length above the maximum is accepted. *)
Theorem session_payload_limit_not_enforced n :
  MaxSessionOpenPayload < n < 2 ^ 16 →
  ∃ now b ss, bytes_ok b ∧ sessionUnmarshal now zeroSession b = Ret ss ∧
    ss_payloadLen ss = n.
Proof.
  intros Hn. set (ss := mkSession (mkBase openSessionRequest 0) 1 0 0 n 0).
  assert (session_ok ss).
  { unfold MaxSessionOpenPayload in Hn. repeat split; simpl; done || lia. }
  exists 1700000000, (sessionMarshal 1700000000 ss).2, (sessionMarshal 1700000000 ss).1.
  split; [by apply sessionMarshal_ok|]. split; [|done].
  by apply session_roundtrip.
Qed.

Lemma session_payload_limit_not_enforced_witness :
  ∃ now b ss, bytes_ok b ∧ sessionUnmarshal now zeroSession b = Ret ss ∧
    ss_payloadLen ss = 65535.
Proof. apply session_payload_limit_not_enforced. vm_compute. split; reflexivity. Defined.

End Metadata.
Export Metadata.
