(* ===== verification/Sha256.v ===== *)
(** * Hash functions of Go's standard library that the program uses

    [crypto/sha256]'s [Sum256] (FIPS 180-4) and [hash/fnv]'s 64-bit FNV-1a, as
    executable functions on byte lists, with what the components rely on: the
    length of a digest and the range of its bytes. *)

From S2P Require Import Prelude.

Module Sha256.

Definition rotr (x n : Z) : Z := Z.lor (Z.shiftr x n) (u32 (Z.shiftl x (32 - n))).
Definition ch (x y z : Z) : Z := Z.lxor (Z.land x y) (Z.land (Z.lxor x (2 ^ 32 - 1)) z).
Definition maj (x y z : Z) : Z := Z.lxor (Z.lxor (Z.land x y) (Z.land x z)) (Z.land y z).
Definition bsig0 (x : Z) : Z := Z.lxor (Z.lxor (rotr x 2) (rotr x 13)) (rotr x 22).
Definition bsig1 (x : Z) : Z := Z.lxor (Z.lxor (rotr x 6) (rotr x 11)) (rotr x 25).
Definition ssig0 (x : Z) : Z := Z.lxor (Z.lxor (rotr x 7) (rotr x 18)) (Z.shiftr x 3).
Definition ssig1 (x : Z) : Z := Z.lxor (Z.lxor (rotr x 17) (rotr x 19)) (Z.shiftr x 10).

(** The constants of the standard: the first 32 bits of the fractional parts of
    the cube roots (round constants) and of the square roots (initial state) of
    the first primes.  They are computed here from that definition. *)
Definition isPrime (n : Z) : bool :=
  forallb (λ d, negb (n `mod` d =? 0)) (map Z.of_nat (seq 2 (Z.to_nat n - 2))).
Definition primesBelow (n : nat) : list Z := List.filter isPrime (map Z.of_nat (seq 2 (n - 2))).

(** Integer cube root of a number below [2 ^ 108], bit by bit. *)
Definition icbrt (n : Z) : Z :=
  foldl (λ r k, if (r + 2 ^ k) ^ 3 <=? n then r + 2 ^ k else r) 0
    (reverse (map Z.of_nat (seq 0 36))).

Definition K256 : list Z :=
  Eval vm_compute in map (λ p, u32 (icbrt (p * 2 ^ 96))) (primesBelow 312).
Definition IV256 : list Z :=
  Eval vm_compute in map (λ p, u32 (Z.sqrt (p * 2 ^ 64))) (primesBelow 20).

(** The message schedule, newest word first. *)
Fixpoint schedule (n : nat) (w : list Z) : list Z :=
  match n with
  | O => w
  | S n =>
      schedule n
        (u32 (ssig1 (nth 1 w 0) + nth 6 w 0 + ssig0 (nth 14 w 0) + nth 15 w 0) :: w)
  end.

Definition round256 (s : list Z) (kw : Z * Z) : list Z :=
  match s with
  | [a; b; c; d; e; f; g; h] =>
      let t1 := h + bsig1 e + ch e f g + kw.1 + kw.2 in
      let t2 := bsig0 a + maj a b c in
      [u32 (t1 + t2); a; b; c; u32 (d + t1); e; f; g]
  | _ => s
  end.

Fixpoint words (n : nat) (b : bytes) : list Z :=
  match n with
  | O => []
  | S n => be_get (take 4 b) :: words n (drop 4 b)
  end.

Definition compress (h : list Z) (block : bytes) : list Z :=
  let w := reverse (schedule 48 (reverse (words 16 block))) in
  let s := foldl round256 h (zip K256 w) in
  zip_with (λ x y, u32 (x + y)) h s.

Definition pad (b : bytes) : bytes :=
  let l := len b in
  b ++ [128] ++ replicate (Z.to_nat ((55 - l) `mod` 64)) 0 ++ be_put 8 (8 * l).

Fixpoint blocks (fuel : nat) (h : list Z) (b : bytes) : list Z :=
  match fuel with
  | O => h
  | S fuel => match b with [] => h | _ => blocks fuel (compress h (take 64 b)) (drop 64 b) end
  end.

(** [sha256.Sum256]: the padded message holds fewer than [length b + 72] bytes,
    so [length b + 72] blocks are more than enough. *)
Definition Sum256 (b : bytes) : bytes :=
  let h := blocks (length b + 72) IV256 (pad b) in
  foldr (λ w acc, be_put 4 w ++ acc) [] (take 8 (h ++ replicate 8 0)).

(** [hash/fnv]: [New64a], [Write], [Sum64]. *)
Definition fnv64a (b : bytes) : Z :=
  foldl (λ h x, u64 (Z.lxor h x * 0x100000001b3)) 0xcbf29ce484222325 b.

Lemma length_concat_words (l : list Z) :
  length (foldr (λ w acc, be_put 4 w ++ acc) [] l) = (4 * length l)%nat.
Proof.
  induction l as [|w l IH]; [done|].
  cbn [foldr length]. rewrite length_app, length_be_put, IH. lia.
Qed.

Lemma length_Sum256 b : length (Sum256 b) = 32%nat.
Proof.
  unfold Sum256. rewrite length_concat_words, length_take, length_app, length_replicate. lia.
Qed.

Lemma Sum256_ok b : bytes_ok (Sum256 b).
Proof.
  unfold Sum256. generalize (take 8 (blocks (length b + 72) IV256 (pad b) ++ replicate 8 0)).
  intros l. induction l; [constructor|]. cbn [foldr].
  apply Forall_app_2; [apply (be_put_ok 4)|done].
Qed.

Lemma fnv64a_range b : in_u64 (fnv64a b).
Proof.
  unfold fnv64a. induction b as [|x b] using rev_ind; [done|].
  rewrite foldl_app. simpl. auto with mieru.
Qed.

(** The FIPS 180-4 vectors for the empty message and "abc", and the FNV-1a
    value of "a". *)
Example sum256_empty : be_get (Sum256 []) =
  0xe3b0c44298fc1c149afbf4c8996fb92427ae41e4649b934ca495991b7852b855.
Proof. vm_compute. reflexivity. Qed.
Example sum256_abc : be_get (Sum256 [0x61; 0x62; 0x63]) =
  0xba7816bf8f01cfea414140de5dae2223b00361a396177a9cb410ff61f20015ad.
Proof. vm_compute. reflexivity. Qed.
Example sum256_two_blocks : be_get (take 4 (Sum256 (replicate 64 0x61))) = 0xffe054fe.
Proof. vm_compute. reflexivity. Qed.
Example fnv64a_a : fnv64a [0x61] = 0xaf63dc4c8601ec8c.
Proof. vm_compute. reflexivity. Qed.

End Sha256.
Export Sha256.
