(* ===== verification/Float.v ===== *)
(** * IEEE 754 arithmetic of Go's [float64] and [float32]

    Binary64 and binary32 operations, rounding to nearest even, on the
    Standard Library's [spec_float], and Go's conversions between floats and
    integers (towards zero).  Everything here computes. *)

From Stdlib Require Import SpecFloat.
From S2P Require Import Prelude.

Module Float.

Definition float := spec_float.

(** Format parameters: precision and maximal exponent. *)
Record format := mkFormat { prec : Z; emax : Z }.
Definition binary64 : format := mkFormat 53 1024.
Definition binary32 : format := mkFormat 24 128.

Definition of_Z (f : format) (z : Z) : float := binary_normalize (prec f) (emax f) z 0 false.
Definition fadd (f : format) : float → float → float := SFadd (prec f) (emax f).
Definition fsub (f : format) : float → float → float := SFsub (prec f) (emax f).
Definition fmul (f : format) : float → float → float := SFmul (prec f) (emax f).
Definition fdiv (f : format) : float → float → float := SFdiv (prec f) (emax f).
Definition fsqrt (f : format) : float → float := SFsqrt (prec f) (emax f).
Definition flt : float → float → bool := SFltb.
Definition fle : float → float → bool := SFleb.

(** Truncation towards zero of a finite value. *)
Definition trunc (x : float) : option Z :=
  match x with
  | S754_zero _ => Some 0
  | S754_finite s m e =>
      let a := if 0 <=? e then Z.shiftl (Zpos m) e else Z.shiftr (Zpos m) (- e) in
      Some (if s then - a else a)
  | _ => None
  end.

(** Go's conversion to an integer type with range [lo, hi): the truncated
    value when it fits, otherwise a value [oob x] that the implementation
    chooses. *)
Definition to_int (lo hi : Z) (oob : float → Z) (x : float) : Z :=
  match trunc x with
  | Some z => if (lo <=? z) && (z <? hi) then z else oob x
  | None => oob x
  end.
Definition to_u32 (oob : float → Z) : float → Z := to_int 0 (2 ^ 32) oob.
Definition to_i64 (oob : float → Z) : float → Z := to_int (- 2 ^ 63) (2 ^ 63) oob.

(** Constants of the source, as the nearest binary64 values. *)
Definition f64_0_7 : float := S754_finite false 0x16666666666666 (-53).
Definition f64_0_4 : float := S754_finite false 0x1999999999999a (-54).
(** [1 - 0.7] of the typed constant. *)
Definition f64_1_minus_0_7 : float := S754_finite false 0x13333333333334 (-54).
Definition f64_1_5 : float := S754_finite false 0x18000000000000 (-52).
Definition f64_0_325 : float := S754_finite false 0x14cccccccccccd (-54).
Definition f64_0_5 : float := S754_finite false 0x10000000000000 (-53).
(** Exact binary32 constants 0.125, 0.875, 0.25, 0.75. *)
Definition f32_0_125 : float := S754_finite false 0x800000 (-26).
Definition f32_0_875 : float := S754_finite false 0xe00000 (-24).
Definition f32_0_25 : float := S754_finite false 0x800000 (-25).
Definition f32_0_75 : float := S754_finite false 0xc00000 (-24).

Lemma to_int_range lo hi oob x :
  (∀ y, lo ≤ oob y < hi) → lo ≤ to_int lo hi oob x < hi.
Proof.
  intros H. unfold to_int. destruct (trunc x); [|apply H].
  case_if; [bool_to_Z; lia|apply H].
Qed.

Example f64_const_checks :
  fdiv binary64 (of_Z binary64 7) (of_Z binary64 10) = f64_0_7 ∧
  fdiv binary64 (of_Z binary64 4) (of_Z binary64 10) = f64_0_4 ∧
  fsub binary64 (of_Z binary64 1) f64_0_7 = f64_1_minus_0_7 ∧
  fdiv binary64 (of_Z binary64 15) (of_Z binary64 10) = f64_1_5 ∧
  fdiv binary64 (of_Z binary64 325) (of_Z binary64 1000) = f64_0_325 ∧
  fdiv binary64 (of_Z binary64 1) (of_Z binary64 2) = f64_0_5 ∧
  fdiv binary32 (of_Z binary32 1) (of_Z binary32 8) = f32_0_125 ∧
  fdiv binary32 (of_Z binary32 7) (of_Z binary32 8) = f32_0_875 ∧
  fdiv binary32 (of_Z binary32 1) (of_Z binary32 4) = f32_0_25 ∧
  fdiv binary32 (of_Z binary32 3) (of_Z binary32 4) = f32_0_75.
Proof. vm_compute. repeat split. Qed.

End Float.
Export Float.
