(* ===== verification/Common.v ===== *)
(** * pkg/common: byte helpers

    Printable rewriting (ascii.go), slice filling (bytes.go), bit counting
    (entropy.go).  Random draws are arguments: [rnd i] is what the generator
    returns for index [i]. *)

From S2P Require Import Prelude Mathext Float.

Module Common.

Definition PrintableCharSub : Z := 0x20.
Definition PrintableCharSup : Z := 0x7E.
Definition Common64Set : string :=
  "!@#$%^&*()ABCDEFGHIJKLMNOPQRSTUVWXYZabcdefghijklmnopqrstuvwxyz<>".

Definition isPrintable (c : Z) : bool := (PrintableCharSub <=? c) && (c <=? PrintableCharSup).

(** A loop [for i := begin; i < end; i++ { b[i] = f(i, b[i]) }], [n] steps. *)
Fixpoint rewriteLoop (f : nat → Z → Z) (i n : nat) (b : bytes) : bytes :=
  match n with
  | O => b
  | S n => rewriteLoop f (S i) n (alter (f i) i b)
  end.

(** The two bounds checks of [ToPrintableChar] and [ToCommon64Set]; a negative
    [beginIdx] panics at the first index expression. *)
Definition rewriteRange (f : nat → Z → Z) (b : bytes) (beginIdx endIdx : Z) : outcome bytes :=
  if endIdx <? beginIdx then Panic "begin index > end index"
  else if len b <? endIdx then Panic "index out of range"
  else if (beginIdx <? 0) && (beginIdx <? endIdx) then Panic "index out of range"
  else Ret (rewriteLoop f (Z.to_nat beginIdx) (Z.to_nat (endIdx - beginIdx)) b).

(** The body of the loop of [ToPrintableChar]; [r] is the value of [crand.Int],
    drawn from [0, 95). *)
Definition printableByte (r c : Z) : Z :=
  if (c <? PrintableCharSub) || (PrintableCharSup <? c) then
    if 0 <? Z.land c 0x80 then
      let lowBits := Z.land c 0x7F in
      if (PrintableCharSub <=? lowBits) && (lowBits <=? PrintableCharSup)
      then lowBits
      else u8 (r + PrintableCharSub)
    else u8 (r + PrintableCharSub)
  else c.

Definition ToPrintableChar (rnd : nat → Z) (b : bytes) (beginIdx endIdx : Z) : outcome bytes :=
  rewriteRange (λ i c, printableByte (rnd i) c) b beginIdx endIdx.

Definition common64Byte (c : Z) : Z :=
  nth (Z.to_nat (Z.land c 0x3f)) (string_bytes Common64Set) 0.

Definition ToCommon64Set (b : bytes) (beginIdx endIdx : Z) : outcome bytes :=
  rewriteRange (λ _ c, common64Byte c) b beginIdx endIdx.

Fixpoint maxConsecutiveLoop (b : bytes) (maxLen currentLen : Z) : Z :=
  match b with
  | [] => maxLen
  | c :: b =>
      if isPrintable c then
        let currentLen := currentLen + 1 in
        maxConsecutiveLoop b (if maxLen <? currentLen then currentLen else maxLen) currentLen
      else maxConsecutiveLoop b maxLen 0
  end.
Definition MaxConsecutivePrintableLength (b : bytes) : Z := maxConsecutiveLoop b 0 0.

Definition FillBytes (b : bytes) (value : Z) : bytes := map (λ _, value) b.
Definition IsBitsAllZero (b : bytes) : bool := forallb (λ v, v =? 0) b.
Definition IsBitsAllOne (b : bytes) : bool := forallb (λ v, v =? 0xFF) b.

(** The counts of [ToBitDistribution] (entropy.go): [(b >> i) & 1]. *)
Fixpoint bitCountsByte (n : nat) (i b : Z) (c : Z * Z) : Z * Z :=
  match n with
  | O => c
  | S n =>
      bitCountsByte n (i + 1) b
        (if Z.land (Z.shiftr b i) 1 =? 0 then (c.1 + 1, c.2) else (c.1, c.2 + 1))
  end.
Definition bitCounts (arr : bytes) : Z * Z :=
  foldl (λ c b, bitCountsByte 8 0 b c) (0, 0) arr.

(** The source counts in float64, which is exact for slices under 2^50 bytes. *)
Record BitDistribution := mkBitDist {
  Bit0 : float; Bit1 : float; Bit0Count : Z; Bit1Count : Z
}.

Definition ToBitDistribution (arr : bytes) : BitDistribution :=
  match arr with
  | [] => mkBitDist f64_0_5 f64_0_5 0 0
  | _ =>
      let '(bit0Count, bit1Count) := bitCounts arr in
      let n := of_Z binary64 (len arr * 8) in
      mkBitDist (fdiv binary64 (of_Z binary64 bit0Count) n)
        (fdiv binary64 (of_Z binary64 bit1Count) n) bit0Count bit1Count
  end.

(** A run of printable bytes of length [n] somewhere in [b]. *)
Definition has_run (b : bytes) (n : Z) : Prop :=
  0 ≤ n ∧ ∃ i : nat, Z.of_nat i + n ≤ len b ∧
  ∀ j : nat, Z.of_nat i ≤ Z.of_nat j < Z.of_nat i + n → isPrintable (nth j b 0) = true.

(** ** Lemmas *)

Lemma length_rewriteLoop f i n b : length (rewriteLoop f i n b) = length b.
Proof. revert i b. induction n; intros; simpl; [done|]. by rewrite IHn, length_alter. Qed.

Lemma lookup_rewriteLoop f i n b j :
  rewriteLoop f i n b !! j =
  if bool_decide (i ≤ j < i + n)%nat then f j <$> b !! j else b !! j.
Proof.
  revert i b. induction n as [|n IH]; intros i b; simpl.
  - rewrite bool_decide_eq_false_2 by lia. done.
  - rewrite IH. destruct (decide (j = i)) as [->|Hne].
    + rewrite bool_decide_eq_false_2, bool_decide_eq_true_2 by lia.
      by rewrite list_lookup_alter_eq.
    + rewrite list_lookup_alter_ne by done.
      case_bool_decide; case_bool_decide; done || lia.
Qed.

Lemma rewriteRange_ret f b beginIdx endIdx :
  0 ≤ beginIdx ≤ endIdx → endIdx ≤ len b →
  rewriteRange f b beginIdx endIdx =
    Ret (rewriteLoop f (Z.to_nat beginIdx) (Z.to_nat (endIdx - beginIdx)) b).
Proof.
  intros. unfold rewriteRange.
  rewrite (proj2 (Z.ltb_ge _ _)), (proj2 (Z.ltb_ge (len b) _)),
    (proj2 (Z.ltb_ge beginIdx 0)) by lia. done.
Qed.

Lemma printableByte_printable r c :
  0 ≤ r < 95 → in_u8 c → isPrintable (printableByte r c) = true.
Proof.
  intros Hr Hc. unfold printableByte, isPrintable, PrintableCharSub, PrintableCharSup in *.
  repeat case_if; rewrite ?u8_small by (unfold in_u8; lia);
    rewrite ?andb_true_iff, ?Z.leb_le; bool_to_Z;
    rewrite ?andb_true_iff, ?orb_true_iff, ?Z.leb_le, ?Z.ltb_lt in *; lia.
Qed.

Lemma printableByte_id r c : isPrintable c = true → printableByte r c = c.
Proof.
  unfold printableByte, isPrintable. intros ?. bool_to_Z.
  rewrite (proj2 (Z.ltb_ge _ _)), (proj2 (Z.ltb_ge _ _)) by lia. done.
Qed.

Lemma common64Byte_in c :
  common64Byte c ∈ string_bytes Common64Set.
Proof.
  unfold common64Byte. apply list_elem_of_In, nth_In.
  change (length (string_bytes Common64Set)) with 64%nat.
  change 0x3f with (Z.ones 6). rewrite Z.land_ones by lia.
  pose proof (Z.mod_pos_bound c (2 ^ 6)). lia.
Qed.

(** What [maxConsecutiveLoop] knows after the prefix [p]: [m] is the longest
    run of [p] and [cur] the length of the run that [p] ends with. *)
Definition run_inv (p : bytes) (m cur : Z) : Prop :=
  0 ≤ cur ≤ m ∧ cur ≤ len p ∧ has_run p m ∧ (∀ n, has_run p n → n ≤ m) ∧
  (∀ j : nat, len p - cur ≤ Z.of_nat j < len p → isPrintable (nth j p 0) = true) ∧
  (cur < len p → isPrintable (nth (Z.to_nat (len p - cur - 1)) p 0) = false).

Lemma nth_snoc_old p c (j : nat) : Z.of_nat j < len p → nth j (p ++ [c]) 0 = nth j p 0.
Proof. intros. apply app_nth1. unfold len in *. lia. Qed.
Lemma nth_snoc_new p c (j : nat) : Z.of_nat j = len p → nth j (p ++ [c]) 0 = c.
Proof.
  intros H. rewrite app_nth2 by (unfold len in *; lia).
  replace (j - length p)%nat with 0%nat by (unfold len in *; lia). done.
Qed.

Lemma has_run_snoc_old p c n : has_run p n → has_run (p ++ [c]) n.
Proof.
  intros (Hn & i & Hl & Hr). split; [done|]. exists i. rewrite len_app. split; [unfold len in *; simpl; lia|].
  intros j Hj. rewrite nth_snoc_old by lia. by apply Hr.
Qed.

(** A run of [p ++ [c]] lies in [p], or it ends at [c]. *)
Lemma has_run_snoc_inv p c n :
  has_run (p ++ [c]) n → has_run p n ∨
  (isPrintable c = true ∧ 0 < n ≤ len p + 1 ∧
   ∀ j : nat, len p - (n - 1) ≤ Z.of_nat j < len p → isPrintable (nth j p 0) = true).
Proof.
  intros (Hn & i & Hl & Hr). rewrite len_app, len_cons, len_nil in Hl.
  destruct (decide (n = 0)) as [->|Hn0].
  { left. split; [done|]. exists 0%nat. split; [pose proof (len_nonneg p); simpl; lia|lia]. }
  destruct (decide (Z.of_nat i + n ≤ len p)) as [Hin|Hout].
  - left. split; [done|]. exists i. split; [done|]. intros j Hj.
    rewrite <- (nth_snoc_old p c) by lia. by apply Hr.
  - right. pose proof (len_nonneg p). split; [|split; [lia|]].
    + rewrite <- (nth_snoc_new p c (length p)) by done. apply Hr. unfold len in *. lia.
    + intros j Hj. rewrite <- (nth_snoc_old p c) by lia. apply Hr. lia.
Qed.

Lemma run_inv_printable p m cur c :
  run_inv p m cur → isPrintable c = true →
  run_inv (p ++ [c]) (if m <? cur + 1 then cur + 1 else m) (cur + 1).
Proof.
  intros (H1 & H2 & H3 & H4 & H5 & H6) Hc. unfold run_inv.
  assert (has_run (p ++ [c]) (cur + 1)) as Hnew.
  { split; [lia|]. exists (Z.to_nat (len p - cur)). rewrite len_app, len_cons, len_nil.
    split; [lia|]. intros j Hj. destruct (decide (Z.of_nat j = len p)).
    - by rewrite nth_snoc_new.
    - rewrite nth_snoc_old by lia. apply H5. lia. }
  split_and!.
  - lia.
  - case_if; bool_to_Z; lia.
  - rewrite len_app, len_cons, len_nil. lia.
  - case_if; [apply Hnew|]. by apply has_run_snoc_old.
  - intros n [Hr|(_ & Hn & Hr)]%has_run_snoc_inv.
    + apply H4 in Hr. case_if; bool_to_Z; lia.
    + destruct (decide (cur < len p)) as [Hlt|]; [|case_if; bool_to_Z; lia].
      destruct (decide (n - 1 ≤ cur)); [case_if; bool_to_Z; lia|].
      rewrite Hr in H6 by lia. by discriminate H6.
  - rewrite len_app, len_cons, len_nil. intros j Hj. destruct (decide (Z.of_nat j = len p)).
    + by rewrite nth_snoc_new.
    + rewrite nth_snoc_old by lia. apply H5. lia.
  - rewrite len_app, len_cons, len_nil. intros Hlt. rewrite nth_snoc_old by lia.
    replace (len p + (1 + 0) - (cur + 1) - 1) with (len p - cur - 1) by lia. apply H6. lia.
Qed.

Lemma run_inv_other p m cur c :
  run_inv p m cur → isPrintable c = false → run_inv (p ++ [c]) m 0.
Proof.
  intros (H1 & H2 & H3 & H4 & H5 & H6) Hc. unfold run_inv. pose proof (len_nonneg p).
  split_and!; try apply len_nonneg; try lia.
  - by apply has_run_snoc_old.
  - intros n [Hr|(Hp & _)]%has_run_snoc_inv; [auto|congruence].
  - intros _. rewrite len_app, len_cons, len_nil, nth_snoc_new by lia. done.
Qed.

Lemma maxConsecutiveLoop_inv b p m cur :
  run_inv p m cur → ∃ cur', run_inv (p ++ b) (maxConsecutiveLoop b m cur) cur'.
Proof.
  revert p m cur. induction b as [|c b IH]; intros p m cur Hinv; simpl.
  - exists cur. by rewrite app_nil_r.
  - replace (p ++ c :: b) with ((p ++ [c]) ++ b) by by rewrite <- app_assoc.
    destruct (isPrintable c) eqn:Hc; apply IH;
      [by apply run_inv_printable|by eapply run_inv_other].
Qed.

Lemma max_run b :
  has_run b (MaxConsecutivePrintableLength b) ∧
  ∀ n, has_run b n → n ≤ MaxConsecutivePrintableLength b.
Proof.
  destruct (maxConsecutiveLoop_inv b [] 0 0) as (cur & _ & _ & H1 & H2 & _); [|done].
  unfold run_inv.
  split_and!; unfold len; simpl; try lia.
  - split; [done|]. exists 0%nat. split; [done|]. lia.
  - intros n (? & i & Hl & _). unfold len in Hl; simpl in Hl. lia.
Qed.

Lemma ToPrintableChar_ret rnd b beginIdx endIdx :
  (∀ i, 0 ≤ rnd i < 95) → bytes_ok b → 0 ≤ beginIdx ≤ endIdx → endIdx ≤ len b →
  ∃ b', ToPrintableChar rnd b beginIdx endIdx = Ret b' ∧ length b' = length b ∧
    (∀ j : nat, beginIdx ≤ Z.of_nat j < endIdx → isPrintable (nth j b' 0) = true) ∧
    (∀ j : nat, ¬ (beginIdx ≤ Z.of_nat j < endIdx) ∨ isPrintable (nth j b 0) = true →
       b' !! j = b !! j) ∧
    endIdx - beginIdx ≤ MaxConsecutivePrintableLength b' ∧ bytes_ok b'.
Proof.
  intros Hrnd Hb Hidx Hend. unfold ToPrintableChar. rewrite rewriteRange_ret by done.
  set (b' := rewriteLoop _ _ _ _).
  assert (length b' = length b) as Hl by apply length_rewriteLoop.
  assert (∀ j : nat, beginIdx ≤ Z.of_nat j < endIdx → isPrintable (nth j b' 0) = true) as Hp.
  { intros j Hj. rewrite (nth_lookup b' j). unfold b'. rewrite lookup_rewriteLoop.
    rewrite bool_decide_eq_true_2 by lia.
    destruct (b !! j) as [c|] eqn:Ec; simpl.
    - apply printableByte_printable; [apply Hrnd|].
      by apply (Forall_lookup_1 _ _ _ _ Hb Ec).
    - apply lookup_ge_None in Ec. unfold len in *. lia. }
  exists b'. split; [done|]. split; [done|]. split; [done|]. split; [|split].
  - intros j Hj. unfold b'. rewrite lookup_rewriteLoop. case_bool_decide as Hin; [|done].
    destruct Hj as [Hj|Hj]; [lia|]. destruct (b !! j) as [c|] eqn:Ec; [|done]. simpl.
    rewrite (nth_lookup_Some _ _ _ _ Ec) in Hj. by rewrite printableByte_id.
  - apply max_run. split; [lia|]. exists (Z.to_nat beginIdx).
    split; [unfold len in *; lia|]. intros j Hj. apply Hp. lia.
  - apply Forall_lookup. intros j c. unfold b'. rewrite lookup_rewriteLoop.
    case_bool_decide; [|intros Hc; by apply (Forall_lookup_1 _ _ _ _ Hb Hc)].
    destruct (b !! j) as [x|] eqn:Ex; simpl; [|done]. intros [= <-].
    pose proof (Forall_lookup_1 _ _ _ _ Hb Ex) as Hx.
    pose proof (printableByte_printable (rnd j) x (Hrnd j) Hx) as Hpr.
    unfold isPrintable, PrintableCharSub, PrintableCharSup in Hpr. bool_to_Z. unfold in_u8. lia.
Qed.

(** ** Properties *)

(** [ToPrintableChar] never panics on a valid range; it keeps the length,
    makes every byte of the range printable, keeps the bytes that already were,
    and touches nothing outside the range.  The longest printable run of the
    result, as [MaxConsecutivePrintableLength] measures it, covers the range. *)
Theorem to_printable_char_spec rnd b beginIdx endIdx :
  (∀ i, 0 ≤ rnd i < 95) → bytes_ok b → 0 ≤ beginIdx ≤ endIdx → endIdx ≤ len b →
  ∃ b', ToPrintableChar rnd b beginIdx endIdx = Ret b' ∧ length b' = length b ∧
    (∀ j : nat, beginIdx ≤ Z.of_nat j < endIdx → isPrintable (nth j b' 0) = true) ∧
    (∀ j : nat, ¬ (beginIdx ≤ Z.of_nat j < endIdx) ∨ isPrintable (nth j b 0) = true →
       b' !! j = b !! j) ∧
    endIdx - beginIdx ≤ MaxConsecutivePrintableLength b'.
Proof.
  intros. destruct (ToPrintableChar_ret rnd b beginIdx endIdx) as (b' & ?); [done..|].
  exists b'. tauto.
Qed.

Lemma to_printable_char_spec_witness :
  ∃ b', ToPrintableChar (λ _, 7) [0; 0x61; 0xC1; 0xFF] 1 4 = Ret b' ∧
    3 ≤ MaxConsecutivePrintableLength b'.
Proof.
  destruct (to_printable_char_spec (λ _, 7) [0; 0x61; 0xC1; 0xFF] 1 4)
    as (b' & H & _ & _ & _ & Hm).
  - intros _. split; [discriminate|reflexivity].
  - repeat constructor; vm_compute; congruence.
  - split; discriminate.
  - vm_compute. discriminate.
  - exists b'. split; [exact H|exact Hm].
Defined.

(** [ToCommon64Set] never panics on a valid range (the 6-bit index is
    inside the 64-character set), keeps the length and every byte outside the
    range, and writes only printable characters of the set. *)
Theorem to_common64_spec b beginIdx endIdx :
  0 ≤ beginIdx ≤ endIdx → endIdx ≤ len b →
  ∃ b', ToCommon64Set b beginIdx endIdx = Ret b' ∧ length b' = length b ∧
    (∀ j : nat, beginIdx ≤ Z.of_nat j < endIdx →
       nth j b' 0 ∈ string_bytes Common64Set ∧ isPrintable (nth j b' 0) = true) ∧
    (∀ j : nat, ¬ (beginIdx ≤ Z.of_nat j < endIdx) → b' !! j = b !! j).
Proof.
  intros Hidx Hend. unfold ToCommon64Set. rewrite rewriteRange_ret by done.
  eexists. split; [done|]. split; [apply length_rewriteLoop|]. split; intros j Hj.
  - rewrite nth_lookup, lookup_rewriteLoop, bool_decide_eq_true_2 by lia.
    destruct (b !! j) as [c|] eqn:Ec; simpl.
    + pose proof (common64Byte_in c) as Hin. split; [done|].
      assert (Forall (λ x, isPrintable x = true) (string_bytes Common64Set)) as Hall
        by (repeat constructor).
      rewrite Forall_forall in Hall. by apply Hall.
    + apply lookup_ge_None in Ec. unfold len in *. lia.
  - rewrite lookup_rewriteLoop, bool_decide_eq_false_2 by lia. done.
Qed.

Lemma to_common64_spec_witness :
  ∃ b', ToCommon64Set [0; 63; 200; 5] 1 3 = Ret b' ∧ length b' = 4%nat.
Proof.
  destruct (to_common64_spec [0; 63; 200; 5] 1 3) as (b' & H & Hl & _).
  - split; discriminate.
  - vm_compute. discriminate.
  - exists b'. split; [exact H|exact Hl].
Defined.

End Common.
Export Common.
