(* ===== verification/Rng.v ===== *)
(** * pkg/rng: hashed integers (rng.go) and bit flipping (bit.go)

    [FixedInt] and [FixedIntV] with their caches, the scaled-down generators,
    and [FlipBits].  Draws of math/rand are arguments. *)

From S2P Require Import Prelude Mathext Float Sha256 Common.

Module Rng.

(** ** rng.go *)

(** [scaleDown], given the value of [mrand.Float64()]. *)
Definition scaleDown (base : float) : float :=
  fsqrt binary64 (fmul binary64 (fmul binary64 base base) base).

(** [Intn], given [k], the value of [mrand.Intn(n+1)], and the Float64 draw. *)
Definition Intn (oob : float → Z) (k : Z) (base : float) : Z :=
  to_i64 oob (fmul binary64 (of_Z binary64 k) (scaleDown base)).

Definition IntRange (oob : float → Z) (m k : Z) (base : float) : Z := m + Intn oob k base.

(** The 31-bit value that is cached for a hint. *)
Definition hashedInt (seed : bytes) : Z :=
  let b := Sum256 seed in
  let b := alter (λ x, Z.land x 0x7F) 0%nat b in
  be_get (take 4 b).

(** [FixedInt] and [FixedIntV] share their body: look the hint up in the cache,
    compute and store the value when it is absent.  [seedOf] is the string that
    is hashed. *)
Definition fixedLookup (seedOf : string → bytes) (cache : gmap string Z) (n : Z) (hint : string)
  : Z * gmap string Z :=
  if n <=? 0 then (0, cache)
  else match cache !! hint with
       | Some v => (Z.rem v n, cache)
       | None =>
           let v := hashedInt (seedOf hint) in
           (Z.rem v n, <[hint := v]> cache)
       end.

Definition FixedInt : gmap string Z → Z → string → Z * gmap string Z :=
  fixedLookup string_bytes.

Definition FixedIntV (appVersion : string) : gmap string Z → Z → string → Z * gmap string Z :=
  fixedLookup (λ hint, string_bytes hint ++ string_bytes " " ++ string_bytes appVersion).

Definition FixedIntVH (appVersion hostName : string) (cache : gmap string Z) (n : Z) :=
  FixedIntV appVersion cache n hostName.

(** ** bit.go *)

(** [countBits] of rng/bit.go: a mask that moves left, eight times a byte. *)
Fixpoint countBitsByte (n : nat) (mask b : Z) (c : Z * Z) : Z * Z :=
  match n with
  | O => c
  | S n =>
      countBitsByte n (u8 (Z.shiftl mask 1)) b
        (if 0 <? Z.land b mask then (c.1, c.2 + 1) else (c.1 + 1, c.2))
  end.
Definition countBits (bs : bytes) : Z * Z :=
  foldl (λ c b, countBitsByte 8 1 b c) (0, 0) bs.

Definition xorBit (bs : bytes) (i : Z) : outcome bytes :=
  let byteIdx := Z.quot i 8 in
  let bitIdx := Z.rem i 8 in
  if len bs <? byteIdx + 1 then Panic "When XOR bit, index is out of range"
  else Ret (alter (λ b, Z.lxor b (u8 (Z.shiftl 1 bitIdx))) (Z.to_nat byteIdx) bs).

(** The loop state of the reservoir scan of [FlipBits]. *)
Record flipState := mkFlip { positions : list Z; pIdx : Z; mIdx : Z }.

(** One matching bit at position [pos].  [rnd m] and [slot m] are the draws of
    [mrand.Float64()] and [mrand.Intn(toFlip)] at the [m]-th match. *)
Definition flipMatch (toFlip : Z) (rnd : Z → float) (slot : Z → Z) (pos : Z) (st : flipState)
  : flipState :=
  let m := mIdx st + 1 in
  if pIdx st <? toFlip then
    mkFlip (<[Z.to_nat (pIdx st) := pos]> (positions st)) (pIdx st + 1) m
  else if flt (rnd m) (fdiv binary64 (of_Z binary64 toFlip) (of_Z binary64 m)) then
    mkFlip (<[Z.to_nat (slot m) := pos]> (positions st)) (pIdx st) m
  else mkFlip (positions st) (pIdx st) m.

(** The inner loop, [j] from 7 down to 0 with the mask moving right. *)
Fixpoint flipScanByte (src toFlip : Z) (rnd : Z → float) (slot : Z → Z)
    (n : nat) (i b mask : Z) (st : flipState) : flipState :=
  match n with
  | O => st
  | S n' =>
      let j := Z.of_nat n' in
      let hit := ((src =? 0) && (Z.land b mask =? 0)) ||
                 ((src =? 1) && negb (Z.land b mask =? 0)) in
      flipScanByte src toFlip rnd slot n' i b (Z.shiftr mask 1)
        (if hit then flipMatch toFlip rnd slot (8 * i + 7 - j) st else st)
  end.

Fixpoint flipScan (src toFlip : Z) (rnd : Z → float) (slot : Z → Z)
    (i : Z) (bs : bytes) (st : flipState) : flipState :=
  match bs with
  | [] => st
  | b :: bs =>
      flipScan src toFlip rnd slot (i + 1) bs
        (flipScanByte src toFlip rnd slot 8 i b 0x80 st)
  end.

Fixpoint xorBits (bs : bytes) (ps : list Z) : outcome bytes :=
  match ps with
  | [] => Ret bs
  | p :: ps => let! bs := xorBit bs p in xorBits bs ps
  end.

Definition FlipBits (oob : float → Z) (rnd : Z → float) (slot : Z → Z)
    (bs : bytes) (src : Z) (ratio : float) : outcome bytes :=
  if negb (src =? 0) && negb (src =? 1) then Panic "FlipBits() has invalid input: src"
  else if flt ratio (of_Z binary64 0) || flt (of_Z binary64 1) ratio
  then Panic "FlipBits() has invalid input: ratio"
  else match bs with
  | [] => Ret bs
  | _ =>
      let '(count0, count1) := countBits bs in
      let target := to_i64 oob (fmul binary64 (of_Z binary64 (count0 + count1)) ratio) in
      let toFlip := if src =? 0 then count0 - target else count1 - target in
      if toFlip <=? 0 then Ret bs
      else
        let st := flipScan src toFlip rnd slot 0 bs
                    (mkFlip (replicate (Z.to_nat toFlip) 0) 0 0) in
        xorBits bs (positions st)
  end.

(** ** Lemmas *)

(** Both bit counters add, byte by byte, the same pair. *)
Definition bytePair (b : Z) : Z * Z := countBitsByte 8 1 b (0, 0).

Lemma countBitsByte_add n mask b c :
  countBitsByte n mask b c =
  (c.1 + (countBitsByte n mask b (0, 0)).1, c.2 + (countBitsByte n mask b (0, 0)).2).
Proof.
  revert mask c. induction n as [|n IH]; intros mask c; simpl.
  - rewrite !Z.add_0_r. by destruct c.
  - rewrite IH, (IH _ (if 0 <? Z.land b mask then _ else (1, 0))).
    case_if; simpl; f_equal; lia.
Qed.

Lemma bitCountsByte_add n i b c :
  bitCountsByte n i b c =
  (c.1 + (bitCountsByte n i b (0, 0)).1, c.2 + (bitCountsByte n i b (0, 0)).2).
Proof.
  revert i c. induction n as [|n IH]; intros i c; simpl.
  - rewrite !Z.add_0_r. by destruct c.
  - rewrite IH, (IH _ (if Z.land (Z.shiftr b i) 1 =? 0 then (1, 0) else _)).
    case_if; simpl; f_equal; lia.
Qed.

(** The number of one bits of a byte. *)
Definition popcount (b : Z) : Z :=
  foldr (λ i acc, (if Z.testbit b (Z.of_nat i) then 1 else 0) + acc) 0 (seq 0 8).

Lemma byte_tables :
  forallb (λ n, let b := Z.of_nat n in
    bool_decide (countBitsByte 8 1 b (0, 0) = (8 - popcount b, popcount b)) &&
    bool_decide (bitCountsByte 8 0 b (0, 0) = (8 - popcount b, popcount b)))
    (seq 0 256) = true.
Proof. vm_compute. reflexivity. Qed.

Lemma byte_counts b :
  in_u8 b →
  countBitsByte 8 1 b (0, 0) = (8 - popcount b, popcount b) ∧
  bitCountsByte 8 0 b (0, 0) = (8 - popcount b, popcount b).
Proof.
  intros Hb. pose proof byte_tables as H. rewrite forallb_forall in H.
  specialize (H (Z.to_nat b)). unfold in_u8 in Hb.
  rewrite Z2Nat.id in H by lia.
  assert (In (Z.to_nat b) (seq 0 256)) as Hin by (apply in_seq; lia).
  apply H in Hin. apply andb_true_iff in Hin as [H1 H2].
  apply bool_decide_eq_true_1 in H1, H2. done.
Qed.

Definition ones (bs : bytes) : Z := foldr (λ b acc, popcount b + acc) 0 bs.

Lemma foldl_counts (f : Z → Z * Z → Z * Z) bs c :
  (∀ b c, b ∈ bs → f b c = (c.1 + (8 - popcount b), c.2 + popcount b)) →
  foldl (λ c b, f b c) c bs = (c.1 + (8 * len bs - ones bs), c.2 + ones bs).
Proof.
  revert c. induction bs as [|b bs IH]; intros c Hf; simpl.
  - destruct c; unfold len; simpl; f_equal; lia.
  - rewrite IH by (intros; apply Hf; set_solver). rewrite Hf by set_solver.
    rewrite len_cons. simpl. f_equal; lia.
Qed.

Lemma countBits_ones bs :
  bytes_ok bs → countBits bs = (8 * len bs - ones bs, ones bs).
Proof.
  unfold bytes_ok. rewrite Forall_forall. intros Hb. unfold countBits.
  rewrite (foldl_counts (countBitsByte 8 1)); [done|].
  intros b c Hin. rewrite countBitsByte_add. by destruct (byte_counts b) as [-> _]; [apply Hb|].
Qed.

Lemma bitCounts_ones bs :
  bytes_ok bs → bitCounts bs = (8 * len bs - ones bs, ones bs).
Proof.
  unfold bytes_ok. rewrite Forall_forall. intros Hb. unfold bitCounts.
  rewrite (foldl_counts (bitCountsByte 8 0)); [done|].
  intros b c Hin. rewrite bitCountsByte_add. by destruct (byte_counts b) as [_ ->]; [apply Hb|].
Qed.

Lemma hashedInt_range seed : 0 ≤ hashedInt seed < 2 ^ 31.
Proof.
  unfold hashedInt. pose proof (length_Sum256 seed) as Hl. pose proof (Sum256_ok seed) as Hok.
  destruct (Sum256 seed) as [|b0 [|b1 [|b2 [|b3 l]]]]; try discriminate Hl.
  unfold bytes_ok in Hok. rewrite !Forall_cons in Hok. unfold in_u8 in Hok.
  destruct Hok as (? & ? & ? & ? & _).
  simpl. unfold be_get. cbn [be_get_acc]. rewrite !Z.shiftl_mul_pow2 by lia.
  rewrite take_0. cbn [be_get_acc].
  change 127 with (Z.ones 7). rewrite Z.land_ones by lia.
  pose proof (Z.mod_pos_bound b0 (2 ^ 7)). lia.
Qed.

(** The cache of a hash function only holds the values that it computes. *)
Definition cache_coherent (seedOf : string → bytes) (cache : gmap string Z) : Prop :=
  ∀ hint v, cache !! hint = Some v → v = hashedInt (seedOf hint).

Lemma fixedLookup_spec seedOf cache n hint :
  cache_coherent seedOf cache →
  let '(r, cache') := fixedLookup seedOf cache n hint in
  r = (if n <=? 0 then 0 else hashedInt (seedOf hint) `mod` n) ∧ cache_coherent seedOf cache'.
Proof.
  intros Hc. unfold fixedLookup. case_if; [done|]. bool_to_Z.
  pose proof (hashedInt_range (seedOf hint)).
  destruct (cache !! hint) as [v|] eqn:E.
  - rewrite (Hc _ _ E). rewrite Z.rem_mod_nonneg by lia. done.
  - rewrite Z.rem_mod_nonneg by lia. split; [done|].
    intros h v. destruct (decide (h = hint)) as [->|Hne].
    + rewrite lookup_insert_eq. by intros [= <-].
    + rewrite lookup_insert_ne by done. apply Hc.
Qed.

(** ** Properties *)

(** [FixedIntV] returns a value in [0, n) that depends only on the hint and
    the version: with a coherent cache (such as the empty one) the cached and
    the computed answers agree, the cache stays coherent, and the answer is at
    most MaxInt32.  For [n <= 0] it returns 0. *)
Theorem fixed_int_v_deterministic appVersion cache n hint :
  let seedOf := λ h, string_bytes h ++ string_bytes " " ++ string_bytes appVersion in
  cache_coherent seedOf cache →
  let '(r, cache') := FixedIntV appVersion cache n hint in
  r = (FixedIntV appVersion ∅ n hint).1 ∧ cache_coherent seedOf cache' ∧
  0 ≤ r < 2 ^ 31 ∧ (0 < n → r < n).
Proof.
  intros seedOf Hc.
  pose proof (fixedLookup_spec seedOf cache n hint Hc) as H1.
  pose proof (fixedLookup_spec seedOf ∅ n hint) as H2.
  unfold FixedIntV. fold seedOf. destruct (fixedLookup seedOf cache n hint) as [r c'].
  destruct (fixedLookup seedOf ∅ n hint) as [r2 c2]. simpl.
  destruct H1 as [H1 ?], H2 as [H2 _]; [by intros ? ? ?|].
  rewrite H1 in *. rewrite H2. split; [done|]. split; [done|].
  pose proof (hashedInt_range (seedOf hint)).
  case_if; bool_to_Z; [lia|].
  pose proof (Z.mod_pos_bound (hashedInt (seedOf hint)) n).
  pose proof (Z.mod_le (hashedInt (seedOf hint)) n). lia.
Qed.

Lemma fixed_int_v_deterministic_witness :
  (FixedIntV "3.31.0" ∅ 2 "alice").1 < 2.
Proof.
  pose proof (fixed_int_v_deterministic "3.31.0" ∅ 2 "alice") as H.
  destruct (FixedIntV "3.31.0" ∅ 2 "alice") as [r c]. simpl in *.
  destruct H as (_ & _ & _ & H); [by intros ? ? ?|]. apply H. reflexivity.
Defined.

(** the two bit counters of the program ([countBits] with a moving mask and
    the shift-based loop of [ToBitDistribution]) return the same counts: the
    number of one bits, and the rest of the 8 bits of every byte. *)
Theorem bit_counters_agree bs :
  bytes_ok bs →
  countBits bs = (8 * len bs - ones bs, ones bs) ∧
  Bit0Count (ToBitDistribution bs) = (countBits bs).1 ∧
  Bit1Count (ToBitDistribution bs) = (countBits bs).2.
Proof.
  intros Hb. rewrite (countBits_ones bs Hb). split; [done|].
  pose proof (bitCounts_ones bs Hb) as H. unfold ToBitDistribution.
  destruct bs; [done|]. by rewrite H.
Qed.

Lemma bit_counters_agree_witness :
  countBits [0xF0; 1; 255] = (11, 13).
Proof.
  destruct (bit_counters_agree [0xF0; 1; 255]) as [H _].
  - repeat constructor; vm_compute; congruence.
  - rewrite H. reflexivity.
Defined.

(** [FlipBits] flips the mirror image of the bits it selects.  It scans a
    byte from its high bit down and records position [8*i + 7 - j] for bit [j],
    but [xorBit] takes the position as [8*i + bit], so asking to clear the only
    one bit of 0x80 (ratio 0) sets a second one; no draw is involved. *)
Theorem flip_bits_mirrors_positions oob rnd slot :
  FlipBits oob rnd slot [0x80] 1 (of_Z binary64 0) = Ret [0x81] ∧
  FlipBits oob rnd slot [0x08; 0x00] 1 (of_Z binary64 0) = Ret [0x18; 0x00].
Proof. split; reflexivity. Qed.

End Rng.
Export Rng.
