(* ===== verification/Congestion.v ===== *)
(** * pkg/congestion: round-trip statistics and the CUBIC window

    [RTTStats] (rtt.go) and [CubicSendAlgorithm] (cubic.go).  Durations are
    int64 nanoseconds; the clock, [math.Cbrt] and the value of an out-of-range
    float-to-integer conversion are arguments. *)

From S2P Require Import Prelude Mathext Float.

Module Congestion.

(** ** cubic.go *)

Inductive cubicOperationMode := cubicSlowStart | cubicNormal.

Record CubicSendAlgorithm := mkCubic {
  minWindowSize : Z;
  maxWindowSize : Z;
  mode : cubicOperationMode;
  congestionWindow : Z;
  windowSizeBeforeLastReduction : Z;
  lastReductionTime : float;
  accumulatedAcks : Z
}.

Definition NewCubicSendAlgorithm (minW maxW : Z) : outcome CubicSendAlgorithm :=
  if maxW <? minW
  then Panic "minimum congestion window size is greater than maximum congestion window size"
  else Ret (mkCubic minW maxW cubicSlowStart minW 0 (of_Z binary64 0) 0).

Definition set_window (c : CubicSendAlgorithm) (w : Z) : CubicSendAlgorithm :=
  mkCubic (minWindowSize c) (maxWindowSize c) (mode c) w
    (windowSizeBeforeLastReduction c) (lastReductionTime c) (accumulatedAcks c).

Definition inRange (c : CubicSendAlgorithm) : CubicSendAlgorithm :=
  if congestionWindow c <? minWindowSize c then set_window c (minWindowSize c)
  else if maxWindowSize c <? congestionWindow c then set_window c (maxWindowSize c)
  else c.

(** [float64(time.Now().UnixMicro()) / 1000000]. *)
Definition seconds (nowMicro : Z) : float :=
  fdiv binary64 (of_Z binary64 nowMicro) (of_Z binary64 1000000).

Section OnEvent.
Context (cbrt : float → float) (oob : float → Z).

Definition cubicTarget (w : Z) (t k : float) : Z :=
  let d := fsub binary64 t k in
  to_u32 oob (fadd binary64
    (fmul binary64 (fmul binary64 (fmul binary64 f64_0_4 d) d) d)
    (of_Z binary64 w)).

Definition OnAck (nowMicro : Z) (c : CubicSendAlgorithm) : CubicSendAlgorithm :=
  match mode c with
  | cubicSlowStart => inRange (set_window c (u32 (congestionWindow c + 1)))
  | cubicNormal =>
      let acks := u32 (accumulatedAcks c + 1) in
      let w := windowSizeBeforeLastReduction c in
      let k := cbrt (fdiv binary64 (fmul binary64 (of_Z binary64 w) f64_1_minus_0_7) f64_0_4) in
      let t := fsub binary64 (seconds nowMicro) (lastReductionTime c) in
      inRange (mkCubic (minWindowSize c) (maxWindowSize c) (mode c)
                 (u32 (cubicTarget w t k + acks / 16))
                 w (lastReductionTime c) acks)
  end.

Definition OnLoss (nowMicro : Z) (c : CubicSendAlgorithm) : CubicSendAlgorithm :=
  inRange (mkCubic (minWindowSize c) (maxWindowSize c) cubicNormal
             (to_u32 oob (fmul binary64 (of_Z binary64 (congestionWindow c)) f64_0_7))
             (congestionWindow c) (seconds nowMicro) 0).

Definition OnTimeout (c : CubicSendAlgorithm) : CubicSendAlgorithm :=
  mkCubic (minWindowSize c) (maxWindowSize c) cubicSlowStart (minWindowSize c)
    0 (of_Z binary64 0) 0.

Inductive cubicEvent := EvAck (nowMicro : Z) | EvLoss (nowMicro : Z) | EvTimeout.

Definition cubicStep (c : CubicSendAlgorithm) (ev : cubicEvent) : CubicSendAlgorithm :=
  match ev with
  | EvAck t => OnAck t c
  | EvLoss t => OnLoss t c
  | EvTimeout => OnTimeout c
  end.

(** States reachable from a fresh controller. *)
Inductive cubicReachable (minW maxW : Z) : CubicSendAlgorithm → Prop :=
| cr_new c : NewCubicSendAlgorithm minW maxW = Ret c → cubicReachable minW maxW c
| cr_step c ev : cubicReachable minW maxW c → cubicReachable minW maxW (cubicStep c ev).
End OnEvent.

Definition InSlowStart (c : CubicSendAlgorithm) : bool :=
  match mode c with cubicSlowStart => true | cubicNormal => false end.

(** ** rtt.go *)

Definition Microsecond : Z := 1000.
Definition Millisecond : Z := 1000 * 1000.
Definition Second : Z := 1000 * 1000 * 1000.
Definition defaultInitialRTT : Z := Second.
Definition infDuration : Z := 2 ^ 63 - 1.

Record RTTStats := mkRTT {
  hasMeasurement : bool;
  minRTT : Z;
  latestRTT : Z;
  smoothedRTT : Z;
  meanDeviation : Z;
  maxAckDelay : Z;
  rtoMultiplier : float
}.

Definition NewRTTStats : RTTStats := mkRTT false 0 0 0 0 0 (of_Z binary64 1).

Section RTT.
Context (oob : float → Z).

(** [time.Duration(f) * time.Microsecond] of a float32 count of microseconds,
    and [float32(d / time.Microsecond)]. *)
Definition micros_of_float (f : float) : Z := i64 (to_i64 oob f * Microsecond).
Definition float_micros (d : Z) : float := of_Z binary32 (Z.quot d Microsecond).

Definition RTO (r : RTTStats) : Z :=
  if smoothedRTT r =? 0 then 2 * defaultInitialRTT
  else
    let rto := i64 (smoothedRTT r + Max (i64 (4 * meanDeviation r)) (10 * Millisecond)) in
    let rto := i64 (rto + maxAckDelay r) in
    to_i64 oob (fmul binary64 (of_Z binary64 rto) (rtoMultiplier r)).

Definition UpdateRTT (sample : Z) (r : RTTStats) : RTTStats :=
  if (sample =? infDuration) || (sample <=? 0) then r
  else
    let newMin := if (minRTT r =? 0) || (sample <? minRTT r) then sample else minRTT r in
    if negb (hasMeasurement r) then
      mkRTT true newMin sample sample (Z.quot sample 2) (maxAckDelay r) (rtoMultiplier r)
    else
      let dev := micros_of_float
        (fadd binary32 (fmul binary32 f32_0_75 (float_micros (meanDeviation r)))
           (fmul binary32 f32_0_25 (float_micros (Abs i64 (i64 (smoothedRTT r - sample)))))) in
      let smoothed := micros_of_float
        (fadd binary32 (fmul binary32 (float_micros (smoothedRTT r)) f32_0_875)
           (fmul binary32 (float_micros sample) f32_0_125)) in
      mkRTT true newMin sample smoothed dev (maxAckDelay r) (rtoMultiplier r).
End RTT.

Definition SetMaxAckDelay (mad : Z) (r : RTTStats) : RTTStats :=
  mkRTT (hasMeasurement r) (minRTT r) (latestRTT r) (smoothedRTT r) (meanDeviation r)
    mad (rtoMultiplier r).

Definition SetRTOMultiplier (n : float) (r : RTTStats) : outcome RTTStats :=
  if fle n (of_Z binary64 0)
  then Panic "retransmission timeout multiplier must be greater than 0"
  else Ret (mkRTT (hasMeasurement r) (minRTT r) (latestRTT r) (smoothedRTT r)
              (meanDeviation r) (maxAckDelay r) n).

Definition SetInitialRTT (t : Z) (r : RTTStats) : outcome RTTStats :=
  if hasMeasurement r then Panic "initial RTT set after first measurement"
  else Ret (mkRTT false (minRTT r) t t (meanDeviation r) (maxAckDelay r) (rtoMultiplier r)).

Definition Reset (r : RTTStats) : RTTStats :=
  mkRTT (hasMeasurement r) 0 0 0 0 (maxAckDelay r) (rtoMultiplier r).

Definition ExpireSmoothedMetrics (r : RTTStats) : RTTStats :=
  mkRTT (hasMeasurement r) (minRTT r) (latestRTT r)
    (Max (smoothedRTT r) (latestRTT r))
    (Max (meanDeviation r) (Abs i64 (i64 (smoothedRTT r - latestRTT r))))
    (maxAckDelay r) (rtoMultiplier r).

(** ** Invariant of the window *)

Definition cubic_ok (c : CubicSendAlgorithm) : Prop :=
  in_u32 (minWindowSize c) ∧ in_u32 (maxWindowSize c) ∧
  minWindowSize c ≤ congestionWindow c ≤ maxWindowSize c.

Lemma inRange_ok c :
  in_u32 (minWindowSize c) → in_u32 (maxWindowSize c) →
  minWindowSize c ≤ maxWindowSize c → cubic_ok (inRange c).
Proof.
  intros H1 H2 H3. unfold inRange, cubic_ok.
  repeat case_if; bool_to_Z; simpl; repeat split; (apply H1 || apply H2 || lia).
Qed.

Lemma inRange_same c : minWindowSize (inRange c) = minWindowSize c ∧
  maxWindowSize (inRange c) = maxWindowSize c.
Proof. unfold inRange. by repeat case_if. Qed.

Lemma inRange_window c :
  minWindowSize c ≤ maxWindowSize c →
  congestionWindow (inRange c) =
    Z.max (minWindowSize c) (Z.min (congestionWindow c) (maxWindowSize c)).
Proof. intros. unfold inRange. repeat case_if; bool_to_Z; simpl; lia. Qed.

Lemma OnAck_ok cbrt oob now c : cubic_ok c → cubic_ok (OnAck cbrt oob now c).
Proof.
  intros (H1 & H2 & H3). unfold OnAck. destruct (mode c); apply inRange_ok; simpl; auto; lia.
Qed.
Lemma OnLoss_ok oob now c : cubic_ok c → cubic_ok (OnLoss oob now c).
Proof. intros (H1 & H2 & H3). apply inRange_ok; simpl; auto; lia. Qed.
Lemma OnTimeout_ok c : cubic_ok c → cubic_ok (OnTimeout c).
Proof. intros (H1 & H2 & H3). split; [done|]. split; [done|]. simpl. lia. Qed.
#[export] Hint Resolve OnAck_ok OnLoss_ok OnTimeout_ok : mieru.

Lemma cubicStep_ok cbrt oob c ev : cubic_ok c → cubic_ok (cubicStep cbrt oob c ev).
Proof. destruct ev; simpl; auto with mieru. Qed.

Lemma cubicStep_bounds cbrt oob c ev :
  minWindowSize (cubicStep cbrt oob c ev) = minWindowSize c ∧
  maxWindowSize (cubicStep cbrt oob c ev) = maxWindowSize c.
Proof.
  destruct ev; simpl; unfold OnAck, OnLoss; [destruct (mode c)| |done];
    match goal with |- context [inRange ?x] => destruct (inRange_same x) as [-> ->] end; done.
Qed.

(** whatever sequence of acknowledgements, losses and timeouts happens, at
    whatever times, the congestion window stays within the configured minimum
    and maximum, which never change. *)
Theorem cubic_window_bounded cbrt oob minW maxW c :
  in_u32 minW → in_u32 maxW → cubicReachable cbrt oob minW maxW c →
  minWindowSize c = minW ∧ maxWindowSize c = maxW ∧ minW ≤ congestionWindow c ≤ maxW.
Proof.
  intros Hmin Hmax Hr.
  assert (cubic_ok c ∧ minWindowSize c = minW ∧ maxWindowSize c = maxW) as (Hok & <- & <-).
  { induction Hr as [c Hn|c ev Hr (IH1 & IH2 & IH3)].
    - unfold NewCubicSendAlgorithm in Hn. case_if_in Hn; [done|]. bool_to_Z.
      injection Hn as <-. unfold cubic_ok. simpl. repeat split; try (apply Hmin || apply Hmax); lia.
    - pose proof (cubicStep_bounds cbrt oob c ev) as [-> ->]. auto using cubicStep_ok. }
  destruct Hok as (_ & _ & ?). done.
Qed.

Lemma cubic_window_bounded_witness :
  let c := cubicStep (λ x, x) (λ _, 0)
             (cubicStep (λ x, x) (λ _, 0)
               (mkCubic 16 4096 cubicSlowStart 16 0 (of_Z binary64 0) 0) (EvAck 5)) (EvLoss 9) in
  16 ≤ congestionWindow c ≤ 4096.
Proof.
  intros c. eapply (cubic_window_bounded (λ x, x) (λ _, 0) 16 4096 c).
  - vm_compute. split; congruence.
  - vm_compute. split; congruence.
  - apply cr_step, cr_step, cr_new. reflexivity.
Defined.

(** *** Slow start *)

Fixpoint acks (cbrt : float → float) (oob : float → Z) (ts : list Z)
    (c : CubicSendAlgorithm) : CubicSendAlgorithm :=
  match ts with
  | [] => c
  | t :: ts => acks cbrt oob ts (OnAck cbrt oob t c)
  end.

Lemma OnAck_slow_start cbrt oob t c :
  cubic_ok c → maxWindowSize c < 2 ^ 32 - 1 → mode c = cubicSlowStart →
  OnAck cbrt oob t c = set_window c (Z.min (congestionWindow c + 1) (maxWindowSize c)).
Proof.
  intros (H1 & H2 & H3) Hm Hmode. unfold OnAck. rewrite Hmode.
  unfold in_u32 in *. rewrite u32_small by (unfold in_u32; lia).
  unfold inRange; simpl. repeat case_if; bool_to_Z; unfold set_window; simpl; f_equal; lia.
Qed.

Lemma acks_slow_start cbrt oob ts c :
  cubic_ok c → maxWindowSize c < 2 ^ 32 - 1 → mode c = cubicSlowStart →
  acks cbrt oob ts c = set_window c (Z.min (congestionWindow c + len ts) (maxWindowSize c)).
Proof.
  revert c. induction ts as [|t ts IH]; intros c Hok Hm Hmode; simpl.
  - rewrite len_nil. destruct Hok as (_ & _ & ?). destruct c; unfold set_window; simpl in *.
    f_equal; lia.
  - rewrite IH; [|by apply OnAck_ok|rewrite OnAck_slow_start by done..]; [|done..].
    rewrite (OnAck_slow_start cbrt oob t c) by done. rewrite len_cons.
    pose proof (len_nonneg ts). unfold set_window; simpl. f_equal; lia.
Qed.

(** after a timeout the controller is in slow start at the minimum window,
    and each acknowledgement then adds one segment until the maximum is
    reached and kept. *)
Theorem cubic_timeout_recovery cbrt oob c ts :
  cubic_ok c → maxWindowSize c < 2 ^ 32 - 1 →
  let c' := acks cbrt oob ts (OnTimeout c) in
  InSlowStart c' = true ∧
  congestionWindow c' = Z.min (minWindowSize c + len ts) (maxWindowSize c).
Proof.
  intros Hok Hm. simpl. rewrite acks_slow_start; simpl; auto with mieru.
Qed.

Lemma cubic_timeout_recovery_witness :
  let c := mkCubic 16 4096 cubicNormal 2000 3000 (of_Z binary64 7) 9 in
  congestionWindow (acks (λ x, x) (λ _, 0) [1; 2; 3] (OnTimeout c)) = 19.
Proof.
  intros c. destruct (cubic_timeout_recovery (λ x, x) (λ _, 0) c [1; 2; 3]) as [_ H].
  - vm_compute. repeat split; congruence.
  - vm_compute. reflexivity.
  - exact H.
Defined.

(** *** Loss: the multiplicative decrease, for every window a session can have *)

(** The float product for one window, against the exact seven tenths. *)
Definition lossTest (w : Z) : bool :=
  match trunc (fmul binary64 (of_Z binary64 w) f64_0_7) with
  | Some z => (0 <=? z) && (w * 7 / 10 - 1 <=? z) && (z <=? w * 7 / 10)
  | None => false
  end.

Fixpoint all_below (n : nat) (p : Z → bool) : bool :=
  match n with O => true | S n => p (Z.of_nat n) && all_below n p end.

Lemma all_below_spec n p w : all_below n p = true → 0 ≤ w < Z.of_nat n → p w = true.
Proof.
  induction n as [|n IH]; simpl; [lia|]. rewrite andb_true_iff. intros [Hp Ha] Hw.
  destruct (decide (w = Z.of_nat n)) as [->|]; [done|]. apply IH; [done|lia].
Qed.

Lemma lossTest_table : all_below 4097 lossTest = true.
Proof. vm_compute. reflexivity. Qed.

Lemma loss_product oob w :
  0 ≤ w ≤ 4096 →
  w * 7 / 10 - 1 ≤ to_u32 oob (fmul binary64 (of_Z binary64 w) f64_0_7) ≤ w * 7 / 10.
Proof.
  intros Hw. assert (lossTest w = true) as Ht.
  { apply (all_below_spec 4097); [apply lossTest_table|lia]. }
  unfold lossTest in Ht. unfold to_u32, to_int. destruct (trunc _) as [z|]; [|done].
  bool_to_Z. assert (w * 7 / 10 ≤ w) by (apply Z.div_le_upper_bound; lia).
  case_if; [lia|]. rewrite andb_false_iff in *. destruct Heqb; bool_to_Z; lia.
Qed.

(** on a loss the controller leaves slow start, remembers the window, and
    cuts it to seven tenths (rounded down, at most one segment less where the
    float product rounds below), never under the minimum; so the window does
    not grow.  For all windows of a session, whose maximum is 4096. *)
Theorem cubic_loss_decrease oob now c :
  cubic_ok c → maxWindowSize c ≤ 4096 →
  let c' := OnLoss oob now c in
  InSlowStart c' = false ∧ windowSizeBeforeLastReduction c' = congestionWindow c ∧
  accumulatedAcks c' = 0 ∧
  Z.max (minWindowSize c) (congestionWindow c * 7 / 10 - 1) ≤ congestionWindow c'
    ≤ Z.max (minWindowSize c) (congestionWindow c * 7 / 10) ∧
  congestionWindow c' ≤ congestionWindow c.
Proof.
  intros (H1 & H2 & H3) Hm c'. unfold in_u32 in *.
  assert (congestionWindow c' = Z.max (minWindowSize c) (Z.min (to_u32 oob
    (fmul binary64 (of_Z binary64 (congestionWindow c)) f64_0_7)) (maxWindowSize c))) as Hw.
  { unfold c', OnLoss. rewrite inRange_window; simpl; [done|lia]. }
  pose proof (loss_product oob (congestionWindow c)) as Hp.
  assert (congestionWindow c * 7 / 10 ≤ congestionWindow c) by (apply Z.div_le_upper_bound; lia).
  repeat split; try (unfold c', OnLoss, inRange; by repeat case_if); lia.
Qed.

Lemma cubic_loss_decrease_witness :
  congestionWindow (OnLoss (λ _, 0) 5 (mkCubic 16 4096 cubicSlowStart 90 0 (of_Z binary64 0) 0))
  ≤ 90.
Proof.
  apply (cubic_loss_decrease (λ _, 0) 5 (mkCubic 16 4096 cubicSlowStart 90 0 (of_Z binary64 0) 0)).
  - vm_compute. repeat split; congruence.
  - vm_compute. congruence.
Defined.

(** ** Round-trip statistics *)

(** A sample that [UpdateRTT] records. *)
Definition validSample (s : Z) : bool := negb ((s =? infDuration) || (s <=? 0)).

Definition min_valid (samples : list Z) : option Z :=
  foldr (λ s acc, if validSample s
                  then Some (match acc with Some m => Z.min s m | None => s end)
                  else acc) None samples.

Definition updates (oob : float → Z) (samples : list Z) (r : RTTStats) : RTTStats :=
  foldl (λ r s, UpdateRTT oob s r) r samples.

Lemma updates_min oob samples r :
  (minRTT r = 0 ∨ 0 < minRTT r) →
  minRTT (updates oob samples r) =
  match min_valid samples with
  | None => minRTT r
  | Some m => if minRTT r =? 0 then m else Z.min (minRTT r) m
  end.
Proof.
  revert r. induction samples as [|s l IH]; intros r Hr; [done|].
  unfold updates. simpl. fold (updates oob l (UpdateRTT oob s r)).
  unfold validSample. destruct ((s =? infDuration) || (s <=? 0)) eqn:Hs.
  - unfold UpdateRTT. rewrite Hs. simpl. by apply IH.
  - assert (0 < s) by (bool_to_Z; lia). simpl.
    assert (minRTT (UpdateRTT oob s r) =
      if minRTT r =? 0 then s else Z.min (minRTT r) s) as Hm.
    { unfold UpdateRTT. rewrite Hs.
      destruct (hasMeasurement r); simpl; destruct (Z.eqb_spec (minRTT r) 0); simpl; try done;
        case_if; bool_to_Z; lia. }
    rewrite IH; rewrite Hm; [|case_if; bool_to_Z; lia].
    destruct (Z.eqb_spec (minRTT r) 0), (min_valid l); simpl;
      try destruct (Z.eqb_spec s 0); try (destruct (Z.eqb_spec (Z.min (minRTT r) s) 0)); lia.
Qed.

Lemma validSample_pos s : validSample s = true → 0 < s.
Proof.
  unfold validSample. intros H. apply negb_true_iff, orb_false_iff in H as [_ H].
  bool_to_Z. lia.
Qed.

Lemma min_valid_spec samples :
  match min_valid samples with
  | None => ∀ s, s ∈ samples → validSample s = false
  | Some m => 0 < m ∧ m ∈ samples ∧ validSample m = true ∧
              ∀ s, s ∈ samples → validSample s = true → m ≤ s
  end.
Proof.
  induction samples as [|s l IH]; simpl; [intros s Hs; by apply not_elem_of_nil in Hs|].
  destruct (validSample s) eqn:Hs; [|destruct (min_valid l)].
  - pose proof (validSample_pos s Hs). destruct (min_valid l) as [m|].
    + destruct IH as (H1 & H2 & H3 & H4).
      destruct (Z.min_spec s m) as [[? ->]|[? ->]];
        (split; [lia|split; [set_solver|split; [done|]]]);
        intros s'; rewrite elem_of_cons; intros [->|Hin] Hv; try lia;
        specialize (H4 _ Hin Hv); lia.
    + split; [done|split; [set_solver|split; [done|]]].
      intros s'; rewrite elem_of_cons; intros [->|Hin] Hv; [lia|].
      rewrite (IH _ Hin) in Hv. done.
  - destruct IH as (H1 & H2 & H3 & H4). split; [done|split; [set_solver|split; [done|]]].
    intros s'; rewrite elem_of_cons; intros [->|Hin] Hv; [congruence|auto].
  - intros s'; rewrite elem_of_cons; intros [->|Hin]; auto.
Qed.

(** after any sequence of samples, [MinRTT] is the smallest sample that is
    positive and not the infinite duration, and it is 0 exactly when there is
    none; samples outside that range change nothing. *)
Theorem rtt_min_is_minimum oob samples :
  let r := updates oob samples NewRTTStats in
  (minRTT r = 0 ↔ ∀ s, s ∈ samples → validSample s = false) ∧
  (minRTT r ≠ 0 → minRTT r ∈ samples ∧ validSample (minRTT r) = true) ∧
  (∀ s, s ∈ samples → validSample s = true → minRTT r ≤ s).
Proof.
  simpl. rewrite (updates_min oob samples NewRTTStats) by (left; done). simpl.
  pose proof (min_valid_spec samples) as H. destruct (min_valid samples) as [m|].
  - destruct H as (H1 & H2 & H3 & H4). split; [|by split].
    split; [lia|]. intros Hall. rewrite (Hall _ H2) in H3. done.
  - split; [done|]. split; [done|]. intros s Hin Hv. rewrite (H _ Hin) in Hv. done.
Qed.

(** The statistics of a session before the first sample give a timeout of two
    seconds, and one sample of 100ms a timeout of (100 + 200 + 1) * 1.5 ms. *)
Example rto_examples :
  RTO (λ _, 0) NewRTTStats = 2 * Second ∧
  RTO (λ _, 0) (UpdateRTT (λ _, 0) (100 * Millisecond)
    (mkRTT false 0 0 0 0 Millisecond f64_1_5)) = 451500000.
Proof. vm_compute. split; reflexivity. Qed.

End Congestion.
Export Congestion.
