(* ===== verification/Replay.v ===== *)
(** * pkg/replay: the replay cache

    [ReplayCache] with its two generations of packet signatures.  Each call
    reads the clock once: [now] is that instant, in nanoseconds. *)

From S2P Require Import Prelude Sha256.

Module Replay.

Definition EmptyTag : string := "".

Record ReplayCache := mkCache {
  capacity : Z;
  expireTime : Z;
  expireInterval : Z;
  current : gmap Z string;
  previous : gmap Z string
}.

Definition NewCache (now cap interval : Z) : outcome ReplayCache :=
  if cap <? 0 then Panic "replay cache capacity can't be negative"
  else if interval <=? 0
  then Panic "replay cache expire interval must be a positive time range"
  else Ret (mkCache cap (now + interval) interval ∅ ∅).

Definition computeSignature (data : bytes) : Z := fnv64a data.

(** The first of the two maintenance steps: drop both generations. *)
Definition expireBoth (now : Z) (c : ReplayCache) : ReplayCache :=
  if expireInterval c <? now - expireTime c
  then mkCache (capacity c) (now + expireInterval c) (expireInterval c) ∅ ∅
  else c.

(** The second: move [current] to [previous]. *)
Definition rotate (now : Z) (c : ReplayCache) : ReplayCache :=
  if (capacity c <=? Z.of_nat (size (current c))) || (expireTime c <? now)
  then mkCache (capacity c) (now + expireInterval c) (expireInterval c) ∅ (current c)
  else c.

(** [existingTag == EmptyTag || tag == EmptyTag] or [existingTag != tag]. *)
Definition tagConflict (existingTag tag : string) : bool :=
  if bool_decide (existingTag = EmptyTag) || bool_decide (tag = EmptyTag) then true
  else negb (bool_decide (existingTag = tag)).

Definition IsDuplicate (now : Z) (data : bytes) (tag : string) (c : ReplayCache)
  : bool * ReplayCache :=
  if capacity c =? 0 then (false, c)
  else
    let signature := computeSignature data in
    let c := rotate now (expireBoth now c) in
    match current c !! signature with
    | Some existingTag => (tagConflict existingTag tag, c)
    | None =>
        let c := mkCache (capacity c) (expireTime c) (expireInterval c)
                   (<[signature := tag]> (current c)) (previous c) in
        match previous c !! signature with
        | Some existingTag => (tagConflict existingTag tag, c)
        | None => (false, c)
        end
    end.

Definition Sizes (c : ReplayCache) : Z * Z :=
  (Z.of_nat (size (current c)), Z.of_nat (size (previous c))).

Definition Clear (c : ReplayCache) : ReplayCache :=
  mkCache (capacity c) (expireTime c) (expireInterval c) ∅ ∅.

(** A call: its instant, its data and its tag. *)
Record call := mkCall { call_now : Z; call_data : bytes; call_tag : string }.

Definition runCall (c : ReplayCache) (x : call) : ReplayCache :=
  (IsDuplicate (call_now x) (call_data x) (call_tag x) c).2.
Definition runCalls (xs : list call) (c : ReplayCache) : ReplayCache := foldl runCall c xs.

Definition cache_ok (c : ReplayCache) : Prop :=
  0 < capacity c ∧ 0 < expireInterval c ∧
  Z.of_nat (size (current c)) ≤ capacity c ∧ Z.of_nat (size (previous c)) ≤ capacity c.

(** ** Lemmas *)

Lemma maintain_fields now c :
  capacity (rotate now (expireBoth now c)) = capacity c ∧
  expireInterval (rotate now (expireBoth now c)) = expireInterval c.
Proof. unfold rotate, expireBoth. by repeat case_if. Qed.

Lemma runCall_fields c x :
  capacity (runCall c x) = capacity c ∧ expireInterval (runCall c x) = expireInterval c.
Proof.
  unfold runCall, IsDuplicate. case_if; [done|].
  pose proof (maintain_fields (call_now x) c) as [H1 H2].
  destruct (current _ !! _); [done|]. simpl. destruct (previous _ !! _); done.
Qed.

Lemma maintain_ok now c :
  cache_ok c →
  let c' := rotate now (expireBoth now c) in
  cache_ok c' ∧ Z.of_nat (size (current c')) < capacity c'.
Proof.
  intros (H1 & H2 & H3 & H4). unfold rotate, expireBoth, cache_ok.
  destruct (expireInterval c <? now - expireTime c); simpl;
    case_if; simpl; rewrite ?map_size_empty; bool_to_Z; simpl in *; lia.
Qed.

Lemma runCall_ok c x : cache_ok c → cache_ok (runCall c x).
Proof.
  intros Hok. unfold runCall, IsDuplicate. case_if; [done|].
  pose proof (maintain_ok (call_now x) c Hok) as [(H1 & H2 & H3 & H4) H5].
  set (c' := rotate _ _) in *. destruct (current c' !! _) as [t|] eqn:E; [done|].
  assert (cache_ok (mkCache (capacity c') (expireTime c') (expireInterval c')
    (<[computeSignature (call_data x) := call_tag x]> (current c')) (previous c'))).
  { unfold cache_ok. simpl. rewrite map_size_insert_None by done. lia. }
  simpl. by destruct (previous c' !! _).
Qed.

Lemma maintain_id t c :
  0 < expireInterval c → t ≤ expireTime c → Z.of_nat (size (current c)) < capacity c →
  rotate t (expireBoth t c) = c.
Proof.
  intros. unfold expireBoth. rewrite (proj2 (Z.ltb_ge _ _)) by lia.
  unfold rotate. rewrite (proj2 (Z.leb_gt _ _)), (proj2 (Z.ltb_ge _ _)) by lia. done.
Qed.

(** What keeps a signature recorded at time [t1] visible after [k] more calls. *)
Definition remembered (s t1 : Z) (k : nat) (c : ReplayCache) : Prop :=
  (is_Some (current c !! s) ∧ t1 ≤ expireTime c) ∨
  (is_Some (previous c !! s) ∧ (size (current c) ≤ k)%nat ∧ t1 + expireInterval c ≤ expireTime c).

Lemma remembered_maintain s t1 k now c :
  remembered s t1 k c → 0 < expireInterval c → Z.of_nat k < capacity c →
  t1 ≤ now ≤ t1 + expireInterval c → remembered s t1 k (rotate now (expireBoth now c)).
Proof.
  intros Hr Hi Hk Hnow. unfold expireBoth.
  assert (t1 ≤ expireTime c) by (destruct Hr as [[_ ?]|(_ & _ & ?)]; lia).
  rewrite (proj2 (Z.ltb_ge _ _)) by lia. unfold rotate.
  destruct Hr as [[Hs He]|(Hs & Hsz & He)].
  - case_if; [|by left]. right. simpl. rewrite map_size_empty. split; [done|]. lia.
  - case_if; [|by right; auto]. apply orb_true_iff in Heqb as [?|?]; bool_to_Z; lia.
Qed.

Lemma remembered_call s t1 k c x :
  remembered s t1 k c → 0 < expireInterval c → Z.of_nat k < capacity c →
  t1 ≤ call_now x ≤ t1 + expireInterval c → remembered s t1 (S k) (runCall c x).
Proof.
  intros Hr Hi Hk Hnow. unfold runCall, IsDuplicate. case_if; [bool_to_Z; lia|].
  pose proof (remembered_maintain s t1 k (call_now x) c Hr Hi Hk Hnow) as Hm.
  set (c' := rotate _ _) in *. set (sig := computeSignature _).
  destruct (current c' !! sig) as [t|] eqn:E; simpl.
  - destruct Hm as [?|(? & ? & ?)]; [by left|right; auto with lia].
  - assert (remembered s t1 (S k) (mkCache (capacity c') (expireTime c') (expireInterval c')
      (<[sig := call_tag x]> (current c')) (previous c'))) as H.
    { destruct Hm as [[Hs He]|(Hs & Hsz & He)]; [left|right]; simpl.
      - split; [|done]. destruct (decide (sig = s)) as [->|Hne];
          [by rewrite lookup_insert_eq|by rewrite lookup_insert_ne].
      - rewrite map_size_insert_None by done. auto with lia. }
    by destruct (previous c' !! sig).
Qed.

Lemma remembered_calls s t1 k xs c :
  remembered s t1 k c → 0 < expireInterval c → Z.of_nat k + len xs ≤ capacity c →
  Forall (λ x, t1 ≤ call_now x ≤ t1 + expireInterval c) xs →
  remembered s t1 (k + length xs) (runCalls xs c).
Proof.
  revert k c. induction xs as [|x xs IH]; intros k c Hr Hi Hk Hall; simpl.
  - by rewrite Nat.add_0_r.
  - rewrite len_cons in Hk. pose proof (len_nonneg xs). apply Forall_cons in Hall as [Hx Hall].
    destruct (runCall_fields c x) as [Hc1 Hc2].
    replace (k + S (length xs))%nat with (S k + length xs)%nat by lia.
    apply IH; rewrite ?Hc1, ?Hc2; [|done|lia|done].
    apply remembered_call; (done || lia).
Qed.

Lemma IsDuplicate_records now data tag c :
  cache_ok c → remembered (computeSignature data) now 0 (IsDuplicate now data tag c).2.
Proof.
  intros Hok. unfold IsDuplicate. destruct Hok as (H1 & H2 & _).
  case_if; [bool_to_Z; lia|].
  assert (now ≤ expireTime (rotate now (expireBoth now c))) as He.
  { unfold rotate, expireBoth. repeat case_if; simpl in *; bool_to_Z; lia. }
  set (c' := rotate _ _) in *. left. destruct (current c' !! _) eqn:E; simpl; [by rewrite E|].
  destruct (previous c' !! _); simpl; by rewrite lookup_insert_eq.
Qed.

(** ** Properties *)

(** no false negative.  Data that went through the cache at time [t1] is
    reported as a duplicate by every query with the empty tag within one expire
    interval, as long as fewer calls than the capacity happened in between,
    whatever those calls were and whenever the generations rotated. *)
Theorem replay_detected c t1 data tag xs t2 :
  cache_ok c → t1 ≤ t2 ≤ t1 + expireInterval c → len xs < capacity c →
  Forall (λ x, t1 ≤ call_now x ≤ t1 + expireInterval c) xs →
  (IsDuplicate t2 data EmptyTag (runCalls xs (runCall c (mkCall t1 data tag)))).1 = true.
Proof.
  intros Hok Ht2 Hlen Hall. set (c1 := runCall c (mkCall t1 data tag)).
  assert (capacity c1 = capacity c ∧ expireInterval c1 = expireInterval c) as [Hc Hi]
    by apply runCall_fields.
  pose proof Hok as (Hcap & Hint & _).
  assert (remembered (computeSignature data) t1 (length xs) (runCalls xs c1)) as Hr.
  { apply (remembered_calls _ _ 0); rewrite ?Hc, ?Hi; [|done|lia|done].
    by apply (IsDuplicate_records t1 data tag c). }
  assert (capacity (runCalls xs c1) = capacity c ∧
          expireInterval (runCalls xs c1) = expireInterval c) as [Hc2 Hi2].
  { rewrite <- Hc, <- Hi. clear. generalize c1. induction xs as [|x xs IH]; intros c0; [done|].
    simpl. destruct (IH (runCall c0 x)) as [-> ->]. apply runCall_fields. }
  set (c2 := runCalls xs c1) in *.
  assert (remembered (computeSignature data) t1 (length xs) (rotate t2 (expireBoth t2 c2))) as Hm.
  { apply remembered_maintain; rewrite ?Hc2, ?Hi2; auto. }
  unfold IsDuplicate. rewrite Hc2. case_if; [bool_to_Z; lia|].
  set (c3 := rotate _ _) in *.
  assert (∀ t, tagConflict t EmptyTag = true) as Htag
    by (intros; unfold tagConflict; rewrite orb_comm; done).
  destruct (current c3 !! _) eqn:E; [apply Htag|]. simpl.
  destruct Hm as [[[? ?] _]|[[? ->] _]]; [congruence|]. apply Htag.
Qed.

Lemma replay_detected_witness :
  (IsDuplicate 300 [1; 2; 3] EmptyTag
     (runCalls [mkCall 150 [9] EmptyTag; mkCall 250 [7] "a"]
        (runCall (mkCache 4 120 200 ∅ ∅) (mkCall 100 [1; 2; 3] EmptyTag)))).1 = true.
Proof.
  apply (replay_detected (mkCache 4 120 200 ∅ ∅) 100 [1; 2; 3] EmptyTag
           [mkCall 150 [9] EmptyTag; mkCall 250 [7] "a"] 300).
  - vm_compute. repeat split; congruence.
  - vm_compute. split; congruence.
  - reflexivity.
  - repeat constructor; vm_compute; congruence.
Defined.

(** memory bound.  From a new cache, after any sequence of calls, neither
    generation holds more signatures than the capacity. *)
Theorem replay_cache_bounded now cap interval c xs :
  NewCache now cap interval = Ret c → 0 < cap →
  let '(n, m) := Sizes (runCalls xs c) in n ≤ cap ∧ m ≤ cap.
Proof.
  unfold NewCache. intros Hn Hcap. case_if_in Hn; [done|]. case_if_in Hn; [done|].
  injection Hn as Hn. bool_to_Z.
  assert (cache_ok c) as Hok by (subst c; unfold cache_ok; simpl; rewrite map_size_empty; lia).
  assert (capacity c = cap) as <- by by subst c. clear - Hok Hcap.
  simpl. revert c Hok Hcap. induction xs as [|x xs IH]; intros c Hok Hcap.
  - by destruct Hok as (_ & _ & ? & ?).
  - destruct (runCall_fields c x) as [Hf _]. rewrite <- Hf. apply IH; [by apply runCall_ok|lia].
Qed.

Lemma replay_cache_bounded_witness :
  let '(n, m) := Sizes (runCalls [mkCall 1 [1] ""; mkCall 2 [2] ""; mkCall 3 [3] ""]
                          (mkCache 2 60 60 ∅ ∅)) in n ≤ 2 ∧ m ≤ 2.
Proof.
  apply (replay_cache_bounded 0 2 60 (mkCache 2 60 60 ∅ ∅)); reflexivity.
Defined.

(** a first sighting is never reported, and a retransmission with the same
    non-empty tag (the same network address) is accepted as long as the
    generation that recorded it is the current one. *)
Theorem replay_accepts_fresh_and_retransmit c t1 t2 data tag :
  cache_ok c → current c !! computeSignature data = None →
  previous c !! computeSignature data = None → tag ≠ EmptyTag →
  t1 ≤ t2 → t2 ≤ expireTime c → Z.of_nat (size (current c)) + 1 < capacity c →
  let '(dup1, c1) := IsDuplicate t1 data tag c in
  let '(dup2, c2) := IsDuplicate t2 data tag c1 in
  dup1 = false ∧ dup2 = false ∧ c2 = c1.
Proof.
  intros (H1 & H2 & _) Hcur Hprev Htag Ht Ht2 Hsz.
  unfold IsDuplicate. destruct (Z.eqb_spec (capacity c) 0) as [|_]; [lia|].
  rewrite (maintain_id t1 c), Hcur by (done || lia). simpl. rewrite Hprev. simpl.
  destruct (Z.eqb_spec (capacity c) 0) as [|_]; [lia|].
  rewrite maintain_id; simpl; rewrite ?map_size_insert_None by done; try (done || lia).
  rewrite lookup_insert_eq. split; [done|]. unfold tagConflict.
  rewrite (bool_decide_eq_false_2 (tag = EmptyTag)), (bool_decide_eq_true_2 (tag = tag)) by done.
  done.
Qed.

Lemma replay_accepts_fresh_and_retransmit_witness :
  let '(dup1, c1) := IsDuplicate 5 [1; 2] "1.2.3.4:5" (mkCache 10 100 100 ∅ ∅) in
  let '(dup2, c2) := IsDuplicate 6 [1; 2] "1.2.3.4:5" c1 in
  dup1 = false ∧ dup2 = false ∧ c2 = c1.
Proof.
  apply (replay_accepts_fresh_and_retransmit (mkCache 10 100 100 ∅ ∅) 5 6 [1; 2] "1.2.3.4:5");
    try reflexivity; try discriminate; vm_compute; repeat split; congruence.
Defined.

(** a replay from another address is accepted at the second attempt when
    the original sighting is in the previous generation.  [IsDuplicate] writes
    the new tag into [current] before it compares with [previous], so the first
    attempt is reported but records the attacker's own address, and the second
    attempt then counts as a retransmission. *)
Theorem replay_second_attempt_accepted c t1 t2 data victim attacker :
  cache_ok c → current c !! computeSignature data = None →
  previous c !! computeSignature data = Some victim →
  victim ≠ EmptyTag → attacker ≠ EmptyTag → victim ≠ attacker →
  t1 ≤ t2 → t2 ≤ expireTime c → Z.of_nat (size (current c)) + 1 < capacity c →
  let '(dup1, c1) := IsDuplicate t1 data attacker c in
  let '(dup2, _) := IsDuplicate t2 data attacker c1 in
  dup1 = true ∧ dup2 = false.
Proof.
  intros (H1 & H2 & _) Hcur Hprev Hv Ha Hva Ht Ht2 Hsz.
  unfold IsDuplicate. destruct (Z.eqb_spec (capacity c) 0) as [|_]; [lia|].
  rewrite (maintain_id t1 c), Hcur by (done || lia). simpl. rewrite Hprev. simpl.
  destruct (Z.eqb_spec (capacity c) 0) as [|_]; [lia|].
  rewrite maintain_id; simpl; rewrite ?map_size_insert_None by done; try (done || lia).
  rewrite lookup_insert_eq. unfold tagConflict.
  rewrite !(bool_decide_eq_false_2 (_ = EmptyTag)) by done. simpl.
  by rewrite bool_decide_eq_false_2, bool_decide_eq_true_2.
Qed.

Lemma replay_second_attempt_accepted_witness :
  let c := runCalls [mkCall 5 [1; 2] "victim:1"; mkCall 6 [9] "x"; mkCall 7 [8] "y";
                     mkCall 8 [7] "z"] (mkCache 3 100 100 ∅ ∅) in
  let '(dup1, c1) := IsDuplicate 9 [1; 2] "attacker:1" c in
  let '(dup2, _) := IsDuplicate 10 [1; 2] "attacker:1" c1 in
  dup1 = true ∧ dup2 = false.
Proof.
  intros c.
  apply (replay_second_attempt_accepted c 9 10 [1; 2] "victim:1" "attacker:1").
  - vm_compute. repeat split; discriminate.
  - vm_compute. reflexivity.
  - vm_compute. reflexivity.
  - discriminate.
  - discriminate.
  - discriminate.
  - discriminate.
  - vm_compute. discriminate.
  - vm_compute. reflexivity.
Defined.

End Replay.
Export Replay.
