(* ===== verification/Cipher.v ===== *)
(** * pkg/cipher: the AEAD block cipher, its nonces and key selection

    [AEADBlockCipher] (cipher.go), user hints and key trials (api.go), time
    salts (keygen.go) and the cipher cache (cache.go).

    XChaCha20-Poly1305 and PBKDF2 are libraries outside the repository: the
    functions [Seal], [Open] and [pbkdf2Key] are parameters, and [aead_laws]
    names what their documentation promises.  Random draws and the clock are
    arguments. *)

From S2P Require Import Prelude Mathext Sha256 Common.

Module Cipher.

Definition DefaultNonceSize : Z := 24.
Definition DefaultOverhead : Z := 16.
Definition DefaultKeyLen : Z := 32.
Definition noncePrefixLenForUserHint : Z := 16.
Definition nonceSuffixLenForUserHint : Z := 4.

(** The parts of [appctlpb.NoncePattern] that its getters return. *)
Inductive NonceType := NONCE_TYPE_RANDOM | NONCE_TYPE_PRINTABLE
  | NONCE_TYPE_PRINTABLE_SUBSET | NONCE_TYPE_FIXED.
Record NoncePattern := mkPattern {
  np_type : NonceType;
  np_applyToAllUDPPacket : bool;
  np_minLen : Z;
  np_maxLen : Z;
  np_customHexStrings : list string
}.

Record BlockContext := mkContext { UserName : string }.

Inductive AEADType := AES128GCM | AES256GCM | ChaCha20Poly1305 | XChaCha20Poly1305.

Record AEADBlockCipher := mkCipher {
  aeadType : AEADType;
  enableImplicitNonce : bool;
  key : bytes;
  implicitNonce : bytes;
  ctx : BlockContext;
  noncePattern : option NoncePattern;
  noncePatternApplied : bool
}.

(** ** Updates of single fields *)

Definition set_implicitNonce (c : AEADBlockCipher) (n : bytes) : AEADBlockCipher :=
  mkCipher (aeadType c) (enableImplicitNonce c) (key c) n (ctx c) (noncePattern c)
    (noncePatternApplied c).
Definition set_applied (c : AEADBlockCipher) : AEADBlockCipher :=
  mkCipher (aeadType c) (enableImplicitNonce c) (key c) (implicitNonce c) (ctx c)
    (noncePattern c) true.

Definition newXChaCha20Poly1305BlockCipher (k : bytes) : outcome AEADBlockCipher :=
  if negb (len k =? 32) then Err (Errorf "XChaCha20-Poly1305 key length is %d bytes, want 32 bytes")
  else Ret (mkCipher XChaCha20Poly1305 false k [] (mkContext "") None false).

Definition SetImplicitNonceMode (enable : bool) (c : AEADBlockCipher) : AEADBlockCipher :=
  mkCipher (aeadType c) enable (key c) (if enable then implicitNonce c else [])
    (ctx c) (noncePattern c) (noncePatternApplied c).

Definition IsStateless (c : AEADBlockCipher) : bool := negb (enableImplicitNonce c).

Definition SetBlockContext (bc : BlockContext) (c : AEADBlockCipher) : AEADBlockCipher :=
  mkCipher (aeadType c) (enableImplicitNonce c) (key c) (implicitNonce c) bc
    (noncePattern c) (noncePatternApplied c).

Definition SetNoncePattern (p : option NoncePattern) (c : AEADBlockCipher) : AEADBlockCipher :=
  mkCipher (aeadType c) (enableImplicitNonce c) (key c) (implicitNonce c) (ctx c) p
    (noncePatternApplied c).

(** [Clone]: a new cipher with the same key, mode, nonce, context and pattern;
    [noncePatternApplied] starts again at false. *)
Definition Clone (c : AEADBlockCipher) : outcome AEADBlockCipher :=
  match aeadType c with
  | XChaCha20Poly1305 =>
      match newXChaCha20Poly1305BlockCipher (key c) with
      | Ret n => Ret (mkCipher (aeadType n) (enableImplicitNonce c) (key n) (implicitNonce c)
                        (ctx c) (noncePattern c) (noncePatternApplied n))
      | _ => Panic "newXChaCha20Poly1305BlockCipher"
      end
  | _ => Panic "invalid AEAD type"
  end.

(** ** Nonces *)

(** The loop of [increaseNonce] over the reversed nonce: add one to the last
    byte, go on to the byte before while the result is 0. *)
Fixpoint increaseRev (n : bytes) : bytes :=
  match n with
  | [] => []
  | x :: n => let y := u8 (x + 1) in if y =? 0 then y :: increaseRev n else y :: n
  end.

Definition increaseNonce (c : AEADBlockCipher) : outcome AEADBlockCipher :=
  if negb (enableImplicitNonce c) || (len (implicitNonce c) =? 0)
  then Panic "implicit nonce mode is not enabled"
  else Ret (set_implicitNonce c (reverse (increaseRev (reverse (implicitNonce c))))).

Definition userHint (user nonce : bytes) : bytes :=
  take (Z.to_nat nonceSuffixLenForUserHint)
    (Sum256 (user ++ take (Z.to_nat noncePrefixLenForUserHint) nonce)).

Definition addUserHintToNonce (c : AEADBlockCipher) (nonce : bytes) : outcome bytes :=
  if bool_decide (UserName (ctx c) = "") then Ret nonce
  else if len nonce <? noncePrefixLenForUserHint + nonceSuffixLenForUserHint
  then Panic "nonce length %d is too short"
  else Ret (list_inserts (Z.to_nat (len nonce - nonceSuffixLenForUserHint))
              (userHint (string_bytes (UserName (ctx c))) nonce) nonce).

Definition CheckUserFromHint (user nonce : bytes) : outcome bool :=
  if len user =? 0 then Panic "user is empty"
  else if len nonce <? noncePrefixLenForUserHint + nonceSuffixLenForUserHint
  then Panic "nonce length %d is too short"
  else Ret (bool_decide (userHint user nonce =
              drop (Z.to_nat (len nonce - nonceSuffixLenForUserHint)) nonce)).

(** [hex.DecodeString]. *)
Definition hexDigit (c : Z) : option Z :=
  if (0x30 <=? c) && (c <=? 0x39) then Some (c - 0x30)
  else if (0x61 <=? c) && (c <=? 0x66) then Some (c - 0x61 + 10)
  else if (0x41 <=? c) && (c <=? 0x46) then Some (c - 0x41 + 10)
  else None.
Fixpoint hexDecode (b : bytes) : option bytes :=
  match b with
  | [] => Some []
  | [_] => None
  | x :: y :: b =>
      match hexDigit x, hexDigit y, hexDecode b with
      | Some h, Some l, Some r => Some (h * 16 + l :: r)
      | _, _, _ => None
      end
  end.

(** The draws of one [newNonce]: the bytes of [crand.Read] ([None] when it
    fails), the fallback draws of [ToPrintableChar], and [mrand.Intn]. *)
Record nonceDraw := mkDraw {
  d_nonce : option bytes; d_print : nat → Z; d_intn : Z → Z
}.

Definition nonceRewriteLen (p : NoncePattern) (intn : Z → Z) : Z :=
  let minLen := np_minLen p in
  let maxLen := np_maxLen p in
  let maxLen := if DefaultNonceSize <? maxLen then DefaultNonceSize else maxLen in
  let minLen := if maxLen <? minLen then maxLen else minLen in
  if minLen =? maxLen then minLen
  else minLen + intn (maxLen - minLen + 1).

Definition applyPattern (p : NoncePattern) (d : nonceDraw) (nonce : bytes) : outcome bytes :=
  match np_type p with
  | NONCE_TYPE_RANDOM => Ret nonce
  | NONCE_TYPE_PRINTABLE =>
      ToPrintableChar (d_print d) nonce 0 (nonceRewriteLen p (d_intn d))
  | NONCE_TYPE_PRINTABLE_SUBSET => ToCommon64Set nonce 0 (nonceRewriteLen p (d_intn d))
  | NONCE_TYPE_FIXED =>
      match np_customHexStrings p with
      | [] => Ret nonce
      | _ =>
          let idx := d_intn d (len (np_customHexStrings p)) in
          match np_customHexStrings p !! Z.to_nat idx with
          | None => Panic "index out of range"
          | Some s =>
              match hexDecode (string_bytes s) with
              | None => Panic "fail to decode hex string"
              | Some prefix => Ret (list_inserts 0 (take (Z.to_nat DefaultNonceSize) prefix) nonce)
              end
          end
      end
  end.

(** [newNonce] returns the nonce and the cipher with [noncePatternApplied]. *)
Definition newNonce (d : nonceDraw) (c : AEADBlockCipher) : outcome (bytes * AEADBlockCipher) :=
  match d_nonce d with
  | None => Err (Errorf "crand.Read")
  | Some nonce =>
      match noncePattern c with
      | None => Ret (nonce, c)
      | Some p =>
          if negb (enableImplicitNonce c) && noncePatternApplied c &&
             negb (np_applyToAllUDPPacket p)
          then Ret (nonce, c)
          else let! nonce := applyPattern p d nonce in Ret (nonce, set_applied c)
      end
  end.

(** ** Encryption and decryption *)

Section AEAD.
Context (Seal : bytes → bytes → bytes → bytes)          (* key, nonce, plaintext *)
        (Open : bytes → bytes → bytes → option bytes).  (* key, nonce, ciphertext *)

Definition Encrypt (d : nonceDraw) (plaintext : bytes) (c : AEADBlockCipher)
  : outcome (bytes * AEADBlockCipher) :=
  if enableImplicitNonce c then
    if len (implicitNonce c) =? 0 then
      let! (n, c) := newNonce d c in
      let! n := addUserHintToNonce c n in
      Ret (n ++ Seal (key c) n plaintext, set_implicitNonce c n)
    else
      let! c := increaseNonce c in
      Ret (Seal (key c) (implicitNonce c) plaintext, c)
  else
    let! (n, c) := newNonce d c in
    let! n := addUserHintToNonce c n in
    Ret (n ++ Seal (key c) n plaintext, c).

Definition EncryptWithNonce (plaintext nonce : bytes) (c : AEADBlockCipher) : outcome bytes :=
  if enableImplicitNonce c
  then Err (Errorf "EncryptWithNonce() is not supported when implicit nonce is enabled")
  else if negb (len nonce =? DefaultNonceSize) then Err (Errorf "want nonce size %d, got %d")
  else Ret (Seal (key c) nonce plaintext).

(** [Decrypt] updates the implicit nonce before it opens the ciphertext, so
    the updated cipher comes with both outcomes. *)
Definition openWith (c : AEADBlockCipher) (nonce ciphertext : bytes)
  : outcome bytes * AEADBlockCipher :=
  match Open (key c) nonce ciphertext with
  | Some p => (Ret p, c)
  | None => (Err (Errorf "cipher.AEAD.Open() failed"), c)
  end.

Definition Decrypt (ciphertext : bytes) (c : AEADBlockCipher)
  : outcome bytes * AEADBlockCipher :=
  let n := Z.to_nat DefaultNonceSize in
  if enableImplicitNonce c then
    if len (implicitNonce c) =? 0 then
      if len ciphertext <? DefaultNonceSize
      then (Err (Errorf "ciphertext is smaller than nonce size"), c)
      else openWith (set_implicitNonce c (take n ciphertext)) (take n ciphertext)
             (drop n ciphertext)
    else match increaseNonce c with
         | Ret c => openWith c (implicitNonce c) ciphertext
         | Err e => (Err e, c)
         | Panic s => (Panic s, c)
         end
  else if len ciphertext <? DefaultNonceSize
  then (Err (Errorf "ciphertext is smaller than nonce size"), c)
  else openWith c (take n ciphertext) (drop n ciphertext).

Definition DecryptWithNonce (ciphertext nonce : bytes) (c : AEADBlockCipher) : outcome bytes :=
  if enableImplicitNonce c
  then Err (Errorf "EncryptWithNonce() is not supported when implicit nonce is enabled")
  else if negb (len nonce =? DefaultNonceSize) then Err (Errorf "want nonce size %d, got %d")
  else (openWith c nonce ciphertext).1.

(** [SelectDecrypt]: the first block that decrypts, as left by its own
    [Decrypt], and the plaintext. *)
Fixpoint SelectDecrypt (data : bytes) (blocks : list AEADBlockCipher)
  : outcome (AEADBlockCipher * bytes) :=
  match blocks with
  | [] => Err (Errorf "unable to decrypt from supplied %d cipher blocks")
  | b :: blocks =>
      match Decrypt data b with
      | (Ret p, b) => Ret (b, p)
      | (Err _, _) => SelectDecrypt data blocks
      | (Panic s, _) => Panic s
      end
  end.

(** What the AEAD library documents: [Open] inverts [Seal] under the same key
    and nonce, a sealed text is 16 bytes longer, and [Open] rejects a text
    shorter than the tag. *)
Record aead_laws : Prop := {
  open_seal : ∀ k n p, Open k n (Seal k n p) = Some p;
  seal_len : ∀ k n p, len (Seal k n p) = len p + DefaultOverhead;
  open_len : ∀ k n ct p, Open k n ct = Some p → len ct = len p + DefaultOverhead
}.
End AEAD.

(** ** Keys: api.go, keygen.go *)

Definition HashPassword (rawPassword uniqueValue : bytes) : bytes :=
  Sum256 (rawPassword ++ [0] ++ uniqueValue).

Definition KeyIter : Z := 64.
Definition SecondNs : Z := 1000000000.
Definition KeyRefreshInterval : Z := 120 * SecondNs.

(** [time.Time.Round]: to the nearest multiple, halfway values up.  [t] is in
    nanoseconds since the Unix epoch, which is itself a multiple of two minutes
    after Go's zero time. *)
Definition Round (t d : Z) : Z :=
  let r := t `mod` d in if r + r <? d then t - r else t + (d - r).

(** The three instants whose salts [saltFromTime] computes. *)
Definition saltTimes (t : Z) : list Z :=
  let rounded := Round t KeyRefreshInterval in
  [rounded - KeyRefreshInterval; rounded; rounded + KeyRefreshInterval].

(** [sha256.Sum256] of the big-endian [uint64(t.Unix())]. *)
Definition saltOf (t : Z) : bytes := Sum256 (be_put 8 (u64 (t / SecondNs))).
Definition saltFromTime (t : Z) : list bytes := map saltOf (saltTimes t).

Section Keys.
Context (Seal : bytes → bytes → bytes → bytes) (Open : bytes → bytes → bytes → option bytes)
        (pbkdf2Key : bytes → bytes → Z → Z → bytes).  (* password, salt, iterations, length *)

Definition NewKey (salt : bytes) (iter : Z) (password : bytes) (keyLen : Z) : outcome bytes :=
  if len password =? 0 then Err (Errorf "password is empty")
  else Ret (pbkdf2Key password salt iter keyLen).

Fixpoint cipherPerSalt (password : bytes) (stateless : bool) (salts : list bytes)
  : outcome (list AEADBlockCipher) :=
  match salts with
  | [] => Ret []
  | s :: salts =>
      let! k := NewKey s KeyIter password DefaultKeyLen in
      let! b := newXChaCha20Poly1305BlockCipher k in
      let b := if stateless then b else SetImplicitNonceMode true b in
      let! bs := cipherPerSalt password stateless salts in
      Ret (b :: bs)
  end.

Definition newBlockCipherList (now : Z) (password : bytes) (stateless : bool)
  : outcome (list AEADBlockCipher) :=
  cipherPerSalt password stateless (saltFromTime now).

(** *** cache.go *)

Record cachedCiphers := mkCached { cipherList : list AEADBlockCipher; createTime : Z }.

Definition cacheValidInterval : Z := KeyRefreshInterval / 4.

Fixpoint CloneBlockCiphers (bs : list AEADBlockCipher) : outcome (list AEADBlockCipher) :=
  match bs with
  | [] => Ret []
  | b :: bs => let! b := Clone b in let! bs := CloneBlockCiphers bs in Ret (b :: bs)
  end.

Definition statefulClones (bs : list AEADBlockCipher) : outcome (list AEADBlockCipher) :=
  let! bs := CloneBlockCiphers bs in Ret (map (SetImplicitNonceMode true) bs).

(** [jitter] is the value of [mrand.Intn(cacheValidMaxJitterMs)] milliseconds. *)
Definition getBlockCipherList (now jitter : Z) (cache : gmap (list Z) cachedCiphers)
    (password : bytes) (stateless : bool)
  : outcome (list AEADBlockCipher * gmap (list Z) cachedCiphers) :=
  let generate :=
    let! bs := newBlockCipherList now password true in
    let cache := <[password := mkCached bs now]> cache in
    if stateless then Ret (bs, cache)
    else let! bs := statefulClones bs in Ret (bs, cache) in
  match cache !! password with
  | Some e =>
      if createTime e + (cacheValidInterval - jitter) <? now then generate
      else if stateless then Ret (cipherList e, cache)
      else let! bs := statefulClones (cipherList e) in Ret (bs, cache)
  | None => generate
  end.

Definition BlockCipherFromPassword (now jitter : Z) (cache : gmap (list Z) cachedCiphers)
    (password : bytes) (stateless : bool)
  : outcome (AEADBlockCipher * gmap (list Z) cachedCiphers) :=
  let! (bs, cache) := getBlockCipherList now jitter cache password stateless in
  match bs !! 1%nat with
  | Some b => Ret (b, cache)
  | None => Panic "index out of range"
  end.

Definition TryDecrypt (now jitter : Z) (cache : gmap (list Z) cachedCiphers)
    (data password : bytes) (stateless : bool)
  : outcome (AEADBlockCipher * bytes) * gmap (list Z) cachedCiphers :=
  match getBlockCipherList now jitter cache password stateless with
  | Ret (bs, cache) => (SelectDecrypt Open data bs, cache)
  | Err _ => (Err (Errorf "BlockCipherListFromPassword() failed"), cache)
  | Panic s => (Panic s, cache)
  end.
End Keys.

(** ** Lemmas on nonces *)

(** Little-endian value, for the reversed nonce. *)
Fixpoint le_get (b : bytes) : Z :=
  match b with
  | [] => 0
  | x :: b => x + 2 ^ 8 * le_get b
  end.

Lemma be_get_acc_snoc acc b x : be_get_acc acc (b ++ [x]) = be_get_acc acc b * 2 ^ 8 + x.
Proof.
  revert acc. induction b as [|y b IH]; intros acc; simpl.
  - by rewrite Z.shiftl_mul_pow2.
  - apply IH.
Qed.

Lemma be_get_reverse b : be_get (reverse b) = le_get b.
Proof.
  unfold be_get. induction b as [|x b IH]; [done|].
  rewrite reverse_cons, be_get_acc_snoc, IH. simpl. lia.
Qed.

Lemma length_increaseRev b : length (increaseRev b) = length b.
Proof. induction b; simpl; [done|]. case_if; simpl; congruence. Qed.

Lemma increaseRev_ok b : bytes_ok b → bytes_ok (increaseRev b).
Proof.
  induction 1; simpl; [constructor|].
  case_if; constructor; auto with mieru.
Qed.

Lemma le_get_range b : bytes_ok b → 0 ≤ le_get b < 2 ^ (8 * len b).
Proof.
  induction 1 as [|x b Hx Hb IH]; simpl; [change (2 ^ (8 * len [])) with 1; lia|].
  rewrite len_cons. pose proof (len_nonneg b). unfold in_u8 in Hx.
  replace (8 * (1 + len b)) with (8 + 8 * len b) by lia.
  rewrite Z.pow_add_r by lia. lia.
Qed.

Lemma le_get_increaseRev b :
  bytes_ok b → le_get (increaseRev b) = (le_get b + 1) `mod` 2 ^ (8 * len b).
Proof.
  induction 1 as [|x b Hx Hb IH]; simpl; [by rewrite Z.mod_1_r|].
  rewrite len_cons. pose proof (len_nonneg b) as Hl. pose proof (le_get_range b Hb) as Hr.
  replace (8 * (1 + len b)) with (8 + 8 * len b) by lia. rewrite Z.pow_add_r by lia.
  set (P := 2 ^ (8 * len b)) in *. assert (0 < P) by (apply Z.pow_pos_nonneg; lia).
  unfold u8, in_u8 in *. change (2 ^ 8) with 256 in *.
  destruct (decide (x = 255)) as [->|Hne].
  - change ((255 + 1) `mod` 256) with 0. cbn [Z.eqb le_get]. change (2 ^ 8) with 256. rewrite IH.
    replace (255 + 256 * le_get b + 1) with (256 * (le_get b + 1)) by lia.
    rewrite Z.mul_mod_distr_l by lia. lia.
  - rewrite (Z.mod_small (x + 1)) by lia.
    rewrite (proj2 (Z.eqb_neq _ _)) by lia. simpl. rewrite Z.mod_small; lia.
Qed.

Definition increased (n : bytes) : bytes := reverse (increaseRev (reverse n)).

Lemma length_increased n : length (increased n) = length n.
Proof. unfold increased. by rewrite length_reverse, length_increaseRev, length_reverse. Qed.

Lemma bytes_ok_reverse b : bytes_ok b → bytes_ok (reverse b).
Proof. apply Forall_reverse. Qed.

Lemma increased_ok n : bytes_ok n → bytes_ok (increased n).
Proof. intros. unfold increased. auto using bytes_ok_reverse, increaseRev_ok. Qed.

Lemma be_get_increased n :
  bytes_ok n → be_get (increased n) = (be_get n + 1) `mod` 2 ^ (8 * len n).
Proof.
  intros Hn. unfold increased. rewrite be_get_reverse, le_get_increaseRev
    by by apply bytes_ok_reverse.
  rewrite <- be_get_reverse, reverse_involutive. unfold len. by rewrite length_reverse.
Qed.

Lemma increaseNonce_ret c :
  enableImplicitNonce c = true → implicitNonce c ≠ [] →
  increaseNonce c = Ret (set_implicitNonce c (increased (implicitNonce c))).
Proof.
  intros He Hn. unfold increaseNonce. rewrite He. simpl.
  destruct (Z.eqb_spec (len (implicitNonce c)) 0) as [H|]; [by apply len_0 in H|done].
Qed.

(** The nonce after [k] more operations of a stateful cipher. *)
Lemma nonce_iter k n :
  bytes_ok n →
  bytes_ok (Nat.iter k increased n) ∧ length (Nat.iter k increased n) = length n ∧
  be_get (Nat.iter k increased n) = (be_get n + Z.of_nat k) `mod` 2 ^ (8 * len n).
Proof.
  intros Hn. induction k as [|k (IH1 & IH2 & IH3)].
  - simpl. split; [done|]. split; [done|]. rewrite Z.add_0_r, Z.mod_small; [done|].
    by apply be_get_range.
  - rewrite Nat.iter_succ. split; [by apply increased_ok|].
    split; [by rewrite length_increased|].
    rewrite be_get_increased by done. unfold len in *. rewrite IH2, IH3.
    rewrite Zplus_mod_idemp_l. f_equal. lia.
Qed.

(** ** Lemmas on new nonces *)

(** A nonce pattern that [newNonce] can apply: what the configuration check of
    a traffic pattern enforces. *)
Definition pattern_ok (p : NoncePattern) : Prop :=
  0 ≤ np_minLen p ∧ 0 ≤ np_maxLen p ∧
  Forall (λ s, ∃ b, hexDecode (string_bytes s) = Some b) (np_customHexStrings p).

Definition draw_ok (d : nonceDraw) : Prop :=
  (∃ n, d_nonce d = Some n ∧ len n = DefaultNonceSize ∧ bytes_ok n) ∧
  (∀ i, 0 ≤ d_print d i < 95) ∧ (∀ n, 0 < n → 0 ≤ d_intn d n < n).

Lemma nonceRewriteLen_range p intn :
  0 ≤ np_minLen p → 0 ≤ np_maxLen p → (∀ n, 0 < n → 0 ≤ intn n < n) →
  0 ≤ nonceRewriteLen p intn ≤ DefaultNonceSize.
Proof.
  intros H1 H2 Hi. unfold nonceRewriteLen, DefaultNonceSize.
  repeat match goal with |- context [if ?b then _ else _] =>
    lazymatch b with context [if _ then _ else _] => fail | _ => destruct b eqn:? end end;
  bool_to_Z; try lia;
  match goal with |- context [intn ?n] => pose proof (Hi n) end; lia.
Qed.

Lemma length_applyPattern p d n n' :
  applyPattern p d n = Ret n' → length n' = length n.
Proof.
  unfold applyPattern. destruct (np_type p).
  - by intros [= <-].
  - unfold ToPrintableChar, rewriteRange. repeat case_if; try done.
    intros [= <-]. apply length_rewriteLoop.
  - unfold ToCommon64Set, rewriteRange. repeat case_if; try done.
    intros [= <-]. apply length_rewriteLoop.
  - destruct (np_customHexStrings p) eqn:E; [by intros [= <-]|]. rewrite <- E.
    destruct (np_customHexStrings p !! _); [|done].
    destruct (hexDecode _); [|done]. intros [= <-]. apply length_inserts.
Qed.

Lemma applyPattern_ret p d n :
  pattern_ok p → draw_ok d → len n = DefaultNonceSize → ∃ n', applyPattern p d n = Ret n'.
Proof.
  intros (H1 & H2 & H3) (_ & Hp & Hi) Hn. unfold applyPattern.
  pose proof (nonceRewriteLen_range p (d_intn d) H1 H2 Hi) as Hr.
  destruct (np_type p); [eauto| | |].
  - unfold ToPrintableChar. rewrite rewriteRange_ret by lia. eauto.
  - unfold ToCommon64Set. rewrite rewriteRange_ret by lia. eauto.
  - destruct (np_customHexStrings p) eqn:E; [eauto|]. rewrite <- E in *.
    assert (0 < len (np_customHexStrings p)) as Hpos
      by (rewrite E, len_cons; pose proof (len_nonneg l); lia).
    specialize (Hi _ Hpos).
    destruct (lookup_lt_is_Some_2 (np_customHexStrings p)
      (Z.to_nat (d_intn d (len (np_customHexStrings p))))) as [x Hx]; [unfold len in *; lia|].
    rewrite Hx. apply (Forall_lookup_1 _ _ _ _ H3) in Hx as [b ->]. eauto.
Qed.

(** [newNonce] on a valid pattern: 24 bytes, and only [noncePatternApplied]
    of the cipher may change. *)
Lemma newNonce_ret d c :
  draw_ok d → (∀ p, noncePattern c = Some p → pattern_ok p) →
  ∃ n c', newNonce d c = Ret (n, c') ∧ len n = DefaultNonceSize ∧
    (c' = c ∨ c' = set_applied c).
Proof.
  intros Hd Hp. pose proof Hd as ((n0 & Hn0 & Hl0 & _) & _). unfold newNonce. rewrite Hn0.
  destruct (noncePattern c) as [p|]; [|eauto 8]. case_if; [eauto 8|].
  destruct (applyPattern_ret p d n0) as [n' Hn']; auto. rewrite Hn'. simpl.
  apply length_applyPattern in Hn'. exists n', (set_applied c).
  split; [done|]. split; [unfold len in *; congruence|auto].
Qed.

Lemma addUserHint_ret c n :
  len n = DefaultNonceSize →
  ∃ n', addUserHintToNonce c n = Ret n' ∧ len n' = DefaultNonceSize ∧
    take 20 n' = take 20 n ∧
    (UserName (ctx c) ≠ "" →
     drop 20 n' = userHint (string_bytes (UserName (ctx c))) n).
Proof.
  intros Hn. unfold addUserHintToNonce. case_bool_decide as Hu; [exists n; naive_solver|].
  unfold noncePrefixLenForUserHint, nonceSuffixLenForUserHint, DefaultNonceSize in *.
  rewrite Hn. simpl. set (h := userHint _ n).
  assert (length h = 4%nat) as Hh.
  { unfold h, userHint. rewrite length_take, length_Sum256. done. }
  assert (length n = 24%nat) as Hl by (unfold len in Hn; lia).
  change (Z.to_nat (24 - 4)) with 20%nat.
  rewrite list_inserts_suffix by lia.
  exists (take 20 n ++ h). split; [done|]. rewrite len_app. unfold len. rewrite length_take, Hl, Hh.
  split; [done|]. split; [by rewrite take_app_le by (rewrite length_take; lia);
    rewrite take_take|]. intros _. rewrite drop_app_length' by (rewrite length_take; lia). done.
Qed.

(** ** Properties of nonces *)

(** a stateful cipher never reuses a nonce: [increaseNonce] adds one to the
    nonce read as a big-endian number (modulo 2^192), so the nonces of any two
    of the first 2^192 operations after the first differ. *)
Theorem stateful_nonces_distinct c i j :
  enableImplicitNonce c = true → len (implicitNonce c) = DefaultNonceSize →
  bytes_ok (implicitNonce c) → (i < j)%nat → Z.of_nat j < 2 ^ 192 →
  let step k := Nat.iter k (λ m, obind m increaseNonce) (Ret c) in
  ∃ ci cj, step i = Ret ci ∧ step j = Ret cj ∧ implicitNonce ci ≠ implicitNonce cj ∧
    be_get (implicitNonce ci) = (be_get (implicitNonce c) + Z.of_nat i) `mod` 2 ^ 192.
Proof.
  intros He Hl Hok Hij Hj step.
  assert (∀ k, step k = Ret (set_implicitNonce c (Nat.iter k increased (implicitNonce c)))) as Hs.
  { intros k. unfold step. induction k as [|k IH]; [simpl; destruct c; done|].
    rewrite Nat.iter_succ, IH. simpl. rewrite increaseNonce_ret; [done|done|].
    simpl. intros Hnil. destruct (nonce_iter k (implicitNonce c) Hok) as (_ & Hlen & _).
    rewrite Hnil in Hlen. unfold len, DefaultNonceSize in Hl. simpl in Hlen. lia. }
  exists (set_implicitNonce c (Nat.iter i increased (implicitNonce c))),
         (set_implicitNonce c (Nat.iter j increased (implicitNonce c))).
  split; [apply Hs|]. split; [apply Hs|]. simpl.
  destruct (nonce_iter i (implicitNonce c) Hok) as (_ & _ & Hi).
  destruct (nonce_iter j (implicitNonce c) Hok) as (_ & _ & Hj').
  unfold DefaultNonceSize in Hl. rewrite Hl in Hi, Hj'.
  change (8 * 24) with 192 in *. split; [|done].
  intros Heq. rewrite Heq, Hj' in Hi.
  assert (((be_get (implicitNonce c) + Z.of_nat j) - (be_get (implicitNonce c) + Z.of_nat i))
    `mod` 2 ^ 192 = 0) as Hm by (rewrite Zminus_mod, Hi, Z.sub_diag; done).
  replace (_ + _ - _) with (Z.of_nat j - Z.of_nat i) in Hm by lia.
  rewrite Z.mod_small in Hm; lia.
Qed.

Lemma stateful_nonces_distinct_witness :
  let c := mkCipher XChaCha20Poly1305 true (replicate 32 1) (replicate 23 9 ++ [255])
             (mkContext "u") None false in
  let step k := Nat.iter k (λ m, obind m increaseNonce) (Ret c) in
  ∃ ci cj, step 1%nat = Ret ci ∧ step 2%nat = Ret cj ∧ implicitNonce ci ≠ implicitNonce cj.
Proof.
  intros c step.
  destruct (stateful_nonces_distinct c 1 2) as (ci & cj & H1 & H2 & H3 & _).
  - reflexivity.
  - reflexivity.
  - repeat constructor; vm_compute; congruence.
  - repeat constructor.
  - reflexivity.
  - exists ci, cj. exact (conj H1 (conj H2 H3)).
Defined.

Lemma hint_prefix (n n' : bytes) :
  take 20 n' = take 20 n →
  take (Z.to_nat noncePrefixLenForUserHint) n' = take (Z.to_nat noncePrefixLenForUserHint) n.
Proof.
  intros H. change (Z.to_nat noncePrefixLenForUserHint) with 16%nat.
  assert (∀ l : bytes, take 16 l = take 16 (take 20 l)) as Ht
    by (intros l; by rewrite take_take).
  by rewrite (Ht n'), H, <- Ht.
Qed.

Lemma addUserHint_checks c n n' :
  len n = DefaultNonceSize → UserName (ctx c) ≠ "" → string_bytes (UserName (ctx c)) ≠ [] →
  addUserHintToNonce c n = Ret n' →
  CheckUserFromHint (string_bytes (UserName (ctx c))) n' = Ret true.
Proof.
  intros Hn Hu Hb He. destruct (addUserHint_ret c n Hn) as (m & Hm & Hl & Ht & Hd).
  rewrite He in Hm. injection Hm as <-. unfold CheckUserFromHint.
  destruct (Z.eqb_spec (len (string_bytes (UserName (ctx c)))) 0) as [H0|];
    [by apply len_0 in H0|].
  rewrite Hl. unfold DefaultNonceSize. simpl.
  change (Z.to_nat (24 - nonceSuffixLenForUserHint)) with 20%nat.
  rewrite Hd by done. unfold userHint. rewrite (hint_prefix _ _ Ht).
  by rewrite bool_decide_eq_true_2.
Qed.

Lemma string_bytes_nonempty s : s ≠ "" → string_bytes s ≠ [].
Proof. by destruct s. Qed.

(** ** Encryption round trips *)

Section RoundTrip.
Context (Seal : bytes → bytes → bytes → bytes) (Open : bytes → bytes → bytes → option bytes).
Context (laws : aead_laws Seal Open).

(** Encrypt a sequence of plaintexts with one cipher, and decrypt one. *)
Fixpoint encryptAll (d : nonceDraw) (ps : list bytes) (c : AEADBlockCipher)
  : outcome (list bytes) :=
  match ps with
  | [] => Ret []
  | p :: ps =>
      let! (ct, c) := Encrypt Seal d p c in
      let! cts := encryptAll d ps c in Ret (ct :: cts)
  end.
Fixpoint decryptAll (cts : list bytes) (c : AEADBlockCipher) : outcome (list bytes) :=
  match cts with
  | [] => Ret []
  | ct :: cts =>
      let '(r, c) := Decrypt Open ct c in
      let! p := r in
      let! ps := decryptAll cts c in Ret (p :: ps)
  end.

(** Sender and receiver in step: same key, same running nonce. *)
Definition in_step (s r : AEADBlockCipher) : Prop :=
  enableImplicitNonce s = true ∧ enableImplicitNonce r = true ∧ key s = key r ∧
  implicitNonce s = implicitNonce r ∧ implicitNonce s ≠ [].

Lemma in_step_next d p s r :
  in_step s r →
  ∃ ct s' r', Encrypt Seal d p s = Ret (ct, s') ∧ Decrypt Open ct r = (Ret p, r') ∧
    in_step s' r' ∧ len ct = len p + DefaultOverhead.
Proof.
  intros (Hs & Hr & Hk & Hn & Hne).
  assert ((len (implicitNonce s) =? 0) = false) as Hl
    by (apply Z.eqb_neq; intros H; by apply len_0 in H).
  unfold Encrypt, Decrypt. rewrite Hs, Hr, <- Hn, Hl.
  rewrite (increaseNonce_ret s), (increaseNonce_ret r) by (done || congruence).
  simpl. eexists _, _, _. split; [done|]. unfold openWith. simpl.
  rewrite <- Hk, <- Hn, (open_seal _ _ laws). split; [done|]. split.
  - split_and!; simpl; try done; try congruence. intros H.
    apply (f_equal length) in H. rewrite length_increased in H.
    destruct (implicitNonce s); [done|discriminate H].
  - apply (seal_len _ _ laws).
Qed.

Lemma in_step_all d ps s r :
  in_step s r → ∃ cts, encryptAll d ps s = Ret cts ∧ decryptAll cts r = Ret ps.
Proof.
  revert s r. induction ps as [|p ps IH]; intros s r Hst; simpl; [by exists []|].
  destruct (in_step_next d p s r Hst) as (ct & s' & r' & H1 & H2 & H3 & _).
  rewrite H1. simpl. destruct (IH s' r' H3) as (cts & H4 & H5). rewrite H4. simpl.
  eexists. split; [done|]. simpl. rewrite H2. simpl. by rewrite H5.
Qed.

Lemma take_nonce (n ct : bytes) :
  len n = DefaultNonceSize → take (Z.to_nat DefaultNonceSize) (n ++ ct) = n ∧
  drop (Z.to_nat DefaultNonceSize) (n ++ ct) = ct.
Proof.
  intros Hn. assert (Z.to_nat DefaultNonceSize = length n) as -> by (unfold len in Hn; lia).
  by rewrite take_app_length, drop_app_length.
Qed.

(** The first message of a stateful cipher, and every message of a stateless
    one: a nonce of 24 bytes followed by the sealed plaintext. *)
Lemma Encrypt_first d p c :
  draw_ok d → (∀ q, noncePattern c = Some q → pattern_ok q) →
  (enableImplicitNonce c = false ∨ implicitNonce c = []) →
  ∃ n c', Encrypt Seal d p c = Ret (n ++ Seal (key c) n p, c') ∧ len n = DefaultNonceSize ∧
    enableImplicitNonce c' = enableImplicitNonce c ∧ key c' = key c ∧
    (enableImplicitNonce c = true → implicitNonce c' = n) ∧
    (UserName (ctx c) ≠ "" →
     CheckUserFromHint (string_bytes (UserName (ctx c))) n = Ret true).
Proof.
  intros Hd Hp Hmode. destruct (newNonce_ret d c Hd Hp) as (n & c1 & H1 & H2 & H3).
  destruct (addUserHint_ret c1 n H2) as (n' & H4 & H5 & _).
  assert (key c1 = key c ∧ enableImplicitNonce c1 = enableImplicitNonce c ∧ ctx c1 = ctx c)
    as (Hk & He & Hc) by by destruct H3 as [-> | ->].
  assert (UserName (ctx c) ≠ "" →
     CheckUserFromHint (string_bytes (UserName (ctx c))) n' = Ret true) as Hhint.
  { intros Hu. rewrite <- Hc in *.
    apply (addUserHint_checks c1 n n'); auto using string_bytes_nonempty. }
  unfold Encrypt. destruct (enableImplicitNonce c) eqn:E.
  - destruct Hmode as [|Hm]; [done|]. rewrite Hm. simpl. rewrite H1. simpl. rewrite H4. simpl.
    exists n', (set_implicitNonce c1 n'). simpl. rewrite Hk. by split_and!.
  - rewrite H1. simpl. rewrite H4. simpl. exists n', c1. rewrite Hk. by split_and!.
Qed.

(** a stream of messages survives.  A sender and a receiver with the same
    key, both in implicit nonce mode and fresh, agree on every message of any
    sequence: decrypting the ciphertexts in order gives the plaintexts, also
    with a nonce pattern and a user hint in the first nonce. *)
Theorem stateful_stream_roundtrip d ps s r :
  draw_ok d → (∀ q, noncePattern s = Some q → pattern_ok q) →
  enableImplicitNonce s = true → enableImplicitNonce r = true → key s = key r →
  implicitNonce s = [] → implicitNonce r = [] →
  ∃ cts, encryptAll d ps s = Ret cts ∧ decryptAll cts r = Ret ps.
Proof.
  intros Hd Hp Hs Hr Hk Hns Hnr. destruct ps as [|p ps]; [by exists []|]. simpl.
  destruct (Encrypt_first d p s Hd Hp) as (n & s' & H1 & H2 & H3 & H4 & H5 & _); [auto|].
  rewrite H1. simpl. set (r' := set_implicitNonce r n).
  assert (in_step s' r') as Hst.
  { split_and!; simpl; try congruence; [by apply H5|]. rewrite H5 by done.
    intros ->. discriminate H2. }
  destruct (in_step_all d ps s' r' Hst) as (cts & H6 & H7). rewrite H6. simpl.
  eexists. split; [done|]. simpl. unfold Decrypt. rewrite Hr, Hnr. simpl.
  rewrite len_app, H2, (seal_len _ _ laws). pose proof (len_nonneg p).
  rewrite (proj2 (Z.ltb_ge _ _)) by (unfold DefaultNonceSize, DefaultOverhead; lia).
  destruct (take_nonce n (Seal (key s) n p) H2) as [-> ->]. fold r'.
  unfold openWith. simpl. rewrite <- Hk, (open_seal _ _ laws). simpl. by rewrite H7.
Qed.

(** a stateless cipher's message carries its own nonce and opens with any
    stateless cipher of the same key; its nonce also seals and opens a second
    text (the payload of a UDP segment), and for a named user it passes the
    user hint check. *)
Theorem stateless_roundtrip d p q s r :
  draw_ok d → (∀ x, noncePattern s = Some x → pattern_ok x) →
  enableImplicitNonce s = false → enableImplicitNonce r = false → key s = key r →
  ∃ ct s' ct2, Encrypt Seal d p s = Ret (ct, s') ∧ Decrypt Open ct r = (Ret p, r) ∧
    len ct = DefaultNonceSize + len p + DefaultOverhead ∧
    EncryptWithNonce Seal q (take (Z.to_nat DefaultNonceSize) ct) s' = Ret ct2 ∧
    DecryptWithNonce Open ct2 (take (Z.to_nat DefaultNonceSize) ct) r = Ret q ∧
    (UserName (ctx s) ≠ "" →
     CheckUserFromHint (string_bytes (UserName (ctx s)))
       (take (Z.to_nat DefaultNonceSize) ct) = Ret true).
Proof.
  intros Hd Hp Hs Hr Hk.
  destruct (Encrypt_first d p s Hd Hp) as (n & s' & H1 & H2 & H3 & H4 & _ & H5); [auto|].
  destruct (take_nonce n (Seal (key s) n p) H2) as [Ht1 Ht2].
  exists (n ++ Seal (key s) n p), s', (Seal (key s) n q). split; [done|].
  rewrite Ht1. unfold Decrypt, EncryptWithNonce, DecryptWithNonce, openWith.
  rewrite H3, Hs, Hr, H2, H4, len_app, H2, (seal_len _ _ laws), Z.eqb_refl.
  pose proof (len_nonneg p).
  rewrite (proj2 (Z.ltb_ge _ _)) by (unfold DefaultNonceSize, DefaultOverhead; lia).
  rewrite Ht1, Ht2, <- Hk, !(open_seal _ _ laws). simpl. auto with lia.
Qed.
End RoundTrip.

(** A toy AEAD that satisfies the laws: the plaintext followed by 16 zeros. *)
Definition toySeal (k n p : bytes) : bytes := p ++ replicate 16 0.
Definition toyOpen (k n ct : bytes) : option bytes :=
  if len ct <? 16 then None else Some (take (length ct - 16) ct).

Lemma toy_laws : aead_laws toySeal toyOpen.
Proof.
  constructor; unfold toySeal, toyOpen.
  - intros _ _ p. rewrite len_app. pose proof (len_nonneg p).
    rewrite (proj2 (Z.ltb_ge _ _)) by (unfold len at 2; simpl; lia).
    rewrite length_app, length_replicate, Nat.add_sub, take_app_length. done.
  - intros. by rewrite len_app.
  - intros _ _ ct p. case_if; [done|]. intros [= <-]. bool_to_Z.
    unfold len, DefaultOverhead in *. rewrite length_take. lia.
Qed.

Definition toyDraw : nonceDraw := mkDraw (Some (replicate 24 200)) (λ _, 1) (λ _, 0).
Lemma toyDraw_ok : draw_ok toyDraw.
Proof.
  split; [|split].
  - exists (replicate 24 200). repeat split; repeat constructor; vm_compute; congruence.
  - intros; simpl; lia.
  - intros; simpl; lia.
Qed.

Definition toyCipher (implicit : bool) (user : string) : AEADBlockCipher :=
  mkCipher XChaCha20Poly1305 implicit (replicate 32 7) [] (mkContext user)
    (Some (mkPattern NONCE_TYPE_PRINTABLE false 2 8 [])) false.

Lemma stateful_stream_roundtrip_witness :
  ∃ cts, encryptAll toySeal toyDraw [[1; 2]; []; [3]] (toyCipher true "bob") = Ret cts ∧
    decryptAll toyOpen cts (toyCipher true "") = Ret [[1; 2]; []; [3]].
Proof.
  apply (stateful_stream_roundtrip toySeal toyOpen toy_laws toyDraw
           [[1; 2]; []; [3]] (toyCipher true "bob") (toyCipher true "")); try reflexivity.
  - exact toyDraw_ok.
  - intros q [= <-]. repeat split; try discriminate. constructor.
Defined.

Lemma stateless_roundtrip_witness :
  ∃ ct s', Encrypt toySeal toyDraw [5; 6] (toyCipher false "bob") = Ret (ct, s') ∧
    Decrypt toyOpen ct (toyCipher false "") = (Ret [5; 6], toyCipher false "").
Proof.
  destruct (stateless_roundtrip toySeal toyOpen toy_laws toyDraw [5; 6] [8]
              (toyCipher false "bob") (toyCipher false "")) as (ct & s' & _ & H1 & H2 & _).
  - exact toyDraw_ok.
  - intros q [= <-]. repeat split; try discriminate. constructor.
  - reflexivity.
  - reflexivity.
  - reflexivity.
  - exists ct, s'. exact (conj H1 H2).
Defined.

(** ** Key schedule and cache *)

Lemma Round_bounds t d : 0 < d → - d ≤ 2 * (t - Round t d) < d ∧ Round t d `mod` d = 0.
Proof.
  intros Hd. unfold Round. pose proof (Z.mod_pos_bound t d Hd).
  pose proof (Z.div_mod t d). case_if; bool_to_Z; split; try lia.
  - replace (t - t `mod` d) with (0 + t / d * d) by lia. rewrite Z.mod_add by lia.
    apply Z.mod_0_l. lia.
  - replace (t + (d - t `mod` d)) with (0 + (t / d + 1) * d) by lia. rewrite Z.mod_add by lia.
    apply Z.mod_0_l. lia.
Qed.

(** Multiples of [d] less than [2d] apart are equal or neighbours. *)
Lemma Round_close t1 t2 d :
  0 < d → Z.abs (t1 - t2) ≤ d →
  Round t1 d = Round t2 d - d ∨ Round t1 d = Round t2 d ∨ Round t1 d = Round t2 d + d.
Proof.
  intros Hd Ht. destruct (Round_bounds t1 d Hd) as [H1 M1].
  destruct (Round_bounds t2 d Hd) as [H2 M2].
  apply Z.div_exact in M1, M2; try lia.
  set (q1 := Round t1 d / d) in *. set (q2 := Round t2 d / d) in *.
  assert (Hq : -2 < q1 - q2 < 2).
  { split; apply (Z.mul_lt_mono_pos_l d); lia. }
  assert (q1 = q2 - 1 ∨ q1 = q2 ∨ q1 = q2 + 1) as [E|[E|E]] by lia;
    rewrite M1, M2, E; [left|right; left|right; right]; ring.
Qed.

Lemma saltTimes_close t1 t2 :
  Z.abs (t1 - t2) ≤ KeyRefreshInterval → Round t1 KeyRefreshInterval ∈ saltTimes t2.
Proof.
  intros Ht. unfold saltTimes. rewrite !elem_of_cons.
  destruct (Round_close t1 t2 KeyRefreshInterval) as [H|[H|H]]; auto. done.
Qed.

Lemma saltTimes_far t1 t2 :
  Round t1 KeyRefreshInterval ∈ saltTimes t2 → Z.abs (t1 - t2) < 2 * KeyRefreshInterval.
Proof.
  unfold saltTimes. rewrite !elem_of_cons, elem_of_nil.
  destruct (Round_bounds t1 KeyRefreshInterval) as [H1 _]; [done|].
  destruct (Round_bounds t2 KeyRefreshInterval) as [H2 _]; [done|].
  unfold KeyRefreshInterval, SecondNs in *. lia.
Qed.

(** key agreement in time.  The salt a client uses at time [t1] (its middle
    one) is among the three that a server tries at time [t2] whenever the
    clocks differ by at most two minutes, and never when they differ by four
    minutes or more, as the protocol document states. *)
Theorem salt_window t1 t2 :
  (Z.abs (t1 - t2) ≤ KeyRefreshInterval →
   ∃ s, saltFromTime t1 !! 1%nat = Some s ∧ s ∈ saltFromTime t2) ∧
  (2 * KeyRefreshInterval ≤ Z.abs (t1 - t2) →
   Round t1 KeyRefreshInterval ∉ saltTimes t2).
Proof.
  split.
  - intros Ht. exists (saltOf (Round t1 KeyRefreshInterval)). split; [done|].
    unfold saltFromTime. apply list_elem_of_fmap. eauto using saltTimes_close.
  - intros Ht Hin. apply saltTimes_far in Hin. lia.
Qed.

Section KeySelection.
Context (Seal : bytes → bytes → bytes → bytes) (Open : bytes → bytes → bytes → option bytes)
        (pbkdf2Key : bytes → bytes → Z → Z → bytes).
Context (laws : aead_laws Seal Open).
(** PBKDF2 returns as many bytes as asked for. *)
Context (pbkdf2_len : ∀ pw salt iter n, 0 ≤ n → len (pbkdf2Key pw salt iter n) = n).

Definition keysAt (t : Z) (password : bytes) : list bytes :=
  map (λ s, pbkdf2Key password s KeyIter DefaultKeyLen) (saltFromTime t).

(** A cipher as the cache holds it: stateless, with a 32-byte key.  Its
    context and nonce pattern may have been set by a user of the cache. *)
Definition cached_cipher_ok (b : AEADBlockCipher) : Prop :=
  aeadType b = XChaCha20Poly1305 ∧ len (key b) = 32 ∧ enableImplicitNonce b = false ∧
  implicitNonce b = [] ∧ ∀ q, noncePattern b = Some q → pattern_ok q.

Definition cache_coherent (cache : gmap (list Z) cachedCiphers) : Prop :=
  ∀ pw e, cache !! pw = Some e →
    map key (cipherList e) = keysAt (createTime e) pw ∧
    Forall cached_cipher_ok (cipherList e).

Lemma cipherPerSalt_ret password salts :
  password ≠ [] →
  ∃ bs, cipherPerSalt pbkdf2Key password true salts = Ret bs ∧
    map key bs = map (λ s, pbkdf2Key password s KeyIter DefaultKeyLen) salts ∧
    Forall cached_cipher_ok bs.
Proof.
  intros Hp. induction salts as [|s salts (bs & IH1 & IH2 & IH3)]; [by exists []|].
  cbn [cipherPerSalt]. unfold NewKey.
  destruct (Z.eqb_spec (len password) 0) as [H|_]; [by apply len_0 in H|]. simpl.
  pose proof (pbkdf2_len password s KeyIter DefaultKeyLen) as Hl.
  unfold newXChaCha20Poly1305BlockCipher. rewrite Hl by done. simpl. rewrite IH1. simpl.
  eexists. split; [done|]. simpl. rewrite IH2. split; [done|]. constructor; [|done].
  split_and!; simpl; try done. by apply Hl.
Qed.

(** The clones that a stateful caller gets. *)
Definition fresh_stateful (b : AEADBlockCipher) : Prop :=
  enableImplicitNonce b = true ∧ implicitNonce b = [] ∧
  ∀ q, noncePattern b = Some q → pattern_ok q.

Lemma statefulClones_ret bs :
  Forall cached_cipher_ok bs →
  ∃ bs', statefulClones bs = Ret bs' ∧ map key bs' = map key bs ∧ Forall fresh_stateful bs'.
Proof.
  intros H. unfold statefulClones.
  assert (∃ cs, CloneBlockCiphers bs = Ret cs ∧ map key cs = map key bs ∧
    Forall (λ b, implicitNonce b = [] ∧ ∀ q, noncePattern b = Some q → pattern_ok q) cs)
    as (cs & H1 & H2 & H3).
  { induction H as [|b bs (Ha & Hk & He & Hn & Hq) _ (cs & H1 & H2 & H3)]; [by exists []|].
    simpl. unfold Clone, newXChaCha20Poly1305BlockCipher. rewrite Ha, Hk. simpl. rewrite H1.
    simpl. eexists. split; [done|]. simpl. rewrite H2. split; [done|].
    constructor; [|done]. simpl. by rewrite Hn. }
  rewrite H1. simpl. eexists. split; [done|]. rewrite map_map. split; [by rewrite <- H2|].
  clear H1 H2. induction H3 as [|b cs [Hn Hq] _ IH]; simpl; constructor; [|done].
  split_and!; simpl; auto.
Qed.


(** What a caller of the cipher list gets: the keys of a creation time at most
    [cacheValidInterval] old. *)
Definition list_post (now : Z) (password : bytes) (stateless : bool)
    (r : list AEADBlockCipher * gmap (list Z) cachedCiphers) : Prop :=
  cache_coherent r.2 ∧
  (∃ t', map key r.1 = keysAt t' password ∧ now - cacheValidInterval ≤ t' ≤ now) ∧
  Forall (if stateless then cached_cipher_ok else fresh_stateful) r.1.

Lemma list_post_intro now password (stateless : bool) bs cache t' :
  cache_coherent cache → map key bs = keysAt t' password →
  now - cacheValidInterval ≤ t' ≤ now → Forall cached_cipher_ok bs →
  ∃ r, (if stateless then Ret (bs, cache)
        else let! bs := statefulClones bs in Ret (bs, cache)) = Ret r ∧
       list_post now password stateless r.
Proof.
  intros Hc Hk Ht Hb. destruct (statefulClones_ret bs Hb) as (bs' & H1 & H2 & H3).
  destruct stateless; [|rewrite H1; simpl]; eexists; (split; [done|]); split_and!; simpl;
    try done; exists t'; split; congruence.
Qed.

Lemma getBlockCipherList_ret now jitter cache password stateless :
  cache_coherent cache → password ≠ [] → 0 ≤ jitter →
  (∀ e, cache !! password = Some e → createTime e ≤ now) →
  ∃ r, getBlockCipherList pbkdf2Key now jitter cache password stateless = Ret r ∧
    list_post now password stateless r.
Proof.
  intros Hc Hp Hj Hcreate. unfold getBlockCipherList, newBlockCipherList.
  destruct (cipherPerSalt_ret password (saltFromTime now) Hp) as (bs & H1 & H2 & H3).
  rewrite H1. simpl obind.
  assert (0 ≤ cacheValidInterval) by (unfold cacheValidInterval; by vm_compute).
  destruct (list_post_intro now password stateless bs
    (<[password := mkCached bs now]> cache) now) as (r & Hr); [|done|lia|done|].
  { intros pw e. destruct (decide (pw = password)) as [->|Hne].
    - rewrite lookup_insert_eq. intros [= <-]. done.
    - rewrite lookup_insert_ne by done. apply Hc. }
  destruct (cache !! password) as [e|] eqn:E; [|by exists r].
  case_if; [by exists r|]. bool_to_Z. destruct (Hc _ _ E) as [He1 He2].
  specialize (Hcreate e eq_refl).
  apply (list_post_intro now password stateless _ _ (createTime e)); auto. lia.
Qed.

(** A cipher that has not used its nonce: [Decrypt] reads the nonce from the
    message and never panics. *)
Definition fresh (b : AEADBlockCipher) : Prop :=
  enableImplicitNonce b = false ∨ implicitNonce b = [].

Lemma Decrypt_fresh b n ct :
  fresh b → len n = DefaultNonceSize →
  (Decrypt Open (n ++ ct) b).1 =
    match Open (key b) n ct with
    | Some p => Ret p
    | None => Err (Errorf "cipher.AEAD.Open() failed")
    end ∧ key (Decrypt Open (n ++ ct) b).2 = key b.
Proof.
  intros Hf Hn. unfold Decrypt. rewrite len_app, Hn. pose proof (len_nonneg ct).
  rewrite (proj2 (Z.ltb_ge _ _)) by lia. destruct (take_nonce n ct Hn) as [-> ->].
  unfold openWith. destruct Hf as [-> | ->]; simpl.
  - by destruct (Open (key b) n ct).
  - destruct (enableImplicitNonce b); simpl; by destruct (Open (key b) n ct).
Qed.

Lemma SelectDecrypt_fresh bs n k p :
  Forall fresh bs → len n = DefaultNonceSize → k ∈ map key bs →
  ∃ b p', SelectDecrypt Open (n ++ Seal k n p) bs = Ret (b, p') ∧ key b ∈ map key bs ∧
    (key b = k → p' = p).
Proof.
  intros Hf Hn. induction Hf as [|b bs Hb _ IH]; [by intros ?%elem_of_nil|].
  intros Hk. simpl. destruct (Decrypt_fresh b n (Seal k n p) Hb Hn) as [H1 H2].
  destruct (Decrypt Open (n ++ Seal k n p) b) as [r b'] eqn:E. simpl in *. subst r.
  destruct (Open (key b) n (Seal k n p)) as [p'|] eqn:Eo.
  - exists b', p'. rewrite H2. split_and!; [done|apply elem_of_cons; auto|].
    intros <-. rewrite (open_seal _ _ laws) in Eo. congruence.
  - apply elem_of_cons in Hk as [-> | Hk]; [by rewrite (open_seal _ _ laws) in Eo|].
    destruct (IH Hk) as (b0 & p' & ? & ? & ?). exists b0, p'.
    split_and!; auto. apply elem_of_cons; auto.
Qed.

Lemma list_fresh (stateless : bool) bs :
  Forall (if stateless then cached_cipher_ok else fresh_stateful) bs →
  Forall (λ b, fresh b ∧ ∀ q, noncePattern b = Some q → pattern_ok q) bs.
Proof.
  intros H. eapply Forall_impl; [exact H|]. intros b. destruct stateless.
  - intros (_ & _ & ? & _ & ?). split; [by left|done].
  - intros (_ & ? & ?). split; [by right|done].
Qed.

(** client and server agree on a key without exchanging one.  The cipher
    that a client takes from its cache encrypts a message that a server with
    the same hashed password decrypts, whatever is in either cache and
    whatever their expiry jitters, as long as the clocks differ by at most
    [KeyRefreshInterval - cacheValidInterval] = 90 s.  The server selects a
    cipher among its three keys, and with the client's key it reads exactly
    the client's message. *)
Theorem key_agreement d p password t1 t2 j1 j2 cache1 cache2 sl1 sl2 :
  draw_ok d → password ≠ [] → 0 ≤ j1 → 0 ≤ j2 →
  cache_coherent cache1 → cache_coherent cache2 →
  (∀ e, cache1 !! password = Some e → createTime e ≤ t1) →
  (∀ e, cache2 !! password = Some e → createTime e ≤ t2) →
  Z.abs (t1 - t2) ≤ KeyRefreshInterval - cacheValidInterval →
  ∃ c cache1' ct c' b p' cache2',
    BlockCipherFromPassword pbkdf2Key t1 j1 cache1 password sl1 = Ret (c, cache1') ∧
    Encrypt Seal d p c = Ret (ct, c') ∧
    TryDecrypt Open pbkdf2Key t2 j2 cache2 ct password sl2 = (Ret (b, p'), cache2') ∧
    (key b = key c → p' = p).
Proof.
  intros Hd Hp Hj1 Hj2 Hc1 Hc2 Ht1 Ht2 Hskew. unfold BlockCipherFromPassword, TryDecrypt.
  destruct (getBlockCipherList_ret t1 j1 cache1 password sl1) as
    ([bs1 cache1'] & -> & _ & (t1' & Hk1 & Hr1) & Hf1); [done..|].
  destruct (getBlockCipherList_ret t2 j2 cache2 password sl2) as
    ([bs2 cache2'] & -> & _ & (t2' & Hk2 & Hr2) & Hf2); [done..|].
  simpl in *. apply list_fresh in Hf1, Hf2.
  assert (bs1 !! 1%nat ≫= (λ b, Some (key b)) =
    Some (pbkdf2Key password (saltOf (Round t1' KeyRefreshInterval)) KeyIter DefaultKeyLen))
    as Hkey.
  { apply (f_equal (.!! 1%nat)) in Hk1. simpl in Hk1. 
    unfold keysAt, saltFromTime in Hk1. simpl in Hk1. rewrite list_lookup_fmap in Hk1.
    by destruct (bs1 !! 1%nat). }
  destruct (bs1 !! 1%nat) as [c|] eqn:Ec; [|done]. simpl in Hkey. injection Hkey as Hkey.
  destruct (Forall_lookup_1 _ _ _ _ Hf1 Ec) as [Hfc Hpat].
  destruct (Encrypt_first Seal d p c Hd Hpat Hfc) as (n & c' & He & Hn & _).
  destruct (SelectDecrypt_fresh bs2 n (key c) p) as (b & p' & Hs & _ & Hb); [|done| |].
  - eapply Forall_impl; [exact Hf2|]. tauto.
  - rewrite Hkey, Hk2. unfold keysAt, saltFromTime. apply list_elem_of_fmap.
    eexists. split; [done|]. apply list_elem_of_fmap. eexists. split; [done|].
    apply saltTimes_close. lia.
  - exists c, cache1', (n ++ Seal (key c) n p), c', b, p', cache2'.
    simpl. rewrite Hs. auto.
Qed.
End KeySelection.

(** A key derivation with the documented length, for the witness. *)
Definition toyKdf (pw salt : bytes) (iter n : Z) : bytes :=
  take (Z.to_nat n) (salt ++ replicate (Z.to_nat n) 0).

Lemma toyKdf_len pw salt iter n : 0 ≤ n → len (toyKdf pw salt iter n) = n.
Proof.
  intros Hn. unfold toyKdf, len. rewrite length_take, length_app, length_replicate. lia.
Qed.

Lemma key_agreement_witness :
  ∃ c cache1' ct c' b p' cache2',
    BlockCipherFromPassword toyKdf (1000 * SecondNs) 0 ∅ [1; 2] true = Ret (c, cache1') ∧
    Encrypt toySeal toyDraw [7; 8; 9] c = Ret (ct, c') ∧
    TryDecrypt toyOpen toyKdf (1050 * SecondNs) 0 ∅ ct [1; 2] false
      = (Ret (b, p'), cache2').
Proof.
  destruct (key_agreement toySeal toyOpen toyKdf toy_laws toyKdf_len toyDraw [7; 8; 9] [1; 2]
    (1000 * SecondNs) (1050 * SecondNs) 0 0 ∅ ∅ true false)
    as (c & k1 & ct & c' & b & p' & k2 & H1 & H2 & H3 & _).
  - exact toyDraw_ok.
  - discriminate.
  - lia.
  - lia.
  - intros pw e H. discriminate H.
  - intros pw e H. discriminate H.
  - intros e H. discriminate H.
  - intros e H. discriminate H.
  - vm_compute. discriminate.
  - exists c, k1, ct, c', b, p', k2. exact (conj H1 (conj H2 H3)).
Defined.

End Cipher.
Export Cipher.
