(* ===== verification/Segment.v ===== *)
(** * pkg/protocol/segment.go: segments and the segment tree

    A segment is a metadata header with its payload.  [segmentTree] keeps
    segments ordered by sequence number in a B-tree of github.com/google/btree
    (a third-party package: the class [BTree] is its interface and [BTreeLaws]
    its documented behaviour), with two one-slot channels that signal "empty"
    and "not empty".  A nil segment, and a metadata value that is neither of the
    two structures, do not exist in the model, so [checkNil] and [checkSeq] have
    nothing to reject. *)

From stdpp Require Import sorting.
From S2P Require Import Prelude Mathext Metadata Cipher.

Module Segment.

Definition maxPDU : Z := 32 * 1024.
Definition txCountLimit : Z := 20.

Inductive TransportProtocol := UnknownTransport | StreamTransport | PacketTransport.

Definition packetOverhead : Z :=
  DefaultNonceSize + Z.of_nat MetadataLength + DefaultOverhead * 2.

Definition MaxFragmentSize (mtu : Z) (transport : TransportProtocol) : Z :=
  match transport with
  | StreamTransport => maxPDU
  | _ => Max 0 (mtu - packetOverhead)
  end.

Record segment := mkSegment {
  smeta : metadata;
  payload : bytes;
  transport : TransportProtocol;
  ackCount : Z;
  txCount : Z;
  txTime : Z;
  txTimeout : Z;
  block : option AEADBlockCipher
}.

Definition SessionID (s : segment) : Z :=
  match smeta s with MDataAck das => das_sessionID das | MSession ss => ss_sessionID ss end.
Definition Seq (s : segment) : Z :=
  match smeta s with MDataAck das => das_seq das | MSession ss => ss_seq ss end.
Definition Fragment (s : segment) : Z :=
  match smeta s with MDataAck das => das_fragment das | MSession _ => 0 end.

Definition Less (s other : segment) : bool := Seq s <? Seq other.

(** ** The B-tree interface *)

Class BTree (T : Type) := {
  bt_new : T;
  bt_items : T → list segment;
  bt_len : T → Z;
  bt_replaceOrInsert : segment → T → option segment * T;
  bt_deleteMin : T → option segment * T;
  bt_min : T → option segment;
  bt_max : T → option segment;
  bt_clear : T → T;
  (** [Ascend]: the iterator threads a state, may write to the segment it is
      given (the tree holds pointers), and stops the iteration with [false]. *)
  bt_ascend : ∀ {S : Type}, (S → segment → S * segment * bool) → S → T → S * T
}.

(** What the operations do to the items in ascending order. *)
Fixpoint listInsert (s : segment) (l : list segment) : option segment * list segment :=
  match l with
  | [] => (None, [s])
  | x :: l' =>
      if Less s x then (None, s :: l)
      else if Less x s then let '(p, l'') := listInsert s l' in (p, x :: l'')
      else (Some x, s :: l')
  end.

Fixpoint listAscend {S} (f : S → segment → S * segment * bool) (st : S) (l : list segment)
  : S * list segment :=
  match l with
  | [] => (st, [])
  | x :: l =>
      match f st x with
      | (st, x', true) => let '(st, l') := listAscend f st l in (st, x' :: l')
      | (st, x', false) => (st, x' :: l)
      end
  end.

Definition seg_lt (a b : segment) : Prop := Seq a < Seq b.
Definition seg_sorted (l : list segment) : Prop := StronglySorted seg_lt l.

(** The documented behaviour, on trees whose items are in order; an iterator
    must not change sequence numbers. *)
Class BTreeLaws (T : Type) `{BTree T} := {
  bt_items_new : bt_items bt_new = [];
  bt_len_items t : bt_len t = len (bt_items t);
  bt_items_insert s t : seg_sorted (bt_items t) →
    (bt_replaceOrInsert s t).1 = (listInsert s (bt_items t)).1 ∧
    bt_items (bt_replaceOrInsert s t).2 = (listInsert s (bt_items t)).2;
  bt_items_deleteMin t : seg_sorted (bt_items t) →
    (bt_deleteMin t).1 = head (bt_items t) ∧ bt_items (bt_deleteMin t).2 = tail (bt_items t);
  bt_min_items t : seg_sorted (bt_items t) → bt_min t = head (bt_items t);
  bt_max_items t : seg_sorted (bt_items t) → bt_max t = last (bt_items t);
  bt_items_clear t : bt_items (bt_clear t) = [];
  bt_items_ascend {S : Type} (f : S → segment → S * segment * bool) st t :
    seg_sorted (bt_items t) → (∀ st x, Seq (f st x).1.2 = Seq x) →
    (bt_ascend f st t).1 = (listAscend f st (bt_items t)).1 ∧
    bt_items (bt_ascend f st t).2 = (listAscend f st (bt_items t)).2
}.

(** The interface can be met: sorted lists. *)
#[global] Instance listTree : BTree (list segment) := {|
  bt_new := [];
  bt_items l := l;
  bt_len l := len l;
  bt_replaceOrInsert := listInsert;
  bt_deleteMin l := (head l, tail l);
  bt_min := head;
  bt_max := last;
  bt_clear _ := [];
  bt_ascend _ f st l := listAscend f st l
|}.

#[global] Instance listTreeLaws : BTreeLaws (list segment).
Proof. split; intros; simpl; auto. Qed.

(** ** The segment tree *)

Record segmentTree (T : Type) := mkTree {
  tr : T;
  cap : Z;
  chanEmptyEvent : bool;       (** the slot of the channel is full *)
  chanNotEmptyEvent : bool
}.
Arguments mkTree {T} _ _ _ _.
Arguments tr {T} _.
Arguments cap {T} _.
Arguments chanEmptyEvent {T} _.
Arguments chanNotEmptyEvent {T} _.

Section Tree.
Context {T : Type} `{BTree T}.

Definition newSegmentTree (capacity : Z) : outcome (segmentTree T) :=
  if capacity <=? 0 then Panic "segment tree capacity is <= 0"
  else Ret (mkTree bt_new capacity false false).

Definition set_tr (t : segmentTree T) (x : T) : segmentTree T :=
  mkTree x (cap t) (chanEmptyEvent t) (chanNotEmptyEvent t).

(** A send on a full one-slot channel takes the [default] case. *)
Definition notifyEmpty (t : segmentTree T) : segmentTree T :=
  mkTree (tr t) (cap t) true (chanNotEmptyEvent t).
Definition notifyNotEmpty (t : segmentTree T) : segmentTree T :=
  mkTree (tr t) (cap t) (chanEmptyEvent t) true.

(** A receive of the events, for a consumer that finds the slot full: in the
    [select]s of the session. *)
Definition takeNotEmptyEvent (t : segmentTree T) : segmentTree T :=
  mkTree (tr t) (cap t) (chanEmptyEvent t) false.
Definition takeEmptyEvent (t : segmentTree T) : segmentTree T :=
  mkTree (tr t) (cap t) false (chanNotEmptyEvent t).

Definition checkProtocolType (seg : segment) : bool :=
  let p := Protocol (smeta seg) in
  (p =? openSessionRequest) || (p =? openSessionResponse) ||
  (p =? closeSessionRequest) || (p =? closeSessionResponse) ||
  (p =? dataClientToServer) || (p =? dataServerToClient).

Definition Insert (seg : segment) (t : segmentTree T) : outcome (bool * segmentTree T) :=
  if negb (checkProtocolType seg)
  then Panic "Inserting segment with unsupported type %v to the segment tree"
  else if cap t <=? bt_len (tr t) then Ret (false, notifyNotEmpty t)
  else
    let '(prev, x) := bt_replaceOrInsert seg (tr t) in
    match prev with
    | Some _ => Ret (true, set_tr t x)
    | None => Ret (true, notifyNotEmpty (set_tr t x))
    end.

(** The notification that follows a removal. *)
Definition notifyAfter (t : segmentTree T) : segmentTree T :=
  if 0 <? bt_len (tr t) then notifyNotEmpty t else notifyEmpty t.

Definition DeleteMin (t : segmentTree T) : outcome (option segment * segmentTree T) :=
  if bt_len (tr t) =? 0 then Ret (None, t)
  else
    match bt_deleteMin (tr t) with
    | (None, _) => Panic "segmentTree.DeleteMin() is called when the tree is empty"
    | (Some seg, x) => Ret (Some seg, notifyAfter (set_tr t x))
    end.

(** The Boolean result says whether the segment was removed. *)
Definition DeleteMinIf (si : segment → bool) (t : segmentTree T)
  : outcome (option segment * bool * segmentTree T) :=
  if bt_len (tr t) =? 0 then Ret (None, false, t)
  else
    match bt_min (tr t) with
    | None => Panic "segmentTree.Min() is called when the tree is empty"
    | Some seg =>
        if si seg then
          match bt_deleteMin (tr t) with
          | (None, _) => Panic "segmentTree.DeleteMin() is called when the tree is empty"
          | (Some seg, x) => Ret (Some seg, true, notifyAfter (set_tr t x))
          end
        else Ret (Some seg, false, notifyAfter t)
    end.

Definition DeleteAll (t : segmentTree T) : segmentTree T :=
  notifyEmpty (set_tr t (bt_clear (tr t))).

Definition Ascend {S} (si : S → segment → S * segment * bool) (st : S) (t : segmentTree T)
  : S * segmentTree T :=
  if bt_len (tr t) =? 0 then (st, t)
  else let '(st, x) := bt_ascend si st (tr t) in (st, set_tr t x).

Definition MinSeq (t : segmentTree T) : outcome Z :=
  match bt_min (tr t) with Some seg => Ret (Seq seg) | None => Err ErrEmpty end.
Definition MaxSeq (t : segmentTree T) : outcome Z :=
  match bt_max (tr t) with Some seg => Ret (Seq seg) | None => Err ErrEmpty end.
Definition Len (t : segmentTree T) : Z := bt_len (tr t).
Definition Remaining (t : segmentTree T) : Z := cap t - bt_len (tr t).
End Tree.

(** ** Lemmas on ordered items *)

Lemma listInsert_elem s l x :
  x ∈ (listInsert s l).2 → x = s ∨ x ∈ l.
Proof.
  induction l as [|y l IH]; simpl.
  - set_solver.
  - destruct (Less s y); [set_solver|]. destruct (Less y s); [|set_solver].
    destruct (listInsert s l) as [p l']. set_solver.
Qed.

Lemma listInsert_sorted s l : seg_sorted l → seg_sorted (listInsert s l).2.
Proof.
  unfold seg_sorted. induction 1 as [|y l Hl IH Hy]; simpl; [repeat constructor|].
  unfold Less in *. destruct (Seq s <? Seq y) eqn:E1.
  - bool_to_Z. constructor; [by constructor|]. constructor; [done|].
    eapply Forall_impl; [exact Hy|]. unfold seg_lt. lia.
  - destruct (Seq y <? Seq s) eqn:E2; bool_to_Z.
    + pose proof (listInsert_elem s l) as Hin. destruct (listInsert s l) as [p l']. simpl in *.
      constructor; [done|]. apply Forall_forall. intros x [-> | Hx]%Hin; [done|].
      rewrite Forall_forall in Hy. by apply Hy.
    + simpl. constructor; [done|]. eapply Forall_impl; [exact Hy|]. unfold seg_lt. lia.
Qed.

Lemma listInsert_length s l :
  length (listInsert s l).2 =
    (match (listInsert s l).1 with None => S (length l) | Some _ => length l end).
Proof.
  induction l as [|y l IH]; simpl; [done|]. destruct (Less s y); [done|]. destruct (Less y s); [|done].
  destruct (listInsert s l) as [[p|] l']; simpl in *; lia.
Qed.

Lemma listAscend_seqs {S} (f : S → segment → S * segment * bool) st l :
  (∀ st x, Seq (f st x).1.2 = Seq x) → map Seq (listAscend f st l).2 = map Seq l.
Proof.
  intros Hf. revert st. induction l as [|x l IH]; intros st; simpl; [done|].
  pose proof (Hf st x) as Hx. destruct (f st x) as [[st' x'] go]. simpl in Hx.
  destruct go; simpl; [|by rewrite Hx].
  specialize (IH st'). destruct (listAscend f st' l). simpl in *. by rewrite Hx, IH.
Qed.

Lemma seg_sorted_seqs l : seg_sorted l ↔ StronglySorted Z.lt (map Seq l).
Proof.
  unfold seg_sorted. induction l as [|x l IH]; simpl; [split; intros; constructor|].
  split; intros [H1 H2]%StronglySorted_inv; constructor; try (by apply IH).
  - by apply Forall_fmap.
  - by apply (proj1 (Forall_fmap Seq _ _)) in H2.
Qed.

Lemma seg_sorted_tail x l : seg_sorted (x :: l) → seg_sorted l ∧ Forall (seg_lt x) l.
Proof. apply StronglySorted_inv. Qed.

(** ** Invariant and functional behaviour of the tree operations *)

Section TreeSpec.
Context {T : Type} `{BTreeLaws T}.

Definition items (t : segmentTree T) : list segment := bt_items (tr t).

Definition tree_ok (t : segmentTree T) : Prop :=
  seg_sorted (items t) ∧ 0 < cap t ∧ len (items t) ≤ cap t.

(** No wakeup is lost: a tree with segments has its event pending until a
    consumer takes it. *)
Definition wake_ok (t : segmentTree T) : Prop :=
  items t ≠ [] → chanNotEmptyEvent t = true.

Lemma Len_items t : Len t = len (items t).
Proof. apply bt_len_items. Qed.
Lemma Remaining_items t : Remaining t = cap t - len (items t).
Proof. unfold Remaining. by rewrite bt_len_items. Qed.

Lemma new_tree_ok c t : newSegmentTree c = Ret t → tree_ok t ∧ items t = [] ∧ cap t = c.
Proof.
  unfold newSegmentTree. case_if; [done|]. intros [= <-]. bool_to_Z.
  unfold tree_ok, items. simpl. rewrite bt_items_new. split_and!; try done; try constructor.
  rewrite len_nil. lia.
Qed.

Lemma Insert_full seg t :
  checkProtocolType seg = true → cap t ≤ len (items t) →
  Insert seg t = Ret (false, notifyNotEmpty t).
Proof.
  intros Hp Hc. unfold Insert. rewrite Hp. simpl. rewrite bt_len_items.
  by rewrite (proj2 (Z.leb_le _ _)).
Qed.

Lemma Insert_ok seg t :
  tree_ok t → checkProtocolType seg = true → len (items t) < cap t →
  ∃ t', Insert seg t = Ret (true, t') ∧ tree_ok t' ∧ cap t' = cap t ∧
    items t' = (listInsert seg (items t)).2 ∧ (wake_ok t → wake_ok t') ∧
    ((listInsert seg (items t)).1 = None → chanNotEmptyEvent t' = true) ∧
    chanEmptyEvent t' = chanEmptyEvent t.
Proof.
  intros (Hs & Hc & Hl) Hp Hroom. unfold Insert. rewrite Hp. simpl. rewrite bt_len_items.
  rewrite (proj2 (Z.leb_gt _ _)) by done.
  destruct (bt_items_insert seg (tr t) Hs) as [H1 H2].
  pose proof (listInsert_sorted seg (items t) Hs) as Hs'.
  pose proof (listInsert_length seg (items t)) as Hlen. fold (items t) in *.
  destruct (bt_replaceOrInsert seg (tr t)) as [prev x]. simpl in *.
  assert (∀ u : segmentTree T, bt_items (tr u) = bt_items x → cap u = cap t → tree_ok u) as Hu.
  { intros u Hi Hcu. unfold tree_ok, items. rewrite Hi, Hcu, H2. split_and!; try done.
    unfold len in *. rewrite Hlen. destruct (listInsert seg (items t)).1; lia. }
  destruct prev as [p|]; eexists; (split; [done|]); split_and!; try (by apply Hu); try done; simpl; try congruence.
  intros Hw _. apply Hw. unfold items in *. intros E. rewrite E in H1. done.
Qed.

Lemma notifyAfter_items t : items (notifyAfter t) = items t ∧ cap (notifyAfter t) = cap t ∧
  wake_ok (notifyAfter t) ∧ (items t = [] → chanEmptyEvent (notifyAfter t) = true).
Proof.
  unfold notifyAfter, wake_ok. rewrite bt_len_items. fold (items t).
  case_if; bool_to_Z; unfold items in *; simpl; split_and!; try done.
  - intros E. fold (items t) in *. rewrite E in Heqb. by vm_compute in Heqb.
  - intros E. destruct E. apply len_0. pose proof (len_nonneg (bt_items (tr t))). lia.
Qed.

Lemma tree_ok_tail t u :
  tree_ok t → items u = tail (items t) → cap u = cap t → tree_ok u.
Proof.
  intros (Hs & Hc & Hl) Hi Hcu. unfold tree_ok. rewrite Hi, Hcu.
  destruct (items t) as [|x l]; simpl in *; [done|].
  apply seg_sorted_tail in Hs as [Hs _]. rewrite len_cons in Hl. split_and!; [done..|lia].
Qed.

Lemma DeleteMin_ok t :
  tree_ok t →
  ∃ t', DeleteMin t = Ret (head (items t), t') ∧ tree_ok t' ∧ cap t' = cap t ∧
    items t' = tail (items t) ∧ (wake_ok t → wake_ok t') ∧
    (items t ≠ [] → wake_ok t' ∧ (items t' = [] → chanEmptyEvent t' = true)) ∧
    (items t = [] → t' = t).
Proof.
  intros Hok. unfold DeleteMin. rewrite bt_len_items. fold (items t).
  case_if; bool_to_Z.
  - apply len_0 in Heqb. rewrite Heqb. exists t. by rewrite Heqb.
  - destruct (bt_items_deleteMin (tr t) (proj1 Hok)) as [H1 H2]. fold (items t) in *.
    destruct (bt_deleteMin (tr t)) as [o x]. simpl in *. subst o.
    destruct (items t) as [|s l] eqn:E; [done|]. simpl in *.
    destruct (notifyAfter_items (set_tr t x)) as (N1 & N2 & N3 & N4).
    eexists. split; [done|]. split_and!; try done.
    + eapply tree_ok_tail; [exact Hok| |done]. rewrite N1, E. done.
    + rewrite N1. done.
    + intros _. split; [done|]. rewrite N1 in *. done.
Qed.

Lemma DeleteMinIf_ok si t :
  tree_ok t →
  ∃ t', DeleteMinIf si t =
      Ret (head (items t), match items t with x :: _ => si x | [] => false end, t') ∧
    tree_ok t' ∧ cap t' = cap t ∧ (wake_ok t → wake_ok t') ∧
    items t' = match items t with x :: l => if si x then l else x :: l | [] => [] end ∧
    (items t = [] → t' = t) ∧
    (items t ≠ [] → wake_ok t' ∧ (items t' = [] → chanEmptyEvent t' = true)).
Proof.
  intros Hok. unfold DeleteMinIf. rewrite bt_len_items. fold (items t).
  case_if; bool_to_Z.
  - apply len_0 in Heqb. rewrite Heqb. exists t. by rewrite Heqb.
  - rewrite (bt_min_items _ (proj1 Hok)). fold (items t).
    destruct (items t) as [|s l] eqn:E; [done|]. simpl. destruct (si s).
    + destruct (bt_items_deleteMin (tr t) (proj1 Hok)) as [H1 H2]. fold (items t) in *.
      rewrite E in *. destruct (bt_deleteMin (tr t)) as [o x]. simpl in *. subst o.
      destruct (notifyAfter_items (set_tr t x)) as (N1 & N2 & N3 & N4).
      eexists. split; [done|]. split_and!; try done.
      * eapply tree_ok_tail; [exact Hok| |done]. rewrite N1, E. done.
      * rewrite N1. done.
      * intros _. split; [done|]. rewrite N1 in *. done.
    + destruct (notifyAfter_items t) as (N1 & N2 & N3 & N4).
      eexists. split; [done|]. split_and!; try done; try congruence.
      * unfold tree_ok in *. rewrite N1, N2. done.
      * intros _. split; [done|]. by rewrite N1, E.
Qed.

Lemma DeleteAll_ok t :
  tree_ok t → tree_ok (DeleteAll t) ∧ cap (DeleteAll t) = cap t ∧ items (DeleteAll t) = [] ∧
    wake_ok (DeleteAll t).
Proof.
  intros (Hs & Hc & Hl).
  assert (items (DeleteAll t) = []) as E by apply bt_items_clear.
  unfold tree_ok, wake_ok. rewrite E. split_and!; try done; try constructor.
  rewrite len_nil. simpl. lia.
Qed.

Lemma Ascend_ok {S} (si : S → segment → S * segment * bool) st t :
  tree_ok t → (∀ st x, Seq (si st x).1.2 = Seq x) →
  (Ascend si st t).1 = (listAscend si st (items t)).1 ∧
  items (Ascend si st t).2 = (listAscend si st (items t)).2 ∧
  tree_ok (Ascend si st t).2 ∧ cap (Ascend si st t).2 = cap t ∧
  chanNotEmptyEvent (Ascend si st t).2 = chanNotEmptyEvent t.
Proof.
  intros (Hs & Hc & Hl) Hf. unfold Ascend. rewrite bt_len_items. fold (items t).
  case_if; bool_to_Z.
  - apply len_0 in Heqb. simpl. split_and!; try done; by rewrite Heqb.
  - destruct (bt_items_ascend si st (tr t) Hs Hf) as [H1 H2]. fold (items t) in *.
    destruct (bt_ascend si st (tr t)) as [st' x]. simpl in *.
    pose proof (listAscend_seqs si st (items t) Hf) as Hq.
    unfold tree_ok, items. simpl. rewrite H1, H2. split_and!; try done.
    + apply seg_sorted_seqs. rewrite Hq. by apply seg_sorted_seqs.
    + unfold len in *. apply (f_equal length) in Hq. rewrite !length_map in Hq. rewrite Hq. done.
Qed.

Lemma MinSeq_ok t : tree_ok t →
  MinSeq t = match items t with x :: _ => Ret (Seq x) | [] => Err ErrEmpty end.
Proof.
  intros (Hs & _). unfold MinSeq. rewrite bt_min_items by done. fold (items t).
  by destruct (items t).
Qed.
End TreeSpec.

(** ** Refinement: a segment tree is a bounded map ordered by sequence number *)

Definition keyed (l : list segment) : gmap Z segment :=
  list_to_map (map (λ s, (Seq s, s)) l).

Lemma keyed_insert s l : keyed (listInsert s l).2 = <[Seq s := s]> (keyed l).
Proof.
  unfold keyed. induction l as [|x l IH]; simpl; [done|]. unfold Less.
  destruct (Seq s <? Seq x) eqn:E1; [done|]. destruct (Seq x <? Seq s) eqn:E2; bool_to_Z.
  - destruct (listInsert s l) as [p l']. simpl in *. rewrite IH. apply insert_insert_ne. lia.
  - simpl. assert (Seq s = Seq x) as -> by lia. by rewrite insert_insert_eq.
Qed.

Lemma keyed_lookup l k s : seg_sorted l → keyed l !! k = Some s ↔ s ∈ l ∧ Seq s = k.
Proof.
  unfold keyed. induction l as [|x l IH]; intros Hs; simpl.
  - rewrite lookup_empty. set_solver.
  - apply seg_sorted_tail in Hs as [Hs Hx]. rewrite Forall_forall in Hx. unfold seg_lt in Hx.
    rewrite lookup_insert_Some, IH, elem_of_cons by done. split; [naive_solver|].
    intros [[-> | Hin] <-]; [by left|]. right. specialize (Hx _ Hin). split; [lia|done].
Qed.

Lemma keyed_tail x l : seg_sorted (x :: l) → keyed l = delete (Seq x) (keyed (x :: l)).
Proof.
  intros Hs. apply map_eq. intros k. apply option_eq. intros s.
  rewrite lookup_delete_Some, !keyed_lookup by (done || by apply seg_sorted_tail in Hs as [? _]).
  apply seg_sorted_tail in Hs as [Hs Hx]. rewrite Forall_forall in Hx. unfold seg_lt in Hx.
  rewrite elem_of_cons. split.
  - intros [Hin <-]. specialize (Hx _ Hin). split; [lia|auto].
  - intros (Hne & [-> | Hin] & Hk); [done|auto].
Qed.

Lemma keyed_size l : seg_sorted l → Z.of_nat (size (keyed l)) = len l.
Proof.
  induction l as [|x l IH]; intros Hs; [done|]. rewrite len_cons.
  pose proof (proj1 (seg_sorted_tail _ _ Hs)) as Hl. rewrite <- (IH Hl).
  unfold keyed. simpl. rewrite map_size_insert_None; [lia|]. fold (keyed l).
  rewrite (keyed_tail _ _ Hs). apply lookup_delete_eq.
Qed.

Inductive treeCall :=
| CallInsert (seg : segment)
| CallDeleteMin
| CallDeleteMinIf (si : segment → bool)
| CallDeleteAll
| TakeNotEmpty      (** a consumer polls the not-empty event *)
| TakeEmpty.        (** a producer polls the empty event *)

Inductive treeReply :=
| ReplyBool (b : bool)
| ReplySegment (s : option segment) (deleted : bool)
| ReplyUnit.

(** The specification: one call on a map of at most [c] segments with two
    signals, each pending or not. *)
Record signalMap := mkSignals { held : gmap Z segment; empty : bool; notEmpty : bool }.

Definition minimal (m : gmap Z segment) (s : segment) : Prop :=
  m !! Seq s = Some s ∧ ∀ k, is_Some (m !! k) → Seq s ≤ k.

(** After a removal was tried, what is left is announced. *)
Definition announce (m : gmap Z segment) (e ne : bool) : signalMap :=
  if bool_decide (m = ∅) then mkSignals m true ne else mkSignals m e true.

Inductive mapStep (c : Z) : signalMap → treeCall → treeReply → signalMap → Prop :=
| ms_insert m e ne s : Z.of_nat (size m) < c → m !! Seq s = None →
    mapStep c (mkSignals m e ne) (CallInsert s) (ReplyBool true) (mkSignals (<[Seq s := s]> m) e true)
| ms_replace m e ne s : Z.of_nat (size m) < c → is_Some (m !! Seq s) →
    mapStep c (mkSignals m e ne) (CallInsert s) (ReplyBool true) (mkSignals (<[Seq s := s]> m) e ne)
| ms_insert_full m e ne s : c ≤ Z.of_nat (size m) →
    mapStep c (mkSignals m e ne) (CallInsert s) (ReplyBool false) (mkSignals m e true)
| ms_deleteMin_empty e ne :
    mapStep c (mkSignals ∅ e ne) CallDeleteMin (ReplySegment None false) (mkSignals ∅ e ne)
| ms_deleteMin m e ne s : minimal m s →
    mapStep c (mkSignals m e ne) CallDeleteMin (ReplySegment (Some s) true) (announce (delete (Seq s) m) e ne)
| ms_deleteMinIf_empty e ne si :
    mapStep c (mkSignals ∅ e ne) (CallDeleteMinIf si) (ReplySegment None false) (mkSignals ∅ e ne)
| ms_deleteMinIf m e ne s si : minimal m s → si s = true →
    mapStep c (mkSignals m e ne) (CallDeleteMinIf si) (ReplySegment (Some s) true) (announce (delete (Seq s) m) e ne)
| ms_deleteMinIf_keep m e ne s si : minimal m s → si s = false →
    mapStep c (mkSignals m e ne) (CallDeleteMinIf si) (ReplySegment (Some s) false) (mkSignals m e true)
| ms_deleteAll m e ne : mapStep c (mkSignals m e ne) CallDeleteAll ReplyUnit (mkSignals ∅ true ne)
| ms_takeNotEmpty m e ne : mapStep c (mkSignals m e ne) TakeNotEmpty (ReplyBool ne) (mkSignals m e false)
| ms_takeEmpty m e ne : mapStep c (mkSignals m e ne) TakeEmpty (ReplyBool e) (mkSignals m false ne).

Inductive mapRun (c : Z) : signalMap → list treeCall → list treeReply → signalMap → Prop :=
| mr_nil m : mapRun c m [] [] m
| mr_cons m call r m' calls rs m'' : mapStep c m call r m' → mapRun c m' calls rs m'' →
    mapRun c m (call :: calls) (r :: rs) m''.

(** Whether a consumer has taken the not-empty event and has not looked at the
    tree since. *)
Definition attends (taken : bool) (call : treeCall) : bool :=
  match call with
  | TakeNotEmpty => true
  | CallDeleteMin | CallDeleteMinIf _ | CallDeleteAll => false
  | CallInsert _ | TakeEmpty => taken
  end.

Section Refinement.
Context {T : Type} `{BTreeLaws T}.

Definition runTreeCall (call : treeCall) (t : segmentTree T) : outcome (treeReply * segmentTree T) :=
  match call with
  | CallInsert seg => let! (b, t) := Insert seg t in Ret (ReplyBool b, t)
  | CallDeleteMin =>
      let! (s, t) := DeleteMin t in
      Ret (ReplySegment s (match s with Some _ => true | None => false end), t)
  | CallDeleteMinIf si => let! (s, b, t) := DeleteMinIf si t in Ret (ReplySegment s b, t)
  | CallDeleteAll => Ret (ReplyUnit, DeleteAll t)
  | TakeNotEmpty => Ret (ReplyBool (chanNotEmptyEvent t), takeNotEmptyEvent t)
  | TakeEmpty => Ret (ReplyBool (chanEmptyEvent t), takeEmptyEvent t)
  end.

Fixpoint runTree (calls : list treeCall) (t : segmentTree T)
  : outcome (list treeReply * segmentTree T) :=
  match calls with
  | [] => Ret ([], t)
  | call :: calls =>
      let! (r, t) := runTreeCall call t in
      let! (rs, t) := runTree calls t in Ret (r :: rs, t)
  end.

(** The segments that [Insert] takes: every protocol of the tree's switch. *)
Definition call_ok (call : treeCall) : Prop :=
  match call with CallInsert seg => checkProtocolType seg = true | _ => True end.

(** The specification state that a tree stands for. *)
Definition signalsOf (t : segmentTree T) : signalMap :=
  mkSignals (keyed (items t)) (chanEmptyEvent t) (chanNotEmptyEvent t).

Lemma keyed_minimal x l : seg_sorted (x :: l) → minimal (keyed (x :: l)) x.
Proof.
  intros Hs. split; [apply keyed_lookup; [done|set_solver]|].
  intros k [s Hk]. apply keyed_lookup in Hk as [Hin <-]; [|done].
  apply seg_sorted_tail in Hs as [_ Hx]. rewrite Forall_forall in Hx. unfold seg_lt in Hx.
  apply elem_of_cons in Hin as [-> | Hin]; [lia|]. specialize (Hx _ Hin). lia.
Qed.

Lemma keyed_nil l : keyed l = ∅ ↔ l = [].
Proof. destruct l as [|x l]; [done|]. split; [|done]. unfold keyed. simpl. intros E. by apply insert_non_empty in E. Qed.

Lemma listInsert_new s l : seg_sorted l → (listInsert s l).1 = None ↔ keyed l !! Seq s = None.
Proof.
  induction l as [|x l IH]; intros Hs; simpl; [done|]. unfold Less.
  pose proof (seg_sorted_tail _ _ Hs) as [Hs' Hx]. rewrite Forall_forall in Hx. unfold seg_lt in Hx.
  unfold keyed in *. simpl. destruct (Seq s <? Seq x) eqn:E1; bool_to_Z.
  - split; [intros _|done]. apply lookup_insert_None. split; [|lia]. apply eq_None_not_Some. intros [y Hy].
    apply keyed_lookup in Hy as [Hy ?]; [|done]. specialize (Hx y Hy). lia.
  - destruct (Seq x <? Seq s) eqn:E2; bool_to_Z.
    + destruct (listInsert s l) as [p l']. simpl in *. rewrite lookup_insert_ne by lia. by apply IH.
    + simpl. split; [done|]. replace (Seq s) with (Seq x) by lia. by rewrite lookup_insert_eq.
Qed.

(** Inserting announces a new number or a full tree, and only these. *)
Lemma Insert_signals seg t : tree_ok t → checkProtocolType seg = true →
  ∃ r t', Insert seg t = Ret (r, t') ∧ mapStep (cap t) (signalsOf t) (CallInsert seg) (ReplyBool r) (signalsOf t').
Proof.
  intros Hok Hp. pose proof (keyed_size _ (proj1 Hok)) as Hsize. pose proof (listInsert_new seg _ (proj1 Hok)) as Hnew.
  pose proof (keyed_insert seg (items t)) as Hk. unfold Insert. rewrite Hp, bt_len_items. cbn [negb]. fold (items t).
  case_if; bool_to_Z; [eexists _, _; split; [done|]; constructor; lia|].
  destruct (bt_items_insert seg (tr t) (proj1 Hok)) as [H1 H2]. fold (items t) in *.
  destruct (bt_replaceOrInsert seg (tr t)) as [prev x]. cbn [fst snd] in *. rewrite <- H1 in Hnew.
  destruct prev as [y|]; eexists _, _; (split; [done|]); unfold signalsOf, notifyNotEmpty, set_tr, items at 2;
    cbn [tr chanEmptyEvent chanNotEmptyEvent]; rewrite H2, Hk.
  - apply ms_replace; [lia|]. apply not_eq_None_Some. intros E. by apply Hnew in E.
  - apply ms_insert; [lia|]. by apply Hnew.
Qed.

Lemma notifyAfter_signals (t : segmentTree T) :
  signalsOf (notifyAfter t) = announce (keyed (items t)) (chanEmptyEvent t) (chanNotEmptyEvent t).
Proof.
  unfold notifyAfter, announce. rewrite bt_len_items. fold (items t). case_if; bool_to_Z; case_bool_decide as E; try done.
  - apply keyed_nil in E. rewrite E in Heqb. by vm_compute in Heqb.
  - destruct E. apply keyed_nil, len_0. pose proof (len_nonneg (items t)). lia.
Qed.

Lemma DeleteMin_signals t : tree_ok t →
  ∃ r t', DeleteMin t = Ret (r, t') ∧
    mapStep (cap t) (signalsOf t) CallDeleteMin (ReplySegment r (match r with Some _ => true | None => false end)) (signalsOf t').
Proof.
  intros Hok. unfold DeleteMin. rewrite bt_len_items. fold (items t). case_if; bool_to_Z.
  - apply len_0 in Heqb. eexists _, _. split; [done|]. unfold signalsOf. rewrite Heqb. constructor.
  - destruct (bt_items_deleteMin (tr t) (proj1 Hok)) as [H1 H2]. fold (items t) in *.
    destruct (bt_deleteMin (tr t)) as [o x]. cbn [fst snd] in *. subst o.
    destruct (items t) as [|s l] eqn:E; [done|]. cbn [head tail] in *. eexists _, _. split; [done|].
    rewrite notifyAfter_signals. unfold items at 1. cbn [set_tr tr chanEmptyEvent chanNotEmptyEvent]. rewrite H2. unfold signalsOf. rewrite E.
    pose proof (proj1 Hok) as Hs. rewrite E in Hs. rewrite (keyed_tail s l) by done. constructor. by apply keyed_minimal.
Qed.

Lemma DeleteMinIf_signals si t : tree_ok t →
  ∃ r b t', DeleteMinIf si t = Ret (r, b, t') ∧
    mapStep (cap t) (signalsOf t) (CallDeleteMinIf si) (ReplySegment r b) (signalsOf t').
Proof.
  intros Hok. unfold DeleteMinIf. rewrite bt_len_items. fold (items t). case_if; bool_to_Z.
  - apply len_0 in Heqb. eexists _, _, _. split; [done|]. unfold signalsOf. rewrite Heqb. constructor.
  - rewrite (bt_min_items _ (proj1 Hok)). fold (items t).
    destruct (bt_items_deleteMin (tr t) (proj1 Hok)) as [H1 H2]. fold (items t) in *. pose proof (proj1 Hok) as Hs.
    destruct (items t) as [|s l] eqn:E; [done|]. cbn [head tail] in *. destruct (si s) eqn:Es.
    + destruct (bt_deleteMin (tr t)) as [o x]. cbn [fst snd] in *. subst o. eexists _, _, _. split; [done|].
      rewrite notifyAfter_signals. unfold items at 1. cbn [set_tr tr chanEmptyEvent chanNotEmptyEvent]. rewrite H2. unfold signalsOf. rewrite E.
      rewrite (keyed_tail s l) by done. constructor; [by apply keyed_minimal|done].
    + eexists _, _, _. split; [done|]. rewrite notifyAfter_signals. unfold signalsOf. rewrite E. unfold announce.
      rewrite bool_decide_eq_false_2 by (intros Hn; by apply keyed_nil in Hn). constructor; [by apply keyed_minimal|done].
Qed.

Lemma runTreeCall_ok call t :
  tree_ok t → call_ok call → ∃ r t', runTreeCall call t = Ret (r, t') ∧ tree_ok t' ∧ cap t' = cap t ∧
    (∀ taken, (taken = false → wake_ok t) → attends taken call = false → wake_ok t').
Proof.
  intros Hok Hcall. destruct call as [seg| |si| | |]; cbn [runTreeCall attends] in *.
  - destruct (Z.lt_ge_cases (len (items t)) (cap t)) as [Hroom|Hfull].
    + destruct (Insert_ok seg t Hok Hcall Hroom) as (t' & -> & H1 & H2 & _ & H4 & _). eexists _, t'. split_and!; auto.
    + rewrite Insert_full by done. eexists _, _. split; [done|]. by split_and!.
  - destruct (DeleteMin_ok t Hok) as (t' & -> & H1 & H2 & H3 & _ & H5 & _). eexists _, t'. split_and!; [done..|].
    intros taken _ _. destruct (items t) eqn:E; [|by apply H5]. intros Hne. by rewrite H3 in Hne.
  - destruct (DeleteMinIf_ok si t Hok) as (t' & -> & H1 & H2 & _ & H3 & _ & H5). eexists _, t'. split_and!; [done..|].
    intros taken _ _. destruct (items t) eqn:E; [|by apply H5]. intros Hne. by rewrite H3 in Hne.
  - destruct (DeleteAll_ok t Hok) as (H1 & H2 & H3 & H4). eexists _, _. by split_and!.
  - eexists _, _. by split_and!.
  - eexists _, _. split; [done|]. split_and!; [done..|]. intros taken Hw Ht. exact (Hw Ht).
Qed.

Lemma runTreeCall_refines call t r t' :
  tree_ok t → call_ok call → runTreeCall call t = Ret (r, t') → mapStep (cap t) (signalsOf t) call r (signalsOf t').
Proof.
  intros Hok Hcall Hr. destruct call as [seg| |si| | |]; cbn [runTreeCall] in Hr.
  - destruct (Insert_signals seg t Hok Hcall) as (r' & t1 & E & Hm). rewrite E in Hr. by injection Hr as <- <-.
  - destruct (DeleteMin_signals t Hok) as (r' & t1 & E & Hm). rewrite E in Hr. by injection Hr as <- <-.
  - destruct (DeleteMinIf_signals si t Hok) as (r' & b & t1 & E & Hm). rewrite E in Hr. by injection Hr as <- <-.
  - injection Hr as <- <-. unfold signalsOf. rewrite (proj2 (keyed_nil (items (DeleteAll t)))) by apply bt_items_clear. constructor.
  - injection Hr as <- <-. constructor.
  - injection Hr as <- <-. constructor.
Qed.

Lemma runTree_refines calls taken t :
  tree_ok t → (taken = false → wake_ok t) → Forall call_ok calls →
  ∃ rs t', runTree calls t = Ret (rs, t') ∧ mapRun (cap t) (signalsOf t) calls rs (signalsOf t') ∧
    seg_sorted (items t') ∧ len (items t') ≤ cap t ∧ (foldl attends taken calls = false → wake_ok t').
Proof.
  intros Hok Hw Hcalls. revert taken t Hok Hw.
  induction Hcalls as [|call calls Hcall _ IH]; intros taken t Hok Hw; cbn [runTree foldl].
  - exists [], t. split_and!; try done; [constructor|apply Hok|apply Hok].
  - destruct (runTreeCall_ok call t Hok Hcall) as (r & t1 & E & H1 & H2 & H3).
    pose proof (runTreeCall_refines call t r t1 Hok Hcall E) as H4. rewrite E. cbn [obind].
    destruct (IH (attends taken call) t1 H1 (H3 taken Hw)) as (rs & t2 & -> & H5 & H6 & H7 & H8). cbn [obind].
    rewrite H2 in *. exists (r :: rs), t2. split_and!; try done. by econstructor.
Qed.

(** C9: the segment tree implements a bounded map from sequence numbers to
    segments, with two signals.  Any sequence of calls on a new tree, between
    which consumers and producers may take the signals, returns (no call panics),
    and its replies and its signals are those of the specification: an insert
    replaces the segment of the same number or is refused at capacity, a removal
    takes the smallest number, a new number, a refusal and a removal that leaves
    segments raise the not-empty signal, the end of the last segment raises the
    empty signal.  The capacity is never exceeded, and no wakeup is lost: unless a
    consumer has taken the not-empty signal and has not removed since, it is
    pending whenever the tree holds segments. *)
Theorem segment_tree_refines_map capacity calls :
  0 < capacity → Forall call_ok calls →
  ∃ t rs t', newSegmentTree capacity = Ret t ∧ runTree calls t = Ret (rs, t') ∧
    mapRun capacity (mkSignals ∅ false false) calls rs (signalsOf t') ∧
    seg_sorted (items t') ∧ len (items t') ≤ capacity ∧
    (foldl attends false calls = false → items t' ≠ [] → chanNotEmptyEvent t' = true).
Proof.
  intros Hc Hcalls. destruct (newSegmentTree capacity) as [t|e|msg] eqn:E;
    try (unfold newSegmentTree in E; case_if_in E; bool_to_Z; done || lia).
  exists t. destruct (new_tree_ok _ _ E) as (Hok & Hi & Hcap).
  assert (Hs : mkSignals ∅ false false = signalsOf t).
  { unfold signalsOf. rewrite Hi. unfold newSegmentTree in E. case_if_in E; [done|]. by injection E as <-. }
  destruct (runTree_refines calls false t Hok) as (rs & t' & Hr & Hm & H1 & H2 & H3);
    [intros _ Hne; by rewrite Hi in Hne|done|].
  rewrite Hs, <- Hcap. exists rs, t'. by split_and!.
Qed.
End Refinement.

(** A data segment, for the witnesses. *)
Definition dataSeg (seq : Z) (p : bytes) : segment :=
  mkSegment (MDataAck (mkDataAck (mkBase dataClientToServer 0) 1 seq 0 16 0 0 (len p) 0))
    p PacketTransport 0 0 0 0 None.

Definition demoCalls : list treeCall :=
  [CallInsert (dataSeg 7 [1]); CallInsert (dataSeg 5 []); TakeNotEmpty; CallInsert (dataSeg 6 []);
   CallDeleteMin; CallDeleteMinIf (λ s, Seq s <? 3)].

Lemma segment_tree_refines_map_witness :
  ∃ t rs t', newSegmentTree (T := list segment) 2 = Ret t ∧ runTree demoCalls t = Ret (rs, t') ∧
    mapRun 2 (mkSignals ∅ false false) demoCalls rs (signalsOf t') ∧ chanNotEmptyEvent t' = true.
Proof.
  destruct (segment_tree_refines_map (T := list segment) 2 demoCalls) as (t & rs & t' & H1 & H2 & H3 & _ & _ & H4).
  - lia.
  - repeat constructor.
  - exists t, rs, t'. split; [exact H1|]. split; [exact H2|]. split; [exact H3|]. apply H4; [reflexivity|].
    injection H1 as <-. vm_compute in H2. injection H2 as _ <-. discriminate.
Defined.

End Segment.
Export Segment.
