(* ===== verification/Padding.v ===== *)
(** * pkg/protocol/padding.go: padding of segments

    How long the padding of a segment may be, and the two ways to generate it:
    a run of printable characters, or bits that move the share of ones towards
    a target.  Random draws are the fields of [padDraw]. *)

From S2P Require Import Prelude Mathext Float Common Rng Metadata Cipher Segment.

Module Padding.

(** [24 + rng.FixedIntVH(17)], computed once with an empty cache. *)
Definition recommendedConsecutiveASCIILen (appVersion hostName : string) : Z :=
  24 + (FixedIntVH appVersion hostName ∅ 17).1.
Definition recommendedTargetProbability : float := f64_0_325.

Record asciiPaddingOpts := mkAscii { minConsecutiveASCIILen : Z }.
Record entropyPaddingOpts := mkEntropy { existingData : bytes; targetProbability : float }.
Record paddingOpts := mkOpts {
  maxLen : Z;
  ascii : option asciiPaddingOpts;
  entropy : option entropyPaddingOpts
}.

(** The draws of one padding: [pd_intn n] is [rng.Intn(n)], [pd_read n] what
    [crand.Read] fills a slice of [n] bytes with, [pd_begin n] is
    [mrand.Intn(n)], [pd_char i] the [crand.Int] draw of [ToPrintableChar] at
    index [i], [pd_bit i n] the [mrand.Intn(n)] draw of iteration [i]. *)
Record padDraw := mkPadDraw {
  pd_intn : Z → Z;
  pd_read : Z → bytes;
  pd_begin : Z → Z;
  pd_char : nat → Z;
  pd_bit : nat → Z → Z
}.

Definition MaxPaddingSize (mtu : Z) (transport : TransportProtocol)
    (fragmentSize existingPaddingSize : Z) : Z :=
  match transport with
  | StreamTransport => 255
  | _ =>
      let res := mtu - fragmentSize - packetOverhead in
      if res <=? existingPaddingSize then 0
      else Min (res - existingPaddingSize) 255
  end.

(** [cache] is the cache of [FixedIntV], [randomData] what [crand.Read] fills
    the [randomDataLen] bytes with. *)
Definition buildRecommendedPaddingOpts (appVersion hostName : string) (d : padDraw)
    (cache : gmap string Z) (maxLen randomDataLen : Z) (strategySource : string)
  : paddingOpts * gmap string Z :=
  let '(strategy, cache) := FixedIntV appVersion cache 2 strategySource in
  if strategy =? 0 then
    (mkOpts maxLen
       (Some (mkAscii (Min maxLen (recommendedConsecutiveASCIILen appVersion hostName)))) None,
     cache)
  else
    (mkOpts maxLen None
       (Some (mkEntropy (pd_read d randomDataLen) recommendedTargetProbability)), cache).

(** [for i := 0; i < flip; i++ { j := mrand.Intn(len(p)*8); set or clear bit j }]:
    [mrand.Intn] panics on an argument that is not positive. *)
Fixpoint flipLoop (d : padDraw) (upd : Z → Z → Z) (i n : nat) (p : bytes) : outcome bytes :=
  match n with
  | O => Ret p
  | S n =>
      if len p * 8 <=? 0 then Panic "invalid argument to Intn"
      else
        let j := pd_bit d i (len p * 8) in
        let bitIndex := Z.rem j 8 in
        flipLoop d upd (S i) n (alter (λ b, upd b bitIndex) (Z.to_nat (Z.quot j 8)) p)
  end.

Definition clearBit (b bitIndex : Z) : Z := Z.ldiff b (Z.shiftl 1 bitIndex).
Definition setBit (b bitIndex : Z) : Z := Z.lor b (Z.shiftl 1 bitIndex).

Section NewPadding.
Context (oob : float → Z).

Definition asciiPadding (d : padDraw) (maxLen minLen : Z) : outcome bytes :=
  if maxLen <? minLen
  then Panic "Invalid padding options: maxLen %d is smaller than minConsecutiveASCIILen %d"
  else
    let length := pd_intn d (maxLen - minLen + 1) + minLen in
    if length <? 0 then Panic "makeslice: len out of range"
    else
      let p := pd_read d length in
      let beginIdx := if minLen <? length then pd_begin d (length - minLen) else 0 in
      ToPrintableChar (pd_char d) p beginIdx (beginIdx + minLen).

Definition entropyPadding (d : padDraw) (maxLen : Z) (existing : bytes) (target : float)
  : outcome bytes :=
  if fle target (of_Z binary64 0) || flt f64_0_5 target
  then Panic "Invalid padding options: targetProbability %f is out of range (0.0, 0.5]"
  else
    let dist := ToBitDistribution existing in
    let lowerIsOne := flt (Bit1 dist) (Bit0 dist) in
    let lowerBitCount := if lowerIsOne then Bit1Count dist else Bit0Count dist in
    let minPaddingBits :=
      to_i64 oob (fsub binary64 (fdiv binary64 (of_Z binary64 lowerBitCount) target)
                    (of_Z binary64 (len existing * 8))) in
    let minPaddingBits := Max minPaddingBits 0 in
    let minPaddingBytes := Z.quot (i64 (minPaddingBits + 7)) 8 in
    let length :=
      if maxLen <=? minPaddingBytes then maxLen
      else pd_intn d (maxLen - minPaddingBytes + 1) + minPaddingBytes in
    if length <? 0 then Panic "makeslice: len out of range"
    else
      let p := replicate (Z.to_nat length) 0 in
      let flip := Max (i64 (to_i64 oob
          (fmul binary64 (fmul binary64 (of_Z binary64 (len existing + length)) (of_Z binary64 8))
             target) - lowerBitCount)) 0 in
      let flip := Min flip (length * 8) in
      if lowerIsOne then flipLoop d setBit 0 (Z.to_nat flip) p
      else flipLoop d clearBit 0 (Z.to_nat flip) (FillBytes p 0xFF).

Definition newPadding (d : padDraw) (opts : paddingOpts) : outcome bytes :=
  match ascii opts, entropy opts with
  | Some a, _ => asciiPadding d (maxLen opts) (minConsecutiveASCIILen a)
  | None, Some e => entropyPadding d (maxLen opts) (existingData e) (targetProbability e)
  | None, None => Panic "Detailed padding options are not provided"
  end.
End NewPadding.

(** ** What the generators promise *)

(** The documented ranges: [rng.Intn(n)] and [mrand.Intn(n)] return values of
    [0, n), [crand.Read] fills the whole slice, [crand.Int] is below 95. *)
Record pad_draw_ok (d : padDraw) : Prop := {
  pdo_intn : ∀ n, 0 < n → 0 ≤ pd_intn d n < n;
  pdo_read : ∀ n, 0 ≤ n → len (pd_read d n) = n ∧ bytes_ok (pd_read d n);
  pdo_begin : ∀ n, 0 < n → 0 ≤ pd_begin d n < n;
  pdo_char : ∀ i, 0 ≤ pd_char d i < 95;
  pdo_bit : ∀ i n, 0 < n → 0 ≤ pd_bit d i n < n
}.

Lemma in_u8_land x : 0 ≤ x → in_u8 x ↔ Z.land x (Z.ones 8) = x.
Proof.
  intros Hx. rewrite Z.land_ones by lia. unfold in_u8. split; intros H.
  - by apply Z.mod_small.
  - rewrite <- H. apply Z.mod_pos_bound. lia.
Qed.

Lemma setBit_ok b k : in_u8 b → 0 ≤ k < 8 → in_u8 (setBit b k).
Proof.
  intros Hb Hk. unfold setBit. rewrite Z.shiftl_1_l.
  assert (0 < 2 ^ k) by (apply Z.pow_pos_nonneg; lia).
  assert (in_u8 (2 ^ k)) as Hp by (split; [lia|]; apply Z.pow_lt_mono_r; lia).
  apply in_u8_land; [apply Z.lor_nonneg; unfold in_u8 in *; lia|].
  rewrite Z.land_lor_distr_l. f_equal; apply in_u8_land; unfold in_u8 in *; auto; lia.
Qed.

Lemma clearBit_ok b k : in_u8 b → in_u8 (clearBit b k).
Proof.
  intros Hb. unfold clearBit. assert (0 ≤ b) by (unfold in_u8 in *; lia).
  apply in_u8_land; [apply Z.ldiff_nonneg; auto|].
  pose proof (proj1 (in_u8_land b H) Hb) as Hland. apply Z.bits_inj. intros i.
  apply (f_equal (λ x, Z.testbit x i)) in Hland. rewrite Z.land_spec in Hland.
  rewrite Z.land_spec, Z.ldiff_spec.
  destruct (Z.testbit b i), (Z.testbit (Z.ones 8) i), (Z.testbit (Z.shiftl 1 k) i);
    simpl in *; congruence.
Qed.

Lemma flipLoop_ret d upd n i p :
  pad_draw_ok d → (∀ b k, in_u8 b → 0 ≤ k < 8 → in_u8 (upd b k)) →
  bytes_ok p → Z.of_nat n ≤ len p * 8 →
  ∃ p', flipLoop d upd i n p = Ret p' ∧ len p' = len p ∧ bytes_ok p'.
Proof.
  intros Hd Hupd Hp Hn. assert (n = 0%nat ∨ 0 < len p * 8) as Hpos by lia. clear Hn.
  revert i p Hp Hpos. induction n as [|n IH]; intros i p Hp Hpos; simpl; [by exists p|].
  destruct Hpos as [|Hpos]; [done|]. rewrite (proj2 (Z.leb_gt _ _)) by done.
  pose proof (pdo_bit d Hd i (len p * 8) Hpos) as Hj.
  edestruct (IH (S i)) as (p' & H1 & H2 & H3); [| |exists p'; split; [exact H1|split; [|done]]].
  - apply Forall_alter; [done|]. intros b _ Hb. apply Hupd; [done|].
    rewrite Z.rem_mod_nonneg by lia. apply Z.mod_pos_bound. lia.
  - right. unfold len in *. by rewrite length_alter.
  - rewrite H2. unfold len. by rewrite length_alter.
Qed.

Lemma asciiPadding_ret d maxL minL :
  pad_draw_ok d → 0 ≤ minL ≤ maxL →
  ∃ p, asciiPadding d maxL minL = Ret p ∧ minL ≤ len p ≤ maxL ∧ bytes_ok p ∧
    minL ≤ MaxConsecutivePrintableLength p.
Proof.
  intros Hd Hm. unfold asciiPadding. rewrite (proj2 (Z.ltb_ge _ _)) by lia.
  pose proof (pdo_intn d Hd (maxL - minL + 1)) as Hi.
  set (n := pd_intn d (maxL - minL + 1) + minL) in *.
  rewrite (proj2 (Z.ltb_ge _ _)) by lia. destruct (pdo_read d Hd n) as [Hl Hok]; [lia|].
  set (beginIdx := if minL <? n then _ else _).
  assert (0 ≤ beginIdx ∧ beginIdx + minL ≤ n) as [Hb1 Hb2].
  { unfold beginIdx. case_if; bool_to_Z; [|lia].
    pose proof (pdo_begin d Hd (n - minL)). lia. }
  destruct (ToPrintableChar_ret (pd_char d) (pd_read d n) beginIdx (beginIdx + minL))
    as (p & H1 & H2 & _ & _ & H3 & H4); [apply Hd|done|lia|lia|].
  exists p. unfold len in *. rewrite H2. split_and!; try done; lia.
Qed.

(** The number of padding bits that the entropy strategy wants, before the
    conversion to bytes; the source adds 7 to it in int64. *)
Definition wantedBits (oob : float → Z) (existing : bytes) (target : float) : Z :=
  let dist := ToBitDistribution existing in
  let lower := if flt (Bit1 dist) (Bit0 dist) then Bit1Count dist else Bit0Count dist in
  to_i64 oob (fsub binary64 (fdiv binary64 (of_Z binary64 lower) target)
                (of_Z binary64 (len existing * 8))).

Lemma entropyPadding_ret oob d maxL existing :
  pad_draw_ok d → 0 ≤ maxL < 2 ^ 32 →
  wantedBits oob existing recommendedTargetProbability < 2 ^ 63 - 7 →
  ∃ p, entropyPadding oob d maxL existing recommendedTargetProbability = Ret p ∧
    len p ≤ maxL ∧ bytes_ok p.
Proof.
  intros Hd Hm Hw. unfold entropyPadding.
  change (fle recommendedTargetProbability (of_Z binary64 0) ||
          flt f64_0_5 recommendedTargetProbability) with false. cbv iota.
  unfold wantedBits in Hw. set (dist := ToBitDistribution existing) in *.
  set (lower := if flt (Bit1 dist) (Bit0 dist) then _ else _) in *.
  set (wanted := to_i64 oob _) in *. cbv zeta. rewrite !Max_spec, Min_spec.
  assert (0 ≤ Z.quot (i64 (Z.max wanted 0 + 7)) 8) as Hq.
  { rewrite i64_small by lia. rewrite Z.quot_div_nonneg by lia. apply Z.div_pos; lia. }
  set (q := Z.quot _ 8) in *.
  pose proof (pdo_intn d Hd (maxL - q + 1)) as Hi.
  set (n := if maxL <=? q then maxL else _) in *.
  assert (0 ≤ n ≤ maxL) as Hn by (unfold n; case_if; bool_to_Z; lia).
  rewrite (proj2 (Z.ltb_ge _ _)) by lia.
  set (flips := Z.min _ (n * 8)) in *.
  assert (∀ p, len p = n → bytes_ok p → Z.of_nat (Z.to_nat flips) ≤ len p * 8) as Hflips.
  { intros p Hp _. unfold flips. rewrite Hp. lia. }
  assert (len (replicate (Z.to_nat n) 0) = n) as Hr by (rewrite len_replicate; lia).
  assert (bytes_ok (replicate (Z.to_nat n) 0)) as Hr0 by (apply Forall_replicate; done).
  assert (len (FillBytes (replicate (Z.to_nat n) 0) 255) = n) as Hf
    by (unfold FillBytes, len in *; by rewrite length_map).
  assert (bytes_ok (FillBytes (replicate (Z.to_nat n) 0) 255)) as Hf0.
  { unfold FillBytes. apply (proj2 (Forall_fmap _ _ _)), Forall_true. intros x. by split. }
  destruct (flt (Bit1 dist) (Bit0 dist)).
  - edestruct (flipLoop_ret d setBit (Z.to_nat flips) 0 (replicate (Z.to_nat n) 0))
      as (p & H1 & H2 & H3); auto using setBit_ok. exists p. split_and!; [done|lia|done].
  - edestruct (flipLoop_ret d clearBit (Z.to_nat flips) 0 (FillBytes (replicate (Z.to_nat n) 0) 255))
      as (p & H1 & H2 & H3); auto using clearBit_ok. exists p. split_and!; [done|lia|done].
Qed.

Lemma MaxPaddingSize_range mtu tp fs ex :
  0 ≤ MaxPaddingSize mtu tp fs ex ≤ 255.
Proof. unfold MaxPaddingSize. destruct tp; rewrite ?Min_spec; try case_if; bool_to_Z; lia. Qed.

Lemma MaxPaddingSize_packet mtu fs ex :
  0 ≤ fs → fs + packetOverhead ≤ mtu → 0 ≤ ex → fs + packetOverhead + ex ≤ mtu →
  fs + packetOverhead + ex + MaxPaddingSize mtu PacketTransport fs ex ≤ mtu.
Proof. intros. unfold MaxPaddingSize. rewrite Min_spec. case_if; bool_to_Z; lia. Qed.

(** The strategy is one of the two, whatever the user name. *)
Lemma recommended_ret oob appVersion hostName d cache maxL n source :
  pad_draw_ok d → 0 ≤ maxL ≤ 255 → 0 ≤ n →
  wantedBits oob (pd_read d n) recommendedTargetProbability < 2 ^ 63 - 7 →
  ∃ p, newPadding oob d (buildRecommendedPaddingOpts appVersion hostName d cache maxL n source).1
      = Ret p ∧ len p ≤ maxL ∧ bytes_ok p ∧
    ((FixedIntV appVersion cache 2 source).1 = 0 →
     Z.min maxL (recommendedConsecutiveASCIILen appVersion hostName)
       ≤ MaxConsecutivePrintableLength p).
Proof.
  intros Hd Hm Hn Hw. unfold buildRecommendedPaddingOpts.
  destruct (FixedIntV appVersion cache 2 source) as [strategy cache'].
  destruct (Z.eqb_spec strategy 0) as [->|Hs]; simpl.
  - rewrite Min_spec.
    assert (24 ≤ recommendedConsecutiveASCIILen appVersion hostName) as Hr.
    { unfold recommendedConsecutiveASCIILen, FixedIntVH, FixedIntV.
      pose proof (fixedLookup_spec (λ hint, string_bytes hint ++ string_bytes " " ++
        string_bytes appVersion) ∅ 17 hostName) as Hspec.
      destruct (fixedLookup _ ∅ 17 hostName) as [r c]. simpl.
      destruct Hspec as [-> _]; [by intros ? ? ?|]. simpl.
      match goal with |- context [?x `mod` 17] => pose proof (Z.mod_pos_bound x 17) end. lia. }
    unfold newPadding. simpl.
    destruct (asciiPadding_ret d maxL (Z.min maxL (recommendedConsecutiveASCIILen appVersion hostName)))
      as (p & H1 & H2 & H3 & H4); [done|lia|]. exists p. split_and!; [done|lia|done|done].
  - destruct (entropyPadding_ret oob d maxL (pd_read d n)) as (p & H1 & H2 & H3); auto; [lia|].
    exists p. split_and!; [done..|]. intros; lia.
Qed.

(** padding never fails and never overflows its length byte.  For every size
    that [MaxPaddingSize] allows and every user, [newPadding] on the recommended
    options returns at most that many bytes (at most 255), whichever of the two
    strategies the user name selects; under the ASCII strategy it contains the
    promised run of printable characters. *)
Theorem recommended_padding_ok oob appVersion hostName d cache mtu tp fs ex n source :
  pad_draw_ok d → 0 ≤ n →
  wantedBits oob (pd_read d n) recommendedTargetProbability < 2 ^ 63 - 7 →
  let maxL := MaxPaddingSize mtu tp fs ex in
  ∃ p, newPadding oob d (buildRecommendedPaddingOpts appVersion hostName d cache maxL n source).1
      = Ret p ∧ len p ≤ maxL ≤ 255 ∧ bytes_ok p ∧
    ((FixedIntV appVersion cache 2 source).1 = 0 →
     Z.min maxL (recommendedConsecutiveASCIILen appVersion hostName)
       ≤ MaxConsecutivePrintableLength p).
Proof.
  intros Hd Hn Hw maxL. pose proof (MaxPaddingSize_range mtu tp fs ex) as Hr. fold maxL in Hr.
  destruct (recommended_ret oob appVersion hostName d cache maxL n source Hd Hr Hn Hw)
    as (p & H1 & H2 & H3 & H4).
  exists p. split_and!; [done|lia|lia|done|done].
Qed.

(** A fixed source of draws, for the witnesses. *)
Definition toyPadDraw : padDraw :=
  mkPadDraw (λ n, n / 2) (λ n, replicate (Z.to_nat n) 0xA5) (λ n, 0) (λ _, 11)
    (λ i n, (37 * Z.of_nat i) `mod` n).

Lemma toyPadDraw_ok : pad_draw_ok toyPadDraw.
Proof.
  split; simpl; intros.
  - split; [apply Z.div_pos; lia|apply Z.div_lt; lia].
  - rewrite len_replicate. split; [lia|]. apply Forall_replicate. by split.
  - lia.
  - lia.
  - apply Z.mod_pos_bound. lia.
Qed.

Lemma recommended_padding_ok_witness :
  (∃ p, newPadding (λ _, 0) toyPadDraw (buildRecommendedPaddingOpts "3.31.0" "host" toyPadDraw ∅
      (MaxPaddingSize 1400 PacketTransport 1000 0) 100 "alice").1 = Ret p ∧ len p ≤ 255) ∧
  (∃ p, newPadding (λ _, 0) toyPadDraw (buildRecommendedPaddingOpts "3.31.0" "host" toyPadDraw ∅
      (MaxPaddingSize 1400 PacketTransport 1000 0) 100 "bob").1 = Ret p ∧ len p ≤ 255).
Proof.
  split.
  - destruct (recommended_padding_ok (λ _, 0) "3.31.0" "host" toyPadDraw ∅ 1400 PacketTransport
      1000 0 100 "alice") as (p & H1 & H2 & _).
    + exact toyPadDraw_ok.
    + lia.
    + vm_compute. reflexivity.
    + exists p. split; [exact H1|lia].
  - destruct (recommended_padding_ok (λ _, 0) "3.31.0" "host" toyPadDraw ∅ 1400 PacketTransport
      1000 0 100 "bob") as (p & H1 & H2 & _).
    + exact toyPadDraw_ok.
    + lia.
    + vm_compute. reflexivity.
    + exists p. split; [exact H1|lia].
Defined.

End Padding.
Export Padding.
