(* ===== verification/Scheduler.v ===== *)
(** * pkg/protocol/scheduler.go: scheduling of client sessions to an underlay

    [ScheduleController] with its clock as an argument: times are int64
    nanoseconds, [None] is the zero [time.Time].  [idle] stands for
    [scheduleIdleTime], which is fixed at program start. *)

From S2P Require Import Prelude Cipher Rng.

Module Scheduler.

Definition scheduleIdleTime (appVersion hostName : string) : Z :=
  KeyRefreshInterval + (FixedIntVH appVersion hostName ∅ 61).1 * SecondNs.

Record ScheduleController := mkSched {
  pending : Z;
  lastScheduleTime : option Z;
  disableTime : option Z
}.

Definition newScheduleController : ScheduleController := mkSched 0 None None.

Section Ops.
Context (idle : Z).

Definition IsDisabled (now : Z) (c : ScheduleController) : bool :=
  match disableTime c with Some t => 0 <? now - t | None => false end.

Definition IncPending (now : Z) (c : ScheduleController) : bool * ScheduleController :=
  if match disableTime c with Some t => 0 <? now - t | None => false end then (false, c)
  else (true, mkSched (pending c + 1) (Some now) (disableTime c)).

Definition DecPending (now : Z) (c : ScheduleController) : ScheduleController :=
  mkSched (pending c - 1) (Some now) (disableTime c).

(** [time.Since] of the zero time is a huge duration, above any interval. *)
Definition Idle (now : Z) (c : ScheduleController) : bool :=
  match disableTime c with
  | None => false
  | Some t =>
      match lastScheduleTime c with Some l => idle <? now - l | None => true end &&
      (idle <? now - t)
  end.

Definition TryDisableIdle (now : Z) (c : ScheduleController) : bool * ScheduleController :=
  match disableTime c with
  | Some _ => (false, c)
  | None =>
      if 0 <? pending c then (false, c)
      else if match lastScheduleTime c with Some l => now - l <? idle | None => false end
      then (false, c)
      else (true, mkSched (pending c) (lastScheduleTime c) (Some now))
  end.

Definition SetRemainingTime (now d : Z) (c : ScheduleController) : ScheduleController :=
  if d <? 0 then c
  else match disableTime c with
       | Some _ => c
       | None => mkSched (pending c) (lastScheduleTime c) (Some (now + d))
       end.

Inductive schedCall :=
| CallInc | CallDec | CallTryDisable | CallSetRemaining (d : Z).

Definition schedStep (now : Z) (call : schedCall) (c : ScheduleController)
  : bool * ScheduleController :=
  match call with
  | CallInc => IncPending now c
  | CallDec => (true, DecPending now c)
  | CallTryDisable => TryDisableIdle now c
  | CallSetRemaining d => (true, SetRemainingTime now d c)
  end.

(** A run of timed calls, with the replies. *)
Fixpoint schedRun (calls : list (Z * schedCall)) (c : ScheduleController)
  : list bool * ScheduleController :=
  match calls with
  | [] => ([], c)
  | (now, call) :: calls =>
      let '(r, c) := schedStep now call c in
      let '(rs, c) := schedRun calls c in (r :: rs, c)
  end.

Lemma schedStep_disable now call c t :
  disableTime c = Some t → disableTime (schedStep now call c).2 = Some t.
Proof.
  intros H. destruct call; simpl; unfold IncPending, TryDisableIdle, SetRemainingTime; rewrite H;
    repeat case_if; done.
Qed.

Lemma schedRun_disable calls c t :
  disableTime c = Some t → disableTime (schedRun calls c).2 = Some t.
Proof.
  revert c. induction calls as [|[now call] calls IH]; intros c H; simpl; [done|].
  pose proof (schedStep_disable now call c t H) as H1.
  destruct (schedStep now call c) as [r c1]. simpl in H1. specialize (IH c1 H1).
  by destruct (schedRun calls c1).
Qed.

(** The balance of [IncPending] and [DecPending] calls, given the replies. *)
Fixpoint balance (calls : list (Z * schedCall)) (rs : list bool) : Z :=
  match calls, rs with
  | (_, CallInc) :: calls, true :: rs => 1 + balance calls rs
  | (_, CallDec) :: calls, _ :: rs => -1 + balance calls rs
  | _ :: calls, _ :: rs => balance calls rs
  | _, _ => 0
  end.

Lemma schedRun_pending calls c :
  pending (schedRun calls c).2 = pending c + balance calls (schedRun calls c).1.
Proof.
  revert c. induction calls as [|[now call] calls IH]; intros c; simpl; [lia|].
  destruct (schedStep now call c) as [r c1] eqn:E. specialize (IH c1).
  destruct (schedRun calls c1) as [rs c2]. simpl in *.
  destruct call; simpl in E;
    unfold IncPending, TryDisableIdle, SetRemainingTime in E; repeat case_match; simplify_eq;
    simpl in *; lia.
Qed.

(** disabling an underlay is final and safe.  Whatever calls follow, in
    whatever order and at whatever times, a scheduler with a disable time keeps
    it; after that time it accepts no session and cannot be disabled again; an
    idle scheduler is a disabled one.  A scheduler is disabled as idle only
    when no session is pending, and [pending] is always the accepted
    increments minus the decrements. *)
Theorem scheduler_disable_final calls c t now :
  0 ≤ idle → disableTime c = Some t → t < now →
  let c' := (schedRun calls c).2 in
  disableTime c' = Some t ∧ IncPending now c' = (false, c') ∧ IsDisabled now c' = true ∧
  TryDisableIdle now c' = (false, c') ∧ (Idle now c' = true → t + idle < now) ∧
  pending c' = pending c + balance calls (schedRun calls c).1 ∧
  (∀ c0, (TryDisableIdle now c0).1 = true → pending c0 ≤ 0 ∧ disableTime c0 = None).
Proof.
  intros Hidle Ht Hnow c'. pose proof (schedRun_disable calls c t Ht) as Hd. fold c' in Hd.
  unfold IncPending, IsDisabled, TryDisableIdle, Idle. rewrite Hd.
  rewrite (proj2 (Z.ltb_lt _ _)) by lia. split_and!; try done.
  - intros H. bool_to_Z. lia.
  - apply schedRun_pending.
  - intros c0. destruct (disableTime c0); [done|].
    destruct (0 <? pending c0) eqn:E; [done|]. bool_to_Z. done.
Qed.
End Ops.

Lemma scheduler_disable_final_witness :
  IncPending 100 (schedRun 10 [(95, CallDec); (96, CallSetRemaining 5)]
                    (mkSched 1 (Some 80) (Some 90))).2
  = (false, mkSched 0 (Some 95) (Some 90)).
Proof.
  destruct (scheduler_disable_final 10 [(95, CallDec); (96, CallSetRemaining 5)]
    (mkSched 1 (Some 80) (Some 90)) 90 100) as (_ & H & _).
  - lia.
  - reflexivity.
  - lia.
  - exact H.
Defined.

End Scheduler.
Export Scheduler.
