(* ===== verification/Auth.v ===== *)
(** * Server-side user matching

    The part that the two underlays share when a server reads the first message
    of a peer: [serverTryDecryptMetadataForNewSession] (underlay_packet.go) and
    the first half of [serverInitRecvBlockCipherAndDecryptMetadata]
    (underlay_stream.go).  The registered users are a Go map: the model takes
    them as a list, in the order of the iteration.  [jit i] is the jitter that
    the cipher cache draws for the [i]-th user of a loop. *)

From S2P Require Import Prelude Mathext Sha256 Common Cipher.

Module Auth.

(** The fields of [appctlpb.User] that the underlays read. *)
Record User := mkUser { u_name : string; u_password : string; u_hashedPassword : string }.

(** The hashed password of a user; [None] when it is not hexadecimal, in which
    case the loops go on to the next user. *)
Definition userPassword (u : User) : option bytes :=
  match hexDecode (string_bytes (u_hashedPassword u)) with
  | None => None
  | Some password =>
      Some (if len password =? 0
            then HashPassword (string_bytes (u_password u)) (string_bytes (u_name u))
            else password)
  end.

(** The users whose name fits the hint of the nonce. *)
Fixpoint hintUsers (users : list User) (nonce : bytes) : outcome (list User) :=
  match users with
  | [] => Ret []
  | u :: users =>
      let! ok := CheckUserFromHint (string_bytes (u_name u)) nonce in
      let! rest := hintUsers users nonce in
      Ret (if ok then u :: rest else rest)
  end.

Section Match.
Context (Open : bytes → bytes → bytes → option bytes) (pbkdf2Key : bytes → bytes → Z → Z → bytes).

Abbreviation cacheT := (gmap (list Z) cachedCiphers) (only parsing).

(** One of the two loops over users: the first that decrypts. *)
Fixpoint tryUsers (now : Z) (jit : nat → Z) (i : nat) (users : list User) (cache : cacheT)
    (encryptedMeta : bytes) : outcome (option (AEADBlockCipher * bytes * string)) * cacheT :=
  match users with
  | [] => (Ret None, cache)
  | u :: users =>
      match userPassword u with
      | None => tryUsers now jit (S i) users cache encryptedMeta
      | Some password =>
          match TryDecrypt Open pbkdf2Key now (jit i) cache encryptedMeta password true with
          | (Ret (b, p), cache) => (Ret (Some (b, p, u_name u)), cache)
          | (Err _, cache) => tryUsers now jit (S i) users cache encryptedMeta
          | (Panic s, cache) => (Panic s, cache)
          end
      end
  end.

(** The users that fit the hint first, then all of them unless the hint is
    mandatory. *)
Definition matchUser (now : Z) (jit1 jit2 : nat → Z) (users : list User) (mandatory : bool)
    (cache : cacheT) (encryptedMeta nonce : bytes)
  : outcome (AEADBlockCipher * bytes * string) * cacheT :=
  match hintUsers users nonce with
  | Ret hinted =>
      match tryUsers now jit1 0 hinted cache encryptedMeta with
      | (Ret (Some r), cache) => (Ret r, cache)
      | (Ret None, cache) =>
          if mandatory then (Err (Errorf "cipher.TryDecrypt() failed for all users"), cache)
          else
            match tryUsers now jit2 0 users cache encryptedMeta with
            | (Ret (Some r), cache) => (Ret r, cache)
            | (Ret None, cache) => (Err (Errorf "cipher.TryDecrypt() failed for all users"), cache)
            | (Err e, cache) => (Err e, cache)
            | (Panic s, cache) => (Panic s, cache)
            end
      | (Err e, cache) => (Err e, cache)
      | (Panic s, cache) => (Panic s, cache)
      end
  | Err e => (Err e, cache)
  | Panic s => (Panic s, cache)
  end.

(** The packet underlay then sets the context and the nonce pattern of the
    matched block; [pattern] is [trafficPattern.GetNonce()] when a traffic
    pattern is configured. *)
Definition serverTryDecryptMetadataForNewSession (now : Z) (jit1 jit2 : nat → Z)
    (users : list User) (mandatory : bool) (trafficPattern : option (option NoncePattern))
    (cache : cacheT) (encryptedMeta nonce : bytes)
  : outcome (AEADBlockCipher * bytes) * cacheT :=
  match matchUser now jit1 jit2 users mandatory cache encryptedMeta nonce with
  | (Ret (b, meta, user), cache) =>
      let b := SetBlockContext (mkContext user) b in
      let b := match trafficPattern with Some p => SetNoncePattern p b | None => b end in
      (Ret (b, meta), cache)
  | (Err e, cache) => (Err e, cache)
  | (Panic s, cache) => (Panic s, cache)
  end.
End Match.

(** ** Lemmas *)

Section Lemmas.
Context (Open : bytes → bytes → bytes → option bytes)
        (pbkdf2Key : bytes → bytes → Z → Z → bytes).

(** A cache as the process keeps it: coherent, with entries of the past. *)
Definition cache_wf (now : Z) (cache : gmap (list Z) cachedCiphers) : Prop :=
  cache_coherent pbkdf2Key cache ∧ ∀ pw e, cache !! pw = Some e → createTime e ≤ now.

Definition user_ok (u : User) : Prop :=
  u_name u ≠ "" ∧ ∃ pw, userPassword u = Some pw.

Lemma userPassword_nonempty u pw : userPassword u = Some pw → pw ≠ [].
Proof.
  unfold userPassword. destruct (hexDecode _) as [p|]; [|done]. intros [= <-].
  destruct (Z.eqb_spec (len p) 0) as [H|H].
  - intros E. apply (f_equal length) in E. unfold HashPassword in E.
    rewrite length_Sum256 in E. done.
  - intros ->. by rewrite len_nil in H.
Qed.

(** [SelectDecrypt] on fresh ciphers never panics, and what it returns was
    opened by one of the keys. *)
Lemma SelectDecrypt_sound bs n ct :
  Forall fresh bs → len n = DefaultNonceSize →
  match SelectDecrypt Open (n ++ ct) bs with
  | Ret (b, p) => key b ∈ map key bs ∧ Open (key b) n ct = Some p
  | Err _ => ∀ k, k ∈ map key bs → Open k n ct = None
  | Panic _ => False
  end.
Proof.
  intros Hf Hn. induction Hf as [|b bs Hb _ IH]; simpl; [intros k; by rewrite elem_of_nil|].
  destruct (Decrypt_fresh Open b n ct Hb Hn) as [H1 H2].
  destruct (Decrypt Open (n ++ ct) b) as [r b'] eqn:E. simpl in *. subst r.
  destruct (Open (key b) n ct) as [p|] eqn:Eo.
  - rewrite H2. split; [set_solver|done].
  - destruct (SelectDecrypt Open (n ++ ct) bs) as [[b0 p]|e|s]; [set_solver| |done].
    intros k. rewrite elem_of_cons. intros [-> | Hk]; auto.
Qed.

Context (pbkdf2_len : ∀ pw salt iter n, 0 ≤ n → len (pbkdf2Key pw salt iter n) = n).

Lemma getBlockCipherList_wf now jitter cache password stateless :
  cache_wf now cache → password ≠ [] → 0 ≤ jitter →
  ∃ bs cache' t', getBlockCipherList pbkdf2Key now jitter cache password stateless
      = Ret (bs, cache') ∧ cache_wf now cache' ∧
    map key bs = keysAt pbkdf2Key t' password ∧ now - cacheValidInterval ≤ t' ≤ now ∧
    Forall fresh bs.
Proof.
  intros [Hc Ht] Hp Hj.
  destruct (getBlockCipherList_ret pbkdf2Key pbkdf2_len now jitter cache password stateless)
    as ([bs cache'] & Hr & Hc' & (t' & Hk & Hb) & Hf); [done..|by intros e; apply Ht|].
  exists bs, cache', t'. split_and!; try done; try lia.
  - split; [done|]. intros pw e He. unfold getBlockCipherList in Hr.
    assert (cache' = cache ∨ ∃ l, cache' = <[password := mkCached l now]> cache) as Hcases.
    { destruct (cache !! password) as [e0|]; repeat case_if_in Hr;
        repeat (apply obind_ret_inv in Hr as (? & ? & Hr)); simplify_eq; eauto.
      all: repeat (case_if_in Hr; repeat (apply obind_ret_inv in Hr as (? & ? & Hr));
        simplify_eq; eauto). }
    destruct Hcases as [-> | [l ->]]; [by eapply Ht|].
    apply lookup_insert_Some in He as [[<- <-]|[_ He]]; [done|by eapply Ht].
  - apply list_fresh in Hf. eapply Forall_impl; [exact Hf|]. tauto.
Qed.

(** What a password can open around the time [now]. *)
Lemma TryDecrypt_spec now jitter cache password stateless n ct :
  cache_wf now cache → password ≠ [] → 0 ≤ jitter → len n = DefaultNonceSize →
  ∃ r cache' t', TryDecrypt Open pbkdf2Key now jitter cache (n ++ ct) password stateless
      = (r, cache') ∧ cache_wf now cache' ∧ now - cacheValidInterval ≤ t' ≤ now ∧
    match r with
    | Ret (b, p) => key b ∈ keysAt pbkdf2Key t' password ∧ Open (key b) n ct = Some p
    | Err _ => ∀ k, k ∈ keysAt pbkdf2Key t' password → Open k n ct = None
    | Panic _ => False
    end.
Proof.
  intros Hc Hp Hj Hn. unfold TryDecrypt.
  destruct (getBlockCipherList_wf now jitter cache password stateless Hc Hp Hj)
    as (bs & cache' & t' & -> & H1 & H2 & H3 & H4).
  exists (SelectDecrypt Open (n ++ ct) bs), cache', t'. rewrite <- H2.
  split_and!; try done; try lia. by apply SelectDecrypt_sound.
Qed.

(** The time of the keys that the cache holds for a caller at [now]. *)
Definition key_time (now t' : Z) : Prop := now - cacheValidInterval ≤ t' ≤ now.

(** [name] is a registered user one of whose current keys opens the message. *)
Definition opened_by (now : Z) (users : list User) (n ct : bytes)
    (r : AEADBlockCipher * bytes * string) : Prop :=
  let '(b, p, name) := r in
  ∃ u pw t', u ∈ users ∧ u_name u = name ∧ userPassword u = Some pw ∧ key_time now t' ∧
    key b ∈ keysAt pbkdf2Key t' pw ∧ Open (key b) n ct = Some p.

(** No current key of a registered user opens the message. *)
Definition opened_by_none (now : Z) (users : list User) (n ct : bytes) : Prop :=
  ∀ u pw, u ∈ users → userPassword u = Some pw →
    ∃ t', key_time now t' ∧ ∀ k, k ∈ keysAt pbkdf2Key t' pw → Open k n ct = None.

Lemma opened_by_mono now users users' n ct r :
  users ⊆ users' → opened_by now users n ct r → opened_by now users' n ct r.
Proof.
  destruct r as [[b p] name]. intros Hsub (u & pw & t' & Hin & H). exists u, pw, t'. eauto.
Qed.

Lemma tryUsers_spec now jit i users cache n ct :
  cache_wf now cache → (∀ j, 0 ≤ jit j) → len n = DefaultNonceSize →
  ∃ r cache', tryUsers Open pbkdf2Key now jit i users cache (n ++ ct) = (Ret r, cache') ∧
    cache_wf now cache' ∧
    match r with
    | Some r => opened_by now users n ct r
    | None => opened_by_none now users n ct
    end.
Proof.
  intros Hc Hj Hn. revert i cache Hc. induction users as [|u users IH]; intros i cache Hc; simpl.
  - exists None, cache. split_and!; try done. intros u pw. set_solver.
  - assert (∀ r, opened_by now users n ct r → opened_by now (u :: users) n ct r) as Hmono
      by (intros r; apply opened_by_mono; set_solver).
    destruct (userPassword u) as [pw|] eqn:Ep.
    + destruct (TryDecrypt_spec now (jit i) cache pw true n ct Hc (userPassword_nonempty _ _ Ep)
        (Hj i) Hn) as (r & c1 & t' & -> & H1 & H2 & H3).
      destruct r as [[b p]|e|s]; [|destruct (IH (S i) c1 H1) as (r & c2 & -> & H4 & H5)|done].
      * eexists _, c1. split; [done|]. split; [done|]. exists u, pw, t'.
        split_and!; try done; set_solver.
      * exists r, c2. split_and!; try done. destruct r as [r|]; [by apply Hmono|].
        intros u' pw'. rewrite elem_of_cons. intros [-> | Hin] Hp'; [|by eapply H5].
        rewrite Ep in Hp'. injection Hp' as <-. by exists t'.
    + destruct (IH (S i) cache Hc) as (r & c2 & -> & H4 & H5). exists r, c2.
      split_and!; try done. destruct r as [r|]; [by apply Hmono|].
      intros u' pw'. rewrite elem_of_cons. intros [-> | Hin] Hp'; [congruence|by eapply H5].
Qed.

Lemma hintUsers_ret users n :
  Forall (λ u, u_name u ≠ "") users → len n = DefaultNonceSize →
  ∃ hs, hintUsers users n = Ret hs ∧
    (∀ u, u ∈ hs ↔ u ∈ users ∧ CheckUserFromHint (string_bytes (u_name u)) n = Ret true).
Proof.
  intros Hu Hn. induction Hu as [|u users Hname _ (hs & IH1 & IH2)]; simpl.
  { exists []. split; [done|]. set_solver. }
  assert (∃ ok, CheckUserFromHint (string_bytes (u_name u)) n = Ret ok) as [ok Hok].
  { unfold CheckUserFromHint.
    destruct (Z.eqb_spec (len (string_bytes (u_name u))) 0) as [E|_].
    - apply len_0 in E. by apply string_bytes_nonempty in Hname.
    - rewrite Hn. simpl. eauto. }
  rewrite Hok, IH1. simpl. eexists. split; [done|]. intros v. destruct ok.
  - rewrite !elem_of_cons, IH2. split; [intros [->|[? ?]]; auto|intros [[->|?] ?]; auto].
  - rewrite elem_of_cons, IH2. split; [intros [? ?]; auto|].
    intros [[->|?] ?]; [congruence|auto].
Qed.

Lemma matchUser_spec now jit1 jit2 users mandatory cache n ct :
  cache_wf now cache → (∀ j, 0 ≤ jit1 j) → (∀ j, 0 ≤ jit2 j) →
  Forall (λ u, u_name u ≠ "") users → len n = DefaultNonceSize →
  ∃ r cache', matchUser Open pbkdf2Key now jit1 jit2 users mandatory cache (n ++ ct) n
      = (r, cache') ∧ cache_wf now cache' ∧
    match r with
    | Ret r => opened_by now users n ct r
    | Err _ => ∀ u pw, u ∈ users → userPassword u = Some pw →
        mandatory = false ∨ CheckUserFromHint (string_bytes (u_name u)) n = Ret true →
        ∃ t', key_time now t' ∧ ∀ k, k ∈ keysAt pbkdf2Key t' pw → Open k n ct = None
    | Panic _ => False
    end.
Proof.
  intros Hc Hj1 Hj2 Hu Hn. unfold matchUser.
  destruct (hintUsers_ret users n Hu Hn) as (hs & -> & Hhs).
  destruct (tryUsers_spec now jit1 0 hs cache n ct Hc Hj1 Hn) as (r & c1 & -> & H1 & H2).
  destruct r as [r|].
  { eexists (Ret r), c1. split_and!; try done. eapply opened_by_mono; [|exact H2].
    intros u. rewrite Hhs. tauto. }
  destruct mandatory.
  { eexists (Err _), c1. split_and!; try done. intros u pw Hin Hp [|Hh]; [done|].
    apply (H2 u pw); [by apply Hhs|done]. }
  destruct (tryUsers_spec now jit2 0 users c1 n ct H1 Hj2 Hn) as (r & c2 & -> & H3 & H4).
  destruct r as [r|]; eexists _, c2; (split; [done|]); split; try done.
  intros u pw Hin Hp _. by apply (H4 u pw).
Qed.

(** C29: a server accepts only registered users.  For any bytes a peer sends as
    its first message (24 bytes of nonce and the rest) user matching returns or
    fails but never panics, whatever the cache and the jitters; when it
    returns, the message was opened with a current key of the registered user
    whose name is recorded in the cipher. *)
Theorem server_accepts_registered_users now jit1 jit2 users mandatory pat cache n ct :
  cache_wf now cache → (∀ j, 0 ≤ jit1 j) → (∀ j, 0 ≤ jit2 j) →
  Forall (λ u, u_name u ≠ "") users → len n = DefaultNonceSize →
  ∃ r cache', serverTryDecryptMetadataForNewSession Open pbkdf2Key now jit1 jit2 users mandatory
      pat cache (n ++ ct) n = (r, cache') ∧ cache_wf now cache' ∧
    match r with
    | Ret (b, p) => opened_by now users n ct (b, p, UserName (ctx b))
    | Err _ => True
    | Panic _ => False
    end.
Proof.
  intros Hc Hj1 Hj2 Hu Hn. unfold serverTryDecryptMetadataForNewSession.
  destruct (matchUser_spec now jit1 jit2 users mandatory cache n ct Hc Hj1 Hj2 Hu Hn)
    as (r & c1 & -> & H1 & H2).
  destruct r as [[[b p] name]|e|s]; eexists _, c1; (split; [done|]); split; try done.
  destruct H2 as (u & pw & t' & H2). exists u, pw, t'. by destruct pat.
Qed.

Context (Seal : bytes → bytes → bytes → bytes) (laws : aead_laws Seal Open).

(** a server finds the user of every genuine client.  A message that a
    registered user sealed with the key of its own time (at most
    [KeyRefreshInterval - cacheValidInterval] from the server's) is accepted,
    when hints are optional, and also when they are mandatory if the nonce
    carries the user's hint; with the client's key the plaintext is the
    client's. *)
Theorem server_finds_genuine_user now jit1 jit2 users mandatory cache n p u pw t1 :
  cache_wf now cache → (∀ j, 0 ≤ jit1 j) → (∀ j, 0 ≤ jit2 j) →
  Forall (λ u, u_name u ≠ "") users → len n = DefaultNonceSize →
  u ∈ users → userPassword u = Some pw →
  mandatory = false ∨ CheckUserFromHint (string_bytes (u_name u)) n = Ret true →
  Z.abs (t1 - now) ≤ KeyRefreshInterval - cacheValidInterval →
  let k := pbkdf2Key pw (saltOf (Round t1 KeyRefreshInterval)) KeyIter DefaultKeyLen in
  ∃ b p' name cache',
    matchUser Open pbkdf2Key now jit1 jit2 users mandatory cache (n ++ Seal k n p) n
      = (Ret (b, p', name), cache') ∧ cache_wf now cache' ∧
    opened_by now users n (Seal k n p) (b, p', name) ∧ (key b = k → p' = p).
Proof.
  intros Hc Hj1 Hj2 Hu Hn Hin Hpw Hmode Hskew k.
  destruct (matchUser_spec now jit1 jit2 users mandatory cache n (Seal k n p) Hc Hj1 Hj2 Hu Hn)
    as (r & c1 & -> & H1 & H2).
  destruct r as [[[b p'] name]|e|s]; [| |done].
  - exists b, p', name, c1. split_and!; try done. intros Hk.
    destruct H2 as (u' & pw' & t' & _ & _ & _ & _ & _ & Ho).
    rewrite Hk, (open_seal _ _ laws) in Ho. congruence.
  - destruct (H2 u pw Hin Hpw Hmode) as (t' & Ht' & Hnone).
    assert (k ∈ keysAt pbkdf2Key t' pw) as Hk.
    { unfold keysAt, saltFromTime. apply list_elem_of_fmap. eexists. split; [done|].
      apply list_elem_of_fmap. eexists. split; [done|]. apply saltTimes_close.
      unfold key_time in Ht'. lia. }
    apply Hnone in Hk. by rewrite (open_seal _ _ laws) in Hk.
Qed.
End Lemmas.

(** ** Witnesses *)

Definition toyUsers : list User :=
  [mkUser "alice" "" "00ff"; mkUser "bob" "secret" ""].

Lemma server_accepts_registered_users_witness :
  ∃ r cache', serverTryDecryptMetadataForNewSession toyOpen toyKdf (1000 * SecondNs)
      (λ _, 0) (λ _, 3) toyUsers false None ∅ (replicate 24 7 ++ replicate 20 1) (replicate 24 7)
    = (r, cache').
Proof.
  destruct (server_accepts_registered_users toyOpen toyKdf toyKdf_len (1000 * SecondNs)
    (λ _, 0) (λ _, 3) toyUsers false None ∅ (replicate 24 7) (replicate 20 1))
    as (r & c & H & _).
  - split; intros pw e He; discriminate He.
  - intros _. lia.
  - intros _. lia.
  - repeat constructor; discriminate.
  - reflexivity.
  - exists r, c. exact H.
Defined.

Lemma server_finds_genuine_user_witness :
  ∃ b p' name cache',
    matchUser toyOpen toyKdf (1000 * SecondNs) (λ _, 0) (λ _, 3) toyUsers false ∅
      (replicate 24 7 ++ toySeal (toyKdf [0; 255]
         (saltOf (Round (1010 * SecondNs) KeyRefreshInterval)) KeyIter DefaultKeyLen)
         (replicate 24 7) [1; 2; 3]) (replicate 24 7)
      = (Ret (b, p', name), cache').
Proof.
  destruct (server_finds_genuine_user toyOpen toyKdf toyKdf_len toySeal toy_laws (1000 * SecondNs)
    (λ _, 0) (λ _, 3) toyUsers false ∅ (replicate 24 7) [1; 2; 3]
    (mkUser "alice" "" "00ff") [0; 255] (1010 * SecondNs)) as (b & p' & name & c & H & _).
  - split; intros pw e He; discriminate He.
  - intros _. lia.
  - intros _. lia.
  - repeat constructor; discriminate.
  - reflexivity.
  - left.
  - reflexivity.
  - left. reflexivity.
  - vm_compute. discriminate.
  - exists b, p', name, c. exact H.
Defined.

End Auth.
Export Auth.
