(* ===== verification/Wire.v ===== *)
(** * What the two underlays share when they write a segment

    The padding step of both [writeOneSegment] methods: choose the paddings of
    a segment from its metadata and record their lengths in it.  The cache of
    [FixedIntV] is an argument, since its content does not change any value. *)

From S2P Require Import Prelude Mathext Float Common Rng Metadata Cipher Segment Padding.

Module Wire.

(** The draws of one [writeOneSegment]. *)
Record segDraw := mkSegDraw { sd_nonce : nonceDraw; sd_pad1 : padDraw; sd_pad2 : padDraw }.

Definition setSuffixLen (ss : sessionStruct) (n : Z) : sessionStruct :=
  mkSession (ss_base ss) (ss_sessionID ss) (ss_seq ss) (ss_statusCode ss) (ss_payloadLen ss) n.
Definition setPaddingLen (das : dataAckStruct) (n1 n2 : Z) : dataAckStruct :=
  mkDataAck (das_base das) (das_sessionID das) (das_seq das) (das_unAckSeq das)
    (das_windowSize das) (das_fragment das) n1 (das_payloadLen das) n2.

Definition payloadLenOf (m : metadata) : Z :=
  match m with MSession ss => ss_payloadLen ss | MDataAck das => das_payloadLen das end.
Definition prefixLenOf (m : metadata) : Z :=
  match m with MSession _ => 0 | MDataAck das => das_prefixLen das end.
Definition suffixLenOf (m : metadata) : Z :=
  match m with MSession ss => ss_suffixLen ss | MDataAck das => das_suffixLen das end.

Section Paddings.
Context (oob : float → Z) (appVersion hostName : string) (fixedCache : gmap string Z).

(** The paddings before and after the payload, and the metadata with their
    lengths; [overhead] is [packetOverhead] or [streamOverhead]. *)
Definition choosePaddings (overhead mtu : Z) (tp : TransportProtocol) (d : segDraw)
    (user : string) (m : metadata) : outcome (metadata * bytes * bytes) :=
  let! oss := toSessionStruct m in
  match oss with
  | Some ss =>
      let maxPaddingSize := MaxPaddingSize mtu tp (ss_payloadLen ss) 0 in
      let! padding := newPadding oob (sd_pad1 d)
        (buildRecommendedPaddingOpts appVersion hostName (sd_pad1 d) fixedCache maxPaddingSize
           (overhead + ss_payloadLen ss) user).1 in
      Ret (MSession (setSuffixLen ss (u8 (len padding))), [], padding)
  | None =>
      let! odas := toDataAckStruct m in
      match odas with
      | Some das =>
          let! padding1 := newPadding oob (sd_pad1 d)
            (mkOpts (MaxPaddingSize mtu tp (das_payloadLen das) 0) (Some (mkAscii 0)) None) in
          let! padding2 := newPadding oob (sd_pad2 d)
            (mkOpts (MaxPaddingSize mtu tp (das_payloadLen das) (len padding1))
               (Some (mkAscii 0)) None) in
          Ret (MDataAck (setPaddingLen das (u8 (len padding1)) (u8 (len padding2))),
               padding1, padding2)
      | None => Err ErrInvalidArgument
      end
  end.

(** The draws are in their documented ranges. *)
Definition seg_draw_ok (overhead : Z) (m : metadata) (d : segDraw) : Prop :=
  draw_ok (sd_nonce d) ∧ pad_draw_ok (sd_pad1 d) ∧ pad_draw_ok (sd_pad2 d) ∧
  wantedBits oob (pd_read (sd_pad1 d) (overhead + payloadLenOf m)) recommendedTargetProbability
    < 2 ^ 63 - 7.

(** The same segment up to the padding lengths and the timestamp. *)
Definition same_header (m m' : metadata) : Prop :=
  match m, m' with
  | MSession ss, MSession ss' =>
      protocol (ss_base ss') = protocol (ss_base ss) ∧ ss_sessionID ss' = ss_sessionID ss ∧
      ss_seq ss' = ss_seq ss ∧ ss_statusCode ss' = ss_statusCode ss ∧
      ss_payloadLen ss' = ss_payloadLen ss
  | MDataAck das, MDataAck das' =>
      protocol (das_base das') = protocol (das_base das) ∧
      das_sessionID das' = das_sessionID das ∧ das_seq das' = das_seq das ∧
      das_unAckSeq das' = das_unAckSeq das ∧ das_windowSize das' = das_windowSize das ∧
      das_fragment das' = das_fragment das ∧ das_payloadLen das' = das_payloadLen das
  | _, _ => False
  end.

Lemma in_u8_len {A} (p : list A) : len p ≤ 255 → in_u8 (len p).
Proof. pose proof (len_nonneg p). unfold in_u8. lia. Qed.

Lemma choosePaddings_ret overhead mtu tp d user m :
  metadata_ok m → 0 ≤ overhead → seg_draw_ok overhead m d →
  ∃ m' p1 p2, choosePaddings overhead mtu tp d user m = Ret (m', p1, p2) ∧
    metadata_ok m' ∧ same_header m m' ∧
    prefixLenOf m' = len p1 ∧ suffixLenOf m' = len p2 ∧ bytes_ok p1 ∧ bytes_ok p2 ∧
    len p1 ≤ MaxPaddingSize mtu tp (payloadLenOf m) 0 ∧
    len p2 ≤ MaxPaddingSize mtu tp (payloadLenOf m) (len p1).
Proof.
  intros Hm Ho (Hn & Hd1 & Hd2 & Hw). unfold choosePaddings, toSessionStruct, toDataAckStruct.
  destruct m as [ss|das]; destruct Hm as [Hok Hp]; cbn [Protocol payloadLenOf] in *.
  - rewrite Hp. simpl obind. cbv iota.
    pose proof (MaxPaddingSize_range mtu tp (ss_payloadLen ss) 0) as Hr.
    assert (0 ≤ overhead + ss_payloadLen ss) as Hnn.
    { destruct Hok as (_ & _ & _ & _ & Hpl & _). unfold in_u16 in Hpl. lia. }
    destruct (recommended_ret oob appVersion hostName (sd_pad1 d) fixedCache
      (MaxPaddingSize mtu tp (ss_payloadLen ss) 0) (overhead + ss_payloadLen ss) user)
      as (p & -> & Hl & Hb & _); [done..|]. simpl obind.
    rewrite u8_small by (apply in_u8_len; lia).
    eexists _, [], p. split; [done|]. split_and!; try done.
    + destruct Hok as (H0 & H1 & H2 & H3 & H4 & H5). split; [|done]. split_and!; try done.
      apply in_u8_len. lia.
    + apply Forall_nil_2.
    + change (len (@nil Z)) with 0. lia.
  - rewrite (dataAck_not_session _ Hp), Hp. simpl obind. cbv iota.
    pose proof (MaxPaddingSize_range mtu tp (das_payloadLen das)) as Hr.
    unfold newPadding. cbn [ascii maxLen minConsecutiveASCIILen].
    destruct (asciiPadding_ret (sd_pad1 d) (MaxPaddingSize mtu tp (das_payloadLen das) 0) 0 Hd1)
      as (p1 & -> & Hl1 & Hb1 & _); [specialize (Hr 0); lia|]. simpl obind.
    destruct (asciiPadding_ret (sd_pad2 d)
      (MaxPaddingSize mtu tp (das_payloadLen das) (len p1)) 0 Hd2)
      as (p2 & -> & Hl2 & Hb2 & _); [specialize (Hr (len p1)); lia|]. simpl obind.
    pose proof (Hr 0) as Hr0. pose proof (Hr (len p1)) as Hr1.
    rewrite !u8_small by (apply in_u8_len; lia).
    eexists _, p1, p2. split; [done|].
    destruct Hok as (H0 & H1 & H2 & H3 & H4 & H5 & H6 & H7 & H8).
    split_and!; try done; try lia.
    split; [|done]. split_and!; try done; apply in_u8_len; lia.
Qed.
End Paddings.

(** The header that goes out: [Marshal] only sets the timestamp. *)
Lemma Marshal_same now m :
  metadata_ok m → metadata_ok (Marshal now m).1 ∧ same_header m (Marshal now m).1 ∧
  prefixLenOf (Marshal now m).1 = prefixLenOf m ∧ suffixLenOf (Marshal now m).1 = suffixLenOf m ∧
  payloadLenOf (Marshal now m).1 = payloadLenOf m.
Proof.
  destruct m as [ss|das]; intros [Hok Hp]; (split; [split; [|done]|by split_and!]).
  - destruct Hok as ([H0 H0'] & H1 & H2 & H3 & H4 & H5).
    split; [split; [done|apply u32_range]|by split_and!].
  - destruct Hok as ([H0 H0'] & H1 & H2 & H3 & H4 & H5 & H6 & H7 & H8).
    split; [split; [done|apply u32_range]|by split_and!].
Qed.

Lemma same_header_trans m1 m2 m3 : same_header m1 m2 → same_header m2 m3 → same_header m1 m3.
Proof.
  destruct m1, m2, m3; simpl; try done; intros; destruct_and!; split_and!; congruence.
Qed.

Lemma same_header_payloadLen m1 m2 : same_header m1 m2 → payloadLenOf m2 = payloadLenOf m1.
Proof. destruct m1, m2; simpl; try done; intros; by destruct_and!. Qed.

End Wire.
Export Wire.
