(* ===== verification/UnderlayPacket.v ===== *)
(** * pkg/protocol/underlay_packet.go: segments in UDP datagrams

    [writeOneSegment] and the body of the loop of [readOneSegment], with the
    two parsers.  The state that the methods only read (role, MTU, addresses,
    the client's cipher, the users) is the record [PacketUnderlay]; the replay
    cache and the cipher cache are threaded; the session map appears as the
    list of the sessions' ciphers and remote addresses, in the order of the
    iteration.  Counters and logging are not modelled.  A network address is
    its string. *)

From S2P Require Import Prelude Mathext Float Common Rng Metadata Replay Cipher Segment Padding Auth Wire.

Module UnderlayPacket.

Definition packetNonHeaderPosition : Z :=
  DefaultNonceSize + Z.of_nat MetadataLength + DefaultOverhead.

Record PacketUnderlay := mkPacketUnderlay {
  pu_isClient : bool;
  pu_mtu : Z;
  pu_serverAddr : string;                       (** client *)
  pu_block : option AEADBlockCipher;            (** client *)
  pu_users : list User;                         (** server *)
  pu_userHintIsMandatory : bool;                (** server *)
  pu_trafficPattern : option (option NoncePattern)
}.

(** [seg.block = blockCipher] when it is not nil. *)
Definition set_block (seg : segment) (b : option AEADBlockCipher) : segment :=
  match b with
  | None => seg
  | Some _ => mkSegment (smeta seg) (payload seg) (transport seg) (ackCount seg) (txCount seg)
                (txTime seg) (txTimeout seg) b
  end.
Definition set_smeta (seg : segment) (m : metadata) : segment :=
  mkSegment m (payload seg) (transport seg) (ackCount seg) (txCount seg)
    (txTime seg) (txTimeout seg) (block seg).

Definition newPacketSegment (m : metadata) (p : bytes) : segment :=
  mkSegment m p PacketTransport 0 0 0 0 None.

Section Packet.
Context (Seal : bytes → bytes → bytes → bytes) (Open : bytes → bytes → bytes → option bytes)
        (pbkdf2Key : bytes → bytes → Z → Z → bytes)
        (oob : float → Z) (appVersion hostName : string) (fixedCache : gmap string Z).

(** ** Writing *)

(** The cipher of an outgoing segment.  [sessionBlock id] is what the session
    map has for a session ID: nothing, a session without a cipher yet, or the
    cipher of the session. *)
Definition packetCipherFor (u : PacketUnderlay)
    (sessionBlock : Z → option (option AEADBlockCipher)) (seg : segment)
  : outcome AEADBlockCipher :=
  if pu_isClient u then
    match pu_block u with
    | None => Panic "%v cipher block is not ready"
    | Some b => Ret b
    end
  else
    match block seg with
    | Some b => Ret b
    | None =>
        match sessionBlock (SessionID seg) with
        | None => Err (Errorf "session %d not found")
        | Some None => Err ErrNotReady
        | Some (Some b) => Ret b
        end
    end.

(** [writeOneSegment] up to [WriteTo]: the segment with its new metadata, the
    cipher after its use, and the datagram.  [now] is the Unix time. *)
Definition packetEncode (now : Z) (d : segDraw) (u : PacketUnderlay)
    (sessionBlock : Z → option (option AEADBlockCipher)) (seg : segment) (addr : string)
  : outcome (segment * AEADBlockCipher * bytes) :=
  if pu_isClient u && negb (bool_decide (addr = pu_serverAddr u))
  then Err (Errorf "can't write to %v, server address is %v")
  else
    let! blockCipher := packetCipherFor u sessionBlock seg in
    let! (m, padding1, padding2) := choosePaddings oob appVersion hostName fixedCache
      packetOverhead (pu_mtu u) PacketTransport d (UserName (ctx blockCipher)) (smeta seg) in
    let '(m, plaintextMetadata) := Marshal now m in
    let! (encryptedMetadata, blockCipher) := Encrypt Seal (sd_nonce d) plaintextMetadata blockCipher in
    let! nonce := slice_to encryptedMetadata DefaultNonceSize in
    let! encryptedPayload :=
      if 0 <? len (payload seg) then EncryptWithNonce Seal (payload seg) nonce blockCipher
      else Ret [] in
    Ret (set_smeta seg m, blockCipher,
         encryptedMetadata ++ padding1 ++ encryptedPayload ++ padding2).

(** [writeTo b addr] is false when the socket refuses the datagram. *)
Definition packetWriteOneSegment (writeTo : bytes → string → bool) (now : Z) (d : segDraw)
    (u : PacketUnderlay) (sessionBlock : Z → option (option AEADBlockCipher))
    (seg : segment) (addr : string) : outcome (segment * AEADBlockCipher * bytes) :=
  let! r := packetEncode now d u sessionBlock seg addr in
  if writeTo r.2 addr then Ret r else Err (Errorf "WriteTo() failed").

(** ** Reading *)

(** The cipher for a payload: the one that decrypted the header, else the
    client's. *)
Definition payloadCipher (u : PacketUnderlay) (blockCipher : option AEADBlockCipher)
  : outcome AEADBlockCipher :=
  match blockCipher with
  | Some b => Ret b
  | None =>
      if pu_isClient u then
        match pu_block u with Some b => Ret b | None => Panic "nil pointer dereference" end
      else Panic "PacketUnderlay readSessionSegment(): block is nil"
  end.

(** The payload and the check of the trailing padding, after the prefix has
    been cut off.  The slice bound is a uint16 sum. *)
Definition parsePayload (u : PacketUnderlay) (payloadLen suffixLen : Z)
    (nonce remaining : bytes) (blockCipher : option AEADBlockCipher) : outcome bytes :=
  if 0 <? payloadLen then
    if len remaining <? payloadLen + DefaultOverhead
    then Err (Errorf "payload: received incomplete packet")
    else
      let! b := payloadCipher u blockCipher in
      let! encryptedPayload := slice_to remaining (u16 (payloadLen + DefaultOverhead)) in
      let! p := DecryptWithNonce Open encryptedPayload nonce b in
      if payloadLen + DefaultOverhead + suffixLen =? len remaining then Ret p
      else Err (Errorf "padding: size not match")
  else if suffixLen =? len remaining then Ret [] else Err (Errorf "padding: size not match").

Definition parseSessionSegment (u : PacketUnderlay) (ss : sessionStruct)
    (nonce remaining : bytes) (blockCipher : option AEADBlockCipher) : outcome segment :=
  let! p := parsePayload u (ss_payloadLen ss) (ss_suffixLen ss) nonce remaining blockCipher in
  Ret (newPacketSegment (MSession ss) p).

Definition parseDataAckSegment (u : PacketUnderlay) (das : dataAckStruct)
    (nonce remaining : bytes) (blockCipher : option AEADBlockCipher) : outcome segment :=
  let! remaining :=
    if 0 <? das_prefixLen das then slice_from remaining (das_prefixLen das)
    else Ret remaining in
  let! p := parsePayload u (das_payloadLen das) (das_suffixLen das) nonce remaining blockCipher in
  Ret (newPacketSegment (MDataAck das) p).

(** The server tries the ciphers of the sessions with the same remote address. *)
Fixpoint trySessions (sessions : list (option AEADBlockCipher * string)) (addr : string)
    (encryptedMeta : bytes) : outcome (option (AEADBlockCipher * bytes)) :=
  match sessions with
  | [] => Ret None
  | (Some b, remoteAddr) :: sessions =>
      if bool_decide (remoteAddr = addr) then
        match Decrypt Open encryptedMeta b with
        | (Ret meta, b) => Ret (Some (b, meta))
        | (Err _, _) => trySessions sessions addr encryptedMeta
        | (Panic s, _) => Panic s
        end
      else trySessions sessions addr encryptedMeta
  | (None, _) :: sessions => trySessions sessions addr encryptedMeta
  end.

Abbreviation cacheT := (gmap (list Z) cachedCiphers) (only parsing).

(** The header of a datagram: its plaintext and, on a server, the cipher.
    [None] when the datagram is dropped. *)
Definition decryptHeader (nowNs : Z) (jit1 jit2 : nat → Z) (u : PacketUnderlay)
    (sessions : list (option AEADBlockCipher * string)) (cache : cacheT)
    (isNewSessionReplay : bool) (encryptedMeta nonce : bytes) (addr : string)
  : outcome (option (bytes * option AEADBlockCipher)) * cacheT :=
  if pu_isClient u then
    match pu_block u with
    | None => (Panic "nil pointer dereference", cache)
    | Some b =>
        match (Decrypt Open encryptedMeta b).1 with
        | Ret meta => (Ret (Some (meta, None)), cache)
        | Err _ => (Ret None, cache)
        | Panic s => (Panic s, cache)
        end
    end
  else
    match trySessions sessions addr encryptedMeta with
    | Panic s => (Panic s, cache)
    | Err e => (Err e, cache)
    | Ret (Some (b, meta)) =>
        (Ret (if isNewSessionReplay then None else Some (meta, Some b)), cache)
    | Ret None =>
        match serverTryDecryptMetadataForNewSession Open pbkdf2Key nowNs jit1 jit2 (pu_users u)
                (pu_userHintIsMandatory u) (pu_trafficPattern u) cache encryptedMeta nonce with
        | (Ret (b, meta), cache) =>
            (Ret (if isNewSessionReplay then None else Some (meta, Some b)), cache)
        | (Err _, cache) => (Ret None, cache)
        | (Panic s, cache) => (Panic s, cache)
        end
    end.

(** From the decrypted header on.  A client reports errors, a server drops the
    datagram. *)
Definition parseSegment (nowNs : Z) (u : PacketUnderlay) (meta nonce remaining : bytes)
    (blockCipher : option AEADBlockCipher) : outcome (option segment) :=
  if negb (len meta =? Z.of_nat MetadataLength) then Ret None
  else
    match
      (let! m := decodeMetadata (nowNs / SecondNs) meta in
       let! seg :=
         match m with
         | MSession ss => parseSessionSegment u ss nonce remaining blockCipher
         | MDataAck das => parseDataAckSegment u das nonce remaining blockCipher
         end in
       Ret (set_block seg blockCipher))
    with
    | Ret seg => Ret (Some seg)
    | Err e => if pu_isClient u then Err e else Ret None
    | Panic s => Panic s
    end.

(** One iteration of the loop of [readOneSegment] on a datagram that [ReadFrom]
    returned in its 1500-byte buffer.  [Ret None] is [continue]. *)
Definition packetReceive (nowNs : Z) (jit1 jit2 : nat → Z) (u : PacketUnderlay)
    (sessions : list (option AEADBlockCipher * string)) (rc : ReplayCache) (cache : cacheT)
    (datagram : bytes) (addr : string)
  : outcome (option segment) * ReplayCache * cacheT :=
  let b := take 1500 datagram in
  if pu_isClient u && negb (bool_decide (addr = pu_serverAddr u)) then (Ret None, rc, cache)
  else if len b <? packetNonHeaderPosition then (Ret None, rc, cache)
  else
    let encryptedMeta := take (Z.to_nat packetNonHeaderPosition) b in
    let '(dup, rc) :=
      IsDuplicate nowNs (take (Z.to_nat DefaultOverhead) encryptedMeta) addr rc in
    let nonce := take (Z.to_nat DefaultNonceSize) encryptedMeta in
    match decryptHeader nowNs jit1 jit2 u sessions cache dup encryptedMeta nonce addr with
    | (Ret None, cache) => (Ret None, rc, cache)
    | (Ret (Some (meta, blockCipher)), cache) =>
        (parseSegment nowNs u meta nonce (drop (Z.to_nat packetNonHeaderPosition) b) blockCipher,
         rc, cache)
    | (Err e, cache) => (Err e, rc, cache)
    | (Panic s, cache) => (Panic s, rc, cache)
    end.
End Packet.

(** ** Properties *)

Section Properties.
Context (Seal : bytes → bytes → bytes → bytes) (Open : bytes → bytes → bytes → option bytes)
        (pbkdf2Key : bytes → bytes → Z → Z → bytes)
        (oob : float → Z) (appVersion hostName : string) (fixedCache : gmap string Z).
Context (laws : aead_laws Seal Open).

(** The bytes that follow the header: padding, sealed payload, padding. *)
Definition sealedPayload (k n p : bytes) : bytes :=
  if 0 <? len p then Seal k n p else [].

Lemma sealedPayload_len k n p :
  len (sealedPayload k n p) = if 0 <? len p then len p + DefaultOverhead else 0.
Proof. unfold sealedPayload. case_if; [apply (seal_len _ _ laws)|done]. Qed.

(** What [packetEncode] produces, for the cipher that it selects. *)
Lemma packetEncode_ret now d u sb seg addr b :
  packetCipherFor u sb seg = Ret b → enableImplicitNonce b = false →
  (∀ q, noncePattern b = Some q → pattern_ok q) →
  (pu_isClient u = true → addr = pu_serverAddr u) →
  metadata_ok (smeta seg) → payloadLenOf (smeta seg) = len (payload seg) →
  seg_draw_ok oob packetOverhead (smeta seg) d →
  ∃ m n p1 p2 b', let mm := Marshal now m in
    packetEncode Seal oob appVersion hostName fixedCache now d u sb seg addr =
      Ret (set_smeta seg mm.1, b',
           n ++ Seal (key b) n mm.2 ++ p1 ++ sealedPayload (key b) n (payload seg) ++ p2) ∧
    len n = DefaultNonceSize ∧ metadata_ok m ∧ same_header (smeta seg) m ∧
    prefixLenOf m = len p1 ∧ suffixLenOf m = len p2 ∧
    len p1 ≤ MaxPaddingSize (pu_mtu u) PacketTransport (len (payload seg)) 0 ∧
    len p2 ≤ MaxPaddingSize (pu_mtu u) PacketTransport (len (payload seg)) (len p1).
Proof.
  intros Hb Hs Hpat Haddr Hm Hpl Hd. unfold packetEncode.
  assert (pu_isClient u && negb (bool_decide (addr = pu_serverAddr u)) = false) as ->.
  { destruct (pu_isClient u); [|done]. by rewrite bool_decide_eq_true_2 by auto. }
  rewrite Hb. simpl obind.
  destruct (choosePaddings_ret oob appVersion hostName fixedCache packetOverhead (pu_mtu u)
    PacketTransport d (UserName (ctx b)) (smeta seg) Hm) as
    (m & p1 & p2 & -> & Hm' & Hsame & Hp1 & Hp2 & _ & _ & Hl1 & Hl2); [done|done|].
  simpl obind. rewrite Hpl in *. destruct Hd as (Hn & _).
  destruct (Encrypt_first Seal (sd_nonce d) (Marshal now m).2 b Hn Hpat) as
    (n & b' & He & Hln & Hst & Hk & _); [by left|].
  exists m, n, p1, p2, b'. split; [|split_and!; done].
  destruct (Marshal now m) as [m1 meta]. simpl in *. rewrite He. simpl.
  rewrite (slice_to_app n) by done. simpl. unfold sealedPayload, EncryptWithNonce.
  rewrite Hst, Hs, Hln. simpl. rewrite Hk.
  case_if; simpl; by rewrite <- !(assoc_L (++)).
Qed.

(** The receiver decrypts with [b]: the client's cipher, or the first session
    of the sender's address. *)
Definition receives_with (u : PacketUnderlay) (sessions : list (option AEADBlockCipher * string))
    (addr : string) (b : AEADBlockCipher) : Prop :=
  if pu_isClient u then pu_block u = Some b ∧ addr = pu_serverAddr u
  else ∃ rest, sessions = (Some b, addr) :: rest.

Lemma Decrypt_stateless b n p :
  enableImplicitNonce b = false → len n = DefaultNonceSize →
  Decrypt Open (n ++ Seal (key b) n p) b = (Ret p, b).
Proof.
  intros Hb Hn. unfold Decrypt. rewrite Hb, len_app, Hn.
  pose proof (len_nonneg (Seal (key b) n p)).
  rewrite (proj2 (Z.ltb_ge _ _)) by lia. destruct (take_nonce n (Seal (key b) n p) Hn) as [-> ->].
  unfold openWith. by rewrite (open_seal _ _ laws).
Qed.

Lemma parsePayload_ret u suffixLen n b bc p pad :
  payloadCipher u bc = Ret b → enableImplicitNonce b = false →
  len n = DefaultNonceSize → suffixLen = len pad → len p + DefaultOverhead < 2 ^ 16 →
  parsePayload Open u (len p) suffixLen n (sealedPayload (key b) n p ++ pad) bc = Ret p.
Proof.
  intros Hc Hs Hn Hsuf Hsmall. unfold parsePayload. rewrite len_app, sealedPayload_len.
  pose proof (len_nonneg p). pose proof (len_nonneg pad).
  destruct (0 <? len p) eqn:E; bool_to_Z.
  - rewrite (proj2 (Z.ltb_ge _ _)) by lia. rewrite Hc. simpl.
    rewrite u16_small by (unfold in_u16, DefaultOverhead in *; lia).
    unfold sealedPayload. rewrite (proj2 (Z.ltb_lt _ _)) by done.
    rewrite slice_to_app by (symmetry; apply (seal_len _ _ laws)). simpl.
    unfold DecryptWithNonce, openWith. rewrite Hs, Hn, (open_seal _ _ laws). simpl.
    rewrite Hsuf, Z.eqb_refl. done.
  - assert (p = []) as -> by (apply len_0; lia). simpl. by rewrite Hsuf, Z.eqb_refl.
Qed.

Lemma parseSegment_ret nowNs now u m n b bc p p1 p2 :
  payloadCipher u bc = Ret b → enableImplicitNonce b = false → len n = DefaultNonceSize →
  metadata_ok m → clocks_agree now (nowNs / SecondNs) →
  payloadLenOf m = len p → prefixLenOf m = len p1 → suffixLenOf m = len p2 →
  len p + DefaultOverhead < 2 ^ 16 →
  ∃ seg, parseSegment Open nowNs u (Marshal now m).2 n
      (p1 ++ sealedPayload (key b) n p ++ p2) bc = Ret (Some seg) ∧
    smeta seg = (Marshal now m).1 ∧ payload seg = p ∧ (bc ≠ None → block seg = bc).
Proof.
  intros Hc Hs Hn Hm Hclk Hpl Hp1 Hp2 Hsmall. unfold parseSegment.
  assert (len (Marshal now m).2 = Z.of_nat MetadataLength) as ->
    by (unfold len; by rewrite Marshal_length). simpl.
  rewrite (decode_marshal now _ m Hm Hclk). simpl.
  destruct (Marshal_same now m Hm) as (_ & Hsame & H1 & H2 & H3).
  rewrite Hpl, Hp1, Hp2 in *.
  destruct (Marshal now m).1 as [ss|das]; simpl in H1, H2, H3 |- *.
  - symmetry in H1. apply len_0 in H1. subst p1. simpl. unfold parseSessionSegment.
    rewrite H3, (parsePayload_ret u _ n b) by done. simpl.
    eexists. split; [done|]. by destruct bc.
  - unfold parseDataAckSegment. rewrite H1, H3.
    assert ((if 0 <? len p1 then slice_from (p1 ++ sealedPayload (key b) n p ++ p2) (len p1)
      else Ret (p1 ++ sealedPayload (key b) n p ++ p2)) =
      Ret (sealedPayload (key b) n p ++ p2)) as ->.
    { case_if; bool_to_Z; [by apply slice_from_app|].
      pose proof (len_nonneg p1). assert (p1 = []) as -> by (apply len_0; lia). done. }
    simpl. rewrite (parsePayload_ret u _ n b) by done. simpl.
    eexists. split; [done|]. by destruct bc.
Qed.

Lemma header_split k n meta rest :
  len n = DefaultNonceSize → length meta = MetadataLength →
  let b := n ++ Seal k n meta ++ rest in
  take (Z.to_nat packetNonHeaderPosition) b = n ++ Seal k n meta ∧
  drop (Z.to_nat packetNonHeaderPosition) b = rest ∧ packetNonHeaderPosition ≤ len b.
Proof.
  intros Hn Hm b. pose proof (seal_len _ _ laws k n meta) as Hs.
  assert (Z.to_nat packetNonHeaderPosition = length (n ++ Seal k n meta)) as ->.
  { rewrite length_app. unfold len, packetNonHeaderPosition, DefaultNonceSize, DefaultOverhead in *.
    rewrite Hm in Hs. lia. }
  unfold b. rewrite (assoc_L (++)), take_app_length, drop_app_length. split_and!; [done..|].
  pose proof (len_nonneg rest). rewrite !len_app, Hn, Hs. unfold packetNonHeaderPosition.
  unfold len at 1. rewrite Hm. lia.
Qed.

Lemma receive_header nowNs jit1 jit2 u sessions rc cache k n meta rest addr b :
  len n = DefaultNonceSize → length meta = MetadataLength →
  receives_with u sessions addr b → enableImplicitNonce b = false → key b = k →
  let dgram := n ++ Seal k n meta ++ rest in
  len dgram ≤ 1500 →
  (pu_isClient u = false →
   (IsDuplicate nowNs (take (Z.to_nat DefaultOverhead) dgram) addr rc).1 = false) →
  ∃ rc', packetReceive Open pbkdf2Key nowNs jit1 jit2 u sessions rc cache dgram addr =
    (parseSegment Open nowNs u meta n rest (if pu_isClient u then None else Some b), rc', cache).
Proof.
  intros Hn Hm Hrecv Hs Hk dgram Hlen Hdup. unfold packetReceive.
  rewrite (take_ge dgram) by (unfold len in Hlen; lia).
  destruct (header_split k n meta rest Hn Hm) as (Ht & Hd & Hpos). fold dgram in Ht, Hd, Hpos.
  rewrite Ht, Hd, (proj2 (Z.ltb_ge _ _)) by done.
  assert (take (Z.to_nat DefaultOverhead) (n ++ Seal k n meta) =
          take (Z.to_nat DefaultOverhead) dgram) as ->.
  { rewrite <- Ht, take_take. done. }
  assert (take (Z.to_nat DefaultNonceSize) (n ++ Seal k n meta) = n) as ->
    by (by apply take_nonce).
  unfold receives_with in Hrecv. unfold decryptHeader.
  destruct (IsDuplicate _ _ _ _) as [dup rc']. simpl in Hdup. exists rc'. subst k.
  destruct (pu_isClient u).
  - destruct Hrecv as [-> ->]. rewrite bool_decide_eq_true_2 by done. simpl.
    by rewrite (Decrypt_stateless b n meta) by done.
  - destruct Hrecv as [r ->]. simpl. rewrite bool_decide_eq_true_2 by done.
    rewrite (Decrypt_stateless b n meta) by done. by rewrite Hdup.
Qed.

(** C6: a segment survives a UDP datagram.  Whatever the draws, the datagram of
    a well-formed segment whose payload fits the MTU is at most one MTU long,
    and a receiver with the same key (the client from its server, or a server
    from a known session) whose clock agrees and which does not take it for a
    replay recovers the same header and the same payload; a server also records
    the session's cipher in the segment. *)
Theorem packet_roundtrip now nowNs d us sb seg to bs ur sessions from br jit1 jit2 rc cache :
  packetCipherFor us sb seg = Ret bs → enableImplicitNonce bs = false →
  (∀ q, noncePattern bs = Some q → pattern_ok q) →
  (pu_isClient us = true → to = pu_serverAddr us) →
  metadata_ok (smeta seg) → payloadLenOf (smeta seg) = len (payload seg) →
  seg_draw_ok oob packetOverhead (smeta seg) d →
  len (payload seg) + packetOverhead ≤ pu_mtu us ≤ 1500 →
  receives_with ur sessions from br → enableImplicitNonce br = false → key br = key bs →
  clocks_agree now (nowNs / SecondNs) →
  ∃ seg' bs' dgram,
    packetEncode Seal oob appVersion hostName fixedCache now d us sb seg to
      = Ret (seg', bs', dgram) ∧
    len dgram ≤ pu_mtu us ∧ same_header (smeta seg) (smeta seg') ∧
    ((pu_isClient ur = false →
      (IsDuplicate nowNs (take (Z.to_nat DefaultOverhead) dgram) from rc).1 = false) →
     ∃ r rc', packetReceive Open pbkdf2Key nowNs jit1 jit2 ur sessions rc cache dgram from
         = (Ret (Some r), rc', cache) ∧
       smeta r = smeta seg' ∧ payload r = payload seg ∧
       (pu_isClient ur = false → block r = Some br)).
Proof.
  intros Hb Hs Hpat Hto Hm Hpl Hd Hmtu Hrecv Hsr Hk Hclk.
  destruct (packetEncode_ret now d us sb seg to bs Hb Hs Hpat Hto Hm Hpl Hd)
    as (m & n & p1 & p2 & b' & He & Hn & Hm' & Hsame & Hp1 & Hp2 & Hl1 & Hl2).
  pose proof (len_nonneg (payload seg)). pose proof (len_nonneg p1).
  pose proof (MaxPaddingSize_packet (pu_mtu us) (len (payload seg)) 0) as M1.
  pose proof (MaxPaddingSize_packet (pu_mtu us) (len (payload seg)) (len p1)) as M2.
  eexists _, _, _. split; [exact He|].
  assert (len (n ++ Seal (key bs) n (Marshal now m).2 ++ p1 ++
      sealedPayload (key bs) n (payload seg) ++ p2) ≤ pu_mtu us) as Hlen.
  { rewrite !len_app, Hn, (seal_len _ _ laws), sealedPayload_len. unfold len at 1.
    rewrite Marshal_length. unfold packetOverhead in *. unfold DefaultOverhead in *.
    unfold MetadataLength in *. case_if; bool_to_Z; lia. }
  destruct (Marshal_same now m Hm') as (_ & Hsame' & _).
  split; [done|]. split; [by apply (same_header_trans _ m)|]. intros Hdup.
  destruct (receive_header nowNs jit1 jit2 ur sessions rc cache (key bs) n (Marshal now m).2
    (p1 ++ sealedPayload (key bs) n (payload seg) ++ p2) from br) as [rc' Hr];
    [done|apply Marshal_length|done|done|done|lia|done|].
  destruct (parseSegment_ret nowNs now ur m n br (if pu_isClient ur then None else Some br)
    (payload seg) p1 p2) as (r & H1 & H2 & H3 & H4); try done.
  - unfold payloadCipher. unfold receives_with in Hrecv. destruct (pu_isClient ur); [|done].
    by destruct Hrecv as [-> _].
  - by rewrite (same_header_payloadLen _ _ Hsame).
  - unfold packetOverhead, DefaultOverhead, DefaultNonceSize, MetadataLength in *. lia.
  - exists r, rc'. rewrite Hk in H1. rewrite Hr, H1. split_and!; try done.
    intros Hc. rewrite Hc in H4. by apply H4.
Qed.

(** a server never delivers a replayed datagram.  When the replay cache
    knows the first 16 bytes of a datagram from another address, the server
    drops it or fails, but returns no segment, even though it decrypts. *)
Theorem packet_replay_dropped nowNs jit1 jit2 u sessions rc cache dgram addr :
  pu_isClient u = false →
  (IsDuplicate nowNs (take (Z.to_nat DefaultOverhead) dgram) addr rc).1 = true →
  match (packetReceive Open pbkdf2Key nowNs jit1 jit2 u sessions rc cache dgram addr).1.1 with
  | Ret (Some _) => False
  | _ => True
  end.
Proof.
  intros Hu Hdup. unfold packetReceive. rewrite Hu. simpl. case_if; [done|].
  rewrite !take_take.
  change (Z.to_nat DefaultOverhead `min` (Z.to_nat packetNonHeaderPosition `min` 1500))%nat
    with (Z.to_nat DefaultOverhead).
  destruct (IsDuplicate nowNs _ addr rc) as [dup rc1]. simpl in Hdup. subst dup.
  unfold decryptHeader. rewrite Hu.
  destruct (trySessions _ _ _ _) as [[[b meta]|]|e|s]; try done.
  by destruct (serverTryDecryptMetadataForNewSession _ _ _ _ _ _ _ _ _ _ _) as [[[b meta]|e|s] c].
Qed.

(** an authenticated peer can crash the process.  [parseDataAckSegment] cuts
    off [prefixLen] bytes without comparing them with what the datagram holds:
    whenever the announced prefix is longer than the rest of the datagram, the
    slice expression panics, on a client and on a server. *)
Theorem packet_prefix_panics u das nonce remaining bc :
  len remaining < das_prefixLen das →
  parseDataAckSegment Open u das nonce remaining bc = Panic "slice bounds out of range".
Proof.
  intros Hl. pose proof (len_nonneg remaining). unfold parseDataAckSegment, slice_from.
  rewrite (proj2 (Z.ltb_lt _ _)), (proj2 (Z.leb_le _ _)), (proj2 (Z.leb_gt _ _)) by lia. done.
Qed.
End Properties.

(** ** Witnesses *)

Definition toySegDraw : segDraw := mkSegDraw toyDraw toyPadDraw toyPadDraw.

Definition toyClient : PacketUnderlay :=
  mkPacketUnderlay true 1400 "server" (Some (toyCipher false "bob")) [] false None.
Definition toyServer : PacketUnderlay :=
  mkPacketUnderlay false 1400 "" None toyUsers false None.

Lemma packet_roundtrip_witness :
  ∃ seg' bs' dgram,
    packetEncode toySeal (λ _, 0) "3.31.0" "host" ∅ 1000000 toySegDraw toyClient (λ _, None)
      (dataSeg 5 [1; 2; 3]) "server" = Ret (seg', bs', dgram) ∧ len dgram ≤ 1400 ∧
    same_header (smeta (dataSeg 5 [1; 2; 3])) (smeta seg').
Proof.
  destruct (packet_roundtrip toySeal toyOpen toyKdf (λ _, 0) "3.31.0" "host" ∅ toy_laws
    1000000 (1000000 * SecondNs) toySegDraw toyClient (λ _, None) (dataSeg 5 [1; 2; 3]) "server"
    (toyCipher false "bob") toyServer [(Some (toyCipher false ""), "client")] "client"
    (toyCipher false "") (λ _, 0) (λ _, 0) (mkCache 10 0 1 ∅ ∅) ∅)
    as (seg' & bs' & dgram & H1 & H2 & H3 & _).
  - reflexivity.
  - reflexivity.
  - intros q [= <-]. split_and!; try discriminate. constructor.
  - intros _. reflexivity.
  - vm_compute. intuition congruence.
  - reflexivity.
  - split; [exact toyDraw_ok|]. split; [exact toyPadDraw_ok|]. split; [exact toyPadDraw_ok|].
    vm_compute. reflexivity.
  - vm_compute. split; discriminate.
  - exists []. reflexivity.
  - reflexivity.
  - reflexivity.
  - vm_compute. intuition congruence.
  - exists seg', bs', dgram. exact (conj H1 (conj H2 H3)).
Defined.

Definition toyReplayCache : ReplayCache :=
  (IsDuplicate 5 (replicate 16 9) "alice:1" (mkCache 10 100 100 ∅ ∅)).2.

Lemma packet_replay_dropped_witness :
  match (packetReceive toyOpen toyKdf 6 (λ _, 0) (λ _, 0) toyServer [] toyReplayCache ∅
           (replicate 100 9) "mallory:2").1.1 with
  | Ret (Some _) => False
  | _ => True
  end.
Proof.
  apply (packet_replay_dropped toyOpen toyKdf 6 (λ _, 0) (λ _, 0) toyServer [] toyReplayCache ∅
    (replicate 100 9) "mallory:2").
  - reflexivity.
  - vm_compute. reflexivity.
Defined.

Lemma packet_prefix_panics_witness :
  parseDataAckSegment toyOpen toyServer
    (mkDataAck (mkBase dataClientToServer 0) 1 0 0 16 0 200 0 0) (replicate 24 0)
    (replicate 100 0) (Some (toyCipher false "")) = Panic "slice bounds out of range".
Proof.
  apply (packet_prefix_panics toyOpen toyServer
    (mkDataAck (mkBase dataClientToServer 0) 1 0 0 16 0 200 0 0) (replicate 24 0)
    (replicate 100 0) (Some (toyCipher false ""))).
  reflexivity.
Defined.

End UnderlayPacket.
Export UnderlayPacket.
