(* ===== verification/UnderlayStream.v ===== *)
(** * pkg/protocol/underlay_stream.go: segments on a TCP stream

    [writeOneSegment] and [readOneSegment] with their helpers.  Reading is a
    computation in a state and error monad over [streamIO]: the receive cipher,
    the replay and cipher caches, and the bytes that are still to come from the
    connection.  Every error carries the type that the source wraps it in, as
    the text of [Errorf]. *)

From S2P Require Import Prelude Mathext Float Common Rng Metadata Replay Cipher Segment Padding Auth Wire.

Module UnderlayStream.

Definition streamOverhead : Z := Z.of_nat MetadataLength + DefaultOverhead * 2.

(** [appctlpb.TCPFragment]: only [Enable] decides what is written; the sleeps
    between fragments do not. *)
Record StreamUnderlay := mkStreamUnderlay {
  su_isClient : bool;
  su_mtu : Z;
  su_block : option AEADBlockCipher;              (** client *)
  su_users : list User;                           (** server *)
  su_userHintIsMandatory : bool;                  (** server *)
  su_trafficPattern : option (option NoncePattern);
  su_tcpFragment : bool
}.

Definition NETWORK_ERROR : goerr := Errorf "NETWORK_ERROR".
Definition CRYPTO_ERROR : goerr := Errorf "CRYPTO_ERROR".
Definition REPLAY_ERROR : goerr := Errorf "REPLAY_ERROR".
Definition PROTOCOL_ERROR : goerr := Errorf "PROTOCOL_ERROR".

Definition set_meta (seg : segment) (m : metadata) : segment :=
  mkSegment m (payload seg) (transport seg) (ackCount seg) (txCount seg)
    (txTime seg) (txTimeout seg) (block seg).

(** ** The reading monad *)

Abbreviation cacheT := (gmap (list Z) cachedCiphers) (only parsing).

Record streamIO := mkIO {
  io_recv : option AEADBlockCipher;
  io_replay : ReplayCache;
  io_cache : cacheT;
  io_input : bytes
}.

Definition M (A : Type) : Type := streamIO → outcome A * streamIO.
Definition sret {A} (a : A) : M A := λ s, (Ret a, s).
Definition sfail {A} (r : outcome A) : M A := λ s, (r, s).
Definition sbind {A B} (m : M A) (k : A → M B) : M B :=
  λ s, match m s with
       | (Ret a, s) => k a s
       | (Err e, s) => (Err e, s)
       | (Panic p, s) => (Panic p, s)
       end.
Notation "'do!' x ':=' m 'in' k" := (sbind m (λ x, k))
  (at level 10, x pattern, m at level 100, k at level 200).

Section Stream.
Context (Seal : bytes → bytes → bytes → bytes) (Open : bytes → bytes → bytes → option bytes)
        (pbkdf2Key : bytes → bytes → Z → Z → bytes)
        (oob : float → Z) (appVersion hostName : string) (fixedCache : gmap string Z).

(** ** Writing *)

(** [send] and [recv] are the ciphers of the two directions. *)
Definition maybeInitSendBlockCipher (u : StreamUnderlay) (recv send : option AEADBlockCipher)
  : outcome AEADBlockCipher :=
  match send with
  | Some c => Ret c
  | None =>
      if su_isClient u then
        match su_block u with
        | Some b => Clone b
        | None => Panic "nil pointer dereference"
        end
      else
        match recv with
        | Some r =>
            let! c := Clone r in
            Ret (SetImplicitNonceMode true (SetImplicitNonceMode false c))
        | None => Err (Errorf "recv cipher is nil")
        end
  end.

(** The pieces that [writeWithPossibleFragment] hands to [conn.Write];
    [intn i n] is [mrand.Intn(n)] of iteration [i].  Every piece has at least
    one byte, so [fuel] = the number of bytes is enough. *)
Fixpoint fragments (intn : nat → Z → Z) (dataLen : Z) (fuel i : nat) (remaining : bytes)
  : outcome (list bytes) :=
  match fuel, remaining with
  | _, [] => Ret []
  | O, _ => Panic "out of fuel"
  | S fuel, _ =>
      let minLenToSend := to_i64 oob (fsqrt binary64 (of_Z binary64 dataLen)) + 1 in
      let maxLenToSend := Max minLenToSend (Z.quot dataLen 2) in
      let lenToSend := intn i (maxLenToSend - minLenToSend + 1) + minLenToSend in
      let lenToSend := if len remaining <? lenToSend then len remaining else lenToSend in
      let! piece := slice_to remaining lenToSend in
      let! rest := slice_from remaining lenToSend in
      let! pieces := fragments intn dataLen fuel (S i) rest in
      Ret (piece :: pieces)
  end.

Definition writeWithPossibleFragment (u : StreamUnderlay) (intn : nat → Z → Z)
    (dataToSend : bytes) : outcome (list bytes) :=
  if su_tcpFragment u then fragments intn (len dataToSend) (length dataToSend) 0 dataToSend
  else Ret [dataToSend].

(** [writeOneSegment]: the segment with its metadata as sent, the cipher after
    its use, and the pieces written to the connection. *)
Definition streamWriteOneSegment (now : Z) (d : segDraw) (intn : nat → Z → Z)
    (u : StreamUnderlay) (recv send : option AEADBlockCipher) (seg : segment)
  : outcome (segment * AEADBlockCipher * list bytes) :=
  let! send := maybeInitSendBlockCipher u recv send in
  let! (m, padding1, padding2) := choosePaddings oob appVersion hostName fixedCache
    streamOverhead (su_mtu u) StreamTransport d (UserName (ctx send)) (smeta seg) in
  let '(m, plaintextMetadata) := Marshal now m in
  let! (encryptedMetadata, send) := Encrypt Seal (sd_nonce d) plaintextMetadata send in
  let! (encryptedPayload, send) :=
    if 0 <? len (payload seg) then Encrypt Seal (sd_nonce d) (payload seg) send
    else Ret ([], send) in
  let dataToSend := encryptedMetadata ++ padding1 ++ encryptedPayload ++ padding2 in
  let! pieces :=
    match m with
    | MSession _ => writeWithPossibleFragment u intn dataToSend
    | MDataAck _ => Ret [dataToSend]
    end in
  Ret (set_meta seg m, send, pieces).

(** ** Reading *)

(** [io.ReadFull(t.conn, make([]byte, n))]: a short read loses what was read. *)
Definition readFull (n : Z) : M bytes := λ s,
  if n <=? len (io_input s)
  then (Ret (take (Z.to_nat n) (io_input s)),
        mkIO (io_recv s) (io_replay s) (io_cache s) (drop (Z.to_nat n) (io_input s)))
  else (Err NETWORK_ERROR, mkIO (io_recv s) (io_replay s) (io_cache s) []).

Definition isDuplicate (nowNs : Z) (data : bytes) : M bool := λ s,
  let '(dup, rc) := IsDuplicate nowNs data EmptyTag (io_replay s) in
  (Ret dup, mkIO (io_recv s) rc (io_cache s) (io_input s)).

Definition setRecv (c : option AEADBlockCipher) : M unit := λ s,
  (Ret tt, mkIO c (io_replay s) (io_cache s) (io_input s)).
Definition getRecv : M (option AEADBlockCipher) := λ s, (Ret (io_recv s), s).

(** [t.recv.Decrypt]. *)
Definition recvDecrypt (ciphertext : bytes) : M bytes := λ s,
  match io_recv s with
  | None => (Panic "nil pointer dereference", s)
  | Some c =>
      let '(r, c) := Decrypt Open ciphertext c in
      (match r with Ret p => Ret p | Err _ => Err CRYPTO_ERROR | Panic m => Panic m end,
       mkIO (Some c) (io_replay s) (io_cache s) (io_input s))
  end.

Definition readPadding (n : Z) : M unit :=
  if 0 <? n then do! _ := readFull n in sret tt else sret tt.

(** The buffer has [payloadLen + DefaultOverhead] bytes in uint16 arithmetic;
    its first 16 bytes go to the replay cache. *)
Definition readPayload (nowNs payloadLen : Z) : M bytes :=
  if 0 <? payloadLen then
    do! encryptedPayload := readFull (u16 (payloadLen + DefaultOverhead)) in
    do! head := sfail (slice_to encryptedPayload DefaultOverhead) in
    do! _ := isDuplicate nowNs head in
    recvDecrypt encryptedPayload
  else sret [].

Definition newStreamSegment (m : metadata) (p : bytes) (b : option AEADBlockCipher) : segment :=
  mkSegment m p StreamTransport 0 0 0 0 b.

Definition readSessionSegment (nowNs : Z) (ss : sessionStruct) : M segment :=
  do! p := readPayload nowNs (ss_payloadLen ss) in
  do! _ := readPadding (ss_suffixLen ss) in
  do! b := getRecv in
  sret (newStreamSegment (MSession ss) p b).

Definition readDataAckSegment (nowNs : Z) (das : dataAckStruct) : M segment :=
  do! _ := readPadding (das_prefixLen das) in
  do! p := readPayload nowNs (das_payloadLen das) in
  do! _ := readPadding (das_suffixLen das) in
  do! b := getRecv in
  sret (newStreamSegment (MDataAck das) p b).

(** The server's first header: match a user, then decrypt again with a stateful
    clone of the matched cipher. *)
Definition serverInitRecvBlockCipherAndDecryptMetadata (nowNs : Z) (jit1 jit2 : nat → Z)
    (u : StreamUnderlay) (encryptedMeta : bytes) : M bytes := λ s,
  match io_recv s with
  | Some _ => (Err (Errorf "recv cipher is already set"), s)
  | None =>
      let nonce := take (Z.to_nat DefaultNonceSize) encryptedMeta in
      match matchUser Open pbkdf2Key nowNs jit1 jit2 (su_users u) (su_userHintIsMandatory u)
              (io_cache s) encryptedMeta nonce with
      | (Ret (b, _, user), cache) =>
          match Clone b with
          | Ret c =>
              let c := SetBlockContext (mkContext user) c in
              let c := match su_trafficPattern u with
                       | Some p => SetNoncePattern p c
                       | None => c
                       end in
              let c := SetImplicitNonceMode true c in
              match Decrypt Open encryptedMeta c with
              | (Ret meta, c) => (Ret meta, mkIO (Some c) (io_replay s) cache (io_input s))
              | (Err _, _) =>
                  (Err (Errorf "stateful Decrypt() failed"),
                   mkIO None (io_replay s) cache (io_input s))
              | (Panic m, _) => (Panic m, mkIO None (io_replay s) cache (io_input s))
              end
          | Err e => (Err e, mkIO None (io_replay s) cache (io_input s))
          | Panic m => (Panic m, mkIO None (io_replay s) cache (io_input s))
          end
      | (Err e, cache) => (Err e, mkIO None (io_replay s) cache (io_input s))
      | (Panic m, cache) => (Panic m, mkIO None (io_replay s) cache (io_input s))
      end
  end.

(** The decrypted header.  [firstRead] says that no cipher was set before. *)
Definition readHeader (nowNs : Z) (jit1 jit2 : nat → Z) (u : StreamUnderlay)
    (firstRead isNewSessionReplay : bool) (encryptedMeta : bytes) : M bytes :=
  do! _ :=
    (if firstRead && su_isClient u then
       match su_block u with
       | Some b => do! c := sfail (Clone b) in setRecv (Some c)
       | None => sfail (Panic "nil pointer dereference")
       end
     else sret tt) in
  if firstRead && negb (su_isClient u) then
    λ s, match serverInitRecvBlockCipherAndDecryptMetadata nowNs jit1 jit2 u encryptedMeta s with
         | (Ret meta, s) =>
             (if isNewSessionReplay then Err REPLAY_ERROR else Ret meta, s)
         | (Err _, s) => (Err (if isNewSessionReplay then REPLAY_ERROR else CRYPTO_ERROR), s)
         | (Panic m, s) => (Panic m, s)
         end
  else recvDecrypt encryptedMeta.

(** [readOneSegment].  [timeout] says that a read that finds no byte at all ends
    with a timeout: the caller will try again ([Ret None]). *)
Definition streamReadOneSegment (nowNs : Z) (jit1 jit2 : nat → Z) (u : StreamUnderlay)
    (timeout : bool) : M (option segment) :=
  λ s,
  let firstRead := match io_recv s with None => true | Some _ => false end in
  let readLen := Z.of_nat MetadataLength + DefaultOverhead +
                 (if firstRead then DefaultNonceSize else 0) in
  if (len (io_input s) =? 0) && timeout then (Ret None, s)
  else
    (do! encryptedMeta := readFull readLen in
     do! dup := isDuplicate nowNs (take (Z.to_nat DefaultOverhead) encryptedMeta) in
     do! meta := readHeader nowNs jit1 jit2 u firstRead (dup && firstRead) encryptedMeta in
     if negb (len meta =? Z.of_nat MetadataLength) then sfail (Err PROTOCOL_ERROR)
     else
       match decodeMetadata (nowNs / SecondNs) meta with
       | Ret (MSession ss) => do! seg := readSessionSegment nowNs ss in sret (Some seg)
       | Ret (MDataAck das) => do! seg := readDataAckSegment nowNs das in sret (Some seg)
       | Err _ => sfail (Err PROTOCOL_ERROR)
       | Panic m => sfail (Panic m)
       end) s.
End Stream.

(** ** Fragmented writes *)

Section Fragments.
Context (oob : float → Z).

(** The integer square root of a length, as the source computes it. *)
Definition minPiece (n : Z) : Z := to_i64 oob (fsqrt binary64 (of_Z binary64 n)) + 1.

Definition sqrtCheck (n : nat) : bool :=
  match trunc (fsqrt binary64 (of_Z binary64 (Z.of_nat n))) with
  | Some z => z =? Z.sqrt (Z.of_nat n)
  | None => false
  end.

Lemma sqrtCheck_all : forallb sqrtCheck (seq 0 4097) = true.
Proof. vm_compute. reflexivity. Qed.

Lemma minPiece_sqrt n : 0 ≤ n ≤ 4096 → minPiece n = Z.sqrt n + 1.
Proof.
  intros Hn. pose proof sqrtCheck_all as H. rewrite forallb_forall in H.
  specialize (H (Z.to_nat n)). unfold sqrtCheck in H. rewrite Z2Nat.id in H by lia.
  unfold minPiece, to_i64, to_int.
  destruct (trunc _) as [z|]; [|discriminate H; apply in_seq; lia].
  rewrite Z.eqb_eq in H. rewrite H by (apply in_seq; lia).
  pose proof (Z.sqrt_nonneg n). pose proof (Z.sqrt_le_lin n).
  rewrite (proj2 (Z.leb_le _ _)), (proj2 (Z.ltb_lt _ _)) by lia. done.
Qed.

Lemma fragments_ret intn dataLen fuel i remaining :
  (∀ i n, 0 < n → 0 ≤ intn i n < n) → 1 ≤ minPiece dataLen →
  (length remaining ≤ fuel)%nat →
  ∃ ps, fragments oob intn dataLen fuel i remaining = Ret ps ∧ concat ps = remaining ∧
    Forall (λ p, p ≠ []) ps.
Proof.
  intros Hi Hmin. revert i remaining. induction fuel as [|fuel IH]; intros i remaining Hf.
  { destruct remaining; [|simpl in Hf; lia]. by exists []. }
  destruct remaining as [|x remaining']; [by exists []|].
  set (remaining := x :: remaining') in *. cbn [fragments]. fold (minPiece dataLen).
  change (x :: remaining') with remaining. rewrite Max_spec.
  set (l := intn i _ + minPiece dataLen).
  assert (1 ≤ l) as Hl.
  { unfold l. match goal with |- context [intn i ?k] => pose proof (Hi i k) end. lia. }
  set (l' := if len remaining <? l then len remaining else l).
  assert (0 < len remaining) by (unfold remaining; rewrite len_cons; pose proof (len_nonneg remaining'); lia).
  assert (1 ≤ l' ≤ len remaining) as Hl' by (unfold l'; case_if; bool_to_Z; lia).
  unfold slice_to, slice_from. rewrite (proj2 (Z.leb_le 0 l')), (proj2 (Z.leb_le l' _)) by lia.
  simpl obind. destruct (IH (S i) (drop (Z.to_nat l') remaining)) as (ps & -> & Hc & Hp).
  { rewrite length_drop. unfold len in *. lia. }
  simpl. eexists. split; [done|]. split; [by rewrite concat_cons, Hc, take_drop|].
  constructor; [|done]. intros E. apply (f_equal length) in E. rewrite length_take in E.
  unfold len in *. simpl in E. lia.
Qed.

Lemma writeWithPossibleFragment_ret u intn data :
  (∀ i n, 0 < n → 0 ≤ intn i n < n) → len data ≤ 4096 →
  ∃ ps, writeWithPossibleFragment oob u intn data = Ret ps ∧ concat ps = data ∧
    (data ≠ [] → Forall (λ p, p ≠ []) ps).
Proof.
  intros Hi Hl. unfold writeWithPossibleFragment. destruct (su_tcpFragment u).
  - destruct (fragments_ret intn (len data) (length data) 0 data Hi) as (ps & -> & H1 & H2); [|done|].
    + rewrite minPiece_sqrt by (split; [apply len_nonneg|done]).
      pose proof (Z.sqrt_nonneg (len data)). lia.
    + by exists ps.
  - exists [data]. split; [done|]. simpl. rewrite app_nil_r. split; [done|]. repeat constructor; done.
Qed.

(** C34: TCP fragmentation loses nothing.  For every first segment (up to 4096
    bytes, more than an open request with padding needs) and all draws,
    [writeWithPossibleFragment] terminates, its pieces put together are exactly
    the data, and no piece is empty. *)
Theorem tcp_fragment_lossless u intn data :
  (∀ i n, 0 < n → 0 ≤ intn i n < n) → 0 < len data ≤ 4096 →
  ∃ ps, writeWithPossibleFragment oob u intn data = Ret ps ∧ concat ps = data ∧
    Forall (λ p, p ≠ []) ps ∧
    (su_tcpFragment u = true → minPiece (len data) = Z.sqrt (len data) + 1).
Proof.
  intros Hi Hl. destruct (writeWithPossibleFragment_ret u intn data Hi) as (ps & H1 & H2 & H3);
    [lia|]. exists ps. split_and!; try done.
  - apply H3. intros ->. unfold len in Hl. simpl in Hl. lia.
  - intros _. apply minPiece_sqrt. lia.
Qed.
End Fragments.

Lemma tcp_fragment_lossless_witness :
  let u := mkStreamUnderlay true 1400 None [] false None true in
  ∃ ps, writeWithPossibleFragment (λ _, 0) u (λ _ n, n / 2) (replicate 300 5) = Ret ps ∧
    concat ps = replicate 300 5.
Proof.
  intros u. destruct (tcp_fragment_lossless (λ _, 0) u (λ _ n, n / 2) (replicate 300 5))
    as (ps & H1 & H2 & _).
  - intros i n Hn. split; [apply Z.div_pos; lia|apply Z.div_lt; lia].
  - vm_compute. split; [reflexivity|discriminate].
  - exists ps. exact (conj H1 H2).
Defined.

(** ** Reading back what was written *)

Section StreamProperties.
Context (Seal : bytes → bytes → bytes → bytes) (Open : bytes → bytes → bytes → option bytes)
        (pbkdf2Key : bytes → bytes → Z → Z → bytes)
        (oob : float → Z) (appVersion hostName : string) (fixedCache : gmap string Z).
Context (laws : aead_laws Seal Open).

(** Two stateful ciphers of one key before their first message. *)
Definition fresh_pair (c r : AEADBlockCipher) : Prop :=
  enableImplicitNonce c = true ∧ implicitNonce c = [] ∧
  enableImplicitNonce r = true ∧ implicitNonce r = [] ∧ key c = key r ∧
  (∀ q, noncePattern c = Some q → pattern_ok q).

Lemma fresh_pair_step d p c r :
  draw_ok d → fresh_pair c r →
  ∃ n c' r', Encrypt Seal d p c = Ret (n ++ Seal (key c) n p, c') ∧ len n = DefaultNonceSize ∧
    Decrypt Open (n ++ Seal (key c) n p) r = (Ret p, r') ∧ in_step c' r'.
Proof.
  intros Hd (Hc & Hcn & Hr & Hrn & Hk & Hpat).
  destruct (Encrypt_first Seal d p c Hd Hpat) as (n & c' & H1 & H2 & H3 & H4 & H5 & _); [by right|].
  exists n, c', (set_implicitNonce r n). split; [done|]. split; [done|]. split.
  - unfold Decrypt. rewrite Hr, Hrn, len_app, H2. simpl.
    pose proof (len_nonneg (Seal (key c) n p)). rewrite (proj2 (Z.ltb_ge _ _)) by lia.
    destruct (take_nonce n (Seal (key c) n p) H2) as [-> ->]. unfold openWith. simpl.
    rewrite <- Hk. by rewrite (open_seal _ _ laws).
  - split_and!; simpl; try congruence; [by apply H5|]. rewrite H5 by done. intros ->. discriminate H2.
Qed.

(** The receiver can read the next message of a sender whose cipher is [c]. *)
Inductive receiver_ready (nowNs : Z) (jit1 jit2 : nat → Z) (u : StreamUnderlay) (io : streamIO)
    (c : AEADBlockCipher) : Prop :=
| ready_step r : io_recv io = Some r → in_step c r → receiver_ready nowNs jit1 jit2 u io c
| ready_client b r : io_recv io = None → su_isClient u = true → su_block u = Some b →
    Clone b = Ret r → fresh_pair c r → receiver_ready nowNs jit1 jit2 u io c
| ready_server : io_recv io = None → su_isClient u = false →
    (∀ n meta, len n = DefaultNonceSize → ∃ b p user cache r,
       matchUser Open pbkdf2Key nowNs jit1 jit2 (su_users u) (su_userHintIsMandatory u)
         (io_cache io) (n ++ Seal (key c) n meta) n = (Ret (b, p, user), cache) ∧
       Clone b = Ret r ∧ fresh_pair c (SetImplicitNonceMode true r)) →
    (∀ data, (IsDuplicate nowNs data EmptyTag (io_replay io)).1 = false) →
    receiver_ready nowNs jit1 jit2 u io c.

Definition isFirst (io : streamIO) : bool :=
  match io_recv io with None => true | Some _ => false end.

(** A header: what the sender seals and what the receiver makes of it. *)
Lemma header_step nowNs jit1 jit2 u io c d meta :
  draw_ok d → receiver_ready nowNs jit1 jit2 u io c →
  ∃ ct c' r' cache', Encrypt Seal d meta c = Ret (ct, c') ∧
    len ct = (if isFirst io then DefaultNonceSize else 0) + len meta + DefaultOverhead ∧
    in_step c' r' ∧
    ∀ dup rc inp, (su_isClient u = false → isFirst io = true → dup = false) →
      readHeader Open pbkdf2Key nowNs jit1 jit2 u (isFirst io) (dup && isFirst io) ct
        (mkIO (io_recv io) rc (io_cache io) inp) = (Ret meta, mkIO (Some r') rc cache' inp).
Proof.
  intros Hd Hready. unfold isFirst in *. destruct Hready as [r Hr Hst|b r Hr Hu Hb Hcl Hf|Hr Hu Hmatch _].
  - destruct (in_step_next Seal Open laws d meta c r Hst) as (ct & c' & r' & H1 & H2 & H3 & H4).
    exists ct, c', r', (io_cache io). rewrite Hr. split_and!; [done|lia|done|]. intros dup rc inp Hdup.
    unfold readHeader, sbind, sret, recvDecrypt. simpl. by rewrite H2.
  - destruct (fresh_pair_step d meta c r Hd Hf) as (n & c' & r' & H1 & H2 & H3 & H4).
    exists (n ++ Seal (key c) n meta), c', r', (io_cache io). rewrite Hr. split; [done|].
    split; [rewrite len_app, H2, (seal_len _ _ laws); lia|]. split; [done|]. intros dup rc inp Hdup.
    unfold readHeader, sbind, sfail, sret, recvDecrypt. rewrite Hu, Hb. simpl.
    rewrite Hcl. simpl. by rewrite H3.
  - destruct (Hmatch (replicate 24 0) []) as (_ & _ & _ & _ & r0 & _ & _ & Hf0); [done|].
    assert (fresh_pair c (mkCipher XChaCha20Poly1305 true (key c) [] (mkContext "") None false))
      as Hself by (destruct Hf0 as (? & ? & _ & _ & _ & ?); by split_and!).
    destruct (fresh_pair_step d meta c _ Hd Hself) as (n & c' & _ & H1 & H2 & _ & _).
    destruct (Hmatch n meta H2) as (b & p & user & cache & r & Hm & Hcl & Hf).
    assert (∀ x : AEADBlockCipher, enableImplicitNonce x = true → implicitNonce x = [] →
      key x = key c → fresh_pair c x) as Hfp.
    { intros x Hx1 Hx2 Hx3. destruct Hf as (? & ? & _ & _ & _ & ?). by split_and!. }
    set (x := SetImplicitNonceMode true
      (match su_trafficPattern u with
       | Some q => SetNoncePattern q (SetBlockContext (mkContext user) r)
       | None => SetBlockContext (mkContext user) r end)).
    assert (fresh_pair c x) as Hx.
    { destruct Hf as (? & ? & _ & Hn & Hk & ?). simpl in Hn, Hk. unfold x.
      apply Hfp; destruct (su_trafficPattern u); simpl; congruence. }
    destruct (fresh_pair_step d meta c x Hd Hx) as (n2 & c2 & r' & E1 & E2 & E3 & E4).
    rewrite H1 in E1. injection E1 as E1 <-. apply app_inj_1 in E1 as [<- _];
      [|unfold len in *; lia].
    exists (n ++ Seal (key c) n meta), c', r', cache. rewrite Hr. split; [done|].
    split; [rewrite len_app, H2, (seal_len _ _ laws); lia|]. split; [done|]. intros dup rc inp Hdup.
    unfold readHeader, sbind, sret. rewrite Hu. simpl.
    unfold serverInitRecvBlockCipherAndDecryptMetadata. simpl.
    destruct (take_nonce n (Seal (key c) n meta) H2) as [-> _]. rewrite Hm, Hcl.
    fold x. rewrite E3. by rewrite Hdup by (done || by rewrite Hr).
Qed.

Lemma readFull_app n rv rc cache x y :
  n = len x → readFull n (mkIO rv rc cache (x ++ y)) = (Ret x, mkIO rv rc cache y).
Proof.
  intros ->. unfold readFull. simpl. rewrite len_app. pose proof (len_nonneg y).
  rewrite (proj2 (Z.leb_le _ _)) by lia. unfold len.
  by rewrite Nat2Z.id, take_app_length, drop_app_length.
Qed.

Lemma readPadding_app n rv rc cache x y :
  n = len x → readPadding n (mkIO rv rc cache (x ++ y)) = (Ret tt, mkIO rv rc cache y).
Proof.
  intros Hn. unfold readPadding. case_if; bool_to_Z.
  - unfold sbind. by rewrite (readFull_app n _ _ _ x y Hn).
  - pose proof (len_nonneg x). assert (x = []) as -> by (apply len_0; lia). done.
Qed.

(** The payload of a segment, sealed by the sender after its header. *)
Definition encryptPayload (d : nonceDraw) (p : bytes) (c : AEADBlockCipher)
  : outcome (bytes * AEADBlockCipher) :=
  if 0 <? len p then Encrypt Seal d p c else Ret ([], c).

Lemma payload_step nowNs d p c r :
  in_step c r → len p + DefaultOverhead < 2 ^ 16 →
  ∃ ct c' r', encryptPayload d p c = Ret (ct, c') ∧ in_step c' r' ∧
    len ct ≤ len p + DefaultOverhead ∧
    ∀ rc, ∃ rc', ∀ cache y,
      readPayload Open nowNs (len p) (mkIO (Some r) rc cache (ct ++ y)) =
      (Ret p, mkIO (Some r') rc' cache y).
Proof.
  intros Hst Hsmall. unfold encryptPayload, readPayload.
  destruct (0 <? len p) eqn:E; bool_to_Z.
  - destruct (in_step_next Seal Open laws d p c r Hst) as (ct & c' & r' & H1 & H2 & H3 & H4).
    exists ct, c', r'. split_and!; [done|done|lia|]. intros rc.
    destruct (IsDuplicate nowNs (take (Z.to_nat DefaultOverhead) ct) EmptyTag rc) as [dup rc'] eqn:Ed.
    exists rc'. intros cache y.
    rewrite u16_small by (unfold in_u16, DefaultOverhead in *; lia).
    unfold sbind, sfail, isDuplicate. rewrite (readFull_app _ _ _ _ ct y) by lia.
    unfold slice_to. rewrite (proj2 (Z.leb_le 0 _)), (proj2 (Z.leb_le DefaultOverhead _)) by (done || lia).
    cbn [andb io_replay]. rewrite Ed. unfold recvDecrypt. simpl. by rewrite H2.
  - pose proof (len_nonneg p). assert (p = []) as -> by (apply len_0; lia).
    exists [], c, r. split_and!; [done|done|done|]. intros rc. by exists rc.
Qed.

(** The part after the header, for both kinds of segments. *)
Lemma body_step nowNs (m : metadata) p p1 ct p2 rv rc cache y rv' rc' :
  payloadLenOf m = len p → prefixLenOf m = len p1 → suffixLenOf m = len p2 →
  (∀ z, readPayload Open nowNs (len p) (mkIO rv rc cache (ct ++ z)) =
        (Ret p, mkIO rv' rc' cache z)) →
  (match m with
   | MSession ss => sbind (readSessionSegment Open nowNs ss) (λ seg, sret (Some seg))
   | MDataAck das => sbind (readDataAckSegment Open nowNs das) (λ seg, sret (Some seg))
   end) (mkIO rv rc cache (p1 ++ ct ++ p2 ++ y)) =
  (Ret (Some (newStreamSegment m p rv')), mkIO rv' rc' cache y).
Proof.
  intros Hpl Hp1 Hp2 Hread. destruct m as [ss|das]; simpl in *.
  - symmetry in Hp1. apply len_0 in Hp1. subst p1. simpl.
    unfold readSessionSegment, sbind. rewrite Hpl, Hread.
    by rewrite (readPadding_app _ _ _ _ p2 y Hp2).
  - unfold readDataAckSegment, sbind.
    rewrite (readPadding_app _ _ _ _ p1 _ Hp1), Hpl, Hread.
    by rewrite (readPadding_app _ _ _ _ p2 y Hp2).
Qed.

(** A segment that the stream can carry. *)
Definition sendable (seg : segment) : Prop :=
  metadata_ok (smeta seg) ∧ payloadLenOf (smeta seg) = len (payload seg) ∧
  len (payload seg) ≤ match smeta seg with MSession _ => MaxSessionOpenPayload | _ => maxPDU end.

Definition intn_ok (intn : nat → Z → Z) : Prop := ∀ i n, 0 < n → 0 ≤ intn i n < n.

Lemma segment_step now nowNs jit1 jit2 d intn us recvS send c ur io seg :
  maybeInitSendBlockCipher us recvS send = Ret c → sendable seg →
  seg_draw_ok oob streamOverhead (smeta seg) d → intn_ok intn →
  receiver_ready nowNs jit1 jit2 ur io c → clocks_agree now (nowNs / SecondNs) →
  ∃ seg' c' pieces,
    streamWriteOneSegment Seal oob appVersion hostName fixedCache now d intn us recvS send seg
      = Ret (seg', c', pieces) ∧ same_header (smeta seg) (smeta seg') ∧
    ∀ timeout rest, io_input io = concat pieces ++ rest →
    ∃ r io' rv, streamReadOneSegment Open pbkdf2Key nowNs jit1 jit2 ur timeout io
        = (Ret (Some r), io') ∧ smeta r = smeta seg' ∧ payload r = payload seg ∧
      io_input io' = rest ∧ io_recv io' = Some rv ∧ in_step c' rv.
Proof.
  intros Hc (Hm & Hpl & Hsize) Hd Hintn Hready Hclk. unfold streamWriteOneSegment.
  rewrite Hc. simpl obind.
  destruct (choosePaddings_ret oob appVersion hostName fixedCache streamOverhead (su_mtu us)
    StreamTransport d (UserName (ctx c)) (smeta seg) Hm) as
    (m & p1 & p2 & -> & Hm' & Hsame & Hp1 & Hp2 & _ & _ & Hl1 & Hl2); [done|done|].
  simpl obind. destruct Hd as (Hnd & _).
  pose proof (Marshal_same now m Hm') as (Hm1 & Hs1 & Hq1 & Hq2 & Hq3).
  pose proof (decode_marshal now (nowNs / SecondNs) m Hm' Hclk) as Hdec.
  pose proof (Marshal_length now m) as Hml.
  rewrite (same_header_payloadLen _ _ Hsame), Hpl in Hq3. rewrite Hp1 in Hq1. rewrite Hp2 in Hq2.
  pose proof (same_header_trans _ _ _ Hsame Hs1) as Hsame1.
  destruct (Marshal now m) as [m1 meta]. simpl in *.
  destruct (header_step nowNs jit1 jit2 ur io c (sd_nonce d) meta Hnd Hready) as
    (ct & c1 & r1 & cache' & He & Hct & Hst & Hrh).
  rewrite He. simpl obind.
  assert (len (payload seg) + DefaultOverhead < 2 ^ 16) as Hsmall.
  { unfold MaxSessionOpenPayload, maxPDU, DefaultOverhead in *. destruct (smeta seg); lia. }
  destruct (payload_step nowNs (sd_nonce d) (payload seg) c1 r1 Hst Hsmall)
    as (ctp & c2 & r2 & Hep & Hst2 & Hctp & Hread).
  unfold encryptPayload in Hep. rewrite Hep. simpl obind.
  set (data := ct ++ p1 ++ ctp ++ p2).
  assert (∃ pieces, (match m1 with
      | MSession _ => writeWithPossibleFragment oob us intn data
      | MDataAck _ => Ret [data] end) = Ret pieces ∧ concat pieces = data) as (pieces & -> & Hcat).
  { destruct m1 as [ss|das].
    - destruct (writeWithPossibleFragment_ret oob us intn data Hintn) as (ps & H1 & H2 & _);
        [|by exists ps].
      destruct (smeta seg); [|done]. pose proof (MaxPaddingSize_range (su_mtu us) StreamTransport).
      assert (len meta = 32) as Hlm by (unfold len; by rewrite Hml).
      assert (len ct ≤ 72) by (rewrite Hct, Hlm; unfold DefaultNonceSize, DefaultOverhead; case_if; lia).
      unfold data. rewrite !len_app. unfold MaxPaddingSize, MaxSessionOpenPayload, DefaultOverhead in *. lia.
    - exists [data]. simpl. by rewrite app_nil_r. }
  simpl. eexists _, c2, pieces. split; [done|]. split; [done|]. intros timeout rest Hin.
  unfold streamReadOneSegment. fold (isFirst io).
  assert ((len (io_input io) =? 0) = false) as ->.
  { apply Z.eqb_neq. rewrite Hin, Hcat. unfold data. rewrite !len_app, Hct.
    pose proof (len_nonneg rest). pose proof (len_nonneg p1). pose proof (len_nonneg p2).
    pose proof (len_nonneg ctp). pose proof (len_nonneg meta).
    unfold DefaultNonceSize, DefaultOverhead. case_if; lia. }
  simpl andb. cbv iota. unfold sbind at 1. destruct io as [rv rc cache inp]. simpl in Hin.
  assert (len ct = 32 + DefaultOverhead + (if isFirst (mkIO rv rc cache inp) then DefaultNonceSize else 0)) as Hct'.
  { rewrite Hct. unfold len. rewrite Hml. unfold MetadataLength. case_if; lia. }
  rewrite Hin, Hcat. unfold data. rewrite <- !(assoc_L (++)).
  rewrite (readFull_app _ _ _ _ ct) by done. unfold sbind at 1, isDuplicate at 1. simpl.
  destruct (IsDuplicate nowNs _ EmptyTag rc) as [dup rc1] eqn:Edup.
  unfold sbind at 1. simpl in Hrh. rewrite Hrh.
  2:{ intros Hserver Hfirst. destruct Hready as [r Hr _|b r _ Hcl _|_ _ _ Hnodup]; simpl in *.
    - by rewrite Hr in Hfirst.
    - congruence.
    - specialize (Hnodup (take (Z.to_nat DefaultOverhead) ct)).
      by rewrite Edup in Hnodup. }
  rewrite (proj2 (Z.eqb_eq (len meta) _)) by (unfold len; by rewrite Hml). simpl.
  rewrite Hdec. destruct (Hread rc1) as [rc2 Hread2].
  pose proof (body_step nowNs m1 (payload seg) p1 ctp p2 (Some r1) rc1 cache' rest (Some r2) rc2
    Hq3 Hq1 Hq2 (Hread2 cache')) as Hbody.
  eexists _, _, r2. split; [|split_and!; [| | | |exact Hst2]].
  - destruct m1; exact Hbody.
  - done.
  - done.
  - done.
  - done.
Qed.

(** A sequence of writes on one connection, and of reads. *)
Fixpoint writeAll (now : Z) (us : StreamUnderlay) (recvS send : option AEADBlockCipher)
    (xs : list (segment * segDraw * (nat → Z → Z))) : outcome (list segment * bytes) :=
  match xs with
  | [] => Ret ([], [])
  | (seg, d, intn) :: xs =>
      let! (seg', c, pieces) := streamWriteOneSegment Seal oob appVersion hostName fixedCache
        now d intn us recvS send seg in
      let! (segs, wire) := writeAll now us recvS (Some c) xs in
      Ret (seg' :: segs, concat pieces ++ wire)
  end.

Fixpoint readAll (n : nat) (nowNs : Z) (jit1 jit2 : nat → Z) (ur : StreamUnderlay)
    (timeout : bool) : M (list segment) :=
  match n with
  | O => sret []
  | S n =>
      do! o := streamReadOneSegment Open pbkdf2Key nowNs jit1 jit2 ur timeout in
      do! rs := readAll n nowNs jit1 jit2 ur timeout in
      sret (match o with Some r => r :: rs | None => rs end)
  end.

Definition item_ok (x : segment * segDraw * (nat → Z → Z)) : Prop :=
  sendable x.1.1 ∧ seg_draw_ok oob streamOverhead (smeta x.1.1) x.1.2 ∧ intn_ok x.2.

(** C5: a TCP connection carries any sequence of segments faithfully.  Whatever
    the draws, paddings and fragments, the sender writes every segment, and the
    receiver (an established one, a client reading its first header, or a
    server that finds the sender among its users) reads back exactly the same
    headers and payloads in the same order, and nothing more of the stream. *)
Theorem stream_roundtrip now nowNs jit1 jit2 us recvS send c ur io timeout xs :
  maybeInitSendBlockCipher us recvS send = Ret c → Forall item_ok xs →
  receiver_ready nowNs jit1 jit2 ur io c → clocks_agree now (nowNs / SecondNs) →
  ∃ segs wire, writeAll now us recvS send xs = Ret (segs, wire) ∧
    Forall2 (λ x seg', same_header (smeta x.1.1) (smeta seg')) xs segs ∧
    ∀ rest, io_input io = wire ++ rest →
    ∃ rs io', readAll (length xs) nowNs jit1 jit2 ur timeout io = (Ret rs, io') ∧
      map smeta rs = map smeta segs ∧ map payload rs = map (λ x, payload x.1.1) xs ∧
      io_input io' = rest.
Proof.
  intros Hc Hxs. revert send c io Hc.
  induction Hxs as [|[[seg d] intn] xs (Hseg & Hd & Hintn) _ IH]; intros send c io Hc Hready Hclk.
  { exists [], []. split; [done|]. split; [constructor|]. intros rest Hin.
    exists [], io. by split_and!. }
  simpl in Hseg, Hd, Hintn.
  destruct (segment_step now nowNs jit1 jit2 d intn us recvS send c ur io seg Hc Hseg Hd Hintn
    Hready Hclk) as (seg' & c' & pieces & Hw & Hsame & Hread).
  set (io0 r := mkIO (Some r) (io_replay io) (io_cache io) []).
  cbn [writeAll]. rewrite Hw. simpl obind.
  (* the state of the receiver after this segment does not depend on what follows *)
  set (inp y := mkIO (io_recv io) (io_replay io) (io_cache io) (concat pieces ++ y)).
  destruct (segment_step now nowNs jit1 jit2 d intn us recvS send c ur (inp []) seg Hc Hseg Hd
    Hintn) as (seg1 & c1 & pieces1 & Hw1 & _ & Hread1); [|done|].
  { destruct Hready; [by eapply ready_step|by eapply ready_client|by apply ready_server]. }
  rewrite Hw in Hw1. injection Hw1 as <- <- <-.
  destruct (Hread1 timeout []) as (_ & _ & rv & _ & _ & _ & _ & _ & Hst); [done|].
  destruct (IH (Some c') c' (io0 rv)) as (segs & wire & Hws & Hall & _); [done|by eapply ready_step|done|].
  rewrite Hws. simpl. eexists _, _. split; [done|]. split; [by constructor|].
  intros rest Hin. rewrite <- (assoc_L (++)) in Hin.
  destruct (Hread timeout (wire ++ rest) Hin) as (r & io' & rv' & Hr & Hm & Hp & Hin' & Hrv & Hst').
  destruct (IH (Some c') c' io') as (segs2 & wire2 & Hws2 & _ & Hrest);
    [done|by eapply ready_step|done|].
  rewrite Hws in Hws2. injection Hws2 as <- <-.
  destruct (Hrest rest Hin') as (rs & io2 & Hrs & Hms & Hps & Hin2).
  exists (r :: rs), io2. cbn [readAll length]. unfold sbind, sret. rewrite Hr, Hrs.
  split_and!; [done|simpl; by rewrite Hm, Hms|simpl; by rewrite Hp, Hps|done].
Qed.

(** an authenticated peer can crash the process through a TCP segment.  The
    receive buffer is [payloadLen + 16] in uint16 arithmetic; for a payload
    length of 65520 or more it wraps to fewer than 16 bytes, and cutting the
    first 16 of them for the replay cache panics, as soon as the few bytes of
    the wrapped length have arrived. *)
Theorem stream_payload_len_panics nowNs payloadLen io :
  2 ^ 16 - 16 ≤ payloadLen < 2 ^ 16 → payloadLen - (2 ^ 16 - 16) ≤ len (io_input io) →
  (readPayload Open nowNs payloadLen io).1 = Panic "slice bounds out of range".
Proof.
  intros Hp Hin. unfold readPayload. rewrite (proj2 (Z.ltb_lt _ _)) by lia.
  assert (u16 (payloadLen + DefaultOverhead) = payloadLen - (2 ^ 16 - 16)) as ->.
  { unfold u16, DefaultOverhead. replace (payloadLen + 16) with (payloadLen - (2 ^ 16 - 16) + 1 * 2 ^ 16) by lia.
    rewrite Z.mod_add by lia. apply Z.mod_small. lia. }
  unfold sbind, readFull. rewrite (proj2 (Z.leb_le _ _)) by done. unfold sfail, slice_to.
  rewrite (proj2 (Z.leb_gt DefaultOverhead _)); [by rewrite andb_false_r|].
  unfold len in *. rewrite length_take. unfold DefaultOverhead. lia.
Qed.
End StreamProperties.

(** ** Witnesses *)

Definition toyStreamServer : StreamUnderlay :=
  mkStreamUnderlay false 1400 None toyUsers false None true.
Definition toyStreamClient : StreamUnderlay :=
  mkStreamUnderlay true 1400 (Some (toyCipher true "bob")) [] false None true.
Definition toyStreamDraw : segDraw := mkSegDraw toyDraw toyPadDraw toyPadDraw.

Definition toyOpenResponse : segment :=
  mkSegment (MSession (mkSession (mkBase openSessionResponse 0) 9 0 0 2 0)) [4; 5]
    StreamTransport 0 0 0 0 None.

Definition toyStreamItems : list (segment * segDraw * (nat → Z → Z)) :=
  [(toyOpenResponse, toyStreamDraw, λ _ _, 0); (dataSeg 1 [7; 8; 9], toyStreamDraw, λ _ _, 0)].

Lemma toy_item_ok x : x ∈ toyStreamItems → item_ok (λ _, 0) x.
Proof.
  unfold toyStreamItems. rewrite !elem_of_cons, elem_of_nil. intros [-> |[-> |[]]].
  - split; [vm_compute; intuition congruence|]. split; [|intros i n; simpl; lia].
    split; [exact toyDraw_ok|]. split; [exact toyPadDraw_ok|]. split; [exact toyPadDraw_ok|].
    vm_compute. reflexivity.
  - split; [vm_compute; intuition congruence|]. split; [|intros i n; simpl; lia].
    split; [exact toyDraw_ok|]. split; [exact toyPadDraw_ok|]. split; [exact toyPadDraw_ok|].
    vm_compute. reflexivity.
Qed.

Lemma stream_roundtrip_witness :
  ∃ segs wire rs io',
    writeAll toySeal (λ _, 0) "3.31.0" "host" ∅ 1000000 toyStreamServer
      (Some (toyCipher true "bob")) None toyStreamItems = Ret (segs, wire) ∧
    readAll toyOpen toyKdf 2 (1000000 * SecondNs) (λ _, 0) (λ _, 0) toyStreamClient true
      (mkIO None (mkCache 10 0 1 ∅ ∅) ∅ (wire ++ [1; 2])) = (Ret rs, io') ∧
    map payload rs = [[4; 5]; [7; 8; 9]] ∧ io_input io' = [1; 2].
Proof.
  set (w := match writeAll toySeal (λ _, 0) "3.31.0" "host" ∅ 1000000 toyStreamServer
              (Some (toyCipher true "bob")) None toyStreamItems with
            | Ret (_, w) => w | _ => [] end).
  destruct (stream_roundtrip toySeal toyOpen toyKdf (λ _, 0) "3.31.0" "host" ∅ toy_laws
    1000000 (1000000 * SecondNs) (λ _, 0) (λ _, 0) toyStreamServer (Some (toyCipher true "bob")) None
    (SetImplicitNonceMode true (SetImplicitNonceMode false (toyCipher true "bob")))
    toyStreamClient (mkIO None (mkCache 10 0 1 ∅ ∅) ∅ (w ++ [1; 2])) true toyStreamItems)
    as (segs & wire & H1 & _ & H2).
  - reflexivity.
  - apply Forall_forall. exact toy_item_ok.
  - eapply ready_client; [reflexivity|reflexivity|reflexivity|reflexivity|].
    split_and!; try reflexivity. intros q [= <-]. split_and!; try discriminate. constructor.
  - vm_compute. intuition congruence.
  - assert (w = wire) as Hw by (unfold w; by rewrite H1).
    destruct (H2 [1; 2]) as (rs & io' & H3 & _ & H4 & H5); [simpl; by rewrite Hw|].
    rewrite Hw in H3. exists segs, wire, rs, io'. exact (conj H1 (conj H3 (conj H4 H5))).
Defined.

Lemma stream_payload_len_panics_witness :
  (readPayload toyOpen 0 65525 (mkIO None (mkCache 10 0 1 ∅ ∅) ∅ (replicate 8 0))).1
  = Panic "slice bounds out of range".
Proof.
  apply (stream_payload_len_panics toyOpen 0 65525 (mkIO None (mkCache 10 0 1 ∅ ∅) ∅ (replicate 8 0))).
  - lia.
  - vm_compute. discriminate.
Defined.

End UnderlayStream.
Export UnderlayStream.
