(* ===== verification/SessionState.v ===== *)
(** * pkg/protocol/session.go: the state of a session

    Constants, the [Session] record and assignment to its fields.  A closed
    channel is a Boolean: [closedChan] is closed, and [inputErr] and [outputErr]
    are closed exactly when [inputHasErr] and [outputHasErr] are set (the source
    sets the flag and closes the channel together).  The locks, the wait group
    and the [ready] channel are not represented: a definition of Session.v is
    one critical section.  The two byte counters of a user are kept per session. *)

From S2P Require Import Prelude Mathext Congestion Metadata Cipher Segment.

Module SessionState.

Definition segmentChanCapacity : Z := 1024.
Definition segmentTreeCapacity : Z := 4096.
Definition segmentTreeRecvQueueCapacity : Z := 1024 * 1024.
Definition minWindowSize : Z := 16.
Definition maxWindowSize : Z := segmentTreeCapacity.

(** Durations, in microseconds except where the source keeps nanoseconds. *)
Definition serverRespTimeout : Z := 10 * 1000000.
Definition sessionHeartbeatInterval : Z := 5 * 1000000.
Definition periodicOutputInterval : Z := Millisecond.
Definition earlyRetransmission : Z := 3.
Definition earlyRetransmissionLimit : Z := 1.
Definition maxBackOffDuration : Z := 10 * Second.

Definition sessionInit : Z := 0.
Definition sessionAttached : Z := 1.
Definition sessionEstablished : Z := 2.
Definition sessionClosed : Z := 3.

(** [appctlpb.Quota]. *)
Record Quota := mkQuota { quotaDays : Z; quotaMegabytes : Z }.

Record Session (T : Type) := mkSess {
  id : Z;
  isClient : bool;
  mtu : Z;
  users : gmap string (list Quota);
  transportProtocol : TransportProtocol;
  state : Z;
  status : Z;
  sblock : option AEADBlockCipher;
  userName : string;
  openSessionRequestSent : bool;
  closeRequested : bool;
  closedChan : bool;
  readDeadline : Z;
  writeDeadline : Z;
  inputHasErr : bool;
  outputHasErr : bool;
  sendQueue : segmentTree T;
  sendBuf : segmentTree T;
  recvBuf : segmentTree T;
  recvQueue : segmentTree T;
  recvChan : list segment;
  nextSend : Z;
  nextRecv : Z;
  lastSend : Z;
  lastRXTime : Z;
  lastTXTime : Z;
  nextRetransmissionTime : Z;
  ackOnDataRecv : bool;
  unreadBuf : bytes;
  uploadBytes : option Z;
  downloadBytes : option Z;
  rttStat : RTTStats;
  cubicSendAlgorithm : CubicSendAlgorithm;
  remoteWindowSize : Z
}.
Arguments id {T} _.
Arguments isClient {T} _.
Arguments mtu {T} _.
Arguments users {T} _.
Arguments transportProtocol {T} _.
Arguments state {T} _.
Arguments status {T} _.
Arguments sblock {T} _.
Arguments userName {T} _.
Arguments openSessionRequestSent {T} _.
Arguments closeRequested {T} _.
Arguments closedChan {T} _.
Arguments readDeadline {T} _.
Arguments writeDeadline {T} _.
Arguments inputHasErr {T} _.
Arguments outputHasErr {T} _.
Arguments sendQueue {T} _.
Arguments sendBuf {T} _.
Arguments recvBuf {T} _.
Arguments recvQueue {T} _.
Arguments recvChan {T} _.
Arguments nextSend {T} _.
Arguments nextRecv {T} _.
Arguments lastSend {T} _.
Arguments lastRXTime {T} _.
Arguments lastTXTime {T} _.
Arguments nextRetransmissionTime {T} _.
Arguments ackOnDataRecv {T} _.
Arguments unreadBuf {T} _.
Arguments uploadBytes {T} _.
Arguments downloadBytes {T} _.
Arguments rttStat {T} _.
Arguments cubicSendAlgorithm {T} _.
Arguments remoteWindowSize {T} _.
Arguments mkSess {T}.

(** Assignment to a field. *)
Section Setters.
Context {T : Type}.
Definition set_transportProtocol (v : TransportProtocol) (s : Session T) : Session T :=
  mkSess (id s) (isClient s) (mtu s) (users s) v (state s) (status s) (sblock s) (userName
    s) (openSessionRequestSent s) (closeRequested s) (closedChan s) (readDeadline s)
    (writeDeadline s) (inputHasErr s) (outputHasErr s) (sendQueue s) (sendBuf s) (recvBuf s)
    (recvQueue s) (recvChan s) (nextSend s) (nextRecv s) (lastSend s) (lastRXTime s)
    (lastTXTime s) (nextRetransmissionTime s) (ackOnDataRecv s) (unreadBuf s) (uploadBytes
    s) (downloadBytes s) (rttStat s) (cubicSendAlgorithm s) (remoteWindowSize s).
Definition set_state (v : Z) (s : Session T) : Session T :=
  mkSess (id s) (isClient s) (mtu s) (users s) (transportProtocol s) v (status s) (sblock s)
    (userName s) (openSessionRequestSent s) (closeRequested s) (closedChan s) (readDeadline
    s) (writeDeadline s) (inputHasErr s) (outputHasErr s) (sendQueue s) (sendBuf s) (recvBuf
    s) (recvQueue s) (recvChan s) (nextSend s) (nextRecv s) (lastSend s) (lastRXTime s)
    (lastTXTime s) (nextRetransmissionTime s) (ackOnDataRecv s) (unreadBuf s) (uploadBytes
    s) (downloadBytes s) (rttStat s) (cubicSendAlgorithm s) (remoteWindowSize s).
Definition set_status (v : Z) (s : Session T) : Session T :=
  mkSess (id s) (isClient s) (mtu s) (users s) (transportProtocol s) (state s) v (sblock s)
    (userName s) (openSessionRequestSent s) (closeRequested s) (closedChan s) (readDeadline
    s) (writeDeadline s) (inputHasErr s) (outputHasErr s) (sendQueue s) (sendBuf s) (recvBuf
    s) (recvQueue s) (recvChan s) (nextSend s) (nextRecv s) (lastSend s) (lastRXTime s)
    (lastTXTime s) (nextRetransmissionTime s) (ackOnDataRecv s) (unreadBuf s) (uploadBytes
    s) (downloadBytes s) (rttStat s) (cubicSendAlgorithm s) (remoteWindowSize s).
Definition set_sblock (v : option AEADBlockCipher) (s : Session T) : Session T :=
  mkSess (id s) (isClient s) (mtu s) (users s) (transportProtocol s) (state s) (status s) v
    (userName s) (openSessionRequestSent s) (closeRequested s) (closedChan s) (readDeadline
    s) (writeDeadline s) (inputHasErr s) (outputHasErr s) (sendQueue s) (sendBuf s) (recvBuf
    s) (recvQueue s) (recvChan s) (nextSend s) (nextRecv s) (lastSend s) (lastRXTime s)
    (lastTXTime s) (nextRetransmissionTime s) (ackOnDataRecv s) (unreadBuf s) (uploadBytes
    s) (downloadBytes s) (rttStat s) (cubicSendAlgorithm s) (remoteWindowSize s).
Definition set_userName (v : string) (s : Session T) : Session T :=
  mkSess (id s) (isClient s) (mtu s) (users s) (transportProtocol s) (state s) (status s)
    (sblock s) v (openSessionRequestSent s) (closeRequested s) (closedChan s) (readDeadline
    s) (writeDeadline s) (inputHasErr s) (outputHasErr s) (sendQueue s) (sendBuf s) (recvBuf
    s) (recvQueue s) (recvChan s) (nextSend s) (nextRecv s) (lastSend s) (lastRXTime s)
    (lastTXTime s) (nextRetransmissionTime s) (ackOnDataRecv s) (unreadBuf s) (uploadBytes
    s) (downloadBytes s) (rttStat s) (cubicSendAlgorithm s) (remoteWindowSize s).
Definition set_openSessionRequestSent (v : bool) (s : Session T) : Session T :=
  mkSess (id s) (isClient s) (mtu s) (users s) (transportProtocol s) (state s) (status s)
    (sblock s) (userName s) v (closeRequested s) (closedChan s) (readDeadline s)
    (writeDeadline s) (inputHasErr s) (outputHasErr s) (sendQueue s) (sendBuf s) (recvBuf s)
    (recvQueue s) (recvChan s) (nextSend s) (nextRecv s) (lastSend s) (lastRXTime s)
    (lastTXTime s) (nextRetransmissionTime s) (ackOnDataRecv s) (unreadBuf s) (uploadBytes
    s) (downloadBytes s) (rttStat s) (cubicSendAlgorithm s) (remoteWindowSize s).
Definition set_closeRequested (v : bool) (s : Session T) : Session T :=
  mkSess (id s) (isClient s) (mtu s) (users s) (transportProtocol s) (state s) (status s)
    (sblock s) (userName s) (openSessionRequestSent s) v (closedChan s) (readDeadline s)
    (writeDeadline s) (inputHasErr s) (outputHasErr s) (sendQueue s) (sendBuf s) (recvBuf s)
    (recvQueue s) (recvChan s) (nextSend s) (nextRecv s) (lastSend s) (lastRXTime s)
    (lastTXTime s) (nextRetransmissionTime s) (ackOnDataRecv s) (unreadBuf s) (uploadBytes
    s) (downloadBytes s) (rttStat s) (cubicSendAlgorithm s) (remoteWindowSize s).
Definition set_closedChan (v : bool) (s : Session T) : Session T :=
  mkSess (id s) (isClient s) (mtu s) (users s) (transportProtocol s) (state s) (status s)
    (sblock s) (userName s) (openSessionRequestSent s) (closeRequested s) v (readDeadline s)
    (writeDeadline s) (inputHasErr s) (outputHasErr s) (sendQueue s) (sendBuf s) (recvBuf s)
    (recvQueue s) (recvChan s) (nextSend s) (nextRecv s) (lastSend s) (lastRXTime s)
    (lastTXTime s) (nextRetransmissionTime s) (ackOnDataRecv s) (unreadBuf s) (uploadBytes
    s) (downloadBytes s) (rttStat s) (cubicSendAlgorithm s) (remoteWindowSize s).
Definition set_readDeadline (v : Z) (s : Session T) : Session T :=
  mkSess (id s) (isClient s) (mtu s) (users s) (transportProtocol s) (state s) (status s)
    (sblock s) (userName s) (openSessionRequestSent s) (closeRequested s) (closedChan s) v
    (writeDeadline s) (inputHasErr s) (outputHasErr s) (sendQueue s) (sendBuf s) (recvBuf s)
    (recvQueue s) (recvChan s) (nextSend s) (nextRecv s) (lastSend s) (lastRXTime s)
    (lastTXTime s) (nextRetransmissionTime s) (ackOnDataRecv s) (unreadBuf s) (uploadBytes
    s) (downloadBytes s) (rttStat s) (cubicSendAlgorithm s) (remoteWindowSize s).
Definition set_writeDeadline (v : Z) (s : Session T) : Session T :=
  mkSess (id s) (isClient s) (mtu s) (users s) (transportProtocol s) (state s) (status s)
    (sblock s) (userName s) (openSessionRequestSent s) (closeRequested s) (closedChan s)
    (readDeadline s) v (inputHasErr s) (outputHasErr s) (sendQueue s) (sendBuf s) (recvBuf
    s) (recvQueue s) (recvChan s) (nextSend s) (nextRecv s) (lastSend s) (lastRXTime s)
    (lastTXTime s) (nextRetransmissionTime s) (ackOnDataRecv s) (unreadBuf s) (uploadBytes
    s) (downloadBytes s) (rttStat s) (cubicSendAlgorithm s) (remoteWindowSize s).
Definition set_inputHasErr (v : bool) (s : Session T) : Session T :=
  mkSess (id s) (isClient s) (mtu s) (users s) (transportProtocol s) (state s) (status s)
    (sblock s) (userName s) (openSessionRequestSent s) (closeRequested s) (closedChan s)
    (readDeadline s) (writeDeadline s) v (outputHasErr s) (sendQueue s) (sendBuf s) (recvBuf
    s) (recvQueue s) (recvChan s) (nextSend s) (nextRecv s) (lastSend s) (lastRXTime s)
    (lastTXTime s) (nextRetransmissionTime s) (ackOnDataRecv s) (unreadBuf s) (uploadBytes
    s) (downloadBytes s) (rttStat s) (cubicSendAlgorithm s) (remoteWindowSize s).
Definition set_outputHasErr (v : bool) (s : Session T) : Session T :=
  mkSess (id s) (isClient s) (mtu s) (users s) (transportProtocol s) (state s) (status s)
    (sblock s) (userName s) (openSessionRequestSent s) (closeRequested s) (closedChan s)
    (readDeadline s) (writeDeadline s) (inputHasErr s) v (sendQueue s) (sendBuf s) (recvBuf
    s) (recvQueue s) (recvChan s) (nextSend s) (nextRecv s) (lastSend s) (lastRXTime s)
    (lastTXTime s) (nextRetransmissionTime s) (ackOnDataRecv s) (unreadBuf s) (uploadBytes
    s) (downloadBytes s) (rttStat s) (cubicSendAlgorithm s) (remoteWindowSize s).
Definition set_sendQueue (v : segmentTree T) (s : Session T) : Session T :=
  mkSess (id s) (isClient s) (mtu s) (users s) (transportProtocol s) (state s) (status s)
    (sblock s) (userName s) (openSessionRequestSent s) (closeRequested s) (closedChan s)
    (readDeadline s) (writeDeadline s) (inputHasErr s) (outputHasErr s) v (sendBuf s)
    (recvBuf s) (recvQueue s) (recvChan s) (nextSend s) (nextRecv s) (lastSend s)
    (lastRXTime s) (lastTXTime s) (nextRetransmissionTime s) (ackOnDataRecv s) (unreadBuf s)
    (uploadBytes s) (downloadBytes s) (rttStat s) (cubicSendAlgorithm s) (remoteWindowSize
    s).
Definition set_sendBuf (v : segmentTree T) (s : Session T) : Session T :=
  mkSess (id s) (isClient s) (mtu s) (users s) (transportProtocol s) (state s) (status s)
    (sblock s) (userName s) (openSessionRequestSent s) (closeRequested s) (closedChan s)
    (readDeadline s) (writeDeadline s) (inputHasErr s) (outputHasErr s) (sendQueue s) v
    (recvBuf s) (recvQueue s) (recvChan s) (nextSend s) (nextRecv s) (lastSend s)
    (lastRXTime s) (lastTXTime s) (nextRetransmissionTime s) (ackOnDataRecv s) (unreadBuf s)
    (uploadBytes s) (downloadBytes s) (rttStat s) (cubicSendAlgorithm s) (remoteWindowSize
    s).
Definition set_recvBuf (v : segmentTree T) (s : Session T) : Session T :=
  mkSess (id s) (isClient s) (mtu s) (users s) (transportProtocol s) (state s) (status s)
    (sblock s) (userName s) (openSessionRequestSent s) (closeRequested s) (closedChan s)
    (readDeadline s) (writeDeadline s) (inputHasErr s) (outputHasErr s) (sendQueue s)
    (sendBuf s) v (recvQueue s) (recvChan s) (nextSend s) (nextRecv s) (lastSend s)
    (lastRXTime s) (lastTXTime s) (nextRetransmissionTime s) (ackOnDataRecv s) (unreadBuf s)
    (uploadBytes s) (downloadBytes s) (rttStat s) (cubicSendAlgorithm s) (remoteWindowSize
    s).
Definition set_recvQueue (v : segmentTree T) (s : Session T) : Session T :=
  mkSess (id s) (isClient s) (mtu s) (users s) (transportProtocol s) (state s) (status s)
    (sblock s) (userName s) (openSessionRequestSent s) (closeRequested s) (closedChan s)
    (readDeadline s) (writeDeadline s) (inputHasErr s) (outputHasErr s) (sendQueue s)
    (sendBuf s) (recvBuf s) v (recvChan s) (nextSend s) (nextRecv s) (lastSend s)
    (lastRXTime s) (lastTXTime s) (nextRetransmissionTime s) (ackOnDataRecv s) (unreadBuf s)
    (uploadBytes s) (downloadBytes s) (rttStat s) (cubicSendAlgorithm s) (remoteWindowSize
    s).
Definition set_recvChan (v : list segment) (s : Session T) : Session T :=
  mkSess (id s) (isClient s) (mtu s) (users s) (transportProtocol s) (state s) (status s)
    (sblock s) (userName s) (openSessionRequestSent s) (closeRequested s) (closedChan s)
    (readDeadline s) (writeDeadline s) (inputHasErr s) (outputHasErr s) (sendQueue s)
    (sendBuf s) (recvBuf s) (recvQueue s) v (nextSend s) (nextRecv s) (lastSend s)
    (lastRXTime s) (lastTXTime s) (nextRetransmissionTime s) (ackOnDataRecv s) (unreadBuf s)
    (uploadBytes s) (downloadBytes s) (rttStat s) (cubicSendAlgorithm s) (remoteWindowSize
    s).
Definition set_nextSend (v : Z) (s : Session T) : Session T :=
  mkSess (id s) (isClient s) (mtu s) (users s) (transportProtocol s) (state s) (status s)
    (sblock s) (userName s) (openSessionRequestSent s) (closeRequested s) (closedChan s)
    (readDeadline s) (writeDeadline s) (inputHasErr s) (outputHasErr s) (sendQueue s)
    (sendBuf s) (recvBuf s) (recvQueue s) (recvChan s) v (nextRecv s) (lastSend s)
    (lastRXTime s) (lastTXTime s) (nextRetransmissionTime s) (ackOnDataRecv s) (unreadBuf s)
    (uploadBytes s) (downloadBytes s) (rttStat s) (cubicSendAlgorithm s) (remoteWindowSize
    s).
Definition set_nextRecv (v : Z) (s : Session T) : Session T :=
  mkSess (id s) (isClient s) (mtu s) (users s) (transportProtocol s) (state s) (status s)
    (sblock s) (userName s) (openSessionRequestSent s) (closeRequested s) (closedChan s)
    (readDeadline s) (writeDeadline s) (inputHasErr s) (outputHasErr s) (sendQueue s)
    (sendBuf s) (recvBuf s) (recvQueue s) (recvChan s) (nextSend s) v (lastSend s)
    (lastRXTime s) (lastTXTime s) (nextRetransmissionTime s) (ackOnDataRecv s) (unreadBuf s)
    (uploadBytes s) (downloadBytes s) (rttStat s) (cubicSendAlgorithm s) (remoteWindowSize
    s).
Definition set_lastSend (v : Z) (s : Session T) : Session T :=
  mkSess (id s) (isClient s) (mtu s) (users s) (transportProtocol s) (state s) (status s)
    (sblock s) (userName s) (openSessionRequestSent s) (closeRequested s) (closedChan s)
    (readDeadline s) (writeDeadline s) (inputHasErr s) (outputHasErr s) (sendQueue s)
    (sendBuf s) (recvBuf s) (recvQueue s) (recvChan s) (nextSend s) (nextRecv s) v
    (lastRXTime s) (lastTXTime s) (nextRetransmissionTime s) (ackOnDataRecv s) (unreadBuf s)
    (uploadBytes s) (downloadBytes s) (rttStat s) (cubicSendAlgorithm s) (remoteWindowSize
    s).
Definition set_lastRXTime (v : Z) (s : Session T) : Session T :=
  mkSess (id s) (isClient s) (mtu s) (users s) (transportProtocol s) (state s) (status s)
    (sblock s) (userName s) (openSessionRequestSent s) (closeRequested s) (closedChan s)
    (readDeadline s) (writeDeadline s) (inputHasErr s) (outputHasErr s) (sendQueue s)
    (sendBuf s) (recvBuf s) (recvQueue s) (recvChan s) (nextSend s) (nextRecv s) (lastSend
    s) v (lastTXTime s) (nextRetransmissionTime s) (ackOnDataRecv s) (unreadBuf s)
    (uploadBytes s) (downloadBytes s) (rttStat s) (cubicSendAlgorithm s) (remoteWindowSize
    s).
Definition set_lastTXTime (v : Z) (s : Session T) : Session T :=
  mkSess (id s) (isClient s) (mtu s) (users s) (transportProtocol s) (state s) (status s)
    (sblock s) (userName s) (openSessionRequestSent s) (closeRequested s) (closedChan s)
    (readDeadline s) (writeDeadline s) (inputHasErr s) (outputHasErr s) (sendQueue s)
    (sendBuf s) (recvBuf s) (recvQueue s) (recvChan s) (nextSend s) (nextRecv s) (lastSend
    s) (lastRXTime s) v (nextRetransmissionTime s) (ackOnDataRecv s) (unreadBuf s)
    (uploadBytes s) (downloadBytes s) (rttStat s) (cubicSendAlgorithm s) (remoteWindowSize
    s).
Definition set_nextRetransmissionTime (v : Z) (s : Session T) : Session T :=
  mkSess (id s) (isClient s) (mtu s) (users s) (transportProtocol s) (state s) (status s)
    (sblock s) (userName s) (openSessionRequestSent s) (closeRequested s) (closedChan s)
    (readDeadline s) (writeDeadline s) (inputHasErr s) (outputHasErr s) (sendQueue s)
    (sendBuf s) (recvBuf s) (recvQueue s) (recvChan s) (nextSend s) (nextRecv s) (lastSend
    s) (lastRXTime s) (lastTXTime s) v (ackOnDataRecv s) (unreadBuf s) (uploadBytes s)
    (downloadBytes s) (rttStat s) (cubicSendAlgorithm s) (remoteWindowSize s).
Definition set_ackOnDataRecv (v : bool) (s : Session T) : Session T :=
  mkSess (id s) (isClient s) (mtu s) (users s) (transportProtocol s) (state s) (status s)
    (sblock s) (userName s) (openSessionRequestSent s) (closeRequested s) (closedChan s)
    (readDeadline s) (writeDeadline s) (inputHasErr s) (outputHasErr s) (sendQueue s)
    (sendBuf s) (recvBuf s) (recvQueue s) (recvChan s) (nextSend s) (nextRecv s) (lastSend
    s) (lastRXTime s) (lastTXTime s) (nextRetransmissionTime s) v (unreadBuf s) (uploadBytes
    s) (downloadBytes s) (rttStat s) (cubicSendAlgorithm s) (remoteWindowSize s).
Definition set_unreadBuf (v : bytes) (s : Session T) : Session T :=
  mkSess (id s) (isClient s) (mtu s) (users s) (transportProtocol s) (state s) (status s)
    (sblock s) (userName s) (openSessionRequestSent s) (closeRequested s) (closedChan s)
    (readDeadline s) (writeDeadline s) (inputHasErr s) (outputHasErr s) (sendQueue s)
    (sendBuf s) (recvBuf s) (recvQueue s) (recvChan s) (nextSend s) (nextRecv s) (lastSend
    s) (lastRXTime s) (lastTXTime s) (nextRetransmissionTime s) (ackOnDataRecv s) v
    (uploadBytes s) (downloadBytes s) (rttStat s) (cubicSendAlgorithm s) (remoteWindowSize
    s).
Definition set_uploadBytes (v : option Z) (s : Session T) : Session T :=
  mkSess (id s) (isClient s) (mtu s) (users s) (transportProtocol s) (state s) (status s)
    (sblock s) (userName s) (openSessionRequestSent s) (closeRequested s) (closedChan s)
    (readDeadline s) (writeDeadline s) (inputHasErr s) (outputHasErr s) (sendQueue s)
    (sendBuf s) (recvBuf s) (recvQueue s) (recvChan s) (nextSend s) (nextRecv s) (lastSend
    s) (lastRXTime s) (lastTXTime s) (nextRetransmissionTime s) (ackOnDataRecv s) (unreadBuf
    s) v (downloadBytes s) (rttStat s) (cubicSendAlgorithm s) (remoteWindowSize s).
Definition set_downloadBytes (v : option Z) (s : Session T) : Session T :=
  mkSess (id s) (isClient s) (mtu s) (users s) (transportProtocol s) (state s) (status s)
    (sblock s) (userName s) (openSessionRequestSent s) (closeRequested s) (closedChan s)
    (readDeadline s) (writeDeadline s) (inputHasErr s) (outputHasErr s) (sendQueue s)
    (sendBuf s) (recvBuf s) (recvQueue s) (recvChan s) (nextSend s) (nextRecv s) (lastSend
    s) (lastRXTime s) (lastTXTime s) (nextRetransmissionTime s) (ackOnDataRecv s) (unreadBuf
    s) (uploadBytes s) v (rttStat s) (cubicSendAlgorithm s) (remoteWindowSize s).
Definition set_rttStat (v : RTTStats) (s : Session T) : Session T :=
  mkSess (id s) (isClient s) (mtu s) (users s) (transportProtocol s) (state s) (status s)
    (sblock s) (userName s) (openSessionRequestSent s) (closeRequested s) (closedChan s)
    (readDeadline s) (writeDeadline s) (inputHasErr s) (outputHasErr s) (sendQueue s)
    (sendBuf s) (recvBuf s) (recvQueue s) (recvChan s) (nextSend s) (nextRecv s) (lastSend
    s) (lastRXTime s) (lastTXTime s) (nextRetransmissionTime s) (ackOnDataRecv s) (unreadBuf
    s) (uploadBytes s) (downloadBytes s) v (cubicSendAlgorithm s) (remoteWindowSize s).
Definition set_cubicSendAlgorithm (v : CubicSendAlgorithm) (s : Session T) : Session T :=
  mkSess (id s) (isClient s) (mtu s) (users s) (transportProtocol s) (state s) (status s)
    (sblock s) (userName s) (openSessionRequestSent s) (closeRequested s) (closedChan s)
    (readDeadline s) (writeDeadline s) (inputHasErr s) (outputHasErr s) (sendQueue s)
    (sendBuf s) (recvBuf s) (recvQueue s) (recvChan s) (nextSend s) (nextRecv s) (lastSend
    s) (lastRXTime s) (lastTXTime s) (nextRetransmissionTime s) (ackOnDataRecv s) (unreadBuf
    s) (uploadBytes s) (downloadBytes s) (rttStat s) v (remoteWindowSize s).
Definition set_remoteWindowSize (v : Z) (s : Session T) : Session T :=
  mkSess (id s) (isClient s) (mtu s) (users s) (transportProtocol s) (state s) (status s)
    (sblock s) (userName s) (openSessionRequestSent s) (closeRequested s) (closedChan s)
    (readDeadline s) (writeDeadline s) (inputHasErr s) (outputHasErr s) (sendQueue s)
    (sendBuf s) (recvBuf s) (recvQueue s) (recvChan s) (nextSend s) (nextRecv s) (lastSend
    s) (lastRXTime s) (lastTXTime s) (nextRetransmissionTime s) (ackOnDataRecv s) (unreadBuf
    s) (uploadBytes s) (downloadBytes s) (rttStat s) (cubicSendAlgorithm s) v.
End Setters.

End SessionState.
Export SessionState.
