(* ===== verification/Session.v ===== *)
(** * pkg/protocol/session.go: the operations of a session

    Every method that changes a session, in a state monad over the session and
    the underlay it writes to.  A Go error is a value ([option goerr]) and only
    a panic ends a computation.  The underlay is the class [SegmentWriter].

    Time: one call reads the clock once ([now], in microseconds).  Concurrency:
    each definition is what one goroutine does between two blocking points.
    Where the source sleeps and polls, [others] is what the other goroutines do
    to the session meanwhile, [fuel] bounds the number of polls, and a poll that
    is still not satisfied is reported as blocked.  Where a [select] has several
    ready cases, [sel] chooses.

    [math.Pow(1.5, n)] converted to an integer is [3^n / 2^n] rounded down,
    exactly, for the counts that occur ([n] <= 20). *)

From S2P Require Import Prelude Mathext Float Congestion Metadata Cipher Segment SessionState.

Module Session.

(** What a session needs of its underlay: write a segment at a time, with the
    session's cipher.  The writer updates the segment (padding lengths and
    timestamp) and its own state. *)
Class SegmentWriter (U : Type) :=
  writeOneSegment : Z → option AEADBlockCipher → segment → U → outcome segment * U.

Definition set_ackCount (v : Z) (x : segment) : segment :=
  mkSegment (smeta x) (payload x) (transport x) v (txCount x) (txTime x) (txTimeout x) (block x).
Definition set_tx (ack count time timeout : Z) (x : segment) : segment :=
  mkSegment (smeta x) (payload x) (transport x) ack count time timeout (block x).

(** [das.unAckSeq = v] when the segment is a data segment. *)
Definition set_unAckSeq (v : Z) (x : segment) : segment :=
  match smeta x with
  | MSession _ => x
  | MDataAck das =>
      if isDataAckProtocol (protocol (das_base das)) then
        mkSegment (MDataAck (mkDataAck (das_base das) (das_sessionID das) (das_seq das) v
                     (das_windowSize das) (das_fragment das) (das_prefixLen das)
                     (das_payloadLen das) (das_suffixLen das)))
          (payload x) (transport x) (ackCount x) (txCount x) (txTime x) (txTimeout x) (block x)
      else x
  end.

(** [&segment{metadata: &sessionStruct{...}}] and the data and ack segments. *)
Definition sessionSegment (proto sid seq status : Z) (p : bytes) (tp : TransportProtocol) : segment :=
  mkSegment (MSession (mkSession (mkBase proto 0) sid seq status (u16 (len p)) 0)) p tp 0 0 0 0 None.
Definition dataSegment (proto sid seq unAck window frag : Z) (p : bytes) (tp : TransportProtocol)
  : segment :=
  mkSegment (MDataAck (mkDataAck (mkBase proto 0) sid seq unAck (u16 window) (u8 frag) 0
               (u16 (len p)) 0)) p tp 0 0 0 0 None.

Section Ops.
Context {T : Type} `{BTree T} {U : Type} `{SegmentWriter U}.
Context (cbrt : float → float) (oob : float → Z).
(** Bytes a user transferred in the last days ([None]: no such metric). *)
Context (userBytes : string → option (Z → Z)).

(** ** The monad *)

Definition sess : Type := (Session T * U)%type.
Definition SM (A : Type) : Type := sess → outcome (A * sess).

Definition ret {A} (a : A) : SM A := λ x, Ret (a, x).
Definition bind {A B} (m : SM A) (k : A → SM B) : SM B :=
  λ x, match m x with
       | Ret (a, x) => k a x
       | Err e => Err e
       | Panic p => Panic p
       end.
Definition get {A} (f : Session T → A) : SM A := λ x, Ret (f x.1, x).
Definition upd (f : Session T → Session T) : SM unit := λ x, Ret (tt, (f x.1, x.2)).
Definition crash {A} (msg : string) : SM A := λ _, Panic msg.

Local Notation "'do$' x ':=' m 'in' k" := (bind m (λ x, k))
  (at level 10, x pattern, m at level 100, k at level 200).

(** A tree operation on one of the four trees. *)
Definition onTree {A} (proj : Session T → segmentTree T)
    (set : segmentTree T → Session T → Session T)
    (f : segmentTree T → outcome (A * segmentTree T)) : SM A := λ x,
  match f (proj x.1) with
  | Ret (a, t) => Ret (a, (set t x.1, x.2))
  | Err e => Err e
  | Panic p => Panic p
  end.
Definition onSendQueue {A} (f : segmentTree T → outcome (A * segmentTree T)) : SM A :=
  onTree sendQueue set_sendQueue f.
Definition onSendBuf {A} (f : segmentTree T → outcome (A * segmentTree T)) : SM A :=
  onTree sendBuf set_sendBuf f.
Definition onRecvBuf {A} (f : segmentTree T → outcome (A * segmentTree T)) : SM A :=
  onTree recvBuf set_recvBuf f.
Definition onRecvQueue {A} (f : segmentTree T → outcome (A * segmentTree T)) : SM A :=
  onTree recvQueue set_recvQueue f.

(** ** State *)

Definition isState (target : Z) (s : Session T) : bool := state s =? target.
Definition isStateBefore (target : Z) (include : bool) (s : Session T) : bool :=
  if include then state s <=? target else state s <? target.
Definition isStateAfter (target : Z) (include : bool) (s : Session T) : bool :=
  if include then target <=? state s else target <? state s.

Definition forwardStateTo (next : Z) (s : Session T) : Session T :=
  if next <=? state s then s else set_state next s.

Definition sendWindowSize (s : Session T) : Z :=
  Max 0 (Min (congestionWindow (cubicSendAlgorithm s) - Len (sendBuf s)) (remoteWindowSize s)).
Definition receiveWindowSize (s : Session T) : Z :=
  Max 0 (congestionWindow (cubicSendAlgorithm s) - Len (recvBuf s)).

(** [NewSession]: a panic can only come from the constants. *)
Definition NewSession (now sid : Z) (client : bool) (m : Z) (us : gmap string (list Quota))
  : outcome (Session T) :=
  let! rtt := SetRTOMultiplier f64_1_5 (SetMaxAckDelay periodicOutputInterval NewRTTStats) in
  let! sq := newSegmentTree segmentTreeCapacity in
  let! sb := newSegmentTree segmentTreeCapacity in
  let! rb := newSegmentTree segmentTreeCapacity in
  let! rq := newSegmentTree segmentTreeRecvQueueCapacity in
  let! cubic := NewCubicSendAlgorithm minWindowSize maxWindowSize in
  Ret (mkSess sid client m us UnknownTransport sessionInit statusOK None ""
         false false false 0 0 false false sq sb rb rq []
         0 0 0 now now 0 false [] None None rtt cubic minWindowSize).

(** What [AddSession] does to a session once the base underlay has accepted it. *)
Definition attach (tp : TransportProtocol) (s : Session T) : Session T :=
  forwardStateTo sessionAttached (set_transportProtocol tp s).

(** [SetDeadline] and its two variants; [None] is the zero time. *)
Definition SetReadDeadline (t : option Z) (s : Session T) : Session T :=
  set_readDeadline (match t with Some micros => micros | None => 0 end) s.
Definition SetWriteDeadline (t : option Z) (s : Session T) : Session T :=
  set_writeDeadline (match t with Some micros => micros | None => 0 end) s.
Definition SetDeadline (t : option Z) (s : Session T) : Session T :=
  SetWriteDeadline t (SetReadDeadline t s).

(** ** Output *)

Definition output (now : Z) (seg : segment) : SM (option goerr * segment) := λ x,
  let '(s, u) := x in
  match transportProtocol s with
  | UnknownTransport => Ret (Some (Errorf "unsupported transport protocol %v"), seg, (s, u))
  | tp =>
      let '(r, u) := writeOneSegment now (sblock s) seg u in
      match r with
      | Panic p => Panic p
      | Err e =>
          match tp, e with
          | PacketTransport, ErrNotReady => Ret (None, seg, (s, u))
          | _, _ => Ret (Some (Errorf "writeOneSegment() failed: %v"), seg, (s, u))
          end
      | Ret seg' => Ret (None, seg', (set_lastTXTime now (set_lastSend (Seq seg) s), u))
      end
  end.

(** [closeWithError]: [others] runs while it waits for the close request of a
    graceful close to leave the send queue. *)
Definition closeWithError (others : SM unit) (now : Z) (err : option goerr) : SM unit :=
  do$ requested := get closeRequested in
  if requested then ret tt
  else
    do$ _ := upd (set_closeRequested true) in
    do$ open := get (λ s, isState sessionAttached s || isState sessionEstablished s) in
    do$ _ :=
      (if open then
         do$ s := get (λ s, s) in
         let closeRequestSeq := nextSend s in
         let seg := sessionSegment closeSessionRequest (id s) closeRequestSeq (u8 (status s)) []
                      (transportProtocol s) in
         do$ _ := upd (set_nextSend (u32 (closeRequestSeq + 1))) in
         do$ gracefulCloseSuccess :=
           match err with
           | Some _ => ret false
           | None =>
               do$ ok := onSendQueue (Insert seg) in
               if ok then
                 do$ _ := others in get (λ s, closeRequestSeq <=? lastSend s)
               else ret false
           end in
         if gracefulCloseSuccess then ret tt
         else do$ _ := output now seg in ret tt
       else ret tt) in
    upd (λ s, set_closedChan true (forwardStateTo sessionClosed
           (set_sendBuf (DeleteAll (sendBuf s)) (set_sendQueue (DeleteAll (sendQueue s)) s)))).

(** The reaction to a failed output: mark it and close the session. *)
Definition outputFailed (others : SM unit) (now : Z) (e : goerr) : SM unit :=
  do$ _ := upd (set_outputHasErr true) in closeWithError others now (Some e).

(** ** Read *)

Inductive ioResult (A : Type) :=
| Done (a : A) (err : option goerr)
| Blocked.
Arguments Done {A} a err.
Arguments Blocked {A}.

(** [n = copy(b, s.unreadBuf)] for a buffer of [n] bytes. *)
Definition copyUnread (n : Z) : SM (ioResult bytes) := λ x,
  let '(s, u) := x in
  let out := take (Z.to_nat n) (unreadBuf s) in
  let s := set_unreadBuf (drop (Z.to_nat n) (unreadBuf s)) s in
  let s := if isClient s then s
           else set_uploadBytes (option_map (λ c, c + len out) (uploadBytes s)) s in
  Ret (Done out None, (s, u)).

(** Move the whole receive queue to [unreadBuf]. *)
Fixpoint drainRecvQueue (fuel : nat) : SM unit :=
  match fuel with
  | O => ret tt
  | S fuel =>
      do$ o := onRecvQueue DeleteMin in
      match o with
      | None => ret tt
      | Some seg =>
          do$ _ := upd (λ s,
            let s := if isClient s && (Protocol (smeta seg) =? openSessionResponse) &&
                        isState sessionAttached s
                     then forwardStateTo sessionEstablished s else s in
            set_unreadBuf (unreadBuf s ++ payload seg) s) in
          drainRecvQueue fuel
      end
  end.

(** The ready cases of the [select] of [Read]: [inl e] returns the error,
    [inr tt] takes the event of the receive queue. *)
Definition readCases (now deadline : Z) (s : Session T) : list (goerr + unit) :=
  (if closedChan s then [inl ErrEOF] else []) ++
  (if inputHasErr s then [inl ErrUnexpectedEOF] else []) ++
  (if negb (deadline =? 0) && (deadline <=? now) then [inl ErrTimeout] else []) ++
  (if chanNotEmptyEvent (recvQueue s) then [inr tt] else []).

Fixpoint readLoop (fuel : nat) (sel : nat → nat) (now deadline n : Z) : SM (ioResult bytes) :=
  match fuel with
  | O => ret Blocked
  | S fuel =>
      do$ l := get (λ s, Len (recvQueue s)) in
      if 0 <? l then
        do$ _ := drainRecvQueue (S (Z.to_nat l)) in
        do$ b := get unreadBuf in
        if 0 <? len b then copyUnread n else readLoop fuel sel now deadline n
      else
        do$ cases := get (readCases now deadline) in
        match cases !! (sel fuel `mod` length cases)%nat with
        | None => ret Blocked
        | Some (inl e) => ret (Done [] (Some e))
        | Some (inr _) =>
            do$ _ := upd (λ s, set_recvQueue (takeNotEmptyEvent (recvQueue s)) s) in
            readLoop fuel sel now deadline n
        end
  end.

(** [Read] into a buffer of [n] bytes: at most four rounds of its loop happen
    before it returns or really waits. *)
Definition Read (sel : nat → nat) (now n : Z) : SM (ioResult bytes) :=
  do$ b := get unreadBuf in
  do$ r :=
    (if 0 <? len b then copyUnread n
     else do$ deadline := get readDeadline in readLoop 4 sel now deadline n) in
  match r with
  | Blocked => ret r
  | Done _ _ => do$ _ := upd (set_readDeadline 0) in ret r
  end.

(** ** Write *)

(** The ready cases of the two [select]s of [writeChunk]. *)
Definition writeCases (now deadline : Z) (s : Session T) : list goerr :=
  (if closedChan s then [ErrEOF] else []) ++
  (if outputHasErr s then [ErrClosedPipe] else []) ++
  (if negb (deadline =? 0) && (deadline <=? now) then [ErrTimeout] else []).

Definition chooseError (sel : nat) (cases : list goerr) : option goerr :=
  cases !! (sel `mod` length cases)%nat.

(** Wait until the send queue has room for [nFragment] segments and one more;
    [None] when it still has not after [fuel] polls. *)
Fixpoint waitForRoom (fuel : nat) (sel : nat → nat) (others : SM unit) (now deadline nFragment : Z)
  : SM (option (option goerr)) :=
  match fuel with
  | O => ret None
  | S fuel =>
      do$ r := get (λ s, Remaining (sendQueue s)) in
      if r <=? nFragment then
        do$ cases := get (writeCases now deadline) in
        match chooseError (sel fuel) cases with
        | Some e => ret (Some (Some e))
        | None => do$ _ := others in waitForRoom fuel sel others now deadline nFragment
        end
      else ret (Some None)
  end.

(** The loop over the fragments, [i] from [nFragment - 1] down to 0. *)
Fixpoint writeFragments (sel : nat → nat) (now deadline fragmentSize : Z) (n : nat) (ptr : bytes)
  : SM (option goerr) :=
  match n with
  | O => ret None
  | S i =>
      do$ s := get (λ s, s) in
      match chooseError (sel i) (writeCases now deadline s) with
      | Some e => ret (Some e)
      | None =>
          let proto := if isClient s then dataClientToServer else dataServerToClient in
          let partLen := Min fragmentSize (len ptr) in
          let part := take (Z.to_nat partLen) ptr in
          let seg := dataSegment proto (id s) (nextSend s) (nextRecv s) (receiveWindowSize s)
                       (Z.of_nat i) part (transportProtocol s) in
          do$ _ := upd (set_nextSend (u32 (nextSend s + 1))) in
          do$ ok := onSendQueue (Insert seg) in
          if ok then writeFragments sel now deadline fragmentSize i (drop (Z.to_nat partLen) ptr)
          else ret (Some (Errorf "insert %v to send queue failed"))
      end
  end.

(** Wait until the send queue has been emptied once or has moved. *)
Fixpoint waitForProgress (fuel : nat) (others : SM unit) (seqBeforeWrite : Z) : SM bool :=
  match fuel with
  | O => ret false
  | S fuel =>
      do$ empty := get (λ s, chanEmptyEvent (sendQueue s)) in
      if empty then
        do$ _ := upd (λ s, set_sendQueue (takeEmptyEvent (sendQueue s)) s) in
        ret true
      else
        do$ m := get (λ s, MinSeq (sendQueue s)) in
        match m with
        | Ret seqAfterWrite =>
            if seqBeforeWrite <? seqAfterWrite then ret true
            else do$ _ := others in waitForProgress fuel others seqBeforeWrite
        | _ => ret true
        end
  end.

(** The number of fragments; Go panics on the division by a zero fragment size. *)
Definition fragmentCount (fragmentSize n : Z) : outcome Z :=
  if fragmentSize <? n then
    if fragmentSize =? 0 then Panic "integer divide by zero"
    else Ret (Z.quot (n - 1) fragmentSize + 1)
  else Ret 1.

Definition writeChunk (fuel : nat) (sel : nat → nat) (others : SM unit) (now : Z) (b : bytes)
  : SM (ioResult Z) :=
  if maxPDU <? len b then ret (Done 0 (Some ErrShortWrite))
  else
    do$ s := get (λ s, s) in
    let deadline := writeDeadline s in
    let seqBeforeWrite := match MinSeq (sendQueue s) with Ret q => q | _ => 0 end in
    let fragmentSize := MaxFragmentSize (mtu s) (transportProtocol s) in
    match fragmentCount fragmentSize (len b) with
    | Panic p => crash p
    | Err e => crash "unreachable"
    | Ret nFragment =>
        do$ w := waitForRoom fuel sel others now deadline nFragment in
        match w with
        | None => ret Blocked
        | Some (Some e) => ret (Done 0 (Some e))
        | Some None =>
            do$ e := writeFragments sel now deadline fragmentSize (Z.to_nat nFragment) b in
            match e with
            | Some e => ret (Done 0 (Some e))
            | None =>
                do$ moved := waitForProgress fuel others seqBeforeWrite in
                if moved then
                  do$ _ := upd (λ s, if isClient s
                                     then set_readDeadline (now + serverRespTimeout) s else s) in
                  ret (Done (len b) None)
                else ret Blocked
            end
        end
    end.

(** The loop of [Write] over chunks of [maxPDU] bytes; [n] counts what is
    written. *)
Fixpoint writeChunks (chunks fuel : nat) (sel : nat → nat) (others : SM unit) (now n : Z) (b : bytes)
  : SM (ioResult Z) :=
  match chunks with
  | O => ret (Done n None)
  | S chunks =>
      if 0 <? len b then
        let sizeToSend := Min (len b) maxPDU in
        do$ r := writeChunk fuel sel others now (take (Z.to_nat sizeToSend) b) in
        match r with
        | Blocked => ret Blocked
        | Done sent e =>
            if (sent =? 0) || match e with Some _ => true | None => false end
            then ret (Done n e)
            else writeChunks chunks fuel sel others now (n + sizeToSend)
                   (drop (Z.to_nat sizeToSend) b)
        end
      else ret (Done n None)
  end.

(** The open session request, which carries a small first write. *)
Definition sendOpenRequest (b : bytes) : SM (option (ioResult Z)) :=
  do$ s := get (λ s, s) in
  if isClient s && isState sessionAttached s && negb (openSessionRequestSent s) then
    let p := if len b <=? MaxSessionOpenPayload then b else [] in
    let seg := sessionSegment openSessionRequest (id s) (nextSend s) statusOK p
                 (transportProtocol s) in
    do$ _ := upd (λ s, set_nextSend (u32 (nextSend s + 1)) (set_openSessionRequestSent true s)) in
    do$ ok := onSendQueue (Insert seg) in
    ret (if ok then if 0 <? len p then Some (Done (len p) None) else None
         else Some (Done 0 (Some (Errorf "insert %v to send queue failed"))))
  else ret None.

(** [len b + 1] rounds are more than the chunks of [b]. *)
Definition Write (fuel : nat) (sel : nat → nat) (others : SM unit) (now : Z) (b : bytes)
  : SM (ioResult Z) :=
  do$ s := get (λ s, s) in
  if closeRequested s then ret (Done 0 (Some ErrClosedPipe))
  else if isStateBefore sessionAttached false s
  then ret (Done 0 (Some (Errorf "%v is not ready for Write()")))
  else if isStateAfter sessionClosed true s then ret (Done 0 (Some ErrClosedPipe))
  else
    do$ o := sendOpenRequest b in
    do$ r :=
      match o with
      | Some r => ret r
      | None =>
          do$ r := writeChunks (S (length b)) fuel sel others now 0 b in
          match r with
          | Done n None =>
              do$ _ := upd (λ s, if isClient s then s else
                set_downloadBytes (option_map (λ c, c + n) (downloadBytes s)) s) in
              ret r
          | _ => ret r
          end
      end in
    match r with
    | Blocked => ret r
    | Done _ _ => do$ _ := upd (set_writeDeadline 0) in ret r
    end.

(** ** Input *)

(** [inputData] and [inputAck]: remove what the peer has acknowledged. *)
Fixpoint removeAcked (fuel : nat) (now unAckSeq : Z) : SM unit :=
  match fuel with
  | O => ret tt
  | S fuel =>
      do$ (o, deleted) := onSendBuf (DeleteMinIf (λ iter, Seq iter <? unAckSeq)) in
      match o, deleted with
      | Some seg2, true =>
          do$ _ := upd (λ s,
            set_cubicSendAlgorithm (OnAck cbrt oob now (cubicSendAlgorithm s))
              (set_rttStat (UpdateRTT oob (i64 ((now - txTime seg2) * Microsecond)) (rttStat s)) s)) in
          removeAcked fuel now unAckSeq
      | _, _ => ret tt
      end
  end.

Definition processAck (now : Z) (das : dataAckStruct) : SM unit :=
  do$ l := get (λ s, Len (sendBuf s)) in
  do$ _ := removeAcked (S (Z.to_nat l)) now (das_unAckSeq das) in
  upd (set_remoteWindowSize (das_windowSize das)).

(** Move what is in order from [recvBuf] to [recvQueue]; a segment that was
    received before is dropped. *)
Fixpoint moveInOrder (fuel : nat) : SM (option goerr) :=
  match fuel with
  | O => ret None
  | S fuel =>
      do$ room := get (λ s, Remaining (recvQueue s)) in
      if room <=? 1 then ret None
      else
        do$ next := get nextRecv in
        do$ (o, deleted) := onRecvBuf (DeleteMinIf (λ iter, Seq iter <=? next)) in
        match o, deleted with
        | Some seg3, true =>
            if Seq seg3 =? next then
              do$ ok := onRecvQueue (Insert seg3) in
              if ok then
                do$ _ := upd (λ s,
                  let s := set_nextRecv (u32 (nextRecv s + 1)) s in
                  match smeta seg3 with
                  | MDataAck das => set_remoteWindowSize (das_windowSize das) s
                  | MSession _ => s
                  end) in
                moveInOrder fuel
              else ret (Some (Errorf "inputData() failed: insert %v to receive queue failed"))
            else moveInOrder fuel
        | _, _ => ret None
        end
  end.

(** [checkQuota]: the Boolean result; it is true whenever the quota cannot be
    looked up. *)
Definition quotaOK (us : gmap string (list Quota)) (user : string) : bool :=
  if Nat.eqb (size us) 0 then true
  else
    match us !! user with
    | None | Some [] => true
    | Some quotas =>
        match userBytes user with
        | None => true
        | Some bytesInDays =>
            forallb (λ q, negb (quotaMegabytes q <? Z.quot (bytesInDays (quotaDays q)) 1048576)) quotas
        end
    end.

(** The delivery part of [inputData].  [Done] with an error, or [Blocked] when
    the buffer has no room: only this goroutine takes segments out of [recvBuf]. *)
Definition deliver (now : Z) (seg : segment) : SM (ioResult unit) :=
  do$ tp := get transportProtocol in
  match tp with
  | StreamTransport =>
      do$ room := get (λ s, Remaining (recvQueue s)) in
      if room <=? 1 then ret Blocked
      else
        do$ ok := onRecvQueue (Insert seg) in
        ret (Done tt (if ok then None
                      else Some (Errorf "inputData() failed: insert %v to receive queue failed")))
  | PacketTransport =>
      do$ _ := match smeta seg with MDataAck das => processAck now das | MSession _ => ret tt end in
      do$ room := get (λ s, Remaining (recvBuf s)) in
      if room <=? 1 then ret Blocked
      else
        do$ ok := onRecvBuf (Insert seg) in
        if ok then
          do$ l := get (λ s, Len (recvBuf s)) in
          do$ e := moveInOrder (S (Z.to_nat l)) in
          match e with
          | Some e => ret (Done tt (Some e))
          | None => do$ _ := upd (set_ackOnDataRecv true) in ret (Done tt None)
          end
        else ret (Done tt (Some (Errorf "inputData() failed: insert %v to receive buffer failed")))
  | UnknownTransport => ret (Done tt (Some (Errorf "unsupported transport protocol %v")))
  end.

(** The server's answer to an open request: the response, or a close when the
    user's quota is exhausted. *)
Definition answerOpen (others : SM unit) (now : Z) (seg : segment) : SM (ioResult unit) :=
  do$ s := get (λ s, s) in
  if negb (isClient s) && (Protocol (smeta seg) =? openSessionRequest) &&
     isState sessionAttached s
  then
    if negb (bool_decide (userName s = "")) && negb (quotaOK (users s) (userName s)) then
      do$ _ := upd (set_status statusQuotaExhausted) in
      do$ _ := closeWithError others now None in
      ret (Done tt None)
    else
      let seg4 := sessionSegment openSessionResponse (id s) (nextSend s) statusOK []
                    (transportProtocol s) in
      do$ _ := upd (set_nextSend (u32 (nextSend s + 1))) in
      do$ ok := onSendQueue (Insert seg4) in
      if ok then do$ _ := upd (forwardStateTo sessionEstablished) in ret (Done tt None)
      else ret (Done tt (Some (Errorf "inputData() failed: insert %v to send queue failed")))
  else ret (Done tt None).

Definition inputData (others : SM unit) (now : Z) (seg : segment) : SM (ioResult unit) :=
  do$ r := deliver now seg in
  match r with
  | Done _ None => answerOpen others now seg
  | _ => ret r
  end.

(** Count an acknowledgement for the segment that the peer waits for; the
    iteration stops after it. *)
Definition countAck (unAckSeq : Z) (st : unit) (iter : segment) : unit * segment * bool :=
  if unAckSeq <? Seq iter then (st, iter, false)
  else if Seq iter =? unAckSeq then (st, set_ackCount (u8 (ackCount iter + 1)) iter, true)
  else (st, iter, true).

Definition inputAck (now : Z) (seg : segment) : SM (ioResult unit) :=
  do$ tp := get transportProtocol in
  match tp with
  | StreamTransport => ret (Done tt None)
  | PacketTransport =>
      match smeta seg with
      | MSession _ => crash "interface conversion"
      | MDataAck das =>
          do$ _ := processAck now das in
          do$ _ := upd (λ s,
            set_sendBuf (Ascend (countAck (das_unAckSeq das)) tt (sendBuf s)).2 s) in
          ret (Done tt None)
      end
  | UnknownTransport => ret (Done tt (Some (Errorf "unsupported transport protocol %v")))
  end.

Definition inputClose (others : SM unit) (now : Z) (seg : segment) : SM (ioResult unit) :=
  let p := Protocol (smeta seg) in
  if p =? closeSessionRequest then
    do$ s := get (λ s, s) in
    let seg2 := sessionSegment closeSessionResponse (id s) (nextSend s) statusOK []
                  (transportProtocol s) in
    do$ _ := upd (set_nextSend (u32 (nextSend s + 1))) in
    do$ (e, _) := output now seg2 in
    match e with
    | Some _ => ret (Done tt (Some (Errorf "output() failed: %v")))
    | None => do$ _ := closeWithError others now None in ret (Done tt None)
    end
  else if p =? closeSessionResponse then
    do$ _ := closeWithError others now None in ret (Done tt None)
  else ret (Done tt None).

(** The protocols that a side accepts. *)
Definition acceptsProtocol (client : bool) (p : Z) : bool :=
  if client then (p =? openSessionResponse) || (p =? dataServerToClient) ||
    (p =? ackServerToClient) || (p =? closeSessionRequest) || (p =? closeSessionResponse)
  else (p =? openSessionRequest) || (p =? dataClientToServer) ||
    (p =? ackClientToServer) || (p =? closeSessionRequest) || (p =? closeSessionResponse).

(** The cipher of the segment becomes the session's, its user name must not
    change. *)
Definition adoptBlock (b : AEADBlockCipher) : SM unit :=
  do$ s := get (λ s, s) in
  let next := UserName (ctx b) in
  let adopt :=
    upd (λ s,
      let s := set_sblock (Some b) s in
      let s := if bool_decide (userName s = "") && negb (bool_decide (next = ""))
               then set_userName next s else s in
      if isClient s then s
      else set_uploadBytes (Some (default 0 (uploadBytes s)))
             (set_downloadBytes (Some (default 0 (downloadBytes s))) s)) in
  match sblock s with
  | None => adopt
  | Some prev =>
      if bool_decide (UserName (ctx prev) = "") then crash "%v cipher block user name is not set"
      else if bool_decide (next = "") then crash "%v cipher block user name is not set"
      else if negb (bool_decide (UserName (ctx prev) = next))
      then crash "%v cipher block user name %q is different from %v cipher block user name %q"
      else adopt
  end.

Definition input (others : SM unit) (now : Z) (seg : segment) : SM (ioResult unit) :=
  let p := Protocol (smeta seg) in
  do$ client := get isClient in
  if negb (acceptsProtocol client p) then ret (Done tt (Some ErrInvalidArgument))
  else
    do$ _ := match block seg with Some b => adoptBlock b | None => ret tt end in
    do$ _ := upd (set_lastRXTime now) in
    if (p =? openSessionRequest) || (p =? openSessionResponse) ||
       (p =? dataServerToClient) || (p =? dataClientToServer) then inputData others now seg
    else if (p =? ackServerToClient) || (p =? ackClientToServer) then inputAck now seg
    else if (p =? closeSessionRequest) || (p =? closeSessionResponse) then inputClose others now seg
    else ret (Done tt None).

(** One round of [runInputLoop]: the next segment of [recvChan]. *)
Definition runInputOnce (others : SM unit) (now : Z) : SM (ioResult unit) :=
  do$ q := get recvChan in
  match q with
  | [] => ret Blocked
  | seg :: q =>
      do$ _ := upd (set_recvChan q) in
      do$ r := input others now seg in
      match r with
      | Done _ (Some e) =>
          do$ _ := upd (set_inputHasErr true) in
          do$ _ := closeWithError others now (Some e) in ret r
      | _ => ret r
      end
  end.

(** ** Output loops *)

(** One round of the stream output loop: send the whole queue. *)
Fixpoint sendQueueStream (fuel : nat) (others : SM unit) (now : Z) : SM unit :=
  match fuel with
  | O => ret tt
  | S fuel =>
      do$ o := onSendQueue DeleteMin in
      match o with
      | None => ret tt
      | Some seg =>
          do$ (e, _) := output now seg in
          match e with
          | Some e => outputFailed others now e
          | None => sendQueueStream fuel others now
          end
      end
  end.

Definition runOutputOnceStream (others : SM unit) (now : Z) : SM unit :=
  do$ bad := get outputHasErr in
  if bad then ret tt
  else
    do$ l := get (λ s, Len (sendQueue s)) in
    sendQueueStream (S (Z.to_nat l)) others now.

(** [min(RTO * 1.5^txCount, 10 s)]. *)
Definition backOff (n : Z) : Z := Z.quot (3 ^ n) (2 ^ n).
Definition txTimeoutFor (s : Session T) (count : Z) : Z :=
  Min (i64 (RTO oob (rttStat s) * backOff count)) maxBackOffDuration.

(** The variables that the retransmission iterator of [runOutputOncePacket]
    writes; [rx_sess] is the session and the underlay, [rx_crash] a panic of the
    underlay. *)
Record retransmission := mkRx {
  rx_sess : sess;
  rx_nextTX : Z;
  rx_close : option goerr;
  rx_hasLoss : bool;
  rx_hasTimeout : bool;
  rx_count : Z;
  rx_crash : option string
}.

Definition retransmit (now : Z) (st : retransmission) (iter : segment)
  : retransmission * segment * bool :=
  let '(s, u) := rx_sess st in
  let nextTX := Min (rx_nextTX st) (txTime iter + Z.quot (txTimeout iter) Microsecond) in
  if txCountLimit <=? txCount iter then
    (mkRx (set_outputHasErr true s, u) nextTX (Some (Errorf "too many retransmission of %v"))
       (rx_hasLoss st) (rx_hasTimeout st) (rx_count st) (rx_crash st), iter, false)
  else
    let early := (earlyRetransmission <=? ackCount iter) &&
                 (txCount iter <=? earlyRetransmissionLimit) in
    if early || (Z.quot (txTimeout iter) Microsecond <? now - txTime iter) then
      let hasLoss := if early then true else rx_hasLoss st in
      let hasTimeout := if early then rx_hasTimeout st else true in
      let count := u8 (txCount iter + 1) in
      let iter := set_unAckSeq (nextRecv s) (set_tx 0 count now (txTimeoutFor s count) iter) in
      match output now iter (s, u) with
      | Ret (None, iter, x) =>
          (mkRx x nextTX (rx_close st) hasLoss hasTimeout (rx_count st + 1) (rx_crash st), iter, true)
      | Ret (Some e, iter, (s, u)) =>
          (mkRx (set_outputHasErr true s, u) nextTX (Some e) hasLoss hasTimeout (rx_count st)
             (rx_crash st), iter, false)
      | Panic m =>
          (mkRx (s, u) nextTX (rx_close st) hasLoss hasTimeout (rx_count st) (Some m), iter, false)
      | Err _ => (st, iter, false)
      end
    else
      (mkRx (s, u) nextTX (rx_close st) (rx_hasLoss st) (rx_hasTimeout st) (rx_count st)
         (rx_crash st), iter, true).

(** The first part of [runOutputOncePacket]; returns the number of segments
    sent again. *)
Definition retransmitDue (others : SM unit) (now : Z) : SM Z :=
  do$ due := get (λ s, nextRetransmissionTime s <=? now) in
  if due then
    do$ st := (λ x,
      let st0 := mkRx x (2 ^ 63 - 1) None false false 0 None in
      let '(st, t) := Ascend (retransmit now) st0 (sendBuf x.1) in
      let '(s, u) := rx_sess st in
      match rx_crash st with
      | Some m => Panic m
      | None =>
          let s := set_sendBuf t s in
          let next := if rx_nextTX st =? 2 ^ 63 - 1 then now + 10000 else rx_nextTX st in
          Ret (st, (set_nextRetransmissionTime next s, u))
      end) in
    do$ _ := match rx_close st with
             | Some e => closeWithError others now (Some e)
             | None => ret tt
             end in
    do$ _ := upd (λ s,
      if rx_hasTimeout st then set_cubicSendAlgorithm (OnTimeout (cubicSendAlgorithm s)) s
      else if rx_hasLoss st then set_cubicSendAlgorithm (OnLoss oob now (cubicSendAlgorithm s)) s
      else s) in
    ret (rx_count st)
  else ret 0.

(** The tree holds a pointer to the segment: what the underlay writes to it
    shows in the tree. *)
Definition refresh (seg : segment) (t : segmentTree T) : segmentTree T :=
  set_tr t (bt_replaceOrInsert seg (tr t)).2.

(** The second part: new segments, while the window allows. *)
Fixpoint sendNew (fuel : nat) (others : SM unit) (now total : Z) : SM unit :=
  match fuel with
  | O => ret tt
  | S fuel =>
      do$ room := get (λ s, Remaining (sendBuf s)) in
      if room <=? 1 then ret tt
      else
        do$ window := get sendWindowSize in
        do$ (o, deleted) := onSendQueue (DeleteMinIf (λ _, total <? window)) in
        match o, deleted with
        | Some seg, true =>
            do$ s := get (λ s, s) in
            let count := u8 (txCount seg + 1) in
            let seg := set_unAckSeq (nextRecv s)
                         (set_tx (ackCount seg) count now (txTimeoutFor s count) seg) in
            do$ ok := onSendBuf (Insert seg) in
            if negb ok then
              outputFailed others now (Errorf "output() failed: insert %v to send buffer failed")
            else
              do$ (e, seg) := output now seg in
              match e with
              | Some e => outputFailed others now e
              | None =>
                  do$ _ := upd (λ s, set_sendBuf (refresh seg (sendBuf s)) s) in
                  sendNew fuel others now (total + 1)
              end
        | _, _ => ret tt
        end
  end.

(** The third part: an acknowledgement or a heartbeat. *)
Definition sendAck (others : SM unit) (now : Z) : SM unit :=
  do$ s := get (λ s, s) in
  if ackOnDataRecv s || (sessionHeartbeatInterval <? now - lastTXTime s) then
    let proto := if isClient s then ackClientToServer else ackServerToClient in
    let ackSeg := dataSegment proto (id s) (u32 (Max 0 (nextSend s - 1))) (nextRecv s)
                    (receiveWindowSize s) 0 [] (transportProtocol s) in
    do$ (e, _) := output now ackSeg in
    do$ _ := match e with Some e => outputFailed others now e | None => ret tt end in
    upd (set_ackOnDataRecv false)
  else ret tt.

Definition runOutputOncePacket (others : SM unit) (now : Z) : SM unit :=
  do$ bad := get outputHasErr in
  if bad then ret tt
  else
    do$ total := retransmitDue others now in
    do$ s := get (λ s, s) in
    do$ _ :=
      (if (0 <? Len (sendQueue s)) && negb (sendWindowSize s <=? 0)
       then sendNew (S (Z.to_nat (Len (sendQueue s)))) others now total
       else ret tt) in
    sendAck others now.

(** One round of [runOutputLoop]. *)
Definition runOutputOnce (others : SM unit) (now : Z) : SM unit :=
  do$ tp := get transportProtocol in
  match tp with
  | StreamTransport => runOutputOnceStream others now
  | PacketTransport => runOutputOncePacket others now
  | UnknownTransport => outputFailed others now (Errorf "unsupported transport protocol %v")
  end.
End Ops.

Arguments Done {A} a err.
Arguments Blocked {A}.
Arguments retransmission _ _ : clear implicits.

End Session.
Export Session.
