(* ===== verification/SessionRecv.v ===== *)
(** * Receiving: reassembly of the peer's byte stream

    What [inputData] and [Read] guarantee on a packet transport: segments may
    arrive in any order, more than once, interleaved with reads; the
    application reads the peer's bytes in order, without loss or repetition. *)

From S2P Require Import Prelude Mathext Float Congestion Metadata Cipher Segment SessionState Session.

Module SessionRecv.

(** The payloads of the peer's segments, by sequence number; the stream of the
    first [n] of them. *)
Definition stream (src : Z → bytes) (n : Z) : bytes :=
  concat (map (λ i, src (Z.of_nat i)) (seq 0 (Z.to_nat n))).

Lemma stream_succ src n : 0 ≤ n → stream src (n + 1) = stream src n ++ src n.
Proof.
  intros Hn. unfold stream. replace (Z.to_nat (n + 1)) with (S (Z.to_nat n)) by lia.
  rewrite seq_S, map_app, concat_app. simpl. rewrite app_nil_r. by rewrite Z2Nat.id.
Qed.

Definition payloads (l : list segment) : bytes := concat (map payload l).

Lemma payloads_snoc l x : payloads (l ++ [x]) = payloads l ++ payload x.
Proof. unfold payloads. rewrite map_app, concat_app. simpl. by rewrite app_nil_r. Qed.

(** A segment of the peer carries the payload of its sequence number; the peer
    has sent [N] segments so far. *)
Definition genuine (src : Z → bytes) (N : Z) (x : segment) : Prop :=
  payload x = src (Seq x) ∧ checkProtocolType x = true ∧ 0 ≤ Seq x < N.

(** Segments with numbers in a range are not more than the range. *)
Lemma sorted_count a b l :
  seg_sorted l → Forall (λ x, a ≤ Seq x < b) l → a ≤ b → len l ≤ b - a.
Proof.
  revert a. induction l as [|x l IH]; intros a Hs Hall Hab; [unfold len; simpl; lia|].
  apply seg_sorted_tail in Hs as [Hs Hlt]. apply Forall_cons in Hall as [Hx Hall].
  rewrite len_cons. assert (len l ≤ b - (Seq x + 1)); [|lia]. apply IH; [done| |lia].
  rewrite Forall_forall in *. intros y Hy. specialize (Hlt y Hy). specialize (Hall y Hy).
  unfold seg_lt in Hlt. lia.
Qed.

Section Recv.
Context {T : Type} {HB : BTree T} {HL : BTreeLaws T} {U : Type} {HW : SegmentWriter U}.
Context (cbrt : float → float) (oob : float → Z).
Context (src : Z → bytes) (N : Z) (HN : N < 2 ^ 32).

(** The trees of a session that receiving uses. *)
Definition recv_trees_ok (s : Session T) : Prop :=
  tree_ok (sendBuf s) ∧ tree_ok (recvBuf s) ∧ tree_ok (recvQueue s).

(** [rd] is what the application has read so far. *)
Definition recv_inv (rd : bytes) (s : Session T) : Prop :=
  recv_trees_ok s ∧ 0 ≤ nextRecv s ≤ N ∧
  Forall (genuine src N) (items (recvBuf s)) ∧
  Forall (λ x, 0 ≤ Seq x < nextRecv s) (items (recvQueue s)) ∧
  rd ++ unreadBuf s ++ payloads (items (recvQueue s)) = stream src (nextRecv s).

(** Updates that receiving makes, in one shape. *)
Definition set_acked (c : CubicSendAlgorithm) (r : RTTStats) (w : Z) (t : segmentTree T)
    (s : Session T) : Session T :=
  set_remoteWindowSize w (set_cubicSendAlgorithm c (set_rttStat r (set_sendBuf t s))).

Lemma set_acked_id (s : Session T) :
  set_acked (cubicSendAlgorithm s) (rttStat s) (remoteWindowSize s) (sendBuf s) s = s.
Proof. by destruct s. Qed.

(** The segments that an acknowledgement leaves. *)
Fixpoint dropAcked (q : Z) (l : list segment) : list segment :=
  match l with
  | [] => []
  | x :: l' => if Seq x <? q then dropAcked q l' else l
  end.

Lemma removeAcked_ret fuel now q (s : Session T) (u : U) :
  tree_ok (sendBuf s) → len (items (sendBuf s)) < Z.of_nat fuel →
  ∃ t c r, removeAcked cbrt oob fuel now q (s, u) =
      Ret (tt, (set_acked c r (remoteWindowSize s) t s, u)) ∧
    tree_ok t ∧ cap t = cap (sendBuf s) ∧ items t = dropAcked q (items (sendBuf s)).
Proof.
  revert s. induction fuel as [|fuel IH]; intros s Hok Hf.
  { pose proof (len_nonneg (items (sendBuf s))). lia. }
  cbn [removeAcked]. unfold bind, onSendBuf, onTree. simpl.
  destruct (DeleteMinIf_ok (λ iter, Seq iter <? q) (sendBuf s) Hok)
    as (t & -> & Hok' & Hcap & _ & Hitems & _).
  destruct (items (sendBuf s)) as [|x l] eqn:E; simpl.
  - exists t, (cubicSendAlgorithm s), (rttStat s). by split_and!.
  - destruct (Seq x <? q) eqn:Ex; simpl; [|by exists t, (cubicSendAlgorithm s), (rttStat s)].
    match goal with |- context [removeAcked _ _ _ _ _ (?s1, u)] =>
      destruct (IH s1) as (t' & c & r & Hr & H1 & H2 & H3); simpl in * end.
    + done.
    + rewrite Hitems. rewrite len_cons in Hf. lia.
    + unfold upd. simpl. rewrite Hr. exists t', c, r. rewrite Hitems in H3.
      split_and!; try done. congruence.
Qed.

Lemma processAck_ret now das (s : Session T) (u : U) :
  tree_ok (sendBuf s) →
  ∃ t c r, processAck cbrt oob now das (s, u) =
      Ret (tt, (set_acked c r (das_windowSize das) t s, u)) ∧
    tree_ok t ∧ cap t = cap (sendBuf s) ∧ items t = dropAcked (das_unAckSeq das) (items (sendBuf s)).
Proof.
  intros Hok. unfold processAck, bind, get, upd. cbn [fst snd].
  destruct (removeAcked_ret (S (Z.to_nat (Len (sendBuf s)))) now (das_unAckSeq das) s u Hok)
    as (t & c & r & Hr & H1).
  { rewrite Len_items. pose proof (len_nonneg (items (sendBuf s))). lia. }
  rewrite Hr. simpl. exists t, c, r. done.
Qed.

(** ** Moving segments to the receive queue *)

Definition set_moved (b q : segmentTree T) (n w : Z) (s : Session T) : Session T :=
  set_remoteWindowSize w (set_nextRecv n (set_recvQueue q (set_recvBuf b s))).

(** The sequence numbers that have been received. *)
Definition covered (R : Z → Prop) (s : Session T) : Prop :=
  ∀ q, R q → q < nextRecv s ∨ q ∈ map Seq (items (recvBuf s)).

(** Nothing is left to move, or the receive queue is full. *)
Definition settled (s : Session T) : Prop :=
  Remaining (recvQueue s) ≤ 1 ∨ Forall (λ x, nextRecv s < Seq x) (items (recvBuf s)).

Lemma listInsert_append x l :
  Forall (λ y, Seq y < Seq x) l → listInsert x l = (None, l ++ [x]).
Proof.
  induction 1 as [|y l Hy _ IH]; [done|]. simpl. unfold Less.
  rewrite (proj2 (Z.ltb_ge _ _)), (proj2 (Z.ltb_lt _ _)) by lia. by rewrite IH.
Qed.

Lemma set_moved_id (s : Session T) :
  set_moved (recvBuf s) (recvQueue s) (nextRecv s) (remoteWindowSize s) s = s.
Proof. by destruct s. Qed.

(** One segment taken out of the buffer: dropped when it is old, appended to
    the queue when it is the next one. *)
Lemma recv_inv_drop rd s b x l :
  recv_inv rd s → items (recvBuf s) = x :: l → tree_ok b → items b = l →
  recv_inv rd (set_recvBuf b s).
Proof.
  intros ((H1 & H2 & H3) & H4 & H5 & H6 & H7) E Hb Hl. rewrite E in H5.
  apply Forall_cons in H5 as [_ H5].
  split; [by split_and!|]. split; [done|]. split; [simpl; by rewrite Hl|]. by split.
Qed.

Lemma recv_inv_next rd s b q x l w :
  recv_inv rd s → items (recvBuf s) = x :: l → tree_ok b → items b = l → Seq x = nextRecv s →
  tree_ok q → items q = items (recvQueue s) ++ [x] →
  recv_inv rd (set_moved b q (nextRecv s + 1) w s).
Proof.
  intros ((H1 & H2 & H3) & H4 & H5 & H6 & H7) E Hb Hl Hx Hq Hqi. rewrite E in H5.
  apply Forall_cons in H5 as [Hg H5]. pose proof (proj2 (proj2 Hg)).
  split; [by split_and!|]. split; [simpl; lia|]. split; [simpl; by rewrite Hl|]. split; simpl.
  - rewrite Hqi. apply Forall_app_2; [|constructor; [lia|constructor]].
    eapply Forall_impl; [exact H6|]. simpl. lia.
  - rewrite Hqi, payloads_snoc, stream_succ by lia. rewrite <- H7.
    destruct Hg as (Hp & _). rewrite Hp, Hx. by rewrite !(assoc_L (++)).
Qed.

Definition moved_ok (R : Z → Prop) (rd : bytes) (s s' : Session T) : Prop :=
  recv_inv rd s' ∧ covered R s' ∧ settled s' ∧ cap (recvBuf s') = cap (recvBuf s) ∧
  cap (recvQueue s') = cap (recvQueue s) ∧ nextRecv s ≤ nextRecv s' ∧
  nextRecv s' + len (items (recvBuf s')) ≤ nextRecv s + len (items (recvBuf s)) ∧
  len (items (recvQueue s')) ≤ len (items (recvQueue s)) + len (items (recvBuf s)).

Lemma moveInOrder_ret fuel R rd (s : Session T) (u : U) :
  recv_inv rd s → covered R s → len (items (recvBuf s)) < Z.of_nat fuel →
  ∃ b q n w, moveInOrder fuel (s, u) = Ret (None, (set_moved b q n w s, u)) ∧
    moved_ok R rd s (set_moved b q n w s).
Proof.
  revert s. induction fuel as [|fuel IH]; intros s Hinv Hcov Hf.
  { pose proof (len_nonneg (items (recvBuf s))). lia. }
  assert (∀ b, tree_ok b → items b = items (recvBuf s) → cap b = cap (recvBuf s) →
    settled s → moved_ok R rd s (set_moved b (recvQueue s) (nextRecv s) (remoteWindowSize s) s)) as Hstop.
  { intros b Hb Hi Hcap Hset. destruct Hinv as ((G1 & G2 & G3) & G4 & G5 & G6 & G7).
    pose proof (len_nonneg (items (recvBuf s))).
    unfold moved_ok, recv_inv, recv_trees_ok, covered, settled in *. simpl. rewrite Hi.
    split_and!; auto; lia. }
  cbn [moveInOrder]. unfold bind at 1, get at 1. cbn [fst snd].
  destruct (Remaining (recvQueue s) <=? 1) eqn:Eroom; bool_to_Z.
  { exists (recvBuf s), (recvQueue s), (nextRecv s), (remoteWindowSize s).
    rewrite set_moved_id. split; [done|]. rewrite <- (set_moved_id s) at 2.
    apply Hstop; try done; [apply Hinv|by left]. }
  unfold bind at 1, get at 1. cbn [fst snd]. unfold bind at 1, onRecvBuf, onTree. cbn [fst snd].
  pose proof Hinv as ((_ & Hb & Hq) & Hn & Hg & Hlt & Hstream).
  destruct (DeleteMinIf_ok (λ iter, Seq iter <=? nextRecv s) (recvBuf s) Hb)
    as (t & -> & Ht & Hcap & _ & Hitems & _).
  destruct (items (recvBuf s)) as [|x l] eqn:E; cbn [head].
  { exists t, (recvQueue s), (nextRecv s), (remoteWindowSize s). split; [by destruct s|].
    apply Hstop; try done. right. rewrite E. constructor. }
  rewrite len_cons in Hf. pose proof (len_nonneg l).
  destruct (Seq x <=? nextRecv s) eqn:Ex; bool_to_Z.
  2:{ exists t, (recvQueue s), (nextRecv s), (remoteWindowSize s). split; [by destruct s|].
      apply Hstop; try done. right. rewrite E. constructor; [lia|].
      destruct Hb as (Hsorted & _). rewrite E in Hsorted.
      apply seg_sorted_tail in Hsorted as [_ Hall]. eapply Forall_impl; [exact Hall|].
      unfold seg_lt. lia. }
  assert (Hcov' : ∀ q n', R q → nextRecv s ≤ n' → (Seq x < n') →
    q < n' ∨ q ∈ map Seq l).
  { intros q n' Hr Hn' Hxn. destruct (Hcov q Hr) as [?|Hin]; [left; lia|]. rewrite E in Hin.
    simpl in Hin. apply elem_of_cons in Hin as [->|?]; [by left|by right]. }
  destruct (Seq x =? nextRecv s) eqn:Exx; bool_to_Z.
  - unfold bind at 1, onRecvQueue, onTree. cbn [fst snd].
    apply Forall_cons in Hg as [(_ & Hproto & Hseq) _].
    rewrite Remaining_items in Eroom.
    destruct (Insert_ok x (recvQueue s) Hq Hproto) as (q & Hins & Hq' & Hqcap & Hqi & _); [lia|].
    change (recvQueue (set_recvBuf t s)) with (recvQueue s). rewrite Hins.
    rewrite listInsert_append in Hqi
      by (rewrite Exx; eapply Forall_impl; [exact Hlt|]; simpl; lia). simpl in Hqi.
    unfold bind at 1, upd. cbn [fst snd].
    set (w := match smeta x with MDataAck das => das_windowSize das | MSession _ => remoteWindowSize s end).
    match goal with |- context [moveInOrder fuel (?s1, u)] => set (s1' := s1) end.
    assert (s1' = set_moved t q (nextRecv s + 1) w s) as ->.
    { unfold s1', w. simpl. rewrite u32_small by (unfold in_u32; lia).
      destruct s. by destruct (smeta x). }
    destruct (IH (set_moved t q (nextRecv s + 1) w s)) as (b & q' & n & w' & Hr & Hm).
    + apply (recv_inv_next rd s t q x l w); auto; lia.
    + intros k Hk. simpl. rewrite Hitems. apply Hcov'; [done|lia|lia].
    + simpl. rewrite Hitems. lia.
    + rewrite Hr. exists b, q', n, w'. split; [done|].
      destruct Hm as (M1 & M2 & M3 & M4 & M5 & M6 & M7 & M8). simpl in *.
      rewrite Hitems in *. rewrite Hqi, len_app in M8. change (len [x]) with 1 in M8.
      unfold moved_ok. simpl. rewrite E, len_cons. split_and!; try done; try congruence; lia.
  - destruct (IH (set_recvBuf t s)) as (b & q' & n & w' & Hr & Hm).
    + by apply (recv_inv_drop rd s t x l).
    + intros k Hk. simpl. rewrite Hitems. apply Hcov'; [done|lia|lia].
    + simpl. rewrite Hitems. lia.
    + rewrite Hr. exists b, q', n, w'. split; [done|].
      destruct Hm as (M1 & M2 & M3 & M4 & M5 & M6 & M7 & M8). simpl in *.
      rewrite Hitems in *. unfold moved_ok. simpl. rewrite E, len_cons.
      split_and!; try done; try congruence; lia.
Qed.

(** ** A data segment arrives *)

Lemma listInsert_seqs x l q : q ∈ map Seq (listInsert x l).2 ↔ q = Seq x ∨ q ∈ map Seq l.
Proof.
  induction l as [|y l IH]; simpl; [set_solver|]. unfold Less.
  destruct (Seq x <? Seq y) eqn:E1; [simpl; set_solver|].
  destruct (Seq y <? Seq x) eqn:E2; bool_to_Z.
  - destruct (listInsert x l) as [p l']. simpl in *. rewrite !elem_of_cons, IH. tauto.
  - simpl. assert (Seq y = Seq x) as -> by lia. rewrite !elem_of_cons. tauto.
Qed.

(** The part of the state that receiving does not touch. *)
Definition same_rest (s s' : Session T) : Prop :=
  transportProtocol s' = transportProtocol s ∧ isClient s' = isClient s ∧ id s' = id s ∧
  state s' = state s ∧ unreadBuf s' = unreadBuf s ∧ closedChan s' = closedChan s ∧
  userName s' = userName s ∧ users s' = users s ∧ sblock s' = sblock s ∧ sendQueue s' = sendQueue s ∧ nextSend s' = nextSend s.

Lemma deliver_ret R rd now seg (s : Session T) (u : U) :
  recv_inv rd s → covered R s → transportProtocol s = PacketTransport → genuine src N seg →
  ∃ r s', deliver cbrt oob now seg (s, u) = Ret (r, (s', u)) ∧ recv_inv rd s' ∧ same_rest s s' ∧
    cap (recvBuf s') = cap (recvBuf s) ∧ cap (recvQueue s') = cap (recvQueue s) ∧
    nextRecv s ≤ nextRecv s' ∧
    if Remaining (recvBuf s) <=? 1 then
      r = Blocked ∧ recvBuf s' = recvBuf s ∧ recvQueue s' = recvQueue s ∧ nextRecv s' = nextRecv s
    else
      r = Done tt None ∧ covered (λ q, R q ∨ q = Seq seg) s' ∧ settled s' ∧
      nextRecv s' + len (items (recvBuf s')) ≤ nextRecv s + len (items (recvBuf s)) + 1 ∧
      len (items (recvQueue s')) ≤ len (items (recvQueue s)) + len (items (recvBuf s)) + 1.
Proof.
  intros Hinv Hcov Htp Hgen. unfold deliver. unfold bind at 1, get at 1. cbn [fst snd].
  rewrite Htp.
  assert (∃ t c r w, (match smeta seg with
      | MSession _ => ret tt
      | MDataAck das => processAck cbrt oob now das end) (s, u) =
      Ret (tt, (set_acked c r w t s, u)) ∧ tree_ok t) as (t & c & r & w & Hack & Ht).
  { destruct (smeta seg) as [ss|das].
    - exists (sendBuf s), (cubicSendAlgorithm s), (rttStat s), (remoteWindowSize s).
      rewrite set_acked_id. split; [done|]. apply Hinv.
    - destruct (processAck_ret now das s u) as (t & c & r & H1 & H2 & _); [apply Hinv|].
      by exists t, c, r, (das_windowSize das). }
  unfold bind at 1. rewrite Hack. unfold bind at 1, get at 1. cbn [fst snd].
  set (s1 := set_acked c r w t s).
  assert (recv_inv rd s1) as Hinv1.
  { destruct Hinv as ((G1 & G2 & G3) & G). by split; [split_and!|]. }
  change (recvBuf s1) with (recvBuf s).
  destruct (Remaining (recvBuf s) <=? 1) eqn:Eroom; bool_to_Z.
  { exists Blocked, s1. by split_and!. }
  unfold bind at 1, onRecvBuf, onTree. cbn [fst snd]. change (recvBuf s1) with (recvBuf s).
  destruct Hgen as (Hpay & Hproto & Hseq). rewrite Remaining_items in Eroom.
  destruct (Insert_ok seg (recvBuf s)) as (b & Hins & Hb & Hbcap & Hbi & _);
    [apply Hinv|done|lia|]. rewrite Hins.
  pose proof (listInsert_length seg (items (recvBuf s))) as Hlen.
  pose proof (listInsert_elem seg (items (recvBuf s))) as Helem.
  pose proof (listInsert_seqs seg (items (recvBuf s))) as Hseqs. rewrite <- Hbi in Hlen, Helem, Hseqs.
  assert (len (items b) ≤ len (items (recvBuf s)) + 1) as Hbl.
  { unfold len. rewrite Hlen. destruct (listInsert _ _).1; lia. }
  set (s2 := set_recvBuf b s1).
  assert (recv_inv rd s2) as Hinv2.
  { destruct Hinv1 as ((G1 & G2 & G3) & G4 & G5 & G6 & G7).
    split; [by split_and!|]. split; [done|]. split; [|by split].
    simpl. rewrite Forall_forall in *. intros x Hx. apply Helem in Hx as [->|Hx]; [done|by apply G5]. }
  unfold bind at 1, get at 1. cbn [fst snd]. unfold bind at 1.
  destruct (moveInOrder_ret (S (Z.to_nat (Len (recvBuf s2)))) (λ q, R q ∨ q = Seq seg) rd s2 u Hinv2)
    as (b' & q & n & w' & Hmv & Hm).
  - intros k Hk. simpl. rewrite Hseqs. destruct Hk as [Hk|Hk]; [|by right; left].
    destruct (Hcov k Hk); [by left|by right; right].
  - simpl. rewrite Len_items. pose proof (len_nonneg (items b)). lia.
  - rewrite Hmv. unfold bind, upd, ret. cbn [fst snd]. eexists _, _. split; [done|].
    destruct Hm as (M1 & M2 & M3 & M4 & M5 & M6 & M7 & M8). simpl in *.
    split; [|split; [by split_and!|]].
    + destruct M1 as ((G1 & G2 & G3) & G). by split; [split_and!|].
    + simpl. split_and!; try done; try congruence; lia.
Qed.

(** ** Read *)

Definition set_drained (q : segmentTree T) (st : Z) (b : bytes) (s : Session T) : Session T :=
  set_unreadBuf b (set_state st (set_recvQueue q s)).

Lemma set_drained_id (s : Session T) : set_drained (recvQueue s) (state s) (unreadBuf s) s = s.
Proof. by destruct s. Qed.

Lemma drain_ret fuel (s : Session T) (u : U) :
  tree_ok (recvQueue s) → len (items (recvQueue s)) < Z.of_nat fuel →
  ∃ q st, drainRecvQueue fuel (s, u) =
      Ret (tt, (set_drained q st (unreadBuf s ++ payloads (items (recvQueue s))) s, u)) ∧
    tree_ok q ∧ items q = [] ∧ cap q = cap (recvQueue s) ∧ state s ≤ st.
Proof.
  revert s. induction fuel as [|fuel IH]; intros s Hok Hf.
  { pose proof (len_nonneg (items (recvQueue s))). lia. }
  cbn [drainRecvQueue]. unfold bind at 1, onRecvQueue, onTree. cbn [fst snd].
  destruct (DeleteMin_ok (recvQueue s) Hok) as (q & -> & Hq & Hcap & Hi & _ & _ & Hsame).
  destruct (items (recvQueue s)) as [|x l] eqn:E; cbn [head tail] in *.
  - exists q, (state s). unfold payloads. simpl. rewrite app_nil_r.
    split_and!; try done; try (by destruct s); lia.
  - unfold bind at 1, upd. cbn [fst snd].
    match goal with |- context [drainRecvQueue fuel (?s1, u)] => set (s1' := s1) end.
    assert (∃ st, s1' = set_drained q st (unreadBuf s ++ payload x) s ∧ state s ≤ st)
      as (st & -> & Hst).
    { unfold s1'. clear. destruct s. simpl. case_if.
      - unfold forwardStateTo. simpl. case_if; bool_to_Z; eexists; (split; [done|]); simpl; lia.
      - eexists; split; [done|]. simpl. lia. }
    destruct (IH (set_drained q st (unreadBuf s ++ payload x) s)) as (q' & st' & Hr & H1 & H2 & H3 & H4).
    + done.
    + simpl. rewrite Hi. rewrite len_cons in Hf. lia.
    + rewrite Hr. exists q', st'. simpl in *. rewrite Hi. split_and!; try done; try congruence; [|lia].
      unfold payloads. simpl. by rewrite <- (assoc_L (++)).
Qed.

(** The fields of a session that reading leaves alone. *)
Definition same_user (s s' : Session T) : Prop :=
  transportProtocol s' = transportProtocol s ∧ isClient s' = isClient s ∧
  userName s' = userName s ∧ users s' = users s ∧ sblock s' = sblock s ∧
  sendQueue s' = sendQueue s.

Lemma same_user_trans s1 s2 s3 : same_user s1 s2 → same_user s2 s3 → same_user s1 s3.
Proof. unfold same_user. intuition congruence. Qed.

(** What a call of [Read] leaves: the bytes that it returned are the next ones
    of the stream, and it blocks only when there is nothing to read and no
    event, error or deadline. *)
Definition read_post (rd : bytes) (n now deadline : Z) (s : Session T) (r : ioResult bytes)
    (s' : Session T) : Prop :=
  nextRecv s' = nextRecv s ∧ recvBuf s' = recvBuf s ∧ cap (recvQueue s') = cap (recvQueue s) ∧
  same_user s s' ∧ len (items (recvQueue s')) ≤ len (items (recvQueue s)) ∧
  let avail := if 0 <? len (unreadBuf s) then unreadBuf s
               else payloads (items (recvQueue s)) in
  match r with
  | Done out None => recv_inv (rd ++ out) s' ∧ out = take (Z.to_nat n) avail ∧ avail ≠ []
  | Done out (Some _) => recv_inv rd s' ∧ out = [] ∧ avail = []
  | Blocked => recv_inv rd s' ∧ avail = [] ∧ items (recvQueue s') = [] ∧ readCases now deadline s' = []
  end.

Lemma copyUnread_ret rd n (s : Session T) (u : U) :
  recv_inv rd s →
  ∃ s', copyUnread n (s, u) = Ret (Done (take (Z.to_nat n) (unreadBuf s)) None, (s', u)) ∧
    recv_inv (rd ++ take (Z.to_nat n) (unreadBuf s)) s' ∧ nextRecv s' = nextRecv s ∧
    recvBuf s' = recvBuf s ∧ recvQueue s' = recvQueue s ∧
    same_user s s'.
Proof.
  intros ((G1 & G2 & G3) & G4 & G5 & G6 & G7). unfold copyUnread.
  eexists. split; [done|].
  assert (∀ v : option Z, recv_inv (rd ++ take (Z.to_nat n) (unreadBuf s))
    (set_uploadBytes v (set_unreadBuf (drop (Z.to_nat n) (unreadBuf s)) s))) as Hall.
  { intros v. split; [by split_and!|]. split; [done|]. split; [done|]. split; [done|]. simpl.
    rewrite <- G7. rewrite <- (take_drop (Z.to_nat n) (unreadBuf s)) at 3.
    by rewrite !(assoc_L (++)). }
  case_if; split_and!; try done. specialize (Hall (uploadBytes s)).
  destruct Hall as ((? & ? & ?) & ?). by split; [split_and!|].
Qed.

Lemma readCases_lookup now deadline (s : Session T) (k : nat) :
  match readCases now deadline s !! (k `mod` length (readCases now deadline s))%nat with
  | None => readCases now deadline s = []
  | Some (inl _) => True
  | Some (inr _) => chanNotEmptyEvent (recvQueue s) = true
  end.
Proof.
  destruct (readCases now deadline s !! _) as [[e|[]]|] eqn:E.
  - done.
  - apply list_elem_of_lookup_2 in E. unfold readCases in E. rewrite !elem_of_app in E.
    destruct (closedChan s), (inputHasErr s), (negb (deadline =? 0) && (deadline <=? now)),
      (chanNotEmptyEvent (recvQueue s)); set_solver.
  - apply lookup_ge_None in E. destruct (readCases now deadline s) as [|c l]; [done|].
    pose proof (Nat.mod_upper_bound k (length (c :: l))). simpl in *. lia.
Qed.

(** How many rounds of the loop remain: drain the queue, take a stale event,
    wait. *)
Definition readMeasure (s : Session T) : nat :=
  if 0 <? Len (recvQueue s) then 2 else if chanNotEmptyEvent (recvQueue s) then 1 else 0.

Lemma readLoop_ret fuel rd sel now deadline n (s : Session T) (u : U) :
  recv_inv rd s → unreadBuf s = [] → (readMeasure s < fuel)%nat →
  ∃ r s', readLoop fuel sel now deadline n (s, u) = Ret (r, (s', u)) ∧
    read_post rd n now deadline s r s'.
Proof.
  revert s. induction fuel as [|fuel IH]; intros s Hinv Hun Hf; [lia|].
  pose proof Hinv as ((G1 & G2 & G3) & G4 & G5 & G6 & G7). unfold readMeasure in Hf.
  cbn [readLoop]. unfold bind at 1, get at 1. cbn [fst snd].
  destruct (0 <? Len (recvQueue s)) eqn:El; rewrite Len_items in *; bool_to_Z.
  - destruct (drain_ret (S (Z.to_nat (len (items (recvQueue s))))) s u G3) as
      (q & st & Hd & Hq & Hqi & Hqc & _); [lia|].
    unfold bind at 1. rewrite Hd. unfold bind at 1, get at 1. cbn [fst snd].
    rewrite Hun in *. simpl app. set (s1 := set_drained q st (payloads (items (recvQueue s))) s).
    assert (recv_inv rd s1) as Hinv1.
    { split; [by split_and!|]. split; [done|]. split; [done|]. simpl. rewrite Hqi.
      split; [constructor|]. simpl. rewrite app_nil_r. by rewrite <- G7. }
    change (unreadBuf (set_drained _ _ _ _)) with (payloads (items (recvQueue s))).
    pose proof (len_nonneg (items (recvQueue s))).
    destruct (0 <? len (payloads (items (recvQueue s)))) eqn:Ep; bool_to_Z.
    + destruct (copyUnread_ret rd n s1 u Hinv1) as (s' & -> & P1 & P2 & P3 & P4 & P5).
      eexists _, s'. split; [done|]. unfold read_post. rewrite Hun, P2, P3, P4. simpl.
      rewrite Hqi. split_and!; try done. intros E. by rewrite E in Ep.
    + assert (payloads (items (recvQueue s)) = []) as Enil.
      { apply len_0. pose proof (len_nonneg (payloads (items (recvQueue s)))). lia. }
      destruct (IH s1) as (r & s' & Hr & Hpost); [done|by rewrite <- Enil| |].
      { unfold readMeasure. rewrite Len_items. simpl. rewrite Hqi. simpl. case_if; lia. }
      exists r, s'. split; [done|]. unfold read_post in *. simpl in Hpost. rewrite Hqi, Enil in Hpost.
      rewrite Hun, Enil. simpl in *. destruct Hpost as (P1 & P2 & P3 & P5 & P6 & P7).
      rewrite len_nil in P6. split_and!; try done; try congruence. lia.
  - unfold bind at 1, get at 1. cbn [fst snd].
    assert (items (recvQueue s) = []) as Enil
      by (apply len_0; pose proof (len_nonneg (items (recvQueue s))); lia).
    pose proof (readCases_lookup now deadline s (sel fuel)) as Hcase.
    destruct (readCases now deadline s !! _) as [[e|[]]|].
    + eexists _, s. split; [done|]. unfold read_post. rewrite Hun, Enil. by split_and!.
    + unfold bind at 1, upd. cbn [fst snd].
      set (s1 := set_recvQueue (takeNotEmptyEvent (recvQueue s)) s).
      destruct (IH s1) as (r & s' & Hr & Hpost); [|done| |].
      * split; [exact (conj G1 (conj G2 G3))|]. exact (conj G4 (conj G5 (conj G6 G7))).
      * unfold readMeasure. rewrite Len_items. change (items (recvQueue s1)) with (items (recvQueue s)).
        rewrite Enil. simpl. rewrite Hcase in Hf. lia.
      * exists r, s'. split; [done|]. exact Hpost.
    + eexists _, s. split; [done|]. unfold read_post. rewrite Hun, Enil. by split_and!.
Qed.

Lemma Read_ret rd sel now n (s : Session T) (u : U) :
  recv_inv rd s →
  ∃ r s', Read sel now n (s, u) = Ret (r, (s', u)) ∧ read_post rd n now (readDeadline s) s r s'.
Proof.
  intros Hinv. unfold Read. unfold bind at 1, get at 1. cbn [fst snd].
  assert (∃ r s', (if 0 <? len (unreadBuf s) then copyUnread n
      else bind (get readDeadline) (λ deadline, readLoop 4 sel now deadline n)) (s, u) =
      Ret (r, (s', u)) ∧ read_post rd n now (readDeadline s) s r s') as (r & s' & Hr & Hpost).
  { destruct (0 <? len (unreadBuf s)) eqn:E; bool_to_Z.
    - destruct (copyUnread_ret rd n s u Hinv) as (s' & -> & P1 & P2 & P3 & P4 & P5).
      eexists _, s'. split; [done|]. unfold read_post. rewrite P2, P3, P4.
      rewrite (proj2 (Z.ltb_lt _ _)) by done. split_and!; try done. intros E0. by rewrite E0 in E.
    - unfold bind, get. cbn [fst snd]. apply readLoop_ret; [done| |].
      + apply len_0. pose proof (len_nonneg (unreadBuf s)). lia.
      + unfold readMeasure. repeat case_if; lia. }
  unfold bind at 1. rewrite Hr. destruct r as [out e|]; [|by exists Blocked, s'].
  unfold bind, upd, ret. cbn [fst snd]. eexists _, (set_readDeadline 0 s'). split; [done|].
  destruct Hpost as (P1 & P2 & P3 & P4 & P5 & P6). split_and!; try done.
Qed.

(** ** Runs of arrivals and reads *)

Context (userBytes : string → option (Z → Z)) (others : SM (T := T) (U := U) unit).
Context (user : string).

(** A data or open segment that the underlay hands to the session; the cipher
    that decrypted it, if the underlay says which, is the user's. *)
Definition arrives (client : bool) (seg : segment) : Prop :=
  genuine src N seg ∧ acceptsProtocol client (Protocol (smeta seg)) = true ∧
  ((Protocol (smeta seg) =? openSessionRequest) || (Protocol (smeta seg) =? openSessionResponse) ||
   (Protocol (smeta seg) =? dataServerToClient) || (Protocol (smeta seg) =? dataClientToServer)) = true ∧
  match block seg with None => True | Some b => UserName (ctx b) = user ∧ user ≠ "" end.

(** A packet session of that user, who has quota left. *)
Definition rx_session (s : Session T) : Prop :=
  transportProtocol s = PacketTransport ∧ (userName s = "" ∨ userName s = user) ∧
  match sblock s with None => True | Some b => UserName (ctx b) = user ∧ user ≠ "" end ∧
  quotaOK userBytes (users s) user = true ∧ tree_ok (sendQueue s).

(** The fields that matter to the receiver. *)
Definition same_recv (s s' : Session T) : Prop :=
  isClient s' = isClient s ∧ recvBuf s' = recvBuf s ∧ recvQueue s' = recvQueue s ∧
  nextRecv s' = nextRecv s ∧ unreadBuf s' = unreadBuf s ∧ sendBuf s' = sendBuf s.

Lemma same_recv_inv rd s s' : same_recv s s' → recv_inv rd s → recv_inv rd s'.
Proof.
  intros (E1 & E2 & E3 & E4 & E5 & E6). unfold recv_inv, recv_trees_ok.
  by rewrite E2, E3, E4, E5, E6.
Qed.

Lemma adopt_ret seg (s : Session T) (u : U) :
  rx_session s → match block seg with None => True | Some b => UserName (ctx b) = user ∧ user ≠ "" end →
  ∃ s', (match block seg with Some b => adoptBlock b | None => ret tt end) (s, u) = Ret (tt, (s', u)) ∧
    rx_session s' ∧ same_recv s s'.
Proof.
  intros (H1 & H2 & H3 & H4 & H5) Hb. destruct (block seg) as [b|]; [|by exists s].
  destruct Hb as [Hb Hne]. unfold adoptBlock. unfold bind at 1, get at 1. cbn [fst snd].
  assert (∀ x : outcome (unit * sess), x = (upd (λ s0 : Session T,
      let s1 := set_sblock (Some b) s0 in
      let s1 := if bool_decide (userName s1 = "") && negb (bool_decide (UserName (ctx b) = ""))
               then set_userName (UserName (ctx b)) s1 else s1 in
      if isClient s1 then s1
      else set_uploadBytes (Some (default 0 (uploadBytes s1)))
             (set_downloadBytes (Some (default 0 (downloadBytes s1))) s1))) (s, u) →
    ∃ s', x = Ret (tt, (s', u)) ∧ rx_session s' ∧ same_recv s s') as Hadopt.
  { intros x ->. eexists. split; [done|]. cbn [fst snd]. rewrite Hb.
    rewrite (bool_decide_eq_false_2 (user = "")) by done. simpl.
    destruct s; simpl in *. unfold rx_session, same_recv.
    destruct (bool_decide (userName0 = "")), isClient0; simpl; split_and!; auto. }
  destruct (sblock s) as [p|]; [|by apply Hadopt]. destruct H3 as [H3 _].
  rewrite H3, (bool_decide_eq_false_2 (user = "")) by done.
  rewrite (bool_decide_eq_false_2 (UserName (ctx b) = "")) by congruence.
  rewrite (bool_decide_eq_true_2 (user = UserName (ctx b))) by congruence.
  apply Hadopt. by rewrite (bool_decide_eq_false_2 (UserName (ctx b) = "")) by congruence.
Qed.

Lemma answerOpen_ret now seg (s : Session T) (u : U) :
  rx_session s →
  ∃ r s', answerOpen userBytes others now seg (s, u) = Ret (Done tt r, (s', u)) ∧
    rx_session s' ∧ same_recv s s'.
Proof.
  intros Hs. unfold answerOpen. unfold bind at 1, get at 1. cbn [fst snd].
  destruct (negb (isClient s) && _ && _); [|by exists None, s].
  pose proof Hs as (H1 & H2 & H3 & H4 & H5).
  assert (negb (bool_decide (userName s = "")) && negb (quotaOK userBytes (users s) (userName s)) = false)
    as ->.
  { destruct H2 as [->| ->]; [done|]. rewrite H4. apply andb_false_r. }
  unfold bind at 1, upd at 1, bind at 1, onSendQueue, onTree. cbn [fst snd].
  match goal with |- context [Insert ?x (sendQueue ?y)] => set (seg4 := x);
    change (sendQueue y) with (sendQueue s) end.
  destruct (Z.lt_ge_cases (len (items (sendQueue s))) (cap (sendQueue s))) as [Hr|Hr].
  - destruct (Insert_ok seg4 (sendQueue s) H5) as (t & -> & Ht & _); [done|done|].
    eexists None, _. split; [done|]. unfold forwardStateTo. case_if; by split_and!.
  - rewrite Insert_full by done. eexists (Some _), _. split; [done|]. split; [|by split_and!].
    split_and!; done.
Qed.

Definition received (R : Z → Prop) (q : Z) : Z → Prop := λ k, R k ∨ k = q.

Lemma rx_session_rest s s' : same_rest s s' → rx_session s → rx_session s'.
Proof.
  intros (R1 & R2 & R3 & R4 & R5 & R6 & R7 & R8 & R9 & R10 & R11) H.
  unfold rx_session in *. by rewrite R1, R7, R8, R9, R10.
Qed.

Lemma input_ret R rd now seg (s : Session T) (u : U) :
  recv_inv rd s → covered R s → rx_session s → arrives (isClient s) seg →
  ∃ r s', input cbrt oob userBytes others now seg (s, u) = Ret (r, (s', u)) ∧
    recv_inv rd s' ∧ rx_session s' ∧ isClient s' = isClient s ∧
    cap (recvBuf s') = cap (recvBuf s) ∧ cap (recvQueue s') = cap (recvQueue s) ∧
    covered R s' ∧
    (1 < Remaining (recvBuf s) → covered (received R (Seq seg)) s' ∧ settled s' ∧ r ≠ Blocked).
Proof.
  intros Hinv Hcov Hs (Hgen & Hacc & Hproto & Hblk).
  unfold input. unfold bind at 1, get at 1. cbn [fst snd]. rewrite Hacc. cbn [negb].
  destruct (adopt_ret seg s u Hs Hblk) as (s0 & Hadopt & Hs0 & Hsame).
  unfold bind at 1. rewrite Hadopt. unfold bind at 1, upd at 1. cbn [fst snd].
  rewrite Hproto. set (s1 := set_lastRXTime now s0).
  assert (same_recv s s1) as Hsame1 by done.
  apply (same_recv_inv _ _ _ Hsame1) in Hinv. destruct Hsame1 as (E1 & E2 & E3 & E4 & E5 & E6).
  assert (covered R s1) as Hcov1 by (unfold covered; by rewrite E2, E4).
  destruct (deliver_ret R rd now seg s1 u Hinv Hcov1) as (r & s2 & Hdel & Hinv2 & Hrest & Hc1 & Hc2 & Hn & Hpost);
    [apply Hs0|done|].
  assert (rx_session s2) as Hs2 by (apply (rx_session_rest s1 s2); done).
  unfold inputData. unfold bind at 1. rewrite Hdel. rewrite E2, E3, E4 in *.
  destruct Hrest as (_ & Hcl & _).
  destruct (Remaining (recvBuf s) <=? 1) eqn:Eroom; bool_to_Z.
  - destruct Hpost as (-> & P1 & P2 & P3). exists Blocked, s2. split_and!; try done; try congruence.
    + unfold covered in *. by rewrite P1, P3.
    + lia.
  - destruct Hpost as (-> & P1 & P2 & _).
    destruct (answerOpen_ret now seg s2 u Hs2) as (r' & s3 & -> & Hs3 & Hsame3).
    exists (Done tt r'), s3. split; [done|]. split; [by apply (same_recv_inv _ s2 s3)|].
    destruct Hsame3 as (F1 & F2 & F3 & F4 & F5 & F6).
    unfold covered, settled, received in *. rewrite F1, F2, F3, F4.
    split_and!; try done; try congruence. intros k Hk. apply P1. by left.
Qed.

(** What happens to the receiver: a segment arrives, or the application calls
    [Read] with a buffer of [n] bytes. *)
Inductive rxEvent :=
| Arrival (now : Z) (seg : segment)
| ReadCall (sel : nat → nat) (now n : Z).

Definition readBytes (r : ioResult bytes) : bytes :=
  match r with Done out _ => out | Blocked => [] end.

(** The bytes that the application has read, added to [rd]. *)
Fixpoint rxRun (evs : list rxEvent) (rd : bytes) : SM (T := T) (U := U) bytes :=
  match evs with
  | [] => ret rd
  | Arrival now seg :: evs => bind (input cbrt oob userBytes others now seg) (λ _, rxRun evs rd)
  | ReadCall sel now n :: evs => bind (Read sel now n) (λ r, rxRun evs (rd ++ readBytes r))
  end.

Definition event_ok (client : bool) (ev : rxEvent) : Prop :=
  match ev with Arrival _ seg => arrives client seg | ReadCall _ _ _ => True end.

(** The sequence numbers that arrive. *)
Fixpoint arrivals (evs : list rxEvent) (R : Z → Prop) : Z → Prop :=
  match evs with
  | [] => R
  | Arrival _ seg :: evs => arrivals evs (received R (Seq seg))
  | ReadCall _ _ _ :: evs => arrivals evs R
  end.

Lemma Read_recv rd sel now n (s : Session T) (u : U) :
  recv_inv rd s → rx_session s →
  ∃ r s', Read sel now n (s, u) = Ret (r, (s', u)) ∧ recv_inv (rd ++ readBytes r) s' ∧
    rx_session s' ∧ isClient s' = isClient s ∧ nextRecv s' = nextRecv s ∧
    recvBuf s' = recvBuf s ∧ cap (recvQueue s') = cap (recvQueue s) ∧
    (0 < n → (∃ b, r = Done b None ∧ b ≠ []) ∨
      readBytes r = [] ∧ unreadBuf s = [] ∧ payloads (items (recvQueue s)) = []).
Proof.
  intros Hinv Hs. destruct (Read_ret rd sel now n s u Hinv) as (r & s' & -> & P1 & P2 & P3 & P4 & _ & P5).
  exists r, s'. split; [done|].
  assert (rx_session s') as Hs'.
  { unfold rx_session in *. destruct P4 as (-> & _ & -> & -> & -> & ->). done. }
  destruct P4 as (_ & Hcl & _).
  assert ((if 0 <? len (unreadBuf s) then unreadBuf s else payloads (items (recvQueue s))) = [] →
    unreadBuf s = [] ∧ payloads (items (recvQueue s)) = []) as Havail.
  { destruct (0 <? len (unreadBuf s)) eqn:E; bool_to_Z; intros Hnil.
    - rewrite Hnil in E. unfold len in E. simpl in E. lia.
    - split; [|done]. apply len_0. pose proof (len_nonneg (unreadBuf s)). lia. }
  destruct r as [out [e|]|]; simpl in *.
  - destruct P5 as (Q1 & -> & Q2). rewrite app_nil_r. by split_and!; auto.
  - destruct P5 as (Q1 & Q2 & Q3). split_and!; try done. intros Hn. left. exists out. split; [done|]. intros Hnil. apply Q3.
    rewrite Q2 in Hnil. apply take_nil_inv in Hnil as [?|?]; [lia|done].
  - destruct P5 as (Q1 & Q2 & _). rewrite app_nil_r. by split_and!; auto.
Qed.

Lemma rxRun_safe evs rd (s : Session T) (u : U) :
  recv_inv rd s → rx_session s → Forall (event_ok (isClient s)) evs →
  ∃ out s', rxRun evs rd (s, u) = Ret (out, (s', u)) ∧ recv_inv out s' ∧ rd `prefix_of` out.
Proof.
  revert rd s. induction evs as [|[now seg|sel now n] evs IH]; intros rd s Hinv Hs Hok.
  - by exists rd, s.
  - apply Forall_cons in Hok as [Hev Hok]. cbn [rxRun]. unfold bind at 1.
    destruct (input_ret (λ _, False) rd now seg s u Hinv) as (r & s1 & -> & H1 & H2 & H3 & _); [by intros ? []|done..|].
    apply IH; [done..|by rewrite H3].
  - apply Forall_cons in Hok as [_ Hok]. cbn [rxRun]. unfold bind at 1.
    destruct (Read_recv rd sel now n s u Hinv Hs) as (r & s1 & -> & H1 & H2 & H3 & _).
    destruct (IH (rd ++ readBytes r) s1) as (out & s' & ? & ? & Hpre); [done..|by rewrite H3|].
    exists out, s'. split_and!; try done. etrans; [|exact Hpre]. by apply prefix_app_r.
Qed.

(** While at most 4095 segments have been sent, no buffer of the receiver fills
    up and nothing that could be moved stays in [recvBuf]. *)
Definition rx_live (R : Z → Prop) (rd : bytes) (s : Session T) : Prop :=
  recv_inv rd s ∧ rx_session s ∧ covered R s ∧
  cap (recvBuf s) = segmentTreeCapacity ∧ cap (recvQueue s) = segmentTreeRecvQueueCapacity ∧
  Forall (λ x, nextRecv s < Seq x) (items (recvBuf s)).

Lemma rx_live_room R rd s :
  N ≤ 4095 → rx_live R rd s → 1 < Remaining (recvBuf s).
Proof.
  intros Hsmall (((_ & (Hb & _) & _) & Hn & Hg & _) & _ & _ & Hcap & _ & Hgt).
  rewrite Remaining_items, Hcap. unfold segmentTreeCapacity.
  destruct (items (recvBuf s)) as [|x l] eqn:E; [unfold len; simpl; lia|].
  assert (len (x :: l) ≤ N - (nextRecv s + 1)); [|lia]. apply sorted_count; [done| |].
  - rewrite Forall_forall in *. intros y Hy. specialize (Hgt y Hy). destruct (Hg y Hy) as (_ & _ & ?). lia.
  - apply Forall_cons in Hgt as [? _]. apply Forall_cons in Hg as [(_ & _ & ?) _]. lia.
Qed.

Lemma settled_small rd s :
  N ≤ 4095 → recv_inv rd s → cap (recvQueue s) = segmentTreeRecvQueueCapacity → settled s →
  Forall (λ x, nextRecv s < Seq x) (items (recvBuf s)).
Proof.
  intros Hsmall ((_ & _ & (Hq & _)) & Hn & _ & Hlt & _) Hcap [Hfull|?]; [|done].
  rewrite Remaining_items, Hcap in Hfull. unfold segmentTreeRecvQueueCapacity in Hfull.
  pose proof (sorted_count 0 (nextRecv s) _ Hq Hlt). lia.
Qed.

(** The result of every event: what the underlay's call of [input] and what the
    application's call of [Read] came back with. *)
Inductive rxResult := Took (r : ioResult unit) | Gave (r : ioResult bytes).

Fixpoint rxLog (evs : list rxEvent) : SM (T := T) (U := U) (list rxResult) :=
  match evs with
  | [] => ret []
  | Arrival now seg :: evs =>
      bind (input cbrt oob userBytes others now seg) (λ r, bind (rxLog evs) (λ rs, ret (Took r :: rs)))
  | ReadCall sel now n :: evs => bind (Read sel now n) (λ r, bind (rxLog evs) (λ rs, ret (Gave r :: rs)))
  end.

Definition bytesGiven (rs : list rxResult) : bytes :=
  rs ≫= λ r, match r with Took _ => [] | Gave r => readBytes r end.

(** No segment waits for room: [input] came back. *)
Definition not_held (r : rxResult) : Prop := match r with Took r => r ≠ Blocked | Gave _ => True end.

(** Of reads that follow [rd], each gives a byte at least until all is read. *)
Fixpoint progress (all rd : bytes) (rs : list rxResult) : Prop :=
  match rs with
  | [] => True
  | r :: rs => (rd = all ∨ ∃ b, r = Gave (Done b None) ∧ b ≠ []) ∧ progress all (rd ++ bytesGiven [r]) rs
  end.

Lemma rxLog_live evs R rd (s : Session T) (u : U) :
  N ≤ 4095 → rx_live R rd s → Forall (event_ok (isClient s)) evs →
  ∃ rs s', rxLog evs (s, u) = Ret (rs, (s', u)) ∧ rx_live (arrivals evs R) (rd ++ bytesGiven rs) s' ∧
    length rs = length evs ∧ Forall not_held rs.
Proof.
  intros Hsmall. revert R rd s. induction evs as [|[now seg|sel now n] evs IH]; intros R rd s Hl Hok.
  - exists [], s. cbn. by rewrite app_nil_r.
  - apply Forall_cons in Hok as [Hev Hok]. cbn [rxLog arrivals]. unfold bind at 1.
    pose proof Hl as (L1 & L2 & L3 & L4 & L5 & L6).
    destruct (input_ret R rd now seg s u L1 L3 L2 Hev) as (r & s1 & -> & H1 & H2 & H3 & H4 & H5 & _ & H6).
    destruct (H6 (rx_live_room R rd s Hsmall Hl)) as (H7 & H8 & H9).
    destruct (IH (received R (Seq seg)) rd s1) as (rs & s' & Hr & ? & ? & ?); [|by rewrite H3|].
    { split_and!; try done; try congruence. apply (settled_small rd); [done|done|congruence|done]. }
    exists (Took r :: rs), s'. unfold bind, ret. rewrite Hr. split_and!; [done|done|cbn; lia|by constructor].
  - apply Forall_cons in Hok as [_ Hok]. cbn [rxLog arrivals]. unfold bind at 1.
    destruct Hl as (L1 & L2 & L3 & L4 & L5 & L6).
    destruct (Read_recv rd sel now n s u L1 L2) as (r & s1 & -> & H1 & H2 & H3 & H4 & H5 & H6 & _).
    destruct (IH R (rd ++ readBytes r) s1) as (rs & s' & Hr & ? & ? & ?); [|by rewrite H3|].
    { unfold rx_live, covered in *. rewrite H4, H5, H6. by split_and!. }
    exists (Gave r :: rs), s'. unfold bind, ret. rewrite Hr. split_and!; [done| |cbn; lia|by constructor].
    by rewrite <- app_assoc in *.
Qed.

(** Reads that follow return the rest, at least a byte each. *)
Lemma rxLog_reads k sel now n rd (s : Session T) (u : U) :
  0 < n → recv_inv rd s → rx_session s → nextRecv s = N → (length (stream src N) ≤ length rd + k)%nat →
  ∃ rs s', rxLog (replicate k (ReadCall sel now n)) (s, u) = Ret (rs, (s', u)) ∧
    rd ++ bytesGiven rs = stream src N ∧ progress (stream src N) rd rs ∧ Forall not_held rs.
Proof.
  intros Hpos. revert rd s. induction k as [|k IH]; intros rd s Hinv Hs Hnext Hlen.
  - exists [], s. cbn [replicate rxLog bytesGiven]. unfold ret. pose proof Hinv as (_ & _ & _ & _ & E).
    rewrite Hnext in E. assert (length (unreadBuf s ++ payloads (items (recvQueue s))) = 0%nat) as E0.
    { pose proof (f_equal length E) as El. rewrite length_app in El. lia. }
    apply nil_length_inv in E0. rewrite E0, app_nil_r in E. cbn. by rewrite app_nil_r, E.
  - cbn [replicate rxLog]. unfold bind at 1.
    destruct (Read_recv rd sel now n s u Hinv Hs) as (r & s1 & -> & H1 & H2 & H3 & H4 & H5 & H6 & H7).
    assert (Hgive : (∃ b, r = Done b None ∧ b ≠ []) ∨ rd = stream src N).
    { destruct (H7 Hpos) as [?|(_ & E1 & E2)]; [by left|right]. pose proof Hinv as (_ & _ & _ & _ & E).
      by rewrite Hnext, E1, E2, app_nil_r in E. }
    destruct (IH (rd ++ readBytes r) s1) as (rs & s' & Hr & Hb & Hp & Hh); [done|done|congruence| |].
    { rewrite length_app. destruct Hgive as [(b & -> & Hb)| ->]; [|lia]. destruct b; [done|]. cbn. lia. }
    exists (Gave r :: rs), s'. unfold bind, ret. rewrite Hr. split_and!; [done|by rewrite <- app_assoc in Hb| |by constructor].
    cbn [progress]. unfold bytesGiven. cbn. rewrite app_nil_r. split; [|done].
    destruct Hgive as [(b & -> & ?)|?]; [right; by exists b|by left].
Qed.

Lemma rxLog_app evs evs' x :
  rxLog (evs ++ evs') x =
  match rxLog evs x with
  | Ret (rs, x') => match rxLog evs' x' with Ret (rs', x'') => Ret (rs ++ rs', x'') | Err e => Err e | Panic p => Panic p end
  | Err e => Err e
  | Panic p => Panic p
  end.
Proof.
  revert x. induction evs as [|[now seg|sel now n] evs IH]; intros x; cbn [rxLog app]; unfold bind, ret.
  - by destruct (rxLog evs' x) as [[rs' x'']| |].
  - destruct (input cbrt oob userBytes others now seg x) as [[r x']| |]; [|done|done]. rewrite IH.
    destruct (rxLog evs x') as [[rs x'']| |]; [|done|done]. by destruct (rxLog evs' x'') as [[rs' x3]| |].
  - destruct (Read sel now n x) as [[r x']| |]; [|done|done]. rewrite IH.
    destruct (rxLog evs x') as [[rs x'']| |]; [|done|done]. by destruct (rxLog evs' x'') as [[rs' x3]| |].
Qed.
End Recv.

(** A new session, attached to a packet underlay. *)
Lemma NewSession_fresh {T} {HB : BTree T} {HL : BTreeLaws T} now sid client m us :
  ∃ s : Session T, NewSession now sid client m us = Ret s ∧ isClient s = client ∧ users s = us ∧
    userName s = "" ∧ sblock s = None ∧ nextRecv s = 0 ∧ unreadBuf s = [] ∧
    tree_ok (sendQueue s) ∧ tree_ok (sendBuf s) ∧ tree_ok (recvBuf s) ∧ tree_ok (recvQueue s) ∧
    items (recvBuf s) = [] ∧ items (recvQueue s) = [] ∧
    cap (recvBuf s) = segmentTreeCapacity ∧ cap (recvQueue s) = segmentTreeRecvQueueCapacity.
Proof.
  unfold NewSession.
  destruct (SetRTOMultiplier f64_1_5 (SetMaxAckDelay periodicOutputInterval NewRTTStats)) as [rtt|e|p] eqn:E;
    [|vm_compute in E; discriminate..]. cbn [obind].
  destruct (newSegmentTree segmentTreeCapacity) as [t|e|p] eqn:Et; [|done..]. simpl.
  destruct (newSegmentTree segmentTreeRecvQueueCapacity) as [q|e|p] eqn:Eq; [|done..]. simpl.
  destruct (new_tree_ok _ _ Et) as (H1 & H2 & H3). destruct (new_tree_ok _ _ Eq) as (H4 & H5 & H6).
  injection Eq as <-. eexists. split; [done|]. simpl. by split_and!.
Qed.

Lemma fresh_rx {T} {HB : BTree T} {HL : BTreeLaws T} src N userBytes user now sid client m us :
  0 ≤ N → quotaOK userBytes us user = true →
  ∃ s : Session T, NewSession now sid client m us = Ret s ∧ isClient (attach PacketTransport s) = client ∧
    rx_live src N userBytes user (λ _, False) [] (attach PacketTransport s).
Proof.
  intros HN Hq.
  destruct (NewSession_fresh (T := T) now sid client m us) as
    (s & Hnew & F1 & F2 & F3 & F4 & F5 & F6 & F7 & F8 & F9 & F10 & F11 & F12 & F13 & F14).
  exists s. split; [done|]. unfold attach, forwardStateTo. simpl.
  unfold rx_live, recv_inv, recv_trees_ok, rx_session, covered.
  case_if; simpl; rewrite ?F1, ?F2, ?F3, ?F4, ?F5, ?F6, ?F11, ?F12; split_and!; auto; try lia; by intros ? [].
Qed.

Lemma arrivals_iff evs R q :
  arrivals evs R q ↔ R q ∨ ∃ now seg, Arrival now seg ∈ evs ∧ Seq seg = q.
Proof.
  revert R. induction evs as [|[now seg|sel now n] evs IH]; intros R; simpl.
  - split; [by left|]. intros [?|(? & ? & Hin & _)]; [done|]. by apply not_elem_of_nil in Hin.
  - rewrite IH. unfold received. setoid_rewrite elem_of_cons. split.
    + intros [[?| ->]|(now' & seg' & ? & ?)]; [by left|right; eauto|right; eauto].
    + intros [?|(now' & seg' & [[= -> ->]|?] & <-)]; eauto.
  - rewrite IH. setoid_rewrite elem_of_cons. split.
    + intros [?|(now' & seg' & ? & ?)]; eauto 6.
    + intros [?|(now' & seg' & [?|?] & <-)]; [by left|done|right; eauto].
Qed.

(** C3: reassembly is safe.  A new session of a packet transport receives data
    and open segments of the peer in any order and any number of times, mixed
    with calls of [Read]; whatever the order, nothing panics, and the bytes the
    application has read, followed by those waiting in [unreadBuf] and in
    [recvQueue], are exactly the payloads of the first [nextRecv] segments of
    the peer, in order: no byte is lost, repeated, reordered or made up. *)
Theorem received_stream_is_prefix {T} {HB : BTree T} {HL : BTreeLaws T} {U} {HW : SegmentWriter U}
    cbrt oob userBytes others user src N now sid client m us evs (u : U) :
  0 ≤ N < 2 ^ 32 → quotaOK userBytes us user = true →
  Forall (event_ok src N user client) evs →
  ∃ (s0 s' : Session T) out, NewSession now sid client m us = Ret s0 ∧
    rxRun cbrt oob userBytes others evs [] (attach PacketTransport s0, u) = Ret (out, (s', u)) ∧
    0 ≤ nextRecv s' ≤ N ∧
    out ++ unreadBuf s' ++ payloads (items (recvQueue s')) = stream src (nextRecv s').
Proof.
  intros HN Hq Hok.
  destruct (fresh_rx (T := T) src N userBytes user now sid client m us) as (s & Hnew & Hcl & Hl);
    [lia|done|].
  destruct (rxRun_safe cbrt oob src N ltac:(lia) userBytes others user evs [] (attach PacketTransport s) u)
    as (out & s' & Hr & (_ & H1 & _ & _ & H2) & _); [apply Hl|apply Hl|by rewrite Hcl|].
  by exists s, s', out.
Qed.

(** C4: reassembly is live.  A new session of a packet transport receives at most
    4095 segments (one less than the receive buffer holds), each at least once, in
    whatever order and with whatever duplicates and reads in between: no call of
    [input] is left waiting for room, and of the reads with a non-empty buffer
    that follow, each returns a byte at least and no error until the application
    has read the whole stream and nothing else. *)
Theorem all_segments_delivered {T} {HB : BTree T} {HL : BTreeLaws T} {U} {HW : SegmentWriter U}
    cbrt oob userBytes others user src N now sid client m us evs sel now' n (u : U) :
  0 ≤ N ≤ 4095 → quotaOK userBytes us user = true → 0 < n →
  Forall (event_ok src N user client) evs →
  (∀ q, 0 ≤ q < N → ∃ t seg, Arrival t seg ∈ evs ∧ Seq seg = q) →
  ∃ (s0 s' : Session T) rs rs', NewSession now sid client m us = Ret s0 ∧
    rxLog cbrt oob userBytes others
      (evs ++ replicate (length (stream src N)) (ReadCall sel now' n))
      (attach PacketTransport s0, u) = Ret (rs ++ rs', (s', u)) ∧
    length rs = length evs ∧ Forall not_held (rs ++ rs') ∧
    bytesGiven (rs ++ rs') = stream src N ∧ progress (stream src N) (bytesGiven rs) rs'.
Proof.
  intros HN Hq Hn Hok Hall.
  destruct (fresh_rx (T := T) src N userBytes user now sid client m us) as (s & Hnew & Hcl & Hl);
    [lia|done|].
  destruct (rxLog_live cbrt oob src N ltac:(lia) userBytes others user evs (λ _, False) [] (attach PacketTransport s) u)
    as (rs & s1 & Hr & Hlive & Hlen & Hheld); [lia|exact Hl|by rewrite Hcl|]. cbn [app] in Hlive.
  destruct Hlive as (L1 & L2 & L3 & _ & _ & L6).
  assert (nextRecv s1 = N) as Hnext.
  { destruct (Z.eq_dec (nextRecv s1) N) as [|Hne]; [done|]. exfalso.
    pose proof L1 as (_ & Hrange & _). destruct (L3 (nextRecv s1)) as [?|Hin]; [|lia|].
    - apply arrivals_iff. right. apply Hall. lia.
    - apply list_elem_of_fmap in Hin as (x & Hx & Hin). rewrite Forall_forall in L6.
      specialize (L6 x Hin). lia. }
  destruct (rxLog_reads cbrt oob src N ltac:(lia) userBytes others user (length (stream src N)) sel now' n (bytesGiven rs) s1 u)
    as (rs' & s' & Hr' & Hall' & Hprog & Hheld'); [done..|lia|].
  exists s, s', rs, rs'. split; [done|]. rewrite rxLog_app, Hr, Hr'. split_and!; try done; [by apply Forall_app|].
  unfold bytesGiven in *. by rewrite bind_app.
Qed.

(** ** Witnesses: a client that receives segments 2, 0, 2 and 1 *)

(** An underlay that logs what it is asked to write. *)
Definition logWriter : SegmentWriter (list segment) := λ _ _ seg u, (Ret seg, u ++ [seg]).

Definition demoSrc (q : Z) : bytes := [10 + q; 20 + q].
Definition demoData (q : Z) : segment :=
  dataSegment dataServerToClient 1 q 0 16 0 (demoSrc q) PacketTransport.
Definition demoEvents : list rxEvent :=
  [Arrival 0 (demoData 2); Arrival 1 (demoData 0); ReadCall (λ _, 0%nat) 2 1;
   Arrival 3 (demoData 2); Arrival 4 (demoData 1)].

Lemma demoEvents_ok : Forall (event_ok demoSrc 3 "" true) demoEvents.
Proof. repeat constructor; vm_compute; done. Qed.

Lemma received_stream_is_prefix_witness :
  ∃ (s0 s' : Session (list segment)) out, NewSession 0 1 true 1400 ∅ = Ret s0 ∧
    rxRun (HW := logWriter) (λ x, x) (λ _, 0) (λ _, None) (ret tt) demoEvents [] (attach PacketTransport s0, []) =
      Ret (out, (s', [])) ∧
    0 ≤ nextRecv s' ≤ 3 ∧
    out ++ unreadBuf s' ++ payloads (items (recvQueue s')) = stream demoSrc (nextRecv s').
Proof.
  apply (received_stream_is_prefix (HW := logWriter) (λ x, x) (λ _, 0) (λ _, None) (ret tt) "" demoSrc 3);
    [lia|reflexivity|apply demoEvents_ok].
Defined.

Lemma all_segments_delivered_witness :
  ∃ (s0 s' : Session (list segment)) rs rs', NewSession 0 1 true 1400 ∅ = Ret s0 ∧
    rxLog (HW := logWriter) (λ x, x) (λ _, 0) (λ _, None) (ret tt)
      (demoEvents ++ replicate 6 (ReadCall (λ _, 0%nat) 9 2)) (attach PacketTransport s0, []) = Ret (rs ++ rs', (s', [])) ∧
    length rs = 5%nat ∧ Forall not_held (rs ++ rs') ∧
    bytesGiven (rs ++ rs') = [10; 20; 11; 21; 12; 22] ∧ progress [10; 20; 11; 21; 12; 22] (bytesGiven rs) rs'.
Proof.
  apply (all_segments_delivered (HW := logWriter) (λ x, x) (λ _, 0) (λ _, None) (ret tt) "" demoSrc 3);
    [lia|reflexivity|lia|apply demoEvents_ok|].
  intros q Hq. assert (q = 0 ∨ q = 1 ∨ q = 2) as [-> | [-> | ->]] by lia.
  - exists 1, (demoData 0). split; [|reflexivity]. unfold demoEvents. set_solver.
  - exists 4, (demoData 1). split; [|reflexivity]. unfold demoEvents. set_solver.
  - exists 0, (demoData 2). split; [|reflexivity]. unfold demoEvents. set_solver.
Defined.
End SessionRecv.
Export SessionRecv.
