(* ===== verification/SessionSend.v ===== *)
(** * Sending: from [Write] to the datagrams

    What [Write], the packet output loop and acknowledgements do to the
    sender's queues.  [sent] is the list of the payloads of all the segments
    numbered so far: segment [q] carries [sent !! q].  The invariant: the send
    buffer followed by the send queue holds exactly the segments from the first
    unacknowledged one to the last numbered one, in order, and everything that
    was written to the underlay carries the payload of its number. *)

From S2P Require Import Prelude Mathext Float Congestion Metadata Cipher Segment Padding Wire SessionState Session SessionRecv.

Module SessionSend.

(** ** The interface of the underlay *)

(** A segment that the encoder accepts. *)
Definition seg_ok (x : segment) : Prop :=
  metadata_ok (smeta x) ∧ payloadLenOf (smeta x) = len (payload x).

(** What a writer may change: padding lengths and the timestamp. *)
Definition same_seg (x y : segment) : Prop :=
  same_header (smeta x) (smeta y) ∧ payload y = payload x.

(** [written u] is what has gone out, oldest first; [writer_ok] says that the
    underlay is ready to write. *)
Class WriterLaws (U : Type) {HW : SegmentWriter U} := {
  written : U → list segment;
  writer_ok : U → Prop;
  writer_seq now b seg u seg' u' :
    writeOneSegment now b seg u = (Ret seg', u') → Seq seg' = Seq seg;
  writer_spec now b seg u r u' :
    writer_ok u → seg_ok seg → writeOneSegment now b seg u = (r, u') →
    writer_ok u' ∧
    match r with
    | Ret seg' => written u' = written u ++ [seg'] ∧ same_seg seg seg' ∧ seg_ok seg'
    | Err _ => written u' = written u
    | Panic _ => False
    end
}.

Lemma same_header_Seq x y : same_header (smeta x) (smeta y) → Seq y = Seq x.
Proof. unfold Seq. destruct (smeta x), (smeta y); simpl; try done; intros; by destruct_and!. Qed.
Lemma same_header_Protocol m m' : same_header m m' → Protocol m' = Protocol m.
Proof. destruct m, m'; simpl; try done; intros; by destruct_and!. Qed.

(** ** Numbered segments *)

Definition good (x : segment) : Prop := seg_ok x ∧ checkProtocolType x = true.

(** [l] are the segments [lo], [lo + 1], ... with the payloads [ps]. *)
Fixpoint numbered (lo : Z) (l : list segment) (ps : list bytes) : Prop :=
  match l, ps with
  | [], [] => True
  | x :: l, p :: ps => Seq x = lo ∧ payload x = p ∧ good x ∧ numbered (lo + 1) l ps
  | _, _ => False
  end.

Lemma numbered_length lo l ps : numbered lo l ps → length ps = length l.
Proof.
  revert lo ps. induction l as [|x l IH]; intros lo [|p ps]; simpl; try done.
  intros (_ & _ & _ & H). by rewrite (IH _ _ H).
Qed.

Lemma numbered_app lo l ps l' ps' :
  numbered lo l ps → numbered (lo + len l) l' ps' → numbered lo (l ++ l') (ps ++ ps').
Proof.
  revert lo ps. induction l as [|x l IH]; intros lo [|p ps]; simpl; try done.
  - intros _. by rewrite Z.add_0_r.
  - intros (H1 & H2 & H3 & H4) H. split_and!; try done. apply IH; [done|].
    replace (lo + 1 + len l) with (lo + len (x :: l)); [done|]. rewrite len_cons. lia.
Qed.

Lemma numbered_split lo l l' ps :
  numbered lo (l ++ l') ps →
  ∃ ps1 ps2, ps = ps1 ++ ps2 ∧ numbered lo l ps1 ∧ numbered (lo + len l) l' ps2.
Proof.
  revert lo ps. induction l as [|x l IH]; intros lo ps; simpl.
  - intros H. exists [], ps. split_and!; try done. by rewrite Z.add_0_r.
  - destruct ps as [|p ps]; [done|]. intros (H1 & H2 & H3 & H4).
    destruct (IH _ _ H4) as (ps1 & ps2 & -> & H5 & H6). exists (p :: ps1), ps2.
    split_and!; try done. replace (lo + len (x :: l)) with (lo + 1 + len l); [done|].
    rewrite len_cons. lia.
Qed.

Lemma numbered_range lo l ps :
  numbered lo l ps → Forall (λ x, lo ≤ Seq x < lo + len l) l.
Proof.
  revert lo ps. induction l as [|x l IH]; intros lo [|p ps]; simpl; try done.
  intros (H1 & H2 & H3 & H4). rewrite len_cons. pose proof (len_nonneg l).
  constructor; [lia|]. eapply Forall_impl; [apply (IH _ _ H4)|]. simpl. lia.
Qed.

Lemma numbered_good lo l ps : numbered lo l ps → Forall good l.
Proof.
  revert lo ps. induction l as [|x l IH]; intros lo [|p ps]; simpl; try done.
  intros (_ & _ & H & H'). constructor; [done|]. by apply (IH _ _ H').
Qed.

(** A segment of the list carries the payload of its number. *)
Lemma numbered_lookup past l ps x :
  numbered (len past) l ps → x ∈ l →
  0 ≤ Seq x ∧ (past ++ ps) !! Z.to_nat (Seq x) = Some (payload x).
Proof.
  revert past ps. induction l as [|y l IH]; intros past [|p ps]; simpl; try done.
  - intros _ Hx. by apply not_elem_of_nil in Hx.
  - intros (H1 & H2 & H3 & H4) [->|Hx]%elem_of_cons.
    + pose proof (len_nonneg past). split; [lia|]. rewrite H1, H2. unfold len. rewrite Nat2Z.id.
      by rewrite list_lookup_middle.
    + specialize (IH (past ++ [p]) ps). rewrite len_app in IH. change (len [p]) with 1 in IH.
      rewrite <- (assoc_L (++)) in IH. by apply IH.
Qed.

(** Every number of the range has its segment. *)
Lemma numbered_at past l ps q :
  numbered (len past) l ps → len past ≤ q < len (past ++ ps) →
  ∃ x, x ∈ l ∧ Seq x = q ∧ (past ++ ps) !! Z.to_nat q = Some (payload x).
Proof.
  revert past ps. induction l as [|y l IH]; intros past [|p ps]; simpl; try done.
  - rewrite app_nil_r. lia.
  - intros (H1 & H2 & H3 & H4) Hq. destruct (Z.eq_dec q (len past)) as [->|Hne].
    + exists y. split; [by left|]. split; [done|]. unfold len. rewrite Nat2Z.id, H2.
      by apply list_lookup_middle.
    + destruct (IH (past ++ [p]) ps) as (x & X1 & X2 & X3).
      * rewrite len_app. done.
      * rewrite !len_app in *. rewrite len_cons in Hq. change (len [p]) with 1. lia.
      * rewrite <- (assoc_L (++)) in X3. exists x. split; [by right|done].
Qed.

(** The same numbers and payloads. *)
Definition same_content (x y : segment) : Prop :=
  Seq y = Seq x ∧ payload y = payload x ∧ checkProtocolType y = checkProtocolType x ∧
  (seg_ok x → seg_ok y).

Lemma same_content_refl x : same_content x x.
Proof. by split_and!. Qed.
Lemma same_content_trans x y z : same_content x y → same_content y z → same_content x z.
Proof. unfold same_content. intuition congruence. Qed.
Lemma same_seg_content x y : same_seg x y → seg_ok y → same_content x y.
Proof.
  intros [H1 H2] H3. split_and!; [by apply same_header_Seq|done| |done].
  unfold checkProtocolType. by rewrite (same_header_Protocol _ _ H1).
Qed.
Lemma set_unAckSeq_content v x : in_u32 v → same_content x (set_unAckSeq v x).
Proof.
  intros Hv. unfold set_unAckSeq, same_content, Seq, checkProtocolType, seg_ok.
  destruct (smeta x) as [ss|das] eqn:E; rewrite ?E; [done|].
  destruct (isDataAckProtocol (protocol (das_base das))) eqn:Ep; rewrite ?E; [|done]. simpl.
  split_and!; try done. intros [[Hok _] Hl]. split; [|done]. split; [|done].
  unfold dataack_ok in *. simpl. by destruct_and!; split_and!.
Qed.
Lemma set_tx_content a c t o x : same_content x (set_tx a c t o x).
Proof. by split_and!. Qed.

Lemma numbered_same lo l l' ps : Forall2 same_content l l' → numbered lo l ps → numbered lo l' ps.
Proof.
  intros H. revert lo ps. induction H as [|x y l l' (H1 & H2 & H3 & H4) _ IH]; intros lo [|p ps]; simpl; try done.
  intros (E1 & E2 & [E3 E4] & E5). split_and!; try congruence; auto. split; [auto|congruence].
Qed.

Lemma numbered_dropAcked q lo l ps :
  numbered lo l ps → ∃ k, dropAcked q l = drop k l ∧ (k ≤ length l)%nat ∧
    numbered (lo + Z.of_nat k) (drop k l) (drop k ps) ∧
    (q ≤ lo + Z.of_nat k ∨ k = length l) ∧ (lo + Z.of_nat k ≤ Z.max lo q).
Proof.
  revert lo ps. induction l as [|x l IH]; intros lo [|p ps]; simpl; try done.
  - exists 0%nat. simpl. split_and!; try done; [by right|lia].
  - intros (H1 & H2 & H3 & H4). destruct (Seq x <? q) eqn:E; bool_to_Z.
    + destruct (IH _ _ H4) as (k & K1 & K2 & K3 & K4 & K5). exists (S k). simpl.
      replace (lo + Z.of_nat (S k)) with (lo + 1 + Z.of_nat k) by lia.
      split_and!; try done; [lia|destruct K4; [by left|right; lia]|lia].
    + exists 0%nat. simpl. rewrite Z.add_0_r. split_and!; try done; [lia|left; lia|lia].
Qed.

(** ** The invariant *)

(** What was written carries the payload of its number. *)
Definition log_ok (sent : list bytes) (log : list segment) : Prop :=
  Forall (λ x, checkProtocolType x = true →
    0 ≤ Seq x ∧ sent !! Z.to_nat (Seq x) = Some (payload x)) log.

Lemma log_ok_app sent l l' : log_ok sent (l ++ l') ↔ log_ok sent l ∧ log_ok sent l'.
Proof. apply Forall_app. Qed.
Lemma log_ok_more sent sent' l : log_ok sent l → log_ok (sent ++ sent') l.
Proof.
  intros H. eapply Forall_impl; [exact H|]. simpl. intros x Hx Hp. destruct (Hx Hp) as [H0 H1].
  split; [done|]. by apply lookup_app_l_Some.
Qed.
Lemma log_ok_content sent x y : same_content x y → log_ok sent [x] → log_ok sent [y].
Proof.
  intros (H1 & H2 & H3 & _) [H _]%Forall_cons. constructor; [|constructor].
  by rewrite H1, H2, H3.
Qed.
Lemma log_ok_numbered past ps l x :
  numbered (len past) l ps → x ∈ l → log_ok (past ++ ps) [x].
Proof.
  intros Hn Hx. constructor; [|constructor]. intros _. by apply (numbered_lookup past l ps).
Qed.

(** ** The segments a session makes *)

Lemma sessionSegment_ok proto sid seq st p tp :
  isSessionProtocol proto = true → in_u8 proto → in_u32 sid → in_u32 seq → in_u8 st → len p < 2 ^ 16 →
  seg_ok (sessionSegment proto sid seq st p tp).
Proof.
  intros H1 H2 H3 H4 H5 H6. pose proof (len_nonneg p). split; simpl.
  - split; [|done]. split_and!; try done. simpl. apply u16_range.
  - by rewrite u16_small by (unfold in_u16; lia).
Qed.

Lemma dataSegment_ok proto sid seq una w frag p tp :
  isDataAckProtocol proto = true → in_u8 proto → in_u32 sid → in_u32 seq → in_u32 una → len p < 2 ^ 16 →
  seg_ok (dataSegment proto sid seq una w frag p tp).
Proof.
  intros H1 H2 H3 H4 H5 H6. pose proof (len_nonneg p). split; simpl.
  - split; [|done]. split_and!; try done; simpl; try apply u16_range; apply u8_range.
  - by rewrite u16_small by (unfold in_u16; lia).
Qed.

Section Send.
Context {T : Type} {HB : BTree T} {HL : BTreeLaws T} {U : Type} {HW : SegmentWriter U} {HWL : WriterLaws U}.
Context (cbrt : float → float) (oob : float → Z).
(** The role of the session and a bound on the acknowledgements of its peer. *)
Context (client : bool) (A : Z).

Definition tx_env (s : Session T) : Prop :=
  tree_ok (sendQueue s) ∧ tree_ok (sendBuf s) ∧ transportProtocol s = PacketTransport ∧
  in_u32 (id s) ∧ in_u32 (nextRecv s) ∧ 0 < MaxFragmentSize (mtu s) PacketTransport ∧
  isClient s = client.

Definition tx_open (sent : list bytes) (s : Session T) : Prop :=
  closeRequested s = false ∧ nextSend s = len sent ∧ len sent < 2 ^ 32 ∧
  (isClient s = true → sent = [] ↔ openSessionRequestSent s = false) ∧
  (isClient s = true → sent = [] → state s ≤ sessionAttached) ∧
  ∃ past ps, sent = past ++ ps ∧ len past ≤ Z.max 0 A ∧
    numbered (len past) (items (sendBuf s) ++ items (sendQueue s)) ps.

Definition tx_closed (s : Session T) : Prop :=
  closeRequested s = true ∧ closedChan s = true ∧ items (sendBuf s) = [] ∧ items (sendQueue s) = [].

Definition tx_inv (sent : list bytes) (s : Session T) (u : U) : Prop :=
  tx_env s ∧ writer_ok u ∧ log_ok sent (written u) ∧ (tx_open sent s ∨ tx_closed s).

(** The close request that a session may still number. *)
Definition live (s : Session T) : Z := if closeRequested s then 0 else 1.

(** A round may close the session, which numbers one more, empty segment. *)
Definition grown (sent sent' : list bytes) (s s' : Session T) : Prop :=
  (closeRequested s = true → closeRequested s' = true) ∧ isClient s' = isClient s ∧
  (sent' = sent ∨ sent' = sent ++ [[]] ∧ closeRequested s = false ∧ closeRequested s' = true).

Lemma grown_same sent s s' :
  closeRequested s' = closeRequested s → isClient s' = isClient s → grown sent sent s s'.
Proof. intros E1 E2. split; [by rewrite E1|]. split; [done|by left]. Qed.
Lemma grown_closed sent sent' s s' :
  tx_closed s' → isClient s' = isClient s →
  sent' = sent ∨ sent' = sent ++ [[]] ∧ closeRequested s = false → grown sent sent' s s'.
Proof.
  intros (Hc & _) Hcl H. split; [done|split; [done|]]. destruct H as [->|[-> H]]; [by left|by right].
Qed.
Lemma grown_trans sent1 sent2 sent3 s1 s2 s3 :
  grown sent1 sent2 s1 s2 → grown sent2 sent3 s2 s3 → grown sent1 sent3 s1 s3.
Proof.
  intros (M1 & C1 & H1) (M2 & C2 & H2). split; [auto|]. split; [congruence|].
  destruct H1 as [->|(-> & Hc & Hc')], H2 as [->|(-> & Hd & Hd')]; [by left| |right; auto|congruence].
  right. split_and!; try done. destruct (closeRequested s1); [|done]. by rewrite (M1 eq_refl) in Hd.
Qed.

(** ** Output of one segment *)

Definition set_output (a b : Z) (s : Session T) : Session T := set_lastTXTime a (set_lastSend b s).

Lemma set_output_id (s : Session T) : set_output (lastTXTime s) (lastSend s) s = s.
Proof. by destruct s. Qed.

Lemma output_ret sent now seg (s : Session T) (u : U) :
  transportProtocol s = PacketTransport → writer_ok u → seg_ok seg →
  log_ok sent (written u) → log_ok sent [seg] →
  ∃ r seg' a b u', output now seg (s, u) = Ret (r, seg', (set_output a b s, u')) ∧
    writer_ok u' ∧ same_content seg seg' ∧ log_ok sent (written u').
Proof.
  intros Htp Hu Hseg Hlog Hthis. unfold output. rewrite Htp.
  destruct (writeOneSegment now (sblock s) seg u) as [r u'] eqn:E.
  destruct (writer_spec _ _ _ _ _ _ Hu Hseg E) as [Hu' Hr].
  destruct r as [seg'|e|p]; [| |done].
  - destruct Hr as (Hw & Hsame & Hok'). pose proof (same_seg_content _ _ Hsame Hok') as Hc.
    exists None, seg', now, (Seq seg), u'. split_and!; try done.
    rewrite Hw. apply log_ok_app. split; [done|]. by apply (log_ok_content _ seg).
  - exists (match e with ErrNotReady => None | _ => Some (Errorf "writeOneSegment() failed: %v") end),
      seg, (lastTXTime s), (lastSend s), u'. rewrite set_output_id, Hr.
    split; [by destruct e|]. by split_and!.
Qed.

Lemma output_seq now seg (x : sess (T := T)) r seg' x' :
  output now seg x = Ret (r, seg', x') → Seq seg' = Seq seg.
Proof.
  destruct x as [s u]. unfold output.
  destruct (transportProtocol s); [intros [= <- <- <-]; done| |];
    destruct (writeOneSegment now (sblock s) seg u) as [[seg1|e|p] u1] eqn:E; try done.
  all: try (intros [= <- <- <-]; by apply (writer_seq _ _ _ _ _ _ E)).
  - intros [= <- <- <-]; done.
  - destruct e; intros [= <- <- <-]; done.
Qed.

(** ** Closing after an error *)

Lemma tx_env_output a b s : tx_env s → tx_env (set_output a b s).
Proof. done. Qed.

Lemma closed_after s :
  tx_env s → closeRequested s = true →
  let s' := set_closedChan true (forwardStateTo sessionClosed
       (set_sendBuf (DeleteAll (sendBuf s)) (set_sendQueue (DeleteAll (sendQueue s)) s))) in
  tx_env s' ∧ tx_closed s' ∧ isClient s' = isClient s.
Proof.
  intros (H1 & H2 & H3 & H4 & H5 & H6 & H7) Hreq. simpl.
  destruct (DeleteAll_ok (sendQueue s) H1) as (Q1 & Q2 & Q3 & _).
  destruct (DeleteAll_ok (sendBuf s) H2) as (B1 & B2 & B3 & _).
  unfold forwardStateTo. case_if; unfold tx_env, tx_closed; split_and!; done.
Qed.

Lemma close_ret others now e sent (s : Session T) (u : U) :
  tx_inv sent s u →
  ∃ sent' s' u', closeWithError others now (Some e) (s, u) = Ret (tt, (s', u')) ∧
    tx_inv sent' s' u' ∧ tx_closed s' ∧ isClient s' = isClient s ∧
    (sent' = sent ∨ sent' = sent ++ [[]] ∧ closeRequested s = false).
Proof.
  intros (Henv & Hu & Hlog & Hcase). unfold closeWithError. unfold bind at 1, get at 1. cbn [fst snd].
  destruct Hcase as [Hopen|Hclosed].
  2:{ pose proof Hclosed as (-> & _). exists sent, s, u. split; [done|split; [|split; [done|split; [done|by left]]]].
      split_and!; try done. by right. }
  destruct Hopen as (Hreq & Hnext & Hlt & _). rewrite Hreq.
  unfold bind at 1, upd at 1. cbn [fst snd]. unfold bind at 1, get at 1. cbn [fst snd].
  set (s1 := set_closeRequested true s). assert (tx_env s1) as Henv1 by done.
  unfold bind at 1. destruct (isState sessionAttached s1 || isState sessionEstablished s1).
  - unfold bind at 1, get at 1. cbn [fst snd]. unfold bind at 1, upd at 1. cbn [fst snd].
    unfold bind at 1, ret at 1. cbv iota beta.
    set (s2 := set_nextSend (u32 (nextSend s1 + 1)) s1).
    match goal with |- context [output now ?x] => set (seg := x) end.
    destruct (output_ret (sent ++ [[]]) now seg s2 u) as (r & seg' & a & b & u' & Hout & Hu' & _ & Hlog').
    + apply Henv.
    + done.
    + pose proof (len_nonneg sent). apply sessionSegment_ok; try done; try apply u8_range; [apply Henv|].
      unfold in_u32. simpl. lia.
    + by apply log_ok_more.
    + constructor; [|constructor]. intros _. simpl. change (Seq seg) with (nextSend s). rewrite Hnext.
      split; [apply len_nonneg|]. unfold len. rewrite Nat2Z.id. by apply list_lookup_middle.
    + unfold bind at 1. rewrite Hout. unfold ret, upd. cbn [fst snd].
      destruct (closed_after (set_output a b s2)) as (E1 & E2 & E3); [done..|].
      eexists (sent ++ [[]]), _, u'. split; [done|]. split; [|split; [exact E2|split; [exact E3|by right]]].
      split_and!; try done. by right.
  - unfold ret, upd. cbn [fst snd]. destruct (closed_after s1) as (E1 & E2 & E3); [done..|].
    eexists sent, _, u. split; [done|]. split; [|split; [exact E2|split; [exact E3|by left]]].
    split_and!; try done. by right.
Qed.

Lemma outputFailed_ret others now e sent (s : Session T) (u : U) :
  tx_inv sent s u →
  ∃ sent' s' u', outputFailed others now e (s, u) = Ret (tt, (s', u')) ∧
    tx_inv sent' s' u' ∧ grown sent sent' s s'.
Proof.
  intros H. unfold outputFailed. unfold bind, upd. cbn [fst snd].
  destruct (close_ret others now e sent (set_outputHasErr true s) u) as (sent' & s' & u' & Hr & H1 & H2 & H3 & H4).
  - destruct H as (H1 & H2 & H3 & [H4|H4]); split_and!; try done; [by left|by right].
  - exists sent', s', u'. split; [done|split; [done|]]. by apply grown_closed.
Qed.

(** ** Fields that do not matter, and a new send buffer *)

Definition same_tx (s s' : Session T) : Prop :=
  sendQueue s' = sendQueue s ∧ sendBuf s' = sendBuf s ∧
  transportProtocol s' = transportProtocol s ∧ id s' = id s ∧ nextRecv s' = nextRecv s ∧
  mtu s' = mtu s ∧ closeRequested s' = closeRequested s ∧ closedChan s' = closedChan s ∧
  nextSend s' = nextSend s ∧ isClient s' = isClient s ∧
  openSessionRequestSent s' = openSessionRequestSent s ∧ state s' = state s.

Lemma tx_inv_same sent s s' u : same_tx s s' → tx_inv sent s u → tx_inv sent s' u.
Proof.
  intros (E1 & E2 & E3 & E4 & E5 & E6 & E7 & E8 & E9 & E10 & E11 & E12).
  unfold tx_inv, tx_env, tx_open, tx_closed. by rewrite E1, E2, E3, E4, E5, E6, E7, E8, E9, E10, E11, E12.
Qed.

Lemma Forall2_same_refl l : Forall2 same_content l l.
Proof. induction l; constructor; [apply same_content_refl|done]. Qed.

Lemma tx_inv_buf sent s t u :
  tx_inv sent s u → tree_ok t → Forall2 same_content (items (sendBuf s)) (items t) →
  tx_inv sent (set_sendBuf t s) u.
Proof.
  intros ((H1 & H2 & H3) & Hu & Hlog & Hcase) Ht Hsame. split; [by split|]. split; [done|]. split; [done|].
  destruct Hcase as [(O1 & O2 & O3 & O4 & O4' & past & ps & O5 & O5' & O6)|(C1 & C2 & C3 & C4)].
  - left. split_and!; try done. exists past, ps. split; [done|split; [done|]]. simpl.
    eapply numbered_same; [|exact O6]. apply Forall2_app; [done|apply Forall2_same_refl].
  - right. rewrite C3 in Hsame. apply Forall2_nil_inv_l in Hsame. by split_and!.
Qed.

(** The segments that wait for an acknowledgement may be written again. *)
Lemma tx_inv_buf_ok sent s u :
  tx_inv sent s u → Forall (λ x, seg_ok x ∧ log_ok sent [x]) (items (sendBuf s)).
Proof.
  intros (_ & _ & _ & [(_ & _ & _ & _ & _ & past & ps & -> & _ & Hn)|(_ & _ & -> & _)]); [|constructor].
  pose proof (numbered_good _ _ _ Hn) as Hg. rewrite Forall_forall in *. intros x Hx. split.
  - apply Hg. apply elem_of_app. by left.
  - apply (log_ok_numbered past ps _ x Hn). apply elem_of_app. by left.
Qed.

(** ** Retransmission *)

Lemma listAscend_inv {S} (I : S → Prop) (Q : segment → Prop) (f : S → segment → S * segment * bool) st l :
  (∀ st x, I st → Q x → I (f st x).1.1 ∧ same_content x (f st x).1.2) →
  I st → Forall Q l → I (listAscend f st l).1 ∧ Forall2 same_content l (listAscend f st l).2.
Proof.
  intros Hf. revert st. induction l as [|x l IH]; intros st Hst Hl; simpl; [done|].
  apply Forall_cons in Hl as [Hx Hl]. destruct (Hf st x Hst Hx) as [H1 H2].
  destruct (f st x) as [[st' x'] [|]]; simpl in *.
  - destruct (IH st' H1 Hl) as [H3 H4]. destruct (listAscend f st' l). simpl in *.
    split; [done|]. by constructor.
  - split; [done|]. constructor; [done|]. apply Forall2_same_refl.
Qed.

Definition rx_ok (sent : list bytes) (s : Session T) (st : retransmission T U) : Prop :=
  same_tx s (rx_sess st).1 ∧ writer_ok (rx_sess st).2 ∧ log_ok sent (written (rx_sess st).2) ∧
  rx_crash st = None.

Lemma retransmit_seq now (st : retransmission T U) x : Seq (retransmit oob now st x).1.2 = Seq x.
Proof.
  unfold retransmit. destruct (rx_sess st) as [s u]. case_if; [done|]. case_if; [|done].
  assert (∀ v c t o, Seq (set_unAckSeq v (set_tx 0 c t o x)) = Seq x) as Hs.
  { intros. unfold set_unAckSeq, Seq. simpl. destruct (smeta x) as [ss|das] eqn:E; simpl; rewrite ?E; [done|].
    case_if; simpl; rewrite ?E; done. }
  destruct (output now _ (s, u)) as [[[[e|] x'] [s' u']]|e|m] eqn:E; simpl; rewrite ?Hs; try done;
    by rewrite (output_seq _ _ _ _ _ _ E), Hs.
Qed.

Lemma retransmit_ok sent (s : Session T) now (st : retransmission T U) x :
  tx_env s → rx_ok sent s st → seg_ok x ∧ log_ok sent [x] →
  rx_ok sent s (retransmit oob now st x).1.1 ∧ same_content x (retransmit oob now st x).1.2.
Proof.
  intros Henv (H1 & H2 & H3 & H4) [Hx Hlx]. unfold retransmit, rx_ok.
  destruct (rx_sess st) as [s1 u1] eqn:Es. cbn [fst snd] in H1, H2, H3.
  case_if; [simpl; split; [|apply same_content_refl]; split_and!; try done; apply H1|].
  case_if; [|simpl; split; [|apply same_content_refl]; by split_and!].
  match goal with |- context [output now ?y] => set (x1 := y) end.
  assert (same_content x x1) as Hc.
  { eapply same_content_trans; [apply set_tx_content|]. apply set_unAckSeq_content.
    destruct H1 as (_ & _ & _ & _ & -> & _). apply Henv. }
  destruct (output_ret sent now x1 s1 u1) as (r & x2 & a & b & u2 & Hout & Hu2 & Hc2 & Hlog2).
  - destruct H1 as (_ & _ & -> & _). apply Henv.
  - done.
  - by apply Hc.
  - done.
  - by apply (log_ok_content _ x).
  - rewrite Hout. pose proof (same_content_trans _ _ _ Hc Hc2).
    destruct r; simpl; (split; [|done]); split_and!; try done; apply H1.
Qed.

Lemma retransmitDue_ret others now sent (s : Session T) (u : U) :
  tx_inv sent s u →
  ∃ n sent' s' u', retransmitDue oob others now (s, u) = Ret (n, (s', u')) ∧
    tx_inv sent' s' u' ∧ grown sent sent' s s'.
Proof.
  intros Hinv. unfold retransmitDue. unfold bind at 1, get at 1. cbn [fst snd].
  destruct (nextRetransmissionTime s <=? now); [|exists 0, sent, s, u; split; [done|]; split; [done|by apply grown_same]].
  set (st0 := mkRx (s, u) (2 ^ 63 - 1) None false false 0 None).
  pose proof Hinv as (Henv & Hu & Hlog & _).
  destruct (Ascend_ok (retransmit oob now) st0 (sendBuf s)) as (A1 & A2 & A3 & _);
    [apply Henv|intros; apply retransmit_seq|].
  destruct (listAscend_inv (rx_ok sent s) (λ x, seg_ok x ∧ log_ok sent [x]) (retransmit oob now) st0
    (items (sendBuf s))) as [B1 B2].
  { intros st x Hst Hx. by apply retransmit_ok. }
  { by split_and!. }
  { by apply (tx_inv_buf_ok sent s u). }
  rewrite <- A1 in B1. rewrite <- A2 in B2.
  unfold bind at 1. fold st0. cbn [fst snd]. destruct (Ascend (retransmit oob now) st0 (sendBuf s)) as [st t].
  simpl in B1, B2, A3. destruct B1 as (C1 & C2 & C3 & C4).
  destruct (rx_sess st) as [s1 u1]. simpl in C1, C2, C3. rewrite C4. cbv iota beta zeta.
  match goal with |- context [set_nextRetransmissionTime ?v _] => set (next := v) end.
  assert (tx_inv sent (set_nextRetransmissionTime next (set_sendBuf t s1)) u1) as Hinv1.
  { apply (tx_inv_same sent (set_sendBuf t s)).
    - destruct C1 as (E1 & E2 & E3 & E4 & E5 & E6 & E7 & E8 & E9 & E10 & E11 & E12). by split_and!.
    - apply tx_inv_buf; [|done|done]. destruct Hinv as (I1 & I2 & I3 & I4). by split_and!. }
  set (s2 := set_nextRetransmissionTime next (set_sendBuf t s1)) in *.
  assert (∃ sent' s' u', (match rx_close st with
      | Some e => closeWithError others now (Some e) | None => ret tt end) (s2, u1) = Ret (tt, (s', u')) ∧
      tx_inv sent' s' u' ∧ grown sent sent' s s') as (sent' & s3 & u3 & Hr & Hinv3 & Hg).
  { destruct (rx_close st) as [e|].
    - destruct (close_ret others now e sent s2 u1 Hinv1) as (sent' & s' & u' & Hr & G1 & G2 & G3 & G4).
      exists sent', s', u'. split; [done|split; [done|]]. apply grown_closed; [done| |].
      { rewrite G3. apply C1. }
      destruct G4 as [G4|[G4 G5]]; [by left|right]. split; [done|].
      assert (closeRequested s2 = closeRequested s) as <- by apply C1. done.
    - exists sent, s2, u1. split; [done|split; [done|apply grown_same; simpl; apply C1]]. }
  unfold bind at 1. rewrite Hr. unfold bind, upd, ret. cbn [fst snd].
  eexists _, sent', _, u3. split; [done|].
  destruct (rx_hasTimeout st), (rx_hasLoss st); done.
Qed.

(** ** New segments *)

Lemma tx_move sent s u x q y b t :
  tx_inv sent s u → items (sendQueue s) = x :: q → same_content x y →
  tree_ok b → items b = items (sendBuf s) ++ [y] → tree_ok t → items t = q →
  tx_inv sent (set_sendBuf b (set_sendQueue t s)) u.
Proof.
  intros ((H1 & H2 & H3) & Hu & Hlog & Hcase) E Hc Hb Eb Ht Et.
  split; [by split|]. split; [done|]. split; [done|]. left.
  destruct Hcase as [(O1 & O2 & O3 & O4 & O4' & past & ps & O5 & O5' & O6)|(_ & _ & _ & C4)]; [|congruence].
  split_and!; try done. exists past, ps. split; [done|split; [done|]]. simpl. rewrite Eb, Et, <- (assoc_L (++)).
  eapply numbered_same; [|exact O6]. rewrite E.
  apply Forall2_app; [apply Forall2_same_refl|]. constructor; [done|apply Forall2_same_refl].
Qed.

(** The first segment of the queue is newer than the buffer. *)
Lemma tx_head_new sent s u x q :
  tx_inv sent s u → items (sendQueue s) = x :: q →
  good x ∧ log_ok sent [x] ∧ Forall (λ y, Seq y < Seq x) (items (sendBuf s)).
Proof.
  intros (_ & _ & _ & [(_ & _ & _ & _ & _ & past & ps & -> & _ & Hn)|(_ & _ & _ & C4)]) E; [|congruence].
  rewrite E in Hn.
  assert (x ∈ items (sendBuf s) ++ x :: q) as Hin by (apply elem_of_app; right; by left).
  split; [|split].
  - pose proof (numbered_good _ _ _ Hn) as Hg. rewrite Forall_forall in Hg. by apply Hg.
  - by apply (log_ok_numbered past ps _ x Hn).
  - destruct (numbered_split _ _ _ _ Hn) as (ps1 & [|p ps2] & -> & N1 & N2); [done|].
    destruct N2 as (N2 & _). eapply Forall_impl; [apply (numbered_range _ _ _ N1)|]. simpl. lia.
Qed.

Lemma listInsert_replace l x y :
  Forall (λ z, Seq z < Seq x) l → Seq y = Seq x → listInsert y (l ++ [x]) = (Some x, l ++ [y]).
Proof.
  intros Hl Hy. induction Hl as [|z l Hz _ IH]; simpl; unfold Less.
  - rewrite Hy, Z.ltb_irrefl. done.
  - rewrite (proj2 (Z.ltb_ge _ _)), (proj2 (Z.ltb_lt _ _)) by lia. by rewrite IH.
Qed.

Lemma refresh_ok y x l (t : segmentTree T) :
  tree_ok t → items t = l ++ [x] → Forall (λ z, Seq z < Seq x) l → Seq y = Seq x →
  tree_ok (refresh y t) ∧ items (refresh y t) = l ++ [y].
Proof.
  intros (H1 & H2 & H3) E Hl Hy. unfold refresh, tree_ok.
  assert (items (set_tr t (bt_replaceOrInsert y (tr t)).2) = l ++ [y]) as Ei.
  { destruct (bt_items_insert y (tr t) H1) as [_ Hi]. unfold items at 1. simpl. rewrite Hi.
    fold (items t). rewrite E. by rewrite (listInsert_replace l x y). }
  rewrite Ei. split; [|done]. split_and!; [|done|].
  - apply seg_sorted_seqs. rewrite map_app. simpl. rewrite Hy.
    change [Seq x] with (map Seq [x]). rewrite <- map_app, <- E. by apply seg_sorted_seqs.
  - simpl. rewrite E in H3. rewrite len_app in *. done.
Qed.

Lemma sendNew_ret fuel others now total sent (s : Session T) (u : U) :
  tx_inv sent s u →
  ∃ sent' s' u', sendNew oob fuel others now total (s, u) = Ret (tt, (s', u')) ∧
    tx_inv sent' s' u' ∧ grown sent sent' s s'.
Proof.
  revert total s u. induction fuel as [|fuel IH]; intros total s u Hinv.
  { exists sent, s, u. split; [done|split; [done|by apply grown_same]]. }
  cbn [sendNew]. unfold bind at 1, get at 1. cbn [fst snd].
  destruct (Remaining (sendBuf s) <=? 1) eqn:Eroom; bool_to_Z.
  { exists sent, s, u. split; [done|split; [done|by apply grown_same]]. }
  unfold bind at 1, get at 1. cbn [fst snd]. unfold bind at 1, onSendQueue, onTree. cbn [fst snd].
  pose proof Hinv as ((Q1 & Q2 & Q3) & Hu & Hlog & _).
  destruct (DeleteMinIf_ok (λ _, total <? sendWindowSize s) (sendQueue s) Q1)
    as (t & -> & Ht & _ & _ & Hi & Hsame & _).
  destruct (items (sendQueue s)) as [|x q] eqn:E; cbn [head].
  { rewrite (Hsame eq_refl). exists sent, s, u. split; [by destruct s|split; [done|by apply grown_same]]. }
  destruct (total <? sendWindowSize s).
  2:{ exists sent, (set_sendQueue t s), u. split; [done|]. split; [|by apply grown_same].
      destruct Hinv as ((I1 & I2 & I3) & I4 & I5 & I6). split_and!; try done.
      unfold tx_open, tx_closed in *. simpl. by rewrite Hi, <- E. }
  unfold bind at 1, get at 1. cbn [fst snd].
  destruct (tx_head_new sent s u x q Hinv E) as ([Hok Hproto] & Hlx & Hlt).
  match goal with |- context [Insert ?y] => set (x1 := y) end.
  assert (same_content x x1) as Hc.
  { eapply same_content_trans; [apply set_tx_content|]. apply set_unAckSeq_content. apply Q3. }
  pose proof Hc as (Hseq & _ & Hp1 & Hok1).
  unfold bind at 1, onSendBuf, onTree. cbn [fst snd]. rewrite Remaining_items in Eroom.
  change (sendBuf (set_sendQueue t s)) with (sendBuf s).
  destruct (Insert_ok x1 (sendBuf s) Q2) as (b & -> & Hb & _ & Hbi & _); [congruence|lia|].
  rewrite listInsert_append in Hbi by (by rewrite Hseq). simpl in Hbi. cbn [negb].
  pose proof (tx_move sent s u x q x1 b t Hinv E Hc Hb Hbi Ht Hi) as Hinv1.
  unfold bind at 1.
  set (s1 := set_sendBuf b (set_sendQueue t s)) in *.
  destruct (output_ret sent now x1 s1 u) as (r & x2 & a & c & u2 & Hout & Hu2 & Hc2 & Hlog2);
    [apply Q3|done|by apply Hok1|done|by apply (log_ok_content _ x)|].
  rewrite Hout.
  assert (tx_inv sent (set_output a c s1) u2) as Hinv2.
  { destruct Hinv1 as (I1 & I2 & I3 & I4). by split_and!. }
  destruct r as [e|]; [exact (outputFailed_ret others now e sent _ u2 Hinv2)|].
  unfold bind at 1, upd at 1. cbn [fst snd]. refine (IH _ _ _ _).
  destruct (refresh_ok x2 x1 (items (sendBuf s)) b Hb Hbi) as [R1 R2];
    [by rewrite Hseq|apply Hc2|].
  apply tx_inv_buf; [done|done|]. change (sendBuf (set_output a c s1)) with b. rewrite R2, Hbi.
  apply Forall2_app; [apply Forall2_same_refl|]. constructor; [done|constructor].
Qed.

(** ** Acknowledgements and the whole round *)

Lemma sendAck_ret others now sent (s : Session T) (u : U) :
  tx_inv sent s u →
  ∃ sent' s' u', sendAck others now (s, u) = Ret (tt, (s', u')) ∧
    tx_inv sent' s' u' ∧ grown sent sent' s s'.
Proof.
  intros Hinv. unfold sendAck. unfold bind at 1, get at 1. cbn [fst snd].
  case_if; [|exists sent, s, u; split; [done|split; [done|by apply grown_same]]].
  match goal with |- context [output now ?y] => set (x := y) end.
  pose proof Hinv as ((_ & _ & Q3 & Q4 & Q5 & _) & Hu & Hlog & _).
  assert (seg_ok x ∧ checkProtocolType x = false) as [Hx Hp].
  { unfold x. destruct (isClient s); (split; [|done]); apply dataSegment_ok; try done; apply u32_range. }
  destruct (output_ret sent now x s u) as (r & x2 & a & c & u2 & Hout & Hu2 & Hc2 & Hlog2); try done.
  { constructor; [by rewrite Hp|constructor]. }
  unfold bind at 1. rewrite Hout.
  assert (tx_inv sent (set_output a c s) u2) as Hinv2.
  { destruct Hinv as (I1 & I2 & I3 & I4). by split_and!. }
  assert (∃ sent' s' u', (match r with Some e => outputFailed others now e | None => ret tt end)
      (set_output a c s, u2) = Ret (tt, (s', u')) ∧ tx_inv sent' s' u' ∧ grown sent sent' s s')
    as (sent' & s' & u' & Hr & H1 & H2).
  { destruct r as [e|]; [exact (outputFailed_ret others now e sent _ u2 Hinv2)|]. eexists sent, _, u2. split; [done|split; [done|by apply grown_same]]. }
  unfold bind at 1. rewrite Hr. unfold upd. cbn [fst snd]. by exists sent', (set_ackOnDataRecv false s'), u'.
Qed.


Lemma runOutputOncePacket_ret others now sent (s : Session T) (u : U) :
  tx_inv sent s u →
  ∃ sent' s' u', runOutputOncePacket oob others now (s, u) = Ret (tt, (s', u')) ∧
    tx_inv sent' s' u' ∧ grown sent sent' s s'.
Proof.
  intros Hinv. unfold runOutputOncePacket. unfold bind at 1, get at 1. cbn [fst snd].
  case_if; [exists sent, s, u; split; [done|split; [done|by apply grown_same]]|].
  destruct (retransmitDue_ret others now sent s u Hinv) as (n & sent1 & s1 & u1 & Hr1 & I1 & G1).
  unfold bind at 1. rewrite Hr1. unfold bind at 1, get at 1. cbn [fst snd].
  assert (∃ sent' s' u', (if (0 <? Len (sendQueue s1)) && negb (sendWindowSize s1 <=? 0)
      then sendNew oob (S (Z.to_nat (Len (sendQueue s1)))) others now n else ret tt) (s1, u1) =
      Ret (tt, (s', u')) ∧ tx_inv sent' s' u' ∧ grown sent1 sent' s1 s')
    as (sent2 & s2 & u2 & Hr2 & I2 & G2).
  { case_if; [by apply sendNew_ret|]. exists sent1, s1, u1. split; [done|split; [done|by apply grown_same]]. }
  unfold bind at 1. rewrite Hr2.
  destruct (sendAck_ret others now sent2 s2 u2 I2) as (sent3 & s3 & u3 & Hr3 & I3 & G3).
  exists sent3, s3, u3. split; [done|split; [done|]]. eapply grown_trans; [eapply grown_trans|]; done.
Qed.

Lemma runOutputOnce_ret others now sent (s : Session T) (u : U) :
  tx_inv sent s u →
  ∃ sent' s' u', runOutputOnce oob others now (s, u) = Ret (tt, (s', u')) ∧
    tx_inv sent' s' u' ∧ grown sent sent' s s'.
Proof.
  intros Hinv. unfold runOutputOnce. unfold bind at 1, get at 1. cbn [fst snd].
  pose proof Hinv as ((_ & _ & -> & _) & _). by apply runOutputOncePacket_ret.
Qed.

(** An acknowledgement removes segments from the front of the buffer. *)
Lemma tx_ack sent s u q t c r w :
  tx_inv sent s u → q ≤ A → tree_ok t → items t = dropAcked q (items (sendBuf s)) →
  tx_inv sent (set_acked c r w t s) u.
Proof.
  intros ((H1 & H2 & H3) & Hu & Hlog & Hcase) HA Ht Hi. split; [by split|]. split; [done|]. split; [done|].
  destruct Hcase as [(O1 & O2 & O3 & O4 & O4' & past & ps & O5 & O5' & O6)|(C1 & C2 & C3 & C4)].
  - left. split_and!; try done.
    destruct (numbered_split _ _ _ _ O6) as (ps1 & ps2 & -> & N1 & N2).
    destruct (numbered_dropAcked q _ _ _ N1) as (k & Hd & Hk & N3 & _ & Hmax).
    pose proof (numbered_length _ _ _ N1) as Hl1.
    exists (past ++ take k ps1), (drop k ps1 ++ ps2).
    assert (len (past ++ take k ps1) = len past + Z.of_nat k) as ->.
    { rewrite len_app. unfold len at 2. rewrite length_take. lia. }
    split; [|split; [lia|]].
    + rewrite O5, <- (assoc_L (++)). f_equal. by rewrite (assoc_L (++)), take_drop.
    + simpl. rewrite Hi, Hd. apply numbered_app; [done|].
      replace (len past + Z.of_nat k + len (drop k (items (sendBuf s)))) with (len past + len (items (sendBuf s)));
        [done|]. unfold len. rewrite length_drop. lia.
  - right. split_and!; try done. simpl. by rewrite Hi, C3.
Qed.

Lemma countAck_content q st x : same_content x (countAck q st x).1.2.
Proof. unfold countAck. repeat case_if; apply same_content_refl || by split_and!. Qed.

Lemma inputAck_ret now das seg sent (s : Session T) (u : U) :
  tx_inv sent s u → smeta seg = MDataAck das → das_unAckSeq das ≤ A →
  ∃ s', inputAck cbrt oob now seg (s, u) = Ret (Done tt None, (s', u)) ∧
    tx_inv sent s' u ∧ grown sent sent s s'.
Proof.
  intros Hinv Hm HA. unfold inputAck. unfold bind at 1, get at 1. cbn [fst snd].
  pose proof Hinv as ((_ & Q2 & -> & _) & _). rewrite Hm.
  destruct (processAck_ret cbrt oob now das s u Q2) as (t & c & r & Hp & Ht & _ & Hi).
  unfold bind at 1. rewrite Hp. unfold bind, upd, ret. cbn [fst snd].
  eexists. split; [done|]. split; [|by apply grown_same].
  pose proof (tx_ack sent s u _ t c r (das_windowSize das) Hinv HA Ht Hi) as Hinv1.
  destruct (Ascend_ok (countAck (das_unAckSeq das)) tt t Ht) as (_ & A2 & A3 & _).
  { intros [] x. apply countAck_content. }
  apply tx_inv_buf; [done|exact A3|]. change (sendBuf (set_acked _ _ _ t s)) with t. rewrite A2.
  apply (listAscend_inv (λ _, True) (λ _, True)); [|done|by apply Forall_true].
  intros [] x _ _. split; [done|apply countAck_content].
Qed.

Lemma input_ack_ret userBytes others now das seg sent (s : Session T) (u : U) :
  tx_inv sent s u → smeta seg = MDataAck das → das_unAckSeq das ≤ A → block seg = None →
  (Protocol (smeta seg) = if isClient s then ackServerToClient else ackClientToServer) →
  ∃ s', input cbrt oob userBytes others now seg (s, u) = Ret (Done tt None, (s', u)) ∧
    tx_inv sent s' u ∧ grown sent sent s s'.
Proof.
  intros Hinv Hm HA Hb Hp. unfold input. unfold bind at 1, get at 1. cbn [fst snd]. rewrite Hp, Hb.
  destruct (isClient s) eqn:Ec; simpl; unfold bind, ret, upd; cbn [fst snd];
    by apply (inputAck_ret now das seg sent (set_lastRXTime now s)).
Qed.

(** ** Queueing segments *)

Lemma tx_push sent s u t seg :
  tx_inv sent s u → closeRequested s = false → (isClient s = true → openSessionRequestSent s = true) →
  len sent + 1 < 2 ^ 32 → good seg → Seq seg = nextSend s →
  tree_ok t → items t = items (sendQueue s) ++ [seg] →
  tx_inv (sent ++ [payload seg]) (set_sendQueue t (set_nextSend (u32 (nextSend s + 1)) s)) u.
Proof.
  intros ((H1 & H2 & H3) & Hu & Hlog & Hcase) Hreq Hopened Hlt Hg Hq Ht Hi.
  destruct Hcase as [(O1 & O2 & O3 & O4 & O4' & past & ps & O5 & O5' & O6)|(C1 & _)]; [|congruence].
  split; [by split|]. split; [done|]. split; [by apply log_ok_more|]. left.
  pose proof (len_nonneg sent). unfold tx_open. simpl.
  assert (len (sent ++ [payload seg]) = len sent + 1) as -> by (by rewrite len_app).
  split_and!; try done.
  - rewrite O2, u32_small by (unfold in_u32; lia). done.
  - intros Hc. rewrite (Hopened Hc). split; [|done]. intros E. by destruct sent.
  - intros _ E. by destruct sent.
  - exists past, (ps ++ [payload seg]). rewrite O5, <- (assoc_L (++)). split; [done|split; [done|]].
    rewrite Hi, (assoc_L (++)). apply numbered_app; [done|]. simpl. split_and!; try done.
    rewrite Hq, O2, O5, len_app. f_equal. pose proof (numbered_length _ _ _ O6). unfold len. lia.
Qed.

(** A new segment goes to the end of the queue. *)
Lemma queue_insert sent s u seg :
  tx_inv sent s u → closeRequested s = false → good seg → Seq seg = nextSend s →
  0 < Remaining (sendQueue s) →
  ∃ t, Insert seg (sendQueue s) = Ret (true, t) ∧ tree_ok t ∧ cap t = cap (sendQueue s) ∧
    items t = items (sendQueue s) ++ [seg].
Proof.
  intros ((H1 & _) & _ & _ & Hcase) Hreq [_ Hp] Hq Hroom. rewrite Remaining_items in Hroom.
  destruct Hcase as [(O1 & O2 & O3 & O4 & O4' & past & ps & O5 & O5' & O6)|(C1 & _)]; [|congruence].
  destruct (Insert_ok seg (sendQueue s) H1 Hp) as (t & Hins & Ht & Hc & Hi & _); [lia|].
  exists t. split_and!; try done. rewrite Hi, listInsert_append; [done|].
  pose proof (numbered_length _ _ _ O6) as Hl. pose proof (numbered_range _ _ _ O6) as Hr.
  apply Forall_app in Hr as [_ Hr]. eapply Forall_impl; [exact Hr|]. simpl.
  rewrite Hq, O2, O5. unfold len. rewrite <- Hl, length_app. lia.
Qed.

Lemma chooseError_some k (cases : list goerr) : cases ≠ [] → ∃ e, chooseError k cases = Some e.
Proof.
  intros Hne. unfold chooseError. destruct (cases !! (k `mod` length cases)%nat) eqn:E; [eauto|].
  apply lookup_ge_None in E. destruct cases as [|c l]; [done|].
  pose proof (Nat.mod_upper_bound k (length (c :: l))). simpl in *. lia.
Qed.

Lemma writeCases_closed now deadline (s : Session T) :
  closedChan s = true → writeCases now deadline s ≠ [].
Proof. unfold writeCases. by intros ->. Qed.

(** ** Fragmentation *)

(** What [Write] and its parts leave: some more payloads, which make up a
    prefix of the data, all of it when there is no error. *)
Definition queued (sent sent' : list bytes) (b : bytes) (full : bool) : Prop :=
  if full then concat sent' = concat sent ++ b
  else ∃ k, concat sent' = concat sent ++ take k b.

Lemma queued_none sent b : queued sent sent b false.
Proof. exists 0%nat. by rewrite take_0, app_nil_r. Qed.
Lemma queued_trans sent1 sent2 sent3 b1 b2 full :
  queued sent1 sent2 b1 true → queued sent2 sent3 b2 full → queued sent1 sent3 (b1 ++ b2) full.
Proof.
  unfold queued. intros H1 H2. destruct full.
  - by rewrite H2, H1, (assoc_L (++)).
  - destruct H2 as [k Hk]. exists (length b1 + k)%nat. rewrite Hk, H1, <- (assoc_L (++)). f_equal.
    rewrite firstn_app_2. done.
Qed.

Definition wrote (sent sent' : list bytes) (s s' : Session T) (b : bytes) (full : bool) (extra : Z) : Prop :=
  (closeRequested s = true → closeRequested s' = true) ∧ isClient s' = isClient s ∧
  sent `prefix_of` sent' ∧ len sent' + live s' ≤ len sent + extra + live s ∧
  queued sent sent' b full.

Lemma grown_wrote sent sent' s s' : grown sent sent' s s' → wrote sent sent' s s' [] true 0.
Proof.
  intros (H1 & H2 & H3). split; [done|]. split; [done|]. unfold live. destruct H3 as [->|(-> & Hc & Hc')].
  - split_and!; [done| |simpl; by rewrite app_nil_r].
    destruct (closeRequested s); [rewrite H1 by done; lia|case_if; lia].
  - split_and!; [by apply prefix_app_r| |simpl; rewrite concat_app; done].
    rewrite Hc, Hc', len_app. change (len [[]]) with 1. lia.
Qed.
Lemma wrote_refl sent s s' b :
  closeRequested s' = closeRequested s → isClient s' = isClient s → wrote sent sent s s' b false 0.
Proof. intros E1 E2. unfold wrote, live. rewrite E1. split_and!; [done|done|done|lia|apply queued_none]. Qed.
Lemma wrote_trans sent1 sent2 sent3 s1 s2 s3 b1 b2 full e1 e2 :
  wrote sent1 sent2 s1 s2 b1 true e1 → wrote sent2 sent3 s2 s3 b2 full e2 →
  wrote sent1 sent3 s1 s3 (b1 ++ b2) full (e1 + e2).
Proof.
  intros (H1 & H2 & H3 & H4 & H5) (G1 & G2 & G3 & G4 & G5). split_and!; [auto|congruence|by etrans|lia|].
  by eapply queued_trans.
Qed.
Lemma wrote_partial sent sent' s s' b e : wrote sent sent' s s' b true e → wrote sent sent' s s' b false e.
Proof.
  intros (H1 & H2 & H3 & H4 & H5). split_and!; try done. exists (length b). by rewrite firstn_all.
Qed.
Lemma wrote_more sent sent' s s' b b' full e e' :
  wrote sent sent' s s' b full e → e ≤ e' → (full = true → b' = []) → wrote sent sent' s s' (b ++ b') full e'.
Proof.
  intros (H1 & H2 & H3 & H4 & H5) He Hb. split_and!; try done; [lia|].
  destruct full; simpl in *; [rewrite (Hb eq_refl), app_nil_r; done|].
  destruct H5 as [k Hk]. exists (min k (length b)). rewrite Hk. f_equal.
  rewrite take_app_le by lia. destruct (Nat.le_ge_cases k (length b)).
  - by rewrite Nat.min_l.
  - by rewrite Nat.min_r, !take_ge by lia.
Qed.
Lemma wrote_nonempty sent sent' s s' b full e :
  wrote sent sent' s s' b full e → (isClient s = true → sent ≠ []) → isClient s' = true → sent' ≠ [].
Proof.
  intros (_ & Hc & [l ->] & _) H Hcl E. rewrite Hc in Hcl. apply (H Hcl). by destruct sent.
Qed.

Lemma writeFragments_ret sel now deadline fs n ptr sent (s : Session T) (u : U) :
  tx_inv sent s u → (isClient s = true → sent ≠ []) → 0 < fs → len ptr ≤ fs * Z.of_nat n →
  len ptr < 2 ^ 16 → len sent + live s + Z.of_nat n ≤ 2 ^ 32 →
  (closeRequested s = false → Z.of_nat n < Remaining (sendQueue s)) →
  ∃ e sent' s', writeFragments sel now deadline fs n ptr (s, u) = Ret (e, (s', u)) ∧
    tx_inv sent' s' u ∧
    wrote sent sent' s s' ptr (match e with None => true | Some _ => false end) (Z.of_nat n).
Proof.
  intros Hinv Hcl Hfs. revert ptr sent s Hinv Hcl. induction n as [|n IH]; intros ptr sent s Hinv Hcl Hlen Hsmall Hbud Hroom.
  { exists None, sent, s. split; [done|]. split; [done|]. split_and!; try done; [lia|]. simpl.
    assert (ptr = []) as -> by (apply len_0; pose proof (len_nonneg ptr); lia). by rewrite app_nil_r. }
  cbn [writeFragments]. unfold bind at 1, get at 1. cbn [fst snd].
  destruct (chooseError (sel n) (writeCases now deadline s)) as [e|] eqn:Ech.
  { exists (Some e), sent, s. split; [done|]. split; [done|]. split_and!; try done; [lia|apply queued_none]. }
  assert (closeRequested s = false) as Hreq.
  { destruct Hinv as (_ & _ & _ & [(O & _)|(_ & Hc & _)]); [done|].
    destruct (chooseError_some (sel n) _ (writeCases_closed now deadline s Hc)). congruence. }
  specialize (Hroom Hreq). set (part := take (Z.to_nat (Min fs (len ptr))) ptr).
  match goal with |- context [Insert ?x] => set (seg := x) end.
  assert (0 ≤ nextSend s < 2 ^ 32) as Hns.
  { destruct Hinv as (_ & _ & _ & [(_ & -> & ? & _)|(C & _)]); [|congruence].
    pose proof (len_nonneg sent). lia. }
  assert (len part ≤ len ptr) as Hpl.
  { unfold part, len. rewrite length_take. lia. }
  assert (good seg) as Hg.
  { pose proof Hinv as ((_ & _ & _ & Q4 & Q5 & _) & _).
    unfold good, seg. destruct (isClient s); (split; [|done]); apply dataSegment_ok; try done; lia. }
  destruct (queue_insert sent s u seg Hinv Hreq Hg) as (t & Hins & Ht & Hcap & Hti); [done|lia|].
  unfold bind at 1, upd at 1. cbn [fst snd]. unfold bind at 1, onSendQueue, onTree. cbn [fst snd].
  change (sendQueue (set_nextSend _ s)) with (sendQueue s). rewrite Hins.
  assert (isClient s = true → openSessionRequestSent s = true) as Hopened.
  { intros Hc. destruct Hinv as (_ & _ & _ & [(_ & _ & _ & O & _)|(C & _)]); [|congruence].
    destruct (openSessionRequestSent s) eqn:Eo; [done|]. exfalso. apply (Hcl Hc). by apply (O Hc). }
  assert (live s = 1) as Hlive by (unfold live; by rewrite Hreq).
  pose proof (tx_push sent s u t seg Hinv Hreq Hopened ltac:(lia) Hg eq_refl Ht Hti) as Hinv1.
  set (s1 := set_sendQueue t (set_nextSend (u32 (nextSend s + 1)) s)) in *.
  assert (len (sent ++ [payload seg]) = len sent + 1) as Hls by (by rewrite len_app).
  assert (len (drop (Z.to_nat (Min fs (len ptr))) ptr) = len ptr - Min fs (len ptr)) as Hrest.
  { unfold len. rewrite length_drop. unfold Min. pose proof (len_nonneg ptr). unfold len in *. case_if; lia. }
  destruct (IH (drop (Z.to_nat (Min fs (len ptr))) ptr) (sent ++ [payload seg]) s1 Hinv1)
    as (e & sent' & s' & Hr & I1 & I2).
  - intros _ E. by destruct sent.
  - rewrite Hrest. unfold Min. case_if; bool_to_Z; nia.
  - rewrite Hrest. unfold Min. pose proof (len_nonneg ptr). case_if; lia.
  - change (live s1) with (live s). lia.
  - intros _. simpl. rewrite Remaining_items in *. rewrite Hcap, Hti, len_app.
    change (len [seg]) with 1. lia.
  - rewrite Hr. exists e, sent', s'. split; [done|]. split; [done|].
    assert (wrote sent (sent ++ [payload seg]) s s1 part true 1) as Hw.
    { split_and!; try done; [by apply prefix_app_r|change (live s1) with (live s); lia|].
      simpl. rewrite concat_app. simpl. by rewrite app_nil_r. }
    pose proof (wrote_trans _ _ _ _ _ _ _ _ _ _ _ Hw I2) as Hw'.
    unfold part in Hw'. rewrite take_drop in Hw'.
    by replace (Z.of_nat (S n)) with (1 + Z.of_nat n) by lia.
Qed.

(** ** Waiting for the other goroutines *)

(** What they do keeps the invariant. *)
Definition background (others : SM (T := T) (U := U) unit) : Prop :=
  ∀ sent s u, tx_inv sent s u →
  ∃ sent' s' u', others (s, u) = Ret (tt, (s', u')) ∧ tx_inv sent' s' u' ∧ grown sent sent' s s'.

Lemma waitForRoom_ret fuel sel others now deadline n sent (s : Session T) (u : U) :
  background others → tx_inv sent s u →
  ∃ w sent' s' u', waitForRoom fuel sel others now deadline n (s, u) = Ret (w, (s', u')) ∧
    tx_inv sent' s' u' ∧ grown sent sent' s s' ∧ (w = Some None → n < Remaining (sendQueue s')).
Proof.
  intros Hbg. revert sent s u. induction fuel as [|fuel IH]; intros sent s u Hinv.
  { exists None, sent, s, u. split; [done|split; [done|split; [by apply grown_same|done]]]. }
  cbn [waitForRoom]. unfold bind at 1, get at 1. cbn [fst snd].
  destruct (Remaining (sendQueue s) <=? n) eqn:E; bool_to_Z.
  - unfold bind at 1, get at 1. cbn [fst snd]. destruct (chooseError _ _) as [e|].
    + exists (Some (Some e)), sent, s, u. split; [done|split; [done|split; [by apply grown_same|done]]].
    + destruct (Hbg sent s u Hinv) as (sent1 & s1 & u1 & Ho & I1 & G1). unfold bind at 1. rewrite Ho.
      destruct (IH sent1 s1 u1 I1) as (w & sent2 & s2 & u2 & Hw & I2 & G2 & H2).
      exists w, sent2, s2, u2. split; [done|split; [done|split; [by eapply grown_trans|done]]].
  - exists (Some None), sent, s, u. split; [done|split; [done|split; [by apply grown_same|done]]].
Qed.

Lemma waitForProgress_ret fuel others q sent (s : Session T) (u : U) :
  background others → tx_inv sent s u →
  ∃ b sent' s' u', waitForProgress fuel others q (s, u) = Ret (b, (s', u')) ∧
    tx_inv sent' s' u' ∧ grown sent sent' s s'.
Proof.
  intros Hbg. revert sent s u. induction fuel as [|fuel IH]; intros sent s u Hinv.
  { exists false, sent, s, u. split; [done|split; [done|by apply grown_same]]. }
  cbn [waitForProgress]. unfold bind at 1, get at 1. cbn [fst snd].
  destruct (chanEmptyEvent (sendQueue s)).
  { eexists true, sent, _, u. split; [done|]. split; [|by apply grown_same].
    destruct Hinv as ((I1 & I2) & I3 & I4 & I5). by split_and!. }
  unfold bind at 1, get at 1. cbn [fst snd].
  assert (∃ b sent' s' u', ret true (s, u) = Ret (b, (s', u')) ∧ tx_inv sent' s' u' ∧ grown sent sent' s s')
    as Hstop.
  { exists true, sent, s, u. split; [done|split; [done|by apply grown_same]]. }
  destruct (MinSeq (sendQueue s)) as [m|e|p]; [|done..]. case_if; [done|].
  destruct (Hbg sent s u Hinv) as (sent1 & s1 & u1 & Ho & I1 & G1). unfold bind at 1. rewrite Ho.
  destruct (IH sent1 s1 u1 I1) as (w & sent2 & s2 & u2 & Hw & I2 & G2).
  exists w, sent2, s2, u2. split; [done|split; [done|by eapply grown_trans]].
Qed.

(** ** Chunks *)

Lemma fragmentCount_ok fs n :
  0 < fs → 0 < n → ∃ k, fragmentCount fs n = Ret k ∧ 1 ≤ k ≤ n ∧ n ≤ fs * k.
Proof.
  intros Hfs Hn. unfold fragmentCount. case_if; bool_to_Z; [|exists 1; split_and!; try done; lia].
  rewrite (proj2 (Z.eqb_neq _ _)) by lia. eexists. split; [done|].
  rewrite Z.quot_div_nonneg by lia. pose proof (Z.div_mod (n - 1) fs). pose proof (Z.mod_pos_bound (n - 1) fs).
  nia.
Qed.

Definition isFull (n : Z) (r : ioResult Z) : bool :=
  match r with Done k None => k =? n | _ => false end.

Lemma writeChunk_ret fuel sel others now b sent (s : Session T) (u : U) :
  background others → tx_inv sent s u → (isClient s = true → sent ≠ []) → 0 < len b →
  len sent + live s + len b ≤ 2 ^ 32 →
  ∃ r sent' s' u', writeChunk fuel sel others now b (s, u) = Ret (r, (s', u')) ∧ tx_inv sent' s' u' ∧
    wrote sent sent' s s' b (isFull (len b) r) (len b) ∧
    (∀ k, r = Done k None → k = len b).
Proof.
  intros Hbg Hinv Hcl Hb Hbud. unfold writeChunk.
  assert (∀ r, isFull (len b) r = false → (∀ k, r ≠ Done k None) →
    ∀ sent' s', wrote sent sent' s s' [] true 0 → wrote sent sent' s s' b (isFull (len b) r) (len b))
    as Hpart.
  { intros r -> _ sent' s' Hw. apply (wrote_more _ _ _ _ [] b false 0); [by apply wrote_partial|lia|done]. }
  destruct (maxPDU <? len b) eqn:Emax; bool_to_Z.
  { eexists _, sent, s, u. split; [done|split; [done|split; [|done]]].
    apply Hpart; [done|done|]. by apply grown_wrote, grown_same. }
  unfold bind at 1, get at 1. cbn [fst snd].
  pose proof Hinv as ((_ & _ & Etp & _ & _ & Hfs & _) & _). rewrite Etp.
  destruct (fragmentCount_ok (MaxFragmentSize (mtu s) PacketTransport) (len b) Hfs Hb)
    as (nf & -> & [Hnf1 Hnf2] & Hcover).
  destruct (waitForRoom_ret fuel sel others now (writeDeadline s) nf sent s u Hbg Hinv)
    as (w & sent1 & s1 & u1 & Hr1 & I1 & G1 & Hroom).
  unfold bind at 1. rewrite Hr1. pose proof (grown_wrote _ _ _ _ G1) as W1.
  destruct w as [[e|]|].
  1,3: eexists _, sent1, s1, u1; split; [done|split; [done|split; [|done]]]; by apply Hpart.
  destruct (writeFragments_ret sel now (writeDeadline s) (MaxFragmentSize (mtu s) PacketTransport)
    (Z.to_nat nf) b sent1 s1 u1) as (e & sent2 & s2 & Hr2 & I2 & W2); try done.
  { by apply (wrote_nonempty _ _ _ _ _ _ _ W1). }
  { by rewrite Z2Nat.id by lia. }
  { unfold maxPDU in Emax. lia. }
  { destruct W1 as (_ & _ & _ & M2 & _). lia. }
  { intros _. specialize (Hroom eq_refl). lia. }
  unfold bind at 1. rewrite Hr2. pose proof (wrote_trans _ _ _ _ _ _ _ _ _ _ _ W1 W2) as W12. simpl app in W12.
  rewrite Z2Nat.id, Z.add_0_l in W12 by lia.
  destruct e as [e|].
  { eexists _, sent2, s2, u1. split; [done|split; [done|split; [|done]]]. simpl.
    rewrite <- (app_nil_r b) at 1. by eapply wrote_more. }
  match goal with |- context [waitForProgress fuel others ?q] => set (q0 := q) end.
  destruct (waitForProgress_ret fuel others q0 sent2 s2 u1 Hbg I2) as (ok & sent3 & s3 & u3 & Hr3 & I3 & G3).
  unfold bind at 1. rewrite Hr3. pose proof (wrote_trans _ _ _ _ _ _ _ _ _ _ _ W12 (grown_wrote _ _ _ _ G3)) as W13.
  rewrite app_nil_r, Z.add_0_r in W13.
  destruct ok.
  - unfold bind, upd, ret. cbn [fst snd]. eexists _, sent3, _, u3. split; [done|].
    assert (∀ s', same_tx s3 s' → tx_inv sent3 s' u3 ∧ wrote sent sent3 s s' b true (len b)) as Hend.
    { intros s' Hs. split; [by apply (tx_inv_same sent3 s3)|].
      destruct Hs as (_ & _ & _ & _ & _ & _ & E1 & _ & _ & E2 & _).
      destruct W13 as (V1 & V2 & V3 & V4 & V5). unfold wrote, live in *. rewrite E1, E2.
      split_and!; try done. lia. }
    cbn [isFull]. rewrite Z.eqb_refl. destruct (isClient s3); (split; [|split; [|by intros k [= <-]]]);
      by apply Hend.
  - eexists _, sent3, s3, u3. split; [done|split; [done|split; [|done]]]. simpl.
    rewrite <- (app_nil_r b) at 1. eapply wrote_more; [exact (wrote_partial _ _ _ _ _ _ W13)|lia|done].
Qed.

Lemma writeChunks_ret chunks fuel sel others now n b sent (s : Session T) (u : U) :
  background others → tx_inv sent s u → (isClient s = true → sent ≠ []) → (length b < chunks)%nat →
  len sent + live s + len b ≤ 2 ^ 32 →
  ∃ r sent' s' u', writeChunks chunks fuel sel others now n b (s, u) = Ret (r, (s', u')) ∧
    tx_inv sent' s' u' ∧ wrote sent sent' s s' b (isFull (n + len b) r) (len b) ∧
    (∀ k, r = Done k None → k = n + len b).
Proof.
  intros Hbg. revert n b sent s u. induction chunks as [|chunks IH]; intros n b sent s u Hinv Hcl Hf Hbud; [lia|].
  cbn [writeChunks]. destruct (0 <? len b) eqn:E; bool_to_Z.
  2:{ assert (b = []) as -> by (apply len_0; pose proof (len_nonneg b); lia).
      eexists _, sent, s, u. split; [done|split; [done|]]. change (len []) with 0. rewrite Z.add_0_r.
      split; [|by intros k [= <-]]. simpl. rewrite Z.eqb_refl. by apply grown_wrote, grown_same. }
  set (c := Min (len b) maxPDU). assert (0 < c ≤ len b) as Hc.
  { unfold c, Min, maxPDU. case_if; bool_to_Z; lia. }
  assert (len (take (Z.to_nat c) b) = c) as Hcl1 by (unfold len in *; rewrite length_take; lia).
  assert (len (drop (Z.to_nat c) b) = len b - c) as Hcl2 by (unfold len in *; rewrite length_drop; lia).
  destruct (writeChunk_ret fuel sel others now (take (Z.to_nat c) b) sent s u Hbg Hinv Hcl)
    as (r & sent1 & s1 & u1 & Hr1 & I1 & W1 & K1); [lia|lia|].
  unfold bind at 1. rewrite Hr1, Hcl1 in *.
  assert (isFull c r = false → (∀ k, r ≠ Done k None) → ∀ r', isFull (n + len b) r' = false →
    wrote sent sent1 s s1 b (isFull (n + len b) r') (len b)) as Hstop.
  { intros Hr _ r' ->. rewrite Hr in W1. rewrite <- (take_drop (Z.to_nat c) b) at 1.
    eapply wrote_more; [exact W1|lia|done]. }
  destruct r as [k [e|]|].
  - rewrite orb_true_r. eexists _, sent1, s1, u1. split; [done|split; [done|split; [|done]]]. by apply Hstop.
  - rewrite (K1 k eq_refl) in *. rewrite (proj2 (Z.eqb_neq c 0)) by lia. cbn [orb].
    simpl in W1. rewrite Z.eqb_refl in W1.
    destruct (IH (n + c) (drop (Z.to_nat c) b) sent1 s1 u1 I1) as (r & sent2 & s2 & u2 & Hr2 & I2 & W2 & K2).
    + by apply (wrote_nonempty _ _ _ _ _ _ _ W1).
    + rewrite length_drop. unfold len in Hc, E. lia.
    + destruct W1 as (_ & _ & _ & M2 & _). lia.
    + exists r, sent2, s2, u2. rewrite Hr2. split; [done|split; [done|]].
      pose proof (wrote_trans _ _ _ _ _ _ _ _ _ _ _ W1 W2) as W12. rewrite take_drop in W12.
      rewrite Hcl2 in *. replace (n + c + (len b - c)) with (n + len b) in * by lia.
      replace (c + (len b - c)) with (len b) in W12 by lia. done.
  - eexists _, sent1, s1, u1. split; [done|split; [done|split; [|done]]]. by apply Hstop.
Qed.

(** ** The open request and [Write] *)

Lemma sendOpenRequest_ret b sent (s : Session T) (u : U) :
  tx_inv sent s u → closeRequested s = false → sessionAttached ≤ state s → len sent + 1 < 2 ^ 32 →
  ∃ o sent' s', sendOpenRequest b (s, u) = Ret (o, (s', u)) ∧ tx_inv sent' s' u ∧
    (isClient s' = true → sent' ≠ []) ∧
    match o with
    | None => wrote sent sent' s s' [] true 1
    | Some r => r = Done (len b) None ∧ wrote sent sent' s s' b true 1
    end.
Proof.
  intros Hinv Hreq Hst Hbud. unfold sendOpenRequest. unfold bind at 1, get at 1. cbn [fst snd].
  destruct (isClient s && isState sessionAttached s && negb (openSessionRequestSent s)) eqn:E.
  2:{ exists None, sent, s. split; [done|split; [done|split]].
      - intros Hc. destruct Hinv as (_ & _ & _ & [(_ & _ & _ & O & O' & _)|(C & _)]); [|congruence].
        intros Hnil. pose proof (O' Hc Hnil). rewrite Hc, (proj1 (O Hc) Hnil) in E. unfold isState in E.
        rewrite (proj2 (Z.eqb_eq _ _)) in E by lia. done.
      - pose proof (grown_wrote _ _ _ _ (grown_same sent s s eq_refl eq_refl)) as (W1 & W2 & W3 & W4 & W5).
        split_and!; try done. lia. }
  apply andb_prop in E as [E Enot]. apply andb_prop in E as [Ecl _]. apply negb_true_iff in Enot.
  assert (sent = []) as ->.
  { destruct Hinv as (_ & _ & _ & [(_ & _ & _ & O & _)|(C & _)]); [|congruence]. by apply (O Ecl). }
  set (p := if len b <=? MaxSessionOpenPayload then b else []).
  assert (len p ≤ 1024 ∧ (0 < len p → p = b)) as [Hp Hpb].
  { unfold p, MaxSessionOpenPayload. case_if; bool_to_Z; [done|]. unfold len. simpl. split; lia. }
  match goal with |- context [Insert ?x] => set (seg := x) end.
  set (s0 := set_openSessionRequestSent true s).
  destruct Hinv as (Henv & Hu & Hlog & [(O1 & O2 & O3 & O4 & O5 & past & ps & O6 & O6' & O7)|(C & _)]); [|congruence].
  symmetry in O6. apply app_eq_nil in O6 as [-> ->].
  assert (items (sendBuf s) = [] ∧ items (sendQueue s) = []) as [Eb Eq].
  { apply numbered_length in O7. symmetry in O7. apply nil_length_inv in O7. by apply app_eq_nil in O7. }
  unfold len in O2. simpl in O2.
  assert (good seg) as Hg.
  { split; [|done]. apply sessionSegment_ok; try done; [apply Henv| |lia]. rewrite O2. done. }
  pose proof Henv as ((_ & Hcap & _) & _).
  destruct (Insert_ok seg (sendQueue s)) as (t & Hins & Ht & _ & Hti & _); [apply Henv|done|by rewrite Eq|].
  rewrite Eq in Hti. simpl in Hti.
  unfold bind at 1, upd at 1. cbn [fst snd]. unfold bind at 1, onSendQueue, onTree. cbn [fst snd].
  change (sendQueue (set_nextSend _ _)) with (sendQueue s). rewrite Hins. unfold ret.
  assert (tx_inv [p] (set_sendQueue t (set_nextSend (u32 (nextSend s0 + 1)) s0)) u) as Hinv1.
  { destruct Henv as (E1 & E2 & E3). split; [by split|]. split; [done|].
    split; [by apply (log_ok_more [] [p])|]. left. unfold tx_open. simpl. rewrite O2. split_and!; try done.
    exists [], [p]. split; [done|split; [done|]]. rewrite Eb, Hti. simpl. split_and!; try done. }
  assert (∀ bb, bb = p → wrote [] [p] s (set_sendQueue t (set_nextSend (u32 (nextSend s0 + 1)) s0)) bb true 1) as Hw.
  { intros bb ->. split_and!; try done; [by eexists|]. simpl. by rewrite app_nil_r. }
  eexists _, [p], _. split; [done|]. split; [exact Hinv1|]. split; [done|].
  destruct (0 <? len p) eqn:E0; bool_to_Z.
  - split; [by rewrite (Hpb E0)|]. apply Hw. symmetry. by apply Hpb.
  - apply Hw. symmetry. apply len_0. pose proof (len_nonneg p). lia.
Qed.

Lemma Write_ret fuel sel others now b sent (s : Session T) (u : U) :
  background others → tx_inv sent s u →
  len sent + live s + len b + 1 ≤ 2 ^ 32 →
  ∃ r sent' s' u', Write fuel sel others now b (s, u) = Ret (r, (s', u')) ∧ tx_inv sent' s' u' ∧
    wrote sent sent' s s' b (isFull (len b) r) (len b + 1) ∧ (∀ k, r = Done k None → k = len b).
Proof.
  intros Hbg Hinv Hbud. unfold Write. unfold bind at 1, get at 1. cbn [fst snd].
  pose proof (len_nonneg b) as Hb0.
  assert (∀ e, ∃ r sent' s' u', ret (Done 0 (Some e)) (s, u) = Ret (r, (s', u')) ∧ tx_inv sent' s' u' ∧
    wrote sent sent' s s' b (isFull (len b) r) (len b + 1) ∧ (∀ k, r = Done k None → k = len b)) as Herr.
  { intros e. eexists _, sent, s, u. split; [done|split; [done|split; [|done]]]. simpl.
    rewrite <- (app_nil_r b) at 1. eapply wrote_more; [by apply wrote_refl|lia|done]. }
  destruct (closeRequested s) eqn:Hreq; [apply Herr|].
  assert (live s = 1) as Hlive by (unfold live; by rewrite Hreq).
  destruct (isStateBefore sessionAttached false s) eqn:Est; [apply Herr|].
  destruct (isStateAfter sessionClosed true s); [apply Herr|].
  unfold isStateBefore in Est. bool_to_Z.
  destruct (sendOpenRequest_ret b sent s u Hinv Hreq Est) as (o & sent1 & s1 & Hr1 & I1 & Hne & W1); [lia|].
  unfold bind at 1. rewrite Hr1.
  assert (∃ r sent' s' u', (match o with
      | Some r => ret r
      | None => bind (writeChunks (S (length b)) fuel sel others now 0 b) (λ r,
          match r with
          | Done n None => bind (upd (λ s0, if isClient s0 then s0 else
                set_downloadBytes (option_map (λ c, c + n) (downloadBytes s0)) s0)) (λ _, ret r)
          | _ => ret r end)
      end) (s1, u) = Ret (r, (s', u')) ∧ tx_inv sent' s' u' ∧
      wrote sent sent' s s' b (isFull (len b) r) (len b + 1) ∧ (∀ k, r = Done k None → k = len b))
    as (r & sent2 & s2 & u2 & Hr2 & I2 & W2 & K2).
  { destruct o as [r|].
    - destruct W1 as [-> W1]. eexists _, sent1, s1, u. split; [done|split; [done|]].
      simpl. rewrite Z.eqb_refl. split; [|by intros k [= <-]].
      rewrite <- (app_nil_r b) at 1. eapply wrote_more; [exact W1|lia|done].
    - destruct (writeChunks_ret (S (length b)) fuel sel others now 0 b sent1 s1 u Hbg I1 Hne)
        as (r & sent2 & s2 & u2 & Hr2 & I2 & W2 & K2); [lia| |].
      { destruct W1 as (_ & _ & _ & M & _). lia. }
      rewrite Z.add_0_l in *. pose proof (wrote_trans _ _ _ _ _ _ _ _ _ _ _ W1 W2) as W12.
      simpl app in W12. rewrite Z.add_comm in W12. unfold bind at 1. rewrite Hr2.
      destruct r as [k [e|]|]; [by eexists _, sent2, s2, u2| |by eexists _, sent2, s2, u2].
      unfold bind, upd, ret. cbn [fst snd]. eexists _, sent2, _, u2. split; [done|].
      destruct (isClient s2); (split; [|split; [exact W12|exact K2]]); [done|].
      by apply (tx_inv_same sent2 s2). }
  unfold bind at 1. rewrite Hr2. destruct r as [k e|]; [|by eexists _, sent2, s2, u2].
  unfold bind, upd, ret. cbn [fst snd]. eexists _, sent2, (set_writeDeadline 0 s2), u2.
  split; [done|split; [by apply (tx_inv_same sent2 s2)|done]].
Qed.

(** ** Runs of the sender *)

Context (userBytes : string → option (Z → Z)).

(** What the session's own goroutines do: a round of the output loop, or the
    arrival of an acknowledgement. *)
Inductive txRound :=
| OutputRound (now : Z)
| AckArrival (now : Z) (seg : segment).

Definition round_ok (r : txRound) : Prop :=
  match r with
  | OutputRound _ => True
  | AckArrival _ seg => block seg = None ∧
      Protocol (smeta seg) = (if client then ackServerToClient else ackClientToServer) ∧
      ∃ das, smeta seg = MDataAck das ∧ das_unAckSeq das ≤ A
  end.

Definition runRound (r : txRound) : SM (T := T) (U := U) unit :=
  match r with
  | OutputRound now => runOutputOnce oob (ret tt) now
  | AckArrival now seg => bind (input cbrt oob userBytes (ret tt) now seg) (λ _, ret tt)
  end.

Fixpoint runRounds (rs : list txRound) : SM (T := T) (U := U) unit :=
  match rs with
  | [] => ret tt
  | r :: rs => bind (runRound r) (λ _, runRounds rs)
  end.

(** A round, or a call of [Write] during which the rounds [bg] happen at every
    poll. *)
Inductive txEvent :=
| Round (r : txRound)
| WriteCall (fuel : nat) (sel : nat → nat) (now : Z) (bg : list txRound) (b : bytes).

Definition tx_event_ok (ev : txEvent) : Prop :=
  match ev with
  | Round r => round_ok r
  | WriteCall _ _ _ bg _ => Forall round_ok bg
  end.

(** The calls of [Write] and their results. *)
Fixpoint txRun (evs : list txEvent) : SM (T := T) (U := U) (list (bytes * ioResult Z)) :=
  match evs with
  | [] => ret []
  | Round r :: evs => bind (runRound r) (λ _, txRun evs)
  | WriteCall fuel sel now bg b :: evs =>
      bind (Write fuel sel (runRounds bg) now b) (λ r, bind (txRun evs) (λ l, ret ((b, r) :: l)))
  end.

(** The numbers that the events can use. *)
Fixpoint cost (evs : list txEvent) : Z :=
  match evs with
  | [] => 0
  | Round _ :: evs => cost evs
  | WriteCall _ _ _ _ b :: evs => len b + 1 + cost evs
  end.

Lemma cost_nonneg evs : 0 ≤ cost evs.
Proof. induction evs as [|[r|fuel sel now bg b] evs IH]; simpl; [lia|done|]. pose proof (len_nonneg b). lia. Qed.

Lemma runRound_ret r sent (s : Session T) (u : U) :
  round_ok r → tx_inv sent s u →
  ∃ sent' s' u', runRound r (s, u) = Ret (tt, (s', u')) ∧ tx_inv sent' s' u' ∧ grown sent sent' s s'.
Proof.
  destruct r as [now|now seg]; intros Hr Hinv; [by apply runOutputOnce_ret|].
  destruct Hr as (H1 & H2 & das & H3 & H4). unfold runRound, bind.
  assert (isClient s = client) as Ec by apply Hinv. rewrite <- Ec in H2.
  destruct (input_ack_ret userBytes (ret tt) now das seg sent s u Hinv H3 H4 H1 H2) as (s' & -> & I & G).
  by exists sent, s', u.
Qed.

Lemma runRounds_background rs : Forall round_ok rs → background (runRounds rs).
Proof.
  induction 1 as [|r rs Hr _ IH]; intros sent s u Hinv.
  { exists sent, s, u. split; [done|split; [done|by apply grown_same]]. }
  cbn [runRounds]. destruct (runRound_ret r sent s u Hr Hinv) as (sent1 & s1 & u1 & H1 & I1 & G1).
  unfold bind. rewrite H1. destruct (IH sent1 s1 u1 I1) as (sent2 & s2 & u2 & H2 & I2 & G2).
  exists sent2, s2, u2. split; [done|split; [done|by eapply grown_trans]].
Qed.

(** What a call of [Write] accounts for: the whole buffer when it succeeds, a
    prefix of it otherwise. *)
Definition accepted (call : bytes * ioResult Z) (part : bytes) : Prop :=
  part `prefix_of` call.1 ∧ (∀ n, call.2 = Done n None → n = len call.1 ∧ part = call.1).

Lemma wrote_accepted sent sent' s s' b r e :
  wrote sent sent' s s' b (isFull (len b) r) e → (∀ k, r = Done k None → k = len b) →
  ∃ part, concat sent' = concat sent ++ part ∧ accepted (b, r) part.
Proof.
  intros (_ & _ & _ & _ & Hq) Hk. unfold queued in Hq. destruct (isFull (len b) r) eqn:E.
  - exists b. split; [done|]. split; [done|]. intros n Hn. split; [by apply Hk|done].
  - destruct Hq as [k Hq]. exists (take k b). split; [done|]. split; [by apply prefix_take|].
    intros n Hn. simpl in Hn. rewrite Hn in E. simpl in E. rewrite (Hk n Hn), Z.eqb_refl in E. done.
Qed.

Lemma txRun_ret evs sent (s : Session T) (u : U) :
  Forall tx_event_ok evs → tx_inv sent s u → len sent + live s + cost evs ≤ 2 ^ 32 →
  ∃ calls parts sent' s' u', txRun evs (s, u) = Ret (calls, (s', u')) ∧ tx_inv sent' s' u' ∧
    len sent' + live s' ≤ len sent + live s + cost evs ∧ Forall2 accepted calls parts ∧ concat sent' = concat sent ++ concat parts.
Proof.
  intros Hok. revert sent s u. induction Hok as [|ev evs Hev _ IH]; intros sent s u Hinv Hbud.
  { exists [], [], sent, s, u. simpl in *. rewrite app_nil_r, Z.add_0_r in *. split; [done|split; [done|]]. by split_and!. }
  destruct ev as [r|fuel sel now bg b]; cbn [txRun cost] in *.
  - destruct (runRound_ret r sent s u Hev Hinv) as (sent1 & s1 & u1 & H1 & I1 & G1).
    unfold bind. rewrite H1. pose proof (grown_wrote _ _ _ _ G1) as (M1 & _ & _ & M2 & M3). simpl in M3.
    rewrite app_nil_r in M3. rewrite <- M3.
    destruct (IH sent1 s1 u1 I1) as (calls & parts & sent2 & s2 & u2 & H2 & I2 & L2 & F2); [lia|].
    exists calls, parts, sent2, s2, u2. split; [done|split; [done|split; [lia|done]]].
  - pose proof (cost_nonneg evs).
    destruct (Write_ret fuel sel (runRounds bg) now b sent s u) as (r & sent1 & s1 & u1 & H1 & I1 & W1 & K1).
    { by apply runRounds_background. }
    { done. }
    { lia. }
    unfold bind at 1. rewrite H1.
    destruct (wrote_accepted _ _ _ _ _ _ _ W1 K1) as (part & Hpart & Hacc).
    destruct W1 as (M1 & _ & _ & M2 & _).
    destruct (IH sent1 s1 u1 I1) as (calls & parts & sent2 & s2 & u2 & H2 & I2 & L2 & F2 & C2).
    { lia. }
    unfold bind. rewrite H2. unfold ret. exists ((b, r) :: calls), (part :: parts), sent2, s2, u2.
    split; [done|split; [done|split; [lia|split; [by constructor|]]]]. rewrite C2, Hpart. simpl. by rewrite (assoc_L (++)).
Qed.
End Send.

(** ** A new session *)

Lemma NewSession_tx {T} {HB : BTree T} {HL : BTreeLaws T} {U} {HW : SegmentWriter U} {HWL : WriterLaws U}
    A now sid client m us (u : U) :
  in_u32 sid → 0 < MaxFragmentSize m PacketTransport → writer_ok u → written u = [] →
  ∃ s : Session T, NewSession now sid client m us = Ret s ∧ closeRequested s = false ∧
    tx_inv client A [] (attach PacketTransport s) u.
Proof.
  intros Hid Hfs Hu Hw. unfold NewSession.
  destruct (SetRTOMultiplier f64_1_5 (SetMaxAckDelay periodicOutputInterval NewRTTStats)) as [rtt|e|p] eqn:E;
    [|vm_compute in E; discriminate..]. cbn [obind].
  destruct (newSegmentTree segmentTreeCapacity) as [t|e|p] eqn:Et; [|done..]. simpl.
  destruct (new_tree_ok _ _ Et) as (H1 & H2 & H3).
  eexists. split; [done|]. split; [done|]. unfold attach, forwardStateTo. simpl.
  split; [by split_and!|]. split; [done|]. split; [rewrite Hw; constructor|]. left.
  unfold tx_open. simpl. rewrite H2. split_and!; try done. exists [], []. split; [done|]. by split; [unfold len; simpl; lia|].
Qed.


(** ** Witness: a client that writes twice, sends and is acknowledged *)

Lemma same_header_refl m : same_header m m.
Proof. by destruct m. Qed.

Lemma logWriter_laws : WriterLaws (HW := logWriter) (list segment).
Proof.
  refine {| written := λ u, u; writer_ok := λ _, True |}.
  - intros now b seg u seg' u' [= <- <-]. done.
  - intros now b seg u r u' _ Hok [= <- <-]. split; [done|]. split; [done|].
    split; [|done]. split; [apply same_header_refl|done].
Defined.

Definition demoAck (q : Z) : segment :=
  dataSegment ackServerToClient 7 0 q 16 0 [] PacketTransport.
Definition demoTx : list txEvent :=
  [WriteCall 1 (λ _, 0%nat) 5 [] [1; 2; 3]; Round (OutputRound 10); Round (AckArrival 20 (demoAck 1));
   WriteCall 2 (λ _, 0%nat) 30 [OutputRound 31; AckArrival 32 (demoAck 2)] (replicate 1500 9)].

Lemma demoTx_ok : Forall (tx_event_ok true 2) demoTx.
Proof.
  repeat constructor; simpl; eexists; (split; [reflexivity|]); vm_compute; discriminate.
Qed.


End SessionSend.
Export SessionSend.
