(* ===== verification/SessionDelivery.v ===== *)
(** * From [Write] at one end to [Read] at the other

    A session on a packet underlay: the underlay's [writeOneSegment] implements
    the interface that the session's theorems assume.  Then the two halves of
    the protocol are put together over a network that may lose, duplicate and
    reorder datagrams. *)

From S2P Require Import Prelude Mathext Float Congestion Common Rng Metadata Cipher Segment Padding Wire UnderlayPacket SessionState Session SessionRecv SessionSend.

Module SessionDelivery.

(** ** The packet underlay as a segment writer *)

(** The underlay, the peer's address, the draws of each call, what the socket
    accepts, and the segments written with their datagrams. *)
Record PacketWriter := mkPacketWriter {
  pw_underlay : PacketUnderlay;
  pw_addr : string;
  pw_draw : nat → segDraw;
  pw_writeTo : bytes → string → bool;
  pw_calls : nat;
  pw_log : list (segment * bytes)
}.

Definition afterCall (w : PacketWriter) (l : list (segment * bytes)) : PacketWriter :=
  mkPacketWriter (pw_underlay w) (pw_addr w) (pw_draw w) (pw_writeTo w) (S (pw_calls w)) (pw_log w ++ l).

Section Writer.
Context (Seal : bytes → bytes → bytes → bytes) (oob : float → Z) (appVersion hostName : string)
        (fixedCache : gmap string Z).

(** The session's clock is in microseconds, the encoder's in seconds. *)
Definition packetWriter : SegmentWriter PacketWriter := λ now b seg w,
  match packetWriteOneSegment Seal oob appVersion hostName fixedCache (pw_writeTo w)
          (Z.quot now 1000000) (pw_draw w (pw_calls w)) (pw_underlay w) (λ _, Some b) seg (pw_addr w) with
  | Ret (seg', _, dgram) => (Ret seg', afterCall w [(seg', dgram)])
  | Err e => (Err e, afterCall w [])
  | Panic p => (Panic p, afterCall w [])
  end.

(** A client that is ready to write to its server. *)
Definition packet_writer_ok (w : PacketWriter) : Prop :=
  pu_isClient (pw_underlay w) = true ∧ pw_addr w = pu_serverAddr (pw_underlay w) ∧
  (∃ b, pu_block (pw_underlay w) = Some b ∧ enableImplicitNonce b = false ∧
     ∀ q, noncePattern b = Some q → pattern_ok q) ∧
  ∀ k m, metadata_ok m → seg_draw_ok oob packetOverhead m (pw_draw w k).

Lemma choosePaddings_seq overhead mtu tp d user seg m p1 p2 :
  choosePaddings oob appVersion hostName fixedCache overhead mtu tp d user (smeta seg) = Ret (m, p1, p2) →
  Seq (set_smeta seg m) = Seq seg.
Proof.
  unfold choosePaddings, Seq, toSessionStruct, toDataAckStruct. simpl.
  destruct (smeta seg) as [ss|das] eqn:E; simpl.
  - case_if; simpl; [|case_if; simpl; done]. destruct (newPadding _ _ _); simpl; try done.
    by intros [= <- <- <-].
  - case_if; simpl; [done|]. case_if; simpl; [|done].
    destruct (newPadding _ _ _); simpl; try done. destruct (newPadding _ _ _); simpl; try done.
    by intros [= <- <- <-].
Qed.

Lemma Marshal_Seq seg now m : Seq (set_smeta seg (Marshal now m).1) = Seq (set_smeta seg m).
Proof. by destruct m. Qed.

Lemma packetWriter_laws : WriterLaws (HW := packetWriter) PacketWriter.
Proof.
  refine {| written := λ w, (pw_log w).*1; writer_ok := packet_writer_ok |}.
  - intros now b seg w seg' w'. unfold writeOneSegment, packetWriter, packetWriteOneSegment, packetEncode.
    case_if; simpl; [done|]. destruct (packetCipherFor _ _ seg) as [bc|e|p]; simpl; try done.
    destruct (choosePaddings _ _ _ _ _ _ _ _ _ _) as [[[m p1] p2]|e|p] eqn:Ec; simpl; try done.
    pose proof (Marshal_Seq seg (Z.quot now 1000000) m) as Hm.
    destruct (Marshal _ m) as [m1 meta]. simpl in Hm.
    destruct (Encrypt _ _ _ _) as [[enc bc']|e|p]; simpl; try done.
    destruct (slice_to enc _) as [n|e|p]; simpl; try done.
    destruct (if 0 <? len (payload seg) then _ else _) as [ep|e|p]; simpl; try done.
    case_if; [|done]. intros [= <- <-]. rewrite Hm. by apply (choosePaddings_seq _ _ _ _ _ _ _ _ _ Ec).
  - intros now b seg w r w' (Hc & Haddr & (bc & Hb & Hs & Hpat) & Hd) [Hm Hpl] Hw.
    assert (∀ l, packet_writer_ok (afterCall w l)) as Hok.
    { intros l. split_and!; try done. by exists bc. }
    assert (packetCipherFor (pw_underlay w) (λ _, Some b) seg = Ret bc) as Hcf.
    { unfold packetCipherFor. by rewrite Hc, Hb. }
    destruct (packetEncode_ret Seal oob appVersion hostName fixedCache (Z.quot now 1000000)
      (pw_draw w (pw_calls w)) (pw_underlay w) (λ _, Some b) seg (pw_addr w) bc Hcf Hs Hpat)
      as (m & n & p1 & p2 & b' & He & _ & Hm' & Hsame & _); [done|done|done|by apply Hd|].
    destruct (Marshal_same (Z.quot now 1000000) m Hm') as (Hok' & Hsame' & _ & _ & Hl).
    unfold writeOneSegment, packetWriter, packetWriteOneSegment in Hw. rewrite He in Hw. simpl in Hw.
    case_if_in Hw; injection Hw as <- <-; (split; [apply Hok|]).
    + simpl. split; [by rewrite fmap_app|]. split; split; simpl; try done.
      * by apply (same_header_trans _ m).
      * rewrite Hl. by rewrite (same_header_payloadLen _ _ Hsame).
    + simpl. by rewrite app_nil_r.
Defined.
End Writer.

(** ** The payloads by number *)

Definition srcOf (sent : list bytes) (q : Z) : bytes := default [] (sent !! Z.to_nat q).

Lemma stream_srcOf sent n : 0 ≤ n ≤ len sent → stream (srcOf sent) n = concat (take (Z.to_nat n) sent).
Proof.
  intros Hn. unfold stream. f_equal. unfold len in Hn.
  assert (∀ k, (k ≤ length sent)%nat → map (λ i, srcOf sent (Z.of_nat i)) (seq 0 k) = take k sent) as H.
  { induction k as [|k IH]; intros Hk; [done|]. rewrite seq_S, map_app, IH by lia. simpl. unfold srcOf.
    rewrite Nat2Z.id. destruct (lookup_lt_is_Some_2 sent k) as [p Hp]; [lia|].
    rewrite Hp. by rewrite (take_S_r _ _ _ Hp). }
  apply H. lia.
Qed.

Lemma stream_prefix sent n : 0 ≤ n ≤ len sent → stream (srcOf sent) n `prefix_of` concat sent.
Proof.
  intros Hn. rewrite stream_srcOf by done. exists (concat (drop (Z.to_nat n) sent)).
  by rewrite <- concat_app, take_drop.
Qed.

(** ** The network *)

(** A server receives data and open segments that the client's underlay wrote:
    the decoder returns the header, up to padding lengths and timestamp, and the
    payload.  Any of them may arrive any number of times, at any time, or never. *)
Definition from_client (log : list segment) (user : string) (ev : rxEvent) : Prop :=
  match ev with
  | Arrival _ seg =>
      (Protocol (smeta seg) = openSessionRequest ∨ Protocol (smeta seg) = dataClientToServer) ∧
      (∃ x, x ∈ log ∧ same_seg x seg) ∧
      match block seg with None => True | Some b => UserName (ctx b) = user ∧ user ≠ "" end
  | ReadCall _ _ _ => True
  end.

Lemma from_client_ok sent log user evs :
  log_ok sent log → Forall (from_client log user) evs →
  Forall (event_ok (srcOf sent) (len sent) user false) evs.
Proof.
  intros Hlog Hevs. eapply Forall_impl; [exact Hevs|]. intros [now seg|sel now n]; [|done].
  intros (Hp & (x & Hx & Hh & Hpay) & Hb). simpl.
  assert (checkProtocolType seg = true ∧ acceptsProtocol false (Protocol (smeta seg)) = true ∧
    (Protocol (smeta seg) =? openSessionRequest) || (Protocol (smeta seg) =? openSessionResponse) ||
    (Protocol (smeta seg) =? dataServerToClient) || (Protocol (smeta seg) =? dataClientToServer) = true)
    as (H1 & H2 & H3).
  { unfold checkProtocolType, acceptsProtocol. destruct Hp as [-> | ->]; done. }
  unfold log_ok in Hlog. rewrite Forall_forall in Hlog.
  destruct (Hlog x Hx) as [Hq Hl].
  { unfold checkProtocolType in *. by rewrite <- (same_header_Protocol _ _ Hh). }
  split; [|by split_and!]. rewrite <- (same_header_Seq _ _ Hh) in Hq, Hl.
  split; [|split; [done|]].
  - rewrite Hpay. unfold srcOf. by rewrite Hl.
  - apply lookup_lt_Some in Hl. unfold len. lia.
Qed.

(** C1: reliable, ordered delivery.  A client session runs any sequence of
    writes, output rounds and acknowledgements over an underlay, for which it
    needs fewer than 2^32 - 1 segments (sequence numbers have 32 bits); a server
    session receives any selection of what was written, in any order and any
    number of times, mixed with reads.  Nothing panics, and what the server's
    application reads is a prefix of the bytes that the client's calls of
    [Write] accepted: all of each buffer whose [Write] succeeded, a prefix of
    the others. *)
Theorem reliable_delivery {T} {HB : BTree T} {HL : BTreeLaws T} {U} {HW : SegmentWriter U}
    {HWL : WriterLaws U} {V} {HV : SegmentWriter V} cbrt oob userBytes others user A
    now sid m us now2 sid2 m2 us2 txs (u : U) (v : V) :
  in_u32 sid → 0 < MaxFragmentSize m PacketTransport → writer_ok u → written u = [] →
  Forall (tx_event_ok true A) txs → cost txs < 2 ^ 32 - 1 →
  quotaOK userBytes us2 user = true →
  ∃ (c0 c' : Session T) u' calls parts (s0 : Session T),
    NewSession now sid true m us = Ret c0 ∧
    txRun cbrt oob userBytes txs (attach PacketTransport c0, u) = Ret (calls, (c', u')) ∧
    Forall2 accepted calls parts ∧
    NewSession now2 sid2 false m2 us2 = Ret s0 ∧
    ∀ rxs, Forall (from_client (written u') user) rxs →
      ∃ out s', rxRun cbrt oob userBytes others rxs [] (attach PacketTransport s0, v) =
          Ret (out, (s', v)) ∧
        out `prefix_of` concat parts.
Proof.
  intros Hid Hfs Hu Hw Htx Hcost Hq.
  destruct (NewSession_tx (T := T) A now sid true m us u Hid Hfs Hu Hw) as (c0 & Hnew & _ & Hinv).
  destruct (txRun_ret cbrt oob true A userBytes txs [] (attach PacketTransport c0) u Htx Hinv)
    as (calls & parts & sent & c' & u' & Hrun & (_ & _ & Hlog & _) & Hlen & Hacc & Hcat).
  { unfold live. change (len []) with 0. case_if; lia. }
  assert (0 ≤ len sent < 2 ^ 32) as HN.
  { pose proof (len_nonneg sent). change (len []) with 0 in Hlen. unfold live in Hlen.
    destruct (closeRequested c'), (closeRequested (attach PacketTransport c0)); lia. }
  destruct (fresh_rx (T := T) (srcOf sent) (len sent) userBytes user now2 sid2 false m2 us2)
    as (s0 & Hnew2 & Hcl & Hl); [lia|done|].
  exists c0, c', u', calls, parts, s0. split_and!; try done. intros rxs Hrx.
  destruct (rxRun_safe cbrt oob (srcOf sent) (len sent) ltac:(lia) userBytes others user rxs []
    (attach PacketTransport s0) v) as (out & s' & Hr & (_ & H1 & _ & _ & H2) & _);
    [apply Hl|apply Hl|rewrite Hcl; by apply (from_client_ok sent (written u'))|].
  exists out, s'. split; [done|]. simpl in Hcat. rewrite <- Hcat.
  etrans; [|by apply (stream_prefix sent (nextRecv s'))]. rewrite <- H2. by apply prefix_app_r.
Qed.

(** ** Witness *)

Lemma reliable_delivery_witness :
  ∃ (c0 c' : Session (list segment)) u' calls parts (s0 : Session (list segment)),
    NewSession 0 7 true 1400 ∅ = Ret c0 ∧
    txRun (HW := logWriter) (λ x, x) (λ _, 0) (λ _, None) demoTx (attach PacketTransport c0, []) =
      Ret (calls, (c', u')) ∧
    Forall2 accepted calls parts ∧
    NewSession 0 9 false 1400 ∅ = Ret s0 ∧
    ∀ rxs, Forall (from_client (written (WriterLaws := logWriter_laws) u') "") rxs →
      ∃ out s', rxRun (HW := logWriter) (λ x, x) (λ _, 0) (λ _, None) (ret tt) rxs []
          (attach PacketTransport s0, []) = Ret (out, (s', [])) ∧
        out `prefix_of` concat parts.
Proof.
  apply (reliable_delivery (HW := logWriter) (HWL := logWriter_laws) (HV := logWriter)
    (λ x, x) (λ _, 0) (λ _, None) (ret tt) "" 2);
    [unfold in_u32; lia|reflexivity|exact I|reflexivity|apply demoTx_ok|reflexivity|reflexivity].
Defined.

End SessionDelivery.
Export SessionDelivery.
