(* ===== verification/SessionLife.v ===== *)
(** * The life of a session

    Every operation of a session, in any order and interleaving, moves the
    session forward only: the state never goes back, a close request, a closed
    channel or an error flag is never taken back, and the four segment trees
    stay well formed.  The proofs go through one predicate on computations,
    [keeps], which the combinators of the session's monad preserve. *)

From S2P Require Import Prelude Mathext Float Congestion Metadata Cipher Segment Padding Wire SessionState Session SessionRecv SessionSend.

Module SessionLife.

Create HintDb session_life.

Section Life.
Context {T : Type} {HB : BTree T} {HL : BTreeLaws T} {U : Type} {HW : SegmentWriter U} {HWL : WriterLaws U}.
Context (cbrt : float → float) (oob : float → Z) (userBytes : string → option (Z → Z)).

(** What holds of a session at all times. *)
Definition life_inv (s : Session T) : Prop :=
  tree_ok (sendQueue s) ∧ tree_ok (sendBuf s) ∧ tree_ok (recvBuf s) ∧ tree_ok (recvQueue s) ∧
  (closedChan s = true → closeRequested s = true ∧ sessionClosed ≤ state s).

(** How a session may change. *)
Definition life_step (s s' : Session T) : Prop :=
  state s ≤ state s' ∧ (closeRequested s = true → closeRequested s' = true) ∧
  (closedChan s = true → closedChan s' = true) ∧
  (inputHasErr s = true → inputHasErr s' = true) ∧ (outputHasErr s = true → outputHasErr s' = true) ∧
  (openSessionRequestSent s = true → openSessionRequestSent s' = true) ∧
  id s' = id s ∧ isClient s' = isClient s ∧ mtu s' = mtu s ∧ users s' = users s ∧
  transportProtocol s' = transportProtocol s.

#[global] Instance life_step_preorder : PreOrder life_step.
Proof.
  split.
  - intros s. unfold life_step. split_and!; auto. lia.
  - unfold life_step. intros s1 s2 s3 H1 H2. destruct_and!. split_and!; auto; try congruence. lia.
Qed.

(** A computation that returns has kept the invariant and moved forward. *)
Definition keeps {A} (m : SM (T := T) (U := U) A) : Prop :=
  ∀ s u a s' u', life_inv s → m (s, u) = Ret (a, (s', u')) → life_inv s' ∧ life_step s s'.

Lemma keeps_ret {A} (a : A) : keeps (ret a).
Proof. intros s u b s' u' Hi [= <- <- <-]. by split. Qed.
Lemma keeps_get {A} (f : Session T → A) : keeps (get f).
Proof. intros s u b s' u' Hi [= <- <- <-]. by split. Qed.
Lemma keeps_crash {A} msg : keeps (A := A) (crash msg).
Proof. by intros s u b s' u' Hi. Qed.
Lemma keeps_bind {A B} (m : SM A) (k : A → SM B) :
  keeps m → (∀ a, keeps (k a)) → keeps (bind m k).
Proof.
  intros Hm Hk s u b s' u' Hi. unfold bind. destruct (m (s, u)) as [[a [s1 u1]]|e|p] eqn:E; try done.
  intros Hr. destruct (Hm _ _ _ _ _ Hi E) as [Hi1 Hs1]. destruct (Hk _ _ _ _ _ _ Hi1 Hr) as [Hi2 Hs2].
  split; [done|]. by etrans.
Qed.
Lemma keeps_upd f : (∀ s, life_inv s → life_inv (f s) ∧ life_step s (f s)) → keeps (upd f).
Proof. intros Hf s u b s' u' Hi [= <- <- <-]. by apply Hf. Qed.

(** An update of fields that the invariant does not mention. *)
Lemma same_life s s' :
  life_inv s → sendQueue s' = sendQueue s → sendBuf s' = sendBuf s → recvBuf s' = recvBuf s →
  recvQueue s' = recvQueue s → closedChan s' = closedChan s → closeRequested s' = closeRequested s →
  state s' = state s → life_step s s' → life_inv s' ∧ life_step s s'.
Proof.
  intros Hi E1 E2 E3 E4 E5 E6 E7 Hs. split; [|done]. unfold life_inv in *.
  by rewrite E1, E2, E3, E4, E5, E6, E7.
Qed.

Lemma life_step_flags s s' :
  state s' = state s → closeRequested s' = closeRequested s → closedChan s' = closedChan s →
  (inputHasErr s = true → inputHasErr s' = true) → (outputHasErr s = true → outputHasErr s' = true) →
  (openSessionRequestSent s = true → openSessionRequestSent s' = true) →
  id s' = id s → isClient s' = isClient s → mtu s' = mtu s → users s' = users s →
  transportProtocol s' = transportProtocol s → life_step s s'.
Proof. intros E1 E2 E3. unfold life_step. rewrite E1, E2, E3. intros. by split_and!. Qed.

Lemma forward_life next s : next < sessionClosed → life_inv s →
  life_inv (forwardStateTo next s) ∧ life_step s (forwardStateTo next s).
Proof.
  intros Hn (H1 & H2 & H3 & H4 & H5). unfold forwardStateTo. case_if; bool_to_Z; [by split|]. split.
  - split_and!; try done. intros Hc. destruct (H5 Hc). simpl. split; [done|lia].
  - unfold life_step. simpl. split_and!; auto. lia.
Qed.

(** A tree operation that keeps its tree well formed. *)
Definition tree_keeps {A} (f : segmentTree T → outcome (A * segmentTree T)) : Prop :=
  ∀ t a t', tree_ok t → f t = Ret (a, t') → tree_ok t'.

Lemma Insert_keeps seg : tree_keeps (Insert seg).
Proof.
  intros t a t' Ht. destruct (checkProtocolType seg) eqn:Ep; [|unfold Insert; by rewrite Ep].
  destruct (Z.lt_ge_cases (len (items t)) (cap t)).
  - destruct (Insert_ok seg t Ht Ep) as (t1 & -> & Hok & _); [done|]. by intros [= <- <-].
  - rewrite Insert_full by done. intros [= <- <-]. done.
Qed.
Lemma DeleteMin_keeps : tree_keeps DeleteMin.
Proof. intros t a t' Ht. destruct (DeleteMin_ok t Ht) as (t1 & -> & Hok & _). by intros [= <- <-]. Qed.
Lemma DeleteMinIf_keeps si : tree_keeps (DeleteMinIf si).
Proof. intros t a t' Ht. destruct (DeleteMinIf_ok si t Ht) as (t1 & -> & Hok & _). by intros [= <- <-]. Qed.

Ltac on_tree :=
  let Hf := fresh in let s := fresh "s" in let Hi := fresh in let E := fresh in
  intros Hf s ? ? ? ? Hi;
  unfold onSendQueue, onSendBuf, onRecvBuf, onRecvQueue, onTree; cbn [fst snd];
  match goal with |- context [match ?f ?t with _ => _ end] => destruct (f t) as [[? ?]| |] eqn:E end;
  try done; intros [= <- <- <-]; destruct Hi as (? & ? & ? & ? & ?);
  apply Hf in E; [|assumption]; (split; [by split_and!|by apply life_step_flags]).

Lemma keeps_sendQueue {A} (f : segmentTree T → outcome (A * segmentTree T)) :
  tree_keeps f → keeps (onSendQueue f).
Proof. on_tree. Qed.
Lemma keeps_sendBuf {A} (f : segmentTree T → outcome (A * segmentTree T)) :
  tree_keeps f → keeps (onSendBuf f).
Proof. on_tree. Qed.
Lemma keeps_recvBuf {A} (f : segmentTree T → outcome (A * segmentTree T)) :
  tree_keeps f → keeps (onRecvBuf f).
Proof. on_tree. Qed.
Lemma keeps_recvQueue {A} (f : segmentTree T → outcome (A * segmentTree T)) :
  tree_keeps f → keeps (onRecvQueue f).
Proof. on_tree. Qed.

(** ** The operations *)

Ltac upd_fields :=
  intros ? ?; cbv zeta; repeat case_if; try (apply forward_life; done);
  (apply same_life; [assumption|done..|by apply life_step_flags]).

(** Goes through a computation. *)
Ltac keep_step :=
  match goal with
  | H : keeps ?m |- keeps ?m => exact H
  | |- keeps (ret _) => apply keeps_ret
  | |- keeps (get _) => apply keeps_get
  | |- keeps (crash _) => apply keeps_crash
  | |- keeps (onSendQueue _) => apply keeps_sendQueue
  | |- keeps (onSendBuf _) => apply keeps_sendBuf
  | |- keeps (onRecvBuf _) => apply keeps_recvBuf
  | |- keeps (onRecvQueue _) => apply keeps_recvQueue
  | |- tree_keeps (Insert _) => apply Insert_keeps
  | |- tree_keeps DeleteMin => apply DeleteMin_keeps
  | |- tree_keeps (DeleteMinIf _) => apply DeleteMinIf_keeps
  | |- keeps (upd _) => apply keeps_upd; solve [upd_fields]
  | |- keeps (bind _ _) => apply keeps_bind; [|intros]
  | |- keeps (let _ := _ in _) => cbv zeta
  | |- keeps (match ?x with _ => _ end) => destruct x
  | |- keeps _ => solve [auto with session_life]
  end.
Ltac keep := repeat keep_step.

Lemma keeps_output now seg : keeps (output now seg).
Proof.
  intros s u a s' u' Hi. unfold output.
  destruct (transportProtocol s); [by intros [= <- <- <-]| |];
    destruct (writeOneSegment now (sblock s) seg u) as [[seg1|e|p] u1]; try done.
  1,3: intros [= <- <- <-]; apply same_life; try done; by apply life_step_flags.
  - by intros [= <- <- <-].
  - destruct e; by intros [= <- <- <-].
Qed.
#[local] Hint Resolve keeps_output : session_life.

Lemma keeps_close_end :
  keeps (upd (λ s, set_closedChan true (forwardStateTo sessionClosed
           (set_sendBuf (DeleteAll (sendBuf s)) (set_sendQueue (DeleteAll (sendQueue s))
              (set_closeRequested true s)))))).
Proof.
  apply keeps_upd. intros s (H1 & H2 & H3 & H4 & H5).
  destruct (DeleteAll_ok (sendQueue s) H1) as (Q & _). destruct (DeleteAll_ok (sendBuf s) H2) as (B & _).
  unfold forwardStateTo. simpl. case_if; bool_to_Z; unfold life_inv, life_step; simpl;
    (split; split_and!; auto; try done; lia).
Qed.

(** Once requested, a close request stays: the end of [closeWithError] may
    set it again. *)
Lemma keeps_requested {A} (m : SM (T := T) (U := U) A) (f : Session T → Session T) :
  keeps m → (∀ s, closeRequested s = true → f (set_closeRequested true s) = f s) →
  keeps (bind (upd (set_closeRequested true)) (λ _, bind m (λ _, upd (λ s, f (set_closeRequested true s))))) →
  keeps (bind (upd (set_closeRequested true)) (λ _, bind m (λ _, upd f))).
Proof.
  intros Hm Hf Hk s u a s' u' Hi Hr. apply (Hk s u a s' u' Hi).
  unfold bind, upd in *. cbn [fst snd] in *.
  destruct (m (set_closeRequested true s, u)) as [[b [s1 u1]]|e|p] eqn:E; try done.
  cbn [fst snd] in *. rewrite Hf; [done|].
  assert (life_inv (set_closeRequested true s)) as Hi1.
  { destruct Hi as (H1 & H2 & H3 & H4 & H5). split_and!; try done. intros Hc. simpl.
    split; [done|]. by apply H5. }
  destruct (Hm _ _ _ _ _ Hi1 E) as [_ (_ & Hreq & _)]. by apply Hreq.
Qed.

Lemma keeps_close others now err : keeps others → keeps (closeWithError others now err).
Proof.
  intros Ho. unfold closeWithError. apply keeps_bind; [keep|]. intros [|]; [keep|].
  set (f := λ s : Session T, set_closedChan true (forwardStateTo sessionClosed
    (set_sendBuf (DeleteAll (sendBuf s)) (set_sendQueue (DeleteAll (sendQueue s)) s)))).
  match goal with |- keeps (bind (upd (set_closeRequested true)) (λ _, bind (get ?g) (λ o, bind (@?m o) _))) =>
    assert (keeps (bind (get g) m)) as Hm; [|
    cut (keeps (bind (upd (set_closeRequested true)) (λ _, bind (bind (get g) m) (λ _, upd f))))] end.
  - keep.
  - intros Hk s u a s' u' Hi Hr. apply (Hk s u a s' u' Hi). revert Hr. unfold bind at 1 2 3.
    unfold bind at 4 5 6. done.
  - apply keeps_requested; [done| |].
    + intros s Hs. unfold f. by destruct s; simpl in *; subst.
    + apply keeps_bind; [|intros; apply keeps_bind; [exact Hm|intros; exact keeps_close_end]].
      apply keeps_upd. intros s (H1 & H2 & H3 & H4 & H5). split.
      * split_and!; try done. intros Hc. split; [done|]. by apply H5.
      * unfold life_step. split_and!; auto; try done.
Qed.
#[local] Hint Resolve keeps_close : session_life.

Lemma keeps_outputFailed others now e : keeps others → keeps (outputFailed others now e).
Proof. intros. unfold outputFailed. keep. Qed.
#[local] Hint Resolve keeps_outputFailed : session_life.

(** *** Reading *)

Lemma keeps_copyUnread n : keeps (copyUnread n).
Proof.
  intros s u a s' u' Hi. unfold copyUnread. intros [= <- <- <-].
  case_if; apply same_life; try done; by apply life_step_flags.
Qed.
#[local] Hint Resolve keeps_copyUnread : session_life.

Lemma keeps_drain fuel : keeps (drainRecvQueue fuel).
Proof.
  induction fuel as [|fuel IH]; cbn [drainRecvQueue]; keep.
Qed.
#[local] Hint Resolve keeps_drain : session_life.

Lemma keeps_takeEvent : keeps (upd (λ s, set_recvQueue (takeNotEmptyEvent (recvQueue s)) s)).
Proof.
  apply keeps_upd. intros s (H1 & H2 & H3 & H4 & H5). split; [by split_and!|by apply life_step_flags].
Qed.

Lemma keeps_readLoop fuel sel now deadline n : keeps (readLoop fuel sel now deadline n).
Proof.
  induction fuel as [|fuel IH]; cbn [readLoop]; repeat (keep_step || apply keeps_takeEvent).
Qed.
#[local] Hint Resolve keeps_readLoop : session_life.

Lemma keeps_Read sel now n : keeps (Read sel now n).
Proof. unfold Read. keep. Qed.
#[local] Hint Resolve keeps_Read : session_life.

(** *** Writing *)

Lemma keeps_waitForRoom fuel sel others now deadline n :
  keeps others → keeps (waitForRoom fuel sel others now deadline n).
Proof. intros Ho. induction fuel as [|fuel IH]; cbn [waitForRoom]; keep. Qed.
#[local] Hint Resolve keeps_waitForRoom : session_life.

Lemma keeps_writeFragments sel now deadline fs n ptr : keeps (writeFragments sel now deadline fs n ptr).
Proof.
  revert ptr. induction n as [|n IH]; intros ptr; cbn [writeFragments]; keep; apply IH.
Qed.
#[local] Hint Resolve keeps_writeFragments : session_life.

Lemma keeps_waitForProgress fuel others q : keeps others → keeps (waitForProgress fuel others q).
Proof.
  intros Ho. induction fuel as [|fuel IH]; cbn [waitForProgress]; keep.
  apply keeps_upd. intros s (H1 & H2 & H3 & H4 & H5). split; [by split_and!|by apply life_step_flags].
Qed.
#[local] Hint Resolve keeps_waitForProgress : session_life.

Lemma keeps_writeChunk fuel sel others now b : keeps others → keeps (writeChunk fuel sel others now b).
Proof. intros Ho. unfold writeChunk. keep. Qed.
#[local] Hint Resolve keeps_writeChunk : session_life.

Lemma keeps_writeChunks chunks fuel sel others now n b :
  keeps others → keeps (writeChunks chunks fuel sel others now n b).
Proof.
  intros Ho. revert n b. induction chunks as [|chunks IH]; intros n b; cbn [writeChunks]; keep; apply IH.
Qed.
#[local] Hint Resolve keeps_writeChunks : session_life.

Lemma keeps_sendOpenRequest b : keeps (sendOpenRequest b).
Proof. unfold sendOpenRequest. keep. Qed.
#[local] Hint Resolve keeps_sendOpenRequest : session_life.

Lemma keeps_Write fuel sel others now b : keeps others → keeps (Write fuel sel others now b).
Proof. intros Ho. unfold Write. keep. Qed.
#[local] Hint Resolve keeps_Write : session_life.

(** *** Input *)

Lemma keeps_removeAcked fuel now q : keeps (removeAcked cbrt oob fuel now q).
Proof. induction fuel as [|fuel IH]; cbn [removeAcked]; keep. Qed.
#[local] Hint Resolve keeps_removeAcked : session_life.

Lemma keeps_processAck now das : keeps (processAck cbrt oob now das).
Proof. unfold processAck. keep. Qed.
#[local] Hint Resolve keeps_processAck : session_life.

Lemma keeps_moveInOrder fuel : keeps (moveInOrder fuel).
Proof.
  induction fuel as [|fuel IH]; cbn [moveInOrder]; keep.
  apply keeps_upd. intros ss Hi. cbv zeta. case_match; apply same_life; try done; by apply life_step_flags.
Qed.
#[local] Hint Resolve keeps_moveInOrder : session_life.

Lemma keeps_deliver now seg : keeps (deliver cbrt oob now seg).
Proof. unfold deliver. keep. Qed.
#[local] Hint Resolve keeps_deliver : session_life.

Lemma keeps_answerOpen others now seg : keeps others → keeps (answerOpen userBytes others now seg).
Proof. intros Ho. unfold answerOpen. keep. Qed.
#[local] Hint Resolve keeps_answerOpen : session_life.

Lemma keeps_inputData others now seg : keeps others → keeps (inputData cbrt oob userBytes others now seg).
Proof. intros Ho. unfold inputData. keep. Qed.
#[local] Hint Resolve keeps_inputData : session_life.

Lemma keeps_inputAck now seg : keeps (inputAck cbrt oob now seg).
Proof.
  unfold inputAck. keep. apply keeps_upd. intros ss (H1 & H2 & H3 & H4 & H5).
  destruct (Ascend_ok (countAck (das_unAckSeq das)) tt (sendBuf ss) H2) as (_ & _ & Ht & _).
  { intros [] x. apply countAck_content. }
  split; [by split_and!|by apply life_step_flags].
Qed.
#[local] Hint Resolve keeps_inputAck : session_life.

Lemma keeps_inputClose others now seg : keeps others → keeps (inputClose others now seg).
Proof. intros Ho. unfold inputClose. keep. Qed.
#[local] Hint Resolve keeps_inputClose : session_life.

Lemma keeps_adoptBlock b : keeps (adoptBlock b).
Proof. unfold adoptBlock. keep. Qed.
#[local] Hint Resolve keeps_adoptBlock : session_life.

Lemma keeps_input others now seg : keeps others → keeps (input cbrt oob userBytes others now seg).
Proof. intros Ho. unfold input. keep. Qed.
#[local] Hint Resolve keeps_input : session_life.

Lemma keeps_runInputOnce others now : keeps others → keeps (runInputOnce cbrt oob userBytes others now).
Proof. intros Ho. unfold runInputOnce. keep. Qed.

(** *** Output *)

Lemma keeps_sendQueueStream fuel others now : keeps others → keeps (sendQueueStream fuel others now).
Proof. intros Ho. induction fuel as [|fuel IH]; cbn [sendQueueStream]; keep. Qed.
#[local] Hint Resolve keeps_sendQueueStream : session_life.

Lemma keeps_sendAck others now : keeps others → keeps (sendAck others now).
Proof. intros Ho. unfold sendAck. keep. Qed.
#[local] Hint Resolve keeps_sendAck : session_life.

Lemma listAscend_state {S} (I : S → Prop) (f : S → segment → S * segment * bool) st l :
  (∀ st x, I st → I (f st x).1.1) → I st → I (listAscend f st l).1.
Proof.
  intros Hf. revert st. induction l as [|x l IH]; intros st Hst; simpl; [done|].
  specialize (Hf st x Hst). destruct (f st x) as [[st' x'] [|]]; simpl in *; [|done].
  specialize (IH st' Hf). by destruct (listAscend f st' l).
Qed.

Lemma retransmit_life now s (st : retransmission T U) x :
  life_inv (rx_sess st).1 ∧ life_step s (rx_sess st).1 →
  life_inv (rx_sess (retransmit oob now st x).1.1).1 ∧
  life_step s (rx_sess (retransmit oob now st x).1.1).1.
Proof.
  destruct (rx_sess st) as [s1 u1] eqn:Es. cbn [fst]. intros [Hi Hs]. unfold retransmit. rewrite Es.
  assert (∀ s2, life_inv s2 → life_step s s2 →
    life_inv (set_outputHasErr true s2) ∧ life_step s (set_outputHasErr true s2)) as Herr.
  { intros s2 Hi2 Hs2. split; [done|]. etrans; [exact Hs2|]. unfold life_step. split_and!; auto; done. }
  case_if; [by apply Herr|]. case_if; [|done].
  match goal with |- context [output now ?y] => set (x1 := y) end.
  destruct (output now x1 (s1, u1)) as [[[[e|] x2] [s2 u2]]|e|m] eqn:E; cbn [fst snd rx_sess];
    try (destruct (keeps_output now x1 s1 u1 _ _ _ Hi E) as [Hi2 Hs2]; specialize (transitivity Hs Hs2) as Hs3).
  - by apply Herr.
  - done.
  - by rewrite Es.
  - done.
Qed.

Lemma keeps_retransmitDue others now : keeps others → keeps (retransmitDue oob others now).
Proof.
  intros Ho. unfold retransmitDue. keep.
  intros s u a s' u' Hi. cbn [fst snd]. set (st0 := mkRx (s, u) _ _ _ _ _ _).
  pose proof Hi as (_ & Hb & _).
  destruct (Ascend_ok (retransmit oob now) st0 (sendBuf s) Hb) as (A1 & _ & A3 & _);
    [intros; apply retransmit_seq|].
  pose proof (listAscend_state (λ st, life_inv (rx_sess st).1 ∧ life_step s (rx_sess st).1)
    (retransmit oob now) st0 (items (sendBuf s)) (retransmit_life now s) (conj Hi (reflexivity s))) as Hst.
  rewrite <- A1 in Hst. destruct (Ascend (retransmit oob now) st0 (sendBuf s)) as [st t]. simpl in Hst, A3.
  destruct (rx_sess st) as [s1 u1]. destruct (rx_crash st); [done|]. intros [= <- <- <-].
  destruct Hst as [(H1 & H2 & H3 & H4 & H5) Hs]. split; [by split_and!|].
  etrans; [exact Hs|]. by apply life_step_flags.
Qed.
#[local] Hint Resolve keeps_retransmitDue : session_life.

Lemma refresh_tree_ok seg (t : segmentTree T) :
  tree_ok t → len (items t) < cap t → tree_ok (refresh seg t).
Proof.
  intros (H1 & H2 & H3) Hroom. unfold refresh.
  destruct (bt_items_insert seg (tr t) H1) as [_ Hi].
  unfold tree_ok, items. simpl. rewrite Hi. fold (items t). split_and!; [by apply listInsert_sorted|done|].
  unfold len in *. rewrite listInsert_length. case_match; lia.
Qed.

Lemma keeps_sendNew fuel others now total : keeps others → keeps (sendNew oob fuel others now total).
Proof.
  intros Ho. revert total. induction fuel as [|fuel IH]; intros total; cbn [sendNew]; [keep|].
  intros s u a s' u' Hi. unfold bind at 1, get at 1. cbn [fst snd].
  destruct (Remaining (sendBuf s) <=? 1) eqn:Eroom; bool_to_Z; [by intros [= <- <- <-]|].
  unfold bind at 1, get at 1. cbn [fst snd]. unfold bind at 1.
  destruct (onSendQueue _ (s, u)) as [[[o d] [s1 u1]]|e|p] eqn:E1; try done.
  assert (sendBuf s1 = sendBuf s) as Eb.
  { revert E1. unfold onSendQueue, onTree. cbn [fst snd]. destruct (DeleteMinIf _ _) as [[? ?]|?|?]; try done.
    intros E. by inversion E. }
  apply keeps_sendQueue in E1 as [Hi1 Hs1]; [|keep|done].
  destruct o as [seg|]; [|by intros [= <- <- <-]]. destruct d; [|by intros [= <- <- <-]].
  unfold bind at 1, get at 1. cbn [fst snd]. match goal with |- context [Insert ?y] => set (seg1 := y) end.
  unfold bind at 1, onSendBuf, onTree. cbn [fst snd]. rewrite Eb.
  destruct (Insert seg1 (sendBuf s)) as [[ok t]|e|p] eqn:E2; try done.
  rewrite Remaining_items in Eroom.
  assert (tree_ok t ∧ len (items t) < cap t) as [Ht Hroom].
  { pose proof Hi as (_ & Hb & _).
    destruct (checkProtocolType seg1) eqn:Ep; [|unfold Insert in E2; by rewrite Ep in E2].
    destruct (Insert_ok seg1 (sendBuf s) Hb Ep) as (t1 & Hins & Ht & Hc & Hti & _); [lia|].
    rewrite Hins in E2. injection E2 as <- <-. split; [done|]. rewrite Hc, Hti. unfold len in *.
    rewrite listInsert_length. destruct (listInsert seg1 (items (sendBuf s))).1; lia. }
  assert (life_inv (set_sendBuf t s1) ∧ life_step s (set_sendBuf t s1)) as [Hi2 Hs2].
  { destruct Hi1 as (H1 & H2 & H3 & H4 & H5). split; [by split_and!|]. etrans; [exact Hs1|].
    by apply life_step_flags. }
  assert (∀ m : SM unit, keeps m → m (set_sendBuf t s1, u1) = Ret (a, (s', u')) →
    life_inv s' ∧ life_step s s') as Hthen.
  { intros m Hm Hr. destruct (Hm _ _ _ _ _ Hi2 Hr) as [? ?]. split; [done|]. by etrans. }
  destruct ok; cbn [negb]; [|by apply Hthen, keeps_outputFailed].
  unfold bind at 1. destruct (output now seg1 (set_sendBuf t s1, u1)) as [[[e seg2] [s3 u3]]|e|p] eqn:E3; try done.
  assert (sendBuf s3 = t) as Eb3.
  { revert E3. unfold output. destruct (transportProtocol (set_sendBuf t s1)); [intros E; by inversion E| |];
      destruct (writeOneSegment _ _ _ _) as [[?|[]|?] ?]; try done; intros E; by inversion E. }
  destruct (keeps_output _ _ _ _ _ _ _ Hi2 E3) as [Hi3 Hs3]. specialize (transitivity Hs2 Hs3) as Hs4.
  destruct e as [e|].
  { intros Hr. apply keeps_outputFailed in Hr as [? ?]; [|done|done]. split; [done|]. by etrans. }
  unfold bind at 1, upd. cbn [fst snd]. intros Hr. apply IH in Hr as [H1 H2].
  - split; [done|]. etrans; [exact Hs4|]. etrans; [|exact H2]. by apply life_step_flags.
  - destruct Hi3 as (H1 & H2 & H3 & H4 & H5). split_and!; try done. simpl. rewrite Eb3.
    by apply refresh_tree_ok.
Qed.
#[local] Hint Resolve keeps_sendNew : session_life.

Lemma keeps_runOutputOnce others now : keeps others → keeps (runOutputOnce oob others now).
Proof. intros Ho. unfold runOutputOnce, runOutputOnceStream, runOutputOncePacket. keep. Qed.

(** ** Interleavings *)

(** The calls that the application, the session's goroutines and the underlay
    make; [bg] is what the others do whenever a call waits. *)
Inductive sessOp :=
| OpRead (sel : nat → nat) (now n : Z)
| OpWrite (fuel : nat) (sel : nat → nat) (now : Z) (b : bytes) (bg : list sessOp)
| OpInput (now : Z) (bg : list sessOp)
| OpOutput (now : Z) (bg : list sessOp)
| OpClose (now : Z) (err : option goerr) (bg : list sessOp)
| OpReceive (seg : segment)
| OpDeadline (r w : option (option Z)).

Definition discard {A} (m : SM (T := T) (U := U) A) : SM (T := T) (U := U) unit := bind m (λ _, ret tt).

Definition setDeadlines (r w : option (option Z)) (s : Session T) : Session T :=
  let s := match r with Some t => SetReadDeadline t s | None => s end in
  match w with Some t => SetWriteDeadline t s | None => s end.

Fixpoint runOp (op : sessOp) : SM (T := T) (U := U) unit :=
  let fix go (l : list sessOp) : SM unit :=
    match l with [] => ret tt | op :: l => bind (runOp op) (λ _, go l) end in
  match op with
  | OpRead sel now n => discard (Read sel now n)
  | OpWrite fuel sel now b bg => discard (Write fuel sel (go bg) now b)
  | OpInput now bg => discard (runInputOnce cbrt oob userBytes (go bg) now)
  | OpOutput now bg => runOutputOnce oob (go bg) now
  | OpClose now err bg => closeWithError (go bg) now err
  | OpReceive seg => upd (λ s, set_recvChan (recvChan s ++ [seg]) s)
  | OpDeadline r w => upd (setDeadlines r w)
  end.

Fixpoint runOps (ops : list sessOp) : SM (T := T) (U := U) unit :=
  match ops with [] => ret tt | op :: ops => bind (runOp op) (λ _, runOps ops) end.

(** The induction that goes into [bg]. *)
Fixpoint sessOp_nested (P : sessOp → Prop)
    (Hr : ∀ sel now n, P (OpRead sel now n))
    (Hw : ∀ fuel sel now b bg, Forall P bg → P (OpWrite fuel sel now b bg))
    (Hi : ∀ now bg, Forall P bg → P (OpInput now bg))
    (Ho : ∀ now bg, Forall P bg → P (OpOutput now bg))
    (Hc : ∀ now err bg, Forall P bg → P (OpClose now err bg))
    (Hv : ∀ seg, P (OpReceive seg)) (Hd : ∀ r w, P (OpDeadline r w)) (op : sessOp) : P op :=
  let fix all (l : list sessOp) : Forall P l :=
    match l with
    | [] => Forall_nil_2 P
    | x :: l => Forall_cons_2 P x l (sessOp_nested P Hr Hw Hi Ho Hc Hv Hd x) (all l)
    end in
  match op with
  | OpRead sel now n => Hr sel now n
  | OpWrite fuel sel now b bg => Hw fuel sel now b bg (all bg)
  | OpInput now bg => Hi now bg (all bg)
  | OpOutput now bg => Ho now bg (all bg)
  | OpClose now err bg => Hc now err bg (all bg)
  | OpReceive seg => Hv seg
  | OpDeadline r w => Hd r w
  end.

Lemma keeps_all bg : Forall (λ op, keeps (runOp op)) bg → keeps (runOps bg).
Proof. induction 1; cbn [runOps]; keep. Qed.

Lemma runOp_keeps op : keeps (runOp op).
Proof.
  induction op as [sel now n|fuel sel now b bg IH|now bg IH|now bg IH|now err bg IH|seg|r w]
    using sessOp_nested; try apply keeps_all in IH.
  - apply keeps_bind; [apply keeps_Read|intros; apply keeps_ret].
  - apply keeps_bind; [by apply keeps_Write|intros; apply keeps_ret].
  - apply keeps_bind; [by apply keeps_runInputOnce|intros; apply keeps_ret].
  - by apply keeps_runOutputOnce.
  - by apply keeps_close.
  - cbn [runOp]. keep.
  - cbn [runOp]. apply keeps_upd. intros s Hi. unfold setDeadlines.
    destruct r, w; apply same_life; try done; by apply life_step_flags.
Qed.

Lemma runOps_keeps ops : keeps (runOps ops).
Proof. apply keeps_all. apply Forall_forall. intros op _. apply runOp_keeps. Qed.
End Life.

Lemma NewSession_life {T} {HB : BTree T} {HL : BTreeLaws T} now sid client m us tp :
  ∃ s : Session T, NewSession now sid client m us = Ret s ∧ life_inv (attach tp s).
Proof.
  unfold NewSession.
  destruct (SetRTOMultiplier f64_1_5 (SetMaxAckDelay periodicOutputInterval NewRTTStats)) as [rtt|e|p] eqn:E;
    [|vm_compute in E; discriminate..]. cbn [obind].
  destruct (newSegmentTree segmentTreeCapacity) as [t|e|p] eqn:Et; [|done..]. simpl.
  destruct (newSegmentTree segmentTreeRecvQueueCapacity) as [q|e|p] eqn:Eq; [|done..]. simpl.
  destruct (new_tree_ok _ _ Et) as (H1 & _). destruct (new_tree_ok _ _ Eq) as (H4 & _).
  injection Eq as <-. eexists. split; [done|]. by split_and!.
Qed.

(** C8: the life of a session only goes forward.  From a new session, attached
    to any transport, every interleaving of reads, writes, arriving segments,
    input and output rounds, deadlines and closes, wherever the calls wait for
    each other, leads to a session whose four trees are well formed, whose state
    is at least what it was, which has not taken back a close request, a closed
    channel or an error, and whose closed channel implies the closed state.
    After a close request every [Write] fails with a closed pipe and closing
    again does nothing. *)
Theorem session_lifecycle {T} {HB : BTree T} {HL : BTreeLaws T} {U} {HW : SegmentWriter U}
    {HWL : WriterLaws U} cbrt oob userBytes now sid client m us tp (u : U) ops1 ops2
    (s1 s2 s0 : Session T) (u1 u2 : U) :
  NewSession now sid client m us = Ret s0 →
  runOps cbrt oob userBytes ops1 (attach tp s0, u) = Ret (tt, (s1, u1)) →
  runOps cbrt oob userBytes ops2 (s1, u1) = Ret (tt, (s2, u2)) →
  life_inv s1 ∧ life_inv s2 ∧ life_step s1 s2 ∧
  (closeRequested s1 = true →
    (∀ fuel sel others t b,
      Write fuel sel others t b (s2, u2) = Ret (Done 0 (Some ErrClosedPipe), (s2, u2))) ∧
    (∀ others t err, closeWithError others t err (s2, u2) = Ret (tt, (s2, u2)))).
Proof.
  intros Hnew Hr1 Hr2.
  destruct (NewSession_life (T := T) now sid client m us tp) as (s & Hs & Hi).
  rewrite Hnew in Hs. injection Hs as <-.
  destruct (runOps_keeps _ _ _ _ _ _ _ _ _ Hi Hr1) as [Hi1 Hs1].
  destruct (runOps_keeps _ _ _ _ _ _ _ _ _ Hi1 Hr2) as [Hi2 Hs2].
  split_and!; try done. intros Hc. pose proof Hs2 as (_ & Hreq & _). specialize (Hreq Hc).
  split; intros.
  - unfold Write, bind, get. cbn [fst snd]. by rewrite Hreq.
  - unfold closeWithError, bind, get. cbn [fst snd]. by rewrite Hreq.
Qed.

(** ** Witness: a client that writes, reads and closes *)

Definition demoOps1 : list sessOp :=
  [OpWrite 1 (λ _, 0%nat) 5 [1; 2; 3] []; OpOutput 6 []; OpReceive (demoData 0); OpInput 7 [];
   OpRead (λ _, 0%nat) 8 2; OpClose 9 None [OpOutput 10 []]].
Definition demoOps2 : list sessOp := [OpOutput 11 []; OpRead (λ _, 0%nat) 12 5; OpDeadline None (Some None)].

Lemma demo_runs :
  ∃ (s0 s1 s2 : Session (list segment)) u1 u2, NewSession 0 7 true 1400 ∅ = Ret s0 ∧
    runOps (HW := logWriter) (λ x, x) (λ _, 0) (λ _, None) demoOps1 (attach PacketTransport s0, []) =
      Ret (tt, (s1, u1)) ∧
    runOps (HW := logWriter) (λ x, x) (λ _, 0) (λ _, None) demoOps2 (s1, u1) = Ret (tt, (s2, u2)) ∧
    closeRequested s1 = true.
Proof.
  eexists _, _, _, _, _. split; [vm_compute; reflexivity|]. split; [vm_compute; reflexivity|].
  split; [vm_compute; reflexivity|]. reflexivity.
Qed.

Lemma session_lifecycle_witness :
  ∃ (s1 s2 : Session (list segment)) u2, life_inv s1 ∧ life_step s1 s2 ∧
    Write (U := list segment) 3 (λ _, 0%nat) (ret tt) 20 [1; 2] (s2, u2) =
      Ret (Done 0 (Some ErrClosedPipe), (s2, u2)).
Proof.
  destruct demo_runs as (s0 & s1 & s2 & u1 & u2 & H0 & H1 & H2 & Hc). exists s1, s2, u2.
  destruct (session_lifecycle (HW := logWriter) (HWL := logWriter_laws) (λ x, x) (λ _, 0) (λ _, None)
    0 7 true 1400 ∅ PacketTransport [] demoOps1 demoOps2 s1 s2 s0 u1 u2 H0 H1 H2) as (L1 & L2 & L3 & L4).
  destruct (L4 Hc) as [W _]. exact (conj L1 (conj L3 (W 3%nat (λ _, 0%nat) (ret tt) 20 [1; 2]))).
Defined.

End SessionLife.
Export SessionLife.
