(* ===== verification/UnderlayWriter.v ===== *)
(** * The [writeOneSegment] of the two underlays, as segment writers

    SessionDelivery has the writer of a packet underlay; here are the writer of a
    stream underlay and the one that the event loops use, which is either.  The
    event loop itself writes only one kind of segment, the request to close a
    session that it does not know: a writer that is ready does not panic on it. *)

From S2P Require Import Prelude Mathext Float Congestion Common Rng Metadata Cipher Segment Padding Wire.
From S2P Require Import UnderlayPacket UnderlayStream SessionState Session SessionDelivery.

Module UnderlayWriter.

(** A stream underlay with the ciphers of its two directions, the draws of each
    call, what the connection accepts, and the segments written. *)
Record StreamWriter := mkStreamWriter {
  sw_underlay : StreamUnderlay;
  sw_recv : option AEADBlockCipher;
  sw_send : option AEADBlockCipher;
  sw_draw : nat → segDraw;
  sw_intn : nat → nat → Z → Z;
  sw_accepts : list bytes → bool;
  sw_calls : nat;
  sw_log : list (segment * list bytes)
}.

Definition afterStreamCall (w : StreamWriter) (send : option AEADBlockCipher) (l : list (segment * list bytes)) : StreamWriter :=
  mkStreamWriter (sw_underlay w) (sw_recv w) send (sw_draw w) (sw_intn w) (sw_accepts w) (S (sw_calls w)) (sw_log w ++ l).

Section Writers.
Context (Seal : bytes → bytes → bytes → bytes) (Open : bytes → bytes → bytes → option bytes).
Context (oob : float → Z) (appVersion hostName : string) (fixedCache : gmap string Z).

(** The cipher has moved on also when the connection refuses the bytes. *)
Definition streamWriter : SegmentWriter StreamWriter := λ now _ seg w,
  match streamWriteOneSegment Seal oob appVersion hostName fixedCache (Z.quot now 1000000)
          (sw_draw w (sw_calls w)) (sw_intn w (sw_calls w)) (sw_underlay w) (sw_recv w) (sw_send w) seg with
  | Ret (seg', c, pieces) =>
      if sw_accepts w pieces then (Ret seg', afterStreamCall w (Some c) [(seg', pieces)])
      else (Err (Errorf "Write() failed: %w"), afterStreamCall w (Some c) [])
  | Err e => (Err e, afterStreamCall w (sw_send w) [])
  | Panic p => (Panic p, afterStreamCall w (sw_send w) [])
  end.

(** The underlay of an event loop. *)
Definition underlayWriter : SegmentWriter (PacketWriter + StreamWriter) := λ now b seg w,
  match w with
  | inl w => let '(r, w) := packetWriter Seal oob appVersion hostName fixedCache now b seg w in (r, inl w)
  | inr w => let '(r, w) := streamWriter now b seg w in (r, inr w)
  end.

(** A cipher as the constructors make it, with a nonce pattern that the
    configuration checked. *)
Definition cipher_ok (c : AEADBlockCipher) : Prop :=
  aeadType c = XChaCha20Poly1305 ∧ len (key c) = 32 ∧ ∀ q, noncePattern c = Some q → pattern_ok q.

(** The draws for segments without a payload are in their ranges. *)
Definition draws_ok (overhead : Z) (draw : nat → segDraw) : Prop :=
  ∀ k m, metadata_ok m → payloadLenOf m = 0 → seg_draw_ok oob overhead m (draw k).

Definition packet_ready (w : PacketWriter) : Prop :=
  draws_ok packetOverhead (pw_draw w) ∧
  (pu_isClient (pw_underlay w) = true →
   ∃ b, pu_block (pw_underlay w) = Some b ∧ cipher_ok b ∧ enableImplicitNonce b = false).

Definition stream_ready (w : StreamWriter) : Prop :=
  draws_ok streamOverhead (sw_draw w) ∧ (∀ k, intn_ok (sw_intn w k)) ∧
  (∀ c, sw_send w = Some c → cipher_ok c) ∧ (∀ c, sw_recv w = Some c → cipher_ok c) ∧
  (su_isClient (sw_underlay w) = true → ∃ b, su_block (sw_underlay w) = Some b ∧ cipher_ok b).

(** An underlay that has been set up, of the transport [tp]. *)
Definition underlay_ready (tp : TransportProtocol) (w : PacketWriter + StreamWriter) : Prop :=
  match w with
  | inl w => tp = PacketTransport ∧ packet_ready w
  | inr w => tp = StreamTransport ∧ stream_ready w
  end.

(** A close request without payload. *)
Definition bare_close (seg : segment) : Prop :=
  ∃ sid seq, in_u32 sid ∧ in_u32 seq ∧ payload seg = [] ∧
    smeta seg = MSession (mkSession (mkBase closeSessionRequest 0) sid seq statusOK 0 0).

Lemma bare_close_ok seg : bare_close seg → metadata_ok (smeta seg) ∧ payloadLenOf (smeta seg) = 0 ∧ payload seg = [].
Proof.
  intros (sid & seq & H1 & H2 & Hp & ->). split_and!; [|done|done]. split; [|done].
  split_and!; cbn; try done; (split_and!; done) || (unfold in_u8, in_u16, in_u32; lia).
Qed.

Definition not_panic {A} (r : outcome A) : Prop := match r with Panic _ => False | _ => True end.

Lemma packet_close_safe now w seg :
  packet_ready w → bare_close seg →
  (∀ b, block seg = Some b → cipher_ok b ∧ enableImplicitNonce b = false) →
  not_panic (packetWriter Seal oob appVersion hostName fixedCache now None seg w).1.
Proof.
  intros (Hd & Hcl) Hseg Hblk. destruct (bare_close_ok seg Hseg) as (Hm & Hpl & Hp).
  unfold packetWriter, packetWriteOneSegment.
  destruct (pu_isClient (pw_underlay w) && negb (bool_decide (pw_addr w = pu_serverAddr (pw_underlay w)))) eqn:Ea;
    [unfold packetEncode; by rewrite Ea|].
  assert (Haddr : pu_isClient (pw_underlay w) = true → pw_addr w = pu_serverAddr (pw_underlay w)).
  { intros E. rewrite E in Ea. by case_bool_decide. }
  assert (Hc : (∃ b, packetCipherFor (pw_underlay w) (λ _, Some None) seg = Ret b ∧ cipher_ok b ∧ enableImplicitNonce b = false) ∨
    packetCipherFor (pw_underlay w) (λ _, Some None) seg = Err ErrNotReady).
  { unfold packetCipherFor. destruct (pu_isClient (pw_underlay w)).
    - left. destruct (Hcl eq_refl) as (b & -> & ?). by exists b.
    - destruct (block seg) as [b|]; [left; exists b; by split; [|apply Hblk]|by right]. }
  destruct Hc as [(b & Hc & (_ & _ & Hpat) & Hst)|Hc].
  - destruct (packetEncode_ret Seal oob appVersion hostName fixedCache (Z.quot now 1000000) (pw_draw w (pw_calls w))
      (pw_underlay w) (λ _, Some None) seg (pw_addr w) b Hc Hst Hpat Haddr Hm) as (m & n & p1 & p2 & b' & -> & _);
      [by rewrite Hpl, Hp|by apply Hd|]. cbn [obind]. by case_if.
  - unfold packetEncode. rewrite Ea, Hc. done.
Qed.

Context (laws : aead_laws Seal Open).

Lemma Encrypt_total d p c : draw_ok d → (∀ q, noncePattern c = Some q → pattern_ok q) →
  ∃ ct c', Encrypt Seal d p c = Ret (ct, c') ∧ len ct ≤ DefaultNonceSize + len p + DefaultOverhead.
Proof.
  intros Hd Hp. destruct (decide (enableImplicitNonce c = true ∧ implicitNonce c ≠ [])) as [[He Hn]|Hf].
  - unfold Encrypt. rewrite He. rewrite (proj2 (Z.eqb_neq _ _)) by (intros H; by apply len_0 in H).
    rewrite (increaseNonce_ret c) by done. cbn [obind]. eexists _, _. split; [done|].
    rewrite (seal_len _ _ laws). unfold DefaultNonceSize. lia.
  - destruct (Encrypt_first Seal d p c Hd Hp) as (n & c' & -> & Hl & _).
    + destruct (enableImplicitNonce c); [|by left]. right. destruct (implicitNonce c); [done|]. by destruct Hf.
    + eexists _, _. split; [done|]. rewrite len_app, (seal_len _ _ laws). lia.
Qed.

Lemma Clone_cipher_ok b : cipher_ok b → ∃ c, Clone b = Ret c ∧ cipher_ok c.
Proof.
  intros (Ht & Hk & Hp). unfold Clone, newXChaCha20Poly1305BlockCipher. rewrite Ht, Hk. eexists. split; [done|]. by split_and!.
Qed.

Lemma sendCipher_ok w : stream_ready w →
  (∃ c, maybeInitSendBlockCipher (sw_underlay w) (sw_recv w) (sw_send w) = Ret c ∧ cipher_ok c) ∨
  ∃ e, maybeInitSendBlockCipher (sw_underlay w) (sw_recv w) (sw_send w) = Err e.
Proof.
  intros (_ & _ & Hs & Hr & Hc). unfold maybeInitSendBlockCipher. destruct (sw_send w) as [c|]; [left; exists c; by auto|].
  destruct (su_isClient (sw_underlay w)).
  - destruct (Hc eq_refl) as (b & -> & Hb). left. by apply Clone_cipher_ok.
  - destruct (sw_recv w) as [r|]; [|right; by eexists]. left. destruct (Clone_cipher_ok r) as (c & -> & Hok); [by apply Hr|].
    eexists. split; [done|]. exact Hok.
Qed.

Lemma stream_close_safe now b w seg :
  stream_ready w → bare_close seg → not_panic (streamWriter now b seg w).1.
Proof.
  intros Hw Hseg. destruct (bare_close_ok seg Hseg) as (Hm & Hpl & Hp). pose proof Hw as (Hd & Hi & _).
  unfold streamWriter, streamWriteOneSegment.
  destruct (sendCipher_ok w Hw) as [(c & -> & _ & _ & Hpat)|[e ->]]; [|done]. cbn [obind].
  specialize (Hd (sw_calls w) (smeta seg) Hm Hpl).
  destruct (choosePaddings_ret oob appVersion hostName fixedCache streamOverhead (su_mtu (sw_underlay w))
    StreamTransport (sw_draw w (sw_calls w)) (UserName (ctx c)) (smeta seg) Hm) as
    (m & p1 & p2 & -> & Hm' & Hsame & _ & _ & _ & _ & Hl1 & Hl2); [done|done|].
  cbn [obind]. destruct Hd as (Hnd & _). pose proof (Marshal_length (Z.quot now 1000000) m) as Hml.
  destruct (Marshal (Z.quot now 1000000) m) as [m1 meta]. cbn [snd] in Hml.
  destruct (Encrypt_total (sd_nonce (sw_draw w (sw_calls w))) meta c Hnd Hpat) as (ct & c' & -> & Hct). cbn [obind].
  rewrite Hp. change (0 <? len (@nil Z)) with false. cbn [obind].
  assert (Hlen : len (ct ++ p1 ++ [] ++ p2) ≤ 4096).
  { pose proof (MaxPaddingSize_range (su_mtu (sw_underlay w)) StreamTransport). assert (len meta = 32) as Hlm by (unfold len; by rewrite Hml).
    rewrite !len_app, len_nil. unfold MaxPaddingSize, DefaultOverhead, DefaultNonceSize in *. lia. }
  destruct (writeWithPossibleFragment_ret oob (sw_underlay w) (sw_intn w (sw_calls w)) _ (Hi _) Hlen) as (ps & Hps & _).
  destruct m1; [rewrite Hps|]; cbn [obind]; by case_if.
Qed.

(** An underlay that is ready writes, or refuses, a close request. *)
Lemma close_request_safe now tp w seg :
  underlay_ready tp w → bare_close seg →
  (∀ b, block seg = Some b → tp = PacketTransport → cipher_ok b ∧ enableImplicitNonce b = false) →
  not_panic (underlayWriter now None seg w).1.
Proof.
  intros Hw Hseg Hblk. destruct w as [w|w]; destruct Hw as [-> Hw]; unfold underlayWriter.
  - pose proof (packet_close_safe now w seg Hw Hseg) as H. destruct (packetWriter _ _ _ _ _ _ _ _ _). cbn in *. apply H. auto.
  - pose proof (stream_close_safe now None w seg Hw Hseg) as H. by destruct (streamWriter _ _ _ _).
Qed.
End Writers.

End UnderlayWriter.
Export UnderlayWriter.
