(* ===== verification/UnderlayLoop.v ===== *)
(** * pkg/protocol/underlay_base.go and the event loops of the two underlays

    The session map of an underlay, its operations, and what one round of
    [RunEventLoop] does with a segment that was read.  The two loops differ in
    five places, selected by [u_transport].  A channel is a list with its
    capacity: a send on a full channel blocks the loop, which is a result of its
    own ([Stuck]).  Metrics, logging, the goroutines of a session (Session.v
    models what they run) and the socket are not represented; [writeOneSegment]
    of the class [SegmentWriter] is the underlay's own method, which the theorem on
    dispatching takes from UnderlayWriter. *)

From S2P Require Import Prelude Mathext Float Congestion Common Rng Metadata Cipher Segment Padding Wire.
From S2P Require Import UnderlayPacket UnderlayStream SessionState Session SessionRecv SessionSend SessionDelivery UnderlayWriter.

Module UnderlayLoop.

Definition sessionChanCapacity : Z := 64.
Definition idleSessionTimeout : Z := 60 * 1000000.   (** microseconds *)

(** A session with its remote address; [readySessions] holds session IDs. *)
Record Underlay (T : Type) := mkUnderlay {
  u_isClient : bool;
  u_mtu : Z;
  u_transport : TransportProtocol;
  u_users : gmap string (list Quota);
  sessionMap : gmap Z (Session T * string);
  readySessions : list Z;
  u_done : bool
}.
Arguments mkUnderlay {T}.
Arguments u_isClient {T}. Arguments u_mtu {T}. Arguments u_transport {T}. Arguments u_users {T}.
Arguments sessionMap {T}. Arguments readySessions {T}. Arguments u_done {T}.

(** How a round of the loop ends: the loop goes on, returns an error or nil, or
    waits for a channel that is full. *)
Inductive loopResult :=
| Continue
| Stop (e : option goerr)
| Stuck.

Section Loop.
Context {T : Type} `{BTree T} {U : Type} `{SegmentWriter U}.

Definition set_sessionMap (m : gmap Z (Session T * string)) (u : Underlay T) : Underlay T :=
  mkUnderlay (u_isClient u) (u_mtu u) (u_transport u) (u_users u) m (readySessions u) (u_done u).
Definition set_readySessions (l : list Z) (u : Underlay T) : Underlay T :=
  mkUnderlay (u_isClient u) (u_mtu u) (u_transport u) (u_users u) (sessionMap u) l (u_done u).

Definition newBaseUnderlay (client : bool) (m : Z) (tp : TransportProtocol)
    (us : gmap string (list Quota)) : Underlay T :=
  mkUnderlay client m tp us ∅ [] false.

(** The checks of [baseUnderlay.AddSession]. *)
Definition addSessionError (s : Session T) (u : Underlay T) : option goerr :=
  if id s =? 0 then Some (Errorf "session ID can't be 0")
  else if isStateAfter sessionAttached true s
  then Some (Errorf "session %d is already attached to a underlay")
  else if u_isClient u && negb (isClient s)
  then Some (Errorf "can't add a server session to a client underlay")
  else if negb (u_isClient u) && isClient s
  then Some (Errorf "can't add a client session to a server underlay")
  else match sessionMap u !! id s with
       | Some _ => Some ErrAlreadyExist
       | None => None
       end.

(** [AddSession] of either underlay: the session is attached and its loops
    start. *)
Definition AddSession (s : Session T) (remoteAddr : string) (u : Underlay T)
  : option goerr * Underlay T :=
  match addSessionError s u with
  | Some e => (Some e, u)
  | None => (None, set_sessionMap (<[id s := (attach (u_transport u) s, remoteAddr)]> (sessionMap u)) u)
  end.

(** [RemoveSession]: the session leaves the map and is closed; the closed
    session is returned, since others still refer to it. *)
Definition RemoveSession (others : SM (T := T) (U := U) unit) (now : Z) (s : Session T)
    (u : Underlay T) (w : U) : outcome (option goerr * Session T * Underlay T * U) :=
  if isStateBefore sessionAttached false s
  then Ret (Some (Errorf "session %d is not attached to this underlay"), s, u, w)
  else
    match closeWithError others now None (s, w) with
    | Ret (_, (s', w')) => Ret (None, s', set_sessionMap (delete (id s) (sessionMap u)) u, w')
    | Err e => Err e
    | Panic p => Panic p
    end.

Definition SessionCount (u : Underlay T) : Z := Z.of_nat (size (sessionMap u)).

(** A session is removed when it is closed, or idle on a packet underlay. *)
Definition shouldClean (now : Z) (tp : TransportProtocol) (s : Session T) : bool :=
  closedChan s ||
  match tp with
  | PacketTransport => idleSessionTimeout <? now - lastRXTime s
  | _ => false
  end.

Fixpoint cleanList (others : SM (T := T) (U := U) unit) (now : Z) (l : list (Z * (Session T * string)))
    (u : Underlay T) (w : U) : outcome (Underlay T * U) :=
  match l with
  | [] => Ret (u, w)
  | (_, (s, _)) :: l =>
      if shouldClean now (u_transport u) s then
        match RemoveSession others now s u w with
        | Ret (_, _, u, w) => cleanList others now l u w
        | Err e => Err e
        | Panic p => Panic p
        end
      else cleanList others now l u w
  end.

Definition cleanSessions (others : SM (T := T) (U := U) unit) (now : Z) (u : Underlay T) (w : U)
  : outcome (Underlay T * U) :=
  cleanList others now (map_to_list (sessionMap u)) u w.

(** [Accept]: [None] when it waits. *)
Definition Accept (u : Underlay T) : option (outcome Z) * Underlay T :=
  match readySessions u with
  | q :: l => (Some (Ret q), set_readySessions l u)
  | [] => if u_done u then (Some (Err ErrClosedPipe), u) else (None, u)
  end.

(** [Close]: every session is closed; the map is emptied by the next clean. *)
Fixpoint closeList (others : SM (T := T) (U := U) unit) (now : Z) (l : list (Z * (Session T * string)))
    (m : gmap Z (Session T * string)) (w : U) : outcome (gmap Z (Session T * string) * U) :=
  match l with
  | [] => Ret (m, w)
  | (k, (s, a)) :: l =>
      match closeWithError others now None (s, w) with
      | Ret (_, (s', w')) => closeList others now l (<[k := (s', a)]> m) w'
      | Err e => Err e
      | Panic p => Panic p
      end
  end.

Definition CloseUnderlay (others : SM (T := T) (U := U) unit) (now : Z) (u : Underlay T) (w : U)
  : outcome (Underlay T * U) :=
  if u_done u then Ret (u, w)
  else
    match closeList others now (map_to_list (sessionMap u)) (sessionMap u) w with
    | Ret (m, w) =>
        Ret (mkUnderlay (u_isClient u) (u_mtu u) (u_transport u) (u_users u) m (readySessions u) true, w)
    | Err e => Err e
    | Panic p => Panic p
    end.

(** ** Dispatch *)

(** [session.recvChan <- seg]. *)
Definition deliverTo (q : Z) (s : Session T) (addr : string) (seg : segment) (u : Underlay T)
  : loopResult * Underlay T :=
  if segmentChanCapacity <=? len (recvChan s) then (Stuck, u)
  else (Continue, set_sessionMap (<[q := (set_recvChan (recvChan s ++ [seg]) s, addr)]> (sessionMap u)) u).

(** The session ID of metadata that must be a session structure. *)
Definition openID (seg : segment) : outcome Z :=
  match smeta seg with
  | MSession ss => Ret (ss_sessionID ss)
  | MDataAck _ => Panic "interface conversion"
  end.

Definition onOpenSessionRequest (now : Z) (seg : segment) (remoteAddr : string) (u : Underlay T)
  : outcome (loopResult * Underlay T) :=
  if u_isClient u then Ret (Stop (Some ErrInvalidOperation), u)
  else
    let! sessionID := openID seg in
    if sessionID =? 0 then Ret (Stop (Some (Errorf "reserved session ID %d is used")), u)
    else
      match sessionMap u !! sessionID with
      | Some _ =>
          match u_transport u with
          | PacketTransport => Ret (Continue, u)
          | _ => Ret (Stop (Some (Errorf "%v received open session request, but session ID %d is already used")), u)
          end
      | None =>
          let! s := NewSession now sessionID false (u_mtu u) (u_users u) in
          let addr := match u_transport u with PacketTransport => remoteAddr | _ => "" end in
          let '(_, u) := AddSession s addr u in
          match sessionMap u !! sessionID with
          | None => Ret (Continue, u)
          | Some (s, addr) =>
              match deliverTo sessionID s addr seg u with
              | (Continue, u) =>
                  if sessionChanCapacity <=? len (readySessions u) then Ret (Stuck, u)
                  else Ret (Continue, set_readySessions (readySessions u ++ [sessionID]) u)
              | r => Ret r
              end
          end
      end.

Definition onOpenSessionResponse (seg : segment) (u : Underlay T) : outcome (loopResult * Underlay T) :=
  if negb (u_isClient u) then Ret (Stop (Some ErrInvalidOperation), u)
  else
    let! sessionID := openID seg in
    match sessionMap u !! sessionID with
    | None => Ret (Stop (Some (Errorf "session ID %d is not found")), u)
    | Some (s, addr) => Ret (deliverTo sessionID s addr seg u)
    end.

Definition onCloseSession (seg : segment) (u : Underlay T) : outcome (loopResult * Underlay T) :=
  let! sessionID := openID seg in
  match sessionMap u !! sessionID with
  | None => Ret (Continue, u)
  | Some (s, addr) => Ret (deliverTo sessionID s addr seg u)
  end.

(** The request to the peer to close a session that is not in the map. *)
Definition closeRequestFor (seg : segment) (das : dataAckStruct) (tp : TransportProtocol) : segment :=
  let c := sessionSegment closeSessionRequest (das_sessionID das) (das_unAckSeq das) statusOK [] tp in
  match tp with
  | PacketTransport =>
      mkSegment (smeta c) (payload c) (transport c) (ackCount c) (txCount c) (txTime c) (txTimeout c) (block seg)
  | _ => c
  end.

(** A packet underlay answers only when it knows the user. *)
Definition answersUnknown (tp : TransportProtocol) (seg : segment) : bool :=
  match tp with PacketTransport => match block seg with Some _ => true | None => false end | _ => true end.

Definition onData (now : Z) (seg : segment) (das : dataAckStruct) (u : Underlay T) (w : U)
  : outcome (loopResult * Underlay T * U) :=
  match sessionMap u !! das_sessionID das with
  | Some (s, addr) => let '(r, u) := deliverTo (das_sessionID das) s addr seg u in Ret (r, u, w)
  | None =>
      if answersUnknown (u_transport u) seg then
        match writeOneSegment now None (closeRequestFor seg das (u_transport u)) w with
        | (Ret _, w) => Ret (Continue, u, w)
        | (Err _, w) => Ret (Stop (Some (Errorf "writeOneSegment() failed: %w")), u, w)
        | (Panic p, _) => Panic p
        end
      else Ret (Continue, u, w)
  end.

(** What a round does with a segment from [addr]. *)
Definition dispatch (now : Z) (seg : segment) (addr : string) (u : Underlay T) (w : U)
  : outcome (loopResult * Underlay T * U) :=
  let p := Protocol (smeta seg) in
  if isSessionProtocol p then
    if p =? openSessionRequest then
      let! (r, u) := onOpenSessionRequest now seg addr u in Ret (r, u, w)
    else if p =? openSessionResponse then
      let! (r, u) := onOpenSessionResponse seg u in Ret (r, u, w)
    else if (p =? closeSessionRequest) || (p =? closeSessionResponse) then
      let! (r, u) := onCloseSession seg u in Ret (r, u, w)
    else Panic "Protocol %d is a session protocol but not recognized by packet underlay"
  else if isDataAckProtocol p then
    match smeta seg with
    | MDataAck das => onData now seg das u w
    | MSession _ => Panic "nil pointer dereference"
    end
  else Ret (Continue, u, w).

(** The ready cases of the [select] at the top of the loop. *)
Inductive wake := WakeDone | WakeTick | WakeNone.

(** A round of [RunEventLoop]: [read] is what [readOneSegment] returned, nothing
    after a timeout.  The stream underlay also drains the connection after a
    cryptographic error. *)
Definition eventLoopRound (others : SM (T := T) (U := U) unit) (now : Z) (c : wake)
    (read : outcome (option (segment * string))) (u : Underlay T) (w : U)
  : outcome (loopResult * Underlay T * U) :=
  let go (u : Underlay T) (w : U) :=
    match read with
    | Panic p => Panic p
    | Err e =>
        if u_done u then
          let! (u, w) := cleanSessions others now u w in Ret (Stop None, u, w)
        else Ret (Stop (Some (Errorf "readOneSegment() failed: %w")), u, w)
    | Ret None => Ret (Continue, u, w)
    | Ret (Some (seg, addr)) => dispatch now seg addr u w
    end in
  match c with
  | WakeDone => let! (u, w) := cleanSessions others now u w in Ret (Stop None, u, w)
  | WakeTick => let! (u, w) := cleanSessions others now u w in go u w
  | WakeNone => go u w
  end.
End Loop.

(** ** The session map *)

Section MapProperties.
Context {T : Type} {HB : BTree T} {HL : BTreeLaws T} {U : Type} {HW : SegmentWriter U} {HWL : WriterLaws U}.

(** A session in the map has its key as ID, the role and the transport of the
    underlay, is attached, and its channel is not over its capacity. *)
Definition entry_ok (u : Underlay T) (q : Z) (s : Session T) : Prop :=
  id s = q ∧ q ≠ 0 ∧ isClient s = u_isClient u ∧ transportProtocol s = u_transport u ∧
  sessionAttached ≤ state s ∧ len (recvChan s) ≤ segmentChanCapacity.

Definition map_inv (u : Underlay T) : Prop :=
  ∀ q s a, sessionMap u !! q = Some (s, a) → entry_ok u q s.

Lemma deliverTo_inv q s a seg u r u' :
  map_inv u → sessionMap u !! q = Some (s, a) → deliverTo q s a seg u = (r, u') →
  map_inv u' ∧ (∀ k, k ≠ q → sessionMap u' !! k = sessionMap u !! k) ∧
  readySessions u' = readySessions u ∧
  (r = Stuck ∧ u' = u ∧ segmentChanCapacity ≤ len (recvChan s) ∨
   r = Continue ∧ sessionMap u' !! q = Some (set_recvChan (recvChan s ++ [seg]) s, a)).
Proof.
  intros Hinv Hq. unfold deliverTo. case_if; bool_to_Z; intros [= <- <-].
  - split_and!; try done. by left.
  - split_and!; try done.
    + intros k s' a' Hk. simpl in Hk. destruct (decide (k = q)) as [->|Hne].
      * rewrite lookup_insert_eq in Hk. injection Hk as <- <-.
        destruct (Hinv q s a Hq) as (H1 & H2 & H3 & H4 & H5 & H6). split_and!; try done. simpl.
        rewrite len_app. change (len [seg]) with 1. lia.
      * rewrite lookup_insert_ne in Hk by done. exact (Hinv k s' a' Hk).
    + intros k Hk. simpl. by rewrite lookup_insert_ne.
    + right. split; [done|]. simpl. by rewrite lookup_insert_eq.
Qed.

Lemma NewSession_entry now q m us :
  ∃ s : Session T, NewSession now q false m us = Ret s ∧ id s = q ∧ isClient s = false ∧
    state s = sessionInit ∧ recvChan s = [].
Proof.
  unfold NewSession.
  destruct (SetRTOMultiplier f64_1_5 (SetMaxAckDelay periodicOutputInterval NewRTTStats)) as [rtt|e|p] eqn:E;
    [|vm_compute in E; discriminate..].
  eexists. split; [done|]. by split_and!.
Qed.

(** A segment is for the session that it names: all but the request that opens
    one and, on a server, the response. *)
Definition forSession (u : Underlay T) (seg : segment) : Prop :=
  Protocol (smeta seg) ≠ openSessionRequest ∧
  (Protocol (smeta seg) = openSessionResponse → u_isClient u = true).

(** The session that an open request creates, with its remote address. *)
Definition withSession (s : Session T) (addr : string) (seg : segment) (u : Underlay T) : Underlay T :=
  set_sessionMap (<[SessionID seg := (set_recvChan [seg] (attach (u_transport u) s),
    match u_transport u with PacketTransport => addr | _ => "" end)]> (sessionMap u)) u.

(** What has to happen to a segment, for every case.  The segment goes to the end
    of the channel of its session, or the loop waits while that is full; an open
    request on a server makes a session whose first input it is, unless the ID is
    reserved or in use; a segment for an unknown session is dropped, refused, or
    answered with a close request. *)
Inductive dispatched (now : Z) (seg : segment) (addr : string) (u : Underlay T) (w : U)
  : loopResult → Underlay T → U → Prop :=
| to_session s a :
    forSession u seg → sessionMap u !! SessionID seg = Some (s, a) → len (recvChan s) < segmentChanCapacity →
    dispatched now seg addr u w Continue
      (set_sessionMap (<[SessionID seg := (set_recvChan (recvChan s ++ [seg]) s, a)]> (sessionMap u)) u) w
| session_full s a :
    forSession u seg → sessionMap u !! SessionID seg = Some (s, a) → segmentChanCapacity ≤ len (recvChan s) →
    dispatched now seg addr u w Stuck u w
| wrong_role :
    (if u_isClient u then Protocol (smeta seg) = openSessionRequest else Protocol (smeta seg) = openSessionResponse) →
    dispatched now seg addr u w (Stop (Some ErrInvalidOperation)) u w
| reserved_id e :
    Protocol (smeta seg) = openSessionRequest → u_isClient u = false → SessionID seg = 0 →
    dispatched now seg addr u w (Stop (Some e)) u w
| opened_twice_udp :
    Protocol (smeta seg) = openSessionRequest → u_isClient u = false → is_Some (sessionMap u !! SessionID seg) →
    u_transport u = PacketTransport → dispatched now seg addr u w Continue u w
| opened_twice_tcp e :
    Protocol (smeta seg) = openSessionRequest → u_isClient u = false → is_Some (sessionMap u !! SessionID seg) →
    u_transport u = StreamTransport → dispatched now seg addr u w (Stop (Some e)) u w
| session_opened s :
    Protocol (smeta seg) = openSessionRequest → u_isClient u = false → SessionID seg ≠ 0 →
    sessionMap u !! SessionID seg = None → NewSession now (SessionID seg) false (u_mtu u) (u_users u) = Ret s →
    len (readySessions u) < sessionChanCapacity →
    dispatched now seg addr u w Continue
      (set_readySessions (readySessions u ++ [SessionID seg]) (withSession s addr seg u)) w
| session_opened_full s :
    Protocol (smeta seg) = openSessionRequest → u_isClient u = false → SessionID seg ≠ 0 →
    sessionMap u !! SessionID seg = None → NewSession now (SessionID seg) false (u_mtu u) (u_users u) = Ret s →
    sessionChanCapacity ≤ len (readySessions u) → dispatched now seg addr u w Stuck (withSession s addr seg u) w
| unknown_response e :
    Protocol (smeta seg) = openSessionResponse → u_isClient u = true → sessionMap u !! SessionID seg = None →
    dispatched now seg addr u w (Stop (Some e)) u w
| unknown_close :
    Protocol (smeta seg) = closeSessionRequest ∨ Protocol (smeta seg) = closeSessionResponse →
    sessionMap u !! SessionID seg = None → dispatched now seg addr u w Continue u w
| unknown_answered das seg' w' :
    smeta seg = MDataAck das → sessionMap u !! SessionID seg = None → answersUnknown (u_transport u) seg = true →
    writeOneSegment now None (closeRequestFor seg das (u_transport u)) w = (Ret seg', w') →
    dispatched now seg addr u w Continue u w'
| unknown_write_failed das e e' w' :
    smeta seg = MDataAck das → sessionMap u !! SessionID seg = None → answersUnknown (u_transport u) seg = true →
    writeOneSegment now None (closeRequestFor seg das (u_transport u)) w = (Err e, w') →
    dispatched now seg addr u w (Stop (Some e')) u w'
| unknown_dropped das :
    smeta seg = MDataAck das → sessionMap u !! SessionID seg = None → answersUnknown (u_transport u) seg = false →
    dispatched now seg addr u w Continue u w.

Lemma dispatched_deliver now seg addr u w s a r u' :
  forSession u seg → sessionMap u !! SessionID seg = Some (s, a) →
  deliverTo (SessionID seg) s a seg u = (r, u') → dispatched now seg addr u w r u' w.
Proof.
  intros Hf Hq. unfold deliverTo. case_if; bool_to_Z; intros [= <- <-]; [by eapply session_full|by eapply to_session].
Qed.

Lemma withSession_inv now seg addr u s :
  map_inv u → u_isClient u = false → SessionID seg ≠ 0 →
  NewSession now (SessionID seg) false (u_mtu u) (u_users u) = Ret s → map_inv (withSession s addr seg u).
Proof.
  intros Hinv Hcl Hne Hnew. destruct (NewSession_entry now (SessionID seg) (u_mtu u) (u_users u)) as (s' & E & H1 & H2 & H3 & _).
  rewrite Hnew in E. injection E as <-. intros k s' a Hk. cbn in Hk. destruct (decide (k = SessionID seg)) as [->|Hk'].
  - rewrite lookup_insert_eq in Hk. injection Hk as <- <-. unfold entry_ok, attach, forwardStateTo. cbn. rewrite H3. cbn.
    split_and!; [done|done|by rewrite H2|done|done|]. vm_compute. discriminate.
  - rewrite lookup_insert_ne in Hk by done. exact (Hinv k s' a Hk).
Qed.

(** What is dispatched keeps the table consistent and leaves other sessions alone. *)
Lemma dispatched_table now seg addr u w r u' w' :
  map_inv u → dispatched now seg addr u w r u' w' →
  map_inv u' ∧ ∀ k, k ≠ SessionID seg → sessionMap u' !! k = sessionMap u !! k.
Proof.
  intros Hinv Hd. destruct Hd as [s a Hf Hq Hl| | | | | |s Hp Hcl Hne Hq Hnew Hl|s Hp Hcl Hne Hq Hnew Hl| | | | |]; try done.
  - assert (Hd : deliverTo (SessionID seg) s a seg u =
      (Continue, set_sessionMap (<[SessionID seg := (set_recvChan (recvChan s ++ [seg]) s, a)]> (sessionMap u)) u)).
    { unfold deliverTo. by rewrite (proj2 (Z.leb_gt _ _)). }
    by destruct (deliverTo_inv _ _ _ _ _ _ _ Hinv Hq Hd) as (H1 & H2 & _).
  - split; [exact (withSession_inv now seg addr u s Hinv Hcl Hne Hnew)|]. intros k Hk. cbn. by rewrite lookup_insert_ne.
  - split; [exact (withSession_inv now seg addr u s Hinv Hcl Hne Hnew)|]. intros k Hk. cbn. by rewrite lookup_insert_ne.
Qed.

Lemma openRequest_ret now seg addr u w :
  map_inv u → Protocol (smeta seg) = openSessionRequest → openID seg = Ret (SessionID seg) →
  u_transport u ≠ UnknownTransport →
  ∃ r u', onOpenSessionRequest now seg addr u = Ret (r, u') ∧ dispatched now seg addr u w r u' w.
Proof.
  intros Hinv Hp Hid Htp. unfold onOpenSessionRequest.
  destruct (u_isClient u) eqn:Ecl; [eexists _, u; split; [done|]; apply wrong_role; by rewrite Ecl|].
  rewrite Hid. cbn [obind]. destruct (SessionID seg =? 0) eqn:E0; bool_to_Z; [eexists _, u; split; [done|]; by apply reserved_id|].
  destruct (sessionMap u !! SessionID seg) as [[s a]|] eqn:Eq.
  { destruct (u_transport u) eqn:Et; [done| |]; eexists _, u; (split; [done|]);
      [apply opened_twice_tcp|apply opened_twice_udp]; eauto. }
  destruct (NewSession_entry now (SessionID seg) (u_mtu u) (u_users u)) as (s & Hnew & Hs1 & Hs2 & Hs3 & Hs4).
  rewrite Hnew. cbn [obind]. unfold AddSession, addSessionError.
  rewrite Hs1, (proj2 (Z.eqb_neq _ _)) by done. unfold isStateAfter. rewrite Hs3, Ecl, Hs2, Eq.
  cbn [andb negb]. change (sessionAttached <=? sessionInit) with false. cbv iota. cbn [sessionMap set_sessionMap]. rewrite lookup_insert_eq.
  assert (Hch : recvChan (attach (u_transport u) s) = []) by (unfold attach, forwardStateTo; cbn; by case_if).
  unfold deliverTo. rewrite Hch. change (segmentChanCapacity <=? len []) with false. cbv iota. cbn [sessionMap set_sessionMap app].
  rewrite insert_insert_eq. cbn [readySessions set_sessionMap].
  case_if; bool_to_Z; eexists _, _; (split; [done|]); [by apply (session_opened_full now seg addr u w s)|by apply (session_opened now seg addr u w s)].
Qed.

Lemma SessionID_open seg ss : smeta seg = MSession ss → openID seg = Ret (SessionID seg).
Proof. intros E. unfold openID, SessionID. by rewrite E. Qed.

Lemma sessionSegment_ret now seg ss addr u w :
  map_inv u → u_transport u ≠ UnknownTransport → smeta seg = MSession ss → metadata_ok (smeta seg) →
  ∃ r u', dispatch now seg addr u w = Ret (r, u', w) ∧ dispatched now seg addr u w r u' w.
Proof.
  intros Hinv Htp E Hm. unfold dispatch. pose proof (SessionID_open seg ss E) as Hid. rewrite E in Hm. destruct Hm as [_ Hp].
  assert (Hpr : Protocol (smeta seg) = protocol (ss_base ss)) by (by rewrite E). rewrite Hpr, Hp. unfold isSessionProtocol in Hp.
  destruct (protocol (ss_base ss) =? openSessionRequest) eqn:E1; bool_to_Z.
  { destruct (openRequest_ret now seg addr u w Hinv) as (r & u' & -> & H1); [congruence|done|done|]. by exists r, u'. }
  destruct (protocol (ss_base ss) =? openSessionResponse) eqn:E2; bool_to_Z.
  - unfold onOpenSessionResponse. destruct (u_isClient u) eqn:Ecl; cbn [negb].
    + rewrite Hid. cbn [obind]. destruct (sessionMap u !! SessionID seg) as [[s a]|] eqn:Eq.
      * destruct (deliverTo (SessionID seg) s a seg u) as [r u'] eqn:Ed. cbn [obind]. exists r, u'. split; [done|].
        apply (dispatched_deliver now seg addr u w s a); [|done|done]. by split; [congruence|].
      * eexists _, u. split; [done|]. apply unknown_response; congruence.
    + eexists _, u. split; [done|]. apply wrong_role. rewrite Ecl. congruence.
  - rewrite !orb_false_l in Hp. rewrite Hp. unfold onCloseSession. rewrite Hid. cbn [obind].
    destruct (sessionMap u !! SessionID seg) as [[s a]|] eqn:Eq.
    + destruct (deliverTo (SessionID seg) s a seg u) as [r u'] eqn:Ed. cbn [obind]. exists r, u'. split; [done|].
      apply (dispatched_deliver now seg addr u w s a); [|done|done]. split; congruence.
    + eexists _, u. split; [done|]. apply unknown_close; [|done]. rewrite Hpr. apply orb_prop in Hp as [Hp|Hp]; bool_to_Z; auto.
Qed.

Lemma dataSegment_ret now seg das addr u w :
  smeta seg = MDataAck das → metadata_ok (smeta seg) →
  not_panic (writeOneSegment now None (closeRequestFor seg das (u_transport u)) w).1 ∨ answersUnknown (u_transport u) seg = false →
  ∃ r u' w', dispatch now seg addr u w = Ret (r, u', w') ∧ dispatched now seg addr u w r u' w'.
Proof.
  intros E Hm Hw. unfold dispatch. rewrite E in *. cbn [Protocol]. destruct Hm as [_ Hp].
  assert (isSessionProtocol (protocol (das_base das)) = false ∧ protocol (das_base das) ≠ openSessionRequest ∧
    protocol (das_base das) ≠ openSessionResponse) as (-> & Hn1 & Hn2).
  { unfold isDataAckProtocol in Hp. unfold isSessionProtocol.
    repeat (apply orb_prop in Hp as [Hp|Hp]); bool_to_Z; by rewrite Hp. }
  rewrite Hp. unfold onData. assert (das_sessionID das = SessionID seg) as -> by (unfold SessionID; by rewrite E).
  destruct (sessionMap u !! SessionID seg) as [[s a]|] eqn:Eq.
  - destruct (deliverTo (SessionID seg) s a seg u) as [r u'] eqn:Ed. exists r, u', w. split; [done|].
    apply (dispatched_deliver now seg addr u w s a); [|done|done]. split; rewrite E; done.
  - destruct (answersUnknown (u_transport u) seg) eqn:Ea; [|eexists _, u, w; split; [done|]; by eapply unknown_dropped].
    destruct Hw as [Hw|Hw]; [|done]. destruct (writeOneSegment now None _ w) as [[x|e|p] w'] eqn:Ew; [| |done];
      eexists _, u, w'; (split; [done|]); [by eapply unknown_answered|by eapply unknown_write_failed].
Qed.

(** ** Cleaning *)

Lemma Insert_returns seg (t : segmentTree T) :
  checkProtocolType seg = true → ∃ ok t', Insert seg t = Ret (ok, t').
Proof.
  intros Hp. unfold Insert. rewrite Hp. cbn [negb]. case_if; [by eexists _, _|].
  destruct (bt_replaceOrInsert seg (tr t)) as [[x|] y]; by eexists _, _.
Qed.

(** What else runs meanwhile returns and leaves the underlay ready. *)
Definition others_ok (others : SM (T := T) (U := U) unit) : Prop :=
  ∀ s w, writer_ok w → ∃ s' w', others (s, w) = Ret (tt, (s', w')) ∧ writer_ok w'.

(** The numbers of a session are within their fields. *)
Definition numbered (s : Session T) : Prop := in_u32 (id s) ∧ in_u32 (nextSend s).

(** Closing a session always returns. *)
Lemma close_returns others now err (s : Session T) (w : U) :
  writer_ok w → others_ok others → numbered s →
  ∃ s' w', closeWithError others now err (s, w) = Ret (tt, (s', w')) ∧ writer_ok w'.
Proof.
  intros Hw Ho Hnum. unfold closeWithError. unfold bind at 1, get at 1. cbn [fst snd].
  destruct (closeRequested s); [by eexists _, _|].
  unfold bind at 1, upd at 1. cbn [fst snd]. unfold bind at 1, get at 1. cbn [fst snd].
  set (s1 := set_closeRequested true s).
  destruct (isState sessionAttached s1 || isState sessionEstablished s1).
  2:{ unfold bind, ret, upd. cbn [fst snd]. by eexists _, _. }
  unfold bind at 1. unfold bind at 1, get at 1. cbn [fst snd]. unfold bind at 1, upd at 1. cbn [fst snd].
  match goal with |- context [output now ?x] => set (seg := x) end.
  assert (Hseg : seg_ok seg).
  { split; [|done]. destruct Hnum. split; [|done]. split_and!; cbn; try done; (split_and!; done) || apply u8_range || (unfold in_u8, in_u16; lia). }
  assert (∀ x : sess (T := T) (U := U), writer_ok x.2 → ∃ y, bind (output now seg) (λ _, ret tt) x = Ret (tt, y) ∧ writer_ok y.2) as Hout.
  { intros [s2 w2] Hw2. unfold bind, output, ret. destruct (transportProtocol s2); [by eexists| |];
      destruct (writeOneSegment now (sblock s2) seg w2) as [r w3] eqn:Er;
      destruct (writer_spec now (sblock s2) seg w2 r w3 Hw2 Hseg Er) as [Hw3 Hr]; destruct r as [x|e|p]; try done; try (by eexists).
    destruct e; by eexists. }
  set (s2 := set_nextSend _ s1).
  assert (∃ b y, (match err with
      | Some _ => ret false
      | None => bind (onSendQueue (Insert seg)) (λ ok,
          if (ok : bool) then bind others (λ _, get (λ s0, nextSend s1 <=? lastSend s0)) else ret false)
      end) (s2, w) = Ret (b, y) ∧ writer_ok y.2) as (b & y & Hb & Hy).
  { destruct err; [by eexists _, _|]. unfold bind at 1, onSendQueue, onTree. cbn [fst snd].
    destruct (Insert_returns seg (sendQueue s2) eq_refl) as (ok & t & ->).
    destruct ok; [|by eexists _, _]. unfold bind. destruct (Ho (set_sendQueue t s2) w Hw) as (s3 & w3 & -> & Hw3).
    unfold get. by eexists _, _. }
  unfold bind at 1. rewrite Hb.
  assert (∃ z, (if b then ret tt else bind (output now seg) (λ _, ret tt)) y = Ret (tt, z) ∧ writer_ok z.2) as [[s3 w3] [Hz Hw3]].
  { destruct b; [by eexists|by apply Hout]. }
  rewrite Hz. unfold upd. by eexists _, _.
Qed.

Ltac same_if :=
  match goal with |- (if ?b1 then _ else _) = (if ?b2 then _ else _) => replace b2 with b1; [done|] end.

Lemma cleanList_ret others now l (u : Underlay T) (w : U) :
  writer_ok w → others_ok others → Forall (λ e, entry_ok u e.1 e.2.1 ∧ numbered e.2.1) l →
  ∃ u' w', cleanList others now l u w = Ret (u', w') ∧
    (u_isClient u' = u_isClient u ∧ u_transport u' = u_transport u ∧ readySessions u' = readySessions u) ∧
    ∀ k, sessionMap u' !! k =
      if bool_decide (Exists (λ e, e.1 = k ∧ shouldClean now (u_transport u) e.2.1 = true) l)
      then None else sessionMap u !! k.
Proof.
  intros Hw Ho. revert u w Hw. induction l as [|[q [s a]] l IH]; intros u w Hw Hl.
  { exists u, w. split; [done|]. split; [done|]. intros k. rewrite bool_decide_eq_false_2; [done|].
    by intros ?%Exists_nil. }
  apply Forall_cons in Hl as [[(H1 & H2 & H3 & H4 & H5 & H6) Hnum] Hl]. cbn [cleanList]. simpl in *.
  destruct (shouldClean now (u_transport u) s) eqn:Ec.
  - unfold RemoveSession, isStateBefore. rewrite (proj2 (Z.ltb_ge _ _)) by done.
    destruct (close_returns others now None s w Hw Ho Hnum) as (s' & w' & -> & Hw').
    set (u1 := set_sessionMap (delete (id s) (sessionMap u)) u).
    destruct (IH u1 w') as (u' & w'' & Hr & Hf & Hk); [done|done|].
    exists u', w''. split; [done|]. split; [done|]. intros k. rewrite Hk. simpl.
    destruct (decide (k = q)) as [->|Hne].
    + rewrite H1, lookup_delete_eq. rewrite (bool_decide_eq_true_2 (Exists _ (_ :: l))); [by case_if|].
      apply Exists_cons. left. done.
    + rewrite lookup_delete_ne by congruence. same_if. apply bool_decide_ext. rewrite Exists_cons. simpl.
      split; [by right|]. intros [[? _]|?]; [congruence|done].
  - destruct (IH u w Hw Hl) as (u' & w' & Hr & Hf & Hk). exists u', w'. split; [done|]. split; [done|].
    intros k. rewrite Hk. same_if. apply bool_decide_ext. rewrite Exists_cons. simpl. rewrite Ec.
    split; [by right|]. by intros [[_ ?]|?].
Qed.

(** cleaning removes the dead sessions and only them.  [cleanSessions] closes
    and removes exactly the sessions whose channel is closed and, on a packet
    underlay, those that have received nothing for a minute; every other
    session stays as it is. *)
Theorem clean_removes_exactly others now (u : Underlay T) (w : U) :
  map_inv u → (∀ q s a, sessionMap u !! q = Some (s, a) → numbered s) → writer_ok w → others_ok others →
  ∃ u' w', cleanSessions others now u w = Ret (u', w') ∧ map_inv u' ∧
    ∀ k, sessionMap u' !! k =
      match sessionMap u !! k with
      | Some (s, a) => if shouldClean now (u_transport u) s then None else Some (s, a)
      | None => None
      end.
Proof.
  intros Hinv Hnum Hw Ho. unfold cleanSessions.
  destruct (cleanList_ret others now (map_to_list (sessionMap u)) u w Hw Ho) as (u' & w' & Hr & (F1 & F2 & _) & Hk).
  { apply Forall_forall. intros [q [s a]] Hin. apply elem_of_map_to_list in Hin.
    split; [by apply (Hinv q s a)|by apply (Hnum q s a)]. }
  assert (∀ k, sessionMap u' !! k =
      match sessionMap u !! k with
      | Some (s, a) => if shouldClean now (u_transport u) s then None else Some (s, a)
      | None => None
      end) as Hk'.
  { intros k. rewrite Hk. destruct (sessionMap u !! k) as [[s a]|] eqn:Ek; [|by case_if].
    destruct (shouldClean now (u_transport u) s) eqn:Ec.
    - rewrite bool_decide_eq_true_2; [done|]. apply Exists_exists. exists (k, (s, a)).
      split; [by apply elem_of_map_to_list|done].
    - rewrite bool_decide_eq_false_2; [done|]. rewrite Exists_exists.
      intros ([q [s' a']] & Hin & [Hq Hc]). simpl in Hq, Hc. subst q. apply elem_of_map_to_list in Hin.
      congruence. }
  exists u', w'. split; [done|]. split; [|done]. intros q s a Hq. rewrite Hk' in Hq.
  destruct (sessionMap u !! q) as [[s1 a1]|] eqn:E; [|done]. case_if_in Hq; [done|]. injection Hq as -> ->.
  destruct (Hinv q s a E) as (H1 & H2 & H3 & H4 & H5 & H6). unfold entry_ok. rewrite F1, F2. by split_and!.
Qed.

(** a user can bring a server down through another user's session.  The loop
    does not check whose session a data segment names: a segment that was
    decrypted with the key of one user and carries the ID of another user's
    session is delivered there, and the session's input loop panics on it. *)
Theorem foreign_segment_panics cbrt oob userBytes others now seg addr das b (u : Underlay T) (w : U) s a prev :
  u_isClient u = false → map_inv u → u_transport u = PacketTransport →
  smeta seg = MDataAck das → Protocol (smeta seg) = dataClientToServer →
  sessionMap u !! das_sessionID das = Some (s, a) → recvChan s = [] →
  sblock s = Some prev → block seg = Some b →
  UserName (ctx prev) ≠ "" → UserName (ctx b) ≠ "" → UserName (ctx prev) ≠ UserName (ctx b) →
  ∃ u' s' msg, dispatch now seg addr u w = Ret (Continue, u', w) ∧
    sessionMap u' !! das_sessionID das = Some (s', a) ∧
    runInputOnce cbrt oob userBytes others now (s', w) = Panic msg.
Proof.
  intros Hsrv Hinv Htp Hm Hp Hs Hch Hblk Hb N1 N2 N3.
  set (s' := set_recvChan [seg] s).
  assert (dispatch now seg addr u w =
    Ret (Continue, set_sessionMap (<[das_sessionID das := (s', a)]> (sessionMap u)) u, w)) as Hd.
  { unfold dispatch. rewrite Hp. cbn. rewrite Hm. unfold onData. rewrite Hs. unfold deliverTo. by rewrite Hch. }
  assert (isClient s = false) as Hcl.
  { destruct (Hinv _ _ _ Hs) as (_ & _ & -> & _). done. }
  eexists _, s', _. split; [exact Hd|]. split; [simpl; by rewrite lookup_insert_eq|].
  unfold runInputOnce. unfold bind at 1, get at 1. cbn [fst snd]. change (recvChan s') with [seg]. cbv iota.
  unfold bind at 1, upd at 1. cbn [fst snd]. unfold bind at 1, input.
  unfold bind at 1, get at 1. cbn [fst snd].
  change (isClient (set_recvChan [] s')) with (isClient s). rewrite Hcl, Hp.
  change (negb (acceptsProtocol false dataClientToServer)) with false. cbv iota.
  unfold bind at 1. rewrite Hb. unfold adoptBlock. unfold bind at 1, get at 1. cbn [fst snd].
  change (sblock (set_recvChan [] s')) with (sblock s). rewrite Hblk.
  rewrite (bool_decide_eq_false_2 _ N1), (bool_decide_eq_false_2 _ N2), (bool_decide_eq_false_2 _ N3).
  reflexivity.
Qed.
End MapProperties.

(** ** The loops with their own writers *)

Section Dispatch.
Context {T : Type} {HB : BTree T} {HL : BTreeLaws T}.
Context (Seal : bytes → bytes → bytes → bytes) (Open : bytes → bytes → bytes → option bytes) (laws : aead_laws Seal Open).
Context (oob : float → Z) (appVersion hostName : string) (fixedCache : gmap string Z).
#[local] Instance theWriter : SegmentWriter (PacketWriter + StreamWriter) :=
  underlayWriter Seal oob appVersion hostName fixedCache.

Lemma closeRequestFor_bare seg das tp : metadata_ok (MDataAck das) → bare_close (closeRequestFor seg das tp).
Proof.
  intros [(_ & H1 & _ & H2 & _) _]. exists (das_sessionID das), (das_unAckSeq das). split_and!; [done|done|by destruct tp|by destruct tp].
Qed.

(** C10: the event loops dispatch a segment to its own session only.  On an
    underlay that is set up ([underlay_ready]: its ciphers and draws are as the
    constructors make them, the writer is the underlay's own [writeOneSegment]),
    what a round of either event loop does with a decoded segment (of a packet
    underlay: with the sound cipher that opened it) does not panic,
    is what [dispatched] says for its case (in particular a segment for a session
    with room in its channel is appended there, and only an open request with an
    unused, nonzero ID makes a session, on a server), keeps the table consistent
    (keys are the IDs, no session 0, roles, transport, attached state, channels
    within capacity) and changes no session but the one that the segment names. *)
Theorem dispatch_isolated now seg addr (u : Underlay T) w :
  map_inv u → metadata_ok (smeta seg) → underlay_ready oob (u_transport u) w →
  (∀ b, block seg = Some b → u_transport u = PacketTransport → cipher_ok b ∧ enableImplicitNonce b = false) →
  ∃ r u' w', dispatch now seg addr u w = Ret (r, u', w') ∧ dispatched now seg addr u w r u' w' ∧
    map_inv u' ∧ ∀ k, k ≠ SessionID seg → sessionMap u' !! k = sessionMap u !! k.
Proof.
  intros Hinv Hm Hw Hblk.
  assert (∃ r u' w', dispatch now seg addr u w = Ret (r, u', w') ∧ dispatched now seg addr u w r u' w') as (r & u' & w' & Hd & Hs).
  { destruct (smeta seg) as [ss|das] eqn:E.
    - destruct (sessionSegment_ret now seg ss addr u w Hinv) as (r & u' & Hd & Hs); [|done|by rewrite E|by exists r, u', w].
      destruct w; destruct Hw as [-> _]; done.
    - apply (dataSegment_ret now seg das addr u w E); [by rewrite E|]. left.
      apply (close_request_safe Seal Open oob appVersion hostName fixedCache laws now (u_transport u)); [done|by apply closeRequestFor_bare|].
      intros b Hb Htp. apply Hblk; [|done]. by rewrite Htp in Hb. }
  exists r, u', w'. split; [done|]. split; [done|]. by apply (dispatched_table now seg addr u w r u' w').
Qed.
End Dispatch.

(** ** Witnesses: a server with one session of alice *)

Definition logSegments : SegmentWriter (list segment) := logWriter.
Definition logSegments_laws : WriterLaws (HW := logSegments) (list segment) := logWriter_laws.

Definition demoTable : gmap Z (Session (list segment) * string) :=
  match NewSession 0 5 false 1400 ∅ with
  | Ret s => {[ 5 := (attach PacketTransport (set_sblock (Some (toyCipher false "alice")) s), "a:1") ]}
  | _ => ∅
  end.
Definition demoServer : Underlay (list segment) :=
  mkUnderlay false 1400 PacketTransport ∅ demoTable [5] false.

Lemma demo_map_inv : map_inv demoServer.
Proof.
  intros q s a. unfold demoServer, demoTable. simpl sessionMap.
  destruct (NewSession_entry (T := list segment) 0 5 1400 ∅) as (s0 & -> & H1 & H2 & H3 & H4).
  intros Hq. apply lookup_singleton_Some in Hq as [<- Hq]. injection Hq as <- <-.
  destruct s0. simpl in *. subst. by split_and!.
Qed.

(** The writer of that server, and data of bob for a session that it does not know. *)
Definition demoWriter : PacketWriter + StreamWriter :=
  inl (mkPacketWriter toyServer "b:2" (λ _, toySegDraw) (λ _ _, true) 0 []).
Definition strayData : segment :=
  mkSegment (MDataAck (mkDataAck (mkBase dataClientToServer 0) 9 1 0 16 0 0 0 0)) [] PacketTransport
    0 0 0 0 (Some (toyCipher false "bob")).

Lemma toy_draws_ok : draws_ok (λ _, 0) packetOverhead (λ _, toySegDraw).
Proof.
  intros k m _ Hm. unfold seg_draw_ok. rewrite Hm. split; [exact toyDraw_ok|]. split; [exact toyPadDraw_ok|].
  split; [exact toyPadDraw_ok|]. vm_compute. reflexivity.
Qed.

Lemma dispatch_isolated_witness :
  ∃ r u' w', dispatch (H0 := underlayWriter toySeal (λ _, 0) "3.31.0" "host" ∅) 9 strayData "b:2" demoServer demoWriter = Ret (r, u', w') ∧
    dispatched (HW := underlayWriter toySeal (λ _, 0) "3.31.0" "host" ∅) 9 strayData "b:2" demoServer demoWriter r u' w' ∧
    map_inv u' ∧ ∀ k, k ≠ 9 → sessionMap u' !! k = sessionMap demoServer !! k.
Proof.
  apply (dispatch_isolated toySeal toyOpen toy_laws (λ _, 0) "3.31.0" "host" ∅ 9 strayData "b:2" demoServer demoWriter).
  - exact demo_map_inv.
  - vm_compute. intuition congruence.
  - split; [reflexivity|]. split; [exact toy_draws_ok|discriminate].
  - intros b [= <-] _. split; [|reflexivity]. split_and!; [reflexivity|reflexivity|].
    intros q [= <-]. split_and!; try discriminate. constructor.
Defined.

Lemma demo_numbered q s a : sessionMap demoServer !! q = Some (s, a) → numbered s.
Proof.
  unfold demoServer, demoTable. simpl sessionMap.
  destruct (NewSession 0 5 false 1400 ∅) as [s0|e|p] eqn:E; [|vm_compute in E; discriminate..].
  intros Hq. apply lookup_singleton_Some in Hq as [<- Hq]. injection Hq as <- <-. vm_compute in E. injection E as <-.
  vm_compute. intuition congruence.
Qed.

Lemma clean_removes_exactly_witness :
  ∃ u' w', cleanSessions (H0 := logSegments) (ret tt) (2 * 60 * 1000000) demoServer [] = Ret (u', w') ∧
    map_inv u'.
Proof.
  destruct (clean_removes_exactly (HW := logSegments) (HWL := logSegments_laws) (ret tt) (2 * 60 * 1000000) demoServer []) as
    (u' & w' & H1 & H2 & _).
  - exact demo_map_inv.
  - exact demo_numbered.
  - exact I.
  - intros s w _. exists s, w. split; [reflexivity|exact I].
  - exists u', w'. exact (conj H1 H2).
Defined.

Definition bobData : segment :=
  mkSegment (MDataAck (mkDataAck (mkBase dataClientToServer 0) 5 1 0 16 0 0 0 0)) [] PacketTransport
    0 0 0 0 (Some (toyCipher false "bob")).

Lemma demo_lookup :
  ∃ s, sessionMap demoServer !! 5 = Some (s, "a:1") ∧ recvChan s = [] ∧
    sblock s = Some (toyCipher false "alice").
Proof. eexists. split; [vm_compute; reflexivity|]. split; vm_compute; reflexivity. Qed.

Lemma foreign_segment_panics_witness :
  ∃ u' s' msg, dispatch (H0 := logSegments) 9 bobData "b:2" demoServer [] = Ret (Continue, u', []) ∧
    sessionMap u' !! 5 = Some (s', "a:1") ∧
    runInputOnce (H0 := logSegments) (λ x, x) (λ _, 0) (λ _, None) (ret tt) 9 (s', []) = Panic msg.
Proof.
  destruct demo_lookup as (s & H1 & H2 & H3).
  apply (foreign_segment_panics (HW := logSegments) (λ x, x) (λ _, 0) (λ _, None) (ret tt) 9 bobData "b:2"
    (mkDataAck (mkBase dataClientToServer 0) 5 1 0 16 0 0 0 0) (toyCipher false "bob") demoServer [] s "a:1"
    (toyCipher false "alice")); try reflexivity; try discriminate; [exact demo_map_inv|exact H1|exact H2|exact H3].
Defined.

End UnderlayLoop.
Export UnderlayLoop.
