(* ===== verification/Socks.v ===== *)
(** * apis/model and the UDP wrappers of apis/common: the messages of socks5

    Addresses, requests and responses, the framing of packets in a stream
    ([PacketOverStreamTunnel]) and the UDP associate header
    ([UDPAssociateWrapper]).  A reader is the list of bytes it will deliver
    before the end of the stream, a writer appends to what it has.  A Go string
    is its bytes; [net.IP] is its slice, nil being the empty one. *)

From S2P Require Import Prelude Mathext.

Module Socks.

Definition Socks5Version : Z := 5.
Definition Socks5ConnectCmd : Z := 1.
Definition Socks5UDPAssociateCmd : Z := 3.
Definition Socks5IPv4Address : Z := 1.
Definition Socks5FQDNAddress : Z := 3.
Definition Socks5IPv6Address : Z := 4.

Definition ErrUnrecognizedAddrType : goerr := Errorf "unrecognized address type".

Record AddrSpec := mkAddr { FQDN : bytes; IP : bytes; Port : Z }.

(** [net.IP.To4] and [To16]; the empty list stands for nil. *)
Definition v4InV6Prefix : bytes := replicate 10 0 ++ [255; 255].
Definition To4 (ip : bytes) : bytes :=
  if len ip =? 4 then ip
  else if (len ip =? 16) && bool_decide (take 12 ip = v4InV6Prefix) then drop 12 ip
  else [].
Definition To16 (ip : bytes) : bytes :=
  if len ip =? 4 then v4InV6Prefix ++ ip
  else if len ip =? 16 then ip
  else [].

Definition AddrType (a : AddrSpec) : Z :=
  if 0 <? len (To4 (IP a)) then Socks5IPv4Address
  else if 0 <? len (To16 (IP a)) then Socks5IPv6Address
  else if 0 <? len (FQDN a) then Socks5FQDNAddress
  else 0.

(** [io.ReadFull] of [n] bytes. *)
Definition ReadFull (n : Z) (r : bytes) : outcome (bytes * bytes) :=
  if len r <? n then Err (if len r =? 0 then ErrEOF else ErrUnexpectedEOF)
  else Ret (take (Z.to_nat n) r, drop (Z.to_nat n) r).

(** [ReadFromSocks5] into [a]: a field that the message does not set keeps its
    value. *)
Definition readAddr (a : AddrSpec) (r : bytes) : outcome (AddrSpec * bytes) :=
  let! (addrType, r) := ReadFull 1 r in
  let t := nth 0 addrType 0 in
  let! (a, r) :=
    (if t =? Socks5IPv4Address then
       let! (addr, r) := ReadFull 4 r in Ret (mkAddr (FQDN a) addr (Port a), r)
     else if t =? Socks5IPv6Address then
       let! (addr, r) := ReadFull 16 r in Ret (mkAddr (FQDN a) addr (Port a), r)
     else if t =? Socks5FQDNAddress then
       let! (addrLen, r) := ReadFull 1 r in
       let! (fqdn, r) := ReadFull (nth 0 addrLen 0) r in
       Ret (mkAddr fqdn (IP a) (Port a), r)
     else Err ErrUnrecognizedAddrType) in
  let! (port, r) := ReadFull 2 r in
  Ret (mkAddr (FQDN a) (IP a) (Z.lor (Z.shiftl (nth 0 port 0) 8) (nth 1 port 0)), r).

(** [WriteToSocks5]: the bytes that are written. *)
Definition writeAddr (a : AddrSpec) : outcome bytes :=
  let addrPort := u16 (Port a) in
  let port := [u8 (Z.shiftr addrPort 8); u8 (Z.land addrPort 0xff)] in
  if 0 <? len (To4 (IP a)) then Ret (Socks5IPv4Address :: To4 (IP a) ++ port)
  else if 0 <? len (To16 (IP a)) then Ret (Socks5IPv6Address :: To16 (IP a) ++ port)
  else if 0 <? len (FQDN a) then Ret (Socks5FQDNAddress :: u8 (len (FQDN a)) :: FQDN a ++ port)
  else Err ErrUnrecognizedAddrType.

(** ** Requests and responses *)

Record Request := mkRequest { Command : Z; DstAddr : AddrSpec; ReqRaw : bytes }.
Record Response := mkResponse { Reply : Z; BindAddr : AddrSpec; RespRaw : bytes }.

(** What the two [ReadFromSocks5] methods share: the second byte of the header,
    the address, and the bytes that were read ([io.TeeReader]).  The second byte
    is stored before the version is checked. *)
Definition readMessage (a : AddrSpec) (r : bytes) : outcome (Z * AddrSpec * bytes * bytes) :=
  let! (header, r1) := ReadFull 3 r in
  if negb (nth 0 header 0 =? Socks5Version) then Err (Errorf "invalid version: %d")
  else
    let! (a, r2) := readAddr a r1 in
    Ret (nth 1 header 0, a, take (length r - length r2) r, r2).

Definition readRequest (q : Request) (r : bytes) : outcome (Request * bytes) :=
  let! (c, a, raw, r) := readMessage (DstAddr q) r in Ret (mkRequest c a raw, r).
Definition readResponse (q : Response) (r : bytes) : outcome (Response * bytes) :=
  let! (c, a, raw, r) := readMessage (BindAddr q) r in Ret (mkResponse c a raw, r).

(** The message with its [Raw] field, and the bytes written. *)
Definition writeRequest (q : Request) : outcome (Request * bytes) :=
  let! b := writeAddr (DstAddr q) in
  let raw := [Socks5Version; Command q; 0] ++ b in
  Ret (mkRequest (Command q) (DstAddr q) raw, raw).
Definition writeResponse (q : Response) : outcome (Response * bytes) :=
  let! b := writeAddr (BindAddr q) in
  let raw := [Socks5Version; Reply q; 0] ++ b in
  Ret (mkResponse (Reply q) (BindAddr q) raw, raw).

(** [ToNetAddrSpec]: the network of a command. *)
Definition ToNetAddrSpec (q : Request) : outcome (AddrSpec * string) :=
  if Command q =? Socks5ConnectCmd then Ret (DstAddr q, "tcp")
  else if Command q =? Socks5UDPAssociateCmd then Ret (DstAddr q, "udp")
  else Err (Errorf "unsupported socks5 command: %d").

(** ** PacketOverStreamTunnel *)

(** [Write]: the bytes for the connection. *)
Definition tunnelWrite (p : bytes) : outcome bytes :=
  if 65535 <? len p then Err (Errorf "packet length %d is larger than maximum length 65535")
  else
    let n := u16 (len p) in
    Ret ([0x00; u8 (Z.shiftr n 8); u8 n] ++ p ++ [0xff]).

(** [Read] into a buffer of [size] bytes. *)
Definition tunnelRead (size : Z) (r : bytes) : outcome (bytes * bytes) :=
  let! (delim, r) := ReadFull 1 r in
  if negb (nth 0 delim 0 =? 0x00) then Err (Errorf "packet prefix 0x%x is not 0x00")
  else
    let! (l, r) := ReadFull 2 r in
    let length := Z.lor (Z.shiftl (nth 0 l 0) 8) (nth 1 l 0) in
    if size <? length then Err (Errorf "short buffer")
    else
      let! (p, r) := ReadFull length r in
      let! (delim, r) := ReadFull 1 r in
      if negb (nth 0 delim 0 =? 0xff) then Err (Errorf "packet suffix 0x%x is not 0xff")
      else Ret (p, r).

(** ** UDPAssociateWrapper *)

(** [WriteTo]: the packet with its header; the error of [WriteToSocks5] is
    ignored. *)
Definition associateWrite (p : bytes) (dst : AddrSpec) : bytes :=
  [0; 0; 0] ++ match writeAddr dst with Ret b => b | _ => [] end ++ p.

(** [ReadFrom] into a buffer of [size] bytes, from a packet of at most
    [size + 256] bytes; an empty rest is the end of the reader. *)
Definition associateRead (size : Z) (packet : bytes) : outcome (bytes * AddrSpec) :=
  let b := take (Z.to_nat (size + 256)) packet in
  if len b <=? 6 then Err (Errorf "packet size %d is too short to hold UDP associate header")
  else if negb (nth 0 b 0 =? 0) || negb (nth 1 b 0 =? 0) then Err (Errorf "invalid UDP header")
  else if negb (nth 2 b 0 =? 0) then Err (Errorf "UDP fragment is not supported")
  else
    let! (dst, r) := readAddr (mkAddr [] [] 0) (drop 3 b) in
    if 0 <? len (FQDN dst)
    then Err (Errorf "peer used FQDN in UDP associate header, which is unsupported")
    else if len r =? 0 then Err ErrEOF
    else Ret (take (Z.to_nat size) r, dst).

(** ** Lemmas *)

Lemma ReadFull_app (a r : bytes) n : len a = n → ReadFull n (a ++ r) = Ret (a, r).
Proof.
  intros <-. unfold ReadFull. rewrite len_app. pose proof (len_nonneg r).
  rewrite (proj2 (Z.ltb_ge _ _)) by lia. unfold len. rewrite Nat2Z.id, take_app_length, drop_app_length. done.
Qed.

Lemma To4_len ip : len (To4 ip) = 0 ∨ len (To4 ip) = 4.
Proof.
  unfold To4. case_if; bool_to_Z; [by right|]. case_if; [|by left]. apply andb_prop in Heqb0 as [H _].
  bool_to_Z. right. unfold len in *. rewrite length_drop. lia.
Qed.
Lemma To16_len ip : len (To16 ip) = 0 ∨ len (To16 ip) = 16.
Proof.
  unfold To16. case_if; bool_to_Z; [right; rewrite len_app; unfold len in *; simpl; lia|].
  case_if; bool_to_Z; [by right|by left].
Qed.

(** Two bytes of a 16-bit number, put together again. *)
Lemma u16_bytes n :
  in_u16 n → Z.lor (Z.shiftl (u8 (Z.shiftr n 8)) 8) (u8 (Z.land n 0xff)) = n ∧
  Z.lor (Z.shiftl (u8 (Z.shiftr n 8)) 8) (u8 n) = n.
Proof.
  intros Hn. unfold in_u16 in Hn.
  assert (Z.land n 0xff = n `mod` 256) as -> by (change 0xff with (Z.ones 8); by rewrite Z.land_ones).
  assert (Z.shiftr n 8 = n / 256) as -> by (by rewrite Z.shiftr_div_pow2).
  assert (n / 256 < 256) by (apply Z.div_lt_upper_bound; lia).
  assert (0 ≤ n / 256) by (apply Z.div_pos; lia).
  pose proof (Z.mod_pos_bound n 256). unfold u8. change (2 ^ 8) with 256.
  rewrite (Z.mod_small (n / 256)), Z.mod_mod by lia. rewrite Z.shiftl_mul_pow2 by lia. change (2 ^ 8) with 256.
  assert (Z.lor (n / 256 * 256) (n `mod` 256) = n / 256 * 256 + n `mod` 256) as ->.
  { rewrite <- Z.add_lor_land. replace (Z.land (n / 256 * 256) (n `mod` 256)) with 0; [lia|].
    symmetry. change 256 with (2 ^ 8). rewrite <- Z.shiftl_mul_pow2 by lia. apply Z.bits_inj'. intros k Hk.
    rewrite Z.land_spec, Z.bits_0. destruct (Z.lt_ge_cases k 8).
    - by rewrite Z.shiftl_spec_low.
    - rewrite (Z.mod_pow2_bits_high n 8 k) by lia. by rewrite andb_false_r. }
  pose proof (Z.div_mod n 256). split; lia.
Qed.

(** An address that a message can carry: an IP of 4 or 16 bytes, or a name of
    at most 255 bytes; and what the reader makes of it. *)
Definition addr_ok (a : AddrSpec) : Prop :=
  in_u16 (Port a) ∧ (len (IP a) = 4 ∨ len (IP a) = 16 ∨ len (IP a) = 0 ∧ 1 ≤ len (FQDN a) ≤ 255).

Definition normalized (a : AddrSpec) : AddrSpec :=
  if 0 <? len (To4 (IP a)) then mkAddr [] (To4 (IP a)) (Port a)
  else if 0 <? len (To16 (IP a)) then mkAddr [] (To16 (IP a)) (Port a)
  else mkAddr (FQDN a) [] (Port a).

Definition zeroAddr : AddrSpec := mkAddr [] [] 0.

Lemma readAddr_write a rest :
  addr_ok a → ∃ b, writeAddr a = Ret b ∧ 7 ≤ len b + (if 0 <? len (To4 (IP a)) then 0 else
      if 0 <? len (To16 (IP a)) then 0 else 2) ∧
    readAddr zeroAddr (b ++ rest) = Ret (normalized a, rest).
Proof.
  intros [Hp Hip]. unfold writeAddr, normalized, readAddr. destruct (u16_bytes (Port a) Hp) as [Eport _].
  rewrite (u16_small (Port a) Hp).
  set (p1 := u8 (Z.shiftr (Port a) 8)) in *. set (p2 := u8 (Z.land (Port a) 0xff)) in *.
  assert (∀ x r, ReadFull 1 (x :: r) = Ret ([x], r)) as R1 by (intros x r; by apply (ReadFull_app [x] r)).
  assert (∀ r, ReadFull 2 (p1 :: p2 :: r) = Ret ([p1; p2], r)) as R2 by (intros r; by apply (ReadFull_app [p1; p2] r)).
  destruct (To4_len (IP a)) as [H4|H4]; rewrite H4; simpl.
  - destruct (To16_len (IP a)) as [H16|H16]; rewrite H16; simpl.
    + assert (len (IP a) = 0 ∧ 1 ≤ len (FQDN a) ≤ 255) as [_ Hf].
      { unfold To4 in H4. unfold To16 in H16. destruct Hip as [E|[E|E]]; [| |done].
        - rewrite E in H4. simpl in H4. lia.
        - rewrite E in H16. simpl in H16. lia. }
      rewrite (proj2 (Z.ltb_lt _ _)) by lia. eexists. split; [done|].
      split; [rewrite !len_cons, len_app; unfold len at 2; simpl; lia|]. simpl.
      rewrite R1. simpl. rewrite R1. simpl. unfold u8. rewrite Z.mod_small by lia.
      rewrite <- (assoc_L (++)), (ReadFull_app (FQDN a)) by done. simpl. rewrite R2. simpl. by rewrite Eport.
    + eexists. split; [done|]. split; [rewrite len_cons, len_app, H16; unfold len; simpl; lia|]. simpl.
      rewrite R1. simpl. rewrite <- (assoc_L (++)), (ReadFull_app (To16 (IP a))) by done. simpl.
      rewrite R2. simpl. by rewrite Eport.
  - eexists. split; [done|]. split; [rewrite len_cons, len_app, H4; unfold len; simpl; lia|]. simpl.
    rewrite R1. simpl. rewrite <- (assoc_L (++)), (ReadFull_app (To4 (IP a))) by done. simpl.
    rewrite R2. simpl. by rewrite Eport.
Qed.

Lemma readMessage_write c a b rest :
  writeAddr a = Ret b → readAddr zeroAddr (b ++ rest) = Ret (normalized a, rest) →
  readMessage zeroAddr (([Socks5Version; c; 0] ++ b) ++ rest) =
    Ret (c, normalized a, [Socks5Version; c; 0] ++ b, rest).
Proof.
  intros Hw Hr. unfold readMessage. rewrite <- (assoc_L (++)), (ReadFull_app [Socks5Version; c; 0]) by done.
  cbn [obind nth negb]. change (Socks5Version =? Socks5Version) with true. cbn [negb]. rewrite Hr. cbn [obind].
  repeat f_equal. rewrite (assoc_L (++)). rewrite length_app, Nat.add_sub. apply take_app_length.
Qed.

(** socks5 messages survive the wire.  A request and a response with an
    address that a message can carry are written and read back, whatever
    follows in the stream: same command or reply, the same address (an
    IPv4-mapped IPv6 address as IPv4; the IP wins over a name), the same raw
    bytes, and the reader stops where the message ends. *)
Theorem socks_message_roundtrip c a rest :
  addr_ok a →
  ∃ raw, writeRequest (mkRequest c a []) = Ret (mkRequest c a raw, raw) ∧
    readRequest (mkRequest 0 zeroAddr []) (raw ++ rest) = Ret (mkRequest c (normalized a) raw, rest) ∧
    writeResponse (mkResponse c a []) = Ret (mkResponse c a raw, raw) ∧
    readResponse (mkResponse 0 zeroAddr []) (raw ++ rest) = Ret (mkResponse c (normalized a) raw, rest).
Proof.
  intros Ha. destruct (readAddr_write a rest Ha) as (b & Hw & _ & Hr).
  exists ([Socks5Version; c; 0] ++ b). unfold writeRequest, writeResponse, readRequest, readResponse.
  cbn [DstAddr BindAddr Command Reply]. rewrite Hw. cbn [obind].
  rewrite (readMessage_write c a b rest Hw Hr). done.
Qed.

(** a long name becomes another one.  The length of a name is written in one
    byte without a check: a name of 258 to 509 bytes is read back as its first
    [len - 256] bytes, with a port taken from the middle of the name. *)
Theorem long_fqdn_is_truncated name port rest :
  in_u16 port → 258 ≤ len name < 510 →
  ∃ b a r, writeAddr (mkAddr name [] port) = Ret b ∧ readAddr zeroAddr (b ++ rest) = Ret (a, r) ∧
    FQDN a = take (Z.to_nat (len name - 256)) name ∧ FQDN a ≠ name ∧
    Port a = Z.lor (Z.shiftl (nth (Z.to_nat (len name - 256)) name 0) 8)
               (nth (S (Z.to_nat (len name - 256))) name 0).
Proof.
  intros Hp Hl. unfold writeAddr. simpl. rewrite (proj2 (Z.ltb_lt 0 (len name))) by lia.
  set (k := Z.to_nat (len name - 256)).
  assert (u8 (len name) = Z.of_nat k) as Ek.
  { unfold u8, k. rewrite Z2Nat.id by lia. change (2 ^ 8) with 256.
    rewrite <- (Z.mod_small (len name - 256) 256) by lia. rewrite <- (Z_mod_plus_full (len name - 256) 1 256).
    f_equal. lia. }
  assert (∃ x y l, name = take k name ++ x :: y :: l ∧ nth k name 0 = x ∧ nth (S k) name 0 = y)
    as (x & y & l & Ename & Ex & Ey).
  { assert (length name = (k + 256)%nat) as Elen by (unfold k, len in *; lia).
    destruct (drop k name) as [|x [|y l]] eqn:E.
    - apply (f_equal length) in E. rewrite length_drop in E. simpl in E. lia.
    - apply (f_equal length) in E. rewrite length_drop in E. simpl in E. lia.
    - exists x, y, l. assert (name = take k name ++ x :: y :: l) as En by (by rewrite <- E, take_drop).
      split; [done|]. assert (length (take k name) = k) as Et by (rewrite length_take; lia).
      rewrite En. split.
      + rewrite app_nth2 by lia. by rewrite Et, Nat.sub_diag.
      + rewrite app_nth2 by lia. rewrite Et. by replace (S k - k)%nat with 1%nat by lia. }
  eexists _, _, _. split; [done|]. unfold readAddr.
  assert (∀ z r, ReadFull 1 (z :: r) = Ret ([z], r)) as R1 by (intros z r; by apply (ReadFull_app [z] r)).
  cbn [app]. rewrite R1. cbn [obind nth]. simpl. rewrite R1. simpl. rewrite Ek.
  rewrite Ename at 1. rewrite <- !(assoc_L (++)).
  rewrite (ReadFull_app (take k name)).
  2:{ unfold len. rewrite length_take. unfold k, len in *. lia. }
  cbn [obind app]. match goal with |- context [ReadFull 2 (x :: y :: ?t)] =>
    rewrite (ReadFull_app [x; y] t 2 eq_refl : ReadFull 2 (x :: y :: t) = _) end.
  cbn [obind nth FQDN Port]. split; [done|]. split; [done|]. split; [|by rewrite Ex, Ey].
  intros E. cbn [FQDN] in E. apply (f_equal length) in E. rewrite length_take in E. unfold k, len in *. lia.
Qed.

(** ** Packets in a stream *)

Lemma tunnel_one p size rest :
  len p ≤ 65535 → len p ≤ size →
  ∃ b, tunnelWrite p = Ret b ∧ tunnelRead size (b ++ rest) = Ret (p, rest).
Proof.
  intros Hp Hs. unfold tunnelWrite. rewrite (proj2 (Z.ltb_ge _ _)) by lia. eexists. split; [done|].
  pose proof (len_nonneg p). assert (in_u16 (len p)) as Hu by (unfold in_u16; lia).
  destruct (u16_bytes (len p) Hu) as [_ E]. rewrite (u16_small _ Hu). unfold tunnelRead.
  set (h1 := u8 (Z.shiftr (len p) 8)) in *. set (h2 := u8 (len p)) in *.
  change (([0; h1; h2] ++ p ++ [255]) ++ rest) with (0 :: h1 :: h2 :: (p ++ [255]) ++ rest).
  rewrite (ReadFull_app [0] (h1 :: h2 :: (p ++ [255]) ++ rest) 1 eq_refl : ReadFull 1 (0 :: _) = _).
  cbn [obind nth]. change (0 =? 0) with true. cbn [negb].
  rewrite (ReadFull_app [h1; h2] ((p ++ [255]) ++ rest) 2 eq_refl : ReadFull 2 (h1 :: h2 :: _) = _).
  cbn [obind nth]. rewrite E, (proj2 (Z.ltb_ge _ _)) by lia.
  rewrite <- (assoc_L (++)), (ReadFull_app p) by done. cbn [obind].
  by rewrite (ReadFull_app [255] rest 1 eq_refl).
Qed.

Fixpoint tunnelWriteAll (ps : list bytes) : outcome bytes :=
  match ps with
  | [] => Ret []
  | p :: ps => let! b := tunnelWrite p in let! r := tunnelWriteAll ps in Ret (b ++ r)
  end.

Fixpoint tunnelReadAll (size : Z) (n : nat) (r : bytes) : outcome (list bytes * bytes) :=
  match n with
  | O => Ret ([], r)
  | S n =>
      let! (p, r) := tunnelRead size r in
      let! (ps, r) := tunnelReadAll size n r in
      Ret (p :: ps, r)
  end.

(** The packets of a list of messages with their destinations. *)
Definition associateAll (msgs : list (bytes * AddrSpec)) : list bytes :=
  map (λ m, associateWrite m.1 m.2) msgs.

Lemma tunnelAll size ps rest :
  Forall (λ p, len p ≤ 65535 ∧ len p ≤ size) ps →
  ∃ b, tunnelWriteAll ps = Ret b ∧ tunnelReadAll size (length ps) (b ++ rest) = Ret (ps, rest).
Proof.
  induction 1 as [|p ps [Hp Hs] _ IH]; [by exists []|]. destruct IH as (b & Hw & Hr).
  destruct (tunnel_one p size (b ++ rest) Hp Hs) as (b0 & Hw0 & Hr0). exists (b0 ++ b).
  simpl. rewrite Hw0. cbn [obind]. rewrite Hw. cbn [obind]. split; [done|].
  rewrite <- (assoc_L (++)), Hr0. cbn [obind]. by rewrite Hr.
Qed.

Lemma writeAddr_ip dst b :
  (0 <? len (To16 (IP dst)) = true) → writeAddr dst = Ret b → len b ≤ 19.
Proof.
  intros Hip. unfold writeAddr. rewrite Hip.
  destruct (To4_len (IP dst)) as [H4|H4], (To16_len (IP dst)) as [H16|H16]; rewrite H4; simpl;
    intros [= <-]; rewrite len_cons, len_app, ?H4, ?H16; unfold len; simpl; lia.
Qed.

Lemma associate_one p dst size :
  addr_ok dst → 0 < len p ≤ size → (0 <? len (To16 (IP dst)) = true) →
  associateRead size (associateWrite p dst) = Ret (p, normalized dst).
Proof.
  intros Ha Hp Hip. destruct (readAddr_write dst p Ha) as (b & Hw & Hlen & Hr).
  unfold associateWrite, associateRead. rewrite Hw.
  assert (len b ≤ 19 ∧ 7 ≤ len b) as [Hb1 Hb2].
  { split; [by apply (writeAddr_ip dst)|]. rewrite Hip in Hlen. case_if_in Hlen; lia. }
  assert (take (Z.to_nat (size + 256)) ([0; 0; 0] ++ b ++ p) = [0; 0; 0] ++ b ++ p) as ->.
  { apply take_ge. rewrite !length_app. unfold len in *. simpl. lia. }
  rewrite !len_app. rewrite (proj2 (Z.leb_gt _ _)) by (unfold len at 1; simpl; lia). cbn [nth app].
  change (0 =? 0) with true. cbn [negb orb drop]. fold zeroAddr. rewrite drop_0, Hr. cbn [obind].
  assert (FQDN (normalized dst) = []) as ->.
  { unfold normalized. case_if; [done|]. by rewrite Hip. }
  simpl. rewrite (proj2 (Z.eqb_neq _ _)) by lia. rewrite take_ge; [done|]. unfold len in *. lia.
Qed.

(** datagrams keep their boundaries inside a session.  Any sequence of
    packets of up to 65535 bytes, written one after the other to the byte
    stream of a tunnel, is read back one packet per [Read], whatever follows;
    with the UDP associate header in front, payload and IP destination come
    back too. *)
Theorem udp_tunnel_roundtrip size msgs rest :
  Forall (λ m, addr_ok m.2 ∧ 0 <? len (To16 (IP m.2)) = true ∧ 0 < len m.1 ≤ 65000 ∧ 65535 ≤ size) msgs →
  ∃ b, tunnelWriteAll (associateAll msgs) = Ret b ∧
    tunnelReadAll size (length msgs) (b ++ rest) = Ret (associateAll msgs, rest) ∧
    Forall2 (λ packet m, associateRead size packet = Ret (m.1, normalized m.2)) (associateAll msgs) msgs.
Proof.
  intros Hall. set (packets := associateAll msgs).
  assert (length msgs = length packets) as -> by (unfold packets, associateAll; by rewrite length_map). destruct (tunnelAll size packets rest) as (b & H1 & H2).
  - unfold packets, associateAll. apply Forall_map. eapply Forall_impl; [exact Hall|].
    intros [p dst] (Ha & Hip & Hp & Hs). simpl in *. unfold associateWrite.
    destruct (readAddr_write dst [] Ha) as (a & Hw & _). rewrite Hw. rewrite !len_app.
    pose proof (writeAddr_ip dst a Hip Hw). change (len [0; 0; 0]) with 3. lia.
  - exists b. split; [done|]. split; [done|]. unfold packets. clear H1 H2 packets. unfold associateAll.
    induction Hall as [|[p dst] msgs (Ha & Hip & Hp & Hs) _ IH]; simpl; constructor; [|exact IH].
    apply associate_one; [done|simpl in *; lia|done].
Qed.

(** ** Witnesses *)

Lemma socks_message_roundtrip_witness :
  (∃ raw, writeRequest (mkRequest 1 (mkAddr [] (v4InV6Prefix ++ [10; 0; 0; 1]) 8080) []) =
       Ret (mkRequest 1 (mkAddr [] (v4InV6Prefix ++ [10; 0; 0; 1]) 8080) raw, raw) ∧
     readRequest (mkRequest 0 zeroAddr []) (raw ++ [1; 2]) =
       Ret (mkRequest 1 (mkAddr [] [10; 0; 0; 1] 8080) raw, [1; 2])) ∧
  (∃ raw, readRequest (mkRequest 0 zeroAddr []) (raw ++ []) =
       Ret (mkRequest 3 (mkAddr [97; 46; 98] [] 443) raw, [])).
Proof.
  split.
  - destruct (socks_message_roundtrip 1 (mkAddr [] (v4InV6Prefix ++ [10; 0; 0; 1]) 8080) [1; 2]) as (raw & H1 & H2 & _).
    + vm_compute. intuition congruence.
    + exists raw. exact (conj H1 H2).
  - destruct (socks_message_roundtrip 3 (mkAddr [97; 46; 98] [] 443) []) as (raw & _ & H2 & _).
    + vm_compute. intuition congruence.
    + exists raw. exact H2.
Defined.

Lemma long_fqdn_is_truncated_witness :
  ∃ b a r, writeAddr (mkAddr (replicate 10 97 ++ [1; 187] ++ replicate 254 98) [] 443) = Ret b ∧
    readAddr zeroAddr (b ++ []) = Ret (a, r) ∧ FQDN a = replicate 10 97 ∧ Port a = 443.
Proof.
  destruct (long_fqdn_is_truncated (replicate 10 97 ++ [1; 187] ++ replicate 254 98) 443 [])
    as (b & a & r & H1 & H2 & H3 & _ & H5).
  - vm_compute. intuition congruence.
  - vm_compute. intuition congruence.
  - exists b, a, r. exact (conj H1 (conj H2 (conj H3 H5))).
Defined.

Lemma udp_tunnel_roundtrip_witness :
  ∃ b, tunnelWriteAll [associateWrite [1; 2] (mkAddr [] [8; 8; 8; 8] 53)] = Ret b ∧
    tunnelReadAll 65536 1 (b ++ [7]) = Ret ([associateWrite [1; 2] (mkAddr [] [8; 8; 8; 8] 53)], [7]) ∧
    Forall2 (λ packet m, associateRead 65536 packet = Ret (m.1, normalized m.2))
      [associateWrite [1; 2] (mkAddr [] [8; 8; 8; 8] 53)] [([1; 2], mkAddr [] [8; 8; 8; 8] 53)].
Proof.
  apply (udp_tunnel_roundtrip 65536 [([1; 2], mkAddr [] [8; 8; 8; 8] 53)] [7]).
  constructor; [|constructor]. vm_compute. intuition congruence.
Defined.

End Socks.
Export Socks.
