(* ===== verification/Net.v ===== *)
(** * The standard library's addresses and numbers in text

    What the sources use of packages net, net/netip and strconv: IP addresses
    and their classes, [ParseIP], [ParseCIDR] with [IPNet.Contains],
    [SplitHostPort], [Atoi] and [Itoa].  A Go string is the list of its bytes. *)

From S2P Require Import Prelude Socks.

Module Net.

(** ** Slices: [b[i]] and [b[i:j]], with Go's panics *)

Definition index_at (b : bytes) (i : Z) : outcome Z :=
  if (0 <=? i) && (i <? len b) then Ret (nth (Z.to_nat i) b 0) else Panic "index out of range".
Definition slice_range (b : bytes) (i j : Z) : outcome bytes :=
  if (0 <=? i) && (i <=? j) && (j <=? len b) then Ret (take (Z.to_nat (j - i)) (drop (Z.to_nat i) b))
  else Panic "slice bounds out of range".

(** ** Searching in a string *)

(** [strings.IndexByte], with [None] for -1. *)
Fixpoint IndexByte (c : Z) (s : bytes) : option nat :=
  match s with
  | [] => None
  | x :: s => if x =? c then Some O else S <$> IndexByte c s
  end.
Fixpoint LastIndexByte (c : Z) (s : bytes) : option nat :=
  match s with
  | [] => None
  | x :: s =>
      match LastIndexByte c s with
      | Some i => Some (S i)
      | None => if x =? c then Some O else None
      end
  end.
Definition contains (c : Z) (s : bytes) : bool := existsb (Z.eqb c) s.

(** [strings.HasSuffix]. *)
Definition HasSuffix (s suffix : bytes) : bool :=
  (length suffix <=? length s)%nat && bool_decide (drop (length s - length suffix) s = suffix).

(** ** Decimal numbers *)

Definition is_digit (c : Z) : bool := (48 <=? c) && (c <=? 57).

Fixpoint digits_value (acc : Z) (s : bytes) : Z :=
  match s with [] => acc | c :: s => digits_value (acc * 10 + (c - 48)) s end.

(** [strconv.Atoi]: an optional sign, digits, and a value that fits an int. *)
Definition Atoi (s : bytes) : outcome Z :=
  let '(neg, ds) :=
    match s with
    | 45 :: s => (true, s)
    | 43 :: s => (false, s)
    | _ => (false, s)
    end in
  if (len ds =? 0) || negb (forallb is_digit ds) then Err (Errorf "strconv.Atoi: parsing %q: invalid syntax")
  else
    let v := if neg : bool then - digits_value 0 ds else digits_value 0 ds in
    if (- 2 ^ 63 <=? v) && (v <? 2 ^ 63) then Ret v
    else Err (Errorf "strconv.Atoi: parsing %q: value out of range").

(** [strconv.Itoa] of a number below [10 ^ fuel]. *)
Fixpoint digits (fuel : nat) (n : Z) : bytes :=
  match fuel with
  | O => []
  | S fuel => if n <? 10 then [48 + n] else digits fuel (n / 10) ++ [48 + n `mod` 10]
  end.
Definition Itoa (n : Z) : bytes :=
  if n <? 0 then 45 :: digits 20 (- n) else digits 20 n.

(** ** IP addresses *)

Definition IPv4zero : bytes := v4InV6Prefix ++ [0; 0; 0; 0].
Definition IPv6unspecified : bytes := replicate 16 0.
Definition IPv6loopback : bytes := replicate 15 0 ++ [1].

(** [IP.Equal]: an IPv4 address and its IPv6 form are the same. *)
Definition IPEqual (ip x : bytes) : bool :=
  if len ip =? len x then bool_decide (ip = x)
  else if (len ip =? 4) && (len x =? 16) then bool_decide (take 12 x = v4InV6Prefix ∧ ip = drop 12 x)
  else if (len ip =? 16) && (len x =? 4) then bool_decide (take 12 ip = v4InV6Prefix ∧ drop 12 ip = x)
  else false.

Definition IsPrivate (ip : bytes) : bool :=
  let ip4 := To4 ip in
  if 0 <? len ip4 then
    (nth 0 ip4 0 =? 10) ||
    ((nth 0 ip4 0 =? 172) && (Z.land (nth 1 ip4 0) 0xf0 =? 16)) ||
    ((nth 0 ip4 0 =? 192) && (nth 1 ip4 0 =? 168))
  else (len ip =? 16) && (Z.land (nth 0 ip 0) 0xfe =? 0xfc).

Definition IsLoopback (ip : bytes) : bool :=
  let ip4 := To4 ip in
  if 0 <? len ip4 then nth 0 ip4 0 =? 127 else IPEqual ip IPv6loopback.

Definition IsUnspecified (ip : bytes) : bool :=
  IPEqual ip IPv4zero || IPEqual ip IPv6unspecified.

(** ** Text of an IP address *)

(** The fields of a dotted IPv4 address: what is left to read, the number of
    digits of the current field and its value, the fields before it (last
    first), and whether the character before was a dot. *)
Fixpoint parseIPv4Fields (s : bytes) (first prevDot : bool) (digLen val : Z) (done : bytes) : option bytes :=
  match s with
  | [] => if len done <? 3 then None else Some (rev (val :: done))
  | c :: s' =>
      if is_digit c then
        if (digLen =? 1) && (val =? 0) then None
        else
          let val := val * 10 + (c - 48) in
          if 255 <? val then None else parseIPv4Fields s' false false (digLen + 1) val done
      else if c =? 46 then
        if first || (len s' =? 0) || prevDot then None
        else if len done =? 3 then None
        else parseIPv4Fields s' false true 0 0 (val :: done)
      else None
  end.
Definition parseIPv4 (s : bytes) : option bytes := parseIPv4Fields s true false 0 0 [].

Definition hex_value (c : Z) : option Z :=
  if is_digit c then Some (c - 48)
  else if (97 <=? c) && (c <=? 102) then Some (c - 97 + 10)
  else if (65 <=? c) && (c <=? 70) then Some (c - 65 + 10)
  else None.

(** The hexadecimal number at the start of [s]: its digits, its value and the
    rest; [None] when it has more than four digits. *)
Fixpoint hexGroup (s : bytes) (off acc : Z) : option (Z * Z * bytes) :=
  match s with
  | [] => Some (off, acc, [])
  | c :: s' =>
      match hex_value c with
      | None => Some (off, acc, s)
      | Some d => if 3 <? off then None else hexGroup s' (off + 1) (Z.shiftl acc 4 + d)
      end
  end.

(** The loop of [parseIPv6]: the bytes read so far, where the ellipsis was, and
    what is left.  One round reads one group, so 8 rounds are enough. *)
Fixpoint parseIPv6Loop (fuel : nat) (s ip : bytes) (ellipsis : option nat) : option (bytes * option nat * bytes) :=
  match fuel with
  | O => Some (ip, ellipsis, s)
  | S fuel =>
      match hexGroup s 0 0 with
      | None => None
      | Some (off, acc, r) =>
          if off =? 0 then None
          else if match r with 46 :: _ => true | _ => false end then
            if match ellipsis with None => negb (len ip =? 12) | _ => false end then None
            else if 16 <? len ip + 4 then None
            else match parseIPv4 s with Some v4 => Some (ip ++ v4, ellipsis, []) | None => None end
          else
            let ip := ip ++ [u8 (Z.shiftr acc 8); u8 acc] in
            match r with
            | [] => Some (ip, ellipsis, [])
            | 58 :: r =>
                match r with
                | [] => None
                | 58 :: r =>
                    match ellipsis with
                    | Some _ => None
                    | None =>
                        match r with
                        | [] => Some (ip, Some (length ip), [])
                        | _ => parseIPv6Loop fuel r ip (Some (length ip))
                        end
                    end
                | _ => parseIPv6Loop fuel r ip ellipsis
                end
            | _ => None
            end
      end
  end.

Definition parseIPv6 (s : bytes) : option bytes :=
  if contains 37 s then None
  else
    let '(ellipsis, s) :=
      match s with
      | 58 :: 58 :: s => (Some O, s)
      | _ => (None, s)
      end in
    if bool_decide (ellipsis = Some O) && (len s =? 0) then Some IPv6unspecified
    else
      match parseIPv6Loop 8 s [] ellipsis with
      | None => None
      | Some (ip, ellipsis, s) =>
          if negb (len s =? 0) then None
          else if len ip <? 16 then
            match ellipsis with
            | None => None
            | Some e => Some (take e ip ++ replicate (16 - length ip) 0 ++ drop e ip)
            end
          else match ellipsis with Some _ => None | None => Some ip end
      end.

(** [netip.ParseAddr] without a zone: the bytes of the address, 4 or 16. *)
Fixpoint addrKind (s : bytes) : Z :=
  match s with
  | [] => 0
  | c :: s => if (c =? 46) || (c =? 58) || (c =? 37) then c else addrKind s
  end.
Definition ParseAddr (s : bytes) : option bytes :=
  if addrKind s =? 46 then parseIPv4 s
  else if addrKind s =? 58 then parseIPv6 s
  else None.

(** [net.ParseIP]: 16 bytes, nil when the text is not an address. *)
Definition ParseIP (s : bytes) : bytes :=
  match ParseAddr s with Some ip => To16 ip | None => [] end.

(** ** Networks *)

Record IPNet := mkIPNet { NetIP : bytes; NetMask : bytes }.

(** [dtoi]: the number at the start of [s], with what is left. *)
Fixpoint dtoi (s : bytes) (read : bool) (n : Z) : option (Z * bytes) :=
  match s with
  | c :: s' =>
      if is_digit c then
        let n := n * 10 + (c - 48) in
        if 0xFFFFFF <=? n then None else dtoi s' true n
      else if read then Some (n, s) else None
  | [] => if read then Some (n, []) else None
  end.

(** [CIDRMask]: [ones] one bits, then zeros, [k] bytes. *)
Fixpoint CIDRMask (ones : Z) (k : nat) : bytes :=
  match k with
  | O => []
  | S k => (if 8 <=? ones then 255 else 255 - Z.shiftr 255 (Z.max 0 ones)) :: CIDRMask (ones - 8) k
  end.

(** [IP.Mask]; nil when the lengths do not fit. *)
Definition Mask (ip mask : bytes) : bytes :=
  let mask := if (len mask =? 16) && (len ip =? 4) && bool_decide (take 12 mask = replicate 12 255)
              then drop 12 mask else mask in
  let ip := if (len mask =? 4) && (len ip =? 16) && bool_decide (take 12 ip = v4InV6Prefix)
            then drop 12 ip else ip in
  if len ip =? len mask then zip_with Z.land ip mask else [].

Definition ParseCIDR (s : bytes) : option IPNet :=
  match IndexByte 47 s with
  | None => None
  | Some i =>
      match ParseAddr (take i s), dtoi (drop (S i) s) false 0 with
      | Some ip, Some (n, []) =>
          if 8 * len ip <? n then None
          else let m := CIDRMask n (length ip) in Some (mkIPNet (Mask (To16 ip) m) m)
      | _, _ => None
      end
  end.

(** [networkNumberAndMask] and [IPNet.Contains]. *)
Definition networkNumberAndMask (n : IPNet) : bytes * bytes :=
  let ip := if 0 <? len (To4 (NetIP n)) then To4 (NetIP n) else NetIP n in
  if negb (0 <? len (To4 (NetIP n))) && negb (len ip =? 16) then ([], [])
  else if len (NetMask n) =? 4 then if len ip =? 4 then (ip, NetMask n) else ([], [])
  else if len (NetMask n) =? 16 then
    if len ip =? 4 then (ip, drop 12 (NetMask n)) else (ip, NetMask n)
  else ([], []).

Definition Contains (n : IPNet) (ip : bytes) : bool :=
  let '(nn, m) := networkNumberAndMask n in
  let ip := if 0 <? len (To4 ip) then To4 ip else ip in
  (len ip =? len nn) && bool_decide (zip_with Z.land nn m = zip_with Z.land ip m).

(** ** Host and port *)

Definition SplitHostPort (hostport : bytes) : outcome (bytes * bytes) :=
  match LastIndexByte 58 hostport with
  | None => Err (Errorf "missing port in address")
  | Some i =>
      let! (host, j, k) :=
        (if match hostport with 91 :: _ => true | _ => false end then
           match IndexByte 93 hostport with
           | None => Err (Errorf "missing ']' in address")
           | Some e =>
               if (S e =? length hostport)%nat then Err (Errorf "missing port in address")
               else if (S e =? i)%nat then Ret (take (e - 1) (drop 1 hostport), 1%nat, S e)
               else if nth (S e) hostport 0 =? 58 then Err (Errorf "too many colons in address")
               else Err (Errorf "missing port in address")
           end
         else if contains 58 (take i hostport) then Err (Errorf "too many colons in address")
         else Ret (take i hostport, O, O)) in
      if contains 91 (drop j hostport) then Err (Errorf "unexpected '[' in address")
      else if contains 93 (drop k hostport) then Err (Errorf "unexpected ']' in address")
      else Ret (host, drop (S i) hostport)
  end.

(** ** Lemmas *)

Lemma slice_range_mid a x b i j :
  i = len a → j = len a + len x → slice_range (a ++ x ++ b) i j = Ret x.
Proof.
  intros -> ->. unfold slice_range. rewrite !len_app. pose proof (len_nonneg a). pose proof (len_nonneg x).
  pose proof (len_nonneg b). rewrite !(proj2 (Z.leb_le _ _)) by lia. simpl. do 2 f_equal.
  replace (len a + len x - len a) with (len x) by lia. unfold len. rewrite !Nat2Z.id.
  by rewrite drop_app_length, take_app_length.
Qed.

Lemma index_at_mid a x b i : i = len a → index_at (a ++ x :: b) i = Ret x.
Proof.
  intros ->. unfold index_at. rewrite len_app, len_cons. pose proof (len_nonneg a). pose proof (len_nonneg b).
  rewrite (proj2 (Z.leb_le _ _)), (proj2 (Z.ltb_lt _ _)) by lia. simpl. unfold len. rewrite Nat2Z.id.
  rewrite app_nth2, Nat.sub_diag by lia. done.
Qed.

(** Reads of one and two bytes. *)
Lemma ReadFull_1 x (r : bytes) : ReadFull 1 (x :: r) = Ret ([x], r).
Proof. by apply (ReadFull_app [x]). Qed.
Lemma ReadFull_2 x y (r : bytes) : ReadFull 2 (x :: y :: r) = Ret ([x; y], r).
Proof. by apply (ReadFull_app [x; y]). Qed.

Lemma To4_4 ip : len ip = 4 → To4 ip = ip.
Proof. intros H. unfold To4. by rewrite H. Qed.

Lemma contains_spec c s : contains c s = true ↔ c ∈ s.
Proof.
  unfold contains. rewrite existsb_exists. split.
  - intros (x & Hx & E). bool_to_Z. subst. by apply list_elem_of_In.
  - intros H. exists c. split; [by apply list_elem_of_In|apply Z.eqb_refl].
Qed.

(** *** Masks *)

Lemma land_mask_byte x k : in_u8 x → 0 ≤ k ≤ 8 → Z.land x (255 - Z.shiftr 255 k) = x / 2 ^ (8 - k) * 2 ^ (8 - k).
Proof.
  intros Hx Hk.
  assert (forallb (λ k, forallb (λ x, Z.land x (255 - Z.shiftr 255 k) =? x / 2 ^ (8 - k) * 2 ^ (8 - k))
            (seqZ 0 256)) (seqZ 0 9) = true) as H by (vm_compute; reflexivity).
  unfold in_u8 in Hx.
  assert (k ∈ seqZ 0 9) as Hk' by (apply elem_of_seqZ; lia).
  assert (x ∈ seqZ 0 256) as Hx' by (apply elem_of_seqZ; lia).
  apply list_elem_of_In in Hk', Hx'. rewrite forallb_forall in H. specialize (H k Hk').
  rewrite forallb_forall in H. apply Z.eqb_eq, H, Hx'.
Qed.

Lemma zip_land_zero (k : nat) ones x : ones ≤ 0 → length x = k →
  zip_with Z.land x (CIDRMask ones k) = replicate k 0.
Proof.
  revert ones x. induction k as [|k IH]; intros ones x Ho Hl; [by destruct x|].
  destruct x as [|a x]; [done|]. simpl. rewrite (proj2 (Z.leb_gt _ _)) by lia.
  rewrite Z.max_l by lia. simpl. rewrite Z.land_0_r. f_equal. apply IH; [lia|by simplify_eq/=].
Qed.

Lemma be_get_acc_eq acc b : be_get_acc acc b = acc * 2 ^ (8 * len b) + be_get b.
Proof.
  revert acc. induction b as [|x b IH]; intros acc; unfold be_get; simpl.
  - change (8 * len []) with 0. lia.
  - rewrite !IH. rewrite len_cons, !Z.shiftl_mul_pow2 by lia.
    replace (8 * (1 + len b)) with (8 + 8 * len b) by lia.
    rewrite Z.pow_add_r by (pose proof (len_nonneg b); lia). lia.
Qed.
Lemma be_get_cons x b : be_get (x :: b) = x * 2 ^ (8 * len b) + be_get b.
Proof. unfold be_get at 1. simpl. by rewrite be_get_acc_eq. Qed.

(** Two addresses agree under a mask when their first [ones] bits agree. *)
Lemma mask_eq_prefix (k : nat) ones x y :
  0 ≤ ones ≤ 8 * Z.of_nat k → length x = k → length y = k → bytes_ok x → bytes_ok y →
  zip_with Z.land x (CIDRMask ones k) = zip_with Z.land y (CIDRMask ones k) ↔
  be_get x / 2 ^ (8 * Z.of_nat k - ones) = be_get y / 2 ^ (8 * Z.of_nat k - ones).
Proof.
  revert ones x y. induction k as [|k IH]; intros ones x y Ho Hx Hy Bx By.
  { destruct x, y; try done. }
  destruct x as [|a x]; [done|]. destruct y as [|b y]; [done|]. simpl in Hx, Hy. injection Hy as <-. injection Hx as Hx.
  apply Forall_cons_1 in Bx as [Ha Bx]. apply Forall_cons_1 in By as [Hb By].
  pose proof (be_get_range x Bx) as Rx. pose proof (be_get_range y By) as Ry.
  rewrite !be_get_cons. assert (len y = len x) as El by (unfold len; lia). rewrite El in *.
  assert (Z.of_nat (length y) = len x) as Ex by (unfold len; lia). set (X := be_get x) in *. set (Y := be_get y) in *.
  pose proof (len_nonneg x). set (q := 2 ^ (8 * len x)) in *. assert (0 < q) by (apply Z.pow_pos_nonneg; lia).
  simpl CIDRMask. cbn [zip_with]. destruct (Z.leb_spec 8 ones) as [H8|H8].
  - assert (∀ z, in_u8 z → Z.land z 255 = z) as L255.
    { intros z Hz. change 255 with (Z.ones 8). rewrite Z.land_ones by lia. by apply Z.mod_small. }
    rewrite !L255 by done. set (e := 8 * Z.of_nat (S (length y)) - ones).
    assert (0 ≤ e ≤ 8 * len x) by lia. specialize (IH (ones - 8) x y ltac:(lia) Hx eq_refl Bx By).
    replace (8 * Z.of_nat (length y) - (ones - 8)) with e in IH by lia. fold X Y in IH.
    assert (q = 2 ^ (8 * len x - e) * 2 ^ e) as Eq by (unfold q; rewrite <- Z.pow_add_r by lia; f_equal; lia).
    assert (0 < 2 ^ e) by (apply Z.pow_pos_nonneg; lia).
    set (p := 2 ^ (8 * len x - e)) in *. assert (0 < p) by (apply Z.pow_pos_nonneg; lia).
    assert (∀ c Z, 0 ≤ Z < q → (c * q + Z) / 2 ^ e = c * p + Z / 2 ^ e ∧ 0 ≤ Z / 2 ^ e < p) as D.
    { intros c Z HZ. split; [rewrite Eq, Z.mul_assoc, Z.div_add_l; lia|].
      split; [apply Z.div_pos; lia|apply Z.div_lt_upper_bound; lia]. }
    destruct (D a X Rx) as [-> ?]. destruct (D b Y Ry) as [-> ?].
    split; [intros [= -> E]; f_equal; by apply IH|]. intros E.
    assert (a = b) as -> by nia. f_equal. apply IH. lia.
  - rewrite !zip_land_zero by lia. rewrite Z.max_r by lia. rewrite !land_mask_byte by (done || lia).
    set (e := 8 - ones). replace (8 * Z.of_nat (S (length y)) - ones) with (8 * len x + e) by lia.
    rewrite Z.pow_add_r by lia. fold q. assert (0 < 2 ^ e) by (apply Z.pow_pos_nonneg; lia).
    assert (∀ c Z, 0 ≤ Z < q → (c * q + Z) / (q * 2 ^ e) = c / 2 ^ e) as D.
    { intros c Z HZ. rewrite <- Z.div_div, Z.div_add_l, (Z.div_small Z) by lia. f_equal. lia. }
    rewrite !D by lia. split; [intros [= E]; nia|intros ->; done].
Qed.

Lemma eq_comm {A} (x y : A) : x = y ↔ y = x.
Proof. by split. Qed.

(** *** Decimal text *)

(** The text of a number below 1000, digit by digit. *)
Lemma Itoa_small a : 0 ≤ a < 1000 →
  (a < 10 ∧ Itoa a = [48 + a]) ∨
  (10 ≤ a < 100 ∧ ∃ x y, Itoa a = [48 + x; 48 + y] ∧ a = 10 * x + y ∧ 1 ≤ x ≤ 9 ∧ 0 ≤ y ≤ 9) ∨
  (100 ≤ a ∧ ∃ x y z, Itoa a = [48 + x; 48 + y; 48 + z] ∧ a = 100 * x + 10 * y + z ∧
     1 ≤ x ≤ 9 ∧ 0 ≤ y ≤ 9 ∧ 0 ≤ z ≤ 9).
Proof.
  intros Ha. unfold Itoa. rewrite (proj2 (Z.ltb_ge _ _)) by lia. cbn [digits].
  pose proof (Z.div_mod a 10 ltac:(lia)). pose proof (Z.mod_pos_bound a 10 ltac:(lia)).
  pose proof (Z.div_mod (a / 10) 10 ltac:(lia)). pose proof (Z.mod_pos_bound (a / 10) 10 ltac:(lia)).
  destruct (Z.ltb_spec a 10); [left; done|]. right. destruct (Z.ltb_spec (a / 10) 10).
  - left. split; [lia|]. exists (a / 10), (a `mod` 10). split; [done|lia].
  - right. split; [lia|]. rewrite (proj2 (Z.ltb_lt (a / 10 / 10) 10)) by lia.
    exists (a / 10 / 10), ((a / 10) `mod` 10), (a `mod` 10). split; [done|lia].
Qed.

Lemma is_digit_48 x : 0 ≤ x ≤ 9 → is_digit (48 + x) = true.
Proof. intros. unfold is_digit. rewrite !(proj2 (Z.leb_le _ _)) by lia. done. Qed.

(** The digits of an octet, when the field is not finished. *)
Lemma parse_octet a rest first prevDot done :
  0 ≤ a < 256 → ∃ d,
  parseIPv4Fields (Itoa a ++ rest) first prevDot 0 0 done = parseIPv4Fields rest false false d a done.
Proof.
  intros Ha. destruct (Itoa_small a ltac:(lia)) as [[? ->]|[[? (x & y & -> & ? & ? & ?)]|[? (x & y & z & -> & ? & ? & ? & ?)]]];
    cbn [app parseIPv4Fields]; rewrite !is_digit_48 by lia.
  - exists 1. cbn [Z.eqb andb]. rewrite (proj2 (Z.ltb_ge 255 _)) by lia. by replace (0 * 10 + (48 + a - 48)) with a by lia.
  - exists 2. cbn [Z.eqb andb]. rewrite !(proj2 (Z.ltb_ge 255 _)) by lia.
    rewrite (proj2 (Z.eqb_neq _ 0)) by lia. cbn. f_equal; lia.
  - exists 3. cbn [Z.eqb andb]. rewrite !(proj2 (Z.ltb_ge 255 _)) by lia.
    rewrite (proj2 (Z.eqb_neq (0 * 10 + _) 0)) by lia. cbn. f_equal; lia.
Qed.

Lemma parse_octet_dot a rest first prevDot done :
  0 ≤ a < 256 → 0 < len rest → len done < 3 →
  parseIPv4Fields (Itoa a ++ 46 :: rest) first prevDot 0 0 done = parseIPv4Fields rest false true 0 0 (a :: done).
Proof.
  intros Ha Hr Hd. destruct (parse_octet a (46 :: rest) first prevDot done Ha) as [d ->]. simpl.
  rewrite (proj2 (Z.eqb_neq (len rest) 0)), (proj2 (Z.eqb_neq (len done) 3)) by lia. done.
Qed.

Definition dotted (a b c d : Z) : bytes := Itoa a ++ 46 :: Itoa b ++ 46 :: Itoa c ++ 46 :: Itoa d.

Lemma len_Itoa_pos a : 0 ≤ a < 256 → 0 < len (Itoa a).
Proof.
  intros. destruct (Itoa_small a ltac:(lia)) as [[? ->]|[[? (x & y & -> & ? & ? & ?)]|[? (x & y & z & -> & ? & ? & ? & ?)]]];
    unfold len; simpl; lia.
Qed.

Lemma parseIPv4_dotted a b c d : in_u8 a → in_u8 b → in_u8 c → in_u8 d →
  parseIPv4 (dotted a b c d) = Some [a; b; c; d].
Proof.
  unfold in_u8. intros. unfold parseIPv4, dotted.
  pose proof (len_Itoa_pos b). pose proof (len_Itoa_pos c). pose proof (len_Itoa_pos d).
  rewrite !parse_octet_dot; try (rewrite ?len_app, ?len_cons; unfold len in *; simpl; lia).
  rewrite <- (app_nil_r (Itoa d)). destruct (parse_octet d [] false true [c; b; a]) as [k ->]; [lia|]. done.
Qed.

(** No character of a number is the separator [c]. *)
Lemma Itoa_chars a : 0 ≤ a < 256 → Forall (λ c, 48 ≤ c ≤ 57) (Itoa a).
Proof.
  intros. destruct (Itoa_small a ltac:(lia)) as [[? ->]|[[? (x & y & -> & ? & ? & ?)]|[? (x & y & z & -> & ? & ? & ? & ?)]]];
    repeat constructor; lia.
Qed.

Lemma addrKind_skip s r : Forall (λ c, 48 ≤ c ≤ 57) s → addrKind (s ++ 46 :: r) = 46.
Proof.
  induction 1 as [|c s Hc Hs IH]; [done|]. simpl.
  rewrite !(proj2 (Z.eqb_neq _ _)) by lia. exact IH.
Qed.

Lemma ParseAddr_dotted a b c d : in_u8 a → in_u8 b → in_u8 c → in_u8 d →
  ParseAddr (dotted a b c d) = Some [a; b; c; d].
Proof.
  intros. unfold ParseAddr. unfold dotted at 1. rewrite addrKind_skip by (by apply Itoa_chars).
  by apply parseIPv4_dotted.
Qed.

Lemma IndexByte_skip c s r : c ∉ s → IndexByte c (s ++ c :: r) = Some (length s).
Proof.
  induction s as [|x s IH]; intros H; simpl; [by rewrite Z.eqb_refl|].
  apply not_elem_of_cons in H as [H1 H2]. rewrite (proj2 (Z.eqb_neq x c)) by done. by rewrite IH.
Qed.

Lemma dtoi_Itoa n : 0 ≤ n < 256 → dtoi (Itoa n) false 0 = Some (n, []).
Proof.
  intros. destruct (Itoa_small n ltac:(lia)) as [[? ->]|[[? (x & y & -> & ? & ? & ?)]|[? (x & y & z & -> & ? & ? & ? & ?)]]];
    cbn [dtoi]; rewrite ?is_digit_48 by lia; rewrite ?(proj2 (Z.leb_gt 0xFFFFFF _)) by lia; do 2 f_equal; lia.
Qed.

Lemma slash_not_dotted a b c d : in_u8 a → in_u8 b → in_u8 c → in_u8 d → 47 ∉ dotted a b c d.
Proof.
  unfold in_u8. intros. assert (Forall (λ x, x ≠ 47) (dotted a b c d)) as F.
  { unfold dotted. repeat first [apply Forall_app_2 | apply Forall_cons_2; [done|]];
      (eapply Forall_impl; [apply Itoa_chars; lia|simpl; lia]). }
  intros Hin. by apply (proj1 (Forall_forall _ _) F 47 Hin).
Qed.

Definition cidr (a b c d n : Z) : bytes := dotted a b c d ++ 47 :: Itoa n.

Lemma ParseCIDR_dotted a b c d n : in_u8 a → in_u8 b → in_u8 c → in_u8 d → 0 ≤ n ≤ 32 →
  ParseCIDR (cidr a b c d n) =
    Some (mkIPNet (zip_with Z.land [a; b; c; d] (CIDRMask n 4)) (CIDRMask n 4)).
Proof.
  intros Ha Hb Hc Hd Hn. unfold ParseCIDR, cidr. rewrite IndexByte_skip by (by apply slash_not_dotted).
  rewrite take_app_length, ParseAddr_dotted by done.
  replace (drop (S (length (dotted a b c d))) (dotted a b c d ++ 47 :: Itoa n)) with (Itoa n)
    by (rewrite cons_middle, (assoc_L (++)); symmetry; apply drop_app_length'; rewrite length_app; simpl; lia).
  rewrite dtoi_Itoa by lia. rewrite (proj2 (Z.ltb_ge _ _)) by (unfold len; simpl; lia). done.
Qed.

Lemma zip_land_idem x m : zip_with Z.land (zip_with Z.land x m) m = zip_with Z.land x m.
Proof.
  revert m. induction x as [|a x IH]; intros [|b m]; simpl; [done..|].
  by rewrite <- Z.land_assoc, Z.land_diag, IH.
Qed.

(** An IPv4 network in text contains the addresses that share its first bits. *)
Lemma Contains_cidr a b c d n ip :
  in_u8 a → in_u8 b → in_u8 c → in_u8 d → 0 ≤ n ≤ 32 → bytes_ok ip → len (To4 ip) = 4 →
  ∃ net, ParseCIDR (cidr a b c d n) = Some net ∧
  (Contains net ip = true ↔ be_get (To4 ip) / 2 ^ (32 - n) = be_get [a; b; c; d] / 2 ^ (32 - n)).
Proof.
  intros Ha Hb Hc Hd Hn Hip H4. rewrite ParseCIDR_dotted by done. eexists. split; [done|].
  assert (∀ x m, len x = 4 → len m = 4 →
    Contains (mkIPNet x m) ip = bool_decide (zip_with Z.land x m = zip_with Z.land (To4 ip) m)) as C.
  { intros x m Hx Hm. unfold Contains, networkNumberAndMask. cbn [NetIP NetMask].
    assert (To4 x = x) as -> by (unfold To4; by rewrite Hx). rewrite Hx, Hm, H4. change (0 <? 4) with true. cbn [negb andb Z.eqb Pos.eqb]. rewrite Hx, H4. change (4 =? 4) with true. cbn [andb]. by rewrite Hx. }
  rewrite C, bool_decide_eq_true, (zip_land_idem [a; b; c; d]) by done. rewrite eq_comm.
  apply (mask_eq_prefix 4); [lia|unfold len in H4; lia|done| |solve_bytes_ok].
  unfold To4. repeat case_if; [done|by apply Forall_drop|constructor].
Qed.

(** Closes [bytes_ok] of a list of numerals. *)
Ltac bytes_lit := unfold bytes_ok; repeat (apply Forall_cons_2; [unfold in_u8; lia|]); apply Forall_nil_2.

Example parse_ip_texts :
  map (λ s, ParseIP (string_bytes s))
    ["127.0.0.1"; "::1"; "fe80::1:2"; "::ffff:10.0.0.1"; "1.2.3"; "01.2.3.4"; "1::2::3"; "12345::"; "::"]
  = [v4InV6Prefix ++ [127; 0; 0; 1]; IPv6loopback; [254; 128] ++ replicate 11 0 ++ [1; 0; 2];
     v4InV6Prefix ++ [10; 0; 0; 1]; []; []; []; []; IPv6unspecified].
Proof. reflexivity. Qed.

End Net.
Export Net.
