(* ===== verification/Egress.v ===== *)
(** * pkg/socks5/egress.go: what the server does with a socks5 request

    The egress controller of the socks5 server decides from the raw bytes of a
    request, the user and the configuration whether the destination is connected
    directly, through another proxy, or rejected.  The random choice among the
    proxies of a rule is an argument.  Strings are their bytes, apart from the
    names of users. *)

From S2P Require Import Prelude Socks Net.

Module Egress.

Definition Socks5BindCmd : Z := 2.

Inductive ProxyProtocol := UNKNOWN_PROXY_PROTOCOL | SOCKS5_PROXY_PROTOCOL.
Inductive EgressAction := PROXY | DIRECT | REJECT.

Record Credential := mkCredential { credUser : bytes; credPassword : bytes }.

(** [appctlpb.EgressProxy], [EgressRule] and [Egress]. *)
Record EgressProxy := mkEgressProxy {
  proxyName : bytes;
  proxyHost : bytes;
  proxyPort : Z;
  socks5Authentication : option Credential
}.
Record EgressRule := mkEgressRule {
  ipRanges : list bytes;
  domainNames : list bytes;
  ruleAction : EgressAction;
  proxyNames : list bytes
}.
Record EgressConfig := mkEgressConfig { proxies : list EgressProxy; rules : list EgressRule }.

(** What the controller reads of a user and of the configuration. *)
Record UserRights := mkRights { allowPrivateIP : bool; allowLoopbackIP : bool }.
Record ServerConfig := mkServerConfig {
  configUsers : gmap string UserRights;
  configEgress : EgressConfig;
  AllowLoopbackDestination : bool
}.

(** [egress.Input] with the "user" entry of its environment, and [egress.Action]. *)
Record Input := mkInput { inProtocol : ProxyProtocol; inData : bytes; inUser : option string }.
Record Action := mkAction { action : EgressAction; actionProxy : option EgressProxy }.

#[global] Instance ProxyProtocol_eq_dec : EqDecision ProxyProtocol.
Proof. solve_decision. Defined.
#[global] Instance EgressAction_eq_dec : EqDecision EgressAction.
Proof. solve_decision. Defined.

Definition direct : Action := mkAction DIRECT None.
Definition reject : Action := mkAction REJECT None.

Definition wellKnownIPv4LocalDomainNames : list bytes :=
  map string_bytes ["localhost"; "localhost4"; "localhost.localdomain"; "localhost4.localdomain4"].
Definition wellKnownIPv6LocalDomainNames : list bytes :=
  map string_bytes ["localhost6"; "ip6-localhost"; "ip6-loopback"; "localhost6.localdomain6"].

Definition rejectPrivateAndLoopbackIPAction (cfg : ServerConfig) (inp : Input) : outcome Action :=
  let! t := index_at (inData inp) 3 in
  let! ip :=
    (if t =? Socks5IPv4Address then let! b := slice_range (inData inp) 4 8 in Ret (Some b)
     else if t =? Socks5IPv6Address then let! b := slice_range (inData inp) 4 20 in Ret (Some b)
     else if t =? Socks5FQDNAddress then
       let! n := index_at (inData inp) 4 in
       let! domainName := slice_range (inData inp) 5 (5 + n) in
       if bool_decide (domainName ∈ wellKnownIPv4LocalDomainNames) then Ret (Some (ParseIP (string_bytes "127.0.0.1")))
       else if bool_decide (domainName ∈ wellKnownIPv6LocalDomainNames) then Ret (Some (ParseIP (string_bytes "::1")))
       else Ret None
     else Ret (Some [])) in
  match ip with
  | None => Ret direct
  | Some ip =>
      if negb (IsPrivate ip) && negb (IsLoopback ip) then Ret direct
      else if IsLoopback ip && AllowLoopbackDestination cfg then Ret direct
      else
        match inUser inp with
        | None => Ret reject
        | Some userName =>
            if bool_decide (userName = "") then Ret reject
            else match configUsers cfg !! userName with
                 | None => Ret reject
                 | Some user =>
                     if IsPrivate ip && allowPrivateIP user then Ret direct
                     else if IsLoopback ip && allowLoopbackIP user then Ret direct
                     else Ret reject
                 end
        end
  end.

(** [addr] is nil for a domain name. *)
Definition matchEgressRule (addr : option bytes) (domain : bytes) (rule : EgressRule) : bool :=
  match addr with
  | Some addr =>
      existsb (λ ipRange,
        if bool_decide (ipRange = string_bytes "*") then true
        else match ParseCIDR ipRange with None => false | Some cidr => Contains cidr addr end)
        (ipRanges rule)
  | None =>
      if 0 <? len domain then
        existsb (λ d, if bool_decide (d = string_bytes "*") then true
                      else bool_decide (domain = d) || HasSuffix domain (string_bytes "." ++ d))
          (domainNames rule)
      else false
  end.

(** The action of a rule that matches; [draw] is the result of [mrand.Intn]. *)
Definition ruleResult (cfg : EgressConfig) (draw : Z) (rule : EgressRule) : Action :=
  match ruleAction rule with
  | PROXY =>
      let selectedProxyName :=
        if 0 <? len (proxyNames rule) then nth (Z.to_nat draw) (proxyNames rule) [] else [] in
      match find (λ p, bool_decide (proxyName p = selectedProxyName)) (proxies cfg) with
      | Some p => mkAction PROXY (Some p)
      | None => mkAction PROXY None
      end
  | a => mkAction a None
  end.

Definition forwardToProxyAction (cfg : ServerConfig) (draw : Z) (inp : Input) : outcome Action :=
  let! addrType := index_at (inData inp) 3 in
  let! dst :=
    (if addrType =? Socks5IPv4Address then let! b := slice_range (inData inp) 4 8 in Ret (Some (Some b, []))
     else if addrType =? Socks5IPv6Address then let! b := slice_range (inData inp) 4 20 in Ret (Some (Some b, []))
     else if addrType =? Socks5FQDNAddress then
       let! n := index_at (inData inp) 4 in
       let! domain := slice_range (inData inp) 5 (5 + n) in Ret (Some (None, domain))
     else Ret None) in
  match dst with
  | None => Ret direct
  | Some (addr, domain) =>
      match find (matchEgressRule addr domain) (rules (configEgress cfg)) with
      | Some rule => Ret (ruleResult (configEgress cfg) draw rule)
      | None => Ret direct
      end
  end.

Definition FindAction (cfg : ServerConfig) (draw : Z) (inp : Input) : outcome Action :=
  if bool_decide (inProtocol inp ≠ SOCKS5_PROXY_PROTOCOL) then Ret direct
  else if len (inData inp) <? 4 then Ret direct
  else if negb (nth 0 (inData inp) 0 =? Socks5Version) then Ret direct
  else if (nth 1 (inData inp) 0 =? Socks5ConnectCmd) || (nth 1 (inData inp) 0 =? Socks5UDPAssociateCmd) then
    let! a := rejectPrivateAndLoopbackIPAction cfg inp in
    if bool_decide (action a = REJECT) then Ret a else forwardToProxyAction cfg draw inp
  else Ret direct.

(** ** The policy

    What the configuration means, said of the destination that the request
    names instead of its bytes. *)

(** The address that the local check looks at: an IP as it is, a name only when
    it is one of the well-known names of the local host. *)
Definition checkedIP (a : AddrSpec) : option bytes :=
  if 0 <? len (IP a) then Some (IP a)
  else if bool_decide (FQDN a ∈ wellKnownIPv4LocalDomainNames) then Some (v4InV6Prefix ++ [127; 0; 0; 1])
  else if bool_decide (FQDN a ∈ wellKnownIPv6LocalDomainNames) then Some IPv6loopback
  else None.

Definition permitted (cfg : ServerConfig) (user : option string) (ip : bytes) : bool :=
  (negb (IsPrivate ip) && negb (IsLoopback ip)) ||
  (IsLoopback ip && AllowLoopbackDestination cfg) ||
  match user ≫= λ n, if bool_decide (n = "") then None else configUsers cfg !! n with
  | Some u => (IsPrivate ip && allowPrivateIP u) || (IsLoopback ip && allowLoopbackIP u)
  | None => false
  end.

Definition policy (cfg : ServerConfig) (draw : Z) (user : option string) (a : AddrSpec) : Action :=
  if match checkedIP a with Some ip => negb (permitted cfg user ip) | None => false end then reject
  else
    let dst := if 0 <? len (IP a) then Some (IP a) else None in
    match find (matchEgressRule dst (FQDN a)) (rules (configEgress cfg)) with
    | Some rule => ruleResult (configEgress cfg) draw rule
    | None => direct
    end.

(** ** Lemmas: what a request that was read looks like *)

Lemma ReadFull_inv n r x y : 0 ≤ n → ReadFull n r = Ret (x, y) → r = x ++ y ∧ len x = n.
Proof.
  unfold ReadFull. intros Hn H. case_if_in H; [done|]. bool_to_Z. simplify_eq.
  split; [by rewrite take_drop|]. unfold len in *. rewrite length_take. lia.
Qed.

(** Three shapes of an address on the wire. *)
Inductive wireAddr : AddrSpec → bytes → Prop :=
| wire_v4 ip p : len ip = 4 → len p = 2 →
    wireAddr (mkAddr [] ip (Z.lor (Z.shiftl (nth 0 p 0) 8) (nth 1 p 0))) (Socks5IPv4Address :: ip ++ p)
| wire_v6 ip p : len ip = 16 → len p = 2 →
    wireAddr (mkAddr [] ip (Z.lor (Z.shiftl (nth 0 p 0) 8) (nth 1 p 0))) (Socks5IPv6Address :: ip ++ p)
| wire_fqdn name p : len p = 2 →
    wireAddr (mkAddr name [] (Z.lor (Z.shiftl (nth 0 p 0) 8) (nth 1 p 0)))
      (Socks5FQDNAddress :: len name :: name ++ p).

Ltac inv_read H :=
  match type of H with
  | obind (ReadFull ?n ?r) _ = Ret _ =>
      let x := fresh "x" in let y := fresh "y" in let E := fresh "E" in let H' := fresh "H" in
      apply obind_ret_inv in H as ([x y] & E & H'); rename H' into H
  end.

Lemma len_1 {A} (x : list A) : len x = 1 → ∃ a, x = [a].
Proof. destruct x as [|a [|]]; unfold len; simpl; try lia. by exists a. Qed.

Lemma readAddr_inv r a rest :
  bytes_ok r → readAddr zeroAddr r = Ret (a, rest) → ∃ w, wireAddr a w ∧ r = w ++ rest.
Proof.
  intros Hb H. unfold readAddr in H. inv_read H. apply ReadFull_inv in E as [-> E]; [|lia].
  apply len_1 in E as [t ->]. simpl in Hb. apply Forall_cons_1 in Hb as [Ht Hb]. cbn [nth] in H.
  apply obind_ret_inv in H as ([a1 r1] & H1 & H). inv_read H. apply ReadFull_inv in E as [-> Ep]; [|lia].
  simplify_eq. cbn [FQDN IP].
  destruct (t =? Socks5IPv4Address) eqn:E4.
  { inv_read H1. apply ReadFull_inv in E as [-> El]; [|lia]. simplify_eq. bool_to_Z. subst t.
    eexists. split; [by apply wire_v4|]. simpl. by rewrite <- (assoc_L (++)). }
  destruct (t =? Socks5IPv6Address) eqn:E6.
  { inv_read H1. apply ReadFull_inv in E as [-> El]; [|lia]. simplify_eq. bool_to_Z. subst t.
    eexists. split; [by apply wire_v6|]. simpl. by rewrite <- (assoc_L (++)). }
  destruct (t =? Socks5FQDNAddress) eqn:E3; [|done].
  inv_read H1. apply ReadFull_inv in E as [-> El]; [|lia]. apply len_1 in El as [n ->].
  simpl in Hb. apply Forall_cons_1 in Hb as [Hn Hb]. cbn [nth] in H1.
  inv_read H1. apply ReadFull_inv in E as [-> El]; [|unfold in_u8 in Hn; lia]. simplify_eq. bool_to_Z. subst t.
  eexists. split; [by apply wire_fqdn|]. simpl. by rewrite <- (assoc_L (++)).
Qed.

Lemma take_prefix {A} (p s : list A) : take (length (p ++ s) - length s) (p ++ s) = p.
Proof. rewrite length_app, Nat.add_sub. apply take_app_length. Qed.

Lemma readRequest_raw r q rest :
  bytes_ok r → readRequest (mkRequest 0 zeroAddr []) r = Ret (q, rest) →
  ∃ rsv w, wireAddr (DstAddr q) w ∧ ReqRaw q = [Socks5Version; Command q; rsv] ++ w ∧
    r = ReqRaw q ++ rest.
Proof.
  intros Hb H. unfold readRequest in H. apply obind_ret_inv in H as ([[[c a] raw] r'] & H & E). simplify_eq.
  cbn [DstAddr ReqRaw Command] in *. unfold readMessage in H. inv_read H.
  apply ReadFull_inv in E as [-> El]; [|lia]. case_if_in H; [done|].
  apply obind_ret_inv in H as ([a1 r2] & Ha & H). simplify_eq.
  apply Forall_app in Hb as [_ Hb]. apply readAddr_inv in Ha as (w & Hw & ->); [|done].
  rewrite (assoc_L (++)), take_prefix.
  destruct x as [|v [|c [|rsv [|]]]]; unfold len in El; simpl in El; try lia.
  cbn [nth] in *. apply negb_false_iff, Z.eqb_eq in Heqb. subst v. exists rsv, w.
  by rewrite <- (assoc_L (++)).
Qed.

(** ** The controller implements the policy *)

Lemma wire_type c rsv t w : index_at ([Socks5Version; c; rsv] ++ t :: w) 3 = Ret t.
Proof. by apply index_at_mid. Qed.
Lemma wire_ip c rsv t ip p n : 4 + len ip = n →
  slice_range ([Socks5Version; c; rsv] ++ t :: ip ++ p) 4 n = Ret ip.
Proof. intros <-. by apply (slice_range_mid [Socks5Version; c; rsv; t] ip p). Qed.
Lemma wire_name_len c rsv t n w : index_at ([Socks5Version; c; rsv] ++ t :: n :: w) 4 = Ret n.
Proof. by apply (index_at_mid [Socks5Version; c; rsv; t]). Qed.
Lemma wire_name c rsv t name p :
  slice_range ([Socks5Version; c; rsv] ++ t :: len name :: name ++ p) 5 (5 + len name) = Ret name.
Proof. by apply (slice_range_mid [Socks5Version; c; rsv; t; len name] name p). Qed.

Lemma rejectAction_wire cfg proto c rsv a w user :
  wireAddr a w →
  rejectPrivateAndLoopbackIPAction cfg (mkInput proto ([Socks5Version; c; rsv] ++ w) user) =
    Ret (if match checkedIP a with Some ip => negb (permitted cfg user ip) | None => false end
         then reject else direct).
Proof.
  intros H. unfold rejectPrivateAndLoopbackIPAction. cbn [inData inUser].
  assert (∀ ip,
    (if negb (IsPrivate ip) && negb (IsLoopback ip) then Ret direct
     else if IsLoopback ip && AllowLoopbackDestination cfg then Ret direct
     else match user with
          | None => Ret reject
          | Some userName =>
              if bool_decide (userName = "") then Ret reject
              else match configUsers cfg !! userName with
                   | None => Ret reject
                   | Some user =>
                       if IsPrivate ip && allowPrivateIP user then Ret direct
                       else if IsLoopback ip && allowLoopbackIP user then Ret direct
                       else Ret reject
                   end
          end) = Ret (if negb (permitted cfg user ip) then reject else direct)) as Hp.
  { intros ip. unfold permitted. destruct (IsPrivate ip), (IsLoopback ip), (AllowLoopbackDestination cfg); try done;
      (destruct user as [n|]; [|done]); cbn [mbind option_bind]; (destruct (bool_decide (n = "")); [done|]);
      (destruct (configUsers cfg !! n) as [u|]; [|done]); by destruct (allowPrivateIP u), (allowLoopbackIP u). }
  inversion H as [ip p Hi|ip p Hi|name p Hn]; subst; rewrite wire_type; unfold checkedIP; cbn [obind IP FQDN].
  - rewrite (wire_ip _ _ _ _ _ 8), Hi by lia. cbn. apply Hp.
  - rewrite (wire_ip _ _ _ _ _ 20), Hi by lia. cbn. apply Hp.
  - rewrite wire_name_len. cbn [obind Z.eqb Pos.eqb Socks5IPv4Address Socks5IPv6Address Socks5FQDNAddress].
    rewrite wire_name. cbn [obind]. change (0 <? len (@nil Z)) with false. cbn [obind].
    destruct (bool_decide (name ∈ wellKnownIPv4LocalDomainNames)); cbn [obind]; [apply Hp|].
    destruct (bool_decide (name ∈ wellKnownIPv6LocalDomainNames)); cbn [obind]; [apply Hp|done].
Qed.

Lemma forwardAction_wire cfg draw proto c rsv a w user :
  wireAddr a w →
  forwardToProxyAction cfg draw (mkInput proto ([Socks5Version; c; rsv] ++ w) user) =
    Ret (match find (matchEgressRule (if 0 <? len (IP a) then Some (IP a) else None) (FQDN a))
                 (rules (configEgress cfg)) with
         | Some rule => ruleResult (configEgress cfg) draw rule
         | None => direct
         end).
Proof.
  intros H. unfold forwardToProxyAction. cbn [inData].
  inversion H as [ip p Hi|ip p Hi|name p Hn]; subst; rewrite wire_type; cbn [obind IP FQDN].
  - rewrite (wire_ip _ _ _ _ _ 8), Hi by lia. cbn. by case_match.
  - rewrite (wire_ip _ _ _ _ _ 20), Hi by lia. cbn. by case_match.
  - rewrite wire_name_len. cbn [obind Z.eqb Pos.eqb Socks5IPv4Address Socks5IPv6Address Socks5FQDNAddress].
    rewrite wire_name. cbn [obind]. change (0 <? len (@nil Z)) with false. by case_match.
Qed.

Lemma FindAction_wire cfg draw user c rsv a w :
  wireAddr a w → (c =? Socks5ConnectCmd) || (c =? Socks5UDPAssociateCmd) = true →
  FindAction cfg draw (mkInput SOCKS5_PROXY_PROTOCOL ([Socks5Version; c; rsv] ++ w) user) = Ret (policy cfg draw user a).
Proof.
  intros Hw Hc. unfold FindAction. cbn [inProtocol inData]. rewrite bool_decide_false by auto.
  rewrite (proj2 (Z.ltb_ge _ 4)).
  2:{ inversion Hw; subst; rewrite len_app, len_cons; unfold len; simpl; lia. }
  cbn [app nth]. change (Socks5Version =? Socks5Version) with true. cbn [negb]. rewrite Hc.
  change (Socks5Version :: c :: rsv :: w) with ([Socks5Version; c; rsv] ++ w).
  rewrite (rejectAction_wire _ _ _ _ _ _ _ Hw). cbn [obind]. unfold policy.
  set (bad := match checkedIP a with Some ip => _ | None => _ end). destruct bad; [done|].
  apply (forwardAction_wire _ _ _ _ _ _ _ _ Hw).
Qed.

(** C12: the egress controller implements its policy.  For a request that the
    server has read from the connection, [FindAction] never panics; for CONNECT
    and UDP ASSOCIATE it rejects exactly the private and loopback destinations
    (IP addresses, and the well-known names of the local host) that the user may
    not reach, and otherwise takes the first rule that matches the destination,
    DIRECT when there is none; other commands are left to the command handler. *)
Theorem egress_implements_policy cfg draw user r q rest :
  bytes_ok r → readRequest (mkRequest 0 zeroAddr []) r = Ret (q, rest) →
  FindAction cfg draw (mkInput SOCKS5_PROXY_PROTOCOL (ReqRaw q) user) =
    Ret (if (Command q =? Socks5ConnectCmd) || (Command q =? Socks5UDPAssociateCmd)
         then policy cfg draw user (DstAddr q) else direct).
Proof.
  intros Hb Hr. destruct (readRequest_raw r q rest Hb Hr) as (rsv & w & Hw & -> & _).
  destruct (_ || _) eqn:E; [by apply FindAction_wire|].
  unfold FindAction. cbn [inProtocol inData app nth]. rewrite E. by repeat case_if.
Qed.

Definition demoConfig : ServerConfig :=
  mkServerConfig {[ "alice" := mkRights true false ]}
    (mkEgressConfig [] [mkEgressRule [cidr 8 8 0 0 16] [string_bytes "example.com"] REJECT []]) false.

Lemma egress_implements_policy_witness :
  FindAction demoConfig 0 (mkInput SOCKS5_PROXY_PROTOCOL [5; 1; 0; 1; 192; 168; 0; 1; 1; 187] (Some "bob")) = Ret reject ∧
  FindAction demoConfig 0 (mkInput SOCKS5_PROXY_PROTOCOL [5; 1; 0; 1; 192; 168; 0; 1; 1; 187] (Some "alice")) = Ret direct ∧
  FindAction demoConfig 0 (mkInput SOCKS5_PROXY_PROTOCOL [5; 1; 0; 1; 8; 8; 4; 4; 0; 53] None) = Ret reject.
Proof.
  split; [|split].
  - apply (egress_implements_policy demoConfig 0 (Some "bob") [5; 1; 0; 1; 192; 168; 0; 1; 1; 187]
      (mkRequest 1 (mkAddr [] [192; 168; 0; 1] 443) [5; 1; 0; 1; 192; 168; 0; 1; 1; 187]) []); [bytes_lit|reflexivity].
  - apply (egress_implements_policy demoConfig 0 (Some "alice") [5; 1; 0; 1; 192; 168; 0; 1; 1; 187]
      (mkRequest 1 (mkAddr [] [192; 168; 0; 1] 443) [5; 1; 0; 1; 192; 168; 0; 1; 1; 187]) []); [bytes_lit|reflexivity].
  - apply (egress_implements_policy demoConfig 0 None [5; 1; 0; 1; 8; 8; 4; 4; 0; 53]
      (mkRequest 1 (mkAddr [] [8; 8; 4; 4] 53) [5; 1; 0; 1; 8; 8; 4; 4; 0; 53]) []); [bytes_lit|reflexivity].
Defined.

(** rules for networks mean prefixes.  A rule whose only range is the text
    a.b.c.d/n matches an IPv4 destination (also in its IPv6 form) exactly when
    the first n bits of the two addresses are the same number. *)
Theorem cidr_rule_is_prefix a b c d n act names ip :
  in_u8 a → in_u8 b → in_u8 c → in_u8 d → 0 ≤ n ≤ 32 → bytes_ok ip → len (To4 ip) = 4 →
  matchEgressRule (Some ip) [] (mkEgressRule [cidr a b c d n] [] act names) = true ↔
  be_get (To4 ip) / 2 ^ (32 - n) = be_get [a; b; c; d] / 2 ^ (32 - n).
Proof.
  intros. destruct (Contains_cidr a b c d n ip) as (net & E & C); [done..|].
  unfold matchEgressRule. cbn [ipRanges existsb]. rewrite bool_decide_false, E, orb_false_r; [done|].
  intros Heq. unfold cidr, dotted in Heq.
  assert (48 ≤ nth 0 (Itoa a ++ [46]) 0) as H48; [|].
  { pose proof (len_Itoa_pos a ltac:(by unfold in_u8 in *)). pose proof (Itoa_chars a ltac:(by unfold in_u8 in *)) as F.
    destruct (Itoa a); [done|]. apply Forall_cons_1 in F as [F _]. simpl. lia. }
  destruct (Itoa a) as [|z l]; cbn [app nth] in Heq, H48; [lia|].
  apply (f_equal (λ s, nth 0 s 0)) in Heq. cbn [app nth] in Heq. change (nth 0 (string_bytes "*") 0) with 42 in Heq. lia.
Qed.

Lemma cidr_rule_is_prefix_witness :
  matchEgressRule (Some [10; 1; 255; 7]) [] (mkEgressRule [string_bytes "10.1.128.0/17"] [] REJECT []) = true.
Proof.
  apply (cidr_rule_is_prefix 10 1 128 0 17 REJECT [] [10; 1; 255; 7]);
    first [unfold in_u8; lia | lia | bytes_lit | reflexivity].
Defined.

(** ** A name that is an address *)

Lemma ParseIP_len s : len (ParseIP s) = 0 ∨ len (ParseIP s) = 16.
Proof. unfold ParseIP. destruct (ParseAddr s); [apply To16_len|by left]. Qed.

(** the local check can be escaped.  A client may send an address as text in
    the field for names: then no user is rejected, whatever the address, although
    the same address in binary is rejected for a user who may not reach it.  The
    unspecified address 0.0.0.0, which the dialer takes for the local host, is
    not rejected either. *)
Theorem local_address_as_name_escapes cfg draw user name p1 p2 :
  IsPrivate (ParseIP name) || IsLoopback (ParseIP name) = true →
  rules (configEgress cfg) = [] → permitted cfg user (ParseIP name) = false →
  FindAction cfg draw (mkInput SOCKS5_PROXY_PROTOCOL
    ([Socks5Version; Socks5ConnectCmd; 0] ++ Socks5FQDNAddress :: len name :: name ++ [p1; p2]) user) = Ret direct ∧
  FindAction cfg draw (mkInput SOCKS5_PROXY_PROTOCOL
    ([Socks5Version; Socks5ConnectCmd; 0] ++ Socks5IPv6Address :: ParseIP name ++ [p1; p2]) user) = Ret reject ∧
  FindAction cfg draw (mkInput SOCKS5_PROXY_PROTOCOL
    ([Socks5Version; Socks5ConnectCmd; 0] ++ Socks5IPv4Address :: [0; 0; 0; 0] ++ [p1; p2]) user) = Ret direct.
Proof.
  intros Hl Hr Hp. assert (len (ParseIP name) = 16) as H16.
  { destruct (ParseIP_len name) as [E|E]; [|done]. apply len_0 in E. by rewrite E in Hl. }
  rewrite (FindAction_wire _ _ _ _ _ _ _ (wire_fqdn name [p1; p2] eq_refl)) by done.
  rewrite (FindAction_wire _ _ _ _ _ _ _ (wire_v6 (ParseIP name) [p1; p2] H16 eq_refl)) by done.
  rewrite (FindAction_wire _ _ _ _ _ _ _ (wire_v4 [0; 0; 0; 0] [p1; p2] eq_refl eq_refl)) by done.
  unfold policy, checkedIP. cbn [IP FQDN]. rewrite Hr, H16. cbn [find]. change (0 <? len (@nil Z)) with false.
  change (0 <? 16) with true. cbn iota. rewrite Hp. split; [|done].
  assert (∀ l, forallb (λ s, len (ParseIP s) =? 0) l = true → name ∉ l) as Hn.
  { intros l Hf Hin. rewrite forallb_forall in Hf. apply list_elem_of_In in Hin. specialize (Hf name Hin). bool_to_Z. lia. }
  rewrite !bool_decide_false; [done|apply Hn; reflexivity..].
Qed.

Lemma local_address_as_name_escapes_witness :
  FindAction (mkServerConfig ∅ (mkEgressConfig [] []) false) 0 (mkInput SOCKS5_PROXY_PROTOCOL
    ([Socks5Version; Socks5ConnectCmd; 0] ++ Socks5FQDNAddress :: 9 :: string_bytes "127.0.0.1" ++ [0; 80]) (Some "bob")) = Ret direct.
Proof.
  apply (local_address_as_name_escapes (mkServerConfig ∅ (mkEgressConfig [] []) false) 0 (Some "bob")
    (string_bytes "127.0.0.1") 0 80); reflexivity.
Defined.

End Egress.
Export Egress.
