(* ===== verification/Interact.v ===== *)
(** * Programs that talk over connections

    The handshakes of pkg/socks5 read from and write to one or two connections.
    Such a program is a tree of interactions ([prog]); it is run either alone,
    against whatever bytes the peers will send ([run]), or joined with the
    program at the other end of the connection ([duo]). *)

From S2P Require Import Prelude Socks.

Module Interact.

(** The two connections of a handler: the one it serves and the one it opened to
    a proxy. *)
Inductive side := Conn | ProxyConn.

(** The counters of pkg/socks5/socks5.go that handlers add to. *)
Inductive metric :=
| HandshakeErrors | DNSResolveErrors | UnsupportedCommandErrors | NetworkUnreachableErrors
| HostUnreachableErrors | ConnectionRefusedErrors | UDPAssociateErrors | RejectByRules.

#[global] Instance side_eq_dec : EqDecision side.
Proof. solve_decision. Defined.
#[global] Instance metric_eq_dec : EqDecision metric.
Proof. solve_decision. Defined.

(** [PReadFull] is [io.ReadFull] of [n] bytes, [PRead] one call of [Read] with a
    buffer of [n] bytes, [PWrite] one call of [Write], whose error is the
    argument of the continuation. *)
Inductive prog (A : Type) : Type :=
| PRet (r : outcome A)
| PReadFull (c : side) (n : Z) (k : outcome bytes → prog A)
| PRead (c : side) (n : Z) (k : outcome bytes → prog A)
| PWrite (c : side) (b : bytes) (k : option goerr → prog A)
| PClose (c : side) (k : prog A)
| PCount (m : metric) (k : prog A).
Arguments PRet {A} r.
Arguments PReadFull {A} c n k.
Arguments PRead {A} c n k.
Arguments PWrite {A} c b k.
Arguments PClose {A} c k.
Arguments PCount {A} m k.

Fixpoint pbind {A B} (p : prog A) (f : A → prog B) : prog B :=
  match p with
  | PRet (Ret a) => f a
  | PRet (Err e) => PRet (Err e)
  | PRet (Panic s) => PRet (Panic s)
  | PReadFull c n k => PReadFull c n (λ r, pbind (k r) f)
  | PRead c n k => PRead c n (λ r, pbind (k r) f)
  | PWrite c b k => PWrite c b (λ e, pbind (k e) f)
  | PClose c k => PClose c (pbind k f)
  | PCount m k => PCount m (pbind k f)
  end.

(** Catching the error of a program. *)
Fixpoint catch {A B} (p : prog A) (f : outcome A → prog B) : prog B :=
  match p with
  | PRet r => f r
  | PReadFull c n k => PReadFull c n (λ r, catch (k r) f)
  | PRead c n k => PRead c n (λ r, catch (k r) f)
  | PWrite c b k => PWrite c b (λ e, catch (k e) f)
  | PClose c k => PClose c (catch k f)
  | PCount m k => PCount m (catch k f)
  end.

(** The error branch of a call comes with the call, as in the source. *)
Notation "'read!' x ':=' n 'of' c 'else' e 'in' k" :=
  (PReadFull c n (λ r, match r with Ret x => k | _ => e end))
  (at level 10, x name, n at level 100, c at level 100, e at level 100, k at level 200, only parsing) : go_scope.
Notation "'write!' b 'to' c 'else' e 'in' k" :=
  (PWrite c b (λ r, match r with None => k | Some _ => e end))
  (at level 10, b at level 100, c at level 100, e at level 100, k at level 200, only parsing) : go_scope.
Notation "'prog!' x ':=' m 'in' k" := (pbind m (λ x, k))
  (at level 10, x pattern, m at level 100, k at level 200, only parsing) : go_scope.

Definition fail {A} (msg : string) : prog A := PRet (Err (Errorf msg)).
(** Count a handshake error and fail. *)
Definition failHS {A} (msg : string) : prog A := PCount HandshakeErrors (fail msg).

(** ** Running against peers *)

(** One connection: what the peer will still send before it closes, how it
    arrives ([chunks]: the most bytes that each [Read] returns), what has been
    written, how many writes succeed, and whether it was closed. *)
Record endpoint := mkEnd {
  incoming : bytes;
  chunks : list Z;
  written : bytes;
  writesLeft : nat;
  closed : bool
}.
Record world := mkWorld { wConn : endpoint; wProxy : endpoint; counts : list metric }.

Definition endOf (c : side) (w : world) : endpoint :=
  match c with Conn => wConn w | ProxyConn => wProxy w end.
Definition setEnd (c : side) (e : endpoint) (w : world) : world :=
  match c with
  | Conn => mkWorld e (wProxy w) (counts w)
  | ProxyConn => mkWorld (wConn w) e (counts w)
  end.

Definition endReadFull (n : Z) (e : endpoint) : outcome bytes * endpoint :=
  if closed e then (Err ErrClosedPipe, e)
  else match ReadFull n (incoming e) with
       | Ret (b, r) => (Ret b, mkEnd r (chunks e) (written e) (writesLeft e) false)
       | Err err => (Err err, mkEnd [] (chunks e) (written e) (writesLeft e) false)
       | Panic s => (Panic s, e)
       end.
Definition endRead (n : Z) (e : endpoint) : outcome bytes * endpoint :=
  if closed e then (Err ErrClosedPipe, e)
  else if len (incoming e) =? 0 then (Err ErrEOF, e)
  else
    let m := match chunks e with c :: _ => Z.min n (Z.max 1 c) | [] => n end in
    (Ret (take (Z.to_nat m) (incoming e)),
     mkEnd (drop (Z.to_nat m) (incoming e)) (tail (chunks e)) (written e) (writesLeft e) false).
Definition endWrite (b : bytes) (e : endpoint) : option goerr * endpoint :=
  if closed e then (Some ErrClosedPipe, e)
  else match writesLeft e with
       | O => (Some ErrClosedPipe, e)
       | S k => (None, mkEnd (incoming e) (chunks e) (written e ++ b) k false)
       end.
Definition endClose (e : endpoint) : endpoint :=
  mkEnd (incoming e) (chunks e) (written e) (writesLeft e) true.

Fixpoint run {A} (p : prog A) (w : world) : outcome A * world :=
  match p with
  | PRet r => (r, w)
  | PReadFull c n k => let '(r, e) := endReadFull n (endOf c w) in run (k r) (setEnd c e w)
  | PRead c n k => let '(r, e) := endRead n (endOf c w) in run (k r) (setEnd c e w)
  | PWrite c b k => let '(r, e) := endWrite b (endOf c w) in run (k r) (setEnd c e w)
  | PClose c k => run k (setEnd c (endClose (endOf c w)) w)
  | PCount m k => run k (mkWorld (wConn w) (wProxy w) (m :: counts w))
  end.

(** A connection on which the peer sends [b] and every write succeeds. *)
Definition peerSends (b : bytes) (writes : nat) : endpoint := mkEnd b [] [] writes false.

Lemma run_bind {A B} (p : prog A) (f : A → prog B) w :
  run (pbind p f) w =
    match run p w with
    | (Ret a, w) => run (f a) w
    | (Err e, w) => (Err e, w)
    | (Panic s, w) => (Panic s, w)
    end.
Proof.
  revert w. induction p as [[| |]|c n k IH|c n k IH|c b k IH|c k IH|m k IH]; intros w; simpl; try done;
    [destruct (endReadFull _ _)|destruct (endRead _ _)|destruct (endWrite _ _)|..]; apply IH.
Qed.

(** ** Running both ends of a connection

    [p] is at one end, on its side [cp], [q] at the other, on its side [cq];
    [toP] and [toQ] are the bytes in flight.  Each end runs until it waits for
    bytes.  [None]: both wait, or the fuel is used up, or one of them uses another
    connection. *)
Fixpoint duo {A B} (fuel : nat) (cp cq : side) (p : prog A) (q : prog B) (toP toQ : bytes)
  : option (outcome A * outcome B * bytes * bytes) :=
  match fuel with
  | O => None
  | S fuel =>
      let tryQ :=
        match q with
        | PRet s => match p with PRet r => Some (r, s, toP, toQ) | _ => None end
        | PReadFull c n k =>
            if bool_decide (c = cq) then
              if len toQ <? n then None
              else duo fuel cp cq p (k (Ret (take (Z.to_nat n) toQ))) toP (drop (Z.to_nat n) toQ)
            else None
        | PRead c n k =>
            if bool_decide (c = cq) then
              if len toQ =? 0 then None
              else duo fuel cp cq p (k (Ret (take (Z.to_nat n) toQ))) toP (drop (Z.to_nat n) toQ)
            else None
        | PWrite c b k => if bool_decide (c = cq) then duo fuel cp cq p (k None) (toP ++ b) toQ else None
        | PClose _ _ => None
        | PCount m k => duo fuel cp cq p k toP toQ
        end in
      match p with
      | PRet _ => tryQ
      | PReadFull c n k =>
          if bool_decide (c = cp) then
            if len toP <? n then tryQ
            else duo fuel cp cq (k (Ret (take (Z.to_nat n) toP))) q (drop (Z.to_nat n) toP) toQ
          else None
      | PRead c n k =>
          if bool_decide (c = cp) then
            if len toP =? 0 then tryQ
            else duo fuel cp cq (k (Ret (take (Z.to_nat n) toP))) q (drop (Z.to_nat n) toP) toQ
          else None
      | PWrite c b k => if bool_decide (c = cp) then duo fuel cp cq (k None) q toP (toQ ++ b) else None
      | PClose _ _ => None
      | PCount m k => duo fuel cp cq k q toP toQ
      end
  end.

(** An end that can only wait for bytes or has finished. *)
Definition waits {A} (c : side) (p : prog A) (inp : bytes) : bool :=
  match p with
  | PRet _ => true
  | PReadFull c' n _ => bool_decide (c' = c) && (len inp <? n)
  | PRead c' _ _ => bool_decide (c' = c) && (len inp =? 0)
  | _ => false
  end.

Section Steps.
Context {A B : Type} (cp cq : side) (fuel : nat).
Implicit Types (p : prog A) (q : prog B) (toP toQ : bytes).

Lemma duo_write_p b k q toP toQ :
  duo (S fuel) cp cq (@PWrite A cp b k) q toP toQ = duo fuel cp cq (k None) q toP (toQ ++ b).
Proof. simpl. by rewrite bool_decide_true. Qed.

Lemma duo_readfull_p a n k q r toQ :
  len a = n → duo (S fuel) cp cq (@PReadFull A cp n k) q (a ++ r) toQ = duo fuel cp cq (k (Ret a)) q r toQ.
Proof.
  intros <-. simpl. rewrite bool_decide_true by done. rewrite len_app. pose proof (len_nonneg r).
  rewrite (proj2 (Z.ltb_ge _ _)) by lia. unfold len. by rewrite Nat2Z.id, take_app_length, drop_app_length.
Qed.

Lemma duo_read_p a n k q toQ :
  0 < len a ≤ n → duo (S fuel) cp cq (@PRead A cp n k) q a toQ = duo fuel cp cq (k (Ret a)) q [] toQ.
Proof.
  intros H. simpl. rewrite bool_decide_true by done. rewrite (proj2 (Z.eqb_neq _ 0)) by lia.
  rewrite take_ge, drop_ge by (unfold len in H; lia). done.
Qed.

Lemma duo_readfull_q p a n k toP r :
  waits cp p toP = true → len a = n →
  duo (S fuel) cp cq p (@PReadFull B cq n k) toP (a ++ r) = duo fuel cp cq p (k (Ret a)) toP r.
Proof.
  intros Hw <-. assert ((if bool_decide (cq = cq) then
      if len (a ++ r) <? len a then None
      else duo fuel cp cq p (k (Ret (take (Z.to_nat (len a)) (a ++ r)))) toP (drop (Z.to_nat (len a)) (a ++ r))
    else None) = duo fuel cp cq p (k (Ret a)) toP r) as E.
  { rewrite bool_decide_true by done. rewrite len_app. pose proof (len_nonneg r).
    rewrite (proj2 (Z.ltb_ge _ _)) by lia. unfold len. by rewrite Nat2Z.id, take_app_length, drop_app_length. }
  destruct p; simpl in Hw |- *; try done; apply andb_true_iff in Hw as [-> ->]; exact E.
Qed.

Lemma duo_write_q p b k toP toQ :
  waits cp p toP = true →
  duo (S fuel) cp cq p (@PWrite B cq b k) toP toQ = duo fuel cp cq p (k None) (toP ++ b) toQ.
Proof.
  intros Hw. destruct p; simpl in Hw |- *; try done; rewrite (bool_decide_true (cq = cq)) by done; try done;
    apply andb_true_iff in Hw as [-> ->]; done.
Qed.

Lemma duo_count_q p m k toP toQ :
  waits cp p toP = true → duo (S fuel) cp cq p (@PCount B m k) toP toQ = duo fuel cp cq p k toP toQ.
Proof. intros Hw. destruct p; simpl in Hw |- *; try done; apply andb_true_iff in Hw as [-> ->]; done. Qed.

End Steps.

(** ** Programs that only read

    [consumes c p inp a]: fed with [inp] on connection [c], [p] reads all of it
    and nothing more, and returns [a]. *)
Inductive consumes {A} (c : side) : prog A → bytes → A → Prop :=
| consumes_ret a : consumes c (PRet (Ret a)) [] a
| consumes_read n b k inp a :
    len b = n → consumes c (k (Ret b)) inp a → consumes c (PReadFull c n k) (b ++ inp) a.

Definition withIncoming (r : bytes) (e : endpoint) : endpoint :=
  mkEnd r (chunks e) (written e) (writesLeft e) (closed e).

Lemma setEnd_setEnd c e e' w : setEnd c e (setEnd c e' w) = setEnd c e w.
Proof. by destruct c. Qed.
Lemma endOf_setEnd c e w : endOf c (setEnd c e w) = e.
Proof. by destruct c. Qed.
Lemma setEnd_same c e w : e = endOf c w → setEnd c e w = w.
Proof. intros ->. by destruct c, w. Qed.

Lemma consumes_run {A} c (p : prog A) inp a rest w :
  consumes c p inp a → closed (endOf c w) = false → incoming (endOf c w) = inp ++ rest →
  run p w = (Ret a, setEnd c (withIncoming rest (endOf c w)) w).
Proof.
  intros H. revert w. induction H as [a|n b k inp a Hn H IH]; intros w Hc Hi.
  - simpl. f_equal. symmetry. apply setEnd_same. simpl in Hi. rewrite <- Hi. by destruct (endOf c w).
  - simpl. unfold endReadFull. rewrite Hc, Hi, <- (assoc_L (++)), (ReadFull_app b) by done. rewrite IH.
    + by rewrite setEnd_setEnd, endOf_setEnd, <- Hc.
    + by rewrite endOf_setEnd.
    + by rewrite endOf_setEnd.
Qed.

Lemma consumes_bind {A B} c (p : prog A) (f : A → prog B) inp1 inp2 a b :
  consumes c p inp1 a → consumes c (f a) inp2 b → consumes c (pbind p f) (inp1 ++ inp2) b.
Proof.
  intros H1 H2. induction H1 as [a|n x k inp a Hn H IH]; [done|].
  rewrite <- (assoc_L (++)). simpl. apply consumes_read; auto.
Qed.

Lemma consumes_duo_q {A B C} cp cq (p : prog A) (q : prog B) (f : outcome B → prog C) inp b toP r :
  consumes cq q inp b → waits cp p toP = true →
  ∃ n, ∀ fuel, duo (n + fuel) cp cq p (catch q f) toP (inp ++ r) = duo fuel cp cq p (f (Ret b)) toP r.
Proof.
  intros H Hw. induction H as [b|n x k inp b Hn H [m IH]].
  - by exists O.
  - exists (S m). intros fuel. rewrite <- (assoc_L (++)). simpl catch.
    change (S m + fuel)%nat with (S (m + fuel)). rewrite (duo_readfull_q _ _ _ _ x) by done. apply IH.
Qed.

Lemma consumes_duo_p {A B C} cp cq (p : prog A) (f : outcome A → prog C) (q : prog B) inp a r toQ :
  consumes cp p inp a →
  ∃ n, ∀ fuel, duo (n + fuel) cp cq (catch p f) q (inp ++ r) toQ = duo fuel cp cq (f (Ret a)) q r toQ.
Proof.
  intros H. induction H as [b|n x k inp b Hn H [m IH]].
  - by exists O.
  - exists (S m). intros fuel. rewrite <- (assoc_L (++)). simpl catch.
    change (S m + fuel)%nat with (S (m + fuel)). rewrite (duo_readfull_p _ _ _ x) by done. apply IH.
Qed.

(** [io.ReadFull] through an [io.TeeReader] that appends to [raw]; an error is
    returned as it is. *)
Definition tee {A} (c : side) (n : Z) (raw : bytes) (k : bytes → bytes → prog A) : prog A :=
  PReadFull c n (λ r, match r with
    | Ret b => k b (raw ++ b)
    | Err e => PRet (Err e)
    | Panic s => PRet (Panic s)
    end).

Lemma consumes_tee {A} c n raw (k : bytes → bytes → prog A) b inp a :
  len b = n → consumes c (k b (raw ++ b)) inp a → consumes c (tee c n raw k) (b ++ inp) a.
Proof. intros. by apply consumes_read. Qed.

End Interact.
Export Interact.
