(* ===== verification/SocksAuth.v ===== *)
(** * pkg/socks5/auth.go and client.go: socks5 authentication and dialing

    [handleAuthentication] is the server side of the method negotiation and of
    user and password authentication (RFC 1928, RFC 1929); the two clients of it
    in the repository are [dialWithAuthentication], which the server uses towards
    an egress proxy, and [dialSocks5Long] of the socks5 client.  A read that runs
    into the handshake timeout is a read after the last byte that the peer sends. *)

From S2P Require Import Prelude Socks Net Egress Interact.

Module SocksAuth.

Definition Socks5NoAuth : Z := 0.
Definition Socks5UserPassAuth : Z := 2.
Definition Socks5NoAcceptableAuth : Z := 255.
Definition Socks5UserPassAuthVersion : Z := 1.
Definition Socks5AuthSuccess : Z := 0.
Definition Socks5AuthFailure : Z := 1.

#[global] Instance Credential_eq_dec : EqDecision Credential.
Proof. solve_decision. Defined.

(** User and password authentication of [handleAuthentication]. *)
Definition userPassAuth (creds : list Credential) : prog unit :=
  read! header := 1 of Conn else fail "get user password authentication version failed: %w" in
  if negb (nth 0 header 0 =? Socks5UserPassAuthVersion)
  then fail "user password authentication version %d is not supported by socks5 server"
  else
    read! header := 1 of Conn else fail "get user length failed: %w" in
    read! user := nth 0 header 0 of Conn else fail "read user failed: %w" in
    read! header := 1 of Conn else fail "get password length failed: %w" in
    read! password := nth 0 header 0 of Conn else fail "read password failed: %w" in
    if existsb (λ c, bool_decide (credUser c = user) && bool_decide (credPassword c = password)) creds then
      write! [Socks5UserPassAuthVersion; Socks5AuthSuccess] to Conn
        else failHS "write user password authentication success response failed: %w" in
      PRet (Ret tt)
    else
      PCount HandshakeErrors (
      write! [Socks5UserPassAuthVersion; Socks5AuthFailure] to Conn
        else fail "write user password authentication failure response failed: %w" in
      fail "user password authentication failed: invalid user or password").

(** [creds] is [config.AuthOpts.IngressCredentials]. *)
Definition handleAuthentication (creds : list Credential) : prog unit :=
  read! version := 1 of Conn else failHS "get socks version failed: %w" in
  if negb (nth 0 version 0 =? Socks5Version) then failHS "unsupported socks version: %v"
  else
    read! nAuthMethods := 1 of Conn else failHS "get number of authentication method failed: %w" in
    if nth 0 nAuthMethods 0 =? 0 then failHS "number of authentication method is 0"
    else
      read! authMethods := nth 0 nAuthMethods 0 of Conn else failHS "get authentication method failed: %w" in
      let requestNoAuth := existsb (Z.eqb Socks5NoAuth) authMethods in
      let requestUserPassAuth := existsb (Z.eqb Socks5UserPassAuth) authMethods in
      if negb requestNoAuth && negb requestUserPassAuth then
        PCount HandshakeErrors (
        write! [Socks5Version; Socks5NoAcceptableAuth] to Conn
          else fail "write authentication response (no acceptable methods) failed: %w" in
        fail "socks5 client provided authentication is not supported by socks5 server")
      else if requestNoAuth then
        if negb requestUserPassAuth && (0 <? len creds)
        then failHS "socks5 client requested no authentication, but user and password are required by socks5 server"
        else
          write! [Socks5Version; Socks5NoAuth] to Conn
            else failHS "write authentication response (no authentication required) failed: %w" in
          PRet (Ret tt)
      else if requestUserPassAuth then
        if len creds =? 0 then failHS "there is no registered socks5 server user"
        else
          write! [Socks5Version; Socks5UserPassAuth] to Conn
            else failHS "write user password authentication request failed: %w" in
          userPassAuth creds
      else PRet (Ret tt).

(** ** The client of an egress proxy *)

Definition failProxy {A} (msg : string) : prog A := PCount HandshakeErrors (PClose ProxyConn (fail msg)).

Definition dialWithAuthentication (auth : option Credential) : prog unit :=
  match auth with
  | Some (mkCredential ((_ :: _) as user) ((_ :: _) as password)) =>
      write! [Socks5Version; 1; Socks5UserPassAuth] to ProxyConn
        else failProxy "failed to write socks5 authentication header to egress proxy: %w" in
      read! resp := 2 of ProxyConn
        else failProxy "failed to read socks5 authentication response from egress proxy: %w" in
      if negb (nth 0 resp 0 =? Socks5Version) || negb (nth 1 resp 0 =? Socks5UserPassAuth)
      then failProxy "got unexpected socks5 authentication response from egress proxy: %v"
      else
        write! [Socks5UserPassAuthVersion] ++ [u8 (len user)] ++ user ++ [u8 (len password)] ++ password to ProxyConn
          else failProxy "failed to write socks5 authentication credential to egress proxy: %w" in
        read! resp := 2 of ProxyConn
          else failProxy "failed to read socks5 authentication response from egress proxy: %w" in
        if negb (nth 0 resp 0 =? Socks5UserPassAuthVersion)
        then failProxy "got unexpected socks5 user password authentication version from egress proxy: %v"
        else if negb (nth 1 resp 0 =? Socks5AuthSuccess)
        then failProxy "socks5 authentication with user password failed from egress proxy"
        else PRet (Ret tt)
  | _ =>
      write! [Socks5Version; 1; Socks5NoAuth] to ProxyConn
        else failProxy "failed to write socks5 authentication header to egress proxy: %w" in
      read! resp := 2 of ProxyConn
        else failProxy "failed to read socks5 authentication response from egress proxy: %w" in
      if negb (nth 0 resp 0 =? Socks5Version) || negb (nth 1 resp 0 =? Socks5NoAuth)
      then failProxy "got unexpected socks5 authentication response from egress proxy: %v"
      else PRet (Ret tt)
  end.

(** ** The socks5 client *)

(** [common.RoundTrip]: one write and one read. *)
Definition RoundTrip (req : bytes) (maxRespSize : Z) : prog bytes :=
  PWrite Conn req (λ e, match e with
    | Some err => PRet (Err err)
    | None => PRead Conn maxRespSize (λ r, PRet r)
    end).

(** [strconv.ParseUint] of a decimal 16-bit number. *)
Definition ParseUint16 (s : bytes) : outcome Z :=
  if (len s =? 0) || negb (forallb is_digit s) then Err (Errorf "strconv.ParseUint: parsing %q: invalid syntax")
  else if 65535 <? digits_value 0 s then Err (Errorf "strconv.ParseUint: parsing %q: value out of range")
  else Ret (digits_value 0 s).

(** The first request and, with a credential, the second one. *)
Definition clientAuth (cred : option Credential) : prog unit :=
  let method := match cred with Some _ => Socks5UserPassAuth | None => Socks5NoAuth end in
  prog! resp := RoundTrip [Socks5Version; 1; method] 4 in
  if negb (len resp =? 2) then fail "server does not respond properly"
  else if negb (nth 0 resp 0 =? Socks5Version) then fail "server does not support socks5"
  else if negb (nth 1 resp 0 =? method) then fail "socks method negotiation failed"
  else
    match cred with
    | None => PRet (Ret tt)
    | Some c =>
        prog! resp := RoundTrip ([Socks5UserPassAuthVersion] ++ [u8 (len (credUser c))] ++ credUser c ++
          [u8 (len (credPassword c))] ++ credPassword c) 4 in
        if negb (len resp =? 2) then fail "server does not respond properly"
        else if negb (nth 0 resp 0 =? Socks5UserPassAuthVersion) then fail "server does not support user/password version 1"
        else if negb (nth 1 resp 0 =? Socks5AuthSuccess) then fail "user/password login failed"
        else PRet (Ret tt)
    end.

(** The connection request for a host and a port. *)
Definition connectRequest (cmd : Z) (host : bytes) (port : Z) : bytes :=
  let hostIP := ParseIP host in
  [Socks5Version; cmd; 0] ++
  (if len hostIP =? 0 then [Socks5FQDNAddress; u8 (len host)] ++ host
   else if 0 <? len (To4 hostIP) then [Socks5IPv4Address] ++ To4 hostIP
   else [Socks5IPv6Address] ++ hostIP) ++
  [u8 (Z.shiftr port 8); u8 port].

(** The address to relay UDP packets to, in a response to UDP ASSOCIATE. *)
Definition relayAddr (resp : bytes) : outcome (bytes * Z) :=
  if nth 3 resp 0 =? Socks5IPv4Address then
    let! ip := slice_range resp 4 8 in
    Ret (ip, u16 (u16 (Z.shiftl (nth 8 resp 0) 8) + nth 9 resp 0))
  else if nth 3 resp 0 =? Socks5IPv6Address then
    if len resp <? 22 then Err (Errorf "server response is too short")
    else
      let! ip := slice_range resp 4 20 in
      Ret (ip, u16 (u16 (Z.shiftl (nth 20 resp 0) 8) + nth 21 resp 0))
  else Err (Errorf "unsupported bind address").

(** [dialSocks5Long] on a connection to the proxy; the result is the relay
    address of UDP ASSOCIATE.  The error of the last round trip is returned by a
    bare [return], and only then is the connection still in the variable that the
    deferred function closes.  [listenOK]: the outcome of [net.ListenUDP]. *)
Definition dialSocks5Long (cred : option Credential) (cmd : Z) (targetAddr : bytes) (listenOK : bool)
  : prog (option (bytes * Z)) :=
  prog! _ := clientAuth cred in
  prog! (host, portStr) := PRet (SplitHostPort targetAddr) in
  prog! port := PRet (ParseUint16 portStr) in
  PWrite Conn (connectRequest cmd host port) (λ e, match e with
    | Some err => PClose Conn (PRet (Err err))
    | None => PRead Conn 512 (λ r, match r with
        | Ret resp =>
            if len resp <? 10 then fail "server response is too short"
            else if negb (nth 1 resp 0 =? 0) then fail "socks5 connection is not successful"
            else if cmd =? Socks5UDPAssociateCmd then
              prog! a := PRet (relayAddr resp) in
              if listenOK then PRet (Ret (Some a)) else fail "listen"
            else PRet (Ret None)
        | Err err => PClose Conn (PRet (Err err))
        | Panic s => PRet (Panic s)
        end)
    end).

(** ** Who is let in *)

(** A program that never succeeds. *)
Definition fails {A} (p : prog A) : Prop := ∀ w a w', run p w ≠ (Ret a, w').

Lemma fails_fail {A} msg : fails (@fail A msg).
Proof. by intros w a w' [=]. Qed.
Lemma fails_failHS {A} msg : fails (@failHS A msg).
Proof. by intros w a w' [=]. Qed.
Lemma fails_count {A} m (p : prog A) : fails p → fails (PCount m p).
Proof. intros H w a w' E. by apply (H _ _ _ E). Qed.
Lemma fails_write {A} c b (p : prog A) e : fails p → fails e → fails (write! b to c else e in p).
Proof.
  intros Hp He w a w' E. simpl in E. destruct (endWrite b (endOf c w)) as [[err|] x]; [by apply (He _ _ _ E)|by apply (Hp _ _ _ E)].
Qed.
#[local] Hint Resolve fails_fail fails_failHS fails_count fails_write : core.

(** A read that leads to success has consumed its bytes from the peer. *)
Lemma run_read_inv {A} n (k : bytes → prog A) e w a w' :
  bytes_ok (incoming (wConn w)) → 0 ≤ n → fails e →
  run (read! x := n of Conn else e in k x) w = (Ret a, w') →
  ∃ b r w1, incoming (wConn w) = b ++ r ∧ len b = n ∧ incoming (wConn w1) = r ∧ bytes_ok b ∧ bytes_ok r ∧
    run (k b) w1 = (Ret a, w').
Proof.
  intros Hb Hn He E. simpl in E. unfold endReadFull in E.
  destruct (closed (wConn w)); [by apply He in E|].
  destruct (ReadFull n (incoming (wConn w))) as [[b r]| |] eqn:ER; [|by apply He in E..].
  apply ReadFull_inv in ER as [EI EL]; [|done]. rewrite EI in Hb. apply Forall_app in Hb as [Hb Hr].
  exists b, r. eexists. split; [done|]. split; [done|]. split; [|split; [done|split; [done|exact E]]]. done.
Qed.

Lemma run_write_inv {A} b (k : prog A) e w a w' :
  fails e → run (write! b to Conn else e in k) w = (Ret a, w') →
  ∃ w1, incoming (wConn w1) = incoming (wConn w) ∧ run k w1 = (Ret a, w').
Proof.
  intros He E. simpl in E. unfold endWrite in E. destruct (closed (wConn w)); [by apply He in E|].
  destruct (writesLeft (wConn w)); [by apply He in E|]. eexists. split; [|exact E]. done.
Qed.

Ltac read_one H :=
  apply run_read_inv in H as (?b & ?r & ?w & ?EI & ?EL & ?ER & ?HB & ?HR & H);
    [|first [assumption|congruence]|first [lia|assumption]|auto];
  try match goal with EL : len ?b = 1 |- _ => let x := fresh "x" in apply len_1 in EL as [x ->] end.

Lemma userPassAuth_inv creds w w' :
  bytes_ok (incoming (wConn w)) → run (userPassAuth creds) w = (Ret tt, w') →
  ∃ c rest, c ∈ creds ∧ incoming (wConn w) = [Socks5UserPassAuthVersion; len (credUser c)] ++ credUser c ++
    [len (credPassword c)] ++ credPassword c ++ rest.
Proof.
  intros Hb H. unfold userPassAuth in H. read_one H. cbn [nth] in H. case_if_in H; [done|].
  rewrite <- ER in HR. read_one H. cbn [nth] in H. apply Forall_cons_1 in HB0 as [Hx0 _].
  rewrite <- ER0 in HR0. apply run_read_inv in H as (user & r1 & w2 & EI1 & EL1 & ER1 & HB1 & HR1 & H); [|done|apply Hx0|auto].
  rewrite <- ER1 in HR1. read_one H. cbn [nth] in H. apply Forall_cons_1 in HB0 as [Hx1 _]. rewrite <- ER2 in HR2.
  apply run_read_inv in H as (pw & r3 & w9 & EI3 & EL3 & ER3 & HB3 & HR3 & H); [|done|apply Hx1|auto].
  case_if_in H; [|exfalso; revert H; apply fails_count, fails_write; auto]. apply existsb_exists in Heqb0 as (c & Hc & E).
  apply andb_true_iff in E as [Eu Ep]. apply bool_decide_eq_true in Eu, Ep. apply list_elem_of_In in Hc.
  exists c, r3. split; [done|]. apply negb_false_iff, Z.eqb_eq in Heqb. subst x. rewrite Eu, Ep, EI.
  rewrite <- ER, EI0, <- ER0, EI1, <- ER1, EI2, <- ER2, EI3, <- EL1, <- EL3. done.
Qed.

(** C17: a socks5 server with credentials lets in a client only if the client
    either sends a user and a password of a registered credential, or offers
    both the "no authentication" and the "user and password" method.  Whatever
    the client sends, nothing else succeeds. *)
Theorem auth_admits_only creds w w' :
  creds ≠ [] → bytes_ok (incoming (wConn w)) → run (handleAuthentication creds) w = (Ret tt, w') →
  ∃ methods rest, incoming (wConn w) = [Socks5Version; len methods] ++ methods ++ rest ∧
    Socks5UserPassAuth ∈ methods ∧
    (Socks5NoAuth ∈ methods ∨
     ∃ c rest', c ∈ creds ∧ rest = [Socks5UserPassAuthVersion; len (credUser c)] ++ credUser c ++
       [len (credPassword c)] ++ credPassword c ++ rest').
Proof.
  intros Hc Hb H. unfold handleAuthentication in H. read_one H. cbn [nth] in H. case_if_in H; [by apply fails_failHS in H|].
  apply negb_false_iff, Z.eqb_eq in Heqb. subst x. rewrite <- ER in HR. read_one H. cbn [nth] in H.
  apply Forall_cons_1 in HB0 as [Hx _]. case_if_in H; [by apply fails_failHS in H|]. rewrite <- ER0 in HR0.
  apply run_read_inv in H as (methods & r1 & w2 & EI1 & EL1 & ER1 & HB1 & HR1 & H); [|done|apply Hx|auto].
  exists methods, r1. split; [by rewrite EI, <- ER, EI0, <- ER0, EI1, <- EL1|].
  assert (∀ m, existsb (Z.eqb m) methods = true ↔ m ∈ methods) as Hm by (intros m; apply contains_spec).
  destruct (existsb (Z.eqb Socks5NoAuth) methods) eqn:E0, (existsb (Z.eqb Socks5UserPassAuth) methods) eqn:E2; cbn [negb andb] in H.
  - split; [by apply Hm|]. left. by apply Hm.
  - destruct creds; [done|]. rewrite (proj2 (Z.ltb_lt _ _)) in H by (rewrite len_cons; pose proof (len_nonneg creds); lia).
    by apply fails_failHS in H.
  - split; [by apply Hm|]. right. case_if_in H; [by apply fails_failHS in H|].
    apply run_write_inv in H as (w3 & E3 & H); [|auto]. rewrite <- ER1, <- E3. apply (userPassAuth_inv _ _ w'); [|done].
    by rewrite E3, ER1.
  - exfalso. revert H. apply fails_count, fails_write; auto.
Qed.

Definition alice : Credential := mkCredential (string_bytes "alice") (string_bytes "secret").

Lemma auth_admits_only_witness :
  ∃ methods rest, [5; 1; 2] ++ [1; 5] ++ string_bytes "alice" ++ [6] ++ string_bytes "secret" =
    [Socks5Version; len methods] ++ methods ++ rest ∧ Socks5UserPassAuth ∈ methods.
Proof.
  set (inp := [5; 1; 2] ++ [1; 5] ++ string_bytes "alice" ++ [6] ++ string_bytes "secret").
  destruct (auth_admits_only [alice] (mkWorld (peerSends inp 9) (peerSends [] 0) [])
    (mkWorld (mkEnd [] [] [5; 2; 1; 0] 7 false) (peerSends [] 0) [])) as (m & r & E & Hm & _).
  - done.
  - vm_compute. repeat (apply List.Forall_cons; [split; [discriminate|reflexivity]|]). apply List.Forall_nil.
  - vm_compute. reflexivity.
  - exists m, r. split; [exact E|exact Hm].
Defined.

(** credentials can be bypassed.  Whatever credentials the server requires, a
    client that offers both methods is told that no authentication is needed,
    and is let in without sending a user or a password. *)
Theorem auth_bypass creds rest n :
  run (handleAuthentication creds) (mkWorld (peerSends ([5; 2; Socks5NoAuth; Socks5UserPassAuth] ++ rest) (S n)) (peerSends [] 0) [])
  = (Ret tt, mkWorld (mkEnd rest [] [Socks5Version; Socks5NoAuth] n false) (peerSends [] 0) []).
Proof.
  unfold handleAuthentication. cbn [run endOf wConn]. unfold endReadFull. cbn [closed peerSends incoming app].
  rewrite ReadFull_1. cbn [nth]. simpl run. unfold endReadFull. cbn [closed incoming].
  rewrite ReadFull_1. simpl run. unfold endReadFull. cbn [closed incoming].
  rewrite ReadFull_2. done.
Qed.

(** ** Client and server together *)

(** The server's side of user and password authentication, once a client that
    waits for the answer has sent [c]. *)
Lemma duo_userPass {A} fuel cp (p : prog A) creds c :
  len (credUser c) ≤ 255 → len (credPassword c) ≤ 255 → waits cp p [] = true →
  duo (7 + fuel) cp Conn p (userPassAuth creds) []
    ([Socks5UserPassAuthVersion] ++ [u8 (len (credUser c))] ++ credUser c ++ [u8 (len (credPassword c))] ++ credPassword c)
  = if bool_decide (c ∈ creds)
    then duo (S fuel) cp Conn p (PRet (Ret tt)) [Socks5UserPassAuthVersion; Socks5AuthSuccess] []
    else duo fuel cp Conn p (fail "user password authentication failed: invalid user or password")
           [Socks5UserPassAuthVersion; Socks5AuthFailure] [].
Proof.
  intros Hu Hp Hw. destruct c as [user pw]. cbn [credUser credPassword] in *.
  pose proof (len_nonneg user). pose proof (len_nonneg pw).
  rewrite !u8_small by (unfold in_u8; lia). unfold userPassAuth. change (7 + fuel)%nat with (S (6 + fuel)).
  rewrite (duo_readfull_q _ _ _ _ [_]) by done. cbn [nth]. change (Socks5UserPassAuthVersion =? _) with true.
  cbn [negb]. change (6 + fuel)%nat with (S (5 + fuel)). rewrite (duo_readfull_q _ _ _ _ [_]) by done. cbn [nth].
  change (5 + fuel)%nat with (S (4 + fuel)). rewrite (duo_readfull_q _ _ _ _ user) by done.
  change (4 + fuel)%nat with (S (3 + fuel)). rewrite (duo_readfull_q _ _ _ _ [_]) by done. cbn [nth].
  change (3 + fuel)%nat with (S (2 + fuel)). rewrite <- (app_nil_r pw) at 2.
  rewrite (duo_readfull_q _ _ _ _ pw) by done.
  assert (existsb (λ c, bool_decide (credUser c = user) && bool_decide (credPassword c = pw)) creds =
    bool_decide (mkCredential user pw ∈ creds)) as ->.
  { apply eq_true_iff_eq. rewrite existsb_exists, bool_decide_eq_true. split.
    - intros ([u q] & Hin & E). apply andb_true_iff in E as [E1 E2]. apply bool_decide_eq_true in E1, E2.
      simpl in *. subst. by apply list_elem_of_In.
    - intros Hin. exists (mkCredential user pw). split; [by apply list_elem_of_In|].
      by rewrite !bool_decide_true. }
  case_bool_decide; change (2 + fuel)%nat with (S (1 + fuel)).
  - by rewrite duo_write_q.
  - rewrite duo_count_q by done. change (1 + fuel)%nat with (S fuel). by rewrite duo_write_q.
Qed.

(** The negotiation when the client offers one method. *)
Lemma duo_negotiate {A} fuel cp (p : prog A) creds m :
  waits cp p [] = true → (m = Socks5NoAuth ∧ creds = [] ∨ m = Socks5UserPassAuth ∧ creds ≠ []) →
  duo (4 + fuel) cp Conn p (handleAuthentication creds) [] [Socks5Version; 1; m] =
  duo fuel cp Conn p (if m =? Socks5UserPassAuth then userPassAuth creds else PRet (Ret tt)) [Socks5Version; m] [].
Proof.
  intros Hw Hm. unfold handleAuthentication. change (4 + fuel)%nat with (S (3 + fuel)).
  rewrite (duo_readfull_q _ _ _ _ [Socks5Version] 1 _ _ [1; m]) by done. cbn [nth]. simpl negb. cbn iota.
  change (3 + fuel)%nat with (S (2 + fuel)).
  rewrite (duo_readfull_q _ _ _ _ [1] 1 _ _ [m]) by done. cbn [nth]. simpl Z.eqb. cbn iota.
  change (2 + fuel)%nat with (S (1 + fuel)). rewrite (duo_readfull_q _ _ _ _ [m] 1 _ _ []) by done.
  destruct Hm as [[-> ->]|[-> Hc]]; cbn [existsb Z.eqb Pos.eqb orb negb andb Socks5NoAuth Socks5UserPassAuth].
  - change (0 <? len (@nil Credential)) with false. cbn iota. change (1 + fuel)%nat with (S fuel).
    by rewrite duo_write_q.
  - destruct creds as [|c creds]; [done|]. rewrite (proj2 (Z.eqb_neq _ 0)).
    2:{ rewrite len_cons. pose proof (len_nonneg creds). lia. }
    change (1 + fuel)%nat with (S fuel). by rewrite duo_write_q.
Qed.

(** client and server agree on authentication.  Run against each other, the
    socks5 client and the socks5 server both finish, without bytes left over:
    they both succeed when the credential of the client is registered and both
    fail when it is not; without credentials on both sides they succeed; and the
    egress client of the server succeeds with a registered credential. *)
Theorem auth_handshake_agrees creds c :
  creds ≠ [] → 0 < len (credUser c) ≤ 255 → 0 < len (credPassword c) ≤ 255 →
  (∃ rc rs, duo 20 Conn Conn (clientAuth (Some c)) (handleAuthentication creds) [] [] = Some (rc, rs, [], []) ∧
     (if bool_decide (c ∈ creds) then rc = Ret tt ∧ rs = Ret tt else is_ret rc = false ∧ is_ret rs = false)) ∧
  duo 20 Conn Conn (clientAuth None) (handleAuthentication []) [] [] = Some (Ret tt, Ret tt, [], []) ∧
  (c ∈ creds → duo 20 ProxyConn Conn (dialWithAuthentication (Some c)) (handleAuthentication creds) [] []
     = Some (Ret tt, Ret tt, [], [])).
Proof.
  intros Hc Hu Hp. split; [|split; [reflexivity|]].
  - unfold clientAuth, RoundTrip. cbn [pbind]. rewrite duo_write_p. cbn [pbind app].
    change 19%nat with (4 + 15)%nat. rewrite duo_negotiate by auto. simpl (Socks5UserPassAuth =? _). cbn iota.
    rewrite (duo_read_p Conn Conn 14) by (unfold len; simpl; lia). cbn [pbind nth].
    change (negb (len [Socks5Version; Socks5UserPassAuth] =? 2)) with false. cbn iota.
    simpl negb. cbn iota. rewrite duo_write_p. cbn [app pbind].
    change 13%nat with (7 + 6)%nat. change ([] ++ ?x) with x.
    rewrite (duo_userPass 6 Conn _ creds c) by (done || lia).
    case_bool_decide.
    + rewrite (duo_read_p Conn Conn 6) by (unfold len; simpl; lia). cbn [pbind nth]. simpl. eauto.
    + rewrite (duo_read_p Conn Conn 5) by (unfold len; simpl; lia). cbn [pbind nth]. simpl. eauto.
  - intros Hin. destruct c as [user pw]. cbn [credUser credPassword] in Hu, Hp.
    destruct user as [|u0 u]; [unfold len in Hu; simpl in Hu; lia|].
    destruct pw as [|p0 p]; [unfold len in Hp; simpl in Hp; lia|].
    unfold dialWithAuthentication. rewrite duo_write_p. cbn [app]. change 19%nat with (4 + 15)%nat.
    rewrite duo_negotiate by auto. simpl (Socks5UserPassAuth =? _). cbn iota.
    rewrite (duo_readfull_p ProxyConn Conn 14 [Socks5Version; Socks5UserPassAuth] 2 _ _ []) by done. cbn [nth].
    simpl (negb _ || negb _). cbn iota. rewrite duo_write_p. change ([] ++ ?x) with x. change 13%nat with (7 + 6)%nat.
    rewrite (duo_userPass 6 ProxyConn _ creds (mkCredential (u0 :: u) (p0 :: p))) by (done || (cbn [credUser credPassword]; lia)).
    rewrite bool_decide_true by done.
    rewrite (duo_readfull_p ProxyConn Conn 6 [Socks5UserPassAuthVersion; Socks5AuthSuccess] 2 _ _ []) by done. done.
Qed.

Lemma auth_handshake_agrees_witness :
  duo 20 ProxyConn Conn (dialWithAuthentication (Some alice)) (handleAuthentication [alice]) [] []
     = Some (Ret tt, Ret tt, [], []).
Proof.
  apply (auth_handshake_agrees [alice] alice); [done|vm_compute; split; [reflexivity|discriminate]..|]. apply list_elem_of_here.
Defined.

(** ** A connection that is not closed *)

Lemma endRead_closed n e : closed (endRead n e).2 = closed e.
Proof. unfold endRead. destruct (closed e) eqn:E; [done|]. by case_if. Qed.
Lemma endWrite_closed b e : closed (endWrite b e).2 = closed e.
Proof. unfold endWrite. destruct (closed e) eqn:E; [done|]. by case_match. Qed.

Lemma RoundTrip_closed req n w : closed (wConn (run (RoundTrip req n) w).2) = closed (wConn w).
Proof.
  simpl. destruct (endWrite req (wConn w)) as [[e|] e1] eqn:E; simpl.
  - by rewrite <- (endWrite_closed req (wConn w)), E.
  - destruct (endRead n e1) as [r e2] eqn:E2. simpl.
    transitivity (closed e1); [by rewrite <- (endRead_closed n e1), E2|].
    by rewrite <- (endWrite_closed req (wConn w)), E.
Qed.

Lemma clientAuth_closed cred w : closed (wConn (run (clientAuth cred) w).2) = closed (wConn w).
Proof.
  unfold clientAuth. set (method := match cred with Some _ => _ | None => _ end). rewrite run_bind.
  pose proof (RoundTrip_closed [Socks5Version; 1; method] 4 w) as E.
  destruct (run (RoundTrip [Socks5Version; 1; method] 4) w) as [[resp|e|s] w1]; [|exact E..]. cbn [snd] in E.
  repeat (case_if; [exact E|]). destruct cred as [c|]; [|exact E]. rewrite run_bind.
  match goal with |- context [run (RoundTrip ?q 4) w1] => pose proof (RoundTrip_closed q 4 w1) as E1;
    destruct (run (RoundTrip q 4) w1) as [[resp1|e|s] w2] end; cbn [snd] in E1; rewrite <- E; [|exact E1..].
  repeat (case_if; [exact E1|]). exact E1.
Qed.

(** a failed dial leaves its connection open.  The deferred function of
    [dialSocks5Long] is meant to close the connection on any error, but the
    [return nil, ...] statements have already replaced it with nil: when the
    authentication fails, for whatever reason, the connection stays open. *)
Theorem dial_failure_leaves_connection_open cred cmd addr ok w e w1 :
  closed (wConn w) = false → run (clientAuth cred) w = (Err e, w1) →
  run (dialSocks5Long cred cmd addr ok) w = (Err e, w1) ∧ closed (wConn w1) = false.
Proof.
  intros Hc H. unfold dialSocks5Long. rewrite run_bind, H. split; [done|].
  by rewrite <- Hc, <- (clientAuth_closed cred w), H.
Qed.

Lemma dial_failure_leaves_connection_open_witness :
  let w := mkWorld (peerSends [5; 255] 9) (peerSends [] 0) [] in
  ∃ e w1, run (dialSocks5Long None 1 (string_bytes "example.com:80") true) w = (Err e, w1) ∧ closed (wConn w1) = false.
Proof.
  intros w. eexists _, _.
  eapply (dial_failure_leaves_connection_open None 1 (string_bytes "example.com:80") true w);
    [reflexivity|vm_compute; reflexivity].
Defined.

End SocksAuth.
Export SocksAuth.
