(* ===== verification/SocksServer.v ===== *)
(** * pkg/socks5/request.go and socks5.go: serving a socks5 connection

    The handlers of the server side ([serverServeConn]) and of the client side
    ([clientServeConn]), up to the point where they start to copy data between
    connections; that point is their result.  The network is an argument: name
    resolution, dialing, listening ([netEnv]). *)

From S2P Require Import Prelude Socks Net Egress Interact SocksAuth.

Module SocksServer.

Definition Socks5ReplySuccess : Z := 0.
Definition Socks5ReplyNotAllowedByRuleSet : Z := 2.
Definition Socks5ReplyNetworkUnreachable : Z := 3.
Definition Socks5ReplyHostUnreachable : Z := 4.
Definition Socks5ReplyConnectionRefused : Z := 5.
Definition Socks5ReplyCommandNotSupported : Z := 7.
Definition Socks5ReplyAddrTypeNotSupported : Z := 8.

(** pkg/common/ipdualstack.go *)
Inductive DualStackPreference := USE_FIRST_IP | PREFER_IPv4 | PREFER_IPv6 | ONLY_IPv4 | ONLY_IPv6.

Definition isV4 (ip : bytes) : bool := 0 <? len (To4 ip).

(** nil is the empty slice. *)
Definition SelectIPFromList (ips : list bytes) (strategy : DualStackPreference) : bytes :=
  let ipv4 := default [] (find isV4 ips) in
  let ipv6 := default [] (find (λ ip, negb (isV4 ip)) ips) in
  match ips with
  | [] => []
  | first :: _ =>
      match strategy with
      | PREFER_IPv4 => if 0 <? len ipv4 then ipv4 else ipv6
      | PREFER_IPv6 => if 0 <? len ipv6 then ipv6 else ipv4
      | ONLY_IPv4 => ipv4
      | ONLY_IPv6 => ipv6
      | USE_FIRST_IP => first
      end
  end.

(** The network around the server: [lookupIP] is the resolver, [dialTCP] dials a
    destination and returns the local address of the new connection or the text
    of the error, [dialProxy] dials an egress proxy and returns its IP address,
    [listenUDP] returns the local port. *)
Record netEnv := mkNet {
  lookupIP : bytes → outcome (list bytes);
  dialTCP : AddrSpec → AddrSpec + bytes;
  dialProxy : bytes → Z → outcome bytes;
  listenUDP : outcome Z;
  connLocalIP : bytes
}.

Inductive UDPAssociateMode := UDPAssociateModePacketOverStream | UDPAssociateModeDatagram.

(** What the handler does with the connections in the end. *)
Inductive served :=
| CopyToTarget (dst : AddrSpec)
| CopyToProxy
| AssociateOverStream (port : Z)
| AssociateDatagram (port : Z)
| ForwardUDP (downstreamIP : bytes) (downstreamPort : Z)
| NotServed.

Section Server.
Context (net : netEnv) (pref : DualStackPreference) (mode : UDPAssociateMode).

(** [resp.WriteToSocks5(conn)]: an error of the address or of the write. *)
Definition sendReply (code : Z) (bind : AddrSpec) (onErr k : prog served) : prog served :=
  match writeResponse (mkResponse code bind []) with
  | Ret (_, b) => write! b to Conn else onErr in k
  | _ => onErr
  end.

Definition anyAddr : AddrSpec := mkAddr [] IPv4zero 0.

(** [strings.Contains]. *)
Fixpoint isPrefixOf (p s : bytes) : bool :=
  match p, s with
  | [], _ => true
  | x :: p, y :: s => (x =? y) && isPrefixOf p s
  | _ :: _, [] => false
  end.
Fixpoint containsText (p s : bytes) : bool :=
  isPrefixOf p s || match s with [] => false | _ :: s => containsText p s end.

Definition handleConnect (req : Request) : prog served :=
  match dialTCP net (DstAddr req) with
  | inr msg =>
      let '(replyCode, m) :=
        if containsText (string_bytes "refused") msg then (Socks5ReplyConnectionRefused, ConnectionRefusedErrors)
        else if containsText (string_bytes "network is unreachable") msg
        then (Socks5ReplyNetworkUnreachable, NetworkUnreachableErrors)
        else (Socks5ReplyHostUnreachable, HostUnreachableErrors) in
      PCount m (sendReply replyCode anyAddr (fail "failed to send reply: %w") (fail "connect to %v failed: %w"))
  | inl local =>
      sendReply Socks5ReplySuccess local (failHS "failed to send reply: %w") (PRet (Ret (CopyToTarget (DstAddr req))))
  end.

Definition handleBind : prog served :=
  PCount UnsupportedCommandErrors
    (sendReply Socks5ReplyCommandNotSupported anyAddr (failHS "failed to send reply: %w") (PRet (Ret NotServed))).

Definition handleAssociatePacketOverStream : prog served :=
  match listenUDP net with
  | Ret port =>
      sendReply Socks5ReplySuccess (mkAddr [] [0; 0; 0; 0] port) (failHS "failed to send reply: %w")
        (PRet (Ret (AssociateOverStream port)))
  | _ => PCount UDPAssociateErrors (fail "failed to listen UDP: %w")
  end.

(** The listener is bound to all addresses, so its own IP is unspecified. *)
Definition socks5UDPAssociateBindIP : bytes :=
  if (0 <? len (connLocalIP net)) && negb (IsUnspecified (connLocalIP net)) then connLocalIP net else IPv4zero.

Definition handleAssociateDatagram : prog served :=
  match listenUDP net with
  | Ret port =>
      sendReply Socks5ReplySuccess (mkAddr [] socks5UDPAssociateBindIP port) (failHS "failed to send reply: %w")
        (PRet (Ret (AssociateDatagram port)))
  | _ => PCount UDPAssociateErrors (fail "failed to listen UDP: %w")
  end.

Definition handleAssociate : prog served :=
  match mode with
  | UDPAssociateModeDatagram => handleAssociateDatagram
  | UDPAssociateModePacketOverStream => handleAssociatePacketOverStream
  end.

Definition dispatch (req : Request) : prog served :=
  if Command req =? Socks5ConnectCmd then handleConnect req
  else if Command req =? Socks5BindCmd then handleBind
  else if Command req =? Socks5UDPAssociateCmd then handleAssociate
  else
    PCount UnsupportedCommandErrors
      (sendReply Socks5ReplyCommandNotSupported anyAddr (fail "failed to send reply: %w") (fail "unsupported command: %v")).

Definition handleRequest (req : Request) : prog served :=
  let dst := DstAddr req in
  if 0 <? len (FQDN dst) then
    match lookupIP net (FQDN dst) with
    | Ret ((_ :: _) as ips) =>
        let ip := SelectIPFromList ips pref in
        if len ip =? 0 then
          PCount DNSResolveErrors
            (sendReply Socks5ReplyNetworkUnreachable anyAddr (fail "failed to send reply: %w")
               (fail "resolved domain name %s to IP addresses %v, but no IP address satisfy DNS dual stack preference"))
        else dispatch (mkRequest (Command req) (mkAddr (FQDN dst) ip (Port dst)) (ReqRaw req))
    | _ =>
        PCount DNSResolveErrors
          (sendReply Socks5ReplyHostUnreachable anyAddr (fail "failed to send reply: %w")
             (fail "failed to resolve destination %q: %w"))
    end
  else dispatch req.

(** ** Forwarding to an egress proxy *)

(** The rest of a message after its 4-byte header: [make([]byte, fqdnLen[0]+2)]
    is a sum of bytes.  The result is the whole message and the address part. *)
Definition readTail (c : side) (header : bytes) (failWith : string → prog (bytes * bytes)) : prog (bytes * bytes) :=
  let t := nth 3 header 0 in
  if t =? Socks5IPv4Address then
    read! addr := 6 of c else failWith "failed to read bind address: %w" in PRet (Ret (header ++ addr, addr))
  else if t =? Socks5FQDNAddress then
    read! fqdnLen := 1 of c else failWith "failed to read FQDN length: %w" in
    read! addr := u8 (nth 0 fqdnLen 0 + 2) of c else failWith "failed to read bind address: %w" in
    PRet (Ret (header ++ fqdnLen ++ addr, addr))
  else if t =? Socks5IPv6Address then
    read! addr := 18 of c else failWith "failed to read bind address: %w" in PRet (Ret (header ++ addr, addr))
  else failWith "unsupported address type: %d".

(** The bind address of the proxy; [proxyIP] is the address of the connection. *)
Definition downstreamAddr (proxyIP header bindAddr : bytes) : outcome (bytes * Z) :=
  let t := nth 3 header 0 in
  let portAt i :=
    let! h := index_at bindAddr i in let! l := index_at bindAddr (i + 1) in Ret (Z.lor (Z.shiftl h 8) l) in
  let! (ip, port) :=
    (if t =? Socks5IPv4Address then
       let! ip := slice_range bindAddr 0 4 in let! port := portAt 4 in Ret (ip, port)
     else if t =? Socks5IPv6Address then
       let! ip := slice_range bindAddr 0 16 in let! port := portAt 16 in Ret (ip, port)
     else
       let! n := index_at header 4 in let! port := portAt n in Ret (proxyIP, port)) in
  Ret (if IsUnspecified ip then proxyIP else ip, port).

(** [b[len(b)-2:]] is replaced with the port. *)
Definition rewritePort (b : bytes) (port : Z) : outcome bytes :=
  if len b <? 2 then Panic "index out of range"
  else Ret (take (length b - 2) b ++ [u8 (Z.shiftr port 8); u8 port]).

Definition handleForwardingUDP (proxyIP : bytes) (req : Request) : prog served :=
  write! ReqRaw req to ProxyConn else failProxy "failed to write socks5 request to egress proxy: %w" in
  read! respHeader := 4 of ProxyConn else failProxy "failed to read socks5 response from egress proxy: %w" in
  prog! (resp, bindAddr) := readTail ProxyConn respHeader failProxy in
  if negb (nth 1 resp 0 =? Socks5ReplySuccess) then
    PCount HandshakeErrors (PClose ProxyConn (PWrite Conn resp (λ _, fail "egress proxy returned error: %d")))
  else
    prog! (ip, port) := PRet (downstreamAddr proxyIP resp bindAddr) in
    match listenUDP net with
    | Ret udpPort =>
        prog! resp := PRet (rewritePort resp udpPort) in
        write! resp to Conn
          else PCount UDPAssociateErrors (PClose ProxyConn (fail "failed to send socks5 response to client: %w")) in
        PRet (Ret (ForwardUDP ip port))
    | _ => PCount UDPAssociateErrors (PClose ProxyConn (fail "failed to listen UDP: %w"))
    end.

Definition handleForwarding (req : Request) (proxy : EgressProxy) : prog served :=
  match dialProxy net (proxyHost proxy) (proxyPort proxy) with
  | Ret proxyIP =>
      prog! _ := dialWithAuthentication (socks5Authentication proxy) in
      if Command req =? Socks5ConnectCmd then
        write! ReqRaw req to ProxyConn else failProxy "failed to write socks5 request to egress proxy: %w" in
        PRet (Ret CopyToProxy)
      else if Command req =? Socks5UDPAssociateCmd then handleForwardingUDP proxyIP req
      else fail "unsupported command: %v"
  | _ => failHS "dial to egress proxy failed: %w"
  end.

(** ** The connection of a server *)

(** [ReadFromSocks5] of an address, a request and a response from a connection;
    [raw] is what the message has had so far. *)
Definition readAddrP (c : side) (a : AddrSpec) (raw : bytes) : prog (AddrSpec * bytes) :=
  tee c 1 raw (λ addrType raw,
    let t := nth 0 addrType 0 in
    let portPart a raw :=
      tee c 2 raw (λ port raw,
        PRet (Ret (mkAddr (FQDN a) (IP a) (Z.lor (Z.shiftl (nth 0 port 0) 8) (nth 1 port 0)), raw))) in
    if t =? Socks5IPv4Address then tee c 4 raw (λ addr, portPart (mkAddr (FQDN a) addr (Port a)))
    else if t =? Socks5IPv6Address then tee c 16 raw (λ addr, portPart (mkAddr (FQDN a) addr (Port a)))
    else if t =? Socks5FQDNAddress then
      tee c 1 raw (λ addrLen raw,
        tee c (nth 0 addrLen 0) raw (λ fqdn, portPart (mkAddr fqdn (IP a) (Port a))))
    else PRet (Err ErrUnrecognizedAddrType)).

Definition readMessageP (c : side) : prog (Z * AddrSpec * bytes) :=
  tee c 3 [] (λ header raw,
    if negb (nth 0 header 0 =? Socks5Version) then fail "invalid version: %d"
    else prog! (a, raw) := readAddrP c zeroAddr raw in PRet (Ret (nth 1 header 0, a, raw))).

(** [cfg] is the egress configuration, [clientSide] is
    [AuthOpts.ClientSideAuthentication], [user] the name of the user of the
    connection ("" when it is unknown). *)
Definition serverServeConn (cfg : ServerConfig) (clientSide : bool) (creds : list Credential)
  (user : string) (draw : Z) : prog served :=
  prog! _ := (if clientSide then PRet (Ret tt) else handleAuthentication creds) in
  catch (readMessageP Conn) (λ r, match r with
  | Panic s => PRet (Panic s)
  | Err e =>
      PCount HandshakeErrors
        (if bool_decide (e = ErrUnrecognizedAddrType) then
           sendReply Socks5ReplyAddrTypeNotSupported anyAddr
             (fail "failed to send reply for addrTypeNotSupported error: %w") (fail "failed to read destination address: %w")
         else fail "failed to read destination address: %w")
  | Ret (cmd, dst, raw) =>
      let request := mkRequest cmd dst raw in
      let env := if bool_decide (user = "") then None else Some user in
      prog! act := PRet (FindAction cfg draw (mkInput SOCKS5_PROXY_PROTOCOL raw env)) in
      match action act with
      | DIRECT => handleRequest request
      | PROXY =>
          match actionProxy act with
          | None => fail "egress action is PROXY but proxy info is unavailable"
          | Some proxy => handleForwarding request proxy
          end
      | REJECT =>
          PCount RejectByRules
            (sendReply Socks5ReplyNotAllowedByRuleSet anyAddr
               (fail "failed to send reply for notAllowedByRuleSet error: %w") (fail "connection is rejected by egress rules"))
      end
  end).

End Server.

(** Reading a whole message: its header and all of it. *)
Definition readRaw {A} (c : side) (e : prog A) (f : string → prog (bytes * bytes)) (k : bytes → bytes → prog A) : prog A :=
  read! header := 4 of c else e in prog! (m, _) := readTail c header f in k header m.

(** ** The client side *)

Section Client.
Context (handshakeNoWait : bool) (remoteAddr : outcome AddrSpec) (listenPort : outcome Z).

Definition proxySocks5AuthReq : prog unit :=
  read! version := 1 of Conn else fail "failed to get version byte: %w" in
  if negb (nth 0 version 0 =? Socks5Version) then fail "unsupported SOCKS version: %v"
  else
    read! nMethods := 1 of Conn else fail "failed to get the length of authentication methods: %w" in
    read! methods := nth 0 nMethods 0 of Conn else fail "failed to get authentication methods: %w" in
    write! version ++ nMethods ++ methods to ProxyConn else fail "failed to write authentication request to the server: %w" in
    read! authResp := 2 of ProxyConn else fail "failed to read authentication response from the socks5 server: %w" in
    write! authResp to Conn else fail "failed to write authentication response to the socks5 client: %w" in
    PRet (Ret tt).

(** The result: the local port of a UDP association, and the request that is
    still to be sent. *)
Definition proxySocks5ConnReq : prog (option Z * bytes) :=
  readRaw Conn (fail "failed to get socks5 connection request: %w") fail (λ header connReq,
    let cmd := nth 1 header 0 in
    if handshakeNoWait && (cmd =? Socks5ConnectCmd) then
      prog! bound := PRet remoteAddr in
      prog! b := PRet (writeAddr bound) in
      write! [Socks5Version; Socks5ReplySuccess; 0] ++ b to Conn
        else fail "failed to write fake connection response to the socks5 client: %w" in
      PRet (Ret (None, connReq))
    else
      write! connReq to ProxyConn else fail "failed to write connection request to the server: %w" in
      readRaw ProxyConn (fail "failed to read connection response from the server: %w") fail (λ _ connResp,
        if cmd =? Socks5UDPAssociateCmd then
          prog! udpPort := PRet listenPort in
          prog! connResp := PRet (rewritePort connResp udpPort) in
          write! connResp to Conn else fail "failed to write connection response to the socks5 client: %w" in
          PRet (Ret (Some udpPort, []))
        else
          write! connResp to Conn else fail "failed to write connection response to the socks5 client: %w" in
          PRet (Ret (None, [])))).

(** What the client side does with the two connections in the end. *)
Inductive clientServed := BidiCopySocks5 (pendingReq : bytes) | BidiCopy | BidiCopyUDP (port : Z).

Definition clientServeConn (clientSide : bool) (creds : list Credential) (proxyDialOK : bool) : prog clientServed :=
  prog! _ := (if clientSide then handleAuthentication creds else PRet (Ret tt)) in
  if negb proxyDialOK then fail "proxy dialer DialContext() failed: %w"
  else
    let closeProxy {A} (r : outcome A) : prog A :=
      match r with Ret a => PRet (Ret a) | r => PCount HandshakeErrors (PClose ProxyConn (PRet r)) end in
    prog! _ := (if clientSide then PRet (Ret tt) else catch proxySocks5AuthReq closeProxy) in
    prog! (udp, pending) := catch proxySocks5ConnReq closeProxy in
    match udp with
    | None => PRet (Ret (if handshakeNoWait then BidiCopySocks5 pending else BidiCopy))
    | Some port => PRet (Ret (BidiCopyUDP port))
    end.

End Client.

(** apis/internal/handshake.go: the request of the client API on a connection of
    the mux.  [isTCP] and [isUDP] say what the network of the destination is. *)
Definition PostDialHandshake (isTCP isUDP : bool) (dst : AddrSpec) : prog (Z * AddrSpec * bytes) :=
  let send cmd :=
    match writeRequest (mkRequest cmd dst []) with
    | Ret (_, b) =>
        write! b to Conn else fail "failed to write socks5 connection request to the server: %w" in
        catch (readMessageP Conn) (λ r, match r with
        | Ret (reply, a, raw) =>
            if negb (reply =? 0) then fail "server returned socks5 error code %d" else PRet (Ret (reply, a, raw))
        | _ => fail "failed to read socks5 connection response from the server: %w"
        end)
    | _ => fail "failed to write socks5 connection request to the server: %w"
    end in
  if isTCP then send Socks5ConnectCmd
  else if isUDP then send Socks5UDPAssociateCmd
  else fail "unsupported network type %s".

(** ** Lemmas *)

Lemma consumes_readMessage c cm rsv a w :
  wireAddr a w →
  consumes c (readMessageP c) ([Socks5Version; cm; rsv] ++ w) (cm, a, [Socks5Version; cm; rsv] ++ w).
Proof.
  intros Hw. unfold readMessageP. apply consumes_tee; [done|]. cbn [nth app].
  change (Socks5Version =? Socks5Version) with true. cbn [negb].
  rewrite <- (app_nil_r w) at 1.
  assert (∀ raw, consumes c (readAddrP c zeroAddr raw) w (a, raw ++ w)) as H;
    [|eapply consumes_bind; [apply H|simpl; constructor]].
  intros raw. unfold readAddrP. cbn [FQDN IP Port zeroAddr].
  inversion Hw as [ip p Hi Hp|ip p Hi Hp|name p Hp]; subst.
  - change (Socks5IPv4Address :: ip ++ p) with ([Socks5IPv4Address] ++ ip ++ p).
    apply consumes_tee; [done|]. cbn [nth]. simpl Z.eqb. cbn iota. apply consumes_tee; [done|].
    rewrite <- (app_nil_r p) at 1. apply consumes_tee; [done|]. rewrite !(assoc_L (++)). constructor.
  - change (Socks5IPv6Address :: ip ++ p) with ([Socks5IPv6Address] ++ ip ++ p).
    apply consumes_tee; [done|]. cbn [nth]. simpl Z.eqb. cbn iota. apply consumes_tee; [done|].
    rewrite <- (app_nil_r p) at 1. apply consumes_tee; [done|]. rewrite !(assoc_L (++)). constructor.
  - change (Socks5FQDNAddress :: len name :: name ++ p) with ([Socks5FQDNAddress] ++ [len name] ++ name ++ p).
    apply consumes_tee; [done|]. cbn [nth]. simpl Z.eqb. cbn iota. apply consumes_tee; [done|]. cbn [nth].
    apply consumes_tee; [done|].
    rewrite <- (app_nil_r p) at 1. apply consumes_tee; [done|]. rewrite !(assoc_L (++)). constructor.
Qed.

(** What [WriteToSocks5] writes is an address on the wire. *)
Lemma writeAddr_wire a : addr_ok a → ∃ w, writeAddr a = Ret w ∧ wireAddr (normalized a) w.
Proof.
  intros [Hp Hip]. unfold writeAddr, normalized. destruct (u16_bytes (Port a) Hp) as [Eport _].
  rewrite (u16_small (Port a) Hp). set (p := [_; _]). 
  assert (∀ x y, Z.lor (Z.shiftl (nth 0 p x) 8) (nth 1 p y) = Port a) as Ep by done.
  assert (len p = 2) as Lp by done.
  destruct (To4_len (IP a)) as [H4|H4]; rewrite H4; simpl.
  - destruct (To16_len (IP a)) as [H16|H16]; rewrite H16; simpl.
    + assert (1 ≤ len (FQDN a) ≤ 255) as Hf.
      { unfold To4 in H4. unfold To16 in H16. destruct Hip as [E|[E|[_ E]]]; [| |done].
        - rewrite E in H4. simpl in H4. lia.
        - rewrite E in H16. simpl in H16. lia. }
      rewrite (proj2 (Z.ltb_lt _ _)) by lia. eexists. split; [done|].
      rewrite u8_small by (unfold in_u8; lia). rewrite <- (Ep 0 0). by apply wire_fqdn.
    + eexists. split; [done|]. rewrite <- (Ep 0 0). by apply wire_v6.
  - eexists. split; [done|]. rewrite <- (Ep 0 0). by apply wire_v4.
Qed.

(** ** A client and a server *)

(** A handler that sends one reply and stops with [rs]. *)
Inductive answers (code : Z) (bind : AddrSpec) (rs : outcome served) : prog served → Prop :=
| answers_reply onErr : answers code bind rs (sendReply code bind onErr (PRet rs))
| answers_count m p : answers code bind rs p → answers code bind rs (PCount m p).

(** The client while it waits for the response; [msg] is its error otherwise. *)
Definition awaitResponse (msg : string) : prog (Z * AddrSpec * bytes) :=
  catch (readMessageP Conn) (λ r, match r with
  | Ret (reply, a, raw) =>
      if negb (reply =? 0) then fail "server returned socks5 error code %d" else PRet (Ret (reply, a, raw))
  | _ => fail msg
  end).

(** [early]: bytes that the server has not read yet. *)
Lemma client_gets_reply msg early code bind rs p :
  answers code bind rs p → addr_ok bind →
  ∃ n raw rc, (∀ fuel, duo (n + fuel) Conn Conn (awaitResponse msg) p [] early = Some (rc, rs, [], early)) ∧
    (if code =? 0 then rc = Ret (0, normalized bind, raw) else is_ret rc = false).
Proof.
  intros H Hb. destruct (writeAddr_wire bind Hb) as (w & Ew & Hw). set (raw := [Socks5Version; code; 0] ++ w).
  induction H as [onErr|m p H (n & r1 & rc & IH & E)].
  - destruct (consumes_duo_p Conn Conn (readMessageP Conn) (λ r, match r with
      | Ret (reply, a, raw) =>
          if negb (reply =? 0) then fail "server returned socks5 error code %d" else PRet (Ret (reply, a, raw))
      | _ => fail msg
      end) (PRet rs) raw (code, normalized bind, raw) [] early) as [n Hn].
    { by apply consumes_readMessage. }
    exists (S (n + 1))%nat, raw.
    exists (if negb (code =? 0) then Err (Errorf "server returned socks5 error code %d")
            else Ret (code, normalized bind, raw)). split.
    + intros fuel. unfold sendReply, writeResponse. cbn [BindAddr Reply]. rewrite Ew. cbn [obind].
      change (S (n + 1) + fuel)%nat with (S (n + 1 + fuel)). rewrite duo_write_q by done. fold raw.
      cbn [app]. rewrite <- (app_nil_r raw), <- Nat.add_assoc. unfold awaitResponse. rewrite Hn.
      rewrite (app_nil_r raw). destruct (negb (code =? 0)); done.
    + destruct (code =? 0) eqn:E0; simpl; [|done]. bool_to_Z. by rewrite E0.
  - exists (S n), r1, rc. split; [|done]. intros fuel. change (S n + fuel)%nat with (S (n + fuel)).
    by rewrite duo_count_q.
Qed.

(** How the server finds the address to dial. *)
Definition resolves (net : netEnv) (pref : DualStackPreference) (a d : AddrSpec) : Prop :=
  if 0 <? len (FQDN a) then
    ∃ ips, lookupIP net (FQDN a) = Ret ips ∧ 0 < len (SelectIPFromList ips pref) ∧
      d = mkAddr (FQDN a) (SelectIPFromList ips pref) (Port a)
  else d = a.

Lemma anyAddr_ok : addr_ok anyAddr.
Proof. split; [done|]. right. by left. Qed.

Lemma connect_answers net mode a raw :
  (∀ d l, dialTCP net d = inl l → addr_ok l) →
  ∃ code bind rs, answers code bind rs (dispatch net mode (mkRequest Socks5ConnectCmd a raw)) ∧ addr_ok bind ∧
    match dialTCP net a with
    | inl l => code = 0 ∧ bind = l ∧ rs = Ret (CopyToTarget a)
    | inr _ => code ≠ 0 ∧ is_ret rs = false
    end.
Proof.
  intros Hl. unfold dispatch. cbn [Command]. change (Socks5ConnectCmd =? Socks5ConnectCmd) with true. cbn iota.
  unfold handleConnect. cbn [DstAddr]. destruct (dialTCP net a) as [l|msg] eqn:E.
  - eexists _, _, _. split; [apply answers_reply|]. split; [by eapply Hl|done].
  - repeat case_if; (eexists _, _, _; split; [apply answers_count, answers_reply|split; [apply anyAddr_ok|done]]).
Qed.

Lemma handleRequest_answers net pref mode a raw :
  (∀ d l, dialTCP net d = inl l → addr_ok l) →
  ∃ code bind rs, answers code bind rs (handleRequest net pref mode (mkRequest Socks5ConnectCmd a raw)) ∧ addr_ok bind ∧
    ((∃ d, resolves net pref a d ∧ code = 0 ∧ dialTCP net d = inl bind ∧ rs = Ret (CopyToTarget d)) ∨
     (code ≠ 0 ∧ is_ret rs = false ∧ ∀ d, resolves net pref a d → ∃ msg, dialTCP net d = inr msg)).
Proof.
  intros Hl. unfold handleRequest. cbn [DstAddr Command ReqRaw].
  assert (∀ d, resolves net pref a d → (∀ d', resolves net pref a d' → d' = d) →
    ∃ code bind rs, answers code bind rs (dispatch net mode (mkRequest Socks5ConnectCmd d raw)) ∧ addr_ok bind ∧
    ((∃ d, resolves net pref a d ∧ code = 0 ∧ dialTCP net d = inl bind ∧ rs = Ret (CopyToTarget d)) ∨
     (code ≠ 0 ∧ is_ret rs = false ∧ ∀ d, resolves net pref a d → ∃ msg, dialTCP net d = inr msg))) as Hd.
  { intros d Hr Hu. destruct (connect_answers net mode d raw Hl) as (code & bind & rs & Ha & Hb & Hm).
    exists code, bind, rs. split; [done|]. split; [done|]. destruct (dialTCP net d) as [l|msg] eqn:E.
    - destruct Hm as (-> & -> & ->). left. by exists d.
    - destruct Hm as [Hc Hm]. right. split; [done|]. split; [done|]. intros d' Hd'. rewrite (Hu d' Hd'), E. by eexists. }
  unfold resolves in *. destruct (0 <? len (FQDN a)) eqn:Ef.
  - assert (∀ m code e msg, code ≠ 0 → addr_ok anyAddr →
      (∀ ips, lookupIP net (FQDN a) = Ret ips → len (SelectIPFromList ips pref) = 0) →
      ∃ code0 bind rs, answers code0 bind rs (PCount m (sendReply code anyAddr e (fail msg))) ∧ addr_ok bind ∧
      ((∃ d, (∃ ips, lookupIP net (FQDN a) = Ret ips ∧ 0 < len (SelectIPFromList ips pref) ∧
          d = mkAddr (FQDN a) (SelectIPFromList ips pref) (Port a)) ∧ code0 = 0 ∧ dialTCP net d = inl bind ∧ rs = Ret (CopyToTarget d)) ∨
       (code0 ≠ 0 ∧ is_ret rs = false ∧ ∀ d, (∃ ips, lookupIP net (FQDN a) = Ret ips ∧ 0 < len (SelectIPFromList ips pref) ∧
          d = mkAddr (FQDN a) (SelectIPFromList ips pref) (Port a)) → ∃ msg, dialTCP net d = inr msg))) as Hfail.
    { intros m code e msg Hc Hok Hno. eexists _, _, _. split; [apply answers_count, answers_reply|].
      split; [done|]. right. split; [done|]. split; [done|]. intros d (ips & Ei & Hi & _). rewrite (Hno ips Ei) in Hi. lia. }
    destruct (lookupIP net (FQDN a)) as [[|i ips]|e|s] eqn:El;
      try (apply Hfail; [done|apply anyAddr_ok|intros ? [=]; by subst]).
    destruct (len (SelectIPFromList (i :: ips) pref) =? 0) eqn:E0; bool_to_Z.
    + apply Hfail; [done|apply anyAddr_ok|intros ? [= <-]; done].
    + apply Hd.
      * eexists. split; [done|]. split; [|done]. pose proof (len_nonneg (SelectIPFromList (i :: ips) pref)). lia.
      * intros d' (ips' & [= <-] & _ & ->). done.
  - apply Hd; [done|]. by intros d' ->.
Qed.

Definition envUser (user : string) : option string := if bool_decide (user = "") then None else Some user.

(** The server on a request with [early] bytes behind it, and the client that
    waits for the response. *)
Lemma request_served msg early net pref mode cfg creds user draw dst b :
  addr_ok dst → (∀ d l, dialTCP net d = inl l → addr_ok l) →
  action (policy cfg draw (envUser user) (normalized dst)) ≠ PROXY →
  writeRequest (mkRequest Socks5ConnectCmd dst []) = Ret (mkRequest Socks5ConnectCmd dst b, b) →
  ∃ fuel rc rs,
    duo fuel Conn Conn (awaitResponse msg)
      (serverServeConn net pref mode cfg true creds user draw) [] (b ++ early) = Some (rc, rs, [], early) ∧
    ((∃ d l raw, action (policy cfg draw (envUser user) (normalized dst)) = DIRECT ∧
        resolves net pref (normalized dst) d ∧ dialTCP net d = inl l ∧
        rs = Ret (CopyToTarget d) ∧ rc = Ret (0, normalized l, raw)) ∨
     (is_ret rs = false ∧ is_ret rc = false ∧
        (action (policy cfg draw (envUser user) (normalized dst)) = REJECT ∨
         ∀ d, resolves net pref (normalized dst) d → ∃ msg, dialTCP net d = inr msg))).
Proof.
  intros Hd Hl Hp Hb. destruct (writeAddr_wire dst Hd) as (w & Ew & Hw).
  set (raw := [Socks5Version; Socks5ConnectCmd; 0] ++ w). set (act := policy _ _ _ _) in *.
  assert (b = raw) as ->.
  { unfold writeRequest in Hb. cbn [DstAddr Command] in Hb. rewrite Ew in Hb. cbn [obind] in Hb. by injection Hb as <-. }
  assert (∃ k, ∀ code bind rs (F : prog served),
    F = match action act with
        | DIRECT => handleRequest net pref mode (mkRequest Socks5ConnectCmd (normalized dst) raw)
        | PROXY => match actionProxy act with
                   | None => fail "egress action is PROXY but proxy info is unavailable"
                   | Some proxy => handleForwarding net (mkRequest Socks5ConnectCmd (normalized dst) raw) proxy end
        | REJECT => PCount RejectByRules (sendReply Socks5ReplyNotAllowedByRuleSet anyAddr
               (fail "failed to send reply for notAllowedByRuleSet error: %w") (fail "connection is rejected by egress rules"))
        end → answers code bind rs F → addr_ok bind →
    ∃ fuel rawr rc, duo (k + fuel) Conn Conn (awaitResponse msg)
      (serverServeConn net pref mode cfg true creds user draw) [] (raw ++ early) = Some (rc, rs, [], early) ∧
      (if code =? 0 then rc = Ret (0, normalized bind, rawr) else is_ret rc = false)) as [k Hk].
  { unfold serverServeConn. cbn [pbind]. match goal with |- context [catch (readMessageP Conn) ?f] =>
      destruct (consumes_duo_q Conn Conn (awaitResponse msg) (readMessageP Conn) f raw
        (Socks5ConnectCmd, normalized dst, raw) [] early) as [n Hn] end.
    { by apply consumes_readMessage. }
    { done. }
    exists n. intros code bind rs F HF Ha Hb'.
    destruct (client_gets_reply msg early code bind rs F Ha Hb') as (m & rawr & rc & Hm & E).
    exists m, rawr, rc. split; [|done]. rewrite Hn. cbn [pbind].
    unfold raw at 1. rewrite (FindAction_wire _ _ _ _ _ _ _ Hw) by done.
    change (if bool_decide (user = "") then None else Some user) with (envUser user). fold act. cbn [pbind].
    rewrite <- HF, <- (Nat.add_0_r m). apply Hm. }
  destruct (action act) eqn:Ea; [done| |].
  - destruct (handleRequest_answers net pref mode (normalized dst) raw Hl) as (code & bind & rs & Ha & Hb' & Hr).
    destruct (Hk code bind rs _ eq_refl Ha Hb') as (fuel & rawr & rc & E & Hrc). exists (k + fuel)%nat, rc, rs.
    split; [exact E|]. destruct Hr as [(d & Hr & -> & Hdial & ->)|(Hc & Hrs & Hno)].
    + left. exists d, bind, rawr. done.
    + right. apply Z.eqb_neq in Hc. rewrite Hc in Hrc. auto.
  - destruct (Hk Socks5ReplyNotAllowedByRuleSet anyAddr _ _ eq_refl (answers_count _ _ _ _ _ (answers_reply _ _ _ _)) anyAddr_ok)
      as (fuel & rawr & rc & E & Hrc).
    exists (k + fuel)%nat, rc. eexists. split; [exact E|]. right. auto.
Qed.

Lemma writeRequest_ret cmd dst : addr_ok dst → ∃ b, writeRequest (mkRequest cmd dst []) = Ret (mkRequest cmd dst b, b).
Proof.
  intros Hd. destruct (writeAddr_wire dst Hd) as (w & Ew & _). unfold writeRequest. cbn [DstAddr Command].
  rewrite Ew. cbn [obind]. by eexists.
Qed.

(** C11: dialing through the server.  The client API's handshake for a TCP
    destination, run against the socks5 server, always finishes, with no bytes
    left over and the two ends in agreement.  The client succeeds exactly when the
    egress policy says DIRECT, the name (if any) resolves and the dial succeeds;
    the server then copies data to the very destination the client asked for, and
    the client learns the server's local address.  In every other case both ends
    fail. *)
Theorem dial_through_server net pref mode cfg creds user draw dst :
  addr_ok dst → (∀ d l, dialTCP net d = inl l → addr_ok l) →
  action (policy cfg draw (envUser user) (normalized dst)) ≠ PROXY →
  ∃ fuel rc rs,
    duo fuel Conn Conn (PostDialHandshake true false dst)
      (serverServeConn net pref mode cfg true creds user draw) [] [] = Some (rc, rs, [], []) ∧
    ((∃ d l raw, action (policy cfg draw (envUser user) (normalized dst)) = DIRECT ∧
        resolves net pref (normalized dst) d ∧ dialTCP net d = inl l ∧
        rs = Ret (CopyToTarget d) ∧ rc = Ret (0, normalized l, raw)) ∨
     (is_ret rs = false ∧ is_ret rc = false ∧
        (action (policy cfg draw (envUser user) (normalized dst)) = REJECT ∨
         ∀ d, resolves net pref (normalized dst) d → ∃ msg, dialTCP net d = inr msg))).
Proof.
  intros Hd Hl Hp. destruct (writeRequest_ret Socks5ConnectCmd dst Hd) as (b & Hb).
  destruct (request_served "failed to read socks5 connection response from the server: %w" [] net pref mode cfg creds user draw
    dst b Hd Hl Hp Hb) as (fuel & rc & rs & E & Hr).
  exists (S fuel), rc, rs. split; [|exact Hr]. unfold PostDialHandshake. rewrite Hb. rewrite duo_write_p.
  rewrite app_nil_r in E. exact E.
Qed.

Definition demoNet : netEnv :=
  mkNet (λ _, Ret [[93; 184; 216; 34]]) (λ d, if Port d =? 80 then inl (mkAddr [] [10; 0; 0; 2] 40000) else inr [])
    (λ _ _, Err ErrTimeout) (Ret 5353) [].

Lemma dial_through_server_witness :
  ∃ fuel rc rs, duo fuel Conn Conn (PostDialHandshake true false (mkAddr (string_bytes "example.com") [] 80))
    (serverServeConn demoNet USE_FIRST_IP UDPAssociateModePacketOverStream
       (mkServerConfig ∅ (mkEgressConfig [] []) false) true [] "alice" 0) [] [] = Some (rc, rs, [], []).
Proof.
  destruct (dial_through_server demoNet USE_FIRST_IP UDPAssociateModePacketOverStream
    (mkServerConfig ∅ (mkEgressConfig [] []) false) [] "alice" 0 (mkAddr (string_bytes "example.com") [] 80))
    as (fuel & rc & rs & E & _).
  - split; [done|]. right. right. vm_compute. split; [reflexivity|split; discriminate].
  - intros d l. unfold demoNet. cbn [dialTCP]. destruct (Port d =? 80); [|discriminate]. intros E.
    injection E as <-. split; [split; [discriminate|reflexivity]|left; reflexivity].
  - vm_compute. discriminate.
  - exists fuel, rc, rs. exact E.
Defined.

(** ** The relay of the client side *)

(** Names of at most 253 bytes: the length of the rest then fits a byte. *)
Definition short_name (a : AddrSpec) : Prop := len (FQDN a) ≤ 253.

Lemma consumes_readTail c v cm rsv a t w f :
  wireAddr a (t :: w) → short_name a →
  ∃ addr, consumes c (readTail c [v; cm; rsv; t] f) w ([v; cm; rsv; t] ++ w, addr).
Proof.
  intros Hw Hs. unfold readTail. cbn [nth]. inversion Hw as [ip p Hi Hp|ip p Hi Hp|name p Hp]; subst; simpl Z.eqb; cbn iota.
  - eexists. rewrite <- (app_nil_r (ip ++ p)) at 1. apply consumes_read; [rewrite len_app; lia|constructor].
  - eexists. rewrite <- (app_nil_r (ip ++ p)) at 1. apply consumes_read; [rewrite len_app; lia|constructor].
  - eexists. change (len name :: name ++ p) with ([len name] ++ name ++ p).
    apply consumes_read; [done|]. cbn [nth]. rewrite <- (app_nil_r (name ++ p)) at 1.
    unfold short_name in Hs. cbn [FQDN] in Hs. pose proof (len_nonneg name).
    apply consumes_read; [rewrite len_app, u8_small; [lia|unfold in_u8; lia]|constructor].
Qed.

Lemma run_readRaw {A} c e f (k : bytes → bytes → prog A) v cm rsv a t w rest wd :
  wireAddr a (t :: w) → short_name a → closed (endOf c wd) = false →
  incoming (endOf c wd) = ([v; cm; rsv; t] ++ w) ++ rest →
  run (readRaw c e f k) wd =
    run (k [v; cm; rsv; t] ([v; cm; rsv; t] ++ w)) (setEnd c (withIncoming rest (endOf c wd)) wd).
Proof.
  intros Hw Hs Hc Hi. destruct (consumes_readTail c v cm rsv a t w f Hw Hs) as [addr Hr].
  unfold readRaw. cbn [run]. unfold endReadFull. rewrite Hc, Hi, <- (assoc_L (++)), (ReadFull_app [v; cm; rsv; t]) by done.
  rewrite run_bind, (consumes_run _ _ _ _ rest _ Hr); rewrite ?endOf_setEnd; [|done..].
  by rewrite setEnd_setEnd, <- Hc.
Qed.

(** the relay of the client side is transparent.  For a request and a
    response with an IP address or a name of at most 253 bytes, the server
    receives the very bytes of the client's request and the client receives the
    very bytes of the server's response, except that the port of a UDP
    association is replaced with the port of the local listener; nothing else is
    read or written on either connection. *)
Theorem relay_is_transparent cmd rsv a w v code rsv' b w' rc rp remote port n m wc wp :
  wireAddr a w → short_name a → wireAddr b w' → short_name b →
  run (proxySocks5ConnReq false remote (Ret port))
    (mkWorld (mkEnd (([Socks5Version; cmd; rsv] ++ w) ++ rc) [] wc (S n) false)
             (mkEnd (([v; code; rsv'] ++ w') ++ rp) [] wp (S m) false) []) =
  (Ret (if cmd =? Socks5UDPAssociateCmd then Some port else None, []),
   mkWorld (mkEnd rc [] (wc ++ (if cmd =? Socks5UDPAssociateCmd
                        then take (length ([v; code; rsv'] ++ w') - 2) ([v; code; rsv'] ++ w') ++ [u8 (Z.shiftr port 8); u8 port]
                        else [v; code; rsv'] ++ w')) n false)
           (mkEnd rp [] (wp ++ [Socks5Version; cmd; rsv] ++ w) m false) []).
Proof.
  intros Ha Hsa Hb Hsb.
  assert (∀ a w, wireAddr a w → ∃ t u, w = t :: u) as Hcons by (intros ? ? H; inversion H; eauto).
  destruct (Hcons _ _ Ha) as (t & u & ->). destruct (Hcons _ _ Hb) as (t' & u' & ->).
  assert (2 ≤ len ([v; code; rsv'] ++ t' :: u')) as H2.
  { unfold len. simpl length. lia. }
  unfold proxySocks5ConnReq. cbn [andb].
  rewrite (run_readRaw Conn _ _ _ Socks5Version cmd rsv a t u rc) by done. cbn [run endOf setEnd wConn wProxy withIncoming endWrite closed writesLeft].
  rewrite (run_readRaw ProxyConn _ _ _ v code rsv' b t' u' rp) by done. cbn [nth].
  destruct (cmd =? Socks5UDPAssociateCmd); [|done]. unfold rewritePort.
  change ([v; code; rsv'; t'] ++ u') with ([v; code; rsv'] ++ t' :: u').
  rewrite (proj2 (Z.ltb_ge _ 2)) by done. done.
Qed.

Lemma relay_is_transparent_witness :
  (run (proxySocks5ConnReq false (Ret anyAddr) (Ret 5353))
    (mkWorld (mkEnd ([5; 3; 0; 1; 8; 8; 8; 8; 0; 53] ++ [7]) [] [] 3 false)
             (mkEnd ([5; 0; 0; 1; 0; 0; 0; 0; 1; 2] ++ []) [] [] 3 false) [])).1 = Ret (Some 5353, []).
Proof.
  refine (f_equal fst (relay_is_transparent 3 0 (mkAddr [] [8; 8; 8; 8] 53) [1; 8; 8; 8; 8; 0; 53] 5 0 0
    (mkAddr [] [0; 0; 0; 0] 258) [1; 0; 0; 0; 0; 1; 2] [7] [] (Ret anyAddr) 5353 2 2 [] [] _ _ _ _)).
  - apply (wire_v4 [8; 8; 8; 8] [0; 53]); reflexivity.
  - vm_compute. discriminate.
  - apply (wire_v4 [0; 0; 0; 0] [1; 2]); reflexivity.
  - vm_compute. discriminate.
Defined.

(** an egress proxy can crash the server.  [fqdnLen[0]+2] is a sum of bytes:
    when the proxy answers a UDP ASSOCIATE with a name of 254 or 255 bytes, too
    few bytes are read, and the index of the port is out of range. *)
Theorem long_bind_name_panics net proxyIP req x n rest wc p :
  254 ≤ n ≤ 255 → 1 ≤ len rest →
  ∃ s w, run (handleForwardingUDP net proxyIP req)
    (mkWorld wc (mkEnd ([5; Socks5ReplySuccess; x; Socks5FQDNAddress; n] ++ rest) [] [] (S p) false) []) = (Panic s, w).
Proof.
  intros Hn Hr. unfold handleForwardingUDP. cbn [run endOf wProxy endWrite closed writesLeft setEnd].
  unfold endReadFull at 1. cbn [closed incoming]. rewrite (ReadFull_app [5; Socks5ReplySuccess; x; Socks5FQDNAddress] (n :: rest)) by done.
  cbn [pbind]. unfold readTail. cbn [nth]. simpl Z.eqb. cbn iota. cbn [pbind run endOf wProxy setEnd].
  unfold endReadFull at 1. cbn [closed incoming]. rewrite ReadFull_1. cbn [pbind nth run endOf wProxy setEnd].
  unfold endReadFull at 1. cbn [closed incoming].
  assert (∃ b r, ReadFull (u8 (n + 2)) rest = Ret (b, r) ∧ len b ≤ 1) as (b & r & -> & Hb).
  { assert (u8 (n + 2) = n - 254) as ->.
    { unfold u8. change (2 ^ 8) with 256. rewrite <- (Z.mod_small (n - 254) 256) by lia.
      rewrite <- (Z_mod_plus_full (n - 254) 1 256). f_equal. lia. }
    unfold ReadFull. rewrite (proj2 (Z.ltb_ge _ _)) by lia. eexists _, _. split; [done|].
    unfold len. rewrite length_take. lia. }
  cbn [pbind app nth]. change (negb (Socks5ReplySuccess =? Socks5ReplySuccess)) with false. cbn iota.
  unfold downstreamAddr. cbn [nth]. simpl Z.eqb. cbn iota.
  pose proof (index_at_mid [5; Socks5ReplySuccess; x; Socks5FQDNAddress] n b 4 eq_refl) as Ei.
  cbn [app] in Ei. rewrite Ei. cbn [obind].
  unfold index_at. rewrite (proj2 (Z.leb_le 0 n)), (proj2 (Z.ltb_ge n (len b))) by lia. cbn [andb obind pbind run].
  eexists _, _. done.
Qed.

Lemma long_bind_name_panics_witness :
  ∃ s w, run (handleForwardingUDP demoNet [10; 0; 0; 9] (mkRequest 3 anyAddr []))
    (mkWorld (peerSends [] 3) (mkEnd ([5; Socks5ReplySuccess; 0; Socks5FQDNAddress; 255] ++ [97; 98]) [] [] 4 false) []) = (Panic s, w).
Proof.
  apply (long_bind_name_panics demoNet [10; 0; 0; 9] (mkRequest 3 anyAddr []) 0 255 [97; 98] (peerSends [] 3) 3);
    [lia|vm_compute; discriminate].
Defined.

End SocksServer.
Export SocksServer.
