(* ===== verification/SocksUDP.v ===== *)
(** * pkg/socks5/udp.go and copy.go: relaying UDP packets

    One step of a loop is what it does with one packet.  [RunUDPAssociateLoop]
    keeps slices of its read buffer in a map that its other goroutine uses: the
    buffer is part of the state, and a header is either a prefix of that buffer
    or bytes of its own.  Sockets that fail are an argument of a step. *)

From S2P Require Import Prelude Socks Net Egress.

Module SocksUDP.

Definition ErrNoEnoughData : goerr := Errorf "NO ENOUGH DATA".

Record UDPAddr := mkZonedAddr { udpIP : bytes; udpPort : Z; udpZone : bytes }.
(** An address without a zone. *)
Notation mkUDPAddr ip port := (mkZonedAddr ip port []).

#[global] Instance UDPAddr_eq_dec : EqDecision UDPAddr.
Proof. solve_decision. Defined.

(** What [UDPAddr.String] tells apart, the zone included: an IPv4 address and its IPv6 form have
    the same text. *)
Definition addrKey (a : UDPAddr) : bytes * bytes * Z :=
  (if 0 <? len (To4 (udpIP a)) then To4 (udpIP a) else udpIP a, udpZone a, udpPort a).

Definition sameUDPAddr (a b : UDPAddr) : bool :=
  (udpPort a =? udpPort b) && bool_decide (udpZone a = udpZone b) && IPEqual (udpIP a) (udpIP b).

(** [AppendUint16] of the port. *)
Definition udpAddrToHeader (a : UDPAddr) : bytes :=
  let port := u16 (udpPort a) in
  [0; 0; 0] ++
  (if 0 <? len (To4 (udpIP a)) then 1 :: To4 (udpIP a) else 4 :: To16 (udpIP a)) ++
  [u8 (Z.shiftr port 8); u8 port].

Section Loops.
(** [lookupIP network host]: the resolver. *)
Context (lookupIP : bytes → outcome (list bytes)).

(** apis/common/dns.go, [ResolveUDPAddr] for network "udp". *)
Definition ResolveUDPAddr (address : bytes) : outcome UDPAddr :=
  let! (host, portStr) := SplitHostPort address in
  let! port := Atoi portStr in
  let ip := ParseIP host in
  if 0 <? len ip then Ret (mkUDPAddr ip port)
  else
    let! ips := lookupIP host in
    match ips with
    | [] => Err (Errorf "IP address not found")
    | ip :: _ => Ret (mkUDPAddr ip port)
    end.

(** ** RunUDPAssociateLoop *)

(** A header in [addrMap]: the first bytes of the read buffer, or its own. *)
Inductive header := InBuf (n : Z) | Own (h : bytes).

Record assoc := mkAssoc { rbuf : bytes; addrMap : gmap (bytes * bytes * Z) header }.

(** [copy] into a buffer at an offset. *)
Definition blit (b : bytes) (off : nat) (x : bytes) : bytes := take off b ++ x ++ drop (off + length x) b.

(** What an iteration does: the packet sent to a destination, nothing (a
    destination that does not resolve), or the end of the loop. *)
Inductive upResult := Sent (dst : UDPAddr) (payload : bytes) | Skipped | Stopped (e : goerr).

(** One packet [p] from the tunnel.  [fqdnLen] is a byte, and so are the sums
    with it. *)
Definition uploadStep (p : bytes) (st : assoc) : outcome (assoc * upResult) :=
  let buf := blit (rbuf st) 0 p in
  let n := len p in
  let stop e := Ret (mkAssoc buf (addrMap st), Stopped e) in
  let at_ i := nth i buf 0 in
  if n <=? 6 then stop ErrNoEnoughData
  else if negb (at_ 0%nat =? 0) || negb (at_ 1%nat =? 0) then stop ErrInvalidArgument
  else if negb (at_ 2%nat =? 0) then stop ErrUnsupported
  else
    let addrType := at_ 3%nat in
    if negb (addrType =? Socks5IPv4Address) && negb (addrType =? Socks5FQDNAddress) &&
       negb (addrType =? Socks5IPv6Address) then stop ErrInvalidArgument
    else if ((addrType =? Socks5IPv4Address) && (n <=? 10)) ||
            ((addrType =? Socks5FQDNAddress) && (n <=? at_ 4%nat + 6)) ||
            ((addrType =? Socks5IPv6Address) && (n <=? 22)) then stop ErrNoEnoughData
    else
      let send dst hdrLen :=
        let! payload := slice_range buf hdrLen n in
        Ret (mkAssoc buf (<[addrKey dst := InBuf hdrLen]> (addrMap st)), Sent dst payload) in
      if addrType =? Socks5IPv4Address then
        send (mkUDPAddr (take 4 (drop 4 buf)) (Z.shiftl (at_ 8%nat) 8 + at_ 9%nat)) 10
      else if addrType =? Socks5FQDNAddress then
        let fqdnLen := at_ 4%nat in
        let! fqdn := slice_range buf 5 (u8 (5 + fqdnLen)) in
        let! hi := index_at buf (u8 (5 + fqdnLen)) in
        let! lo := index_at buf (u8 (6 + fqdnLen)) in
        match ResolveUDPAddr (fqdn ++ [58] ++ Itoa (Z.shiftl hi 8 + lo)) with
        | Ret dst => send dst (u8 (7 + fqdnLen))
        | Err _ => Ret (mkAssoc buf (addrMap st), Skipped)
        | Panic s => Panic s
        end
      else send (mkUDPAddr (take 16 (drop 4 buf)) (Z.shiftl (at_ 20%nat) 8 + at_ 21%nat)) 22.

(** One packet [d] from the UDP socket: the packet written to the tunnel.
    [append(header, buf[:n]...)] writes behind the header when the header is a
    prefix of the read buffer and the packet fits its capacity. *)
Definition downloadStep (from : UDPAddr) (d : bytes) (st : assoc) : assoc * bytes :=
  match addrMap st !! addrKey from with
  | Some (InBuf k) =>
      let h := take (Z.to_nat k) (rbuf st) in
      let rbuf' := if k + len d <=? len (rbuf st) then blit (rbuf st) (Z.to_nat k) d else rbuf st in
      (mkAssoc rbuf' (addrMap st), h ++ d)
  | Some (Own h) => (st, h ++ d)
  | None =>
      let h := udpAddrToHeader from in
      (mkAssoc (rbuf st) (<[addrKey from := Own h]> (addrMap st)), h ++ d)
  end.

Definition newAssoc : assoc := mkAssoc (replicate (Z.to_nat 65536) 0) ∅.

(** A run of both goroutines, packet by packet, with what was sent. *)
Inductive udpEvent := Up (p : bytes) | Down (from : UDPAddr) (d : bytes).
Inductive udpOut := ToDst (dst : UDPAddr) (payload : bytes) | ToTunnel (packet : bytes).

Fixpoint assocRun (es : list udpEvent) (st : assoc) : outcome (assoc * list udpOut) :=
  match es with
  | [] => Ret (st, [])
  | Up p :: es =>
      let! (st, r) := uploadStep p st in
      match r with
      | Sent dst payload => let! (st, outs) := assocRun es st in Ret (st, ToDst dst payload :: outs)
      | Skipped => assocRun es st
      | Stopped _ => Ret (st, [])
      end
  | Down from d :: es =>
      let '(st, packet) := downloadStep from d st in
      let! (st, outs) := assocRun es st in Ret (st, ToTunnel packet :: outs)
  end.

(** ** The datagram relay *)

(** A header with the payload: [parseUDPAssociateDatagram]. *)
Definition resolveUDPAssociateDatagramAddr (a : AddrSpec) : outcome UDPAddr :=
  if (0 <? len (To4 (IP a))) || (0 <? len (To16 (IP a))) then Ret (mkUDPAddr (IP a) (Port a))
  else if 0 <? len (FQDN a) then
    (* AddrSpec.String joins name and port; a name with a colon gets brackets *)
    ResolveUDPAddr ((if contains 58 (FQDN a) then [91] ++ FQDN a ++ [93] else FQDN a) ++ [58] ++ Itoa (Port a))
  else Err ErrUnrecognizedAddrType.

Definition parseUDPAssociateDatagram (pkt : bytes) : outcome (UDPAddr * bytes) :=
  if len pkt <=? 6 then Err ErrNoEnoughData
  else if negb (nth 0 pkt 0 =? 0) || negb (nth 1 pkt 0 =? 0) then Err ErrInvalidArgument
  else if negb (nth 2 pkt 0 =? 0) then Err ErrUnsupported
  else
    let! (dst, r) := readAddr zeroAddr (drop 3 pkt) in
    let! dstAddr := resolveUDPAssociateDatagramAddr dst in
    Ret (dstAddr, r).

Record relay := mkRelay { clientAddr : option UDPAddr; targetAddrs : gset (bytes * bytes * Z) }.

(** One datagram [pkt] from [addr]; [ok] says whether [WriteToUDP] succeeds. *)
Definition relayStep (ok : bool) (addr : UDPAddr) (pkt : bytes) (st : relay) : relay * option (UDPAddr * bytes) :=
  if match clientAddr st with None => true | Some c => sameUDPAddr addr c end then
    match parseUDPAssociateDatagram pkt with
    | Ret (dst, payload) =>
        let st := mkRelay (Some (default addr (clientAddr st))) (targetAddrs st) in
        if ok then (mkRelay (clientAddr st) ({[ addrKey dst ]} ∪ targetAddrs st), Some (dst, payload))
        else (st, None)
    | _ => (st, None)
    end
  else if bool_decide (addrKey addr ∈ targetAddrs st) then
    match clientAddr st with
    | Some c => (st, if ok then Some (c, udpAddrToHeader addr ++ pkt) else None)
    | None => (st, None)
    end
  else (st, None).

End Loops.

(** ** The client side: BidiCopyUDP *)

(** A datagram from the application, given the address of the first one: the
    packet for the tunnel, or an error that ends the copy. *)
Definition bidiUpload (addr : option UDPAddr) (from : UDPAddr) (pkt : bytes) : outcome (option UDPAddr * bytes) :=
  match addr with
  | Some a =>
      if bool_decide (addrKey a = addrKey from) then let! b := tunnelWrite pkt in Ret (Some a, b)
      else Err (Errorf "ReadFrom new UDP endpoint %s, first use is %s")
  | None => let! b := tunnelWrite pkt in Ret (Some from, b)
  end.
Definition bidiDownload (addr : option UDPAddr) (tunnel : bytes) : outcome (UDPAddr * bytes * bytes) :=
  let! (p, r) := tunnelRead 65536 tunnel in
  match addr with
  | None => Err (Errorf "UDP address is not ready")
  | Some a => Ret (a, p, r)
  end.

(** [TransceiveUDPPacket] of client.go: the packet it sends, and the payload it
    takes from the response. *)
Definition transceiveRequest (dst : UDPAddr) (payload : bytes) : bytes :=
  [0; 0; 0] ++
  (if 0 <? len (To4 (udpIP dst)) then Socks5IPv4Address :: To4 (udpIP dst) else Socks5IPv6Address :: To16 (udpIP dst)) ++
  [u8 (Z.shiftr (udpPort dst) 8); u8 (udpPort dst)] ++ payload.
Definition transceiveResponse (buf : bytes) : outcome bytes :=
  let n := len buf in
  if n <? 4 then Err (Errorf "UDP associate response is too short")
  else if nth 3 buf 0 =? Socks5IPv4Address then
    if n <=? 10 then Err (Errorf "UDP associate response is too short for IPv4 address") else slice_range buf 10 n
  else if nth 3 buf 0 =? Socks5IPv6Address then
    if n <=? 22 then Err (Errorf "UDP associate response is too short for IPv6 address") else slice_range buf 22 n
  else if nth 3 buf 0 =? Socks5FQDNAddress then
    if n <? 5 then Err (Errorf "UDP associate response is too short for FQDN address")
    else
      let headerLen := 7 + nth 4 buf 0 in
      if n <=? headerLen then Err (Errorf "UDP associate response is too short for FQDN address")
      else slice_range buf headerLen n
  else Err (Errorf "UDP associate unsupported address type: %d").

(** ** Lemmas *)

Lemma blit_0 b x : blit b 0 x = x ++ drop (length x) b.
Proof. done. Qed.
Lemma length_blit b off x : (off + length x ≤ length b)%nat → length (blit b off x) = length b.
Proof. intros. unfold blit. rewrite !length_app, length_take, length_drop. lia. Qed.
Lemma take_blit b off x k : (k ≤ off)%nat → (off ≤ length b)%nat → take k (blit b off x) = take k b.
Proof.
  intros. unfold blit. rewrite take_app_le by (rewrite length_take; lia). rewrite take_take. f_equal. lia.
Qed.

(** The port of two bytes, added or or-ed. *)
Lemma port_add_lor h l : in_u8 l → Z.shiftl h 8 + l = Z.lor (Z.shiftl h 8) l.
Proof.
  intros Hl. rewrite <- Z.add_lor_land. replace (Z.land (Z.shiftl h 8) l) with 0; [lia|]. symmetry.
  apply Z.bits_inj'. intros k Hk. rewrite Z.land_spec, Z.bits_0. destruct (Z.lt_ge_cases k 8).
  - by rewrite Z.shiftl_spec_low.
  - unfold in_u8 in Hl.
    assert (Z.testbit l k = false) as ->; [|by rewrite andb_false_r].
    rewrite <- (Z.mod_small l (2 ^ 8)) by lia. apply Z.mod_pow2_bits_high. lia.
Qed.

(** A datagram of the application: header of RFC 1928, address, payload. *)
Definition datagram (w payload : bytes) : bytes := [0; 0; 0] ++ w ++ payload.

(** Where the server sends it. *)
Definition destination (lookupIP : bytes → outcome (list bytes)) (a : AddrSpec) : option UDPAddr :=
  if 0 <? len (IP a) then Some (mkUDPAddr (IP a) (Port a))
  else match ResolveUDPAddr lookupIP (FQDN a ++ [58] ++ Itoa (Port a)) with Ret d => Some d | _ => None end.

Lemma ResolveUDPAddr_no_panic lookupIP addr s :
  (∀ h s, lookupIP h ≠ Panic s) → ResolveUDPAddr lookupIP addr ≠ Panic s.
Proof.
  intros Hl E. unfold ResolveUDPAddr in E. destruct (SplitHostPort addr) as [[host port]| |] eqn:ES; simpl in E; [|done|].
  - destruct (Atoi port) eqn:EA; simpl in E; [|done|].
    + case_if_in E; [done|]. destruct (lookupIP host) as [[|]| |] eqn:EL; simpl in E; try done. eapply Hl; exact EL.
    + unfold Atoi in EA. destruct (match port with 45 :: _ => _ | _ => _ end) as [neg ds]. by repeat case_if_in EA.
  - unfold SplitHostPort in ES. destruct (LastIndexByte 58 addr) as [i|]; [|done].
    destruct (match addr with 91 :: _ => true | _ => false end).
    + destruct (IndexByte 93 addr) as [k|]; [|done]. repeat (simpl in ES; case_if_in ES; try done).
    + repeat (simpl in ES; case_if_in ES; try done).
Qed.

(** Reading back what [blit] put at the start of the buffer. *)
Lemma nth_blit_0 b x i : (i < length x)%nat → nth i (blit b 0 x) 0 = nth i x 0.
Proof. intros. rewrite blit_0. by apply app_nth1. Qed.

(** A packet to an IPv4 destination: the header stays in the buffer. *)
Lemma upload_v4 lookupIP st ip q0 q1 payload :
  len ip = 4 → in_u8 q1 → 0 < len payload → 10 + len payload ≤ len (rbuf st) →
  let dst := mkUDPAddr ip (Z.lor (Z.shiftl q0 8) q1) in
  uploadStep lookupIP (datagram (Socks5IPv4Address :: ip ++ [q0; q1]) payload) st =
    Ret (mkAssoc (blit (rbuf st) 0 (datagram (Socks5IPv4Address :: ip ++ [q0; q1]) payload))
           (<[addrKey dst := InBuf 10]> (addrMap st)), Sent dst payload).
Proof.
  intros Hi Hq Hp Hd dst. unfold uploadStep. rewrite blit_0.
  destruct ip as [|i0 [|i1 [|i2 [|i3 [|]]]]]; unfold len in Hi; simpl in Hi; try lia.
  set (p := datagram _ _). assert (len p = 10 + len payload) as Ed.
  { unfold p, datagram. cbn [app]. rewrite !len_cons. lia. }
  assert (p = [0; 0; 0; 1; i0; i1; i2; i3; q0; q1] ++ payload) as Ep by done.
  remember (p ++ drop (length p) (rbuf st)) as buf eqn:Ebuf. rewrite Ep, <- (assoc_L (++)) in Ebuf.
  assert (slice_range buf 10 (len p) = Ret payload) as Hpay.
  { rewrite Ebuf, Ed. by apply (slice_range_mid [0; 0; 0; 1; i0; i1; i2; i3; q0; q1]). }
  assert (nth 0 buf 0 = 0 ∧ nth 1 buf 0 = 0 ∧ nth 2 buf 0 = 0 ∧ nth 3 buf 0 = 1 ∧ take 4 (drop 4 buf) = [i0; i1; i2; i3] ∧
    nth 8 buf 0 = q0 ∧ nth 9 buf 0 = q1) as (-> & -> & -> & -> & -> & -> & ->) by (rewrite Ebuf; repeat split; reflexivity).
  rewrite (proj2 (Z.leb_gt _ 6)), (proj2 (Z.leb_gt _ 10)) by lia.
  cbn [Z.eqb Pos.eqb negb andb orb Socks5IPv4Address Socks5IPv6Address Socks5FQDNAddress].
  rewrite Hpay, port_add_lor by done. done.
Qed.

Lemma upload_delivers lookupIP st a w payload :
  len (rbuf st) = 65536 → (∀ h s, lookupIP h ≠ Panic s) →
  wireAddr a w → bytes_ok w → len (FQDN a) ≤ 248 → 0 < len payload → len (datagram w payload) ≤ 65536 →
  ∃ st', len (rbuf st') = 65536 ∧
  uploadStep lookupIP (datagram w payload) st =
    Ret (st', match destination lookupIP a with Some d => Sent d payload | None => Skipped end).
Proof.
  intros Hb Hl Hw Hok Hn Hp Hd.
  inversion Hw as [ip q Hi Hq E1 E2|ip q Hi Hq E1 E2|name q Hq E1 E2]; subst a w;
    destruct q as [|q0 [|q1 [|]]]; unfold len in Hq; simpl in Hq; try lia; clear Hq.
  { apply Forall_cons_1 in Hok as [_ Hok]. apply Forall_app in Hok as [_ [_ [Hq _]%Forall_cons_1]%Forall_cons_1].
    assert (len (datagram (Socks5IPv4Address :: ip ++ [q0; q1]) payload) = 10 + len payload) as Ed.
    { unfold datagram. cbn [app]. rewrite !len_cons, !len_app, Hi, !len_cons, len_nil. lia. }
    eexists. split; [|rewrite upload_v4 by (done || lia); unfold destination; cbn [IP]; by rewrite Hi].
    cbn [rbuf]. unfold len in *. rewrite length_blit by lia. done. }
  all: match goal with |- context [uploadStep _ (datagram ?w0 _) _] => remember w0 as w eqn:Ew end.
  all: unfold uploadStep, destination; rewrite blit_0; cbn [IP FQDN Port] in *.
  all: remember (datagram w payload ++ drop (length (datagram w payload)) (rbuf st)) as buf eqn:Ebuf.
  all: assert (len buf = 65536) as Hlen by (rewrite Ebuf; unfold len in *; rewrite length_app, length_drop; lia).
  all: assert (∀ x k, datagram w payload = x ++ payload → k = len x →
    slice_range buf k (len (datagram w payload)) = Ret payload) as Hpay
    by (intros x k E ->; rewrite Ebuf, E, len_app, <- (assoc_L (++)); by apply slice_range_mid).
  all: set (tl := drop (length (datagram w payload)) (rbuf st)) in Ebuf; clearbody tl; subst w;
    apply Forall_cons_1 in Hok as [_ Hok].
  - assert (len (datagram (Socks5IPv6Address :: ip ++ [q0; q1]) payload) = 22 + len payload) as Ed.
    { unfold datagram. cbn [app]. rewrite !len_cons, !len_app, Hi, !len_cons, len_nil. lia. }
    rewrite Ed in *. rewrite (proj2 (Z.leb_gt _ 6)), (proj2 (Z.leb_gt _ 22)) by lia.
    assert (buf = [0; 0; 0; 4] ++ ip ++ [q0; q1] ++ payload ++ tl) as Eb.
    { rewrite Ebuf. unfold datagram. cbn [app]. by rewrite <- !(assoc_L (++)). }
    assert (length ip = 16%nat) as Hi' by (unfold len in Hi; lia).
    assert (nth 0 buf 0 = 0 ∧ nth 1 buf 0 = 0 ∧ nth 2 buf 0 = 0 ∧ nth 3 buf 0 = 4) as (-> & -> & -> & ->)
      by (rewrite Eb; repeat split; reflexivity).
    assert (take 16 (drop 4 buf) = ip) as ->.
    { rewrite Eb. cbn [app drop]. rewrite <- Hi'. apply take_app_length. }
    assert (nth 20 buf 0 = q0 ∧ nth 21 buf 0 = q1) as [-> ->].
    { rewrite Eb. cbn [app nth]. rewrite !app_nth2 by lia. rewrite Hi'. done. }
    cbn. rewrite (Hpay ([0; 0; 0; 4] ++ ip ++ [q0; q1])).
    2:{ unfold datagram. cbn [app]. by rewrite <- !(assoc_L (++)). }
    2:{ rewrite !len_app, Hi. done. }
    cbn [obind]. rewrite Hi. eexists (mkAssoc buf _). split; [exact Hlen|].
    rewrite port_add_lor; [done|]. by apply Forall_app in Hok as [_ [_ [? _]%Forall_cons_1]%Forall_cons_1].
  - pose proof (len_nonneg name) as Hn0. set (p := datagram _ _) in *.
    assert (len p = 7 + len name + len payload) as Ed.
    { unfold p, datagram. cbn [app]. rewrite !len_cons, !len_app, !len_cons, len_nil. lia. }
    rewrite Ed in *.
    assert (buf = [0; 0; 0; 3; len name] ++ name ++ [q0; q1] ++ payload ++ tl) as Eb.
    { rewrite Ebuf. unfold p, datagram. cbn [app]. by rewrite <- !(assoc_L (++)). }
    assert (nth 0 buf 0 = 0 ∧ nth 1 buf 0 = 0 ∧ nth 2 buf 0 = 0 ∧ nth 3 buf 0 = 3 ∧ nth 4 buf 0 = len name)
      as (-> & -> & -> & -> & ->) by (rewrite Eb; repeat split; reflexivity).
    rewrite (proj2 (Z.leb_gt _ 6)), (proj2 (Z.leb_gt _ (len name + 6))) by lia. cbn [Z.eqb Pos.eqb negb andb orb Socks5IPv4Address Socks5IPv6Address Socks5FQDNAddress].
    rewrite !u8_small by (unfold in_u8; lia).
    assert (slice_range buf 5 (5 + len name) = Ret name) as ->.
    { rewrite Eb. by apply (slice_range_mid [0; 0; 0; 3; len name]). }
    assert (index_at buf (5 + len name) = Ret q0) as ->.
    { rewrite Eb. rewrite (assoc_L (++)). apply (index_at_mid ([0; 0; 0; 3; len name] ++ name) q0).
      by rewrite len_app. }
    assert (index_at buf (6 + len name) = Ret q1) as ->.
    { rewrite Eb. replace ([0; 0; 0; 3; len name] ++ name ++ [q0; q1] ++ payload ++ tl)
        with (([0; 0; 0; 3; len name] ++ name ++ [q0]) ++ q1 :: payload ++ tl)
        by (rewrite <- !(assoc_L (++)); done).
      apply index_at_mid. rewrite !len_app, !len_cons, !len_nil. lia. }
    cbn [obind]. assert (Z.shiftl q0 8 + q1 = Z.lor (Z.shiftl q0 8) q1) as ->.
    { apply port_add_lor. apply Forall_cons_1 in Hok as [_ Hok].
      by apply Forall_app in Hok as [_ [_ [? _]%Forall_cons_1]%Forall_cons_1]. }
    change (0 <? len (@nil Z)) with false. cbn iota. cbn [nth].
    destruct (ResolveUDPAddr _ _) as [d|e|s] eqn:ER.
    + rewrite (Hpay ([0; 0; 0; 3; len name] ++ name ++ [q0; q1])).
      2:{ unfold p, datagram. cbn [app]. by rewrite <- !(assoc_L (++)). }
      2:{ rewrite !len_app, !len_cons, !len_nil. lia. }
      cbn [obind]. eexists (mkAssoc buf _). split; [exact Hlen|done].
    + eexists (mkAssoc buf _). split; [exact Hlen|done].
    + by apply ResolveUDPAddr_no_panic in ER.
Qed.

(** a datagram of the application reaches its destination.  A datagram with
    an IP destination, or a name of at most 248 bytes, that the client's UDP
    endpoint accepts crosses the tunnel unchanged, and the server sends exactly
    its payload to the destination in its header (the address that the name
    resolves to); only a name that does not resolve is dropped, and the
    association goes on. *)
Theorem udp_datagram_reaches_destination lookupIP addr from st a w payload rest :
  match addr with Some c => addrKey c = addrKey from | None => True end →
  len (rbuf st) = 65536 → (∀ h s, lookupIP h ≠ Panic s) →
  wireAddr a w → bytes_ok w → len (FQDN a) ≤ 248 → 0 < len payload → len (datagram w payload) ≤ 65535 →
  ∃ b st', bidiUpload addr from (datagram w payload) = Ret (Some (default from addr), b) ∧
    tunnelRead 65536 (b ++ rest) = Ret (datagram w payload, rest) ∧
    len (rbuf st') = 65536 ∧
    uploadStep lookupIP (datagram w payload) st =
      Ret (st', match destination lookupIP a with Some d => Sent d payload | None => Skipped end).
Proof.
  intros Ha Hb Hl Hw Hok Hn Hp Hd.
  destruct (tunnel_one (datagram w payload) 65536 rest) as (b & Eb & Er); [lia..|].
  destruct (upload_delivers lookupIP st a w payload) as (st' & H1 & H2); [done..|lia|].
  exists b, st'. split; [|done]. unfold bidiUpload. rewrite Eb. destruct addr as [c|]; cbn [obind]; [|done].
  by rewrite bool_decide_true.
Qed.

Lemma len_newAssoc : len (rbuf newAssoc) = 65536.
Proof. unfold newAssoc. cbn [rbuf]. rewrite len_replicate, Z2Nat.id; lia. Qed.

Lemma udp_datagram_reaches_destination_witness :
  ∃ b st', bidiUpload None (mkUDPAddr [127; 0; 0; 1] 5000) (datagram [1; 8; 8; 8; 8; 0; 53] [1; 2; 3]) =
      Ret (Some (mkUDPAddr [127; 0; 0; 1] 5000), b) ∧
    uploadStep (λ _, Err ErrTimeout) (datagram [1; 8; 8; 8; 8; 0; 53] [1; 2; 3]) newAssoc =
      Ret (st', Sent (mkUDPAddr [8; 8; 8; 8] 53) [1; 2; 3]).
Proof.
  destruct (udp_datagram_reaches_destination (λ _, Err ErrTimeout) None (mkUDPAddr [127; 0; 0; 1] 5000) newAssoc
    (mkAddr [] [8; 8; 8; 8] 53) [1; 8; 8; 8; 8; 0; 53] [1; 2; 3] []) as (b & st' & H1 & _ & _ & H2).
  - exact I.
  - exact len_newAssoc.
  - discriminate.
  - apply (wire_v4 [8; 8; 8; 8] [0; 53]); reflexivity.
  - bytes_lit.
  - vm_compute. discriminate.
  - vm_compute. reflexivity.
  - vm_compute. discriminate.
  - exists b, st'. split; [exact H1|exact H2].
Defined.

(** a long name ends the server.  The length of the name is a byte and the
    sums with it wrap around: a datagram with a name of 251 to 255 bytes makes the
    slice of the name panic, in a goroutine that nothing recovers. *)
Theorem udp_long_name_panics lookupIP st name q0 q1 payload :
  len (rbuf st) = 65536 → 251 ≤ len name ≤ 255 → 0 < len payload → 7 + len name + len payload ≤ 65536 →
  ∃ s, uploadStep lookupIP (datagram (Socks5FQDNAddress :: len name :: name ++ [q0; q1]) payload) st = Panic s.
Proof.
  intros Hb Hn Hp Hd. unfold uploadStep. rewrite blit_0. set (p := datagram _ _).
  assert (len p = 7 + len name + len payload) as Ed.
  { unfold p, datagram. cbn [app]. rewrite !len_cons, !len_app, !len_cons, len_nil. lia. }
  remember (p ++ drop (length p) (rbuf st)) as buf eqn:Ebuf.
  assert (nth 0 buf 0 = 0 ∧ nth 1 buf 0 = 0 ∧ nth 2 buf 0 = 0 ∧ nth 3 buf 0 = 3 ∧ nth 4 buf 0 = len name)
    as (-> & -> & -> & -> & ->) by (rewrite Ebuf; repeat split; reflexivity).
  rewrite (proj2 (Z.leb_gt _ 6)), (proj2 (Z.leb_gt _ (len name + 6))) by lia.
  cbn [Z.eqb Pos.eqb negb andb orb Socks5IPv4Address Socks5IPv6Address Socks5FQDNAddress].
  assert (u8 (5 + len name) = len name - 251) as ->.
  { unfold u8. change (2 ^ 8) with 256. rewrite <- (Z.mod_small (len name - 251) 256) by lia.
    rewrite <- (Z_mod_plus_full (len name - 251) 1 256). f_equal. lia. }
  unfold slice_range at 1. rewrite (proj2 (Z.leb_gt 5 _)) by lia. rewrite andb_false_r. cbn. by eexists.
Qed.

Lemma udp_long_name_panics_witness :
  ∃ s, uploadStep (λ _, Err ErrTimeout)
    (datagram (Socks5FQDNAddress :: 251 :: replicate 251 97 ++ [0; 53]) [1]) newAssoc = Panic s.
Proof.
  apply (udp_long_name_panics (λ _, Err ErrTimeout) newAssoc (replicate 251 97) 0 53 [1]);
    [exact len_newAssoc|vm_compute; split; discriminate|vm_compute; reflexivity|vm_compute; discriminate].
Defined.

(** ** Headers of replies *)

Lemma addrKey_v4 ip port : len ip = 4 → addrKey (mkUDPAddr ip port) = (ip, [], port).
Proof. intros H. unfold addrKey. cbn [udpIP udpPort udpZone]. rewrite (To4_4 ip H), H. done. Qed.

Definition v4Header (ip : bytes) (q0 q1 : Z) : bytes := [0; 0; 0; Socks5IPv4Address] ++ ip ++ [q0; q1].

Lemma datagram_v4 ip q0 q1 payload :
  datagram (Socks5IPv4Address :: ip ++ [q0; q1]) payload = v4Header ip q0 q1 ++ payload.
Proof. unfold datagram, v4Header. cbn [app]. by rewrite <- (assoc_L (++)). Qed.

Lemma length_v4Header ip q0 q1 : len ip = 4 → length (v4Header ip q0 q1) = 10%nat.
Proof. intros H. unfold v4Header. rewrite !length_app. unfold len in H. simpl. lia. Qed.

Lemma take_blit_header b ip q0 q1 payload : len ip = 4 →
  take 10 (blit b 0 (datagram (Socks5IPv4Address :: ip ++ [q0; q1]) payload)) = v4Header ip q0 q1.
Proof.
  intros H. rewrite blit_0, datagram_v4, <- (assoc_L (++)). rewrite <- (length_v4Header ip q0 q1 H). apply take_app_length.
Qed.

(** replies are labelled with the wrong source.  The header that is kept for
    a destination is a slice of the read buffer, which the next packet
    overwrites: after packets to two IPv4 destinations, the reply of the first
    one is delivered under the address of the second one. *)
Theorem udp_reply_mislabelled lookupIP ipA a0 a1 xA ipB b0 b1 xB d :
  len ipA = 4 → len ipB = 4 → in_u8 a1 → in_u8 b1 → 0 < len xA → 0 < len xB →
  10 + len xA ≤ 65536 → 10 + len xB ≤ 65536 →
  let A := mkUDPAddr ipA (Z.lor (Z.shiftl a0 8) a1) in
  let B := mkUDPAddr ipB (Z.lor (Z.shiftl b0 8) b1) in
  A ≠ B →
  ∃ st, assocRun lookupIP [Up (v4Header ipA a0 a1 ++ xA); Up (v4Header ipB b0 b1 ++ xB); Down A d] newAssoc =
    Ret (st, [ToDst A xA; ToDst B xB; ToTunnel (v4Header ipB b0 b1 ++ d)]).
Proof.
  intros HA HB Ha Hb HxA HxB LA LB A B HAB. pose proof len_newAssoc as HL. cbn [assocRun].
  rewrite <- !datagram_v4, upload_v4 by (done || lia). cbn [obind].
  rewrite upload_v4; [|done..|].
  2:{ cbn [rbuf]. unfold len in *. rewrite length_blit; [lia|]. rewrite datagram_v4, length_app, length_v4Header; [lia|]. unfold len. lia. }
  cbn [obind]. fold A B. unfold downloadStep. cbn [addrMap rbuf].
  rewrite lookup_insert_ne.
  2:{ unfold A, B in *. rewrite !addrKey_v4 by done. intros [= E1 E2]. apply HAB. by rewrite E1, E2. }
  rewrite lookup_insert_eq. change (Z.to_nat 10) with 10%nat. rewrite take_blit_header by done.
  cbn [obind]. by eexists.
Qed.

Lemma udp_reply_mislabelled_witness :
  ∃ st, assocRun (λ _, Err ErrTimeout)
    [Up (v4Header [8; 8; 8; 8] 0 53 ++ [1]); Up (v4Header [9; 9; 9; 9] 0 53 ++ [2]); Down (mkUDPAddr [8; 8; 8; 8] 53) [3]] newAssoc =
    Ret (st, [ToDst (mkUDPAddr [8; 8; 8; 8] 53) [1]; ToDst (mkUDPAddr [9; 9; 9; 9] 53) [2];
              ToTunnel (v4Header [9; 9; 9; 9] 0 53 ++ [3])]).
Proof.
  apply (udp_reply_mislabelled (λ _, Err ErrTimeout) [8; 8; 8; 8] 0 53 [1] [9; 9; 9; 9] 0 53 [2] [3]);
    first [reflexivity | unfold in_u8; lia | vm_compute; discriminate].
Defined.

(** The two bytes of a port. *)
Lemma port_bytes q0 q1 : in_u8 q0 → in_u8 q1 →
  let port := Z.lor (Z.shiftl q0 8) q1 in
  in_u16 port ∧ u8 (Z.shiftr port 8) = q0 ∧ u8 port = q1.
Proof.
  intros H0 H1 port. unfold port. rewrite <- port_add_lor, Z.shiftl_mul_pow2, Z.shiftr_div_pow2 by (done || lia).
  unfold in_u8, in_u16, u8 in *. change (2 ^ 8) with 256 in *. change (2 ^ 16) with 65536.
  rewrite Z.div_add_l, (Z.div_small q1), Z.add_0_r, Z.mod_small by lia. split; [lia|]. split; [done|].
  rewrite Z.add_comm, Z.mod_add by lia. apply Z.mod_small. lia.
Qed.

Lemma udpAddrToHeader_v4 ip q0 q1 : len ip = 4 → in_u8 q0 → in_u8 q1 →
  udpAddrToHeader (mkUDPAddr ip (Z.lor (Z.shiftl q0 8) q1)) = v4Header ip q0 q1.
Proof.
  intros Hi H0 H1. destruct (port_bytes q0 q1 H0 H1) as (Hp & E0 & E1).
  unfold udpAddrToHeader. cbn [udpIP udpPort udpZone]. rewrite u16_small, E0, E1 by done.
  rewrite (To4_4 ip Hi). rewrite Hi. done.
Qed.

(** an association with one destination works.  When all packets of an
    association go to one IPv4 destination, every packet of the application
    reaches it, and every packet that comes back from it is delivered to the
    application under its address, in whatever order packets go up and down. *)
Theorem udp_single_destination lookupIP ip q0 q1 (es : list (bytes + bytes)) :
  len ip = 4 → in_u8 q0 → in_u8 q1 →
  Forall (λ e, match e with inl x => 0 < len x ≤ 65526 | inr _ => True end) es →
  let A := mkUDPAddr ip (Z.lor (Z.shiftl q0 8) q1) in
  ∃ st, assocRun lookupIP
      (map (λ e, match e with inl x => Up (v4Header ip q0 q1 ++ x) | inr d => Down A d end) es) newAssoc =
    Ret (st, map (λ e, match e with inl x => ToDst A x | inr d => ToTunnel (v4Header ip q0 q1 ++ d) end) es).
Proof.
  intros Hi H0 H1 Hes A. pose proof len_newAssoc as HL.
  assert (addrMap newAssoc !! addrKey A = None ∨ addrMap newAssoc !! addrKey A = Some (Own (v4Header ip q0 q1)) ∨
    addrMap newAssoc !! addrKey A = Some (InBuf 10) ∧ take 10 (rbuf newAssoc) = v4Header ip q0 q1) as HI.
  { left. apply lookup_empty. }
  revert HL HI. generalize newAssoc as st. induction Hes as [|e es He Hes IH]; intros st HL HI; [by eexists|].
  destruct e as [x|d]; cbn [map assocRun].
  - rewrite <- datagram_v4, upload_v4 by (done || lia). cbn [obind]. fold A.
    match goal with |- context [assocRun _ _ ?s] => destruct (IH s) as [st' E] end.
    + cbn [rbuf]. unfold len in *. rewrite length_blit; [done|]. rewrite datagram_v4, length_app, length_v4Header; [lia|]. unfold len; lia.
    + right. right. cbn [addrMap rbuf]. rewrite lookup_insert_eq. split; [done|]. by apply take_blit_header.
    + exists st'. rewrite E. done.
  - unfold downloadStep. destruct HI as [HI|[HI|[HI Ht]]]; rewrite HI.
    + destruct (IH (mkAssoc (rbuf st) (<[addrKey A:=Own (udpAddrToHeader A)]> (addrMap st)))) as [st' E]; [done| |].
      * right. left. cbn [addrMap]. rewrite lookup_insert_eq. unfold A. by rewrite udpAddrToHeader_v4.
      * exists st'. rewrite E. unfold A. rewrite udpAddrToHeader_v4 by done. done.
    + destruct (IH st) as [st' E]; [done|auto|]. exists st'. rewrite E. done.
    + change (Z.to_nat 10) with 10%nat. rewrite Ht.
      match goal with |- context [assocRun _ _ ?s] => destruct (IH s) as [st' E] end.
      * cbn [rbuf]. case_if; [|done]. bool_to_Z. unfold len in *. rewrite length_blit; lia.
      * right. right. cbn [addrMap rbuf]. split; [done|]. case_if; [|done].
        rewrite take_blit; [done|lia|unfold len in *; lia].
      * exists st'. rewrite E. done.
Qed.

Lemma udp_single_destination_witness :
  ∃ st, assocRun (λ _, Err ErrTimeout) [Down (mkUDPAddr [8; 8; 8; 8] 53) [9]; Up (v4Header [8; 8; 8; 8] 0 53 ++ [1]);
      Down (mkUDPAddr [8; 8; 8; 8] 53) [3]] newAssoc =
    Ret (st, [ToTunnel (v4Header [8; 8; 8; 8] 0 53 ++ [9]); ToDst (mkUDPAddr [8; 8; 8; 8] 53) [1];
              ToTunnel (v4Header [8; 8; 8; 8] 0 53 ++ [3])]).
Proof.
  apply (udp_single_destination (λ _, Err ErrTimeout) [8; 8; 8; 8] 0 53 [inr [9]; inl [1]; inr [3]]);
    first [reflexivity | unfold in_u8; lia | idtac].
  repeat apply List.Forall_cons; first [exact I | vm_compute; split; [reflexivity|discriminate] | apply List.Forall_nil].
Defined.

(** ** The datagram relay *)

Section Relay.
Context (lookupIP : bytes → outcome (list bytes)).

Definition newRelay : relay := mkRelay None ∅.

(** A run of the loop, with what it sent for each datagram. *)
Fixpoint relayRun (es : list (bool * UDPAddr * bytes)) (st : relay) : relay * list (option (UDPAddr * bytes)) :=
  match es with
  | [] => (st, [])
  | (ok, addr, pkt) :: es =>
      let '(st, o) := relayStep lookupIP ok addr pkt st in
      let '(st, os) := relayRun es st in (st, o :: os)
  end.

Lemma relayStep_client ok addr pkt st c :
  clientAddr st = Some c → clientAddr (relayStep lookupIP ok addr pkt st).1 = Some c.
Proof. intros H. unfold relayStep. rewrite H. repeat case_match; simpl; rewrite ?H; done. Qed.

Lemma relayStep_targets ok addr pkt st k :
  k ∈ targetAddrs (relayStep lookupIP ok addr pkt st).1 →
  k ∈ targetAddrs st ∨ ∃ dst payload, (relayStep lookupIP ok addr pkt st).2 = Some (dst, payload) ∧ addrKey dst = k.
Proof.
  unfold relayStep. intros H. repeat case_match; simpl in *; try (by left);
    (apply elem_of_union in H as [H|H]; [|by left]); apply elem_of_singleton in H as ->; right; eauto.
Qed.

Lemma relayRun_app es e st :
  relayRun (es ++ [e]) st =
    let '(st1, os) := relayRun es st in
    let '(st2, o) := relayStep lookupIP e.1.1 e.1.2 e.2 st1 in (st2, os ++ [o]).
Proof.
  revert st. induction es as [|[[ok a] p] es IH]; intros st; simpl.
  - destruct e as [[ok a] p]. simpl. by destruct (relayStep lookupIP ok a p st).
  - destruct (relayStep lookupIP ok a p st) as [st1 o]. rewrite IH. destruct (relayRun es st1) as [st2 os].
    by destruct (relayStep lookupIP e.1.1 e.1.2 e.2 st2).
Qed.

Lemma relayRun_targets es k :
  k ∈ targetAddrs (relayRun es newRelay).1 →
  ∃ dst payload, Some (dst, payload) ∈ (relayRun es newRelay).2 ∧ addrKey dst = k.
Proof.
  induction es as [|e es IH] using rev_ind; [set_solver|]. rewrite relayRun_app.
  destruct (relayRun es newRelay) as [st1 os] eqn:E1.
  pose proof (relayStep_targets e.1.1 e.1.2 e.2 st1 k) as Hs.
  destruct (relayStep lookupIP e.1.1 e.1.2 e.2 st1) as [st2 o]. simpl in *. intros Hk.
  destruct (Hs Hk) as [H|(dst & pl & -> & Hd)].
  - destruct (IH H) as (dst & pl & Hin & Hd). exists dst, pl. set_solver.
  - exists dst, pl. set_solver.
Qed.

(** C37: the datagram relay isolates its client.  After any sequence of datagrams,
    a datagram from an endpoint other than the client is passed on only if the
    client has sent to that endpoint before; it goes to the client and to nobody
    else, unchanged behind a header that names its source.  The client never
    changes once it is known, and what the client sends goes, without its header,
    to the destination that the header names. *)
Theorem datagram_relay_isolates es ok addr pkt c x b :
  clientAddr (relayRun es newRelay).1 = Some c →
  (relayStep lookupIP ok addr pkt (relayRun es newRelay).1).2 = Some (x, b) →
  clientAddr (relayStep lookupIP ok addr pkt (relayRun es newRelay).1).1 = Some c ∧
  if sameUDPAddr addr c then parseUDPAssociateDatagram lookupIP pkt = Ret (x, b)
  else x = c ∧ b = udpAddrToHeader addr ++ pkt ∧
    ∃ dst payload, Some (dst, payload) ∈ (relayRun es newRelay).2 ∧ addrKey dst = addrKey addr.
Proof.
  intros Hc Ho. split; [by apply relayStep_client|]. pose proof (relayRun_targets es (addrKey addr)) as Ht.
  destruct (relayRun es newRelay) as [st os]. simpl in *. unfold relayStep in Ho. rewrite Hc in Ho.
  destruct (sameUDPAddr addr c).
  - destruct (parseUDPAssociateDatagram lookupIP pkt) as [[dst pl]| |]; [|done..]. destruct ok; [|done]. by simplify_eq/=.
  - case_bool_decide; [|done]. destruct ok; [|done]. simplify_eq/=. auto.
Qed.

(** The relay, a client and a target: one question and its answer. *)
Lemma transceive_parse dst payload :
  addr_ok (mkAddr [] (udpIP dst) (udpPort dst)) → 0 < len (udpIP dst) → udpZone dst = [] →
  ∃ d, parseUDPAssociateDatagram lookupIP (transceiveRequest dst payload) = Ret (d, payload) ∧ addrKey d = addrKey dst.
Proof.
  intros Hok Hl Hz. destruct Hok as [Hp Hip]. cbn [IP Port FQDN] in *.
  destruct (u16_bytes (udpPort dst) Hp) as [_ Eport].
  assert (len (udpIP dst) = 4 ∨ len (udpIP dst) = 16) as Hip' by lia. clear Hip.
  set (w := (if 0 <? len (To4 (udpIP dst)) then Socks5IPv4Address :: To4 (udpIP dst) else Socks5IPv6Address :: To16 (udpIP dst)) ++
      [u8 (Z.shiftr (udpPort dst) 8); u8 (udpPort dst)]).
  assert (transceiveRequest dst payload = [0; 0; 0] ++ w ++ payload) as ->.
  { unfold transceiveRequest, w. by rewrite <- !(assoc_L (++)). }
  assert (∃ ip, readAddr zeroAddr (w ++ payload) = Ret (mkAddr [] ip (udpPort dst), payload) ∧
    7 ≤ len w ∧ (0 <? len (To4 ip)) || (0 <? len (To16 ip)) = true ∧ addrKey (mkUDPAddr ip (udpPort dst)) = addrKey dst)
    as (ip & Er & Hw & Hv & Hk).
  { unfold w. destruct (To4_len (udpIP dst)) as [H4|H4].
    - rewrite H4. change (0 <? 0) with false. cbn iota.
      assert (len (udpIP dst) = 16) as H16.
      { destruct Hip' as [E|E]; [|done]. unfold To4 in H4. rewrite E in H4. simpl in H4. lia. }
      assert (To16 (udpIP dst) = udpIP dst) as -> by (unfold To16; by rewrite H16).
      exists (udpIP dst). split; [|split; [rewrite len_app, len_cons, H16; unfold len; simpl; lia|split; [|unfold addrKey; cbn [udpIP udpPort udpZone]; by rewrite Hz]]].
      + unfold readAddr. cbn [app]. rewrite ReadFull_1. cbn [obind nth]. simpl Z.eqb. cbn iota.
        rewrite <- !(assoc_L (++)), (ReadFull_app (udpIP dst)) by done. cbn [obind app].
        rewrite ReadFull_2. cbn [obind nth FQDN IP]. by rewrite Eport.
      + rewrite H4. unfold To16. rewrite H16. change (16 =? 4) with false. change (16 =? 16) with true. cbn iota. by rewrite H16.
    - rewrite H4. change (0 <? 4) with true. cbn iota. exists (To4 (udpIP dst)).
      assert (To4 (To4 (udpIP dst)) = To4 (udpIP dst)) as E44 by (by apply To4_4).
      split; [|split; [rewrite len_app, len_cons, H4; unfold len; simpl; lia|split; [by rewrite E44, H4|]]].
      + unfold readAddr. cbn [app]. rewrite ReadFull_1. cbn [obind nth]. simpl Z.eqb. cbn iota.
        rewrite <- !(assoc_L (++)), (ReadFull_app (To4 (udpIP dst))) by done. cbn [obind app].
        rewrite ReadFull_2. cbn [obind nth FQDN IP]. by rewrite Eport.
      + unfold addrKey. cbn [udpIP udpPort udpZone]. by rewrite E44, H4, Hz. }
  exists (mkUDPAddr ip (udpPort dst)). split; [|done]. clearbody w.
  unfold parseUDPAssociateDatagram. pose proof (len_nonneg payload).
  rewrite (proj2 (Z.leb_gt _ 6)) by (rewrite !len_app; unfold len at 1; simpl; lia).
  cbn [app nth drop]. change (0 =? 0) with true. cbn [negb orb]. rewrite drop_0, Er. cbn [obind]. unfold resolveUDPAssociateDatagramAddr. cbn [IP Port].
  by rewrite Hv.
Qed.

Lemma transceiveResponse_skip h answer :
  nth 3 h 0 = Socks5IPv4Address ∧ len h = 10 ∨ nth 3 h 0 = Socks5IPv6Address ∧ len h = 22 → 0 < len answer →
  transceiveResponse (h ++ answer) = Ret answer.
Proof.
  intros Hh Ha. unfold transceiveResponse.
  assert (nth 3 (h ++ answer) 0 = nth 3 h 0) as -> by (apply app_nth1; unfold len in Hh; lia).
  assert (slice_range (h ++ answer) (len h) (len (h ++ answer)) = Ret answer) as Hs.
  { rewrite len_app. rewrite <- (app_nil_r answer) at 1. by apply slice_range_mid. }
  destruct Hh as [[-> E]|[-> E]]; rewrite E in Hs; rewrite len_app, E in *;
    rewrite (proj2 (Z.ltb_ge _ 4)) by lia; simpl Z.eqb; cbn iota; rewrite (proj2 (Z.leb_gt _ _)) by lia; exact Hs.
Qed.

(** a question and its answer through the datagram relay.  A packet that the
    client makes for a target leaves the relay as the bare payload for that target,
    and the answer of the target comes back to the client in a packet from which
    the client takes the answer. *)
Theorem transceive_through_relay c dst payload answer :
  addr_ok (mkAddr [] (udpIP dst) (udpPort dst)) → 0 < len (udpIP dst) → udpZone dst = [] → 0 < len answer → sameUDPAddr dst c = false →
  ∃ d packet, relayRun [(true, c, transceiveRequest dst payload); (true, dst, answer)] newRelay =
      (mkRelay (Some c) {[ addrKey dst ]}, [Some (d, payload); Some (c, packet)]) ∧
    addrKey d = addrKey dst ∧ transceiveResponse packet = Ret answer.
Proof.
  intros Hok Hl Hz Ha Hne. destruct (transceive_parse dst payload Hok Hl Hz) as (d & Ep & Hk).
  exists d, (udpAddrToHeader dst ++ answer). split; [|split; [done|]].
  - unfold newRelay. cbn [relayRun]. unfold relayStep. cbn [clientAddr]. rewrite Ep. cbn [clientAddr targetAddrs default]. rewrite Hne, Hk.
    rewrite bool_decide_true by set_solver. f_equal. f_equal. by rewrite (right_id_L ∅ (∪)).
  - unfold udpAddrToHeader. destruct Hok as [Hp Hip]. cbn [IP FQDN] in Hip.
    destruct (To4_len (udpIP dst)) as [H4|H4]; rewrite H4.
    + assert (len (To16 (udpIP dst)) = 16) as H16.
      { unfold To4 in H4. unfold To16. destruct Hip as [E|[E|[E _]]]; [|by rewrite E|lia].
        rewrite E in H4. simpl in H4. lia. }
      apply transceiveResponse_skip; [right|done]. split; [done|].
      change (0 <? 0) with false. cbn iota. rewrite !len_app, !len_cons, !len_nil, H16. done.
    + apply transceiveResponse_skip; [left|done]. split; [done|].
      change (0 <? 4) with true. cbn iota. rewrite !len_app, !len_cons, !len_nil, H4. done.
Qed.

End Relay.

Definition demoClient : UDPAddr := mkUDPAddr [127; 0; 0; 1] 40000.
Definition demoTarget : UDPAddr := mkUDPAddr [8; 8; 8; 8] 53.

Lemma datagram_relay_isolates_witness :
  (relayStep (λ _, Err ErrTimeout) true demoTarget [7]
     (relayRun (λ _, Err ErrTimeout) [(true, demoClient, transceiveRequest demoTarget [1])] newRelay).1).2 =
    Some (demoClient, udpAddrToHeader demoTarget ++ [7]) ∧
  clientAddr (relayStep (λ _, Err ErrTimeout) true demoTarget [7]
     (relayRun (λ _, Err ErrTimeout) [(true, demoClient, transceiveRequest demoTarget [1])] newRelay).1).1 = Some demoClient.
Proof.
  split; [vm_compute; reflexivity|].
  apply (datagram_relay_isolates (λ _, Err ErrTimeout) [(true, demoClient, transceiveRequest demoTarget [1])] true
    demoTarget [7] demoClient demoClient (udpAddrToHeader demoTarget ++ [7])); vm_compute; reflexivity.
Defined.

Lemma transceive_through_relay_witness :
  ∃ d packet, relayRun (λ _, Err ErrTimeout) [(true, demoClient, transceiveRequest demoTarget [1; 2]); (true, demoTarget, [3])] newRelay =
      (mkRelay (Some demoClient) {[ addrKey demoTarget ]}, [Some (d, [1; 2]); Some (demoClient, packet)]) ∧
    addrKey d = addrKey demoTarget ∧ transceiveResponse packet = Ret [3].
Proof.
  apply (transceive_through_relay (λ _, Err ErrTimeout) demoClient demoTarget [1; 2] [3]); try reflexivity.
  split; [split; [discriminate|reflexivity]|left; reflexivity].
Defined.

End SocksUDP.
Export SocksUDP.
