(* ===== verification/SocksRelay.v ===== *)
(** * Relays and the life of a socks5 server

    pkg/socks5/copy.go ([BidiCopySocks5]), pkg/common/copy.go ([BidiCopy]): the two
    goroutines of a relay as moves on a shared state, in any interleaving.
    pkg/socks5/socks5.go ([New], [Serve], [acceptLoop], [Close]): the accepted
    connections and the two channels of the server. *)

From S2P Require Import Prelude Socks.
From Stdlib Require Import ZifyBool.
Local Open Scope Z_scope.

Module SocksRelay.

(** ** The reply in front of the data *)

Inductive replyRead := ReplyShort | ReplyBad | ReplyOk (reply rest : bytes).

(** The reads of the reply header; the length of a name plus 2 is a sum of bytes. *)
Definition takeReply (n : Z) (s : bytes) : replyRead :=
  if len s <? n then ReplyShort else ReplyOk (take (Z.to_nat n) s) (drop (Z.to_nat n) s).
Definition readReply (s : bytes) : replyRead :=
  if len s <? 4 then ReplyShort
  else
    let respAddrType := nth 3 s 0 in
    if respAddrType =? Socks5IPv4Address then takeReply (4 + 6) s
    else if respAddrType =? Socks5FQDNAddress then
      if len s <? 5 then ReplyShort else takeReply (4 + 1 + u8 (nth 4 s 0 + 2)) s
    else if respAddrType =? Socks5IPv6Address then takeReply (4 + 18) s
    else ReplyBad.

(** ** The two goroutines of a relay *)

(** Up copies from the application to the proxy, down the other way.  The first
    phase is the one of [BidiCopySocks5] only. *)
Inductive upState := UpFirst | UpCopy | UpDone (e : option goerr).
Inductive downState := DownReply | DownCopy | DownDone (e : option goerr).

(** [fromApp], [fromProxy]: what is still to be read; [results]: the contents of
    errCh, with [None] for nil. *)
Record relay := mkRelay {
  fromApp : bytes; fromProxy : bytes; toApp : bytes; toProxy : bytes;
  appClosed : bool; proxyClosed : bool; up : upState; down : downState; results : list (option goerr) }.

(** A read of [n] bytes with the write of them, the end of the stream, a failure
    (of the read after which nothing is written, or of the write of [n] bytes of
    which [k] went out); the read of the reply. *)
Inductive move :=
  | UpRead (n : nat) | UpEnd | UpFail (n k : nat)
  | DownGot | DownRead (n : nat) | DownEnd | DownFail (n k : nat).

Section Relay.
(** The request in front of the data; whether each stream ends, or stays open and
    silent; whether the network can fail. *)
Context (pendingReq : bytes) (appEnds proxyEnds netErr : bool).

Definition bufSize : Z := 2 ^ 16.
Definition copySize : Z := 2 ^ 15.
Definition firstPart : bytes := if len pendingReq <=? bufSize then pendingReq else take (Z.to_nat bufSize) pendingReq.

Definition upHead (u : upState) : bytes := match u with UpFirst => firstPart | _ => [] end.
Definition upRoom (u : upState) : Z := match u with UpFirst => bufSize - len firstPart | UpCopy => copySize | UpDone _ => 0 end.
Definition upDone (s : relay) : bool := match up s with UpDone _ => true | _ => false end.
Definition downDone (s : relay) : bool := match down s with DownDone _ => true | _ => false end.

(** [proxyConn.Close(); errCh <- err] and [conn.Close(); errCh <- err]. *)
Definition endUp (out : bytes) (err : option goerr) (s : relay) : relay :=
  mkRelay [] (fromProxy s) (toApp s) (toProxy s ++ out) (appClosed s) true (UpDone err) (down s) (results s ++ [err]).
Definition endDown (out : bytes) (err : option goerr) (s : relay) : relay :=
  mkRelay (fromApp s) [] (toApp s ++ out) (toProxy s) true (proxyClosed s) (up s) (DownDone err) (results s ++ [err]).

Definition upErr (u : upState) : goerr :=
  match u with UpFirst => Errorf "failed to read connection request from the client: %w" | _ => Errorf "io.Copy" end.

Definition moveUp (m : move) (s : relay) : option relay :=
  match m with
  | UpRead n =>
      if negb (appClosed s) && negb (proxyClosed s) && (1 <=? n)%nat && (Z.of_nat n <=? upRoom (up s)) && (n <=? length (fromApp s))%nat then
        Some (mkRelay (drop n (fromApp s)) (fromProxy s) (toApp s) (toProxy s ++ upHead (up s) ++ take n (fromApp s))
                (appClosed s) (proxyClosed s) UpCopy (down s) (results s))
      else None
  | UpEnd =>
      if negb (appClosed s) && appEnds && (length (fromApp s) =? 0)%nat then
        Some (endUp [] (match up s with UpCopy => None | u => Some (upErr u) end) s)
      else None
  | UpFail n k =>
      if netErr || appClosed s || proxyClosed s then
        let out := if appClosed s || proxyClosed s then [] else take k (upHead (up s) ++ take n (fromApp s)) in
        Some (endUp out (Some (upErr (up s))) s)
      else None
  | _ => None
  end.

Definition moveDown (m : move) (s : relay) : option relay :=
  match m, down s with
  | DownGot, DownReply =>
      if proxyClosed s then None
      else match readReply (fromProxy s) with
           | ReplyOk _ rest => Some (mkRelay (fromApp s) rest (toApp s) (toProxy s) (appClosed s) (proxyClosed s) (up s) DownCopy (results s))
           | ReplyBad => Some (endDown [] (Some (Errorf "unsupported address type: %d")) s)
           | ReplyShort => if proxyEnds then Some (endDown [] (Some (Errorf "failed to read connection response from the server: %w")) s) else None
           end
  | DownRead n, DownCopy =>
      if negb (proxyClosed s) && negb (appClosed s) && (1 <=? n)%nat && (Z.of_nat n <=? copySize) && (n <=? length (fromProxy s))%nat then
        Some (mkRelay (fromApp s) (drop n (fromProxy s)) (toApp s ++ take n (fromProxy s)) (toProxy s)
                (appClosed s) (proxyClosed s) (up s) DownCopy (results s))
      else None
  | DownEnd, DownCopy =>
      if negb (proxyClosed s) && proxyEnds && (length (fromProxy s) =? 0)%nat then Some (endDown [] None s) else None
  | DownFail n k, (DownReply | DownCopy) as d =>
      if netErr || appClosed s || proxyClosed s then
        let out := match d with DownCopy => if appClosed s || proxyClosed s then [] else take k (take n (fromProxy s)) | _ => [] end in
        Some (endDown out (Some (Errorf "io.Copy")) s)
      else None
  | _, _ => None
  end.

(** A goroutine that is done moves no more. *)
Definition copyStep (m : move) (s : relay) : option relay :=
  match m with
  | UpRead _ | UpEnd | UpFail _ _ => if upDone s then None else moveUp m s
  | _ => moveDown m s
  end.
Fixpoint runRelay (ms : list move) (s : relay) : option relay :=
  match ms with [] => Some s | m :: ms => match copyStep m s with Some s => runRelay ms s | None => None end end.

(** [BidiCopySocks5] and [BidiCopy] at their start; they return the first of the
    two results. *)
Definition startSocks5 (app srv : bytes) : relay := mkRelay app srv [] [] false false UpFirst DownReply [].
Definition startCopy (app srv : bytes) : relay := mkRelay app srv [] [] false false UpCopy DownCopy [].
Definition returned (s : relay) : option (option goerr) := match results s with [e; _] => Some e | _ => None end.

(** What the application is to get. *)
Definition behindReply (srv : bytes) : bytes := match readReply srv with ReplyOk _ rest => rest | _ => [] end.
End Relay.

(** ** The server: socks5.go *)

(** The settings that [New] looks at; [None] is nil. *)
Record Config := mkConfig {
  UseProxy : bool; ProxyDialer : option Z; UDPMode : Z; HandshakeTimeout : Z; Resolver : option Z;
  Users : option (list bytes); EgressRules : option (list bytes) }.
Definition UDPModeSupported (m : Z) : bool := (m =? 0) || (m =? 1).

(** [defaultResolver]: the resolver of the standard library. *)
Definition New (defaultResolver : Z) (conf : Config) : outcome Config :=
  if UseProxy conf && bool_decide (ProxyDialer conf = None) then Err (Errorf "ProxyDialer must be set when proxy is enabled")
  else if negb (UDPModeSupported (UDPMode conf)) then Err (Errorf "unsupported UDP associate mode: %d")
  else Ret (mkConfig (UseProxy conf) (ProxyDialer conf) (UDPMode conf) (Z.max (HandshakeTimeout conf) 0)
              (Some (default defaultResolver (Resolver conf))) (Some (default [] (Users conf))) (Some (default [] (EgressRules conf)))).

(** Connections are numbers; [backlog]: what the listener still has to give;
    [held]: accepted, and not yet in the channel; [returned_]: what [Serve] has
    returned. *)
Record socksServer := mkServer {
  backlog : list Z; held : option Z; acceptEnded : bool; chAccept : list Z; chAcceptErr : list goerr;
  die : bool; listenerClosed : bool; serving : list Z; returned_ : option (option goerr) }.
Definition serve0 (conns : list Z) : socksServer := mkServer conns None false [] [] false false [] None.
Definition chAcceptCap : Z := 256.

Inductive serverMove := Accept | AcceptFails | Send | ServeNext | SeeError | SeeDie | Close.

Definition stuck : outcome socksServer := Err (Errorf "no move").

(** [acceptLoop]: the listener gives a connection or fails, the channel takes it. *)
Definition acceptMove (m : serverMove) (s : socksServer) : outcome socksServer :=
  let '(mkServer bl h ae ca ce d lc sv r) := s in
  match m, bl, h with
  | Accept, c :: bl, None => if ae || lc then stuck else Ret (mkServer bl (Some c) ae ca ce d lc sv r)
  | AcceptFails, _, None => if ae then stuck else Ret (mkServer bl h true ca (ce ++ [Errorf "accept"]) d lc sv r)
  | Send, _, Some c => if len ca <? chAcceptCap then Ret (mkServer bl None ae (ca ++ [c]) ce d lc sv r) else stuck
  | _, _, _ => stuck
  end.

(** [Serve]: one of the three cases of its loop, until it returns. *)
Definition serveMove (m : serverMove) (s : socksServer) : outcome socksServer :=
  let '(mkServer bl h ae ca ce d lc sv r) := s in
  match r, m, ca, ce with
  | None, ServeNext, c :: ca, _ => Ret (mkServer bl h ae ca ce d lc (sv ++ [c]) r)
  | None, SeeError, _, e :: ce => Ret (mkServer bl h ae ca ce d true sv (Some (Some e)))
  | None, SeeDie, _, _ => if d then Ret (mkServer bl h ae ca ce d true sv (Some None)) else stuck
  | _, _, _, _ => stuck
  end.

Definition closeServer (s : socksServer) : outcome socksServer :=
  let '(mkServer bl h ae ca ce d lc sv r) := s in
  if d then Panic "close of closed channel" else Ret (mkServer bl h ae ca ce true lc sv r).

Definition serverStep (m : serverMove) (s : socksServer) : outcome socksServer :=
  match m with
  | Accept | AcceptFails | Send => acceptMove m s
  | ServeNext | SeeError | SeeDie => serveMove m s
  | Close => closeServer s
  end.
Fixpoint runServer (ms : list serverMove) (s : socksServer) : outcome socksServer :=
  match ms with [] => Ret s | m :: ms => let! s := serverStep m s in runServer ms s end.

(** * Properties *)

Section Properties.
Context (nowait : bool) (pendingReq : bytes) (appEnds proxyEnds netErr : bool) (app srv : bytes).

Definition startRelay : relay := if nowait then startSocks5 app srv else startCopy app srv.
(** What each end is to get. *)
Definition goalUp : bytes := (if nowait then firstPart pendingReq else []) ++ app.
Definition goalDown : bytes := if nowait then behindReply srv else srv.

Definition up_ok (s : relay) : Prop :=
  match up s with
  | UpFirst => nowait = true ∧ toProxy s = [] ∧ fromApp s = app
  | UpCopy => toProxy s ++ fromApp s = goalUp
  | UpDone None => toProxy s = goalUp
  | UpDone (Some _) => toProxy s `prefix_of` goalUp
  end.
Definition down_ok (s : relay) : Prop :=
  match down s with
  | DownReply => nowait = true ∧ toApp s = [] ∧ fromProxy s = srv
  | DownCopy => toApp s ++ fromProxy s = goalDown
  | DownDone None => toApp s = goalDown
  | DownDone (Some _) => toApp s `prefix_of` goalDown
  end.
(** Each goroutine closes the connection it writes to when it is done, and no other
    does. *)
Record relay_ok (s : relay) : Prop := {
  rk_up : up_ok s; rk_down : down_ok s; rk_proxy : proxyClosed s = upDone s; rk_app : appClosed s = downDone s;
  rk_results : length (results s) = ((if upDone s then 1 else 0) + (if downDone s then 1 else 0))%nat }.

Notation step := (copyStep pendingReq appEnds proxyEnds netErr).
Notation run := (runRelay pendingReq appEnds proxyEnds netErr).

Lemma start_ok : relay_ok startRelay.
Proof.
  unfold startRelay. destruct nowait eqn:E; (split; [unfold up_ok, goalUp|unfold down_ok, goalDown|reflexivity..]); cbn; rewrite ?E; [split_and!; reflexivity..|reflexivity|reflexivity].
Qed.

Lemma up_goal s : up_ok s → upDone s = false → toProxy s ++ upHead pendingReq (up s) ++ fromApp s = goalUp.
Proof.
  unfold up_ok, upDone, goalUp. destruct (up s); cbn; [|done|done]. intros (-> & -> & ->) _. reflexivity.
Qed.

Lemma take_relay_prefix {A} n (l : list A) : take n l `prefix_of` l.
Proof. exists (drop n l). by rewrite take_drop. Qed.

Lemma up_step_ok m s s' : relay_ok s → upDone s = false → moveUp pendingReq appEnds netErr m s = Some s' → relay_ok s'.
Proof.
  intros [Hu Hd Hp Ha Hr] Hn Hm. pose proof (up_goal s Hu Hn) as Hg. rewrite Hn in *. unfold moveUp in Hm. destruct m as [n| |n k| | | |]; try discriminate.
  - case_if_in Hm; [|discriminate]. injection Hm as <-. split; [|done|done|done|done]. unfold up_ok. cbn. rewrite <- Hg, <- !app_assoc. by rewrite take_drop.
  - case_if_in Hm; [|discriminate]. injection Hm as <-. split; [|done|done|done|cbn; rewrite length_app, Hr; cbn; unfold downDone; cbn; lia].
    unfold up_ok. cbn. rewrite app_nil_r. assert (Hz : fromApp s = []) by (destruct (fromApp s); [done|cbn in *; lia]). rewrite Hz, app_nil_r in Hg.
    destruct (up s) eqn:Eu; cbn in Hg; rewrite ?app_nil_r in Hg; [by exists (firstPart pendingReq)|done|unfold upDone in Hn; by rewrite Eu in Hn].
  - case_if_in Hm; [|discriminate]. injection Hm as <-. split; [|done|done|done|cbn; rewrite length_app, Hr; cbn; unfold downDone; cbn; lia].
    unfold up_ok. cbn. rewrite <- Hg. apply prefix_app. case_if; [apply prefix_nil|]. etrans; [apply take_relay_prefix|]. apply prefix_app, take_relay_prefix.
Qed.

Lemma down_step_ok m s s' : relay_ok s → moveDown proxyEnds netErr m s = Some s' → relay_ok s'.
Proof.
  intros [Hu Hd Hp Ha Hr] Hm. unfold moveDown in Hm. unfold down_ok in Hd. unfold downDone in *.
  assert (Hend : ∀ out e, toApp s ++ out `prefix_of` goalDown → (e = None → toApp s ++ out = goalDown) →
    match down s with DownDone _ => False | _ => True end → relay_ok (endDown out e s)).
  { intros out e H1 H2 H3. split; [done| |done|done|]; unfold down_ok, downDone; cbn; [destruct e; [done|by apply H2]|].
    rewrite length_app, Hr. destruct (down s); [..|done]; unfold upDone; cbn; lia. }
  destruct m as [| |n k| |n| |n k]; try discriminate; destruct (down s) eqn:Ed; try discriminate.
  - destruct Hd as (Hw & Ht & Hf). case_if_in Hm; [discriminate|]. destruct (readReply (fromProxy s)) as [| |rp rest] eqn:Er.
    + case_if_in Hm; [|discriminate]. injection Hm as <-. apply Hend; [rewrite Ht; apply prefix_nil|done|done].
    + injection Hm as <-. apply Hend; [rewrite Ht; apply prefix_nil|done|done].
    + injection Hm as <-. split; [done| |done|done|done]. unfold down_ok, goalDown, behindReply. cbn. rewrite Hw, <- Hf, Er, Ht. done.
  - case_if_in Hm; [|discriminate]. injection Hm as <-. split; [done| |done|done|done]. unfold down_ok. cbn. rewrite <- app_assoc, take_drop. done.
  - case_if_in Hm; [|discriminate]. injection Hm as <-. assert (Hz : fromProxy s = []) by (destruct (fromProxy s); [done|cbn in *; lia]). rewrite Hz, app_nil_r in Hd. apply Hend; [|intros _|done]; by rewrite app_nil_r, ?Hd.
  - destruct Hd as (Hw & Ht & Hf). case_if_in Hm; [|discriminate]. injection Hm as <-. apply Hend; [rewrite Ht; apply prefix_nil|done|done].
  - case_if_in Hm; [|discriminate]. injection Hm as <-. apply Hend; [|done|done]. rewrite <- Hd. apply prefix_app. case_if; [apply prefix_nil|]. etrans; apply take_relay_prefix.
Qed.

Lemma relay_step_ok m s s' : relay_ok s → step m s = Some s' → relay_ok s'.
Proof.
  intros Hk Hm. unfold copyStep in Hm. destruct m; try (by eapply down_step_ok); (destruct (upDone s) eqn:E; [discriminate|]); by eapply up_step_ok.
Qed.

Lemma relay_run_ok ms s s' : relay_ok s → run ms s = Some s' → relay_ok s'.
Proof.
  revert s. induction ms as [|m ms IH]; intros s Hk Hr; cbn in Hr; [by injection Hr as <-|]. destruct (step m s) as [s1|] eqn:E; [|discriminate]. eapply IH; [|done]. by eapply relay_step_ok.
Qed.

(** What each end has at any time. *)
Lemma relay_run_copies ms s : run ms startRelay = Some s →
  toProxy s `prefix_of` goalUp ∧ toApp s `prefix_of` goalDown ∧
  (up s = UpCopy → toProxy s ++ fromApp s = goalUp) ∧ (down s = DownCopy → toApp s ++ fromProxy s = goalDown) ∧
  (up s = UpDone None → toProxy s = goalUp) ∧ (down s = DownDone None → toApp s = goalDown).
Proof.
  intros Hr. destruct (relay_run_ok _ _ _ start_ok Hr) as [Hu Hd _ _ _]. unfold up_ok in Hu. unfold down_ok in Hd. split_and!.
  - destruct (up s) as [| |[e|]]; [destruct Hu as (_ & -> & _); apply prefix_nil|rewrite <- Hu; by apply prefix_app_r|done|by rewrite Hu].
  - destruct (down s) as [| |[e|]]; [destruct Hd as (_ & -> & _); apply prefix_nil|rewrite <- Hd; by apply prefix_app_r|done|by rewrite Hd].
  - by intros E; rewrite E in Hu.
  - by intros E; rewrite E in Hd.
  - by intros E; rewrite E in Hu.
  - by intros E; rewrite E in Hd.
Qed.

(** ** A relay ends *)

Definition weight (s : relay) : nat :=
  (length (fromApp s) + length (fromProxy s) + match up s with UpFirst => 2 | UpCopy => 1 | UpDone _ => 0 end
   + match down s with DownReply => 2 | DownCopy => 1 | DownDone _ => 0 end)%nat.

Lemma takeReply_shorter n s0 rp rest : takeReply n s0 = ReplyOk rp rest → (length rest ≤ length s0)%nat.
Proof. unfold takeReply. case_if; [discriminate|]. intros [= _ <-]. rewrite length_drop. lia. Qed.
Lemma readReply_shorter s0 rp rest : readReply s0 = ReplyOk rp rest → (length rest ≤ length s0)%nat.
Proof. unfold readReply. repeat case_if; try discriminate; apply takeReply_shorter. Qed.

Lemma step_lighter m s s' : step m s = Some s' → (weight s' < weight s)%nat.
Proof.
  intros Hm. unfold copyStep in Hm. destruct m as [n| |n k| |n| |n k]; unfold upDone, moveUp, moveDown in Hm; try (destruct (up s) eqn:Eu; [..|discriminate]); try (destruct (down s) eqn:Ed; try discriminate).
  all: repeat case_if_in Hm; try discriminate; try (injection Hm as <-).
  all: try (unfold weight, endUp, endDown; cbn; rewrite ?length_drop, ?Eu, ?Ed; lia).
  all: destruct (readReply (fromProxy s)) as [| |rp rest] eqn:Er; try discriminate; injection Hm as <-; unfold weight, endDown; cbn; rewrite ?Ed; try lia.
  all: apply readReply_shorter in Er; lia.
Qed.

Lemma run_bounded ms s s' : run ms s = Some s' → (length ms + weight s' ≤ weight s)%nat.
Proof.
  revert s. induction ms as [|m ms IH]; intros s Hr; cbn in Hr |- *; [injection Hr as <-; lia|]. destruct (step m s) as [s1|] eqn:E; [|discriminate].
  apply IH in Hr. apply step_lighter in E. lia.
Qed.

Lemma up_moves s : relay_ok s → appEnds = true → len pendingReq < bufSize → upDone s = false → ∃ m s', step m s = Some s'.
Proof.
  intros [Hu _ Hp _ _] He Hq Hn. rewrite Hn in Hp. destruct (appClosed s) eqn:Ea.
  { exists (UpFail 0 0). unfold copyStep. rewrite Hn. unfold moveUp. rewrite Ea, orb_true_r. eauto. }
  destruct (fromApp s) as [|x l] eqn:Ef.
  { exists UpEnd. unfold copyStep. rewrite Hn. unfold moveUp. rewrite Ea, He, Ef. cbn. eauto. }
  exists (UpRead 1). unfold copyStep. rewrite Hn. unfold moveUp. rewrite Ea, Hp, Ef. unfold upDone in Hn.
  destruct (up s); [|cbn; eauto|done]. assert (Hroom : (Z.of_nat 1 <=? upRoom pendingReq UpFirst) = true).
  { unfold upRoom, firstPart. rewrite (proj2 (Z.leb_le (len pendingReq) bufSize)) by lia. apply Z.leb_le. lia. }
  rewrite Hroom. cbn. eauto.
Qed.

Lemma down_moves s : relay_ok s → proxyEnds = true → downDone s = false → ∃ m s', step m s = Some s'.
Proof.
  intros [_ Hd _ Ha _] He Hn. rewrite Hn in Ha. unfold downDone in Hn. destruct (proxyClosed s) eqn:Ep.
  { exists (DownFail 0 0). unfold copyStep, moveDown. rewrite Ep, orb_true_r. destruct (down s); [eauto..|done]. }
  destruct (down s) eqn:Ed; [|destruct (fromProxy s) as [|x l] eqn:Ef|done].
  - exists DownGot. unfold copyStep, moveDown. rewrite Ed, Ep, He. destruct (readReply (fromProxy s)); eauto.
  - exists DownEnd. unfold copyStep, moveDown. rewrite Ed, Ep, He, Ef. cbn. eauto.
  - exists (DownRead 1). unfold copyStep, moveDown. rewrite Ed, Ep, Ha, Ef. cbn. eauto.
Qed.

(** When both streams end, every run is finite and a run that stops has returned. *)
Theorem relay_finishes ms s : appEnds = true → proxyEnds = true → len pendingReq < bufSize → run ms startRelay = Some s →
  len ms ≤ len app + len srv + 4 ∧ ((∃ m s', step m s = Some s') ∨ is_Some (returned s)).
Proof.
  intros Hae Hpe Hq Hr. pose proof (relay_run_ok _ _ _ start_ok Hr) as Hk. split.
  - apply run_bounded in Hr. assert (weight startRelay ≤ length app + length srv + 4)%nat by (unfold startRelay, weight; destruct nowait; cbn; lia). unfold len. lia.
  - destruct (upDone s) eqn:Eu; [|left; by apply up_moves]. destruct (downDone s) eqn:Ed; [|left; by apply down_moves]. right.
    pose proof (rk_results _ Hk) as Hl. rewrite Eu, Ed in Hl. unfold returned. destruct (results s) as [|e1 [|e2 [|]]]; try discriminate. eauto.
Qed.
End Properties.

(** ** What a relay copies *)

(** The replies of a socks5 server (RFC 1928, section 6): the address it bound is an
    IPv4 address, an IPv6 address or a name, and a port of two bytes follows.  A
    name has at most 253 bytes here: the reader is wrong about longer ones. *)
Inductive boundReply : bytes → Prop :=
| reply_v4 ver rep rsv addr port : len addr = 4 → len port = 2 → boundReply ([ver; rep; rsv; 1] ++ addr ++ port)
| reply_v6 ver rep rsv addr port : len addr = 16 → len port = 2 → boundReply ([ver; rep; rsv; 4] ++ addr ++ port)
| reply_name ver rep rsv name port : len name ≤ 253 → len port = 2 → boundReply ([ver; rep; rsv; 3; len name] ++ name ++ port).

Lemma takeReply_app n r data : len r = n → takeReply n (r ++ data) = ReplyOk r data.
Proof.
  intros <-. unfold takeReply. rewrite len_app. pose proof (len_nonneg data). rewrite (proj2 (Z.ltb_ge _ _)) by lia.
  unfold len. by rewrite Nat2Z.id, take_app_length, drop_app_length.
Qed.

Lemma readReply_bound r data : boundReply r → readReply (r ++ data) = ReplyOk r data.
Proof.
  intros [ver rep rsv addr port Ha Hp|ver rep rsv addr port Ha Hp|ver rep rsv name port Ha Hp]; unfold readReply;
    pose proof (len_nonneg data); rewrite !len_app, Hp, ?Ha.
  - change (len [ver; rep; rsv; 1]) with 4. rewrite (proj2 (Z.ltb_ge _ _)) by lia. change (nth 3 _ 0) with 1. cbn [Z.eqb Pos.eqb Socks5IPv4Address].
    apply takeReply_app. rewrite !len_app, Ha, Hp. reflexivity.
  - change (len [ver; rep; rsv; 4]) with 4. rewrite (proj2 (Z.ltb_ge _ _)) by lia. change (nth 3 _ 0) with 4.
    apply takeReply_app. rewrite !len_app, Ha, Hp. reflexivity.
  - change (len [ver; rep; rsv; 3; len name]) with 5. pose proof (len_nonneg name). rewrite !(proj2 (Z.ltb_ge (_ + _) _)) by lia. change (nth 3 _ 0) with 3. change (nth 4 _ 0) with (len name).
    change (3 =? Socks5IPv4Address) with false. change (3 =? Socks5FQDNAddress) with true. cbv iota.
    apply takeReply_app. rewrite !len_app, Hp. change (len [ver; rep; rsv; 3; len name]) with 5. rewrite u8_small by (unfold in_u8; lia). lia.
Qed.

(** C27: in every interleaving each end gets a prefix of what it is to get.  The
    proxy gets the request, where one is pending, and then the data of the
    application; the application gets the data of the server, which begins right
    behind the reply where one is awaited.  Nothing is lost while both directions
    run, and a direction that ends without an error has delivered everything.  A
    pending request has at most 65536 bytes, and the reply is one of RFC 1928 whose
    bound name, if it has one, is of at most 253 bytes. *)
Theorem relay_copies nowait request reply appEnds proxyEnds netErr app data ms s :
  (nowait = true → len request ≤ 65536 ∧ boundReply reply) →
  runRelay request appEnds proxyEnds netErr ms (if nowait then startSocks5 app (reply ++ data) else startCopy app data) = Some s →
  let sent := (if nowait then request else []) ++ app in
  toProxy s `prefix_of` sent ∧ toApp s `prefix_of` data ∧
  (up s = UpCopy → toProxy s ++ fromApp s = sent) ∧ (down s = DownCopy → toApp s ++ fromProxy s = data) ∧
  (up s = UpDone None → toProxy s = sent) ∧ (down s = DownDone None → toApp s = data).
Proof.
  intros Hn Hr. cbv zeta. set (srv := if nowait then reply ++ data else data).
  assert (Hup : goalUp nowait request app = (if nowait then request else []) ++ app).
  { unfold goalUp, firstPart, bufSize. destruct nowait; [|done]. destruct (Hn eq_refl) as [Hl _]. change (2 ^ 16) with 65536. by rewrite (proj2 (Z.leb_le _ _) Hl). }
  assert (Hdown : goalDown nowait srv = data).
  { unfold goalDown, srv, behindReply. destruct nowait; [|done]. destruct (Hn eq_refl) as [_ Hb]. by rewrite readReply_bound. }
  rewrite <- Hup. assert (Hstart : startRelay nowait app srv = if nowait then startSocks5 app (reply ++ data) else startCopy app data) by (unfold startRelay, srv; by destruct nowait).
  rewrite <- Hstart in Hr. pose proof (relay_run_copies nowait request appEnds proxyEnds netErr app srv ms s Hr) as H. by rewrite Hdown in H.
Qed.

(** ** What a relay does not do *)

(** In the mode without a wait the request leaves with the first bytes of the
    application: while it is silent, nothing is sent. *)
Theorem silent_application_not_dialled pendingReq proxyEnds ms srv s :
  runRelay pendingReq false proxyEnds false ms (startSocks5 [] srv) = Some s → toProxy s = [].
Proof.
  assert (Hi : ∀ ms s0 s, toProxy s0 = [] ∧ fromApp s0 = [] → runRelay pendingReq false proxyEnds false ms s0 = Some s → toProxy s = []).
  { clear. intros ms. induction ms as [|m ms IH]; intros s0 s [Ht Hf] Hr; cbn in Hr; [by injection Hr as <-|].
    destruct (copyStep pendingReq false proxyEnds false m s0) as [s1|] eqn:E; [|discriminate]. apply (IH s1); [|done]. unfold copyStep, moveUp, moveDown in E.
    destruct m as [n| |n k| |n| |n k].
    1-3: destruct (upDone s0); [discriminate|].
    4-7: destruct (down s0); try discriminate.
    - rewrite Hf in E. case_if_in E; [exfalso; cbn [length] in *; lia|discriminate].
    - rewrite andb_false_r in E. discriminate.
    - case_if_in E; [|discriminate]. assert (appClosed s0 || proxyClosed s0 = true) as Hc by (by destruct (appClosed s0)). rewrite Hc in E. injection E as <-. cbn. by rewrite Ht.
    - case_if_in E; [discriminate|]. destruct (readReply (fromProxy s0)); [destruct proxyEnds; [|discriminate]|..]; injection E as <-; by cbn.
    - case_if_in E; [|discriminate]. injection E as <-. by cbn.
    - repeat case_if_in E; try discriminate; injection E as <-; by cbn.
    - repeat case_if_in E; try discriminate; injection E as <-; by cbn.
    - repeat case_if_in E; try discriminate; injection E as <-; by cbn. }
  intros Hr. eapply Hi; [|exact Hr]. done.
Qed.

(** An application that ends its side first loses what the server sends afterwards:
    the end of one direction closes the connection of the other. *)
Example half_close_loses : let srv := string_bytes "answer" in
  option_map (λ s, (toProxy s, toApp s, bool_decide (is_Some (returned s)))) (runRelay [] true true false [UpRead 3; UpEnd; DownFail 0 0] (startCopy (string_bytes "ask") srv))
  = Some (string_bytes "ask", [], true).
Proof. reflexivity. Qed.

(** A reply with a name of 254 bytes: the name and the port are taken for data. *)
Theorem long_bind_name_leaks name rest : len name = 254 → behindReply ([5; 0; 0; 3; 254] ++ name ++ rest) = name ++ rest.
Proof.
  intros Hn. pose proof (len_nonneg rest). set (s := [5; 0; 0; 3; 254] ++ name ++ rest). assert (Hs : len s = 259 + len rest) by (unfold s; rewrite !len_app, Hn; change (len [5; 0; 0; 3; 254]) with 5; lia).
  unfold behindReply, readReply, takeReply. change (nth 3 s 0) with 3. change (nth 4 s 0) with 254. rewrite Hs. change (4 + 1 + u8 (254 + 2)) with 5.
  rewrite !(proj2 (Z.ltb_ge _ _)) by lia. reflexivity.
Qed.

Lemma relay_copies_witness : let req := [5; 1; 0; 1; 1; 2; 3; 4; 0; 80] in let reply := [5; 0; 0; 1; 0; 0; 0; 0; 0; 0] in
  ∃ s, runRelay req true true false [UpRead 2; DownGot; UpRead 1; DownRead 4; DownEnd; UpFail 0 0] (startSocks5 (string_bytes "GET") (reply ++ string_bytes "page")) = Some s ∧
  toProxy s `prefix_of` req ++ string_bytes "GET" ∧ toApp s = string_bytes "page".
Proof.
  cbn zeta. eexists. split; [vm_compute; reflexivity|].
  edestruct (relay_copies true [5; 1; 0; 1; 1; 2; 3; 4; 0; 80] [5; 0; 0; 1; 0; 0; 0; 0; 0; 0] true true false (string_bytes "GET") (string_bytes "page")
    [UpRead 2; DownGot; UpRead 1; DownRead 4; DownEnd; UpFail 0 0]) as (H1 & _ & _ & _ & _ & H6).
  - intros _. split; [vm_compute; discriminate|exact (reply_v4 5 0 0 [0; 0; 0; 0] [0; 0] eq_refl eq_refl)].
  - vm_compute. reflexivity.
  - split; [exact H1|apply H6; reflexivity].
Defined.

(** ** The connections of a server *)

(** Every connection is served at most once, in the order of the listener, and none
    is lost on the way: it is being served, waits, or is still with the listener. *)
Theorem connections_in_order ms conns s : runServer ms (serve0 conns) = Ret s →
  serving s ++ chAccept s ++ option_list (held s) ++ backlog s = conns ∧ len (chAccept s) ≤ chAcceptCap.
Proof.
  assert (Hi : ∀ ms s0 s, serving s0 ++ chAccept s0 ++ option_list (held s0) ++ backlog s0 = conns ∧ len (chAccept s0) ≤ chAcceptCap → runServer ms s0 = Ret s →
    serving s ++ chAccept s ++ option_list (held s) ++ backlog s = conns ∧ len (chAccept s) ≤ chAcceptCap).
  { clear. intros ms. induction ms as [|m ms IH]; intros s0 s Hk Hr; cbn in Hr; [by injection Hr as <-|]. apply obind_ret_inv in Hr as (s1 & E & Hr). apply (IH s1); [|done].
    destruct s0 as [bl h ae ca ce d lc sv r]. destruct Hk as [Hk Hl]. cbn in Hk, Hl. destruct m; cbn in E; repeat (case_match; try discriminate); injection E as <-; cbn; rewrite <- Hk; try done.
    - rewrite <- !app_assoc. split; [done|]. rewrite len_app, len_cons, len_nil. lia.
    - rewrite <- !app_assoc. split; [done|]. rewrite len_cons in Hl. lia. }
  intros Hr. eapply Hi; [|done]. done.
Qed.

(** A server that is closed returns without an error, and leaves a waiting
    connection open and unserved; closing it twice panics. *)
Example close_leaves_waiting : match runServer [Accept; Send; Close; SeeDie] (serve0 [7]) with
  | Ret s => (returned_ s, listenerClosed s, chAccept s, serving s) = (Some None, true, [7], []) ∧ runServer [Close] s = Panic "close of closed channel"
  | _ => False
  end.
Proof. by split. Qed.

End SocksRelay.
Export SocksRelay.
