(* ===== verification/SocksForward.v ===== *)
(** * Forwarding datagrams to another proxy: pkg/socks5/udp.go, [RunUDPForwardingLoop]

    A server whose egress is another socks5 proxy relays the datagrams of a client:
    from the tunnel of the client to the UDP address that the proxy gave, and from its
    own UDP socket back into the tunnel, until the control connection to the proxy
    ends.  Three goroutines take their steps in any order; a run is a list of moves.
    What the peers send is given: the packets in the tunnel, and the datagrams with
    their senders. *)

From S2P Require Import Prelude.
Local Open Scope Z_scope.

Module SocksForward.

Inductive loopEnd := Running | Done.
Definition running (l : loopEnd) : bool := match l with Running => true | Done => false end.

Section Forward.
Context (packet address : Type).

(** What is still to come, what was sent, which connections are closed, the three
    goroutines, and the first error. *)
Record forwarding := mkForwarding {
  f_tunnelIn : list packet;              (** from the client *)
  f_tunnelEnds : bool;                   (** the client closes behind them *)
  f_udpIn : list (address * packet);     (** datagrams that arrive *)
  f_ctrlEnds : bool;                     (** the proxy ends or writes to the control connection *)
  f_udpOut : list packet;                (** to the proxy *)
  f_tunnelOut : list packet;             (** to the client *)
  f_errors : Z;                          (** datagrams that could not be sent *)
  f_connClosed : bool; f_udpClosed : bool; f_ctrlClosed : bool;
  f_ctrl : loopEnd; f_up : loopEnd; f_down : loopEnd;
  f_err : option goerr
}.

Inductive forwardMove :=
| CtrlRead (err : option goerr)           (** the read of the control connection returns *)
| UpPacket (sent : bool)                  (** a packet of the client; [sent]: WriteToUDP succeeds *)
| UpEnds (err : goerr)                    (** the read of the tunnel fails *)
| DownPacket (written : option goerr)     (** a datagram; the error of writing it to the tunnel *)
| DownEnds (err : goerr).                 (** the read of the UDP socket fails *)

(** [udpErr.Load() == nil], then [Store]. *)
Definition keepErr (e : option goerr) (s : forwarding) : option goerr := match f_err s with None => e | Some _ => f_err s end.

(** [None]: the goroutine waits. *)
Definition forwardStep (mv : forwardMove) (s : forwarding) : option forwarding :=
  match mv with
  | CtrlRead err =>
      if running (f_ctrl s) && f_ctrlEnds s then
        Some (mkForwarding (f_tunnelIn s) (f_tunnelEnds s) (f_udpIn s) (f_ctrlEnds s) (f_udpOut s) (f_tunnelOut s) (f_errors s)
                true true (f_ctrlClosed s) Done (f_up s) (f_down s) (keepErr err s))
      else None
  | UpPacket sent =>
      match f_up s, f_connClosed s, f_tunnelIn s with
      | Running, false, p :: l =>
          if f_udpClosed s && sent then None
          else Some (mkForwarding l (f_tunnelEnds s) (f_udpIn s) (f_ctrlEnds s) (if sent then f_udpOut s ++ [p] else f_udpOut s) (f_tunnelOut s)
                       (if sent then f_errors s else f_errors s + 1) (f_connClosed s) (f_udpClosed s) (f_ctrlClosed s) (f_ctrl s) (f_up s) (f_down s) (f_err s))
      | _, _, _ => None
      end
  | UpEnds err =>
      if running (f_up s) && (f_connClosed s || (f_tunnelEnds s && bool_decide (length (f_tunnelIn s) = 0%nat))) then
        Some (mkForwarding (f_tunnelIn s) (f_tunnelEnds s) (f_udpIn s) (f_ctrlEnds s) (f_udpOut s) (f_tunnelOut s) (f_errors s)
                (f_connClosed s) true (f_ctrlClosed s) (f_ctrl s) Done (f_down s) (keepErr (Some err) s))
      else None
  | DownPacket written =>
      match f_down s, f_udpClosed s, f_udpIn s with
      | Running, false, (_, p) :: l =>
          match written with
          | None =>
              if f_connClosed s then None
              else Some (mkForwarding (f_tunnelIn s) (f_tunnelEnds s) l (f_ctrlEnds s) (f_udpOut s) (f_tunnelOut s ++ [p]) (f_errors s)
                           (f_connClosed s) (f_udpClosed s) (f_ctrlClosed s) (f_ctrl s) (f_up s) (f_down s) (f_err s))
          | Some e =>
              Some (mkForwarding (f_tunnelIn s) (f_tunnelEnds s) l (f_ctrlEnds s) (f_udpOut s) (f_tunnelOut s) (f_errors s)
                      (f_connClosed s) (f_udpClosed s) (f_ctrlClosed s) (f_ctrl s) (f_up s) Done (keepErr (Some e) s))
          end
      | _, _, _ => None
      end
  | DownEnds err =>
      if running (f_down s) && f_udpClosed s then
        Some (mkForwarding (f_tunnelIn s) (f_tunnelEnds s) (f_udpIn s) (f_ctrlEnds s) (f_udpOut s) (f_tunnelOut s) (f_errors s)
                (f_connClosed s) (f_udpClosed s) (f_ctrlClosed s) (f_ctrl s) (f_up s) Done (keepErr (Some err) s))
      else None
  end.

Fixpoint forwardRun (mvs : list forwardMove) (s : forwarding) : option forwarding :=
  match mvs with [] => Some s | mv :: mvs => forwardStep mv s ≫= forwardRun mvs end.

Definition forwarding0 (tunnel : list packet) (tunnelEnds : bool) (udp : list (address * packet)) (ctrlEnds : bool) : forwarding :=
  mkForwarding tunnel tunnelEnds udp ctrlEnds [] [] 0 false false false Running Running Running None.

(** [wg.Wait], then the control connection is closed and the first error returned. *)
Definition RunUDPForwardingLoop (mvs : list forwardMove) (s : forwarding) : option (option goerr * forwarding) :=
  match forwardRun mvs s with
  | Some s =>
      match f_ctrl s, f_up s, f_down s with
      | Done, Done, Done => Some (f_err s, mkForwarding (f_tunnelIn s) (f_tunnelEnds s) (f_udpIn s) (f_ctrlEnds s) (f_udpOut s) (f_tunnelOut s) (f_errors s)
                                             (f_connClosed s) (f_udpClosed s) true (f_ctrl s) (f_up s) (f_down s) (f_err s))
      | _, _, _ => None
      end
  | None => None
  end.

(** * Properties *)

(** Packets go on in order: those to the client are the datagrams so far, those to
    the proxy come from the packets of the client so far, except for the ones that
    could not be sent. *)
Record forward_ok (tunnel : list packet) (udp : list (address * packet)) (s : forwarding) : Prop := {
  fk_up : ∃ gone, tunnel = gone ++ f_tunnelIn s ∧ f_udpOut s `sublist_of` gone ∧ len gone = len (f_udpOut s) + f_errors s;
  fk_down : ∃ gone, udp = gone ++ f_udpIn s ∧ f_tunnelOut s `prefix_of` (snd <$> gone) ∧ (f_down s = Running → f_tunnelOut s = snd <$> gone);
  fk_ctrl : f_ctrl s = Done → f_connClosed s = true ∧ f_udpClosed s = true;
  fk_updone : f_up s = Done → f_udpClosed s = true
}.

Lemma forward_step_ok tunnel udp mv s s' : forward_ok tunnel udp s → forwardStep mv s = Some s' → forward_ok tunnel udp s'.
Proof.
  intros [(g1 & U1 & U2 & U3) (g2 & D1 & D2 & D3) C Ud]. destruct mv as [err|sent|err|written|err]; cbn [forwardStep].
  - case_if; [|done]. intros [= <-]. split; cbn; eauto.
  - destruct (f_up s); [|done]. destruct (f_connClosed s) eqn:Ec; [done|]. destruct (f_tunnelIn s) as [|p l] eqn:Et; [done|]. case_if; [done|]. intros [= <-]. split; cbn; eauto.
    exists (g1 ++ [p]). split_and!; [by rewrite <- app_assoc|destruct sent; [by apply sublist_app|by apply sublist_inserts_r]|].
    destruct sent; rewrite !len_app; change (len [p]) with 1; lia.
  - case_if; [|done]. intros [= <-]. split; cbn; eauto. intros Hc. destruct (C Hc). done.
  - destruct (f_down s) eqn:Ed; [|done]. destruct (f_udpClosed s) eqn:Eu; [done|]. destruct (f_udpIn s) as [|[a p] l] eqn:Ei; [done|]. specialize (D3 eq_refl). destruct written as [e|].
    + intros [= <-]. split; cbn; eauto. exists (g2 ++ [(a, p)]). split_and!; [by rewrite <- app_assoc| |done]. rewrite fmap_app, D3. by apply prefix_app_r.
    + destruct (f_connClosed s) eqn:Ec; [done|]. intros [= <-]. split; cbn; eauto. exists (g2 ++ [(a, p)]). rewrite fmap_app, <- D3. split_and!; [by rewrite <- app_assoc|done|done].
  - case_if; [|done]. intros [= <-]. split; cbn; eauto. exists g2. split_and!; done.
Qed.

Lemma forwardRun_ok tunnel udp mvs s s' : forward_ok tunnel udp s → forwardRun mvs s = Some s' → forward_ok tunnel udp s'.
Proof.
  revert s. induction mvs as [|mv mvs IH]; intros s Hs Hr; cbn in Hr; [by injection Hr as <-|]. destruct (forwardStep mv s) as [s1|] eqn:E; [|done]. cbn in Hr.
  eapply IH; [|done]. by eapply forward_step_ok.
Qed.

Lemma forwarding0_ok tunnel te udp ce : forward_ok tunnel udp (forwarding0 tunnel te udp ce).
Proof. split; cbn; [exists []; done|exists []; done|done|done]. Qed.

Theorem datagrams_forwarded mvs tunnel te udp ce s : forwardRun mvs (forwarding0 tunnel te udp ce) = Some s →
  (∃ gone, tunnel = gone ++ f_tunnelIn s ∧ f_udpOut s `sublist_of` gone ∧ len gone = len (f_udpOut s) + f_errors s) ∧
  f_tunnelOut s `prefix_of` (snd <$> udp).
Proof.
  intros Hr. destruct (forwardRun_ok tunnel udp _ _ _ (forwarding0_ok tunnel te udp ce) Hr) as [U (g & -> & D & _) _ _]. split; [done|].
  rewrite fmap_app. etrans; [exact D|]. by apply prefix_app_r.
Qed.

(** Moves that are left: every packet once, every goroutine ends once. *)
Definition left (s : forwarding) : nat :=
  (length (f_tunnelIn s) + length (f_udpIn s) + (if running (f_ctrl s) then 1 else 0) + (if running (f_up s) then 1 else 0) + (if running (f_down s) then 1 else 0))%nat.

Lemma step_left mv s s' : forwardStep mv s = Some s' → (left s' < left s)%nat.
Proof.
  intros E. unfold left. destruct mv as [err|sent|err|written|err]; cbn [forwardStep] in E.
  - destruct (f_ctrl s) eqn:Ec; cbn in E; [|done]. case_if_in E; [|done]. injection E as <-. cbn. lia.
  - destruct (f_up s) eqn:Eu, (f_connClosed s), (f_tunnelIn s) eqn:Et; try done. case_if_in E; [done|]. injection E as <-. cbn. rewrite ?Eu. cbn. lia.
  - destruct (f_up s) eqn:Eu; cbn in E; [|done]. case_if_in E; [|done]. injection E as <-. cbn. lia.
  - destruct (f_down s) eqn:Ed, (f_udpClosed s), (f_udpIn s) as [|[a p] l] eqn:Ei; try done. destruct written; [injection E as <-; cbn; lia|]. case_if_in E; [done|]. injection E as <-. cbn. rewrite ?Ed. cbn. lia.
  - destruct (f_down s) eqn:Ed; cbn in E; [|done]. case_if_in E; [|done]. injection E as <-. cbn. lia.
Qed.

Lemma run_left mvs s s' : forwardRun mvs s = Some s' → (length mvs + left s' ≤ left s)%nat.
Proof.
  revert s. induction mvs as [|mv mvs IH]; intros s Hr; cbn in *; [injection Hr as <-; lia|]. destruct (forwardStep mv s) as [s1|] eqn:E; [|done]. cbn in Hr.
  apply step_left in E. apply IH in Hr. lia.
Qed.

Lemma step_keeps_ends mv s s' : forwardStep mv s = Some s' → f_ctrlEnds s' = f_ctrlEnds s.
Proof. intros E. destruct mv as [err|sent|err|written|err]; cbn [forwardStep] in E; repeat case_match; simplify_eq; done. Qed.

Lemma run_keeps_ends mvs s s' : forwardRun mvs s = Some s' → f_ctrlEnds s' = f_ctrlEnds s.
Proof.
  revert s. induction mvs as [|mv mvs IH]; intros s Hr; cbn in *; [by injection Hr as <-|]. destruct (forwardStep mv s) as [s1|] eqn:E; [|done]. cbn in Hr.
  rewrite (IH _ Hr). by eapply step_keeps_ends.
Qed.

(** When the control connection ends, the loop ends: runs are finite, and a run that
    stops has returned. *)
Theorem forwarding_ends mvs tunnel te udp s : forwardRun mvs (forwarding0 tunnel te udp true) = Some s →
  len mvs ≤ len tunnel + len udp + 3 ∧ ((∃ mv s', forwardStep mv s = Some s') ∨ is_Some (RunUDPForwardingLoop mvs (forwarding0 tunnel te udp true))).
Proof.
  intros Hr. pose proof (forwardRun_ok tunnel udp _ _ _ (forwarding0_ok tunnel te udp true) Hr) as [_ _ C Ud]. pose proof (run_keeps_ends _ _ _ Hr) as He. cbn in He. split.
  - apply run_left in Hr. unfold left in Hr at 2. cbn in Hr. unfold len. lia.
  - unfold RunUDPForwardingLoop. rewrite Hr. destruct (f_ctrl s) eqn:Ec.
    + left. exists (CtrlRead None). cbn [forwardStep]. rewrite Ec, He. cbn. eauto.
    + destruct (C eq_refl) as [C1 C2]. destruct (f_up s) eqn:Eu; [left; exists (UpEnds ErrClosed); cbn [forwardStep]; rewrite Eu, C1; cbn; eauto|].
      destruct (f_down s) eqn:Ed; [left; exists (DownEnds ErrClosed); cbn [forwardStep]; rewrite Ed, C2; cbn; eauto|right; eauto].
Qed.

(** When only the client leaves, the loop stays: it ends the two relays, but waits for
    the control connection, which it would close only after that. *)
Theorem client_leaves_loop_stays mvs tunnel udp s : forwardRun mvs (forwarding0 tunnel true udp false) = Some s →
  f_ctrl s = Running ∧ f_ctrlClosed s = false ∧ RunUDPForwardingLoop mvs (forwarding0 tunnel true udp false) = None.
Proof.
  assert (Hall : ∀ mvs a b, f_ctrlEnds a = false → f_ctrl a = Running → f_ctrlClosed a = false → forwardRun mvs a = Some b → f_ctrl b = Running ∧ f_ctrlClosed b = false).
  { clear. induction mvs as [|mv mvs IH]; intros a b He Hc Hx Hr; cbn in Hr; [by injection Hr as <-|]. destruct (forwardStep mv a) as [a1|] eqn:E; [|done]. cbn in Hr.
    pose proof (step_keeps_ends _ _ _ E) as He1. apply (IH a1 b); [congruence| | |done].
    all: destruct mv as [err|sent|err|written|err]; cbn [forwardStep] in E; rewrite ?He, ?andb_false_r in E; repeat case_match; simplify_eq; done. }
  intros Hr. destruct (Hall mvs (forwarding0 tunnel true udp false) s eq_refl eq_refl eq_refl Hr) as [H1 H2]. split_and!; [done|done|]. unfold RunUDPForwardingLoop. by rewrite Hr, H1.
Qed.
End Forward.
Arguments forwarding0 {packet address}.
Arguments RunUDPForwardingLoop {packet address}.
Arguments forwardRun {packet address}.
Arguments f_tunnelOut {packet address}.

(** A datagram of anybody goes to the client: the sender is not compared with the
    address of the proxy. *)
Example stranger_reaches_client : f_tunnelOut <$> forwardRun [DownPacket None] (forwarding0 [] false [("stranger", 7)] true) = Some [7].
Proof. reflexivity. Qed.

End SocksForward.
Export SocksForward.
