(* ===== verification/Dns.v ===== *)
(** * apis/common/dns.go: resolvers and address resolution

    A resolver is a function from the network ("ip", "ip4", "ip6") and the host
    name to addresses.  Names are ASCII, on which [strings.ToLower] maps each
    byte on its own. *)

From S2P Require Import Prelude Socks Net SocksUDP.

Module Dns.

Definition Resolver : Type := string → bytes → outcome (list bytes).

Definition toLowerByte (b : Z) : Z := if (65 <=? b) && (b <=? 90) then b + 32 else b.
Definition trimDot (s : bytes) : bytes :=
  match last s with Some 46 => take (length s - 1) s | _ => s end.

Definition NormalizeDomainName (host : bytes) : bytes := trimDot (toLowerByte <$> host).

Definition NilLookupIP : Resolver := λ _ _, Err (Errorf "look up IP address of %s is not supported").

(** [HostMapResolver.LookupIP]; no resolver behind the map is [None]. *)
Definition HostMapLookupIP (hosts : gmap bytes bytes) (next : option Resolver) : Resolver := λ network host,
  match hosts !! NormalizeDomainName host with
  | Some ip =>
      if bool_decide (network = "") || bool_decide (network = "ip") then Ret [ip]
      else if bool_decide (network = "ip4") then Ret (if 0 <? len (To4 ip) then [To4 ip] else [])
      else if bool_decide (network = "ip6") then Ret (if 0 <? len (To4 ip) then [] else [To16 ip])
      else Err (Errorf "unknown network")
  | None =>
      match next with
      | None => Err (Errorf "look up IP address of %s is not supported")
      | Some r => r network host
      end
  end.

(** The part that [ResolveTCPAddr] and [ResolveUDPAddr] share once the query
    network is known. *)
Definition resolveHostPort (r : Resolver) (query : string) (address : bytes) : outcome UDPAddr :=
  let! (host, portStr) := SplitHostPort address in
  let! port := Atoi portStr in
  let ip := ParseIP host in
  if 0 <? len ip then Ret (mkUDPAddr ip port)
  else
    let! ips := r query host in
    match ips with
    | [] => Err (Errorf "IP address not found")
    | ip :: _ => Ret (mkUDPAddr ip port)
    end.

Definition queryNetwork (base network : string) : outcome string :=
  if bool_decide (network = base) || bool_decide (network = "") then Ret "ip"
  else if bool_decide (network = base +:+ "4") then Ret "ip4"
  else if bool_decide (network = base +:+ "6") then Ret "ip6"
  else Err (Errorf "unknown network").

(** A [net.TCPAddr] and a [net.UDPAddr] have the same fields. *)
Definition ResolveTCPAddr (r : Resolver) (network : string) (address : bytes) : outcome UDPAddr :=
  let! q := queryNetwork "tcp" network in resolveHostPort r q address.

Definition ResolveUDPAddrOn (r : Resolver) (network : string) (address : bytes) : outcome UDPAddr :=
  let! q := queryNetwork "udp" network in resolveHostPort r q address.

(** The relays resolve on network "udp". *)
Lemma ResolveUDPAddrOn_udp r address : ResolveUDPAddrOn r "udp" address = ResolveUDPAddr (r "ip") address.
Proof. reflexivity. Qed.

Lemma toLowerByte_idem b : toLowerByte (toLowerByte b) = toLowerByte b.
Proof. unfold toLowerByte. repeat case_if; bool_to_Z; done || lia. Qed.

(** Names that differ in case only are the same name. *)
Lemma NormalizeDomainName_case a b :
  toLowerByte <$> a = toLowerByte <$> b → NormalizeDomainName a = NormalizeDomainName b.
Proof. unfold NormalizeDomainName. by intros ->. Qed.

(** A mapped name resolves to its address, however it is spelled and whatever
    the resolver behind the map says. *)
Lemma host_map_overrides hosts next host port p ip :
  hosts !! NormalizeDomainName host = Some ip → ParseIP host = [] → Atoi port = Ret p →
  SplitHostPort (host ++ [58] ++ port) = Ret (host, port) →
  ResolveTCPAddr (HostMapLookupIP hosts next) "tcp" (host ++ [58] ++ port) = Ret (mkUDPAddr ip p).
Proof.
  intros Hm Hp Ha Hs.
  change (resolveHostPort (HostMapLookupIP hosts next) "ip" (host ++ [58] ++ port) = Ret (mkUDPAddr ip p)).
  unfold resolveHostPort. rewrite Hs. simpl obind. rewrite Ha. simpl obind. rewrite Hp. simpl.
  unfold HostMapLookupIP. by rewrite Hm.
Qed.

End Dns.
Export Dns.
