(* ===== verification/Mux.v ===== *)
(** * pkg/protocol/mux.go: underlays, endpoints and dialing

    The mux sees an underlay through the interface of underlay.go, here the
    class [MuxUnderlay] with its laws; [baseUnderlay] of UnderlayLoop is an
    instance.  Underlays are pointers: [store] holds the objects, [underlays]
    the identifiers in the mux's list, and a dial in progress keeps an
    identifier that may have left the list.  Times are int64 nanoseconds.
    The resolver, the dialers and the listeners are parameters; a random draw is
    an argument, the value that [mrand] returned. *)

From S2P Require Import Prelude Mathext Socks Net SocksUDP Dns Cipher Segment SessionState Session Scheduler UnderlayLoop.

Module Mux.

(** ** Data *)

(** common/addr.go: a [net.Addr]; the nil address is the empty one, which is
    what [NewUnderlayProperties] stores for it. *)
Record netAddr := mkNetAddr { Network : string; Str : bytes }.

Definition NilNetAddr : netAddr := mkNetAddr "" [].
Definition IsNilNetAddr (a : netAddr) : bool :=
  bool_decide (Network a = "") && bool_decide (Str a = []).

Record UnderlayProperties := mkProps {
  p_MTU : Z;
  p_TransportProtocol : TransportProtocol;
  p_LocalAddr : netAddr;
  p_RemoteAddr : netAddr
}.

#[global] Instance netAddr_eq_dec : EqDecision netAddr.
Proof. solve_decision. Defined.
#[global] Instance TransportProtocol_eq_dec : EqDecision TransportProtocol.
Proof. solve_decision. Defined.
#[global] Instance UnderlayProperties_eq_dec : EqDecision UnderlayProperties.
Proof. solve_decision. Defined.

Definition Users : Type := gmap string (list Quota).

(** ** What the mux uses of an underlay *)

Class MuxUnderlay (V T : Type) := {
  v_new : bool → Z → TransportProtocol → Users → V;      (** [newBaseUnderlay] *)
  v_MTU : V → Z;
  v_transport : V → TransportProtocol;
  v_SessionCount : V → Z;
  v_InBytes : V → Z;
  v_OutBytes : V → Z;
  v_Done : V → bool;
  v_setUsers : Users → V → V;
  v_Close : Z → V → outcome V;
  v_AddSession : Session T → string → V → option goerr * V
}.

Class MuxUnderlayLaws (V T : Type) `{MuxUnderlay V T} := {
  v_new_ok client mtu tp us :
    let v := v_new client mtu tp us in
    v_Done v = false ∧ v_SessionCount v = 0 ∧ v_transport v = tp ∧ v_MTU v = mtu;
  v_Close_ok now v v' : v_Close now v = Ret v' → v_Done v' = true;
  v_Close_empty now v : v_SessionCount v = 0 → ∃ v', v_Close now v = Ret v';
  v_AddSession_ok s a v v' : v_AddSession s a v = (None, v') →
    v_SessionCount v' = v_SessionCount v + 1 ∧ v_Done v' = v_Done v;
  v_AddSession_err s a v v' e : v_AddSession s a v = (Some e, v') → v' = v;
  v_SessionCount_nonneg v : 0 ≤ v_SessionCount v;
  v_setUsers_ok us v : v_Done (v_setUsers us v) = v_Done v ∧
    v_SessionCount (v_setUsers us v) = v_SessionCount v
}.

(** An underlay object: its scheduler, its cipher (on a client) and the rest. *)
Record entry (V : Type) := mkEntry {
  sched : ScheduleController;
  e_block : option AEADBlockCipher;
  und : V
}.
Arguments mkEntry {V}. Arguments sched {V}. Arguments e_block {V}. Arguments und {V}.

Record Mux (V : Type) := mkMux {
  m_isClient : bool;
  m_endpoints : list UnderlayProperties;
  m_underlays : list nat;
  m_store : gmap nat (entry V);
  m_chAccept : list (nat * Z);                (** underlay and session ID *)
  m_acceptHasErr : bool;                      (** [acceptErr] is closed with it *)
  m_used : bool;
  m_done : bool;
  m_listening : list UnderlayProperties;      (** endpoints with a listener *)
  m_username : string;
  m_password : bytes;
  m_multiplexFactor : Z;
  m_users : Users;
  m_trafficPattern : option (option NoncePattern);
  m_userHintIsMandatory : bool
}.
Arguments mkMux {V}. Arguments m_isClient {V}. Arguments m_endpoints {V}. Arguments m_underlays {V}.
Arguments m_store {V}. Arguments m_chAccept {V}. Arguments m_acceptHasErr {V}. Arguments m_used {V}.
Arguments m_done {V}. Arguments m_listening {V}. Arguments m_username {V}. Arguments m_password {V}.
Arguments m_multiplexFactor {V}. Arguments m_users {V}. Arguments m_trafficPattern {V}. Arguments m_userHintIsMandatory {V}.

(** The world around: resolver, dialers and listeners ([Err] when they fail). *)
Record muxNet := mkMuxNet {
  n_lookupIP : Resolver;
  n_BypassDialerDNS : bool;
  n_dialTCP : string → bytes → outcome unit;
  n_listenPacket : string → UDPAddr → outcome unit;
  n_listen : string → UDPAddr → outcome unit;
  n_tcpString : UDPAddr → bytes                 (** [TCPAddr.String] *)
}.

Section Ops.
Context {V T : Type} `{BTree T} `{MuxUnderlay V T}.
Context (idle : Z) (pbkdf2Key : bytes → bytes → Z → Z → bytes).
Implicit Types m : Mux V.

Definition set_underlays (l : list nat) (st : gmap nat (entry V)) m : Mux V :=
  mkMux (m_isClient m) (m_endpoints m) l st (m_chAccept m) (m_acceptHasErr m) (m_used m) (m_done m)
    (m_listening m) (m_username m) (m_password m) (m_multiplexFactor m) (m_users m) (m_trafficPattern m)
    (m_userHintIsMandatory m).
Definition set_store (st : gmap nat (entry V)) m : Mux V := set_underlays (m_underlays m) st m.
Definition set_flags (us dn : bool) m : Mux V :=
  mkMux (m_isClient m) (m_endpoints m) (m_underlays m) (m_store m) (m_chAccept m) (m_acceptHasErr m) us dn
    (m_listening m) (m_username m) (m_password m) (m_multiplexFactor m) (m_users m) (m_trafficPattern m)
    (m_userHintIsMandatory m).
Definition set_listening (eps ls : list UnderlayProperties) (err : bool) m : Mux V :=
  mkMux (m_isClient m) eps (m_underlays m) (m_store m) (m_chAccept m) err (m_used m) (m_done m)
    ls (m_username m) (m_password m) (m_multiplexFactor m) (m_users m) (m_trafficPattern m)
    (m_userHintIsMandatory m).
Definition set_chAccept (l : list (nat * Z)) m : Mux V :=
  mkMux (m_isClient m) (m_endpoints m) (m_underlays m) (m_store m) l (m_acceptHasErr m) (m_used m) (m_done m)
    (m_listening m) (m_username m) (m_password m) (m_multiplexFactor m) (m_users m) (m_trafficPattern m)
    (m_userHintIsMandatory m).

Definition NewMux (client : bool) : Mux V :=
  mkMux client [] [] ∅ [] false false false [] "" [] 0 ∅ None false.

(** ** Configuration *)

Definition newEndpoints (old new : list UnderlayProperties) : list UnderlayProperties :=
  filter (λ n, n ∉ old) new.

(** The start of [acceptUnderlayLoop], up to [wg.Done]: the endpoint gets a
    listener, or [acceptErr] is closed. *)
Definition acceptUnderlayLoop (net : muxNet) (p : UnderlayProperties) m : Mux V :=
  let bad := set_listening (m_endpoints m) (m_listening m) true m in
  let good := set_listening (m_endpoints m) (m_listening m ++ [p]) (m_acceptHasErr m) m in
  let laddr := Str (p_LocalAddr p) in
  let network := Network (p_LocalAddr p) in
  let listenOn network resolved := match resolved with
    | Ret a => if is_ret (n_listen net network a) then good else bad
    | _ => bad
    end in
  if bool_decide (laddr = []) then bad
  else if bool_decide (network ∈ ["tcp"; "tcp4"; "tcp6"]) then
    listenOn "tcp" (ResolveTCPAddr (n_lookupIP net) "tcp" laddr)
  else if bool_decide (network ∈ ["udp"; "udp4"; "udp6"]) then
    listenOn "udp" (ResolveUDPAddrOn (n_lookupIP net) "udp" laddr)
  else bad.

Definition listenAll (net : muxNet) (ps : list UnderlayProperties) m : Mux V :=
  foldl (λ m p, acceptUnderlayLoop net p m) m ps.

Definition SetEndpoints (net : muxNet) (eps : list UnderlayProperties) m : Mux V :=
  let new := newEndpoints (m_endpoints m) eps in
  if 0 <? len new then
    if m_used m then
      if m_done m then m
      else let m := listenAll net new m in set_listening eps (m_listening m) (m_acceptHasErr m) m
    else set_listening new (m_listening m) (m_acceptHasErr m) m
  else m.

Definition SetTrafficPattern (tp : option (option NoncePattern)) m : Mux V :=
  mkMux (m_isClient m) (m_endpoints m) (m_underlays m) (m_store m) (m_chAccept m) (m_acceptHasErr m)
    (m_used m) (m_done m) (m_listening m) (m_username m) (m_password m) (m_multiplexFactor m) (m_users m) tp (m_userHintIsMandatory m).

Definition SetClientUserNamePassword (username : string) (password : bytes) m : outcome (Mux V) :=
  if negb (m_isClient m) then Panic "Can't set client password in server mux"
  else if m_used m then Panic "Can't set client password after mux is used"
  else Ret (mkMux (m_isClient m) (m_endpoints m) (m_underlays m) (m_store m) (m_chAccept m) (m_acceptHasErr m)
    (m_used m) (m_done m) (m_listening m) username password (m_multiplexFactor m) (m_users m) (m_trafficPattern m)
      (m_userHintIsMandatory m)).

Definition SetClientMultiplexFactor (n : Z) m : outcome (Mux V) :=
  if negb (m_isClient m) then Panic "Can't set multiplex factor in server mux"
  else if m_used m then Panic "Can't set multiplex factor after mux is used"
  else Ret (mkMux (m_isClient m) (m_endpoints m) (m_underlays m) (m_store m) (m_chAccept m) (m_acceptHasErr m)
    (m_used m) (m_done m) (m_listening m) (m_username m) (m_password m) (Max n 0) (m_users m) (m_trafficPattern m)
      (m_userHintIsMandatory m)).

Definition SetServerUsers (us : Users) m : outcome (Mux V) :=
  if m_isClient m then Panic "Can't set server users in client mux"
  else
    let upd (e : entry V) := match v_transport (und e) with
      | PacketTransport => mkEntry (sched e) (e_block e) (v_setUsers us (und e))
      | _ => e
      end in
    let st := if m_used m then foldl (λ st u, alter upd u st) (m_store m) (m_underlays m) else m_store m in
    Ret (mkMux (m_isClient m) (m_endpoints m) (m_underlays m) st (m_chAccept m) (m_acceptHasErr m)
      (m_used m) (m_done m) (m_listening m) (m_username m) (m_password m) (m_multiplexFactor m) us (m_trafficPattern m)
      (m_userHintIsMandatory m)).

Definition SetServerUserHintIsMandatory (b : bool) m : outcome (Mux V) :=
  if m_isClient m then Panic "Can't set server user hint is mandatory in client mux"
  else Ret (mkMux (m_isClient m) (m_endpoints m) (m_underlays m) (m_store m) (m_chAccept m) (m_acceptHasErr m)
    (m_used m) (m_done m) (m_listening m) (m_username m) (m_password m) (m_multiplexFactor m) (m_users m)
    (m_trafficPattern m) b).

(** ** Cleaning *)

Definition trafficVolumeLimit (factor : Z) : Z := i64 (Z.shiftl (512 * 1024 * 1024) factor).

(** The scheduler after [cleanUnderlay(true)] has looked at the underlay. *)
Definition disableIdleOrOverload (now limit : Z) (v : V) (c : ScheduleController) : ScheduleController :=
  let c := if v_SessionCount v =? 0 then (TryDisableIdle idle now c).2 else c in
  if bool_decide (disableTime c = None) && ((limit <? v_InBytes v) || (limit <? v_OutBytes v))
  then SetRemainingTime now 0 c else c.

(** What a round of the loop does with one open underlay. *)
Definition closesNow (now : Z) (e : entry V) : bool :=
  (v_SessionCount (und e) =? 0) && Idle idle now (sched e).

Definition cleanEntry (now limit : Z) (also : bool) (e : entry V) : outcome (entry V) :=
  let! v := if closesNow now e then v_Close now (und e) else Ret (und e) in
  Ret (mkEntry (if also then disableIdleOrOverload now limit v (sched e) else sched e) (e_block e) v).

Fixpoint cleanUnderlays (now limit : Z) (also : bool) (l : list nat) (st : gmap nat (entry V))
  : outcome (list nat * gmap nat (entry V)) :=
  match l with
  | [] => Ret ([], st)
  | u :: l =>
      match st !! u with
      | None => Panic "nil pointer dereference"
      | Some e =>
          if v_Done (und e) then cleanUnderlays now limit also l st
          else
            let! e' := cleanEntry now limit also e in
            let! (remaining, st) := cleanUnderlays now limit also l (<[u := e']> st) in
            Ret (if closesNow now e then remaining else u :: remaining, st)
      end
  end.

Definition cleanUnderlay (now : Z) (also : bool) m : outcome (Mux V) :=
  let! (l, st) := cleanUnderlays now (trafficVolumeLimit (m_multiplexFactor m)) also (m_underlays m) (m_store m) in
  Ret (set_underlays l st m).

(** ** Picking an underlay *)

Definition isActive (now : Z) (st : gmap nat (entry V)) (u : nat) : bool :=
  match st !! u with
  | Some e => negb (v_Done (und e)) && negb (IsDisabled now (sched e))
  | None => false
  end.

Definition active (now : Z) m : list nat := filter (λ u, Is_true (isActive now (m_store m) u)) (m_underlays m).

(** [draw] is the result of [mrand.Intn(reuseUnderlayFactor + 1)]. *)
Definition maybePickExistingUnderlay (now draw : Z) m : option nat :=
  let l := active now m in
  if 0 <? m_multiplexFactor m then
    let reuseUnderlayFactor := len l * m_multiplexFactor m in
    if draw <? reuseUnderlayFactor then l !! Z.to_nat (draw / m_multiplexFactor m) else None
  else None.

(** ** Creating underlays *)

Definition cipherCache : Type := gmap bytes cachedCiphers.

(** The two constructors of a client underlay. *)
Definition NewStreamUnderlay (net : muxNet) (network : string) (addr : bytes) (mtu : Z)
    (block : AEADBlockCipher) : outcome (entry V) :=
  if negb (bool_decide (network ∈ ["tcp"; "tcp4"; "tcp6"]))
  then Err (Errorf "network %s is not supported by stream underlay")
  else if IsStateless block then Err (Errorf "stream underlay block cipher must be stateful")
  else
    let! remote := (if n_BypassDialerDNS net then Ret addr
                    else let! a := ResolveTCPAddr (n_lookupIP net) network addr in Ret (n_tcpString net a)) in
    let! _ := n_dialTCP net network remote in
    Ret (mkEntry newScheduleController (Some block) (v_new true mtu StreamTransport ∅)).

Definition NewPacketUnderlay (net : muxNet) (now : Z) (network : string) (addr : bytes) (mtu : Z)
    (block : AEADBlockCipher) : outcome (entry V) :=
  if negb (bool_decide (network ∈ ["udp"; "udp4"; "udp6"]))
  then Err (Errorf "network %s is not supported by packet underlay")
  else if negb (IsStateless block) then Err (Errorf "packet underlay block cipher must be stateless")
  else
    let! a := ResolveUDPAddrOn (n_lookupIP net) network addr in
    let! _ := n_listenPacket net network a in
    Ret (mkEntry (SetRemainingTime now (KeyRefreshInterval / 2) newScheduleController) (Some block)
           (v_new true mtu PacketTransport ∅)).

(** ** Errors with state: a call that returns an error keeps what it has changed *)

Definition MM (A : Type) : Type := Mux V * cipherCache → outcome A * (Mux V * cipherCache).
Definition mret {A} (a : A) : MM A := λ x, (Ret a, x).
Definition mbnd {A B} (c : MM A) (k : A → MM B) : MM B := λ x,
  match c x with
  | (Ret a, x) => k a x
  | (Err e, x) => (Err e, x)
  | (Panic p, x) => (Panic p, x)
  end.
Definition mlift {A} (o : outcome A) : MM A := λ x, (o, x).
(** A step under the lock on the mux alone. *)
Definition mstep {A} (f : Mux V → outcome (A * Mux V)) : MM A := λ x,
  match f x.1 with
  | Ret (a, m) => (Ret a, (m, x.2))
  | Err e => (Err e, x)
  | Panic p => (Panic p, x)
  end.
Notation "'do!' x ':=' c 'in' k" := (mbnd c (λ x, k))
  (at level 10, x pattern, c at level 100, k at level 200).

(** The cipher of a new underlay. *)
Definition underlayBlock (now jitter : Z) (stateless : bool) : MM AEADBlockCipher := λ '(m, cache),
  match BlockCipherFromPassword pbkdf2Key now jitter cache (m_password m) stateless with
  | Ret (block, cache) =>
      let block := SetBlockContext (mkContext (m_username m)) block in
      (Ret (match m_trafficPattern m with Some np => SetNoncePattern np block | None => block end), (m, cache))
  | Err e => (Err e, (m, cache))
  | Panic p => (Panic p, (m, cache))
  end.

Definition makeUnderlay (net : muxNet) (now jitter : Z) (p : UnderlayProperties) : MM (entry V) :=
  match p_TransportProtocol p with
  | StreamTransport =>
      do! block := underlayBlock now jitter false in
      mlift (NewStreamUnderlay net (Network (p_RemoteAddr p)) (Str (p_RemoteAddr p)) (p_MTU p) block)
  | PacketTransport =>
      do! block := underlayBlock now jitter true in
      mlift (NewPacketUnderlay net now (Network (p_RemoteAddr p)) (Str (p_RemoteAddr p)) (p_MTU p) block)
  | UnknownTransport => mlift (Err (Errorf "unsupport transport protocol %v"))
  end.

(** The object gets an identifier that no other has, and joins the list. *)
Definition addUnderlay (e : entry V) m : nat * Mux V :=
  let u : nat := base.fresh (dom (D := gset nat) (m_store m)) in
  (u, set_underlays (m_underlays m ++ [u]) (<[u := e]> (m_store m)) m).

(** [draw] is the result of [mrand.Intn(len(m.endpoints))]. *)
Definition pickEndpoint (draw : Z) m : outcome (UnderlayProperties * Mux V) :=
  match m_endpoints m with
  | [] => Panic "invalid argument to Intn"
  | eps => match eps !! Z.to_nat draw with Some p => Ret (p, m) | None => Panic "index out of range" end
  end.

Definition newUnderlay (net : muxNet) (now draw jitter : Z) : MM nat :=
  do! p := mstep (pickEndpoint draw) in
  do! e := makeUnderlay net now jitter p in
  mstep (λ m, Ret (addUnderlay e m)).

(** A server underlay joins the list: a packet underlay when its endpoint is
    listened to, a stream underlay when a connection is accepted. *)
Definition acceptUnderlay (now : Z) (p : UnderlayProperties) (tp : TransportProtocol) m : outcome (nat * Mux V) :=
  let '(u, m) := addUnderlay (mkEntry newScheduleController None (v_new false (p_MTU p) tp (m_users m))) m in
  let! m := cleanUnderlay now false m in Ret (u, m).

(** ** Life of the mux *)

Definition Start (net : muxNet) m : outcome unit * Mux V :=
  if m_isClient m then (Err ErrInvalidOperation, m)
  else if bool_decide (size (m_users m) = 0%nat) then (Err (Errorf "no user found"), m)
  else if len (m_endpoints m) =? 0 then (Err (Errorf "no server listening endpoint found"), m)
  else if existsb (λ p, IsNilNetAddr (p_LocalAddr p)) (m_endpoints m)
  then (Err (Errorf "endpoint local address is not set"), m)
  else (Ret tt, listenAll net (m_endpoints m) (set_flags true (m_done m) m)).

Fixpoint closeAll (now : Z) (l : list nat) (st : gmap nat (entry V)) : outcome (gmap nat (entry V)) :=
  match l with
  | [] => Ret st
  | u :: l =>
      match st !! u with
      | None => Panic "nil pointer dereference"
      | Some e => let! v := v_Close now (und e) in closeAll now l (<[u := mkEntry (sched e) (e_block e) v]> st)
      end
  end.

Definition Close (now : Z) m : outcome (Mux V) :=
  if m_done m then Ret m
  else let! st := closeAll now (m_underlays m) (m_store m) in Ret (set_flags (m_used m) true (set_underlays [] st m)).

(** [Accept] chooses among its ready cases; [choice] is the choice of select,
    and [None] is the result when it waits. *)
Inductive acceptCase := CaseErr | CaseConn | CaseDone.

Definition Accept (choice : acceptCase) m : option (outcome (nat * Z)) * Mux V :=
  match choice, m_chAccept m with
  | CaseErr, _ => if m_acceptHasErr m then (Some (Err ErrClosedPipe), m) else (None, m)
  | CaseConn, c :: l => (Some (Ret c), set_chAccept l m)
  | CaseConn, [] => (None, m)
  | CaseDone, _ => if m_done m then (Some (Err ErrEOF), m) else (None, m)
  end.

(** ** DialContext

    The stages between which the lock is released. *)

Definition dialGuards m : option goerr :=
  if negb (m_isClient m) then Some ErrInvalidOperation
  else if len (m_password m) =? 0 then Some (Errorf "client password is not set")
  else if len (m_endpoints m) =? 0 then Some (Errorf "no server listening endpoint found")
  else if existsb (λ p, IsNilNetAddr (p_RemoteAddr p)) (m_endpoints m)
  then Some (Errorf "endpoint remote address is not set")
  else None.

Definition dialPick (now draw : Z) m : outcome (option nat * Mux V) :=
  let! m := cleanUnderlay now true (set_flags true (m_done m) m) in
  Ret (maybePickExistingUnderlay now draw m, m).

Definition dialIncPending (now : Z) (u : nat) m : outcome (bool * Mux V) :=
  match m_store m !! u with
  | Some e =>
      let '(ok, c) := IncPending now (sched e) in
      Ret (ok, set_store (<[u := mkEntry c (e_block e) (und e)]> (m_store m)) m)
  | None => Panic "nil pointer dereference"
  end.

(** The session is created and added, then the deferred [DecPending] runs.
    [sid] is the result of [mrand.Uint32]. *)
Definition dialAttach (now sid : Z) (u : nat) m : outcome (option goerr * Mux V) :=
  match m_store m !! u with
  | Some e =>
      let! s := NewSession (now / 1000) sid true (v_MTU (und e)) (m_users m) in
      let '(err, v) := v_AddSession s "" (und e) in
      Ret (err, set_store (<[u := mkEntry (DecPending now (sched e)) (e_block e) v]> (m_store m)) m)
  | None => Panic "nil pointer dereference"
  end.

Record dialDraws := mkDraws { d_pick : Z; d_endpoint : Z; d_jitter : Z; d_endpoint2 : Z; d_jitter2 : Z; d_session : Z }.

Definition DialContext (net : muxNet) (now : Z) (d : dialDraws) : MM (nat * Z) := λ x,
  match dialGuards x.1 with
  | Some e => (Err e, x)
  | None =>
      (do! picked := mstep (dialPick now (d_pick d)) in
       do! u := match picked with
                | Some u => mret u
                | None => newUnderlay net now (d_endpoint d) (d_jitter d)
                end in
       do! ok := mstep (dialIncPending now u) in
       do! u := (if ok then mret u
                 else do! u := newUnderlay net now (d_endpoint2 d) (d_jitter2 d) in
                      do! _ := mstep (dialIncPending now u) in mret u) in
       do! err := mstep (dialAttach now (d_session d) u) in
       match err with
       | Some _ => mlift (Err (Errorf "AddSession() failed: %v"))
       | None => mret (u, d_session d)
       end) x
  end.

(** * Properties *)

Context `{!MuxUnderlayLaws V T}.

(** The list has no duplicates and every underlay of the list exists. *)
Definition mux_wf m : Prop :=
  NoDup (m_underlays m) ∧ ∀ u, u ∈ m_underlays m → is_Some (m_store m !! u).

Lemma filter_agree {A} (P Q : A → Prop) `{∀ x, Decision (P x), ∀ x, Decision (Q x)} (l : list A) :
  (∀ x, x ∈ l → P x ↔ Q x) → filter P l = filter Q l.
Proof.
  induction l as [|x l IH]; intros Hl; [done|]. rewrite !filter_cons.
  rewrite IH by (intros; apply Hl; by right).
  specialize (Hl x ltac:(left)). repeat case_decide; tauto.
Qed.

(** ** Cleaning *)

(** An underlay that stays in the list, and what cleaning makes of one. *)
Definition keeps (now : Z) (st : gmap nat (entry V)) (u : nat) : bool :=
  match st !! u with Some e => negb (v_Done (und e)) && negb (closesNow now e) | None => false end.

Definition cleaned (now limit : Z) (also : bool) (e e' : entry V) : Prop :=
  if v_Done (und e) then e' = e else cleanEntry now limit also e = Ret e'.

Lemma cleanEntry_ret now limit also e : ∃ e', cleanEntry now limit also e = Ret e'.
Proof.
  unfold cleanEntry. destruct (closesNow now e) eqn:E; simpl; [|by eexists].
  unfold closesNow in E. apply andb_true_iff in E as [E _]. bool_to_Z.
  destruct (v_Close_empty now (und e) E) as (v' & ->). by eexists.
Qed.

Lemma cleanUnderlays_spec now limit also l st :
  NoDup l → (∀ u, u ∈ l → is_Some (st !! u)) →
  ∃ st', cleanUnderlays now limit also l st = Ret (filter (λ u, Is_true (keeps now st u)) l, st') ∧
    (∀ u, u ∉ l → st' !! u = st !! u) ∧
    (∀ u e, u ∈ l → st !! u = Some e → ∃ e', st' !! u = Some e' ∧ cleaned now limit also e e').
Proof.
  revert st. induction l as [|u l IH]; intros st Hn Hl; simpl.
  { exists st. split_and!; try done. intros u e H'. by apply elem_of_nil in H'. }
  apply NoDup_cons in Hn as [Hu Hn]. destruct (Hl u) as (e & He); [left|]. rewrite He.
  assert (Hst : ∀ e1 x, x ∈ l → <[u := e1]> st !! x = st !! x)
    by (intros; apply lookup_insert_ne; congruence).
  rewrite filter_cons. replace (keeps now st u) with (negb (v_Done (und e)) && negb (closesNow now e))
    by (unfold keeps; by rewrite He).
  destruct (v_Done (und e)) eqn:Ed; simpl.
  - destruct (IH st) as (st' & -> & H1 & H2); [done|intros; apply Hl; by right|].
    exists st'. split; [done|]. split; [intros x Hx; apply H1; set_solver|].
    intros x ex Hx Hex. apply elem_of_cons in Hx as [->|Hx]; [|by apply H2].
    exists e. rewrite H1 by done. split; [done|]. unfold cleaned. replace ex with e by congruence. by rewrite Ed.
  - destruct (cleanEntry_ret now limit also e) as (e' & Hce). rewrite Hce. simpl.
    destruct (IH (<[u := e']> st)) as (st' & -> & H1 & H2); [done|intros; rewrite Hst by done; apply Hl; by right|].
    simpl. exists st'. split.
    { rewrite (filter_agree (λ x, Is_true (keeps now (<[u := e']> st) x)) (λ x, Is_true (keeps now st x))).
      - by destruct (closesNow now e).
      - intros x Hx. unfold keeps. by rewrite Hst. }
    split; [intros x Hx; rewrite H1, lookup_insert_ne; set_solver|].
    intros x ex Hx Hex. apply elem_of_cons in Hx as [->|Hx].
    + exists e'. rewrite H1, lookup_insert_eq by done. split; [done|]. unfold cleaned. replace ex with e by congruence. by rewrite Ed.
    + apply H2; [done|]. by rewrite Hst.
Qed.

Lemma cleanUnderlay_spec now also m :
  mux_wf m →
  ∃ st', cleanUnderlay now also m =
      Ret (set_underlays (filter (λ u, Is_true (keeps now (m_store m) u)) (m_underlays m)) st' m) ∧
    (∀ u, u ∉ m_underlays m → st' !! u = m_store m !! u) ∧
    (∀ u e, u ∈ m_underlays m → m_store m !! u = Some e →
       ∃ e', st' !! u = Some e' ∧ cleaned now (trafficVolumeLimit (m_multiplexFactor m)) also e e').
Proof.
  intros [Hn Hl]. unfold cleanUnderlay.
  destruct (cleanUnderlays_spec now (trafficVolumeLimit (m_multiplexFactor m)) also _ _ Hn Hl) as (st' & -> & H1 & H2).
  by exists st'.
Qed.

Lemma mux_wf_clean now also m m' : mux_wf m → cleanUnderlay now also m = Ret m' → mux_wf m'.
Proof.
  intros Hw Hc. destruct (cleanUnderlay_spec now also m Hw) as (st' & E & H1 & H2). rewrite E in Hc. simplify_eq.
  destruct Hw as [Hn Hl]. split; simpl; [by apply NoDup_filter|].
  intros u Hu. apply list_elem_of_filter in Hu as [_ Hu]. destruct (Hl u Hu) as (e & He).
  destruct (H2 u e Hu He) as (e' & ? & _). by exists e'.
Qed.

(** The limit does not wrap for the multiplexing levels in use. *)
Lemma trafficVolumeLimit_small f : 0 ≤ f ≤ 33 → trafficVolumeLimit f = 2 ^ (29 + f).
Proof.
  intros Hf. unfold trafficVolumeLimit. rewrite Z.shiftl_mul_pow2 by lia.
  change (512 * 1024 * 1024) with (2 ^ 29). rewrite <- Z.pow_add_r by lia. apply i64_small.
  pose proof (Z.pow_pos_nonneg 2 (29 + f) ltac:(lia) ltac:(lia)).
  pose proof (Z.pow_lt_mono_r 2 (29 + f) 63 ltac:(lia) ltac:(lia) ltac:(lia)). lia.
Qed.

(** When an open underlay is not used for new sessions any more. *)
Definition retire (now limit : Z) (e : entry V) : bool :=
  ((v_SessionCount (und e) =? 0) && (pending (sched e) <=? 0) &&
     match lastScheduleTime (sched e) with Some l => idle <=? now - l | None => true end)
  || (limit <? v_InBytes (und e)) || (limit <? v_OutBytes (und e)).

Lemma disableIdleOrOverload_spec now limit e :
  disableTime (disableIdleOrOverload now limit (und e) (sched e)) =
    match disableTime (sched e) with Some t => Some t | None => if retire now limit e then Some now else None end.
Proof.
  unfold disableIdleOrOverload, retire, TryDisableIdle, SetRemainingTime.
  destruct (disableTime (sched e)) as [t|] eqn:Ed.
  { destruct (v_SessionCount (und e) =? 0); simpl; rewrite Ed; by rewrite bool_decide_false. }
  destruct (v_SessionCount (und e) =? 0) eqn:Ec; simpl.
  - destruct (0 <? pending (sched e)) eqn:Ep; simpl; rewrite ?Ed.
    + rewrite (proj2 (Z.leb_gt _ _)) by (bool_to_Z; lia). simpl.
      by repeat case_if; simpl in *; rewrite ?Ed, ?Z.add_0_r.
    + rewrite (proj2 (Z.leb_le _ _)) by (bool_to_Z; lia). simpl.
      destruct (lastScheduleTime (sched e)) as [l|]; simpl; [|done].
      destruct (now - l <? idle) eqn:El; simpl; rewrite ?Ed.
      * rewrite (proj2 (Z.leb_gt _ _)) by (bool_to_Z; lia). simpl.
        by repeat case_if; simpl in *; rewrite ?Ed, ?Z.add_0_r.
      * by rewrite (proj2 (Z.leb_le _ _)) by (bool_to_Z; lia).
  - rewrite Ed. simpl. by repeat case_if; simpl in *; rewrite ?Ed, ?Z.add_0_r.
Qed.

Lemma closesNow_disabled now e : closesNow now e = true →
  v_SessionCount (und e) = 0 ∧ Idle idle now (sched e) = true ∧ ∃ t, disableTime (sched e) = Some t.
Proof.
  unfold closesNow. intros Hc. apply andb_true_iff in Hc as [H1 H2]. bool_to_Z.
  split_and!; [done..|]. unfold Idle in H2. destruct (disableTime (sched e)) as [t|]; [by exists t|done].
Qed.

(** An underlay that cleaning closes was disabled, and stays so. *)
Lemma cleanEntry_spec now limit also e e' :
  cleanEntry now limit also e = Ret e' →
  v_Done (und e) = false →
  v_Done (und e') = closesNow now e ∧ (closesNow now e = false → und e' = und e) ∧
  disableTime (sched e') =
    match disableTime (sched e) with
    | Some t => Some t
    | None => if also && retire now limit e then Some now else None
    end.
Proof.
  unfold cleanEntry. intros Hc Hd. destruct (closesNow now e) eqn:E; simpl in Hc.
  - destruct (v_Close now (und e)) as [v| |] eqn:Ev; simpl in Hc; simplify_eq. simpl.
    split_and!; [by eapply v_Close_ok|done|].
    destruct (closesNow_disabled now e E) as (_ & _ & t & Ht). rewrite Ht.
    destruct also; [|done]. unfold disableIdleOrOverload, TryDisableIdle. rewrite Ht.
    destruct (v_SessionCount v =? 0); simpl; rewrite Ht; by rewrite bool_decide_false.
  - simplify_eq. simpl. split_and!; [done..|]. destruct also; simpl.
    + apply disableIdleOrOverload_spec.
    + by destruct (disableTime (sched e)).
Qed.

(**cleaning does what it says and nothing else.  It never panics; an open
    underlay leaves the list and is closed exactly when it has no session and
    its scheduler is idle; closed underlays leave the list; an underlay with a
    session is not touched, except that with [also] its scheduler is disabled
    from now on when it is unused or has carried more than 512 MiB times 2 to
    the multiplexing factor; a scheduler that is disabled stays as it was, and
    underlays outside the list are not touched. *)
Theorem mux_clean_exact now also m :
  mux_wf m → 0 ≤ m_multiplexFactor m ≤ 33 →
  ∃ m', cleanUnderlay now also m = Ret m' ∧ mux_wf m' ∧
    (∀ u, u ∉ m_underlays m → m_store m' !! u = m_store m !! u ∧ u ∉ m_underlays m') ∧
    (∀ u e, u ∈ m_underlays m → m_store m !! u = Some e →
      let closing := negb (v_Done (und e)) && (v_SessionCount (und e) =? 0) && Idle idle now (sched e) in
      ∃ e', m_store m' !! u = Some e' ∧
        (u ∈ m_underlays m' ↔ v_Done (und e) = false ∧ closing = false) ∧
        v_Done (und e') = v_Done (und e) || closing ∧
        (closing = false → und e' = und e) ∧
        disableTime (sched e') =
          match disableTime (sched e) with
          | Some t => Some t
          | None => if negb (v_Done (und e)) && also && retire now (2 ^ (29 + m_multiplexFactor m)) e
                    then Some now else None
          end).
Proof.
  intros Hw Hf. destruct (cleanUnderlay_spec now also m Hw) as (st' & E & H1 & H2).
  eexists. split; [exact E|]. split; [by eapply mux_wf_clean|]. split.
  { intros u Hu. simpl. split; [by apply H1|]. intros Hu'. by apply list_elem_of_filter in Hu' as [_ ?]. }
  intros u e Hu He closing. destruct (H2 u e Hu He) as (e' & He' & Hcl). exists e'. simpl. split; [done|].
  rewrite trafficVolumeLimit_small in Hcl by done.
  assert (Hin : u ∈ filter (λ u, Is_true (keeps now (m_store m) u)) (m_underlays m) ↔
    v_Done (und e) = false ∧ closing = false).
  { rewrite list_elem_of_filter. unfold keeps, closing, closesNow. rewrite He.
    destruct (v_Done (und e)), ((v_SessionCount (und e) =? 0) && Idle idle now (sched e)) eqn:Ex; simpl in *;
      rewrite ?Ex; naive_solver. }
  split; [done|]. unfold cleaned in Hcl. destruct (v_Done (und e)) eqn:Ed.
  - subst e'. simpl in *. split_and!; [done..|]. by destruct (disableTime (sched e)).
  - destruct (cleanEntry_spec _ _ _ _ _ Hcl Ed) as (H3 & H4 & H5). simpl in *.
    by rewrite H3.
Qed.

(** ** Picking *)

Lemma filter_none {A} (P : A → Prop) `{∀ x, Decision (P x)} (l : list A) : (∀ x, x ∈ l → ¬ P x) → filter P l = [].
Proof.
  intros Hl. induction l as [|x l IH]; [done|]. rewrite filter_cons_False by (apply Hl; left).
  apply IH. intros. apply Hl. by right.
Qed.

Lemma filter_full {A} (P : A → Prop) `{∀ x, Decision (P x)} (l : list A) : (∀ x, x ∈ l → P x) → filter P l = l.
Proof.
  intros Hl. induction l as [|x l IH]; [done|]. rewrite filter_cons_True by (apply Hl; left).
  f_equal. apply IH. intros. apply Hl. by right.
Qed.

(** Of the integers below [n], the number that lie in an interval. *)
Lemma count_interval (P : Z → Prop) `{∀ x, Decision (P x)} a w n :
  0 ≤ a → 0 ≤ w → a + w ≤ n → (∀ x, 0 ≤ x < n → P x ↔ a ≤ x < a + w) →
  len (filter P (seqZ 0 n)) = w.
Proof.
  intros Ha Hw Hn HP. replace n with (a + (w + (n - a - w))) by lia.
  rewrite (seqZ_app 0 a), (seqZ_app (0 + a) w) by lia. rewrite !filter_app.
  rewrite (filter_none P (seqZ 0 a)), (filter_none P (seqZ (0 + a + w) _)), (filter_full P (seqZ _ w)).
  - rewrite app_nil_r. simpl. unfold len. rewrite length_seqZ. lia.
  - intros x Hx. apply elem_of_seqZ in Hx. apply HP; lia.
  - intros x Hx. apply elem_of_seqZ in Hx. rewrite HP; lia.
  - intros x Hx. apply elem_of_seqZ in Hx. rewrite HP; lia.
Qed.

Lemma elem_of_active now m u :
  u ∈ active now m ↔ u ∈ m_underlays m ∧ ∃ e, m_store m !! u = Some e ∧
    v_Done (und e) = false ∧ IsDisabled now (sched e) = false.
Proof.
  unfold active, isActive. rewrite list_elem_of_filter. destruct (m_store m !! u) as [e|].
  - split.
    + intros [Ha Hu]. apply Is_true_true, andb_true_iff in Ha as [H1 H2].
      apply negb_true_iff in H1, H2. eauto.
    + intros (Hu & e1 & [= <-] & -> & ->). done.
  - split; [intros [[] _]|]. intros (_ & e & ? & _). done.
Qed.

Lemma pick_lookup now n m :
  0 ≤ n → 0 < m_multiplexFactor m →
  maybePickExistingUnderlay now n m = active now m !! Z.to_nat (n / m_multiplexFactor m).
Proof.
  intros Hn Hf. unfold maybePickExistingUnderlay. rewrite (proj2 (Z.ltb_lt _ _)) by done.
  case_if; [done|]. bool_to_Z. symmetry. apply lookup_ge_None_2.
  apply Nat2Z.inj_le. rewrite Z2Nat.id by (apply Z.div_pos; lia). apply Z.div_le_lower_bound; [done|].
  unfold len in *. lia.
Qed.

Lemma pick_active now n m u : 0 ≤ n → maybePickExistingUnderlay now n m = Some u → u ∈ active now m.
Proof.
  intros Hn Hp. assert (0 < m_multiplexFactor m) as Hf.
  { unfold maybePickExistingUnderlay in Hp. case_if_in Hp; [by bool_to_Z|done]. }
  rewrite pick_lookup in Hp by done. by eapply list_elem_of_lookup_2.
Qed.

(**sessions are spread evenly.  Only an open underlay that is not disabled
    is reused; among the draws of [mrand.Intn], each such underlay is chosen by
    exactly [multiplexFactor] of them, whatever its place in the list, and
    exactly one draw asks for a new underlay.  Without multiplexing nothing is
    reused. *)
Theorem pick_is_even now m :
  mux_wf m →
  let f := m_multiplexFactor m in
  let draws := seqZ 0 (len (active now m) * f + 1) in
  (∀ n u, maybePickExistingUnderlay now n m = Some u → 0 ≤ n → 0 < f ∧ u ∈ active now m) ∧
  (f ≤ 0 → ∀ n, maybePickExistingUnderlay now n m = None) ∧
  (0 < f →
    (∀ u, u ∈ active now m → len (filter (λ n, maybePickExistingUnderlay now n m = Some u) draws) = f) ∧
    len (filter (λ n, maybePickExistingUnderlay now n m = None) draws) = 1).
Proof.
  intros [Hn _] f draws.
  assert (Ha : NoDup (active now m)) by (unfold active; by apply NoDup_filter).
  split_and!.
  - intros n u Hp Hn0. assert (0 < f) as Hf.
    { unfold maybePickExistingUnderlay in Hp. subst f. case_if_in Hp; [by bool_to_Z|done]. }
    split; [done|]. by eapply pick_active.
  - intros Hf n. unfold maybePickExistingUnderlay. by rewrite (proj2 (Z.ltb_ge _ _)).
  - intros Hf. split.
    + intros u Hu. apply list_elem_of_lookup_1 in Hu as (i & Hi). pose proof (lookup_lt_Some _ _ _ Hi) as Hlt.
      apply (count_interval _ (Z.of_nat i * f)); unfold len; [nia|lia|nia|]. intros x Hx.
      rewrite pick_lookup by lia. fold f. split.
      * intros Hp. pose proof (NoDup_lookup _ _ _ _ Ha Hi Hp) as ->.
        pose proof (Z.div_pos x f ltac:(lia) Hf). rewrite Z2Nat.id by done.
        pose proof (Z.mul_div_le x f Hf). pose proof (Z.mul_succ_div_gt x f Hf). nia.
      * intros Hb. replace (x / f) with (Z.of_nat i) by (apply Z.div_unique_pos with (x - Z.of_nat i * f); lia).
        by rewrite Nat2Z.id.
    + apply (count_interval _ (len (active now m) * f)); unfold len; [nia|lia|lia|]. intros x Hx.
      rewrite pick_lookup by lia. fold f. rewrite lookup_ge_None, Nat2Z.inj_le, Z2Nat.id by (apply Z.div_pos; lia).
      split.
      * intros Hd. pose proof (Z.mul_div_le x f Hf). nia.
      * intros Hd. apply Z.div_le_lower_bound; lia.
Qed.

(** ** Dials that run at the same time as the cleaner

    A dial in progress has no underlay yet ([Waiting]) or holds one since a time
    ([Holding]).  The steps are the stages of [DialContext], the cleaner, the
    goroutines of an underlay, closing the mux, and time. *)

Inductive dialStage := BeforeInc (second : bool) | Pended.
Inductive dial := Waiting (second : bool) | Holding (g : dialStage) (u : nat) (since : Z).

Record cstate := mkC { c_mux : Mux V; c_cache : cipherCache; c_now : Z; c_dials : gmap nat dial }.

Inductive cstep : cstate → cstate → Prop :=
| step_time m c now now' ds :
    now ≤ now' → cstep (mkC m c now ds) (mkC m c now' ds)
| step_pick m c now ds d draw picked m' :
    dialGuards m = None → ds !! d = None → dialPick now draw m = Ret (picked, m') → 0 ≤ draw →
    cstep (mkC m c now ds)
      (mkC m' c now (<[d := match picked with Some u => Holding (BeforeInc false) u now | None => Waiting false end]> ds))
| step_new m c now ds d second net draw jitter u m' c' :
    ds !! d = Some (Waiting second) → newUnderlay net now draw jitter (m, c) = (Ret u, (m', c')) →
    cstep (mkC m c now ds) (mkC m' c' now (<[d := Holding (BeforeInc second) u now]> ds))
| step_new_fails m c now ds d second net draw jitter e m' c' :
    ds !! d = Some (Waiting second) → newUnderlay net now draw jitter (m, c) = (Err e, (m', c')) →
    cstep (mkC m c now ds) (mkC m' c' now (delete d ds))
| step_inc m c now ds d second u s ok m' :
    ds !! d = Some (Holding (BeforeInc second) u s) → dialIncPending now u m = Ret (ok, m') →
    cstep (mkC m c now ds) (mkC m' c now (<[d := if ok || second then Holding Pended u s else Waiting true]> ds))
| step_attach m c now ds d u s sid err m' :
    ds !! d = Some (Holding Pended u s) → dialAttach now sid u m = Ret (err, m') →
    cstep (mkC m c now ds) (mkC m' c now (delete d ds))
| step_clean m c now ds also m' :
    cleanUnderlay now also m = Ret m' → cstep (mkC m c now ds) (mkC m' c now ds)
| step_underlay m c now ds u e v :
    m_store m !! u = Some e → (v_Done (und e) = true → v_Done v = true) →
    cstep (mkC m c now ds) (mkC (set_store (<[u := mkEntry (sched e) (e_block e) v]> (m_store m)) m) c now ds)
| step_close m c now ds m' :
    Close now m = Ret m' → cstep (mkC m c now ds) (mkC m' c now ds).

(** How a scheduler changes at a time: it is used then, or disabled from then on. *)
Definition sched_later (now : Z) (c c' : ScheduleController) : Prop :=
  (lastScheduleTime c' = lastScheduleTime c ∨ lastScheduleTime c' = Some now) ∧
  (disableTime c' = disableTime c ∨ disableTime c = None ∧ ∃ t, disableTime c' = Some t ∧ now ≤ t).

Definition store_later (now : Z) (st st' : gmap nat (entry V)) : Prop :=
  ∀ u e, st !! u = Some e → ∃ e', st' !! u = Some e' ∧ sched_later now (sched e) (sched e').

(** A scheduler that was in use at [s], or disabled only since. *)
Definition sparing (s : Z) (c : ScheduleController) : Prop :=
  (∃ l, lastScheduleTime c = Some l ∧ s ≤ l) ∨ (∀ t, disableTime c = Some t → s ≤ t).

Lemma sched_later_refl now c : sched_later now c c.
Proof. split; by left. Qed.

Lemma sparing_later s now c c' : s ≤ now → sparing s c → sched_later now c c' → sparing s c'.
Proof.
  intros Hs [(l & Hl & Hsl)|Hd] [H1 H2].
  - left. destruct H1 as [H1|H1]; [exists l; by rewrite H1|by exists now].
  - right. intros t Ht. destruct H2 as [H2|(H2 & t' & H3 & H4)]; [apply Hd; by rewrite <- H2|]. simplify_eq. lia.
Qed.

Lemma sparing_not_idle s now c : sparing s c → now ≤ s + idle → Idle idle now c = false.
Proof.
  unfold Idle. intros Hs Hn. destruct (disableTime c) as [t|] eqn:Et; [|done]. apply andb_false_iff.
  destruct Hs as [(l & Hl & Hsl)|Hd].
  - left. rewrite Hl. apply Z.ltb_ge. lia.
  - right. apply Z.ltb_ge. specialize (Hd t Et). lia.
Qed.

Lemma TryDisableIdle_later now c : sched_later now c (TryDisableIdle idle now c).2.
Proof.
  unfold TryDisableIdle. destruct (disableTime c) as [t|] eqn:Et; [apply sched_later_refl|].
  repeat case_if; try apply sched_later_refl. split; [by left|right]. split; [done|]. exists now. split; [done|lia].
Qed.

Lemma disableIdleOrOverload_later now limit v c : sched_later now c (disableIdleOrOverload now limit v c).
Proof.
  unfold disableIdleOrOverload.
  assert (Hc : sched_later now c (if v_SessionCount v =? 0 then (TryDisableIdle idle now c).2 else c)).
  { case_if; [apply TryDisableIdle_later|apply sched_later_refl]. }
  set (c1 := if v_SessionCount v =? 0 then _ else c) in *.
  destruct (bool_decide (disableTime c1 = None) && _) eqn:E; [|done].
  apply andb_true_iff in E as [E _]. apply bool_decide_eq_true in E. destruct Hc as [H1 H2].
  unfold SetRemainingTime. simpl. rewrite E. split; simpl; [done|]. right.
  destruct H2 as [H2|(H2 & t & Ht & _)]; [|congruence].
  split; [congruence|]. exists (now + 0). split; [done|lia].
Qed.

Lemma store_later_refl now st : store_later now st st.
Proof. intros u e He. exists e. split; [done|]. apply sched_later_refl. Qed.

Lemma store_later_insert now (st : gmap nat (entry V)) u e e' :
  st !! u = Some e → sched_later now (sched e) (sched e') → store_later now st (<[u := e']> st).
Proof.
  intros He Hs x ex Hx. destruct (decide (x = u)) as [->|Hne].
  - exists e'. rewrite lookup_insert_eq. by simplify_eq.
  - exists ex. rewrite lookup_insert_ne by done. split; [done|]. apply sched_later_refl.
Qed.

Lemma cleanUnderlay_later now also m m' :
  mux_wf m → cleanUnderlay now also m = Ret m' → store_later now (m_store m) (m_store m').
Proof.
  intros Hw Hc u e He. destruct (cleanUnderlay_spec now also m Hw) as (st' & E & H1 & H2). rewrite E in Hc. simplify_eq.
  simpl. destruct (decide (u ∈ m_underlays m)) as [Hu|Hu].
  - destruct (H2 u e Hu He) as (e' & He' & Hcl). exists e'. split; [done|]. unfold cleaned in Hcl.
    destruct (v_Done (und e)); [subst; apply sched_later_refl|]. unfold cleanEntry in Hcl.
    destruct (if closesNow now e then _ else _) as [v| |]; simpl in Hcl; simplify_eq. simpl.
    destruct also; [apply disableIdleOrOverload_later|apply sched_later_refl].
  - exists e. rewrite H1 by done. split; [done|]. apply sched_later_refl.
Qed.

Lemma closeAll_later now now' l st st' :
  closeAll now l st = Ret st' → store_later now' st st'.
Proof.
  revert st. induction l as [|u l IH]; intros st Hc; simpl in Hc; [simplify_eq; apply store_later_refl|].
  destruct (st !! u) as [e|] eqn:He; [|done]. destruct (v_Close now (und e)) as [v| |]; simpl in Hc; try done.
  specialize (IH _ Hc). intros x ex Hx. destruct (decide (x = u)) as [->|Hne].
  - simplify_eq. apply (IH u (mkEntry (sched e) (e_block e) v)). by rewrite lookup_insert_eq.
  - apply (IH x). by rewrite lookup_insert_ne.
Qed.

Lemma addUnderlay_spec e m :
  let '(u, m') := addUnderlay e m in
  m_store m !! u = None ∧ m_store m' = <[u := e]> (m_store m) ∧ m_underlays m' = m_underlays m ++ [u].
Proof.
  simpl. split_and!; [|done..]. apply not_elem_of_dom. apply is_fresh.
Qed.

Lemma addUnderlay_later now e m : store_later now (m_store m) (m_store (addUnderlay e m).2).
Proof.
  pose proof (addUnderlay_spec e m) as Hs. destruct (addUnderlay e m) as [u m']. destruct Hs as (Hn & Hst & _).
  simpl. rewrite Hst. intros x ex Hx. exists ex. rewrite lookup_insert_ne by congruence. split; [done|]. apply sched_later_refl.
Qed.

Lemma mux_wf_add e m : mux_wf m → mux_wf (addUnderlay e m).2.
Proof.
  pose proof (addUnderlay_spec e m) as Hs. destruct (addUnderlay e m) as [u m']. destruct Hs as (Hn & Hst & Hl).
  intros [Hnd Hin]. unfold mux_wf. simpl. rewrite Hst, Hl. split.
  - apply NoDup_app. split_and!; [done| |apply NoDup_singleton].
    intros x Hx Hx'. apply list_elem_of_singleton in Hx' as ->. destruct (Hin u Hx) as (ex & ?). congruence.
  - intros x Hx. destruct (decide (x = u)) as [->|Hne]; [rewrite lookup_insert_eq; by eexists|].
    rewrite lookup_insert_ne by done. apply Hin. apply elem_of_app in Hx as [?|Hx]; [done|].
    by apply list_elem_of_singleton in Hx.
Qed.

(** The mux keeps its list when an object of the store changes. *)
Lemma mux_wf_store m st : mux_wf m → (∀ u, is_Some (m_store m !! u) → is_Some (st !! u)) → mux_wf (set_store st m).
Proof. intros [Hn Hl] Hst. split; [done|]. intros u Hu. by apply Hst, Hl. Qed.

Lemma insert_is_Some (st : gmap nat (entry V)) u e x : is_Some (st !! x) → is_Some (<[u := e]> st !! x).
Proof. intros Hx. destruct (decide (x = u)) as [->|Hne]; [rewrite lookup_insert_eq; by eexists|by rewrite lookup_insert_ne]. Qed.

Lemma dialIncPending_later now u m ok m' :
  dialIncPending now u m = Ret (ok, m') → mux_wf m →
  store_later now (m_store m) (m_store m') ∧ mux_wf m'.
Proof.
  unfold dialIncPending. destruct (m_store m !! u) as [e|] eqn:He; [|done].
  destruct (IncPending now (sched e)) as [b c] eqn:Ei. intros [= <- <-] Hw. split.
  - eapply store_later_insert; [done|]. simpl. unfold IncPending in Ei. repeat case_match; simplify_eq;
      try apply sched_later_refl; split; simpl; auto.
  - apply mux_wf_store; [done|]. intros x. apply insert_is_Some.
Qed.

Lemma dialAttach_later now sid u m err m' :
  dialAttach now sid u m = Ret (err, m') → mux_wf m →
  store_later now (m_store m) (m_store m') ∧ mux_wf m'.
Proof.
  unfold dialAttach. destruct (m_store m !! u) as [e|] eqn:He; [|done].
  destruct (NewSession _ _ _ _ _) as [s| |]; simpl; try done.
  destruct (v_AddSession s "" (und e)) as [er v]. intros [= <- <-] Hw. split.
  - eapply store_later_insert; [done|]. split; simpl; auto.
  - apply mux_wf_store; [done|]. intros x. apply insert_is_Some.
Qed.

Lemma makeUnderlay_spec net now jitter p x :
  match makeUnderlay net now jitter p x with
  | (Ret e, x') => x'.1 = x.1 ∧ v_Done (und e) = false ∧ sparing now (sched e) ∧ pending (sched e) = 0
  | (_, x') => x'.1 = x.1
  end.
Proof.
  destruct x as [m c]. unfold makeUnderlay, mbnd, mlift, underlayBlock.
  assert (Hs : sparing now newScheduleController) by (right; by intros t).
  destruct (p_TransportProtocol p); [done| |];
    (destruct (BlockCipherFromPassword _ _ _ _ _ _) as [[b c']| |]; simpl; try done).
  - unfold NewStreamUnderlay. repeat (case_if; [done|]).
    destruct (if n_BypassDialerDNS net then _ else _) as [r| |]; simpl; try done.
    destruct (n_dialTCP _ _ _); simpl; try done. split_and!; try done. apply v_new_ok.
  - unfold NewPacketUnderlay. repeat (case_if; [done|]).
    destruct (ResolveUDPAddrOn _ _ _) as [r| |]; simpl; try done.
    destruct (n_listenPacket _ _ _); simpl; try done. split_and!; [done|apply v_new_ok| |done].
    right. unfold SetRemainingTime. simpl. intros t [= <-].
    assert (0 ≤ KeyRefreshInterval / 2) by (by vm_compute). lia.
Qed.

Lemma newUnderlay_spec net now draw jitter m c r m' c' :
  newUnderlay net now draw jitter (m, c) = (r, (m', c')) →
  match r with
  | Ret u => ∃ e, addUnderlay e m = (u, m') ∧ v_Done (und e) = false ∧ sparing now (sched e) ∧ pending (sched e) = 0
  | _ => m' = m
  end.
Proof.
  unfold newUnderlay, mbnd, mstep. simpl. unfold pickEndpoint.
  destruct (m_endpoints m) as [|p0 eps]; [by intros [= <- <- <-]|].
  destruct ((p0 :: eps) !! Z.to_nat draw) as [p|]; [|by intros [= <- <- <-]].
  pose proof (makeUnderlay_spec net now jitter p (m, c)) as Hm.
  destruct (makeUnderlay net now jitter p (m, c)) as [[e|e|e] [m1 c1]]; simpl in Hm.
  - destruct Hm as (-> & H1 & H2). simpl. intros [= <- <- <-]. by exists e.
  - intros [= <- <- <-]. done.
  - intros [= <- <- <-]. done.
Qed.

(** *** The dials between [IncPending] and [DecPending] *)

Definition pendsOn (u : nat) (x : dial) : bool :=
  match x with Holding Pended u' _ => (u' =? u)%nat | _ => false end.
Definition pendedOn (ds : gmap nat dial) (u : nat) : Z :=
  Z.of_nat (size (filter (λ kv : nat * dial, pendsOn u kv.2 = true) ds)).
Definition asOne (b : bool) : Z := if b then 1 else 0.

Lemma pendedOn_insert ds d x u : ds !! d = None → pendedOn (<[d := x]> ds) u = pendedOn ds u + asOne (pendsOn u x).
Proof.
  intros Hd. unfold pendedOn, asOne. destruct (pendsOn u x) eqn:E.
  - rewrite map_filter_insert_True by done. rewrite map_size_insert_None; [lia|]. apply map_lookup_filter_None. by left.
  - rewrite map_filter_insert_not' by (cbn; congruence || (intros ? Hx; by rewrite Hd in Hx)). lia.
Qed.

Lemma pendedOn_delete ds d x u : ds !! d = Some x → pendedOn (delete d ds) u = pendedOn ds u - asOne (pendsOn u x).
Proof.
  intros Hd. rewrite <- (insert_delete_id ds d x Hd) at 2. rewrite pendedOn_insert by apply lookup_delete_eq. lia.
Qed.

Lemma pendedOn_update ds d x y u : ds !! d = Some x →
  pendedOn (<[d := y]> ds) u = pendedOn ds u - asOne (pendsOn u x) + asOne (pendsOn u y).
Proof.
  intros Hd. rewrite <- (insert_delete_eq ds d y). rewrite pendedOn_insert by apply lookup_delete_eq.
  by rewrite (pendedOn_delete _ _ x).
Qed.

Lemma pendedOn_none ds u : (∀ d g s, ds !! d ≠ Some (Holding g u s)) → pendedOn ds u = 0.
Proof.
  intros Hn. unfold pendedOn. rewrite map_empty_filter_2; [done|]. intros d x Hx Hp. cbn in Hp.
  destruct x as [|[] u' s]; cbn in Hp; try done. apply Nat.eqb_eq in Hp as ->. by apply Hn in Hx.
Qed.

Lemma pendedOn_pos ds d u s : ds !! d = Some (Holding Pended u s) → 1 ≤ pendedOn ds u.
Proof.
  intros Hd. pose proof (pendedOn_delete ds d _ u Hd) as H1. unfold asOne in H1. cbn in H1. rewrite Nat.eqb_refl in H1.
  unfold pendedOn in *. lia.
Qed.

(** A scheduler that is not disabled counts the dials that are pending on it. *)
Definition counted (st : gmap nat (entry V)) (ds : gmap nat dial) : Prop :=
  ∀ u e, st !! u = Some e → disableTime (sched e) = None → pendedOn ds u ≤ pending (sched e).

(** How the counters move: those of schedulers that are still not disabled. *)
Definition counts_move (δ : nat → Z) (st st' : gmap nat (entry V)) : Prop :=
  ∀ u e', st' !! u = Some e' → disableTime (sched e') = None →
    (∃ e, st !! u = Some e ∧ disableTime (sched e) = None ∧ pending (sched e) + δ u ≤ pending (sched e')) ∨
    (st !! u = None ∧ 0 ≤ pending (sched e')).

Lemma counts_move_insert δ (st : gmap nat (entry V)) u e e' :
  st !! u = Some e → (∀ x, x ≠ u → δ x ≤ 0) →
  (disableTime (sched e') = None → disableTime (sched e) = None ∧ pending (sched e) + δ u ≤ pending (sched e')) →
  counts_move δ st (<[u := e']> st).
Proof.
  intros He Hδ Hs x ex Hx Hn. left. apply lookup_insert_Some in Hx as [[<- <-]|[Hne Hx]].
  - exists e. by destruct (Hs Hn).
  - exists ex. split_and!; [done..|]. specialize (Hδ x (not_eq_sym Hne)). lia.
Qed.

Lemma counts_move_refl st : counts_move (λ _, 0) st st.
Proof. intros u e He Hn. left. exists e. split_and!; [done..|lia]. Qed.

Lemma disableIdleOrOverload_counts now limit v c :
  disableTime (disableIdleOrOverload now limit v c) = None → disableTime c = None ∧ pending (disableIdleOrOverload now limit v c) = pending c.
Proof.
  pose proof (disableIdleOrOverload_later now limit v c) as [_ [H2|(H2 & t & H3 & _)]]; [|congruence]. intros Hn. split; [congruence|].
  unfold disableIdleOrOverload, TryDisableIdle, SetRemainingTime. rewrite H2 in Hn. rewrite Hn. by repeat (case_if || case_match).
Qed.

Lemma cleanUnderlay_counts now also m m' :
  mux_wf m → cleanUnderlay now also m = Ret m' → counts_move (λ _, 0) (m_store m) (m_store m').
Proof.
  intros Hw Hc u e' He' Hn. destruct (cleanUnderlay_spec now also m Hw) as (st' & E & H1 & H2). rewrite E in Hc.
  injection Hc as <-. cbn in He'. left. destruct (decide (u ∈ m_underlays m)) as [Hu|Hu]; [|rewrite H1 in He' by done; exists e'; split_and!; [done..|lia]].
  destruct (proj2 Hw u Hu) as [e He]. exists e. split; [done|]. destruct (H2 u e Hu He) as (e1 & He1 & Hcl). replace e1 with e' in * by congruence.
  unfold cleaned in Hcl. destruct (v_Done (und e)); [subst; split; [done|lia]|]. unfold cleanEntry in Hcl.
  destruct (if closesNow now e then _ else _) as [v| |]; cbn [obind] in Hcl; [|done|done]. injection Hcl as <-. cbn [sched] in *.
  destruct also; [|split; [done|lia]]. destruct (disableIdleOrOverload_counts _ _ _ _ Hn) as [? ->]. split; [done|lia].
Qed.

Lemma closeAll_counts now l st st' : closeAll now l st = Ret st' → counts_move (λ _, 0) st st'.
Proof.
  revert st. induction l as [|u l IH]; intros st Hc; simpl in Hc; [simplify_eq; apply counts_move_refl|].
  destruct (st !! u) as [e|] eqn:He; [|done]. destruct (v_Close now (und e)) as [v| |]; simpl in Hc; try done.
  intros x ex Hx Hn. destruct (IH _ Hc x ex Hx Hn) as [(e1 & He1 & ? & ?)|[Hx' ?]].
  - left. apply lookup_insert_Some in He1 as [[<- <-]|[_ He1]]; [by exists e|by exists e1].
  - right. apply lookup_insert_None in Hx' as [? _]. done.
Qed.

(** What holds of every state: the mux is well formed, the underlay of a dial in
    progress exists and was not idle when the dial got it, and the schedulers
    count the dials. *)
Definition cinv (x : cstate) : Prop :=
  mux_wf (c_mux x) ∧
  (∀ d g u s, c_dials x !! d = Some (Holding g u s) →
    s ≤ c_now x ∧ ∃ e, m_store (c_mux x) !! u = Some e ∧ sparing s (sched e)) ∧
  counted (m_store (c_mux x)) (c_dials x).

Lemma cinv_update m c now ds m' c' ds' δ :
  cinv (mkC m c now ds) → mux_wf m' → store_later now (m_store m) (m_store m') →
  (∀ d g u s, ds' !! d = Some (Holding g u s) →
     (∃ d' g', ds !! d' = Some (Holding g' u s)) ∨
     (s = now ∧ ∃ e, m_store m' !! u = Some e ∧ sparing now (sched e))) →
  counts_move δ (m_store m) (m_store m') → (∀ u, pendedOn ds' u ≤ pendedOn ds u + δ u) →
  (∀ u, m_store m !! u = None → δ u ≤ 0) →
  cinv (mkC m' c' now ds').
Proof.
  intros (_ & Hold & Hcnt) Hw Hl Hds Hmv Hp Hnew. split; [done|]. cbn in *. split.
  - intros d g u s Hd. destruct (Hds d g u s Hd) as [(d' & g' & Hd')|(-> & e & He & Hsp)].
    + destruct (Hold d' g' u s Hd') as (Hs & e & He & Hsp). split; [done|].
      destruct (Hl u e He) as (e' & He' & Hlater). exists e'. split; [done|]. by eapply sparing_later.
    + split; [lia|]. by exists e.
  - intros u e' He' Hn. specialize (Hp u). destruct (Hmv u e' He' Hn) as [(e & He & Hn' & Hle)|[Hno Hle]].
    + specialize (Hcnt u e He Hn'). lia.
    + specialize (Hnew u Hno). rewrite (pendedOn_none ds u) in Hp; [lia|]. intros d g s Hd.
      destruct (Hold d g u s Hd) as (_ & e & He & _). congruence.
Qed.

Lemma mux_wf_flags a b m : mux_wf m → mux_wf (set_flags a b m).
Proof. done. Qed.

Lemma Close_later now m m' :
  Close now m = Ret m' → mux_wf m →
  store_later now (m_store m) (m_store m') ∧ mux_wf m' ∧ counts_move (λ _, 0) (m_store m) (m_store m').
Proof.
  unfold Close. case_if; [intros [= <-] Hw; split_and!; [apply store_later_refl|apply Hw..|apply counts_move_refl]|].
  destruct (closeAll now (m_underlays m) (m_store m)) as [st| |] eqn:E; simpl; try done.
  intros [= <-] Hw. split; [by eapply closeAll_later|]. split; [|by eapply closeAll_counts]. split; simpl; [apply NoDup_nil_2|].
  intros u Hu. by apply elem_of_nil in Hu.
Qed.

Lemma dialIncPending_counts now u m ok m' :
  dialIncPending now u m = Ret (ok, m') → counts_move (λ x, asOne (x =? u)%nat) (m_store m) (m_store m').
Proof.
  unfold dialIncPending. destruct (m_store m !! u) as [e|] eqn:He; [|done].
  destruct (IncPending now (sched e)) as [b c] eqn:Ei. intros [= <- <-]. apply counts_move_insert with e; [done| |].
  - intros x Hx. by rewrite (proj2 (Nat.eqb_neq _ _)).
  - rewrite Nat.eqb_refl. cbn. intros Hn. unfold IncPending in Ei. destruct (disableTime (sched e)) as [t|] eqn:Et.
    + case_if_in Ei; injection Ei as <- <-; cbn in Hn; congruence.
    + injection Ei as <- <-. cbn. split; [done|lia].
Qed.

Lemma dialAttach_counts now sid u m err m' :
  dialAttach now sid u m = Ret (err, m') → counts_move (λ x, - asOne (x =? u)%nat) (m_store m) (m_store m').
Proof.
  unfold dialAttach. destruct (m_store m !! u) as [e|] eqn:He; [|done].
  destruct (NewSession _ _ _ _ _) as [s| |]; simpl; try done.
  destruct (v_AddSession s "" (und e)) as [er v]. intros [= <- <-]. apply counts_move_insert with e; [done| |].
  - intros x Hx. by rewrite (proj2 (Nat.eqb_neq _ _)).
  - rewrite Nat.eqb_refl. cbn. intros Hn. split; [done|lia].
Qed.

(** The last obligation of [cinv_update] when a dial ends or moves on. *)
Ltac dials_kept :=
  let d := fresh in let g := fresh in let u := fresh in let s := fresh in let Hd := fresh in
  intros d g u s Hd; left; first
    [ by exists d, g
    | apply lookup_delete_Some in Hd as [_ Hd]; by exists d, g
    | apply lookup_insert_Some in Hd as [[_ Hd]|[_ Hd]]; [by repeat case_if_in Hd; simplify_eq; eauto|by exists d, g] ].

Lemma cinv_pick m c now ds d draw picked m' :
  cinv (mkC m c now ds) → ds !! d = None → dialPick now draw m = Ret (picked, m') → 0 ≤ draw →
  cinv (mkC m' c now (<[d := match picked with Some u => Holding (BeforeInc false) u now | None => Waiting false end]> ds)).
Proof.
  intros Hi Hd Hp Hdr. pose proof Hi as (Hw & Hold & _). cbn in Hw, Hold. unfold dialPick in Hp.
  destruct (cleanUnderlay now true (set_flags true (m_done m) m)) as [m1| |] eqn:E; simpl in Hp; try done. simplify_eq.
  apply (cinv_update m c now ds _ _ _ (λ _, 0)); [done|exact (mux_wf_clean _ _ (set_flags _ _ _) _ Hw E)|exact (cleanUnderlay_later _ _ (set_flags _ _ _) _ Hw E)| |exact (cleanUnderlay_counts _ _ (set_flags _ _ _) _ Hw E)| |done].
  - intros d1 g u s Hd1. apply lookup_insert_Some in Hd1 as [[_ Hd1]|[_ Hd1]]; [|left; by exists d1, g].
    destruct (maybePickExistingUnderlay now draw m') as [u1|] eqn:Ep; [|done]. simplify_eq. right. split; [done|].
    pose proof (pick_active _ _ _ _ Hdr Ep) as Hact.
    apply elem_of_active in Hact as (_ & e & He & _ & Hdis). exists e. split; [done|]. right. intros t Ht.
    unfold IsDisabled in Hdis. rewrite Ht in Hdis. bool_to_Z. lia.
  - intros u. rewrite pendedOn_insert by done. by destruct (maybePickExistingUnderlay now draw m').
Qed.

Lemma cinv_new m c now ds d sec net draw jit u m' c' :
  cinv (mkC m c now ds) → ds !! d = Some (Waiting sec) → newUnderlay net now draw jit (m, c) = (Ret u, (m', c')) →
  cinv (mkC m' c' now (<[d := Holding (BeforeInc sec) u now]> ds)).
Proof.
  intros Hi Hd Hn. pose proof Hi as (Hw & _). cbn in Hw. apply newUnderlay_spec in Hn as (e & Ha & _ & Hsp & Hp0).
  pose proof (addUnderlay_later now e m) as Hl. pose proof (mux_wf_add e m Hw) as Hw'.
  pose proof (addUnderlay_spec e m) as Hs. rewrite Ha in Hl, Hw', Hs. destruct Hs as (Hno & Hst & _).
  apply (cinv_update m c now ds _ _ _ (λ _, 0)); try done.
  - intros d1 g u1 s Hd1. apply lookup_insert_Some in Hd1 as [[_ Hd1]|[_ Hd1]]; [|left; by exists d1, g].
    simplify_eq. right. split; [done|]. exists e. rewrite Hst, lookup_insert_eq. done.
  - rewrite Hst. intros x ex Hx Hn. apply lookup_insert_Some in Hx as [[<- <-]|[_ Hx]]; [right; split; [done|lia]|].
    by apply counts_move_refl.
  - intros x. rewrite (pendedOn_update _ _ _ _ _ Hd). cbn. lia.
Qed.

Lemma cinv_step x x' : cinv x → cstep x x' → cinv x'.
Proof.
  intros Hi Hstep. destruct Hstep as
    [m c now now' ds Hn|m c now ds d draw picked m' Hg Hd Hp Hdr|m c now ds d sec net draw jit u m' c' Hd Hn
    |m c now ds d sec net draw jit e m' c' Hd Hn|m c now ds d sec u s ok m' Hd Hn|m c now ds d u s sid err m' Hd Hn
    |m c now ds also m' Hc|m c now ds u e v He Hv|m c now ds m' Hc];
    pose proof Hi as (Hw & Hold & Hcnt); simpl in Hw, Hold, Hcnt.
  - split; [done|]. split; [|done]. simpl. intros d g u s Hd. destruct (Hold d g u s Hd) as (Hs & e & He).
    split; [lia|]. by exists e.
  - by apply (cinv_pick m c now ds d draw).
  - by apply (cinv_new m c now ds d sec net draw jit).
  - apply newUnderlay_spec in Hn as ->.
    apply (cinv_update m c now ds _ _ _ (λ _, 0)); [done..|apply store_later_refl|dials_kept|apply counts_move_refl| |done].
    intros x. rewrite (pendedOn_delete _ _ _ _ Hd). cbn. lia.
  - pose proof (dialIncPending_counts _ _ _ _ _ Hn) as Hmv. pose proof Hn as [Hl Hw']%dialIncPending_later; [|done].
    apply (cinv_update m c now ds _ _ _ (λ x, asOne (x =? u)%nat)); [done..|dials_kept|done| |].
    + intros x. rewrite (pendedOn_update _ _ _ _ _ Hd), (Nat.eqb_sym x). destruct (ok || sec); cbn; unfold asOne; case_if; lia.
    + intros x Hx. rewrite (proj2 (Nat.eqb_neq _ _)); [done|]. intros ->. destruct (Hold d _ u s Hd) as (_ & e & He & _). congruence.
  - pose proof (dialAttach_counts _ _ _ _ _ _ Hn) as Hmv. pose proof Hn as [Hl Hw']%dialAttach_later; [|done].
    apply (cinv_update m c now ds _ _ _ (λ x, - asOne (x =? u)%nat)); [done..|dials_kept|done| |].
    + intros x. rewrite (pendedOn_delete _ _ _ _ Hd), (Nat.eqb_sym x). cbn. lia.
    + intros x _. unfold asOne. case_if; lia.
  - apply (cinv_update m c now ds _ _ _ (λ _, 0)); [done|by eapply mux_wf_clean|by eapply cleanUnderlay_later|dials_kept|by eapply cleanUnderlay_counts|intros; lia|done].
  - apply (cinv_update m c now ds _ _ _ (λ _, 0)); [done| | |dials_kept| |intros; lia|done].
    + apply mux_wf_store; [done|]. intros y. apply insert_is_Some.
    + eapply store_later_insert; [done|]. apply sched_later_refl.
    + apply counts_move_insert with e; [done..|]. intros Hn. split; [done|]. cbn. lia.
  - apply Close_later in Hc as (Hl & Hw' & Hmv); [|done]. apply (cinv_update m c now ds _ _ _ (λ _, 0)); [done..|dials_kept|done|intros; lia|done].
Qed.

(** Before the first dial nothing is pending. *)
Definition no_dials (m : Mux V) : Prop :=
  ∀ u e, m_store m !! u = Some e → disableTime (sched e) = None → 0 ≤ pending (sched e).

Lemma cinv_reachable m0 c0 t0 x : mux_wf m0 → no_dials m0 → rtc cstep (mkC m0 c0 t0 ∅) x → cinv x.
Proof.
  intros Hw0 Hn0 Hr. assert (H0' : cinv (mkC m0 c0 t0 ∅)).
  { split; [done|]. split; [intros d g u s Hd; cbn in Hd; by rewrite lookup_empty in Hd|]. intros u e He Hn. cbn in He.
    rewrite pendedOn_none; [by apply (Hn0 u)|]. intros d g s Hd. cbn in Hd. by rewrite lookup_empty in Hd. }
  revert H0'. clear Hw0 Hn0. induction Hr; [done|]. intros. apply IHHr. by eapply cinv_step.
Qed.

(** C13: the cleaner spares the dials.  Start from a sound mux that no dial holds.
    Whatever dials, cleanings, closings and
    events of the underlays are interleaved, and however much time passes between
    them, the next cleaning succeeds.  An underlay that it closes has no session,
    and a dial that still holds it, at whatever stage, got it longer than the idle
    time ago.  An underlay whose scheduling it disables has carried more than its
    volume, or has no session, no dial between [IncPending] and [DecPending], and
    was not scheduled within the idle time. *)
Theorem cleaning_spares_dials m0 c0 t0 x also :
  mux_wf m0 → no_dials m0 → rtc cstep (mkC m0 c0 t0 ∅) x →
  ∃ m', cleanUnderlay (c_now x) also (c_mux x) = Ret m' ∧
    ∀ u e e', m_store (c_mux x) !! u = Some e → m_store m' !! u = Some e' →
      (v_Done (und e) = false → v_Done (und e') = true →
       v_SessionCount (und e) = 0 ∧ ∀ d g s, c_dials x !! d = Some (Holding g u s) → s + idle < c_now x) ∧
      (disableTime (sched e) = None → disableTime (sched e') ≠ None →
       let limit := trafficVolumeLimit (m_multiplexFactor (c_mux x)) in
       limit < v_InBytes (und e) ∨ limit < v_OutBytes (und e) ∨
       v_SessionCount (und e) = 0 ∧ (∀ d s, c_dials x !! d ≠ Some (Holding Pended u s)) ∧
       ∀ l, lastScheduleTime (sched e) = Some l → l + idle ≤ c_now x).
Proof.
  intros Hw0 Hn0 Hr. destruct (cinv_reachable m0 c0 t0 x Hw0 Hn0 Hr) as (Hw & Hold & Hcnt).
  destruct (cleanUnderlay_spec (c_now x) also _ Hw) as (st' & E & H1 & H2).
  eexists. split; [exact E|]. cbn [m_store set_underlays]. intros u e e' He He'.
  destruct (decide (u ∈ m_underlays (c_mux x))) as [Hu|Hu]; [|rewrite H1 in He' by done; replace e' with e by congruence; split; congruence].
  destruct (H2 u e Hu He) as (e1 & He1 & Hcl). replace e1 with e' in Hcl by congruence. unfold cleaned in Hcl.
  destruct (v_Done (und e)) eqn:Hd; [subst e'; split; congruence|].
  destruct (cleanEntry_spec _ _ _ _ _ Hcl Hd) as (Hc & _ & Hdis). split.
  - intros _ Hd'. rewrite Hd' in Hc. symmetry in Hc. destruct (closesNow_disabled _ _ Hc) as (Hn & Hid & _). split; [done|].
    intros d g s Hdial. destruct (Hold d g u s Hdial) as (Hs & e2 & He2 & Hsp). replace e2 with e in Hsp by congruence.
    destruct (Z.lt_ge_cases (s + idle) (c_now x)) as [|Hle]; [done|]. by rewrite (sparing_not_idle s) in Hid.
  - intros Hnone Hsome. rewrite Hdis, Hnone in Hsome. destruct (also && retire (c_now x) _ e) eqn:Er; [|done].
    apply andb_true_iff in Er as [_ Er]. unfold retire in Er. apply orb_prop in Er as [Er|Er]; [|right; left; by bool_to_Z].
    apply orb_prop in Er as [Er|Er]; [right; right|left; by bool_to_Z].
    apply andb_true_iff in Er as [Er Hl]. apply andb_true_iff in Er as [Hs Hp]. bool_to_Z. split_and!; [done| |].
    + intros d s Hdial. apply pendedOn_pos in Hdial. specialize (Hcnt u e He Hnone). lia.
    + intros l Hl'. rewrite Hl' in Hl. bool_to_Z. lia.
Qed.

(** ** Endpoints *)

Lemma acceptUnderlayLoop_spec net p m :
  let m' := acceptUnderlayLoop net p m in
  m_endpoints m' = m_endpoints m ∧ m_used m' = m_used m ∧ m_listening m ⊆ m_listening m' ∧
  (m_acceptHasErr m = true → m_acceptHasErr m' = true) ∧
  (m_acceptHasErr m' = true ∨ p ∈ m_listening m').
Proof.
  unfold acceptUnderlayLoop. repeat case_match; simpl; split_and!; auto; set_solver.
Qed.

Lemma listenAll_spec net ps m :
  let m' := listenAll net ps m in
  m_endpoints m' = m_endpoints m ∧ m_used m' = m_used m ∧ m_listening m ⊆ m_listening m' ∧
  (m_acceptHasErr m = true → m_acceptHasErr m' = true) ∧
  (m_acceptHasErr m' = true ∨ ps ⊆ m_listening m').
Proof.
  unfold listenAll. revert m. induction ps as [|p ps IH]; intros m; simpl; [split_and!; auto; set_solver|].
  destruct (acceptUnderlayLoop_spec net p m) as (H1 & Hu & H2 & H3 & H4).
  destruct (IH (acceptUnderlayLoop net p m)) as (H5 & Hu' & H6 & H7 & H8).
  split_and!; [congruence|congruence|set_solver|auto|]. destruct H4 as [H4|H4], H8 as [H8|H8]; auto. right. set_solver.
Qed.

(** Every endpoint has a listener, or [Accept] reports that one could not be
    created. *)
Definition listens m : Prop := m_acceptHasErr m = true ∨ m_endpoints m ⊆ m_listening m.

Lemma SetEndpoints_listens net eps m :
  listens m → m_used m = true →
  listens (SetEndpoints net eps m) ∧ m_used (SetEndpoints net eps m) = true ∧
  m_listening m ⊆ m_listening (SetEndpoints net eps m).
Proof.
  intros Hl Hu. unfold SetEndpoints. case_if; [|done]. rewrite Hu. case_if; [done|].
  destruct (listenAll_spec net (newEndpoints (m_endpoints m) eps) m) as (H1 & H2 & H3 & H4 & H5). simpl.
  split_and!; [|congruence|done]. unfold listens. simpl. destruct Hl as [Hl|Hl]; [left; auto|].
  destruct H5 as [H5|H5]; [by left|]. right. intros p Hp. destruct (decide (p ∈ m_endpoints m)) as [Ho|Ho]; [set_solver|].
  apply H5. unfold newEndpoints. by apply list_elem_of_filter.
Qed.

Lemma SetEndpoints_calls (calls : list (muxNet * list UnderlayProperties)) m :
  listens m → m_used m = true →
  listens (foldl (λ m '(net, eps), SetEndpoints net eps m) m calls) ∧
  m_listening m ⊆ m_listening (foldl (λ m '(net, eps), SetEndpoints net eps m) m calls).
Proof.
  revert m. induction calls as [|[net eps] calls IH]; intros m Hl Hu; simpl; [done|].
  destruct (SetEndpoints_listens net eps m Hl Hu) as (H1 & H2 & H3).
  destruct (IH _ H1 H2) as [H4 H5]. split; [done|set_solver].
Qed.

(**a started server listens to its endpoints.  After a successful [Start],
    and after any sequence of [SetEndpoints] that follows, each endpoint of the
    mux has a listener, or [Accept] fails because a listener could not be
    created; no listener is ever dropped. *)
Theorem server_listens net m m1 (calls : list (muxNet * list UnderlayProperties)) :
  Start net m = (Ret tt, m1) →
  let m2 := foldl (λ m '(net, eps), SetEndpoints net eps m) m1 calls in
  listens m2 ∧ m_listening m1 ⊆ m_listening m2 ∧
  (m_acceptHasErr m2 = true → (Accept CaseErr m2).1 = Some (Err ErrClosedPipe)).
Proof.
  intros Hs m2.
  assert (Hm1 : listens m1 ∧ m_used m1 = true).
  { unfold Start in Hs. repeat (case_if_in Hs; [done|]). injection Hs as <-.
    destruct (listenAll_spec net (m_endpoints m) (set_flags true (m_done m) m)) as (H1 & Hu & H2 & H3 & H4).
    split; [|done]. destruct H4 as [H4|H4]; [by left|]. right. by rewrite H1. }
  destruct Hm1 as [Hm1 Hu]. destruct (SetEndpoints_calls calls m1 Hm1 Hu) as [H1 H2].
  split_and!; [done..|]. intros He. unfold Accept. by rewrite He.
Qed.

(** Before the mux is used, [SetEndpoints] keeps only the endpoints it did not
    have: those given again are dropped. *)
Theorem unused_endpoints_dropped net eps m :
  m_used m = false → newEndpoints (m_endpoints m) eps ≠ [] →
  ∀ p, p ∈ m_endpoints (SetEndpoints net eps m) ↔ p ∈ eps ∧ p ∉ m_endpoints m.
Proof.
  intros Hu Hn p. unfold SetEndpoints. rewrite Hu, (proj2 (Z.ltb_lt _ _)).
  - simpl. unfold newEndpoints. rewrite list_elem_of_filter. tauto.
  - unfold len. destruct (newEndpoints (m_endpoints m) eps); [done|simpl; lia].
Qed.

(** ** Dialing *)

(** What the stages of a dial after the choice keep. *)
Definition frame m m' : Prop :=
  m_done m' = m_done m ∧ m_used m' = m_used m ∧ m_underlays m ⊆ m_underlays m' ∧ mux_wf m' ∧
  ∀ u e, m_store m !! u = Some e → v_Done (und e) = false →
    ∃ e', m_store m' !! u = Some e' ∧ v_Done (und e') = false.

#[local] Instance frame_trans : Transitive frame.
Proof.
  intros m1 m2 m3 (D1 & U1 & L1 & W1 & S1) (D2 & U2 & L2 & W2 & S2).
  split_and!; [congruence|congruence|set_solver|done|]. intros u e He Hd.
  destruct (S1 u e He Hd) as (e2 & He2 & Hd2). by eapply S2.
Qed.

Lemma frame_refl m : mux_wf m → frame m m.
Proof. intros Hw. split_and!; [done..|]. eauto. Qed.

(** The entry of an identifier, when it is open. *)
Definition open m (u : nat) : Prop := ∃ e, m_store m !! u = Some e ∧ v_Done (und e) = false.

Lemma frame_open m m' u : frame m m' → u ∈ m_underlays m → open m u → u ∈ m_underlays m' ∧ open m' u.
Proof. intros (_ & _ & L & _ & S) Hu (e & He & Hd). split; [by apply L|]. by eapply S. Qed.

Lemma frame_store m u e e' :
  mux_wf m → m_store m !! u = Some e → v_Done (und e') = v_Done (und e) → frame m (set_store (<[u := e']> (m_store m)) m).
Proof.
  intros Hw He Hd. split_and!; [done..| |].
  - apply mux_wf_store; [done|]. intros x. apply insert_is_Some.
  - intros x ex Hx Hdx. destruct (decide (x = u)) as [->|Hne].
    + exists e'. simpl. rewrite lookup_insert_eq. split; [done|]. congruence.
    + exists ex. simpl. by rewrite lookup_insert_ne.
Qed.

Lemma newUnderlay_frame net now draw jitter m c u m' c' :
  newUnderlay net now draw jitter (m, c) = (Ret u, (m', c')) → mux_wf m →
  frame m m' ∧ u ∈ m_underlays m' ∧ open m' u.
Proof.
  intros Hn Hw. apply newUnderlay_spec in Hn as (e & Ha & Hd & _).
  pose proof (addUnderlay_spec e m) as Hs. pose proof (mux_wf_add e m Hw) as Hw'. rewrite Ha in Hs, Hw'.
  destruct Hs as (Hno & Hst & Hl). unfold addUnderlay in Ha. injection Ha as Hu Hm.
  split; [|split; [rewrite Hl; set_solver|exists e; by rewrite Hst, lookup_insert_eq]].
  split_and!; [by subst m'|by subst m'|rewrite Hl; set_solver|done|]. intros x ex Hx Hdx. exists ex.
  rewrite Hst, lookup_insert_ne by congruence. done.
Qed.

Lemma dialIncPending_frame now u m ok m' : dialIncPending now u m = Ret (ok, m') → mux_wf m → frame m m'.
Proof.
  unfold dialIncPending. destruct (m_store m !! u) as [e|] eqn:He; [|done].
  destruct (IncPending now (sched e)) as [b c]. intros [= <- <-] Hw. by eapply frame_store.
Qed.

Lemma dialAttach_frame now sid u m m' :
  dialAttach now sid u m = Ret (None, m') → mux_wf m →
  frame m m' ∧ ∃ e, m_store m' !! u = Some e ∧ 0 < v_SessionCount (und e).
Proof.
  unfold dialAttach. destruct (m_store m !! u) as [e|] eqn:He; [|done].
  destruct (NewSession _ _ _ _ _) as [s| |]; simpl; try done.
  destruct (v_AddSession s "" (und e)) as [er v] eqn:Ea. intros [= -> <-] Hw.
  apply v_AddSession_ok in Ea as [Hc Hd]. split; [by eapply frame_store|].
  eexists. simpl. rewrite lookup_insert_eq. split; [done|]. simpl. pose proof (v_SessionCount_nonneg (und e)). lia.
Qed.

Lemma dialPick_spec now draw m picked m' :
  dialPick now draw m = Ret (picked, m') → mux_wf m → 0 ≤ draw →
  m_done m' = m_done m ∧ m_used m' = true ∧ mux_wf m' ∧
  ∀ u, picked = Some u → u ∈ m_underlays m' ∧ open m' u.
Proof.
  intros Hp Hw Hd. unfold dialPick in Hp.
  destruct (cleanUnderlay_spec now true (set_flags true (m_done m) m) Hw) as (st' & E & _ & _).
  rewrite E in Hp. simpl obind in Hp. injection Hp as Hpick Hm.
  split_and!; [by subst m'|by subst m'|subst m'; exact (mux_wf_clean _ _ (set_flags true (m_done m) m) _ Hw E)|].
  intros u ->. apply pick_active, elem_of_active in Hpick as (Hu & e & He & Hdone & _); [|done].
  split; [by subst m'|]. exists e. by subst m'.
Qed.

(** Inversion of a bind that returns. *)
Lemma mbnd_ret {A B} (k : MM A) (f : A → MM B) x r x' :
  mbnd k f x = (Ret r, x') → ∃ a x1, k x = (Ret a, x1) ∧ f a x1 = (Ret r, x').
Proof. unfold mbnd. destruct (k x) as [[a| |] x1]; intros E; [by exists a, x1|done..]. Qed.

Lemma mstep_ret {A} (f : Mux V → outcome (A * Mux V)) m c a m' c' :
  mstep f (m, c) = (Ret a, (m', c')) → f m = Ret (a, m') ∧ c' = c.
Proof. unfold mstep. simpl. destruct (f m) as [[a1 m1]| |]; intros E; by simplify_eq. Qed.

(** The stages of a dial that returns. *)
Lemma DialContext_ret net now d m c u sid m' c' :
  DialContext net now d (m, c) = (Ret (u, sid), (m', c')) → mux_wf m → 0 ≤ d_pick d →
  m_done m' = m_done m ∧ m_used m' = true ∧ mux_wf m' ∧ u ∈ m_underlays m' ∧ open m' u ∧
  ∃ e, m_store m' !! u = Some e ∧ 0 < v_SessionCount (und e).
Proof.
  intros HD Hw Hdraw. unfold DialContext in HD. simpl in HD. destruct (dialGuards m); [done|].
  apply mbnd_ret in HD as (picked & [m1 c1] & HP & HD). apply mstep_ret in HP as [HP ->].
  apply dialPick_spec in HP as (Hdone & Hused & Hw1 & Hpick); [|done..].
  apply mbnd_ret in HD as (u1 & [m2 c2] & HN & HD).
  assert (frame m1 m2 ∧ u1 ∈ m_underlays m2 ∧ open m2 u1) as (F2 & I2 & O2).
  { destruct picked as [u0|]; [|by eapply newUnderlay_frame]. injection HN as <- <- <-.
    split; [by apply frame_refl|by apply Hpick]. }
  apply mbnd_ret in HD as (ok & [m3 c3] & HI & HD). apply mstep_ret in HI as [HI ->].
  assert (frame m2 m3) as F3 by (eapply dialIncPending_frame; [done|apply F2]).
  apply mbnd_ret in HD as (u2 & [m4 c4] & HN2 & HD).
  assert (frame m3 m4 ∧ u2 ∈ m_underlays m4 ∧ open m4 u2) as (F4 & I4 & O4).
  { destruct ok.
    - injection HN2 as <- <- <-. split; [apply frame_refl, F3|]. by eapply frame_open.
    - apply mbnd_ret in HN2 as (u3 & [m5 c5] & HN2 & HI2). eapply newUnderlay_frame in HN2 as (F5 & I5 & O5); [|apply F3].
      apply mbnd_ret in HI2 as (ok2 & [m6 c6] & HI2 & HR). apply mstep_ret in HI2 as [HI2 ->].
      injection HR as <- <- <-. eapply dialIncPending_frame in HI2; [|apply F5].
      split; [by etrans|]. by eapply frame_open. }
  apply mbnd_ret in HD as (err & [m5 c5] & HA & HD). apply mstep_ret in HA as [HA ->].
  destruct err as [er|]; [done|]. injection HD as <- <- <- <-.
  apply dialAttach_frame in HA as [F5 (e & He & Hn)]; [|apply F4].
  assert (frame m1 m5) as (D & U & L & W & S) by (do 3 (etrans; [done|]); done).
  destruct (frame_open _ _ _ F5 I4 O4). split_and!; [congruence|congruence|done..|]. by exists e.
Qed.

(** closing a mux does not stop it.  [DialContext] never looks at [done]: on
    a mux that was closed it still opens a connection and attaches a session,
    and the mux, being closed already, does nothing when it is closed again, so
    the connection stays open with its session. *)
Theorem dial_after_close net now d m c u sid m' c' :
  m_done m = true → mux_wf m → 0 ≤ d_pick d →
  DialContext net now d (m, c) = (Ret (u, sid), (m', c')) →
  (∀ t, Close t m' = Ret m') ∧ u ∈ m_underlays m' ∧
  ∃ e, m_store m' !! u = Some e ∧ v_Done (und e) = false ∧ 0 < v_SessionCount (und e).
Proof.
  intros Hd Hw Hp HD. apply DialContext_ret in HD as (H1 & _ & _ & H2 & (e & He & Ho) & e1 & He1 & Hn); [|done..].
  split; [intros t; unfold Close; by rewrite H1, Hd|]. split; [done|]. exists e. replace e1 with e in Hn by congruence. done.
Qed.

(** ** Settings

    What the setters have stored; nothing that a dial does changes it. *)
Definition settings m :=
  (m_isClient m, m_endpoints m, m_username m, m_password m, m_multiplexFactor m, m_users m, m_trafficPattern m, m_done m).

Definition keeps_settings {A} (c : MM A) : Prop := ∀ x, settings (c x).2.1 = settings x.1.

Lemma keeps_bnd {A B} (c : MM A) (k : A → MM B) : keeps_settings c → (∀ a, keeps_settings (k a)) → keeps_settings (mbnd c k).
Proof. intros Hc Hk x. specialize (Hc x). unfold mbnd. destruct (c x) as [[a| |] y]; [|done..]. by rewrite Hk. Qed.
Lemma keeps_step {A} (f : Mux V → outcome (A * Mux V)) :
  (∀ m a m', f m = Ret (a, m') → settings m' = settings m) → keeps_settings (mstep f).
Proof. intros Hf x. unfold mstep. destruct (f x.1) as [[a m]| |] eqn:E; [|done..]. by apply Hf in E. Qed.
Lemma settings_ret {A} (a : A) : keeps_settings (mret a).
Proof. done. Qed.
Lemma keeps_lift {A} (o : outcome A) : keeps_settings (mlift o).
Proof. done. Qed.

Lemma keeps_newUnderlay net now draw jitter : keeps_settings (newUnderlay net now draw jitter).
Proof.
  apply keeps_bnd; [apply keeps_step; unfold pickEndpoint; intros m a m' E; by repeat case_match; simplify_eq|].
  intros p. apply keeps_bnd; [|intros e; apply keeps_step; by intros m a m' [= _ <-]].
  assert (Hb : ∀ st, keeps_settings (underlayBlock now jitter st)) by (intros st [m c]; unfold underlayBlock; by repeat case_match).
  unfold makeUnderlay. destruct (p_TransportProtocol p); first [apply keeps_lift|apply keeps_bnd; [apply Hb|intros; apply keeps_lift]].
Qed.

Lemma DialContext_settings net now d : keeps_settings (DialContext net now d).
Proof.
  assert (Hinc : ∀ u, keeps_settings (mstep (dialIncPending now u))).
  { intros u. apply keeps_step. intros m a m'. unfold dialIncPending. destruct (m_store m !! u) as [e|]; [|done].
    destruct (IncPending now (sched e)). by intros [= _ <-]. }
  intros x. unfold DialContext. destruct (dialGuards x.1); [done|].
  refine (keeps_bnd _ _ _ _ x); [apply keeps_step|intros picked].
  { intros m a m'. unfold dialPick, cleanUnderlay. destruct (cleanUnderlays _ _ _ _ _) as [[l st]| |]; simpl; [|done..].
    by intros [= _ <-]. }
  apply keeps_bnd; [destruct picked; [apply settings_ret|apply keeps_newUnderlay]|intros u].
  apply keeps_bnd; [apply Hinc|intros ok]. apply keeps_bnd; [|intros u'].
  - destruct ok; [apply settings_ret|]. apply keeps_bnd; [apply keeps_newUnderlay|intros u2].
    apply keeps_bnd; [apply Hinc|intros; apply settings_ret].
  - apply keeps_bnd; [apply keeps_step|intros [e|]; [apply keeps_lift|apply settings_ret]].
    intros m a m'. unfold dialAttach. destruct (m_store m !! u') as [e|]; [|done].
    destruct (NewSession _ _ _ _ _) as [s| |]; simpl; [|done..]. destruct (v_AddSession _ _ _). by intros [= _ <-].
Qed.

(** The first endpoints of a mux. *)
Lemma SetEndpoints_first net eps m :
  m_endpoints m = [] → m_used m = false → eps ≠ [] →
  SetEndpoints net eps m = set_listening eps (m_listening m) (m_acceptHasErr m) m.
Proof.
  intros He Hu Hne. unfold SetEndpoints. rewrite He, Hu.
  assert (newEndpoints [] eps = eps) as -> by (apply filter_full; intros x _; apply not_elem_of_nil).
  rewrite (proj2 (Z.ltb_lt _ _)); [done|]. destruct eps; [done|]. unfold len. simpl. lia.
Qed.

(** Closing closes every underlay of the mux. *)
Lemma closeAll_done now l st st' u :
  closeAll now l st = Ret st' → u ∈ l → ∃ e, st' !! u = Some e ∧ v_Done (und e) = true.
Proof.
  assert (Hkeep : ∀ l st st' u e, closeAll now l st = Ret st' → st !! u = Some e → v_Done (und e) = true →
    ∃ e', st' !! u = Some e' ∧ v_Done (und e') = true).
  { induction l0 as [|w l0 IH]; intros st0 st1 x e Hc Hx Hd; simpl in Hc; [injection Hc as <-; by exists e|].
    destruct (st0 !! w) as [ew|] eqn:Ew; [|done]. destruct (v_Close now (und ew)) as [v| |] eqn:Ev; simpl in Hc; [|done..].
    destruct (decide (x = w)) as [->|Hne].
    - eapply IH; [exact Hc|apply lookup_insert_eq|]. simpl. by eapply v_Close_ok.
    - eapply IH; [exact Hc|by rewrite lookup_insert_ne|done]. }
  revert st. induction l as [|w l IH]; intros st Hc Hu; [by apply elem_of_nil in Hu|]. simpl in Hc.
  destruct (st !! w) as [ew|] eqn:Ew; [|done]. destruct (v_Close now (und ew)) as [v| |] eqn:Ev; simpl in Hc; [|done..].
  apply elem_of_cons in Hu as [->|Hu]; [|by eapply IH].
  eapply Hkeep; [exact Hc|apply lookup_insert_eq|]. simpl. by eapply v_Close_ok.
Qed.

End Ops.

(** ** [baseUnderlay] is such an underlay

    With the state of its connection, which the sessions write to when they are
    closed; [others] is what the other goroutines of a session do meanwhile. *)

Section Base.
Context {T : Type} `{BTree T} {U : Type} `{SegmentWriter U}.
Context (others : SM (T := T) (U := U) unit) (newConn : U).

Record baseV := mkBase { b_u : Underlay T; b_inBytes : Z; b_outBytes : Z; b_conn : U }.

#[local] Instance baseMuxUnderlay : MuxUnderlay baseV T := {|
  v_new client mtu tp us := mkBase (newBaseUnderlay client mtu tp us) 0 0 newConn;
  v_MTU v := u_mtu (b_u v);
  v_transport v := u_transport (b_u v);
  v_SessionCount v := SessionCount (b_u v);
  v_InBytes := b_inBytes;
  v_OutBytes := b_outBytes;
  v_Done v := u_done (b_u v);
  v_setUsers us v :=
    mkBase (mkUnderlay (u_isClient (b_u v)) (u_mtu (b_u v)) (u_transport (b_u v)) us (sessionMap (b_u v))
              (readySessions (b_u v)) (u_done (b_u v))) (b_inBytes v) (b_outBytes v) (b_conn v);
  v_Close now v :=
    let! (u, w) := CloseUnderlay others (now / 1000) (b_u v) (b_conn v) in
    Ret (mkBase u (b_inBytes v) (b_outBytes v) w);
  v_AddSession s addr v :=
    let '(err, u) := AddSession s addr (b_u v) in (err, mkBase u (b_inBytes v) (b_outBytes v) (b_conn v))
|}.

#[local] Instance baseMuxUnderlayLaws : MuxUnderlayLaws baseV T.
Proof.
  split.
  - done.
  - intros now v v'. simpl. unfold CloseUnderlay. destruct (u_done (b_u v)) eqn:E; simpl; [by intros [= <-]|].
    destruct (closeList _ _ _ _ _) as [[m w]| |]; simpl; intros E'; by simplify_eq.
  - intros now v. simpl. unfold SessionCount, CloseUnderlay. intros Hs.
    destruct (u_done (b_u v)); simpl; [by eexists|].
    rewrite (map_size_empty_inv (sessionMap (b_u v))) by lia. rewrite map_to_list_empty. simpl. by eexists.
  - intros s a v v'. simpl. unfold AddSession. destruct (addSessionError s (b_u v)) as [e|] eqn:E; [done|].
    intros [= <-]. simpl. split; [|done]. unfold SessionCount. simpl. rewrite map_size_insert_None; [lia|].
    unfold addSessionError in E. repeat (case_if_in E; [done|]). by destruct (sessionMap (b_u v) !! id s).
  - intros s a v v' e. simpl. unfold AddSession. destruct (addSessionError s (b_u v)) as [e'|] eqn:E; [|done].
    intros [= _ <-]. by destruct v.
  - intros v. simpl. unfold SessionCount. lia.
  - done.
Qed.
End Base.

(** ** Witnesses

    A client and a server mux over [baseUnderlay], in a network where everything
    succeeds. *)

Definition demoWriter : SegmentWriter unit := λ _ _ seg w, (Ret seg, w).
#[local] Existing Instance demoWriter.
Definition demoV : Type := @baseV (list segment) unit.
#[local] Instance demoUnderlay : MuxUnderlay demoV (list segment) := baseMuxUnderlay (λ x, Ret (tt, x)) tt.
#[local] Instance demoUnderlayLaws : MuxUnderlayLaws demoV (list segment).
Proof. apply baseMuxUnderlayLaws. Qed.

Definition demoNetwork : muxNet :=
  mkMuxNet (λ _ _, Ret [[10; 0; 0; 1]]) true (λ _ _, Ret tt) (λ _ _, Ret tt) (λ _ _, Ret tt) (λ _, []).
Definition demoEndpoint (port : string) : UnderlayProperties :=
  mkProps 1400 StreamTransport (mkNetAddr "tcp" (string_bytes ("127.0.0.1:" +:+ port)))
    (mkNetAddr "tcp" (string_bytes ("127.0.0.1:" +:+ port))).

(** Three underlays: in use, unused and disabled for long, closed. *)
Definition demoEntry (last dis : option Z) (dn : bool) : entry demoV :=
  mkEntry (mkSched 0 last dis) None
    (mkBase (mkUnderlay true 1400 StreamTransport ∅ ∅ [] dn) 0 0 tt).
Definition demoMux : Mux demoV :=
  mkMux true [demoEndpoint "1"] [0; 1; 2]%nat
    (<[0%nat := demoEntry (Some 1000) None false]> (<[1%nat := demoEntry (Some 10) (Some 20) false]>
      {[2%nat := demoEntry None None true]}))
    [] false true false [] "user" [1; 2] 2 ∅ None false.

Lemma demoMux_wf : mux_wf demoMux.
Proof.
  split; [apply (bool_decide_unpack _); vm_compute; exact I|].
  intros u Hu. simpl in Hu. repeat (apply elem_of_cons in Hu as [->|Hu]; [vm_compute; by eexists|]).
  by apply elem_of_nil in Hu.
Qed.

Lemma mux_clean_exact_witness :
  mux_wf demoMux ∧ ∃ m', cleanUnderlay 100 1010 true demoMux = Ret m' ∧ m_underlays m' = [0%nat].
Proof.
  split; [exact demoMux_wf|].
  destruct (mux_clean_exact 100 1010 true demoMux) as (m' & E & _).
  - exact demoMux_wf.
  - split; simpl; lia.
  - exists m'. split; [exact E|]. revert E. vm_compute. intros [= <-]. reflexivity.
Defined.

Lemma pick_is_even_witness :
  len (filter (λ n, maybePickExistingUnderlay 1010 n demoMux = Some 0%nat) (seqZ 0 3)) = 2.
Proof.
  destruct (pick_is_even 1010 demoMux demoMux_wf) as (_ & _ & H).
  destruct H as [H _]; [vm_compute; reflexivity|].
  apply (H 0%nat). apply (bool_decide_unpack _). vm_compute. exact I.
Defined.

Lemma demoMux_no_dials : no_dials demoMux.
Proof.
  intros u e He _. unfold demoMux in He. cbn [m_store] in He. repeat (apply lookup_insert_Some in He as [[_ <-]|[_ He]]; [vm_compute; discriminate|]).
  apply lookup_singleton_Some in He as [_ <-]. vm_compute. discriminate.
Qed.

Lemma cleaning_spares_dials_witness :
  ∃ m' x, rtc (cstep 100 toyKdf) (mkC demoMux ∅ 1010 ∅) x ∧
    c_dials x !! 0%nat = Some (Holding (BeforeInc false) 0%nat 1010) ∧ c_now x = 1100 ∧
    cleanUnderlay 100 (c_now x) true (c_mux x) = Ret m' ∧
    (∀ e, m_store m' !! 0%nat = Some e → v_Done (und e) = false).
Proof.
  destruct (dialPick 100 1010 0 demoMux) as [[picked m1]|e|p] eqn:E; [|exfalso; revert E; vm_compute; discriminate..].
  set (ds := <[0%nat := Holding (BeforeInc false) 0%nat 1010]> ∅ : gmap nat dial).
  assert (Hr : rtc (cstep 100 toyKdf) (mkC demoMux ∅ 1010 ∅) (mkC m1 ∅ 1100 ds)).
  { eapply rtc_l.
    - eapply (step_pick 100 toyKdf demoMux ∅ 1010 ∅ 0%nat 0 picked m1); [vm_compute; reflexivity..|exact E|lia].
    - eapply rtc_l; [|apply rtc_refl].
      replace picked with (Some 0%nat) by (revert E; vm_compute; intros [= <- _]; reflexivity).
      apply step_time. lia. }
  destruct (cleaning_spares_dials 100 toyKdf demoMux ∅ 1010 (mkC m1 ∅ 1100 ds) true) as (m' & Hc & Hs);
    [exact demoMux_wf|exact demoMux_no_dials|exact Hr|].
  exists m', (mkC m1 ∅ 1100 ds). split; [exact Hr|]. split; [reflexivity|]. split; [reflexivity|].
  split; [exact Hc|]. intros e He. destruct (v_Done (und e)) eqn:Ed; [|reflexivity]. exfalso.
  destruct (m_store m1 !! 0%nat) as [e0|] eqn:E0; [|revert E; vm_compute; intros [= _ <-]; discriminate E0].
  assert (Hd : v_Done (und e0) = false) by (revert E; vm_compute; intros [= _ <-]; simpl in E0; by injection E0 as <-).
  pose proof (proj2 (proj1 (Hs 0%nat e0 e E0 He) Hd Ed) 0%nat (BeforeInc false) 1010 eq_refl) as Hlt. cbn in Hlt. lia.
Defined.

Definition demoServer : Mux demoV :=
  mkMux false [demoEndpoint "1"] [] ∅ [] false false false [] "" [] 0 {["user" := []]} None false.

Lemma server_listens_witness :
  listens (SetEndpoints demoNetwork [demoEndpoint "1"; demoEndpoint "2"] (Start demoNetwork demoServer).2) ∧
  m_listening (SetEndpoints demoNetwork [demoEndpoint "1"; demoEndpoint "2"] (Start demoNetwork demoServer).2)
    = [demoEndpoint "1"; demoEndpoint "2"].
Proof.
  destruct (server_listens demoNetwork demoServer (Start demoNetwork demoServer).2
    [(demoNetwork, [demoEndpoint "1"; demoEndpoint "2"])]) as (H & _).
  - vm_compute. reflexivity.
  - split; [exact H|]. vm_compute. reflexivity.
Defined.

(** A client mux after [Close], and a dial on it. *)
Definition demoClosed : Mux demoV :=
  mkMux true [demoEndpoint "1"] [] ∅ [] false true true [] "user" [1; 2] 2 ∅ None false.
Definition demoDraws : dialDraws := mkDraws 0 0 0 0 0 7.
Definition demoDial : outcome (nat * Z) * (Mux demoV * cipherCache) :=
  DialContext 100 toyKdf demoNetwork 2000 demoDraws (demoClosed, ∅).

Lemma demoDial_ok : match demoDial.1 with Ret (_, sid) => sid =? 7 | _ => false end = true.
Proof. vm_compute. reflexivity. Qed.

Lemma demoClosed_wf : mux_wf demoClosed.
Proof. split; [apply NoDup_nil_2|]. intros u Hu. by apply elem_of_nil in Hu. Qed.

Lemma dial_after_close_witness :
  ∃ u m' c', demoDial = (Ret (u, 7), (m', c')) ∧ (∀ t, Close t m' = Ret m') ∧ u ∈ m_underlays m'.
Proof.
  pose proof demoDial_ok as Hok. destruct demoDial as [[[u sid]|e|p] [m' c']] eqn:ED; cbn [fst] in Hok; try discriminate Hok.
  apply Z.eqb_eq in Hok as ->. exists u, m', c'. split; [reflexivity|].
  destruct (dial_after_close 100 toyKdf demoNetwork 2000 demoDraws demoClosed ∅ u 7 m' c')
    as (H1 & H2 & _); [reflexivity|exact demoClosed_wf|simpl; lia|exact ED|]. by split.
Defined.

End Mux.
Export Mux.
