(* ===== verification/MuxAccept.v ===== *)
(** * Accepting sessions on a server: pkg/protocol/mux.go, [acceptUnderlayLoop]

    The part of the loop behind the start of the listener, which Mux.v has.  A raw
    connection (or the one socket of a UDP endpoint) becomes an underlay of the mux,
    with two goroutines: its event loop, which makes sessions ready, and a forwarder,
    which moves them to the channel of the mux.  The goroutines take their steps in
    any order: a run is a list of moves.  The mux uses of an underlay what the class
    [ReadyUnderlay] has; the underlays of Mux.v are an instance.

    The second part is the count of underlays with its maximum, which every new
    underlay updates in three steps. *)

From S2P Require Import Prelude Segment SessionState Session UnderlayLoop Scheduler Mux.
Local Open Scope Z_scope.

Module MuxAccept.

(** The channel of ready sessions of an underlay. *)
Class ReadyUnderlay (V : Type) := {
  v_ready : V → list Z;
  v_setReady : list Z → V → V
}.
Class ReadyUnderlayLaws (V T : Type) `{MuxUnderlay V T} `{!ReadyUnderlay V} := {
  v_ready_set l v : v_ready (v_setReady l v) = l;
  v_ready_close now v v' : v_Close now v = Ret v' → v_ready v' = v_ready v;
  v_ready_new c mtu tp us : v_ready (v_new c mtu tp us) = []
}.

(** A forwarder waits for a session, holds one that the mux has no room for yet, or has
    returned. *)
Inductive forwarder := Waiting | Holding (sid : Z) | Ended.

Section Loop.
Context {V T : Type} `{MuxUnderlay V T} `{!ReadyUnderlay V} (idle : Z).

(** The mux, the forwarders, and what was made ready and accepted so far, by underlay. *)
Record acceptState := mkAccept {
  x_mux : Mux V;
  x_fwd : gmap nat forwarder;
  x_opened : list (nat * Z);
  x_taken : list (nat * Z)
}.

Inductive muxMove :=
| NewUnderlay (now : Z) (p : UnderlayProperties) (tp : TransportProtocol)   (** a connection or a socket *)
| SessionReady (k : nat) (sid : Z)                                          (** the event loop of underlay [k] *)
| Take (k : nat) | TakeClosed (k : nat)                                     (** [underlay.Accept] *)
| Push (k : nat) | Cancelled (k : nat)                                      (** the select on the channel *)
| AcceptCall.                                                               (** [Mux.Accept] returns a session *)

Definition setReady (k : nat) (e : entry V) (l : list Z) (m : Mux V) : Mux V :=
  set_store (<[k := mkEntry (sched e) (e_block e) (v_setReady l (und e))]> (m_store m)) m.
Definition setFwd (k : nat) (f : forwarder) (x : acceptState) : acceptState :=
  mkAccept (x_mux x) (<[k := f]> (x_fwd x)) (x_opened x) (x_taken x).

(** [None]: the move is not possible, the goroutine waits. *)
Definition acceptStep (mv : muxMove) (x : acceptState) : option acceptState :=
  let m := x_mux x in
  match mv with
  | NewUnderlay now p tp =>
      match acceptUnderlay idle now p tp m with
      | Ret (k, m) => Some (mkAccept m (<[k := Waiting]> (x_fwd x)) (x_opened x) (x_taken x))
      | _ => None
      end
  | SessionReady k sid =>
      match m_store m !! k with
      | Some e =>
          if v_Done (und e) || (sessionChanCapacity <=? len (v_ready (und e))) then None
          else Some (mkAccept (setReady k e (v_ready (und e) ++ [sid]) m) (x_fwd x) (x_opened x ++ [(k, sid)]) (x_taken x))
      | None => None
      end
  | Take k =>
      match x_fwd x !! k, m_store m !! k with
      | Some Waiting, Some e =>
          match v_ready (und e) with
          | sid :: l => Some (setFwd k (Holding sid) (mkAccept (setReady k e l m) (x_fwd x) (x_opened x) (x_taken x)))
          | [] => None
          end
      | _, _ => None
      end
  | TakeClosed k =>
      match x_fwd x !! k, m_store m !! k with
      | Some Waiting, Some e => if v_Done (und e) then Some (setFwd k Ended x) else None
      | _, _ => None
      end
  | Push k =>
      match x_fwd x !! k with
      | Some (Holding sid) =>
          if sessionChanCapacity <=? len (m_chAccept m) then None
          else Some (setFwd k Waiting (mkAccept (set_chAccept (m_chAccept m ++ [(k, sid)]) m) (x_fwd x) (x_opened x) (x_taken x)))
      | _ => None
      end
  | Cancelled k => match x_fwd x !! k with Some (Holding _) => if m_done m then Some (setFwd k Ended x) else None | _ => None end
  | AcceptCall =>
      match Mux.Accept CaseConn m with
      | (Some (Ret c), m) => Some (mkAccept m (x_fwd x) (x_opened x) (x_taken x ++ [c]))
      | _ => None
      end
  end.

Fixpoint acceptRun (mvs : list muxMove) (x : acceptState) : option acceptState :=
  match mvs with [] => Some x | mv :: mvs => acceptStep mv x ≫= acceptRun mvs end.
End Loop.
Arguments acceptState : clear implicits.
Arguments mkAccept {V}.
Arguments x_mux {V}.
Arguments x_fwd {V}.
Arguments x_opened {V}.
Arguments x_taken {V}.

(** ** The count of underlays *)

(** Steps of the goroutine [i] that has a new underlay: add one, load the maximum,
    store; and the close of an underlay. *)
Inductive countMove := CAdd (i : nat) | CLoad (i : nat) | CStore (i : nat) | CClose.
Inductive countStage := Added (currEst : Z) | Loaded (currEst maxConn : Z).
Record counts := mkCounts { CurrEstablished : Z; MaxConn : Z; peak : Z; stages : gmap nat countStage }.

Definition countStep (mv : countMove) (c : counts) : option counts :=
  match mv with
  | CAdd i =>
      match stages c !! i with
      | None => let n := CurrEstablished c + 1 in Some (mkCounts n (MaxConn c) (Z.max n (peak c)) (<[i := Added n]> (stages c)))
      | _ => None
      end
  | CLoad i => match stages c !! i with Some (Added n) => Some (mkCounts (CurrEstablished c) (MaxConn c) (peak c) (<[i := Loaded n (MaxConn c)]> (stages c))) | _ => None end
  | CStore i =>
      match stages c !! i with
      | Some (Loaded n m) => Some (mkCounts (CurrEstablished c) (if m <? n then n else MaxConn c) (peak c) (delete i (stages c)))
      | _ => None
      end
  | CClose => Some (mkCounts (CurrEstablished c - 1) (MaxConn c) (peak c) (stages c))
  end.
Fixpoint countRun (mvs : list countMove) (c : counts) : option counts :=
  match mvs with [] => Some c | mv :: mvs => countStep mv c ≫= countRun mvs end.
Definition counts0 : counts := mkCounts 0 0 0 ∅.

(** * Properties *)

(** ** Sessions arrive in order, once *)

Section Order.
Context {V T : Type} `{MuxUnderlay V T} `{!MuxUnderlayLaws V T} `{!ReadyUnderlay V} `{!ReadyUnderlayLaws V T} (idle : Z).

Definition sessionsOf (k : nat) (l : list (nat * Z)) : list Z := (λ x, x.2) <$> filter (λ x, x.1 = k) l.
Definition held (f : option forwarder) : list Z := match f with Some (Holding sid) => [sid] | _ => [] end.
Definition readyOf (k : nat) (m : Mux V) : list Z := match m_store m !! k with Some e => v_ready (und e) | None => [] end.

(** The way of the sessions of underlay [k]: accepted, in the channel, with the forwarder,
    ready; all of them in the order in which they were opened.  A forwarder that has
    ended may have dropped the one it held. *)
Definition inFlight (k : nat) (x : acceptState V) : list Z :=
  sessionsOf k (x_taken x) ++ sessionsOf k (m_chAccept (x_mux x)) ++ held (x_fwd x !! k) ++ readyOf k (x_mux x).
Definition way (k : nat) (x : acceptState V) : Prop :=
  match x_fwd x !! k with
  | Some Ended => ∃ lost, sessionsOf k (x_opened x) = sessionsOf k (x_taken x) ++ sessionsOf k (m_chAccept (x_mux x)) ++ lost
  | _ => sessionsOf k (x_opened x) = inFlight k x
  end.
Record accept_ok (x : acceptState V) : Prop := {
  ak_wf : mux_wf (x_mux x);
  ak_fwd : ∀ k, is_Some (x_fwd x !! k) → is_Some (m_store (x_mux x) !! k);
  ak_way : ∀ k, way k x
}.

Lemma of_app k l l' : sessionsOf k (l ++ l') = sessionsOf k l ++ sessionsOf k l'.
Proof. unfold sessionsOf. by rewrite filter_app, fmap_app. Qed.
Lemma of_cons_same k sid l : sessionsOf k ((k, sid) :: l) = sid :: sessionsOf k l.
Proof. unfold sessionsOf. by rewrite filter_cons_True. Qed.
Lemma of_cons_other k k' sid l : k' ≠ k → sessionsOf k ((k', sid) :: l) = sessionsOf k l.
Proof. intros Hk. unfold sessionsOf. by rewrite filter_cons_False. Qed.

(** A new underlay changes no other one's ready sessions, and has none. *)
Lemma acceptUnderlay_ready now p tp m k m' : mux_wf m → acceptUnderlay idle now p tp m = Ret (k, m') →
  mux_wf m' ∧ m_store m !! k = None ∧ is_Some (m_store m' !! k) ∧ m_chAccept m' = m_chAccept m ∧ (∀ j, readyOf j m' = readyOf j m) ∧
  (∀ j, m_store m' !! j = None → m_store m !! j = None).
Proof.
  intros Hw. unfold acceptUnderlay. set (e := mkEntry _ _ _). pose proof (addUnderlay_spec e m) as Ha. pose proof (mux_wf_add e m Hw) as Hw1.
  assert (Hc : m_chAccept (addUnderlay e m).2 = m_chAccept m) by done. destruct (addUnderlay e m) as [u m1]. cbn [snd] in *. destruct Ha as (Hn & Hst & Hl).
  destruct (cleanUnderlay_spec idle now false m1 Hw1) as (st' & E & H1 & H2). pose proof (mux_wf_clean idle now false m1 _ Hw1 E) as Hw2. rewrite E. cbn [obind]. intros [= <- <-].
  assert (Hr : ∀ j e1, m_store m1 !! j = Some e1 → ∃ e2, st' !! j = Some e2 ∧ v_ready (und e2) = v_ready (und e1)).
  { intros j e1 Hj. destruct (decide (j ∈ m_underlays m1)) as [Hin|Hout]; [|exists e1; by rewrite H1]. destruct (H2 j e1 Hin Hj) as (e2 & Hj2 & Hcl). exists e2. split; [done|].
    unfold cleaned in Hcl. destruct (v_Done (und e1)); [by subst|]. unfold cleanEntry in Hcl. apply obind_ret_inv in Hcl as (v & Hv & [= <-]). cbn. destruct (closesNow _ _ _); [by eapply v_ready_close|by injection Hv as <-]. }
  assert (Hnone : ∀ j, m_store m1 !! j = None → st' !! j = None).
  { intros j Hj. rewrite H1; [done|]. intros Hin. destruct Hw1 as [_ Hw1]. destruct (Hw1 j Hin) as [? ?]. congruence. }
  split_and!; [done|done| |done| |].
  - destruct (Hr u e) as (e2 & ? & _); [by rewrite Hst, lookup_insert_eq|by eexists].
  - intros j. unfold readyOf. cbn. destruct (decide (j = u)) as [->|Hj].
    + destruct (Hr u e) as (e2 & -> & ->); [by rewrite Hst, lookup_insert_eq|]. rewrite Hn. apply v_ready_new.
    + assert (Hj1 : m_store m1 !! j = m_store m !! j) by (by rewrite Hst, lookup_insert_ne). destruct (m_store m !! j) as [e1|] eqn:Ej; [|by rewrite Hnone].
      destruct (Hr j e1 Hj1) as (e2 & -> & ->). done.
  - cbn. intros j Hj. destruct (m_store m !! j) as [e1|] eqn:Ej; [|done]. exfalso. assert (Hs : is_Some (m_store m1 !! j)) by (rewrite Hst; destruct (decide (j = u)) as [->|]; [rewrite lookup_insert_eq|rewrite lookup_insert_ne by done]; eauto).
    destruct Hs as [e3 He3]. destruct (Hr j e3 He3) as (? & ? & _). congruence.
Qed.

Lemma way_same k x x' : sessionsOf k (x_opened x') = sessionsOf k (x_opened x) → sessionsOf k (x_taken x') = sessionsOf k (x_taken x) →
  sessionsOf k (m_chAccept (x_mux x')) = sessionsOf k (m_chAccept (x_mux x)) → x_fwd x' !! k = x_fwd x !! k → readyOf k (x_mux x') = readyOf k (x_mux x) → way k x → way k x'.
Proof. unfold way, inFlight. by intros -> -> -> -> ->. Qed.

Lemma readyOf_set k e l m j : m_store m !! k = Some e → readyOf j (setReady k e l m) = if decide (j = k) then l else readyOf j m.
Proof.
  intros Hk. unfold readyOf, setReady. cbn. case_decide as Hj; [subst; rewrite lookup_insert_eq; apply v_ready_set|by rewrite lookup_insert_ne].
Qed.
Lemma wf_set k e l m : m_store m !! k = Some e → mux_wf m → mux_wf (setReady k e l m) ∧ ∀ j, is_Some (m_store m !! j) → is_Some (m_store (setReady k e l m) !! j).
Proof.
  intros Hk [Hn Hl]. assert (Hs : ∀ j, is_Some (m_store m !! j) → is_Some (m_store (setReady k e l m) !! j)).
  { intros j Hj. unfold setReady. cbn. destruct (decide (j = k)) as [->|]; [rewrite lookup_insert_eq; by eexists|by rewrite lookup_insert_ne]. }
  split; [|done]. split; [done|]. cbn. intros u Hu. by apply Hs, Hl.
Qed.

Lemma step_new now p tp x k m : accept_ok x → acceptUnderlay idle now p tp (x_mux x) = Ret (k, m) →
  accept_ok (mkAccept m (<[k := Waiting]> (x_fwd x)) (x_opened x) (x_taken x)).
Proof.
  intros [Hw Hf Hy] E. apply acceptUnderlay_ready in E as (Hw' & Hk & Hk' & Hc & Hr & Hs); [|done]. split; cbn; [done| |].
  - intros j. destruct (decide (j = k)) as [->|Hj]; [done|]. rewrite lookup_insert_ne by done. intros Hx. destruct (Hf j Hx) as [e He].
    destruct (m_store m !! j) eqn:Ej; [by eexists|]. apply Hs in Ej. congruence.
  - intros j. destruct (decide (j = k)) as [->|Hj].
    + assert (Hnone : x_fwd x !! k = None) by (destruct (x_fwd x !! k) eqn:Ef; [|done]; destruct (Hf k) as [? ?]; [by eexists|congruence]).
      specialize (Hy k). unfold way, inFlight in *. rewrite Hnone in Hy. cbn. rewrite lookup_insert_eq. cbn in *. rewrite Hr, Hc. exact Hy.
    + apply (way_same j x); cbn [x_mux x_fwd x_opened x_taken setFwd]; rewrite ?Hc, ?lookup_insert_ne by done; auto.
Qed.

Lemma step_ready k sid x e : accept_ok x → m_store (x_mux x) !! k = Some e →
  accept_ok (mkAccept (setReady k e (v_ready (und e) ++ [sid]) (x_mux x)) (x_fwd x) (x_opened x ++ [(k, sid)]) (x_taken x)).
Proof.
  intros [Hw Hf Hy] Hk. destruct (wf_set k e (v_ready (und e) ++ [sid]) (x_mux x) Hk Hw) as [Hw' Hs]. split; cbn; [done|auto|].
  intros j. destruct (decide (j = k)) as [->|Hj].
  - specialize (Hy k). unfold way, inFlight in *. cbn [x_mux x_fwd x_opened x_taken]. rewrite of_app, of_cons_same, readyOf_set, decide_True by done. unfold readyOf in Hy. rewrite Hk in Hy. change (sessionsOf k []) with (@nil Z).
    destruct (x_fwd x !! k) as [[| |]|]; [| |destruct Hy as [lost ->]; exists (lost ++ [sid])|]; rewrite ?Hy; cbn [held app]; by rewrite <- ?app_assoc.
  - apply (way_same j x); cbn [x_mux x_fwd x_opened x_taken setFwd]; rewrite ?of_app, ?of_cons_other, ?readyOf_set, ?decide_False by done; try done. apply app_nil_r.
Qed.

Lemma step_take k sid l x e : accept_ok x → x_fwd x !! k = Some Waiting → m_store (x_mux x) !! k = Some e → v_ready (und e) = sid :: l →
  accept_ok (setFwd k (Holding sid) (mkAccept (setReady k e l (x_mux x)) (x_fwd x) (x_opened x) (x_taken x))).
Proof.
  intros [Hw Hf Hy] Hk He Hr. destruct (wf_set k e l (x_mux x) He Hw) as [Hw' Hs]. split; cbn; [done| |].
  - intros j. destruct (decide (j = k)) as [->|Hj]; [intros _; apply Hs; by eexists|]. rewrite lookup_insert_ne by done. auto.
  - intros j. destruct (decide (j = k)) as [->|Hj].
    + specialize (Hy k). unfold way, inFlight in *. cbn [x_mux x_fwd x_opened x_taken setFwd]. rewrite lookup_insert_eq, readyOf_set, decide_True by done. unfold readyOf in Hy. rewrite Hk, He, Hr in Hy. exact Hy.
    + apply (way_same j x); cbn [x_mux x_fwd x_opened x_taken setFwd]; rewrite ?readyOf_set, ?decide_False, ?lookup_insert_ne by done; done.
Qed.

Lemma step_end k x f : accept_ok x → x_fwd x !! k = Some f → f ≠ Ended → accept_ok (setFwd k Ended x).
Proof.
  intros [Hw Hf Hy] Hk Hne. split; cbn; [done| |].
  - intros j. destruct (decide (j = k)) as [->|Hj]; [intros _; apply Hf; by eexists|]. rewrite lookup_insert_ne by done. auto.
  - intros j. destruct (decide (j = k)) as [->|Hj]; [|apply (way_same j x); cbn [x_mux x_fwd x_opened x_taken setFwd]; rewrite ?lookup_insert_ne by done; done].
    specialize (Hy k). unfold way, inFlight in *. cbn [x_mux x_fwd x_opened x_taken setFwd]. rewrite lookup_insert_eq. rewrite Hk in Hy. destruct f; [eauto..|done].
Qed.

Lemma step_push k sid x : accept_ok x → x_fwd x !! k = Some (Holding sid) →
  accept_ok (setFwd k Waiting (mkAccept (set_chAccept (m_chAccept (x_mux x) ++ [(k, sid)]) (x_mux x)) (x_fwd x) (x_opened x) (x_taken x))).
Proof.
  intros [Hw Hf Hy] Hk. split; cbn; [done| |].
  - intros j. destruct (decide (j = k)) as [->|Hj]; [intros _; apply Hf; by eexists|]. rewrite lookup_insert_ne by done. auto.
  - intros j. destruct (decide (j = k)) as [->|Hj].
    + specialize (Hy k). unfold way, inFlight in *. cbn [x_mux x_fwd x_opened x_taken setFwd]. rewrite lookup_insert_eq. rewrite Hk in Hy. rewrite Hy.
      change (m_chAccept (set_chAccept ?l ?m)) with l. rewrite of_app, of_cons_same. cbn [held]. by rewrite <- !app_assoc.
    + apply (way_same j x); cbn [x_mux x_fwd x_opened x_taken setFwd]; rewrite ?lookup_insert_ne by done; try done.
      cbn [m_chAccept set_chAccept]. rewrite of_app, of_cons_other by done. apply app_nil_r.
Qed.

Lemma step_accept x c l : accept_ok x → m_chAccept (x_mux x) = c :: l →
  accept_ok (mkAccept (set_chAccept l (x_mux x)) (x_fwd x) (x_opened x) (x_taken x ++ [c])).
Proof.
  intros [Hw Hf Hy] Hc. split; cbn; [done|done|]. intros j. specialize (Hy j). unfold way, inFlight in *. cbn [x_mux x_fwd x_opened x_taken m_chAccept set_chAccept]. rewrite Hc in Hy.
  assert (E : sessionsOf j (x_taken x ++ [c]) ++ sessionsOf j l = sessionsOf j (x_taken x) ++ sessionsOf j (c :: l)) by (rewrite <- !of_app; by rewrite <- app_assoc).
  change (readyOf j (set_chAccept l (x_mux x))) with (readyOf j (x_mux x)).
  destruct (x_fwd x !! j) as [[| |]|]; [| |destruct Hy as [lost ->]; exists lost|]; try rewrite Hy; by rewrite !app_assoc, E.
Qed.

Lemma accept_step_ok mv x x' : accept_ok x → acceptStep idle mv x = Some x' → accept_ok x'.
Proof.
  intros Hx. destruct mv as [now p tp|k sid|k|k|k|k|]; cbn [acceptStep].
  - destruct (acceptUnderlay idle now p tp (x_mux x)) as [[k m]| |] eqn:E; [|done..]. intros [= <-]. by eapply step_new.
  - destruct (m_store (x_mux x) !! k) as [e|] eqn:E; [|done]. case_if; [done|]. intros [= <-]. by apply step_ready.
  - destruct (x_fwd x !! k) as [[]|] eqn:Ef; try done. destruct (m_store (x_mux x) !! k) as [e|] eqn:E; [|done]. destruct (v_ready (und e)) as [|sid l] eqn:Er; [done|]. intros [= <-]. by apply step_take.
  - destruct (x_fwd x !! k) as [[]|] eqn:Ef; try done. destruct (m_store (x_mux x) !! k) as [e|] eqn:E; [|done]. case_if; [|done]. intros [= <-]. by eapply step_end.
  - destruct (x_fwd x !! k) as [[|sid|]|] eqn:Ef; try done. case_if; [done|]. intros [= <-]. by apply step_push.
  - destruct (x_fwd x !! k) as [[|sid|]|] eqn:Ef; try done. case_if; [|done]. intros [= <-]. by eapply step_end.
  - unfold Mux.Accept. destruct (m_chAccept (x_mux x)) as [|c l] eqn:Ec; [done|]. intros [= <-]. by apply step_accept.
Qed.

Lemma acceptRun_ok mvs y z : accept_ok y → acceptRun idle mvs y = Some z → accept_ok z.
Proof.
  revert y. induction mvs as [|mv mvs IH]; intros y Hy Hz; cbn in Hz; [by injection Hz as <-|]. destruct (acceptStep idle mv y) as [y1|] eqn:E; [|done].
  cbn in Hz. eapply IH; [|done]. by eapply accept_step_ok.
Qed.

Definition accept0 (m : Mux V) : acceptState V := mkAccept m ∅ [] [].

(** Whatever the order of the goroutines, the sessions that a caller accepts of an underlay
    are a prefix of those that the underlay opened, in their order and each once;
    as long as its forwarder runs, the others are in the channel of the mux, with the
    forwarder, or ready, in this order. *)
Theorem sessions_accepted_in_order mvs m x k : mux_wf m → m_chAccept m = [] → (∀ j, readyOf j m = []) → acceptRun idle mvs (accept0 m) = Some x →
  sessionsOf k (x_taken x) `prefix_of` sessionsOf k (x_opened x) ∧
  (x_fwd x !! k ≠ Some Ended → sessionsOf k (x_opened x) = sessionsOf k (x_taken x) ++ sessionsOf k (m_chAccept (x_mux x)) ++ held (x_fwd x !! k) ++ readyOf k (x_mux x)).
Proof.
  intros Hw Hc Hr Hrun.
  assert (H0 : accept_ok (accept0 m)).
  { split; cbn; [done|intros j [? Hj]; by rewrite lookup_empty in Hj|]. intros j. unfold way, inFlight. cbn. by rewrite lookup_empty, Hc, Hr. }
  destruct (acceptRun_ok _ _ _ H0 Hrun) as [_ _ Hway]. specialize (Hway k). unfold way, inFlight in Hway. split.
  - destruct (x_fwd x !! k) as [[| |]|]; [| |destruct Hway as [lost ->]; by apply prefix_app_r|]; rewrite Hway; by apply prefix_app_r.
  - intros Hne. by destruct (x_fwd x !! k) as [[| |]|].
Qed.

Lemma acceptRun_app mvs mvs' x y : acceptRun idle mvs x = Some y → acceptRun idle (mvs ++ mvs') x = acceptRun idle mvs' y.
Proof.
  revert x. induction mvs as [|mv mvs IH]; intros x E; cbn in *; [by injection E as ->|]. destruct (acceptStep idle mv x); [|done]. cbn in *. by apply IH.
Qed.

(** Callers empty the channel. *)
Lemma channel_drains x : ∃ mvs x', acceptRun idle mvs x = Some x' ∧ m_chAccept (x_mux x') = [] ∧ x_fwd x' = x_fwd x ∧ m_store (x_mux x') = m_store (x_mux x) ∧ x_opened x' = x_opened x.
Proof.
  remember (m_chAccept (x_mux x)) as l eqn:El. revert x El. induction l as [|c l IH]; intros x El; [by exists [], x|].
  destruct (IH (mkAccept (set_chAccept l (x_mux x)) (x_fwd x) (x_opened x) (x_taken x ++ [c]))) as (mvs & x' & Hr & H1 & H2 & H3 & H4); [done|].
  exists (AcceptCall :: mvs), x'. split; [|done]. cbn [acceptRun acceptStep]. unfold Mux.Accept. rewrite <- El. exact Hr.
Qed.

(** From an empty channel, one session goes all the way. *)
Lemma forwards_one k sid l x e : x_fwd x !! k = Some Waiting → m_store (x_mux x) !! k = Some e → v_ready (und e) = sid :: l → m_chAccept (x_mux x) = [] →
  ∃ x', acceptRun idle [Take k; Push k; AcceptCall] x = Some x' ∧ x_fwd x' !! k = Some Waiting ∧ m_chAccept (x_mux x') = [] ∧ x_opened x' = x_opened x ∧
    ∃ e', m_store (x_mux x') !! k = Some e' ∧ v_ready (und e') = l.
Proof.
  intros Hf He Hr Hc. cbn [acceptRun acceptStep]. rewrite Hf, He, Hr. cbn [mbind option_bind acceptRun acceptStep setFwd x_fwd x_mux]. rewrite lookup_insert_eq.
  change (m_chAccept (setReady k e l (x_mux x))) with (m_chAccept (x_mux x)). rewrite Hc. cbn. eexists. split; [reflexivity|]. cbn. rewrite lookup_insert_eq. split_and!; try done.
  rewrite lookup_insert_eq. eexists. split; [done|]. apply v_ready_set.
Qed.

(** Nothing gets stuck: as long as the forwarder of an underlay runs, callers can accept
    every session that the underlay opened. *)
Theorem sessions_can_be_accepted x k f : accept_ok x → x_fwd x !! k = Some f → f ≠ Ended →
  ∃ mvs x', acceptRun idle mvs x = Some x' ∧ sessionsOf k (x_taken x') = sessionsOf k (x_opened x).
Proof.
  intros Hok Hf Hne.
  assert (Hwait : ∀ l y e, accept_ok y → x_fwd y !! k = Some Waiting → m_store (x_mux y) !! k = Some e → v_ready (und e) = l → m_chAccept (x_mux y) = [] →
    ∃ mvs x', acceptRun idle mvs y = Some x' ∧ sessionsOf k (x_taken x') = sessionsOf k (x_opened y)).
  { induction l as [|sid l IH]; intros y e Hy Hw He Hr Hc.
    - exists [], y. split; [done|]. pose proof (ak_way y Hy k) as Hway. unfold way, inFlight, readyOf in Hway. rewrite Hw, Hc, He, Hr in Hway. rewrite Hway. cbn. by rewrite app_nil_r.
    - destruct (forwards_one k sid l y e Hw He Hr Hc) as (y1 & R1 & W1 & C1 & O1 & e1 & E1 & L1). destruct (IH y1 e1 (acceptRun_ok _ _ _ Hy R1) W1 E1 L1 C1) as (mvs & x' & R2 & T2).
      exists ([Take k; Push k; AcceptCall] ++ mvs), x'. split; [by rewrite (acceptRun_app _ _ _ _ R1)|by rewrite T2, O1]. }
  destruct (channel_drains x) as (mvs1 & x1 & R1 & C1 & F1 & S1 & O1). pose proof (acceptRun_ok _ _ _ Hok R1) as Hok1. destruct (ak_fwd x Hok k) as [e He]; [by eexists|].
  rewrite <- O1. destruct f as [|sid|]; [| |done].
  - destruct (Hwait _ x1 e Hok1 ltac:(by rewrite F1) ltac:(by rewrite S1) eq_refl C1) as (mvs & x' & R & T'). exists (mvs1 ++ mvs), x'. by rewrite (acceptRun_app _ _ _ _ R1).
  - assert (R2 : ∃ x2, acceptRun idle [Push k; AcceptCall] x1 = Some x2 ∧ x_fwd x2 !! k = Some Waiting ∧ m_chAccept (x_mux x2) = [] ∧ m_store (x_mux x2) = m_store (x_mux x1) ∧ x_opened x2 = x_opened x1).
    { cbn [acceptRun acceptStep]. rewrite F1, Hf, C1. cbn. eexists. split; [reflexivity|]. cbn. by rewrite lookup_insert_eq. }
    destruct R2 as (x2 & R2 & W2 & C2 & S2 & O2). destruct (Hwait _ x2 e (acceptRun_ok _ _ _ Hok1 R2) W2 ltac:(by rewrite S2, S1) eq_refl C2) as (mvs & x' & R & T').
    exists (mvs1 ++ [Push k; AcceptCall] ++ mvs), x'. rewrite (acceptRun_app _ _ _ _ R1), (acceptRun_app _ _ _ _ R2). split; [done|]. by rewrite T', O2.
Qed.
End Order.

(** The underlays of Mux.v. *)
Section Instance_.
Context {T : Type} `{BTree T} {U : Type} `{SegmentWriter U}.
Context (others : SM (T := T) (U := U) ()) (newConn : U).
#[local] Existing Instance baseMuxUnderlay.

#[local] Instance baseReady : ReadyUnderlay (@baseV T U) := {|
  v_ready v := readySessions (b_u v);
  v_setReady l v := mkBase (set_readySessions l (b_u v)) (b_inBytes v) (b_outBytes v) (b_conn v)
|}.

Lemma baseReadyLaws : @ReadyUnderlayLaws baseV T (baseMuxUnderlay others newConn) baseReady.
Proof.
  split; [done| |done]. intros now v v'. cbn. unfold CloseUnderlay. destruct (u_done (b_u v)); cbn; [by intros [= <-]|].
  destruct (closeList _ _ _ _ _) as [[m w]| |]; cbn; intros E; by simplify_eq.
Qed.
End Instance_.

(** ** The maximum *)

Definition counts_ok (c : counts) : Prop :=
  MaxConn c ≤ peak c ∧ CurrEstablished c ≤ peak c ∧ ∀ i st, stages c !! i = Some st → match st with Added n | Loaded n _ => n ≤ peak c end.

Lemma count_step_ok mv c c' : counts_ok c → countStep mv c = Some c' → counts_ok c'.
Proof.
  intros (H1 & H2 & H3). destruct mv as [i|i|i|]; cbn [countStep].
  - destruct (stages c !! i) eqn:E; [done|]. intros [= <-]. split_and!; cbn; [lia|lia|]. intros j st. rewrite lookup_insert_Some. intros [[<- <-]|[_ Hj]]; [lia|]. apply H3 in Hj. destruct st; lia.
  - destruct (stages c !! i) as [[n|n m]|] eqn:E; [|done..]. intros [= <-]. split_and!; cbn; [done|done|]. intros j st. rewrite lookup_insert_Some. intros [[<- <-]|[_ Hj]]; [by apply (H3 i (Added n))|by apply (H3 j)].
  - destruct (stages c !! i) as [[n|n m]|] eqn:E; [done| |done]. intros [= <-]. split_and!; cbn; [|done|].
    + apply H3 in E. destruct (m <? n); lia.
    + intros j st [_ Hj]%lookup_delete_Some. by apply (H3 j).
  - intros [= <-]. split_and!; cbn; [done|lia|done].
Qed.

(** In any order of the steps the maximum that is reported was reached at most. *)
Theorem max_never_above_peak mvs c : countRun mvs counts0 = Some c → MaxConn c ≤ peak c.
Proof.
  assert (Hall : ∀ mvs a b, counts_ok a → countRun mvs a = Some b → counts_ok b).
  { clear. induction mvs as [|mv mvs IH]; intros a b Ha Hb; cbn in Hb; [by injection Hb as <-|]. destruct (countStep mv a) as [a1|] eqn:E; [|done]. cbn in Hb. eapply IH; [|done]. by eapply count_step_ok. }
  intros Hr. apply (Hall mvs counts0 c); [|done]. split_and!; cbn; [lia|lia|]. intros i st Hi. by rewrite lookup_empty in Hi.
Qed.

(** One goroutine at a time: the maximum is exact. *)
Inductive countCall := OpenCall (i : nat) | CloseCall.
Definition movesOf (k : countCall) : list countMove := match k with OpenCall i => [CAdd i; CLoad i; CStore i] | CloseCall => [CClose] end.

Lemma countRun_app mvs mvs' a b : countRun mvs a = Some b → countRun (mvs ++ mvs') a = countRun mvs' b.
Proof. revert a. induction mvs as [|mv mvs IH]; intros a E; cbn in *; [by injection E as ->|]. destruct (countStep mv a); [|done]. cbn in *. by apply IH. Qed.

Theorem max_exact_in_sequence ks : ∃ c, countRun (concat (movesOf <$> ks)) counts0 = Some c ∧ MaxConn c = peak c.
Proof.
  assert (Hall : ∀ a, stages a = ∅ → MaxConn a = peak a → ∃ c, countRun (concat (movesOf <$> ks)) a = Some c ∧ MaxConn c = peak c); [|by apply Hall].
  induction ks as [|k ks IH]; intros a Hs Hm; [by exists a|]. cbn [fmap list_fmap concat].
  assert (Hk : ∃ b, countRun (movesOf k) a = Some b ∧ stages b = ∅ ∧ MaxConn b = peak b).
  { destruct k as [i|]; cbn [movesOf countRun countStep].
    - rewrite Hs, lookup_empty. cbn [mbind option_bind countRun countStep stages]. rewrite lookup_insert_eq. cbn [mbind option_bind countRun countStep stages]. rewrite lookup_insert_eq. cbn.
      eexists. split; [reflexivity|]. cbn. split; [by rewrite !delete_insert_eq, delete_empty|]. rewrite Hm. destruct (Z.ltb_spec (peak a) (CurrEstablished a + 1)); lia.
    - eexists. split; [reflexivity|]. done. }
  destruct Hk as (b & E & Hb & Hmb). rewrite (countRun_app _ _ _ _ E). by apply IH.
Qed.

(** Two at a time: two underlays are open and the maximum says one. *)
Example max_misses_peak : ∃ c, countRun [CAdd 0; CLoad 0; CAdd 1; CLoad 1; CStore 1; CStore 0] counts0 = Some c ∧ CurrEstablished c = 2 ∧ MaxConn c = 1.
Proof. eexists. vm_compute. done. Qed.

End MuxAccept.
Export MuxAccept.
