(* ===== verification/TrafficPattern.v ===== *)
(** * apis/trafficpattern/config.go: traffic patterns

    A traffic pattern of the configuration is validated, and the fields that it
    leaves open are generated from a seed.  The protobuf messages are records of
    optional fields; [FixedInt] is called with its cache. *)

From S2P Require Import Prelude Mathext Sha256 Common Rng Cipher.
From stdpp Require Import pretty.
Local Open Scope Z_scope.

Module TrafficPattern.

(** [appctlpb.TCPFragment], [NoncePattern] and [TrafficPattern]. *)
Record TCPFragment := mkTCPFragment { tf_enable : option bool; tf_maxSleepMs : option Z }.

Record NonceConfig := mkNonceConfig {
  nc_type : option NonceType;
  nc_applyToAllUDPPacket : option bool;
  nc_minLen : option Z;
  nc_maxLen : option Z;
  nc_customHexStrings : list string
}.

Record TrafficPattern := mkTrafficPattern {
  tp_seed : option Z;
  tp_unlockAll : option bool;
  tp_tcpFragment : option TCPFragment;
  tp_nonce : option NonceConfig
}.

Definition emptyFragment : TCPFragment := mkTCPFragment None None.
Definition emptyNonce : NonceConfig := mkNonceConfig None None None None [].
Definition emptyPattern : TrafficPattern := mkTrafficPattern None None None None.

(** ** Validation *)

Definition validateTCPFragment (f : option TCPFragment) : outcome unit :=
  match f with
  | None => Ret tt
  | Some f =>
      match tf_maxSleepMs f with
      | None => Ret tt
      | Some n =>
          if n <? 0 then Err (Errorf "TCPFragment maxSleepMs %d is negative")
          else if 100 <? n then Err (Errorf "TCPFragment maxSleepMs %d exceeds maximum value 100")
          else Ret tt
      end
  end.

(** A length field of the nonce pattern. *)
Definition validateLen (n : option Z) : outcome unit :=
  match n with
  | None => Ret tt
  | Some n =>
      if n <? 0 then Err (Errorf "NoncePattern length %d is negative")
      else if 12 <? n then Err (Errorf "NoncePattern length %d exceeds maximum value 12")
      else Ret tt
  end.

Fixpoint validateHexStrings (l : list string) : outcome unit :=
  match l with
  | [] => Ret tt
  | s :: l =>
      match hexDecode (string_bytes s) with
      | None => Err (Errorf "NoncePattern customHexStrings[%d] %q is not a valid hex string: %w")
      | Some decoded =>
          if 12 <? len decoded
          then Err (Errorf "NoncePattern customHexStrings[%d] decoded length %d exceeds maximum 12 bytes")
          else validateHexStrings l
      end
  end.

Definition validateNoncePattern (n : option NonceConfig) : outcome unit :=
  match n with
  | None => Ret tt
  | Some n =>
      let! _ := validateLen (nc_minLen n) in
      let! _ := validateLen (nc_maxLen n) in
      let! _ := (match nc_minLen n, nc_maxLen n with
                 | Some a, Some b => if b <? a then Err (Errorf "NoncePattern minLen %d is greater than maxLen %d") else Ret tt
                 | _, _ => Ret tt
                 end) in
      validateHexStrings (nc_customHexStrings n)
  end.

Definition Validate (p : option TrafficPattern) : outcome unit :=
  match p with
  | None => Ret tt
  | Some p => let! _ := validateTCPFragment (tp_tcpFragment p) in validateNoncePattern (tp_nonce p)
  end.

(** ** Generation *)

(** [fmt.Sprintf("%d:" + name, seed)]. *)
Definition hint (seed : Z) (name : string) : string := pretty seed +:+ ":" +:+ name.

Notation fixedCache := (gmap string Z).

(** A generated field: the one that is set is kept. *)
Definition orElse {A} (o : option A) (gen : fixedCache → A * fixedCache) (c : fixedCache) : option A * fixedCache :=
  match o with Some a => (Some a, c) | None => let '(a, c) := gen c in (Some a, c) end.

(** [FixedInt(n, hint)] with a function on the result. *)
Definition fixed {A} (n : Z) (h : string) (f : Z → A) (c : fixedCache) : A * fixedCache :=
  let '(r, c) := FixedInt c n h in (f r, c).

Definition generateTCPFragment (seed : Z) (unlockAll : bool) (f : option TCPFragment) (c : fixedCache)
  : TCPFragment * fixedCache :=
  let f := default emptyFragment f in
  let '(enable, c) := orElse (tf_enable f)
    (λ c, if unlockAll then fixed 2 (hint seed "tcpFragment.enable") (λ r, r =? 1) c else (false, c)) c in
  let '(maxSleepMs, c) := orElse (tf_maxSleepMs f)
    (λ c, if unlockAll then fixed 100 (hint seed "tcpFragment.maxSleepMs") (λ r, r + 1) c else (0, c)) c in
  (mkTCPFragment enable maxSleepMs, c).

(** The enum value of a number in [0, 2]. *)
Definition nonceTypeOf (r : Z) : NonceType :=
  if r =? 0 then NONCE_TYPE_RANDOM else if r =? 1 then NONCE_TYPE_PRINTABLE else NONCE_TYPE_PRINTABLE_SUBSET.

Definition generateNoncePattern (seed : Z) (unlockAll : bool) (n : option NonceConfig) (c : fixedCache)
  : NonceConfig * fixedCache :=
  let n := default emptyNonce n in
  let '(type, c) := orElse (nc_type n)
    (if unlockAll then fixed 3 (hint seed "nonce.type") nonceTypeOf
     else fixed 2 (hint seed "nonce.type") (λ r, nonceTypeOf (r + 1))) c in
  let '(applyAll, c) := orElse (nc_applyToAllUDPPacket n)
    (fixed 2 (hint seed "nonce.applyToAllUDPPacket") (λ r, r =? 1)) c in
  let '(minLen, c) := orElse (nc_minLen n)
    (if unlockAll then fixed 13 (hint seed "nonce.minLen") (λ r, r)
     else fixed 7 (hint seed "nonce.minLen") (λ r, r + 6)) c in
  let '(maxLen, c) := orElse (nc_maxLen n)
    (fixed (13 - default 0 minLen) (hint seed "nonce.maxLen") (λ r, default 0 minLen + r)) c in
  (mkNonceConfig type applyAll minLen maxLen (nc_customHexStrings n), c).

(** [Config]: the original and the effective pattern.  [hostSeed] is
    [rng.FixedIntVH(math.MaxInt32)]. *)
Record Config := mkConfig { original : TrafficPattern; effective : TrafficPattern }.

Definition generateImplicitTrafficPattern (hostSeed : Z) (p : TrafficPattern) (c : fixedCache)
  : TrafficPattern * fixedCache :=
  let seed := default hostSeed (tp_seed p) in
  let unlockAll := default false (tp_unlockAll p) in
  let '(f, c) := generateTCPFragment seed unlockAll (tp_tcpFragment p) c in
  let '(n, c) := generateNoncePattern seed unlockAll (tp_nonce p) c in
  (mkTrafficPattern (tp_seed p) (tp_unlockAll p) (Some f) (Some n), c).

Definition NewConfig (hostSeed : Z) (p : option TrafficPattern) (c : fixedCache) : outcome (Config * fixedCache) :=
  let p := default emptyPattern p in
  match Validate (Some p) with
  | Ret _ => let '(e, c) := generateImplicitTrafficPattern hostSeed p c in Ret (mkConfig p e, c)
  | Err _ => Err (Errorf "TrafficPattern is invalid: %w")
  | Panic s => Panic s
  end.

(** What the cipher reads of a pattern through its getters. *)
Definition GetNonce (p : TrafficPattern) : NoncePattern :=
  let n := default emptyNonce (tp_nonce p) in
  mkPattern (default NONCE_TYPE_RANDOM (nc_type n)) (default false (nc_applyToAllUDPPacket n))
    (default 0 (nc_minLen n)) (default 0 (nc_maxLen n)) (nc_customHexStrings n).

(** ** The pattern without the cache *)

Definition fixedValue (n : Z) (h : string) : Z := if n <=? 0 then 0 else hashedInt (string_bytes h) `mod` n.

Definition implicitFragment (seed : Z) (unlockAll : bool) (f : TCPFragment) : TCPFragment :=
  mkTCPFragment
    (Some (default (unlockAll && (fixedValue 2 (hint seed "tcpFragment.enable") =? 1)) (tf_enable f)))
    (Some (default (if unlockAll then fixedValue 100 (hint seed "tcpFragment.maxSleepMs") + 1 else 0) (tf_maxSleepMs f))).

Definition implicitNonceConfig (seed : Z) (unlockAll : bool) (n : NonceConfig) : NonceConfig :=
  let minLen := default (if unlockAll then fixedValue 13 (hint seed "nonce.minLen")
                         else fixedValue 7 (hint seed "nonce.minLen") + 6) (nc_minLen n) in
  mkNonceConfig
    (Some (default (nonceTypeOf (if unlockAll then fixedValue 3 (hint seed "nonce.type")
                                 else fixedValue 2 (hint seed "nonce.type") + 1)) (nc_type n)))
    (Some (default (fixedValue 2 (hint seed "nonce.applyToAllUDPPacket") =? 1) (nc_applyToAllUDPPacket n)))
    (Some minLen)
    (Some (default (minLen + fixedValue (13 - minLen) (hint seed "nonce.maxLen")) (nc_maxLen n)))
    (nc_customHexStrings n).

Definition implicitPattern (hostSeed : Z) (p : TrafficPattern) : TrafficPattern :=
  let seed := default hostSeed (tp_seed p) in
  let unlockAll := default false (tp_unlockAll p) in
  mkTrafficPattern (tp_seed p) (tp_unlockAll p)
    (Some (implicitFragment seed unlockAll (default emptyFragment (tp_tcpFragment p))))
    (Some (implicitNonceConfig seed unlockAll (default emptyNonce (tp_nonce p)))).

Notation coherent := (Rng.cache_coherent string_bytes).

Lemma fixed_value {A} n h (f : Z → A) c :
  coherent c → ∃ c', fixed n h f c = (f (fixedValue n h), c') ∧ coherent c'.
Proof.
  intros Hc. unfold fixed, FixedInt. pose proof (fixedLookup_spec string_bytes c n h Hc) as Hf.
  destruct (fixedLookup string_bytes c n h) as [r c']. destruct Hf as [-> Hc']. by exists c'.
Qed.

Lemma orElse_value {A} (o : option A) gen a c :
  coherent c → (∃ c', gen c = (a, c') ∧ coherent c') →
  ∃ c', orElse o gen c = (Some (default a o), c') ∧ coherent c'.
Proof.
  intros Hc (c' & Hg & Hc'). unfold orElse. destruct o; [by exists c|]. rewrite Hg. by exists c'.
Qed.

Lemma generateTCPFragment_value seed u f c :
  coherent c → ∃ c', generateTCPFragment seed u f c = (implicitFragment seed u (default emptyFragment f), c') ∧ coherent c'.
Proof.
  intros Hc. unfold generateTCPFragment, implicitFragment. cbv zeta. set (f' := default emptyFragment f).
  destruct (orElse_value (tf_enable f')
    (λ c, if u then fixed 2 (hint seed "tcpFragment.enable") (λ r, r =? 1) c else (false, c))
    (u && (fixedValue 2 (hint seed "tcpFragment.enable") =? 1)) c Hc) as (c1 & -> & Hc1).
  { destruct u; [by apply fixed_value|by exists c]. }
  destruct (orElse_value (tf_maxSleepMs f')
    (λ c, if u then fixed 100 (hint seed "tcpFragment.maxSleepMs") (λ r, r + 1) c else (0, c))
    (if u then fixedValue 100 (hint seed "tcpFragment.maxSleepMs") + 1 else 0) c1 Hc1) as (c2 & -> & Hc2).
  { destruct u; [by apply fixed_value|by exists c1]. }
  by exists c2.
Qed.

Lemma generateNoncePattern_value seed u n c :
  coherent c → ∃ c', generateNoncePattern seed u n c = (implicitNonceConfig seed u (default emptyNonce n), c') ∧ coherent c'.
Proof.
  intros Hc. unfold generateNoncePattern, implicitNonceConfig. cbv zeta. set (n' := default emptyNonce n).
  destruct (orElse_value (nc_type n')
    (if u then fixed 3 (hint seed "nonce.type") nonceTypeOf else fixed 2 (hint seed "nonce.type") (λ r, nonceTypeOf (r + 1)))
    (nonceTypeOf (if u then fixedValue 3 (hint seed "nonce.type") else fixedValue 2 (hint seed "nonce.type") + 1)) c Hc)
    as (c1 & -> & Hc1).
  { destruct u; by apply fixed_value. }
  destruct (orElse_value (nc_applyToAllUDPPacket n') _ _ c1 Hc1 (fixed_value 2 (hint seed "nonce.applyToAllUDPPacket") (λ r, r =? 1) c1 Hc1))
    as (c2 & -> & Hc2).
  destruct (orElse_value (nc_minLen n')
    (if u then fixed 13 (hint seed "nonce.minLen") (λ r, r) else fixed 7 (hint seed "nonce.minLen") (λ r, r + 6))
    (if u then fixedValue 13 (hint seed "nonce.minLen") else fixedValue 7 (hint seed "nonce.minLen") + 6) c2 Hc2) as (c3 & -> & Hc3).
  { destruct u; by apply fixed_value. }
  match goal with |- context [Some (default ?d (nc_minLen n'))] => set (minLen := default d (nc_minLen n')) end. change (default 0 (Some minLen)) with minLen.
  destruct (orElse_value (nc_maxLen n') _ _ c3 Hc3 (fixed_value (13 - minLen) (hint seed "nonce.maxLen") (λ r, minLen + r) c3 Hc3))
    as (c4 & -> & Hc4).
  by exists c4.
Qed.

(** The cache makes no difference to the pattern that is generated. *)
Lemma NewConfig_value hostSeed p c :
  coherent c → Validate (Some (default emptyPattern p)) = Ret tt →
  ∃ c', NewConfig hostSeed p c =
    Ret (mkConfig (default emptyPattern p) (implicitPattern hostSeed (default emptyPattern p)), c') ∧ coherent c'.
Proof.
  intros Hc Hv. unfold NewConfig, generateImplicitTrafficPattern, implicitPattern. cbv zeta. rewrite Hv.
  set (o := default emptyPattern p).
  destruct (generateTCPFragment_value (default hostSeed (tp_seed o)) (default false (tp_unlockAll o)) (tp_tcpFragment o) c Hc)
    as (c1 & -> & Hc1).
  destruct (generateNoncePattern_value (default hostSeed (tp_seed o)) (default false (tp_unlockAll o)) (tp_nonce o) c1 Hc1)
    as (c2 & -> & Hc2).
  by exists c2.
Qed.

(** ** Properties *)

Lemma fixedValue_range n h : 0 ≤ fixedValue n h ∧ (0 < n → fixedValue n h < n).
Proof.
  unfold fixedValue. case_if; bool_to_Z; [lia|].
  pose proof (Z.mod_pos_bound (hashedInt (string_bytes h)) n). lia.
Qed.

Lemma validateLen_ret n : validateLen n = Ret tt ↔ ∀ v, n = Some v → 0 ≤ v ≤ 12.
Proof.
  unfold validateLen. destruct n as [v|]; [|naive_solver].
  repeat case_if; bool_to_Z; (split; [done || (intros _ ? [= <-]; lia)|intros Hv; specialize (Hv v eq_refl); done || lia]).
Qed.

Lemma validateHexStrings_ret l :
  validateHexStrings l = Ret tt ↔ Forall (λ s, ∃ b, hexDecode (string_bytes s) = Some b ∧ len b ≤ 12) l.
Proof.
  induction l as [|s l IH]; simpl; [done|]. rewrite Forall_cons. destruct (hexDecode (string_bytes s)) as [b|].
  - case_if; bool_to_Z; [split; [done|]; intros ((b' & [= <-] & ?) & _); lia|]. rewrite IH. naive_solver.
  - split; [done|]. by intros ((b & ? & _) & _).
Qed.

Lemma obind_ret_tt {A} (m : outcome unit) (k : outcome A) a :
  (let! _ := m in k) = Ret a ↔ m = Ret tt ∧ k = Ret a.
Proof. destruct m as [[]| |]; simpl; naive_solver. Qed.

(** What it means for a nonce configuration to be valid. *)
Lemma validateNoncePattern_ret n :
  validateNoncePattern (Some n) = Ret tt ↔
    (∀ v, nc_minLen n = Some v → 0 ≤ v ≤ 12) ∧ (∀ v, nc_maxLen n = Some v → 0 ≤ v ≤ 12) ∧
    (∀ a b, nc_minLen n = Some a → nc_maxLen n = Some b → a ≤ b) ∧
    Forall (λ s, ∃ b, hexDecode (string_bytes s) = Some b ∧ len b ≤ 12) (nc_customHexStrings n).
Proof.
  simpl. rewrite !obind_ret_tt, !validateLen_ret, validateHexStrings_ret.
  assert (Hmm : (match nc_minLen n, nc_maxLen n with
    | Some a, Some b => if b <? a then Err (Errorf "NoncePattern minLen %d is greater than maxLen %d") else Ret tt
    | _, _ => Ret tt end = Ret tt) ↔ (∀ a b, nc_minLen n = Some a → nc_maxLen n = Some b → a ≤ b)); [|by rewrite Hmm].
  destruct (nc_minLen n) as [a|], (nc_maxLen n) as [b|]; try naive_solver.
  case_if; bool_to_Z; (split; [done || (intros _ ? ? [= <-] [= <-]; lia)|]).
  - intros Hab. specialize (Hab a b eq_refl eq_refl). lia.
  - done.
Qed.

(** The fields of a pattern. *)
Definition enableOf (p : TrafficPattern) := tp_tcpFragment p ≫= tf_enable.
Definition maxSleepMsOf (p : TrafficPattern) := tp_tcpFragment p ≫= tf_maxSleepMs.
Definition typeOf (p : TrafficPattern) := tp_nonce p ≫= nc_type.
Definition applyAllOf (p : TrafficPattern) := tp_nonce p ≫= nc_applyToAllUDPPacket.
Definition minLenOf (p : TrafficPattern) := tp_nonce p ≫= nc_minLen.
Definition maxLenOf (p : TrafficPattern) := tp_nonce p ≫= nc_maxLen.
Definition hexStringsOf (p : TrafficPattern) := default [] (nc_customHexStrings <$> tp_nonce p).

(** Every field of the first pattern that is set is the same in the second. *)
Definition keeps_set (o e : TrafficPattern) : Prop :=
  (∀ v, enableOf o = Some v → enableOf e = Some v) ∧ (∀ v, maxSleepMsOf o = Some v → maxSleepMsOf e = Some v) ∧
  (∀ v, typeOf o = Some v → typeOf e = Some v) ∧ (∀ v, applyAllOf o = Some v → applyAllOf e = Some v) ∧
  (∀ v, minLenOf o = Some v → minLenOf e = Some v) ∧ (∀ v, maxLenOf o = Some v → maxLenOf e = Some v) ∧
  hexStringsOf e = hexStringsOf o.

Lemma implicitPattern_keeps h p : keeps_set p (implicitPattern h p).
Proof.
  destruct p as [sd ul [[en ms]|] [[ty ap mi ma hx]|]]; unfold keeps_set; split_and!; try reflexivity;
    intros v Hv; try discriminate Hv; cbv in Hv; rewrite Hv; reflexivity.
Qed.

(** The generated lengths. *)
Lemma implicitPattern_lens h p :
  (∀ v, minLenOf p = Some v → 0 ≤ v ≤ 12) → (∀ v, maxLenOf p = Some v → 0 ≤ v ≤ 12) →
  ∃ a b, minLenOf (implicitPattern h p) = Some a ∧ maxLenOf (implicitPattern h p) = Some b ∧
    0 ≤ a ≤ 12 ∧ 0 ≤ b ≤ 12 ∧ (maxLenOf p = None → a ≤ b) ∧
    (minLenOf p = None → tp_unlockAll p ≠ Some true → 6 ≤ a).
Proof.
  intros Hmin Hmax. eexists _, _. split; [reflexivity|]. split; [reflexivity|].
  unfold minLenOf, maxLenOf in *. set (n := default emptyNonce (tp_nonce p)).
  assert (Hn1 : tp_nonce p ≫= nc_minLen = nc_minLen n) by (unfold n; by destruct (tp_nonce p)).
  assert (Hn2 : tp_nonce p ≫= nc_maxLen = nc_maxLen n) by (unfold n; by destruct (tp_nonce p)).
  rewrite Hn1 in *. rewrite Hn2 in *. set (seed := default h (tp_seed p)).
  pose proof (fixedValue_range 13 (hint seed "nonce.minLen")) as R1.
  pose proof (fixedValue_range 7 (hint seed "nonce.minLen")) as R2.
  set (a := default _ (nc_minLen n)).
  assert (0 ≤ a ≤ 12 ∧ (nc_minLen n = None → tp_unlockAll p ≠ Some true → 6 ≤ a)) as [Ha Hgen].
  { unfold a. destruct (nc_minLen n) as [v|]; [split; [by apply Hmin|done]|]. simpl.
    destruct (tp_unlockAll p) as [[]|]; simpl; split; intros; try done; lia. }
  pose proof (fixedValue_range (13 - a) (hint seed "nonce.maxLen")) as R3.
  split; [done|]. destruct (nc_maxLen n) as [v|]; simpl.
  - split; [by apply Hmax|]. split; [done|]. exact Hgen.
  - split; [lia|]. split; [lia|]. exact Hgen.
Qed.

Lemma Validate_ret p :
  Validate (Some p) = Ret tt ↔ (∀ v, maxSleepMsOf p = Some v → 0 ≤ v ≤ 100) ∧ validateNoncePattern (tp_nonce p) = Ret tt.
Proof.
  simpl. rewrite obind_ret_tt. apply and_iff_compat_r. unfold maxSleepMsOf.
  destruct (tp_tcpFragment p) as [[en [v|]]|]; simpl; try naive_solver.
  repeat case_if; bool_to_Z; (split; [done || (intros _ ? [= <-]; lia)|intros Hv; specialize (Hv v eq_refl); done || lia]).
Qed.

Lemma Validate_no_panic p s : Validate p ≠ Panic s.
Proof.
  assert (∀ l s, validateHexStrings l ≠ Panic s) as Hh.
  { induction l as [|x l IH]; simpl; [done|]. intros s'. destruct (hexDecode (string_bytes x)); [|done]. by case_if. }
  intros Hv. destruct p as [p|]; [|done]. simpl in Hv.
  destruct (validateTCPFragment (tp_tcpFragment p)) as [[]| |] eqn:E; simpl in Hv; [|done|].
  - unfold validateNoncePattern, validateLen in Hv. destruct (tp_nonce p) as [n|]; [|done].
    repeat (case_match; simpl in Hv; try done); by eapply Hh.
  - unfold validateTCPFragment in E. by repeat case_match.
Qed.

(** A valid pattern, field by field. *)
Record valid_fields (p : TrafficPattern) : Prop := {
  vf_sleep v : maxSleepMsOf p = Some v → 0 ≤ v ≤ 100;
  vf_min v : minLenOf p = Some v → 0 ≤ v ≤ 12;
  vf_max v : maxLenOf p = Some v → 0 ≤ v ≤ 12;
  vf_order a b : minLenOf p = Some a → maxLenOf p = Some b → a ≤ b;
  vf_hex : Forall (λ s, ∃ b, hexDecode (string_bytes s) = Some b ∧ len b ≤ 12) (hexStringsOf p)
}.

Lemma Validate_fields p : Validate (Some p) = Ret tt ↔ valid_fields p.
Proof.
  rewrite Validate_ret. unfold minLenOf, maxLenOf, hexStringsOf. destruct (tp_nonce p) as [n|] eqn:En.
  - rewrite validateNoncePattern_ret. split.
    + intros (Hs & H1 & H2 & H3 & H4). split; unfold minLenOf, maxLenOf, hexStringsOf; rewrite ?En; done.
    + intros [Hs H1 H2 H3 H4]. unfold minLenOf, maxLenOf, hexStringsOf in *. rewrite En in *. done.
  - split; [intros [Hs _]|intros [Hs _ _ _ _]; done].
    split; unfold minLenOf, maxLenOf, hexStringsOf; rewrite ?En; try done.
Qed.

Lemma implicitPattern_sleep h p :
  (∀ v, maxSleepMsOf p = Some v → 0 ≤ v ≤ 100) → ∃ v, maxSleepMsOf (implicitPattern h p) = Some v ∧ 0 ≤ v ≤ 100.
Proof.
  intros Hs. eexists. split; [reflexivity|]. simpl. unfold maxSleepMsOf in Hs.
  destruct (tp_tcpFragment p) as [[en [v|]]|]; simpl in *; [by apply Hs|..];
    (destruct (default false (tp_unlockAll p)); [|lia]);
    pose proof (fixedValue_range 100 (hint (default h (tp_seed p)) "tcpFragment.maxSleepMs")); lia.
Qed.

Lemma implicitPattern_type h p : typeOf p = None → typeOf (implicitPattern h p) ≠ Some NONCE_TYPE_FIXED.
Proof.
  intros Ht Hfix. unfold typeOf in Ht, Hfix. simpl in Hfix. injection Hfix as Hfix.
  replace (nc_type (default emptyNonce (tp_nonce p))) with (@None NonceType) in Hfix by (by destruct (tp_nonce p)).
  simpl in Hfix. unfold nonceTypeOf in Hfix. by repeat case_if_in Hfix.
Qed.

(** The effective pattern is valid when the lengths were not bounded by half. *)
Lemma implicitPattern_valid h p :
  valid_fields p → maxLenOf p = None ∨ minLenOf p ≠ None → valid_fields (implicitPattern h p).
Proof.
  intros [Hs Hmin Hmax Hmm Hhex] Hor.
  destruct (implicitPattern_lens h p Hmin Hmax) as (a & b & Ha & Hb & Ra & Rb & Hab & _).
  destruct (implicitPattern_sleep h p Hs) as (v & Hv & Rv).
  destruct (implicitPattern_keeps h p) as (_ & _ & _ & _ & Hk1 & Hk2 & Hk).
  split; [congruence|congruence|congruence| |by rewrite Hk]. intros a1 b1 Ha1 Hb1.
  replace a1 with a by congruence. replace b1 with b by congruence.
  destruct (maxLenOf p) as [w|] eqn:Ew; [|by apply Hab].
  destruct (minLenOf p) as [u|] eqn:Eu; [|by destruct Hor].
  specialize (Hk1 u eq_refl). specialize (Hk2 w eq_refl). apply (Hmm a b); congruence.
Qed.

(** Encryption can apply the nonce part of a pattern with valid fields. *)
Lemma implicitPattern_nonce h p : valid_fields p → pattern_ok (GetNonce (implicitPattern h p)).
Proof.
  intros [_ Hmin Hmax _ Hhex].
  destruct (implicitPattern_lens h p Hmin Hmax) as (a & b & Ha & Hb & Ra & Rb & _).
  destruct (implicitPattern_keeps h p) as (_ & _ & _ & _ & _ & _ & Hk).
  unfold minLenOf, maxLenOf in Ha, Hb. unfold pattern_ok, GetNonce. set (e := implicitPattern h p) in *.
  change (tp_nonce e) with (Some (default emptyNonce (tp_nonce e))) in Ha, Hb. simpl in Ha, Hb.
  split_and!; [|  |].
  - cbn [np_minLen]. change (nc_minLen _) with (minLenOf e). unfold minLenOf.
    change (tp_nonce e) with (Some (default emptyNonce (tp_nonce e))). simpl. injection Ha as ->. lia.
  - cbn [np_maxLen]. change (nc_maxLen _) with (maxLenOf e). unfold maxLenOf.
    change (tp_nonce e) with (Some (default emptyNonce (tp_nonce e))). simpl. injection Hb as ->. lia.
  - change (np_customHexStrings _) with (hexStringsOf e). rewrite Hk. eapply Forall_impl; [exact Hhex|].
    intros s (b' & Hb' & _). by exists b'.
Qed.

(** C33: a valid traffic pattern gives a usable effective one.  [NewConfig] accepts
    exactly the patterns with a maximum sleep of 0 to 100 milliseconds, lengths of 0
    to 12 in order and hex strings of at most 12 bytes.  The effective pattern sets
    every field of the fragment and of the nonce part, within these bounds, keeps
    every field that the configuration sets, does not depend on the cache of fixed
    numbers, never invents the FIXED nonce type, is valid again unless the
    configuration sets [maxLen] without [minLen], and encryption can always apply
    its nonce part. *)
Theorem effective_pattern_ok hostSeed p c :
  coherent c →
  let o := default emptyPattern p in
  match NewConfig hostSeed p c with
  | Ret (cfg, c') =>
      valid_fields o ∧ coherent c' ∧ original cfg = o ∧
      (∀ c2, coherent c2 → ∃ c2', NewConfig hostSeed p c2 = Ret (cfg, c2')) ∧
      let e := effective cfg in
      keeps_set o e ∧
      is_Some (enableOf e) ∧ (∃ v, maxSleepMsOf e = Some v ∧ 0 ≤ v ≤ 100) ∧ is_Some (typeOf e) ∧ is_Some (applyAllOf e) ∧
      (∃ a b, minLenOf e = Some a ∧ maxLenOf e = Some b ∧ 0 ≤ a ≤ 12 ∧ 0 ≤ b ≤ 12 ∧ (maxLenOf o = None → a ≤ b)) ∧
      (typeOf o = None → typeOf e ≠ Some NONCE_TYPE_FIXED) ∧
      (maxLenOf o = None ∨ minLenOf o ≠ None → valid_fields e) ∧
      pattern_ok (GetNonce e)
  | Err _ => ¬ valid_fields o
  | Panic _ => False
  end.
Proof.
  intros Hc o. destruct (Validate (Some o)) as [[]|err|s] eqn:Hv.
  2:{ unfold NewConfig. fold o. cbv zeta. rewrite Hv. by intros E%Validate_fields; rewrite Hv in E. }
  2:{ by destruct (Validate_no_panic (Some o) s). }
  destruct (NewConfig_value hostSeed p c Hc Hv) as (c' & -> & Hc'). fold o.
  assert (Hvf := proj1 (Validate_fields o) Hv).
  split; [done|]. split; [done|]. split; [done|]. split.
  { intros c2 Hc2. destruct (NewConfig_value hostSeed p c2 Hc2 Hv) as (c2' & -> & _). by exists c2'. }
  cbv zeta. cbn [effective]. split; [apply implicitPattern_keeps|]. split; [by eexists|].
  split; [apply implicitPattern_sleep, vf_sleep; done|]. split; [by eexists|]. split; [by eexists|]. split.
  { destruct (implicitPattern_lens hostSeed o (vf_min _ Hvf) (vf_max _ Hvf)) as (a & b & Ha & Hb & Hra & Hrb & Hab & _). by exists a, b. }
  split; [apply implicitPattern_type|]. split; [|by apply implicitPattern_nonce].
  intros Hor. by apply implicitPattern_valid.
Qed.

Lemma effective_pattern_ok_witness :
  ∃ cfg c', NewConfig 7 None ∅ = Ret (cfg, c') ∧ is_Some (minLenOf (effective cfg)) ∧ valid_fields (effective cfg).
Proof.
  pose proof (effective_pattern_ok 7 None ∅) as H.
  assert (Hok : match NewConfig 7 None ∅ with Ret _ => true | _ => false end = true) by (vm_compute; reflexivity).
  destruct (NewConfig 7 None ∅) as [[cfg c']|e|s] eqn:E; [|discriminate Hok..].
  destruct H as (_ & _ & _ & _ & _ & _ & _ & _ & _ & (a & b & Ha & _) & _ & Hv & _); [intros h v Hv; discriminate Hv|].
  exists cfg, c'. split; [reflexivity|]. split; [exists a; exact Ha|]. apply Hv. left. reflexivity.
Defined.

(** A configuration that sets [maxLen] below 6 and leaves [minLen] open is
    valid, but the effective pattern made from it is not: the generated [minLen]
    is at least 6. *)
Theorem effective_pattern_can_be_invalid hostSeed p n m c cfg c' :
  coherent c → tp_nonce p = Some n → nc_minLen n = None → nc_maxLen n = Some m → m < 6 → tp_unlockAll p ≠ Some true →
  NewConfig hostSeed (Some p) c = Ret (cfg, c') → Validate (Some (effective cfg)) ≠ Ret tt.
Proof.
  intros Hc Hn Hmin Hmax Hm Hu HN.
  unfold NewConfig in HN. cbv zeta in HN. destruct (Validate (Some (default emptyPattern (Some p)))) as [[]| |] eqn:Hv; try done.
  destruct (NewConfig_value hostSeed (Some p) c Hc Hv) as (c1 & E & _). unfold NewConfig in E. cbv zeta in E. rewrite Hv in E.
  rewrite HN in E. injection E as -> _. simpl effective. rewrite Validate_fields. intros Hvf.
  assert (Hvp := proj1 (Validate_fields p) Hv). destruct Hvp as [_ H1 H2 _ _].
  destruct (implicitPattern_lens hostSeed p H1 H2) as (a & b & Ha & Hb & _ & _ & _ & H6).
  destruct (implicitPattern_keeps hostSeed p) as (_ & _ & _ & _ & _ & Hk & _).
  assert (maxLenOf p = Some m) as Hmx by (unfold maxLenOf; by rewrite Hn).
  pose proof (vf_order _ Hvf a m Ha (Hk m Hmx)). assert (6 ≤ a); [|lia].
  apply H6; [unfold minLenOf; by rewrite Hn|done].
Qed.

End TrafficPattern.
Export TrafficPattern.
