(* ===== verification/PortBinding.v ===== *)
(** * pkg/appctl/appctlcommon/port_binding.go: port bindings

    A configuration binds single ports and ranges of ports to TCP or UDP;
    [FlatPortBindings] turns them into sorted lists of single ports, from which
    the endpoints of a server mux are made.  The two Go maps are [gset]s, whose
    elements are sorted before they are used. *)

From S2P Require Import Prelude Mathext Socks Net SocksUDP Segment Mux.
From stdpp Require Import sorting.
From Stdlib Require Import ZifyBool.
Local Open Scope Z_scope.

Module PortBinding.

(** [appctlpb.TransportProtocol] and [PortBinding]; an unset field is its zero. *)
Inductive Protocol := UNKNOWN_TRANSPORT_PROTOCOL | UDP | TCP.
Record PortBinding := mkBinding { bPort : Z; bPortRange : bytes; bProtocol : Protocol }.

#[global] Instance Protocol_eq_dec : EqDecision Protocol.
Proof. solve_decision. Defined.

(** The two groups of [^(\d+)-(\d+)$]: digits contain no dash, so the first dash
    separates them. *)
Definition validPortRange (s : bytes) : option (bytes * bytes) :=
  match IndexByte 45 s with
  | None => None
  | Some i =>
      let a := take i s in
      let b := drop (S i) s in
      if (0 <? len a) && forallb is_digit a && (0 <? len b) && forallb is_digit b then Some (a, b) else None
  end.

Definition validPort (p : Z) : bool := (1 <=? p) && (p <=? 65535).

(** The ports of one binding, as the first and the last one. *)
Definition bindingPorts (b : PortBinding) : outcome (Z * Z) :=
  if bool_decide (bProtocol b = UNKNOWN_TRANSPORT_PROTOCOL) then Err (Errorf "protocol is not set")
  else if negb (bPort b =? 0) then
    if validPort (bPort b) then Ret (bPort b, bPort b) else Err (Errorf "port number %d is invalid")
  else
    match validPortRange (bPortRange b) with
    | None => Err (Errorf "unable to parse port range %q")
    | Some (m1, m2) =>
        let! small := match Atoi m1 with Ret v => Ret v | _ => Err (Errorf "unable to parse int from %q") end in
        let! big := match Atoi m2 with Ret v => Ret v | _ => Err (Errorf "unable to parse int from %q") end in
        if negb (validPort small) then Err (Errorf "port number %d is invalid")
        else if negb (validPort big) then Err (Errorf "port number %d is invalid")
        else if big <? small
        then Err (Errorf "begin of port range %d is bigger than end of port range %d")
        else Ret (small, big)
    end.

(** [for i := small; i <= big; i++ { set[i] = struct{}{} }]. *)
Definition addPorts (ports : Z * Z) (s : gset Z) : gset Z :=
  list_to_set (seqZ ports.1 (ports.2 - ports.1 + 1)) ∪ s.

Fixpoint collectPorts (bs : list PortBinding) (tcp udp : gset Z) : outcome (gset Z * gset Z) :=
  match bs with
  | [] => Ret (tcp, udp)
  | b :: bs =>
      let! ports := bindingPorts b in
      match bProtocol b with
      | TCP => collectPorts bs (addPorts ports tcp) udp
      | UDP => collectPorts bs tcp (addPorts ports udp)
      | UNKNOWN_TRANSPORT_PROTOCOL => Err (Errorf "unknown protocol %s")
      end
  end.

Definition sortedPorts (s : gset Z) : list Z := merge_sort Z.le (elements s).

Definition single (pr : Protocol) (p : Z) : PortBinding := mkBinding p [] pr.

Definition FlatPortBindings (bs : list PortBinding) : outcome (list PortBinding) :=
  let! (tcp, udp) := collectPorts bs ∅ ∅ in
  Ret ((single TCP <$> sortedPorts tcp) ++ (single UDP <$> sortedPorts udp)).

(** ** Text of an address

    [IP.String], [net.JoinHostPort] and the [String] methods of [net.TCPAddr] and
    [net.UDPAddr] of the standard library. *)

Fixpoint joinWith (sep : bytes) (l : list bytes) : bytes :=
  match l with [] => [] | [x] => x | x :: l => x ++ sep ++ joinWith sep l end.

Definition hexChar (d : Z) : Z := if d <? 10 then 48 + d else 87 + d.
Fixpoint hexDigits (fuel : nat) (n : Z) : bytes :=
  match fuel with
  | O => []
  | S fuel => if n <? 16 then [hexChar n] else hexDigits fuel (n / 16) ++ [hexChar (n `mod` 16)]
  end.

Fixpoint groups (ip : bytes) : list Z :=
  match ip with a :: b :: ip => a * 256 + b :: groups ip | _ => [] end.

Fixpoint leadingZeros (g : list Z) : nat :=
  match g with 0 :: g => S (leadingZeros g) | _ => O end.

(** The first longest run of zeros: its place and its length. *)
Fixpoint longestZeros (i : nat) (g : list Z) (best : nat * nat) : nat * nat :=
  match g with
  | [] => best
  | _ :: g' => let n := leadingZeros g in longestZeros (S i) g' (if (best.2 <? n)%nat then (i, n) else best)
  end.

Definition ipString (ip : bytes) : bytes :=
  let ip4 := To4 ip in
  if 0 <? len ip4 then joinWith [46] (Itoa <$> ip4)
  else
    let g := groups ip in
    let '(i, n) := longestZeros 0 g (O, 1%nat) in
    let text l := joinWith [58] (hexDigits 4 <$> l) in
    if (1 <? n)%nat then text (take i g) ++ [58; 58] ++ text (drop (i + n) g) else text g.

Definition JoinHostPort (host port : bytes) : bytes :=
  if bool_decide (is_Some (IndexByte 58 host)) then [91] ++ host ++ [93; 58] ++ port else host ++ [58] ++ port.

Definition addrString (ip : bytes) (port : Z) : bytes := JoinHostPort (ipString ip) (Itoa port).

(** ** Endpoints *)

(** common.AllIPAddr, parsed: the result of [IsIPDualStack] is an argument. *)
Definition AllIPAddr (dualStack : bool) : bytes := if dualStack then IPv6unspecified else IPv4zero.

(** [NewUnderlayProperties(mtu, transport, &net.TCPAddr{...}, nil)]. *)
Definition listenEndpoint (mtu : Z) (ip : bytes) (b : PortBinding) : outcome UnderlayProperties :=
  match bProtocol b with
  | TCP => Ret (mkProps mtu StreamTransport (mkNetAddr "tcp" (addrString ip (bPort b))) NilNetAddr)
  | UDP => Ret (mkProps mtu PacketTransport (mkNetAddr "udp" (addrString ip (bPort b))) NilNetAddr)
  | UNKNOWN_TRANSPORT_PROTOCOL => Err (Errorf "invalid transport protocol")
  end.

Fixpoint mapOutcome {A B} (f : A → outcome B) (l : list A) : outcome (list B) :=
  match l with
  | [] => Ret []
  | x :: l => let! y := f x in let! ys := mapOutcome f l in Ret (y :: ys)
  end.

Definition PortBindingsToUnderlayProperties (dualStack : bool) (bs : list PortBinding) (mtu : Z)
  : outcome (list UnderlayProperties) :=
  match FlatPortBindings bs with
  | Ret flat => mapOutcome (listenEndpoint mtu (AllIPAddr dualStack)) flat
  | Err _ => Err (Errorf "invalid port bindings: %w")
  | Panic s => Panic s
  end.

(** ** Properties *)

(** What a binding means, from the documentation of the configuration and apart
    from the code: one port, or the ports from the first to the last number of a
    text "first-last"; the numbers are decimal texts. *)
Definition numeral (t : bytes) (n : Z) : Prop :=
  t ≠ [] ∧ Forall (λ c, 48 ≤ c ≤ 57) t ∧ n = digits_value 0 t.

Inductive binds : PortBinding → Protocol → Z → Prop :=
| binds_port p range pr : pr = TCP ∨ pr = UDP → 1 ≤ p ≤ 65535 → binds (mkBinding p range pr) pr p
| binds_range first last lo hi pr p :
    pr = TCP ∨ pr = UDP → numeral first lo → numeral last hi → 1 ≤ lo → hi ≤ 65535 → lo ≤ p ≤ hi →
    binds (mkBinding 0 (first ++ 45 :: last) pr) pr p.

(** A binding without a port is an error: a range must have its numbers in order. *)
Definition meaningful (b : PortBinding) : Prop := ∃ pr p, binds b pr p.

(** ** Decimal texts and ranges *)

Lemma digit_cases c : is_digit c = true → c = 48 ∨ c = 49 ∨ c = 50 ∨ c = 51 ∨ c = 52 ∨ c = 53 ∨ c = 54 ∨ c = 55 ∨ c = 56 ∨ c = 57.
Proof. unfold is_digit. lia. Qed.

Lemma Atoi_digits neg ds : ds ≠ [] → forallb is_digit ds = true → 0 ≤ digits_value 0 ds < 2 ^ 63 →
  Atoi (if neg : bool then 45 :: ds else ds) = Ret (if neg then - digits_value 0 ds else digits_value 0 ds).
Proof.
  intros Hne Hd Hr. assert (Hlen : (len ds =? 0) = false).
  { destruct ds as [|c ds]; [done|]. rewrite len_cons. pose proof (len_nonneg ds). lia. }
  destruct neg.
  - unfold Atoi. rewrite Hlen, Hd. cbn [orb negb].
    by replace ((- 2 ^ 63 <=? - digits_value 0 ds) && (- digits_value 0 ds <? 2 ^ 63)) with true by lia.
  - destruct ds as [|c s]; [done|]. assert (Hc : is_digit c = true) by (cbn [forallb] in Hd; lia). unfold Atoi.
    replace (match c with 45 => (true, s) | 43 => (false, s) | _ => (false, c :: s) end) with (false, c :: s).
    + rewrite Hlen, Hd. cbn [orb negb].
      by replace ((- 2 ^ 63 <=? digits_value 0 (c :: s)) && (digits_value 0 (c :: s) <? 2 ^ 63)) with true by lia.
    + apply digit_cases in Hc. by destruct_or!; subst c.
Qed.

Lemma digits_no_dash s : forallb is_digit s = true → 45 ∉ s.
Proof. intros Hs Hin. rewrite forallb_forall in Hs. specialize (Hs 45 (proj1 (list_elem_of_In _ _) Hin)). done. Qed.

Lemma range_parts r a b : validPortRange r = Some (a, b) → r = a ++ 45 :: b ∧ a ≠ [] ∧ b ≠ [] ∧ forallb is_digit a = true ∧ forallb is_digit b = true.
Proof.
  unfold validPortRange. destruct (IndexByte 45 r) as [i|] eqn:Ei; [|done].
  destruct ((0 <? len (take i r)) && forallb is_digit (take i r) && (0 <? len (drop (S i) r)) && forallb is_digit (drop (S i) r)) eqn:E; [|done]. intros [= <- <-].
  assert (Hr : r = take i r ++ 45 :: drop (S i) r).
  { clear -Ei. revert i Ei. induction r as [|c r IH]; intros i Ei; cbn in Ei; [done|]. destruct (Z.eqb_spec c 45) as [->|]; [injection Ei as <-; done|].
    destruct (IndexByte 45 r) as [j|]; [|done]. injection Ei as <-. cbn. f_equal. by apply IH. }
  apply andb_true_iff in E as [E H4]. apply andb_true_iff in E as [E H3]. apply andb_true_iff in E as [H1 H2].
  split_and!; [done|intros Hn; by rewrite Hn in H1|intros Hn; by rewrite Hn in H3|done|done].
Qed.

Lemma range_make a b : a ≠ [] → b ≠ [] → forallb is_digit a = true → forallb is_digit b = true → validPortRange (a ++ [45] ++ b) = Some (a, b).
Proof.
  intros Ha Hb Hda Hdb. unfold validPortRange. cbn [app]. rewrite IndexByte_skip by (by apply digits_no_dash).
  rewrite take_app_length, drop_app_ge, Nat.sub_succ_l, Nat.sub_diag by lia. cbn [drop]. rewrite drop_0, Hda, Hdb.
  assert (0 <? len a = true) as -> by (destruct a; [done|]; unfold len; cbn; lia). assert (0 <? len b = true) as -> by (destruct b; [done|]; unfold len; cbn; lia). done.
Qed.

(** A binding binds a port of a protocol. *)
Definition covers (b : PortBinding) (pr : Protocol) (p : Z) : Prop :=
  bProtocol b = pr ∧ ∃ lo hi, bindingPorts b = Ret (lo, hi) ∧ lo ≤ p ≤ hi.

Lemma elem_of_addPorts ports s p : p ∈ addPorts ports s ↔ ports.1 ≤ p ≤ ports.2 ∨ p ∈ s.
Proof. unfold addPorts. rewrite elem_of_union, elem_of_list_to_set, elem_of_seqZ. lia || (split; intros [?|?]; (left; lia) || by right). Qed.

Lemma bindingPorts_cases b :
  match bindingPorts b with
  | Ret (lo, hi) => bProtocol b ≠ UNKNOWN_TRANSPORT_PROTOCOL ∧ 1 ≤ lo ≤ hi ∧ hi ≤ 65535
  | Err _ => True
  | Panic _ => False
  end.
Proof.
  unfold bindingPorts, validPort. case_bool_decide as Hp; [done|]. case_if.
  - case_if; [|done]. split; [done|]. bool_to_Z. lia.
  - destruct (validPortRange (bPortRange b)) as [[m1 m2]|]; [|done].
    destruct (Atoi m1), (Atoi m2); simpl; try done. repeat (case_if; [done|]). split; [done|]. bool_to_Z. lia.
Qed.

(** What the two sets hold in the end. *)
Definition collected (bs : list PortBinding) (pr : Protocol) (s s' : gset Z) : Prop :=
  ∀ p, p ∈ s' ↔ p ∈ s ∨ ∃ b, b ∈ bs ∧ covers b pr p.

Lemma collected_cons_same b bs ports pr s s' :
  bProtocol b = pr → bindingPorts b = Ret ports → collected bs pr (addPorts ports s) s' → collected (b :: bs) pr s s'.
Proof.
  intros Hb Hp Hc p. rewrite (Hc p), elem_of_addPorts. destruct ports as [lo hi]. simpl. split.
  - intros [[?|?]|(b' & ? & ?)]; [right; exists b; split; [left|]; split; eauto|by left|right; exists b'; split; [by right|done]].
  - intros [?|(b' & Hb' & Hcv)]; [by left; right|]. apply elem_of_cons in Hb' as [->|Hb']; [|right; eauto].
    destruct Hcv as (_ & lo' & hi' & Hp' & ?). rewrite Hp in Hp'. simplify_eq. left. by left.
Qed.

Lemma collected_cons_other b bs pr s s' :
  bProtocol b ≠ pr → collected bs pr s s' → collected (b :: bs) pr s s'.
Proof.
  intros Hb Hc p. rewrite (Hc p). split; (intros [?|(b' & Hb' & Hcv)]; [by left|right]).
  - exists b'. split; [by right|done].
  - apply elem_of_cons in Hb' as [->|Hb']; [by destruct Hcv|eauto].
Qed.

Lemma collectPorts_spec bs tcp udp :
  match collectPorts bs tcp udp with
  | Ret (tcp', udp') =>
      Forall (λ b, is_ret (bindingPorts b) = true) bs ∧ collected bs TCP tcp tcp' ∧ collected bs UDP udp udp'
  | Err e => ∃ b, b ∈ bs ∧ ∃ e', bindingPorts b = Err e'
  | Panic _ => False
  end.
Proof.
  revert tcp udp. induction bs as [|b bs IH]; intros tcp udp; simpl.
  { split; [constructor|]. split; intros p; (split; [by left|]); intros [?|(b & Hb & _)]; done || by apply elem_of_nil in Hb. }
  pose proof (bindingPorts_cases b) as Hb.
  destruct (bindingPorts b) as [[lo hi]|e|s] eqn:E; simpl; [|exists b; split; [left|eauto]|done].
  assert (Hmore : (∃ b', b' ∈ bs ∧ ∃ e', bindingPorts b' = Err e') → (∃ b', b' ∈ b :: bs ∧ ∃ e', bindingPorts b' = Err e')).
  { intros (b' & ? & ?). exists b'. split; [by right|done]. }
  destruct (bProtocol b) eqn:Ep; [by destruct Hb as [[] _]| |].
  - specialize (IH tcp (addPorts (lo, hi) udp)). destruct (collectPorts _ _ _) as [[t' u']|e|s]; [|by apply Hmore|done].
    destruct IH as (H1 & H2 & H3). split_and!.
    + constructor; [by rewrite E|done].
    + apply collected_cons_other; [by rewrite Ep|done].
    + by eapply collected_cons_same.
  - specialize (IH (addPorts (lo, hi) tcp) udp). destruct (collectPorts _ _ _) as [[t' u']|e|s]; [|by apply Hmore|done].
    destruct IH as (H1 & H2 & H3). split_and!.
    + constructor; [by rewrite E|done].
    + by eapply collected_cons_same.
    + apply collected_cons_other; [by rewrite Ep|done].
Qed.

Lemma elem_of_sortedPorts s p : p ∈ sortedPorts s ↔ p ∈ s.
Proof. unfold sortedPorts. rewrite merge_sort_Permutation. apply elem_of_elements. Qed.

Lemma sortedPorts_sorted s : StronglySorted Z.lt (sortedPorts s).
Proof.
  unfold sortedPorts. assert (Hn : NoDup (merge_sort Z.le (elements s))) by (rewrite merge_sort_Permutation; apply NoDup_elements).
  assert (Hs : StronglySorted Z.le (merge_sort Z.le (elements s))) by (apply (StronglySorted_merge_sort Z.le)).
  induction Hs as [|x l Hl IH Hf]; [constructor|]. apply NoDup_cons in Hn as [Hx Hn]. constructor; [by apply IH|].
  apply Forall_forall. intros y Hy. rewrite Forall_forall in Hf. specialize (Hf y Hy).
  assert (x ≠ y); [|lia]. intros ->. done.
Qed.

(** Single bindings of valid ports are collected as they are. *)
Lemma collectPorts_single pr l bs tcp udp :
  pr = TCP ∨ pr = UDP → Forall (λ p, validPort p = true) l →
  collectPorts ((single pr <$> l) ++ bs) tcp udp =
    collectPorts bs (if bool_decide (pr = TCP) then list_to_set l ∪ tcp else tcp)
                    (if bool_decide (pr = TCP) then udp else list_to_set l ∪ udp).
Proof.
  intros Hpr Hl. revert tcp udp. induction Hl as [|p l Hp Hl IH]; intros tcp udp.
  { simpl. by case_bool_decide; rewrite union_empty_l_L. }
  simpl fmap. simpl app. simpl collectPorts. unfold bindingPorts at 1. simpl.
  assert (p ≠ 0) by (unfold validPort in Hp; apply andb_true_iff in Hp as [Hp _]; bool_to_Z; lia).
  rewrite (proj2 (Z.eqb_neq _ _)) by done. rewrite Hp.
  assert (Hadd : ∀ s, list_to_set l ∪ addPorts (p, p) s = ({[p]} ∪ list_to_set l ∪ s : gset Z)).
  { intros s. apply set_eq. intros x. rewrite !elem_of_union, elem_of_addPorts, elem_of_singleton. simpl.
    split; [intros [?|[?|?]]; auto; left; left; lia|intros [[->|?]|?]; auto; right; left; lia]. }
  destruct Hpr as [-> | ->]; simpl; rewrite IH; simpl; by rewrite Hadd.
Qed.

Lemma FlatPortBindings_spec bs :
  match FlatPortBindings bs with
  | Ret res =>
      Forall (λ b, is_ret (bindingPorts b) = true) bs ∧
      (∃ tl ul, res = (single TCP <$> tl) ++ (single UDP <$> ul) ∧
        StronglySorted Z.lt tl ∧ StronglySorted Z.lt ul ∧
        (∀ p, p ∈ tl ↔ ∃ b, b ∈ bs ∧ covers b TCP p) ∧ (∀ p, p ∈ ul ↔ ∃ b, b ∈ bs ∧ covers b UDP p) ∧
        (∀ p, p ∈ tl ∨ p ∈ ul → 1 ≤ p ≤ 65535)) ∧
      FlatPortBindings res = Ret res
  | Err _ => ∃ b, b ∈ bs ∧ ∃ e, bindingPorts b = Err e
  | Panic _ => False
  end.
Proof.
  unfold FlatPortBindings at 1. pose proof (collectPorts_spec bs ∅ ∅) as Hc.
  destruct (collectPorts bs ∅ ∅) as [[tcp udp]|e|s]; simpl; [|done..]. destruct Hc as (Hv & Ht & Hu).
  assert (Hvalid : ∀ pr s, collected bs pr ∅ s → Forall (λ p, validPort p = true) (sortedPorts s)).
  { intros pr s Hs. apply Forall_forall. intros p Hp. apply elem_of_sortedPorts, Hs in Hp as [Hp|(b & Hb & _ & lo & hi & E & Hr)];
      [by apply elem_of_empty in Hp|]. pose proof (bindingPorts_cases b) as Hb'. rewrite E in Hb'.
    unfold validPort. apply andb_true_iff. rewrite !Z.leb_le. lia. }
  assert (Hin : ∀ pr s p, collected bs pr ∅ s → p ∈ sortedPorts s ↔ ∃ b, b ∈ bs ∧ covers b pr p).
  { intros pr s p Hs. rewrite elem_of_sortedPorts, (Hs p). set_solver. }
  split; [done|]. split.
  - exists (sortedPorts tcp), (sortedPorts udp). split_and!; try done; try apply sortedPorts_sorted; try (intros p; by apply Hin).
    intros p Hp. assert (validPort p = true) as Hpv.
    { destruct Hp as [Hp|Hp]; [pose proof (Hvalid _ _ Ht) as F|pose proof (Hvalid _ _ Hu) as F]; rewrite Forall_forall in F; by apply F. }
    unfold validPort in Hpv. apply andb_true_iff in Hpv as [H1 H2]. bool_to_Z. lia.
  - unfold FlatPortBindings. rewrite (collectPorts_single TCP) by (auto; by eapply Hvalid).
    rewrite <- (app_nil_r (single UDP <$> _)), (collectPorts_single UDP) by (auto; by eapply Hvalid). simpl.
    assert (Hls : ∀ s, list_to_set (sortedPorts s) ∪ ∅ = (s : gset Z)).
    { intros s. apply set_eq. intros p. rewrite elem_of_union, elem_of_list_to_set, elem_of_sortedPorts. set_solver. }
    by rewrite !Hls, app_nil_r.
Qed.

Lemma forallb_digits t : forallb is_digit t = true ↔ Forall (λ c, 48 ≤ c ≤ 57) t.
Proof.
  rewrite forallb_forall, Forall_forall. setoid_rewrite list_elem_of_In. unfold is_digit.
  split; intros H x Hx; specialize (H x Hx); lia.
Qed.

Lemma Atoi_numeral t n : t ≠ [] → forallb is_digit t = true → Atoi t = Ret n → numeral t n.
Proof.
  intros Hne Hd Ha. split_and!; [done|by apply forallb_digits|]. destruct t as [|c t]; [done|].
  assert (Hc : is_digit c = true) by (by apply andb_true_iff in Hd as [? _]).
  unfold Atoi in Ha. replace (match c with 45 => (true, t) | 43 => (false, t) | _ => (false, c :: t) end) with (false, c :: t) in Ha
    by (apply digit_cases in Hc; by destruct_or!; subst c).
  case_if_in Ha; [done|]. case_if_in Ha; [|done]. by injection Ha as <-.
Qed.

Lemma digits_value_nonneg t acc : 0 ≤ acc → Forall (λ c, 48 ≤ c ≤ 57) t → 0 ≤ digits_value acc t.
Proof. intros Ha Ht. revert acc Ha. induction Ht as [|c t Hc Ht IH]; intros acc Ha; simpl; [done|]. apply IH. lia. Qed.

Lemma numeral_Atoi t n : numeral t n → n ≤ 65535 → Atoi t = Ret n.
Proof.
  intros (Hne & Hd & ->) Hn. apply (Atoi_digits false); [done|by apply forallb_digits|].
  pose proof (digits_value_nonneg t 0 ltac:(lia) Hd). lia.
Qed.

(** The loop body computes what a binding means. *)
Lemma bindingPorts_binds b pr p : covers b pr p ↔ binds b pr p.
Proof.
  split.
  - destruct b as [port range pr']. intros (Hpr & lo & hi & Hb & Hp). cbn [bProtocol] in Hpr. subst pr'. unfold bindingPorts in Hb. cbn [bPort bPortRange bProtocol] in Hb.
    case_bool_decide as Hu; [done|]. assert (Hpr : pr = TCP ∨ pr = UDP) by (destruct pr; auto; done). unfold validPort in Hb. case_if_in Hb.
    + case_if_in Hb; [|done]. injection Hb as <- <-. replace p with port by lia. constructor; [done|]. bool_to_Z. lia.
    + destruct (validPortRange range) as [[m1 m2]|] eqn:Er; [|done]. apply range_parts in Er as (-> & Hn1 & Hn2 & Hd1 & Hd2).
      destruct (Atoi m1) as [small| |] eqn:E1; [|done|done]. destruct (Atoi m2) as [big| |] eqn:E2; [|done|done]. cbn [obind] in Hb.
      do 3 (case_if_in Hb; [done|]). injection Hb as <- <-. bool_to_Z. replace port with 0 by lia.
      apply (binds_range m1 m2 small big); [done|by apply Atoi_numeral|by apply Atoi_numeral|lia|lia|lia].
  - destruct 1 as [p range pr Hpr Hp|t1 t2 lo hi pr p Hpr H1 H2 Hlo Hhi Hp].
    + split; [done|]. exists p, p. split; [|lia]. unfold bindingPorts, validPort. cbn [bPort bPortRange bProtocol].
      rewrite bool_decide_eq_false_2 by (by destruct Hpr as [-> | ->]). by rewrite (proj2 (Z.eqb_neq _ _)), !(proj2 (Z.leb_le _ _)) by lia.
    + split; [done|]. exists lo, hi. split; [|lia]. unfold bindingPorts, validPort. cbn [bPort bPortRange bProtocol].
      rewrite bool_decide_eq_false_2 by (by destruct Hpr as [-> | ->]). rewrite Z.eqb_refl. cbn [negb].
      pose proof H1 as (? & ?%forallb_digits & _). pose proof H2 as (? & ?%forallb_digits & _).
      change (t1 ++ 45 :: t2) with (t1 ++ [45] ++ t2). rewrite range_make by done.
      rewrite (numeral_Atoi t1 lo), (numeral_Atoi t2 hi) by (done || lia). cbn [obind].
      by rewrite !(proj2 (Z.leb_le _ _)), (proj2 (Z.ltb_ge _ _)) by lia.
Qed.

Lemma bindingPorts_meaningful b : is_ret (bindingPorts b) = true ↔ meaningful b.
Proof.
  split.
  - intros Hb. pose proof (bindingPorts_cases b) as Hc. destruct (bindingPorts b) as [[lo hi]| |] eqn:E; try done.
    exists (bProtocol b), lo. apply bindingPorts_binds. split; [done|]. exists lo, hi. split; [done|lia].
  - intros (pr & p & (_ & lo & hi & -> & _)%bindingPorts_binds). done.
Qed.

(** The flat bindings, by what they bind. *)
Lemma FlatPortBindings_in bs flat pr p : FlatPortBindings bs = Ret flat →
  (single pr p ∈ flat ↔ (pr = TCP ∨ pr = UDP) ∧ ∃ b, b ∈ bs ∧ binds b pr p).
Proof.
  intros Hf. pose proof (FlatPortBindings_spec bs) as Hs. rewrite Hf in Hs.
  destruct Hs as (_ & (tl & ul & -> & _ & _ & Ht & Hu & _) & _). setoid_rewrite <- bindingPorts_binds.
  rewrite elem_of_app, !list_elem_of_fmap. split.
  - intros [(q & [= -> ->] & Hq)|(q & [= -> ->] & Hq)]; [split; [by left|by apply Ht]|split; [by right|by apply Hu]].
  - intros [[-> | ->] Hb]; [left|right]; exists p; (split; [done|]); [by apply Ht|by apply Hu].
Qed.

Lemma FlatPortBindings_single bs flat b : FlatPortBindings bs = Ret flat → b ∈ flat →
  b = single (bProtocol b) (bPort b) ∧ (bProtocol b = TCP ∨ bProtocol b = UDP).
Proof.
  intros Hf. pose proof (FlatPortBindings_spec bs) as Hs. rewrite Hf in Hs. destruct Hs as (_ & (tl & ul & -> & _) & _).
  rewrite elem_of_app, !list_elem_of_fmap. intros [(q & -> & _)|(q & -> & _)]; cbn; auto.
Qed.

(** C30: flattening is exact.  [FlatPortBindings] succeeds exactly when every
    binding is meaningful (a port from 1 to 65535, or a text of two decimal
    numbers in that range with the first not above the last, of TCP or UDP), and
    the result then lists the TCP ports and after them the UDP ports that some
    binding binds, no others, each once and in increasing order; flattening the
    result again changes nothing. *)
Theorem flat_port_bindings_exact bs :
  (is_ret (FlatPortBindings bs) = true ↔ Forall meaningful bs) ∧
  match FlatPortBindings bs with
  | Ret res =>
      (∃ tl ul, res = (single TCP <$> tl) ++ (single UDP <$> ul) ∧
        StronglySorted Z.lt tl ∧ StronglySorted Z.lt ul ∧
        (∀ p, p ∈ tl ↔ ∃ b, b ∈ bs ∧ binds b TCP p) ∧ (∀ p, p ∈ ul ↔ ∃ b, b ∈ bs ∧ binds b UDP p)) ∧
      FlatPortBindings res = Ret res
  | Err _ => True
  | Panic _ => False
  end.
Proof.
  pose proof (FlatPortBindings_spec bs) as Hs.
  assert (Hex : ∀ pr p, (∃ b, b ∈ bs ∧ covers b pr p) ↔ ∃ b, b ∈ bs ∧ binds b pr p) by (intros; by setoid_rewrite bindingPorts_binds).
  destruct (FlatPortBindings bs) as [res|e|s]; [|split; [|done]|done].
  - destruct Hs as (Hv & (tl & ul & -> & Ht & Hu & Htl & Hul & _) & Hi). split.
    + split; [|done]. intros _. eapply Forall_impl; [done|]. apply bindingPorts_meaningful.
    + split; [|done]. exists tl, ul. split_and!; try done; intros p; by rewrite <- Hex.
  - split; [done|]. intros Hall. destruct Hs as (b & Hb & e' & He). rewrite Forall_forall in Hall.
    specialize (Hall b Hb). apply bindingPorts_meaningful in Hall. by rewrite He in Hall.
Qed.

Definition demoBindings : list PortBinding :=
  [mkBinding 0 (string_bytes "10-12") TCP; mkBinding 53 [] UDP; mkBinding 11 [] TCP].

Lemma flat_port_bindings_exact_witness :
  FlatPortBindings demoBindings = Ret [single TCP 10; single TCP 11; single TCP 12; single UDP 53] ∧
  Forall meaningful demoBindings ∧ (∃ b, b ∈ demoBindings ∧ binds b TCP 12) ∧ ¬ ∃ b, b ∈ demoBindings ∧ binds b TCP 13.
Proof.
  pose proof (flat_port_bindings_exact demoBindings) as H.
  assert (E : FlatPortBindings demoBindings = Ret [single TCP 10; single TCP 11; single TCP 12; single UDP 53]) by (vm_compute; reflexivity).
  rewrite E in H. destruct H as (Hm & (tl & ul & Heq & _ & _ & Ht & _) & _).
  assert (Htl : tl = [10; 11; 12]).
  { destruct tl as [|a [|b [|c [|d tl]]]]; destruct ul as [|u [|v ul]]; cbn in Heq; simplify_eq; done. }
  subst tl. split_and!; [exact E|by apply Hm|apply Ht; set_solver|]. intros Hx. apply Ht in Hx. set_solver.
Defined.

Lemma mapOutcome_ret {A B} (f : A → outcome B) l ys :
  mapOutcome f l = Ret ys ↔ Forall2 (λ x y, f x = Ret y) l ys.
Proof.
  revert ys. induction l as [|x l IH]; intros ys; simpl.
  - split; [intros [= <-]; constructor|inversion 1; done].
  - destruct (f x) as [y|e|s] eqn:E; simpl; [|split; [done|inversion 1; congruence]..].
    destruct (mapOutcome f l) as [zs|e|s]; simpl; (split; [intros Hy|inversion 1; subst]).
    + injection Hy as <-. constructor; [done|]. by apply IH.
    + replace y with y0 by congruence. f_equal. f_equal. assert (Ret zs = Ret l') as [=]; [|done]. by apply IH.
    + done.
    + assert (Err e = Ret l'); [|done]. by apply IH.
    + done.
    + assert (Panic s = Ret l'); [|done]. by apply IH.
Qed.

Lemma FlatPortBindings_protocol bs flat :
  FlatPortBindings bs = Ret flat → Forall (λ b, bProtocol b = TCP ∨ bProtocol b = UDP) flat.
Proof.
  unfold FlatPortBindings. intros Hf. destruct (collectPorts bs ∅ ∅) as [[t u]| |]; simpl in Hf; simplify_eq.
  apply Forall_app. split; apply Forall_fmap, Forall_true; simpl; auto.
Qed.

(** A binding that is accepted binds a port. *)
Lemma FlatPortBindings_nonempty bs flat : FlatPortBindings bs = Ret flat → bs ≠ [] → flat ≠ [].
Proof.
  unfold FlatPortBindings. intros Hf Hbs. pose proof (collectPorts_spec bs ∅ ∅) as Hc.
  destruct (collectPorts bs ∅ ∅) as [[t u]| |]; simpl in Hf; simplify_eq. destruct Hc as (Hv & Ht & Hu).
  destruct bs as [|b bs]; [done|]. apply Forall_cons in Hv as [Hb _]. pose proof (bindingPorts_cases b) as Hr.
  destruct (bindingPorts b) as [[lo hi]| |] eqn:E; try done. destruct Hr as (Hp & Hr & _).
  assert (Hcov : covers b (bProtocol b) lo) by (split; [done|]; exists lo, hi; split; [done|lia]).
  intros [H1 H2]%app_eq_nil. apply fmap_nil_inv in H1, H2.
  assert (lo ∈ sortedPorts t ∨ lo ∈ sortedPorts u) as [Hin|Hin]; [|rewrite H1 in Hin|rewrite H2 in Hin]; [|by apply elem_of_nil in Hin..].
  destruct (bProtocol b) eqn:Eb; [done| |]; rewrite !elem_of_sortedPorts; [right; apply Hu|left; apply Ht]; right; exists b;
    (split; [left|done]).
Qed.

(** The endpoint of a port: on all addresses of the host. *)
Definition endpointAt (dualStack : bool) (mtu : Z) (pr : Protocol) (port : Z) : UnderlayProperties :=
  mkProps mtu (if bool_decide (pr = TCP) then StreamTransport else PacketTransport)
    (mkNetAddr (if bool_decide (pr = TCP) then "tcp" else "udp") (addrString (AllIPAddr dualStack) port)) NilNetAddr.

Lemma PortBindingsToUnderlayProperties_flat dualStack bs mtu flat : FlatPortBindings bs = Ret flat →
  PortBindingsToUnderlayProperties dualStack bs mtu = Ret ((λ b, endpointAt dualStack mtu (bProtocol b) (bPort b)) <$> flat).
Proof.
  intros Hf. unfold PortBindingsToUnderlayProperties. rewrite Hf. pose proof (FlatPortBindings_protocol bs flat Hf) as Hpr.
  clear Hf. induction Hpr as [|b flat Hb Hall IH]; [done|]. cbn [mapOutcome fmap list_fmap]. unfold fmap in IH. rewrite IH.
  unfold listenEndpoint, endpointAt. destruct Hb as [-> | ->]; reflexivity.
Qed.

(** The endpoints of a server: one for each port that is bound, with a local address. *)
Lemma PortBindingsToUnderlayProperties_spec dualStack bs mtu flat :
  FlatPortBindings bs = Ret flat →
  ∃ eps, PortBindingsToUnderlayProperties dualStack bs mtu = Ret eps ∧ length eps = length flat ∧
    Forall (λ p, IsNilNetAddr (p_LocalAddr p) = false) eps ∧
    ∀ p, p ∈ eps ↔ ∃ b pr port, b ∈ bs ∧ binds b pr port ∧ p = endpointAt dualStack mtu pr port.
Proof.
  intros Hf. eexists. split; [by apply PortBindingsToUnderlayProperties_flat|]. split; [by rewrite length_fmap|]. split.
  - apply Forall_fmap, Forall_true. intros b. unfold endpointAt. cbn. by case_bool_decide.
  - intros p. rewrite list_elem_of_fmap. split.
    + intros (b & -> & Hb). destruct (FlatPortBindings_single _ _ _ Hf Hb) as [E _]. rewrite E in Hb.
      apply (FlatPortBindings_in _ _ _ _ Hf) in Hb as [_ (b0 & H1 & H2)]. by exists b0, (bProtocol b), (bPort b).
    + intros (b & pr & port & H1 & H2 & ->). exists (single pr port). split; [done|]. apply (FlatPortBindings_in _ _ _ _ Hf).
      split; [by destruct H2|by exists b].
Qed.

End PortBinding.
Export PortBinding.
