(* ===== verification/ConfigServer.v ===== *)
(** * Server configuration: pkg/appctl/server.go, pkg/appctl/appctlcommon

    Users, DNS hosts, validation and merging of server configurations, and the
    operations on the stored configuration.  Protobuf messages are records; an
    optional field whose presence the code tests is an [option], the others are
    the values of their getters.  [parseDuration] is [time.ParseDuration]; the
    protobuf or JSON encoding of the stored file is a pair of parameters with
    the law that what was marshalled is unmarshalled. *)

From S2P Require Import Prelude Mathext Common Sha256 Cipher Auth Segment SessionState Socks Net SocksUDP Dns Egress SocksAuth.
From S2P Require Import TrafficPattern Mux PortBinding.
From stdpp Require Import sorting.
Local Open Scope Z_scope.

Module ConfigServer.

(** ** Users (user.go, server.go of appctlcommon) *)

(** [appctlpb.User]. *)
Record PbUser := mkPbUser {
  pu_name : string;
  pu_password : string;
  pu_hashedPassword : string;
  pu_quotas : list Quota;
  pu_rights : UserRights
}.

(** [hex.EncodeToString]. *)
Definition hexAscii (d : Z) : Ascii.ascii := Ascii.ascii_of_N (Z.to_N (hexChar d)).
Fixpoint hexEncode (b : bytes) : string :=
  match b with
  | [] => ""
  | x :: b => String (hexAscii (x / 16)) (String (hexAscii (x `mod` 16)) (hexEncode b))
  end.

Definition HashUserPassword (keepPlaintext : bool) (u : PbUser) : PbUser :=
  if bool_decide (pu_password u = "") then u
  else mkPbUser (pu_name u) (if keepPlaintext then pu_password u else "")
         (hexEncode (HashPassword (string_bytes (pu_password u)) (string_bytes (pu_name u))))
         (pu_quotas u) (pu_rights u).

Definition HashUserPasswords (keepPlaintext : bool) (us : list PbUser) : list PbUser :=
  HashUserPassword keepPlaintext <$> us.

(** The loop stores each item under its key: the last of a key wins. *)
Definition listToMap {A} (key : A → string) (l : list A) : gmap string A :=
  foldl (λ m x, <[key x := x]> m) ∅ l.

Definition UserListToMap (us : list PbUser) : gmap string PbUser := listToMap pu_name us.

Fixpoint validateQuotas (qs : list Quota) : outcome unit :=
  match qs with
  | [] => Ret tt
  | q :: qs =>
      if quotaDays q <=? 0 then Err (Errorf "quota: number of days %d is invalid")
      else if quotaMegabytes q <=? 0 then Err (Errorf "quota: traffic volume in megabyte %d is invalid")
      else validateQuotas qs
  end.

(** The checks of names and passwords that servers and clients share. *)
Definition validateCredentials (u : PbUser) : outcome unit :=
  if bool_decide (pu_name u = "") then Err (Errorf "user name is not set")
  else if bool_decide (pu_password u = "") && bool_decide (pu_hashedPassword u = "")
  then Err (Errorf "user password is not set")
  else if 64 <? len (string_bytes (pu_name u)) then Err (Errorf "user name exceeds 64 bytes")
  else if negb (bool_decide (pu_password u = "")) && (64 <? len (string_bytes (pu_password u)))
  then Err (Errorf "user password exceeds 64 bytes")
  else Ret tt.

Definition ValidateServerConfigSingleUser (u : PbUser) : outcome unit :=
  let! _ := validateCredentials u in validateQuotas (pu_quotas u).

(** ** DNS hosts (dns.go of appctlcommon)

    The Go map in the order of its iteration. *)
Record PbDNS := mkDNS { dns_hosts : list (bytes * bytes); dns_dualStack : Z }.

Fixpoint transformHosts (l : list (bytes * bytes)) (hosts : gmap bytes bytes) : outcome (gmap bytes bytes) :=
  match l with
  | [] => Ret hosts
  | (name, ipString) :: l =>
      if bool_decide (head name = Some 46) then Err (Errorf "domain name %q must not begin with a dot")
      else if bool_decide (last name = Some 46) then Err (Errorf "domain name %q must not end with a dot")
      else
        let normalized := NormalizeDomainName name in
        if bool_decide (normalized = []) then Err (Errorf "domain name is empty")
        else if bool_decide (is_Some (hosts !! normalized))
        then Err (Errorf "found duplicate domain name %q after normalization")
        else
          let ip := ParseIP ipString in
          if bool_decide (ip = []) then Err (Errorf "domain name %q has invalid IP address %q")
          else transformHosts l (<[normalized := ip]> hosts)
  end.

Definition TransformDNSHosts (dns : option PbDNS) : outcome (gmap bytes bytes) :=
  match dns with None => Ret ∅ | Some d => transformHosts (dns_hosts d) ∅ end.

(** ** The configuration *)

Record PbProxy := mkPbProxy { pp_protocol : ProxyProtocol; pp_proxy : EgressProxy }.
Record PbEgress := mkPbEgress { pe_proxies : list PbProxy; pe_rules : list EgressRule }.
Record PbAdvanced := mkAdvanced { adv_metricsLoggingInterval : bytes; adv_userHintIsMandatory : bool }.

Record PbServerConfig := mkPbServerConfig {
  sc_portBindings : option (list PortBinding);
  sc_users : list PbUser;
  sc_advancedSettings : option PbAdvanced;
  sc_loggingLevel : option Z;
  sc_mtu : option Z;
  sc_egress : option PbEgress;
  sc_dns : option PbDNS;
  sc_trafficPattern : option TrafficPattern
}.

(** What the encodings carry: a repeated field that is empty is absent. *)
Definition onWire (c : PbServerConfig) : Prop := sc_portBindings c ≠ Some [].

Definition GetPortBindings (c : PbServerConfig) : list PortBinding := default [] (sc_portBindings c).

(** A loop that returns the first error. *)
Fixpoint firstError {A} (f : A → outcome unit) (l : list A) : outcome unit :=
  match l with [] => Ret tt | x :: l => let! _ := f x in firstError f l end.

Definition validateMtu (mtu : option Z) : outcome unit :=
  let m := default 0 mtu in
  if negb (m =? 0) && ((m <? 1280) || (1500 <? m))
  then Err (Errorf "MTU value %d is out of range, valid range is [1280, 1500]") else Ret tt.

(** One egress proxy, given the names used before. *)
Definition validateProxy (used : gset bytes) (p : PbProxy) : outcome unit :=
  let q := pp_proxy p in
  let auth := default (mkCredential [] []) (socks5Authentication q) in
  if bool_decide (proxyName q = []) then Err (Errorf "egress proxy name is empty")
  else if bool_decide (proxyName q ∈ used) then Err (Errorf "found duplicate egress proxy name %q")
  else if bool_decide (pp_protocol p = UNKNOWN_PROXY_PROTOCOL) then Err (Errorf "egress proxy protocol is not set")
  else if bool_decide (proxyHost q = []) then Err (Errorf "egress proxy host is not set")
  else if negb (validPort (proxyPort q)) then Err (Errorf "egress proxy port number %d is invalid")
  else if bool_decide (credUser auth = []) && negb (bool_decide (credPassword auth = []))
  then Err (Errorf "egress proxy socks5 authentication user is not set")
  else if negb (bool_decide (credUser auth = [])) && bool_decide (credPassword auth = [])
  then Err (Errorf "egress proxy socks5 authentication password is not set")
  else Ret tt.

Fixpoint validateProxies (l : list PbProxy) (used : gset bytes) : outcome (gset bytes) :=
  match l with
  | [] => Ret used
  | p :: l => let! _ := validateProxy used p in validateProxies l ({[proxyName (pp_proxy p)]} ∪ used)
  end.

Definition validateIPRange (r : bytes) : outcome unit :=
  if bool_decide (r = [42]) then Ret tt
  else match ParseCIDR r with Some _ => Ret tt | None => Err (Errorf "egress rule: invalid IP CIDR: %s") end.

Definition validateDomain (d : bytes) : outcome unit :=
  if bool_decide (d = []) then Err (Errorf "egress rule: domain name is empty")
  else if bool_decide (head d = Some 46) then Err (Errorf "egress rule: domain name %q must not begin with a dot")
  else if bool_decide (last d = Some 46) then Err (Errorf "egress rule: domain name %q must not end with a dot")
  else Ret tt.

Definition validateRule (used : gset bytes) (r : EgressRule) : outcome unit :=
  let! _ := firstError validateIPRange (ipRanges r) in
  let! _ := firstError validateDomain (domainNames r) in
  if bool_decide (ruleAction r = PROXY) then
    if len (proxyNames r) =? 0 then Err (Errorf "egress rule: proxy name list is empty for PROXY action")
    else firstError (λ n, if bool_decide (n ∈ used) then Ret tt
                          else Err (Errorf "egress rule: proxy %q is referenced but not defined")) (proxyNames r)
  else if 0 <? len (proxyNames r) then Err (Errorf "egress rule: proxy name list is not empty for non-PROXY action")
  else Ret tt.

Definition validateEgress (e : option PbEgress) : outcome unit :=
  let e := default (mkPbEgress [] []) e in
  let! used := validateProxies (pe_proxies e) ∅ in firstError (validateRule used) (pe_rules e).

Section Duration.
Context (parseDuration : bytes → outcome Z).

Definition validateMetricsInterval (interval : bytes) : outcome unit :=
  if bool_decide (interval = []) then Ret tt
  else match parseDuration interval with
       | Ret d => if d <? SecondNs then Err (Errorf "metrics logging interval %q is less than 1 second") else Ret tt
       | Err _ => Err (Errorf "metrics logging interval %q is invalid: %w")
       | Panic s => Panic s
       end.

Definition ValidateServerConfigPatch (c : PbServerConfig) : outcome unit :=
  let! _ := FlatPortBindings (GetPortBindings c) in
  let! _ := firstError ValidateServerConfigSingleUser (sc_users c) in
  let! _ := validateMtu (sc_mtu c) in
  let! _ := validateEgress (sc_egress c) in
  let! _ := (match TransformDNSHosts (sc_dns c) with
             | Ret _ => Ret tt | Err _ => Err (Errorf "invalid DNS configuration: %w") | Panic s => Panic s end) in
  let! _ := validateMetricsInterval (default [] (adv_metricsLoggingInterval <$> sc_advancedSettings c)) in
  match Validate (sc_trafficPattern c) with
  | Ret _ => Ret tt | Err _ => Err (Errorf "invalid traffic pattern: %w") | Panic s => Panic s
  end.

(** [proto.Equal(config, &pb.ServerConfig{})]: no field is set. *)
Definition isEmptyConfig (c : PbServerConfig) : bool :=
  match c with
  | mkPbServerConfig pb [] None None None None None None => bool_decide (default [] (pb : option (list PortBinding)) = [])
  | _ => false
  end.

Definition ValidateFullServerConfig (c : PbServerConfig) : outcome unit :=
  let! _ := ValidateServerConfigPatch c in
  if isEmptyConfig c then Err (Errorf "server config is empty")
  else if len (GetPortBindings c) =? 0 then Err (Errorf "server port binding is not set")
  else Ret tt.
End Duration.

(** ** Merging *)

(** The users of a map in the order of [sort.Strings] of their names. *)
Definition sortedNames {A} (m : gmap string A) : list string := merge_sort String.le (elements (dom m)).
Definition sortedValues {A} (m : gmap string A) : list A := omap (λ n, m !! n) (sortedNames m).

(** [if src.F != nil { src.F } else { dst.F }]. *)
Definition prefer {A} (src dst : option A) : option A := match src with Some _ => src | None => dst end.

Definition mergeServerConfig (dst src : PbServerConfig) : PbServerConfig :=
  mkPbServerConfig
    (prefer (sc_portBindings src) (sc_portBindings dst))
    (sortedValues (UserListToMap (sc_users dst ++ sc_users src)))
    (prefer (sc_advancedSettings src) (sc_advancedSettings dst))
    (Some (default 0 (prefer (sc_loggingLevel src) (sc_loggingLevel dst))))
    (Some (default 0 (prefer (sc_mtu src) (sc_mtu dst))))
    (prefer (sc_egress src) (sc_egress dst))
    (prefer (sc_dns src) (sc_dns dst))
    (prefer (sc_trafficPattern src) (sc_trafficPattern dst)).

(** ** The stored configuration

    The file is its bytes, [None] when it does not exist. *)


Section File.
Context (parseDuration : bytes → outcome Z)
        (marshal : PbServerConfig → outcome bytes) (unmarshal : bytes → outcome PbServerConfig)
        (unmarshalJSON : bytes → outcome PbServerConfig).

Definition LoadServerConfig (file : option bytes) : outcome PbServerConfig :=
  match file with None => Err ErrFileNotExist | Some b => unmarshal b end.

Definition set_users (us : list PbUser) (c : PbServerConfig) : PbServerConfig :=
  mkPbServerConfig (sc_portBindings c) us (sc_advancedSettings c) (sc_loggingLevel c) (sc_mtu c) (sc_egress c)
    (sc_dns c) (sc_trafficPattern c).

(** What is written: the configuration with hashed passwords only. *)
Definition stored (c : PbServerConfig) : PbServerConfig := set_users (HashUserPasswords false (sc_users c)) c.

Definition StoreServerConfig (c : PbServerConfig) : outcome (option bytes) :=
  let! b := marshal (stored c) in Ret (Some b).

Definition ApplyJSONServerConfig (b : bytes) (file : option bytes) : outcome (option bytes) :=
  let! s := unmarshalJSON b in
  let! _ := ValidateServerConfigPatch parseDuration s in
  let! config := LoadServerConfig file in
  let config := mergeServerConfig config s in
  let! _ := ValidateFullServerConfig parseDuration config in
  StoreServerConfig config.

Definition DeleteServerUsers (names : list string) (file : option bytes) : outcome (option bytes) :=
  let! config := LoadServerConfig file in
  StoreServerConfig (set_users (filter (λ u, pu_name u ∉ names) (sc_users config)) config).
End File.

(** * Properties *)

(** ** Hashed passwords *)

Lemma hexDigit_hexChar d : 0 ≤ d < 16 → hexDigit (hexChar d) = Some d.
Proof.
  intros Hd. assert (d ∈ seqZ 0 16) as Hs by (apply elem_of_seqZ; lia).
  vm_compute in Hs. repeat (apply elem_of_cons in Hs as [->|Hs]; [reflexivity|]). by apply elem_of_nil in Hs.
Qed.

Lemma hexAscii_byte d : 0 ≤ d < 16 → Z.of_N (Ascii.N_of_ascii (hexAscii d)) = hexChar d.
Proof.
  intros Hd. unfold hexAscii. assert (0 ≤ hexChar d < 256) by (unfold hexChar; case_if; bool_to_Z; lia).
  rewrite Ascii.N_ascii_embedding by lia. lia.
Qed.

Lemma hexDecode_hexEncode b : bytes_ok b → hexDecode (string_bytes (hexEncode b)) = Some b.
Proof.
  induction 1 as [|x b Hx Hb IH]; [done|]. unfold in_u8 in Hx.
  assert (0 ≤ x / 16 < 16) by (split; [apply Z.div_pos|apply Z.div_lt_upper_bound]; lia).
  assert (0 ≤ x `mod` 16 < 16) by (apply Z.mod_pos_bound; lia).
  unfold string_bytes in *. cbn [hexEncode String.list_ascii_of_string map]. rewrite !hexAscii_byte by done.
  cbn [hexDecode]. rewrite !hexDigit_hexChar by done. rewrite IH. f_equal. f_equal.
  rewrite (Z.div_mod x 16) at 3 by lia. lia.
Qed.

Lemma hexEncode_nonempty b : b ≠ [] → hexEncode b ≠ "".
Proof. by destruct b. Qed.

(** What the underlays read of a user. *)
Definition toUser (u : PbUser) : User := mkUser (pu_name u) (pu_password u) (pu_hashedPassword u).

(** A user without a hashed password, and the same user once it is stored, have
    the same key. *)
Lemma HashUserPassword_key keep u :
  pu_hashedPassword u = "" → userPassword (toUser (HashUserPassword keep u)) = userPassword (toUser u).
Proof.
  intros Hh. unfold HashUserPassword. case_bool_decide as Hp; [done|].
  unfold userPassword, toUser. simpl. rewrite Hh. rewrite hexDecode_hexEncode by apply Sum256_ok.
  simpl. unfold len, HashPassword. by rewrite length_Sum256.
Qed.

Lemma HashUserPassword_idem u : HashUserPassword false (HashUserPassword false u) = HashUserPassword false u.
Proof. unfold HashUserPassword. by destruct (bool_decide (pu_password u = "")) eqn:E; simpl; rewrite ?E. Qed.

Lemma HashUserPassword_name keep u : pu_name (HashUserPassword keep u) = pu_name u.
Proof. unfold HashUserPassword. by case_bool_decide. Qed.

Lemma HashUserPassword_hidden u : pu_password (HashUserPassword false u) = "".
Proof. unfold HashUserPassword. by case_bool_decide. Qed.

(** ** Lists and maps by key *)

Lemma elem_of_sortedNames {A} (m : gmap string A) n : n ∈ sortedNames m ↔ is_Some (m !! n).
Proof. unfold sortedNames. by rewrite merge_sort_Permutation, elem_of_elements, elem_of_dom. Qed.

Lemma sortedNames_NoDup {A} (m : gmap string A) : NoDup (sortedNames m).
Proof. unfold sortedNames. rewrite merge_sort_Permutation. apply NoDup_elements. Qed.

Lemma elem_of_sortedValues {A} (m : gmap string A) x : x ∈ sortedValues m ↔ ∃ n, m !! n = Some x.
Proof.
  unfold sortedValues. rewrite list_elem_of_omap. split; [intros (n & _ & ?); eauto|].
  intros (n & Hn). exists n. split; [apply elem_of_sortedNames; eauto|done].
Qed.

Lemma sortedValues_fmap {A B} (f : A → B) (m : gmap string A) : sortedValues (f <$> m) = f <$> sortedValues m.
Proof.
  unfold sortedValues, sortedNames. rewrite dom_fmap_L. induction (merge_sort String.le (elements (dom m))) as [|n l IH]; [done|].
  simpl. rewrite lookup_fmap. destruct (m !! n); simpl; [f_equal|]; apply IH.
Qed.

Section Keyed.
Context {A : Type} (key : A → string).
Implicit Types (m : gmap string A) (l : list A).

(** Each item is stored under its key. *)
Definition keyed m : Prop := ∀ n x, m !! n = Some x → key x = n.

Lemma foldl_keyed l m n :
  foldl (λ m x, <[key x := x]> m) m l !! n = prefer (listToMap key l !! n) (m !! n).
Proof.
  unfold listToMap. induction l as [|x l IH] using rev_ind; [done|]. rewrite !foldl_app. simpl.
  destruct (decide (n = key x)) as [->|Hne]; [by rewrite !lookup_insert_eq|]. by rewrite !lookup_insert_ne.
Qed.

Lemma lookup_listToMap_app l1 l2 n :
  listToMap key (l1 ++ l2) !! n = prefer (listToMap key l2 !! n) (listToMap key l1 !! n).
Proof. unfold listToMap at 1. rewrite foldl_app. apply foldl_keyed. Qed.

Lemma lookup_listToMap l n x : listToMap key l !! n = Some x → key x = n ∧ x ∈ l.
Proof.
  induction l as [|y l IH] using rev_ind; [done|]. unfold listToMap. rewrite foldl_app. simpl. intros Hl.
  apply lookup_insert_Some in Hl as [[<- <-]|[_ Hl]]; [split; [done|set_solver]|].
  destruct (IH Hl). split; [done|set_solver].
Qed.

Lemma listToMap_keyed l : keyed (listToMap key l).
Proof. intros n x Hx. by apply lookup_listToMap in Hx as [? _]. Qed.

(** The items of a keyed map, in order, give the map back. *)
Lemma listToMap_omap m ns n :
  keyed m → listToMap key (omap (λ n, m !! n) ns) !! n = if decide (n ∈ ns) then m !! n else None.
Proof.
  intros Hk. induction ns as [|x ns IH] using rev_ind; [done|]. rewrite omap_app, lookup_listToMap_app, IH. clear IH.
  assert (Hx : listToMap key (omap (λ n, m !! n) [x]) !! n = if decide (n = x) then m !! n else None).
  { simpl. destruct (m !! x) as [u|] eqn:E; simpl; unfold listToMap; simpl.
    - rewrite (Hk _ _ E). case_decide as Hd; [subst; by rewrite lookup_insert_eq|by rewrite lookup_insert_ne].
    - case_decide as Hd; [by subst|done]. }
  rewrite Hx. repeat case_decide; try set_solver; destruct (m !! n); done.
Qed.

Lemma listToMap_sortedValues m : keyed m → listToMap key (sortedValues m) = m.
Proof.
  intros Hk. apply map_eq. intros n. unfold sortedValues. rewrite listToMap_omap by done.
  case_decide as Hd; [done|]. rewrite elem_of_sortedNames in Hd. by destruct (m !! n) as [u|]; [destruct Hd; eauto|].
Qed.

Lemma listToMap_fmap (f : A → A) l : (∀ x, key (f x) = key x) → listToMap key (f <$> l) = f <$> listToMap key l.
Proof.
  intros Hf. induction l as [|u l IH] using rev_ind; [unfold listToMap; simpl; by rewrite fmap_empty|].
  unfold listToMap in *. rewrite fmap_app, !foldl_app. simpl. by rewrite IH, Hf, fmap_insert.
Qed.

Lemma sortedValues_names m : keyed m → key <$> sortedValues m = sortedNames m.
Proof.
  intros Hk. unfold sortedValues.
  assert (Hall : Forall (λ n, is_Some (m !! n)) (sortedNames m)) by (apply Forall_forall; intros n; apply elem_of_sortedNames).
  induction Hall as [|n ns [u Hu] Hall IH]; [done|]. simpl. rewrite Hu. simpl. rewrite (Hk _ _ Hu). f_equal. apply IH.
Qed.
End Keyed.

(** ** Validity *)

Lemma firstError_ret {A} (f : A → outcome unit) l : firstError f l = Ret tt ↔ Forall (λ x, f x = Ret tt) l.
Proof. induction l as [|x l IH]; simpl; [done|]. by rewrite obind_ret_tt, IH, Forall_cons. Qed.

Lemma prefer_cases {A} (src dst : option A) (P : option A → Prop) : P src → P dst → P (prefer src dst).
Proof. by destruct src. Qed.

Section Valid.
Context (parseDuration : bytes → outcome Z).

Notation ValidatePatch := (ValidateServerConfigPatch parseDuration).
Notation ValidateFull := (ValidateFullServerConfig parseDuration).
Notation intervalOf a := (default [] (adv_metricsLoggingInterval <$> a)).

(** A valid patch, field by field. *)
Record patch_ok (c : PbServerConfig) : Prop := {
  ok_ports : is_ret (FlatPortBindings (GetPortBindings c)) = true;
  ok_users : Forall (λ u, ValidateServerConfigSingleUser u = Ret tt) (sc_users c);
  ok_mtu : validateMtu (sc_mtu c) = Ret tt;
  ok_egress : validateEgress (sc_egress c) = Ret tt;
  ok_dns : is_ret (TransformDNSHosts (sc_dns c)) = true;
  ok_interval : validateMetricsInterval parseDuration (intervalOf (sc_advancedSettings c)) = Ret tt;
  ok_traffic : Validate (sc_trafficPattern c) = Ret tt
}.

Lemma ValidatePatch_ret c : ValidatePatch c = Ret tt ↔ patch_ok c.
Proof.
  unfold ValidateServerConfigPatch. split.
  - destruct (FlatPortBindings (GetPortBindings c)) eqn:E1; simpl; try done. rewrite !obind_ret_tt.
    intros (H1 & H2 & H3 & H4 & H5 & H6). rewrite firstError_ret in H1. split; try done; [by rewrite E1|..].
    + by destruct (TransformDNSHosts (sc_dns c)).
    + by destruct (Validate (sc_trafficPattern c)) as [[]| |].
  - intros [H1 H2 H3 H4 H5 H6 H7]. destruct (FlatPortBindings (GetPortBindings c)); try done. simpl.
    rewrite !obind_ret_tt, firstError_ret. split_and!; try done; [|by rewrite H7].
    by destruct (TransformDNSHosts (sc_dns c)).
Qed.

Lemma ValidateFull_ret c : ValidateFull c = Ret tt ↔ patch_ok c ∧ GetPortBindings c ≠ [].
Proof.
  unfold ValidateFullServerConfig. rewrite obind_ret_tt, ValidatePatch_ret. apply and_iff_compat_l.
  assert (isEmptyConfig c = true → GetPortBindings c = []) as He.
  { destruct c as [pb us ad lo mt eg dn tp]. unfold isEmptyConfig, GetPortBindings.
    destruct us, ad, lo, mt, eg, dn, tp; try done. simpl. by intros ?%bool_decide_eq_true. }
  destruct (isEmptyConfig c); [by rewrite He|].
  destruct (GetPortBindings c) as [|b l]; [done|]. split; [done|]. intros _.
  rewrite (proj2 (Z.eqb_neq _ _)); [done|]. unfold len. simpl. lia.
Qed.

(** The users of a merged configuration. *)
Lemma merge_users dst src n :
  UserListToMap (sc_users (mergeServerConfig dst src)) !! n =
    prefer (UserListToMap (sc_users src) !! n) (UserListToMap (sc_users dst) !! n).
Proof. simpl. unfold UserListToMap. rewrite listToMap_sortedValues by apply listToMap_keyed. apply lookup_listToMap_app. Qed.

Lemma merge_patch_ok dst src : patch_ok dst → patch_ok src → patch_ok (mergeServerConfig dst src).
Proof.
  intros [D1 D2 D3 D4 D5 D6 D7] [S1 S2 S3 S4 S5 S6 S7]. split; simpl.
  - unfold GetPortBindings in *. simpl. by destruct (sc_portBindings src).
  - apply Forall_forall. intros u Hu. apply elem_of_sortedValues in Hu as (n & Hn).
    apply lookup_listToMap in Hn as [_ Hn]. rewrite Forall_forall in D2, S2. apply elem_of_app in Hn as [?|?]; auto.
  - by destruct (sc_mtu src).
  - by apply (prefer_cases _ _ (λ e, validateEgress e = Ret tt)).
  - by apply (prefer_cases _ _ (λ e, is_ret (TransformDNSHosts e) = true)).
  - by apply (prefer_cases _ _ (λ e, validateMetricsInterval parseDuration (intervalOf e) = Ret tt)).
  - by apply (prefer_cases _ _ (λ e, Validate e = Ret tt)).
Qed.

Lemma hashed_credentials_valid keep u :
  validateCredentials u = Ret tt → validateCredentials (HashUserPassword keep u) = Ret tt.
Proof.
  unfold HashUserPassword. case_bool_decide as Hp; [done|]. intros Hc. unfold validateCredentials in *. simpl.
  repeat (case_if_in Hc; [done|]).
  rewrite (bool_decide_false (hexEncode _ = "")), andb_false_r.
  2:{ apply hexEncode_nonempty. unfold HashPassword. intros E. apply (f_equal length) in E. by rewrite length_Sum256 in E. }
  repeat (case_if; [congruence|]). destruct keep; simpl; [by repeat (case_if; [congruence|])|done].
Qed.

Lemma hashed_user_valid keep u :
  ValidateServerConfigSingleUser u = Ret tt → ValidateServerConfigSingleUser (HashUserPassword keep u) = Ret tt.
Proof.
  unfold ValidateServerConfigSingleUser. rewrite !obind_ret_tt. intros [Hc Hq].
  split; [by apply hashed_credentials_valid|]. unfold HashUserPassword. by case_bool_decide.
Qed.

Lemma stored_patch_ok c : patch_ok c → patch_ok (stored c).
Proof.
  intros [H1 H2 H3 H4 H5 H6 H7]. split; try done. simpl. unfold HashUserPasswords. apply Forall_fmap.
  eapply Forall_impl; [exact H2|]. intros u Hu. by apply hashed_user_valid.
Qed.
End Valid.

(** ** Applying a configuration *)

Lemma stored_names dst src :
  pu_name <$> sc_users (stored (mergeServerConfig dst src)) = sortedNames (UserListToMap (sc_users dst ++ sc_users src)).
Proof.
  rewrite <- (sortedValues_names pu_name) by apply listToMap_keyed. simpl. unfold HashUserPasswords.
  rewrite <- list_fmap_compose. apply list_fmap_ext. intros _ u _. apply HashUserPassword_name.
Qed.

(** The users that are stored, by name. *)
Lemma stored_users c n :
  UserListToMap (sc_users (stored c)) !! n = HashUserPassword false <$> (UserListToMap (sc_users c) !! n).
Proof.
  simpl. unfold HashUserPasswords, UserListToMap. rewrite listToMap_fmap by apply HashUserPassword_name. apply lookup_fmap.
Qed.

(** Applying a patch to what it was applied to before changes nothing. *)
Lemma stored_merge_idem dst src :
  stored (mergeServerConfig (stored (mergeServerConfig dst src)) src) = stored (mergeServerConfig dst src).
Proof.
  assert (Hp : ∀ A (s d : option A), prefer s (prefer s d) = prefer s d) by (by intros A [] ?).
  unfold stored, set_users. simpl. rewrite !Hp. f_equal.
  - unfold HashUserPasswords, UserListToMap. rewrite <- !sortedValues_fmap. f_equal. apply map_eq. intros n.
    rewrite !lookup_fmap, lookup_listToMap_app, sortedValues_fmap.
    rewrite listToMap_fmap by apply HashUserPassword_name.
    rewrite listToMap_sortedValues by apply listToMap_keyed. rewrite lookup_fmap, lookup_listToMap_app.
    destruct (listToMap pu_name (sc_users src) !! n) as [u|]; simpl; [done|].
    destruct (listToMap pu_name (sc_users dst) !! n) as [u|]; simpl; [by rewrite HashUserPassword_idem|done].
  - by destruct (sc_loggingLevel src).
  - by destruct (sc_mtu src).
Qed.

Section Apply.
Context (parseDuration : bytes → outcome Z)
        (marshal : PbServerConfig → outcome bytes) (unmarshal : bytes → outcome PbServerConfig)
        (unmarshalJSON : bytes → outcome PbServerConfig).
Context (marshal_unmarshal : ∀ c, onWire c → ∃ b, marshal c = Ret b ∧ unmarshal b = Ret c).

Notation ValidatePatch := (ValidateServerConfigPatch parseDuration).
Notation ValidateFull := (ValidateFullServerConfig parseDuration).
Notation Load := (LoadServerConfig unmarshal).
Notation Apply := (ApplyJSONServerConfig parseDuration marshal unmarshal unmarshalJSON).

Lemma Store_Load c : onWire c → ∃ file', StoreServerConfig marshal c = Ret file' ∧ Load file' = Ret (stored c).
Proof.
  intros Hw. destruct (marshal_unmarshal (stored c) Hw) as (b & Hb & Hu). exists (Some b). unfold StoreServerConfig. by rewrite Hb.
Qed.

(** A setting of the result: that of the patch if it is set there. *)
Definition overrides {A} (src dst res : option A) : Prop :=
  (∀ v, src = Some v → res = Some v) ∧ (src = None → res = dst).
(** A number that is always written: 0 if it is set nowhere. *)
Definition overridesNumber (src dst res : option Z) : Prop :=
  (∀ v, src = Some v → res = Some v) ∧ (src = None → res = Some (default 0 dst)).

Lemma prefer_overrides {A} (src dst : option A) : overrides src dst (prefer src dst).
Proof. split; [by intros v ->|by intros ->]. Qed.
Lemma prefer_overridesNumber src dst : overridesNumber src dst (Some (default 0 (prefer src dst))).
Proof. split; [by intros v ->|by intros ->]. Qed.

(** A user as it is on the disk: the same but for the password, of which only the
    hash with the name is kept. *)
Definition storedUser (u u' : PbUser) : Prop :=
  pu_name u' = pu_name u ∧ pu_quotas u' = pu_quotas u ∧ pu_rights u' = pu_rights u ∧ pu_password u' = "" ∧
  pu_hashedPassword u' = (if bool_decide (pu_password u = "") then pu_hashedPassword u
    else hexEncode (HashPassword (string_bytes (pu_password u)) (string_bytes (pu_name u)))).

Lemma HashUserPassword_stored u : storedUser u (HashUserPassword false u).
Proof. unfold HashUserPassword, storedUser. by case_bool_decide as E. Qed.

(** The user of a name in a list: the last one, as when the list is made a map. *)
Definition namedUser (l : list PbUser) (n : string) (u : PbUser) : Prop :=
  ∃ l1 l2, l = l1 ++ u :: l2 ∧ pu_name u = n ∧ Forall (λ v, pu_name v ≠ n) l2.

Lemma UserListToMap_named l n u : UserListToMap l !! n = Some u ↔ namedUser l n u.
Proof.
  unfold UserListToMap, namedUser. induction l as [|x l IH] using rev_ind.
  { split; [done|]. intros (l1 & l2 & E & _). by destruct l1. }
  rewrite lookup_listToMap_app. unfold listToMap at 1. cbn. destruct (decide (pu_name x = n)) as [Hx|Hx].
  - rewrite Hx, lookup_insert_eq. cbn. split.
    + intros [= <-]. exists l, []. by split_and!.
    + intros (l1 & l2 & E & Hn & Hall). f_equal. destruct l2 as [|y l2 _] using rev_ind; [by apply app_inj_tail in E as [_ ->]|].
      rewrite app_comm_cons, app_assoc in E. apply app_inj_tail in E as [_ ->]. apply Forall_app in Hall as [_ Hy].
      apply Forall_cons in Hy as [? _]. done.
  - rewrite lookup_insert_ne, lookup_empty by done. cbn. rewrite IH. split.
    + intros (l1 & l2 & -> & Hn & Hall). exists l1, (l2 ++ [x]). split_and!; [by rewrite <- app_assoc|done|]. apply Forall_app. by repeat constructor.
    + intros (l1 & l2 & E & Hn & Hall). destruct l2 as [|y l2 _] using rev_ind; [apply app_inj_tail in E as [_ ->]; done|].
      rewrite app_comm_cons, app_assoc in E. apply app_inj_tail in E as [-> ->]. exists l1, l2. by apply Forall_app in Hall as [? _].
Qed.

Lemma named_none l n : UserListToMap l !! n = None ↔ Forall (λ v, pu_name v ≠ n) l.
Proof.
  rewrite Forall_forall. split.
  - intros Hn v (l1 & l2 & ->)%list_elem_of_split Hv. unfold UserListToMap in Hn. change (v :: l2) with ([v] ++ l2) in Hn.
    rewrite !lookup_listToMap_app in Hn. unfold listToMap at 2 in Hn. cbn in Hn. rewrite Hv, lookup_insert_eq in Hn. cbn in Hn. by destruct (listToMap pu_name l2 !! n).
  - intros Hall. destruct (UserListToMap l !! n) as [u|] eqn:E; [|done]. apply lookup_listToMap in E as [E Hu]. by apply Hall in Hu.
Qed.

Lemma storedUser_inj u u' : storedUser u u' → u' = HashUserPassword false u.
Proof.
  destruct u' as [a b c d e]. intros (H1 & H2 & H3 & H4 & H5). cbn in *. subst. unfold HashUserPassword.
  destruct u as [n p h q r]. cbn. case_bool_decide as E; cbn in *; [by subst|done].
Qed.

Lemma stored_merged_named dst src n u' :
  namedUser (sc_users (stored (mergeServerConfig dst src))) n u' ↔
  ∃ u, storedUser u u' ∧
    (namedUser (sc_users src) n u ∨ namedUser (sc_users dst) n u ∧ Forall (λ v, pu_name v ≠ n) (sc_users src)).
Proof.
  rewrite <- UserListToMap_named, stored_users, merge_users. setoid_rewrite <- UserListToMap_named. setoid_rewrite <- named_none. split.
  - intros (u & Hu & ->)%fmap_Some. exists u. split; [apply HashUserPassword_stored|].
    destruct (UserListToMap (sc_users src) !! n); cbn in Hu; [by left|by right].
  - intros (u & ->%storedUser_inj & [-> |[-> ->]]); done.
Qed.

(** C14: applying a valid patch to a valid configuration works.  When the patch
    is valid and one of the two binds a port, the new configuration is stored;
    it is valid; it takes every setting (port bindings, advanced settings, logging
    level, MTU, egress, DNS, traffic pattern) from the patch if it is set there and
    otherwise keeps it; its users are those of both, those of the patch replacing
    users of the same name, in the order of their names and once each, with the
    hash of the password instead of the password; applying the patch again changes
    nothing.  An invalid patch is refused. *)
Theorem apply_server_config b src file dst :
  unmarshalJSON b = Ret src → Load file = Ret dst → ValidatePatch dst = Ret tt →
  (ValidatePatch src = Ret tt → GetPortBindings src ≠ [] ∨ (sc_portBindings src = None ∧ GetPortBindings dst ≠ []) →
    ∃ file' c, Apply b file = Ret file' ∧ Load file' = Ret c ∧ ValidateFull c = Ret tt ∧
      overrides (sc_portBindings src) (sc_portBindings dst) (sc_portBindings c) ∧
      overrides (sc_advancedSettings src) (sc_advancedSettings dst) (sc_advancedSettings c) ∧
      overridesNumber (sc_loggingLevel src) (sc_loggingLevel dst) (sc_loggingLevel c) ∧
      overridesNumber (sc_mtu src) (sc_mtu dst) (sc_mtu c) ∧
      overrides (sc_egress src) (sc_egress dst) (sc_egress c) ∧
      overrides (sc_dns src) (sc_dns dst) (sc_dns c) ∧
      overrides (sc_trafficPattern src) (sc_trafficPattern dst) (sc_trafficPattern c) ∧
      StronglySorted String.le (pu_name <$> sc_users c) ∧ NoDup (pu_name <$> sc_users c) ∧
      (∀ n u', namedUser (sc_users c) n u' ↔
         ∃ u, storedUser u u' ∧
           (namedUser (sc_users src) n u ∨ namedUser (sc_users dst) n u ∧ Forall (λ v, pu_name v ≠ n) (sc_users src))) ∧
      Apply b file' = Ret file') ∧
  (∀ e, ValidatePatch src = Err e → Apply b file = Err e).
Proof.
  intros Hj Hl Hd. unfold ApplyJSONServerConfig. rewrite Hj. simpl obind. split.
  2:{ intros e ->. done. }
  intros Hs Hports. rewrite Hs. simpl obind. rewrite Hl. simpl obind.
  apply ValidatePatch_ret in Hd as Hdok. apply ValidatePatch_ret in Hs as Hsok.
  pose proof (merge_patch_ok _ _ _ Hdok Hsok) as Hok.
  assert (Hne : GetPortBindings (mergeServerConfig dst src) ≠ []).
  { unfold GetPortBindings in *. simpl. destruct (sc_portBindings src); simpl; naive_solver. }
  rewrite (proj2 (ValidateFull_ret _ _) (conj Hok Hne)). simpl obind.
  destruct (Store_Load (mergeServerConfig dst src)) as (file' & Hst & Hld).
  { intros E. apply Hne. unfold GetPortBindings. by rewrite E. }
  rewrite Hst. exists file', (stored (mergeServerConfig dst src)).
  split; [done|]. split; [done|].
  split; [apply ValidateFull_ret; split; [by apply stored_patch_ok|done]|].
  do 7 (split; [apply prefer_overrides || apply prefer_overridesNumber|]). rewrite stored_names.
  split; [apply (StronglySorted_merge_sort String.le)|]. split; [apply sortedNames_NoDup|].
  split; [intros n u'; apply stored_merged_named|]. rewrite Hld. simpl obind.
  rewrite (proj2 (ValidateFull_ret _ _)); simpl obind.
  - unfold StoreServerConfig. rewrite stored_merge_idem. exact Hst.
  - split; [apply merge_patch_ok; [by apply stored_patch_ok|done]|].
    unfold GetPortBindings in *. simpl. destruct (sc_portBindings src); simpl; naive_solver.
Qed.
End Apply.

(** Deleting users keeps the others, with their passwords hashed. *)
Lemma delete_server_users parseDuration marshal unmarshal names file c :
  (∀ c, onWire c → ∃ b, marshal c = Ret b ∧ unmarshal b = Ret c) →
  LoadServerConfig unmarshal file = Ret c → onWire c → patch_ok parseDuration c →
  ∃ file' c', DeleteServerUsers marshal unmarshal names file = Ret file' ∧ LoadServerConfig unmarshal file' = Ret c' ∧
    patch_ok parseDuration c' ∧
    ∀ u, u ∈ sc_users c' ↔ ∃ v, v ∈ sc_users c ∧ pu_name v ∉ names ∧ u = HashUserPassword false v.
Proof.
  intros Hm Hl Hw Hok. unfold DeleteServerUsers. rewrite Hl. simpl obind.
  destruct (Store_Load marshal unmarshal Hm (set_users (filter (λ u, pu_name u ∉ names) (sc_users c)) c) Hw) as (file' & -> & Hld).
  eexists _, _. split; [done|]. split; [exact Hld|]. split.
  - apply stored_patch_ok. destruct Hok as [H1 H2 H3 H4 H5 H6 H7]. split; try done. simpl.
    apply Forall_forall. intros u Hu. apply list_elem_of_filter in Hu as [_ Hu]. rewrite Forall_forall in H2. by apply H2.
  - intros u. simpl. unfold HashUserPasswords. rewrite list_elem_of_fmap. split.
    + intros (v & -> & Hv). apply list_elem_of_filter in Hv as [? ?]. by exists v.
    + intros (v & ? & ? & ->). exists v. split; [done|]. by apply list_elem_of_filter.
Qed.

(** ** A marshaller

    Configurations are countable, which gives an encoding with the law that is
    assumed of the protobuf and JSON ones. *)

Ltac solve_countable f g := refine (inj_countable' f g _); by intros [].

#[global] Instance PortBinding_eq_dec : EqDecision PortBinding.
Proof. solve_decision. Defined.
#[global] Instance Protocol_countable : Countable Protocol.
Proof. solve_countable (λ p, match p with UNKNOWN_TRANSPORT_PROTOCOL => 0 | UDP => 1 | TCP => 2 end)
  (λ z : Z, if z =? 0 then UNKNOWN_TRANSPORT_PROTOCOL else if z =? 1 then UDP else TCP). Qed.
#[global] Instance PortBinding_countable : Countable PortBinding.
Proof. solve_countable (λ b, (bPort b, bPortRange b, bProtocol b)) (λ '(x, y, z), mkBinding x y z). Qed.
#[global] Instance Quota_eq_dec : EqDecision Quota.
Proof. solve_decision. Defined.
#[global] Instance Quota_countable : Countable Quota.
Proof. solve_countable (λ q, (quotaDays q, quotaMegabytes q)) (λ '(x, y), mkQuota x y). Qed.
#[global] Instance UserRights_eq_dec : EqDecision UserRights.
Proof. solve_decision. Defined.
#[global] Instance UserRights_countable : Countable UserRights.
Proof. solve_countable (λ q, (allowPrivateIP q, allowLoopbackIP q)) (λ '(x, y), mkRights x y). Qed.
#[global] Instance PbUser_eq_dec : EqDecision PbUser.
Proof. solve_decision. Defined.
#[global] Instance PbUser_countable : Countable PbUser.
Proof. solve_countable (λ u, (pu_name u, pu_password u, pu_hashedPassword u, pu_quotas u, pu_rights u))
  (λ '(a, b, c, d, e), mkPbUser a b c d e). Qed.
#[global] Instance PbDNS_eq_dec : EqDecision PbDNS.
Proof. solve_decision. Defined.
#[global] Instance PbDNS_countable : Countable PbDNS.
Proof. solve_countable (λ d, (dns_hosts d, dns_dualStack d)) (λ '(a, b), mkDNS a b). Qed.
#[global] Instance Credential_countable : Countable Credential.
Proof. solve_countable (λ d, (credUser d, credPassword d)) (λ '(a, b), mkCredential a b). Qed.
#[global] Instance EgressProxy_eq_dec : EqDecision EgressProxy.
Proof. solve_decision. Defined.
#[global] Instance EgressProxy_countable : Countable EgressProxy.
Proof. solve_countable (λ p, (proxyName p, proxyHost p, proxyPort p, socks5Authentication p))
  (λ '(a, b, c, d), mkEgressProxy a b c d). Qed.
#[global] Instance ProxyProtocol_countable : Countable ProxyProtocol.
Proof. solve_countable (λ p, match p with UNKNOWN_PROXY_PROTOCOL => 0 | SOCKS5_PROXY_PROTOCOL => 1 end)
  (λ z : Z, if z =? 0 then UNKNOWN_PROXY_PROTOCOL else SOCKS5_PROXY_PROTOCOL). Qed.
#[global] Instance PbProxy_eq_dec : EqDecision PbProxy.
Proof. solve_decision. Defined.
#[global] Instance PbProxy_countable : Countable PbProxy.
Proof. solve_countable (λ p, (pp_protocol p, pp_proxy p)) (λ '(a, b), mkPbProxy a b). Qed.
#[global] Instance EgressAction_countable : Countable EgressAction.
Proof. solve_countable (λ p, match p with PROXY => 0 | DIRECT => 1 | REJECT => 2 end)
  (λ z : Z, if z =? 0 then PROXY else if z =? 1 then DIRECT else REJECT). Qed.
#[global] Instance EgressRule_eq_dec : EqDecision EgressRule.
Proof. solve_decision. Defined.
#[global] Instance EgressRule_countable : Countable EgressRule.
Proof. solve_countable (λ r, (ipRanges r, domainNames r, ruleAction r, proxyNames r)) (λ '(a, b, c, d), mkEgressRule a b c d). Qed.
#[global] Instance PbEgress_eq_dec : EqDecision PbEgress.
Proof. solve_decision. Defined.
#[global] Instance PbEgress_countable : Countable PbEgress.
Proof. solve_countable (λ e, (pe_proxies e, pe_rules e)) (λ '(a, b), mkPbEgress a b). Qed.
#[global] Instance PbAdvanced_eq_dec : EqDecision PbAdvanced.
Proof. solve_decision. Defined.
#[global] Instance PbAdvanced_countable : Countable PbAdvanced.
Proof. solve_countable (λ e, (adv_metricsLoggingInterval e, adv_userHintIsMandatory e)) (λ '(a, b), mkAdvanced a b). Qed.
#[global] Instance TCPFragment_eq_dec : EqDecision TCPFragment.
Proof. solve_decision. Defined.
#[global] Instance TCPFragment_countable : Countable TCPFragment.
Proof. solve_countable (λ e, (tf_enable e, tf_maxSleepMs e)) (λ '(a, b), mkTCPFragment a b). Qed.
#[global] Instance NonceType_eq_dec : EqDecision NonceType.
Proof. solve_decision. Defined.
#[global] Instance NonceType_countable : Countable NonceType.
Proof. solve_countable (λ t, match t with NONCE_TYPE_RANDOM => 0 | NONCE_TYPE_PRINTABLE => 1
                             | NONCE_TYPE_PRINTABLE_SUBSET => 2 | NONCE_TYPE_FIXED => 3 end)
  (λ z : Z, if z =? 3 then NONCE_TYPE_FIXED else nonceTypeOf z). Qed.
#[global] Instance NonceConfig_eq_dec : EqDecision NonceConfig.
Proof. solve_decision. Defined.
#[global] Instance NonceConfig_countable : Countable NonceConfig.
Proof. solve_countable (λ n, (nc_type n, nc_applyToAllUDPPacket n, nc_minLen n, nc_maxLen n, nc_customHexStrings n))
  (λ '(a, b, c, d, e), mkNonceConfig a b c d e). Qed.
#[global] Instance TrafficPattern_eq_dec : EqDecision TrafficPattern.
Proof. solve_decision. Defined.
#[global] Instance TrafficPattern_countable : Countable TrafficPattern.
Proof. solve_countable (λ t, (tp_seed t, tp_unlockAll t, tp_tcpFragment t, tp_nonce t))
  (λ '(a, b, c, d), mkTrafficPattern a b c d). Qed.
#[global] Instance PbServerConfig_eq_dec : EqDecision PbServerConfig.
Proof. solve_decision. Defined.
#[global] Instance PbServerConfig_countable : Countable PbServerConfig.
Proof. solve_countable
  (λ c, (sc_portBindings c, sc_users c, sc_advancedSettings c, sc_loggingLevel c, sc_mtu c, sc_egress c, sc_dns c, sc_trafficPattern c))
  (λ '(a, b, c, d, e, f, g, h), mkPbServerConfig a b c d e f g h). Qed.

Definition demoMarshal {A} `{Countable A} (a : A) : outcome bytes := Ret [Zpos (encode a)].
Definition demoUnmarshal {A} `{Countable A} (b : bytes) : outcome A :=
  match b with
  | [Zpos p] => match decode p with Some a => Ret a | None => Err (Errorf "proto.Unmarshal() failed") end
  | _ => Err (Errorf "proto.Unmarshal() failed")
  end.

Lemma demo_marshal_unmarshal {A} `{Countable A} (a : A) : ∃ b, demoMarshal a = Ret b ∧ demoUnmarshal b = Ret a.
Proof. eexists. split; [reflexivity|]. simpl. by rewrite decode_encode. Qed.

(** A stored configuration with one user, and a patch with another. *)
Definition demoDst : PbServerConfig :=
  mkPbServerConfig (Some [mkBinding 8964 [] TCP]) [mkPbUser "bob" "hunter2" "" [] (mkRights false false)]
    None None (Some 1400) None None None.
Definition demoSrc : PbServerConfig :=
  mkPbServerConfig None [mkPbUser "alice" "secret" "" [mkQuota 30 1000] (mkRights true false)] None None None None None None.

Lemma apply_server_config_witness :
  ∃ file' c,
    ApplyJSONServerConfig (λ _, Ret 0) demoMarshal demoUnmarshal (λ _, Ret demoSrc) [] (Some [Zpos (encode demoDst)])
      = Ret file' ∧
    LoadServerConfig demoUnmarshal file' = Ret c ∧ sc_mtu c = Some 1400 ∧
    ∃ u, namedUser (sc_users c) "alice" u ∧ pu_password u = "".
Proof.
  destruct (apply_server_config (λ _, Ret 0) demoMarshal demoUnmarshal (λ _, Ret demoSrc) (λ c _, demo_marshal_unmarshal c)
    [] demoSrc (Some [Zpos (encode demoDst)]) demoDst) as [H _].
  - reflexivity.
  - simpl. rewrite decode_encode. reflexivity.
  - vm_compute. reflexivity.
  - destruct H as (file' & c & H1 & H2 & _ & _ & _ & _ & [_ H3] & _ & _ & _ & _ & _ & H4 & _).
    + vm_compute. reflexivity.
    + right. split; [reflexivity|discriminate].
    + exists file', c. split; [exact H1|]. split; [exact H2|]. split; [exact (H3 eq_refl)|].
      exists (HashUserPassword false (mkPbUser "alice" "secret" "" [mkQuota 30 1000] (mkRights true false))).
      split; [|reflexivity]. apply H4. eexists. split; [apply HashUserPassword_stored|]. left.
      exists [], []. repeat split. constructor.
Defined.

End ConfigServer.
Export ConfigServer.
