(* ===== verification/ConfigClient.v ===== *)
(** * Client configuration: pkg/appctl/client.go, appctlcommon/client.go

    Profiles, their validation and merging, the stored configuration, and the mux
    that a profile gives.  Dialers and resolvers, which the mux only stores, are
    parameters of the mux operations. *)

From S2P Require Import Prelude Mathext Common Sha256 Rng Cipher Auth Segment SessionState Scheduler Socks Net SocksUDP Dns.
From S2P Require Import Egress SocksAuth TrafficPattern Mux PortBinding ConfigServer.
From stdpp Require Import sorting.
Local Open Scope Z_scope.

Module ConfigClient.

(** ** Messages *)

Inductive MultiplexingLevel :=
| MULTIPLEXING_DEFAULT | MULTIPLEXING_OFF | MULTIPLEXING_LOW | MULTIPLEXING_MIDDLE | MULTIPLEXING_HIGH.

Inductive HandshakeMode := HANDSHAKE_DEFAULT | HANDSHAKE_STANDARD | HANDSHAKE_NO_WAIT.

Record PbServerEndpoint := mkServerEndpoint {
  se_ipAddress : bytes; se_domainName : bytes; se_portBindings : list PortBinding
}.

Record PbClientProfile := mkProfile {
  cp_profileName : string;
  cp_user : PbUser;
  cp_servers : list PbServerEndpoint;
  cp_Mtu : option Z;
  cp_Multiplexing : option (option MultiplexingLevel);
  cp_trafficPattern : option TrafficPattern;
  cp_HandshakeMode : option HandshakeMode
}.

(** [GetMtu] and [GetMultiplexing().GetLevel()]: the default of an absent field. *)
Definition cp_mtu (p : PbClientProfile) : Z := default 0 (cp_Mtu p).
Definition cp_multiplexing (p : PbClientProfile) : MultiplexingLevel := default MULTIPLEXING_DEFAULT (mjoin (cp_Multiplexing p)).

Record PbClientAdvanced := mkClientAdvanced { ca_noCheckUpdate : bool; ca_metricsLoggingInterval : bytes }.

Record PbClientConfig := mkClientConfig {
  cc_profiles : list PbClientProfile;
  cc_activeProfile : option string;
  cc_rpcPort : option Z;
  cc_socks5Port : option Z;
  cc_advancedSettings : option PbClientAdvanced;
  cc_loggingLevel : option Z;
  cc_socks5ListenLAN : option bool;
  cc_httpProxyPort : option Z;
  cc_httpProxyListenLAN : option bool;
  cc_socks5Authentication : option (list Credential)
}.

(** ** Validation *)

Definition validateServer (s : PbServerEndpoint) : outcome unit :=
  if bool_decide (se_ipAddress s = []) && bool_decide (se_domainName s = [])
  then Err (Errorf "neither server IP address nor domain name is set")
  else if negb (bool_decide (se_ipAddress s = [])) && bool_decide (ParseIP (se_ipAddress s) = [])
  then Err (Errorf "failed to parse IP address %q")
  else if len (se_portBindings s) =? 0 then Err (Errorf "server port binding is not set")
  else let! _ := FlatPortBindings (se_portBindings s) in Ret tt.

Definition ValidateClientConfigSingleProfile (p : PbClientProfile) : outcome unit :=
  if bool_decide (cp_profileName p = "") then Err (Errorf "profile name is not set")
  else
    let! _ := validateCredentials (cp_user p) in
    if 0 <? len (pu_quotas (cp_user p)) then Err (Errorf "user quota is not supported by proxy client")
    else if len (cp_servers p) =? 0 then Err (Errorf "servers are not set")
    else
      let! _ := firstError validateServer (cp_servers p) in
      let! _ := validateMtu (Some (cp_mtu p)) in
      match Validate (cp_trafficPattern p) with
      | Ret _ => Ret tt | Err _ => Err (Errorf "invalid traffic pattern: %w") | Panic s => Panic s
      end.

Definition validateAuth (a : Credential) : outcome unit :=
  if bool_decide (credUser a = []) then Err (Errorf "socks5 authentication user is not set")
  else if bool_decide (credPassword a = []) then Err (Errorf "socks5 authentication password is not set")
  else Ret tt.

Definition validPortOrZero (p : Z) : bool := (0 <=? p) && (p <=? 65535).

Section Validate.
Context (parseDuration : bytes → outcome Z).

Definition ValidateClientConfigPatch (c : PbClientConfig) : outcome unit :=
  let! _ := firstError ValidateClientConfigSingleProfile (cc_profiles c) in
  let! _ := firstError validateAuth (default [] (cc_socks5Authentication c)) in
  validateMetricsInterval parseDuration (default [] (ca_metricsLoggingInterval <$> cc_advancedSettings c)).

Definition ValidateFullClientConfig (c : PbClientConfig) : outcome unit :=
  let active := default "" (cc_activeProfile c) in
  let rpc := default 0 (cc_rpcPort c) in
  let socks := default 0 (cc_socks5Port c) in
  let! _ := ValidateClientConfigPatch c in
  if len (cc_profiles c) =? 0 then Err (Errorf "profiles are not set")
  else if bool_decide (active = "") then Err (Errorf "active profile is not set")
  else if negb (existsb (λ p, bool_decide (cp_profileName p = active)) (cc_profiles c))
  then Err (Errorf "active profile is not found in the profile list")
  else if negb (validPortOrZero rpc) then Err (Errorf "RPC port number %d is invalid")
  else if negb (validPort socks) then Err (Errorf "socks5 port number %d is invalid")
  else if rpc =? socks then Err (Errorf "RPC port number %d is the same as socks5 port number")
  else match cc_httpProxyPort c with
       | None => Ret tt
       | Some http =>
           if negb (validPort http) then Err (Errorf "HTTP proxy port number %d is invalid")
           else if http =? rpc then Err (Errorf "HTTP proxy port number %d is the same as RPC port number")
           else if http =? socks then Err (Errorf "HTTP proxy port number %d is the same as socks5 port number")
           else Ret tt
       end.
End Validate.

(** ** Profiles *)

Definition profileMap (ps : list PbClientProfile) : gmap string PbClientProfile := listToMap cp_profileName ps.

Definition GetActiveProfileFromConfig (c : PbClientConfig) (name : string) : outcome PbClientProfile :=
  match find (λ p, bool_decide (cp_profileName p = name)) (cc_profiles c) with
  | Some p => Ret p
  | None => Err (Errorf "profile %q is not found")
  end.

(** The loops fill one map from the destination and then from the source. *)
Definition mergeClientConfigByProfile (dst src : PbClientConfig) : PbClientConfig :=
  mkClientConfig
    (sortedValues (profileMap (cc_profiles src) ∪ profileMap (cc_profiles dst)))
    (Some (default "" (prefer (cc_activeProfile src) (cc_activeProfile dst))))
    (prefer (cc_rpcPort src) (cc_rpcPort dst))
    (Some (default 0 (prefer (cc_socks5Port src) (cc_socks5Port dst))))
    (prefer (cc_advancedSettings src) (cc_advancedSettings dst))
    (Some (default 0 (prefer (cc_loggingLevel src) (cc_loggingLevel dst))))
    (prefer (cc_socks5ListenLAN src) (cc_socks5ListenLAN dst))
    (prefer (cc_httpProxyPort src) (cc_httpProxyPort dst))
    (prefer (cc_httpProxyListenLAN src) (cc_httpProxyListenLAN dst))
    (prefer (cc_socks5Authentication src) (cc_socks5Authentication dst)).

(** ** The stored configuration *)

Definition hashProfile (p : PbClientProfile) : PbClientProfile :=
  mkProfile (cp_profileName p) (HashUserPassword true (cp_user p)) (cp_servers p) (cp_Mtu p) (cp_Multiplexing p)
    (cp_trafficPattern p) (cp_HandshakeMode p).

Definition set_profiles (ps : list PbClientProfile) (c : PbClientConfig) : PbClientConfig :=
  mkClientConfig ps (cc_activeProfile c) (cc_rpcPort c) (cc_socks5Port c) (cc_advancedSettings c) (cc_loggingLevel c)
    (cc_socks5ListenLAN c) (cc_httpProxyPort c) (cc_httpProxyListenLAN c) (cc_socks5Authentication c).

Definition storedClient (c : PbClientConfig) : PbClientConfig := set_profiles (hashProfile <$> cc_profiles c) c.

Section File.
Context (parseDuration : bytes → outcome Z)
        (marshal : PbClientConfig → outcome bytes) (unmarshal : bytes → outcome PbClientConfig).

Definition LoadClientConfig (file : option bytes) : outcome PbClientConfig :=
  match file with None => Err ErrFileNotExist | Some b => unmarshal b end.

Definition StoreClientConfig (c : PbClientConfig) : outcome (option bytes) :=
  let! b := marshal (storedClient c) in Ret (Some b).

Definition applyClientConfig (c : PbClientConfig) (file : option bytes) : outcome (option bytes) :=
  let! _ := ValidateClientConfigPatch parseDuration c in
  let! config := LoadClientConfig file in
  let config := mergeClientConfigByProfile config c in
  let! _ := ValidateFullClientConfig parseDuration config in
  StoreClientConfig config.

Definition DeleteClientConfigProfile (name : string) (file : option bytes) : outcome (option bytes) :=
  let! config := LoadClientConfig file in
  if bool_decide (default "" (cc_activeProfile config) = name) then Err (Errorf "activeProfile %q can't be deleted")
  else StoreClientConfig (set_profiles (filter (λ p, cp_profileName p ≠ name) (cc_profiles config)) config).
End File.

(** ** The mux of a profile *)

Definition DefaultMTU : Z := 1400.

Definition multiplexFactorOf (l : MultiplexingLevel) : Z :=
  match l with
  | MULTIPLEXING_OFF => 0 | MULTIPLEXING_DEFAULT | MULTIPLEXING_LOW => 1
  | MULTIPLEXING_MIDDLE => 2 | MULTIPLEXING_HIGH => 3
  end.

Definition clientKey (u : PbUser) : outcome bytes :=
  if negb (bool_decide (pu_hashedPassword u = ""))
  then match hexDecode (string_bytes (pu_hashedPassword u)) with
       | Some b => Ret b
       | None => Err (Errorf "decode hashed password failed: %w")
       end
  else Ret (HashPassword (string_bytes (pu_password u)) (string_bytes (pu_name u))).

(** The remote address of a binding, given the address of the server: the IP
    address, or the domain name if there is none. *)
Definition remoteEndpoint (mtu : Z) (ip host : bytes) (b : PortBinding) : outcome UnderlayProperties :=
  let text := if bool_decide (ip = []) then JoinHostPort host (Itoa (bPort b)) else addrString ip (bPort b) in
  match bProtocol b with
  | TCP => Ret (mkProps mtu StreamTransport NilNetAddr (mkNetAddr "tcp" text))
  | UDP => Ret (mkProps mtu PacketTransport NilNetAddr (mkNetAddr "udp" text))
  | UNKNOWN_TRANSPORT_PROTOCOL => Err (Errorf "invalid transport protocol")
  end.

Definition serverEndpoints (mtu : Z) (s : PbServerEndpoint) : outcome (list UnderlayProperties) :=
  let! (ip, host) :=
    (if negb (bool_decide (se_domainName s = [])) then Ret ([], se_domainName s)
     else if bool_decide (ParseIP (se_ipAddress s) = []) then Err (Errorf "parse IP failed")
     else Ret (ParseIP (se_ipAddress s), se_ipAddress s)) in
  match FlatPortBindings (se_portBindings s) with
  | Ret flat => mapOutcome (remoteEndpoint mtu ip host) flat
  | Err _ => Err (Errorf "invalid port bindings: %w")
  | Panic p => Panic p
  end.

Definition NewClientMuxFromProfile {V} (net : muxNet) (hostSeed : Z) (p : PbClientProfile) (c : fixedCache)
  : outcome (Mux V * fixedCache) :=
  let mux := NewMux true in
  let! (cfg, c) := NewConfig hostSeed (cp_trafficPattern p) c in
  let mux := SetTrafficPattern (Some (Some (GetNonce (effective cfg)))) mux in
  let! hashedPassword := clientKey (cp_user p) in
  let! mux := SetClientUserNamePassword (pu_name (cp_user p)) hashedPassword mux in
  let! mux := SetClientMultiplexFactor (multiplexFactorOf (cp_multiplexing p)) mux in
  let mtu := if cp_mtu p =? 0 then DefaultMTU else cp_mtu p in
  let! eps := mapOutcome (serverEndpoints mtu) (cp_servers p) in
  Ret (SetEndpoints net (concat eps) mux, c).

(** * Properties *)

Lemma validateCredentials_ret u :
  validateCredentials u = Ret tt → pu_name u ≠ "" ∧ (pu_password u ≠ "" ∨ pu_hashedPassword u ≠ "").
Proof.
  unfold validateCredentials. intros Hv. case_if_in Hv; [done|]. case_if_in Hv; [done|].
  apply bool_decide_eq_false in Heqb. split; [done|].
  apply andb_false_iff in Heqb0 as [?%bool_decide_eq_false|?%bool_decide_eq_false]; auto.
Qed.

(** The client derives the key that a server derives for the same user. *)
Lemma clientKey_server u k : clientKey u = Ret k → userPassword (toUser u) = Some k.
Proof.
  unfold clientKey, userPassword, toUser. simpl. case_bool_decide as Hh; simpl.
  - rewrite Hh. simpl. by intros [= <-].
  - destruct (hexDecode (string_bytes (pu_hashedPassword u))) as [b|] eqn:E; [|done]. intros [= <-].
    rewrite (proj2 (Z.eqb_neq _ _)); [done|]. destruct b; [|unfold len; simpl; lia].
    exfalso. destruct (pu_hashedPassword u) as [|c1 [|c2 s]]; [done|done|]. unfold string_bytes in E. simpl in E.
    by repeat case_match.
Qed.

Lemma clientKey_ret u :
  hexDecode (string_bytes (pu_hashedPassword u)) ≠ None → ∃ k, clientKey u = Ret k.
Proof. unfold clientKey. intros Hh. case_if; [|by eexists]. destruct (hexDecode _); [by eexists|done]. Qed.

Lemma serverEndpoints_ret mtu s :
  validateServer s = Ret tt →
  ∃ eps, serverEndpoints mtu s = Ret eps ∧ eps ≠ [] ∧
    Forall (λ p, p_MTU p = mtu ∧ IsNilNetAddr (p_RemoteAddr p) = false) eps.
Proof.
  unfold validateServer, serverEndpoints. intros Hv. case_if_in Hv; [done|]. case_if_in Hv; [done|]. case_if_in Hv; [done|].
  destruct (FlatPortBindings (se_portBindings s)) as [flat| |] eqn:Ef; simpl in Hv; [|done..].
  assert (Haddr : ∃ ip host, (if negb (bool_decide (se_domainName s = [])) then Ret ([], se_domainName s)
     else if bool_decide (ParseIP (se_ipAddress s) = []) then Err (Errorf "parse IP failed")
     else Ret (ParseIP (se_ipAddress s), se_ipAddress s)) = Ret (ip, host)).
  { destruct (bool_decide (se_domainName s = [])) eqn:Ed; simpl; [|by eexists _, _].
    rewrite andb_true_r in Heqb. rewrite Heqb in Heqb0. simpl in Heqb0. rewrite Heqb0. by eexists _, _. }
  destruct Haddr as (ip & host & ->). simpl.
  assert (flat ≠ []) as Hne.
  { eapply FlatPortBindings_nonempty; [done|]. intros E. rewrite E in Heqb1. done. }
  pose proof (FlatPortBindings_protocol _ _ Ef) as Hp. clear - Hne Hp.
  assert (∃ eps, mapOutcome (remoteEndpoint mtu ip host) flat = Ret eps ∧ length eps = length flat ∧
    Forall (λ p, p_MTU p = mtu ∧ IsNilNetAddr (p_RemoteAddr p) = false) eps) as (eps & He & Hl & Ha).
  { clear Hne. induction Hp as [|b flat Hb Hp IH]; [by exists []|]. destruct IH as (eps & He & Hl & Ha). simpl. rewrite He.
    unfold remoteEndpoint at 1. destruct b as [port range pr]; simpl in Hb; destruct Hb as [-> | ->]; simpl;
      (eexists; split; [reflexivity|]; split; [simpl; lia|by constructor]). }
  exists eps. split; [done|]. split; [|done]. destruct eps, flat; done.
Qed.

Lemma allEndpoints_ret mtu ss :
  ss ≠ [] → Forall (λ s, validateServer s = Ret tt) ss →
  ∃ eps, mapOutcome (serverEndpoints mtu) ss = Ret eps ∧ concat eps ≠ [] ∧
    Forall (λ p, p_MTU p = mtu ∧ IsNilNetAddr (p_RemoteAddr p) = false) (concat eps).
Proof.
  intros Hss Hv. destruct ss as [|s ss]; [done|]. clear Hss. revert s Hv.
  induction ss as [|s2 ss IH]; intros s Hv; apply Forall_cons in Hv as [Hs Hv];
    destruct (serverEndpoints_ret mtu s Hs) as (e1 & He1 & Hne & Ha1); simpl; rewrite He1; simpl.
  - exists [e1]. simpl. rewrite app_nil_r. done.
  - destruct (IH s2 Hv) as (eps & He & _ & Ha). simpl in He. rewrite He. simpl. exists (e1 :: eps). simpl. split; [done|]. split.
    + by destruct e1.
    + by apply Forall_app.
Qed.

Lemma existsb_Forall {A} (f : A → bool) l : Forall (λ x, f x = false) l → existsb f l = false.
Proof. induction 1 as [|x l Hx Hl IH]; [done|]. simpl. by rewrite Hx, IH. Qed.

Lemma ValidateProfile_ret p :
  ValidateClientConfigSingleProfile p = Ret tt →
  cp_profileName p ≠ "" ∧ validateCredentials (cp_user p) = Ret tt ∧ cp_servers p ≠ [] ∧
  Forall (λ s, validateServer s = Ret tt) (cp_servers p) ∧ validateMtu (Some (cp_mtu p)) = Ret tt ∧
  Validate (cp_trafficPattern p) = Ret tt.
Proof.
  unfold ValidateClientConfigSingleProfile. intros Hv. case_bool_decide as Hn; [done|].
  apply obind_ret_tt in Hv as [Hc Hv]. case_if_in Hv; [done|]. case_if_in Hv; [done|].
  rewrite !obind_ret_tt, firstError_ret in Hv. destruct Hv as (Hs & Hm & Ht). split_and!; try done.
  - intros E. by rewrite E in Heqb0.
  - by destruct (Validate (cp_trafficPattern p)) as [[]| |].
Qed.

(** The mux of a valid profile. *)
Lemma profile_mux_ok {V} (net : muxNet) hostSeed p c :
  ValidateClientConfigSingleProfile p = Ret tt →
  hexDecode (string_bytes (pu_hashedPassword (cp_user p))) ≠ None → Rng.cache_coherent string_bytes c →
  ∃ (m : Mux V) c', NewClientMuxFromProfile net hostSeed p c = Ret (m, c') ∧
    dialGuards m = None ∧ (m_done m = false ∧ Rng.cache_coherent string_bytes c') ∧ m_username m = pu_name (cp_user p) ∧ m_username m ≠ "" ∧
    userPassword (toUser (cp_user p)) = Some (m_password m) ∧ 0 ≤ m_multiplexFactor m ≤ 3 ∧
    Forall (λ e, p_MTU e = (if cp_mtu p =? 0 then DefaultMTU else cp_mtu p) ∧ 1280 ≤ p_MTU e ≤ 1500) (m_endpoints m) ∧
    (∃ n, m_trafficPattern m = Some (Some n) ∧ pattern_ok n).
Proof.
  intros Hv Hh Hc. apply ValidateProfile_ret in Hv as (_ & Hcred & Hne & Hss & Hmtu & Htp).
  apply validateCredentials_ret in Hcred as [Hname Hpw].
  assert (Htp' : Validate (Some (default emptyPattern (cp_trafficPattern p))) = Ret tt) by (by destruct (cp_trafficPattern p)).
  destruct (NewConfig_value hostSeed (cp_trafficPattern p) c Hc Htp') as (c' & Hcfg & Hcoh).
  destruct (clientKey_ret _ Hh) as (k & Hk).
  destruct (allEndpoints_ret (if cp_mtu p =? 0 then DefaultMTU else cp_mtu p) _ Hne Hss) as (eps & Heps & Hnil & Hall).
  unfold NewClientMuxFromProfile. rewrite Hcfg. simpl obind. rewrite Hk. simpl obind. rewrite Heps. simpl obind.
  set (m1 := mkMux _ _ _ _ _ _ _ _ _ _ _ _ _ _ _).
  rewrite (SetEndpoints_first net (concat eps) m1) by done. eexists _, c'. split; [reflexivity|].
  pose proof (clientKey_server _ _ Hk) as Hkey. pose proof (userPassword_nonempty _ _ Hkey) as Hkne.
  split_and!; try done.
  - unfold dialGuards. simpl. rewrite (proj2 (Z.eqb_neq (len k) 0)), (proj2 (Z.eqb_neq (len (concat eps)) 0)).
    + rewrite existsb_Forall; [done|]. eapply Forall_impl; [exact Hall|]. by intros e [_ ?].
    + destruct (concat eps); [done|]. unfold len. simpl. lia.
    + destruct k; [done|]. unfold len. simpl. lia.
  - simpl. by destruct (cp_multiplexing p).
  - simpl. by destruct (cp_multiplexing p).
  - eapply Forall_impl; [exact Hall|]. intros e [He _]. split; [done|]. rewrite He. unfold validateMtu in Hmtu. simpl in Hmtu.
    unfold DefaultMTU. destruct (cp_mtu p =? 0) eqn:E0; [lia|]. simpl in Hmtu. case_if_in Hmtu; [done|]. bool_to_Z. lia.
  - eexists. split; [reflexivity|]. apply implicitPattern_nonce. by apply Validate_fields.
Qed.

(** C15: a valid profile gives a mux that can dial.  When a profile passes
    validation and its hashed password, if any, is hexadecimal, its mux is
    created, and dialing on it passes every check: it has a user name, a
    password, at least one endpoint, and every endpoint has a remote address and
    an MTU that is the default or the one of the profile.  The key is the one
    that a server computes for the same user, the multiplexing factor is at most
    3, and encryption can apply the nonce pattern. *)
Theorem valid_profile_dials {V} (net : muxNet) hostSeed p c :
  ValidateClientConfigSingleProfile p = Ret tt →
  hexDecode (string_bytes (pu_hashedPassword (cp_user p))) ≠ None → Rng.cache_coherent string_bytes c →
  ∃ (m : Mux V) c', NewClientMuxFromProfile net hostSeed p c = Ret (m, c') ∧
    dialGuards m = None ∧ m_username m = pu_name (cp_user p) ∧ m_username m ≠ "" ∧
    userPassword (toUser (cp_user p)) = Some (m_password m) ∧ 0 ≤ m_multiplexFactor m ≤ 3 ∧
    Forall (λ e, p_MTU e = (if cp_mtu p =? 0 then DefaultMTU else cp_mtu p) ∧ 1280 ≤ p_MTU e ≤ 1500) (m_endpoints m) ∧
    (∃ n, m_trafficPattern m = Some (Some n) ∧ pattern_ok n).
Proof.
  intros Hv Hh Hc. destruct (profile_mux_ok (V := V) net hostSeed p c Hv Hh Hc) as (m & c' & H1 & H2 & _ & H3).
  by exists m, c'.
Qed.

(** A profile whose hashed password is not hexadecimal passes validation, but no
    mux can be made from it. *)
Theorem bad_hash_passes_validation {V} net hostSeed p c h :
  hexDecode (string_bytes h) = None →
  let u := cp_user p in
  let p' := mkProfile (cp_profileName p) (mkPbUser (pu_name u) "" h (pu_quotas u) (pu_rights u))
              (cp_servers p) (cp_Mtu p) (cp_Multiplexing p) (cp_trafficPattern p) (cp_HandshakeMode p) in
  ValidateClientConfigSingleProfile p = Ret tt → Rng.cache_coherent string_bytes c →
  ValidateClientConfigSingleProfile p' = Ret tt ∧
  ∃ e, NewClientMuxFromProfile (V := V) net hostSeed p' c = Err e.
Proof.
  intros Hh u p' Hv Hc.
  assert (h ≠ "") as Hhne by (intros ->; done).
  split.
  - unfold ValidateClientConfigSingleProfile in *. simpl. case_bool_decide; [done|].
    apply obind_ret_tt in Hv as [Hcred Hv]. apply obind_ret_tt. split; [|exact Hv].
    unfold validateCredentials in *. simpl. fold u in Hcred.
    case_if_in Hcred; [done|]. case_if_in Hcred; [done|]. case_if_in Hcred; [done|].
    rewrite (bool_decide_false (h = "")) by done. simpl. by repeat (case_if; [congruence|]).
  - apply ValidateProfile_ret in Hv as (_ & _ & _ & _ & _ & Htp).
    assert (Htp' : Validate (Some (default emptyPattern (cp_trafficPattern p))) = Ret tt) by (by destruct (cp_trafficPattern p)).
    destruct (NewConfig_value hostSeed (cp_trafficPattern p) c Hc Htp') as (c' & Hcfg & _).
    unfold NewClientMuxFromProfile. simpl cp_trafficPattern. rewrite Hcfg. simpl obind. unfold clientKey. simpl.
    rewrite bool_decide_false by done. simpl. rewrite Hh. simpl. by eexists.
Qed.

(** ** Applying a configuration *)

Lemma hashProfile_name p : cp_profileName (hashProfile p) = cp_profileName p.
Proof. done. Qed.

Lemma hashProfile_idem p : hashProfile (hashProfile p) = hashProfile p.
Proof.
  destruct p as [n u ss mt mu tp]. unfold hashProfile. simpl. f_equal. unfold HashUserPassword.
  by destruct (bool_decide (pu_password u = "")) eqn:E; simpl; rewrite ?E.
Qed.

Lemma hashProfile_valid p :
  ValidateClientConfigSingleProfile p = Ret tt → ValidateClientConfigSingleProfile (hashProfile p) = Ret tt.
Proof.
  unfold ValidateClientConfigSingleProfile. simpl. case_bool_decide; [done|]. rewrite !obind_ret_tt. intros [Hc Hv].
  split; [by apply hashed_credentials_valid|]. unfold HashUserPassword. by case_bool_decide.
Qed.

Section ClientValid.
Context (parseDuration : bytes → outcome Z).
Notation ValidatePatch := (ValidateClientConfigPatch parseDuration).
Notation ValidateFull := (ValidateFullClientConfig parseDuration).

(** The checks of the full configuration that do not look into the profiles. *)
Definition portsValid (c : PbClientConfig) : bool :=
  let rpc := default 0 (cc_rpcPort c) in
  let socks := default 0 (cc_socks5Port c) in
  validPortOrZero rpc && validPort socks && negb (rpc =? socks) &&
  match cc_httpProxyPort c with
  | None => true
  | Some http => validPort http && negb (http =? rpc) && negb (http =? socks)
  end.

Lemma ValidateFullClient_ret c :
  ValidateFull c = Ret tt ↔
    ValidatePatch c = Ret tt ∧ default "" (cc_activeProfile c) ≠ "" ∧
    default "" (cc_activeProfile c) ∈ (cp_profileName <$> cc_profiles c) ∧ portsValid c = true.
Proof.
  unfold ValidateFullClientConfig, portsValid. rewrite obind_ret_tt. apply and_iff_compat_l.
  set (active := default "" (cc_activeProfile c)).
  assert (Hex : existsb (λ p, bool_decide (cp_profileName p = active)) (cc_profiles c) = true ↔ active ∈ (cp_profileName <$> cc_profiles c)).
  { rewrite existsb_exists, list_elem_of_fmap. split.
    - intros (p & Hp & He). exists p. apply list_elem_of_In in Hp. apply bool_decide_eq_true in He. done.
    - intros (p & -> & Hp). exists p. split; [by apply list_elem_of_In|]. by apply bool_decide_eq_true. }
  destruct (len (cc_profiles c) =? 0) eqn:El.
  { assert (cc_profiles c = []) as Hn by (bool_to_Z; unfold len in El; destruct (cc_profiles c); [done|simpl in El; lia]).
    rewrite Hn. simpl. split; [done|]. intros (_ & Hin & _). by apply elem_of_nil in Hin. }
  case_bool_decide as Ha; [by split; [|intros [? _]]|].
  destruct (existsb _ (cc_profiles c)) eqn:Ee; simpl; [|split; [done|intros (_ & Hin & _); apply Hex in Hin; congruence]].
  assert (Hin : active ∈ (cp_profileName <$> cc_profiles c)) by (by apply Hex). clear Hex Ee.
  destruct (validPortOrZero _); simpl; [|split; [done|by intros (_ & _ & ?)]].
  destruct (validPort _); simpl; [|split; [done|by intros (_ & _ & ?)]].
  destruct (default 0 (cc_rpcPort c) =? default 0 (cc_socks5Port c)); simpl; [split; [done|by intros (_ & _ & ?)]|].
  destruct (cc_httpProxyPort c) as [h|]; [|split; [intros _; by split_and!|done]].
  destruct (validPort h); simpl; [|split; [done|by intros (_ & _ & ?)]].
  destruct (h =? _); simpl; [split; [done|by intros (_ & _ & ?)]|].
  destruct (h =? _); simpl; [split; [done|by intros (_ & _ & ?)]|]. split; [intros _; by split_and!|done].
Qed.

Lemma ValidatePatchClient_ret c :
  ValidatePatch c = Ret tt ↔
    Forall (λ p, ValidateClientConfigSingleProfile p = Ret tt) (cc_profiles c) ∧
    Forall (λ a, validateAuth a = Ret tt) (default [] (cc_socks5Authentication c)) ∧
    validateMetricsInterval parseDuration (default [] (ca_metricsLoggingInterval <$> cc_advancedSettings c)) = Ret tt.
Proof. unfold ValidateClientConfigPatch. by rewrite !obind_ret_tt, !firstError_ret. Qed.

Lemma storedClient_full c : ValidateFull c = Ret tt → ValidateFull (storedClient c) = Ret tt.
Proof.
  rewrite !ValidateFullClient_ret, !ValidatePatchClient_ret. intros ((Hp & Ha & Hm) & Hact & Hin & Hports). simpl.
  split_and!; try done.
  - apply Forall_fmap. eapply Forall_impl; [exact Hp|]. intros p. apply hashProfile_valid.
  - rewrite <- list_fmap_compose. exact Hin.
Qed.
End ClientValid.

(** Profiles of a merged configuration, and of what is stored. *)
Lemma merge_keyed dst src : keyed cp_profileName (profileMap (cc_profiles src) ∪ profileMap (cc_profiles dst)).
Proof. intros n p Hp. apply lookup_union_Some_raw in Hp as [Hp|[_ Hp]]; by apply listToMap_keyed in Hp. Qed.

Lemma stored_profiles dst src :
  profileMap (cc_profiles (storedClient (mergeClientConfigByProfile dst src))) =
    hashProfile <$> (profileMap (cc_profiles src) ∪ profileMap (cc_profiles dst)).
Proof.
  simpl. unfold profileMap at 1. rewrite listToMap_fmap by apply hashProfile_name.
  by rewrite listToMap_sortedValues by apply merge_keyed.
Qed.

Lemma storedClient_merge_idem dst src :
  storedClient (mergeClientConfigByProfile (storedClient (mergeClientConfigByProfile dst src)) src) =
    storedClient (mergeClientConfigByProfile dst src).
Proof.
  assert (Hp : ∀ A (s d : option A), prefer s (prefer s d) = prefer s d) by (by intros A [] ?).
  pose proof (stored_profiles dst src) as Hs. simpl in Hs.
  unfold storedClient, set_profiles. simpl. rewrite !Hp. f_equal.
  - rewrite Hs, <- !sortedValues_fmap. f_equal. apply map_eq. intros n. rewrite !lookup_fmap, !lookup_union, !lookup_fmap, lookup_union.
    destruct (profileMap (cc_profiles src) !! n) as [p|], (profileMap (cc_profiles dst) !! n) as [q|]; simpl;
      rewrite ?hashProfile_idem; done.
  - by destruct (cc_activeProfile src).
  - by destruct (cc_socks5Port src).
  - by destruct (cc_loggingLevel src).
Qed.

(** Merging what is stored with the same patch gives a valid configuration
    again. *)
Lemma merge_again_full parseDuration dst src :
  ValidateClientConfigPatch parseDuration src = Ret tt →
  ValidateFullClientConfig parseDuration (mergeClientConfigByProfile dst src) = Ret tt →
  ValidateFullClientConfig parseDuration
    (mergeClientConfigByProfile (storedClient (mergeClientConfigByProfile dst src)) src) = Ret tt.
Proof.
  set (c := mergeClientConfigByProfile dst src). set (c2 := mergeClientConfigByProfile (storedClient c) src).
  intros Hsrc Hfull. pose proof (storedClient_full parseDuration c Hfull) as Hst.
  rewrite ValidateFullClient_ret in Hst |- *. rewrite !ValidatePatchClient_ret in Hst |- *. rewrite ValidatePatchClient_ret in Hsrc.
  destruct Hst as ((Hp & Ha & Hm) & Hact & Hin & Hports), Hsrc as (Hps & Has & Hms).
  assert (Hactive : cc_activeProfile c2 = cc_activeProfile (storedClient c)) by (simpl; by destruct (cc_activeProfile src)).
  assert (Hnames : ∀ n, n ∈ (cp_profileName <$> cc_profiles (storedClient c)) → n ∈ (cp_profileName <$> cc_profiles c2)).
  { intros n Hn. pose proof (sortedValues_names cp_profileName _ (merge_keyed (storedClient c) src)) as E. simpl. simpl in E. rewrite E.
    clear E. rewrite elem_of_sortedNames. pose proof (stored_profiles dst src) as Hs. fold c in Hs. simpl in Hs. rewrite Hs.
    apply list_elem_of_fmap in Hn as (p & -> & Hp'). simpl in Hp'. apply list_elem_of_fmap in Hp' as (q & -> & Hq).
    simpl in Hq. apply elem_of_sortedValues in Hq as (n & Hq). simpl. rewrite (merge_keyed dst src n q Hq).
    rewrite lookup_union, lookup_fmap, Hq. simpl. by destruct (profileMap (cc_profiles src) !! n); eexists. }
  split_and!.
  - apply Forall_forall. intros p Hpin. simpl in Hpin. apply elem_of_sortedValues in Hpin as (n & Hn).
    apply lookup_union_Some_raw in Hn as [Hn|[_ Hn]]; apply lookup_listToMap in Hn as [_ Hn].
    + rewrite Forall_forall in Hps. by apply Hps.
    + rewrite Forall_forall in Hp. by apply Hp.
  - by apply (prefer_cases _ _ (λ a, Forall (λ a, validateAuth a = Ret tt) (default [] a))).
  - by apply (prefer_cases _ _ (λ a, validateMetricsInterval parseDuration (default [] (ca_metricsLoggingInterval <$> a)) = Ret tt)).
  - by rewrite Hactive.
  - rewrite Hactive. by apply Hnames.
  - unfold portsValid in *. simpl in *. destruct (cc_rpcPort src), (cc_socks5Port src), (cc_httpProxyPort src); simpl in *; done.
Qed.

(** What the encodings carry: a repeated field that is empty is absent. *)
Definition wire (c : PbClientConfig) : Prop := cc_socks5Authentication c ≠ Some [].

Section Apply.
Context (parseDuration : bytes → outcome Z)
        (marshal : PbClientConfig → outcome bytes) (unmarshal : bytes → outcome PbClientConfig).
Context (marshal_unmarshal : ∀ c, wire c → ∃ b, marshal c = Ret b ∧ unmarshal b = Ret c).

Notation ValidatePatch := (ValidateClientConfigPatch parseDuration).
Notation ValidateFull := (ValidateFullClientConfig parseDuration).
Notation Apply := (applyClientConfig parseDuration marshal unmarshal).

(** applying a client configuration.  A valid patch is refused only when the
    merged configuration as a whole is not valid.  Otherwise it is stored; what
    is loaded next is valid, has the profiles of both, those of the patch first,
    with hashed passwords, its active profile exists and is valid, and applying
    the patch again changes nothing. *)
Theorem apply_client_config src file dst :
  LoadClientConfig unmarshal file = Ret dst → wire dst → wire src → ValidatePatch src = Ret tt →
  match Apply src file with
  | Ret file' =>
      ∃ c p, LoadClientConfig unmarshal file' = Ret c ∧ ValidateFull c = Ret tt ∧
        GetActiveProfileFromConfig c (default "" (cc_activeProfile c)) = Ret p ∧
        ValidateClientConfigSingleProfile p = Ret tt ∧
        profileMap (cc_profiles c) = hashProfile <$> (profileMap (cc_profiles src) ∪ profileMap (cc_profiles dst)) ∧
        Apply src file' = Ret file'
  | Err e => ValidateFull (mergeClientConfigByProfile dst src) = Err e
  | Panic s => ValidateFull (mergeClientConfigByProfile dst src) = Panic s
  end.
Proof.
  intros Hl Hwd Hws Hs. unfold applyClientConfig at 1. rewrite Hs. simpl obind. rewrite Hl. simpl obind.
  destruct (ValidateFull (mergeClientConfigByProfile dst src)) as [[]|e|s] eqn:Ef; simpl; [|done..].
  unfold StoreClientConfig. destruct (marshal_unmarshal (storedClient (mergeClientConfigByProfile dst src))) as (b & Hb & Hu).
  { unfold wire in *. cbn. by destruct (cc_socks5Authentication src). }
  rewrite Hb. simpl. set (c := storedClient (mergeClientConfigByProfile dst src)) in *.
  pose proof (storedClient_full _ _ Ef) as Hfull. fold c in Hfull.
  pose proof (proj1 (ValidateFullClient_ret _ _) Hfull) as (Hp & _ & Hin & _).
  apply ValidatePatchClient_ret in Hp as (Hprof & _).
  assert (∃ p, GetActiveProfileFromConfig c (default "" (cc_activeProfile c)) = Ret p ∧ p ∈ cc_profiles c) as (p & Hget & Hpin).
  { unfold GetActiveProfileFromConfig. destruct (find _ (cc_profiles c)) as [p|] eqn:E.
    - exists p. split; [done|]. apply find_some in E as [E _]. by apply list_elem_of_In.
    - exfalso. apply list_elem_of_fmap in Hin as (p & Hname & Hpin). apply list_elem_of_In in Hpin.
      apply (find_none _ _ E) in Hpin. apply bool_decide_eq_false in Hpin. congruence. }
  exists c, p. split; [done|]. split; [done|]. split; [done|]. split; [rewrite Forall_forall in Hprof; by apply Hprof|].
  split; [apply stored_profiles|]. unfold applyClientConfig. rewrite Hs. simpl obind. rewrite Hu. simpl obind.
  subst c. rewrite merge_again_full by done. simpl obind. unfold StoreClientConfig. by rewrite storedClient_merge_idem, Hb.
Qed.
End Apply.

(** ** Witnesses *)

Definition demoProfile : PbClientProfile :=
  mkProfile "default" (mkPbUser "alice" "secret" "" [] (mkRights false false))
    [mkServerEndpoint (string_bytes "12.34.56.78") [] [mkBinding 0 (string_bytes "2012-2014") TCP; mkBinding 443 [] UDP]]
    None (Some (Some MULTIPLEXING_LOW)) None None.

Lemma valid_profile_dials_witness :
  ∃ (m : Mux demoV) c', NewClientMuxFromProfile demoNetwork 7 demoProfile ∅ = Ret (m, c') ∧ dialGuards m = None.
Proof.
  destruct (valid_profile_dials (V := demoV) demoNetwork 7 demoProfile ∅) as (m & c' & H1 & H2 & _).
  - vm_compute. reflexivity.
  - vm_compute. discriminate.
  - intros h v Hv. discriminate Hv.
  - exists m, c'. split; [exact H1|exact H2].
Defined.

Lemma bad_hash_passes_validation_witness :
  ∃ e, NewClientMuxFromProfile (V := demoV) demoNetwork 7
    (mkProfile "default" (mkPbUser "alice" "" "xyz" [] (mkRights false false))
       (cp_servers demoProfile) None (Some (Some MULTIPLEXING_LOW)) None None) ∅ = Err e.
Proof.
  destruct (bad_hash_passes_validation (V := demoV) demoNetwork 7 demoProfile ∅ "xyz") as [_ H].
  - reflexivity.
  - vm_compute. reflexivity.
  - intros h v Hv. discriminate Hv.
  - exact H.
Defined.

#[global] Instance MultiplexingLevel_eq_dec : EqDecision MultiplexingLevel.
Proof. solve_decision. Defined.
#[global] Instance MultiplexingLevel_countable : Countable MultiplexingLevel.
Proof. solve_countable (λ l, match l with MULTIPLEXING_DEFAULT => 0 | MULTIPLEXING_OFF => 1 | MULTIPLEXING_LOW => 2
                             | MULTIPLEXING_MIDDLE => 3 | MULTIPLEXING_HIGH => 4 end)
  (λ z : Z, if z =? 0 then MULTIPLEXING_DEFAULT else if z =? 1 then MULTIPLEXING_OFF else if z =? 2 then MULTIPLEXING_LOW
            else if z =? 3 then MULTIPLEXING_MIDDLE else MULTIPLEXING_HIGH). Qed.
#[global] Instance HandshakeMode_eq_dec : EqDecision HandshakeMode.
Proof. solve_decision. Defined.
#[global] Instance HandshakeMode_countable : Countable HandshakeMode.
Proof. solve_countable (λ l, match l with HANDSHAKE_DEFAULT => 0 | HANDSHAKE_STANDARD => 1 | HANDSHAKE_NO_WAIT => 2 end)
  (λ z : Z, if z =? 0 then HANDSHAKE_DEFAULT else if z =? 1 then HANDSHAKE_STANDARD else HANDSHAKE_NO_WAIT). Qed.
#[global] Instance PbServerEndpoint_eq_dec : EqDecision PbServerEndpoint.
Proof. solve_decision. Defined.
#[global] Instance PbServerEndpoint_countable : Countable PbServerEndpoint.
Proof. solve_countable (λ s, (se_ipAddress s, se_domainName s, se_portBindings s)) (λ '(a, b, c), mkServerEndpoint a b c). Qed.
#[global] Instance PbClientProfile_eq_dec : EqDecision PbClientProfile.
Proof. solve_decision. Defined.
#[global] Instance PbClientProfile_countable : Countable PbClientProfile.
Proof. solve_countable (λ p, (cp_profileName p, cp_user p, cp_servers p, cp_Mtu p, cp_Multiplexing p, cp_trafficPattern p, cp_HandshakeMode p))
  (λ '(a, b, c, d, e, f, g), mkProfile a b c d e f g). Qed.
#[global] Instance PbClientAdvanced_eq_dec : EqDecision PbClientAdvanced.
Proof. solve_decision. Defined.
#[global] Instance PbClientAdvanced_countable : Countable PbClientAdvanced.
Proof. solve_countable (λ a, (ca_noCheckUpdate a, ca_metricsLoggingInterval a)) (λ '(a, b), mkClientAdvanced a b). Qed.
#[global] Instance PbClientConfig_eq_dec : EqDecision PbClientConfig.
Proof. solve_decision. Defined.
#[global] Instance PbClientConfig_countable : Countable PbClientConfig.
Proof. solve_countable
  (λ c, (cc_profiles c, cc_activeProfile c, cc_rpcPort c, cc_socks5Port c, cc_advancedSettings c, cc_loggingLevel c,
         cc_socks5ListenLAN c, cc_httpProxyPort c, cc_httpProxyListenLAN c, cc_socks5Authentication c))
  (λ '(a, b, c, d, e, f, g, h, i, j), mkClientConfig a b c d e f g h i j). Qed.

Definition demoClientSrc : PbClientConfig :=
  mkClientConfig [demoProfile] (Some "default") (Some 8965) (Some 1080) None None None None None None.
Definition demoClientDst : PbClientConfig := mkClientConfig [] None None None None None None None None None.

Lemma apply_client_config_witness :
  ∃ file' c, applyClientConfig (λ _, Ret 0) demoMarshal demoUnmarshal demoClientSrc (Some [Zpos (encode demoClientDst)])
      = Ret file' ∧
    LoadClientConfig demoUnmarshal file' = Ret c ∧ ValidateFullClientConfig (λ _, Ret 0) c = Ret tt.
Proof.
  pose proof (apply_client_config (λ _, Ret 0) demoMarshal demoUnmarshal (λ c _, demo_marshal_unmarshal c) demoClientSrc
    (Some [Zpos (encode demoClientDst)]) demoClientDst) as H.
  assert (Hv : ValidateFullClientConfig (λ _, Ret 0) (mergeClientConfigByProfile demoClientDst demoClientSrc) = Ret tt)
    by (vm_compute; reflexivity).
  destruct (applyClientConfig _ _ _ demoClientSrc _) as [file'|e|s].
  - destruct H as (c & p & H1 & H2 & _).
    + simpl. rewrite decode_encode. reflexivity.
    + discriminate.
    + discriminate.
    + vm_compute. reflexivity.
    + exists file', c. split; [reflexivity|]. split; [exact H1|exact H2].
  - exfalso. rewrite H in Hv; [discriminate Hv|simpl; rewrite decode_encode; reflexivity|discriminate|discriminate|vm_compute; reflexivity].
  - exfalso. rewrite H in Hv; [discriminate Hv|simpl; rewrite decode_encode; reflexivity|discriminate|discriminate|vm_compute; reflexivity].
Defined.

End ConfigClient.
Export ConfigClient.
