(* ===== verification/ServerControl.v ===== *)
(** * The server management service: pkg/appctl/server.go, run of pkg/cli/server.go

    Starting, stopping and reloading the proxy over a stored configuration.  The
    global references of the package are fields of one state; muxes are objects
    in a store, since [serverMuxRef] and the socks5 server may refer to different
    ones.  [log.Fatalf] ends the process and is a [Panic].  Logging, metrics and
    the RPC server are not represented. *)

From S2P Require Import Prelude Mathext Common Rng Cipher Segment SessionState Session Scheduler Socks Net SocksUDP Dns.
From S2P Require Import Egress SocksAuth TrafficPattern Mux PortBinding ConfigServer.
Local Open Scope Z_scope.

Module ServerControl.

Inductive AppStatus := UNKNOWN | IDLE | STARTING | RUNNING | STOPPING.

(** What [socks5.Config] takes from the configuration. *)
Record socksConfig := mkSocksConfig {
  s5_users : gmap string PbUser;
  s5_egress : option PbEgress;
  s5_hosts : gmap bytes bytes;
  s5_dualStack : Z
}.

Record service (V : Type) := mkService {
  s_file : option bytes;
  s_status : AppStatus;
  s_muxes : gmap nat (Mux V);
  s_muxRef : option nat;                     (** [serverMuxRef] *)
  s_socks : option (nat * socksConfig);      (** [socks5ServerRef], with the mux it serves *)
  s_cache : fixedCache
}.
Arguments mkService {V}. Arguments s_file {V}. Arguments s_status {V}. Arguments s_muxes {V}.
Arguments s_muxRef {V}. Arguments s_socks {V}. Arguments s_cache {V}.

Section Control.
Context {V T : Type} `{BTree T} `{MuxUnderlay V T}.
Context (parseDuration : bytes → outcome Z)
        (marshal : PbServerConfig → outcome bytes) (unmarshal : bytes → outcome PbServerConfig).
Context (net : muxNet) (dualStack : bool) (hostSeed : Z).
Implicit Types s : service V.

Definition set_status (st : AppStatus) s : service V :=
  mkService (s_file s) st (s_muxes s) (s_muxRef s) (s_socks s) (s_cache s).
Definition set_muxes (ms : gmap nat (Mux V)) s : service V :=
  mkService (s_file s) (s_status s) ms (s_muxRef s) (s_socks s) (s_cache s).
Definition set_socks (k : option (nat * socksConfig)) s : service V :=
  mkService (s_file s) (s_status s) (s_muxes s) (s_muxRef s) k (s_cache s).
Definition set_muxRef (r : option nat) s : service V :=
  mkService (s_file s) (s_status s) (s_muxes s) r (s_socks s) (s_cache s).
Definition set_file (f : option bytes) s : service V :=
  mkService f (s_status s) (s_muxes s) (s_muxRef s) (s_socks s) (s_cache s).
Definition set_cache (c : fixedCache) s : service V :=
  mkService (s_file s) (s_status s) (s_muxes s) (s_muxRef s) (s_socks s) c.

Definition muxUsers (us : list PbUser) : Users := pu_quotas <$> UserListToMap us.

Definition mtuOf (c : PbServerConfig) : Z := let m := default 0 (sc_mtu c) in if m =? 0 then 1400 else m.

(** [GetAdvancedSettings().GetUserHintIsMandatory()] *)
Definition hintIsMandatory (c : PbServerConfig) : bool := default false (adv_userHintIsMandatory <$> sc_advancedSettings c).

(** The mux and the socks5 server of a configuration. *)
Definition buildServer (c : PbServerConfig) (cache : fixedCache) : outcome (Mux V * socksConfig * fixedCache) :=
  let! (tp, cache) := NewConfig hostSeed (sc_trafficPattern c) cache in
  let mux := SetTrafficPattern (Some (Some (GetNonce (effective tp)))) (NewMux false) in
  let! mux := SetServerUsers (muxUsers (sc_users c)) mux in
  let! mux := SetServerUserHintIsMandatory (hintIsMandatory c) mux in
  let! endpoints := PortBindingsToUnderlayProperties dualStack (GetPortBindings c) (mtuOf c) in
  let mux := SetEndpoints net endpoints mux in
  let! hosts := TransformDNSHosts (sc_dns c) in
  Ret (mux, mkSocksConfig (UserListToMap (sc_users c)) (sc_egress c) hosts (default 0 (dns_dualStack <$> sc_dns c)), cache).

(** From the validated configuration to the running proxy; [ref] is whether
    [SetServerMuxRef] is called. *)
Definition startProxy (ref : bool) (c : PbServerConfig) s : outcome unit * service V :=
  let s := set_status STARTING s in
  match buildServer c (s_cache s) with
  | Err e => (Err e, s)
  | Panic p => (Panic p, s)
  | Ret (mux, k, cache) =>
      let id : nat := base.fresh (dom (D := gset nat) (s_muxes s)) in
      let s := set_cache cache (set_socks (Some (id, k)) (if ref then set_muxRef (Some id) s else s)) in
      match Start net mux with
      | (Ret _, mux) => (Ret tt, set_status RUNNING (set_muxes (<[id := mux]> (s_muxes s)) s))
      | (_, mux) => (Panic "log.Fatalf: socks5 server listening failed: %v", set_muxes (<[id := mux]> (s_muxes s)) s)
      end
  end.

(** The proxy part of [mita run]. *)
Definition Run s : outcome unit * service V :=
  match LoadServerConfig unmarshal (s_file s) with
  | Ret c => if is_ret (ValidateFullServerConfig parseDuration c) then startProxy true c s else (Ret tt, s)
  | Err _ => (Err (Errorf "get server config failed"), s)
  | Panic p => (Panic p, s)
  end.

Definition StartRPC s : outcome unit * service V :=
  match LoadServerConfig unmarshal (s_file s) with
  | Ret c =>
      match ValidateFullServerConfig parseDuration c with
      | Ret _ => match s_socks s with Some _ => (Ret tt, s) | None => startProxy false c s end
      | Err _ => (Err (Errorf "ValidateFullServerConfig() failed: %w"), s)
      | Panic p => (Panic p, s)
      end
  | Err _ => (Err (Errorf "LoadServerConfig() failed: %w"), s)
  | Panic p => (Panic p, s)
  end.

(** Closing the socks5 server makes its serve loop close the mux. *)
Definition Stop (now : Z) s : outcome unit * service V :=
  match s_socks s with
  | None => (Ret tt, set_status IDLE s)
  | Some (id, _) =>
      let s1 := set_status IDLE (set_socks None s) in
      match s_muxes s !! id with
      | None => (Panic "nil pointer dereference", s)
      | Some mux =>
          match Close now mux with
          | Ret mux => (Ret tt, set_muxes (<[id := mux]> (s_muxes s)) s1)
          | Err e => (Err e, s1)
          | Panic p => (Panic p, s1)
          end
      end
  end.

Definition SetConfig (c : PbServerConfig) s : outcome PbServerConfig * service V :=
  match StoreServerConfig marshal c with
  | Ret f => (LoadServerConfig unmarshal f, set_file f s)
  | Err _ => (Err (Errorf "StoreServerConfig() failed: %w"), s)
  | Panic p => (Panic p, s)
  end.

(** What a reload does to a mux. *)
Definition reloadMux (c : PbServerConfig) (mux : Mux V) : outcome (Mux V) :=
  let! endpoints := PortBindingsToUnderlayProperties dualStack (GetPortBindings c) (mtuOf c) in
  let! mux := SetServerUsers (muxUsers (sc_users c)) (SetEndpoints net endpoints mux) in
  SetServerUserHintIsMandatory (hintIsMandatory c) mux.

Definition Reload s : outcome unit * service V :=
  match LoadServerConfig unmarshal (s_file s) with
  | Ret c =>
      match ValidateFullServerConfig parseDuration c with
      | Ret _ =>
          match s_muxRef s with
          | None => (Ret tt, s)
          | Some id =>
              match s_muxes s !! id with
              | None => (Panic "nil pointer dereference", s)
              | Some mux =>
                  match reloadMux c mux with
                  | Ret mux => (Ret tt, set_muxes (<[id := mux]> (s_muxes s)) s)
                  | Err e => (Err e, s)
                  | Panic p => (Panic p, s)
                  end
              end
          end
      | Err _ => (Err (Errorf "ValidateFullServerConfig() failed: %w"), s)
      | Panic p => (Panic p, s)
      end
  | Err _ => (Err (Errorf "LoadServerConfig() failed: %w"), s)
  | Panic p => (Panic p, s)
  end.

(** What the goroutine of a started proxy does next: [Serve] takes what the loop
    around [Accept] got from the mux, and an error of it ends the process. *)
Definition serveRound (choice : acceptCase) (id : nat) s : outcome unit * service V :=
  match s_muxes s !! id with
  | None => (Panic "nil pointer dereference", s)
  | Some mux =>
      match Accept choice mux with
      | (None, _) => (Ret tt, s)
      | (Some (Ret _), mux) => (Ret tt, set_muxes (<[id := mux]> (s_muxes s)) s)
      | (Some _, _) => (Panic "log.Fatalf: run socks5 server failed: %v", s)
      end
  end.

(** ** Properties *)

Context `{!MuxUnderlayLaws V T}.

(** The host lets the daemon listen at an endpoint. *)
Definition canListen (p : UnderlayProperties) : bool :=
  match p_TransportProtocol p with
  | StreamTransport => match ResolveTCPAddr (n_lookupIP net) "tcp" (Str (p_LocalAddr p)) with Ret a => is_ret (n_listen net "tcp" a) | _ => false end
  | _ => match ResolveUDPAddrOn (n_lookupIP net) "udp" (Str (p_LocalAddr p)) with Ret a => is_ret (n_listen net "udp" a) | _ => false end
  end.

Lemma acceptUnderlayLoop_endpoint mtu pr port (m : Mux V) :
  let p := endpointAt dualStack mtu pr port in
  acceptUnderlayLoop net p m = (if canListen p then set_listening (m_endpoints m) (m_listening m ++ [p]) (m_acceptHasErr m) m
                                else set_listening (m_endpoints m) (m_listening m) true m).
Proof.
  intros p. unfold acceptUnderlayLoop, canListen, p, endpointAt. cbn [p_TransportProtocol p_LocalAddr Str Network].
  rewrite bool_decide_eq_false_2 by (unfold addrString, JoinHostPort; case_if; [done|intros E; by apply app_nil in E as [_ ?]]).
  destruct (bool_decide (pr = TCP)); cbn.
  - by destruct (ResolveTCPAddr _ _ _); [case_if|..].
  - by destruct (ResolveUDPAddrOn _ _ _); [case_if|..].
Qed.

Lemma listenAll_endpoints mtu ps (m : Mux V) :
  Forall (λ p, ∃ pr port, p = endpointAt dualStack mtu pr port) ps →
  (forallb canListen ps = true → m_acceptHasErr (listenAll net ps m) = m_acceptHasErr m ∧ m_listening (listenAll net ps m) = m_listening m ++ ps) ∧
  (forallb canListen ps = false → m_acceptHasErr (listenAll net ps m) = true) ∧ m_chAccept (listenAll net ps m) = m_chAccept m.
Proof.
  intros Hps. revert m. induction Hps as [|p ps (pr & port & ->) Hps IH]; intros m; [by rewrite app_nil_r|].
  unfold listenAll in *. cbn [foldl forallb]. rewrite acceptUnderlayLoop_endpoint.
  destruct (canListen _); cbn [andb].
  - destruct (IH (set_listening (m_endpoints m) (m_listening m ++ [endpointAt dualStack mtu pr port]) (m_acceptHasErr m) m)) as (H1 & H2 & H3).
    split_and!; [|done|done]. intros E. destruct (H1 E) as [-> ->]. cbn. by rewrite <- app_assoc.
  - destruct (IH (set_listening (m_endpoints m) (m_listening m) true m)) as (H1 & H2 & H3). split_and!; [done| |done]. intros _.
    destruct (forallb canListen ps); [by destruct (H1 eq_refl) as [-> _]|by apply H2].
Qed.

Lemma Start_ok (m : Mux V) :
  m_isClient m = false → m_users m ≠ ∅ → m_endpoints m ≠ [] →
  Forall (λ p, IsNilNetAddr (p_LocalAddr p) = false) (m_endpoints m) →
  Start net m = (Ret tt, listenAll net (m_endpoints m) (set_flags true (m_done m) m)).
Proof.
  intros Hc Hu Hne Hl. unfold Start. rewrite Hc. rewrite bool_decide_false by (intros E; by apply map_size_empty_inv in E).
  rewrite (proj2 (Z.eqb_neq _ _)) by (destruct (m_endpoints m); [done|unfold len; simpl; lia]).
  assert (existsb (λ p, IsNilNetAddr (p_LocalAddr p)) (m_endpoints m) = false) as ->; [|done].
  induction Hl as [|p l Hp Hl IH]; [done|]. simpl. rewrite Hp. simpl. destruct l; [done|]. by apply IH.
Qed.

Lemma listenAll_keeps ps : ∀ m : Mux V, m_users (listenAll net ps m) = m_users m ∧ m_done (listenAll net ps m) = m_done m.
Proof.
  unfold listenAll. induction ps as [|p ps IH]; intros m; [done|]. simpl. destruct (IH (acceptUnderlayLoop net p m)) as [-> ->].
  unfold acceptUnderlayLoop. by repeat case_match.
Qed.

(** What a server mux is after it was started. *)
Lemma Start_listens (m : Mux V) :
  m_isClient m = false → m_users m ≠ ∅ → m_endpoints m ≠ [] → m_done m = false →
  Forall (λ p, IsNilNetAddr (p_LocalAddr p) = false) (m_endpoints m) →
  ∃ m', Start net m = (Ret tt, m') ∧ m_users m' = m_users m ∧ m_used m' = true ∧ m_done m' = false ∧ listens m' ∧
    m_endpoints m' = m_endpoints m.
Proof.
  intros Hc Hu Hne Hd Hl. rewrite Start_ok by done.
  destruct (listenAll_spec net (m_endpoints m) (set_flags true (m_done m) m)) as (E1 & E2 & _ & _ & E3).
  destruct (listenAll_keeps (m_endpoints m) (set_flags true (m_done m) m)) as [K1 K2].
  eexists. split; [reflexivity|]. rewrite K1, K2, E1, E2. split_and!; try done.
  unfold listens. rewrite E1. simpl. destruct E3 as [E3|E3]; auto.
Qed.

Lemma muxUsers_nonempty us : us ≠ [] → muxUsers us ≠ ∅.
Proof.
  intros Hne E. unfold muxUsers in E. apply fmap_empty_inv in E. destruct us as [|u us] using rev_ind; [done|].
  unfold UserListToMap, listToMap in E. rewrite foldl_app in E. simpl in E. by apply insert_non_empty in E.
Qed.

(** Every part of a valid configuration can be built. *)
Lemma buildServer_ok c cache :
  ValidateFullServerConfig parseDuration c = Ret tt → Rng.cache_coherent string_bytes cache →
  ∃ mux k cache', buildServer c cache = Ret (mux, k, cache') ∧
    m_isClient mux = false ∧ m_used mux = false ∧ m_done mux = false ∧ m_users mux = muxUsers (sc_users c) ∧
    m_endpoints mux ≠ [] ∧ Forall (λ p, IsNilNetAddr (p_LocalAddr p) = false) (m_endpoints mux) ∧
    (∀ p, p ∈ m_endpoints mux ↔ ∃ b pr port, b ∈ GetPortBindings c ∧ binds b pr port ∧ p = endpointAt dualStack (mtuOf c) pr port) ∧
    s5_users k = UserListToMap (sc_users c) ∧ s5_egress k = sc_egress c ∧
    m_listening mux = [] ∧ m_acceptHasErr mux = false ∧ m_chAccept mux = [].
Proof.
  intros Hv Hc. apply ValidateFull_ret in Hv as [[Hp _ _ _ Hdns _ Htp] Hne].
  destruct (FlatPortBindings (GetPortBindings c)) as [flat| |] eqn:Hf; [|done..].
  assert (Htp' : Validate (Some (default emptyPattern (sc_trafficPattern c))) = Ret tt) by (by destruct (sc_trafficPattern c)).
  destruct (NewConfig_value hostSeed (sc_trafficPattern c) cache Hc Htp') as (cache' & Hcfg & _).
  destruct (PortBindingsToUnderlayProperties_spec dualStack _ (mtuOf c) flat Hf) as (eps & Heps & Hlen & Hnil & Hin).
  destruct (TransformDNSHosts (sc_dns c)) as [hosts| |] eqn:Ed; try done.
  assert (Hepsne : eps ≠ []).
  { pose proof (FlatPortBindings_nonempty _ _ Hf Hne) as Hfne. intros ->. by destruct flat. }
  unfold buildServer. rewrite Hcfg. simpl obind. rewrite Heps. simpl obind. rewrite Ed. simpl obind.
  set (m1 := mkMux _ _ _ _ _ _ _ _ _ _ _ _ _ _ _).
  rewrite (SetEndpoints_first net eps m1) by done. eexists _, _, _. split; [reflexivity|]. by split_and!.
Qed.


(** a valid configuration without users ends the process.  Validation
    accepts a configuration that has no user, but starting it terminates the
    daemon: the mux refuses to start and the error is fatal. *)
Theorem start_without_users_is_fatal s c :
  LoadServerConfig unmarshal (s_file s) = Ret c → ValidateFullServerConfig parseDuration c = Ret tt →
  sc_users c = [] → s_socks s = None →
  Rng.cache_coherent string_bytes (s_cache s) → ∃ p s', StartRPC s = (Panic p, s').
Proof.
  intros Hl Hv Hu Hs Hc.
  destruct (buildServer_ok c (s_cache s) Hv Hc) as (mux & k & cache' & Hb & B1 & _ & _ & B4 & _).
  unfold StartRPC. rewrite Hl, Hv, Hs. unfold startProxy. simpl s_cache. rewrite Hb. unfold Start. rewrite B1, B4, Hu.
  change (muxUsers []) with (∅ : Users). rewrite bool_decide_true by apply map_size_empty. by eexists _, _.
Qed.

(** after a restart, reloading has no effect on the proxy.  Only the first
    start of the process stores the reference to its mux; when the proxy was
    stopped and started again, whatever configuration is stored next, [Reload]
    reports success or failure without touching the mux that is serving. *)
Theorem reload_misses_restarted_mux s now s1 s2 s3 ref file r :
  s_muxRef s = Some ref → is_Some (s_muxes s !! ref) → is_Some (s_socks s) →
  Stop now s = (Ret tt, s1) → StartRPC s1 = (Ret tt, s2) → Reload (set_file file s2) = (r, s3) →
  ∃ id k mux, s_socks s3 = Some (id, k) ∧ s_socks s2 = Some (id, k) ∧ id ≠ ref ∧
    s_muxes s2 !! id = Some mux ∧ s_muxes s3 !! id = Some mux.
Proof.
  intros Href [m0 Hm0] [[id0 k0] Hk0] Hstop Hstart Hrel.
  assert (s_muxRef s1 = Some ref ∧ s_socks s1 = None ∧ is_Some (s_muxes s1 !! ref)) as (Hr1 & Hs1 & [m1 Hm1]).
  { unfold Stop in Hstop. rewrite Hk0 in Hstop. destruct (s_muxes s !! id0) as [m|] eqn:Em; [|done].
    destruct (Close now m) as [m'| |]; simplify_eq. simpl. split_and!; try done.
    destruct (decide (ref = id0)) as [->|Hne]; [rewrite lookup_insert_eq; by eexists|rewrite lookup_insert_ne by done; by eexists]. }
  assert (∃ id k mux, s_socks s2 = Some (id, k) ∧ id ≠ ref ∧ s_muxes s2 !! id = Some mux ∧ s_muxRef s2 = Some ref)
    as (id & k & mux & Hk & Hid & Hmux & Hr2).
  { unfold StartRPC in Hstart. destruct (LoadServerConfig unmarshal (s_file s1)) as [c| |]; [|done..].
    destruct (ValidateFullServerConfig parseDuration c); [|done..]. rewrite Hs1 in Hstart. unfold startProxy in Hstart.
    simpl s_cache in Hstart. destruct (buildServer c (s_cache s1)) as [[[m k] cache]| |]; [|done..].
    destruct (Start net m) as [[[]| |] m']; [|done..]. simplify_eq. simpl.
    eexists _, _, _. split; [reflexivity|]. split_and!; [|apply lookup_insert_eq|done].
    intros E. pose proof (is_fresh (dom (D := gset nat) (s_muxes s1))) as Hf. simpl in Hf, E. rewrite E in Hf.
    apply Hf, elem_of_dom. by eexists. }
  exists id, k, mux.
  assert (s_socks s3 = s_socks s2 ∧ s_muxes s3 !! id = s_muxes s2 !! id) as [-> ->]; [|done].
  unfold Reload in Hrel. simpl in Hrel. rewrite Hr2 in Hrel.
  destruct (LoadServerConfig unmarshal file) as [c| |]; [|by simplify_eq..].
  destruct (ValidateFullServerConfig parseDuration c); [|by simplify_eq..].
  destruct (s_muxes s2 !! ref) as [m|]; [|by simplify_eq].
  destruct (reloadMux c m) as [m'| |]; simplify_eq; [|done..]. simpl. split; [done|]. by rewrite lookup_insert_ne.
Qed.

(** a proxy that was started by a call is not reached by a reload.  Only the
    command that runs the daemon stores the reference to the mux; when it found no
    valid configuration and the proxy was started by a call later, [Reload] leaves
    the proxy as it is, whatever has been stored. *)
Theorem reload_misses_started_proxy s s1 s2 file r :
  s_muxRef s = None → s_socks s = None → StartRPC s = (Ret tt, s1) → Reload (set_file file s1) = (r, s2) →
  is_Some (s_socks s2) ∧ s_socks s2 = s_socks s1 ∧ s_muxes s2 = s_muxes s1.
Proof.
  intros Hr Hs Hstart Hrel. unfold StartRPC in Hstart.
  destruct (LoadServerConfig unmarshal (s_file s)) as [c| |]; [|done..]. destruct (ValidateFullServerConfig parseDuration c); [|done..].
  rewrite Hs in Hstart. unfold startProxy in Hstart. simpl s_cache in Hstart.
  destruct (buildServer c (s_cache s)) as [[[m k] cache]| |]; [|done..]. destruct (Start net m) as [[[]| |] m']; [|done..].
  injection Hstart as <-. unfold Reload in Hrel. cbn [s_file set_file s_muxRef set_status set_muxes set_socks set_cache] in Hrel.
  rewrite Hr in Hrel. repeat case_match; simplify_eq; cbn; by split_and!.
Qed.
End Control.

(** ** Witnesses

    The configurations of ConfigServer, served in the network of Mux. *)

#[local] Existing Instance demoWriter.
#[local] Existing Instance demoUnderlay.
#[local] Existing Instance demoUnderlayLaws.

Definition demoNoUsers : PbServerConfig :=
  mkPbServerConfig (Some [mkBinding 8964 [] TCP]) [] None None (Some 1400) None None None.
(** The file that stores each of the two configurations. *)
Definition demoParse (b : bytes) : outcome PbServerConfig :=
  match b with [1] => Ret demoDst | [2] => Ret demoNoUsers | _ => Err (Errorf "proto: cannot parse invalid wire-format data") end.
Definition demoService (file : bytes) : service demoV := mkService (Some file) IDLE ∅ None None ∅.
Definition demoStart : service demoV → outcome unit * service demoV :=
  StartRPC (λ _, Ret 0) demoParse demoNetwork false 42.
Definition demoRun : service demoV → outcome unit * service demoV :=
  Run (λ _, Ret 0) demoParse demoNetwork false 42.
Definition demoReload : service demoV → outcome unit * service demoV :=
  Reload (λ _, Ret 0) demoParse demoNetwork false.

Lemma empty_coherent : Rng.cache_coherent string_bytes ∅.
Proof. intros k v Hk. by rewrite lookup_empty in Hk. Qed.

Lemma ret_pair {S} (x : outcome unit * S) : is_ret x.1 = true → x = (Ret tt, x.2).
Proof. by destruct x as [[[]| |] ?]. Qed.

Lemma some_is {A} (x : option A) : (if x then true else false) = true → is_Some x.
Proof. destruct x; [by eexists|done]. Qed.


Lemma start_without_users_is_fatal_witness : ∃ p s', demoStart (demoService [2]) = (Panic p, s').
Proof.
  apply (start_without_users_is_fatal (λ _, Ret 0) demoParse demoNetwork false 42 (demoService [2])
    demoNoUsers).
  - reflexivity.
  - vm_compute. reflexivity.
  - reflexivity.
  - reflexivity.
  - exact empty_coherent.
Defined.

Lemma reload_misses_started_proxy_witness :
  let s1 := (demoStart (demoService [1])).2 in
  is_Some (s_socks (demoReload (set_file (Some [2]) s1)).2) ∧ s_muxes (demoReload (set_file (Some [2]) s1)).2 = s_muxes s1.
Proof.
  intros s1. destruct (reload_misses_started_proxy (λ _, Ret 0) demoParse demoNetwork false 42 (demoService [1]) s1
    (demoReload (set_file (Some [2]) s1)).2 (Some [2]) (demoReload (set_file (Some [2]) s1)).1) as (H1 & _ & H2).
  - reflexivity.
  - reflexivity.
  - exact (ret_pair (demoStart (demoService [1])) ltac:(vm_compute; reflexivity)).
  - exact (surjective_pairing (demoReload (set_file (Some [2]) s1))).
  - split; [exact H1|exact H2].
Defined.

(** Run, stop, start, store a configuration without users, reload. *)
Lemma reload_misses_restarted_mux_witness :
  let s := (demoRun (demoService [1])).2 in
  let s2 := (demoStart (Stop 5 s).2).2 in
  let s3 := (demoReload (set_file (Some [2]) s2)).2 in
  ∃ id k mux, s_socks s3 = Some (id, k) ∧ s_muxes s2 !! id = Some mux ∧ s_muxes s3 !! id = Some mux.
Proof.
  intros s s2 s3.
  destruct (reload_misses_restarted_mux (λ _, Ret 0) demoParse demoNetwork false 42 s 5 (Stop 5 s).2 s2 s3 0%nat
    (Some [2]) (demoReload (set_file (Some [2]) s2)).1) as (id & k & mux & H1 & _ & _ & H2 & H3).
  - vm_compute. reflexivity.
  - apply some_is. vm_compute. reflexivity.
  - apply some_is. vm_compute. reflexivity.
  - exact (ret_pair (Stop 5 s) ltac:(vm_compute; reflexivity)).
  - exact (ret_pair (demoStart (Stop 5 s).2) ltac:(vm_compute; reflexivity)).
  - exact (surjective_pairing (demoReload (set_file (Some [2]) s2))).
  - exists id, k, mux. split; [exact H1|]. split; [exact H2|exact H3].
Defined.

End ServerControl.
Export ServerControl.
