(* ===== verification/Metrics.v ===== *)
(** * Metrics: pkg/metrics

    Counters with their history and its roll-up, gauges, the registry, dumping
    metrics to a file and loading them, and [checkQuota] of
    pkg/protocol/session.go, which decides on the history.

    A time is a number of nanoseconds since the Unix epoch, as [time.Time] without
    its monotonic part; the history keeps milliseconds.  [clock pass i] is the
    time that [time.Since] reads for the entry [i] of a pass of the roll-up.  The
    calls of a counter are atomic, since each holds its lock. *)

From S2P Require Import Prelude Mathext SessionState Session ConfigServer.
From stdpp Require Import sorting.
Local Open Scope Z_scope.

Module Metrics.

Definition Millisecond : Z := 1000000.
Definition Second : Z := 1000 * Millisecond.
Definition Minute : Z := 60 * Second.
Definition Hour : Z := 60 * Minute.

(** ** Time and [sort.Search] of the standard library *)

(** [t.Truncate(d)] counts from January 1, year 1, UTC. *)
Definition zeroTime : Z := - (62135596800 * Second).
Definition Truncate (t d : Z) : Z := if d <=? 0 then t else t - (t - zeroTime) `mod` d.
Definition UnixMilli (t : Z) : Z := t / Millisecond.
Definition fromMilli (ms : Z) : Z := ms * Millisecond.

Fixpoint searchLoop (fuel : nat) (f : nat → bool) (i j : nat) : nat :=
  match fuel with
  | O => i
  | S fuel =>
      if (i <? j)%nat then
        let h := ((i + j) / 2)%nat in
        if f h then searchLoop fuel f i h else searchLoop fuel f (S h) j
      else i
  end.
Definition Search (n : nat) (f : nat → bool) : nat := searchLoop (S n) f 0 n.

(** ** Counters *)

Inductive RollUpLabel := NO_ROLL_UP | ROLL_UP_TO_SECOND | ROLL_UP_TO_MINUTE | ROLL_UP_TO_HOUR | ROLL_UP_TO_DAY.
#[global] Instance RollUpLabel_eq_dec : EqDecision RollUpLabel.
Proof. solve_decision. Defined.

Record History := mkHistory { TimeUnixMilli : Z; Delta : Z; RollUp : RollUpLabel }.

Inductive MetricType := COUNTER | COUNTER_TIME_SERIES | GAUGE.
#[global] Instance MetricType_eq_dec : EqDecision MetricType.
Proof. solve_decision. Defined.

Record Counter := mkCounter {
  c_name : string;
  c_value : Z;
  c_timeSeries : bool;
  c_history : list History;
  c_op : Z
}.

Definition rollUpInterval : Z := 1000.
Definition rollUpToSecond : Z := 2 * Second.
Definition rollUpSecondToMinute : Z := 120 * Second.
Definition rollUpMinuteToHour : Z := 120 * Minute.
Definition rollUpHourToDay : Z := 8 * 24 * Hour.

Definition countOp (c : Counter) : Counter :=
  mkCounter (c_name c) (c_value c) (c_timeSeries c) (c_history c) (u64 (c_op c + 1)).
Definition set_history (h : list History) (c : Counter) : Counter :=
  mkCounter (c_name c) (c_value c) (c_timeSeries c) h (c_op c).

Definition CName (c : Counter) : string * Counter := (c_name c, countOp c).
Definition CType (c : Counter) : MetricType * Counter :=
  (if c_timeSeries c then COUNTER_TIME_SERIES else COUNTER, countOp c).
Definition CLoad (c : Counter) : Z * Counter := (c_value c, countOp c).
Definition CStore : outcome unit := Panic "Store() is not supported by Counter".

(** The loop of [doRollUp] from the entry with number [i] on; [last] is the entry
    under construction. *)
Fixpoint doRollUpLoop (clock : nat → Z) (fromLabel toLabel : RollUpLabel) (rollUpDuration truncateDuration : Z)
    (i : nat) (hs : list History) (last : option History) : list History :=
  match hs with
  | [] => option_list last
  | h :: hs =>
      let go := doRollUpLoop clock fromLabel toLabel rollUpDuration truncateDuration (S i) hs in
      if negb (bool_decide (RollUp h = fromLabel)) then option_list last ++ h :: go None
      else
        let t := fromMilli (TimeUnixMilli h) in
        if clock i - t <=? rollUpDuration then option_list last ++ h :: go None
        else
          let t := UnixMilli (Truncate t truncateDuration) in
          match last with
          | None => go (Some (mkHistory t (Delta h) toLabel))
          | Some l =>
              if TimeUnixMilli l =? t then go (Some (mkHistory (TimeUnixMilli l) (i64 (Delta l + Delta h)) (RollUp l)))
              else l :: go (Some (mkHistory t (Delta h) toLabel))
          end
  end.

Definition doRollUp (clock : nat → Z) (fromLabel toLabel : RollUpLabel) (rollUpDuration truncateDuration : Z)
    (hs : list History) : list History :=
  doRollUpLoop clock fromLabel toLabel rollUpDuration truncateDuration 0 hs None.

(** The passes of [rollUp]: the labels, the age from which an entry is rolled up
    and the unit it is rolled up to. *)
Definition rollUpPasses : list (RollUpLabel * RollUpLabel * Z * Z) :=
  [(NO_ROLL_UP, ROLL_UP_TO_SECOND, rollUpToSecond, Second);
   (ROLL_UP_TO_SECOND, ROLL_UP_TO_SECOND, rollUpToSecond, Second);
   (ROLL_UP_TO_SECOND, ROLL_UP_TO_MINUTE, rollUpSecondToMinute, Minute);
   (ROLL_UP_TO_MINUTE, ROLL_UP_TO_MINUTE, rollUpSecondToMinute, Minute);
   (ROLL_UP_TO_MINUTE, ROLL_UP_TO_HOUR, rollUpMinuteToHour, Hour);
   (ROLL_UP_TO_HOUR, ROLL_UP_TO_HOUR, rollUpMinuteToHour, Hour);
   (ROLL_UP_TO_HOUR, ROLL_UP_TO_DAY, rollUpHourToDay, 24 * Hour);
   (ROLL_UP_TO_DAY, ROLL_UP_TO_DAY, rollUpHourToDay, 24 * Hour)].

Fixpoint runPasses (clock : nat → nat → Z) (k : nat) (ps : list (RollUpLabel * RollUpLabel * Z * Z)) (hs : list History)
    : list History :=
  match ps with
  | [] => hs
  | (from, to, dur, trunc) :: ps => runPasses clock (S k) ps (doRollUp (clock k) from to dur trunc hs)
  end.

Definition rollUp (clock : nat → nat → Z) (c : Counter) : Counter :=
  if negb (c_op c `mod` rollUpInterval =? 0) then c
  else set_history (runPasses clock 0 rollUpPasses (c_history c)) c.

(** The call holds the lock; [time] is what [Add] read before it took the lock, and
    the readings of the roll-up come from [clock]. *)
Definition addWithTime (delta time : Z) (clock : nat → nat → Z) (c : Counter) : Z * Counter :=
  let c := countOp c in
  if delta =? 0 then (c_value c, c)
  else
    let c := mkCounter (c_name c) (i64 (c_value c + delta)) (c_timeSeries c) (c_history c) (c_op c) in
    let c := if c_timeSeries c
             then rollUp clock (set_history (c_history c ++ [mkHistory (UnixMilli time) delta NO_ROLL_UP]) c) else c in
    (c_value c, c).

Definition Add (delta time : Z) (clock : nat → nat → Z) (c : Counter) : outcome (Z * Counter) :=
  if delta <? 0 then Panic "Can't add a negative value to Counter" else Ret (addWithTime delta time clock c).

Definition sumDelta (hs : list History) : Z := foldl (λ sum h, i64 (sum + Delta h)) 0 hs.

Definition afterAt (hs : list History) (t : Z) (i : nat) : bool :=
  match hs !! i with Some h => t <? fromMilli (TimeUnixMilli h) | None => false end.

Definition DeltaBetween (t1 t2 : Z) (c : Counter) : outcome (Z * Counter) :=
  if t2 <? t1 then Panic "t2 must be later than t1"
  else if negb (c_timeSeries c) then Panic "%s is not a time series Counter"
  else
    let c := countOp c in
    let t1Idx := Search (length (c_history c)) (afterAt (c_history c) t1) in
    let t2Idx := Search (length (c_history c)) (afterAt (c_history c) t2) in
    Ret (sumDelta (take (t2Idx - t1Idx) (drop t1Idx (c_history c))), c).

(** [None] is the zero [time.Time]. *)
Definition LastUpdateTime (c : Counter) : outcome (option Z * Counter) :=
  if negb (c_timeSeries c) then Panic "%s is not a time series Counter"
  else Ret ((λ h, fromMilli (TimeUnixMilli h)) <$> last (c_history c), countOp c).

(** ** Gauges *)

Record Gauge := mkGauge { g_name : string; g_value : Z }.

Definition GAdd (delta : Z) (g : Gauge) : Z * Gauge :=
  let v := i64 (g_value g + delta) in (v, mkGauge (g_name g) v).
Definition GStore (v : Z) (g : Gauge) : Gauge := mkGauge (g_name g) v.

(** ** The registry *)

Inductive Metric := MCounter (c : Counter) | MGauge (g : Gauge).

Record MetricGroup := mkGroup { mg_name : string; mg_metrics : gmap string Metric; mg_enableLogging : bool }.

Notation registry := (gmap string MetricGroup).

Definition newMetric (name : string) (t : MetricType) : Metric :=
  match t with
  | COUNTER => MCounter (mkCounter name 0 false [] 0)
  | COUNTER_TIME_SERIES => MCounter (mkCounter name 0 true [] 0)
  | GAUGE => MGauge (mkGauge name 0)
  end.

Definition GetMetric (g : MetricGroup) (name : string) : option Metric := mg_metrics g !! name.

(** [LoadOrStore] of a group and of a metric; the metric is found again in the
    registry under the two names. *)
Definition RegisterMetric (groupName metricName : string) (t : MetricType) (reg : registry) : registry :=
  let g := default (mkGroup groupName ∅ false) (reg !! groupName) in
  let m := default (newMetric metricName t) (GetMetric g metricName) in
  <[groupName := mkGroup (mg_name g) (<[metricName := m]> (mg_metrics g)) true]> reg.

Definition GetMetricGroupByName (groupName : string) (reg : registry) : option MetricGroup := reg !! groupName.

Definition updateMetric (groupName metricName : string) (m : Metric) (reg : registry) : registry :=
  alter (λ g, mkGroup (mg_name g) (<[metricName := m]> (mg_metrics g)) (mg_enableLogging g)) groupName reg.

(** ** Dump and load *)

Inductive PbMetricType := METRIC_UNSPECIFIED | METRIC_COUNTER | METRIC_COUNTER_TIME_SERIES | METRIC_GAUGE.
#[global] Instance PbMetricType_eq_dec : EqDecision PbMetricType.
Proof. solve_decision. Defined.

Record PbMetric := mkPbMetric { pm_name : string; pm_type : PbMetricType; pm_value : Z; pm_history : list History }.
Record PbMetricGroup := mkPbMetricGroup { pg_name : string; pg_metrics : list PbMetric }.

Definition ToMetricPB (m : Metric) : PbMetric * Metric :=
  match m with
  | MGauge g => (mkPbMetric (g_name g) METRIC_GAUGE (g_value g) [], m)
  | MCounter c =>
      let '(name, c) := CName c in
      let '(t, c) := CType c in
      let '(v, c) := CLoad c in
      let '(t2, c) := CType c in
      (match t2 with
       | COUNTER_TIME_SERIES => mkPbMetric name METRIC_COUNTER_TIME_SERIES (c_value c) (c_history c)
       | _ => mkPbMetric name METRIC_COUNTER v []
       end, MCounter c)
  end.

(** The group with the counted operations, and its message; [sync.Map.Range]
    visits the entries in some order. *)
Definition dumpGroup (g : MetricGroup) : PbMetricGroup :=
  mkPbMetricGroup (mg_name g) ((λ x, (ToMetricPB x.2).1) <$> map_to_list (mg_metrics g)).
Definition dumpedGroup (g : MetricGroup) : MetricGroup :=
  mkGroup (mg_name g) ((λ m, (ToMetricPB m).2) <$> mg_metrics g) (mg_enableLogging g).

Definition allMetrics (reg : registry) : list PbMetricGroup := (λ x, dumpGroup x.2) <$> map_to_list reg.

Section File.
Context (marshal : list PbMetricGroup → outcome bytes) (unmarshal : bytes → outcome (list PbMetricGroup)).

(** The path of the dump file, when it is set, names [file], which can be written. *)
Definition DumpMetricsNow (path : string) (reg : registry) (file : option bytes)
    : outcome unit * (registry * option bytes) :=
  if bool_decide (path = "") then (Err (Errorf "can't dump metrics: file path is not set"), (reg, file))
  else
    match marshal (allMetrics reg) with
    | Ret b => (Ret tt, (dumpedGroup <$> reg, Some b))
    | Err _ => (Err (Errorf "proto.Marshal() failed: %w"), (dumpedGroup <$> reg, file))
    | Panic p => (Panic p, (dumpedGroup <$> reg, file))
    end.

(** [now] and [clock] are the times of the [Add] that it contains. *)
Definition loadCounterFromMetricPB (now : Z) (clock : nat → nat → Z) (src : PbMetric) (dst : Counter) : Counter :=
  let '(name, dst) := CName dst in
  if negb (bool_decide (pm_name src = name)) then dst
  else
    let load t dst :=
      if bool_decide (t = (CType dst).1) then
        let '(v, dst) := CLoad (CType dst).2 in
        let dst := (addWithTime (Max 0 (i64 (pm_value src - v))) now clock dst).2 in
        set_history (pm_history src) dst
      else (CType dst).2 in
    match pm_type src with
    | METRIC_COUNTER => load COUNTER dst
    | METRIC_COUNTER_TIME_SERIES => load COUNTER_TIME_SERIES dst
    | _ => dst
    end.

Definition loadMetric (now : Z) (clock : nat → nat → Z) (groupName : string) (m : PbMetric) (reg : registry) : registry :=
  match GetMetricGroupByName groupName reg ≫= λ g, GetMetric g (pm_name m) with
  | Some (MCounter c) => updateMetric groupName (pm_name m) (MCounter (loadCounterFromMetricPB now clock m c)) reg
  | _ => reg
  end.

Definition registerMetric (groupName : string) (m : PbMetric) (reg : registry) : registry :=
  if bool_decide (pm_name m = "") then reg
  else
    match pm_type m with
    | METRIC_COUNTER => RegisterMetric groupName (pm_name m) COUNTER reg
    | METRIC_COUNTER_TIME_SERIES => RegisterMetric groupName (pm_name m) COUNTER_TIME_SERIES reg
    | _ => reg
    end.

Definition loadGroup (now : Z) (clock : nat → nat → Z) (reg : registry) (g : PbMetricGroup) : registry :=
  if bool_decide (pg_name g = "") then reg
  else
    match GetMetricGroupByName (pg_name g) reg with
    | Some _ => foldl (λ r m, loadMetric now clock (pg_name g) m r) reg (pg_metrics g)
    | None => foldl (λ r m, registerMetric (pg_name g) m r) reg (pg_metrics g)
    end.

(** [loadFromBytes] *)
Definition loadGroups (now : Z) (clock : nat → nat → Z) (gs : list PbMetricGroup) (reg : registry) : registry :=
  foldl (loadGroup now clock) reg gs.

Definition LoadMetricsFromDump (now : Z) (clock : nat → nat → Z) (path : string) (file : option bytes) (reg : registry)
    : outcome unit * registry :=
  if bool_decide (path = "") then (Err (Errorf "can't load metrics dump: file path is not set"), reg)
  else
    match file with
    | None => (Err (Errorf "os.ReadFile() failed: %w"), reg)
    | Some b =>
        match unmarshal b with
        | Ret gs => (Ret tt, loadGroups now clock gs (loadGroups now clock gs reg))
        | Err _ => (Err (Errorf "proto.Unmarshal() failed: %w"), reg)
        | Panic p => (Panic p, reg)
        end
    end.
End File.

(** ** Quotas *)

Definition UserMetricGroup (userName : string) : string := "user - " +:+ userName.
Definition UserMetricDownloadBytes : string := "DownloadBytes".
Definition UserMetricUploadBytes : string := "UploadBytes".

(** The type assertion of [checkQuota]. *)
Definition asCounter (m : Metric) : outcome Counter :=
  match m with MCounter c => Ret c | MGauge _ => Panic "interface conversion" end.

(** [now] is the time read for each quota. *)
Fixpoint checkQuotas (now : nat → Z) (i : nat) (upload download : Metric) (quotas : list Quota) : outcome bool :=
  match quotas with
  | [] => Ret true
  | q :: quotas =>
      let then_ := now i + i64 (i64 (- quotaDays q * 24) * Hour) in
      let! up := asCounter upload in
      let! (a, up) := DeltaBetween then_ (now i) up in
      let! down := asCounter download in
      let! (b, down) := DeltaBetween then_ (now i) down in
      let totalBytes := i64 (a + b) in
      if quotaMegabytes q <? Z.quot totalBytes 1048576 then Ret false
      else checkQuotas now (S i) (MCounter up) (MCounter down) quotas
  end.

(** The Boolean result; it is true with every error. *)
Definition checkQuota (now : nat → Z) (reg : registry) (us : gmap string (list Quota)) (userName : string) : outcome bool :=
  if Nat.eqb (size us) 0 then Ret true
  else
    match us !! userName with
    | None | Some [] => Ret true
    | Some quotas =>
        match GetMetricGroupByName (UserMetricGroup userName) reg with
        | None => Ret true
        | Some g =>
            match GetMetric g UserMetricUploadBytes with
            | None => Ret true
            | Some up =>
                match GetMetric g UserMetricDownloadBytes with
                | None => Ret true
                | Some down => checkQuotas now 0 up down quotas
                end
            end
        end
    end.

(** ** Arithmetic *)

Lemma i64_eqm a b : (a - b) `mod` 2 ^ 64 = 0 → i64 a = i64 b.
Proof.
  intros Hd. unfold i64. f_equal. replace (a + 2 ^ 63) with ((b + 2 ^ 63) + (a - b)) by lia.
  by rewrite Z.add_mod, Hd, Z.add_0_r, Z.mod_mod by lia.
Qed.
Lemma i64_diff a : (i64 a - a) `mod` 2 ^ 64 = 0.
Proof.
  unfold i64. replace ((a + 2 ^ 63) `mod` 2 ^ 64 - 2 ^ 63 - a) with ((- ((a + 2 ^ 63) / 2 ^ 64)) * 2 ^ 64).
  - by apply Z.mod_mul.
  - pose proof (Z.div_mod (a + 2 ^ 63) (2 ^ 64)). lia.
Qed.
Lemma i64_add_l a b : i64 (i64 a + b) = i64 (a + b).
Proof. apply i64_eqm. replace (i64 a + b - (a + b)) with (i64 a - a) by lia. apply i64_diff. Qed.
Lemma i64_add_r a b : i64 (a + i64 b) = i64 (a + b).
Proof. rewrite (Z.add_comm a), i64_add_l. f_equal. lia. Qed.

(** ** Labels *)

(** The unit of a label in milliseconds, its place in the order, and the age that
    the traffic of an entry with this label has reached. *)
Definition unit (l : RollUpLabel) : Z :=
  match l with
  | NO_ROLL_UP => 1 | ROLL_UP_TO_SECOND => 1000 | ROLL_UP_TO_MINUTE => 60000
  | ROLL_UP_TO_HOUR => 3600000 | ROLL_UP_TO_DAY => 86400000
  end.
Definition rank (l : RollUpLabel) : Z :=
  match l with
  | NO_ROLL_UP => 0 | ROLL_UP_TO_SECOND => 1 | ROLL_UP_TO_MINUTE => 2
  | ROLL_UP_TO_HOUR => 3 | ROLL_UP_TO_DAY => 4
  end.
Definition age (l : RollUpLabel) : Z :=
  match l with
  | NO_ROLL_UP => 0
  | ROLL_UP_TO_SECOND => rollUpToSecond - Millisecond
  | ROLL_UP_TO_MINUTE => rollUpSecondToMinute - Second
  | ROLL_UP_TO_HOUR => rollUpMinuteToHour - Minute
  | ROLL_UP_TO_DAY => rollUpHourToDay - Hour
  end.

Lemma unit_divide l l' : rank l ≤ rank l' → (unit l | unit l').
Proof. intros H. destruct l, l'; simpl in *; try lia; apply Z.mod_divide; done. Qed.
Lemma unit_pos l : 0 < unit l.
Proof. by destruct l. Qed.
Lemma rank_inj l l' : rank l = rank l' → l = l'.
Proof. by destruct l, l'. Qed.

Definition trunc (l : RollUpLabel) (t : Z) : Z := t - t `mod` unit l.

Lemma Truncate_milli l t : UnixMilli (Truncate (fromMilli t) (unit l * Millisecond)) = trunc l t.
Proof.
  unfold Truncate, UnixMilli, fromMilli, trunc. pose proof (unit_pos l).
  rewrite (proj2 (Z.leb_gt _ _)) by (unfold Millisecond; lia).
  assert (Hz : ∃ k, zeroTime = k * (unit l * Millisecond)) by (exists (zeroTime / (unit l * Millisecond)); destruct l; vm_compute; reflexivity).
  destruct Hz as [k ->]. rewrite <- (Z.mod_add _ k) by (unfold Millisecond; lia).
  replace (t * Millisecond - k * (unit l * Millisecond) + k * (unit l * Millisecond)) with (t * Millisecond) by lia.
  rewrite Z.mul_mod_distr_r by (unfold Millisecond; lia). rewrite <- Z.mul_sub_distr_r. by apply Z.div_mul.
Qed.

Lemma trunc_spec l t : (unit l | trunc l t) ∧ trunc l t ≤ t < trunc l t + unit l.
Proof.
  pose proof (unit_pos l). unfold trunc. pose proof (Z.mod_pos_bound t (unit l)). split; [|lia].
  apply Z.mod_divide; [lia|]. rewrite Zminus_mod_idemp_r. by rewrite Z.sub_diag, Z.mod_0_l by lia.
Qed.
Lemma trunc_greatest l s t : (unit l | s) → s ≤ t → s ≤ trunc l t.
Proof.
  intros [k ->] Hle. destruct (trunc_spec l t) as [[k' Hk] Hb]. rewrite Hk in Hb |- *. pose proof (unit_pos l).
  assert (Hlt : k * unit l < (k' + 1) * unit l) by lia. apply Z.mul_lt_mono_pos_r in Hlt; [|lia].
  apply Z.mul_le_mono_nonneg_r; lia.
Qed.

(** What is required of a pass of the roll-up. *)
Definition pass_ok (p : RollUpLabel * RollUpLabel * Z * Z) : Prop :=
  let '(from, to, dur, tr) := p in
  tr = unit to * Millisecond ∧
  (to = from ∨ rank to = rank from + 1 ∧ age to = dur - unit from * Millisecond).

Lemma passes_ok : Forall pass_ok rollUpPasses.
Proof. repeat (constructor; [split; [reflexivity|vm_compute; tauto]|]). constructor. Qed.

(** ** The history and the traffic it stands for

    An event is one addition: its time in milliseconds and its bytes.  An entry
    [holds] a nonempty group of events if it has their sum, its time is a multiple
    of its unit, the events happened within the unit, and, seen from [T], have the
    age that its label requires.  A history [represents] a list of events if its
    entries hold consecutive groups of it. *)

Definition event : Type := Z * Z.
Definition total (es : list event) : Z := foldr (λ e s, e.2 + s) 0 es.

Record holds (T : Z) (h : History) (g : list event) : Prop := {
  holds_sum : Delta h = i64 (total g);
  holds_nonempty : g ≠ [];
  holds_aligned : (unit (RollUp h) | TimeUnixMilli h);
  holds_times : Forall (λ e : event, TimeUnixMilli h ≤ e.1 < TimeUnixMilli h + unit (RollUp h)) g;
  holds_age : Forall (λ e : event, fromMilli e.1 ≤ T - age (RollUp h)) g
}.

Inductive represents (T : Z) : list History → list event → Prop :=
| represents_nil : represents T [] []
| represents_cons h g hs es : holds T h g → represents T hs es → represents T (h :: hs) (g ++ es).

Lemma total_app a b : total (a ++ b) = total a + total b.
Proof. unfold total. rewrite foldr_app. induction a as [|x a IH]; simpl; [done|]. rewrite IH. lia. Qed.

Lemma represents_app T hs1 es1 hs2 es2 :
  represents T hs1 es1 → represents T hs2 es2 → represents T (hs1 ++ hs2) (es1 ++ es2).
Proof. induction 1 as [|h g hs es Hh Hr IH]; intros H2; [done|]. simpl. rewrite <- app_assoc. by constructor; [|apply IH]. Qed.

Lemma represents_app_inv T hs1 hs2 es :
  represents T (hs1 ++ hs2) es → ∃ es1 es2, es = es1 ++ es2 ∧ represents T hs1 es1 ∧ represents T hs2 es2.
Proof.
  revert es. induction hs1 as [|h hs1 IH]; intros es H; [exists [], es; repeat split; [constructor|done]|].
  inversion H as [|? g ? es' Hh Hr]; subst. destruct (IH _ Hr) as (es1 & es2 & -> & H1 & H2).
  exists (g ++ es1), es2. split; [by rewrite app_assoc|]. split; [by constructor|done].
Qed.

Lemma holds_later T T' h g : T ≤ T' → holds T h g → holds T' h g.
Proof. intros HT [H1 H2 H3 H4 H5]. split; try done. eapply Forall_impl; [exact H5|]. simpl. intros. lia. Qed.

Lemma represents_later T T' hs es : T ≤ T' → represents T hs es → represents T' hs es.
Proof. intros HT. induction 1; constructor; [by eapply holds_later|done]. Qed.

Lemma represents_sum T hs es : represents T hs es → ∀ s, foldl (λ s h, i64 (s + Delta h)) (i64 s) hs = i64 (s + total es).
Proof.
  induction 1 as [|h g hs es Hh Hr IH]; intros s; simpl; [f_equal; lia|].
  rewrite (holds_sum _ _ _ Hh), i64_add_l, i64_add_r, IH, total_app. f_equal. lia.
Qed.

(** Rolling one entry up, and joining two entries of one time. *)
Lemma holds_trunc T now from to dur h g :
  pass_ok (from, to, dur, unit to * Millisecond) → now ≤ T → RollUp h = from →
  dur < now - fromMilli (TimeUnixMilli h) → holds T h g →
  holds T (mkHistory (trunc to (TimeUnixMilli h)) (Delta h) to) g.
Proof.
  intros [_ Hp] Hnow Hl Hdur [H1 H2 H3 H4 H5]. destruct (trunc_spec to (TimeUnixMilli h)) as [Ha Hb].
  assert (Hdiv : (unit from | unit to)) by (apply unit_divide; destruct Hp as [->|[-> _]]; lia).
  rewrite Hl in *. split; simpl; try done.
  - assert (TimeUnixMilli h + unit from ≤ trunc to (TimeUnixMilli h) + unit to).
    { destruct Hdiv as [k Hk], Ha as [a Ha], H3 as [b Hb']. pose proof (unit_pos from).
      rewrite Ha, Hb', Hk in *. assert (Hlt : b * unit from < (a * k + k) * unit from) by lia.
      apply Z.mul_lt_mono_pos_r in Hlt; [|lia]. assert (b + 1 ≤ a * k + k) by lia. nia. }
    eapply Forall_impl; [exact H4|]. simpl. lia.
  - destruct Hp as [->|[_ Hage]]; [done|]. apply Forall_forall. intros e He.
    rewrite Forall_forall in H4. specialize (H4 e He). rewrite Hage. unfold fromMilli, Millisecond in *. lia.
Qed.

Lemma holds_join T t l d1 d2 g1 g2 :
  holds T (mkHistory t d1 l) g1 → holds T (mkHistory t d2 l) g2 → holds T (mkHistory t (i64 (d1 + d2)) l) (g1 ++ g2).
Proof.
  intros [H1 H2 H3 H4 H5] [J1 J2 J3 J4 J5]. simpl in *. split; simpl; try done.
  - by rewrite H1, J1, i64_add_l, i64_add_r, total_app.
  - by destruct g1.
  - by apply Forall_app.
  - by apply Forall_app.
Qed.

Lemma doRollUpLoop_represents T clock from to dur i hs es last gl :
  pass_ok (from, to, dur, unit to * Millisecond) → (∀ i, clock i ≤ T) → represents T hs es →
  match last with None => gl = [] | Some l => RollUp l = to ∧ holds T l gl end →
  represents T (doRollUpLoop clock from to dur (unit to * Millisecond) i hs last) (gl ++ es).
Proof.
  intros Hp Hc Hr. revert i last gl. induction Hr as [|h g hs es Hh Hr IH]; intros i last gl Hl; simpl.
  { destruct last as [l|]; [destruct Hl as [_ Hl]|subst gl; constructor]. simpl. constructor; [done|constructor]. }
  assert (Hkeep : ∀ r, represents T r es → represents T (option_list last ++ h :: r) (gl ++ g ++ es)).
  { intros r Hr'. apply represents_app; [|by constructor]. destruct last as [l|]; simpl; [|subst; constructor].
    rewrite <- (app_nil_r gl). constructor; [apply Hl|constructor]. }
  case_bool_decide as Hlab; simpl; [|by apply Hkeep, (IH _ None [])].
  case_if; bool_to_Z; [by apply Hkeep, (IH _ None [])|]. rewrite Truncate_milli.
  assert (Hn : holds T (mkHistory (trunc to (TimeUnixMilli h)) (Delta h) to) g)
    by (apply (holds_trunc T (clock i) from to dur); [done|apply Hc|done|lia|done]).
  destruct last as [l|]; [destruct Hl as [Hlt Hl]|subst gl; by apply (IH _ (Some _) g)].
  case_if; bool_to_Z; [|constructor; [done|by apply (IH _ (Some _) g)]].
  rewrite app_assoc. apply (IH _ (Some _)). simpl. split; [done|]. destruct l as [t d lb]. simpl in *. subst lb t. by apply holds_join.
Qed.

(** ** Order

    Times do not decrease and units do not grow along a history. *)

Definition before (a b : History) : Prop := TimeUnixMilli a ≤ TimeUnixMilli b ∧ rank (RollUp b) ≤ rank (RollUp a).
Definition sorted (hs : list History) : Prop := StronglySorted before hs.
Definition aligned (h : History) : Prop := (unit (RollUp h) | TimeUnixMilli h).

#[local] Instance before_trans : Transitive before.
Proof. intros a b c [? ?] [? ?]. split; lia. Qed.

Lemma represents_aligned T hs es : represents T hs es → Forall aligned hs.
Proof. induction 1 as [|h g hs es Hh Hr IH]; constructor; [apply (holds_aligned _ _ _ Hh)|done]. Qed.

Section Order.
Context (now : Z) (clock : nat → Z) (from to : RollUpLabel) (dur : Z).
Context (Hclock : ∀ i, clock i = now) (Hpass : pass_ok (from, to, dur, unit to * Millisecond)).
Notation loop := (doRollUpLoop clock from to dur (unit to * Millisecond)).

Lemma loop_elem i hs last h' :
  h' ∈ loop i hs last →
  h' ∈ hs ∨ (RollUp h' = to ∧ ∃ h, h ∈ hs ∧ TimeUnixMilli h' = trunc to (TimeUnixMilli h)) ∨
  ∃ l, last = Some l ∧ TimeUnixMilli h' = TimeUnixMilli l ∧ RollUp h' = RollUp l.
Proof.
  revert i last. induction hs as [|h hs IH]; intros i last; simpl.
  { destruct last as [l|]; simpl; [|by intros ?%elem_of_nil]. intros ->%list_elem_of_singleton. naive_solver. }
  assert (Hkeep : h' ∈ option_list last ++ h :: loop (S i) hs None →
    h' ∈ h :: hs ∨ (RollUp h' = to ∧ ∃ h0, h0 ∈ h :: hs ∧ TimeUnixMilli h' = trunc to (TimeUnixMilli h0)) ∨
    ∃ l, last = Some l ∧ TimeUnixMilli h' = TimeUnixMilli l ∧ RollUp h' = RollUp l).
  { intros [Hl|Hl]%elem_of_app; [destruct last as [l|]; simpl in Hl; [|by apply elem_of_nil in Hl]|].
    - apply list_elem_of_singleton in Hl as ->. naive_solver.
    - apply elem_of_cons in Hl as [->|Hl]; [left; apply list_elem_of_here|].
      apply IH in Hl as [Hl|[(Hl & h0 & H0 & H1)|(l & ? & _)]]; [left; by apply list_elem_of_further| |done].
      right. left. split; [done|]. exists h0. split; [by apply list_elem_of_further|done]. }
  case_bool_decide; simpl; [|done]. case_if; [done|]. rewrite Truncate_milli. clear Hkeep.
  assert (Hstep : ∀ l, TimeUnixMilli l = trunc to (TimeUnixMilli h) → RollUp l = to → h' ∈ loop (S i) hs (Some l) →
    h' ∈ h :: hs ∨ RollUp h' = to ∧ ∃ h0, h0 ∈ h :: hs ∧ TimeUnixMilli h' = trunc to (TimeUnixMilli h0)).
  { intros l Ht Hlab Hin. apply IH in Hin as [Hin|[(Hl & h0 & H0 & H1)|(l' & [= <-] & E1 & E2)]].
    - left. by apply list_elem_of_further.
    - right. split; [done|]. exists h0. split; [by apply list_elem_of_further|done].
    - right. split; [congruence|]. exists h. split; [apply list_elem_of_here|congruence]. }
  destruct last as [l|]; [|intros Hin; apply Hstep in Hin; naive_solver].
  case_if; bool_to_Z.
  - intros Hin. apply IH in Hin as [Hin|[(Hl & h0 & H0 & H1)|(l' & [= <-] & E1 & E2)]].
    + left. by apply list_elem_of_further.
    + right. left. split; [done|]. exists h0. split; [by apply list_elem_of_further|done].
    + right. right. by exists l.
  - intros [->|Hin]%elem_of_cons; [right; right; by exists l|]. apply Hstep in Hin; naive_solver.
Qed.

(** An entry with at least the unit [to] stays before what follows it. *)
Lemma loop_before p i hs last :
  aligned p → rank to ≤ rank (RollUp p) → Forall (before p) hs →
  (∀ l, last = Some l → before p l) → Forall (before p) (loop i hs last).
Proof.
  intros Ha Hrk Hb Hl. apply Forall_forall. intros h' Hin. rewrite Forall_forall in Hb.
  apply loop_elem in Hin as [Hin|[(Hlab & h & Hin & Ht)|(l & E & E1 & E2)]]; [by apply Hb| |].
  - destruct (Hb h Hin) as [Hle _]. split; [|by rewrite Hlab]. rewrite Ht. apply trunc_greatest; [|done].
    eapply Z.divide_trans; [by apply unit_divide|exact Ha].
  - destruct (Hl l E). split; congruence.
Qed.

Lemma loop_idle i hs :
  Forall (λ h, RollUp h ≠ from ∨ now - fromMilli (TimeUnixMilli h) ≤ dur) hs → loop i hs None = hs.
Proof.
  intros H. revert i. induction H as [|h hs Hh Hs IH]; intros i; [done|]. simpl.
  case_bool_decide; simpl; [|by rewrite IH]. rewrite Hclock. rewrite (proj2 (Z.leb_le _ _)) by naive_solver. by rewrite IH.
Qed.

Lemma from_to_rank : rank from ≤ rank to ≤ rank from + 1.
Proof. destruct Hpass as [_ [->|[-> _]]]; lia. Qed.

(** What follows an entry that is not rolled up. *)
Lemma loop_kept i h hs :
  aligned h → Forall (before h) hs → RollUp h ≠ from ∨ now - fromMilli (TimeUnixMilli h) ≤ dur →
  (Forall (before h) (loop i hs None)).
Proof.
  intros Ha Hb Hk. destruct (decide (rank to ≤ rank (RollUp h))) as [Hrk|Hrk]; [by apply loop_before|].
  rewrite loop_idle; [done|]. eapply Forall_impl; [exact Hb|]. intros h' [Ht Hr].
  pose proof from_to_rank. destruct Hk as [Hk|Hk].
  - left. intros E. apply Hk, rank_inj. rewrite E in Hr. assert (rank (RollUp h) ≠ rank from) by (intros ?; by apply Hk, rank_inj). lia.
  - right. unfold fromMilli, Millisecond in *. lia.
Qed.

Lemma loop_sorted i hs last :
  sorted hs → Forall aligned hs →
  (∀ l, last = Some l → RollUp l = to ∧ aligned l ∧ Forall (before l) hs) → sorted (loop i hs last).
Proof.
  revert i last. induction hs as [|h hs IH]; intros i last Hs Ha Hl; simpl.
  { destruct last; simpl; repeat constructor. }
  apply StronglySorted_inv in Hs as [Hs' Hb]. apply Forall_cons in Ha as [Hah Ha'].
  assert (Hkeep : RollUp h ≠ from ∨ now - fromMilli (TimeUnixMilli h) ≤ dur → sorted (option_list last ++ h :: loop (S i) hs None)).
  { intros Hk. assert (Hn : sorted (h :: loop (S i) hs None)) by (constructor; [by apply IH|by apply loop_kept]).
    destruct last as [l|]; simpl; [|done]. destruct (Hl l eq_refl) as (E & Hal & [Hlh Hbl]%Forall_cons).
    constructor; [done|]. constructor; [done|]. apply loop_before; [done|by rewrite E|done|done]. }
  case_bool_decide as Hlab; simpl; [|by apply Hkeep; left].
  rewrite Hclock. case_if; bool_to_Z; [by apply Hkeep; right|]. clear Hkeep. rewrite Truncate_milli.
  set (n := mkHistory (trunc to (TimeUnixMilli h)) (Delta h) to).
  destruct (trunc_spec to (TimeUnixMilli h)) as [Hta Htb].
  assert (Hn : ∀ n', TimeUnixMilli n' = trunc to (TimeUnixMilli h) → RollUp n' = to →
    RollUp n' = to ∧ aligned n' ∧ Forall (before n') hs).
  { intros n' E1 E2. split; [done|]. split; [unfold aligned; by rewrite E1, E2|]. eapply Forall_impl; [exact Hb|].
    intros h' [H1 H2]. pose proof from_to_rank. split; [rewrite E1; lia|rewrite E2, Hlab in *; lia]. }
  destruct last as [l|]; [|apply IH; [done|done|intros ? [= <-]; by apply Hn]].
  destruct (Hl l eq_refl) as (E & Hal & [Hlh Hbl]%Forall_cons). case_if; bool_to_Z.
  - apply IH; [done|done|]. intros ? [= <-]. by apply Hn.
  - constructor; [apply IH; [done|done|intros ? [= <-]; by apply Hn]|].
    apply loop_before; [done|by rewrite E|done|]. intros ? [= <-]. split; simpl; [|by rewrite E].
    apply trunc_greatest; [|apply Hlh]. rewrite <- E. exact Hal.
Qed.
End Order.

(** The clock is read anew for every entry.  No reading is later than [T], and those
    of one pass over the history fall into one millisecond: the ages are compared
    in milliseconds, so that no entry passes the limit while its pass runs. *)
Definition tick (t : Z) : Z := (t - 1) / Millisecond.
Definition clock_ok (T : Z) (clock : nat → nat → Z) : Prop := ∀ k i, clock k i ≤ T ∧ tick (clock k i) = tick (clock k 0%nat).

(** Readings in one millisecond decide alike. *)
Lemma tick_decides c c' t dur : (Millisecond | dur) → tick c = tick c' → (c - fromMilli t <=? dur) = (c' - fromMilli t <=? dur).
Proof.
  assert (H : ∀ d c, (c - fromMilli t <=? d * Millisecond) = (tick c <? t + d)).
  { intros d c0. unfold tick, fromMilli, Millisecond. apply Bool.eq_iff_eq_true. rewrite Z.leb_le, Z.ltb_lt. split; intros Hd.
    - apply Z.div_lt_upper_bound; lia.
    - assert ((c0 - 1) `mod` 1000000 < 1000000) by (apply Z.mod_pos_bound; lia). pose proof (Z.div_mod (c0 - 1) 1000000 ltac:(lia)). lia. }
  intros [d ->] E. by rewrite !H, E.
Qed.

Lemma doRollUpLoop_tick c c' from to dur tr : (Millisecond | dur) → (∀ i, tick (c i) = tick (c' i)) →
  ∀ hs i last, doRollUpLoop c from to dur tr i hs last = doRollUpLoop c' from to dur tr i hs last.
Proof.
  intros Hd Hc. induction hs as [|h hs IH]; intros i last; [done|]. cbn [doRollUpLoop]. rewrite (tick_decides _ _ _ _ Hd (Hc i)).
  rewrite !IH. destruct (negb _); [done|]. destruct (_ <=? _); [done|]. destruct last as [l|]; by rewrite ?IH.
Qed.

Lemma passes_milli : Forall (λ p : RollUpLabel * RollUpLabel * Z * Z, (Millisecond | p.1.2)) rollUpPasses.
Proof. repeat (constructor; [apply Z.mod_divide; [done|reflexivity]|]). constructor. Qed.

Lemma runPasses_ok T clock k ps hs es :
  Forall pass_ok ps → Forall (λ p : RollUpLabel * RollUpLabel * Z * Z, (Millisecond | p.1.2)) ps → clock_ok T clock → represents T hs es → sorted hs →
  represents T (runPasses clock k ps hs) es ∧ sorted (runPasses clock k ps hs).
Proof.
  intros Hps Hms Hc. revert k hs Hms. induction Hps as [|[[[from to] dur] tr] ps Hp Hps IH]; intros k hs Hms Hr Hs; [done|].
  apply Forall_cons in Hms as [Hm Hms]. cbn in Hm. simpl. assert (tr = unit to * Millisecond) as -> by apply Hp.
  apply IH; [done|unfold doRollUp..].
  - rewrite <- (app_nil_l es). apply doRollUpLoop_represents; [done|apply Hc|done|done].
  - rewrite (doRollUpLoop_tick _ (λ _, clock k 0%nat)) by (done || intros i; apply Hc).
    apply (loop_sorted (clock k 0%nat)); [done|done|done|by eapply represents_aligned|done].
Qed.

Lemma searchLoop_spec f n fuel i j :
  (∀ a b, a ≤ b < n → f a = true → f b = true)%nat → (i ≤ j ≤ n)%nat → (j - i < fuel)%nat →
  (∀ a, a < i → f a = false)%nat → (∀ a, j ≤ a < n → f a = true)%nat →
  let k := searchLoop fuel f i j in
  (k ≤ n)%nat ∧ (∀ a, a < k → f a = false)%nat ∧ (∀ a, k ≤ a < n → f a = true)%nat.
Proof.
  intros Hm. revert i j. induction fuel as [|fuel IH]; intros i j Hij Hf Hlo Hhi; [lia|]. cbn [searchLoop].
  destruct (Nat.ltb_spec i j) as [Hlt|Hge]; [|replace j with i in Hhi by lia; split_and!; auto; lia].
  assert (Hh : (i ≤ (i + j) / 2 < j)%nat)
    by (split; [apply Nat.div_le_lower_bound; lia|apply Nat.div_lt_upper_bound; lia]).
  set (h := ((i + j) / 2)%nat) in *. destruct (f h) eqn:E.
  - apply IH; [lia|lia|done|]. intros a Ha. apply (Hm h); [lia|done].
  - apply IH; [lia|lia| |done]. intros a Ha. destruct (f a) eqn:E'; [|done]. rewrite (Hm a h) in E; [done|lia|done].
Qed.

(** The two indices of [DeltaBetween] cut the history at the two times. *)
Lemma sorted_times hs a b ha hb :
  sorted hs → (a ≤ b)%nat → hs !! a = Some ha → hs !! b = Some hb → TimeUnixMilli ha ≤ TimeUnixMilli hb.
Proof.
  intros Hs Hab Ha Hb. destruct (decide (a = b)) as [->|Hne]; [replace hb with ha by congruence; lia|].
  rewrite <- (take_drop b hs) in Hs. apply (StronglySorted_app_1_elem_of before (take b hs) (drop b hs) ha hb Hs).
  - apply (list_elem_of_lookup_2 _ a). rewrite lookup_take_Some. split; [done|lia].
  - apply (list_elem_of_lookup_2 _ 0%nat). by rewrite lookup_drop, Nat.add_0_r.
Qed.

Lemma Search_cut hs t :
  sorted hs →
  let k := Search (length hs) (afterAt hs t) in
  (k ≤ length hs)%nat ∧ Forall (λ h, fromMilli (TimeUnixMilli h) ≤ t) (take k hs) ∧
  Forall (λ h, t < fromMilli (TimeUnixMilli h)) (drop k hs).
Proof.
  intros Hs k. destruct (searchLoop_spec (afterAt hs t) (length hs) (S (length hs)) 0 (length hs)) as (H1 & H2 & H3);
    [|lia|lia|lia|lia|]; fold (Search (length hs) (afterAt hs t)) in *.
  - intros a b Hab. unfold afterAt. destruct (lookup_lt_is_Some_2 hs a) as [ha Ha]; [lia|].
    destruct (lookup_lt_is_Some_2 hs b) as [hb Hb]; [lia|]. rewrite Ha, Hb. intros ?. bool_to_Z.
    pose proof (sorted_times hs a b ha hb Hs ltac:(lia) Ha Hb). apply Z.ltb_lt. unfold fromMilli, Millisecond in *. lia.
  - split_and!; [done| |]; apply Forall_lookup.
    + intros i h [Hi Hlt]%lookup_take_Some. specialize (H2 i Hlt). unfold afterAt in H2. rewrite Hi in H2. bool_to_Z. done.
    + intros i h Hi. rewrite lookup_drop in Hi. pose proof (lookup_lt_Some _ _ _ Hi).
      specialize (H3 (k + i)%nat ltac:(lia)). unfold afterAt in H3. rewrite Hi in H3. bool_to_Z. done.
Qed.

Definition bytesIn (t1 t2 : Z) (es : list event) : Z :=
  total (filter (λ e : event, t1 < fromMilli e.1 ≤ t2) es).

Lemma total_nonneg es : Forall (λ e : event, 0 ≤ e.2) es → 0 ≤ total es.
Proof. induction 1; simpl; lia. Qed.

Lemma total_filter_le (P : event → Prop) `{∀ e, Decision (P e)} es :
  Forall (λ e : event, 0 ≤ e.2) es → total (filter P es) ≤ total es.
Proof. induction 1 as [|e es He Hs IH]; [done|]. rewrite filter_cons. case_decide; simpl; lia. Qed.

Lemma bytesIn_app t1 t2 a b : bytesIn t1 t2 (a ++ b) = bytesIn t1 t2 a + bytesIn t1 t2 b.
Proof. unfold bytesIn. by rewrite filter_app, total_app. Qed.

Lemma bytesIn_none t1 t2 es : Forall (λ e : event, ¬ (t1 < fromMilli e.1 ≤ t2)) es → bytesIn t1 t2 es = 0.
Proof.
  intros H. unfold bytesIn. assert (filter (λ e : event, t1 < fromMilli e.1 ≤ t2) es = []) as ->; [|done].
  induction H as [|e es He Hs IH]; [done|]. by rewrite filter_cons_False.
Qed.

Lemma bytesIn_all t1 t2 es : Forall (λ e : event, t1 < fromMilli e.1 ≤ t2) es → bytesIn t1 t2 es = total es.
Proof. induction 1 as [|e es He Hs IH]; [done|]. unfold bytesIn in *. rewrite filter_cons_True by done. simpl. by rewrite IH. Qed.

Lemma represents_elem T hs es e :
  represents T hs es → e ∈ es → ∃ h, h ∈ hs ∧
    TimeUnixMilli h ≤ e.1 < TimeUnixMilli h + unit (RollUp h) ∧ fromMilli e.1 ≤ T - age (RollUp h).
Proof.
  induction 1 as [|h g hs es Hh Hr IH]; intros He; [by apply elem_of_nil in He|].
  apply elem_of_app in He as [He|He].
  - exists h. destruct Hh as [_ _ _ H4 H5]. rewrite Forall_forall in H4, H5. specialize (H4 e He). specialize (H5 e He).
    split; [apply list_elem_of_here|]. done.
  - destruct (IH He) as (h' & Hin & H'). exists h'. split; [by apply list_elem_of_further|done].
Qed.

Lemma age_nonneg l : 0 ≤ age l.
Proof. by destruct l. Qed.

(** The history cut at two times, and the bytes of the middle part. *)
Lemma DeltaBetween_cut T es t1 t2 c :
  c_timeSeries c = true → represents T (c_history c) es → sorted (c_history c) → t1 ≤ t2 →
  ∃ ha hb hc ea eb ec, DeltaBetween t1 t2 c = Ret (i64 (total eb), countOp c) ∧ es = ea ++ eb ++ ec ∧
    represents T ha ea ∧ represents T hb eb ∧ represents T hc ec ∧
    Forall (λ h, fromMilli (TimeUnixMilli h) ≤ t1) ha ∧ Forall (λ h, t1 < fromMilli (TimeUnixMilli h)) hb ∧
    Forall (λ h, t2 < fromMilli (TimeUnixMilli h)) hc.
Proof.
  intros Hts Hr Hs Ht. unfold DeltaBetween. rewrite (proj2 (Z.ltb_ge _ _)) by done. rewrite Hts. simpl.
  set (hs := c_history c) in *. destruct (Search_cut hs t1 Hs) as (L1 & A1 & B1), (Search_cut hs t2 Hs) as (L2 & A2 & B2).
  set (k1 := Search (length hs) (afterAt hs t1)) in *. set (k2 := Search (length hs) (afterAt hs t2)) in *.
  assert (Hk : (k1 ≤ k2)%nat).
  { destruct (decide (k1 ≤ k2)%nat) as [|Hn]; [done|]. destruct (lookup_lt_is_Some_2 hs k2) as [h Hh]; [lia|].
    rewrite Forall_lookup in A1, B2. specialize (A1 k2 h). specialize (B2 0%nat h).
    rewrite lookup_drop, Nat.add_0_r in B2. rewrite lookup_take_Some in A1. specialize (B2 Hh).
    assert (fromMilli (TimeUnixMilli h) ≤ t1) by (apply A1; split; [done|lia]). lia. }
  pose proof (take_drop k1 hs) as E1. pose proof (take_drop (k2 - k1) (drop k1 hs)) as E2.
  rewrite drop_drop in E2. replace (k1 + (k2 - k1))%nat with k2 in E2 by lia.
  rewrite <- E1, <- E2 in Hr. apply represents_app_inv in Hr as (ea & er & -> & Ha & Hr).
  apply represents_app_inv in Hr as (eb & ec & -> & Hb & Hc).
  exists (take k1 hs), (take (k2 - k1) (drop k1 hs)), (drop k2 hs), ea, eb, ec. split_and!; try done.
  - unfold sumDelta. change (foldl _ 0 ?l) with (foldl (λ s h, i64 (s + Delta h)) (i64 0) l).
    by rewrite (represents_sum _ _ _ Hb 0).
  - by apply Forall_take.
Qed.

(** The bytes of a window, up to the granularity of its beginning. *)
Lemma DeltaBetween_window T es t1 t2 c :
  c_timeSeries c = true → represents T (c_history c) es → sorted (c_history c) →
  Forall (λ e : event, 0 ≤ e.2) es → total es < 2 ^ 63 → t1 ≤ t2 → T ≤ t2 →
  ∃ R, DeltaBetween t1 t2 c = Ret (R, countOp c) ∧
    bytesIn (t1 + 24 * Hour) t2 es ≤ R ≤ bytesIn t1 t2 es ∧
    (T - 7 * 24 * Hour ≤ t1 → bytesIn (t1 + Hour) t2 es ≤ R).
Proof.
  intros Hts Hr Hs Hpos Hmax Ht HT.
  destruct (DeltaBetween_cut T es t1 t2 c Hts Hr Hs Ht) as (ha & hb & hc & ea & eb & ec & HD & -> & Ra & Rb & Rc & Fa & Fb & Fc).
  apply Forall_app in Hpos as [Pa [Pb Pc]%Forall_app]. rewrite !total_app in Hmax.
  pose proof (total_nonneg _ Pa) as Na. pose proof (total_nonneg _ Pb) as Nb. pose proof (total_nonneg _ Pc) as Nc.
  assert (Hn : ∀ u v es, Forall (λ e : event, 0 ≤ e.2) es → 0 ≤ bytesIn u v es ≤ total es).
  { intros u v l Hl. split; [|by apply total_filter_le]. apply total_nonneg, Forall_forall.
    intros e [_ He]%list_elem_of_filter. rewrite Forall_forall in Hl. by apply Hl. }
  assert (Eb : bytesIn t1 t2 eb = total eb).
  { apply bytesIn_all, Forall_forall. intros e He. destruct (represents_elem _ _ _ _ Rb He) as (h & Hin & H1 & H2).
    rewrite Forall_forall in Fb. specialize (Fb h Hin). pose proof (age_nonneg (RollUp h)). unfold fromMilli, Millisecond in *. lia. }
  assert (Ec : ∀ u, bytesIn u t2 ec = 0).
  { intros u. apply bytesIn_none, Forall_forall. intros e He. destruct (represents_elem _ _ _ _ Rc He) as (h & Hin & H1 & H2).
    rewrite Forall_forall in Fc. specialize (Fc h Hin). unfold fromMilli, Millisecond in *. lia. }
  assert (Ea : ∀ d, d = 24 * Hour ∨ d = Hour ∧ T - 7 * 24 * Hour ≤ t1 → bytesIn (t1 + d) t2 ea = 0).
  { intros d Hd. apply bytesIn_none, Forall_forall. intros e He. destruct (represents_elem _ _ _ _ Ra He) as (h & Hin & H1 & H2).
    rewrite Forall_forall in Fa. specialize (Fa h Hin). unfold Hour, Minute, Second, fromMilli, Millisecond in *.
    destruct (RollUp h); simpl in *; unfold rollUpHourToDay, Hour, Minute, Second, Millisecond in *; lia. }
  exists (total eb). rewrite i64_small in HD by lia. split; [done|]. rewrite !bytesIn_app, Eb, !Ec, Ea by auto.
  pose proof (Hn t1 t2 ea Pa). split; [pose proof (Hn (t1 + 24 * Hour) t2 eb Pb); lia|].
  intros H7. rewrite Ea by auto. pose proof (Hn (t1 + Hour) t2 eb Pb). lia.
Qed.

(** ** Calls of a time series counter *)

Inductive counterOp :=
| OpAdd (delta time : Z) (clock : nat → nat → Z) | OpLoad | OpName | OpType | OpDelta (t1 t2 : Z) | OpLast.

Definition runCounterOp (o : counterOp) (c : Counter) : outcome Counter :=
  match o with
  | OpAdd delta time clock => let! (_, c) := Add delta time clock c in Ret c
  | OpLoad => Ret (CLoad c).2
  | OpName => Ret (CName c).2
  | OpType => Ret (CType c).2
  | OpDelta t1 t2 => let! (_, c) := DeltaBetween t1 t2 c in Ret c
  | OpLast => let! (_, c) := LastUpdateTime c in Ret c
  end.

Fixpoint runCounterOps (os : list counterOp) (c : Counter) : outcome Counter :=
  match os with [] => Ret c | o :: os => let! c := runCounterOp o c in runCounterOps os c end.

(** The additions among the calls. *)
Definition eventOf (o : counterOp) : option event :=
  match o with OpAdd delta time _ => if delta =? 0 then None else Some (UnixMilli time, delta) | _ => None end.
Definition eventsOf (os : list counterOp) : list event := omap eventOf os.

(** The additions take the lock in the order of their times, to the millisecond,
    and none is later than [T].  ([Add] reads the time before it takes the lock.) *)
Fixpoint ops_ok (T prev : Z) (os : list counterOp) : Prop :=
  match os with
  | [] => True
  | OpAdd delta time clock :: os =>
      0 ≤ delta < 2 ^ 63 ∧ (UnixMilli prev ≤ UnixMilli time ∧ time ≤ T) ∧ clock_ok T clock ∧ ops_ok T time os
  | OpDelta t1 t2 :: os => t1 ≤ t2 ∧ ops_ok T prev os
  | _ :: os => ops_ok T prev os
  end.

Record tracks (T prev : Z) (c : Counter) (es : list event) : Prop := {
  tracks_series : c_timeSeries c = true;
  tracks_represents : represents T (c_history c) es;
  tracks_sorted : sorted (c_history c);
  tracks_value : c_value c = i64 (total es);
  tracks_past : Forall (λ e : event, e.1 ≤ UnixMilli prev) es
}.

Lemma represents_has T hs es h : represents T hs es → h ∈ hs → ∃ e, e ∈ es ∧ TimeUnixMilli h ≤ e.1.
Proof.
  induction 1 as [|h0 g hs es Hh Hr IH]; intros Hin; [by apply elem_of_nil in Hin|].
  apply elem_of_cons in Hin as [->|Hin].
  - destruct Hh as [_ Hne _ H4 _]. destruct g as [|e g]; [done|]. exists e. split; [by apply elem_of_app; left; left|].
    apply Forall_cons in H4 as [H4 _]. lia.
  - destruct (IH Hin) as (e & He & Hle). exists e. split; [by apply elem_of_app; right|done].
Qed.

Lemma tracks_countOp T prev c es : tracks T prev c es → tracks T prev (countOp c) es.
Proof. by intros [? ? ? ? ?]. Qed.

Lemma tracks_add T prev delta time clock c es :
  tracks T prev c es → 0 ≤ delta < 2 ^ 63 → UnixMilli prev ≤ UnixMilli time ∧ time ≤ T → clock_ok T clock →
  tracks T time (addWithTime delta time clock c).2 (es ++ option_list (eventOf (OpAdd delta time clock))).
Proof.
  intros [H1 H2 H3 H4 H5] Hd [Hmono Ht] Hc.
  assert (Hpast : Forall (λ e : event, e.1 ≤ UnixMilli time) es) by (eapply Forall_impl; [exact H5|simpl; lia]).
  unfold addWithTime, eventOf. case_if; bool_to_Z; simpl; [rewrite app_nil_r; by split|]. rewrite H1.
  set (h := mkHistory (UnixMilli time) delta NO_ROLL_UP). set (es' := es ++ [(UnixMilli time, delta)]).
  assert (Hr : represents T (c_history c ++ [h]) es').
  { apply represents_app; [done|]. apply (represents_cons T h [_] [] []); [|constructor]. split; simpl.
    - rewrite Z.add_0_r. symmetry. apply i64_small. lia.
    - done.
    - apply Z.divide_1_l.
    - repeat constructor; simpl; lia.
    - repeat constructor. simpl. unfold fromMilli, UnixMilli. pose proof (Z.mul_div_le time Millisecond ltac:(done)). lia. }
  assert (Hs : sorted (c_history c ++ [h])).
  { apply StronglySorted_app_2; [|done|repeat constructor]. intros x y Hx ->%list_elem_of_singleton.
    destruct (represents_has _ _ _ _ H2 Hx) as (e & He & Hle). rewrite Forall_forall in Hpast. specialize (Hpast e He).
    split; simpl; [lia|]. by destruct (RollUp x). }
  assert (Hv : i64 (c_value c + delta) = i64 (total es')) by (unfold es'; rewrite total_app, H4, i64_add_l; simpl; f_equal; lia).
  assert (Hp : Forall (λ e : event, e.1 ≤ UnixMilli time) es') by (apply Forall_app; split; [done|repeat constructor; simpl; lia]).
  unfold rollUp. case_if; simpl; [by split|].
  destruct (runPasses_ok T clock 0 rollUpPasses _ _ passes_ok passes_milli Hc Hr Hs). by split.
Qed.

Lemma tracks_run T os : ∀ prev c es,
  tracks T prev c es → ops_ok T prev os → ∃ c' prev', runCounterOps os c = Ret c' ∧ tracks T prev' c' (es ++ eventsOf os).
Proof.
  induction os as [|o os IH]; intros prev c es Ht Hos; [exists c, prev; by rewrite app_nil_r|].
  assert (Hskip : ∀ c1, runCounterOp o c = Ret c1 → eventOf o = None → tracks T prev c1 es → ops_ok T prev os →
    ∃ c' prev', runCounterOps (o :: os) c = Ret c' ∧ tracks T prev' c' (es ++ eventsOf (o :: os))).
  { intros c1 Hrun He Ht1 Hos1. simpl. rewrite Hrun, He. simpl. by apply (IH prev). }
  destruct o as [delta time clock| | | |t1 t2|]; simpl in Hos.
  - destruct Hos as (Hd & Htime & Hc & Hos). pose proof (tracks_add T prev delta time clock c es Ht Hd Htime Hc) as Ha.
    destruct (IH _ _ _ Ha Hos) as (c' & prev' & Hr & Ht'). exists c', prev'. unfold runCounterOps, runCounterOp, Add.
    rewrite (proj2 (Z.ltb_ge _ _)) by lia. fold runCounterOps. simpl obind.
    destruct (addWithTime delta time clock c) as [v c1]. simpl in *. split; [done|].
    rewrite <- app_assoc in Ht'. destruct (delta =? 0); exact Ht'.
  - by apply (Hskip (countOp c)), Hos; [| |apply tracks_countOp].
  - by apply (Hskip (countOp c)), Hos; [| |apply tracks_countOp].
  - by apply (Hskip (countOp c)), Hos; [| |apply tracks_countOp].
  - apply (Hskip (countOp c)), Hos; [|done|by apply tracks_countOp]. simpl. unfold DeltaBetween.
    rewrite (proj2 (Z.ltb_ge _ _)) by apply Hos. by rewrite (tracks_series _ _ _ _ Ht).
  - apply (Hskip (countOp c)), Hos; [|done|by apply tracks_countOp]. simpl. unfold LastUpdateTime.
    by rewrite (tracks_series _ _ _ _ Ht).
Qed.

Lemma tracks_new T prev name : tracks T prev (mkCounter name 0 true [] 0) [].
Proof. split; try done; constructor. Qed.

Lemma ops_deltas T os : ∀ prev, ops_ok T prev os → Forall (λ e : event, 0 ≤ e.2) (eventsOf os).
Proof.
  induction os as [|[delta time clock| | | | |] os IH]; intros prev Hos; simpl in *; try (by eapply IH); [constructor| |].
  - destruct Hos as (Hd & _ & _ & Hos). unfold eventsOf. simpl. case_if; [by eapply IH|]. constructor; [simpl; lia|by eapply IH].
  - by eapply IH, Hos.
Qed.

(** C32: a time series counter accounts for all its traffic.  Let the additions of
    any sequence of calls take the lock in the order of their times, to the
    millisecond, and let every pass of a roll-up of the history, at the calls the
    code chooses, end in the millisecond in which it began.  Then no call panics, the value is the sum of all additions, and at any later time
    [t2] the increment since [t1] counts nothing from before [t1] and misses at
    most what was added in the first 24 hours after it, or, within the last 7
    days, in the first hour. *)
Theorem counter_accounts_for_traffic name os T prev t1 t2 :
  ops_ok T prev os → total (eventsOf os) < 2 ^ 63 → t1 ≤ t2 → T ≤ t2 →
  ∃ c R, runCounterOps os (mkCounter name 0 true [] 0) = Ret c ∧ DeltaBetween t1 t2 c = Ret (R, countOp c) ∧
    c_value c = total (eventsOf os) ∧
    bytesIn (t1 + 24 * Hour) t2 (eventsOf os) ≤ R ≤ bytesIn t1 t2 (eventsOf os) ∧
    (T - 7 * 24 * Hour ≤ t1 → bytesIn (t1 + Hour) t2 (eventsOf os) ≤ R).
Proof.
  intros Hos Hmax Ht HT. pose proof (ops_deltas _ _ _ Hos) as Hpos.
  destruct (tracks_run T os prev _ [] (tracks_new T prev name) Hos) as (c & prev' & Hrun & [H1 H2 H3 H4 H5]). simpl in *.
  destruct (DeltaBetween_window T (eventsOf os) t1 t2 c H1 H2 H3 Hpos Hmax Ht HT) as (R & HR & Hb & H7).
  exists c, R. split_and!; try done; try lia. rewrite H4. apply i64_small. pose proof (total_nonneg _ Hpos). lia.
Qed.

(** ** Quotas *)

(** The bytes of a user in the last days, as sessions see them (the parameter
    [userBytes] of Session.v). *)
Definition userBytesOf (now : Z) (reg : registry) (userName : string) : option (Z → Z) :=
  match GetMetricGroupByName (UserMetricGroup userName) reg with
  | None => None
  | Some g =>
      match GetMetric g UserMetricUploadBytes, GetMetric g UserMetricDownloadBytes with
      | Some (MCounter up), Some (MCounter down) =>
          Some (λ days,
            match DeltaBetween (now - days * 24 * Hour) now up, DeltaBetween (now - days * 24 * Hour) now down with
            | Ret (a, _), Ret (b, _) => i64 (a + b)
            | _, _ => 0
            end)
      | _, _ => None
      end
  end.

Definition quota_ok (q : Quota) : Prop := 1 ≤ quotaDays q ≤ 106751.

Lemma quota_duration q : quota_ok q → i64 (i64 (- quotaDays q * 24) * Hour) = - (quotaDays q * 24 * Hour).
Proof.
  unfold quota_ok, Hour, Minute, Second, Millisecond. intros H. rewrite (i64_small (- quotaDays q * 24)) by lia.
  rewrite i64_small; lia.
Qed.

(** The windows that a quota of some days is compared with. *)
Definition window (now : Z) (q : Quota) (skip : Z) (eu ed : list event) : Z :=
  let then_ := now - quotaDays q * 24 * Hour + skip in bytesIn then_ now eu + bytesIn then_ now ed.
Definition limit (q : Quota) : Z := (quotaMegabytes q + 1) * 1048576.

Section Quotas.
Context (T : Z) (now : nat → Z) (eu ed : list event).
Context (Hnow : ∀ i, T ≤ now i).
Context (Heu : Forall (λ e : event, 0 ≤ e.2) eu) (Hed : Forall (λ e : event, 0 ≤ e.2) ed).
Context (Hmax : total eu + total ed < 2 ^ 63).

Lemma quota_delta i q p c es :
  tracks T p c es → Forall (λ e : event, 0 ≤ e.2) es → total es < 2 ^ 63 → quota_ok q →
  let then_ := now i - quotaDays q * 24 * Hour in
  ∃ R, DeltaBetween then_ (now i) c = Ret (R, countOp c) ∧ 0 ≤ R ≤ total es ∧
    bytesIn (then_ + 24 * Hour) (now i) es ≤ R ≤ bytesIn then_ (now i) es ∧
    (quotaDays q ≤ 7 → bytesIn (then_ + Hour) (now i) es ≤ R).
Proof.
  intros [H1 H2 H3 H4 H5] Hpos Hlt [Hd1 Hd2] then_. pose proof (Hnow i).
  destruct (DeltaBetween_window T es then_ (now i) c H1 H2 H3 Hpos Hlt) as (R & HR & Hb & H7);
    [unfold then_, Hour, Minute, Second, Millisecond; lia|done|].
  exists R. split; [done|]. split; [|split; [done|]].
  - unfold bytesIn in Hb. pose proof (total_filter_le (λ e : event, then_ < fromMilli e.1 ≤ now i) es Hpos).
    assert (0 ≤ total (filter (λ e : event, then_ + 24 * Hour < fromMilli e.1 ≤ now i) es)); [|lia].
    apply total_nonneg, Forall_forall. intros e [_ He]%list_elem_of_filter. rewrite Forall_forall in Hpos. by apply Hpos.
  - intros Hd. apply H7. unfold then_, Hour, Minute, Second, Millisecond. lia.
Qed.

Lemma checkQuotas_spec quotas : ∀ i pu pd up down,
  tracks T pu up eu → tracks T pd down ed → Forall quota_ok quotas →
  ∃ b, checkQuotas now i (MCounter up) (MCounter down) quotas = Ret b ∧
    (b = false → ∃ k q, quotas !! k = Some q ∧ limit q ≤ window (now (i + k)%nat) q 0 eu ed) ∧
    (b = true → ∀ k q, quotas !! k = Some q → window (now (i + k)%nat) q (24 * Hour) eu ed < limit q ∧
      (quotaDays q ≤ 7 → window (now (i + k)%nat) q Hour eu ed < limit q)).
Proof.
  pose proof (total_nonneg _ Heu). pose proof (total_nonneg _ Hed).
  induction quotas as [|q quotas IH]; intros i pu pd up down Hu Hd Hq; [by exists true|].
  apply Forall_cons in Hq as [Hq Hqs]. simpl. rewrite quota_duration by done. rewrite Z.add_opp_r.
  destruct (quota_delta i q pu up eu Hu Heu ltac:(lia) Hq) as (a & -> & Ha & Hba & Ha7).
  destruct (quota_delta i q pd down ed Hd Hed ltac:(lia) Hq) as (b & -> & Hb & Hbb & Hb7). simpl.
  rewrite (i64_small (a + b)) by lia. rewrite Z.quot_div_nonneg by lia. unfold limit, window.
  pose proof (Z.mul_div_le (a + b) 1048576 ltac:(lia)). pose proof (Z.mul_succ_div_gt (a + b) 1048576 ltac:(lia)).
  case_if; bool_to_Z.
  - exists false. split; [done|]. split; [|done]. intros _. exists 0%nat, q. rewrite Nat.add_0_r, Z.add_0_r. split; [done|]. lia.
  - destruct (IH (S i) pu pd (countOp up) (countOp down)) as (r & Hr & Hf & Ht); [by apply tracks_countOp..|done|].
    exists r. split; [done|]. split.
    + intros Hfalse. destruct (Hf Hfalse) as (k & q' & Hk & Hl). exists (S k), q'. split; [done|].
      replace (i + S k)%nat with (S i + k)%nat by lia. done.
    + intros Htrue k q' Hk. destruct k as [|k]; [injection Hk as <-; rewrite Nat.add_0_r; split; [lia|intros H7; specialize (Ha7 H7); specialize (Hb7 H7); lia]|].
      replace (i + S k)%nat with (S i + k)%nat by lia. by apply Ht.
Qed.
End Quotas.

Lemma forallb_same {A} (f g : A → bool) l : (∀ x, f x = g x) → forallb f l = forallb g l.
Proof. intros Hfg. induction l as [|x l IH]; [done|]. simpl. by rewrite Hfg, IH. Qed.

Lemma checkQuotas_agrees now i up down quotas :
  c_timeSeries up = true → c_timeSeries down = true → Forall quota_ok quotas →
  ∃ b, checkQuotas (λ _, now) i (MCounter up) (MCounter down) quotas = Ret b ∧
    b = forallb (λ q, negb (quotaMegabytes q <? Z.quot
      (match DeltaBetween (now - quotaDays q * 24 * Hour) now up, DeltaBetween (now - quotaDays q * 24 * Hour) now down with
       | Ret (a, _), Ret (b, _) => i64 (a + b) | _, _ => 0 end) 1048576)) quotas.
Proof.
  intros Hu Hd Hq. revert i up down Hu Hd. induction Hq as [|q quotas [Hq1 Hq2] Hqs IH]; intros i up down Hu Hd; [by exists true|].
  simpl. rewrite quota_duration by done. rewrite Z.add_opp_r. unfold DeltaBetween at 1 2 3 4.
  rewrite (proj2 (Z.ltb_ge _ _)) by (unfold Hour, Minute, Second, Millisecond; lia). rewrite Hu, Hd. simpl.
  case_if; simpl; [by exists false|]. destruct (IH (S i) (countOp up) (countOp down)) as (b & Hb & Hr); [done..|].
  exists b. split; [exact Hb|]. rewrite Hr. apply forallb_same. intros x. unfold DeltaBetween. simpl.
  by repeat case_if.
Qed.

(** C31: quotas are enforced on the real traffic.  Let a user have upload and
    download counters with any history of calls up to time [T] in which additions
    take the lock in the order of their times, to the millisecond, and every pass
    of a roll-up ends in the millisecond in which it began.  Checking quotas of at
    most 106751 days later never panics.  When the user is refused, the user really
    has used at least a megabyte more than some quota allows within its days.  When
    the user is admitted, the traffic of each quota's window without its first day,
    and for a quota of at most 7 days without its first hour, is below that.  With a
    single clock reading the result is the one that the session model uses. *)
Theorem quota_enforced T now reg us user quotas g osu osd pu pd up down :
  (∀ i, T ≤ now i) → ops_ok T pu osu → ops_ok T pd osd → total (eventsOf osu) + total (eventsOf osd) < 2 ^ 63 →
  runCounterOps osu (mkCounter UserMetricUploadBytes 0 true [] 0) = Ret up →
  runCounterOps osd (mkCounter UserMetricDownloadBytes 0 true [] 0) = Ret down →
  reg !! UserMetricGroup user = Some g →
  GetMetric g UserMetricUploadBytes = Some (MCounter up) → GetMetric g UserMetricDownloadBytes = Some (MCounter down) →
  us !! user = Some quotas → Forall quota_ok quotas →
  (∃ b, checkQuota now reg us user = Ret b ∧
    (b = false → ∃ k q, quotas !! k = Some q ∧ limit q ≤ window (now k) q 0 (eventsOf osu) (eventsOf osd)) ∧
    (b = true → ∀ k q, quotas !! k = Some q → window (now k) q (24 * Hour) (eventsOf osu) (eventsOf osd) < limit q ∧
      (quotaDays q ≤ 7 → window (now k) q Hour (eventsOf osu) (eventsOf osd) < limit q))) ∧
  ∀ t, checkQuota (λ _, t) reg us user = Ret (quotaOK (userBytesOf t reg) us user).
Proof.
  intros Hnow Hou Hod Hmax Hru Hrd Hg Hgu Hgd Hus Hq.
  pose proof (ops_deltas _ _ _ Hou) as Hpu. pose proof (ops_deltas _ _ _ Hod) as Hpd.
  destruct (tracks_run T osu pu _ [] (tracks_new T pu UserMetricUploadBytes) Hou) as (c & p1 & E1 & Tu).
  destruct (tracks_run T osd pd _ [] (tracks_new T pd UserMetricDownloadBytes) Hod) as (c' & p2 & E2 & Td).
  assert (c = up) as -> by congruence. assert (c' = down) as -> by congruence. simpl in Tu, Td.
  assert (Hsize : Nat.eqb (size us) 0 = false).
  { apply Nat.eqb_neq. intros E. apply map_size_empty_inv in E. subst. by rewrite lookup_empty in Hus. }
  assert (Hcheck : ∀ n, checkQuota n reg us user = match quotas with [] => Ret true | _ => checkQuotas n 0 (MCounter up) (MCounter down) quotas end).
  { intros n. unfold checkQuota, GetMetricGroupByName. rewrite Hsize, Hus, Hg, Hgu, Hgd. by destruct quotas. }
  split.
  - rewrite Hcheck.
    destruct (checkQuotas_spec T now _ _ Hnow Hpu Hpd Hmax quotas 0 p1 p2 up down Tu Td Hq) as (b & Hb & Hs).
    exists b. split; [by destruct quotas|]. exact Hs.
  - intros t. rewrite Hcheck. unfold quotaOK. rewrite Hsize, Hus. destruct quotas as [|q0 qs]; [done|].
    unfold userBytesOf, GetMetricGroupByName. rewrite Hg, Hgu, Hgd.
    destruct (checkQuotas_agrees t 0 up down (q0 :: qs)) as (b & -> & ->);
      [apply (tracks_series _ _ _ _ Tu)|apply (tracks_series _ _ _ _ Td)|done|done].
Qed.

(** a long quota crashes the server.  The number of days has no upper bound
    when a configuration is validated, but from 106752 days on the duration
    overflows, the window begins in the future and [DeltaBetween] panics. *)
Theorem long_quota_panics now reg us user q qs g up down :
  106752 ≤ quotaDays q ≤ 213503 → 1 ≤ quotaMegabytes q → reg !! UserMetricGroup user = Some g →
  GetMetric g UserMetricUploadBytes = Some (MCounter up) → GetMetric g UserMetricDownloadBytes = Some (MCounter down) →
  us !! user = Some (q :: qs) →
  validateQuotas [q] = Ret tt ∧ ∃ p, checkQuota now reg us user = Panic p.
Proof.
  intros Hd Hm Hg Hgu Hgd Hus. split; [simpl; by rewrite !(proj2 (Z.leb_gt _ _)) by lia|]. unfold checkQuota, GetMetricGroupByName. rewrite Hus, Hg, Hgu, Hgd.
  assert (Nat.eqb (size us) 0 = false) as ->.
  { apply Nat.eqb_neq. intros E. apply map_size_empty_inv in E. subst. by rewrite lookup_empty in Hus. }
  unfold checkQuotas. simpl asCounter. simpl obind.
  assert (0 < i64 (i64 (- quotaDays q * 24) * Hour)).
  { unfold Hour, Minute, Second, Millisecond. rewrite (i64_small (- quotaDays q * 24)) by lia.
    rewrite (i64_eqm _ (- quotaDays q * 24 * 3600000000000 + 2 ^ 64)) by (rewrite <- (Z.mod_mul (-1) (2 ^ 64)) by lia; f_equal; lia).
    rewrite i64_small; lia. }
  unfold DeltaBetween. rewrite (proj2 (Z.ltb_lt _ _)) by lia. simpl. by eexists.
Qed.

(** ** Dump and load *)

Definition slot (reg : registry) (gn mn : string) : option Metric := reg !! gn ≫= λ g, mg_metrics g !! mn.

Definition counterType (series : bool) : PbMetricType := if series then METRIC_COUNTER_TIME_SERIES else METRIC_COUNTER.

(** The counter of a message exists and can take its value; it has taken it. *)
Definition ready (reg : registry) (gn : string) (pm : PbMetric) : Prop :=
  ∃ c, slot reg gn (pm_name pm) = Some (MCounter c) ∧ c_name c = pm_name pm ∧
    counterType (c_timeSeries c) = pm_type pm ∧ 0 ≤ c_value c ≤ pm_value pm.
Definition loaded (reg : registry) (gn : string) (pm : PbMetric) : Prop :=
  ∃ c, slot reg gn (pm_name pm) = Some (MCounter c) ∧ c_name c = pm_name pm ∧
    counterType (c_timeSeries c) = pm_type pm ∧ c_value c = pm_value pm ∧ c_history c = pm_history pm.

Definition is_counter (pm : PbMetric) : Prop := pm_type pm = METRIC_COUNTER ∨ pm_type pm = METRIC_COUNTER_TIME_SERIES.

(** The messages of a dump: names are set and distinct, values are in range. *)
Definition pb_ok (g : PbMetricGroup) : Prop :=
  pg_name g ≠ "" ∧ NoDup (pm_name <$> pg_metrics g) ∧
  ∀ pm, pm ∈ pg_metrics g → is_counter pm → pm_name pm ≠ "" ∧ 0 ≤ pm_value pm < 2 ^ 63.

Lemma addWithTime_fields delta now clock c :
  let c' := (addWithTime delta now clock c).2 in
  c_name c' = c_name c ∧ c_timeSeries c' = c_timeSeries c ∧
  c_value c' = (if delta =? 0 then c_value c else i64 (c_value c + delta)).
Proof. unfold addWithTime. case_if; simpl; [done|]. case_if; [|done]. unfold rollUp. by case_if. Qed.

Lemma loadCounter_spec now clock pm c :
  c_name c = pm_name pm → counterType (c_timeSeries c) = pm_type pm → 0 ≤ c_value c ≤ pm_value pm → pm_value pm < 2 ^ 63 →
  let c' := loadCounterFromMetricPB now clock pm c in
  c_name c' = pm_name pm ∧ c_timeSeries c' = c_timeSeries c ∧ c_value c' = pm_value pm ∧ c_history c' = pm_history pm.
Proof.
  intros Hn Ht Hv Hmax. unfold loadCounterFromMetricPB. simpl. rewrite bool_decide_true by done. simpl.
  set (d := Max 0 (i64 (pm_value pm - c_value c))). set (c2 := countOp (countOp (countOp c))).
  assert (Hd : d = pm_value pm - c_value c).
  { unfold d. rewrite i64_small by lia. rewrite Max_spec. lia. }
  destruct (addWithTime_fields d now clock c2) as (F1 & F2 & F3).
  assert (Hval : c_value (addWithTime d now clock c2).2 = pm_value pm).
  { rewrite F3. simpl. case_if; bool_to_Z; [lia|]. rewrite i64_small; lia. }
  rewrite <- Ht. destruct (c_timeSeries c) eqn:E; simpl; rewrite ?E; simpl; split_and!; try done; [rewrite F1|rewrite F2|rewrite F1|rewrite F2]; done.
Qed.

(** Changing one metric of one group. *)
Lemma slot_update gn mn m reg gn' mn' :
  is_Some (reg !! gn) →
  slot (updateMetric gn mn m reg) gn' mn' = if decide (gn' = gn ∧ mn' = mn) then Some m else slot reg gn' mn'.
Proof.
  intros [g Hg]. unfold slot, updateMetric. destruct (decide (gn' = gn)) as [->|Hne].
  - rewrite lookup_alter_eq, Hg. simpl. destruct (decide (mn' = mn)) as [->|Hne'].
    + rewrite lookup_insert_eq, decide_True by done. done.
    + rewrite lookup_insert_ne, decide_False by naive_solver. done.
  - rewrite lookup_alter_ne by done. by rewrite decide_False by naive_solver.
Qed.

Lemma slot_register gn mn t reg gn' mn' :
  slot (RegisterMetric gn mn t reg) gn' mn' =
    if decide (gn' = gn ∧ mn' = mn) then Some (default (newMetric mn t) (slot reg gn mn)) else slot reg gn' mn'.
Proof.
  unfold slot, RegisterMetric, GetMetric. destruct (decide (gn' = gn)) as [->|Hne].
  - rewrite lookup_insert_eq. simpl. destruct (decide (mn' = mn)) as [->|Hne'].
    + rewrite lookup_insert_eq, decide_True by done. destruct (reg !! gn); simpl; [done|]. by rewrite lookup_empty.
    + rewrite lookup_insert_ne, decide_False by naive_solver. by destruct (reg !! gn).
  - rewrite lookup_insert_ne by done. by rewrite decide_False by naive_solver.
Qed.

Lemma slot_group reg gn mn m : slot reg gn mn = Some m → is_Some (reg !! gn).
Proof. unfold slot. destruct (reg !! gn); [by eexists|done]. Qed.

Lemma loadMetric_spec now clock gn pm reg :
  let reg' := loadMetric now clock gn pm reg in
  (∀ gn' mn', ¬ (gn' = gn ∧ mn' = pm_name pm) → slot reg' gn' mn' = slot reg gn' mn') ∧
  (∀ gn', gn' ≠ gn → reg' !! gn' = reg !! gn') ∧
  (is_counter pm → pm_value pm < 2 ^ 63 → ready reg gn pm → loaded reg' gn pm).
Proof.
  unfold loadMetric. fold (slot reg gn (pm_name pm)). change (GetMetricGroupByName gn reg ≫= _) with (slot reg gn (pm_name pm)).
  destruct (slot reg gn (pm_name pm)) as [[c|]|] eqn:E.
  - pose proof (slot_group _ _ _ _ E) as Hg. split_and!.
    + intros gn' mn' Hne. by rewrite slot_update, decide_False.
    + intros gn' Hne. unfold updateMetric. by rewrite lookup_alter_ne.
    + intros _ Hmax (c0 & H0 & Hn & Ht & Hv). rewrite E in H0. injection H0 as <-.
      destruct (loadCounter_spec now clock pm c Hn Ht Hv Hmax) as (F1 & F2 & F3 & F4).
      eexists. rewrite slot_update, decide_True by done. split; [done|]. split_and!; try done. by rewrite F2.
  - split_and!; [done|done|]. intros _ _ (c & H & _). congruence.
  - split_and!; [done|done|]. intros _ _ (c & H & _). congruence.
Qed.

Lemma ready_slot reg reg' gn pm : slot reg' gn (pm_name pm) = slot reg gn (pm_name pm) → ready reg gn pm → ready reg' gn pm.
Proof. unfold ready. by intros ->. Qed.
Lemma loaded_slot reg reg' gn pm : slot reg' gn (pm_name pm) = slot reg gn (pm_name pm) → loaded reg gn pm → loaded reg' gn pm.
Proof. unfold loaded. by intros ->. Qed.
Lemma loaded_ready reg gn pm : 0 ≤ pm_value pm → loaded reg gn pm → ready reg gn pm.
Proof. intros Hv (c & H1 & H2 & H3 & H4 & _). exists c. split_and!; try done; lia. Qed.

(** Loading all the metrics of a group that is there. *)
Lemma loadMetrics_spec now clock gn pms reg :
  NoDup (pm_name <$> pms) → (∀ pm, pm ∈ pms → is_counter pm → 0 ≤ pm_value pm < 2 ^ 63) →
  let reg' := foldl (λ r m, loadMetric now clock gn m r) reg pms in
  (∀ gn', gn' ≠ gn → reg' !! gn' = reg !! gn') ∧
  (∀ mn, mn ∉ pm_name <$> pms → slot reg' gn mn = slot reg gn mn) ∧
  ((∀ pm, pm ∈ pms → is_counter pm → ready reg gn pm) → ∀ pm, pm ∈ pms → is_counter pm → loaded reg' gn pm).
Proof.
  revert reg. induction pms as [|m pms IH]; intros reg Hnd Hv; simpl.
  { split_and!; [done|done|]. intros _ pm Hpm. by apply elem_of_nil in Hpm. }
  rewrite fmap_cons in Hnd. apply NoDup_cons in Hnd as [Hm Hnd].
  destruct (loadMetric_spec now clock gn m reg) as (S1 & S2 & S3).
  destruct (IH (loadMetric now clock gn m reg) Hnd) as (I1 & I2 & I3); [intros pm Hpm; apply Hv; by right|].
  split_and!.
  - intros gn' Hne. by rewrite I1, S2.
  - intros mn Hmn. apply not_elem_of_cons in Hmn as [Hne Hmn]. rewrite I2 by done. apply S1. naive_solver.
  - intros Hr pm [->|Hpm]%elem_of_cons Hc.
    + apply (loaded_slot (loadMetric now clock gn m reg)); [by apply I2|].
      apply S3; [done|apply Hv; [left|done]|apply Hr; [left|done]].
    + apply I3; [|done|done]. intros pm' Hpm' Hc'. apply (ready_slot reg); [|apply Hr; [by right|done]].
      apply S1. intros [_ E]. apply Hm. rewrite <- E. by apply list_elem_of_fmap_2.
Qed.

Lemma registerMetric_spec gn pm reg :
  let reg' := registerMetric gn pm reg in
  (∀ gn', gn' ≠ gn → reg' !! gn' = reg !! gn') ∧
  (∀ mn, mn ≠ pm_name pm → slot reg' gn mn = slot reg gn mn) ∧
  (is_counter pm → pm_name pm ≠ "" → 0 ≤ pm_value pm → slot reg gn (pm_name pm) = None → ready reg' gn pm).
Proof.
  assert (Hreg : ∀ t, (∀ gn', gn' ≠ gn → RegisterMetric gn (pm_name pm) t reg !! gn' = reg !! gn') ∧
    (∀ mn, mn ≠ pm_name pm → slot (RegisterMetric gn (pm_name pm) t reg) gn mn = slot reg gn mn)).
  { intros t. split; [intros gn' Hne; unfold RegisterMetric; by rewrite lookup_insert_ne|].
    intros mn Hne. by rewrite slot_register, decide_False by naive_solver. }
  unfold registerMetric. case_bool_decide; [by split_and!|].
  destruct (pm_type pm) eqn:E; [|destruct (Hreg COUNTER)|destruct (Hreg COUNTER_TIME_SERIES)|]; split_and!; try done.
  - intros [Hc|Hc]; congruence.
  - intros _ _ Hv Hnone. eexists. rewrite slot_register, decide_True, Hnone by done. by rewrite E.
  - intros _ _ Hv Hnone. eexists. rewrite slot_register, decide_True, Hnone by done. by rewrite E.
  - intros [Hc|Hc]; congruence.
Qed.

(** Registering all the metrics of a group that is not there. *)
Lemma registerMetrics_spec gn pms reg :
  NoDup (pm_name <$> pms) → (∀ pm, pm ∈ pms → is_counter pm → pm_name pm ≠ "" ∧ 0 ≤ pm_value pm) →
  (∀ mn, mn ∈ pm_name <$> pms → slot reg gn mn = None) →
  let reg' := foldl (λ r m, registerMetric gn m r) reg pms in
  (∀ gn', gn' ≠ gn → reg' !! gn' = reg !! gn') ∧
  (∀ mn, mn ∉ pm_name <$> pms → slot reg' gn mn = slot reg gn mn) ∧
  ∀ pm, pm ∈ pms → is_counter pm → ready reg' gn pm.
Proof.
  revert reg. induction pms as [|m pms IH]; intros reg Hnd Hv Hnone; simpl.
  { split_and!; [done|done|]. intros pm Hpm. by apply elem_of_nil in Hpm. }
  rewrite fmap_cons in Hnd, Hnone. apply NoDup_cons in Hnd as [Hm Hnd].
  destruct (registerMetric_spec gn m reg) as (S1 & S2 & S3).
  destruct (IH (registerMetric gn m reg) Hnd) as (I1 & I2 & I3); [intros pm Hpm; apply Hv; by right| |].
  { intros mn Hmn. rewrite S2; [apply Hnone; by right|]. intros ->. done. }
  split_and!.
  - intros gn' Hne. by rewrite I1, S1.
  - intros mn Hmn. apply not_elem_of_cons in Hmn as [Hne Hmn]. rewrite I2 by done. by apply S2.
  - intros pm [->|Hpm]%elem_of_cons Hc; [|by apply I3].
    apply (ready_slot (registerMetric gn m reg)); [by apply I2|].
    destruct (Hv m ltac:(left) Hc) as [Hn Hv']. apply S3; [done|done|done|]. apply Hnone. left.
Qed.

Definition group_ready (reg : registry) (g : PbMetricGroup) : Prop :=
  ∀ pm, pm ∈ pg_metrics g → is_counter pm → ready reg (pg_name g) pm.
Definition group_loaded (reg : registry) (g : PbMetricGroup) : Prop :=
  ∀ pm, pm ∈ pg_metrics g → is_counter pm → loaded reg (pg_name g) pm.
(** The group is not there yet, or it has all the counters. *)
Definition group_start (reg : registry) (g : PbMetricGroup) : Prop := reg !! pg_name g = None ∨ group_ready reg g.

Lemma loadGroup_spec now clock reg g :
  pb_ok g →
  (∀ gn, gn ≠ pg_name g → loadGroup now clock reg g !! gn = reg !! gn) ∧
  (group_start reg g → group_ready (loadGroup now clock reg g) g) ∧
  (group_ready reg g → group_loaded (loadGroup now clock reg g) g).
Proof.
  intros (Hne & Hnd & Hv). unfold loadGroup, GetMetricGroupByName. rewrite bool_decide_false by done.
  destruct (reg !! pg_name g) as [g0|] eqn:E.
  - destruct (loadMetrics_spec now clock (pg_name g) (pg_metrics g) reg Hnd) as (L1 & L2 & L3);
      [intros pm Hpm Hc; by apply Hv|]. split_and!; [done| |done].
    intros [Hs|Hs]; [congruence|]. intros pm Hpm Hc. apply loaded_ready; [by apply Hv|]. by apply L3.
  - destruct (registerMetrics_spec (pg_name g) (pg_metrics g) reg Hnd) as (L1 & L2 & L3);
      [intros pm Hpm Hc; split; by apply Hv|intros mn _; unfold slot; by rewrite E|]. split_and!; [done|done|].
    intros Hr pm Hpm Hc. destruct (Hr pm Hpm Hc) as (c & Hs & _). apply slot_group in Hs as [? Hs]. congruence.
Qed.

Lemma group_same reg reg' g : reg' !! pg_name g = reg !! pg_name g →
  (group_start reg g → group_start reg' g) ∧ (group_ready reg g → group_ready reg' g) ∧
  (group_loaded reg g → group_loaded reg' g).
Proof.
  intros E. assert (Hs : ∀ mn, slot reg' (pg_name g) mn = slot reg (pg_name g) mn) by (intros; unfold slot; by rewrite E).
  assert (Hr : group_ready reg g → group_ready reg' g)
    by (intros H pm Hpm Hc; apply (ready_slot reg); [apply Hs|by apply H]).
  split_and!; [|done|].
  - intros [H|H]; [left; congruence|right; by apply Hr].
  - intros H pm Hpm Hc. apply (loaded_slot reg); [apply Hs|by apply H].
Qed.

(** A pass over groups with distinct names moves each of them one stage on. *)
Lemma loadGroups_stage (P Q : registry → PbMetricGroup → Prop) now clock gs :
  (∀ r r' g, r' !! pg_name g = r !! pg_name g → (P r g → P r' g) ∧ (Q r g → Q r' g)) →
  (∀ r g, pb_ok g → P r g → Q (loadGroup now clock r g) g) →
  NoDup (pg_name <$> gs) → Forall pb_ok gs → ∀ reg, Forall (P reg) gs → Forall (Q (loadGroups now clock gs reg)) gs.
Proof.
  intros Hframe Hstep. unfold loadGroups. induction gs as [|g gs IH]; intros Hnd Hok reg HP; [constructor|].
  rewrite fmap_cons in Hnd. apply NoDup_cons in Hnd as [Hg Hnd]. apply Forall_cons in Hok as [Hok Hoks].
  apply Forall_cons in HP as [HP HPs]. simpl.
  assert (Hfold : ∀ gs r, Forall pb_ok gs → pg_name g ∉ pg_name <$> gs →
    foldl (loadGroup now clock) r gs !! pg_name g = r !! pg_name g).
  { induction gs0 as [|g' gs0 IH0]; intros r Hoks0 Hin; [done|]. apply Forall_cons in Hoks0 as [Hok0 Hoks0].
    rewrite fmap_cons in Hin. apply not_elem_of_cons in Hin as [Hne Hin]. simpl. rewrite IH0 by done.
    by apply loadGroup_spec. }
  constructor.
  - apply (Hframe (loadGroup now clock reg g)); [by apply Hfold|]. by apply Hstep.
  - apply IH; [done|done|]. apply Forall_forall. intros g' Hg'. rewrite Forall_forall in HPs.
    apply (Hframe reg); [|by apply HPs]. apply loadGroup_spec; [done|]. intros E. apply Hg. rewrite <- E. by apply list_elem_of_fmap_2.
Qed.

(** Names are the keys and not empty, counters are not negative. *)
Definition registry_ok (reg : registry) : Prop :=
  ∀ gn g, reg !! gn = Some g → gn ≠ "" ∧ mg_name g = gn ∧
    ∀ mn m, mg_metrics g !! mn = Some m →
      match m with MCounter c => mn ≠ "" ∧ c_name c = mn ∧ 0 ≤ c_value c < 2 ^ 63 | MGauge g => g_name g = mn end.

Lemma registry_ok_register gn mn t reg : gn ≠ "" → mn ≠ "" → registry_ok reg → registry_ok (RegisterMetric gn mn t reg).
Proof.
  intros Hgn Hmn Hok gn' g'. unfold RegisterMetric. rewrite lookup_insert_Some. intros [[<- <-]|[Hne H]]; [|by apply Hok].
  assert (Hg : mg_name (default (mkGroup gn ∅ false) (reg !! gn)) = gn ∧ ∀ mn m, mg_metrics (default (mkGroup gn ∅ false) (reg !! gn)) !! mn = Some m →
    match m with MCounter c => mn ≠ "" ∧ c_name c = mn ∧ 0 ≤ c_value c < 2 ^ 63 | MGauge g => g_name g = mn end).
  { destruct (reg !! gn) as [g|] eqn:E; simpl; [by apply (Hok gn g)|]. split; [done|]. intros ? ?. by rewrite lookup_empty. }
  destruct Hg as [Hn Hg]. split; [done|]. split; [done|]. simpl. intros mn' m. rewrite lookup_insert_Some.
  intros [[<- <-]|[Hne H]]; [|by apply Hg]. unfold GetMetric. destruct (mg_metrics _ !! mn) as [m|] eqn:E; simpl; [by apply Hg|].
  by destruct t.
Qed.

Lemma ToMetricPB_name m mn :
  match m with MCounter c => mn ≠ "" ∧ c_name c = mn ∧ 0 ≤ c_value c < 2 ^ 63 | MGauge g => g_name g = mn end →
  pm_name (ToMetricPB m).1 = mn.
Proof. destruct m as [c|g]; [|done]. intros (_ & H & _). simpl. by destruct (c_timeSeries c). Qed.

Lemma dumpGroup_ok gn g reg : registry_ok reg → reg !! gn = Some g → pb_ok (dumpGroup g) ∧ pg_name (dumpGroup g) = gn.
Proof.
  intros Hok Hg. destruct (Hok gn g Hg) as (Hne & Hn & Hm). split; [|done]. split; [by rewrite <- Hn in Hne|]. split; simpl.
  - assert (pm_name <$> ((λ x, (ToMetricPB x.2).1) <$> map_to_list (mg_metrics g)) = (map_to_list (mg_metrics g)).*1) as ->;
      [|apply NoDup_fst_map_to_list].
    rewrite <- list_fmap_compose. apply list_fmap_ext. intros i [mn m] Hi. simpl. apply ToMetricPB_name, Hm.
    by apply elem_of_map_to_list, (list_elem_of_lookup_2 _ i).
  - intros pm ([mn m] & -> & Hin)%list_elem_of_fmap Hc. simpl in *. apply elem_of_map_to_list in Hin. specialize (Hm mn m Hin).
    rewrite (ToMetricPB_name m mn) by done. destruct m as [c|gg]; [|by destruct Hc].
    destruct Hm as (H1 & H2 & H3). split; [done|]. simpl. by destruct (c_timeSeries c).
Qed.

(** The counters that are there already when a dump is loaded: a group has all
    the counters of the dump, with smaller values, or none. *)
Definition compatible (reg0 reg : registry) : Prop :=
  ∀ gn, reg0 !! gn = None ∨ ∀ mn c, slot reg gn mn = Some (MCounter c) →
    ∃ c0, slot reg0 gn mn = Some (MCounter c0) ∧ c_name c0 = mn ∧ c_timeSeries c0 = c_timeSeries c ∧
      0 ≤ c_value c0 ≤ c_value c.

Lemma compatible_start reg0 reg gn g :
  registry_ok reg → compatible reg0 reg → reg !! gn = Some g → group_start reg0 (dumpGroup g).
Proof.
  intros Hok Hcomp Hg. destruct (Hok gn g Hg) as (Hne & Hn & Hm). unfold group_start. simpl. rewrite Hn.
  destruct (Hcomp gn) as [Hc|Hc]; [by left|right]. intros pm ([mn m] & -> & Hin)%list_elem_of_fmap Hpm. simpl in *.
  apply elem_of_map_to_list in Hin. specialize (Hm mn m Hin). destruct m as [c|gg]; [|by destruct Hpm].
  destruct Hm as (H1 & H2 & H3). destruct (Hc mn c) as (c0 & Hs & Hn0 & Ht0 & Hv0); [unfold slot; by rewrite Hg|].
  rewrite Hn. exists c0. simpl. rewrite <- Ht0 in *. destruct (c_timeSeries c0) eqn:E; simpl; rewrite H2; done.
Qed.

Lemma allMetrics_ok reg :
  registry_ok reg → Forall pb_ok (allMetrics reg) ∧ NoDup (pg_name <$> allMetrics reg).
Proof.
  intros Hok. unfold allMetrics. split.
  - apply Forall_forall. intros g ([gn g0] & -> & Hin%elem_of_map_to_list)%list_elem_of_fmap. by eapply dumpGroup_ok.
  - assert (pg_name <$> ((λ x, dumpGroup x.2) <$> map_to_list reg) = (map_to_list reg).*1) as ->; [|apply NoDup_fst_map_to_list].
    rewrite <- list_fmap_compose. apply list_fmap_ext. intros i [gn g] Hi. simpl.
    apply (dumpGroup_ok gn g reg Hok). by apply elem_of_map_to_list, (list_elem_of_lookup_2 _ i).
Qed.

(** a dump of the metrics restores them.  When the metrics are dumped and the
    dump is loaded into a registry, such as that of a new process, in which a
    group of the dump is missing or has all its counters, every counter of the
    dump, with its type, its value and its history, is in the registry. *)
Theorem dump_load_roundtrip marshal unmarshal now clock path reg reg0 file :
  (∀ gs, ∃ b, marshal gs = Ret b ∧ unmarshal b = Ret gs) → path ≠ "" → registry_ok reg → compatible reg0 reg →
  ∃ reg' file' r,
    DumpMetricsNow marshal path reg file = (Ret tt, (reg', file')) ∧
    LoadMetricsFromDump unmarshal now clock path file' reg0 = (Ret tt, r) ∧
    ∀ gn mn c, slot reg gn mn = Some (MCounter c) →
      ∃ c', slot r gn mn = Some (MCounter c') ∧ c_name c' = mn ∧ c_timeSeries c' = c_timeSeries c ∧
        c_value c' = c_value c ∧ c_history c' = (if c_timeSeries c then c_history c else []).
Proof.
  intros Hlaw Hpath Hok Hcomp. destruct (Hlaw (allMetrics reg)) as (b & Hm & Hu). destruct (allMetrics_ok reg Hok) as [Hpb Hnd].
  exists (dumpedGroup <$> reg), (Some b), (loadGroups now clock (allMetrics reg) (loadGroups now clock (allMetrics reg) reg0)).
  unfold DumpMetricsNow, LoadMetricsFromDump. rewrite !bool_decide_false, Hm, Hu by done. split; [done|]. split; [done|].
  assert (Hready : Forall (group_ready (loadGroups now clock (allMetrics reg) reg0)) (allMetrics reg)).
  { apply (loadGroups_stage group_start group_ready); [|by intros; apply loadGroup_spec|done|done|].
    - intros r r' g E. by destruct (group_same r r' g E) as (? & ? & _).
    - apply Forall_forall. intros g ([gn g0] & -> & Hin%elem_of_map_to_list)%list_elem_of_fmap. by eapply compatible_start. }
  assert (Hload : Forall (group_loaded (loadGroups now clock (allMetrics reg) (loadGroups now clock (allMetrics reg) reg0))) (allMetrics reg)).
  { apply (loadGroups_stage group_ready group_loaded); [|by intros; apply loadGroup_spec|done|done|done].
    intros r r' g E. by destruct (group_same r r' g E) as (_ & ? & ?). }
  intros gn mn c Hs. unfold slot in Hs. destruct (reg !! gn) as [g|] eqn:Hg; [|done]. simpl in Hs.
  destruct (Hok gn g Hg) as (_ & Hn & Hmet). destruct (Hmet mn _ Hs) as (_ & Hcn & _).
  rewrite Forall_forall in Hload. destruct (Hload (dumpGroup g)) with (pm := (ToMetricPB (MCounter c)).1) as (c' & F1 & F2 & F3 & F4 & F5).
  - apply list_elem_of_fmap. exists (gn, g). split; [done|]. by apply elem_of_map_to_list.
  - simpl. apply list_elem_of_fmap. exists (mn, MCounter c). split; [done|]. by apply elem_of_map_to_list.
  - unfold is_counter. simpl. destruct (c_timeSeries c); simpl; auto.
  - exists c'. simpl in *. rewrite Hn in F1.
    destruct (c_timeSeries c) eqn:E; simpl in *; rewrite Hcn in *; (split; [done|]); split_and!; try done; by destruct (c_timeSeries c').
Qed.

(** The readings of the clock within one pass matter: of two entries of the same
    millisecond the first is kept and the second, read one nanosecond later, is
    rolled up to a time before it. *)
Example rollup_between_ticks_unsorts :
  doRollUp (λ i, 3500 * Millisecond + Z.of_nat i) NO_ROLL_UP ROLL_UP_TO_SECOND rollUpToSecond Second
    [mkHistory 1500 7 NO_ROLL_UP; mkHistory 1500 8 NO_ROLL_UP] =
  [mkHistory 1500 7 NO_ROLL_UP; mkHistory 1000 8 ROLL_UP_TO_SECOND].
Proof. reflexivity. Qed.

(** ** Witnesses *)

(** Two additions, a day apart, with a roll-up at each thousandth call. *)
Definition demoClock (t : Z) : nat → nat → Z := λ _ _, t.
Definition demoOps : list counterOp :=
  [OpAdd 1500000 (1000 * Hour) (demoClock (1000 * Hour)); OpLoad; OpAdd 2500000 (1024 * Hour) (demoClock (1024 * Hour)); OpName].

Lemma demoOps_ok : ops_ok (1024 * Hour) 0 demoOps.
Proof.
  assert (Hc : ∀ t, t ≤ 1024 * Hour → clock_ok (1024 * Hour) (demoClock t)) by (intros t Ht k i; by split).
  simpl. split_and!; try done; apply Hc; done.
Qed.

Lemma counter_accounts_for_traffic_witness :
  ∃ c R, runCounterOps demoOps (mkCounter UserMetricUploadBytes 0 true [] 0) = Ret c ∧
    DeltaBetween (1023 * Hour) (1025 * Hour) c = Ret (R, countOp c) ∧ c_value c = 4000000 ∧ R ≤ 2500000.
Proof.
  destruct (counter_accounts_for_traffic UserMetricUploadBytes demoOps (1024 * Hour) 0 (1023 * Hour) (1025 * Hour))
    as (c & R & H1 & H2 & H3 & H4 & _).
  - exact demoOps_ok.
  - vm_compute. reflexivity.
  - vm_compute. discriminate.
  - vm_compute. discriminate.
  - exists c, R. split; [exact H1|]. split; [exact H2|]. split; [rewrite H3; vm_compute; reflexivity|].
    transitivity (bytesIn (1023 * Hour) (1025 * Hour) (eventsOf demoOps)); [apply H4|]. vm_compute. discriminate.
Defined.

Definition demoUp : Counter :=
  mkCounter UserMetricUploadBytes 4000000 true
    [mkHistory 3600000000 1500000 NO_ROLL_UP; mkHistory 3686400000 2500000 NO_ROLL_UP] 4.
Definition demoDown : Counter := mkCounter UserMetricDownloadBytes 0 true [] 0.
Definition demoGroup : MetricGroup :=
  mkGroup (UserMetricGroup "alice") (<[UserMetricUploadBytes := MCounter demoUp]> {[UserMetricDownloadBytes := MCounter demoDown]}) true.
Definition demoRegistry : registry := {[UserMetricGroup "alice" := demoGroup]}.

(** A quota of 2 MB for 2 days is used up, one of 3 MB in one day is not. *)
Lemma quota_enforced_witness :
  checkQuota (λ _, 1030 * Hour) demoRegistry {["alice" := [mkQuota 2 2]]} "alice" = Ret false ∧
  ∃ k q, [mkQuota 2 2] !! k = Some q ∧ limit q ≤ window (1030 * Hour) q 0 (eventsOf demoOps) (eventsOf []).
Proof.
  destruct (quota_enforced (1024 * Hour) (λ _, 1030 * Hour) demoRegistry {["alice" := [mkQuota 2 2]]} "alice" [mkQuota 2 2]
    demoGroup demoOps [] 0 0 demoUp demoDown) as [(b & H1 & H2 & _) _].
  - intros i. vm_compute. discriminate.
  - exact demoOps_ok.
  - exact I.
  - vm_compute. reflexivity.
  - vm_compute. reflexivity.
  - reflexivity.
  - reflexivity.
  - reflexivity.
  - reflexivity.
  - reflexivity.
  - constructor; [|constructor]. unfold quota_ok. simpl. lia.
  - assert (E : checkQuota (λ _, 1030 * Hour) demoRegistry {["alice" := [mkQuota 2 2]]} "alice" = Ret false)
      by (vm_compute; reflexivity).
    split; [exact E|]. apply H2. rewrite E in H1. by injection H1 as <-.
Defined.

Lemma long_quota_panics_witness :
  ∃ p, checkQuota (λ _, 1030 * Hour) demoRegistry {["alice" := [mkQuota 106752 2]]} "alice" = Panic p.
Proof.
  apply (long_quota_panics (λ _, 1030 * Hour) demoRegistry {["alice" := [mkQuota 106752 2]]} "alice" (mkQuota 106752 2) []
    demoGroup demoUp demoDown); [simpl; lia|simpl; lia|reflexivity..].
Defined.

(** Messages are countable, which gives a codec with the law that is assumed of
    protobuf. *)
#[global] Instance RollUpLabel_countable : Countable RollUpLabel.
Proof. solve_countable rank (λ z : Z, if z =? 0 then NO_ROLL_UP else if z =? 1 then ROLL_UP_TO_SECOND
  else if z =? 2 then ROLL_UP_TO_MINUTE else if z =? 3 then ROLL_UP_TO_HOUR else ROLL_UP_TO_DAY). Qed.
#[global] Instance History_eq_dec : EqDecision History.
Proof. solve_decision. Defined.
#[global] Instance History_countable : Countable History.
Proof. solve_countable (λ h, (TimeUnixMilli h, Delta h, RollUp h)) (λ '(a, b, c), mkHistory a b c). Qed.
#[global] Instance PbMetricType_countable : Countable PbMetricType.
Proof. solve_countable (λ t, match t with METRIC_UNSPECIFIED => 0 | METRIC_COUNTER => 1 | METRIC_COUNTER_TIME_SERIES => 2 | METRIC_GAUGE => 3 end)
  (λ z : Z, if z =? 0 then METRIC_UNSPECIFIED else if z =? 1 then METRIC_COUNTER else if z =? 2 then METRIC_COUNTER_TIME_SERIES else METRIC_GAUGE). Qed.
#[global] Instance PbMetric_eq_dec : EqDecision PbMetric.
Proof. solve_decision. Defined.
#[global] Instance PbMetric_countable : Countable PbMetric.
Proof. solve_countable (λ m, (pm_name m, pm_type m, pm_value m, pm_history m)) (λ '(a, b, c, d), mkPbMetric a b c d). Qed.
#[global] Instance PbMetricGroup_eq_dec : EqDecision PbMetricGroup.
Proof. solve_decision. Defined.
#[global] Instance PbMetricGroup_countable : Countable PbMetricGroup.
Proof. solve_countable (λ g, (pg_name g, pg_metrics g)) (λ '(a, b), mkPbMetricGroup a b). Qed.

Lemma demoRegistry_ok : registry_ok demoRegistry.
Proof.
  unfold demoRegistry. intros gn g [<- <-]%lookup_singleton_Some. split; [done|]. split; [done|]. simpl. intros mn m.
  rewrite lookup_insert_Some, lookup_singleton_Some. intros [[<- <-]|[_ [<- <-]]]; simpl; (split; [done|]); (split; [done|]); lia.
Qed.

(** Into a new process. *)
Lemma dump_load_roundtrip_witness :
  ∃ r c, (LoadMetricsFromDump demoUnmarshal 0 (demoClock 0) "metrics.pb"
      (DumpMetricsNow demoMarshal "metrics.pb" demoRegistry None).2.2 ∅).2 = r ∧
    slot r (UserMetricGroup "alice") UserMetricUploadBytes = Some (MCounter c) ∧ c_history c = c_history demoUp.
Proof.
  destruct (dump_load_roundtrip demoMarshal demoUnmarshal 0 (demoClock 0) "metrics.pb" demoRegistry ∅ None)
    as (reg' & file' & r & H1 & H2 & H3).
  - exact demo_marshal_unmarshal.
  - discriminate.
  - exact demoRegistry_ok.
  - intros gn. left. apply lookup_empty.
  - destruct (H3 (UserMetricGroup "alice") UserMetricUploadBytes demoUp) as (c & E & _ & _ & _ & Eh); [reflexivity|].
    exists r, c. rewrite H1. cbn [snd]. rewrite H2. split; [reflexivity|]. split; [exact E|exact Eh].
Defined.

End Metrics.
Export Metrics.
