(* ===== verification/Api.v ===== *)
(** * The client and server API: apis/client, apis/server, apis/internal/early_conn.go

    The objects that other programs embed.  A client or server owns muxes; they
    live in a store, since a second [Start] replaces the reference to the first
    one.  [EarlyConn] is a connection that sends the socks5 request together with
    the first data.  Dialers, listeners and resolvers are those of the mux. *)

From S2P Require Import Prelude Mathext Common Rng Cipher Segment SessionState Session Scheduler Socks Net SocksUDP Dns.
From S2P Require Import Auth Egress Interact SocksAuth SocksServer TrafficPattern Mux PortBinding ConfigServer ConfigClient ServerControl.
Local Open Scope Z_scope.

Module Api.

(** ** EarlyConn *)

Record EarlyConn := mkEarly {
  ec_conn : endpoint;
  ec_request : option Request;
  ec_peerResponse : option (Z * AddrSpec * bytes);
  ec_once : bool;                         (** [handshakeOnce] has run *)
  ec_handshakeErr : option goerr;
  ec_handshaked : bool                    (** the channel is closed *)
}.

Definition NewEarlyConn (conn : endpoint) : EarlyConn := mkEarly conn None None false None false.

Definition SetRequest (request : Request) (c : EarlyConn) : outcome EarlyConn :=
  if ec_handshaked c then Panic "can't set request when handshake already done"
  else Ret (mkEarly (ec_conn c) (Some request) (ec_peerResponse c) (ec_once c) (ec_handshakeErr c) (ec_handshaked c)).

Definition NeedHandshake (c : EarlyConn) : bool := negb (ec_handshaked c).

Definition PeerResponse (c : EarlyConn) : outcome (option (Z * AddrSpec * bytes)) :=
  match ec_request c with
  | None => Panic "can't get peer response when request is not set"
  | Some _ => Ret (ec_peerResponse c)
  end.

Definition doHandshakeAndWrite (request : option Request) (b : bytes) : prog (Z * AddrSpec * bytes) :=
  match request with
  | None => fail "request is not set"
  | Some request =>
      match writeRequest request with
      | Ret (_, raw) =>
          write! (raw ++ b) to Conn else fail "failed to write socks5 object to the connection: %w" in
          awaitResponse "failed to read socks5 response from the server: %w"
      | Err e => PRet (Err e)
      | Panic p => PRet (Panic p)
      end
  end.

(** A connection alone in the world of [run]. *)
Definition alone (e : endpoint) : world := mkWorld e (mkEnd [] [] [] 0 true) [].

Definition ec_setConn (e : endpoint) (c : EarlyConn) : EarlyConn :=
  mkEarly e (ec_request c) (ec_peerResponse c) (ec_once c) (ec_handshakeErr c) (ec_handshaked c).

Definition EWrite (b : bytes) (c : EarlyConn) : outcome Z * EarlyConn :=
  if ec_once c then
    match ec_handshakeErr c with
    | Some e => (Err e, c)
    | None =>
        let '(r, conn) := endWrite b (ec_conn c) in
        (match r with None => Ret (len b) | Some e => Err e end, ec_setConn conn c)
    end
  else
    match run (doHandshakeAndWrite (ec_request c) b) (alone (ec_conn c)) with
    | (Ret resp, w) => (Ret (len b), mkEarly (wConn w) (ec_request c) (Some resp) true None true)
    | (Err e, w) => (Err e, mkEarly (wConn w) (ec_request c) (ec_peerResponse c) true (Some e) true)
    | (Panic p, w) => (Panic p, ec_setConn (wConn w) c)
    end.

(** [None]: the call waits for the handshake. *)
Definition ERead (n : Z) (c : EarlyConn) : option (outcome bytes) * EarlyConn :=
  if ec_handshaked c then
    match ec_handshakeErr c with
    | Some e => (Some (Err e), c)
    | None => let '(r, conn) := endRead n (ec_conn c) in (Some r, ec_setConn conn c)
    end
  else (None, c).

Definition EClose (c : EarlyConn) : EarlyConn :=
  mkEarly (endClose (ec_conn c)) (ec_request c) (ec_peerResponse c) true (ec_handshakeErr c) (ec_handshaked c || negb (ec_once c)).

(** ** The client *)

Record ClientConfig := mkClientCfg {
  cfg_profile : option PbClientProfile;
  cfg_noWait : bool                       (** the handshake mode of the profile is HANDSHAKE_NO_WAIT *)
}.

Definition ErrNoClientConfig : goerr := Errorf "no client config".
Definition ErrInvalidClientConfig : goerr := Errorf "invalid client config".
Definition ErrClientIsNotRunning : goerr := Errorf "client is not running".
Definition ErrStoreClientConfigAfterStart : goerr := Errorf "can't store client config after start".
Definition ErrNoServerConfig : goerr := Errorf "no server config".
Definition ErrInvalidServerConfig : goerr := Errorf "invalid server config".

(** The state of a client or a server with a configuration of type [C]. *)
Record node (C V : Type) := mkNode {
  n_running : bool;
  n_config : option C;
  n_mux : option nat;
  n_muxes : gmap nat (Mux V);
  n_cache : fixedCache
}.
Arguments mkNode {C V}. Arguments n_running {C V}. Arguments n_config {C V}. Arguments n_mux {C V}.
Arguments n_muxes {C V}. Arguments n_cache {C V}.

Section Node.
Context {V T : Type} `{BTree T} `{MuxUnderlay V T}.
Context (net : muxNet) (dualStack : bool) (hostSeed idle : Z).

Definition newNode {C} : node C V := mkNode false None None ∅ ∅.

Definition newMuxId {C} (s : node C V) : nat := base.fresh (dom (D := gset nat) (n_muxes s)).

Definition ClientLoad (s : node ClientConfig V) : outcome ClientConfig :=
  match n_config s with None => Err ErrNoClientConfig | Some c => Ret c end.

Definition ClientStore (c : option ClientConfig) (s : node ClientConfig V) : outcome unit * node ClientConfig V :=
  match c with
  | None => (Err ErrInvalidClientConfig, s)
  | Some c =>
      match cfg_profile c with
      | None => (Err ErrInvalidClientConfig, s)
      | Some p =>
          if n_running s then (Err ErrStoreClientConfigAfterStart, s)
          else
            match ValidateClientConfigSingleProfile p with
            | Ret _ => (Ret tt, mkNode (n_running s) (Some c) (n_mux s) (n_muxes s) (n_cache s))
            | Err _ => (Err ErrInvalidClientConfig, s)
            | Panic m => (Panic m, s)
            end
      end
  end.

Definition ClientStart (s : node ClientConfig V) : outcome unit * node ClientConfig V :=
  match n_config s with
  | None => (Err ErrNoClientConfig, s)
  | Some c =>
      match cfg_profile c with
      | None => (Panic "nil pointer dereference", s)
      | Some p =>
          match NewClientMuxFromProfile net hostSeed p (n_cache s) with
          | Ret (mux, cache) =>
              (Ret tt, mkNode true (n_config s) (Some (newMuxId s)) (<[newMuxId s := mux]> (n_muxes s)) cache)
          | Err e => (Err e, s)
          | Panic m => (Panic m, s)
          end
      end
  end.

(** [Stop] of a client and of a server. *)
Definition NodeStop {C} (now : Z) (s : node C V) : outcome unit * node C V :=
  let s := mkNode false (n_config s) (n_mux s) (n_muxes s) (n_cache s) in
  match n_mux s with
  | None => (Ret tt, s)
  | Some id =>
      match n_muxes s !! id with
      | None => (Panic "nil pointer dereference", s)
      | Some mux =>
          match Close now mux with
          | Ret mux => (Ret tt, mkNode false (n_config s) (n_mux s) (<[id := mux]> (n_muxes s)) (n_cache s))
          | Err _ => (Ret tt, s)
          | Panic m => (Panic m, s)
          end
      end
  end.

(** What [DialContext] does with the connection: the handshake before it
    returns, or an [EarlyConn] with the request. *)
Inductive dialed := Handshake (isTCP isUDP : bool) (dst : AddrSpec) | Early (c : EarlyConn).

(** [addr] is the result of [netAddrSpec.From] on the destination: its network,
    as the first letters say, and its address; [conn] is the new connection. *)
Definition ClientDialContext (pbkdf2Key : bytes → bytes → Z → Z → bytes) (now : Z) (d : dialDraws) (conn : endpoint)
    (addr : outcome (bool * bool * AddrSpec)) (ciphers : cipherCache) (s : node ClientConfig V)
    : outcome dialed * (node ClientConfig V * cipherCache) :=
  if negb (n_running s) then (Err ErrClientIsNotRunning, (s, ciphers))
  else
    match addr with
    | Ret (isTCP, isUDP, dst) =>
        if negb isTCP && negb isUDP then (Err (Errorf "unsupported network type %s"), (s, ciphers))
        else
          match n_mux s ≫= λ id, (id,.) <$> n_muxes s !! id with
          | None => (Panic "nil pointer dereference", (s, ciphers))
          | Some (id, mux) =>
              let '(r, (mux, ciphers)) := DialContext idle pbkdf2Key net now d (mux, ciphers) in
              let s := mkNode (n_running s) (n_config s) (n_mux s) (<[id := mux]> (n_muxes s)) (n_cache s) in
              match r with
              | Ret _ =>
                  if match n_config s with Some c => cfg_noWait c | None => false end then
                    let cmd := if isTCP then Socks5ConnectCmd else Socks5UDPAssociateCmd in
                    match SetRequest (mkRequest cmd dst []) (NewEarlyConn conn) with
                    | Ret e => (Ret (Early e), (s, ciphers))
                    | Err e => (Err e, (s, ciphers))
                    | Panic m => (Panic m, (s, ciphers))
                    end
                  else (Ret (Handshake isTCP isUDP dst), (s, ciphers))
              | Err e => (Err e, (s, ciphers))
              | Panic m => (Panic m, (s, ciphers))
              end
          end
    | Err _ => (Err (Errorf "invalid destination address: %w"), (s, ciphers))
    | Panic m => (Panic m, (s, ciphers))
    end.

(** ** The server *)

Definition validateServerConfig (c : option PbServerConfig) : outcome unit :=
  match c with
  | None => Err (Errorf "server config is nil")
  | Some c =>
      if len (GetPortBindings c) =? 0 then Err (Errorf "server port bindings are not set")
      else
        let! _ := FlatPortBindings (GetPortBindings c) in
        if len (sc_users c) =? 0 then Err (Errorf "server users are not set")
        else
          let! _ := firstError ValidateServerConfigSingleUser (sc_users c) in
          match sc_egress c with
          | Some _ => Err (Errorf "egress is not allowed")
          | None =>
              match Validate (sc_trafficPattern c) with
              | Ret _ => Ret tt | Err _ => Err (Errorf "invalid traffic pattern: %w") | Panic m => Panic m
              end
          end
  end.

(** The configuration of a server, whose message may be missing. *)
Definition ServerStore (c : option (option PbServerConfig)) (s : node PbServerConfig V) : outcome unit * node PbServerConfig V :=
  match c with
  | None => (Err ErrInvalidServerConfig, s)
  | Some m =>
      match validateServerConfig m with
      | Ret _ => (Ret tt, mkNode (n_running s) m (n_mux s) (n_muxes s) (n_cache s))
      | Err _ => (Err ErrInvalidServerConfig, s)
      | Panic p => (Panic p, s)
      end
  end.

Definition ServerStart (s : node PbServerConfig V) : outcome unit * node PbServerConfig V :=
  match n_config s with
  | None => (Err ErrNoServerConfig, s)
  | Some c =>
      let id := newMuxId s in
      let put (running : bool) mux cache := mkNode running (n_config s) (Some id) (<[id := mux]> (n_muxes s)) cache in
      let mux := NewMux false in
      match NewConfig hostSeed (sc_trafficPattern c) (n_cache s) with
      | Ret (tp, cache) =>
          let mux := SetTrafficPattern (Some (Some (GetNonce (effective tp)))) mux in
          match (let! mux := SetServerUsers (muxUsers (sc_users c)) mux in SetServerUserHintIsMandatory (hintIsMandatory c) mux) with
          | Ret mux =>
              match PortBindingsToUnderlayProperties dualStack (GetPortBindings c) (mtuOf c) with
              | Ret endpoints =>
                  let mux := SetEndpoints net endpoints mux in
                  match Start net mux with
                  | (Ret _, mux) => (Ret tt, put true mux cache)
                  | (Err e, mux) => (Err e, put (n_running s) mux cache)
                  | (Panic p, mux) => (Panic p, put (n_running s) mux cache)
                  end
              | Err e => (Err e, put (n_running s) mux cache)
              | Panic p => (Panic p, put (n_running s) mux cache)
              end
          | Err e => (Err e, put (n_running s) mux cache)
          | Panic p => (Panic p, put (n_running s) mux cache)
          end
      | Err e => (Err e, put (n_running s) mux (n_cache s))
      | Panic p => (Panic p, put (n_running s) mux (n_cache s))
      end
  end.

(** [Accept] takes a connection of the mux and reads the request from it. *)
Definition ServerAccept (choice : acceptCase) (s : node PbServerConfig V) : option (outcome (nat * Z)) * node PbServerConfig V :=
  match n_mux s ≫= λ id, (id,.) <$> n_muxes s !! id with
  | None => (Some (Panic "nil pointer dereference"), s)
  | Some (id, mux) =>
      let '(r, mux) := Accept choice mux in
      (r, mkNode (n_running s) (n_config s) (n_mux s) (<[id := mux]> (n_muxes s)) (n_cache s))
  end.

Definition readAccepted : prog Request :=
  catch (readMessageP Conn) (λ r, match r with
  | Ret (cmd, dst, raw) => PRet (Ret (mkRequest cmd dst raw))
  | Err e => PRet (Err e)
  | Panic p => PRet (Panic p)
  end).
End Node.

(** ** Properties of EarlyConn *)

Lemma run_catch {A B} (p : prog A) (f : outcome A → prog B) w :
  run (catch p f) w = let '(r, w) := run p w in run (f r) w.
Proof.
  revert w. induction p as [r|c n k IH|c n k IH|c b k IH|c k IH|m k IH]; intros w; simpl; try done;
    [destruct (endReadFull _ _)|destruct (endRead _ _)|destruct (endWrite _ _)|..]; apply IH.
Qed.

Lemma run_await msg bind resp rest e wp cs :
  addr_ok bind → writeResponse (mkResponse 0 bind []) = Ret (mkResponse 0 bind resp, resp) →
  closed e = false → incoming e = resp ++ rest →
  run (awaitResponse msg) (mkWorld e wp cs) = (Ret (0, normalized bind, resp), mkWorld (withIncoming rest e) wp cs).
Proof.
  intros Hb Hw Hc Hi. destruct (writeAddr_wire bind Hb) as (w & Ew & Hwire).
  unfold writeResponse in Hw. cbn [BindAddr Reply] in Hw. rewrite Ew in Hw. cbn [obind] in Hw. injection Hw as Hresp.
  pose proof (consumes_readMessage Conn 0 0 (normalized bind) w Hwire) as Hcons. cbn [app] in Hcons. rewrite Hresp in Hcons.
  unfold awaitResponse. rewrite run_catch, (consumes_run _ _ _ _ rest _ Hcons) by done. done.
Qed.

Inductive earlyOp := EOWrite (b : bytes) | EORead (n : Z).

(** The calls of an application; the bytes that it has read are accumulated, and
    a call that waits or fails, other than at the end of the stream, is [None]. *)
Fixpoint runEarly (ops : list earlyOp) (got : bytes) (c : EarlyConn) : option (bytes * EarlyConn) :=
  match ops with
  | [] => Some (got, c)
  | EOWrite b :: ops =>
      match EWrite b c with (Ret n, c) => if n =? len b then runEarly ops got c else None | _ => None end
  | EORead n :: ops =>
      match ERead n c with
      | (Some (Ret b), c) => runEarly ops (got ++ b) c
      | (Some (Err ErrEOF), c) => runEarly ops got c
      | _ => None
      end
  end.

Definition writesOf (ops : list earlyOp) : list bytes := omap (λ o, match o with EOWrite b => Some b | _ => None end) ops.

Lemma runEarly_open ops : ∀ got c,
  ec_once c = true → ec_handshaked c = true → ec_handshakeErr c = None → closed (ec_conn c) = false →
  (length (writesOf ops) ≤ writesLeft (ec_conn c))%nat →
  ∃ more c', runEarly ops got c = Some (got ++ more, c') ∧
    written (ec_conn c') = written (ec_conn c) ++ concat (writesOf ops) ∧ more ++ incoming (ec_conn c') = incoming (ec_conn c).
Proof.
  induction ops as [|[b|n] ops IH]; intros got c Ho Hh He Hc Hw; simpl.
  - exists [], c. by rewrite !app_nil_r.
  - unfold EWrite. rewrite Ho, He. unfold endWrite. rewrite Hc. simpl in Hw. destruct (writesLeft (ec_conn c)) as [|k] eqn:E; [lia|].
    rewrite Z.eqb_refl. destruct (IH got (ec_setConn (mkEnd (incoming (ec_conn c)) (chunks (ec_conn c)) (written (ec_conn c) ++ b) k false) c))
      as (more & c' & Hr & H1 & H2); [done..|simpl; lia|]. exists more, c'. split; [done|]. simpl in *. by rewrite H1, <- app_assoc.
  - unfold ERead. rewrite Hh, He. unfold endRead. rewrite Hc. case_if; bool_to_Z.
    + destruct (IH got (ec_setConn (ec_conn c) c)) as (more & c' & Hr & H1 & H2); [done..|]. by exists more, c'.
    + set (m := Z.to_nat _). destruct (IH (got ++ take m (incoming (ec_conn c))) (ec_setConn (mkEnd (drop m (incoming (ec_conn c)))
        (tail (chunks (ec_conn c))) (written (ec_conn c)) (writesLeft (ec_conn c)) false) c)) as (more & c' & Hr & H1 & H2); [done..|].
      exists (take m (incoming (ec_conn c)) ++ more), c'. rewrite <- (app_assoc got) in Hr. split; [done|]. split; [done|].
      simpl in H2. rewrite <- app_assoc, H2. apply take_drop.
Qed.

Lemma runEarly_keeps ops : ∀ got c more c',
  ec_once c = true → runEarly ops got c = Some (more, c') →
  ec_request c' = ec_request c ∧ ec_peerResponse c' = ec_peerResponse c.
Proof.
  induction ops as [|[b|m] ops IH]; intros got c more c' Ho; simpl; [by intros [= _ <-]| |].
  - unfold EWrite. rewrite Ho. destruct (ec_handshakeErr c); [done|]. destruct (endWrite b (ec_conn c)) as [[err|] conn]; [done|].
    case_if; [|done]. intros Hr%IH; done.
  - unfold ERead. destruct (ec_handshaked c); [|done].
    destruct (ec_handshakeErr c) as [g|]; [destruct g; try done; by intros Hr%IH|].
    destruct (endRead m (ec_conn c)) as [[b|[]|] conn]; try done; by intros Hr%IH.
Qed.

(** the early handshake is transparent.  Before the first write a read
    waits.  The first write sends the request and the data in one message; when
    the server accepts, every write succeeds, the server gets the request and
    then all written bytes in order, and the application reads exactly what the
    server sends after its response. *)
Theorem early_conn_stream e req raw bind resp rest b0 ops c0 n :
  writeRequest req = Ret (mkRequest (Command req) (DstAddr req) raw, raw) → addr_ok bind →
  writeResponse (mkResponse 0 bind []) = Ret (mkResponse 0 bind resp, resp) →
  closed e = false → incoming e = resp ++ rest → (S (length (writesOf ops)) ≤ writesLeft e)%nat →
  SetRequest req (NewEarlyConn e) = Ret c0 →
  ERead n c0 = (None, c0) ∧
  ∃ got c', runEarly (EOWrite b0 :: ops) [] c0 = Some (got, c') ∧
    written (ec_conn c') = written e ++ raw ++ b0 ++ concat (writesOf ops) ∧ got ++ incoming (ec_conn c') = rest ∧
    PeerResponse c' = Ret (Some (0, normalized bind, resp)).
Proof.
  intros Hreq Hb Hresp Hc Hi Hw Hset. injection Hset as <-. split; [done|].
  destruct (writesLeft e) as [|k] eqn:Ek; [lia|].
  set (e1 := mkEnd (incoming e) (chunks e) (written e ++ raw ++ b0) k false).
  assert (Hrun : run (doHandshakeAndWrite (Some req) b0) (alone e) = (Ret (0, normalized bind, resp), alone (withIncoming rest e1))).
  { unfold doHandshakeAndWrite. rewrite Hreq. cbn [run]. unfold alone, endWrite. cbn [endOf wConn]. rewrite Hc, Ek.
    cbn [setEnd]. change (mkEnd _ _ _ k false) with e1. by apply run_await. }
  set (c1 := mkEarly (withIncoming rest e1) (Some req) (Some (0, normalized bind, resp)) true None true).
  assert (Hfirst : EWrite b0 (mkEarly e (Some req) None false None false) = (Ret (len b0), c1))
    by (unfold EWrite; cbn [ec_once ec_request ec_conn]; by rewrite Hrun).
  destruct (runEarly_open ops [] c1) as (more & c' & Hr & H1 & H2); [done..|simpl; lia|].
  exists more, c'. cbn [runEarly]. unfold SetRequest, NewEarlyConn in *. cbn in Hfirst |- *. rewrite Hfirst, Z.eqb_refl.
  split; [exact Hr|]. split; [rewrite H1; simpl; by rewrite <- !app_assoc|]. split; [exact H2|].
  apply runEarly_keeps in Hr as [E1 E2]; [|done]. unfold PeerResponse. by rewrite E1, E2.
Qed.

(** early data reaches the destination.  In the no-wait handshake mode the
    first write of the application, run against the socks5 server, behaves like
    the handshake of [PostDialHandshake], and in every case the data is what the
    server reads next: when the server copies to the destination, the data is
    the first thing it copies. *)
Theorem early_data_reaches_server net pref mode cfg creds user draw dst data :
  addr_ok dst → (∀ d l, dialTCP net d = inl l → addr_ok l) →
  action (policy cfg draw (envUser user) (normalized dst)) ≠ PROXY →
  ∃ fuel rc rs,
    duo fuel Conn Conn (doHandshakeAndWrite (Some (mkRequest Socks5ConnectCmd dst [])) data)
      (serverServeConn net pref mode cfg true creds user draw) [] [] = Some (rc, rs, [], data) ∧
    ((∃ d l raw, action (policy cfg draw (envUser user) (normalized dst)) = DIRECT ∧
        resolves net pref (normalized dst) d ∧ dialTCP net d = inl l ∧
        rs = Ret (CopyToTarget d) ∧ rc = Ret (0, normalized l, raw)) ∨
     (is_ret rs = false ∧ is_ret rc = false ∧
        (action (policy cfg draw (envUser user) (normalized dst)) = REJECT ∨
         ∀ d, resolves net pref (normalized dst) d → ∃ msg, dialTCP net d = inr msg))).
Proof.
  intros Hd Hl Hp. destruct (writeRequest_ret Socks5ConnectCmd dst Hd) as (b & Hb).
  destruct (request_served "failed to read socks5 response from the server: %w" data net pref mode cfg creds user draw
    dst b Hd Hl Hp Hb) as (fuel & rc & rs & E & Hr).
  exists (S fuel), rc, rs. split; [|exact Hr]. unfold doHandshakeAndWrite. rewrite Hb, duo_write_p. exact E.
Qed.

(** ** Properties of the client and the server *)

Section NodeProperties.
Context {V T : Type} `{BTree T} `{MuxUnderlay V T} `{!MuxUnderlayLaws V T}.
Context (net : muxNet) (dualStack : bool) (hostSeed idle : Z) (pbkdf2Key : bytes → bytes → Z → Z → bytes).

Inductive clientOp :=
| OStore (c : option ClientConfig) | OStart | OStop (now : Z)
| ODial (now : Z) (d : dialDraws) (conn : endpoint) (addr : outcome (bool * bool * AddrSpec)) (ciphers : cipherCache).

Definition clientStep (s : node ClientConfig V) (o : clientOp) : node ClientConfig V :=
  match o with
  | OStore c => (ClientStore c s).2
  | OStart => (ClientStart net hostSeed s).2
  | OStop now => (NodeStop now s).2
  | ODial now d conn addr ciphers => (ClientDialContext net idle pbkdf2Key now d conn addr ciphers s).2.1
  end.

(** The mux that [mux] is, for a configuration. *)
Definition serves (p : PbClientProfile) (mux : Mux V) : Prop :=
  dialGuards mux = None ∧ m_done mux = false ∧ m_username mux = pu_name (cp_user p) ∧
  userPassword (toUser (cp_user p)) = Some (m_password mux).

Definition runs_config (s : node ClientConfig V) : Prop :=
  ∃ c p id mux, n_config s = Some c ∧ cfg_profile c = Some p ∧ n_mux s = Some id ∧ n_muxes s !! id = Some mux ∧ serves p mux.

Record client_ok (s : node ClientConfig V) : Prop := {
  client_config : ∀ c, n_config s = Some c → ∃ p, cfg_profile c = Some p ∧ ValidateClientConfigSingleProfile p = Ret tt;
  client_running : n_running s = true → runs_config s;
  client_cache : Rng.cache_coherent string_bytes (n_cache s)
}.

Lemma clientKey_hex u k : clientKey u = Ret k → hexDecode (string_bytes (pu_hashedPassword u)) ≠ None.
Proof.
  unfold clientKey. case_bool_decide as E; simpl; [|by destruct (hexDecode _)]. by rewrite E.
Qed.

Lemma NewClientMux_hex p c r :
  NewClientMuxFromProfile (V := V) net hostSeed p c = Ret r → hexDecode (string_bytes (pu_hashedPassword (cp_user p))) ≠ None.
Proof.
  unfold NewClientMuxFromProfile. intros Hr. apply obind_ret_inv in Hr as ([cfg c1] & _ & Hr).
  apply obind_ret_inv in Hr as (k & Hk & _). by eapply clientKey_hex.
Qed.

Lemma client_ok_start s : client_ok s → client_ok (ClientStart net hostSeed s).2.
Proof.
  intros Hs. pose proof Hs as [Hcfg Hrun Hc]. unfold ClientStart. destruct (n_config s) as [c|] eqn:Ec; [|exact Hs].
  destruct (Hcfg c eq_refl) as (p & Hp & Hv). rewrite Hp.
  destruct (NewClientMuxFromProfile net hostSeed p (n_cache s)) as [[mux cache]| |] eqn:E; [|exact Hs..].
  destruct (profile_mux_ok (V := V) net hostSeed p (n_cache s) Hv (NewClientMux_hex _ _ _ E) Hc)
    as (m & c' & E' & G1 & [G2 G3] & G4 & _ & G5 & _). rewrite E in E'. injection E' as -> ->.
  split; simpl; [exact Hcfg| |done]. intros _. exists c, p, (newMuxId s), m. simpl.
  split_and!; [done..|apply lookup_insert_eq|]. done.
Qed.

Lemma client_ok_dial now d conn addr ciphers s :
  client_ok s → client_ok (ClientDialContext net idle pbkdf2Key now d conn addr ciphers s).2.1.
Proof.
  intros Hs. pose proof Hs as [Hcfg Hrun Hc]. unfold ClientDialContext. destruct (n_running s) eqn:Er; simpl; [|exact Hs].
  destruct (Hrun eq_refl) as (c & p & id & mux & H1 & H2 & H3 & H4 & H5).
  destruct addr as [[[tcp udp] dst]| |]; [|done..]. destruct (negb tcp && negb udp); [done|]. rewrite H3. simpl. rewrite H4. simpl.
  pose proof (DialContext_settings (V := V) idle pbkdf2Key net now d (mux, ciphers)) as Hset.
  destruct (DialContext idle pbkdf2Key net now d (mux, ciphers)) as [r [mux' ciphers']]. simpl in Hset.
  assert (Hs' : client_ok (mkNode true (n_config s) (Some id) (<[id := mux']> (n_muxes s)) (n_cache s))).
  { split; simpl; [done| |done]. intros _. exists c, p, id, mux'. simpl. split_and!; [done..|apply lookup_insert_eq|].
    unfold settings in Hset. injection Hset as E1 E2 E3 E4 E5 E6 E7 E8. destruct H5 as (G1 & G2 & G3 & G4).
    split_and!; [|congruence..]. unfold dialGuards in *. by rewrite E1, E2, E4. }
  destruct r; [|exact Hs'..]. simpl. rewrite H1. destruct (cfg_noWait c); simpl; rewrite <- H1; exact Hs'.
Qed.

Lemma client_ok_stop now s : client_ok s → client_ok (NodeStop now s).2.
Proof.
  intros [Hcfg Hrun Hc]. unfold NodeStop. simpl. destruct (n_mux s) as [id|]; [|by split].
  destruct (n_muxes s !! id) as [mux|]; [|by split]. destruct (Close now mux); by split.
Qed.

Lemma client_ok_store c s : client_ok s → client_ok (ClientStore c s).2.
Proof.
  intros Hs. pose proof Hs as [Hcfg Hrun Hc]. unfold ClientStore. destruct c as [c|]; [|done].
  destruct (cfg_profile c) as [p|] eqn:Ep; [|done]. destruct (n_running s) eqn:Er; [exact Hs|].
  destruct (ValidateClientConfigSingleProfile p) as [[]| |] eqn:Ev; [|exact Hs..].
  split; simpl; [|done|done]. intros c' [= <-]. by exists p.
Qed.

(** a running client always serves its current configuration.  Whatever
    sequence of Store, Start, Stop and DialContext was called, the stored
    configuration is valid, and while the client is running it owns a mux that
    is open, passes every check of [DialContext] and has the user and the key of
    exactly that configuration, which cannot be replaced meanwhile; when it is
    not running, dialing is refused. *)
Theorem client_serves_config os :
  let s := foldl clientStep newNode os in
  client_ok s ∧
  (n_running s = true → ∀ c, (ClientStore c s).2 = s ∧ is_ret (ClientStore c s).1 = false) ∧
  (n_running s = false → ∀ now d conn addr ciphers,
    ClientDialContext net idle pbkdf2Key now d conn addr ciphers s = (Err ErrClientIsNotRunning, (s, ciphers))).
Proof.
  intros s. split.
  - assert (Hnew : client_ok (newNode (C := ClientConfig) (V := V))) by (split; [done|done|apply empty_coherent]).
    subst s. induction os as [|o os IH] using rev_ind; [exact Hnew|]. rewrite foldl_app. simpl. destruct o.
    + by apply client_ok_store.
    + by apply client_ok_start.
    + by apply client_ok_stop.
    + by apply client_ok_dial.
  - split; [|intros Hr *; unfold ClientDialContext; by rewrite Hr].
    intros Hr c. unfold ClientStore. rewrite Hr. destruct c as [c|]; [|done]. by destruct (cfg_profile c).
Qed.

Lemma validateServerConfig_ret c :
  validateServerConfig (Some c) = Ret tt →
  ∃ flat, FlatPortBindings (GetPortBindings c) = Ret flat ∧ GetPortBindings c ≠ [] ∧ sc_users c ≠ [] ∧
    Validate (sc_trafficPattern c) = Ret tt.
Proof.
  unfold validateServerConfig. case_if; [done|]. intros Hv. apply obind_ret_inv in Hv as (flat & Hf & Hv).
  case_if_in Hv; [done|]. apply obind_ret_inv in Hv as (_ & _ & Hv). destruct (sc_egress c); [done|].
  destruct (Validate (sc_trafficPattern c)) as [[]| |]; [|done..]. exists flat. bool_to_Z.
  split_and!; try done; intros E; rewrite E in *; done.
Qed.

(** a configuration that the server API accepts can be started.  After a
    successful Store, Start succeeds: the server is running, and its mux has the
    users of the configuration and one endpoint for each port it binds, each with
    a listener unless [Accept] reports that one could not be created. *)
Theorem api_server_starts s s1 c :
  ServerStore (Some (Some c)) s = (Ret tt, s1) → Rng.cache_coherent string_bytes (n_cache s) →
  ∃ flat s2 id mux, FlatPortBindings (GetPortBindings c) = Ret flat ∧
    ServerStart net dualStack hostSeed s1 = (Ret tt, s2) ∧ n_running s2 = true ∧ n_config s2 = Some c ∧
    n_mux s2 = Some id ∧ n_muxes s2 !! id = Some mux ∧ m_users mux = muxUsers (sc_users c) ∧ m_used mux = true ∧
    m_done mux = false ∧ listens mux ∧ length (m_endpoints mux) = length flat.
Proof.
  unfold ServerStore. destruct (validateServerConfig (Some c)) as [[]| |] eqn:Hv; intros Hs Hc; simplify_eq.
  apply validateServerConfig_ret in Hv as (flat & Hf & Hne & Hu & Htp).
  assert (Htp' : Validate (Some (default emptyPattern (sc_trafficPattern c))) = Ret tt) by (by destruct (sc_trafficPattern c)).
  destruct (NewConfig_value hostSeed (sc_trafficPattern c) (n_cache s) Hc Htp') as (cache' & Hcfg & _).
  destruct (PortBindingsToUnderlayProperties_spec dualStack _ (mtuOf c) flat Hf) as (eps & Heps & Hlen & Hnil & _).
  assert (Hepsne : eps ≠ []).
  { pose proof (FlatPortBindings_nonempty _ _ Hf Hne) as Hfne. intros ->. by destruct flat. }
  unfold ServerStart. cbn [n_config n_cache n_running n_muxes]. rewrite Hcfg. simpl obind. rewrite Heps.
  unfold SetServerUserHintIsMandatory. cbn [m_isClient]. rewrite SetEndpoints_first by done. match goal with |- context [Start net ?m] =>
    destruct (Start_listens net m) as (m' & E & S1 & S2 & S3 & S4 & S5) end.
  { done. } { simpl. by apply muxUsers_nonempty. } { done. } { done. }
  { done. }
  rewrite E. eexists flat, _, _, m'. split; [done|]. split; [reflexivity|]. simpl. split_and!; try done.
  - apply lookup_insert_eq.
  - by rewrite S5.
Qed.

(** the server API stores a configuration while it is running.  The
    documentation of [Store] promises an error after start. *)
Lemma server_store_while_running (s : node PbServerConfig V) c :
  n_running s = true → validateServerConfig (Some c) = Ret tt →
  ServerStore (Some (Some c)) s = (Ret tt, mkNode true (Some c) (n_mux s) (n_muxes s) (n_cache s)).
Proof. intros Hr Hv. unfold ServerStore. by rewrite Hv, Hr. Qed.

(** stopping terminates established connections.  The documentation of [Stop]
    says that it does not; in fact every underlay of the mux is closed. *)
Lemma stop_closes_connections {C} now (s s' : node C V) id mux u :
  n_mux s = Some id → n_muxes s !! id = Some mux → m_done mux = false → is_ret (Close now mux) = true →
  NodeStop now s = (Ret tt, s') → u ∈ m_underlays mux →
  ∃ mux' e, n_muxes s' !! id = Some mux' ∧ m_store mux' !! u = Some e ∧ v_Done (und e) = true.
Proof.
  intros Hm Hl Hd Hret Hs Hu. unfold NodeStop in Hs. cbn [n_mux n_muxes n_config n_cache] in Hs. rewrite Hm, Hl in Hs.
  unfold Close in *. rewrite Hd in *. destruct (closeAll now (m_underlays mux) (m_store mux)) as [st| |] eqn:E; try done.
  simpl in Hs. simplify_eq. destruct (closeAll_done _ _ _ _ _ E Hu) as (e & He & Hdone).
  eexists _, e. simpl. rewrite lookup_insert_eq. by split_and!.
Qed.
End NodeProperties.

(** ** Witnesses *)

#[local] Existing Instance demoWriter.
#[local] Existing Instance demoUnderlay.
#[local] Existing Instance demoUnderlayLaws.

Definition demoBind : AddrSpec := mkAddr [] [10; 0; 0; 2] 40000.
Definition demoResp : bytes := [5; 0; 0; 1; 10; 0; 0; 2; 156; 64].
Definition demoReq : Request := mkRequest Socks5ConnectCmd (mkAddr [] [93; 184; 216; 34] 80) [].
Definition demoEnd : endpoint := mkEnd (demoResp ++ [1; 2; 3]) [] [] 5 false.

Lemma demoBind_ok : addr_ok demoBind.
Proof. split; [split; [discriminate|reflexivity]|left; reflexivity]. Qed.

Lemma early_conn_stream_witness :
  ∃ got c', runEarly [EOWrite [7]; EORead 2; EOWrite [8; 9]] [] (mkEarly demoEnd (Some demoReq) None false None false) = Some (got, c') ∧
    written (ec_conn c') = [5; 1; 0; 1; 93; 184; 216; 34; 0; 80] ++ [7; 8; 9] ∧ got ++ incoming (ec_conn c') = [1; 2; 3].
Proof.
  destruct (early_conn_stream demoEnd demoReq [5; 1; 0; 1; 93; 184; 216; 34; 0; 80] demoBind demoResp [1; 2; 3] [7]
    [EORead 2; EOWrite [8; 9]] (mkEarly demoEnd (Some demoReq) None false None false) 1) as (_ & got & c' & H1 & H2 & H3 & _).
  - reflexivity.
  - exact demoBind_ok.
  - reflexivity.
  - reflexivity.
  - reflexivity.
  - simpl. lia.
  - reflexivity.
  - exists got, c'. split; [exact H1|]. split; [exact H2|exact H3].
Defined.

Lemma early_data_reaches_server_witness :
  ∃ fuel rc rs, duo fuel Conn Conn (doHandshakeAndWrite (Some (mkRequest Socks5ConnectCmd (mkAddr (string_bytes "example.com") [] 80) [])) [71; 69; 84])
    (serverServeConn demoNet USE_FIRST_IP UDPAssociateModePacketOverStream
       (mkServerConfig ∅ (mkEgressConfig [] []) false) true [] "alice" 0) [] [] = Some (rc, rs, [], [71; 69; 84]).
Proof.
  destruct (early_data_reaches_server demoNet USE_FIRST_IP UDPAssociateModePacketOverStream
    (mkServerConfig ∅ (mkEgressConfig [] []) false) [] "alice" 0 (mkAddr (string_bytes "example.com") [] 80) [71; 69; 84])
    as (fuel & rc & rs & E & _).
  - split; [done|]. right. right. vm_compute. split; [reflexivity|split; discriminate].
  - intros d l. unfold demoNet. cbn [dialTCP]. destruct (Port d =? 80); [|discriminate]. intros E.
    injection E as <-. exact demoBind_ok.
  - vm_compute. discriminate.
  - exists fuel, rc, rs. exact E.
Defined.

Lemma api_server_starts_witness :
  ∃ s2, ServerStart (V := demoV) demoNetwork false 42 (ServerStore (Some (Some demoDst)) newNode).2 = (Ret tt, s2) ∧ n_running s2 = true.
Proof.
  destruct (api_server_starts (V := demoV) demoNetwork false 42 newNode (ServerStore (Some (Some demoDst)) newNode).2 demoDst)
    as (flat & s2 & id & mux & _ & H1 & H2 & _).
  - exact (ret_pair (ServerStore (Some (Some demoDst)) newNode) ltac:(vm_compute; reflexivity)).
  - exact empty_coherent.
  - exists s2. split; [exact H1|exact H2].
Defined.

End Api.
Export Api.
