(* ===== verification/Deque.v ===== *)
(** * The double-ended queue: pkg/deque/deque.go

    A ring buffer whose size is a power of two.  Indices wrap around with a bit
    mask.  [zero] is the zero value of the element type; reading or writing outside
    the buffer is a panic.  The refinement at the end relates every sequence of
    calls to the same calls on a list. *)

From S2P Require Import Prelude.
From Stdlib Require Import ZifyBool.
Local Open Scope Z_scope.

Module Deque.

Section Deque.
Context {T : Type} (zero : T).

(** ** Data *)

Definition minCapacity : Z := 16.

Record Deque := mkDeque { q_buf : list T; q_head : Z; q_tail : Z; q_count : Z; q_minCap : Z }.

Definition getAt (b : list T) (i : Z) : outcome T :=
  if i <? 0 then Panic "index out of range" else match b !! Z.to_nat i with Some x => Ret x | None => Panic "index out of range" end.
Definition setAt (b : list T) (i : Z) (x : T) : outcome (list T) :=
  if (i <? 0) || (len b <=? i) then Panic "index out of range" else Ret (<[Z.to_nat i := x]> b).
Definition make (n : Z) : list T := replicate (Z.to_nat n) zero.

Definition set_buf (b : list T) (q : Deque) : Deque := mkDeque b (q_head q) (q_tail q) (q_count q) (q_minCap q).
Definition set_minCap (m : Z) (q : Deque) : Deque := mkDeque (q_buf q) (q_head q) (q_tail q) (q_count q) m.

(** ** Creation *)

(** [for x < bound { x <<= 1 }]: at most 64 rounds until the bit is lost, after
    which the loop does not end. *)
Fixpoint double (fuel : nat) (x bound : Z) : option Z :=
  match fuel with
  | O => None
  | S fuel => if x <? bound then double fuel (i64 (Z.shiftl x 1)) bound else Some x
  end.

Definition New (size : list Z) : option Deque :=
  let capacity := default 0 (size !! 0%nat) in
  let minimum := default 0 (size !! 1%nat) in
  match double 64 minCapacity minimum with
  | None => None
  | Some minCap =>
      if capacity =? 0 then Some (mkDeque [] 0 0 0 minCap)
      else match double 64 minCap capacity with
           | None => None
           | Some bufSize => Some (mkDeque (make bufSize) 0 0 0 minCap)
           end
  end.

Definition Cap (q : Deque) : Z := len (q_buf q).
Definition Len (q : Deque) : Z := q_count q.

(** ** Positions and sizes *)

Definition modBits (q : Deque) : Z := len (q_buf q) - 1.
Definition prev (q : Deque) (i : Z) : Z := Z.land (i - 1) (modBits q).
Definition next (q : Deque) (i : Z) : Z := Z.land (i + 1) (modBits q).

(** [copy(dst[n:], src)]: as much as fits. *)
Definition copyAt (dst : list T) (n : Z) (src : list T) : list T :=
  take (Z.to_nat n) dst ++ take (length dst - Z.to_nat n) src ++ drop (Z.to_nat n + length src) dst.

Definition resize (q : Deque) : Deque :=
  let newBuf := make (Z.shiftl (q_count q) 1) in
  let newBuf :=
    if q_head q <? q_tail q
    then copyAt newBuf 0 (take (Z.to_nat (q_tail q - q_head q)) (drop (Z.to_nat (q_head q)) (q_buf q)))
    else
      let n := Z.min (len newBuf) (len (drop (Z.to_nat (q_head q)) (q_buf q))) in
      copyAt (copyAt newBuf 0 (drop (Z.to_nat (q_head q)) (q_buf q))) n (take (Z.to_nat (q_tail q)) (q_buf q)) in
  mkDeque newBuf 0 (q_count q) (q_count q) (q_minCap q).

Definition growIfFull (q : Deque) : Deque :=
  if negb (q_count q =? len (q_buf q)) then q
  else if len (q_buf q) =? 0 then
    let q := if q_minCap q =? 0 then set_minCap minCapacity q else q in
    set_buf (make (q_minCap q)) q
  else resize q.

Definition shrinkIfExcess (q : Deque) : Deque :=
  if (q_minCap q <? len (q_buf q)) && (Z.shiftl (q_count q) 2 =? len (q_buf q)) then resize q else q.

(** ** The ends *)

Definition PushBack (elem : T) (q : Deque) : outcome Deque :=
  let q := growIfFull q in
  let! b := setAt (q_buf q) (q_tail q) elem in
  Ret (mkDeque b (q_head q) (next q (q_tail q)) (q_count q + 1) (q_minCap q)).

Definition PushFront (elem : T) (q : Deque) : outcome Deque :=
  let q := growIfFull q in
  let head := prev q (q_head q) in
  let! b := setAt (q_buf q) head elem in
  Ret (mkDeque b head (q_tail q) (q_count q + 1) (q_minCap q)).

Definition PopFront (q : Deque) : outcome (T * Deque) :=
  if q_count q <=? 0 then Panic "deque: PopFront() called on empty queue"
  else
    let! ret := getAt (q_buf q) (q_head q) in
    let! b := setAt (q_buf q) (q_head q) zero in
    Ret (ret, shrinkIfExcess (mkDeque b (next q (q_head q)) (q_tail q) (q_count q - 1) (q_minCap q))).

Definition PopBack (q : Deque) : outcome (T * Deque) :=
  if q_count q <=? 0 then Panic "deque: PopBack() called on empty queue"
  else
    let tail := prev q (q_tail q) in
    let! ret := getAt (q_buf q) tail in
    let! b := setAt (q_buf q) tail zero in
    Ret (ret, shrinkIfExcess (mkDeque b (q_head q) tail (q_count q - 1) (q_minCap q))).

Definition Front (q : Deque) : outcome T :=
  if q_count q <=? 0 then Panic "deque: Front() called when empty" else getAt (q_buf q) (q_head q).
Definition Back (q : Deque) : outcome T :=
  if q_count q <=? 0 then Panic "deque: Back() called when empty" else getAt (q_buf q) (prev q (q_tail q)).

(** ** By index *)

Definition outOfRangeText : string := "deque: index out of range %d with length %d".

Definition At (i : Z) (q : Deque) : outcome T :=
  if (i <? 0) || (q_count q <=? i) then Panic outOfRangeText else getAt (q_buf q) (Z.land (q_head q + i) (modBits q)).

Definition Set_ (i : Z) (item : T) (q : Deque) : outcome Deque :=
  if (i <? 0) || (q_count q <=? i) then Panic outOfRangeText
  else let! b := setAt (q_buf q) (Z.land (q_head q + i) (modBits q)) item in Ret (set_buf b q).

Fixpoint clearLoop (n : nat) (i : Z) (q : Deque) : outcome Deque :=
  match n with
  | O => Ret q
  | S n => let! b := setAt (q_buf q) (Z.land (q_head q + i) (modBits q)) zero in clearLoop n (i + 1) (set_buf b q)
  end.
Definition Clear (q : Deque) : outcome Deque :=
  let! q := clearLoop (Z.to_nat (Len q)) 0 q in Ret (mkDeque (q_buf q) 0 0 0 (q_minCap q)).

(** One step of each rotation. *)
Definition rotateBack (q : Deque) : outcome Deque :=
  let head := Z.land (q_head q - 1) (modBits q) in
  let tail := Z.land (q_tail q - 1) (modBits q) in
  let! x := getAt (q_buf q) tail in
  let! b := setAt (q_buf q) head x in
  let! b := setAt b tail zero in
  Ret (mkDeque b head tail (q_count q) (q_minCap q)).
Definition rotateFront (q : Deque) : outcome Deque :=
  let! x := getAt (q_buf q) (q_head q) in
  let! b := setAt (q_buf q) (q_tail q) x in
  let! b := setAt b (q_head q) zero in
  Ret (mkDeque b (Z.land (q_head q + 1) (modBits q)) (Z.land (q_tail q + 1) (modBits q)) (q_count q) (q_minCap q)).
Fixpoint times (n : nat) (f : Deque → outcome Deque) (q : Deque) : outcome Deque :=
  match n with O => Ret q | S n => let! q := f q in times n f q end.

Definition Rotate (n : Z) (q : Deque) : outcome Deque :=
  if Len q <=? 1 then Ret q
  else
    let n := Z.rem n (q_count q) in
    if n =? 0 then Ret q
    else if q_head q =? q_tail q then
      let head := Z.land (q_head q + n) (modBits q) in
      Ret (mkDeque (q_buf q) head head (q_count q) (q_minCap q))
    else if n <? 0 then times (Z.to_nat (- n)) rotateBack q
    else times (Z.to_nat n) rotateFront q.

Fixpoint indexLoop (f : T → bool) (q : Deque) (idxs : list Z) : outcome Z :=
  match idxs with
  | [] => Ret (-1)
  | i :: idxs => let! x := getAt (q_buf q) (Z.land (q_head q + i) (modBits q)) in if f x then Ret i else indexLoop f q idxs
  end.
Definition Index (f : T → bool) (q : Deque) : outcome Z :=
  if 0 <? Len q then indexLoop f q (seqZ 0 (q_count q)) else Ret (-1).
Definition RIndex (f : T → bool) (q : Deque) : outcome Z :=
  if 0 <? Len q then indexLoop f q (rev (seqZ 0 (q_count q))) else Ret (-1).

(** ** In the middle *)

Definition swap (i j : Z) (q : Deque) : outcome Deque :=
  let! x := getAt (q_buf q) i in
  let! y := getAt (q_buf q) j in
  let! b := setAt (q_buf q) i y in
  let! b := setAt b j x in
  Ret (set_buf b q).

(** Swap with the neighbour that [move] gives, and go there. *)
Fixpoint carry (n : nat) (move : Deque → Z → Z) (pos : Z) (q : Deque) : outcome Deque :=
  match n with
  | O => Ret q
  | S n => let! q' := swap pos (move q pos) q in carry n move (move q pos) q'
  end.

Definition Insert (at_ : Z) (item : T) (q : Deque) : outcome Deque :=
  if (at_ <? 0) || (q_count q <? at_) then Panic outOfRangeText
  else if at_ * 2 <? q_count q then
    let! q := PushFront item q in carry (Z.to_nat at_) next (q_head q) q
  else
    let swaps := q_count q - at_ in
    let! q := PushBack item q in carry (Z.to_nat swaps) prev (prev q (q_tail q)) q.

Definition Remove (at_ : Z) (q : Deque) : outcome (T * Deque) :=
  if (at_ <? 0) || (Len q <=? at_) then Panic outOfRangeText
  else
    let rm := Z.land (q_head q + at_) (modBits q) in
    if at_ * 2 <? q_count q then let! q := carry (Z.to_nat at_) prev rm q in PopFront q
    else let! q := carry (Z.to_nat (q_count q - at_ - 1)) next rm q in PopBack q.

Definition SetMinCapacity (minCapacityExp : Z) (q : Deque) : Deque :=
  set_minCap (if minCapacity <? i64 (Z.shiftl 1 minCapacityExp) then i64 (Z.shiftl 1 minCapacityExp) else minCapacity) q.

(** * Properties *)

(** ** The ring as a rotated list *)

Lemma rotate_app (l1 l2 : list T) : rotate (length l1) (l1 ++ l2) = l2 ++ l1.
Proof.
  unfold rotate. destruct l2 as [|x l2].
  - rewrite app_nil_r, Nat.Div0.mod_same. cbn. apply app_nil_r.
  - rewrite Nat.mod_small by (rewrite length_app; cbn; lia). by rewrite drop_app_length, take_app_length.
Qed.

Lemma rotate_rotate (b : list T) h i : (h < length b)%nat → (i < length b)%nat →
  rotate (Z.to_nat ((Z.of_nat h + Z.of_nat i) `mod` len b)) b = rotate i (rotate h b).
Proof.
  intros Hh Hi. apply list_eq. intros j. pose proof (length_rotate b h) as Hl.
  destruct (decide (j < length b)%nat) as [Hj|Hj].
  - rewrite !lookup_rotate_r; rewrite ?Hl; try done.
    + f_equal. unfold rotate_nat_add, len. rewrite !Z2Nat.id by (apply Z.mod_pos_bound; lia). rewrite Zplus_mod_idemp_l, Zplus_mod_idemp_r. do 2 f_equal. lia.
    + apply rotate_nat_add_lt. lia.
  - rewrite !lookup_ge_None_2; rewrite ?length_rotate; try done; lia.
Qed.

(** A buffer of [2^k] elements with a position in it. *)
Definition sized (k : Z) (b : list T) (h : Z) : Prop := 4 ≤ k ∧ len b = 2 ^ k ∧ 0 ≤ h < 2 ^ k.

Lemma sized_get k b h i x : sized k b h → 0 ≤ i < 2 ^ k → rotate (Z.to_nat h) b !! Z.to_nat i = Some x → getAt b ((h + i) `mod` 2 ^ k) = Ret x.
Proof.
  intros (Hk & Hl & Hh) Hi Hx. unfold len in Hl. rewrite lookup_rotate_r in Hx by lia. unfold getAt.
  pose proof (Z.mod_pos_bound (h + i) (2 ^ k)). rewrite (proj2 (Z.ltb_ge _ _)) by lia.
  unfold rotate_nat_add in Hx. rewrite !Z2Nat.id in Hx by lia. rewrite Hl in Hx. by rewrite Hx.
Qed.

Lemma sized_set k b h i x : sized k b h → 0 ≤ i < 2 ^ k →
  ∃ b', setAt b ((h + i) `mod` 2 ^ k) x = Ret b' ∧ sized k b' h ∧ rotate (Z.to_nat h) b' = <[Z.to_nat i := x]> (rotate (Z.to_nat h) b).
Proof.
  intros (Hk & Hl & Hh) Hi. pose proof (Z.mod_pos_bound (h + i) (2 ^ k)). exists (<[Z.to_nat ((h + i) `mod` 2 ^ k) := x]> b). split_and!.
  - unfold setAt. rewrite Hl. by rewrite (proj2 (Z.ltb_ge _ _)), (proj2 (Z.leb_gt _ _)) by lia.
  - split_and!; try lia. unfold len in *. by rewrite length_insert.
  - rewrite <- rotate_insert_l by (unfold len in Hl; lia). do 2 f_equal. unfold rotate_nat_add. rewrite !Z2Nat.id by lia. unfold len in Hl. by rewrite Hl.
Qed.

Lemma sized_move k b h i : sized k b h → 0 ≤ i < 2 ^ k →
  sized k b ((h + i) `mod` 2 ^ k) ∧ rotate (Z.to_nat ((h + i) `mod` 2 ^ k)) b = rotate (Z.to_nat i) (rotate (Z.to_nat h) b).
Proof.
  intros (Hk & Hl & Hh) Hi. pose proof (Z.mod_pos_bound (h + i) (2 ^ k)). split; [split_and!; lia|].
  rewrite <- rotate_rotate by (unfold len in Hl; lia). do 2 f_equal. rewrite !Z2Nat.id by lia. by rewrite Hl.
Qed.

(** ** The representation *)

Definition zeros (n : Z) : list T := replicate (Z.to_nat n) zero.

(** The elements from the head on are those of the list, and all others zero. *)
Record ring (k : Z) (q : Deque) (l : list T) : Prop := {
  ring_sized : sized k (q_buf q) (q_head q);
  ring_count : q_count q = len l;
  ring_fits : len l ≤ 2 ^ k;
  ring_tail : q_tail q = (q_head q + len l) `mod` 2 ^ k;
  ring_view : rotate (Z.to_nat (q_head q)) (q_buf q) = l ++ zeros (2 ^ k - len l)
}.

Definition power (m : Z) : Prop := ∃ k, 4 ≤ k ∧ m = 2 ^ k.

Definition rep (q : Deque) (l : list T) : Prop :=
  (q = mkDeque [] 0 0 0 (q_minCap q) ∧ l = [] ∧ (q_minCap q = 0 ∨ power (q_minCap q))) ∨
  (power (q_minCap q) ∧ ∃ k, ring k q l).

Lemma land_size k (b : list T) x : len b = 2 ^ k → 4 ≤ k → Z.land x (len b - 1) = x `mod` 2 ^ k.
Proof. intros -> Hk. rewrite <- Z.land_ones by lia. f_equal. rewrite Z.ones_equiv. lia. Qed.

Lemma zeros_split n : 0 < n → zeros n = zero :: zeros (n - 1).
Proof. intros Hn. unfold zeros. by replace (Z.to_nat n) with (S (Z.to_nat (n - 1))) by lia. Qed.
Lemma zeros_snoc n : 0 < n → zeros n = zeros (n - 1) ++ [zero].
Proof. intros Hn. unfold zeros. change [zero] with (replicate 1 zero). rewrite <- replicate_add. f_equal. lia. Qed.

Section Ring.
Context {k : Z} {q : Deque} {l : list T} (R : ring k q l).

Lemma ring_land x : Z.land x (modBits q) = x `mod` 2 ^ k.
Proof. destruct (ring_sized _ _ _ R) as (Hk & Hl & _). by apply land_size. Qed.

Lemma ring_next i : next q ((q_head q + i) `mod` 2 ^ k) = (q_head q + (i + 1)) `mod` 2 ^ k.
Proof. unfold next. rewrite ring_land, Zplus_mod_idemp_l. f_equal. lia. Qed.
Lemma ring_prev i : prev q ((q_head q + i) `mod` 2 ^ k) = (q_head q + (i - 1)) `mod` 2 ^ k.
Proof. unfold prev. rewrite ring_land, Zminus_mod_idemp_l. f_equal. lia. Qed.
Lemma ring_head0 : q_head q = (q_head q + 0) `mod` 2 ^ k.
Proof. destruct (ring_sized _ _ _ R) as (_ & _ & Hh). rewrite Z.mod_small; lia. Qed.

Lemma ring_get i x : 0 ≤ i → l !! Z.to_nat i = Some x → getAt (q_buf q) ((q_head q + i) `mod` 2 ^ k) = Ret x.
Proof.
  intros Hi Hx. pose proof (lookup_lt_Some _ _ _ Hx). destruct R as [Hs _ Hf _ Hv]. unfold len in Hf. eapply sized_get; [exact Hs|lia|].
  rewrite Hv. by apply lookup_app_l_Some.
Qed.

(** Writing to an element of the list. *)
Lemma ring_set i x : 0 ≤ i < len l →
  ∃ b, setAt (q_buf q) ((q_head q + i) `mod` 2 ^ k) x = Ret b ∧ ring k (set_buf b q) (<[Z.to_nat i := x]> l).
Proof.
  intros Hi. destruct R as [Hs Hc Hf Ht Hv]. destruct (sized_set k _ _ i x Hs) as (b & Hb & Hs' & Hv'); [lia|]. exists b. split; [done|].
  unfold len in *. split; unfold len; rewrite ?length_insert; try done. cbn. rewrite Hv', Hv. rewrite insert_app_l by lia. done.
Qed.

Lemma ring_at_end i : 0 ≤ i → len l + i < 2 ^ k → rotate (Z.to_nat (q_head q)) (q_buf q) !! Z.to_nat (len l + i) = Some zero.
Proof.
  intros Hi Hl. rewrite (ring_view _ _ _ R), lookup_app_r by (unfold len in *; lia). apply lookup_replicate_2. unfold len in *. lia.
Qed.

End Ring.

Lemma ring_swap k q l i j x y : ring k q l → 0 ≤ i → 0 ≤ j → l !! Z.to_nat i = Some x → l !! Z.to_nat j = Some y →
  ∃ q', swap ((q_head q + i) `mod` 2 ^ k) ((q_head q + j) `mod` 2 ^ k) q = Ret q' ∧
    ring k q' (<[Z.to_nat j := x]> (<[Z.to_nat i := y]> l)) ∧ q_head q' = q_head q ∧ q_minCap q' = q_minCap q.
Proof.
  intros R Hi Hj Hx Hy. unfold swap. rewrite (ring_get R i x), (ring_get R j y) by done. cbn [obind].
  pose proof (lookup_lt_Some _ _ _ Hx). pose proof (lookup_lt_Some _ _ _ Hy).
  destruct (ring_set R i y) as (b & Hb & R'); [unfold len; lia|]. rewrite Hb. cbn [obind].
  destruct (ring_set R' j x) as (b' & Hb' & R''); [unfold len; rewrite length_insert; lia|]. cbn in Hb'. rewrite Hb'. cbn [obind].
  exists (set_buf b' q). done.
Qed.

(** Carrying an element towards the back, and towards the front. *)
Lemma carry_next k x l2 : ∀ q l1 l3, ring k q (l1 ++ x :: l2 ++ l3) →
  ∃ q', carry (length l2) next ((q_head q + len l1) `mod` 2 ^ k) q = Ret q' ∧ ring k q' (l1 ++ l2 ++ x :: l3) ∧ q_minCap q' = q_minCap q.
Proof.
  induction l2 as [|y l2 IH]; intros q l1 l3 R; [by exists q|]. cbn [carry length]. rewrite (ring_next R).
  destruct (ring_swap k q _ (len l1) (len l1 + 1) x y R) as (q' & Hs & R' & Hh & Hm); try (unfold len; lia).
  { unfold len. rewrite Nat2Z.id. by apply list_lookup_middle. }
  { unfold len. replace (Z.to_nat _) with (length l1 + 1)%nat by lia. by rewrite lookup_app_r, Nat.add_comm, Nat.add_sub by lia. }
  rewrite Hs. cbn [obind]. destruct (IH q' (l1 ++ [y]) l3) as (q'' & Hc & R'' & Hm').
  { replace ((l1 ++ [y]) ++ x :: l2 ++ l3) with (<[Z.to_nat (len l1 + 1) := x]> (<[Z.to_nat (len l1) := y]> (l1 ++ x :: (y :: l2) ++ l3))); [done|].
    unfold len. rewrite Nat2Z.id, insert_app_r_alt, Nat.sub_diag by lia. cbn. rewrite insert_app_r_alt by lia.
    replace (Z.to_nat _ - length l1)%nat with 1%nat by lia. cbn. by rewrite <- app_assoc. }
  exists q''. replace (len (l1 ++ [y])) with (len l1 + 1) in Hc by (unfold len; rewrite length_app; cbn; lia). rewrite Hh in Hc. rewrite Hc. split; [done|].
  split; [by rewrite <- app_assoc in R''|congruence].
Qed.

Lemma carry_prev k x l2 : ∀ q l1 l3, ring k q (l1 ++ l2 ++ x :: l3) →
  ∃ q', carry (length l2) prev ((q_head q + len (l1 ++ l2)) `mod` 2 ^ k) q = Ret q' ∧ ring k q' (l1 ++ x :: l2 ++ l3) ∧ q_minCap q' = q_minCap q.
Proof.
  induction l2 as [|y l2 IH] using rev_ind; intros q l1 l3 R; [rewrite app_nil_r; by exists q|]. rewrite length_app, Nat.add_comm. cbn [carry length Nat.add].
  rewrite (ring_prev R). set (i := len (l1 ++ l2)).
  assert (Hi : len (l1 ++ l2 ++ [y]) = i + 1) by (unfold i, len; rewrite !length_app; cbn; lia).
  assert (Hi' : Z.to_nat i = length (l1 ++ l2)) by (unfold i, len; lia). rewrite Hi.
  assert (El : l1 ++ (l2 ++ [y]) ++ x :: l3 = (l1 ++ l2) ++ y :: x :: l3) by (by rewrite <- !app_assoc). rewrite El in R.
  destruct (ring_swap k q _ (i + 1) i x y R) as (q' & Hs & R' & Hh & Hm); try (unfold i, len; lia).
  { replace (Z.to_nat _) with (length (l1 ++ l2) + 1)%nat by (unfold i, len; lia). by rewrite lookup_app_r, Nat.add_comm, Nat.add_sub by lia. }
  { rewrite Hi'. by apply list_lookup_middle. }
  replace (i + 1 - 1) with i by lia. rewrite Hs. cbn [obind]. destruct (IH q' l1 (y :: l3)) as (q'' & Hc & R'' & Hm').
  { replace (l1 ++ l2 ++ x :: y :: l3) with (<[Z.to_nat i := x]> (<[Z.to_nat (i + 1) := y]> ((l1 ++ l2) ++ y :: x :: l3))); [done|].
    replace (Z.to_nat (i + 1)) with (length (l1 ++ l2) + 1)%nat by (unfold i, len; lia). rewrite Hi', insert_app_r_alt by lia.
    replace (length (l1 ++ l2) + 1 - length (l1 ++ l2))%nat with 1%nat by lia. cbn. rewrite insert_app_r_alt, Nat.sub_diag by lia. cbn. by rewrite <- app_assoc. }
  exists q''. rewrite Hh in Hc. fold i in Hc. rewrite Hc. split; [done|]. split; [by rewrite <- app_assoc|congruence].
Qed.

(** ** Changing the size *)

Lemma copyAt_fits (d1 d2 src : list T) : (length src ≤ length d2)%nat → copyAt (d1 ++ d2) (len d1) src = d1 ++ src ++ drop (length src) d2.
Proof.
  intros Hl. unfold copyAt, len. rewrite Nat2Z.id, take_app_length, length_app. rewrite (take_ge src) by lia. do 2 f_equal.
  rewrite drop_app_ge by lia. f_equal. lia.
Qed.

Lemma rotate_0 (b : list T) : rotate 0 b = b.
Proof. unfold rotate. rewrite Nat.Div0.mod_0_l. cbn. apply app_nil_r. Qed.

Lemma rotate_small (b : list T) h : (h < length b)%nat → rotate h b = drop h b ++ take h b.
Proof. intros Hh. unfold rotate. by rewrite Nat.mod_small by lia. Qed.

(** The copied slices are the elements in order. *)
Lemma resize_copies k q l : ring k q l → 0 < len l →
  if q_head q <? q_tail q then take (Z.to_nat (q_tail q - q_head q)) (drop (Z.to_nat (q_head q)) (q_buf q)) = l
  else drop (Z.to_nat (q_head q)) (q_buf q) ++ take (Z.to_nat (q_tail q)) (q_buf q) = l.
Proof.
  intros [(Hk & Hn & Hh) Hc Hf Ht Hv] Hl. set (h := q_head q) in *. set (b := q_buf q) in *.
  rewrite rotate_small in Hv by (unfold len in Hn; lia).
  assert (Htail : q_tail q = if h + len l <? 2 ^ k then h + len l else h + len l - 2 ^ k).
  { rewrite Ht. case_if; [rewrite Z.mod_small; lia|]. rewrite <- (Z_mod_plus_full _ (-1)). rewrite Z.mod_small; lia. }
  assert (Hlen : len b = 2 ^ k) by done. unfold len in Hlen, Hl, Hf, Htail. apply (f_equal (take (length l))) in Hv. rewrite take_app_length in Hv.
  rewrite Htail. destruct (Z.ltb_spec (h + Z.of_nat (length l)) (2 ^ k)) as [Hlt|Hge].
  - rewrite (proj2 (Z.ltb_lt _ _)) by lia. rewrite take_app_le in Hv by (rewrite length_drop; lia). rewrite <- Hv at 2. f_equal. lia.
  - rewrite (proj2 (Z.ltb_ge _ _)) by lia. rewrite take_app_ge in Hv by (rewrite length_drop; lia). rewrite <- Hv at 2. f_equal.
    rewrite take_take. f_equal. rewrite length_drop. lia.
Qed.

Lemma resize_ring k k' q l : ring k q l → 0 < len l → 2 * len l = 2 ^ k' → 4 ≤ k' → ring k' (resize q) l.
Proof.
  intros R Hl Hk' H4. pose proof (resize_copies k q l R Hl) as Hcp. destruct R as [(Hk & Hn & Hh) Hc Hf Ht Hv].
  assert (Hb : q_buf (resize q) = l ++ zeros (len l)).
  { unfold resize. cbn [q_buf]. rewrite Hc, Z.shiftl_mul_pow2 by lia. change (2 ^ 1) with 2.
    assert (Hm : make (len l * 2) = zeros (len l) ++ zeros (len l)) by (unfold make, zeros; rewrite <- replicate_add; f_equal; lia).
    assert (Hd : ∀ s : list T, (length s ≤ length l)%nat → copyAt (make (len l * 2)) 0 s = s ++ replicate (2 * length l - length s) zero).
    { intros s Hs. change (make (len l * 2)) with ([] ++ make (len l * 2)). replace (copyAt ([] ++ make (len l * 2)) 0 s) with (copyAt ([] ++ make (len l * 2)) (len (@nil T)) s) by done. rewrite copyAt_fits.
      - cbn. f_equal. unfold make. rewrite drop_replicate. f_equal. unfold len. lia.
      - unfold make, len. rewrite length_replicate. lia. }
    destruct (q_head q <? q_tail q).
    - rewrite Hcp, Hd by lia. f_equal. unfold zeros, len. f_equal. lia.
    - set (s := drop (Z.to_nat (q_head q)) (q_buf q)) in *. pose proof (f_equal length Hcp) as Hlen. rewrite length_app in Hlen.
      rewrite Hd by lia. replace (Z.min _ _) with (len s) by (unfold make, len; rewrite length_replicate; lia).
      rewrite copyAt_fits by (rewrite length_replicate; lia). rewrite drop_replicate, app_assoc, Hcp. f_equal. unfold zeros, len. f_equal. lia. }
  split; cbn [resize q_head q_tail q_count]; rewrite ?Hb; try done; try lia.
  - split_and!; [done| |lia..]. unfold len in *. rewrite length_app. unfold zeros. rewrite length_replicate. lia.
  - rewrite Z.mod_small; lia.
  - rewrite rotate_0. do 2 f_equal. lia.
Qed.

Lemma minCap_resize q : q_minCap (resize q) = q_minCap q.
Proof. done. Qed.

Lemma power_16 m : power m → 16 ≤ m.
Proof. intros (k & Hk & ->). change 16 with (2 ^ 4). apply Z.pow_le_mono_r; lia. Qed.

Lemma shrink_rep k q l : power (q_minCap q) → ring k q l → rep (shrinkIfExcess q) l.
Proof.
  intros Hp R. right. unfold shrinkIfExcess.
  destruct ((q_minCap q <? len (q_buf q)) && (Z.shiftl (q_count q) 2 =? len (q_buf q))) eqn:E; [|by eauto]. apply andb_true_iff in E as [E1 E2]. split; [done|]. exists (k - 1).
  pose proof (power_16 _ Hp). destruct (ring_sized _ _ _ R) as (Hk & Hn & _). rewrite Z.shiftl_mul_pow2, (ring_count _ _ _ R) in E2 by lia.
  assert (k ≠ 4) by (intros ->; lia). assert (2 ^ k = 2 * 2 ^ (k - 1)) by (rewrite <- Z.pow_succ_r by lia; f_equal; lia).
  assert (0 < 2 ^ k) by (apply Z.pow_pos_nonneg; lia). apply (resize_ring k); [done|lia..].
Qed.

(** A fresh buffer. *)
Lemma fresh_ring k m : 4 ≤ k → ring k (mkDeque (make (2 ^ k)) 0 0 0 m) [].
Proof.
  intros Hk. assert (0 < 2 ^ k) by (apply Z.pow_pos_nonneg; lia). split; cbn; try done; try lia.
  - split_and!; [done| |lia..]. unfold make, len. rewrite length_replicate. lia.
  - change (len (@nil T)) with 0. lia.
  - rewrite rotate_0. unfold make, zeros. f_equal. change (len (@nil T)) with 0. lia.
Qed.

Lemma grow_ring q l : rep q l → ∃ k, ring k (growIfFull q) l ∧ len l < 2 ^ k ∧ power (q_minCap (growIfFull q)).
Proof.
  intros [(Hq & -> & Hm)|[Hp (k & R)]].
  - assert (Hg : growIfFull q = mkDeque (make (if q_minCap q =? 0 then 16 else q_minCap q)) 0 0 0 (if q_minCap q =? 0 then 16 else q_minCap q)).
    { rewrite Hq. unfold growIfFull. cbn. by destruct (q_minCap q =? 0). }
    rewrite Hg. cbn. set (m := if q_minCap q =? 0 then 16 else q_minCap q).
    assert (Hpm : power m) by (unfold m; case_if; [exists 4; split; [lia|done]|]; destruct Hm as [Hm|Hm]; [lia|done]).
    pose proof Hpm as (k & Hk & Hmk). exists k. rewrite Hmk at 1. split_and!; [by apply fresh_ring|apply Z.pow_pos_nonneg; lia|done].
  - destruct (ring_sized _ _ _ R) as (Hk & Hn & _). pose proof (ring_count _ _ _ R) as Hc. pose proof (ring_fits _ _ _ R) as Hf. unfold growIfFull.
    assert (0 < 2 ^ k) by (apply Z.pow_pos_nonneg; lia).
    destruct (Z.eqb_spec (q_count q) (len (q_buf q))) as [E|Hne]; cbn [negb]; [|exists k; split_and!; [done|lia|done]].
    destruct (Z.eqb_spec (len (q_buf q)) 0) as [E'|_]; [lia|]. assert (2 ^ (k + 1) = 2 * 2 ^ k) by (rewrite <- Z.pow_succ_r by lia; f_equal; lia).
    exists (k + 1). split_and!; [apply (resize_ring k); [done|lia..]|lia|done].
Qed.

(** ** The ends *)

Lemma push_back q l x : rep q l → ∃ q' k, PushBack x q = Ret q' ∧ ring k q' (l ++ [x]) ∧ power (q_minCap q').
Proof.
  intros (k & R & Hlt & Hp)%grow_ring. unfold PushBack. set (g := growIfFull q) in *. pose proof (ring_next R (len l)) as Hnext.
  destruct R as [Hs Hc Hf Ht Hv]. pose proof Hs as (Hk & Hn & Hh). destruct (sized_set k _ _ (len l) x Hs) as (b & Hb & Hs' & Hv'); [unfold len in *; lia|].
  rewrite Ht, Hb. cbn [obind]. eexists _, k. split; [done|]. split; [|done]. rewrite Hnext.
  assert (Hlen : len (l ++ [x]) = len l + 1) by (unfold len; rewrite length_app; cbn; lia).
  split; cbn [q_buf q_head q_tail q_count]; rewrite ?Hlen; try done; try lia.
  rewrite Hv', Hv, zeros_split by lia. unfold len. rewrite Nat2Z.id, insert_app_r_alt, Nat.sub_diag by lia. cbn. rewrite <- app_assoc. do 3 f_equal. lia.
Qed.

Lemma push_front q l x : rep q l → ∃ q' k, PushFront x q = Ret q' ∧ ring k q' (x :: l) ∧ power (q_minCap q').
Proof.
  intros (k & R & Hlt & Hp)%grow_ring. unfold PushFront. set (g := growIfFull q) in *.
  assert (Hprev : prev g (q_head g) = (q_head g + (2 ^ k - 1)) `mod` 2 ^ k).
  { unfold prev. rewrite (ring_land R). replace (q_head g + (2 ^ k - 1)) with (q_head g - 1 + 1 * 2 ^ k) by lia. by rewrite Z_mod_plus_full. }
  destruct R as [Hs Hc Hf Ht Hv]. pose proof Hs as (Hk & Hn & Hh). destruct (sized_move k _ _ (2 ^ k - 1) Hs) as [Hs1 Hv1]; [lia|].
  set (h := (q_head g + (2 ^ k - 1)) `mod` 2 ^ k) in *. destruct (sized_set k _ h 0 x Hs1) as (b & Hb & Hs2 & Hv2); [lia|].
  rewrite Z.add_0_r, (Z.mod_small h) in Hb by (destruct Hs1 as (_ & _ & ?); lia). rewrite Hprev, Hb. cbn [obind]. eexists _, k. split; [done|]. split; [|done].
  assert (Hlen : len (x :: l) = len l + 1) by (unfold len; cbn; lia). split; cbn [q_buf q_head q_tail q_count]; rewrite ?Hlen; try done; try lia.
  - rewrite Ht. unfold h. rewrite Zplus_mod_idemp_l. replace (q_head g + (2 ^ k - 1) + (len l + 1)) with (q_head g + len l + 1 * 2 ^ k) by lia. by rewrite Z_mod_plus_full.
  - rewrite Hv2, Hv1, Hv, zeros_snoc, app_assoc by lia. replace (Z.to_nat (2 ^ k - 1)) with (length (l ++ zeros (2 ^ k - len l - 1)))
      by (unfold zeros, len; rewrite length_app, length_replicate; unfold len in *; lia). rewrite rotate_app. by replace (2 ^ k - (len l + 1)) with (2 ^ k - len l - 1) by lia.
Qed.

Lemma pop_front k q x l : power (q_minCap q) → ring k q (x :: l) → ∃ q', PopFront q = Ret (x, q') ∧ rep q' l.
Proof.
  intros Hp R. unfold PopFront. rewrite (ring_count _ _ _ R). assert (Hlen : len (x :: l) = len l + 1) by (unfold len; cbn; lia).
  rewrite Hlen. rewrite (proj2 (Z.leb_gt _ _)) by (unfold len; lia). pose proof (ring_get R 0 x ltac:(lia) eq_refl) as Hget. rewrite <- (ring_head0 R) in Hget. rewrite Hget. cbn [obind].
  pose proof (ring_next R 0) as Hnext. pose proof (ring_head0 R) as Hh0. rewrite <- Hh0 in Hnext.
  destruct R as [Hs Hc Hf Ht Hv]. rewrite Hlen in *. pose proof Hs as (Hk & Hn & Hh). assert (16 ≤ 2 ^ k) by (apply power_16; by exists k).
  destruct (sized_set k _ _ 0 zero Hs) as (b & Hb & Hs1 & Hv1); [lia|]. rewrite <- Hh0 in Hb. rewrite Hb. cbn [obind]. eexists. split; [done|]. apply (shrink_rep k); [done|].
  destruct (sized_move k b (q_head q) 1 Hs1) as [Hs2 Hv2]; [lia|]. rewrite Hnext. split; cbn [q_buf q_head q_tail q_count]; try done; try lia.
  - rewrite Ht, Zplus_mod_idemp_l. f_equal. lia.
  - change (0 + 1) with 1. rewrite Hv2, Hv1, Hv. change (Z.to_nat 0) with 0%nat. change (Z.to_nat 1) with (length [zero]). cbn [app list_insert insert].
    change (zero :: l ++ zeros (2 ^ k - (len l + 1))) with ([zero] ++ (l ++ zeros (2 ^ k - (len l + 1)))). rewrite rotate_app, <- app_assoc. f_equal.
    rewrite (zeros_snoc (2 ^ k - len l)) by lia. do 2 f_equal. lia.
Qed.

Lemma pop_back k q x l : power (q_minCap q) → ring k q (l ++ [x]) → ∃ q', PopBack q = Ret (x, q') ∧ rep q' l.
Proof.
  intros Hp R. unfold PopBack. rewrite (ring_count _ _ _ R). assert (Hlen : len (l ++ [x]) = len l + 1) by (unfold len; rewrite length_app; cbn; lia).
  rewrite Hlen. rewrite (proj2 (Z.leb_gt _ _)) by (unfold len; lia). rewrite (ring_tail _ _ _ R), (ring_prev R), Hlen. replace (len l + 1 - 1) with (len l) by lia.
  rewrite (ring_get R (len l) x); [|unfold len; lia|unfold len; rewrite Nat2Z.id; by apply list_lookup_middle]. cbn [obind].
  destruct R as [Hs Hc Hf Ht Hv]. rewrite Hlen in *. pose proof Hs as (Hk & Hn & Hh).
  destruct (sized_set k _ _ (len l) zero Hs) as (b & Hb & Hs1 & Hv1); [unfold len in *; lia|]. rewrite Hb. cbn [obind]. eexists. split; [done|]. apply (shrink_rep k); [done|].
  split; cbn [q_buf q_head q_tail q_count]; try done; try lia.
  rewrite Hv1, Hv, <- app_assoc. unfold len. rewrite Nat2Z.id, insert_app_r_alt, Nat.sub_diag by lia. cbn. f_equal. fold (len l).
  rewrite (zeros_split (2 ^ k - len l)) by lia. do 2 f_equal. lia.
Qed.

(** ** Creation and clearing *)

Lemma double_power fuel : ∀ j bound, 4 ≤ j ≤ 62 → 62 < j + Z.of_nat fuel → bound ≤ 2 ^ 62 →
  ∃ j', double fuel (2 ^ j) bound = Some (2 ^ j') ∧ 4 ≤ j' ≤ 62.
Proof.
  induction fuel as [|fuel IH]; intros j bound Hj Hf Hb; [lia|]. cbn [double]. destruct (Z.ltb_spec (2 ^ j) bound) as [Hlt|Hge]; [|by exists j].
  assert (j < 62). { destruct (decide (j = 62)) as [->|]; lia. }
  rewrite Z.shiftl_mul_pow2 by lia. change (2 ^ 1) with 2. replace (2 ^ j * 2) with (2 ^ (j + 1)) by (rewrite Z.pow_add_r by lia; lia).
  rewrite i64_small; [apply IH; lia|]. assert (2 ^ (j + 1) ≤ 2 ^ 62) by (apply Z.pow_le_mono_r; lia). assert (0 < 2 ^ (j + 1)) by (apply Z.pow_pos_nonneg; lia). lia.
Qed.

Lemma New_rep size : Forall (λ n, n ≤ 2 ^ 62) size → ∃ q, New size = Some q ∧ rep q [].
Proof.
  intros Hs. assert (Hd : ∀ i, default 0 (size !! i) ≤ 2 ^ 62).
  { intros i. destruct (size !! i) eqn:E; cbn; [|lia]. by apply (Forall_lookup_1 _ _ _ _ Hs E). }
  unfold New. destruct (double_power 64 4 (default 0 (size !! 1%nat))) as (m & Hm & Hm4); [lia..|apply Hd|].
  change minCapacity with (2 ^ 4). rewrite Hm. destruct (default 0 (size !! 0%nat) =? 0).
  - eexists. split; [done|]. left. split_and!; [done..|]. right. exists m. split; [lia|done].
  - destruct (double_power 64 m (default 0 (size !! 0%nat))) as (k & Hk & Hk4); [lia..|apply Hd|]. rewrite Hk. eexists. split; [done|].
    right. split; [exists m; split; [lia|done]|]. exists k. apply fresh_ring. lia.
Qed.

Lemma clear_loop k n : ∀ i q l, ring k q l → 0 ≤ i → i + Z.of_nat n = len l →
  ∃ q', clearLoop n i q = Ret q' ∧ ring k q' (take (Z.to_nat i) l ++ replicate n zero) ∧ q_minCap q' = q_minCap q.
Proof.
  induction n as [|n IH]; intros i q l R Hi Hn; cbn [clearLoop].
  { exists q. split; [done|]. split; [|done]. rewrite take_ge by (unfold len in Hn; lia). by rewrite app_nil_r. }
  rewrite (ring_land R). destruct (ring_set R i zero) as (b & Hb & R'); [lia|]. rewrite Hb. cbn [obind].
  destruct (IH (i + 1) _ _ R') as (q' & Hc & R'' & Hm); [lia|unfold len in *; rewrite length_insert; lia|]. exists q'. split; [done|]. split; [|done].
  replace (take (Z.to_nat i) l ++ replicate (S n) zero) with (take (Z.to_nat (i + 1)) (<[Z.to_nat i := zero]> l) ++ replicate n zero); [done|].
  replace (Z.to_nat (i + 1)) with (S (Z.to_nat i)) by lia. rewrite (take_S_r _ _ zero) by (apply list_lookup_insert_eq; unfold len in Hn; lia).
  rewrite take_insert_ge by lia. by rewrite <- app_assoc.
Qed.

Lemma clear_rep q l : rep q l → ∃ q', Clear q = Ret q' ∧ rep q' [] ∧ Cap q' = Cap q.
Proof.
  intros [(Hq & -> & Hm)|[Hp (k & R)]].
  { exists q. rewrite Hq. split; [done|]. split; [by left|done]. }
  unfold Clear, Len. rewrite (ring_count _ _ _ R). destruct (clear_loop k (Z.to_nat (len l)) 0 q l R) as (q' & Hc & R' & Hm); [lia|unfold len; lia|].
  rewrite Hc. cbn [obind]. eexists. split; [done|]. destruct R' as [(Hk & Hn & Hh) _ _ _ Hv]. cbn in Hv.
  assert (Hz : q_buf q' = make (2 ^ k)).
  { unfold make. symmetry. apply replicate_as_elem_of. split; [unfold len in Hn; lia|]. intros y Hy. apply (elem_of_rotate _ (Z.to_nat (q_head q'))) in Hy.
    rewrite Hv in Hy. by apply elem_of_app in Hy as [Hy|Hy]; apply elem_of_replicate_inv in Hy. }
  split.
  - right. cbn. rewrite Hm. split; [done|]. exists k. rewrite Hz. by apply fresh_ring.
  - unfold Cap. cbn. rewrite Hn. by destruct (ring_sized _ _ _ R) as (_ & -> & _).
Qed.

(** ** Rotation *)

Lemma rotate_front k q x l : ring k q (x :: l) → len (x :: l) < 2 ^ k →
  ∃ q', rotateFront q = Ret q' ∧ ring k q' (l ++ [x]) ∧ q_minCap q' = q_minCap q.
Proof.
  intros R Hlt. assert (Hlen : len (x :: l) = len l + 1) by (unfold len; cbn; lia). assert (Hlen' : len (l ++ [x]) = len l + 1) by (unfold len; rewrite length_app; cbn; lia).
  unfold rotateFront. pose proof (ring_get R 0 x ltac:(lia) eq_refl) as Hget. pose proof (ring_head0 R) as Hh0. rewrite <- Hh0 in Hget. rewrite Hget. cbn [obind].
  rewrite !(ring_land R). destruct R as [Hs Hc Hf Ht Hv]. rewrite Hlen in *. pose proof Hs as (Hk & Hn & Hh).
  destruct (sized_set k _ _ (len l + 1) x Hs) as (b & Hb & Hs1 & Hv1); [unfold len in *; lia|]. rewrite Ht, Hb. cbn [obind].
  destruct (sized_set k _ _ 0 zero Hs1) as (b2 & Hb2 & Hs2 & Hv2); [lia|]. rewrite <- Hh0 in Hb2. rewrite Hb2. cbn [obind].
  destruct (sized_move k b2 (q_head q) 1 Hs2) as [Hs3 Hv3]; [unfold len in *; lia|]. eexists. split; [done|]. split; [|done].
  split; cbn [q_buf q_head q_tail q_count]; rewrite ?Hlen'; try done; try lia.
  - rewrite !Zplus_mod_idemp_l. f_equal. lia.
  - rewrite Hv3, Hv2, Hv1, Hv, zeros_split by lia. change (Z.to_nat 0) with 0%nat. change (Z.to_nat 1) with (length [zero]).
    replace (Z.to_nat (len l + 1)) with (length (x :: l)) by (unfold len; cbn; lia). rewrite insert_app_r_alt, Nat.sub_diag by lia. cbn [insert list_insert app].
    change (zero :: l ++ ?r) with ([zero] ++ (l ++ r)). rewrite rotate_app, <- !app_assoc. rewrite <- zeros_split, (zeros_snoc (2 ^ k - (len l + 1))) by lia. done.
Qed.

Lemma rotate_back k q x l : ring k q (l ++ [x]) → len (l ++ [x]) < 2 ^ k →
  ∃ q', rotateBack q = Ret q' ∧ ring k q' (x :: l) ∧ q_minCap q' = q_minCap q.
Proof.
  intros R Hlt. assert (Hlen : len (x :: l) = len l + 1) by (unfold len; cbn; lia). assert (Hlen' : len (l ++ [x]) = len l + 1) by (unfold len; rewrite length_app; cbn; lia).
  unfold rotateBack. rewrite !(ring_land R), (ring_tail _ _ _ R), Hlen'. rewrite Zminus_mod_idemp_l. replace (q_head q + (len l + 1) - 1) with (q_head q + len l) by lia.
  rewrite (ring_get R (len l) x); [|unfold len; lia|unfold len; rewrite Nat2Z.id; by apply list_lookup_middle]. cbn [obind].
  replace (q_head q - 1) with (q_head q + (2 ^ k - 1) + (-1) * 2 ^ k) by lia. rewrite Z_mod_plus_full.
  destruct R as [Hs Hc Hf Ht Hv]. rewrite Hlen' in *. pose proof Hs as (Hk & Hn & Hh).
  destruct (sized_set k _ _ (2 ^ k - 1) x Hs) as (b & Hb & Hs1 & Hv1); [unfold len in *; lia|]. rewrite Hb. cbn [obind].
  destruct (sized_set k _ _ (len l) zero Hs1) as (b2 & Hb2 & Hs2 & Hv2); [unfold len in *; lia|]. rewrite Hb2. cbn [obind].
  destruct (sized_move k b2 (q_head q) (2 ^ k - 1) Hs2) as [Hs3 Hv3]; [lia|]. eexists. split; [done|]. split; [|done].
  split; cbn [q_buf q_head q_tail q_count]; rewrite ?Hlen; try done; try lia.
  - rewrite Zplus_mod_idemp_l. replace (q_head q + (2 ^ k - 1) + (len l + 1)) with (q_head q + len l + 1 * 2 ^ k) by lia. by rewrite Z_mod_plus_full.
  - rewrite Hv3, Hv2, Hv1, Hv, zeros_snoc by lia. set (m := zeros (2 ^ k - (len l + 1) - 1)).
    assert (Hm : length m = Z.to_nat (2 ^ k - len l - 2)) by (unfold m, zeros; rewrite length_replicate; f_equal; lia).
    rewrite <- !app_assoc. replace (l ++ [x] ++ m ++ [zero]) with ((l ++ [x] ++ m) ++ [zero]) by (by rewrite <- !app_assoc).
    rewrite (insert_app_r_alt (l ++ [x] ++ m)) by (rewrite !length_app, Hm; unfold len in *; cbn; lia).
    replace (Z.to_nat (2 ^ k - 1) - length (l ++ [x] ++ m))%nat with 0%nat by (rewrite !length_app, Hm; unfold len in *; cbn; lia). cbn [insert list_insert].
    rewrite <- !app_assoc. rewrite (insert_app_r_alt l) by (unfold len; lia). replace (Z.to_nat (len l) - length l)%nat with 0%nat by (unfold len; lia). cbn [insert list_insert app].
    replace (l ++ zero :: m ++ [x]) with ((l ++ zero :: m) ++ [x]) by (by rewrite <- app_assoc).
    replace (Z.to_nat (2 ^ k - 1)) with (length (l ++ zero :: m)) by (rewrite length_app; cbn; rewrite Hm; unfold len in *; lia). rewrite rotate_app. cbn. f_equal. f_equal.
    unfold m. rewrite <- zeros_split by lia. by rewrite <- (zeros_snoc (2 ^ k - (len l + 1))) by lia.
Qed.

Lemma times_front k l1 : ∀ q l2, ring k q (l1 ++ l2) → len (l1 ++ l2) < 2 ^ k →
  ∃ q', times (length l1) rotateFront q = Ret q' ∧ ring k q' (l2 ++ l1) ∧ q_minCap q' = q_minCap q.
Proof.
  induction l1 as [|x l1 IH]; intros q l2 R Hlt; [rewrite app_nil_r; by exists q|]. cbn [times length].
  destruct (rotate_front k q x (l1 ++ l2) R Hlt) as (q' & Hr & R' & Hm). rewrite Hr. cbn [obind]. rewrite <- app_assoc in R'.
  destruct (IH q' (l2 ++ [x]) R') as (q'' & Hr' & R'' & Hm'); [unfold len in *; cbn in *; rewrite ?length_app in *; cbn in *; rewrite ?length_app in *; lia|].
  exists q''. split; [done|]. split; [by rewrite <- app_assoc in R''|congruence].
Qed.

Lemma times_back k l2 : ∀ q l1, ring k q (l1 ++ l2) → len (l1 ++ l2) < 2 ^ k →
  ∃ q', times (length l2) rotateBack q = Ret q' ∧ ring k q' (l2 ++ l1) ∧ q_minCap q' = q_minCap q.
Proof.
  induction l2 as [|x l2 IH] using rev_ind; intros q l1 R Hlt; [rewrite app_nil_r in R; by exists q|]. rewrite length_app, Nat.add_comm. cbn [times length Nat.add].
  rewrite app_assoc in R. destruct (rotate_back k q x (l1 ++ l2) R) as (q' & Hr & R' & Hm); [by rewrite <- app_assoc|]. rewrite Hr. cbn [obind].
  destruct (IH q' (x :: l1) R') as (q'' & Hr' & R'' & Hm'); [unfold len in *; cbn; rewrite !length_app in *; cbn in *; lia|].
  exists q''. split; [done|]. split; [by rewrite <- app_assoc|congruence].
Qed.

(** What [Rotate] does to a list. *)
Definition rotateList (n : Z) (l : list T) : list T :=
  if len l <=? 1 then l else drop (Z.to_nat (n `mod` len l)) l ++ take (Z.to_nat (n `mod` len l)) l.

Lemma rem_mod n c : 0 < c → Z.abs (Z.rem n c) < c ∧ n `mod` c = if Z.rem n c <? 0 then Z.rem n c + c else Z.rem n c.
Proof.
  intros Hc. pose proof (Z.quot_rem' n c) as Hq. pose proof (Z.rem_bound_abs n c ltac:(lia)) as Hb. split; [lia|]. symmetry.
  case_if; [apply (Z.mod_unique_pos n c (Z.quot n c - 1))|apply (Z.mod_unique_pos n c (Z.quot n c))]; lia.
Qed.

Lemma rep_ring k q l : power (q_minCap q) → ring k q l → rep q l.
Proof. intros Hp R. right. eauto. Qed.

Lemma rep_count q l : rep q l → q_count q = len l.
Proof. intros [(-> & -> & _)|[_ (k & R)]]; [done|by apply (ring_count _ _ _ R)]. Qed.

Lemma rep_ne q l : rep q l → 0 < len l → power (q_minCap q) ∧ ∃ k, ring k q l.
Proof. intros [(_ & -> & _)|?] Hl; [done|done]. Qed.

(** A full ring turns by moving its ends. *)
Lemma rotate_full k q l n : ring k q l → len l = 2 ^ k → power (q_minCap q) →
  let head := Z.land (q_head q + n) (modBits q) in
  rep (mkDeque (q_buf q) head head (q_count q) (q_minCap q)) (drop (Z.to_nat (n `mod` len l)) l ++ take (Z.to_nat (n `mod` len l)) l).
Proof.
  intros R Hfull Hp head. apply (rep_ring k); [done|]. unfold head. rewrite (ring_land R), Hfull, <- Zplus_mod_idemp_r.
  destruct R as [Hs Hc Hf Ht Hv]. pose proof Hs as (Hk & Hn & Hh). pose proof (Z.mod_pos_bound n (2 ^ k) ltac:(lia)) as Hb. set (m := n `mod` 2 ^ k) in *.
  destruct (sized_move k _ _ m Hs Hb) as [Hs1 Hv1]. assert (Hlen : len (drop (Z.to_nat m) l ++ take (Z.to_nat m) l) = len l).
  { unfold len in *. rewrite length_app, length_drop, length_take. lia. }
  split; cbn [q_buf q_head q_tail q_count]; rewrite ?Hlen; try done; try lia.
  - rewrite Hfull, <- (Zplus_mod_idemp_r (2 ^ k)), Z_mod_same_full, Z.add_0_r, Zmod_mod. done.
  - rewrite Hv1, Hv, Hfull, Z.sub_diag. cbn. rewrite !app_nil_r. apply rotate_small. unfold len in Hfull. lia.
Qed.

Lemma rotate_rep q l n : rep q l → ∃ q', Rotate n q = Ret q' ∧ rep q' (rotateList n l).
Proof.
  intros Hr. unfold Rotate, Len, rotateList. rewrite (rep_count _ _ Hr). destruct (Z.leb_spec (len l) 1) as [Hle|Hgt]; [by exists q|].
  destruct (rep_ne _ _ Hr) as [Hp (k & R)]; [lia|]. destruct (rem_mod n (len l)) as [Hb Hmod]; [lia|]. set (r := Z.rem n (len l)) in *.
  destruct (Z.eqb_spec r 0) as [Hr0|Hr0]; [exists q; split; [done|]; rewrite Hmod, Hr0; cbn; by rewrite app_nil_r|].
  pose proof R as [(Hk & Hn & Hh) Hc Hf Ht Hv]. destruct (Z.eqb_spec (q_head q) (q_tail q)) as [Eh|Nh].
  { assert (Hfull : len l = 2 ^ k).
    { destruct (decide (len l = 2 ^ k)) as [|Hne]; [done|]. rewrite Ht in Eh. destruct (decide (q_head q + len l < 2 ^ k)); [rewrite Z.mod_small in Eh; lia|].
      replace (q_head q + len l) with (q_head q + len l - 2 ^ k + 1 * 2 ^ k) in Eh by lia. rewrite Z_mod_plus_full, Z.mod_small in Eh; lia. }
    eexists. split; [done|]. replace (n `mod` len l) with (r `mod` len l); [pose proof (rotate_full k q l r R Hfull Hp) as H0; cbn zeta in H0; by rewrite Hc in H0|].
    rewrite Hmod. case_if; [|rewrite Z.mod_small; lia]. rewrite <- (Z_mod_plus_full r 1). rewrite Z.mod_small; lia. }
  assert (Hlt : len l < 2 ^ k).
  { destruct (decide (len l = 2 ^ k)) as [E|]; [|lia]. rewrite Ht, E in Nh. replace (q_head q + 2 ^ k) with (q_head q + 1 * 2 ^ k) in Nh by lia. rewrite Z_mod_plus_full, Z.mod_small in Nh; lia. }
  set (m := Z.to_nat (n `mod` len l)). assert (El : l = take m l ++ drop m l) by (by rewrite take_drop). rewrite El in R.
  destruct (Z.ltb_spec r 0) as [Hneg|Hpos].
  - destruct (times_back k (drop m l) q (take m l) R) as (q' & Hq & R' & Hm); [by rewrite <- El|]. replace (Z.to_nat (- r)) with (length (drop m l))
      by (rewrite length_drop; unfold m, len in *; lia). exists q'. split; [done|]. apply (rep_ring k); [by rewrite Hm|done].
  - destruct (times_front k (take m l) q (drop m l) R) as (q' & Hq & R' & Hm); [by rewrite <- El|]. replace (Z.to_nat r) with (length (take m l))
      by (rewrite length_take; unfold m, len in *; lia). exists q'. split; [done|]. apply (rep_ring k); [by rewrite Hm|done].
Qed.

(** ** Search *)

Fixpoint indexOf (f : T → bool) (l : list T) : Z :=
  match l with
  | [] => -1
  | x :: l => if f x then 0 else let r := indexOf f l in if r <? 0 then -1 else r + 1
  end.
(** The last one, counted from the front. *)
Definition lastIndexOf (f : T → bool) (l : list T) : Z :=
  let r := indexOf f (rev l) in if r <? 0 then -1 else len l - 1 - r.

Lemma indexOf_ge f l : -1 ≤ indexOf f l.
Proof. induction l as [|x l IH]; cbn; [lia|]. repeat case_if; lia. Qed.

Lemma index_loop k q l f l2 : ∀ l1, ring k q l → l = l1 ++ l2 →
  indexLoop f q (seqZ (len l1) (len l2)) = Ret (if indexOf f l2 <? 0 then -1 else len l1 + indexOf f l2).
Proof.
  induction l2 as [|x l2 IH]; intros l1 R El; [done|]. assert (len (x :: l2) = len l2 + 1) as -> by (unfold len; cbn; lia).
  rewrite seqZ_cons by (unfold len; lia). cbn [indexLoop]. rewrite (ring_land R), (ring_get R (len l1) x); [|unfold len; lia|].
  2: { rewrite El. unfold len. rewrite Nat2Z.id. by apply list_lookup_middle. }
  cbn [obind indexOf]. destruct (f x); [by rewrite Z.add_0_r|]. replace (Z.pred (len l2 + 1)) with (len l2) by lia.
  specialize (IH (l1 ++ [x]) R). assert (len (l1 ++ [x]) = Z.succ (len l1)) as Hl by (unfold len; rewrite length_app; cbn; lia). rewrite Hl in IH.
  rewrite IH by (by rewrite <- app_assoc). f_equal. pose proof (indexOf_ge f l2). destruct (Z.ltb_spec (indexOf f l2) 0); [done|].
  rewrite (proj2 (Z.ltb_ge _ _)) by lia. lia.
Qed.

Lemma rindex_loop k q l f l1 : ∀ l2, ring k q l → l = l1 ++ l2 → indexLoop f q (rev (seqZ 0 (len l1))) = Ret (lastIndexOf f l1).
Proof.
  induction l1 as [|x l1 IH] using rev_ind; intros l2 R El; [done|]. assert (Hl : len (l1 ++ [x]) = len l1 + 1) by (unfold len; rewrite length_app; cbn; lia).
  rewrite Hl, seqZ_app, rev_app_distr, (seqZ_cons (0 + len l1)), seqZ_nil by (unfold len; lia). cbn [rev app indexLoop]. rewrite Z.add_0_l, (ring_land R), (ring_get R (len l1) x); [|unfold len; lia|].
  2: { rewrite El, <- app_assoc. unfold len. rewrite Nat2Z.id. by apply list_lookup_middle. }
  cbn [obind]. unfold lastIndexOf. rewrite rev_unit, Hl. cbn [indexOf]. destruct (f x); [f_equal; cbn; lia|].
  rewrite (IH (x :: l2) R) by (by rewrite El, <- app_assoc). unfold lastIndexOf. f_equal. pose proof (indexOf_ge f (rev l1)).
  destruct (Z.ltb_spec (indexOf f (rev l1)) 0); [done|]. rewrite (proj2 (Z.ltb_ge _ _)) by lia. lia.
Qed.

(** ** In the middle *)

Lemma insert_rep q l i x : rep q l → 0 ≤ i ≤ len l → ∃ q', Insert i x q = Ret q' ∧ rep q' (take (Z.to_nat i) l ++ x :: drop (Z.to_nat i) l).
Proof.
  intros Hr Hi. unfold Insert. rewrite (rep_count _ _ Hr). rewrite (proj2 (Z.ltb_ge i 0)), (proj2 (Z.ltb_ge (len l) i)) by lia. cbn [orb].
  assert (Ht : length (take (Z.to_nat i) l) = Z.to_nat i) by (rewrite length_take; unfold len in Hi; lia).
  assert (El : l = take (Z.to_nat i) l ++ drop (Z.to_nat i) l) by (by rewrite take_drop). case_if.
  - destruct (push_front q l x Hr) as (q1 & k & Hq1 & R & Hp). rewrite Hq1. cbn [obind]. rewrite El in R.
    destruct (carry_next k x (take (Z.to_nat i) l) q1 [] _ R) as (q2 & Hq2 & R2 & Hm). change (len (@nil T)) with 0 in Hq2. rewrite Ht, <- (ring_head0 R) in Hq2.
    rewrite Hq2. exists q2. split; [done|]. apply (rep_ring k); [by rewrite Hm|done].
  - destruct (push_back q l x Hr) as (q1 & k & Hq1 & R & Hp). rewrite Hq1. cbn [obind]. rewrite (ring_tail _ _ _ R), (ring_prev R).
    replace (len (l ++ [x]) - 1) with (len l) by (unfold len; rewrite length_app; cbn; lia). rewrite El, <- app_assoc in R.
    destruct (carry_prev k x (drop (Z.to_nat i) l) q1 (take (Z.to_nat i) l) [] R) as (q2 & Hq2 & R2 & Hm). rewrite <- El, length_drop in Hq2.
    replace (Z.to_nat (len l - i)) with (length l - Z.to_nat i)%nat by (unfold len; lia). rewrite Hq2. exists q2. split; [done|]. rewrite app_nil_r in R2.
    apply (rep_ring k); [by rewrite Hm|done].
Qed.

Lemma remove_rep q l i x : rep q l → 0 ≤ i → l !! Z.to_nat i = Some x → ∃ q', Remove i q = Ret (x, q') ∧ rep q' (delete (Z.to_nat i) l).
Proof.
  intros Hr Hi Hx. pose proof (lookup_lt_Some _ _ _ Hx) as Hlt. destruct (rep_ne _ _ Hr) as [Hp (k & R)]; [unfold len; lia|].
  apply list_elem_of_split_length in Hx as (l1 & l2 & -> & Hi'). rewrite Hi', delete_middle. assert (Ei : i = len l1) by (unfold len; lia). subst i. clear Hi'.
  unfold Remove, Len. rewrite (rep_count _ _ Hr). rewrite length_app in Hlt. cbn in Hlt. assert (Hl : len (l1 ++ x :: l2) = len l1 + len l2 + 1) by (unfold len; rewrite length_app; cbn; lia).
  rewrite Hl. rewrite (proj2 (Z.ltb_ge _ 0)), (proj2 (Z.leb_gt _ _)) by (unfold len; lia). cbn [orb]. rewrite (ring_land R). case_if.
  - destruct (carry_prev k x l1 q [] l2 R) as (q1 & Hq1 & R1 & Hm). cbn [app] in Hq1. replace (Z.to_nat (len l1)) with (length l1) by (unfold len; lia).
    rewrite Hq1. cbn [obind]. rewrite <- Hm in Hp. by apply (pop_front k).
  - replace (x :: l2) with (x :: l2 ++ []) in R by (by rewrite app_nil_r). destruct (carry_next k x l2 q l1 [] R) as (q1 & Hq1 & R1 & Hm).
    replace (Z.to_nat _) with (length l2) by (unfold len; lia). rewrite Hq1. cbn [obind]. rewrite <- Hm in Hp. rewrite app_assoc in R1. by apply (pop_back k).
Qed.

(** ** Refinement *)

Inductive op :=
| OPushBack (x : T) | OPushFront (x : T) | OPopFront | OPopBack | OFront | OBack | OAt (i : Z) | OSet (i : Z) (x : T) | OClear
| ORotate (n : Z) | OIndex (f : T → bool) | ORIndex (f : T → bool) | OInsert (i : Z) (x : T) | ORemove (i : Z) | OSetMin (e : Z) | OLen.
Inductive reply := RNone | RElem (x : T) | RInt (n : Z).

Definition silent {S} (o : outcome S) : outcome (reply * S) := let! s := o in Ret (RNone, s).
Definition elem {S} (o : outcome (T * S)) : outcome (reply * S) := let! (x, s) := o in Ret (RElem x, s).

Definition call (o : op) (q : Deque) : outcome (reply * Deque) :=
  match o with
  | OPushBack x => silent (PushBack x q)
  | OPushFront x => silent (PushFront x q)
  | OPopFront => elem (PopFront q)
  | OPopBack => elem (PopBack q)
  | OFront => elem (let! x := Front q in Ret (x, q))
  | OBack => elem (let! x := Back q in Ret (x, q))
  | OAt i => elem (let! x := At i q in Ret (x, q))
  | OSet i x => silent (Set_ i x q)
  | OClear => silent (Clear q)
  | ORotate n => silent (Rotate n q)
  | OIndex f => let! i := Index f q in Ret (RInt i, q)
  | ORIndex f => let! i := RIndex f q in Ret (RInt i, q)
  | OInsert i x => silent (Insert i x q)
  | ORemove i => elem (Remove i q)
  | OSetMin e => Ret (RNone, SetMinCapacity e q)
  | OLen => Ret (RInt (Len q), q)
  end.

(** The same calls on a list. *)
Definition onList (o : op) (l : list T) : outcome (reply * list T) :=
  match o with
  | OPushBack x => Ret (RNone, l ++ [x])
  | OPushFront x => Ret (RNone, x :: l)
  | OPopFront => match l with x :: l => Ret (RElem x, l) | [] => Panic "deque: PopFront() called on empty queue" end
  | OPopBack => match last l with Some x => Ret (RElem x, removelast l) | None => Panic "deque: PopBack() called on empty queue" end
  | OFront => match head l with Some x => Ret (RElem x, l) | None => Panic "deque: Front() called when empty" end
  | OBack => match last l with Some x => Ret (RElem x, l) | None => Panic "deque: Back() called when empty" end
  | OAt i => if i <? 0 then Panic outOfRangeText else match l !! Z.to_nat i with Some x => Ret (RElem x, l) | None => Panic outOfRangeText end
  | OSet i x => if (i <? 0) || (len l <=? i) then Panic outOfRangeText else Ret (RNone, <[Z.to_nat i := x]> l)
  | OClear => Ret (RNone, [])
  | ORotate n => Ret (RNone, rotateList n l)
  | OIndex f => Ret (RInt (indexOf f l), l)
  | ORIndex f => Ret (RInt (lastIndexOf f l), l)
  | OInsert i x => if (i <? 0) || (len l <? i) then Panic outOfRangeText else Ret (RNone, take (Z.to_nat i) l ++ x :: drop (Z.to_nat i) l)
  | ORemove i => if i <? 0 then Panic outOfRangeText else match l !! Z.to_nat i with Some x => Ret (RElem x, delete (Z.to_nat i) l) | None => Panic outOfRangeText end
  | OSetMin _ => Ret (RNone, l)
  | OLen => Ret (RInt (len l), l)
  end.

(** The replies until the first panic, and the state if there was none. *)
Fixpoint exec {S} (step : op → S → outcome (reply * S)) (ops : list op) (s : S) : list (outcome reply) * option S :=
  match ops with
  | [] => ([], Some s)
  | o :: ops =>
      match step o s with
      | Ret (r, s) => let '(rs, s) := exec step ops s in (Ret r :: rs, s)
      | Err e => ([Err e], None)
      | Panic p => ([Panic p], None)
      end
  end.

(** The outcomes agree, and the states stay related. *)
Definition agrees (x : outcome (reply * Deque)) (y : outcome (reply * list T)) : Prop :=
  match x, y with
  | Ret (r, q), Ret (r', l) => r = r' ∧ rep q l
  | Panic p, Panic p' => p = p'
  | _, _ => False
  end.

Lemma nonempty (l : list T) : l ≠ [] → 0 < len l.
Proof. destruct l; [done|]. unfold len. cbn. lia. Qed.

Lemma ends_refine o q l : rep q l → o ∈ [OPopFront; OPopBack; OFront; OBack] → agrees (call o q) (onList o l).
Proof.
  intros Hr Ho. pose proof (rep_count _ _ Hr) as Hc. destruct (decide (l = [])) as [->|Hne].
  { rewrite !elem_of_cons, elem_of_nil in Ho. destruct_or!; subst o; cbn; unfold PopFront, PopBack, Front, Back; by rewrite Hc. }
  pose proof (nonempty l Hne) as Hl. destruct (rep_ne _ _ Hr Hl) as [Hp (k & R)]. rewrite !elem_of_cons, elem_of_nil in Ho.
  destruct Ho as [->|[->|[->|[->|[]]]]]; cbn [call onList].
  - destruct l as [|x l]; [done|]. destruct (pop_front k q x l Hp R) as (q' & Hq & Hr'). by rewrite Hq.
  - destruct (exists_last Hne) as (l' & x & ->). rewrite last_snoc, removelast_last. destruct (pop_back k q x l' Hp R) as (q' & Hq & Hr'). by rewrite Hq.
  - destruct l as [|x l]; [done|]. cbn [head]. unfold Front. rewrite Hc, (proj2 (Z.leb_gt _ _)) by lia.
    pose proof (ring_get R 0 x ltac:(lia) eq_refl) as Hget. rewrite <- (ring_head0 R) in Hget. rewrite Hget. done.
  - destruct (exists_last Hne) as (l' & x & ->). rewrite last_snoc. unfold Back. rewrite Hc, (proj2 (Z.leb_gt _ _)) by lia. rewrite (ring_tail _ _ _ R), (ring_prev R).
    replace (len (l' ++ [x]) - 1) with (len l') by (unfold len; rewrite length_app; cbn; lia).
    rewrite (ring_get R (len l') x); [done|unfold len; lia|unfold len; rewrite Nat2Z.id; by apply list_lookup_middle].
Qed.

Lemma index_refine o q l : rep q l → (∃ i x f, o ∈ [OAt i; OSet i x; OIndex f; ORIndex f]) → agrees (call o q) (onList o l).
Proof.
  intros Hr (i & x & f & Ho). pose proof (rep_count _ _ Hr) as Hc. rewrite !elem_of_cons, elem_of_nil in Ho.
  destruct Ho as [->|[->|[->|[->|[]]]]]; cbn [call onList].
  - unfold At. rewrite Hc. destruct (Z.ltb_spec i 0) as [|Hi]; [done|]. cbn [orb]. destruct (Z.leb_spec (len l) i) as [Hge|Hlt].
    { by rewrite lookup_ge_None_2 by (unfold len in Hge; lia). }
    destruct (rep_ne _ _ Hr) as [Hp (k & R)]; [lia|]. destruct (lookup_lt_is_Some_2 l (Z.to_nat i)) as [y Hy]; [unfold len in Hlt; lia|].
    rewrite Hy, (ring_land R), (ring_get R i y) by done. done.
  - unfold Set_. rewrite Hc. destruct ((i <? 0) || (len l <=? i)) eqn:E; [done|]. destruct (rep_ne _ _ Hr) as [Hp (k & R)]; [lia|]. rewrite (ring_land R).
    destruct (ring_set R i x) as (b & Hb & R'); [lia|]. rewrite Hb. cbn. split; [done|]. by apply (rep_ring k).
  - unfold Index, Len. rewrite Hc. destruct (Z.ltb_spec 0 (len l)) as [Hl|Hl]; [|destruct l; [done|unfold len in Hl; cbn in Hl; lia]].
    destruct (rep_ne _ _ Hr Hl) as [Hp (k & R)]. pose proof (index_loop k q l f l [] R eq_refl) as Hx. change (len (@nil T)) with 0 in Hx. rewrite Hx. cbn [obind agrees]. split; [|done].
    f_equal. pose proof (indexOf_ge f l). case_if; lia.
  - unfold RIndex, Len. rewrite Hc. destruct (Z.ltb_spec 0 (len l)) as [Hl|Hl]; [|destruct l; [done|unfold len in Hl; cbn in Hl; lia]].
    destruct (rep_ne _ _ Hr Hl) as [Hp (k & R)]. rewrite (rindex_loop k q l f l []) by (try rewrite app_nil_r; done). done.
Qed.

Lemma setmin_power e q : 0 ≤ e → power (q_minCap (SetMinCapacity e q)).
Proof.
  intros He. assert (H4 : power 16) by (exists 4; split; [lia|done]). cbn. change minCapacity with 16. rewrite Z.shiftl_mul_pow2, Z.mul_1_l by lia.
  destruct (decide (e ≤ 62)) as [Hs|Hb].
  - assert (0 < 2 ^ e ≤ 2 ^ 62) by (split; [apply Z.pow_pos_nonneg; lia|apply Z.pow_le_mono_r; lia]). rewrite i64_small by lia. case_if; [|done].
    exists e. split; [|done]. destruct (decide (4 ≤ e)); [done|]. assert (2 ^ e ≤ 2 ^ 4) by (apply Z.pow_le_mono_r; lia). lia.
  - assert (i64 (2 ^ e) ≤ 0) as Hneg; [|by rewrite (proj2 (Z.ltb_ge _ _)) by lia]. destruct (decide (e = 63)) as [->|]; [by vm_compute|].
    unfold i64. replace e with (e - 64 + 64) by lia. rewrite Z.pow_add_r, Z.add_comm, Z_mod_plus_full by lia. by vm_compute.
Qed.

Lemma setmin_rep e q l : 0 ≤ e → rep q l → rep (SetMinCapacity e q) l.
Proof.
  intros He Hr. pose proof (setmin_power e q He) as Hp. destruct Hr as [(Hq & -> & _)|[_ (k & R)]].
  - left. split_and!; [|done|by right]. unfold SetMinCapacity at 1, set_minCap. by rewrite Hq.
  - apply (rep_ring k); [done|]. destruct R. by split.
Qed.

Definition op_ok (o : op) : Prop := match o with OSetMin e => 0 ≤ e | _ => True end.

Lemma call_refines o q l : op_ok o → rep q l → agrees (call o q) (onList o l).
Proof.
  intros Hok Hr. destruct o.
  3-6: by apply ends_refine; [done|repeat constructor].
  3: by apply (index_refine (OAt i)); [done|exists i, zero, (λ _, true); repeat constructor].
  3: by apply (index_refine (OSet i x)); [done|exists i, x, (λ _, true); repeat constructor].
  5: by apply (index_refine (OIndex f)); [done|exists 0, zero, f; repeat constructor].
  5: by apply (index_refine (ORIndex f)); [done|exists 0, zero, f; repeat constructor].
  all: cbn [call onList].
  - destruct (push_back q l x Hr) as (q' & k & -> & R & Hp). split; [done|]. by apply (rep_ring k).
  - destruct (push_front q l x Hr) as (q' & k & -> & R & Hp). split; [done|]. by apply (rep_ring k).
  - destruct (clear_rep q l Hr) as (q' & -> & Hr' & _). done.
  - destruct (rotate_rep q l n Hr) as (q' & -> & Hr'). done.
  - destruct ((i <? 0) || (len l <? i)) eqn:E; [unfold Insert; by rewrite (rep_count _ _ Hr), E|]. destruct (insert_rep q l i x Hr) as (q' & -> & Hr'); [lia|done].
  - unfold Remove, Len. destruct (Z.ltb_spec i 0) as [|Hi]; [done|]. cbn [orb]. destruct (l !! Z.to_nat i) as [x|] eqn:Hx.
    + destruct (remove_rep q l i x Hr Hi Hx) as (q' & Hq & Hr'). unfold Remove, Len in Hq. rewrite (proj2 (Z.ltb_ge _ _)) in Hq by lia. cbn [orb] in Hq. by rewrite Hq.
    + apply lookup_ge_None in Hx. rewrite (rep_count _ _ Hr), (proj2 (Z.leb_le _ _)) by (unfold len; lia). done.
  - split; [done|]. by apply setmin_rep.
  - split; [|done]. unfold Len. by rewrite (rep_count _ _ Hr).
Qed.

Lemma exec_refines ops : ∀ q l, Forall op_ok ops → rep q l →
  (exec call ops q).1 = (exec onList ops l).1 ∧
  match (exec call ops q).2, (exec onList ops l).2 with Some q', Some l' => rep q' l' | None, None => True | _, _ => False end.
Proof.
  induction ops as [|o ops IH]; intros q l Hok Hr; [done|]. apply Forall_cons in Hok as [Ho Hok]. pose proof (call_refines o q l Ho Hr) as Ha. cbn [exec].
  destruct (call o q) as [[r q']|e|p], (onList o l) as [[r' l']|e'|p']; try done; [|by rewrite Ha].
  destruct Ha as [-> Hr']. destruct (IH q' l' Hok Hr') as [H1 H2]. destruct (exec call ops q') as [rs s], (exec onList ops l') as [rs' s']. cbn in *. by rewrite H1.
Qed.

(** What the representation says of the memory: a power of two or none, room for
    all elements, and no element kept beyond its removal. *)
Lemma rep_memory q l : rep q l → (q_buf q = [] ∨ power (Cap q)) ∧ len l ≤ Cap q ∧ q_buf q ≡ₚ l ++ zeros (Cap q - len l).
Proof.
  intros [(-> & -> & _)|[_ (k & R)]]; [split; [by left|done]|]. destruct R as [(Hk & Hn & Hh) _ Hf _ Hv]. unfold Cap. rewrite Hn.
  split; [right; by exists k|]. split; [done|]. rewrite <- Hv, rotate_small by (unfold len in Hn; lia).
  rewrite <- (take_drop (Z.to_nat (q_head q)) (q_buf q)) at 1. apply Permutation_app_comm.
Qed.

End Deque.

(** the queue behaves as a list.  For every sequence of calls on a new queue,
    every call returns what the same call on a list returns, panics included, until
    the first panic; and in between the buffer has a power of two of slots, those
    that hold no element of the list being zero, so that nothing that was removed
    is kept in memory. *)
Theorem deque_refines_list {T} (zero : T) size ops : Forall (λ n, n ≤ 2 ^ 62) size → Forall op_ok ops →
  ∃ q, New zero size = Some q ∧ (exec (call zero) ops q).1 = (exec onList ops []).1 ∧
    match (exec (call zero) ops q).2, (exec onList ops []).2 with
    | Some q', Some l => (q_buf q' = [] ∨ power (Cap q')) ∧ len l ≤ Cap q' ∧ q_buf q' ≡ₚ l ++ zeros zero (Cap q' - len l)
    | None, None => True
    | _, _ => False
    end.
Proof.
  intros Hs Hok. destruct (New_rep zero size Hs) as (q & Hq & Hr). exists q. split; [done|].
  destruct (exec_refines zero ops q [] Hok Hr) as [H1 H2]. split; [done|].
  destruct (exec (call zero) ops q).2, (exec onList ops []).2; try done. by apply rep_memory.
Qed.

Definition demoOps : list (op (T := Z)) :=
  ((λ i, OPushBack (Z.of_nat i)) <$> seq 0 20) ++ [ORotate (-3); OInsert 4 99; OPopFront; ORemove 2; OIndex (λ x, x =? 99); OPopBack; OLen] ++ replicate 17 OPopFront ++ [OPopFront; OPopFront].

Lemma deque_refines_list_witness : ∃ q, New 0 [0; 8] = Some q ∧ (exec (call 0) demoOps q).1 = (exec onList demoOps []).1 ∧
  match (exec (call 0) demoOps q).2, (exec onList demoOps []).2 with
  | Some q', Some l => (q_buf q' = [] ∨ power (Cap q')) ∧ len l ≤ Cap q' ∧ q_buf q' ≡ₚ l ++ zeros 0 (Cap q' - len l)
  | None, None => True
  | _, _ => False
  end.
Proof. apply (deque_refines_list 0 [0; 8] demoOps); [repeat constructor; apply Z.leb_le; reflexivity|]. repeat (constructor; [exact I|]). constructor. Defined.

End Deque.
Export Deque.
