(* ===== verification/Cli.v ===== *)
(** * The command line: pkg/cli/parser.go and the command tables of client.go and server.go

    The registered commands with their argument checks, the choice of a command,
    and the commands that the help text lists.  The callbacks are names: what
    they do is I/O, except for [serverRunFunc] (ServerControl).  *)

From S2P Require Import Prelude.
Local Open Scope Z_scope.

Module Cli.

Record matchProcessor := mkHook {
  h_matches : list string;
  h_validator : list string → outcome unit;
  h_callback : string
}.

Fixpoint matchWords (input want : list string) : bool :=
  match want, input with
  | [], _ => true
  | w :: want, i :: input => if negb (bool_decide (w = "")) && negb (bool_decide (i = w)) then false else matchWords input want
  | _ :: _, [] => true
  end.

Definition doExactMatch (input want : list string) : bool :=
  if (length input <? length want)%nat then false else matchWords input want.

Definition unexpectedArgsError (n : nat) (args : list string) : outcome unit :=
  if (n <? length args)%nat then Err (Errorf "unexpected arguments %q after %q") else Ret tt.

(** The checks of commands with one argument, or at least one. *)
Definition exactly (n : nat) (few many : string) (args : list string) : outcome unit :=
  if (length args <? n)%nat then Err (Errorf few) else if (n <? length args)%nat then Err (Errorf many) else Ret tt.
Definition atLeast (n : nat) (few : string) (args : list string) : outcome unit :=
  if (length args <? n)%nat then Err (Errorf few) else Ret tt.
Definition testArgs (args : list string) : outcome unit :=
  if (3 <? length args)%nat then Err (Errorf "usage: mieru test [URL]. More than 1 URL is provided")
  else
    match args with
    | [_; _; url] =>
        if negb (String.prefix "http://" url) && negb (String.prefix "https://" url)
        then Err (Errorf "provided URL is invalid, it must start with %q or %q") else Ret tt
    | _ => Ret tt
    end.

Definition RegisterCallback (h : matchProcessor) (hooks : list matchProcessor) : list matchProcessor := hooks ++ [h].

(** [exec] runs a callback. *)
Fixpoint ParseAndExecute (hooks : list matchProcessor) (exec : string → list string → outcome unit) (args : list string)
    : outcome unit :=
  match hooks with
  | [] => Err (Errorf "%q is not a valid command. Run %s help to get the list of supported commands")
  | h :: hooks =>
      if doExactMatch args (h_matches h)
      then let! _ := h_validator h args in exec (h_callback h) args
      else ParseAndExecute hooks exec args
  end.

(** ** The tables *)

Record helpCmdEntry := mkEntry { e_cmd : string; e_help : list string }.
Record helpFormatter := mkHelp { hf_appName : string; hf_entries : list helpCmdEntry; hf_advanced : list helpCmdEntry }.

Definition printEntry (entry : helpCmdEntry) : list string :=
  ("  " +:+ e_cmd entry) :: ((λ line, "        " +:+ line) <$> e_help entry) ++ [""].

(** The lines that are logged. *)
Definition print (m : helpFormatter) : list string :=
  (if negb (bool_decide (hf_appName m = "")) then ["Usage: " +:+ hf_appName m +:+ " <COMMAND> [<ARGS>]"; ""] else []) ++
  (if negb (bool_decide (hf_entries m = [])) then "Commands:" :: (hf_entries m ≫= printEntry) else []) ++
  (if negb (bool_decide (hf_advanced m = []))
   then "Commands for developers and experienced users:" :: (hf_advanced m ≫= printEntry) else []).

#[global] Instance helpCmdEntry_eq_dec : EqDecision helpCmdEntry.
Proof. solve_decision. Defined.

Definition RegisterClientCommands : list matchProcessor :=
  [mkHook [""; "help"] (unexpectedArgsError 2) "clientHelpFunc";
   mkHook [""; "start"] (unexpectedArgsError 2) "clientStartFunc";
   mkHook [""; "run"] (unexpectedArgsError 2) "clientRunFunc";
   mkHook [""; "stop"] (unexpectedArgsError 2) "clientStopFunc";
   mkHook [""; "status"] (unexpectedArgsError 2) "clientStatusFunc";
   mkHook [""; "test"] (testArgs) "clientTestFunc";
   mkHook [""; "apply"; "config"] (exactly 4 "usage: mieru apply config <FILE>. No config file is provided" "usage: mieru apply config <FILE>. More than 1 config file is provided") "clientApplyConfigFunc";
   mkHook [""; "describe"; "config"] (unexpectedArgsError 3) "clientDescribeConfigFunc";
   mkHook [""; "describe"; "effective-traffic-pattern"] (unexpectedArgsError 3) "clientDescribeEffectiveTrafficPatternFunc";
   mkHook [""; "import"; "config"] (exactly 4 "usage: mieru import config <URL>. No URL is provided" "usage: mieru import config <URL>. More than 1 URL is provided") "clientImportConfigFunc";
   mkHook [""; "export"; "config"; "simple"] (unexpectedArgsError 4) "clientExportConfigSimpleFunc";
   mkHook [""; "export"; "config"] (unexpectedArgsError 3) "clientExportConfigFunc";
   mkHook [""; "export"; "traffic-pattern"] (unexpectedArgsError 3) "clientExportTrafficPatternFunc";
   mkHook [""; "explain"; "config"] (exactly 4 "usage: mieru explain config <URL>. No URL is provided" "usage: mieru explain config <URL>. More than 1 string is provided") "clientExplainConfigFunc";
   mkHook [""; "explain"; "traffic-pattern"] (exactly 4 "usage: mieru explain traffic-pattern <STRING>. No string is provided" "usage: mieru explain traffic-pattern <STRING>. More than 1 string is provided") "explainTrafficPatternFunc";
   mkHook [""; "delete"; "profile"] (exactly 4 "usage: mieru delete profile <PROFILE_NAME>. no profile is provided" "usage: mieru delete profile <PROFILE_NAME>. more than 1 profile is provided") "clientDeleteProfileFunc";
   mkHook [""; "delete"; "http"; "proxy"] (unexpectedArgsError 4) "clientDeleteHTTPProxyFunc";
   mkHook [""; "delete"; "socks5"; "authentication"] (unexpectedArgsError 4) "clientDeleteSocks5AuthenticationFunc";
   mkHook [""; "version"] (unexpectedArgsError 2) "versionFunc";
   mkHook [""; "describe"; "build"] (unexpectedArgsError 3) "describeBuildFunc";
   mkHook [""; "check"; "update"] (unexpectedArgsError 3) "clientCheckUpdateFunc";
   mkHook [""; "get"; "metrics"] (unexpectedArgsError 3) "clientGetMetricsFunc";
   mkHook [""; "get"; "connections"] (unexpectedArgsError 3) "clientGetConnectionsFunc";
   mkHook [""; "get"; "thread-dump"] (unexpectedArgsError 3) "clientGetThreadDumpFunc";
   mkHook [""; "get"; "heap-profile"] (exactly 4 "usage: mieru get heap-profile <FILE>. no file save path is provided" "usage: mieru get heap-profile <FILE>. more than 1 file save path is provided") "clientGetHeapProfileFunc";
   mkHook [""; "get"; "memory-statistics"] (unexpectedArgsError 3) "clientGetMemoryStatisticsFunc";
   mkHook [""; "profile"; "cpu"; "start"] (exactly 5 "usage: mieru profile cpu start <FILE>. no file save path is provided" "usage: mieru profile cpu start <FILE>. more than 1 file save path is provided") "clientStartCPUProfileFunc";
   mkHook [""; "profile"; "cpu"; "stop"] (unexpectedArgsError 4) "clientStopCPUProfileFunc"].

Definition RegisterServerCommands : list matchProcessor :=
  [mkHook [""; "help"] (unexpectedArgsError 2) "serverHelpFunc";
   mkHook [""; "start"] (unexpectedArgsError 2) "serverStartFunc";
   mkHook [""; "run"] (unexpectedArgsError 2) "serverRunFunc";
   mkHook [""; "stop"] (unexpectedArgsError 2) "serverStopFunc";
   mkHook [""; "reload"] (unexpectedArgsError 2) "serverReloadFunc";
   mkHook [""; "status"] (unexpectedArgsError 2) "serverStatusFunc";
   mkHook [""; "apply"; "config"] (exactly 4 "usage: mita apply config <FILE>. no config file is provided" "usage: mita apply config <FILE>. more than 1 config file is provided") "serverApplyConfigFunc";
   mkHook [""; "describe"; "config"] (unexpectedArgsError 3) "serverDescribeConfigFunc";
   mkHook [""; "describe"; "effective-traffic-pattern"] (unexpectedArgsError 3) "serverDescribeEffectiveTrafficPatternFunc";
   mkHook [""; "export"; "traffic-pattern"] (unexpectedArgsError 3) "serverExportTrafficPatternFunc";
   mkHook [""; "explain"; "traffic-pattern"] (exactly 4 "usage: mita explain traffic-pattern <STRING>. No string is provided" "usage: mita explain traffic-pattern <STRING>. More than 1 string is provided") "explainTrafficPatternFunc";
   mkHook [""; "delete"; "user"] (atLeast 4 "usage: mita delete user <USER_NAME>. no user is provided") "serverDeleteUserFunc";
   mkHook [""; "version"] (unexpectedArgsError 2) "versionFunc";
   mkHook [""; "describe"; "build"] (unexpectedArgsError 3) "describeBuildFunc";
   mkHook [""; "check"; "update"] (unexpectedArgsError 3) "serverCheckUpdateFunc";
   mkHook [""; "get"; "metrics"] (unexpectedArgsError 3) "serverGetMetricsFunc";
   mkHook [""; "get"; "connections"] (unexpectedArgsError 3) "serverGetConnectionsFunc";
   mkHook [""; "get"; "users"] (unexpectedArgsError 3) "serverGetUsersFunc";
   mkHook [""; "get"; "quotas"] (unexpectedArgsError 3) "serverGetQuotasFunc";
   mkHook [""; "get"; "thread-dump"] (unexpectedArgsError 3) "serverGetThreadDumpFunc";
   mkHook [""; "get"; "heap-profile"] (exactly 4 "usage: mita get heap-profile <FILE>. no file save path is provided" "usage: mita get heap-profile <FILE>. more than 1 file save path is provided") "serverGetHeapProfileFunc";
   mkHook [""; "get"; "memory-statistics"] (unexpectedArgsError 3) "serverGetMemoryStatisticsFunc";
   mkHook [""; "profile"; "cpu"; "start"] (exactly 5 "usage: mita profile cpu start <FILE>. no file save path is provided" "usage: mita profile cpu start <FILE>. more than 1 file save path is provided") "serverStartCPUProfileFunc";
   mkHook [""; "profile"; "cpu"; "stop"] (unexpectedArgsError 4) "serverStopCPUProfileFunc"].

Definition clientHelpFunc : helpFormatter := mkHelp "mieru"
    [mkEntry "help" ["Show mieru client help."];
     mkEntry "start" ["Start mieru client in background."];
     mkEntry "stop" ["Stop mieru client."];
     mkEntry "status" ["Check mieru client status."];
     mkEntry "test [URL]" ["Test mieru client connection to the Internet via proxy server."];
     mkEntry "apply config <JSON_FILE>" ["Apply client configuration patch from a file."; "It merges the patch with existing client configuration."];
     mkEntry "describe config" ["Show current client configuration."];
     mkEntry "describe effective-traffic-pattern" ["Show effective traffic pattern."];
     mkEntry "import config <URL>" ["Import client configuration from a URL."; "The URL can be standard format mieru:// or simple format mierus://."; "Please use quotation marks to wrap the URL, so it can be parsed correctly."];
     mkEntry "export config simple" ["Export client configuration as URLs in simple format."];
     mkEntry "export config" ["Export client configuration as a URL."];
     mkEntry "export traffic-pattern" ["Export traffic pattern as an encoded base64 string."];
     mkEntry "explain config <URL>" ["Decode and explain a client configuration from a mieru:// URL,"; "or a client profile from a mierus:// URL."; "It doesn't import client configuration from this URL."; "Please use quotation marks to wrap the URL, so it can be parsed correctly."];
     mkEntry "explain traffic-pattern <STRING>" ["Decode and explain a traffic pattern from an encoded base64 string."];
     mkEntry "delete profile <PROFILE_NAME>" ["Delete an inactive client configuration profile."];
     mkEntry "delete http proxy" ["Delete HTTP(S) proxy."; "Allow socks5 user password authentication to be used."];
     mkEntry "delete socks5 authentication" ["Delete socks5 user password authentication."; "Allow HTTP(S) proxy to be used."];
     mkEntry "get metrics" ["Get mieru client metrics."];
     mkEntry "get connections" ["Get mieru client connections."];
     mkEntry "version" ["Show mieru client version."];
     mkEntry "check update" ["Check mieru client update."]]
    [mkEntry "run" ["Run mieru client in foreground."; "Use environment variable MIERU_CONFIG_JSON_FILE to load configuration."];
     mkEntry "describe build" ["Show mieru build info."];
     mkEntry "get thread-dump" ["Get mieru client thread dump."];
     mkEntry "get heap-profile <GZ_FILE>" ["Get mieru client heap profile and save results to the file."];
     mkEntry "get memory-statistics" ["Get mieru client memory statistics."];
     mkEntry "profile cpu start <GZ_FILE>" ["Start mieru client CPU profile and save results to the file."];
     mkEntry "profile cpu stop" ["Stop mieru client CPU profile."]].

Definition serverHelpFunc : helpFormatter := mkHelp "mita"
    [mkEntry "help" ["Show mita server help."];
     mkEntry "start" ["Start mita server proxy service."];
     mkEntry "stop" ["Stop mita server proxy service."];
     mkEntry "reload" ["Reload mita server configuration without stopping proxy service."];
     mkEntry "status" ["Check mita server proxy service status."];
     mkEntry "apply config <JSON_FILE>" ["Apply server configuration patch from a file."; "It merges the patch with existing server configuration."];
     mkEntry "describe config" ["Show current server configuration."];
     mkEntry "describe effective-traffic-pattern" ["Show effective traffic pattern."];
     mkEntry "export traffic-pattern" ["Export traffic pattern as an encoded base64 string."];
     mkEntry "explain traffic-pattern <STRING>" ["Decode and explain a traffic pattern from an encoded base64 string."];
     mkEntry "delete user <USER_NAME>" ["Delete a user from server configuration."];
     mkEntry "get metrics" ["Get mita server metrics."];
     mkEntry "get connections" ["Get mita server connections."];
     mkEntry "get users" ["Get mita server registered users."];
     mkEntry "get quotas" ["Get mita server user quotas."];
     mkEntry "version" ["Show mita server version."];
     mkEntry "check update" ["Check mita server update."]]
    [mkEntry "run" ["Run mita server in foreground."; "Use environment variable MITA_CONFIG_JSON_FILE to load configuration."];
     mkEntry "describe build" ["Show mita build info."];
     mkEntry "get thread-dump" ["Get mita server thread dump."];
     mkEntry "get heap-profile <GZ_FILE>" ["Get mita server heap profile and save results to the file."];
     mkEntry "get memory-statistics" ["Get mita server memory statistics."];
     mkEntry "profile cpu start <GZ_FILE>" ["Start mita server CPU profile and save results to the file."];
     mkEntry "profile cpu stop" ["Stop mita server CPU profile."]].

(** ** Properties *)

(** The check of a command lets at most [n] arguments pass, if [n] is given. *)
Definition maxArgs (h : matchProcessor) (n : option nat) : Prop :=
  match n with Some n => ∀ args, h_validator h args = Ret tt → (length args ≤ n)%nat | None => True end.
Definition tooLong (n : option nat) (a : list string) : bool :=
  match n with Some n => (n <? length a)%nat | None => false end.

(** No arguments match both patterns: they differ in a word, or the first one is
    longer than [n]. *)
Fixpoint differs (a b : list string) : bool :=
  match a, b with
  | x :: a, y :: b =>
      (negb (bool_decide (x = "")) && negb (bool_decide (y = "")) && negb (bool_decide (x = y))) || differs a b
  | _, _ => false
  end.

Lemma matchWords_differs args a b : matchWords args a = true → matchWords args b = true →
  (length a ≤ length args)%nat → (length b ≤ length args)%nat → differs a b = false.
Proof.
  revert args b. induction a as [|x a IH]; intros args b Ha Hb La Lb; [done|]. destruct b as [|y b]; [done|].
  destruct args as [|i args]; simpl in *; [lia|]. case_if_in Ha; [done|]. case_if_in Hb; [done|].
  rewrite (IH args b) by (done || lia). rewrite orb_false_r.
  repeat case_bool_decide; simpl in *; try done; congruence.
Qed.

Lemma match_exclusive args a h n :
  maxArgs h n → h_validator h args = Ret tt → doExactMatch args a = true → doExactMatch args (h_matches h) = true →
  differs a (h_matches h) || tooLong n a = false.
Proof.
  intros Hn Hv. unfold doExactMatch. destruct (Nat.ltb_spec (length args) (length a)); [done|].
  destruct (Nat.ltb_spec (length args) (length (h_matches h))); [done|]. intros Ha Hb.
  rewrite (matchWords_differs args) by done. simpl. destruct n as [n|]; [|done]. apply Nat.ltb_ge. specialize (Hn _ Hv). lia.
Qed.

(** Every command with its bound; a command without one can only follow commands
    that differ from it. *)
Fixpoint unshadowed (earlier : list matchProcessor) (bounds : list (option nat)) (hooks : list matchProcessor) : bool :=
  match hooks, bounds with
  | h :: hooks, n :: bounds =>
      forallb (λ e, differs (h_matches e) (h_matches h) || tooLong n (h_matches e)) earlier &&
      unshadowed (earlier ++ [h]) bounds hooks
  | [], _ => true
  | _ :: _, [] => false
  end.

Lemma ParseAndExecute_skip earlier hooks exec args :
  forallb (λ e, negb (doExactMatch args (h_matches e))) earlier = true →
  ParseAndExecute (earlier ++ hooks) exec args = ParseAndExecute hooks exec args.
Proof.
  induction earlier as [|e earlier IH]; [done|]. simpl. intros [H1 H2]%andb_true_iff. apply negb_true_iff in H1. rewrite H1. by apply IH.
Qed.

Lemma unshadowed_runs exec hooks : ∀ earlier bounds args h,
  unshadowed earlier bounds hooks = true → Forall2 maxArgs hooks bounds → h ∈ hooks →
  doExactMatch args (h_matches h) = true → h_validator h args = Ret tt →
  ParseAndExecute (earlier ++ hooks) exec args = exec (h_callback h) args.
Proof.
  induction hooks as [|h0 hooks IH]; intros earlier bounds args h Hu Hb Hin Hm Hv; [by apply elem_of_nil in Hin|].
  inversion Hb as [|? n ? bounds' Hn Hbs]; subst. simpl in Hu. apply andb_true_iff in Hu as [Hu1 Hu2].
  apply elem_of_cons in Hin as [->|Hin].
  - rewrite ParseAndExecute_skip; [simpl; by rewrite Hm, Hv|]. apply forallb_forall. intros e He.
    rewrite forallb_forall in Hu1. specialize (Hu1 e He). destruct (doExactMatch args (h_matches e)) eqn:E; [|done].
    rewrite (match_exclusive args _ _ n Hn Hv E Hm) in Hu1. done.
  - rewrite (cons_middle h0), app_assoc. by eapply IH.
Qed.

Lemma max_unexpected n m cb : maxArgs (mkHook m (unexpectedArgsError n) cb) (Some n).
Proof. intros args. simpl. unfold unexpectedArgsError. destruct (Nat.ltb_spec n (length args)); [done|]. intros _. lia. Qed.
Lemma max_exactly n few many m cb : maxArgs (mkHook m (exactly n few many) cb) (Some n).
Proof.
  intros args. simpl. unfold exactly. destruct (Nat.ltb_spec (length args) n); [done|]. destruct (Nat.ltb_spec n (length args)); [done|].
  intros _. lia.
Qed.
Lemma max_test m cb : maxArgs (mkHook m testArgs cb) (Some 3%nat).
Proof. intros args. simpl. unfold testArgs. destruct (Nat.ltb_spec 3 (length args)); [done|]. intros _. lia. Qed.

Lemma max_any h : maxArgs h None.
Proof. done. Qed.

(** Bounds of a table; the table is checked with them. *)
Ltac solve_bounds :=
  repeat (first [apply Forall2_nil_2 | apply Forall2_cons_2;
    [first [apply max_unexpected | apply max_exactly | apply max_test | apply max_any]|]]).

Lemma client_bounds : ∃ bounds, Forall2 maxArgs RegisterClientCommands bounds ∧ unshadowed [] bounds RegisterClientCommands = true.
Proof. eexists. split; [unfold RegisterClientCommands; solve_bounds|vm_compute; reflexivity]. Qed.
Lemma server_bounds : ∃ bounds, Forall2 maxArgs RegisterServerCommands bounds ∧ unshadowed [] bounds RegisterServerCommands = true.
Proof. eexists. split; [unfold RegisterServerCommands; solve_bounds|vm_compute; reflexivity]. Qed.

(** no command hides another.  Whenever the arguments match the pattern of a
    registered command of the client or of the server and pass its check, that
    command is the one that runs, although the first match wins and patterns are
    prefixes of the arguments. *)
Theorem cli_commands_reachable exec args h :
  doExactMatch args (h_matches h) = true → h_validator h args = Ret tt →
  (h ∈ RegisterClientCommands → ParseAndExecute RegisterClientCommands exec args = exec (h_callback h) args) ∧
  (h ∈ RegisterServerCommands → ParseAndExecute RegisterServerCommands exec args = exec (h_callback h) args).
Proof.
  intros Hm Hv. destruct client_bounds as (bc & Bc & Uc), server_bounds as (bs & Bs & Us). split; intros Hin.
  - by apply (unshadowed_runs exec RegisterClientCommands [] bc).
  - by apply (unshadowed_runs exec RegisterServerCommands [] bs).
Qed.

(** A help entry is its words separated by spaces; a word in angle or square
    brackets stands for an argument. *)
Inductive helpWord := Word (w : string) | Placeholder (w : string).

Fixpoint splitSpaces (cur s : string) : list string :=
  match s with
  | "" => [cur]
  | String c s => if (Ascii.eqb c (Ascii.ascii_of_nat 32)) then cur :: splitSpaces "" s else splitSpaces (cur +:+ String c "") s
  end.
Definition helpWords (entry : helpCmdEntry) : list helpWord :=
  (λ w, if String.prefix "<" w || String.prefix "[" w then Placeholder w else Word w) <$> splitSpaces "" (e_cmd entry).

(** The words that are typed as they are, and an entry as typed with [x] for its
    argument. *)
Definition literals (entry : helpCmdEntry) : list string :=
  omap (λ w, match w with Word w => Some w | _ => None end) (helpWords entry).
Definition typed (x : string) (entry : helpCmdEntry) : list string :=
  (λ w, match w with Word w => w | Placeholder p => if bool_decide (p = "[URL]") then "http://" +:+ x else x end) <$> helpWords entry.

Definition hookFor (table : list matchProcessor) (entry : helpCmdEntry) : option matchProcessor :=
  snd <$> list_find (λ h, h_matches h = "" :: literals entry) table.

Definition listed (m : helpFormatter) : list helpCmdEntry := hf_entries m ++ hf_advanced m.

(** An entry of the help text is printed, accepted and runs its command. *)
Definition documented (table : list matchProcessor) (m : helpFormatter) (entry : helpCmdEntry) : Prop :=
  ("  " +:+ e_cmd entry) ∈ print m ∧
  ∀ exec bin x, ∃ h, hookFor table entry = Some h ∧
    ParseAndExecute table exec (bin :: typed x entry) = exec (h_callback h) (bin :: typed x entry).

Lemma printed m entry : entry ∈ listed m → ("  " +:+ e_cmd entry) ∈ print m.
Proof.
  intros Hin. assert (Hone : ∀ l, entry ∈ l → ("  " +:+ e_cmd entry) ∈ l ≫= printEntry).
  { intros l Hl. apply list_elem_of_bind. exists entry. split; [apply list_elem_of_here|exact Hl]. }
  unfold print. apply elem_of_app in Hin as [Hin|Hin].
  - apply elem_of_app. right. apply elem_of_app. left. rewrite bool_decide_eq_false_2; [|by intros E; rewrite E in Hin; inversion Hin].
    apply list_elem_of_further, Hone, Hin.
  - apply elem_of_app. right. apply elem_of_app. right. rewrite bool_decide_eq_false_2; [|by intros E; rewrite E in Hin; inversion Hin].
    apply list_elem_of_further, Hone, Hin.
Qed.

Ltac solve_documented :=
  repeat (apply Forall_cons; split; [intros exec bin x; first [by eexists|by destruct x; eexists]|]); apply Forall_nil_2.

Lemma client_entries_run : Forall (λ entry, ∀ exec bin x, ∃ h, hookFor RegisterClientCommands entry = Some h ∧
  ParseAndExecute RegisterClientCommands exec (bin :: typed x entry) = exec (h_callback h) (bin :: typed x entry)) (listed clientHelpFunc).
Proof. unfold listed, clientHelpFunc; simpl. solve_documented. Qed.
Lemma server_entries_run : Forall (λ entry, ∀ exec bin x, ∃ h, hookFor RegisterServerCommands entry = Some h ∧
  ParseAndExecute RegisterServerCommands exec (bin :: typed x entry) = exec (h_callback h) (bin :: typed x entry)) (listed serverHelpFunc).
Proof. unfold listed, serverHelpFunc; simpl. solve_documented. Qed.

(** the help text is true.  Every command that the help of the client or of
    the server lists is printed, and typed with any argument (for the URL of
    test, any that begins with its scheme) it is accepted and runs the command
    registered for it; every registered command is listed. *)
Theorem cli_help_is_true :
  Forall (documented RegisterClientCommands clientHelpFunc) (listed clientHelpFunc) ∧
  Forall (documented RegisterServerCommands serverHelpFunc) (listed serverHelpFunc) ∧
  Forall (λ h, h_matches h ∈ (λ entry, "" :: literals entry) <$> listed clientHelpFunc) RegisterClientCommands ∧
  Forall (λ h, h_matches h ∈ (λ entry, "" :: literals entry) <$> listed serverHelpFunc) RegisterServerCommands.
Proof.
  split_and!.
  - apply Forall_forall. intros entry Hin. split; [by apply printed|]. by apply (proj1 (Forall_forall _ _) client_entries_run).
  - apply Forall_forall. intros entry Hin. split; [by apply printed|]. by apply (proj1 (Forall_forall _ _) server_entries_run).
  - apply (bool_decide_unpack _); vm_compute; exact I.
  - apply (bool_decide_unpack _); vm_compute; exact I.
Qed.

Definition demoHook : matchProcessor := mkHook [""; "export"; "config"] (unexpectedArgsError 3) "clientExportConfigFunc".

(** The callback shows in the result. *)
Definition demoExec (cb : string) (_ : list string) : outcome unit := Err (Errorf cb).

Lemma cli_commands_reachable_witness :
  ParseAndExecute RegisterClientCommands demoExec ["mieru"; "export"; "config"] = Err (Errorf "clientExportConfigFunc").
Proof.
  apply (cli_commands_reachable demoExec ["mieru"; "export"; "config"] demoHook); [reflexivity|reflexivity|].
  apply (list_elem_of_lookup_2 _ 11%nat). reflexivity.
Defined.

End Cli.
Export Cli.
