(* ===== verification/MitaCli.v ===== *)
(** * Commands of the server program: pkg/cli/server.go, pkg/appctl/server.go

    The commands talk to the daemon over its management service.  A daemon is the
    state of its service, or [None] when none listens and connections are refused.
    A command returns what it prints, one line per entry.  A call that ends the
    daemon is an error of the call.  Texts of errors are their formats. *)

From S2P Require Import Prelude Mathext Common Rng Cipher Segment SessionState Session Scheduler Socks Net SocksUDP Dns.
From S2P Require Import Egress SocksAuth TrafficPattern Mux PortBinding ConfigServer ServerControl.
Local Open Scope Z_scope.

Module MitaCli.

Definition ServerNotRunningWithCommand : string := "mita server daemon is not running; please run command to start server daemon".
Definition ServerNotRunningErr : string := "mita server daemon is not running: %w".
Definition ServerProxyNotRunningErr : string := "mita server proxy is not running: %w".
Definition Unavailable : string := "rpc error: code = Unavailable".

(** The name of a status, in quotes. *)
Definition statusName (st : AppStatus) : string :=
  match st with UNKNOWN => "UNKNOWN" | IDLE => "IDLE" | STARTING => "STARTING" | RUNNING => "RUNNING" | STOPPING => "STOPPING" end.
Definition quote : bytes := [34].
Definition statusLine (st : AppStatus) : bytes := string_bytes "mita server status is " ++ quote ++ string_bytes (statusName st) ++ quote.

#[global] Instance AppStatus_eq_dec : EqDecision AppStatus.
Proof. solve_decision. Defined.

Definition IsServerDaemonRunning (st : AppStatus) : outcome unit :=
  if bool_decide (st = UNKNOWN) then Err (Errorf "mita server status is %q") else Ret tt.
Definition IsServerProxyRunning (st : AppStatus) : outcome unit :=
  let! _ := IsServerDaemonRunning st in
  if bool_decide (st = RUNNING) then Ret tt else Err (Errorf "mita server status is %q").

Section Commands.
Context {V T : Type} `{BTree T} `{MuxUnderlay V T}.
Context (parseDuration : bytes → outcome Z)
        (marshal : PbServerConfig → outcome bytes) (unmarshal : bytes → outcome PbServerConfig)
        (marshalJSON : PbServerConfig → outcome bytes) (unmarshalJSON : bytes → outcome PbServerConfig).
Context (net : muxNet) (dualStack : bool) (hostSeed : Z).
Notation daemon := (option (service V)).

(** A call of the management service. *)
Definition rpc {A} (f : service V → outcome A * service V) (d : daemon) : outcome A * daemon :=
  match d with
  | None => (Err (Errorf Unavailable), None)
  | Some s =>
      match f s with
      | (Ret x, s) => (Ret x, Some s)
      | (Err e, s) => (Err e, Some s)
      | (Panic _, _) => (Err (Errorf Unavailable), None)
      end
  end.

Definition GetServerStatusWithRPC (d : daemon) : outcome AppStatus := (rpc (λ s, (Ret (s_status s), s)) d).1.

(** How the commands begin: the status of a daemon that is running. *)
Definition withDaemon {A} (f : AppStatus → daemon → outcome A * daemon) (d : daemon) : outcome A * daemon :=
  match GetServerStatusWithRPC d with
  | Ret st => if is_ret (IsServerDaemonRunning st) then f st d else (Err (Errorf ServerNotRunningErr), d)
  | _ => (Err (Errorf ServerNotRunningWithCommand), d)
  end.

(** A call whose failure is reported with the format [fmt]. *)
Definition call {A B} (fmt : string) (f : service V → outcome A * service V) (next : A → daemon → outcome B * daemon) (d : daemon)
    : outcome B * daemon :=
  match rpc f d with
  | (Ret x, d) => next x d
  | (_, d) => (Err (Errorf fmt), d)
  end.

Definition says (line : bytes) {A} (_ : A) (d : daemon) : outcome (list bytes) * daemon := (Ret [line], d).

Definition serverStartFunc : daemon → outcome (list bytes) * daemon := withDaemon (λ st d,
  if is_ret (IsServerProxyRunning st) then (Ret [string_bytes "mita server proxy is running"], d)
  else call "start mita server proxy failed: %w" (StartRPC parseDuration unmarshal net dualStack hostSeed)
         (says (string_bytes "mita server proxy is started")) d).

Definition serverStopFunc (now : Z) : daemon → outcome (list bytes) * daemon := withDaemon (λ st d,
  if negb (is_ret (IsServerProxyRunning st)) then (Err (Errorf ServerProxyNotRunningErr), d)
  else call "stop mita server proxy failed: %w" (Stop now) (says (string_bytes "mita server proxy is stopped")) d).

Definition serverReloadFunc : daemon → outcome (list bytes) * daemon := withDaemon (λ _ d,
  call "reload mita server failed: %w" (Reload parseDuration unmarshal net dualStack) (says (string_bytes "mita server is reloaded")) d).

Definition serverStatusFunc : daemon → outcome (list bytes) * daemon := withDaemon (λ st d, (Ret [statusLine st], d)).

(** [file]: what reading the file of the argument gives. *)
Definition serverApplyConfigFunc (file : option bytes) : daemon → outcome (list bytes) * daemon := withDaemon (λ _ d,
  match (let! b := (match file with Some b => Ret b | None => Err (Errorf "os.ReadFile(%q) failed: %w") end) in
         let! patch := (match unmarshalJSON b with Ret c => Ret c | _ => Err (Errorf "common.UnmarshalJSON() failed: %w") end) in
         if is_ret (ValidateServerConfigPatch parseDuration patch) then Ret patch
         else Err (Errorf "validate server config patch failed: %w")) with
  | Ret patch => call "set mita server config failed: %w" (SetConfig marshal unmarshal patch) (λ _ d, (Ret [], d)) d
  | Err e => (Err e, d)
  | Panic p => (Panic p, d)
  end).

(** The [GetConfig] call. *)
Definition GetConfig (s : service V) : outcome PbServerConfig * service V :=
  (match LoadServerConfig unmarshal (s_file s) with
   | Ret c => Ret c
   | _ => Err (Errorf "LoadServerConfig() failed: %w")
   end, s).

Definition serverDescribeConfigFunc : daemon → outcome (list bytes) * daemon := withDaemon (λ _ d,
  call "get mita server config failed: %w" GetConfig (λ c d,
    match marshalJSON c with Ret b => (Ret [b], d) | _ => (Err (Errorf "common.MarshalJSON() failed: %w"), d) end) d).

Definition serverDeleteUserFunc (names : list string) : daemon → outcome (list bytes) * daemon := withDaemon (λ _ d,
  call "get mita server config failed: %w" GetConfig (λ c d,
    call "set mita server config failed: %w"
      (SetConfig marshal unmarshal (set_users (filter (λ u, pu_name u ∉ names) (sc_users c)) c)) (λ _ d, (Ret [], d)) d) d).

(** The [Exit] call: the service stops the proxy and then itself. *)
Definition Exit (now : Z) (d : daemon) : outcome unit * daemon :=
  match rpc (Stop now) d with (Ret _, _) => (Ret tt, None) | (r, d) => (r, d) end.

(** ** Properties *)

Context (marshal_unmarshal : ∀ c, onWire c → ∃ b, marshal c = Ret b ∧ unmarshal b = Ret c).
Notation Load := (LoadServerConfig unmarshal).

Lemma withDaemon_ret {A} (f : AppStatus → daemon → outcome A * daemon) d x d' : withDaemon f d = (Ret x, d') →
  ∃ s, d = Some s ∧ s_status s ≠ UNKNOWN ∧ f (s_status s) (Some s) = (Ret x, d').
Proof.
  unfold withDaemon, GetServerStatusWithRPC. destruct d as [s|]; cbn; [|done]. unfold IsServerDaemonRunning.
  case_bool_decide; cbn; [done|]. intros E. by exists s.
Qed.

Lemma call_ret {A B} fmt (f : service V → outcome A * service V) (next : A → daemon → outcome B * daemon) s x d' :
  call fmt f next (Some s) = (Ret x, d') → ∃ y s1, f s = (Ret y, s1) ∧ next y (Some s1) = (Ret x, d').
Proof. unfold call, rpc. destruct (f s) as [[y|e|p] s1]; [|done..]. intros E. by exists y, s1. Qed.

Lemma set_config_effect c (s : service V) : onWire c → ∃ f, SetConfig marshal unmarshal c s = (Ret (stored c), set_file f s) ∧ Load f = Ret (stored c).
Proof.
  intros Hw. destruct (Store_Load marshal unmarshal marshal_unmarshal c Hw) as (f & Hs & Hl). exists f. unfold SetConfig. by rewrite Hs, Hl.
Qed.

(** Applying a configuration stores it in place of the old one. *)
Lemma apply_effect b d lines d' : (∀ c, unmarshalJSON b = Ret c → onWire c) → serverApplyConfigFunc (Some b) d = (Ret lines, d') →
  ∃ s c f, d = Some s ∧ d' = Some (set_file f s) ∧ unmarshalJSON b = Ret c ∧ ValidateServerConfigPatch parseDuration c = Ret tt ∧ Load f = Ret (stored c).
Proof.
  intros Hwire (s & -> & _ & E)%withDaemon_ret. cbn [obind] in E. destruct (unmarshalJSON b) as [c| |]; cbn [obind] in E; [|done..].
  destruct (ValidateServerConfigPatch parseDuration c) as [[]| |] eqn:Ev; cbn in E; [|done..].
  apply call_ret in E as (y & s1 & Hs & [= _ <-]). destruct (set_config_effect c s (Hwire c eq_refl)) as (f & Hf & Hl). rewrite Hf in Hs. injection Hs as <- <-.
  by exists s, c, f.
Qed.

(** What a reload leaves: the same files and references, and in the mux that is
    referred to the users that are stored. *)
Lemma reload_effect d lines d' : serverReloadFunc d = (Ret lines, d') →
  ∃ s s' c, d = Some s ∧ d' = Some s' ∧ Load (s_file s) = Ret c ∧ ValidateFullServerConfig parseDuration c = Ret tt ∧
    s_file s' = s_file s ∧ s_socks s' = s_socks s ∧ s_muxRef s' = s_muxRef s ∧ s_cache s' = s_cache s ∧
    (∀ id, is_Some (s_muxes s !! id) → is_Some (s_muxes s' !! id)) ∧
    (∀ id, s_muxRef s = Some id → ∃ mux, s_muxes s' !! id = Some mux ∧ m_users mux = muxUsers (sc_users c)).
Proof.
  intros (s & -> & _ & E)%withDaemon_ret. apply call_ret in E as ([] & s1 & Hr & [= _ <-]). unfold Reload in Hr.
  destruct (Load (s_file s)) as [c| |] eqn:El; [|done..]. destruct (ValidateFullServerConfig parseDuration c) as [[]| |] eqn:Ev; [|done..].
  exists s, s1, c. destruct (s_muxRef s) as [id|] eqn:Er.
  2: { injection Hr as <-. by split_and!. }
  destruct (s_muxes s !! id) as [mux|] eqn:Em; [|done]. destruct (reloadMux _ _ _ _) as [mux'| |] eqn:Eu; [|done..]. injection Hr as <-.
  split_and!; try done; cbn.
  { intros id' Hid. destruct (decide (id' = id)) as [->|Hne]; [rewrite lookup_insert_eq; by eexists|by rewrite lookup_insert_ne]. }
  intros id' [= <-]. exists mux'. split; [apply lookup_insert_eq|].
  unfold reloadMux in Eu. destruct (PortBindingsToUnderlayProperties _ _ _) as [eps| |]; cbn [obind] in Eu; [|done..].
  destruct (SetServerUsers _ _) as [m1| |] eqn:Es; cbn [obind] in Eu; [|done..].
  unfold SetServerUsers in Es. case_if_in Es; [done|]. injection Es as <-. unfold SetServerUserHintIsMandatory in Eu. case_if_in Eu; [done|]. by injection Eu as <-.
Qed.

Context `{!MuxUnderlayLaws V T}.

(** If the proxy runs, the mux that it serves has these users. *)
Definition serves (us : Users) (s : service V) : Prop :=
  ∀ id k, s_socks s = Some (id, k) → ∃ mux, s_muxes s !! id = Some mux ∧ m_users mux = us.

(** If the proxy runs, it serves the mux that a reload changes: that of the start
    of the daemon, not of a later start by a call. *)
Definition reaches (s : service V) : Prop :=
  ∀ id k, s_socks s = Some (id, k) → s_muxRef s = Some id.

Lemma built_cache c cache mux k cache' : Rng.cache_coherent string_bytes cache → ValidateFullServerConfig parseDuration c = Ret tt →
  buildServer net dualStack hostSeed c cache = Ret (mux, k, cache') → Rng.cache_coherent string_bytes cache'.
Proof.
  intros Hc Hv Hb. apply ValidateFull_ret in Hv as [[_ _ _ _ _ _ Htp] _].
  assert (Htp' : Validate (Some (default emptyPattern (sc_trafficPattern c))) = Ret tt) by (by destruct (sc_trafficPattern c)).
  destruct (NewConfig_value hostSeed (sc_trafficPattern c) cache Hc Htp') as (cache1 & Hcfg & Hc1).
  unfold buildServer in Hb. rewrite Hcfg in Hb. cbn [obind] in Hb. do 4 apply obind_ret_inv in Hb as (? & _ & Hb).
  by injection Hb as _ _ <-.
Qed.

(** Starting the proxy of a valid configuration with a user: the daemon lives on,
    with the same file, and the mux that is served has the stored users. *)
Lemma start_effect s c : Load (s_file s) = Ret c → ValidateFullServerConfig parseDuration c = Ret tt → sc_users c ≠ [] →
  Rng.cache_coherent string_bytes (s_cache s) → serves (muxUsers (sc_users c)) s →
  ∃ s', (serverStartFunc (Some s)).2 = Some s' ∧ s_file s' = s_file s ∧ Rng.cache_coherent string_bytes (s_cache s') ∧ serves (muxUsers (sc_users c)) s'.
Proof.
  intros Hl Hv Hu Hc Hs. unfold serverStartFunc, withDaemon, GetServerStatusWithRPC. cbn [rpc fst].
  case_if; [|by exists s]. case_if; [by exists s|]. unfold call, rpc, StartRPC. rewrite Hl, Hv.
  destruct (s_socks s) as [k0|] eqn:Ek; [by exists s|].
  destruct (buildServer_ok parseDuration net dualStack hostSeed c (s_cache s) Hv Hc) as (mux & k & cache' & Hb & B1 & B2 & B3 & B4 & B5 & B6 & _).
  unfold startProxy. cbn [s_cache set_status]. rewrite Hb.
  destruct (Start_listens net mux) as (m' & -> & S1 & _); [done|rewrite B4; by apply muxUsers_nonempty|done..|].
  eexists. split; [reflexivity|]. cbn. split; [done|]. split; [by eapply built_cache|].
  intros id' k' [= <- <-]. exists m'. cbn. split; [apply lookup_insert_eq|congruence].
Qed.
End Commands.

End MitaCli.
Export MitaCli.
