(* ===== verification/CliTables.v ===== *)
(** * Tables that the commands print: pkg/cli/shared.go, pkg/cli/server.go (get
    users, get quotas), pkg/common/format.go, pkg/metrics/export.go (FromMetricPB)

    A table is printed with its columns padded to their widths and two spaces
    between them.  Times are formatted by a parameter. *)

From S2P Require Import Prelude Float Net SessionState Mux ConfigServer Metrics.
From Stdlib Require Import Floats.SpecFloat.
Local Open Scope Z_scope.

Module CliTables.

(** ** Byte counts *)

(** [%.1f]: the exact value times ten, rounded to the nearest integer, halves to
    even. *)
Definition tenths (x : float) : Z :=
  match x with
  | S754_finite s m e =>
      let n := 10 * Zpos m in
      let r := if 0 <=? e then n * 2 ^ e
               else let d := 2 ^ (- e) in
                    let q := n / d in
                    let t := 2 * (n `mod` d) in
                    if (d <? t) || ((t =? d) && Z.odd q) then q + 1 else q in
      if s then - r else r
  | _ => 0
  end.
Definition fixed1 (x : float) : bytes :=
  let t := tenths x in
  (if t <? 0 then [45] else []) ++ Itoa (Z.abs t / 10) ++ [46] ++ Itoa (Z.abs t `mod` 10).

(** The loop runs while [n] has another power of 1024: at most six times. *)
Fixpoint iecLoop (fuel : nat) (n div exp : Z) : Z * Z :=
  match fuel with
  | O => (div, exp)
  | S fuel => if 1024 <=? n then iecLoop fuel (n / 1024) (i64 (div * 1024)) (exp + 1) else (div, exp)
  end.

Definition ByteCountIEC (b : Z) : outcome bytes :=
  if b <? 1024 then Ret (Itoa b ++ string_bytes "B")
  else
    let '(div, exp) := iecLoop 7 (b / 1024) 1024 0 in
    match string_bytes "KMGTP" !! Z.to_nat exp with
    | Some c => Ret (fixed1 (fdiv binary64 (of_Z binary64 b) (of_Z binary64 div)) ++ [c] ++ string_bytes "iB")
    | None => Panic "index out of range"
    end.

(** ** Tables *)

(** The runes of a text in UTF-8: the bytes that do not continue one. *)
Definition runes (s : bytes) : Z := len (filter (λ c, ¬ (128 ≤ c < 192)) s).

(** [%-ns] *)
Definition padRight (n : Z) (s : bytes) : bytes := s ++ replicate (Z.to_nat (n - runes s)) 32.

Definition join (delim : bytes) (l : list bytes) : bytes :=
  match l with [] => [] | x :: l => x ++ concat ((λ y, delim ++ y) <$> l) end.

(** The widths of the columns. *)
Definition widths (table : list (list bytes)) : list Z :=
  foldl (λ ws row, zip_with Z.max ws (len <$> row)) (replicate (length (default [] (head table))) 0) table.

Definition printTable (table : list (list bytes)) (delim : bytes) : outcome (list bytes) :=
  match table with
  | [] | [] :: _ => Ret []
  | first :: _ =>
      if forallb (λ row, (length row =? length first)%nat) table
      then Ret ((λ row, join delim (zip_with padRight (widths table) row)) <$> table)
      else Panic "when print table, row %v has %d columns, expect %d"
  end.

Definition twoSpaces : bytes := [32; 32].

(** ** Users *)

Definition usersHeader : list bytes :=
  string_bytes <$> ["User"; "LastActive"; "1DayDown"; "1DayUp"; "7DaysDown"; "7DaysUp"; "30DaysDown"; "30DaysUp"].

Section Rows.
Context (rfc3339 : Z → bytes).

(** A metric of a message; the loading of a counter may roll up its history. *)
Definition FromMetricPB (now : Z) (clock : nat → nat → Z) (src : PbMetric) : outcome Metric :=
  match pm_type src with
  | METRIC_UNSPECIFIED => Err (Errorf "metric type %v is invalid")
  | METRIC_COUNTER => Ret (MCounter (loadCounterFromMetricPB now clock src (mkCounter (pm_name src) 0 false [] 0)))
  | METRIC_COUNTER_TIME_SERIES => Ret (MCounter (loadCounterFromMetricPB now clock src (mkCounter (pm_name src) 0 true [] 0)))
  | METRIC_GAUGE => Ret (MGauge (mkGauge (pm_name src) (pm_value src)))
  end.

(** The counters of a user among the metrics of the reply: the last of a name. *)
Fixpoint userCounters (now : Z) (clock : nat → nat → Z) (ms : list PbMetric) (down up : option Counter) : outcome (option Counter * option Counter) :=
  match ms with
  | [] => Ret (down, up)
  | m :: ms =>
      if bool_decide (pm_name m = UserMetricDownloadBytes) then
        let! x := FromMetricPB now clock m in let! c := asCounter x in userCounters now clock ms (Some c) up
      else if bool_decide (pm_name m = UserMetricUploadBytes) then
        let! x := FromMetricPB now clock m in let! c := asCounter x in userCounters now clock ms down (Some c)
      else userCounters now clock ms down up
  end.

Definition dash : bytes := string_bytes "-".

(** The bytes of the last hours. *)
Definition recent (now hours : Z) (c : option Counter) : outcome bytes :=
  match c with
  | None => Ret dash
  | Some c => let! (n, _) := DeltaBetween (now - hours * Hour) now c in ByteCountIEC n
  end.
Definition lastUpdate (c : option Counter) : outcome (option Z) :=
  match c with None => Ret None | Some c => let! (t, _) := LastUpdateTime c in Ret t end.

(** The later of the two times, upload when they are equal. *)
Definition lastActive (down up : option Z) : bytes :=
  match down, up with
  | None, None => dash
  | Some d, None => rfc3339 d
  | None, Some u => rfc3339 u
  | Some d, Some u => if u <? d then rfc3339 d else rfc3339 u
  end.

Definition userRow (now : Z) (name : bytes) (down up : option Counter) : outcome (list bytes) :=
  let! d := lastUpdate down in
  let! d1 := recent now 24 down in
  let! d7 := recent now 168 down in
  let! d30 := recent now 720 down in
  let! u := lastUpdate up in
  let! u1 := recent now 24 up in
  let! u7 := recent now 168 up in
  let! u30 := recent now 720 up in
  Ret [name; lastActive d u; d1; u1; d7; u7; d30; u30].

(** A user of the reply with the metrics. *)
Definition userWithMetrics : Type := PbUser * list PbMetric.

(** Each user with the time that is read at its turn. *)
Fixpoint userRows (now : Z) (clock : nat → nat → Z) (items : list (Z * userWithMetrics)) : outcome (list (list bytes)) :=
  match items with
  | [] => Ret []
  | (t, (u, ms)) :: items =>
      let! (down, up) := userCounters now clock ms None None in
      let! row := userRow t (string_bytes (pu_name u)) down up in
      let! rows := userRows now clock items in
      Ret (row :: rows)
  end.

Definition usersTable (now : Z) (clock : nat → nat → Z) (items : list (Z * userWithMetrics)) : outcome (list bytes) :=
  let! rows := userRows now clock items in printTable (usersHeader :: rows) twoSpaces.

(** ** Quotas *)

Definition quotasHeader : list bytes := string_bytes <$> ["User"; "Days"; "Limit"; "Usage"].

(** [clock k]: the [k]-th reading of the time, four per row. *)
Fixpoint quotaRows (clock : nat → Z) (k : nat) (name : bytes) (down up : Counter) (qs : list Quota) : outcome (list (list bytes)) :=
  match qs with
  | [] => Ret []
  | q :: qs =>
      let ago (t : Z) := t + i64 (i64 (i64 (-24 * quotaDays q) * Hour)) in
      let! limit := ByteCountIEC (i64 (quotaMegabytes q * 1048576)) in
      let! (d, down) := DeltaBetween (ago (clock k)) (clock (k + 1)%nat) down in
      let! (u, up) := DeltaBetween (ago (clock (k + 2)%nat)) (clock (k + 3)%nat) up in
      let! usage := ByteCountIEC (i64 (d + u)) in
      let! rows := quotaRows clock (k + 4) name down up qs in
      Ret ([name; Itoa (quotaDays q); limit; usage] :: rows)
  end.

(** Users without quotas, or without both counters, are left out. *)
Fixpoint quotaTableRows (clock : nat → Z) (now : Z) (roll : nat → nat → Z) (k : nat) (items : list userWithMetrics) : outcome (list (list bytes)) :=
  match items with
  | [] => Ret []
  | (u, ms) :: items =>
      if bool_decide (pu_quotas u = []) then quotaTableRows clock now roll k items
      else
        let! (down, up) := userCounters now roll ms None None in
        match down, up with
        | Some d, Some c =>
            let! rows := quotaRows clock k (string_bytes (pu_name u)) d c (pu_quotas u) in
            let! rest := quotaTableRows clock now roll (k + 4 * length (pu_quotas u)) items in
            Ret (rows ++ rest)
        | _, _ => quotaTableRows clock now roll k items
        end
  end.

Definition quotasTable (clock : nat → Z) (now : Z) (roll : nat → nat → Z) (items : list userWithMetrics) : outcome (list bytes) :=
  let! rows := quotaTableRows clock now roll 0 items in printTable (quotasHeader :: rows) twoSpaces.
End Rows.

(** The reply of [GetUsers]: the stored users, each with the metrics of its
    group in the order that the group gives them. *)
Definition GetMetricsForUser (reg : registry) (userName : string) : list Metric :=
  match GetMetricGroupByName (UserMetricGroup userName) reg with
  | None => []
  | Some g => (λ x, x.2) <$> map_to_list (mg_metrics g)
  end.
Definition usersReply (reg : registry) (c : PbServerConfig) : list userWithMetrics :=
  (λ u, (u, (λ m, (ToMetricPB m).1) <$> GetMetricsForUser reg (pu_name u))) <$> sc_users c.

(** * Properties *)

Lemma digits_text fuel : ∀ n, 0 ≤ n → Forall (λ c, 48 ≤ c ≤ 57) (digits fuel n).
Proof.
  induction fuel as [|fuel IH]; intros n Hn; [constructor|]. cbn [digits]. destruct (Z.ltb_spec n 10); [constructor; [lia|constructor]|].
  apply Forall_app. split; [apply IH, Z.div_pos; lia|]. constructor; [|constructor]. pose proof (Z.mod_pos_bound n 10). lia.
Qed.

(** Visible characters only, and at least one. *)
Definition visible (s : bytes) : Prop := s ≠ [] ∧ Forall (λ c, 33 ≤ c < 127) s.

Lemma Itoa_visible n : 0 ≤ n → visible (Itoa n).
Proof.
  intros Hn. unfold Itoa. rewrite (proj2 (Z.ltb_ge n 0)) by lia. split.
  - change (digits 20 n) with (if n <? 10 then [48 + n] else digits 19 (n / 10) ++ [48 + n `mod` 10]). destruct (n <? 10); [done|].
    intros [_ ?]%app_eq_nil. done.
  - eapply Forall_impl; [by apply digits_text|]. cbn. lia.
Qed.

Lemma fixed1_visible x : visible (fixed1 x).
Proof.
  unfold fixed1. set (t := tenths x). destruct (Itoa_visible (Z.abs t / 10)) as [Hne H1]; [apply Z.div_pos; lia|].
  destruct (Itoa_visible (Z.abs t `mod` 10)) as [_ H2]; [apply Z.mod_pos_bound; lia|]. split.
  - destruct (t <? 0); [done|]. by destruct (Itoa (Z.abs t / 10)).
  - repeat (apply Forall_app; split); try done; [destruct (t <? 0)|]; by apply (bool_decide_unpack _).
Qed.

(** The exponent of a count. *)
Lemma iecLoop_exp fuel : ∀ n div exp k, 1 ≤ n < 1024 ^ (k + 1) → (0 < k → 1024 ^ k ≤ n) → 0 ≤ k < Z.of_nat fuel → (iecLoop fuel n div exp).2 = exp + k.
Proof.
  induction fuel as [|fuel IH]; intros n div exp k Hn Hk Hf; [lia|]. cbn [iecLoop]. destruct (Z.leb_spec 1024 n) as [Hge|Hlt].
  - assert (0 < k) as Hpos. { destruct (decide (k = 0)) as [->|]; [|lia]. change (1024 ^ (0 + 1)) with 1024 in Hn. lia. }
    specialize (Hk Hpos). rewrite (IH _ _ _ (k - 1)); [lia| | |lia].
    + split; [apply Z.div_le_lower_bound; lia|]. apply Z.div_lt_upper_bound; [lia|]. rewrite <- Z.pow_succ_r by lia. replace (Z.succ (k - 1 + 1)) with (k + 1) by lia. lia.
    + intros Hk1. apply Z.div_le_lower_bound; [lia|]. rewrite <- Z.pow_succ_r by lia. replace (Z.succ (k - 1)) with k by lia. lia.
  - destruct (decide (k = 0)) as [->|]; [cbn; lia|]. assert (1024 ^ 1 ≤ 1024 ^ k) by (apply Z.pow_le_mono_r; lia). specialize (Hk ltac:(lia)). lia.
Qed.

(** A byte count is printed without a space for every count below 2^60, and the
    program panics from there on, where it has no unit. *)
Lemma byte_count_bounds b : 0 ≤ b < 2 ^ 63 →
  if b <? 2 ^ 60 then ∃ s, ByteCountIEC b = Ret s ∧ visible s else ∃ p, ByteCountIEC b = Panic p.
Proof.
  intros Hb. unfold ByteCountIEC. destruct (Z.ltb_spec b 1024) as [Hs|Hs].
  { rewrite (proj2 (Z.ltb_lt b (2 ^ 60))) by lia. eexists. split; [reflexivity|]. destruct (Itoa_visible b) as [Hn Hv]; [lia|].
    split; [by destruct (Itoa b)|]. apply Forall_app. split; [done|]. by apply (bool_decide_unpack _). }
  assert (Hn : 1 ≤ b / 1024) by (apply Z.div_le_lower_bound; lia).
  assert (Hk : ∃ k, 0 ≤ k < 6 ∧ b / 1024 < 1024 ^ (k + 1) ∧ (0 < k → 1024 ^ k ≤ b / 1024) ∧ (k = 5 ↔ 2 ^ 60 ≤ b)).
  { assert (Hlow : ∀ k, 1024 * k ≤ b → k ≤ b / 1024) by (intros k Hk; apply Z.div_le_lower_bound; lia).
    assert (Hup : ∀ k, b < 1024 * k → b / 1024 < k) by (intros k Hk; apply Z.div_lt_upper_bound; lia).
    destruct (Z.ltb_spec b (1024 ^ 2)); [exists 0|destruct (Z.ltb_spec b (1024 ^ 3)); [exists 1|destruct (Z.ltb_spec b (1024 ^ 4)); [exists 2|
      destruct (Z.ltb_spec b (1024 ^ 5)); [exists 3|destruct (Z.ltb_spec b (1024 ^ 6)); [exists 4|exists 5]]]]];
      (split; [lia|split; [apply Hup; lia|split; [intros _; apply Hlow; lia|lia]]]). }
  destruct Hk as (k & Hk1 & Hk2 & Hk3 & Hk4). pose proof (iecLoop_exp 7 (b / 1024) 1024 0 k ltac:(lia) Hk3 ltac:(lia)) as He.
  destruct (iecLoop 7 (b / 1024) 1024 0) as [div exp]. cbn [snd] in He. rewrite Z.add_0_l in He. subst exp.
  destruct (Z.ltb_spec b (2 ^ 60)) as [Hlt|Hge].
  - assert (∃ c, string_bytes "KMGTP" !! Z.to_nat k = Some c ∧ 33 ≤ c < 127) as (c & -> & Hc).
    { assert (k = 0 ∨ k = 1 ∨ k = 2 ∨ k = 3 ∨ k = 4) as [-> |[-> |[-> |[-> | ->]]]] by lia; (eexists; split; [reflexivity|split; by apply (bool_decide_unpack _)]). }
    eexists. split; [reflexivity|]. destruct (fixed1_visible (fdiv binary64 (of_Z binary64 b) (of_Z binary64 div))) as [Hne Hv]. split; [by destruct (fixed1 _)|].
    apply Forall_app. split; [done|]. apply Forall_cons. split; [lia|]. by apply (bool_decide_unpack _).
  - assert (k = 5) as -> by (by apply Hk4). by eexists.
Qed.

End CliTables.
Export CliTables.
