(* ===== verification/PanelText.v ===== *)
(** * Text and signatures of the web panel

    What mieru-panel uses of Go's strings, strconv, encoding/base64 and
    crypto/hmac, and the tokens of handlers/auth.go and handlers/challenge.go
    that are built from them.  A Go string is its bytes.  Times are nanoseconds
    since the Unix epoch. *)

From S2P Require Import Prelude Common Sha256 Cipher Net TrafficPattern Mux PortBinding ConfigServer.
From Stdlib Require Import ZifyBool.
Local Open Scope Z_scope.

Module PanelText.

(** ** strings *)

(** The encodings of the runes that [unicode.IsSpace] accepts. *)
Definition spaces : list bytes :=
  [[9]; [10]; [11]; [12]; [13]; [32]; [0xC2; 0x85]; [0xC2; 0xA0]; [0xE1; 0x9A; 0x80]] ++
  ((λ b, [0xE2; 0x80; b]) <$> [0x80; 0x81; 0x82; 0x83; 0x84; 0x85; 0x86; 0x87; 0x88; 0x89; 0x8A; 0xA8; 0xA9; 0xAF]) ++
  [[0xE2; 0x81; 0x9F]; [0xE3; 0x80; 0x80]].

Definition stripPrefix (p s : bytes) : option bytes :=
  if bool_decide (take (length p) s = p) then Some (drop (length p) s) else None.

(** Removing prefixes of a list for as long as one matches. *)
Fixpoint stripAll (fuel : nat) (ps : list bytes) (s : bytes) : bytes :=
  match fuel with
  | O => s
  | S fuel => match head (omap (λ p, stripPrefix p s) ps) with Some s' => stripAll fuel ps s' | None => s end
  end.

Definition TrimLeftSpace (s : bytes) : bytes := stripAll (length s) spaces s.
Definition TrimRightSpace (s : bytes) : bytes := rev (stripAll (length s) (map (@rev Z) spaces) (rev s)).
Definition TrimSpace (s : bytes) : bytes := TrimRightSpace (TrimLeftSpace s).

(** [strings.Split] at a byte. *)
Fixpoint Split (sep : Z) (s : bytes) : list bytes :=
  match s with
  | [] => [[]]
  | c :: s =>
      if c =? sep then [] :: Split sep s
      else match Split sep s with p :: ps => (c :: p) :: ps | [] => [[c]] end
  end.

(** [strings.ReplaceAll] of a byte by nothing. *)
Definition removeByte (c : Z) (s : bytes) : bytes := List.filter (λ x, negb (x =? c)) s.

(** Upper and lower case: the bytes of an ASCII string, and a function of the
    Unicode tables for any other. *)
Definition is_ascii (s : bytes) : bool := forallb (λ c, c <? 128) s.
Definition upperByte (c : Z) : Z := if (97 <=? c) && (c <=? 122) then c - 32 else c.
Definition lowerByte (c : Z) : Z := if (65 <=? c) && (c <=? 90) then c + 32 else c.
Definition ToUpper (unicode : bytes → bytes) (s : bytes) : bytes := if is_ascii s then map upperByte s else unicode s.
Definition ToLower (unicode : bytes → bytes) (s : bytes) : bytes := if is_ascii s then map lowerByte s else unicode s.

(** [strings.Contains]. *)
Fixpoint Contains (s sub : bytes) : bool :=
  bool_decide (take (length sub) s = sub) || match s with [] => false | _ :: s => Contains s sub end.

(** The inverse of [string_bytes] on bytes. *)
Definition bytes_string (b : bytes) : string := foldr (λ z s, String (Ascii.ascii_of_N (Z.to_N z)) s) "" b.

Lemma bytes_string_bytes b : Forall (λ c, 0 ≤ c < 256) b → string_bytes (bytes_string b) = b.
Proof.
  induction 1 as [|z b Hz _ IH]; [done|]. unfold string_bytes in *. cbn. f_equal; [|exact IH].
  rewrite Ascii.N_ascii_embedding by lia. lia.
Qed.

Lemma string_bytes_string s : bytes_string (string_bytes s) = s.
Proof.
  unfold string_bytes, bytes_string. induction s as [|c s IH]; [done|]. cbn. rewrite N2Z.id, Ascii.ascii_N_embedding. by f_equal.
Qed.

Lemma string_bytes_ok s : bytes_ok (string_bytes s).
Proof.
  unfold string_bytes. induction s as [|c s IH]; [constructor|]. cbn. constructor; [|exact IH]. unfold in_u8. pose proof (Ascii.N_ascii_bounded c). lia.
Qed.

(** ** encoding/base64

    [url]: the alphabet with minus and underscore; [pad]: with padding. *)

Definition b64Char (url : bool) (v : Z) : Z :=
  if v <? 26 then 65 + v else if v <? 52 then 71 + v else if v <? 62 then v - 4
  else if v =? 62 then (if url then 45 else 43) else (if url then 95 else 47).
Definition b64Value (url : bool) (c : Z) : option Z :=
  if (65 <=? c) && (c <=? 90) then Some (c - 65)
  else if (97 <=? c) && (c <=? 122) then Some (c - 71)
  else if (48 <=? c) && (c <=? 57) then Some (c + 4)
  else if c =? (if url then 45 else 43) then Some 62
  else if c =? (if url then 95 else 47) then Some 63
  else None.

Fixpoint b64Encode (url pad : bool) (b : bytes) : bytes :=
  let ch := b64Char url in
  match b with
  | [] => []
  | [x] => [ch (x / 4); ch (x `mod` 4 * 16)] ++ (if pad then [61; 61] else [])
  | [x; y] => [ch (x / 4); ch (x `mod` 4 * 16 + y / 16); ch (y `mod` 16 * 4)] ++ (if pad then [61] else [])
  | x :: y :: z :: b =>
      [ch (x / 4); ch (x `mod` 4 * 16 + y / 16); ch (y `mod` 16 * 4 + z / 64); ch (z `mod` 64)] ++ b64Encode url pad b
  end.

(** Line breaks are skipped; the unused bits of the last character are not
    checked. *)
Fixpoint b64Quanta (url pad : bool) (s : bytes) : option bytes :=
  let v := b64Value url in
  match s with
  | [] => Some []
  | [_] => None
  | [p; q] => if pad then None else match v p, v q with Some a, Some b => Some [a * 4 + b / 16] | _, _ => None end
  | [p; q; r] =>
      if pad then None
      else match v p, v q, v r with
           | Some a, Some b, Some c => Some [a * 4 + b / 16; b `mod` 16 * 16 + c / 4]
           | _, _, _ => None
           end
  | p :: q :: r :: t :: s =>
      match v p, v q, v r, v t with
      | Some a, Some b, Some c, Some d =>
          match b64Quanta url pad s with
          | Some rest => Some ([a * 4 + b / 16; b `mod` 16 * 16 + c / 4; c `mod` 4 * 64 + d] ++ rest)
          | None => None
          end
      | Some a, Some b, Some c, None =>
          if pad && (t =? 61) && bool_decide (s = []) then Some [a * 4 + b / 16; b `mod` 16 * 16 + c / 4] else None
      | Some a, Some b, None, _ =>
          if pad && (r =? 61) && (t =? 61) && bool_decide (s = []) then Some [a * 4 + b / 16] else None
      | _, _, _, _ => None
      end
  end.
Definition b64Decode (url pad : bool) (s : bytes) : option bytes :=
  b64Quanta url pad (List.filter (λ c, negb ((c =? 10) || (c =? 13))) s).

(** [base64.RawURLEncoding] and [base64.StdEncoding]. *)
Notation RawURLEncode := (b64Encode true false).
Notation RawURLDecode := (b64Decode true false).
Notation StdEncode := (b64Encode false true).
Notation StdDecode := (b64Decode false true).

(** ** crypto/hmac with SHA-256 *)

Definition hmacKey (key : bytes) : bytes :=
  let key := if 64 <? len key then Sum256 key else key in key ++ replicate (64 - length key) 0.
Definition hmacSha256 (key data : bytes) : bytes :=
  Sum256 (map (Z.lxor 0x5c) (hmacKey key) ++ Sum256 (map (Z.lxor 0x36) (hmacKey key) ++ data)).

(** ** Tokens (handlers/auth.go, handlers/challenge.go) *)

Definition bar : Z := 124.
Definition Second : Z := 1000000000.
Definition Unix (t : Z) : Z := t / Second.

Definition signPayload (payload secret : bytes) : bytes := string_bytes (hexEncode (hmacSha256 secret payload)).
Definition hmacSum (payload secret : bytes) : bytes := hmacSha256 secret payload.

Definition parseI64 (s : bytes) : option Z := match Atoi s with Ret v => Some v | _ => None end.

(** The value of the cookie that [setSessionCookie] sets. *)
Definition sessionCookie (now : Z) (secret username : bytes) : bytes :=
  let expiry := Unix (now + 24 * 3600 * Second) in
  let payload := username ++ [bar] ++ Itoa expiry in
  RawURLEncode (payload ++ [bar] ++ signPayload payload secret).

(** [cookie]: the value of the session cookie of the request, if it has one. *)
Definition validateSessionCookie (now : Z) (cookie : option bytes) (secret : bytes) : bool :=
  match cookie with
  | None => false
  | Some value =>
      match RawURLDecode value with
      | None => false
      | Some decoded =>
          match Split bar decoded with
          | [user; expiry; signature] =>
              let payload := user ++ [bar] ++ expiry in
              if negb (bool_decide (signature = signPayload payload secret)) then false
              else match parseI64 expiry with None => false | Some expiry => Unix now <=? expiry end
          | _ => false
          end
      end
  end.

Definition signChallengeToken (now : Z) (username sessionSecret : bytes) (ttl : Z) : bytes :=
  let exp := Unix (now + ttl) in
  let payload := username ++ [bar] ++ Itoa exp in
  let sig := string_bytes (hexEncode (hmacSum payload sessionSecret)) in
  RawURLEncode (payload ++ [bar] ++ sig).

Definition verifyChallengeToken (now : Z) (token expectedUsername sessionSecret : bytes) : bool :=
  match RawURLDecode (TrimSpace token) with
  | None => false
  | Some decoded =>
      match Split bar decoded with
      | [username; expStr; sig] =>
          if negb (bool_decide (username = expectedUsername)) then false
          else if negb (bool_decide (sig = string_bytes (hexEncode (hmacSum (username ++ [bar] ++ expStr) sessionSecret)))) then false
          else match parseI64 expStr with None => false | Some exp => Unix now <=? exp end
      | _ => false
      end
  end.

(** [validAdminUsername]: two to 32 letters, digits, underscores or hyphens. *)
Definition nameChar (c : Z) : bool :=
  ((97 <=? c) && (c <=? 122)) || ((65 <=? c) && (c <=? 90)) || ((48 <=? c) && (c <=? 57)) || (c =? 95) || (c =? 45).
Definition validAdminUsername (s : bytes) : bool := (2 <=? len s) && (len s <=? 32) && forallb nameChar s.

(** ** Lemmas *)

Lemma digits_spec fuel : ∀ n, 0 ≤ n < 10 ^ Z.of_nat fuel → (0 < fuel)%nat →
  digits fuel n ≠ [] ∧ forallb is_digit (digits fuel n) = true ∧ digits_value 0 (digits fuel n) = n.
Proof.
  assert (Happ : ∀ s acc c, digits_value acc (s ++ [c]) = digits_value acc s * 10 + (c - 48)).
  { induction s as [|d s IH]; intros acc c; [done|]. apply IH. }
  induction fuel as [|fuel IH]; intros n Hn Hf; [lia|]. cbn [digits]. case_if.
  - destruct Hn as [Hn _]. split_and!; [done|cbn [forallb]; unfold is_digit; lia|cbn [digits_value]; lia].
  - rewrite Nat2Z.inj_succ, Z.pow_succ_r in Hn by lia.
    destruct fuel as [|fuel]; [cbn in Hn; lia|].
    destruct (IH (n / 10)) as (Hne & Hd & Hv); [split; [apply Z.div_pos; lia|apply Z.div_lt_upper_bound; lia]|lia|].
    pose proof (Z.div_mod n 10 ltac:(lia)). pose proof (Z.mod_pos_bound n 10 ltac:(lia)).
    split_and!; [by destruct (digits (S fuel) (n / 10))|..].
    + rewrite forallb_app, Hd. cbn [forallb]. unfold is_digit. lia.
    + rewrite Happ, Hv. lia.
Qed.

Lemma parse_Itoa n : - 2 ^ 63 < n < 2 ^ 63 → parseI64 (Itoa n) = Some n.
Proof.
  intros Hn. unfold parseI64, Itoa. destruct (digits_spec 20 (Z.abs n)) as (Hne & Hd & Hv); [cbn; lia|lia|].
  pose proof (Atoi_digits (n <? 0) (digits 20 (Z.abs n)) Hne Hd) as H. rewrite Hv in H. specialize (H ltac:(lia)).
  case_if.
  - replace (- n) with (Z.abs n) by lia. rewrite H. f_equal. lia.
  - replace (Z.abs n) with n in H by lia. by rewrite H.
Qed.

Lemma Itoa_text n c : - 2 ^ 63 < n < 2 ^ 63 → c ∈ Itoa n → is_digit c = true ∨ c = 45.
Proof.
  intros Hn. destruct (digits_spec 20 (Z.abs n)) as (_ & Hd & _); [cbn; lia|lia|].
  rewrite forallb_forall in Hd. unfold Itoa. case_if; intros Hin.
  - apply elem_of_cons in Hin as [->|Hin]; [by right|left]. apply Hd, list_elem_of_In. by replace (Z.abs n) with (- n) by lia.
  - left. apply Hd, list_elem_of_In. by replace (Z.abs n) with n by lia.
Qed.

(** Characters of the alphabet of [RawURLEncoding]. *)
Definition b64Url (c : Z) : bool := match b64Value true c with Some _ => true | None => false end.

Lemma b64_char_value url v : 0 ≤ v < 64 → b64Value url (b64Char url v) = Some v.
Proof.
  intros Hv. unfold b64Char.
  destruct (v <? 26) eqn:?; [|destruct (v <? 52) eqn:?; [|destruct (v <? 62) eqn:?; [|destruct (v =? 62) eqn:?]]].
  - unfold b64Value. replace ((65 <=? 65 + v) && (65 + v <=? 90)) with true by lia. f_equal. lia.
  - unfold b64Value. replace ((65 <=? 71 + v) && (71 + v <=? 90)) with false by lia.
    replace ((97 <=? 71 + v) && (71 + v <=? 122)) with true by lia. f_equal. lia.
  - unfold b64Value. replace ((65 <=? v - 4) && (v - 4 <=? 90)) with false by lia.
    replace ((97 <=? v - 4) && (v - 4 <=? 122)) with false by lia.
    replace ((48 <=? v - 4) && (v - 4 <=? 57)) with true by lia. f_equal. lia.
  - destruct url; cbn; f_equal; lia.
  - assert (v = 63) as -> by lia. by destruct url.
Qed.

Lemma b64Value_pad url : b64Value url 61 = None.
Proof. by destruct url. Qed.

(** The six-bit values of three bytes, and back. *)
Lemma sextets x y z : in_u8 x → in_u8 y → in_u8 z →
  0 ≤ x / 4 < 64 ∧ 0 ≤ x `mod` 4 * 16 + y / 16 < 64 ∧ 0 ≤ y `mod` 16 * 4 + z / 64 < 64 ∧ 0 ≤ z `mod` 64 < 64 ∧
  x / 4 * 4 + (x `mod` 4 * 16 + y / 16) / 16 = x ∧
  (x `mod` 4 * 16 + y / 16) `mod` 16 * 16 + (y `mod` 16 * 4 + z / 64) / 4 = y ∧
  (y `mod` 16 * 4 + z / 64) `mod` 4 * 64 + z `mod` 64 = z.
Proof. unfold in_u8. intros Hx Hy Hz. Z.to_euclidean_division_equations. lia. Qed.

Lemma b64_quanta_encode url pad b : bytes_ok b → b64Quanta url pad (b64Encode url pad b) = Some b.
Proof.
  enough (H : ∀ n b, (length b < n)%nat → bytes_ok b → b64Quanta url pad (b64Encode url pad b) = Some b)
    by (intros Hb; apply (H (S (length b))); [lia|done]).
  clear b. induction n as [|n IH]; intros b Hn Hb; [lia|].
  assert (H0 : in_u8 0) by (unfold in_u8; lia).
  destruct b as [|x [|y [|z b]]]; [done|..].
  - apply Forall_cons in Hb as [Hx _]. destruct (sextets x 0 0 Hx H0 H0) as (R1 & R2 & _ & _ & E & _).
    change (0 / 16) with 0 in *. rewrite Z.add_0_r in *.
    destruct pad; cbn [b64Encode app b64Quanta]; rewrite !b64_char_value, ?b64Value_pad by done; cbn; by rewrite E.
  - apply Forall_cons in Hb as [Hx Hb]. apply Forall_cons in Hb as [Hy _].
    destruct (sextets x y 0 Hx Hy H0) as (R1 & R2 & R3 & _ & E1 & E2 & _). change (0 / 64) with 0 in *. rewrite Z.add_0_r in *.
    destruct pad; cbn [b64Encode app b64Quanta]; rewrite !b64_char_value, ?b64Value_pad by done; cbn; by rewrite E1, E2.
  - apply Forall_cons in Hb as [Hx Hb]. apply Forall_cons in Hb as [Hy Hb]. apply Forall_cons in Hb as [Hz Hb].
    destruct (sextets x y z Hx Hy Hz) as (R1 & R2 & R3 & R4 & E1 & E2 & E3).
    cbn [b64Encode app b64Quanta]. rewrite !b64_char_value by done. rewrite IH by (cbn in Hn; first [lia|done]).
    cbn [app]. by rewrite E1, E2, E3.
Qed.

Lemma b64Char_plain url v : 0 ≤ v < 64 → 33 ≤ b64Char url v < 128.
Proof. intros Hv. unfold b64Char. repeat case_if; lia. Qed.

Lemma b64_encode_forall (P : Z → Prop) url pad b : (∀ v, 0 ≤ v < 64 → P (b64Char url v)) → P 61 → bytes_ok b → Forall P (b64Encode url pad b).
Proof.
  intros HP H61. enough (H : ∀ n b, (length b < n)%nat → bytes_ok b → Forall P (b64Encode url pad b))
    by (intros Hb; apply (H (S (length b))); [lia|done]).
  clear b. induction n as [|n IH]; intros b Hn Hb; [lia|].
  assert (H0 : in_u8 0) by (unfold in_u8; lia).
  destruct b as [|x [|y [|z b]]]; [constructor|..].
  - apply Forall_cons in Hb as [Hx _]. destruct (sextets x 0 0 Hx H0 H0) as (R1 & R2 & _).
    change (0 / 16) with 0 in *. rewrite Z.add_0_r in *.
    destruct pad; cbn [b64Encode app]; repeat (apply Forall_cons_2; [first [exact H61|by apply HP]|]); constructor.
  - apply Forall_cons in Hb as [Hx Hb]. apply Forall_cons in Hb as [Hy _].
    destruct (sextets x y 0 Hx Hy H0) as (R1 & R2 & R3 & _). change (0 / 64) with 0 in *. rewrite Z.add_0_r in *.
    destruct pad; cbn [b64Encode app]; repeat (apply Forall_cons_2; [first [exact H61|by apply HP]|]); constructor.
  - apply Forall_cons in Hb as [Hx Hb]. apply Forall_cons in Hb as [Hy Hb]. apply Forall_cons in Hb as [Hz Hb].
    destruct (sextets x y z Hx Hy Hz) as (R1 & R2 & R3 & R4 & _). cbn [b64Encode app].
    repeat (apply Forall_cons_2; [by apply HP|]). apply IH; [cbn in Hn; lia|done].
Qed.

Lemma b64_encode_plain url pad b : bytes_ok b → Forall (λ c, 33 ≤ c < 128) (b64Encode url pad b).
Proof. apply b64_encode_forall; [apply b64Char_plain|lia]. Qed.

Lemma b64_roundtrip url pad b : bytes_ok b → b64Decode url pad (b64Encode url pad b) = Some b.
Proof.
  intros Hb. unfold b64Decode. rewrite List.forallb_filter_id; [by apply b64_quanta_encode|].
  apply forallb_forall. intros c Hc. pose proof (b64_encode_plain url pad b Hb) as H.
  rewrite Forall_forall in H. specialize (H c (proj2 (list_elem_of_In _ _) Hc)). cbn in H. lia.
Qed.

Lemma stripAll_id fuel ps s : (∀ p, p ∈ ps → ∃ c p', p = c :: p' ∧ c ∉ s) → stripAll fuel ps s = s.
Proof.
  intros Hp. destruct fuel as [|fuel]; [done|]. cbn [stripAll].
  assert (H : omap (λ p, stripPrefix p s) ps = []).
  { clear fuel. induction ps as [|p ps IH]; [done|]. cbn. destruct (Hp p) as (c & p' & -> & Hc); [apply list_elem_of_here|].
    unfold stripPrefix. rewrite bool_decide_eq_false_2.
    - apply IH. intros q Hq. apply Hp. by apply list_elem_of_further.
    - destruct s as [|d s]; cbn; [done|]. intros [= <- _]. apply Hc, list_elem_of_here. }
  by rewrite H.
Qed.

Lemma TrimSpace_plain s : Forall (λ c, 33 ≤ c < 128) s → TrimSpace s = s.
Proof.
  intros Hs. rewrite Forall_forall in Hs.
  assert (Hleft : TrimLeftSpace s = s).
  { apply stripAll_id. intros p Hp. unfold spaces in Hp. cbn in Hp. rewrite !elem_of_cons, elem_of_nil in Hp.
    destruct_or!; subst; eexists _, _; (split; [reflexivity|]); intros Hc; apply Hs in Hc; lia. }
  unfold TrimSpace. rewrite Hleft. unfold TrimRightSpace. rewrite stripAll_id; [apply rev_involutive|].
  intros p Hp. unfold spaces in Hp. cbn in Hp. rewrite !elem_of_cons, elem_of_nil in Hp.
  destruct_or!; subst; eexists _, _; (split; [reflexivity|]);
    rewrite list_elem_of_In, <- in_rev, <- list_elem_of_In; intros Hc; apply Hs in Hc; lia.
Qed.

Lemma Split_none sep s : sep ∉ s → Split sep s = [s].
Proof.
  induction s as [|c s IH]; intros Hs; [done|]. cbn. apply not_elem_of_cons in Hs as [Hc Hs].
  rewrite (proj2 (Z.eqb_neq c sep)) by congruence. by rewrite IH.
Qed.

Lemma Split_cons sep a s : sep ∉ a → Split sep (a ++ [sep] ++ s) = a :: Split sep s.
Proof.
  induction a as [|c a IH]; intros Ha; cbn; [by rewrite Z.eqb_refl|]. apply not_elem_of_cons in Ha as [Hc Ha].
  rewrite (proj2 (Z.eqb_neq c sep)) by congruence. cbn in IH. by rewrite IH.
Qed.

Lemma Split_inv sep s a rest : Split sep s = a :: rest → sep ∉ a ∧
  match rest with [] => s = a | _ => ∃ s', s = a ++ [sep] ++ s' ∧ Split sep s' = rest end.
Proof.
  revert a rest. induction s as [|c s IH]; intros a rest; cbn; [intros [= <- <-]; split; [apply not_elem_of_nil|done]|].
  destruct (Z.eqb_spec c sep) as [->|Hne].
  - intros [= <- <-]. split; [apply not_elem_of_nil|]. destruct (Split sep s) as [|b bs] eqn:E; [|by exists s].
    destruct s as [|x s]; cbn in E; [done|]. destruct (x =? sep); [done|]. by destruct (Split sep s).
  - destruct (Split sep s) as [|b bs] eqn:E.
    { exfalso. destruct s as [|x s]; cbn in E; [done|]. destruct (x =? sep); [done|]. by destruct (Split sep s). }
    intros [= <- <-]. destruct (IH b bs eq_refl) as [Hb Hs]. split; [apply not_elem_of_cons; by split|].
    destruct bs; [by rewrite Hs|]. destruct Hs as (s' & -> & E'). by exists s'.
Qed.

(** The two kinds of tokens are one. *)
Definition token (exp : Z) (username secret : bytes) : bytes :=
  let payload := username ++ [bar] ++ Itoa exp in RawURLEncode (payload ++ [bar] ++ signPayload payload secret).

Lemma sessionCookie_token now secret username :
  sessionCookie now secret username = token (Unix (now + 24 * 3600 * Second)) username secret.
Proof. done. Qed.
Lemma challenge_token now username secret ttl : signChallengeToken now username secret ttl = token (Unix (now + ttl)) username secret.
Proof. done. Qed.

Lemma hexEncode_chars b : bytes_ok b → Forall (λ c, 48 ≤ c < 103) (string_bytes (hexEncode b)).
Proof.
  induction 1 as [|x b Hx Hb IH]; [constructor|]. unfold in_u8 in Hx.
  assert (Hh : ∀ d, 0 ≤ d < 16 → 48 ≤ Z.of_N (Ascii.N_of_ascii (hexAscii d)) < 103).
  { intros d Hd. unfold hexAscii. assert (Hr : 48 ≤ hexChar d < 103) by (unfold hexChar; repeat case_if; lia).
    rewrite Ascii.N_ascii_embedding; lia. }
  cbn. constructor; [|constructor; [|exact IH]]; apply Hh; Z.to_euclidean_division_equations; lia.
Qed.

Lemma hmac_ok key data : bytes_ok (hmacSha256 key data).
Proof. apply Sum256_ok. Qed.

(** User names that a token can carry. *)
Definition token_name (username : bytes) : Prop := bytes_ok username ∧ bar ∉ username.

Lemma token_parts exp username secret : token_name username → - 2 ^ 63 < exp < 2 ^ 63 →
  RawURLDecode (token exp username secret) =
    Some ((username ++ [bar] ++ Itoa exp) ++ [bar] ++ signPayload (username ++ [bar] ++ Itoa exp) secret) ∧
  Split bar ((username ++ [bar] ++ Itoa exp) ++ [bar] ++ signPayload (username ++ [bar] ++ Itoa exp) secret) =
    [username; Itoa exp; signPayload (username ++ [bar] ++ Itoa exp) secret].
Proof.
  intros [Hok Hbar] Hexp. pose proof (hexEncode_chars _ (hmac_ok secret (username ++ [bar] ++ Itoa exp))) as Hsig.
  split.
  - apply b64_roundtrip. unfold bytes_ok. rewrite !Forall_app. split_and!; [done|by repeat constructor|..|by repeat constructor|].
    + apply Forall_forall. intros c Hc. destruct (Itoa_text exp c Hexp Hc) as [Hd| ->]; unfold is_digit, in_u8 in *; lia.
    + eapply Forall_impl; [exact Hsig|]. unfold in_u8. cbn. lia.
  - change (string_bytes (hexEncode (hmacSha256 secret (username ++ [bar] ++ Itoa exp))))
      with (signPayload (username ++ [bar] ++ Itoa exp) secret) in Hsig. revert Hsig.
    generalize (signPayload (username ++ [bar] ++ Itoa exp) secret). intros sig Hsig.
    rewrite <- !app_assoc, !Split_cons, Split_none; [done|..|done].
    + rewrite Forall_forall in Hsig. intros Hin. apply Hsig in Hin. unfold bar in Hin. lia.
    + intros Hin. destruct (Itoa_text exp bar Hexp Hin) as [Hd|Hd]; unfold is_digit, bar in Hd; lia.
Qed.

(** A token is valid as a session until it expires, and as a challenge of its
    user. *)
Lemma token_session now exp username secret : token_name username → - 2 ^ 63 < exp < 2 ^ 63 →
  validateSessionCookie now (Some (token exp username secret)) secret = (Unix now <=? exp).
Proof.
  intros Hn He. destruct (token_parts exp username secret Hn He) as [Hd Hs].
  unfold validateSessionCookie. rewrite Hd, Hs, bool_decide_eq_true_2 by done. cbn [negb]. by rewrite parse_Itoa.
Qed.

Lemma token_plain exp username secret : token_name username → - 2 ^ 63 < exp < 2 ^ 63 → TrimSpace (token exp username secret) = token exp username secret.
Proof.
  intros [Hok _] Hexp. apply TrimSpace_plain, b64_encode_plain. unfold bytes_ok. rewrite !Forall_app.
  split_and!; [done|by repeat constructor|..|by repeat constructor|].
  - apply Forall_forall. intros c Hc. destruct (Itoa_text exp c Hexp Hc) as [Hd| ->]; unfold is_digit, in_u8 in *; lia.
  - eapply Forall_impl; [apply hexEncode_chars, hmac_ok|]. unfold in_u8. cbn. lia.
Qed.

Lemma token_challenge now exp username other secret : token_name username → - 2 ^ 63 < exp < 2 ^ 63 →
  verifyChallengeToken now (token exp username secret) other secret = bool_decide (username = other) && (Unix now <=? exp).
Proof.
  intros Hn He. destruct (token_parts exp username secret Hn He) as [Hd Hs].
  unfold verifyChallengeToken. rewrite token_plain, Hd, Hs by done. case_bool_decide; [|done].
  rewrite bool_decide_eq_true_2 by done. cbn [negb andb]. by rewrite parse_Itoa.
Qed.

(** A token that the panel signed for a user and that has not expired. *)
Definition signed_token (now : Z) (tok username secret : bytes) : Prop :=
  ∃ expiry exp, RawURLDecode (TrimSpace tok) =
      Some (username ++ [bar] ++ expiry ++ [bar] ++ string_bytes (hexEncode (hmacSha256 secret (username ++ [bar] ++ expiry)))) ∧
    bar ∉ username ∧ bar ∉ expiry ∧ parseI64 expiry = Some exp ∧ now / 1000000000 ≤ exp.

Lemma verifyChallengeToken_signed now tok username secret : verifyChallengeToken now tok username secret = true ↔ signed_token now tok username secret.
Proof.
  unfold verifyChallengeToken, signed_token. change (Unix now) with (now / 1000000000). split.
  - destruct (RawURLDecode (TrimSpace tok)) as [d|]; [|done]. destruct (Split bar d) as [|u [|e [|g [|]]]] eqn:E; try done.
    apply Split_inv in E as (Hu & s1 & -> & E). apply Split_inv in E as (He & s2 & -> & E). apply Split_inv in E as (_ & ->).
    case_bool_decide as Hn; [|done]. subst u. case_bool_decide as Hg; [|done]. cbn [negb]. destruct (parseI64 e) as [exp|] eqn:Ep; [|done].
    intros Hle. exists e, exp. split_and!; try done; [by rewrite Hg|lia].
  - intros (e & exp & -> & Hu & He & Ep & Hle). rewrite Split_cons, Split_cons by done. rewrite Split_none.
    + rewrite !bool_decide_eq_true_2 by done. cbn [negb]. rewrite Ep. by apply Z.leb_le.
    + pose proof (hexEncode_chars _ (hmac_ok secret (username ++ [bar] ++ e))) as Hsig. rewrite Forall_forall in Hsig.
      intros Hin. apply Hsig in Hin. unfold bar in Hin. lia.
Qed.

End PanelText.
Export PanelText.
