(* ===== verification/Url.v ===== *)
(** * URLs: what the program uses of Go's net/url

    Escaping, parsing and printing of URLs and of queries, for the links that share
    a configuration.  A Go string is its bytes; an error of the package is [None]. *)

From S2P Require Import Prelude Net PanelText.
From stdpp Require Import sorting.
From Stdlib Require Import ZifyBool.
Local Open Scope Z_scope.

Module Url.

(** ** Escaping *)

Inductive encoding := encodePath | encodeHost | encodeZone | encodeUserPassword | encodeQueryComponent | encodeFragment.

Definition isHostMode (mode : encoding) : bool := match mode with encodeHost | encodeZone => true | _ => false end.

Definition alnum (c : Z) : bool := ((97 <=? c) && (c <=? 122)) || ((65 <=? c) && (c <=? 90)) || ((48 <=? c) && (c <=? 57)).

(** The cases in the order of the source: host characters, then the unreserved
    marks, then the reserved characters by mode. *)
Definition shouldEscape (c : Z) (mode : encoding) : bool :=
  if alnum c then false
  else if isHostMode mode && bool_decide (c ∈ string_bytes "!$&'()*+,;=:[]<>" ++ [34]) then false
  else if bool_decide (c ∈ string_bytes "-_.~") then false
  else if bool_decide (c ∈ string_bytes "$&+,/:;=?@") then
    match mode with
    | encodePath => c =? 63
    | encodeUserPassword => bool_decide (c ∈ string_bytes "@/?:")
    | encodeQueryComponent => true
    | encodeFragment => false
    | _ => true
    end
  else match mode with encodeFragment => negb (bool_decide (c ∈ string_bytes "!()*")) | _ => true end.

Definition upperhex (v : Z) : Z := if v <? 10 then 48 + v else 55 + v.

Definition escapeByte (mode : encoding) (c : Z) : bytes :=
  if shouldEscape c mode then
    if (c =? 32) && match mode with encodeQueryComponent => true | _ => false end then [43]
    else [37; upperhex (c / 16); upperhex (c `mod` 16)]
  else [c].
Definition escape (s : bytes) (mode : encoding) : bytes := concat (escapeByte mode <$> s).

(** The byte of an escape sequence that the mode allows. *)
Definition unescapeByte (mode : encoding) (a b : Z) : option Z :=
  match hex_value a, hex_value b with
  | Some x, Some y =>
      let v := x * 16 + y in
      match mode with
      | encodeHost => if (x <? 8) && negb (v =? 37) then None else Some v
      | encodeZone => if negb (v =? 37) && negb (v =? 32) && shouldEscape v encodeHost then None else Some v
      | _ => Some v
      end
  | _, _ => None
  end.

Definition cons_opt (c : Z) (s : option bytes) : option bytes := match s with Some s => Some (c :: s) | None => None end.

Fixpoint unescape (s : bytes) (mode : encoding) : option bytes :=
  match s with
  | [] => Some []
  | c :: s =>
      if c =? 37 then
        match s with
        | a :: b :: s => match unescapeByte mode a b with Some v => cons_opt v (unescape s mode) | None => None end
        | _ => None
        end
      else if c =? 43 then cons_opt (match mode with encodeQueryComponent => 32 | _ => 43 end) (unescape s mode)
      else if isHostMode mode && (c <? 128) && shouldEscape c mode then None
      else cons_opt c (unescape s mode)
  end.

(** ** strings.Cut, Index, LastIndex *)

Definition Cut (s : bytes) (c : Z) : bytes * option bytes :=
  match IndexByte c s with Some i => (take i s, Some (drop (S i) s)) | None => (s, None) end.

(** The place of a text in another. *)
Fixpoint Index (s sub : bytes) : option nat :=
  if bool_decide (take (length sub) s = sub) then Some O
  else match s with [] => None | _ :: s => S <$> Index s sub end.

(** ** Parsing *)

(** User information: the name, and the password when there is one. *)
Record URL := mkURL { Scheme : bytes; Opaque : bytes; UserInfo : option (bytes * option bytes); Host : bytes; Path : bytes; RawQuery : bytes }.

(** [None]: an error; otherwise the scheme and the rest. *)
Fixpoint schemeLoop (raw : bytes) (pre s : bytes) : option (bytes * bytes) :=
  match s with
  | [] => Some ([], raw)
  | c :: s =>
      if ((97 <=? c) && (c <=? 122)) || ((65 <=? c) && (c <=? 90)) then schemeLoop raw (pre ++ [c]) s
      else if ((48 <=? c) && (c <=? 57)) || bool_decide (c ∈ string_bytes "+-.") then
        if bool_decide (pre = []) then Some ([], raw) else schemeLoop raw (pre ++ [c]) s
      else if c =? 58 then if bool_decide (pre = []) then None else Some (pre, s)
      else Some ([], raw)
  end.
Definition getScheme (raw : bytes) : option (bytes * bytes) := schemeLoop raw [] raw.

Definition validOptionalPort (port : bytes) : bool :=
  match port with [] => true | c :: s => (c =? 58) && forallb is_digit s end.

Definition validUserinfo (s : bytes) : bool :=
  forallb (λ c, alnum c || bool_decide (c ∈ string_bytes "-._:~!$&'()*+,;=%@")) s.

Definition parseHost (host : bytes) : option bytes :=
  let plain := unescape host encodeHost in
  match host with
  | 91 :: _ =>
      match LastIndexByte 93 host with
      | None => None
      | Some i =>
          if negb (validOptionalPort (drop (S i) host)) then None
          else match Index (take i host) (string_bytes "%25") with
               | Some z =>
                   match unescape (take z host) encodeHost, unescape (drop z (take i host)) encodeZone, unescape (drop i host) encodeHost with
                   | Some a, Some b, Some c => Some (a ++ b ++ c)
                   | _, _, _ => None
                   end
               | None => plain
               end
      end
  | _ =>
      match LastIndexByte 58 host with
      | Some i => if validOptionalPort (drop i host) then plain else None
      | None => plain
      end
  end.

Definition parseUserinfo (userinfo : bytes) : option (bytes * option bytes) :=
  if negb (validUserinfo userinfo) then None
  else match Cut userinfo 58 with
       | (_, None) => match unescape userinfo encodeUserPassword with Some u => Some (u, None) | None => None end
       | (u, Some p) => match unescape u encodeUserPassword, unescape p encodeUserPassword with Some u, Some p => Some (u, Some p) | _, _ => None end
       end.

Definition parseAuthority (authority : bytes) : option (option (bytes * option bytes) * bytes) :=
  match LastIndexByte 64 authority with
  | None => match parseHost authority with Some h => Some (None, h) | None => None end
  | Some i =>
      match parseHost (drop (S i) authority), parseUserinfo (take i authority) with
      | Some h, Some u => Some (Some u, h)
      | _, _ => None
      end
  end.

(** What follows the scheme and precedes the query. *)
Definition parseRest (scheme rest query : bytes) : option URL :=
  if negb (bool_decide (take 1 rest = [47])) && negb (bool_decide (scheme = [])) then Some (mkURL scheme rest None [] [] query)
  else if negb (bool_decide (take 1 rest = [47])) && contains 58 (Cut rest 47).1 then None
  else
    let auth := bool_decide (take 2 rest = [47; 47]) && (negb (bool_decide (scheme = [])) || negb (bool_decide (take 3 rest = [47; 47; 47]))) in
    let authority := (Cut (drop 2 rest) 47).1 in
    let path := if auth then drop (2 + length authority) rest else rest in
    match (if auth then parseAuthority authority else Some (None, [])), unescape path encodePath with
    | Some (user, host), Some p => Some (mkURL scheme [] user host p query)
    | _, _ => None
    end.

(** A single question mark at the end leaves an empty query too. *)
Definition cutQuery (rest : bytes) : bytes * bytes :=
  match Cut rest 63 with (r, Some q) => (r, q) | (r, None) => (r, []) end.

Definition control (c : Z) : bool := (c <? 32) || (c =? 127).

Definition Parse (raw : bytes) : option URL :=
  let '(u, frag) := Cut raw 35 in
  if existsb control u then None
  else
    let url :=
      if bool_decide (u = [42]) then Some (mkURL [] [] None [] [42] [])
      else match getScheme u with
           | None => None
           | Some (scheme, rest) => let '(rest, query) := cutQuery rest in parseRest (map lowerByte scheme) rest query
           end in
    match frag with
    | None | Some [] => url
    | Some f => match unescape f encodeFragment with Some _ => url | None => None end
    end.

(** [Hostname]: without port and brackets. *)
Definition Hostname (u : URL) : bytes :=
  let h := Host u in
  let h := match LastIndexByte 58 h with Some i => if validOptionalPort (drop i h) then take i h else h | None => h end in
  if bool_decide (take 1 h = [91]) && bool_decide (last h = Some 93) then take (length h - 2) (drop 1 h) else h.

(** ** Printing *)

(** [URL.String] of a URL with user information and without a path. *)
Definition URLString (scheme name password host query : bytes) : bytes :=
  scheme ++ string_bytes "://" ++ escape name encodeUserPassword ++ [58] ++ escape password encodeUserPassword ++ [64] ++
  escape host encodeHost ++ (if bool_decide (query = []) then [] else [63] ++ query).

(** ** Queries *)

Notation Values := (gmap bytes (list bytes)).

Definition Add (key value : bytes) (v : Values) : Values := <[key := default [] (v !! key) ++ [value]]> v.
Definition Get (key : bytes) (v : Values) : bytes := default [] (head (default [] (v !! key))).

(** The order of strings: by bytes. *)
Fixpoint bytesLe (a b : bytes) : bool :=
  match a, b with
  | [], _ => true
  | _, [] => false
  | x :: a, y :: b => if x =? y then bytesLe a b else x <? y
  end.

Definition pairs (v : Values) : list (bytes * bytes) :=
  concat ((λ kv : bytes * list bytes, (λ x, (kv.1, x)) <$> kv.2) <$> merge_sort (λ x y : bytes * list bytes, Is_true (bytesLe x.1 y.1)) (map_to_list v)).

Definition QueryEscape (s : bytes) : bytes := escape s encodeQueryComponent.

Fixpoint joinWith (sep : Z) (l : list bytes) : bytes :=
  match l with [] => [] | [x] => x | x :: l => x ++ [sep] ++ joinWith sep l end.
Definition Encode (v : Values) : bytes := joinWith 38 ((λ x, QueryEscape x.1 ++ [61] ++ QueryEscape x.2) <$> pairs v).

(** One setting of a query: [None] is an error, [Some None] nothing. *)
Definition parsePair (s : bytes) : option (option (bytes * bytes)) :=
  if contains 59 s then None
  else if bool_decide (s = []) then Some None
  else
    let '(k, v) := Cut s 61 in
    match unescape k encodeQueryComponent, unescape (default [] v) encodeQueryComponent with
    | Some k, Some v => Some (Some (k, v))
    | _, _ => None
    end.

Fixpoint parsePairs (l : list bytes) (v : Values) : option Values :=
  match l with
  | [] => Some v
  | s :: l => match parsePair s with None => None | Some None => parsePairs l v | Some (Some (k, x)) => parsePairs l (Add k x v) end
  end.
(** The values are used only when there is no error. *)
Definition ParseQuery (query : bytes) : option Values := parsePairs (Split 38 query) ∅.

(** * Properties *)

(** ** Places in a text *)

Lemma IndexByte_none c s : c ∉ s → IndexByte c s = None.
Proof.
  induction s as [|x s IH]; intros Hn; [done|]. cbn. apply not_elem_of_cons in Hn as [Hne Hn]. rewrite IH by done.
  destruct (Z.eqb_spec x c); [congruence|done].
Qed.

Lemma LastIndexByte_none c s : c ∉ s → LastIndexByte c s = None.
Proof.
  induction s as [|x s IH]; intros Hn; [done|]. cbn. apply not_elem_of_cons in Hn as [Hne Hn]. rewrite IH by done.
  destruct (Z.eqb_spec x c); [congruence|done].
Qed.

Lemma LastIndexByte_last c a b : c ∉ b → LastIndexByte c (a ++ c :: b) = Some (length a).
Proof.
  intros Hn. induction a as [|x a IH]; cbn; [by rewrite LastIndexByte_none, Z.eqb_refl by done|]. by rewrite IH.
Qed.

Lemma Cut_at c a b : c ∉ a → Cut (a ++ c :: b) c = (a, Some b).
Proof. intros Hn. unfold Cut. rewrite IndexByte_skip by done. rewrite take_app_length. by rewrite drop_app_ge, Nat.sub_succ_l, Nat.sub_diag by lia. Qed.

Lemma Cut_none c s : c ∉ s → Cut s c = (s, None).
Proof. intros Hn. unfold Cut. by rewrite IndexByte_none. Qed.

(** ** Escaping and back *)

(** The modes of user information and of queries: nothing is refused on the way
    back. *)
Definition twoWay (mode : encoding) : Prop := mode = encodeUserPassword ∨ mode = encodeQueryComponent.

Lemma upperhex_value v : 0 ≤ v < 16 → hex_value (upperhex v) = Some v.
Proof.
  intros Hv. assert (Hf : Forall (λ v, hex_value (upperhex v) = Some v) (seqZ 0 16)) by (by apply (bool_decide_unpack _)).
  apply (proj1 (Forall_forall _ _) Hf), elem_of_seqZ. lia.
Qed.

Lemma unescape_byte mode c rest : twoWay mode → in_u8 c → unescape (escapeByte mode c ++ rest) mode = cons_opt c (unescape rest mode).
Proof.
  intros Hm Hc. unfold in_u8 in Hc. pose proof (Z.mod_pos_bound c 16). assert (0 ≤ c / 16 < 16) by (split; [apply Z.div_pos; lia|apply Z.div_lt_upper_bound; lia]).
  assert (Hv : c / 16 * 16 + c `mod` 16 = c) by (pose proof (Z.div_mod c 16); lia).
  unfold escapeByte. destruct (shouldEscape c mode) eqn:E.
  - destruct Hm as [-> | ->].
    + rewrite andb_false_r. cbn [app unescape]. change (37 =? 37) with true. cbv iota. unfold unescapeByte. rewrite !upperhex_value by lia. by rewrite Hv.
    + destruct (Z.eqb_spec c 32) as [->|]; [done|]. cbn [andb app unescape]. change (37 =? 37) with true. cbv iota. unfold unescapeByte. rewrite !upperhex_value by lia. by rewrite Hv.
  - cbn [app unescape]. destruct (Z.eqb_spec c 37) as [->|]; [by destruct Hm as [-> | ->]|].
    destruct (Z.eqb_spec c 43) as [->|]; [by destruct Hm as [-> | ->]|]. by destruct Hm as [-> | ->].
Qed.

Lemma unescape_escape mode s : twoWay mode → bytes_ok s → unescape (escape s mode) mode = Some s.
Proof. intros Hm Hs. induction Hs as [|c s Hc _ IH]; [done|]. unfold escape in *. cbn. rewrite unescape_byte by done. by rewrite IH. Qed.

(** What escaped text can contain. *)
Definition safe (mode : encoding) (c : Z) : Prop := 0 ≤ c < 128 ∧ (shouldEscape c mode = false ∨ c = 37 ∨ (c = 43 ∧ mode = encodeQueryComponent)).

Lemma upperhex_alnum v : 0 ≤ v < 16 → alnum (upperhex v) = true ∧ 0 ≤ upperhex v < 128.
Proof. intros Hv. unfold alnum, upperhex. case_if; lia. Qed.

Lemma high_escaped mode c : 128 ≤ c → shouldEscape c mode = true.
Proof.
  intros Hc. unfold shouldEscape. assert (alnum c = false) as -> by (unfold alnum; lia).
  assert (Hb : ∀ l, Forall (λ x, x < 128) l → bool_decide (c ∈ l) = false).
  { intros l Hl. apply bool_decide_eq_false_2. intros Hin. rewrite Forall_forall in Hl. specialize (Hl _ Hin). cbn in Hl. lia. }
  rewrite !Hb by (by apply (bool_decide_unpack _)). rewrite andb_false_r. by destruct mode.
Qed.

Lemma escape_safe mode s : twoWay mode → bytes_ok s → Forall (safe mode) (escape s mode).
Proof.
  intros Hm Hs. induction Hs as [|c s Hc _ IH]; [constructor|]. unfold escape in *. cbn. apply Forall_app. split; [|exact IH].
  unfold in_u8 in Hc. pose proof (Z.mod_pos_bound c 16). assert (0 ≤ c / 16 < 16) by (split; [apply Z.div_pos; lia|apply Z.div_lt_upper_bound; lia]).
  assert (Hx : ∀ v, 0 ≤ v < 16 → safe mode (upperhex v)).
  { intros v Hv. destruct (upperhex_alnum v Hv) as [Ha Hr]. split; [done|]. left. unfold shouldEscape. by rewrite Ha. }
  assert (H3 : Forall (safe mode) [37; upperhex (c / 16); upperhex (c `mod` 16)]).
  { constructor; [split; [lia|by right; left]|]. constructor; [apply Hx; lia|]. constructor; [apply Hx; lia|constructor]. }
  unfold escapeByte. destruct (shouldEscape c mode) eqn:E.
  - destruct Hm as [-> | ->].
    + rewrite andb_false_r. exact H3.
    + destruct (Z.eqb_spec c 32) as [->|]; cbn [andb]; [|exact H3]. constructor; [split; [lia|by right; right]|constructor].
  - constructor; [|constructor]. split; [|by left]. destruct (decide (c < 128)); [lia|]. rewrite high_escaped in E by lia. done.
Qed.

Lemma escape_notin mode s d : twoWay mode → bytes_ok s → shouldEscape d mode = true → d ≠ 37 → (d = 43 → mode ≠ encodeQueryComponent) → d ∉ escape s mode.
Proof.
  intros Hm Hs Hd H37 H43 Hin. pose proof (escape_safe mode s Hm Hs) as Hf. rewrite Forall_forall in Hf. destruct (Hf d Hin) as [_ [H|[H|[H H']]]]; [congruence|done|by apply H43].
Qed.

(** ** Queries and back *)

Definition values_ok (v : Values) : Prop := map_Forall (λ k xs, bytes_ok k ∧ xs ≠ [] ∧ Forall bytes_ok xs) v.

(** The values of a key among settings, in order. *)
Definition valuesOf (k : bytes) (l : list (bytes * bytes)) : list bytes := snd <$> filter (λ x, x.1 = k) l.

Lemma fold_add l : ∀ (v : Values) k,
  foldl (λ v x, Add x.1 x.2 v) v l !! k = match valuesOf k l with [] => v !! k | xs => Some (default [] (v !! k) ++ xs) end.
Proof.
  induction l as [|[k' x] l IH]; intros v k; [done|]. cbn [foldl]. rewrite IH. unfold valuesOf. rewrite filter_cons. cbn [fst]. unfold Add. cbn [fst snd].
  destruct (decide (k' = k)) as [->|Hne].
  - rewrite lookup_insert_eq. cbn. destruct (snd <$> filter _ l) as [|y ys] eqn:E; [done|]. by rewrite <- app_assoc.
  - by rewrite lookup_insert_ne by done.
Qed.

Lemma valuesOf_app k l1 l2 : valuesOf k (l1 ++ l2) = valuesOf k l1 ++ valuesOf k l2.
Proof. unfold valuesOf. by rewrite filter_app, fmap_app. Qed.

Lemma valuesOf_one k k' (xs : list bytes) : valuesOf k ((λ x, (k', x)) <$> xs) = if decide (k' = k) then xs else [].
Proof.
  unfold valuesOf. induction xs as [|x xs IH]; [by destruct (decide _)|]. rewrite fmap_cons, filter_cons. cbn [fst].
  destruct (decide (k' = k)); [rewrite fmap_cons; by f_equal|done].
Qed.

Lemma values_grouped k (L : list (bytes * list bytes)) : NoDup L.*1 →
  valuesOf k (concat ((λ kv : bytes * list bytes, (λ x, (kv.1, x)) <$> kv.2) <$> L)) = default [] ((list_to_map L : Values) !! k).
Proof.
  induction L as [|[k' xs] L IH]; intros Hd; [done|]. cbn in Hd. apply NoDup_cons in Hd as [Hk Hd]. rewrite fmap_cons. cbn [concat fst snd list_to_map foldr uncurry]. rewrite valuesOf_app, valuesOf_one.
  destruct (decide (k' = k)) as [->|Hne].
  - rewrite lookup_insert_eq. cbn. rewrite IH by done. rewrite (not_elem_of_list_to_map_1 L k) by done. cbn. apply app_nil_r.
  - rewrite lookup_insert_ne by done. by apply IH.
Qed.

Lemma sorted_values (v : Values) : let L := merge_sort (λ x y : bytes * list bytes, Is_true (bytesLe x.1 y.1)) (map_to_list v) in
  NoDup L.*1 ∧ (list_to_map L : Values) = v ∧ ∀ kv, kv ∈ L → v !! kv.1 = Some kv.2.
Proof.
  cbn zeta. set (L := merge_sort _ _). assert (HP : L ≡ₚ map_to_list v) by apply merge_sort_Permutation.
  assert (Hd : NoDup L.*1) by (rewrite HP; apply NoDup_fst_map_to_list). split; [done|]. split.
  - rewrite <- (list_to_map_to_list v). by apply list_to_map_proper.
  - intros [k xs] Hin. rewrite HP in Hin. by apply elem_of_map_to_list in Hin.
Qed.

Lemma pairs_fold v : values_ok v → foldl (λ v x, Add x.1 x.2 v) ∅ (pairs v) = v.
Proof.
  intros Hok. apply map_eq. intros k. rewrite fold_add. unfold pairs. destruct (sorted_values v) as (Hd & Hl & _). rewrite values_grouped, Hl by done. rewrite lookup_empty. cbn.
  destruct (v !! k) as [xs|] eqn:E; cbn; [|done]. destruct (Hok _ _ E) as (_ & Hne & _). by destruct xs.
Qed.

Lemma pairs_ok v : values_ok v → Forall (λ x, bytes_ok x.1 ∧ bytes_ok x.2) (pairs v).
Proof.
  intros Hok. unfold pairs. destruct (sorted_values v) as (_ & _ & Hl). apply Forall_concat, Forall_fmap, Forall_forall. intros [k xs] Hin. cbn.
  specialize (Hl _ Hin). destruct (Hok _ _ Hl) as (Hk & _ & Hx). cbn in Hk, Hx. apply Forall_fmap. eapply Forall_impl; [exact Hx|]. by intros x Hxo.
Qed.

Lemma parsePair_encode k x : bytes_ok k → bytes_ok x → parsePair (QueryEscape k ++ [61] ++ QueryEscape x) = Some (Some (k, x)).
Proof.
  intros Hk Hx. assert (Hq : twoWay encodeQueryComponent) by (by right). unfold parsePair, QueryEscape.
  assert (contains 59 (escape k encodeQueryComponent ++ [61] ++ escape x encodeQueryComponent) = false) as ->.
  { apply not_true_iff_false. rewrite contains_spec, !elem_of_app, list_elem_of_singleton. intros [H|[H|H]]; [|lia|]; by apply escape_notin in H. }
  rewrite bool_decide_eq_false_2 by (by intros [_ ?]%app_eq_nil). cbn [app]. rewrite Cut_at by (by apply escape_notin). change (default [] (Some (escape x encodeQueryComponent))) with (escape x encodeQueryComponent).
  rewrite !unescape_escape by done. done.
Qed.

Lemma Split_join sep l : l ≠ [] → Forall (λ x, sep ∉ x) l → Split sep (joinWith sep l) = l.
Proof.
  induction l as [|x l IH]; intros Hne Hl; [done|]. apply Forall_cons in Hl as [Hx Hl]. destruct l as [|y l]; [by apply Split_none|].
  change (joinWith sep (x :: y :: l)) with (x ++ [sep] ++ joinWith sep (y :: l)). by rewrite Split_cons, IH by done.
Qed.

Lemma parsePairs_encode l : ∀ v, Forall (λ x, bytes_ok x.1 ∧ bytes_ok x.2) l →
  parsePairs ((λ x, QueryEscape x.1 ++ [61] ++ QueryEscape x.2) <$> l) v = Some (foldl (λ v x, Add x.1 x.2 v) v l).
Proof. induction l as [|[k x] l IH]; intros v Hl; [done|]. apply Forall_cons in Hl as [[Hk Hx] Hl]. cbn [fmap list_fmap parsePairs fst snd]. rewrite parsePair_encode by done. by apply IH. Qed.

Lemma ParseQuery_Encode v : values_ok v → ParseQuery (Encode v) = Some v.
Proof.
  intros Hok. pose proof (pairs_ok v Hok) as Hp. rewrite <- (pairs_fold v Hok) at 2. unfold ParseQuery, Encode. rewrite <- parsePairs_encode by done.
  destruct (pairs v) as [|x l] eqn:E; [done|]. rewrite Split_join; [done|done|]. apply Forall_fmap. eapply Forall_impl; [exact Hp|]. intros [k y] [Hk Hy]. cbn in *.
  rewrite not_elem_of_app, not_elem_of_cons. unfold QueryEscape. split_and!; try done; apply escape_notin; try done; by right.
Qed.

(** What a query can contain. *)
Lemma Encode_chars v d : values_ok v → d ∈ Encode v → 0 ≤ d < 128 ∧ d ≠ 35 ∧ d ≠ 63 ∧ control d = false.
Proof.
  intros Hok. pose proof (pairs_ok v Hok) as Hp. unfold Encode. assert (Hs : ∀ s, bytes_ok s → Forall (λ c, 0 ≤ c < 128 ∧ c ≠ 35 ∧ c ≠ 63 ∧ control c = false) (QueryEscape s)).
  { intros s Hs. eapply Forall_impl; [apply (escape_safe encodeQueryComponent s); [by right|done]|]. intros c [Hr Hc]. split; [done|].
    assert (Hb : Forall (λ c, (shouldEscape c encodeQueryComponent = false ∨ c = 37 ∨ (c = 43 ∧ encodeQueryComponent = encodeQueryComponent)) → c ≠ 35 ∧ c ≠ 63 ∧ control c = false) (seqZ 0 128)).
    { apply Forall_forall. intros x Hx [H|[->|[-> _]]]; [|by vm_compute|by vm_compute]. split_and!; [by intros ->|by intros ->|].
      unfold control. apply not_true_iff_false. intros Hc'. apply elem_of_seqZ in Hx. destruct (decide (x = 127)) as [->|]; [done|].
      assert (Hl : Forall (λ x, shouldEscape x encodeQueryComponent = true) (seqZ 0 32)) by (by apply (bool_decide_unpack _)).
      rewrite Forall_forall in Hl. rewrite (Hl x) in H; [done|]. apply elem_of_seqZ. lia. }
    rewrite Forall_forall in Hb. apply Hb; [apply elem_of_seqZ; lia|done]. }
  induction Hp as [|[k x] l [Hk Hx] Hl IH]; [by intros ?%not_elem_of_nil|]. cbn in Hk, Hx. pose proof (Hs k Hk) as H1. pose proof (Hs x Hx) as H2. rewrite Forall_forall in H1, H2.
  cbn [fmap list_fmap fst snd]. destruct ((λ x, QueryEscape x.1 ++ [61] ++ QueryEscape x.2) <$> l) as [|y ys] eqn:El; cbn [joinWith]; rewrite !elem_of_app, ?list_elem_of_singleton.
  - intros [H|[->|H]]; auto. by vm_compute.
  - intros [[H|[->|H]]|[->|H]]; auto; by vm_compute.
Qed.

(** ** Links and back *)

Lemma ascii_check (P : Z → bool) c : forallb P (seqZ 0 128) = true → 0 ≤ c < 128 → P c = true.
Proof. intros HP Hc. rewrite forallb_forall in HP. apply HP. apply list_elem_of_In, elem_of_seqZ. lia. Qed.

(** Characters that end no part of a link. *)
Definition inert (c : Z) : bool := negb (bool_decide (c ∈ [35; 63; 64; 47])) && negb (control c).

Lemma inert_notin s c : Forall (λ c, inert c = true) s → inert c = false → c ∉ s.
Proof. intros Hs Hc Hin. rewrite Forall_forall in Hs. specialize (Hs _ Hin). cbn in Hs. congruence. Qed.

Lemma inert_control s : Forall (λ c, inert c = true) s → existsb control s = false.
Proof.
  intros Hs. apply not_true_iff_false. rewrite existsb_exists. intros (c & Hc%list_elem_of_In & Hctl). rewrite Forall_forall in Hs. specialize (Hs _ Hc). cbn in Hs.
  unfold inert in Hs. rewrite Hctl in Hs. by rewrite andb_false_r in Hs.
Qed.

Lemma user_chars s : bytes_ok s → Forall (λ c, inert c = true ∧ c ≠ 58 ∧ (alnum c || bool_decide (c ∈ string_bytes "-._:~!$&'()*+,;=%@")) = true) (escape s encodeUserPassword).
Proof.
  intros Hs. eapply Forall_impl; [apply (escape_safe encodeUserPassword s); [by left|done]|]. intros c [Hr Hc].
  pose proof (ascii_check (λ c, implb (negb (shouldEscape c encodeUserPassword) || (c =? 37))
    (inert c && negb (c =? 58) && (alnum c || bool_decide (c ∈ string_bytes "-._:~!$&'()*+,;=%@")))) c eq_refl Hr) as Hck.
  cbn beta in Hck. replace (negb (shouldEscape c encodeUserPassword) || (c =? 37)) with true in Hck.
  - cbn [implb] in Hck. apply andb_true_iff in Hck as [Hck H3]. apply andb_true_iff in Hck as [H1 H2]. split_and!; [done|lia|done].
  - destruct Hc as [->|[->|[_ ?]]]; [done|by rewrite orb_true_r|done].
Qed.

(** A host that is printed as it is. *)
Definition plainHost (host : bytes) : Prop := Forall (λ c, 0 ≤ c < 128 ∧ shouldEscape c encodeHost = false) host.

Lemma host_inert host : plainHost host → Forall (λ c, inert c = true) host.
Proof.
  intros Hh. eapply Forall_impl; [exact Hh|]. intros c [Hr Hc]. pose proof (ascii_check (λ c, implb (negb (shouldEscape c encodeHost)) (inert c)) c eq_refl Hr) as Hck.
  cbn beta in Hck. by rewrite Hc in Hck.
Qed.

Lemma host_escape host : plainHost host → escape host encodeHost = host.
Proof. induction 1 as [|c host [_ Hc] _ IH]; [done|]. unfold escape in *. cbn. rewrite IH. unfold escapeByte. by rewrite Hc. Qed.

Lemma host_unescape host : plainHost host → unescape host encodeHost = Some host.
Proof.
  induction 1 as [|c host [Hr Hc] _ IH]; [done|]. cbn [unescape]. rewrite IH. destruct (Z.eqb_spec c 37) as [->|]; [done|].
  destruct (Z.eqb_spec c 43) as [->|]; [done|]. rewrite Hc, andb_false_r. done.
Qed.

Lemma parse_userinfo name pw : bytes_ok name → bytes_ok pw →
  parseUserinfo (escape name encodeUserPassword ++ 58 :: escape pw encodeUserPassword) = Some (name, Some pw).
Proof.
  intros Hn Hp. pose proof (user_chars name Hn) as H1. pose proof (user_chars pw Hp) as H2. unfold parseUserinfo.
  assert (validUserinfo (escape name encodeUserPassword ++ 58 :: escape pw encodeUserPassword) = true) as ->.
  { unfold validUserinfo. apply forallb_forall. intros c Hc%list_elem_of_In. rewrite elem_of_app, elem_of_cons in Hc. rewrite Forall_forall in H1, H2.
    destruct Hc as [Hc|[->|Hc]]; [by apply H1|by vm_compute|by apply H2]. }
  cbn [negb]. rewrite Cut_at by (intros Hin; rewrite Forall_forall in H1; by destruct (H1 _ Hin) as (_ & ? & _)). rewrite !unescape_escape by (first [by left|done]). done.
Qed.

Lemma scheme_mierus raw rest : schemeLoop raw [] (string_bytes "mierus:" ++ rest) = Some (string_bytes "mierus", rest).
Proof. reflexivity. Qed.
Lemma scheme_mieru raw rest : schemeLoop raw [] (string_bytes "mieru:" ++ rest) = Some (string_bytes "mieru", rest).
Proof. reflexivity. Qed.

Lemma parse_rest scheme authority query : scheme ≠ [] → 47 ∉ authority →
  parseRest scheme (47 :: 47 :: authority) query =
  match parseAuthority authority with Some (user, host) => Some (mkURL scheme [] user host [] query) | None => None end.
Proof.
  intros Hs Ha. assert (Hd : drop (2 + length authority) (47 :: 47 :: authority) = []) by (cbn; by rewrite drop_all).
  unfold parseRest. change (drop 2 (47 :: 47 :: authority)) with authority. rewrite (Cut_none 47 authority) by done. cbn [fst]. rewrite Hd. cbn [take].
  rewrite (bool_decide_eq_true_2 ([47] = [47])), (bool_decide_eq_true_2 ([47; 47] = [47; 47])), (bool_decide_eq_false_2 (scheme = [])) by done.
  cbn [negb andb orb unescape]. by destruct (parseAuthority authority) as [[]|].
Qed.

Lemma parse_link name pw host query : bytes_ok name → bytes_ok pw → plainHost host → parseHost host = Some host → query ≠ [] →
  (∀ d, d ∈ query → 0 ≤ d < 128 ∧ d ≠ 35 ∧ d ≠ 63 ∧ control d = false) →
  Parse (URLString (string_bytes "mierus") name pw host query) = Some (mkURL (string_bytes "mierus") [] (Some (name, Some pw)) host [] query).
Proof.
  intros Hn Hp Hh Hph Hq Hqc. pose proof (user_chars name Hn) as H1. pose proof (user_chars pw Hp) as H2. pose proof (host_inert host Hh) as H3.
  unfold URLString. rewrite host_escape, bool_decide_eq_false_2 by done.
  set (A := escape name encodeUserPassword ++ [58] ++ escape pw encodeUserPassword ++ [64] ++ host).
  assert (Hraw : string_bytes "mierus" ++ string_bytes "://" ++ escape name encodeUserPassword ++ [58] ++ escape pw encodeUserPassword ++ [64] ++ host ++ [63] ++ query =
    string_bytes "mierus:" ++ (47 :: 47 :: A) ++ 63 :: query).
  { change (string_bytes "mierus:") with (string_bytes "mierus" ++ [58]). change (string_bytes "://") with [58; 47; 47]. unfold A. rewrite <- app_assoc. f_equal.
    cbn [app]. do 3 f_equal. repeat (rewrite <- app_assoc; cbn [app]). done. }
  rewrite Hraw. clear Hraw.
  assert (Hu : ∀ s, bytes_ok s → Forall (λ c, inert c = true) (escape s encodeUserPassword)) by (intros s Hs; eapply Forall_impl; [by apply user_chars|]; by intros c [? _]).
  assert (HA : ∀ c, inert c = false → c ≠ 64 → c ∉ A).
  { intros c Hc H64. unfold A. rewrite !not_elem_of_app, !list_elem_of_singleton. split_and!; try (by apply inert_notin; [auto|done]); [by intros ->|done]. }
  unfold Parse. rewrite Cut_none.
  2: { rewrite !not_elem_of_app, !not_elem_of_cons. split_and!; try done; [by apply (bool_decide_unpack _)|by apply HA|]. intros Hin. by destruct (Hqc _ Hin) as (_ & ? & _). }
  assert (existsb control (string_bytes "mierus:" ++ (47 :: 47 :: A) ++ 63 :: query) = false) as ->.
  { rewrite !existsb_app. cbn [existsb]. rewrite !orb_false_iff. split_and!; try done.
    - unfold A. rewrite !existsb_app. rewrite (inert_control (escape name encodeUserPassword)), (inert_control (escape pw encodeUserPassword)), (inert_control host) by auto. reflexivity.
    - apply not_true_iff_false. rewrite existsb_exists. intros (c & Hc%list_elem_of_In & Hctl). destruct (Hqc _ Hc) as (_ & _ & _ & ?). congruence. }
  rewrite bool_decide_eq_false_2 by done. unfold getScheme. rewrite scheme_mierus. unfold cutQuery. rewrite Cut_at by (rewrite !not_elem_of_cons; split_and!; try done; by apply HA).
  rewrite parse_rest by (try done; by apply HA). unfold parseAuthority.
  assert (HA' : A = (escape name encodeUserPassword ++ 58 :: escape pw encodeUserPassword) ++ 64 :: host) by (unfold A; by rewrite <- !app_assoc). rewrite HA'.
  rewrite LastIndexByte_last by (by apply inert_notin). rewrite take_app_length, drop_app_ge, Nat.sub_succ_l, Nat.sub_diag by lia. cbn [drop]. rewrite drop_0, Hph, parse_userinfo by done. reflexivity.
Qed.

End Url.
Export Url.
