(* ===== verification/Links.v ===== *)
(** * Links that share a configuration: pkg/appctl/url.go, pkg/appctl/client.go,
    pkg/common/ipdualstack.go (MaybeDecorateIPv6)

    A configuration is shared as a link [mieru://] that holds its protobuf bytes, or,
    for each server of a profile, as a readable link [mierus://].  Protobuf is a
    parameter.  The texts of a configuration are Rocq strings, those of links are
    bytes. *)

From S2P Require Import Prelude Mathext Common Sha256 Rng Cipher Auth Segment SessionState Session Scheduler Socks Net SocksUDP Dns.
From S2P Require Import Egress SocksAuth TrafficPattern Mux PortBinding ConfigServer ConfigClient PanelText Url.
From Stdlib Require Import ZifyBool.
Local Open Scope Z_scope.

Module Links.

(** ** Hosts *)

Definition isIPv6 (addr : bytes) : bool :=
  let host := match SplitHostPort addr with Ret (h, _) => h | _ => addr end in
  let ip := ParseIP host in
  if len ip =? 0 then false else len (To4 ip) =? 0.

Definition MaybeDecorateIPv6 (addr : bytes) : bytes := if isIPv6 addr then [91] ++ addr ++ [93] else addr.

(** ** Names of the enumerations *)

Definition levels : list (string * MultiplexingLevel) :=
  [("MULTIPLEXING_DEFAULT", MULTIPLEXING_DEFAULT); ("MULTIPLEXING_OFF", MULTIPLEXING_OFF); ("MULTIPLEXING_LOW", MULTIPLEXING_LOW);
   ("MULTIPLEXING_MIDDLE", MULTIPLEXING_MIDDLE); ("MULTIPLEXING_HIGH", MULTIPLEXING_HIGH)].
Definition modes : list (string * HandshakeMode) :=
  [("HANDSHAKE_DEFAULT", HANDSHAKE_DEFAULT); ("HANDSHAKE_STANDARD", HANDSHAKE_STANDARD); ("HANDSHAKE_NO_WAIT", HANDSHAKE_NO_WAIT)].
Definition protocols : list (string * Protocol) :=
  [("UNKNOWN_TRANSPORT_PROTOCOL", UNKNOWN_TRANSPORT_PROTOCOL); ("UDP", UDP); ("TCP", TCP)].

(** The map from names to values: an absent name gives the zero value. *)
Definition valueOf {E} (zero : E) (names : list (string * E)) (s : bytes) : E :=
  default zero (snd <$> head (filter (λ p, string_bytes p.1 = s) names)).

Definition levelName (l : MultiplexingLevel) : bytes :=
  string_bytes (match l with
    | MULTIPLEXING_DEFAULT => "MULTIPLEXING_DEFAULT" | MULTIPLEXING_OFF => "MULTIPLEXING_OFF" | MULTIPLEXING_LOW => "MULTIPLEXING_LOW"
    | MULTIPLEXING_MIDDLE => "MULTIPLEXING_MIDDLE" | MULTIPLEXING_HIGH => "MULTIPLEXING_HIGH" end).
Definition modeName (m : HandshakeMode) : bytes :=
  string_bytes (match m with HANDSHAKE_DEFAULT => "HANDSHAKE_DEFAULT" | HANDSHAKE_STANDARD => "HANDSHAKE_STANDARD" | HANDSHAKE_NO_WAIT => "HANDSHAKE_NO_WAIT" end).
Definition protocolName (p : Protocol) : bytes :=
  string_bytes (match p with UNKNOWN_TRANSPORT_PROTOCOL => "UNKNOWN_TRANSPORT_PROTOCOL" | UDP => "UDP" | TCP => "TCP" end).

Definition int32 (z : Z) : Z := (z + 2 ^ 31) `mod` 2 ^ 32 - 2 ^ 31.

Section Links.
Context (marshal : PbClientConfig → outcome bytes) (unmarshal : bytes → outcome PbClientConfig)
        (marshalPattern : TrafficPattern → outcome bytes) (unmarshalPattern : bytes → outcome TrafficPattern).

(** ** Making links *)

Definition ClientConfigToURL (config : option PbClientConfig) : outcome bytes :=
  match config with
  | None => Err ErrNullPointer
  | Some c =>
      match marshal c with
      | Ret b => Ret (string_bytes "mieru://" ++ StdEncode b)
      | Err _ => Err (Errorf "proto.Marshal() failed: %w")
      | Panic p => Panic p
      end
  end.

Definition addBinding (q : Values) (b : PortBinding) : Values :=
  Add (string_bytes "protocol") (protocolName (bProtocol b))
    (Add (string_bytes "port") (if bool_decide (bPortRange b = []) then Itoa (bPort b) else bPortRange b) q).

(** The query of a server: the settings of the profile, then its ports. *)
Definition serverQuery (p : PbClientProfile) (s : PbServerEndpoint) : outcome Values :=
  let q := Add (string_bytes "profile") (string_bytes (cp_profileName p)) ∅ in
  let q := match cp_Mtu p with Some mtu => Add (string_bytes "mtu") (Itoa mtu) q | None => q end in
  let q := match cp_Multiplexing p with Some (Some l) => Add (string_bytes "multiplexing") (levelName l) q | _ => q end in
  let q := match cp_HandshakeMode p with Some m => Add (string_bytes "handshake-mode") (modeName m) q | None => q end in
  let! q :=
    match cp_trafficPattern p with
    | None => Ret q
    | Some tp =>
        match marshalPattern tp with
        | Ret b => Ret (Add (string_bytes "traffic-pattern") (StdEncode b) q)
        | Err _ => Err (Errorf "proto.Marshal() failed to marshal traffic pattern: %w")
        | Panic x => Panic x
        end
    end in
  Ret (foldl addBinding q (se_portBindings s)).

Definition serverURL (p : PbClientProfile) (s : PbServerEndpoint) : outcome bytes :=
  let! host :=
    (if negb (bool_decide (se_domainName s = [])) then Ret (se_domainName s)
     else if negb (bool_decide (se_ipAddress s = [])) then Ret (MaybeDecorateIPv6 (se_ipAddress s))
     else Err (Errorf "profile %s has a server with no domain name or IP address")) in
  if bool_decide (se_portBindings s = []) then Err (Errorf "profile %s has a server %s with no port bindings")
  else
    let! q := serverQuery p s in
    Ret (URLString (string_bytes "mierus") (string_bytes (pu_name (cp_user p))) (string_bytes (pu_password (cp_user p))) host (Encode q)).

Definition ClientProfileToMultiURLs (profile : option PbClientProfile) : outcome (list bytes) :=
  match profile with
  | None => Err ErrNullPointer
  | Some p =>
      if bool_decide (cp_profileName p = "") then Err (Errorf "profile name is empty")
      else if bool_decide (pu_name (cp_user p) = "") then Err (Errorf "user name in profile %s is empty")
      else if bool_decide (pu_password (cp_user p) = "") then Err (Errorf "password in profile %s is empty")
      else if bool_decide (cp_servers p = []) then Err (Errorf "profile %s has no server")
      else mapOutcome (serverURL p) (cp_servers p)
  end.

(** ** Reading links *)

(** The scheme is removed by cutting eight bytes. *)
Definition URLToClientConfig (s : bytes) : outcome PbClientConfig :=
  match Parse s with
  | None => Err (Errorf "url.Parse() failed: %w")
  | Some u =>
      if negb (bool_decide (Scheme u = string_bytes "mieru")) then Err (Errorf "unrecognized URL scheme %q")
      else if negb (bool_decide (Opaque u = [])) then Err (Errorf "URL is opaque")
      else if len s <? 8 then Panic "slice bounds out of range"
      else match StdDecode (drop 8 s) with
           | None => Err (Errorf "base64.StdEncoding.DecodeString() failed: %w")
           | Some b => match unmarshal b with Ret c => Ret c | Err _ => Err (Errorf "proto.Unmarshal() failed: %w") | Panic x => Panic x end
           end
  end.

Definition portNumber (n : Z) : bool := (1 <=? n) && (n <=? 65535).

(** One pair of a port and a protocol. *)
Definition readBinding (port protocol : bytes) : outcome PortBinding :=
  let pr := valueOf UNKNOWN_TRANSPORT_PROTOCOL protocols protocol in
  match Atoi port with
  | Ret n => if portNumber n then Ret (mkBinding n [] pr) else Err (Errorf "URL has invalid port number %d")
  | _ =>
      match Split 45 port with
      | [a; b] =>
          match Atoi a, Atoi b with
          | Ret begin, Ret last =>
              if negb (portNumber begin) then Err (Errorf "URL has invalid begin port number %d")
              else if negb (portNumber last) then Err (Errorf "URL has invalid end port number %d")
              else if last <? begin then Err (Errorf "URL's begin port number %d is greater than end port number %d")
              else Ret (mkBinding 0 (Itoa begin ++ [45] ++ Itoa last) pr)
          | Ret _, _ => Err (Errorf "URL has invalid end of port range %q")
          | _, _ => Err (Errorf "URL has invalid begin of port range %q")
          end
      | _ => Err (Errorf "URL has invalid port or port range %q")
      end
  end.

Fixpoint readBindings (ports protos : list bytes) : outcome (list PortBinding) :=
  match ports, protos with
  | port :: ports, proto :: protos => let! b := readBinding port proto in let! bs := readBindings ports protos in Ret (b :: bs)
  | _, _ => Ret []
  end.

Definition readPattern (text : bytes) : outcome (option TrafficPattern) :=
  if bool_decide (text = []) then Ret None
  else match StdDecode text with
       | None => Err (Errorf "base64.StdEncoding.DecodeString() failed to decode traffic pattern: %w")
       | Some b =>
           match unmarshalPattern b with
           | Ret tp => Ret (Some tp)
           | Err _ => Err (Errorf "proto.Unmarshal() failed to unmarshal traffic pattern: %w")
           | Panic x => Panic x
           end
       end.

(** What the query of a readable link says. *)
Definition readQuery (user : PbUser) (ip domain : bytes) (q : Values) : outcome PbClientProfile :=
  let get := λ k, Get (string_bytes k) q in
  if bool_decide (get "profile" = []) then Err (Errorf "URL has no profile name")
  else
    let! mtu :=
      (if bool_decide (get "mtu" = []) then Ret None
       else match Atoi (get "mtu") with Ret n => Ret (Some (int32 n)) | _ => Err (Errorf "URL has invalid MTU %q") end) in
    let multiplexing := if bool_decide (get "multiplexing" = []) then None else Some (Some (valueOf MULTIPLEXING_DEFAULT levels (get "multiplexing"))) in
    let mode := if bool_decide (get "handshake-mode" = []) then None else Some (valueOf HANDSHAKE_DEFAULT modes (get "handshake-mode")) in
    let! tp := readPattern (get "traffic-pattern") in
    let ports := default [] (q !! string_bytes "port") in
    let protos := default [] (q !! string_bytes "protocol") in
    if negb (length ports =? length protos)%nat then Err (Errorf "URL has mismatched number of port and number of protocol")
    else
      let! bs := readBindings ports protos in
      Ret (mkProfile (bytes_string (get "profile")) user [mkServerEndpoint ip domain bs] mtu multiplexing tp mode).

Definition URLToClientProfile (s : bytes) : outcome PbClientProfile :=
  match Parse s with
  | None => Err (Errorf "url.Parse() failed: %w")
  | Some u =>
      if negb (bool_decide (Scheme u = string_bytes "mierus")) then Err (Errorf "unrecognized URL scheme %q")
      else if negb (bool_decide (Opaque u = [])) then Err (Errorf "URL is opaque")
      else match UserInfo u with
           | None => Err (Errorf "URL has no user info")
           | Some (name, pw) =>
               if bool_decide (name = []) then Err (Errorf "URL has no user name")
               else if bool_decide (default [] pw = []) then Err (Errorf "URL has no password")
               else if bool_decide (Hostname u = []) then Err (Errorf "URL has no host")
               else
                 let user := mkPbUser (bytes_string name) (bytes_string (default [] pw)) "" [] (mkRights false false) in
                 let '(ip, domain) := if bool_decide (ParseIP (Hostname u) = []) then ([], Hostname u) else (Hostname u, []) in
                 match ParseQuery (RawQuery u) with
                 | None => Err (Errorf "url.ParseQuery() failed: %w")
                 | Some q => readQuery user ip domain q
                 end
           end
  end.

(** ** In the store of the client (pkg/appctl/client.go) *)

Section File.
Context (parseDuration : bytes → outcome Z).

Definition GetURLClientConfig (file : option bytes) : outcome bytes :=
  match LoadClientConfig unmarshal file with
  | Ret c => match ClientConfigToURL (Some c) with Ret u => Ret u | Err _ => Err (Errorf "ClientConfigToURL() failed: %w") | Panic p => Panic p end
  | Err _ => Err (Errorf "LoadClientConfig() failed: %w")
  | Panic p => Panic p
  end.

Definition hasPrefix (s p : bytes) : bool := bool_decide (take (length p) s = p).

Definition ParseURLClientConfig (u : bytes) : outcome PbClientConfig :=
  if hasPrefix u (string_bytes "mieru://") then
    match URLToClientConfig u with Ret c => Ret c | Err _ => Err (Errorf "URLToClientConfig() failed: %w") | Panic p => Panic p end
  else if hasPrefix u (string_bytes "mierus://") then
    match URLToClientProfile u with
    | Ret p => Ret (mkClientConfig [p] None None None None None None None None None)
    | Err _ => Err (Errorf "URLToClientProfile() failed: %w")
    | Panic x => Panic x
    end
  else Err (Errorf "unrecognized URL scheme. URL must begin with mieru:// or mierus://").

Definition ApplyURLClientConfig (u : bytes) (file : option bytes) : outcome (option bytes) :=
  let! c := ParseURLClientConfig u in applyClientConfig parseDuration marshal unmarshal c file.
End File.
End Links.

(** * Properties *)

(** ** Addresses as hosts *)

Definition ipChar (c : Z) : Prop := hex_value c ≠ None ∨ c = 46 ∨ c = 58.

Lemma digit_ip c : is_digit c = true → ipChar c.
Proof. intros Hc. left. unfold hex_value. by rewrite Hc. Qed.

Lemma ipv4_chars s : ∀ first prevDot digLen val fs r, parseIPv4Fields s first prevDot digLen val fs = Some r → Forall ipChar s.
Proof.
  induction s as [|c s IH]; intros first prevDot digLen val fs r Hp; [constructor|]. cbn in Hp. destruct (is_digit c) eqn:Ed.
  - constructor; [by apply digit_ip|]. repeat case_if_in Hp; try done; by eapply IH.
  - destruct (Z.eqb_spec c 46) as [->|]; [|done]. constructor; [by right; left|]. repeat case_if_in Hp; try done; by eapply IH.
Qed.

Lemma hexGroup_chars s : ∀ off acc o a r, hexGroup s off acc = Some (o, a, r) → ∃ g, s = g ++ r ∧ Forall ipChar g.
Proof.
  induction s as [|c s IH]; intros off acc o a r Hg; cbn in Hg; [injection Hg as <- <- <-; by exists []|].
  destruct (hex_value c) as [d|] eqn:Ed; [|injection Hg as <- <- <-; by exists []]. case_if_in Hg; [done|].
  destruct (IH _ _ _ _ _ Hg) as (g & -> & Hf). exists (c :: g). split; [done|]. constructor; [left; by rewrite Ed|done].
Qed.

Lemma ipv6_chars fuel : ∀ s ip e ip' e', parseIPv6Loop fuel s ip e = Some (ip', e', []) → Forall ipChar s.
Proof.
  induction fuel as [|fuel IH]; intros s ip e ip' e' Hp; cbn [parseIPv6Loop] in Hp; [injection Hp as _ _ ->; constructor|].
  destruct (hexGroup s 0 0) as [[[off acc] r]|] eqn:Eg; [|done]. case_if_in Hp; [done|]. destruct (hexGroup_chars _ _ _ _ _ _ Eg) as (g & Hs & Hg).
  destruct (match r with 46 :: _ => true | _ => false end) eqn:E46.
  { repeat case_if_in Hp; try done. destruct (parseIPv4 s) eqn:E4; [|done]. by eapply ipv4_chars. }
  subst s. apply Forall_app. split; [done|]. clear E46 Eg. destruct r as [|c r]; [constructor|].
  assert (Hc : c = 58) by (destruct c as [|c|c]; [done| |done]; repeat (destruct c as [c|c|]; try done)). subst c.
  constructor; [by right; right|]. destruct r as [|c r]; [done|]. destruct (decide (c = 58)) as [->|Hc].
  - destruct e; [done|]. constructor; [by right; right|]. destruct r as [|d r]; [constructor|]. by eapply IH.
  - eapply IH. destruct c as [|c|c]; [exact Hp| |exact Hp]. repeat (destruct c as [c|c|]; try exact Hp; try done).
Qed.

Lemma ellipsis_split s : ∃ e t, match s with 58 :: 58 :: s' => (Some 0%nat, s') | _ => (None, s) end = (e, t) ∧ (s = t ∨ s = 58 :: 58 :: t).
Proof.
  destruct s as [|c s]; [by eexists _, _; eauto|]. destruct c as [|c|c]; try (by eexists _, _; eauto). repeat (destruct c as [c|c|]; try (by eexists _, _; eauto)).
  destruct s as [|c s]; [by eexists _, _; eauto|]. destruct c as [|c|c]; try (by eexists _, _; eauto). repeat (destruct c as [c|c|]; try (by eexists _, _; eauto)).
Qed.

Lemma ParseIP_chars s : ParseIP s ≠ [] → Forall ipChar s.
Proof.
  unfold ParseIP, ParseAddr. case_if; [|case_if; [|done]].
  - destruct (parseIPv4 s) eqn:E; [|done]. intros _. by eapply ipv4_chars.
  - unfold parseIPv6. case_if; [done|]. intros Hp. assert (H0 : ∀ e t, match parseIPv6Loop 8 t [] e with
      | None => None
      | Some (ip, ellipsis, s) =>
          if negb (len s =? 0) then None
          else if len ip <? 16 then match ellipsis with None => None | Some e => Some (take e ip ++ replicate (16 - length ip) 0 ++ drop e ip) end
          else match ellipsis with Some _ => None | None => Some ip end
      end ≠ None → Forall ipChar t).
    { intros e t Ht. destruct (parseIPv6Loop 8 t [] e) as [[[ip e'] r]|] eqn:E; [|done]. destruct r as [|c r]; [by eapply ipv6_chars|].
      rewrite len_cons in Ht. pose proof (len_nonneg r). exfalso. apply Ht. case_if; [done|lia]. }
    destruct (ellipsis_split s) as (e & t & Hm & Hs). rewrite Hm in Hp. assert (Ht : Forall ipChar t).
    { destruct (bool_decide (e = Some 0%nat) && (len t =? 0)) eqn:Ee.
      - destruct t; [constructor|]. rewrite len_cons in Ee. pose proof (len_nonneg t). lia.
      - apply (H0 e t). intros E. by rewrite E in Hp. }
    destruct Hs as [-> | ->]; [done|]. repeat (constructor; [by right; right|]). done.
Qed.

Lemma ip_plain s : Forall ipChar s → plainHost s.
Proof.
  intros Hs. eapply Forall_impl; [exact Hs|]. intros c Hc. assert (Hr : 0 ≤ c < 128).
  { destruct Hc as [Hc|[->| ->]]; try lia. unfold hex_value, is_digit in Hc. destruct (decide (0 ≤ c < 128)); [done|]. exfalso. apply Hc. repeat case_if; try lia. done. }
  split; [done|]. pose proof (ascii_check (λ c, implb (negb (bool_decide (hex_value c = None)) || (c =? 46) || (c =? 58)) (negb (shouldEscape c encodeHost))) c eq_refl Hr) as Hck.
  cbn beta in Hck. apply negb_true_iff. destruct Hc as [Hc|[->| ->]]; [|by vm_compute|by vm_compute]. by rewrite bool_decide_eq_false_2 in Hck.
Qed.

(** A name of a host: letters, digits and marks. *)
Definition nameChar (c : Z) : Prop := alnum c = true ∨ c ∈ string_bytes "-._~".

Lemma name_plain s : Forall nameChar s → plainHost s ∧ 58 ∉ s ∧ 91 ∉ s.
Proof.
  intros Hs. split.
  - eapply Forall_impl; [exact Hs|]. intros c Hc. split.
    + destruct Hc as [Hc|Hc]; [unfold alnum in Hc; lia|]. revert c Hc. apply Forall_forall. by apply (bool_decide_unpack _).
    + unfold shouldEscape. destruct (alnum c) eqn:Ea; [done|]. destruct Hc as [Hc|Hc]; [congruence|]. rewrite (bool_decide_eq_true_2 (c ∈ string_bytes "-_.~")); [by destruct (isHostMode _ && _)|]. clear Ea Hs. revert c Hc. apply Forall_forall. by apply (bool_decide_unpack _).
  - split; intros Hin; rewrite Forall_forall in Hs; destruct (Hs _ Hin) as [H|H]; try done; by apply (bool_decide_pack _) in H.
Qed.

Lemma plain_parseHost host : plainHost host → 58 ∉ host → head host ≠ Some 91 → parseHost host = Some host.
Proof.
  intros Hp Hc Hh. unfold parseHost. rewrite host_unescape by done. rewrite LastIndexByte_none by done.
  destruct host as [|c host]; [done|]. destruct c as [|c|c]; try done. repeat (destruct c as [c|c|]; try done).
Qed.

Lemma plain_hostname u : 58 ∉ Host u → head (Host u) ≠ Some 91 → Hostname u = Host u.
Proof.
  intros Hc Hh. unfold Hostname. rewrite LastIndexByte_none by done. rewrite bool_decide_eq_false_2; [done|]. by destruct (Host u) as [|c h]; [|intros [= ->]].
Qed.

Lemma bracket_parseHost s : Forall ipChar s → parseHost ([91] ++ s ++ [93]) = Some ([91] ++ s ++ [93]) ∧ plainHost ([91] ++ s ++ [93]).
Proof.
  intros Hs. assert (Hp : plainHost ([91] ++ s ++ [93])).
  { apply Forall_app. split; [by repeat constructor|]. apply Forall_app. split; [by apply ip_plain|by repeat constructor]. }
  split; [|done]. unfold parseHost. rewrite host_unescape by done. cbn [app]. change (91 :: s ++ [93]) with ((91 :: s) ++ 93 :: []).
  rewrite LastIndexByte_last by apply not_elem_of_nil. rewrite drop_app_ge, Nat.sub_succ_l, Nat.sub_diag by lia. cbn [drop validOptionalPort negb].
  rewrite take_app_length. assert (H37 : 37 ∉ 91 :: s).
  { apply not_elem_of_cons. split; [done|]. intros Hin. rewrite Forall_forall in Hs. destruct (Hs _ Hin) as [H|[H|H]]; [by apply H|done|done]. }
  assert (Index (91 :: s) (string_bytes "%25") = None) as ->; [|done]. clear -H37. induction (91 :: s) as [|c t IH]; [done|]. apply not_elem_of_cons in H37 as [Hc Ht].
  cbn [Index]. rewrite bool_decide_eq_false_2; [by rewrite IH|]. intros E. apply Hc. change (length (string_bytes "%25")) with 3%nat in E. cbn in E. by injection E.
Qed.

Lemma LastIndexByte_lt c l i : LastIndexByte c l = Some i → (i < length l)%nat.
Proof.
  revert i. induction l as [|x l IH]; intros i Hi; cbn in Hi; [done|].
  destruct (LastIndexByte c l) as [j|]; [injection Hi as <-; specialize (IH j eq_refl); cbn; lia|]. case_if_in Hi; [injection Hi as <-; cbn; lia|done].
Qed.

Lemma bracket_hostname u s : Host u = [91] ++ s ++ [93] → Hostname u = s.
Proof.
  intros Hu. unfold Hostname. rewrite Hu. assert (Hport : ∀ i, LastIndexByte 58 ([91] ++ s ++ [93]) = Some i → validOptionalPort (drop i ([91] ++ s ++ [93])) = false).
  { intros i Hi. assert (Hd : ∃ t, drop i ([91] ++ s ++ [93]) = t ++ [93]).
    { pose proof (LastIndexByte_lt _ _ _ Hi) as H.
      rewrite !length_app in H. cbn in H. exists (drop i ([91] ++ s)). rewrite app_assoc, drop_app_le by (rewrite length_app; cbn; lia). done. }
    destruct Hd as [t ->]. destruct t as [|c t]; [done|]. cbn [app validOptionalPort]. rewrite forallb_app. cbn. by rewrite andb_false_r, andb_false_r. }
  assert (Hh : (match LastIndexByte 58 ([91] ++ s ++ [93]) with Some i => if validOptionalPort (drop i ([91] ++ s ++ [93])) then take i ([91] ++ s ++ [93]) else [91] ++ s ++ [93] | None => [91] ++ s ++ [93] end) = [91] ++ s ++ [93]).
  { destruct (LastIndexByte 58 ([91] ++ s ++ [93])) as [i|] eqn:E; [|done]. by rewrite Hport. }
  rewrite Hh. rewrite (bool_decide_eq_true_2 (take 1 _ = _)), (bool_decide_eq_true_2 (last _ = _)) by (first [done|by rewrite app_assoc, last_snoc]).
  cbn [andb]. rewrite !length_app. cbn [app drop length]. replace (1 + (length s + 1) - 2)%nat with (length s) by lia. rewrite drop_0. apply take_app_length.
Qed.

(** A server that a link can name: the domain is a name, not an address; an address
    with colons is one that is put in brackets. *)
Definition host_ok (s : PbServerEndpoint) : Prop :=
  if bool_decide (se_domainName s = []) then ParseIP (se_ipAddress s) ≠ [] ∧ (isIPv6 (se_ipAddress s) = true ∨ 58 ∉ se_ipAddress s)
  else Forall nameChar (se_domainName s) ∧ ParseIP (se_domainName s) = [].

Definition hostText (s : PbServerEndpoint) : bytes := if bool_decide (se_domainName s = []) then se_ipAddress s else se_domainName s.
Definition linkHost (s : PbServerEndpoint) : bytes := if bool_decide (se_domainName s = []) then MaybeDecorateIPv6 (se_ipAddress s) else se_domainName s.

Lemma link_host s : host_ok s → plainHost (linkHost s) ∧ parseHost (linkHost s) = Some (linkHost s) ∧ hostText s ≠ [] ∧
  ∀ u, Host u = linkHost s → Hostname u = hostText s.
Proof.
  unfold host_ok, linkHost, hostText. case_bool_decide as Ed.
  - intros [Hip H6]. pose proof (ParseIP_chars _ Hip) as Hc. assert (Hne : se_ipAddress s ≠ []) by (intros E; by rewrite E in Hip).
    unfold MaybeDecorateIPv6. destruct (isIPv6 (se_ipAddress s)).
    + destruct (bracket_parseHost _ Hc) as [H1 H2]. split_and!; try done. intros u. apply bracket_hostname.
    + destruct H6 as [?|H58]; [done|]. assert (H91 : head (se_ipAddress s) ≠ Some 91).
      { destruct Hc as [|c t [Hc|[->| ->]] _]; [done| |done|done]. intros [= ->]. by apply Hc. }
      split_and!; [by apply ip_plain|by apply plain_parseHost; [apply ip_plain|..]|done|]. intros u Hu. rewrite <- Hu in *. by apply plain_hostname.
  - intros [Hn _]. destruct (name_plain _ Hn) as (H1 & H2 & H3). assert (H91 : head (se_domainName s) ≠ Some 91) by (destruct (se_domainName s); [done|]; intros [= ->]; apply H3, list_elem_of_here).
    split_and!; [done|by apply plain_parseHost|done|]. intros u Hu. rewrite <- Hu in *. by apply plain_hostname.
Qed.

(** ** Ports *)

Lemma Atoi_Itoa n : - 2 ^ 63 < n < 2 ^ 63 → Atoi (Itoa n) = Ret n.
Proof. intros Hn. pose proof (parse_Itoa n Hn) as H. unfold parseI64 in H. destruct (Atoi (Itoa n)); [by injection H as ->|done|done]. Qed.

Lemma Atoi_bad c s : is_digit c = true → forallb is_digit (c :: s) = false → ∃ e, Atoi (c :: s) = Err e.
Proof.
  intros Hc Hf. unfold Atoi. replace (match c with 45 => (true, s) | 43 => (false, s) | _ => (false, c :: s) end) with (false, c :: s).
  - rewrite Hf. rewrite orb_true_r. by eexists.
  - apply digit_cases in Hc. by destruct_or!; subst c.
Qed.

Lemma Itoa_digits n : 0 ≤ n < 2 ^ 63 → Itoa n ≠ [] ∧ forallb is_digit (Itoa n) = true.
Proof.
  intros Hn. destruct (digits_spec 20 n) as (Hne & Hd & _); [cbn; lia|lia|]. unfold Itoa. by rewrite (proj2 (Z.ltb_ge _ _)) by lia.
Qed.

(** A binding that the program accepts, set in one of the two ways. *)
Definition binding_ok (b : PortBinding) : Prop := (∃ ports, bindingPorts b = Ret ports) ∧ (bPortRange b = [] ∨ bPort b = 0).

(** The same ports, with the numbers of a range printed anew. *)
Definition canonBinding (b : PortBinding) : PortBinding :=
  match bindingPorts b with
  | Ret (lo, hi) => if bool_decide (bPortRange b = []) then mkBinding lo [] (bProtocol b) else mkBinding 0 (Itoa lo ++ [45] ++ Itoa hi) (bProtocol b)
  | _ => b
  end.

Definition portText (b : PortBinding) : bytes := if bool_decide (bPortRange b = []) then Itoa (bPort b) else bPortRange b.

Lemma protocol_name p : valueOf UNKNOWN_TRANSPORT_PROTOCOL protocols (protocolName p) = p.
Proof. by destruct p. Qed.

Lemma read_binding b : binding_ok b → readBinding (portText b) (protocolName (bProtocol b)) = Ret (canonBinding b) ∧
  bindingPorts (canonBinding b) = bindingPorts b ∧ bProtocol (canonBinding b) = bProtocol b.
Proof.
  intros [[[lo hi] Hp] Hone]. unfold canonBinding, portText, readBinding. rewrite protocol_name, Hp. unfold bindingPorts in Hp |- *. case_bool_decide as Epr; [done|].
  destruct (Z.eqb_spec (bPort b) 0) as [E0|N0]; cbn [negb] in Hp.
  - destruct (validPortRange (bPortRange b)) as [[m1 m2]|] eqn:Er; [|done]. apply range_parts in Er as (Hr & Hn1 & Hn2 & Hd1 & Hd2).
    assert (Hne : bPortRange b ≠ []) by (rewrite Hr; by destruct m1). rewrite bool_decide_eq_false_2 by done.
    destruct (Atoi m1) as [small| |] eqn:E1; [|done|done]. destruct (Atoi m2) as [big| |] eqn:E2; [|done|done]. cbn [obind] in Hp.
    destruct (validPort small) eqn:V1; [|done]. destruct (validPort big) eqn:V2; [|done]. cbn [negb] in Hp. case_if_in Hp; [done|]. injection Hp as -> ->.
    assert (Hlo : 1 ≤ lo ≤ 65535 ∧ 1 ≤ hi ≤ 65535) by (unfold validPort in *; lia). destruct (Itoa_digits lo) as [H1 H2]; [lia|]. destruct (Itoa_digits hi) as [H3 H4]; [lia|].
    split; [|split; [|done]].
    + rewrite Hr. destruct m1 as [|c m1]; [done|]. cbn [app]. destruct (Atoi_bad c (m1 ++ 45 :: m2)) as [e He]; [cbn in Hd1; lia|cbn; rewrite forallb_app; cbn; by rewrite andb_false_r, andb_false_r|].
      rewrite He. change (c :: m1 ++ 45 :: m2) with ((c :: m1) ++ [45] ++ m2). rewrite Split_cons, Split_none by (by apply digits_no_dash). rewrite E1, E2.
      unfold portNumber, validPort in *. rewrite V1, V2. cbn [negb]. case_if; [lia|done].
    + cbn [bPort bPortRange bProtocol]. rewrite bool_decide_eq_false_2 by done. change (negb (0 =? 0)) with false. cbv iota. rewrite range_make by done. rewrite !Atoi_Itoa by lia. cbn [obind].
      rewrite V1, V2. cbn [negb]. case_if; [lia|done].
  - destruct (validPort (bPort b)) eqn:V; [|done]. injection Hp as <- <-. assert (Hlo : 1 ≤ bPort b ≤ 65535) by (unfold validPort in V; lia).
    destruct Hone as [Hr|?]; [|done]. rewrite bool_decide_eq_true_2 by done. rewrite Atoi_Itoa by lia. unfold portNumber. replace ((1 <=? bPort b) && (bPort b <=? 65535)) with true by lia.
    split; [done|]. cbn [bPort bPortRange bProtocol]. rewrite bool_decide_eq_false_2 by done. rewrite (proj2 (Z.eqb_neq _ _)) by lia. cbn [negb]. by rewrite V.
Qed.

Lemma collect_canon bs : ∀ tcp udp, Forall binding_ok bs → collectPorts (canonBinding <$> bs) tcp udp = collectPorts bs tcp udp.
Proof.
  induction bs as [|b bs IH]; intros tcp udp Hb; [done|]. apply Forall_cons in Hb as [Hb Hbs]. destruct (read_binding b Hb) as (_ & H1 & H2).
  cbn [fmap list_fmap collectPorts]. rewrite H1, H2. destruct (bindingPorts b); cbn [obind]; [|done|done]. destruct (bProtocol b); [done|by apply IH|by apply IH].
Qed.

(** ** Settings *)

Definition one (k : string) (o : option bytes) : list (bytes * bytes) := match o with Some x => [(string_bytes k, x)] | None => [] end.
Definition bindingPairs (b : PortBinding) : list (bytes * bytes) := [(string_bytes "port", portText b); (string_bytes "protocol", protocolName (bProtocol b))].
Definition levelOf (p : PbClientProfile) : option MultiplexingLevel := mjoin (cp_Multiplexing p).

Definition settings (p : PbClientProfile) (tp : option bytes) (s : PbServerEndpoint) : list (bytes * bytes) :=
  one "profile" (Some (string_bytes (cp_profileName p))) ++ one "mtu" (Itoa <$> cp_Mtu p) ++ one "multiplexing" (levelName <$> levelOf p) ++
  one "handshake-mode" (modeName <$> cp_HandshakeMode p) ++ one "traffic-pattern" tp ++ concat (bindingPairs <$> se_portBindings s).

Definition addAll (l : list (bytes * bytes)) : Values := foldl (λ v x, Add x.1 x.2 v) ∅ l.

Lemma addAll_values k l : default [] (addAll l !! k) = valuesOf k l.
Proof. unfold addAll. rewrite fold_add, lookup_empty. by destruct (valuesOf k l). Qed.

Lemma valuesOf_opt k k' o : valuesOf k (one k' o) = if decide (string_bytes k' = k) then option_list o else [].
Proof. destruct o as [x|]; cbn; [apply (valuesOf_one k (string_bytes k') [x])|by destruct (decide _)]. Qed.

Lemma valuesOf_bindings k bs : valuesOf k (concat (bindingPairs <$> bs)) =
  if decide (string_bytes "port" = k) then portText <$> bs else if decide (string_bytes "protocol" = k) then (λ b, protocolName (bProtocol b)) <$> bs else [].
Proof.
  induction bs as [|b bs IH]; [by repeat destruct (decide _)|]. rewrite fmap_cons. cbn [concat]. rewrite valuesOf_app, IH. unfold bindingPairs, valuesOf. rewrite !filter_cons. cbn [fst].
  destruct (decide (string_bytes "port" = k)) as [<-|]; [by rewrite decide_False by done|]. destruct (decide (string_bytes "protocol" = k)) as [<-|]; done.
Qed.

Lemma fold_bindings bs : ∀ q, foldl addBinding q bs = foldl (λ v x, Add x.1 x.2 v) q (concat (bindingPairs <$> bs)).
Proof. induction bs as [|b bs IH]; intros q; [done|]. cbn [foldl]. rewrite IH, fmap_cons. reflexivity. Qed.

Lemma addAll_ok l : Forall (λ x, bytes_ok x.1 ∧ bytes_ok x.2) l → values_ok (addAll l).
Proof.
  intros Hl k xs Hk. unfold addAll in Hk. rewrite fold_add, lookup_empty in Hk. cbn in Hk. destruct (valuesOf k l) as [|y ys] eqn:E; [done|]. injection Hk as <-. rewrite <- E.
  assert (Hin : ∀ x, x ∈ valuesOf k l → (k, x) ∈ l).
  { intros x Hx. unfold valuesOf in Hx. apply list_elem_of_fmap in Hx as ([k' x'] & -> & Hx). apply list_elem_of_filter in Hx as [Hk' Hx]. cbn in *. by subst. }
  rewrite Forall_forall in Hl. split_and!.
  - destruct (Hl (k, y)) as [H _]; [apply Hin; rewrite E; apply list_elem_of_here|]. exact H.
  - by rewrite E.
  - apply Forall_forall. intros x Hx. by destruct (Hl (k, x) (Hin x Hx)) as [_ H].
Qed.

Section Roundtrip.
Context (marshal : PbClientConfig → outcome bytes) (unmarshal : bytes → outcome PbClientConfig)
        (marshalPattern : TrafficPattern → outcome bytes) (unmarshalPattern : bytes → outcome TrafficPattern).

(** The bytes of a traffic pattern; none for an empty one. *)
Definition pattern_bytes (o : option TrafficPattern) (b : option bytes) : Prop :=
  match o, b with
  | None, None => True
  | Some tp, Some b => marshalPattern tp = Ret b ∧ b ≠ [] ∧ bytes_ok b ∧ unmarshalPattern b = Ret tp
  | _, _ => False
  end.

Record link_ok (p : PbClientProfile) : Prop := {
  lo_name : cp_profileName p ≠ "";
  lo_user : pu_name (cp_user p) ≠ "";
  lo_password : pu_password (cp_user p) ≠ "";
  lo_servers : cp_servers p ≠ [];
  lo_each : Forall (λ s, host_ok s ∧ se_portBindings s ≠ [] ∧ Forall binding_ok (se_portBindings s)) (cp_servers p);
  lo_mtu : match cp_Mtu p with Some m => - 2 ^ 31 ≤ m < 2 ^ 31 | None => True end;
  lo_pattern : ∃ b, pattern_bytes (cp_trafficPattern p) b
}.

(** The server and the profile that a link gives. *)
Definition linkedServer (s : PbServerEndpoint) : PbServerEndpoint :=
  if bool_decide (se_domainName s = []) then mkServerEndpoint (se_ipAddress s) [] (canonBinding <$> se_portBindings s)
  else mkServerEndpoint [] (se_domainName s) (canonBinding <$> se_portBindings s).
Definition linked (p : PbClientProfile) (s : PbServerEndpoint) : PbClientProfile :=
  mkProfile (cp_profileName p) (mkPbUser (pu_name (cp_user p)) (pu_password (cp_user p)) "" [] (mkRights false false)) [linkedServer s]
    (cp_Mtu p) (Some <$> levelOf p) (cp_trafficPattern p) (cp_HandshakeMode p).

Lemma query_settings p s b : pattern_bytes (cp_trafficPattern p) b → serverQuery marshalPattern p s = Ret (addAll (settings p (b64Encode false true <$> b) s)).
Proof.
  intros Hb. unfold serverQuery, addAll, settings, levelOf. rewrite !foldl_app.
  destruct (cp_trafficPattern p) as [tp|], b as [b|]; try done; [destruct Hb as (-> & _)|]; cbn [obind fmap option_fmap option_map]; rewrite fold_bindings;
    destruct (cp_Mtu p), (cp_Multiplexing p) as [[]|], (cp_HandshakeMode p); reflexivity.
Qed.

Lemma Itoa_bytes n : - 2 ^ 63 < n < 2 ^ 63 → bytes_ok (Itoa n).
Proof. intros Hn. apply Forall_forall. intros c Hc. destruct (Itoa_text n c Hn Hc) as [Hd| ->]; [unfold is_digit in Hd|]; unfold in_u8; lia. Qed.

Lemma portText_bytes b : binding_ok b → bytes_ok (portText b) ∧ portText b ≠ [].
Proof.
  intros [[[lo hi] Hp] Hone]. unfold portText. unfold bindingPorts in Hp. case_bool_decide as Epr; [done|].
  destruct (Z.eqb_spec (bPort b) 0) as [E0|N0]; cbn [negb] in Hp.
  - destruct (validPortRange (bPortRange b)) as [[m1 m2]|] eqn:Er; [|done]. apply range_parts in Er as (Hr & Hn1 & Hn2 & Hd1 & Hd2).
    assert (Hne : bPortRange b ≠ []) by (rewrite Hr; by destruct m1). rewrite bool_decide_eq_false_2 by done. split; [|done]. rewrite Hr.
    assert (Hd : ∀ m, forallb is_digit m = true → bytes_ok m).
    { intros m Hm. apply Forall_forall. intros c Hc. rewrite forallb_forall in Hm. specialize (Hm c (proj1 (list_elem_of_In _ _) Hc)). unfold is_digit in Hm. unfold in_u8. lia. }
    apply Forall_app. split; [by apply Hd|]. constructor; [unfold in_u8; lia|by apply Hd].
  - destruct (validPort (bPort b)) eqn:V; [|done]. destruct Hone as [->|?]; [|done]. rewrite bool_decide_eq_true_2 by done. unfold validPort in V. split; [apply Itoa_bytes; lia|].
    by destruct (Itoa_digits (bPort b)) as [? _]; [lia|].
Qed.

Lemma settings_ok p b s : link_ok p → s ∈ cp_servers p → pattern_bytes (cp_trafficPattern p) b →
  Forall (λ x, bytes_ok x.1 ∧ bytes_ok x.2) (settings p (b64Encode false true <$> b) s).
Proof.
  intros Hok Hs Hb. assert (H1 : ∀ k o, match o with Some x => bytes_ok x | None => True end → Forall (λ x, bytes_ok x.1 ∧ bytes_ok x.2) (one k o)).
  { intros k [x|] Hx; [|constructor]. constructor; [split; [apply string_bytes_ok|done]|constructor]. }
  unfold settings. repeat (apply Forall_app; split); try apply H1.
  - apply string_bytes_ok.
  - pose proof (lo_mtu p Hok). destruct (cp_Mtu p); [|done]. apply Itoa_bytes. lia.
  - destruct (levelOf p); [|done]. apply string_bytes_ok.
  - destruct (cp_HandshakeMode p); [|done]. apply string_bytes_ok.
  - destruct b as [b|]; [|done]. destruct (cp_trafficPattern p); [|done]. destruct Hb as (_ & _ & Hb & _). eapply Forall_impl; [by apply b64_encode_plain|]. intros c Hc. cbn in Hc. unfold in_u8. lia.
  - pose proof (proj1 (Forall_forall _ _) (lo_each p Hok) s Hs) as (_ & _ & Hbs). apply Forall_concat, Forall_fmap. eapply Forall_impl; [exact Hbs|]. intros bd Hbd. cbn.
    constructor; [split; [apply string_bytes_ok|by apply portText_bytes]|]. constructor; [split; apply string_bytes_ok|constructor].
Qed.

Lemma read_bindings bs : Forall binding_ok bs → readBindings (portText <$> bs) ((λ b, protocolName (bProtocol b)) <$> bs) = Ret (canonBinding <$> bs).
Proof. induction 1 as [|b bs Hb _ IH]; [done|]. cbn [fmap list_fmap readBindings]. rewrite (proj1 (read_binding b Hb)). cbn [obind]. by rewrite IH. Qed.

Lemma int32_id n : - 2 ^ 31 ≤ n < 2 ^ 31 → int32 n = n.
Proof. intros Hn. unfold int32. rewrite Z.mod_small by lia. lia. Qed.

Lemma level_name l : valueOf MULTIPLEXING_DEFAULT levels (levelName l) = l.
Proof. by destruct l. Qed.
Lemma mode_name m : valueOf HANDSHAKE_DEFAULT modes (modeName m) = m.
Proof. by destruct m. Qed.

Lemma std_ne b : b ≠ [] → b64Encode false true b ≠ [].
Proof. by destruct b as [|x [|y [|z b]]]. Qed.

Lemma default_some {A} (f : A → bytes) x : default [] (f <$> Some x) = f x.
Proof. done. Qed.

Lemma read_pattern o b : pattern_bytes o b → readPattern unmarshalPattern (default [] (b64Encode false true <$> b)) = Ret o.
Proof.
  intros Hb. unfold readPattern. destruct o as [tp|], b as [b|]; try done. destruct Hb as (_ & Hne & Hok & Hu). rewrite ?default_some. cbn [fmap option_fmap option_map].
  rewrite bool_decide_eq_false_2 by (by apply std_ne). rewrite b64_roundtrip by done. by rewrite Hu.
Qed.

(** What the settings say. *)
Lemma settings_values p b s :
  let q := addAll (settings p b s) in
  Get (string_bytes "profile") q = string_bytes (cp_profileName p) ∧ Get (string_bytes "mtu") q = default [] (Itoa <$> cp_Mtu p) ∧
  Get (string_bytes "multiplexing") q = default [] (levelName <$> levelOf p) ∧ Get (string_bytes "handshake-mode") q = default [] (modeName <$> cp_HandshakeMode p) ∧
  Get (string_bytes "traffic-pattern") q = default [] b ∧ default [] (q !! string_bytes "port") = portText <$> se_portBindings s ∧
  default [] (q !! string_bytes "protocol") = (λ b, protocolName (bProtocol b)) <$> se_portBindings s.
Proof.
  cbn zeta. unfold Get. rewrite !addAll_values. unfold settings. rewrite !valuesOf_app, !valuesOf_opt, !valuesOf_bindings.
  split_and!; repeat first [rewrite decide_True by done | rewrite decide_False by done]; rewrite ?app_nil_l, ?app_nil_r; try done;
    [destruct (cp_Mtu p)|destruct (levelOf p)|destruct (cp_HandshakeMode p)|destruct b]; done.
Qed.

Lemma read_settings p b s user ip domain : link_ok p → s ∈ cp_servers p → pattern_bytes (cp_trafficPattern p) b →
  readQuery unmarshalPattern user ip domain (addAll (settings p (b64Encode false true <$> b) s)) =
  Ret (mkProfile (cp_profileName p) user [mkServerEndpoint ip domain (canonBinding <$> se_portBindings s)]
         (cp_Mtu p) (Some <$> levelOf p) (cp_trafficPattern p) (cp_HandshakeMode p)).
Proof.
  intros Hok Hs Hb. destruct (settings_values p (b64Encode false true <$> b) s) as (H1 & H2 & H3 & H4 & H5 & H6 & H7).
  pose proof (proj1 (Forall_forall _ _) (lo_each p Hok) s Hs) as (_ & _ & Hbs). unfold readQuery. rewrite H1, H2, H3, H4, H5, H6, H7, !length_fmap, Nat.eqb_refl, string_bytes_string. cbn [negb].
  rewrite bool_decide_eq_false_2 by (intros E; apply (lo_name p Hok); rewrite <- (string_bytes_string (cp_profileName p)), E; done).
  rewrite (read_pattern _ b Hb), (read_bindings _ Hbs).
  assert (Hm : (if bool_decide (default [] (Itoa <$> cp_Mtu p) = []) then Ret None
     else match Atoi (default [] (Itoa <$> cp_Mtu p)) with Ret n => Ret (Some (int32 n)) | _ => Err (Errorf "URL has invalid MTU %q") end) = Ret (cp_Mtu p)).
  { pose proof (lo_mtu p Hok). destruct (cp_Mtu p) as [m|]; [|done]. rewrite ?default_some. cbn [fmap option_fmap option_map]. rewrite bool_decide_eq_false_2.
    - rewrite Atoi_Itoa by lia. by rewrite int32_id.
    - intros E. pose proof (Atoi_Itoa m ltac:(lia)) as Ha. by rewrite E in Ha. }
  rewrite Hm. cbn [obind]. do 2 f_equal.
  - destruct (levelOf p) as [l|]; [|done]. rewrite ?default_some. cbn [fmap option_fmap option_map]. rewrite bool_decide_eq_false_2 by (by destruct l). by rewrite level_name.
  - destruct (cp_HandshakeMode p) as [m|]; [|done]. rewrite ?default_some. cbn [fmap option_fmap option_map]. rewrite bool_decide_eq_false_2 by (by destruct m). by rewrite mode_name.
Qed.

Lemma Encode_ne p b s : Encode (addAll (settings p b s)) ≠ [].
Proof.
  intros E. pose proof (settings_values p b s) as (H1 & _). unfold Get in H1. rewrite addAll_values in H1.
  assert (Hp : pairs (addAll (settings p b s)) ≠ []).
  { unfold pairs. destruct (sorted_values (addAll (settings p b s))) as (Hd & Hl & _). intros Hp. pose proof (values_grouped (string_bytes "profile") _ Hd) as Hv.
    rewrite Hl, addAll_values, Hp in Hv. unfold settings in Hv. rewrite valuesOf_app, valuesOf_opt, decide_True in Hv by done. done. }
  unfold Encode in E. destruct (pairs _) as [|x l]; [done|]. cbn [fmap list_fmap joinWith] in E. destruct (_ <$> l); by apply app_eq_nil in E as [_ ?].
Qed.

Lemma server_link p s : link_ok p → s ∈ cp_servers p → ∃ u, serverURL marshalPattern p s = Ret u ∧ URLToClientProfile unmarshalPattern u = Ret (linked p s) ∧
  hasPrefix u (string_bytes "mierus://") = true ∧ hasPrefix u (string_bytes "mieru://") = false.
Proof.
  intros Hok Hs. pose proof (proj1 (Forall_forall _ _) (lo_each p Hok) s Hs) as (Hh & Hne & Hbs). destruct (lo_pattern p Hok) as [b Hb].
  destruct (link_host s Hh) as (H1 & H2 & H3 & H4). pose proof (addAll_ok _ (settings_ok p b s Hok Hs Hb)) as Hv.
  assert (Hhost : (if negb (bool_decide (se_domainName s = [])) then Ret (se_domainName s)
     else if negb (bool_decide (se_ipAddress s = [])) then Ret (MaybeDecorateIPv6 (se_ipAddress s))
     else Err (Errorf "profile %s has a server with no domain name or IP address")) = Ret (linkHost s)).
  { unfold linkHost, hostText in *. destruct (decide (se_domainName s = [])) as [E|E].
    - rewrite !(bool_decide_eq_true_2 (se_domainName s = [])) in * by done. rewrite (bool_decide_eq_false_2 (se_ipAddress s = [])) by done. done.
    - rewrite !(bool_decide_eq_false_2 (se_domainName s = [])) in * by done. done. }
  unfold serverURL. rewrite Hhost. cbn [obind]. rewrite (bool_decide_eq_false_2 (se_portBindings s = [])) by done. rewrite (query_settings p s b Hb). cbn [obind].
  eexists. split; [done|]. split; [|split; reflexivity]. unfold URLToClientProfile. rewrite parse_link by (first [apply string_bytes_ok|done|apply Encode_ne|intros d; by apply Encode_chars]).
  cbn [Scheme Opaque UserInfo RawQuery]. rewrite (bool_decide_eq_true_2 (string_bytes "mierus" = string_bytes "mierus")), (bool_decide_eq_true_2 ([] = [])) by done. cbn [negb].
  assert (Hstr : ∀ t, t ≠ "" → string_bytes t ≠ []) by (intros t Ht E; apply Ht; by rewrite <- (string_bytes_string t), E).
  rewrite (bool_decide_eq_false_2 (string_bytes (pu_name (cp_user p)) = [])) by (by apply Hstr, lo_user).
  change (default [] (Some (string_bytes (pu_password (cp_user p))))) with (string_bytes (pu_password (cp_user p))).
  rewrite (bool_decide_eq_false_2 (string_bytes (pu_password (cp_user p)) = [])) by (by apply Hstr, lo_password).
  rewrite H4 by done. rewrite (bool_decide_eq_false_2 (hostText s = [])) by done. rewrite ParseQuery_Encode by done. rewrite !string_bytes_string.
  assert (Hsrv : (if bool_decide (ParseIP (hostText s) = []) then ([], hostText s) else (hostText s, [])) = (se_ipAddress (linkedServer s), se_domainName (linkedServer s))).
  { unfold host_ok, hostText, linkedServer in *. destruct (decide (se_domainName s = [])) as [E|E].
    - rewrite !(bool_decide_eq_true_2 (se_domainName s = [])) in * by done. by rewrite bool_decide_eq_false_2 by (by destruct Hh).
    - rewrite !(bool_decide_eq_false_2 (se_domainName s = [])) in * by done. by rewrite bool_decide_eq_true_2 by (by destruct Hh). }
  rewrite Hsrv. rewrite (read_settings p b s) by done. unfold linked.
  assert (mkServerEndpoint (se_ipAddress (linkedServer s)) (se_domainName (linkedServer s)) (canonBinding <$> se_portBindings s) = linkedServer s) as -> by (unfold linkedServer; by destruct (bool_decide (se_domainName s = []))).
  done.
Qed.

Lemma linked_endpoints mtu s : Forall binding_ok (se_portBindings s) → serverEndpoints mtu (linkedServer s) = serverEndpoints mtu s.
Proof.
  intros Hb. unfold serverEndpoints, FlatPortBindings, linkedServer. destruct (decide (se_domainName s = [])) as [E|E].
  - rewrite !(bool_decide_eq_true_2 (se_domainName s = [])) by done. cbn [se_domainName se_ipAddress se_portBindings]. rewrite ?(bool_decide_eq_true_2 ([] = [])) by done. by rewrite collect_canon.
  - rewrite !(bool_decide_eq_false_2 (se_domainName s = [])) by done. cbn [se_domainName se_ipAddress se_portBindings]. rewrite ?(bool_decide_eq_false_2 (se_domainName s = [])) by done. by rewrite collect_canon.
Qed.


End Roundtrip.

(** ** The link of a whole configuration *)

Definition b64Std (c : Z) : Prop := alnum c = true ∨ c = 43 ∨ c = 47 ∨ c = 61.

Lemma std_chars b : bytes_ok b → Forall b64Std (b64Encode false true b).
Proof.
  apply b64_encode_forall; [|by right; right; right]. intros v Hv. assert (Hf : Forall (λ v, b64Std (b64Char false v)) (seqZ 0 64)) by (unfold b64Std; by apply (bool_decide_unpack _)).
  apply (proj1 (Forall_forall _ _) Hf), elem_of_seqZ. lia.
Qed.

Lemma std_inert c : b64Std c → 0 ≤ c < 128 ∧ c ≠ 35 ∧ c ≠ 63 ∧ c ≠ 64 ∧ c ≠ 58 ∧ c ≠ 91 ∧ c ≠ 37 ∧ control c = false ∧ (c ≠ 47 → shouldEscape c encodeHost = false).
Proof.
  intros Hc. assert (Hr : 0 ≤ c < 128) by (destruct Hc as [Hc|Hc]; [unfold alnum in Hc; lia|lia]). split; [done|].
  pose proof (ascii_check (λ c, implb (alnum c || (c =? 43) || (c =? 47) || (c =? 61))
    (negb (bool_decide (c ∈ [35; 63; 64; 58; 91; 37])) && negb (control c) && ((c =? 47) || negb (shouldEscape c encodeHost)))) c eq_refl Hr) as Hck. cbn beta in Hck.
  replace (alnum c || (c =? 43) || (c =? 47) || (c =? 61)) with true in Hck by (destruct Hc as [->|[->|[->| ->]]]; done). cbn [implb] in Hck.
  apply andb_true_iff in Hck as [Hck H3]. apply andb_true_iff in Hck as [H1 H2]. apply negb_true_iff, bool_decide_eq_false in H1. apply negb_true_iff in H2.
  rewrite !not_elem_of_cons in H1. destruct_and! H1. split_and!; try done. intros H47. rewrite (proj2 (Z.eqb_neq _ _)) in H3 by done. cbn in H3. by apply negb_true_iff in H3.
Qed.

Lemma unescape_path s : 37 ∉ s → unescape s encodePath = Some s.
Proof.
  induction s as [|c s IH]; intros Hn; [done|]. apply not_elem_of_cons in Hn as [Hc Hn]. cbn [unescape]. rewrite (IH Hn).
  rewrite (proj2 (Z.eqb_neq _ _)) by done. by destruct (Z.eqb_spec c 43) as [->|].
Qed.

(** The text after the scheme is always accepted as a host and a path. *)
Lemma parse_config_link b : bytes_ok b → ∃ host path, Parse (string_bytes "mieru://" ++ b64Encode false true b) = Some (mkURL (string_bytes "mieru") [] None host path []).
Proof.
  intros Hb. pose proof (std_chars b Hb) as Hs. set (B := b64Encode false true b) in *. assert (HF : ∀ c, c ∈ B → b64Std c) by (by apply Forall_forall).
  assert (Hno : ∀ c, c ∈ [35; 63; 64; 58; 91; 37] → c ∉ B).
  { intros c Hc Hin. destruct (std_inert c (HF c Hin)) as (_ & H1 & H2 & H3 & H4 & H5 & H6 & _). rewrite !elem_of_cons, elem_of_nil in Hc. naive_solver. }
  assert (Hraw : string_bytes "mieru://" ++ B = string_bytes "mieru:" ++ 47 :: 47 :: B) by reflexivity. rewrite Hraw. unfold Parse.
  rewrite Cut_none by (rewrite not_elem_of_app, !not_elem_of_cons; split_and!; try done; [by apply (bool_decide_unpack _)|apply Hno; repeat constructor]).
  assert (existsb control (string_bytes "mieru:" ++ 47 :: 47 :: B) = false) as ->.
  { rewrite existsb_app. cbn [existsb]. rewrite !orb_false_iff. split_and!; try done. apply not_true_iff_false. rewrite existsb_exists. intros (c & Hc%list_elem_of_In & Hctl).
    destruct (std_inert c (HF c Hc)) as (_ & _ & _ & _ & _ & _ & _ & H & _). congruence. }
  rewrite bool_decide_eq_false_2 by done. unfold getScheme. rewrite scheme_mieru. unfold cutQuery. rewrite Cut_none by (rewrite !not_elem_of_cons; split_and!; try done; apply Hno; repeat constructor).
  change (map lowerByte (string_bytes "mieru")) with (string_bytes "mieru"). set (sch := string_bytes "mieru"). assert (Hsch : sch ≠ []) by done.
  unfold parseRest. change (drop 2 (47 :: 47 :: B)) with B. cbn [take]. rewrite !(bool_decide_eq_true_2 ([47] = [47])), (bool_decide_eq_true_2 ([47; 47] = [47; 47])), (bool_decide_eq_false_2 (sch = [])) by done. cbn [negb andb orb].
  set (A := (Cut B 47).1). assert (HA : ∀ c, c ∈ A → c ∈ B ∧ c ≠ 47).
  { unfold A, Cut. destruct (IndexByte 47 B) as [i|] eqn:Ei; cbn [fst].
    - intros c Hc. split; [by eapply elem_of_take in Hc as (? & ? & _); eapply list_elem_of_lookup_2|]. clear -Ei Hc. revert i Ei Hc. induction B as [|x B IH]; intros i Ei Hc; cbn in Ei; [done|].
      destruct (Z.eqb_spec x 47); [injection Ei as <-; by apply not_elem_of_nil in Hc|]. destruct (IndexByte 47 B) as [j|]; [|done]. injection Ei as <-. cbn in Hc.
      apply elem_of_cons in Hc as [->|Hc]; [done|by apply (IH j)].
    - intros c Hc. split; [done|]. intros ->. clear -Ei Hc. induction B as [|x B IH]; [by apply not_elem_of_nil in Hc|]. cbn in Ei. destruct (Z.eqb_spec x 47); [done|].
      destruct (IndexByte 47 B); [done|]. apply elem_of_cons in Hc as [?|Hc]; [congruence|by apply IH]. }
  assert (Hplain : plainHost A) by (apply Forall_forall; intros c [Hc H47]%HA; destruct (std_inert c (HF c Hc)) as (Hr & _ & _ & _ & _ & _ & _ & _ & He); by split; [|apply He]).
  unfold parseAuthority. rewrite LastIndexByte_none by (intros [Hin _]%HA; revert Hin; apply Hno; repeat constructor).
  rewrite plain_parseHost; [|done|intros [Hin _]%HA; revert Hin; apply Hno; repeat constructor|].
  2: { intros Hh. assert (91 ∈ A) as [Hin _]%HA by (destruct A; [done|]; injection Hh as ->; apply list_elem_of_here). revert Hin. apply Hno. repeat constructor. }
  rewrite unescape_path; [by eauto|]. intros Hin. assert (H37 : 37 ∈ 47 :: 47 :: B).
  { apply list_elem_of_In. rewrite list_elem_of_In in Hin. rewrite <- (firstn_skipn (2 + length A) (47 :: 47 :: B)). apply in_or_app. by right. }
  rewrite !elem_of_cons in H37. destruct H37 as [?|[?|H37]]; [done|done|]. revert H37. apply Hno. repeat constructor.
Qed.

Section Config.
Context (parseDuration : bytes → outcome Z) (marshal : PbClientConfig → outcome bytes) (unmarshal : bytes → outcome PbClientConfig) (unmarshalPattern : bytes → outcome TrafficPattern).

(** Importing the link of a configuration is applying the configuration. *)
Lemma config_link_roundtrip c b : marshal c = Ret b → bytes_ok b → unmarshal b = Ret c →
  ∃ u, ClientConfigToURL marshal (Some c) = Ret u ∧ ParseURLClientConfig unmarshal unmarshalPattern u = Ret c ∧
    ∀ file, ApplyURLClientConfig marshal unmarshal unmarshalPattern parseDuration u file = applyClientConfig parseDuration marshal unmarshal c file.
Proof.
  intros Hm Hb Hu. exists (string_bytes "mieru://" ++ b64Encode false true b). assert (Hp : ParseURLClientConfig unmarshal unmarshalPattern (string_bytes "mieru://" ++ b64Encode false true b) = Ret c).
  { unfold ParseURLClientConfig. assert (hasPrefix (string_bytes "mieru://" ++ b64Encode false true b) (string_bytes "mieru://") = true) as ->.
    { unfold hasPrefix. apply bool_decide_eq_true_2. apply take_app_length. }
    unfold URLToClientConfig. destruct (parse_config_link b Hb) as (host & path & ->). cbn [Scheme Opaque]. rewrite (bool_decide_eq_true_2 (string_bytes "mieru" = _)), (bool_decide_eq_true_2 ([] = [])) by done. cbn [negb].
    assert (len (string_bytes "mieru://" ++ b64Encode false true b) <? 8 = false) as -> by (unfold len; rewrite length_app; cbn; lia).
    change 8%nat with (length (string_bytes "mieru://")). rewrite drop_app_length. rewrite b64_roundtrip by done. by rewrite Hu. }
  split_and!; [unfold ClientConfigToURL; by rewrite Hm|done|]. intros file. unfold ApplyURLClientConfig. by rewrite Hp.
Qed.
End Config.

(** ** What goes wrong *)

Definition noPattern (tp : TrafficPattern) : outcome bytes := Err ErrUnsupported.
Definition noPatternBack (b : bytes) : outcome TrafficPattern := Err ErrUnsupported.
Definition linkServer (ip domain : string) (bs : list PortBinding) : PbServerEndpoint := mkServerEndpoint (string_bytes ip) (string_bytes domain) bs.
Definition linkProfile (ss : list PbServerEndpoint) : PbClientProfile :=
  mkProfile "home & away" (mkPbUser "alice" "s:e@c/r?t 100%" "" [] (mkRights false false)) ss (Some 1400) (Some (Some MULTIPLEXING_HIGH)) None (Some HANDSHAKE_NO_WAIT).

(** An IPv4 address in its IPv6 form is not put in brackets, and the link that is
    made with it cannot be read. *)
Lemma mapped_address_link : ∃ u, serverURL noPattern (linkProfile []) (linkServer "::ffff:1.2.3.4" "" [mkBinding 443 [] TCP]) = Ret u ∧
  validateServer (linkServer "::ffff:1.2.3.4" "" [mkBinding 443 [] TCP]) = Ret tt ∧
  URLToClientProfile noPatternBack u = Err (Errorf "url.Parse() failed: %w").
Proof. eexists. split; [vm_compute; reflexivity|]. split; vm_compute; reflexivity. Qed.

(** A binding with a port and a range is served on the port, and shared as the range. *)
Lemma both_set_link : let s := linkServer "" "example.com" [mkBinding 443 (string_bytes "1000-2000") TCP] in
  bindingPorts (mkBinding 443 (string_bytes "1000-2000") TCP) = Ret (443, 443) ∧
  ∃ u p, serverURL noPattern (linkProfile []) s = Ret u ∧ URLToClientProfile noPatternBack u = Ret p ∧
    se_portBindings <$> cp_servers p = [[mkBinding 0 (string_bytes "1000-2000") TCP]].
Proof. split; [reflexivity|]. eexists _, _. split; [vm_compute; reflexivity|]. split; vm_compute; reflexivity. Qed.

(** Eight bytes are cut from a text that may be shorter; the callers check the
    prefix first. *)
Lemma short_link_panics unmarshal : URLToClientConfig unmarshal (string_bytes "mieru:") = Panic "slice bounds out of range".
Proof. reflexivity. Qed.

(** ** Witnesses *)

Definition linkDemo : PbClientProfile :=
  linkProfile [linkServer "2001:db8::7" "" [mkBinding 443 [] TCP; mkBinding 0 (string_bytes "080-0090") UDP]; linkServer "" "proxy.example.com" [mkBinding 8080 [] TCP]; linkServer "12.34.56.78" "" [mkBinding 22 [] UDP]].

Lemma linkDemo_ok : link_ok noPattern noPatternBack linkDemo.
Proof.
  split; try done; [|exists None; done].
  assert (Hb : ∀ b, (∃ ports, bindingPorts b = Ret ports) → (bPortRange b = [] ∨ bPort b = 0) → binding_ok b) by done.
  constructor; [split_and!; [split; [by vm_compute|by left]|done|]|constructor; [split_and!; [split; [by apply (bool_decide_unpack _)|reflexivity]|done|]|constructor; [split_and!; [split; [by vm_compute|right; by apply (bool_decide_unpack _)]|done|]|constructor]]].
  all: repeat (constructor; [apply Hb; [eexists; vm_compute; reflexivity|by (left + right)]|]); constructor.
Qed.


End Links.
Export Links.
