(* ===== verification/Log.v ===== *)
(** * Logging: pkg/log and apis/log

    The levels, the entries and their fields, the two formatters, the logger with
    its pool of entries, the standard logger, and the files of the client's log.
    An entry carries no pointer to its logger: the logger is part of the state that
    each operation threads.  The buffer of an entry is an argument and a result of
    the formatters, since one call of [write] uses it twice.  Texts of times, of the
    operands of fmt and of non-ASCII letters come from the host. *)

From S2P Require Import Prelude Net PanelText Url.
From stdpp Require Import sorting.
From Stdlib Require Import ZifyBool.
Local Open Scope Z_scope.

Module Log.

(** ** Levels: logrus.go *)

Definition PanicLevel : Z := 0.
Definition FatalLevel : Z := 1.
Definition ErrorLevel : Z := 2.
Definition WarnLevel : Z := 3.
Definition InfoLevel : Z := 4.
Definition DebugLevel : Z := 5.
Definition TraceLevel : Z := 6.
Definition AllLevels : list Z := [PanicLevel; FatalLevel; ErrorLevel; WarnLevel; InfoLevel; DebugLevel; TraceLevel].

(** An operand of fmt: its text, and whether it is a string. *)
Record Operand := mkOperand { op_string : bool; op_text : bytes }.

(** What the host and the Unicode tables decide: case and quoting of texts outside
    ASCII, the text of a time, which writes a file takes, and formats of fmt. *)
Record LogHost := mkLogHost {
  h_lower : bytes → bytes; h_upper : bytes → bytes; h_quote : bytes → bytes;
  h_stamp : Z → bytes; h_accepts : Z → bytes → bool; h_Sprintf : bytes → list Operand → bytes }.

Definition MarshalText (level : Z) : outcome bytes :=
  if level =? TraceLevel then Ret (string_bytes "trace")
  else if level =? DebugLevel then Ret (string_bytes "debug")
  else if level =? InfoLevel then Ret (string_bytes "info")
  else if level =? WarnLevel then Ret (string_bytes "warning")
  else if level =? ErrorLevel then Ret (string_bytes "error")
  else if level =? FatalLevel then Ret (string_bytes "fatal")
  else if level =? PanicLevel then Ret (string_bytes "panic")
  else Err (Errorf "not a valid logrus level %d").
Definition LevelString (level : Z) : bytes := match MarshalText level with Ret b => b | _ => string_bytes "unknown" end.

Section Host.
Context (H : LogHost).

Definition ParseLevel (lvl : bytes) : outcome Z :=
  let l := ToLower (h_lower H) lvl in
  if bool_decide (l = string_bytes "panic") then Ret PanicLevel
  else if bool_decide (l = string_bytes "fatal") then Ret FatalLevel
  else if bool_decide (l = string_bytes "error") then Ret ErrorLevel
  else if bool_decide (l = string_bytes "warn") || bool_decide (l = string_bytes "warning") then Ret WarnLevel
  else if bool_decide (l = string_bytes "info") then Ret InfoLevel
  else if bool_decide (l = string_bytes "debug") then Ret DebugLevel
  else if bool_decide (l = string_bytes "trace") then Ret TraceLevel
  else Err (Errorf "not a valid logrus Level: %q").
Definition UnmarshalText (text : bytes) (level : Z) : option goerr * Z :=
  match ParseLevel text with Ret l => (None, l) | Err e => (Some e, level) | Panic _ => (None, level) end.

(** [%q] of a text. *)
Definition quoteByte (c : Z) : bytes :=
  if c =? 34 then [92; 34] else if c =? 92 then [92; 92]
  else if c =? 7 then [92; 97] else if c =? 8 then [92; 98] else if c =? 12 then [92; 102]
  else if c =? 10 then [92; 110] else if c =? 13 then [92; 114] else if c =? 9 then [92; 116] else if c =? 11 then [92; 118]
  else if (c <? 32) || (c =? 127) then
    let hex v := if v <? 10 then 48 + v else 87 + v in [92; 120; hex (c / 16); hex (c `mod` 16)]
  else [c].
Definition Quote (s : bytes) : bytes := [34] ++ (if is_ascii s then concat (quoteByte <$> s) else h_quote H s) ++ [34].
End Host.

(** ** Entries: entry.go *)

(** A value of a field: what [reflect] says of its kind, and what [%v] prints. *)
Inductive Kind := KindFunc | KindPtrFunc | KindNil | KindOther.
Record Value := mkValue { v_kind : Kind; v_text : bytes }.
Notation Fields := (gmap bytes Value).

Record Frame := mkFrame { fr_Function : bytes; fr_File : bytes; fr_Line : Z }.

(** [Time] is [None] for the zero time, [Context] names a context. *)
Record Entry := mkEntry {
  Data : Fields; Time : option Z; Level : Z; Caller : option Frame; Message : bytes; Context_ : option Z; err : bytes }.

Definition NewEntry : Entry := mkEntry ∅ None 0 None [] None [].
Definition Dup (e : Entry) : Entry := mkEntry (Data e) (Time e) 0 None [] (Context_ e) (err e).

Section With.
Context (H : LogHost).

Definition isErrField (v : Value) : bool := match v_kind v with KindFunc | KindPtrFunc => true | _ => false end.

(** One turn of the loop over the fields, in the order the map gives them. *)
Definition addField (e : Entry) (acc : Fields * bytes) (kv : bytes * Value) : Fields * bytes :=
  let '(data, fieldErr) := acc in
  if isErrField kv.2 then
    let tmp := string_bytes "can not add field " ++ Quote H kv.1 in
    (data, if bool_decide (fieldErr = []) then tmp else err e ++ string_bytes ", " ++ tmp)
  else (<[kv.1 := kv.2]> data, fieldErr).
Definition WithFields (fields : list (bytes * Value)) (e : Entry) : Entry :=
  let '(data, fieldErr) := foldl (addField e) (Data e, err e) fields in
  mkEntry data (Time e) 0 None [] (Context_ e) fieldErr.
Definition WithField (key : bytes) (value : Value) (e : Entry) : Entry := WithFields [(key, value)] e.
Definition ErrorKey : bytes := string_bytes "error".
Definition WithError (e : Value) (entry : Entry) : Entry := WithField ErrorKey e entry.
End With.

Definition WithContext (ctx : option Z) (e : Entry) : Entry := mkEntry (Data e) (Time e) 0 None [] ctx (err e).
Definition WithTime (t : option Z) (e : Entry) : Entry := mkEntry (Data e) t 0 None [] (Context_ e) (err e).

(** [strings.LastIndex] of one byte. *)
Definition LastIndex (c : Z) (s : bytes) : Z := match LastIndexByte c s with Some i => Z.of_nat i | None => -1 end.
Fixpoint getPackageNameLoop (fuel : nat) (f : bytes) : bytes :=
  match fuel with
  | O => f
  | S fuel =>
      let lastPeriod := LastIndex 46 f in
      let lastSlash := LastIndex 47 f in
      if lastSlash <? lastPeriod then getPackageNameLoop fuel (take (Z.to_nat lastPeriod) f) else f
  end.
(** Each turn shortens the name. *)
Definition getPackageName (f : bytes) : bytes := getPackageNameLoop (S (length f)) f.

(** The package variables of the search for a caller. *)
Record CallerCache := mkCallerCache { logrusPackage : bytes; minimumCallerDepth : nat; callerInit : bool }.
Definition callerCache0 : CallerCache := mkCallerCache [] 1 false.
Definition maximumCallerDepth : nat := 25.
Definition knownLogrusFrames : nat := 4.

(** [names]: the functions on the stack inside the closure of the first call;
    [frames]: the stack of [getCaller], from [runtime.Callers] on. *)
Definition initCaller (names : list bytes) (c : CallerCache) : CallerCache :=
  if callerInit c then c
  else
    mkCallerCache
      (match List.find (λ n, Contains n (string_bytes "getCaller")) (take maximumCallerDepth names) with
       | Some n => getPackageName n
       | None => logrusPackage c
       end) knownLogrusFrames true.

(** The loop of [frames.Next] stops when no frame follows: the last one is never
    looked at. *)
Definition getCaller (names : list bytes) (frames : list Frame) (c : CallerCache) : option Frame * CallerCache :=
  let c := initCaller names c in
  let pcs := take maximumCallerDepth (drop (minimumCallerDepth c) frames) in
  (List.find (λ f, negb (bool_decide (getPackageName (fr_Function f) = logrusPackage c))) (removelast pcs), c).

Definition HasCaller (reportCaller : bool) (e : Entry) : bool := reportCaller && bool_decide (is_Some (Caller e)).

(** ** Formatters: formatter.go *)

Inductive Formatter := CliFormatter | DaemonFormatter (NoPrefix NoTimestamp NoLevel : bool) | NilFormatter.

Definition FieldKeyMsg : bytes := string_bytes "msg".
Definition FieldKeyLevel : bytes := string_bytes "level".
Definition FieldKeyTime : bytes := string_bytes "time".
Definition FieldKeyFunc : bytes := string_bytes "func".
Definition FieldKeyFile : bytes := string_bytes "file".

(** [sort.Strings]. *)
Definition sortStrings (l : list bytes) : list bytes := merge_sort (λ x y : bytes, Is_true (bytesLe x y)) l.

Definition cliFormat (e : Entry) (buf : bytes) : bytes := buf ++ Message e ++ [10].

Definition orderedKeys (noTimestamp noLevel hasCaller : bool) (data : Fields) : list bytes :=
  (if noTimestamp then [] else [FieldKeyTime]) ++ (if noLevel then [] else [FieldKeyLevel]) ++ [FieldKeyMsg]
  ++ (if hasCaller then [FieldKeyFile; FieldKeyFunc] else []) ++ sortStrings (map_to_list data).*1.

Section Format.
Context (H : LogHost).

Definition zeroTime : Z := - 62135596800 * 10 ^ 9.
Definition fieldText (hasCaller : bool) (e : Entry) (key : bytes) : bytes :=
  let caller := default (mkFrame [] [] 0) (Caller e) in
  if bool_decide (key = FieldKeyTime) then h_stamp H (default zeroTime (Time e))
  else if bool_decide (key = FieldKeyLevel) then ToUpper (h_upper H) (LevelString (Level e))
  else if bool_decide (key = FieldKeyMsg) then Message e
  else if bool_decide (key = FieldKeyFile) && hasCaller then fr_File caller ++ [58] ++ Itoa (fr_Line caller)
  else if bool_decide (key = FieldKeyFunc) && hasCaller then fr_Function caller
  else key ++ [61] ++ default (string_bytes "<nil>") (v_text <$> Data e !! key).
Definition putField (hasCaller : bool) (e : Entry) (buf key : bytes) : bytes :=
  (if bool_decide (buf = []) then buf else buf ++ [32]) ++ fieldText hasCaller e key.
Definition daemonFormat (noPrefix noTimestamp noLevel : bool) (logPrefix : bytes) (reportCaller : bool) (e : Entry) (buf : bytes) : bytes :=
  let hasCaller := HasCaller reportCaller e in
  let buf := if noPrefix then buf else buf ++ logPrefix in
  foldl (putField hasCaller e) buf (orderedKeys noTimestamp noLevel hasCaller (Data e)) ++ [10].

(** [Format]: the buffer afterwards, what goes to the standard error, the result.
    The result is the whole buffer. *)
Definition Format (f : Formatter) (logPrefix : bytes) (reportCaller : bool) (e : Entry) (buf : bytes) : bytes * list bytes * outcome bytes :=
  match f with
  | CliFormatter => let b := cliFormat e buf in (b, [], Ret b)
  | DaemonFormatter np nt nl =>
      let b := daemonFormat np nt nl logPrefix reportCaller e buf in
      (b, if Level e =? FatalLevel then [b] else [], Ret b)
  | NilFormatter => (buf, [], Ret [])
  end.
End Format.

(** ** The logger: logger.go, buffer_pool.go, callback.go *)

Inductive exitFunc := osExit | customExit (id : Z).
Record LogMessage := mkLogMessage { lm_Level : bytes; lm_Message : bytes }.

(** [Out] is the number of a file; [Callback] names a function; the pools keep what
    was put back. *)
Record Logger := mkLogger {
  Out : Z; Formatter_ : Formatter; Callback : option Z; CallbackFormatter : Formatter; ReportCaller : bool;
  lgLevel : Z; ExitFunc : option exitFunc; noLock : bool; entryPool : list Entry }.

Definition New : Logger := mkLogger 2 CliFormatter None (DaemonFormatter false true true) false InfoLevel (Some osExit) false [].

Definition setOut v l := mkLogger v (Formatter_ l) (Callback l) (CallbackFormatter l) (ReportCaller l) (lgLevel l) (ExitFunc l) (noLock l) (entryPool l).
Definition setFormatter v l := mkLogger (Out l) v (Callback l) (CallbackFormatter l) (ReportCaller l) (lgLevel l) (ExitFunc l) (noLock l) (entryPool l).
Definition setCallback v l := mkLogger (Out l) (Formatter_ l) v (CallbackFormatter l) (ReportCaller l) (lgLevel l) (ExitFunc l) (noLock l) (entryPool l).
Definition setReportCaller v l := mkLogger (Out l) (Formatter_ l) (Callback l) (CallbackFormatter l) v (lgLevel l) (ExitFunc l) (noLock l) (entryPool l).
Definition setLevel v l := mkLogger (Out l) (Formatter_ l) (Callback l) (CallbackFormatter l) (ReportCaller l) v (ExitFunc l) (noLock l) (entryPool l).
Definition setExitFunc v l := mkLogger (Out l) (Formatter_ l) (Callback l) (CallbackFormatter l) (ReportCaller l) (lgLevel l) v (noLock l) (entryPool l).
Definition setNoLock l := mkLogger (Out l) (Formatter_ l) (Callback l) (CallbackFormatter l) (ReportCaller l) (lgLevel l) (ExitFunc l) true (entryPool l).
Definition setPool v l := mkLogger (Out l) (Formatter_ l) (Callback l) (CallbackFormatter l) (ReportCaller l) (lgLevel l) (ExitFunc l) (noLock l) v.

Definition IsLevelEnabled (level : Z) (l : Logger) : bool := level <=? lgLevel l.

(** The process as a logger sees it: what went to each file, to the standard error
    and to the callback, the exits, and the entry of a panic that is under way. *)
Record Proc := mkProc {
  p_logger : Logger; p_prefix : bytes; p_caller : CallerCache;
  p_out : list (Z * bytes); p_stderr : list bytes; p_calls : list (Z * LogMessage); p_exits : list (exitFunc * Z); p_panic : option Entry }.

Definition onLogger (f : Logger → Logger) (p : Proc) : Proc :=
  mkProc (f (p_logger p)) (p_prefix p) (p_caller p) (p_out p) (p_stderr p) (p_calls p) (p_exits p) (p_panic p).
Definition setCaller c (p : Proc) : Proc := mkProc (p_logger p) (p_prefix p) c (p_out p) (p_stderr p) (p_calls p) (p_exits p) (p_panic p).
Definition toOut b (p : Proc) : Proc :=
  mkProc (p_logger p) (p_prefix p) (p_caller p) (p_out p ++ [(Out (p_logger p), b)]) (p_stderr p) (p_calls p) (p_exits p) (p_panic p).
Definition toStderr bs (p : Proc) : Proc := mkProc (p_logger p) (p_prefix p) (p_caller p) (p_out p) (p_stderr p ++ bs) (p_calls p) (p_exits p) (p_panic p).
Definition toCallback f m (p : Proc) : Proc := mkProc (p_logger p) (p_prefix p) (p_caller p) (p_out p) (p_stderr p) (p_calls p ++ [(f, m)]) (p_exits p) (p_panic p).
Definition toExit f code (p : Proc) : Proc := mkProc (p_logger p) (p_prefix p) (p_caller p) (p_out p) (p_stderr p) (p_calls p) (p_exits p ++ [(f, code)]) (p_panic p).
Definition startPanic e (p : Proc) : Proc := mkProc (p_logger p) (p_prefix p) (p_caller p) (p_out p) (p_stderr p) (p_calls p) (p_exits p) (Some e).

(** The statement after a call runs unless the call panics. *)
Definition andThen (f : Proc → Proc) (p : Proc) : Proc := match p_panic p with Some _ => p | None => f p end.

(** What the environment gives to one call: the clock, the stack, and what
    [sync.Pool] returns, one of its entries or none. *)
Record CallEnv := mkCallEnv { ce_now : Z; ce_names : list bytes; ce_frames : list Frame; ce_pick : option nat }.

Section Logging.
Context (H : LogHost).

(** [write]: both formatters get the one buffer of the entry. *)
Definition write (e : Entry) (buf : bytes) (p : Proc) : Proc :=
  let l := p_logger p in
  let '(buf, es, r) := Format H (Formatter_ l) (p_prefix p) (ReportCaller l) e buf in
  let p := toStderr es p in
  match r with
  | Ret serialized =>
      if (0 <? len serialized) && negb (h_accepts H (Out l) serialized) then toStderr [string_bytes "Failed to write to log: "] p
      else
        let p := if 0 <? len serialized then toOut serialized p else p in
        match Callback l with
        | None => p
        | Some f =>
            let '(_, es, r) := Format H (CallbackFormatter l) (p_prefix p) (ReportCaller l) e buf in
            let p := toStderr es p in
            match r with
            | Ret msg => if 0 <? len msg then toCallback f (mkLogMessage (LevelString (Level e)) msg) p else p
            | _ => toStderr [string_bytes "Failed to format log entry: "] p
            end
        end
  | _ => toStderr [string_bytes "Failed to format log entry: "] p
  end.

(** [Entry.log]: the buffer of the pool is empty after its reset. *)
Definition log_ (env : CallEnv) (level : Z) (msg : bytes) (entry : Entry) (p : Proc) : Proc :=
  let e := Dup entry in
  let time := match Time e with None => Some (ce_now env) | t => t end in
  let '(caller, c) := if ReportCaller (p_logger p) then getCaller (ce_names env) (ce_frames env) (p_caller p) else (None, p_caller p) in
  let e := mkEntry (Data e) time level caller msg (Context_ e) (err e) in
  let p := write e [] (setCaller c p) in
  if level <=? PanicLevel then startPanic e p else p.

(** [fmt.Sprint] puts a space between two operands when neither is a string,
    [fmt.Sprintln] between any two, with a line break at the end. *)
Fixpoint Sprint (args : list Operand) : bytes :=
  match args with
  | [] => []
  | a :: args => op_text a ++ (match args with b :: _ => if op_string a || op_string b then [] else [32] | [] => [] end) ++ Sprint args
  end.
Fixpoint spaced (args : list Operand) : bytes :=
  match args with [] => [] | [a] => op_text a | a :: args => op_text a ++ [32] ++ spaced args end.
Definition Sprintln (args : list Operand) : bytes := spaced args ++ [10].
Definition sprintlnn (args : list Operand) : bytes := let msg := Sprintln args in take (length msg - 1) msg.

Definition Log (env : CallEnv) (level : Z) (args : list Operand) (e : Entry) (p : Proc) : Proc :=
  if IsLevelEnabled level (p_logger p) then log_ env level (Sprint args) e p else p.
Definition Logf (env : CallEnv) (level : Z) (format : bytes) (args : list Operand) (e : Entry) (p : Proc) : Proc :=
  if IsLevelEnabled level (p_logger p) then Log env level [mkOperand true (h_Sprintf H format args)] e p else p.
Definition Logln (env : CallEnv) (level : Z) (args : list Operand) (e : Entry) (p : Proc) : Proc :=
  if IsLevelEnabled level (p_logger p) then Log env level [mkOperand true (sprintlnn args)] e p else p.

Definition Exit (code : Z) (p : Proc) : Proc :=
  let p := match ExitFunc (p_logger p) with None => onLogger (setExitFunc (Some osExit)) p | Some _ => p end in
  toExit (default osExit (ExitFunc (p_logger p))) code p.

(** The methods of an entry. *)
Definition Entry_Tracef env format args e := Logf env TraceLevel format args e.
Definition Entry_Debugf env format args e := Logf env DebugLevel format args e.
Definition Entry_Infof env format args e := Logf env InfoLevel format args e.
Definition Entry_Printf env format args e := Entry_Infof env format args e.
Definition Entry_Warnf env format args e := Logf env WarnLevel format args e.
Definition Entry_Warningf env format args e := Entry_Warnf env format args e.
Definition Entry_Errorf env format args e := Logf env ErrorLevel format args e.
Definition Entry_Fatalf env format args e p := andThen (Exit 1) (Logf env FatalLevel format args e p).
Definition Entry_Panicf env format args e := Logf env PanicLevel format args e.
Definition Entry_Print env args e := Log env InfoLevel args e.
Definition Entry_Fatal env args e p := andThen (Exit 1) (Log env FatalLevel args e p).
Definition Entry_Panic env args e := Log env PanicLevel args e.
Definition Entry_Println env args e := Logln env InfoLevel args e.
Definition Entry_Fatalln env args e p := andThen (Exit 1) (Logln env FatalLevel args e p).
Definition Entry_Panicln env args e := Logln env PanicLevel args e.

(** The pool of entries. *)
Definition newEntry (pick : option nat) (l : Logger) : Entry * Logger :=
  match pick with
  | Some i => match entryPool l !! i with Some e => (e, setPool (delete i (entryPool l)) l) | None => (NewEntry, l) end
  | None => (NewEntry, l)
  end.
Definition releaseEntry (e : Entry) (l : Logger) : Logger :=
  setPool (entryPool l ++ [mkEntry ∅ (Time e) (Level e) (Caller e) (Message e) (Context_ e) (err e)]) l.

(** A method of an entry of the pool: a new entry from it, or a call that a panic
    leaves before the entry is back in the pool. *)
Definition pooledWith (pick : option nat) (f : Entry → Entry) (l : Logger) : Entry * Logger :=
  let '(e, l) := newEntry pick l in (f e, releaseEntry e l).
Definition pooledCall (env : CallEnv) (f : Entry → Proc → Proc) (p : Proc) : Proc :=
  let '(e, l) := newEntry (ce_pick env) (p_logger p) in
  andThen (onLogger (releaseEntry e)) (f e (onLogger (λ _, l) p)).

Definition Logger_WithField pick key value := pooledWith pick (WithField H key value).
Definition Logger_WithFields pick fields := pooledWith pick (WithFields H fields).
Definition Logger_WithError pick e := pooledWith pick (WithError H e).
Definition Logger_WithContext pick ctx := pooledWith pick (WithContext ctx).
Definition Logger_WithTime pick t := pooledWith pick (WithTime t).

Definition Logger_Logf env level format args p :=
  if IsLevelEnabled level (p_logger p) then pooledCall env (Logf env level format args) p else p.
Definition Logger_Log env level args p :=
  if IsLevelEnabled level (p_logger p) then pooledCall env (Log env level args) p else p.
Definition Logger_Logln env level args p :=
  if IsLevelEnabled level (p_logger p) then pooledCall env (Logln env level args) p else p.
Definition Tracef env format args := Logger_Logf env TraceLevel format args.
Definition Debugf env format args := Logger_Logf env DebugLevel format args.
Definition Infof env format args := Logger_Logf env InfoLevel format args.
Definition Printf env format args := pooledCall env (Entry_Printf env format args).
Definition Warnf env format args := Logger_Logf env WarnLevel format args.
Definition Warningf env format args := Warnf env format args.
Definition ErrorfLine env format args := Logger_Logf env ErrorLevel format args.
Definition Fatalf env format args p := andThen (Exit 1) (Logger_Logf env FatalLevel format args p).
Definition Panicf env format args := Logger_Logf env PanicLevel format args.
Definition PrintLine env args := pooledCall env (Entry_Print env args).
Definition Fatal env args p := andThen (Exit 1) (Logger_Log env FatalLevel args p).
Definition PanicLine env args := Logger_Log env PanicLevel args.
Definition Println env args := pooledCall env (Entry_Println env args).
Definition Fatalln env args p := andThen (Exit 1) (Logger_Logln env FatalLevel args p).
Definition Panicln env args := Logger_Logln env PanicLevel args.

(** ** The standard logger: exported.go, mieru_init.go, apis/log *)

Definition stdLogger : Logger := setFormatter CliFormatter (setOut 1 New).

Definition SetLevel (level : bytes) (l : Logger) : bool * Logger :=
  let level := ToUpper (h_upper H) level in
  if bool_decide (level = string_bytes "FATAL") then (true, setLevel FatalLevel l)
  else if bool_decide (level = string_bytes "ERROR") then (true, setLevel ErrorLevel l)
  else if bool_decide (level = string_bytes "WARN") || bool_decide (level = string_bytes "WARNING") then (true, setLevel WarnLevel l)
  else if bool_decide (level = string_bytes "INFO") then (true, setLevel InfoLevel l)
  else if bool_decide (level = string_bytes "DEBUG") then (true, setLevel DebugLevel l)
  else if bool_decide (level = string_bytes "TRACE") then (true, setLevel TraceLevel l)
  else (false, l).
Definition GetLevel (l : Logger) : bytes := ToUpper (h_upper H) (LevelString (lgLevel l)).
End Logging.

(** ** The files of the client's log: mieru_client_logging.go *)

Definition maxClientLogFiles : Z := 25.

(** [UserCacheDir] and [MkdirAll] are the host's; the variable keeps the directory. *)
Definition prepareClientLogDir (userCacheDir : outcome bytes) (mkdirAll : bytes → outcome ()) (cached : bytes) : outcome () * bytes :=
  if bool_decide (cached = []) then
    match userCacheDir with
    | Ret cacheDir => let dir := cacheDir ++ [47] ++ string_bytes "mieru" in (mkdirAll dir, dir)
    | Err e => (Err e, cached)
    | Panic s => (Panic s, cached)
    end
  else (mkdirAll cached, cached).

(** [%0wd] of a number that is not negative. *)
Definition padded (w : nat) (n : Z) : bytes := replicate (w - length (Itoa n)) 48 ++ Itoa n.

Record Moment := mkMoment { t_Year : Z; t_Month : Z; t_Day : Z; t_Hour : Z; t_Minute : Z }.
Definition timeStr (t : Moment) : bytes :=
  padded 4 (t_Year t) ++ padded 2 (t_Month t) ++ padded 2 (t_Day t) ++ [95] ++ padded 2 (t_Hour t) ++ padded 2 (t_Minute t).
Definition logName (t : Moment) (pid : Z) : bytes := timeStr t ++ [95] ++ Itoa pid ++ string_bytes ".log".

(** A directory: its names, and whether each is a directory. *)
Notation Dir := (gmap bytes bool).

Definition NewClientLogFile (prepared : outcome ()) (t : Moment) (pid : Z) (canOpen : bool) (d : Dir) : outcome bytes * Dir :=
  match prepared with
  | Ret _ =>
      let name := logName t pid in
      if canOpen then (Ret name, <[name := default false (d !! name)]> d)
      else (Err (Errorf "failed to create client log file: %v"), d)
  | _ => (Err (Errorf "prepareClientLogDir() failed: %w"), d)
  end.

Definition isLogFile (e : bytes * bool) : bool := negb e.2 && HasSuffix e.1 (string_bytes ".log").
Fixpoint removeAll (removable : bytes → bool) (names : list bytes) (d : Dir) : outcome () * Dir :=
  match names with
  | [] => (Ret (), d)
  | n :: names => if removable n then removeAll removable names (delete n d) else (Err (Errorf "os.Remove() failed: %w"), d)
  end.
(** [entries]: what [ReadDir] lists, the directory's contents. *)
Definition logFiles (entries : list (bytes * bool)) : list bytes := (List.filter isLogFile entries).*1.
Definition RemoveOldClientLogFiles (prepared : outcome ()) (readable : bool) (removable : bytes → bool) (d : Dir) : outcome () * Dir :=
  match prepared with
  | Ret _ =>
      if readable then
        let logs := logFiles (map_to_list d) in
        if maxClientLogFiles <? len logs then
          let toDelete := len logs - maxClientLogFiles in
          removeAll removable (take (Z.to_nat toDelete) (sortStrings logs)) d
        else (Ret (), d)
      else (Err (Errorf "os.ReadDir(%q) failed: %w"), d)
  | _ => (Err (Errorf "prepareClientLogDir() failed: %w"), d)
  end.

(** * Properties *)

(** ** Levels *)

Lemma upper_lower c : upperByte (lowerByte c) = upperByte c.
Proof. unfold upperByte, lowerByte. repeat case_if; lia. Qed.
Lemma lower_upper c : lowerByte (upperByte c) = lowerByte c.
Proof. unfold upperByte, lowerByte. repeat case_if; lia. Qed.

(** An ASCII text is some word in capitals when it is that word in small letters. *)
Lemma upper_iff_lower s (u l : bytes) : map lowerByte u = l → map upperByte l = u → map upperByte s = u ↔ map lowerByte s = l.
Proof.
  intros Hl Hu. split; intros E.
  - rewrite <- Hl, <- E, map_map. apply map_ext. intros c. by rewrite lower_upper.
  - rewrite <- Hu, <- E, map_map. apply map_ext. intros c. by rewrite upper_lower.
Qed.

(** The text of a level is read back as that level, and only the seven levels have
    a text. *)
Theorem level_text_roundtrip H l : (l ∈ AllLevels → ∃ b, MarshalText l = Ret b ∧ ∀ l0, UnmarshalText H b l0 = (None, l)) ∧
  (l ∉ AllLevels → (∃ e, MarshalText l = Err e) ∧ LevelString l = string_bytes "unknown").
Proof.
  split.
  - intros Hin. unfold AllLevels in Hin. rewrite !elem_of_cons in Hin.
    destruct_or! Hin; [..|by apply elem_of_nil in Hin]; subst l; eexists; (split; [reflexivity|]); intros l0; reflexivity.
  - intros Hin. unfold AllLevels in Hin. rewrite !not_elem_of_cons in Hin. destruct Hin as (H0 & H1 & H2 & H3 & H4 & H5 & H6 & _).
    unfold LevelString, MarshalText. rewrite !(proj2 (Z.eqb_neq _ _)) by done. by eauto.
Qed.

(** The two ways to name a level, the configuration's and [ParseLevel], agree on
    ASCII texts, but for the level of panics, which cannot be set by name. *)
Theorem set_level_parses H s l : is_ascii s = true →
  SetLevel H s l = match ParseLevel H s with Ret v => if v =? PanicLevel then (false, l) else (true, setLevel v l) | _ => (false, l) end.
Proof.
  intros Ha. unfold SetLevel, ParseLevel, ToUpper, ToLower. rewrite Ha.
  assert (Hw : ∀ u w : string, map lowerByte (string_bytes u) = string_bytes w → map upperByte (string_bytes w) = string_bytes u →
    bool_decide (map upperByte s = string_bytes u) = bool_decide (map lowerByte s = string_bytes w)) by (intros u w E1 E2; apply bool_decide_ext; by apply upper_iff_lower).
  rewrite (Hw "FATAL"%string "fatal"%string), (Hw "ERROR"%string "error"%string), (Hw "WARN"%string "warn"%string), (Hw "WARNING"%string "warning"%string),
    (Hw "INFO"%string "info"%string), (Hw "DEBUG"%string "debug"%string), (Hw "TRACE"%string "trace"%string) by reflexivity.
  destruct (bool_decide_reflect (map lowerByte s = string_bytes "panic")) as [->|_]; [reflexivity|]. by repeat case_if.
Qed.

(** ** The package of a function *)

Lemma LastIndex_bound c s : -1 ≤ LastIndex c s < len s.
Proof.
  unfold LastIndex. enough (Hb : ∀ i, LastIndexByte c s = Some i → (i < length s)%nat) by (destruct (LastIndexByte c s) eqn:E; [specialize (Hb _ eq_refl)|]; unfold len; lia).
  induction s as [|x s IH]; intros i E; [done|]. cbn in E |- *. destruct (LastIndexByte c s) as [j|]; [injection E as <-; specialize (IH j eq_refl); lia|].
  destruct (x =? c); [injection E as <-; lia|done].
Qed.

Lemma LastIndex_app c a b : c ∉ b → LastIndex c (a ++ b) = LastIndex c a.
Proof.
  intros Hn. unfold LastIndex. enough (E : LastIndexByte c (a ++ b) = LastIndexByte c a) by (by rewrite E).
  induction a as [|x a IH]; cbn; [by apply LastIndexByte_none|by rewrite IH].
Qed.

Lemma LastIndex_last c a b : c ∉ b → LastIndex c (a ++ c :: b) = len a.
Proof. intros Hn. unfold LastIndex. by rewrite LastIndexByte_last. Qed.

(** The text before the name of a package: empty, or up to a slash. *)
Definition is_path (d : bytes) : Prop := d = [] ∨ ∃ d', d = d' ++ [47].

Lemma path_slash d b : is_path d → 47 ∉ b → LastIndex 47 (d ++ b) = len d - 1.
Proof.
  intros [->|[d' ->]] Hb; [unfold LastIndex; by rewrite LastIndexByte_none by (by cbn)|]. rewrite <- app_assoc. cbn. rewrite LastIndex_last by done.
  rewrite len_app. rewrite len_cons, len_nil. lia.
Qed.

Lemma package_loop fuel d a rest : (length rest < fuel)%nat → is_path d → 47 ∉ a ++ rest → 46 ∉ a →
  (rest = [] ∨ ∃ r, rest = 46 :: r) → getPackageNameLoop fuel (d ++ a ++ rest) = d ++ a.
Proof.
  revert rest. induction fuel as [|fuel IH]; intros rest Hf Hd Hs Ha Hr; [lia|]. cbn [getPackageNameLoop]. rewrite (path_slash d (a ++ rest)) by done.
  destruct (decide (46 ∈ rest)) as [Hin|Hout].
  - assert (∃ r1 r2, rest = r1 ++ 46 :: r2 ∧ 46 ∉ r2) as (r1 & r2 & -> & Hr2) by (apply list_elem_of_split_r in Hin as (r1 & r2 & -> & Hr2); eauto).
    replace (d ++ a ++ r1 ++ 46 :: r2) with ((d ++ a ++ r1) ++ 46 :: r2) by (by rewrite <- !app_assoc). rewrite LastIndex_last by done.
    case_if; [|rewrite !len_app in *; pose proof (len_nonneg a); pose proof (len_nonneg r1); lia].
    unfold len. rewrite Nat2Z.id, take_app_length. rewrite !elem_of_app in Hs. apply IH; [rewrite length_app in Hf; cbn in Hf; lia|done|rewrite elem_of_app; naive_solver|done|].
    destruct Hr as [Hr|[r Hr]]; destruct r1 as [|x r1]; [by left|discriminate|by left|right; injection Hr as -> _; eauto].
  - destruct Hr as [->|[r ->]]; [|exfalso; apply Hout; left]. rewrite app_nil_r, LastIndex_app by done. pose proof (LastIndex_bound 46 d). case_if; [lia|done].
Qed.

(** The package of a function: its path up to the last slash, dots included, and
    then what is before the first dot. *)
Theorem package_of_function d a rest : is_path d → 47 ∉ a ++ rest → 46 ∉ a → (rest = [] ∨ ∃ r, rest = 46 :: r) →
  getPackageName (d ++ a ++ rest) = d ++ a.
Proof. intros Hd Hs Ha Hr. apply package_loop; [rewrite !length_app; lia|done..]. Qed.

(** ** The pool of entries does not show *)

(** The entries of the pool are as new. *)
Definition pool_clean (l : Logger) : Prop := Forall (eq NewEntry) (entryPool l).
(** The process without what is in the pool. *)
Definition poolless (p : Proc) : Proc := onLogger (setPool []) p.

Lemma newEntry_clean pick l : pool_clean l → ∃ pool, newEntry pick l = (NewEntry, setPool pool l) ∧ Forall (eq NewEntry) pool.
Proof.
  intros Hc. assert (Hsame : (NewEntry, l) = (NewEntry, setPool (entryPool l) l)) by (by destruct l). unfold newEntry.
  destruct pick as [i|]; [|by exists (entryPool l)]. destruct (entryPool l !! i) as [e|] eqn:E; [|by exists (entryPool l)].
  exists (delete i (entryPool l)). unfold pool_clean in Hc. rewrite <- (Forall_lookup_1 _ _ _ _ Hc E). split; [done|]. by apply Forall_delete.
Qed.

Lemma Format_ret H f pre rc e buf : ∃ b es s, Format H f pre rc e buf = (b, es, Ret s).
Proof. destruct f; cbn; eauto. Qed.

Lemma write_frame H e buf p : p_logger (write H e buf p) = p_logger p ∧ p_prefix (write H e buf p) = p_prefix p ∧ p_panic (write H e buf p) = p_panic p
  ∧ p_exits (write H e buf p) = p_exits p ∧ ∀ pool, write H e buf (onLogger (setPool pool) p) = onLogger (setPool pool) (write H e buf p).
Proof.
  destruct p as [l pre c o se ca ex pa]; destruct l as [ou fo cb cf rc lv xf nl po]. unfold write. cbn.
  destruct (Format_ret H fo pre rc e buf) as (b & es & x & ->). destruct (Format_ret H cf pre rc e b) as (b' & es' & x' & E).
  destruct cb as [f|]; repeat first [done | progress (cbn; rewrite ?E; cbn) | case_if].
Qed.

Lemma log_frame H env level msg e p : p_logger (log_ H env level msg e p) = p_logger p ∧ p_prefix (log_ H env level msg e p) = p_prefix p
  ∧ p_exits (log_ H env level msg e p) = p_exits p ∧ (PanicLevel < level → p_panic (log_ H env level msg e p) = p_panic p)
  ∧ ∀ pool, log_ H env level msg e (onLogger (setPool pool) p) = onLogger (setPool pool) (log_ H env level msg e p).
Proof.
  unfold log_. change (ReportCaller (p_logger (onLogger (setPool _) p))) with (ReportCaller (p_logger p)).
  destruct (if ReportCaller (p_logger p) then _ else _) as [caller c] eqn:E.
  set (e' := mkEntry _ _ _ _ _ _ _). destruct (write_frame H e' [] (setCaller c p)) as (H1 & H2 & H3 & H4 & H5).
  split_and!; [case_if; by cbn|case_if; by cbn|case_if; by cbn|intros; case_if; [lia|done]|].
  intros pool. cbn [p_caller onLogger] in *. rewrite E. fold e'.
  change (setCaller c (onLogger (setPool pool) p)) with (onLogger (setPool pool) (setCaller c p)). rewrite H5. by case_if.
Qed.

Lemma Sprint_one b : Sprint [mkOperand true b] = b.
Proof. cbn. apply app_nil_r. Qed.

(** The three forms of a call are one. *)
Lemma Logf_eq H env level format args e p : Logf H env level format args e p =
  if IsLevelEnabled level (p_logger p) then log_ H env level (h_Sprintf H format args) e p else p.
Proof. unfold Logf, Log. case_if; [|done]. by rewrite Sprint_one. Qed.

Lemma Logln_eq H env level args e p : Logln H env level args e p =
  if IsLevelEnabled level (p_logger p) then log_ H env level (spaced args) e p else p.
Proof.
  unfold Logln, Log, sprintlnn, Sprintln. case_if; [|done]. rewrite length_app. cbn [length]. rewrite Nat.add_sub, take_app_length. by rewrite Sprint_one.
Qed.

(** A call that logs through an entry of the pool. *)
Definition logging (f : Entry → Proc → Proc) : Prop := ∃ H env level msg, ∀ e p,
  f e p = if IsLevelEnabled level (p_logger p) then log_ H env level msg e p else p.

Lemma logging_frame f : logging f → ∀ e p, p_logger (f e p) = p_logger p ∧ ∀ pool, f e (onLogger (setPool pool) p) = onLogger (setPool pool) (f e p).
Proof.
  intros (H & env & level & msg & Hf) e p. destruct (log_frame H env level msg e p) as (H1 & _ & _ & _ & H5). split; [rewrite Hf; by case_if|].
  intros pool. rewrite !Hf. change (IsLevelEnabled level (p_logger (onLogger (setPool pool) p))) with (IsLevelEnabled level (p_logger p)). case_if; [apply H5|done].
Qed.

Lemma logging_Logf H env level format args : logging (Logf H env level format args).
Proof. exists H, env, level, (h_Sprintf H format args). intros e p. apply Logf_eq. Qed.
Lemma logging_Log H env level args : logging (Log H env level args).
Proof. exists H, env, level, (Sprint args). done. Qed.
Lemma logging_Logln H env level args : logging (Logln H env level args).
Proof. exists H, env, level, (spaced args). intros e p. apply Logln_eq. Qed.

(** Whatever entry the pool gives, a call does what it does with a new entry, and
    the pool holds entries as new afterwards. *)
Theorem pool_transparent f env p : logging f → pool_clean (p_logger p) →
  poolless (pooledCall env f p) = poolless (f NewEntry p) ∧ pool_clean (p_logger (pooledCall env f p)).
Proof.
  intros Hf Hc. unfold pooledCall. destruct (newEntry_clean (ce_pick env) _ Hc) as (pool & -> & Hp).
  destruct (logging_frame f Hf NewEntry p) as [Hl Hpool]. change (onLogger (λ _, setPool pool (p_logger p)) p) with (onLogger (setPool pool) p). rewrite Hpool.
  unfold andThen. change (p_panic (onLogger (setPool pool) (f NewEntry p))) with (p_panic (f NewEntry p)).
  destruct (p_panic (f NewEntry p)); (split; [done|]); unfold pool_clean; cbn; [done|]. by apply Forall_app_2, Forall_singleton.
Qed.

Lemma pooledWith_new f pick l : pool_clean l → (pooledWith pick f l).1 = f NewEntry ∧ pool_clean (pooledWith pick f l).2.
Proof.
  intros Hc. unfold pooledWith. destruct (newEntry_clean pick l Hc) as (pool & -> & Hp). split; [done|]. unfold pool_clean. cbn. by apply Forall_app_2, Forall_singleton.
Qed.

(** ** What a sequence of calls writes *)

Record LogCall := mkLogCall { lc_env : CallEnv; lc_level : Z; lc_format : bytes; lc_args : list Operand }.
Definition runCall (H : LogHost) (p : Proc) (c : LogCall) : Proc := Logger_Logf H (lc_env c) (lc_level c) (lc_format c) (lc_args c) p.

(** The entry of a call, the line of the output, the message of the callback: the
    latter after the line, in the same buffer. *)
Definition entryOf (H : LogHost) (c : LogCall) : Entry :=
  mkEntry ∅ (Some (ce_now (lc_env c))) (lc_level c) None (h_Sprintf H (lc_format c) (lc_args c)) None [].
Definition outLine (H : LogHost) (l : Logger) (pre : bytes) (c : LogCall) : option (Z * bytes) :=
  if IsLevelEnabled (lc_level c) l then
    match (Format H (Formatter_ l) pre false (entryOf H c) []).2 with
    | Ret s => if 0 <? len s then Some (Out l, s) else None
    | _ => None
    end
  else None.
Definition callbackLine (H : LogHost) (l : Logger) (pre : bytes) (c : LogCall) : option (Z * LogMessage) :=
  if IsLevelEnabled (lc_level c) l then
    match Callback l, (Format H (CallbackFormatter l) pre false (entryOf H c) (Format H (Formatter_ l) pre false (entryOf H c) []).1.1).2 with
    | Some f, Ret s => if 0 <? len s then Some (f, mkLogMessage (LevelString (lc_level c)) s) else None
    | _, _ => None
    end
  else None.

(** A logger whose pool is clean and whose output takes every line. *)
Record log_ready (H : LogHost) (p : Proc) : Prop := {
  lr_clean : pool_clean (p_logger p); lr_panic : p_panic p = None; lr_caller : ReportCaller (p_logger p) = false;
  lr_out : ∀ b, h_accepts H (Out (p_logger p)) b = true }.

Lemma write_lines H e p : ReportCaller (p_logger p) = false → (∀ b, h_accepts H (Out (p_logger p)) b = true) →
  let l := p_logger p in let r := Format H (Formatter_ l) (p_prefix p) false e [] in
  let m := (Format H (CallbackFormatter l) (p_prefix p) false e r.1.1).2 in
  p_out (write H e [] p) = p_out p ++ option_list (match r.2 with Ret s => if 0 <? len s then Some (Out l, s) else None | _ => None end) ∧
  p_calls (write H e [] p) = p_calls p ++ option_list (match Callback l, m with
    | Some f, Ret s => if 0 <? len s then Some (f, mkLogMessage (LevelString (Level e)) s) else None | _, _ => None end).
Proof.
  intros Hr Ha. cbn zeta. unfold write. rewrite Hr. destruct (Format_ret H (Formatter_ (p_logger p)) (p_prefix p) false e []) as (b & es & x & E1). rewrite E1. cbn.
  rewrite Ha, andb_false_r. destruct (Format_ret H (CallbackFormatter (p_logger p)) (p_prefix p) false e b) as (b' & es' & x' & E2). rewrite E2. cbn.
  destruct (Callback (p_logger p)) as [f|]; destruct (0 <? len x); cbn; rewrite ?E2; cbn; try destruct (0 <? len x'); cbn; by rewrite ?app_nil_r.
Qed.

Lemma runCall_step H p c : log_ready H p → PanicLevel < lc_level c → log_ready H (runCall H p c) ∧
  poolless (onLogger (λ _, p_logger (runCall H p c)) p) = poolless p ∧ p_prefix (runCall H p c) = p_prefix p ∧ p_exits (runCall H p c) = p_exits p ∧
  p_out (runCall H p c) = p_out p ++ option_list (outLine H (p_logger p) (p_prefix p) c) ∧
  p_calls (runCall H p c) = p_calls p ++ option_list (callbackLine H (p_logger p) (p_prefix p) c).
Proof.
  intros Hr Hl. unfold runCall, Logger_Logf, outLine, callbackLine. destruct (IsLevelEnabled (lc_level c) (p_logger p)) eqn:En; [|by rewrite !app_nil_r].
  set (f := Logf H _ _ _ _). destruct (pool_transparent f (lc_env c) p) as [He Hc]; [apply logging_Logf|apply Hr|].
  assert (Ef : f NewEntry p = log_ H (lc_env c) (lc_level c) (h_Sprintf H (lc_format c) (lc_args c)) NewEntry p) by (unfold f; by rewrite Logf_eq, En).
  destruct (log_frame H (lc_env c) (lc_level c) (h_Sprintf H (lc_format c) (lc_args c)) NewEntry p) as (F1 & F2 & F3 & F4 & _). specialize (F4 Hl). rewrite <- Ef in F1, F2, F3, F4.
  set (q := pooledCall (lc_env c) f p) in *. clearbody q. destruct q as [ql qp qc qo qs qca qe qpa]. injection He as E1 E2 E3 E4 E5 E6 E7 E8 E9 E10 E11 E12 E13 E14. cbn in *.
  assert (Hw : f NewEntry p = write H (entryOf H c) [] (setCaller (p_caller p) p)). { rewrite Ef. unfold log_. rewrite (lr_caller _ _ Hr). case_if; [lia|done]. }
  destruct (write_lines H (entryOf H c) (setCaller (p_caller p) p) (lr_caller _ _ Hr) (lr_out _ _ Hr)) as [W1 W2]. rewrite <- Hw in W1, W2. cbn in W1, W2.
  rewrite F1 in *. split; [|split_and!; unfold poolless, onLogger, setPool in *; cbn in *; try congruence].
  destruct Hr. split; cbn; congruence.
Qed.

Lemma omap_same {A B} (f g : A → option B) (l : list A) : (∀ x, f x = g x) → omap f l = omap g l.
Proof. intros E. induction l as [|x l IH]; [done|]. cbn. by rewrite E, IH. Qed.

Lemma outLine_logger H p p' c : poolless (onLogger (λ _, p_logger p') p) = poolless p →
  outLine H (p_logger p') (p_prefix p) c = outLine H (p_logger p) (p_prefix p) c ∧ callbackLine H (p_logger p') (p_prefix p) c = callbackLine H (p_logger p) (p_prefix p) c.
Proof.
  intros E. unfold poolless, onLogger, setPool in E. cbn in E. injection E as E1 E2 E3 E4 E5 E6 E7 E8. unfold outLine, callbackLine, IsLevelEnabled.
  by rewrite E1, E2, E3, E4, E6.
Qed.

(** The log is the lines of the enabled calls, in order, one for each, whatever the
    pool returns; the callback gets a message for each of them too. *)
Theorem log_keeps_enabled_lines H calls p : log_ready H p → Forall (λ c, PanicLevel < lc_level c) calls →
  let p' := foldl (runCall H) p calls in
  log_ready H p' ∧ p_exits p' = p_exits p ∧ p_out p' = p_out p ++ omap (outLine H (p_logger p) (p_prefix p)) calls ∧
  p_calls p' = p_calls p ++ omap (callbackLine H (p_logger p) (p_prefix p)) calls.
Proof.
  revert p. induction calls as [|c calls IH]; intros p Hr Hl; [cbn; by rewrite !app_nil_r|]. apply Forall_cons in Hl as [Hc Hl].
  destruct (runCall_step H p c Hr Hc) as (Hr' & Hp & Hpre & Hex & Ho & Hca). destruct (IH (runCall H p c) Hr' Hl) as (I1 & I2 & I3 & I4). cbn [foldl omap list_omap].
  split; [done|]. split; [congruence|]. rewrite I3, I4, Hpre, Ho, Hca.
  rewrite (omap_same _ _ calls (λ c, proj1 (outLine_logger H _ _ c Hp))), (omap_same _ _ calls (λ c, proj2 (outLine_logger H _ _ c Hp))), <- !app_assoc.
  destruct (outLine H (p_logger p) (p_prefix p) c), (callbackLine H (p_logger p) (p_prefix p) c); by cbn.
Qed.

Lemma line_not_empty (b : bytes) : 0 <? len (b ++ [10]) = true.
Proof. apply Z.ltb_lt. unfold len. rewrite length_app. cbn [length]. lia. Qed.

(** What a callback gets when the output is silent, as the client and the server of
    the API set it: the text of the call alone. *)
Theorem callback_gets_the_text H l c f : Formatter_ l = NilFormatter → CallbackFormatter l = CallbackFormatter New → Callback l = Some f →
  IsLevelEnabled (lc_level c) l = true → outLine H l [] c = None ∧
  callbackLine H l [] c = Some (f, mkLogMessage (LevelString (lc_level c)) (h_Sprintf H (lc_format c) (lc_args c) ++ [10])).
Proof.
  intros Hf Hcf Hcb He. unfold outLine, callbackLine. rewrite Hf, Hcf, Hcb, He. cbn. split; [done|]. unfold daemonFormat. cbn.
  change (sortStrings (map_to_list (∅ : Fields)).*1) with (@nil bytes). cbn. unfold putField. cbn. by rewrite line_not_empty.
Qed.

(** With a formatter that writes, the message of the callback starts with the line
    of the output: the two formatters share the buffer of the entry. *)
Theorem callback_repeats_the_line H l pre c f : Formatter_ l = CliFormatter → CallbackFormatter l = CallbackFormatter New → Callback l = Some f →
  IsLevelEnabled (lc_level c) l = true → let msg := h_Sprintf H (lc_format c) (lc_args c) in
  callbackLine H l pre c = Some (f, mkLogMessage (LevelString (lc_level c)) (msg ++ [10] ++ pre ++ [32] ++ msg ++ [10])).
Proof.
  intros Hf Hcf Hcb He. unfold callbackLine. rewrite Hf, Hcf, Hcb, He. cbn. unfold daemonFormat. cbn.
  change (sortStrings (map_to_list (∅ : Fields)).*1) with (@nil bytes). cbn. unfold putField. rewrite bool_decide_false; cbn.
  - rewrite line_not_empty. unfold cliFormat. cbn. by rewrite <- !app_assoc.
  - unfold cliFormat. cbn. intros E. apply app_eq_nil in E as [E _]. by destruct (app_eq_nil _ _ E).
Qed.

(** ** Fatal calls and panics *)

(** A fatal call exits with code 1 at every level of the logger, after its line;
    a panic is raised at every level a logger can have, with the entry of the
    call. *)
Theorem fatal_exits_panic_panics H env format args p : pool_clean (p_logger p) → p_panic p = None → 0 ≤ lgLevel (p_logger p) →
  (∃ f, p_exits (Fatalf H env format args p) = p_exits p ++ [(f, 1)] ∧ (ExitFunc (p_logger p) = None → f = osExit)) ∧
  (∃ e, p_panic (Panicf H env format args p) = Some e ∧ Message e = h_Sprintf H format args ∧ Level e = PanicLevel).
Proof.
  intros Hc Hn Hl. split.
  - assert (Hq : ∃ q, Fatalf H env format args p = Exit 1 q ∧ p_exits q = p_exits p ∧ ExitFunc (p_logger q) = ExitFunc (p_logger p)).
    { unfold Fatalf, Logger_Logf. destruct (IsLevelEnabled FatalLevel (p_logger p)) eqn:En; [|exists p; unfold andThen; by rewrite Hn].
      set (f := Logf H _ _ _ _). destruct (pool_transparent f env p) as [He _]; [apply logging_Logf|done|].
      assert (Ef : f NewEntry p = log_ H env FatalLevel (h_Sprintf H format args) NewEntry p) by (unfold f; by rewrite Logf_eq, En).
      destruct (log_frame H env FatalLevel (h_Sprintf H format args) NewEntry p) as (F1 & _ & F3 & F4 & _). specialize (F4 eq_refl). rewrite <- Ef in F1, F3, F4.
      exists (pooledCall env f p). unfold andThen. pose proof (f_equal p_panic He) as E1. pose proof (f_equal p_exits He) as E2. pose proof (f_equal (ExitFunc ∘ p_logger) He) as E3.
      cbn in E1, E2, E3. rewrite E1, F4, Hn, E2, F3, E3, F1. done. }
    destruct Hq as (q & -> & Hex & Hef). unfold Exit. destruct (ExitFunc (p_logger q)) as [x|] eqn:Ex; cbn; rewrite ?Ex; cbn; rewrite Hex; eexists; (split; [done|]); congruence.
  - unfold Panicf, Logger_Logf. assert (En : IsLevelEnabled PanicLevel (p_logger p) = true) by (unfold IsLevelEnabled, PanicLevel; lia). rewrite En.
    set (f := Logf H _ _ _ _). destruct (pool_transparent f env p) as [He _]; [apply logging_Logf|done|]. apply (f_equal p_panic) in He. cbn in He. rewrite He.
    unfold f. rewrite Logf_eq, En. unfold log_. destruct (if ReportCaller _ then _ else _) as [caller c]. cbn. by eexists.
Qed.

(** ** Fields *)

(** A field with a function is refused, the others are kept; the entry itself stays
    as it was, and so do its time and context. *)
Theorem with_fields_keeps H fields e k : NoDup fields.*1 →
  Data (WithFields H fields e) !! k =
    match (list_to_map fields : gmap bytes Value) !! k with Some v => if isErrField v then Data e !! k else Some v | None => Data e !! k end ∧
  Time (WithFields H fields e) = Time e ∧ Context_ (WithFields H fields e) = Context_ e.
Proof.
  intros Hd. unfold WithFields. destruct (foldl _ _ _) as [data fe] eqn:E. cbn. split; [|done]. apply (f_equal fst) in E. cbn in E. subst data.
  generalize (err e). generalize (Data e). revert Hd. induction fields as [|[k' v] fields IH]; intros Hd m er; [done|]. apply NoDup_cons in Hd as [Hk Hd]. cbn [foldl fmap list_fmap] in *.
  assert (∃ er', addField H e (m, er) (k', v) = (if isErrField v then m else <[k':=v]> m, er')) as [er' ->] by (unfold addField; cbn; case_if; eauto).
  rewrite IH by done. rewrite list_to_map_cons. destruct (decide (k' = k)) as [->|Hne].
  - rewrite lookup_insert_eq, not_elem_of_list_to_map_1 by done. destruct (isErrField v); [done|]. by rewrite lookup_insert_eq.
  - rewrite lookup_insert_ne by done. destruct (isErrField v); [done|]. by rewrite (lookup_insert_ne m) by done.
Qed.

(** Of two bad fields added together to an entry without an error, one is
    forgotten. *)
Example second_bad_field_hides_first H : let bad := mkValue KindFunc [] in
  err (WithFields H [(string_bytes "a", bad); (string_bytes "b", bad)] NewEntry) = string_bytes ", can not add field " ++ [34; 98; 34].
Proof. reflexivity. Qed.

(** A field with the name of a part of the line is printed as that part: its value
    is lost. *)
Example reserved_field_lost H : let e := mkEntry {[ string_bytes "msg" := mkValue KindOther (string_bytes "value") ]} None InfoLevel None (string_bytes "text") None [] in
  daemonFormat H true true true [] false e [] = string_bytes "text text" ++ [10].
Proof. reflexivity. Qed.

(** ** Lines of the daemon *)

(** The parts of a line, with a space between two. *)
Fixpoint joined (parts : list bytes) : bytes := match parts with [] => [] | [x] => x | x :: parts => x ++ [32] ++ joined parts end.

Lemma put_fields has H e keys buf : buf ≠ [] → foldl (putField H has e) buf keys = joined (buf :: (fieldText H has e <$> keys)).
Proof.
  revert buf. induction keys as [|k keys IH]; intros buf Hb; [done|]. cbn [foldl fmap list_fmap]. unfold putField at 2. rewrite bool_decide_false by done.
  rewrite IH by (intros E; apply app_eq_nil in E as [E _]; by apply app_eq_nil in E as [E _]). cbn. destruct (fieldText H has e <$> keys); cbn; by rewrite <- !app_assoc.
Qed.

Lemma put_first H has e k keys : fieldText H has e k ≠ [] → foldl (putField H has e) [] (k :: keys) = joined (fieldText H has e <$> k :: keys).
Proof. intros Hk. cbn [foldl]. change (putField H has e [] k) with (fieldText H has e k). by apply put_fields. Qed.

(** A line with a time: the time, the level, the text, and the fields by name. *)
Theorem daemon_line H e t : Time e = Some t → Caller e = None → h_stamp H t ≠ [] →
  Forall (λ k, k ∉ [FieldKeyTime; FieldKeyLevel; FieldKeyMsg]) (map_to_list (Data e)).*1 →
  daemonFormat H false false false [] false e [] =
    joined (h_stamp H t :: ToUpper (h_upper H) (LevelString (Level e)) :: Message e ::
      ((λ k, k ++ [61] ++ default [] (v_text <$> Data e !! k)) <$> sortStrings (map_to_list (Data e)).*1)) ++ [10].
Proof.
  intros Ht Hc Hs Hk. unfold daemonFormat, HasCaller, orderedKeys. cbn [andb app]. f_equal.
  assert (H1 : fieldText H false e FieldKeyTime = h_stamp H t) by (unfold fieldText; cbn; by rewrite Ht).
  rewrite put_first by (by rewrite H1). rewrite !fmap_cons, H1. apply (f_equal (λ ks, joined (_ :: _ :: _ :: ks))).
  assert (Hp : sortStrings (map_to_list (Data e)).*1 ≡ₚ (map_to_list (Data e)).*1) by apply merge_sort_Permutation.
  apply list_fmap_ext. intros i k Hi. apply list_elem_of_lookup_2 in Hi. rewrite Hp in Hi. rewrite Forall_forall in Hk. specialize (Hk k Hi).
  rewrite !not_elem_of_cons in Hk. destruct Hk as (K1 & K2 & K3 & _). unfold fieldText. rewrite !bool_decide_false by done. rewrite !andb_false_r.
  apply list_elem_of_fmap in Hi as ([k' v] & -> & Hi). apply elem_of_map_to_list in Hi. cbn. by rewrite Hi.
Qed.

(** ** The files of the client's log *)

Lemma bytesLe_refl a : bytesLe a a = true.
Proof. induction a as [|x a IH]; [done|]. cbn. by rewrite Z.eqb_refl. Qed.
Lemma bytesLe_app x a b : bytesLe (x ++ a) (x ++ b) = bytesLe a b.
Proof. induction x as [|c x IH]; [done|]. cbn. by rewrite Z.eqb_refl. Qed.
Lemma bytesLe_antisym a b : bytesLe a b = true → bytesLe b a = true → a = b.
Proof.
  revert b. induction a as [|x a IH]; intros [|y b] H1 H2; [done..|]. cbn in H1, H2. rewrite Z.eqb_sym in H2.
  destruct (Z.eqb_spec x y) as [->|Hne]; [f_equal; by apply IH|lia].
Qed.

#[export] Instance bytesLe_total : Total (λ x y : bytes, Is_true (bytesLe x y)).
Proof.
  intros a b. revert b. induction a as [|x a IH]; intros [|y b]; cbn; [by left..|by right|]. rewrite (Z.eqb_sym y x).
  destruct (Z.eqb_spec x y); [apply IH|]. destruct (Z.ltb_spec x y); [by left|right]. destruct (Z.ltb_spec y x); [done|lia].
Qed.
#[export] Instance bytesLe_trans : Transitive (λ x y : bytes, Is_true (bytesLe x y)).
Proof.
  intros a b. revert a. induction b as [|y b IH]; intros [|x a] [|z c]; cbn; try done.
  destruct (Z.eqb_spec x y) as [->|]; [destruct (Z.eqb_spec y z); [apply IH|done]|].
  destruct (Z.eqb_spec y z) as [->|]; intros H1 H2; [by rewrite (proj2 (Z.eqb_neq x z))|]. apply Is_true_true in H1, H2. rewrite (proj2 (Z.eqb_neq x z)) by lia. apply Is_true_true. lia.
Qed.

Lemma sortStrings_split n l x y : x ∈ take n (sortStrings l) → y ∈ drop n (sortStrings l) → bytesLe x y = true.
Proof.
  assert (Hs : StronglySorted (λ x y : bytes, Is_true (bytesLe x y)) (sortStrings l)) by apply (StronglySorted_merge_sort _).
  rewrite <- (take_drop n (sortStrings l)) in Hs. intros Hx Hy. apply Is_true_true. by apply (StronglySorted_app_1_elem_of (λ x y : bytes, Is_true (bytesLe x y)) _ _ x y Hs).
Qed.

Lemma removeAll_lookup names d : ∃ d', removeAll (λ _, true) names d = (Ret (), d') ∧ ∀ k, d' !! k = if bool_decide (k ∈ names) then None else d !! k.
Proof.
  revert d. induction names as [|n names IH]; intros d; [by eexists|]. cbn. destruct (IH (delete n d)) as (d' & -> & Hd'). exists d'. split; [done|]. intros k. rewrite Hd'.
  destruct (decide (k = n)) as [->|Hne]; [rewrite lookup_delete_eq, (bool_decide_true (n ∈ n :: names)) by left; by case_if|].
  rewrite lookup_delete_ne by done. rewrite (bool_decide_ext (k ∈ n :: names) (k ∈ names)); [done|]. rewrite elem_of_cons. naive_solver.
Qed.

Lemma logFiles_elem (d : Dir) n : n ∈ logFiles (map_to_list d) ↔ d !! n = Some false ∧ HasSuffix n (string_bytes ".log") = true.
Proof.
  unfold logFiles. rewrite list_elem_of_fmap. split.
  - intros ([k b] & -> & Hin). apply list_elem_of_In, filter_In in Hin as [Hin Hf]. apply list_elem_of_In, elem_of_map_to_list in Hin. unfold isLogFile in Hf. cbn in *. destruct b; [done|]. by split.
  - intros [Hd Hs]. exists (n, false). split; [done|]. apply list_elem_of_In, filter_In. split; [by apply list_elem_of_In, elem_of_map_to_list|]. done.
Qed.

Lemma logFiles_nodup (d : Dir) : NoDup (logFiles (map_to_list d)).
Proof.
  unfold logFiles. assert (Hd : NoDup (map_to_list d).*1) by apply NoDup_fst_map_to_list. revert Hd. generalize (map_to_list d). intros l. induction l as [|[k b] l IH]; intros Hd; [constructor|].
  cbn in Hd. apply NoDup_cons in Hd as [Hk Hd]. cbn. destruct (isLogFile (k, b)); [|by apply IH]. cbn. apply NoDup_cons. split; [|by apply IH]. contradict Hk.
  apply list_elem_of_fmap in Hk as (kv & -> & Hin). apply list_elem_of_In, filter_In in Hin as [Hin _]. apply list_elem_of_fmap. exists kv. by rewrite list_elem_of_In.
Qed.

(** Cleaning leaves at most 25 files of the log, the ones whose names come last,
    and nothing else is touched. *)
Theorem old_logs_removed (d : Dir) : ∃ d', RemoveOldClientLogFiles (Ret ()) true (λ _, true) d = (Ret (), d') ∧ d' ⊆ d ∧
  len (logFiles (map_to_list d')) = Z.min maxClientLogFiles (len (logFiles (map_to_list d))) ∧
  (∀ n, n ∉ logFiles (map_to_list d) → d' !! n = d !! n) ∧
  (∀ r k, r ∈ logFiles (map_to_list d) → d' !! r = None → k ∈ logFiles (map_to_list d') → bytesLe r k = true).
Proof.
  unfold RemoveOldClientLogFiles. set (logs := logFiles (map_to_list d)). destruct (Z.ltb_spec maxClientLogFiles (len logs)) as [Hlt|Hge].
  2: { exists d. split_and!; [done|done|fold logs; lia|done|]. intros r k Hr Hn _. apply logFiles_elem in Hr as [Hr _]. congruence. }
  set (n := Z.to_nat _). destruct (removeAll_lookup (take n (sortStrings logs)) d) as (d' & -> & Hd'). exists d'.
  assert (HP : sortStrings logs ≡ₚ logs) by apply merge_sort_Permutation.
  assert (HND : NoDup (take n (sortStrings logs) ++ drop n (sortStrings logs))) by (rewrite take_drop, HP; apply logFiles_nodup).
  apply NoDup_app in HND as (_ & Hdisj & HND2).
  assert (Hin : ∀ x, x ∈ logs ↔ x ∈ take n (sortStrings logs) ∨ x ∈ drop n (sortStrings logs)) by (intros x; by rewrite <- elem_of_app, take_drop, HP).
  assert (Hkept : logFiles (map_to_list d') ≡ₚ drop n (sortStrings logs)).
  { apply NoDup_Permutation; [apply logFiles_nodup|done|]. intros x. rewrite logFiles_elem, Hd'. case_bool_decide as Ht; [split; [by intros [? _]|intros; by edestruct Hdisj]|].
    rewrite <- logFiles_elem. fold logs. rewrite Hin. naive_solver. }
  split_and!; [done|apply map_subseteq_spec; intros k b; rewrite Hd'; by case_bool_decide| | |].
  - unfold len. rewrite Hkept, length_drop, HP. unfold n, maxClientLogFiles, len in *. lia.
  - intros x Hx. rewrite Hd'. case_bool_decide; [|done]. destruct Hx. apply Hin. by left.
  - intros r k Hr Hnone Hk. rewrite Hkept in Hk. rewrite Hd' in Hnone. apply logFiles_elem in Hr as Hr'. case_bool_decide; [|destruct Hr'; congruence]. by eapply sortStrings_split.
Qed.

Lemma suffix_of (a b : bytes) : HasSuffix (a ++ b) b = true.
Proof.
  unfold HasSuffix. rewrite length_app, Nat.add_sub, drop_app_length. rewrite bool_decide_true by done. rewrite andb_true_r. apply Nat.leb_le. lia.
Qed.

(** Names sort by time. *)
Lemma padded_2 n : 0 ≤ n < 100 → padded 2 n = [48 + n / 10; 48 + n `mod` 10].
Proof.
  intros Hn. assert (HF : Forall (λ n, padded 2 n = [48 + n / 10; 48 + n `mod` 10]) (seqZ 0 100)) by (by apply (bool_decide_unpack _)).
  rewrite Forall_forall in HF. apply HF, elem_of_seqZ. lia.
Qed.
Lemma padded_4 n : 0 ≤ n < 10000 → padded 4 n = padded 2 (n / 100) ++ padded 2 (n `mod` 100).
Proof.
  intros Hn. assert (HF : Forall (λ n, padded 4 n = padded 2 (n / 100) ++ padded 2 (n `mod` 100)) (seqZ 0 10000)) by (apply (bool_decide_unpack _); vm_compute; exact I).
  rewrite Forall_forall in HF. apply HF, elem_of_seqZ. lia.
Qed.
Lemma padded_lt a b x y : 0 ≤ a < b → b < 100 → bytesLe (padded 2 a ++ x) (padded 2 b ++ y) = true.
Proof.
  intros Ha Hb. rewrite !padded_2 by lia. cbn -[Z.div Z.modulo Z.add]. destruct (Z.eqb_spec (48 + a / 10) (48 + b / 10)); [destruct (Z.eqb_spec (48 + a `mod` 10) (48 + b `mod` 10))|];
  Z.to_euclidean_division_equations; lia.
Qed.
Lemma padded_lt_4 a b x y : 0 ≤ a < b → b < 10000 → bytesLe (padded 4 a ++ x) (padded 4 b ++ y) = true.
Proof.
  intros Ha Hb. rewrite !padded_4 by lia. rewrite <- !app_assoc.
  destruct (decide (a / 100 = b / 100)) as [E|]; [rewrite E, bytesLe_app|]; apply padded_lt; Z.to_euclidean_division_equations; lia.
Qed.

Definition moment_ok (t : Moment) : Prop :=
  0 ≤ t_Year t < 10000 ∧ 1 ≤ t_Month t ≤ 12 ∧ 1 ≤ t_Day t ≤ 31 ∧ 0 ≤ t_Hour t < 24 ∧ 0 ≤ t_Minute t < 60.
(** The order of calendar times. *)
Definition earlier (s t : Moment) : Prop :=
  t_Year s < t_Year t ∨ (t_Year s = t_Year t ∧ (t_Month s < t_Month t ∨ (t_Month s = t_Month t ∧ (t_Day s < t_Day t ∨
    (t_Day s = t_Day t ∧ (t_Hour s < t_Hour t ∨ (t_Hour s = t_Hour t ∧ t_Minute s < t_Minute t))))))).

Lemma names_by_time s t p q : moment_ok s → moment_ok t → earlier s t → bytesLe (logName s p) (logName t q) = true.
Proof.
  intros (?&?&?&?&?) (?&?&?&?&?) He. unfold logName, timeStr. rewrite <- !app_assoc.
  destruct He as [?|[-> [?|[-> [?|[-> [?|[-> ?]]]]]]]]; [apply padded_lt_4; lia|rewrite !bytesLe_app; apply padded_lt; lia..].
Qed.

(** The file a client opens is there after the cleaning, when the files of the log
    are of earlier times. *)
Theorem new_log_survives (d : Dir) t pid : moment_ok t →
  (∀ n, n ∈ logFiles (map_to_list d) → ∃ s q, n = logName s q ∧ moment_ok s ∧ earlier s t) →
  d !! logName t pid = None →
  ∃ d1 d2, NewClientLogFile (Ret ()) t pid true d = (Ret (logName t pid), d1) ∧
    RemoveOldClientLogFiles (Ret ()) true (λ _, true) d1 = (Ret (), d2) ∧ d2 !! logName t pid = Some false.
Proof.
  intros Ht Hold Hnone. cbn. rewrite Hnone. cbn. set (d1 := <[logName t pid := false]> d). destruct (old_logs_removed d1) as (d2 & E2 & Hsub & Hlen & _ & Hord).
  exists d1, d2. split; [done|]. split; [done|]. destruct (d2 !! logName t pid) as [b|] eqn:E.
  { rewrite map_subseteq_spec in Hsub. apply Hsub in E. unfold d1 in E. rewrite lookup_insert_eq in E. congruence. }
  exfalso. assert (Hnew : logName t pid ∈ logFiles (map_to_list d1)).
  { apply logFiles_elem. split; [apply lookup_insert_eq|]. unfold logName. rewrite !app_assoc. apply suffix_of. }
  assert (∃ k, k ∈ logFiles (map_to_list d2)) as [k Hk].
  { destruct (logFiles (map_to_list d2)) as [|k ks]; [|exists k; left]. rewrite len_nil in Hlen. destruct (logFiles (map_to_list d1)); [by apply elem_of_nil in Hnew|]. unfold maxClientLogFiles, len in Hlen. cbn in Hlen. lia. }
  pose proof (Hord _ _ Hnew E Hk) as Hle. apply logFiles_elem in Hk as [Hk Hsuf]. assert (k ≠ logName t pid) as Hne by congruence.
  rewrite map_subseteq_spec in Hsub. apply Hsub in Hk. unfold d1 in Hk. rewrite lookup_insert_ne in Hk by done.
  destruct (Hold k) as (s & q & -> & Hs & He); [by apply logFiles_elem|]. apply Hne. symmetry. apply bytesLe_antisym; [done|]. by apply names_by_time.
Qed.

(** ** Concrete calls *)

Definition host0 : LogHost := mkLogHost id id id (λ _, string_bytes "2026-01-02T03:04:05Z") (λ _ _, true) (λ format _, format).
Definition proc0 (l : Logger) : Proc := mkProc l [] callerCache0 [] [] [] [] None.
Definition call0 (pick : option nat) (level : Z) (text : string) : LogCall := mkLogCall (mkCallEnv 0 [] [] pick) level (string_bytes text) [].
Definition calls0 : list LogCall := [call0 None InfoLevel "started"; call0 (Some 0%nat) DebugLevel "detail"; call0 (Some 0%nat) WarnLevel "slow"].

Lemma ready0 l : pool_clean l → ReportCaller l = false → log_ready host0 (proc0 l).
Proof. intros Hc Hr. by split. Qed.

Lemma log_keeps_enabled_lines_witness :
  p_out (foldl (runCall host0) (proc0 stdLogger) calls0) = [(1, string_bytes "started" ++ [10]); (1, string_bytes "slow" ++ [10])].
Proof.
  destruct (log_keeps_enabled_lines host0 calls0 (proc0 stdLogger)) as (_ & _ & E & _).
  - apply ready0; [constructor|reflexivity].
  - repeat constructor.
  - exact E.
Defined.

(** A caller in another package is found, past the frames of the package itself. *)
Example caller_found :
  let here f := mkFrame (string_bytes "github.com/enfein/mieru/v3/pkg/log." ++ string_bytes f) (string_bytes "entry.go") 200 in
  let main := mkFrame (string_bytes "github.com/enfein/mieru/v3/pkg/cli.run.func1") (string_bytes "client.go") 7 in
  let root := mkFrame (string_bytes "runtime.main") (string_bytes "proc.go") 1 in
  let runtime := mkFrame (string_bytes "runtime.Callers") (string_bytes "extern.go") 1 in
  (getCaller (fr_Function <$> [runtime; here "getCaller.func1"]) [runtime; here "getCaller"; here "(*Entry).log"; here "(*Entry).Log"; here "(*Entry).Logf"; here "Infof"; main; root] callerCache0).1
  = Some main.
Proof. vm_compute. reflexivity. Qed.

End Log.
Export Log.
