(* ===== verification/MetricsJson.v ===== *)
(** * The metrics as text: pkg/metrics/metric.go, export.go and registry.go

    [MarshalJSON] of a list of groups up to the call of [json.Indent], which
    rejects a text that is not JSON and otherwise changes white space only; the
    loop that logs the metrics.  A reader of JSON objects with plain keys and
    integers, to say what the text means. *)

From S2P Require Import Prelude Net PanelText Url Metrics Log.
From stdpp Require Import sorting.
From Stdlib Require Import ZifyBool.
Local Open Scope Z_scope.

Module MetricsJson.

(** ** JSON objects *)

Inductive json := JNum (n : Z) | JObj (fields : list (bytes * json)).

Definition quoted (k : bytes) : bytes := [34] ++ k ++ [34].
Definition commas (parts : list bytes) : bytes := match parts with [] => [] | p :: ps => p ++ concat ((λ q, 44 :: q) <$> ps) end.
Fixpoint render (j : json) : bytes :=
  match j with
  | JNum n => Itoa n
  | JObj fields => [123] ++ commas ((λ kv, quoted kv.1 ++ [58; 32] ++ render kv.2) <$> fields) ++ [125]
  end.

(** A reader: the text of a key up to the quote, white space, integers, objects. *)
Fixpoint spanKey (s : bytes) : option (bytes * bytes) :=
  match s with
  | [] => None
  | c :: s => if c =? 34 then Some ([], s) else if (c =? 92) || (c <? 32) then None
              else match spanKey s with Some (k, r) => Some (c :: k, r) | None => None end
  end.
Fixpoint skipSpace (s : bytes) : bytes :=
  match s with c :: s' => if (c =? 32) || (c =? 10) || (c =? 13) || (c =? 9) then skipSpace s' else s | [] => [] end.
Fixpoint spanDigits (s : bytes) : bytes * bytes :=
  match s with c :: s' => if is_digit c then let '(d, r) := spanDigits s' in (c :: d, r) else ([], s) | [] => ([], []) end.
Definition parseInt (s : bytes) : option (Z * bytes) :=
  let '(neg, s) := match s with 45 :: s => (true, s) | _ => (false, s) end in
  let '(d, r) := spanDigits s in
  match d with
  | [] => None
  | 48 :: _ :: _ => None
  | _ => let v := digits_value 0 d in Some (if neg : bool then - v else v, r)
  end.
Fixpoint parseValue (fuel : nat) (s : bytes) : option (json * bytes) :=
  match fuel with
  | O => None
  | S fuel =>
      match skipSpace s with
      | 123 :: s =>
          match skipSpace s with
          | 125 :: s => Some (JObj [], s)
          | s => match parseFields fuel s with Some (fs, r) => Some (JObj fs, r) | None => None end
          end
      | s => match parseInt s with Some (n, r) => Some (JNum n, r) | None => None end
      end
  end
with parseFields (fuel : nat) (s : bytes) : option (list (bytes * json) * bytes) :=
  match fuel with
  | O => None
  | S fuel =>
      match skipSpace s with
      | 34 :: s =>
          match spanKey s with
          | None => None
          | Some (k, s) =>
              match skipSpace s with
              | 58 :: s =>
                  match parseValue fuel s with
                  | None => None
                  | Some (v, s) =>
                      match skipSpace s with
                      | 44 :: s => match parseFields fuel s with Some (fs, r) => Some ((k, v) :: fs, r) | None => None end
                      | 125 :: s => Some ([(k, v)], s)
                      | _ => None
                      end
                  end
              | _ => None
              end
          end
      | _ => None
      end
  end.
(** Each level and each field costs a byte of the text. *)
Definition parseJSON (s : bytes) : option json :=
  match parseValue (length s) s with Some (j, r) => if bool_decide (skipSpace r = []) then Some j else None | None => None end.

(** ** Groups as text *)

Definition metricName (m : Metric) : string := match m with MCounter c => c_name c | MGauge g => g_name g end.
Definition metricValue (m : Metric) : Z := match m with MCounter c => c_value c | MGauge g => g_value g end.

Definition userMetricGroupPrefix : bytes := string_bytes "user - ".
Definition hasPrefix (p s : bytes) : bool := bool_decide (take (length p) s = p).
Definition groupName (g : MetricGroup) : bytes := string_bytes (mg_name g).
Definition isUser (g : MetricGroup) : bool := hasPrefix userMetricGroupPrefix (groupName g).
Definition userName (g : MetricGroup) : bytes := drop (length userMetricGroupPrefix) (groupName g).

(** The values of a group by name, and its names in order. *)
Definition groupValues (g : MetricGroup) : gmap bytes Z :=
  list_to_map ((λ kv : string * Metric, (string_bytes (metricName kv.2), metricValue kv.2)) <$> map_to_list (mg_metrics g)).
Definition groupNames (g : MetricGroup) : list bytes := sortStrings ((λ kv : string * Metric, string_bytes (metricName kv.2)) <$> map_to_list (mg_metrics g)).

Definition marshalGroup (g : MetricGroup) : bytes :=
  commas ((λ name, quoted name ++ [58; 32] ++ Itoa (default 0 (groupValues g !! name))) <$> groupNames g).

Definition opened (name : bytes) : bytes := quoted name ++ [58; 32; 123].

(** The loop over the groups; [processing] is its flag. *)
Fixpoint marshalLoop (processing : bool) (l : list MetricGroup) : bytes :=
  match l with
  | [] => []
  | g :: l =>
      if negb (isUser g) then
        opened (groupName g) ++ marshalGroup g ++ [125] ++ (match l with [] => [] | _ => [44] end) ++ marshalLoop processing l
      else
        (if processing then [] else opened (string_bytes "users")) ++ opened (userName g) ++ marshalGroup g ++ [125]
        ++ match l with
           | next :: _ => if isUser next then [44] ++ marshalLoop true l else [125; 44] ++ marshalLoop false l
           | [] => [125] ++ marshalLoop false l
           end
  end.

Section Host.
Context (H : LogHost).

Definition lowerName (g : MetricGroup) : bytes := ToLower (h_lower H) (groupName g).
Definition groupLe (a b : MetricGroup) : Prop := Is_true (bytesLe (lowerName a) (lowerName b)).
#[local] Instance groupLe_dec : RelDecision groupLe.
Proof. intros a b. unfold groupLe. apply _. Defined.
Definition sortGroups (l : list MetricGroup) : list MetricGroup := merge_sort groupLe l.
Definition rawJSON (l : list MetricGroup) : bytes := [123] ++ marshalLoop false (sortGroups l) ++ [125].

Definition enabledGroups (reg : registry) : list MetricGroup := List.filter mg_enableLogging (map_to_list reg).*2.
Definition GetMetricsAsJSON (reg : registry) : bytes := rawJSON (enabledGroups reg).

(** ** The log of the metrics *)

Definition NewLogMsg (g : MetricGroup) : bytes := string_bytes "[metrics - " ++ groupName g ++ string_bytes "]".
Definition NewLogFields (g : MetricGroup) : list (bytes * Value) :=
  (λ kv : string * Metric, (string_bytes (metricName kv.2), mkValue KindOther (Itoa (metricValue kv.2)))) <$> map_to_list (mg_metrics g).

(** [log.WithFields(...).Infof(...)]: the message is the format. *)
Definition logGroup (env : CallEnv) (g : MetricGroup) (p : Proc) : Proc :=
  let '(e, l) := Logger_WithFields H (ce_pick env) (NewLogFields g) (p_logger p) in
  Entry_Infof H env (NewLogMsg g) [] e (onLogger (λ _, l) p).
Definition LogMetricsNow (env : CallEnv) (reg : registry) (p : Proc) : Proc :=
  foldl (λ p g, logGroup env g p) (Infof H env (string_bytes "[metrics]") [] p) (sortGroups (enabledGroups reg)).
End Host.

(** The state of export.go: the ticker runs or not, the token of stopLogging, and
    the loops that are alive. *)
Record exporter := mkExporter {
  tickerOn : option bool; logDuration : Z; stopToken : bool; loops : Z; metricsDump : bool; metricsDumpFilePath : bytes }.
Definition exporter0 : exporter := mkExporter None (10 * 60 * 10 ^ 9) false 0 false [].

Definition EnableLogging (x : exporter) : exporter :=
  mkExporter (Some true) (logDuration x) (stopToken x) (loops x + 1) (metricsDump x) (metricsDumpFilePath x).
Definition DisableLogging (x : exporter) : exporter :=
  mkExporter (match tickerOn x with Some _ => Some false | None => None end) (logDuration x) true (loops x) (metricsDump x) (metricsDumpFilePath x).
Definition EnableMetricsDump (x : exporter) : outcome exporter :=
  if bool_decide (metricsDumpFilePath x = []) then Err (Errorf "can't enable metrics dump: file path is not set")
  else Ret (mkExporter (tickerOn x) (logDuration x) (stopToken x) (loops x) true (metricsDumpFilePath x)).
Definition DisableMetricsDump (x : exporter) : exporter :=
  mkExporter (tickerOn x) (logDuration x) (stopToken x) (loops x) false (metricsDumpFilePath x).
Definition SetLoggingDuration (duration : Z) (x : exporter) : outcome exporter :=
  if duration <=? 0 then Err (Errorf "duration must be a positive number")
  else Ret (mkExporter (tickerOn x) duration (stopToken x) (loops x) (metricsDump x) (metricsDumpFilePath x)).
Definition SetMetricsDumpFilePath (path : bytes) (x : exporter) : exporter :=
  mkExporter (tickerOn x) (logDuration x) (stopToken x) (loops x) (metricsDump x) path.
(** [logMetricsLoop]: a loop takes the token and ends, or a tick and logs (and
    dumps when it is to). *)
Inductive loopTurn := Stopped | Logged (dump : bool).
Definition logMetricsLoop (tick : bool) (x : exporter) : option (loopTurn * exporter) :=
  if loops x <=? 0 then None
  else if tick then match tickerOn x with Some true => Some (Logged (metricsDump x), x) | _ => None end
  else if stopToken x then Some (Stopped, mkExporter (tickerOn x) (logDuration x) false (loops x - 1) (metricsDump x) (metricsDumpFilePath x))
  else None.

(** * Properties *)

(** ** Reading what was written *)

Section JsonInd.
Context (P : json → Prop) (Hn : ∀ n, P (JNum n)) (Ho : ∀ fs, Forall (λ kv, P kv.2) fs → P (JObj fs)).
Fixpoint json_nested_ind (j : json) : P j :=
  match j with
  | JNum n => Hn n
  | JObj fs => Ho fs ((fix go fs : Forall (λ kv, P kv.2) fs := match fs with [] => List.Forall_nil _ | kv :: fs => List.Forall_cons _ kv fs (json_nested_ind kv.2) (go fs) end) fs)
  end.
End JsonInd.

(** Keys without quotes, backslashes and control bytes; integers of 64 bits. *)
Definition plain (k : bytes) : Prop := Forall (λ c, c ≠ 34 ∧ c ≠ 92 ∧ 32 ≤ c) k.
Inductive json_ok : json → Prop :=
  | ok_num n : - 2 ^ 63 < n < 2 ^ 63 → json_ok (JNum n)
  | ok_obj fs : Forall (λ kv, plain kv.1 ∧ json_ok kv.2) fs → json_ok (JObj fs).

Fixpoint jsize (j : json) : nat := match j with JNum _ => 1 | JObj fs => S (sum_list ((λ kv, S (jsize kv.2)) <$> fs)) end.

Lemma spanKey_plain k r : plain k → spanKey (k ++ 34 :: r) = Some (k, r).
Proof.
  intros Hk. induction k as [|c k IH]; [done|]. apply Forall_cons in Hk as [(H1 & H2 & H3) Hk]. cbn. rewrite IH by done.
  rewrite (proj2 (Z.eqb_neq c 34)), (proj2 (Z.eqb_neq c 92)), (proj2 (Z.ltb_ge c 32)) by lia. done.
Qed.

Definition ends (r : bytes) : Prop := match r with c :: _ => is_digit c = false | [] => True end.

Lemma spanDigits_all d r : forallb is_digit d = true → ends r → spanDigits (d ++ r) = (d, r).
Proof.
  intros Hd Hr. induction d as [|c d IH]; [destruct r as [|c r]; [done|cbn in *; by rewrite Hr]|]. cbn in Hd |- *. apply andb_true_iff in Hd as [Hc Hd]. by rewrite Hc, IH.
Qed.

Lemma digits_head fuel n : 1 ≤ n < 10 ^ Z.of_nat fuel → ∃ c r, digits fuel n = c :: r ∧ 49 ≤ c ≤ 57.
Proof.
  revert n. induction fuel as [|fuel IH]; intros n Hn; [cbn in Hn; lia|]. rewrite Nat2Z.inj_succ, Z.pow_succ_r in Hn by lia. cbn [digits].
  destruct (Z.ltb_spec n 10); [exists (48 + n), []; split; [done|lia]|]. destruct (IH (n / 10)) as (c & r & -> & Hc); [Z.to_euclidean_division_equations; lia|]. by eexists _, _.
Qed.

(** The digits of a number: all digits, of that value, without a leading zero. *)
Lemma digits_20 n : 0 ≤ n < 2 ^ 63 → let d := digits 20 n in
  forallb is_digit d = true ∧ digits_value 0 d = n ∧ (d = [48] ∨ ∃ c r, d = c :: r ∧ 49 ≤ c ≤ 57).
Proof.
  intros Hn. destruct (digits_spec 20 n) as (_ & Hd & Hv); [cbn; lia|lia|]. split_and!; [done|done|].
  destruct (decide (n = 0)) as [->|]; [by left|right]. apply digits_head. cbn. lia.
Qed.

(** A byte that starts a number. *)
Definition numByte (c : Z) : Prop := c = 45 ∨ 48 ≤ c ≤ 57.
Lemma numByte_cases c : numByte c → c = 45 ∨ c = 48 ∨ c = 49 ∨ c = 50 ∨ c = 51 ∨ c = 52 ∨ c = 53 ∨ c = 54 ∨ c = 55 ∨ c = 56 ∨ c = 57.
Proof. unfold numByte. lia. Qed.

Lemma Itoa_head n : - 2 ^ 63 < n < 2 ^ 63 → ∃ c r, Itoa n = c :: r ∧ numByte c.
Proof.
  intros Hn. unfold Itoa, numByte. case_if; [by eexists _, _; split; [|left]|]. destruct (digits_20 n) as (_ & _ & [->|(c & r & -> & Hc)]); [lia|..]; eexists _, _; (split; [done|]); lia.
Qed.

Lemma parseInt_digits (neg : bool) n r : 0 ≤ n < 2 ^ 63 → ends r → parseInt ((if neg then [45] else []) ++ digits 20 n ++ r) = Some (if neg then - n else n, r).
Proof.
  intros Hn Hr. destruct (digits_20 n Hn) as (Hd & Hv & Hh). unfold parseInt.
  assert (E : match (if neg then [45] else []) ++ digits 20 n ++ r with 45 :: s => (true, s) | _ => (false, (if neg then [45] else []) ++ digits 20 n ++ r) end = (neg, digits 20 n ++ r)).
  { destruct neg; [done|]. destruct Hh as [->|(c & t & -> & Hc)]; [done|]. cbn. destruct (numByte_cases c) as [->|Hc']; [by right; lia|lia|]. by destruct_or! Hc'; subst c. }
  rewrite E, spanDigits_all by done. rewrite Hv. destruct Hh as [->|(c & t & -> & Hc)]; [done|].
  destruct (numByte_cases c) as [->|Hc']; [by right; lia|lia|]. destruct_or! Hc'; subst c; [lia|done..].
Qed.

Lemma parseInt_Itoa n r : - 2 ^ 63 < n < 2 ^ 63 → ends r → parseInt (Itoa n ++ r) = Some (n, r).
Proof.
  intros Hn Hr. unfold Itoa. case_if.
  - pose proof (parseInt_digits true (- n) r) as E. rewrite Z.opp_involutive in E. apply E; [lia|done].
  - apply (parseInt_digits false n r); [lia|done].
Qed.

Lemma parseValue_num fuel n r : - 2 ^ 63 < n < 2 ^ 63 → ends r → parseValue (S fuel) (Itoa n ++ r) = Some (JNum n, r).
Proof.
  intros Hn Hr. pose proof (parseInt_Itoa n r Hn Hr) as E. destruct (Itoa_head n Hn) as (c & t & Ei & Hc). rewrite Ei in *. apply numByte_cases in Hc.
  cbn [parseValue app] in *. destruct_or! Hc; subst c; cbn [skipSpace Z.eqb Pos.eqb orb]; by rewrite E.
Qed.

Lemma parseValue_space fuel s : parseValue fuel (32 :: s) = parseValue fuel s.
Proof. by destruct fuel. Qed.

Lemma sum_cons x l : sum_list (x :: l) = (x + sum_list l)%nat.
Proof. done. Qed.

Definition field_text (kv : bytes * json) : bytes := quoted kv.1 ++ [58; 32] ++ render kv.2.

(** What the reader does on a value, for the fields of an object. *)
Definition reads (j : json) : Prop := ∀ fuel r, (jsize j ≤ fuel)%nat → ends r → parseValue fuel (render j ++ r) = Some (j, r).

Lemma parse_fields fs : ∀ kv fuel r, Forall (λ kv, plain kv.1 ∧ reads kv.2) (kv :: fs) → (sum_list ((λ kv, S (jsize kv.2)) <$> kv :: fs) ≤ fuel)%nat →
  parseFields fuel (commas (field_text <$> kv :: fs) ++ 125 :: r) = Some (kv :: fs, r).
Proof.
  induction fs as [|kv' fs IH]; intros [k v] fuel r Hf Hfuel; apply Forall_cons in Hf as [[Hk Hv] Hf]; rewrite fmap_cons, sum_cons in Hfuel; cbn [snd] in Hfuel; (destruct fuel as [|fuel]; [lia|]); cbn [fst snd] in *.
  - cbn. rewrite <- !app_assoc. cbn. rewrite spanKey_plain by done. cbn [skipSpace Z.eqb Pos.eqb orb]. rewrite parseValue_space. rewrite Hv; [done|lia|done].
  - cbn [commas fmap list_fmap concat]. unfold field_text at 1. cbn [fst snd]. unfold quoted. rewrite <- !app_assoc. cbn [app parseFields skipSpace Z.eqb Pos.eqb orb].
    rewrite spanKey_plain by done. cbn [skipSpace Z.eqb Pos.eqb orb]. rewrite parseValue_space. rewrite Hv; [|lia|done].
    cbn [skipSpace Z.eqb Pos.eqb orb]. pose proof (IH kv' fuel r Hf ltac:(lia)) as E. cbn [commas fmap list_fmap concat] in E. rewrite <- app_assoc in E. by rewrite E.
Qed.

Lemma render_reads j : json_ok j → reads j.
Proof.
  induction j as [n|fs IH] using json_nested_ind; intros Hok fuel r Hfuel Hr; inversion Hok as [? Hn|? Hfs]; subst; (destruct fuel as [|fuel]; [cbn in Hfuel; lia|]).
  - by apply parseValue_num.
  - assert (Hrd : Forall (λ kv, plain kv.1 ∧ reads kv.2) fs).
    { rewrite Forall_forall in *. intros kv Hin. destruct (Hfs kv Hin) as [? ?]. split; [done|]. by apply IH. }
    destruct fs as [|kv fs]; [done|]. cbn in Hfuel. cbn [render]. rewrite <- !app_assoc. change (λ kv0 : bytes * json, quoted kv0.1 ++ [58; 32] ++ render kv0.2) with field_text.
    pose proof (parse_fields fs kv fuel r Hrd ltac:(cbn; lia)) as E. cbn [app parseValue skipSpace Z.eqb Pos.eqb orb].
    change (commas (field_text <$> kv :: fs) ++ [125] ++ r) with (commas (field_text <$> kv :: fs) ++ 125 :: r).
    assert (∃ t, commas (field_text <$> kv :: fs) ++ 125 :: r = 34 :: t) as [t Et] by (cbn; eauto). rewrite Et in *. cbn [skipSpace Z.eqb Pos.eqb orb]. by rewrite E.
Qed.

Lemma commas_long ps : (sum_list (length <$> ps) ≤ length (commas ps))%nat.
Proof.
  destruct ps as [|p ps]; [done|]. cbn. rewrite length_app. enough (sum_list (length <$> ps) ≤ length (concat ((λ q, 44%Z :: q) <$> ps)))%nat by lia.
  induction ps as [|q ps IH]; [done|]. cbn. rewrite length_app. lia.
Qed.

Lemma jsize_text j : json_ok j → (jsize j ≤ length (render j))%nat.
Proof.
  induction j as [n|fs IH] using json_nested_ind; intros Hok; inversion Hok as [? Hn|? Hfs]; subst.
  - destruct (Itoa_head n Hn) as (c & r & E & _). cbn. rewrite E. cbn. lia.
  - cbn [render jsize]. change (λ kv : bytes * json, quoted kv.1 ++ [58; 32] ++ render kv.2) with field_text. rewrite !length_app. pose proof (commas_long (field_text <$> fs)) as Hl.
    enough (sum_list ((λ kv, S (jsize kv.2)) <$> fs) ≤ sum_list (length <$> (field_text <$> fs)))%nat by (cbn [length]; lia). clear Hl Hok.
    induction fs as [|[k v] fs IHf]; [done|]. apply Forall_cons in IH as [Hv IH]. apply Forall_cons in Hfs as [[_ Hok] Hfs]. rewrite !fmap_cons, !sum_cons. specialize (IHf IH Hfs).
    specialize (Hv Hok). unfold field_text at 1. rewrite !length_app. cbn [length fst snd] in *. lia.
Qed.

Lemma parse_render j : json_ok j → parseJSON (render j) = Some j.
Proof.
  intros Hok. unfold parseJSON. pose proof (render_reads j Hok (length (render j)) [] (jsize_text j Hok) I) as E. rewrite app_nil_r in E. by rewrite E.
Qed.

(** ** The text of the groups *)

Definition groupJson (g : MetricGroup) : json := JObj ((λ name, (name, JNum (default 0 (groupValues g !! name)))) <$> groupNames g).
Definition systemField (g : MetricGroup) : bytes * json := (groupName g, groupJson g).
Definition userField (g : MetricGroup) : bytes * json := (userName g, groupJson g).
(** The object of groups with the users in between: one section for the users. *)
Definition usersField (u : list MetricGroup) : list (bytes * json) := match u with [] => [] | _ => [(string_bytes "users", JObj (userField <$> u))] end.
Definition rootFields (a u b : list MetricGroup) : list (bytes * json) := (systemField <$> a) ++ usersField u ++ (systemField <$> b).

Lemma group_text name g : opened name ++ marshalGroup g ++ [125] = field_text (name, groupJson g).
Proof.
  unfold opened, field_text, groupJson. cbn [render fst snd]. rewrite <- list_fmap_compose. unfold compose. cbn [fst snd render]. unfold marshalGroup. by rewrite <- !app_assoc.
Qed.

Lemma group_text_app name g x : opened name ++ marshalGroup g ++ 125 :: x = field_text (name, groupJson g) ++ x.
Proof. rewrite <- group_text. by rewrite <- !app_assoc. Qed.

(** Concatenations up to associativity. *)
Ltac flat := repeat first [rewrite <- app_assoc | rewrite app_nil_r | progress cbn [app]]; done.

Lemma commas_cons kv kvs : commas (field_text <$> kv :: kvs) = field_text kv ++ (match kvs with [] => [] | _ => [44] end) ++ commas (field_text <$> kvs).
Proof. destruct kvs as [|kv' kvs]; [|done]. cbn [fmap list_fmap commas concat]. by rewrite !app_nil_r. Qed.

Definition sep (x y : list (bytes * json)) : bytes := match x, y with _ :: _, _ :: _ => [44] | _, _ => [] end.
Lemma commas_app x y : commas (field_text <$> x ++ y) = commas (field_text <$> x) ++ sep x y ++ commas (field_text <$> y).
Proof.
  destruct x as [|a x]; [by destruct y|]. destruct y as [|b y]; [cbn [sep fmap list_fmap commas]; by rewrite !app_nil_r|]. cbn [app fmap list_fmap commas]. rewrite fmap_app, fmap_app, concat_app, !fmap_cons. cbn [concat sep]. by rewrite <- !app_assoc.
Qed.

Lemma loop_system p a rest : Forall (λ g, isUser g = false) a →
  marshalLoop p (a ++ rest) = commas (field_text <$> (systemField <$> a)) ++ (match a, rest with _ :: _, _ :: _ => [44] | _, _ => [] end) ++ marshalLoop p rest.
Proof.
  induction a as [|g a IH]; intros Ha; [done|]. apply Forall_cons in Ha as [Hg Ha]. cbn [app marshalLoop]. rewrite Hg. cbn [negb]. rewrite IH by done.
  rewrite group_text_app. change (groupName g, groupJson g) with (systemField g).
  rewrite fmap_cons, commas_cons. destruct a as [|g' a]; cbn [fmap list_fmap commas]; flat.
Qed.

(** One turn for a user. *)
Lemma loop_user p g l : isUser g = true → marshalLoop p (g :: l) =
  (if p then [] else opened (string_bytes "users")) ++ field_text (userField g) ++
  match l with next :: _ => if isUser next then 44 :: marshalLoop true l else 125 :: 44 :: marshalLoop false l | [] => [125] end.
Proof.
  intros Hg. cbn [marshalLoop]. rewrite Hg. cbn [negb]. destruct l as [|n l]; [|destruct (isUser n)]; cbn [app]; by rewrite group_text_app.
Qed.

Lemma loop_users g u b : Forall (λ g, isUser g = true) (g :: u) → Forall (λ g, isUser g = false) b →
  marshalLoop true (g :: u ++ b) = commas (field_text <$> (userField <$> g :: u)) ++ [125] ++ (match b with [] => [] | _ => [44] end) ++ marshalLoop false b.
Proof.
  revert g. induction u as [|g' u IH]; intros g Hu Hb; apply Forall_cons in Hu as [Hg Hu]; cbn [app]; rewrite loop_user by done; rewrite fmap_cons, commas_cons.
  - destruct b as [|h b]; [cbn [fmap list_fmap commas]; flat|]. apply Forall_cons in Hb as [Hh Hb]. rewrite Hh. cbn [fmap list_fmap commas]. flat.
  - pose proof (IH g' Hu Hb) as E. apply Forall_cons in Hu as [Hg' _]. rewrite Hg', E. cbn [fmap list_fmap]. flat.
Qed.

Lemma object_text k fs : field_text (k, JObj fs) = opened k ++ commas (field_text <$> fs) ++ [125].
Proof. unfold field_text at 1, opened. cbn [fst snd render]. change (λ kv : bytes * json, quoted kv.1 ++ [58; 32] ++ render kv.2) with field_text. flat. Qed.

Lemma loop_text a u b : Forall (λ g, isUser g = false) a → Forall (λ g, isUser g = true) u → Forall (λ g, isUser g = false) b →
  [123] ++ marshalLoop false (a ++ u ++ b) ++ [125] = render (JObj (rootFields a u b)).
Proof.
  intros Ha Hu Hb. cbn [render]. change (λ kv : bytes * json, quoted kv.1 ++ [58; 32] ++ render kv.2) with field_text. f_equal. f_equal. unfold rootFields. rewrite loop_system, commas_app by done. f_equal.
  destruct u as [|g u].
  - cbn [app usersField]. pose proof (loop_system false b [] Hb) as E. rewrite app_nil_r in E. rewrite E. destruct a, b; cbn [sep fmap list_fmap]; flat.
  - f_equal; [by destruct a|]. rewrite commas_app. cbn [app usersField].
    pose proof (loop_users g u b Hu Hb) as E. apply Forall_cons in Hu as Hg. destruct Hg as [Hg _]. rewrite loop_user in E |- * by done. cbn [app] in E. rewrite E.
    pose proof (loop_system false b [] Hb) as Eb. rewrite app_nil_r in Eb. rewrite Eb, commas_cons, object_text. cbn [marshalLoop]. destruct b; cbn [sep fmap list_fmap commas]; flat.
Qed.

(** ** The order of the groups *)

Lemma prefix_convex p : ∀ x y z, hasPrefix p x = true → hasPrefix p z = true → bytesLe x y = true → bytesLe y z = true → hasPrefix p y = true.
Proof.
  unfold hasPrefix. induction p as [|c p IH]; intros x y z Hx Hz Hxy Hyz; [done|]. apply bool_decide_eq_true in Hx, Hz. apply bool_decide_eq_true.
  destruct x as [|x0 x], z as [|z0 z]; try discriminate. cbn in Hx, Hz. injection Hx as -> Hx. injection Hz as -> Hz. destruct y as [|y0 y]; [done|]. cbn in Hxy, Hyz.
  destruct (Z.eqb_spec c y0) as [<-|Hne]; [|destruct (Z.eqb_spec y0 c); lia]. rewrite Z.eqb_refl in Hyz. cbn. f_equal.
  apply (bool_decide_eq_true (take (length p) y = p)). apply (IH x y z); [by apply bool_decide_eq_true|by apply bool_decide_eq_true|done|done].
Qed.

Lemma sorted_users H l : StronglySorted (groupLe H) l → Forall (λ g, hasPrefix userMetricGroupPrefix (lowerName H g) = isUser g) l →
  ∃ a u b, l = a ++ u ++ b ∧ Forall (λ g, isUser g = false) a ∧ Forall (λ g, isUser g = true) u ∧ Forall (λ g, isUser g = false) b.
Proof.
  intros Hs Hp. induction Hs as [|g l Hs IH Hg]; [by exists [], [], []|]. apply Forall_cons in Hp as [Hpg Hp]. destruct (IH Hp) as (a & u & b & -> & Ha & Hu & Hb).
  destruct (isUser g) eqn:Eg; [|exists (g :: a), u, b; by split_and!; [|constructor|..]].
  destruct a as [|h a]; [exists [], (g :: u), b; by split_and!; [..|constructor|]|]. destruct u as [|x u]; [exists [], [g], (h :: a ++ b); split_and!; [done|constructor|by constructor|]; cbn; by apply (Forall_app_2 _ (h :: a) b)|].
  exfalso. apply Forall_cons in Ha as [Hh _]. apply Forall_cons in Hu as [Hx _]. apply Forall_cons in Hg as [Hgh _]. cbn in Hs. inversion Hs as [|? ? _ Hhx]; subst.
  apply Forall_app in Hhx as [_ Hhx]. apply Forall_cons in Hhx as [Hhx _]. rewrite Forall_app in Hp. destruct Hp as [Hph Hpx]. apply Forall_cons in Hph as [Hph _]. apply Forall_cons in Hpx as [Hpx _].
  enough (hasPrefix userMetricGroupPrefix (lowerName H h) = true) by congruence. unfold groupLe in *.
  apply (prefix_convex _ (lowerName H g) _ (lowerName H x)); [congruence|congruence|by apply Is_true_true|by apply Is_true_true].
Qed.

#[local] Instance groupLe_total H : Total (groupLe H).
Proof. intros a b. apply bytesLe_total. Qed.
#[local] Instance groupLe_trans H : Transitive (groupLe H).
Proof. intros a b c. apply bytesLe_trans. Qed.

#[local] Instance string_bytes_inj : Inj (=) (=) string_bytes.
Proof.
  intros s t E. by rewrite <- (string_bytes_string s), E, string_bytes_string.
Qed.

(** ** Every metric is in the text *)

Definition jget (k : bytes) (j : json) : option json :=
  match j with JObj fs => snd <$> List.find (λ kv, bool_decide (kv.1 = k)) fs | JNum _ => None end.

Lemma jget_in k v fs : NoDup fs.*1 → (k, v) ∈ fs → jget k (JObj fs) = Some v.
Proof.
  intros Hd Hin. induction fs as [|[k' v'] fs IH]; [by apply elem_of_nil in Hin|]. cbn in Hd. apply NoDup_cons in Hd as [Hk Hd]. cbn.
  apply elem_of_cons in Hin as [Heq|Hin]; [injection Heq as -> ->; by rewrite bool_decide_true|]. rewrite bool_decide_false; [by apply IH|].
  intros ->. apply Hk. apply list_elem_of_fmap. by exists (k, v).
Qed.

(** A group as the registry has it: metrics under their names, values of 64 bits. *)
Definition group_ok (g : MetricGroup) : Prop :=
  ∀ k x, mg_metrics g !! k = Some x → metricName x = k ∧ plain (string_bytes k) ∧ - 2 ^ 63 < metricValue x < 2 ^ 63.

Lemma groupNames_perm g : group_ok g → groupNames g ≡ₚ string_bytes <$> (map_to_list (mg_metrics g)).*1.
Proof.
  intros Hg. unfold groupNames. etrans; [apply merge_sort_Permutation|]. rewrite <- list_fmap_compose. apply reflexive_eq, list_fmap_ext.
  intros i [k x] Hi. apply list_elem_of_lookup_2, elem_of_map_to_list in Hi. cbn. by destruct (Hg k x Hi) as [-> _].
Qed.

Lemma groupNames_nodup g : group_ok g → NoDup (groupNames g).
Proof. intros Hg. rewrite groupNames_perm by done. apply NoDup_fmap_2; [apply _|apply NoDup_fst_map_to_list]. Qed.

Lemma groupValues_at g k x : group_ok g → mg_metrics g !! k = Some x → groupValues g !! string_bytes k = Some (metricValue x).
Proof.
  intros Hg Hx. unfold groupValues. apply elem_of_list_to_map_1.
  - rewrite <- list_fmap_compose. pose proof (groupNames_nodup g Hg) as Hn. unfold groupNames in Hn. unfold sortStrings in Hn. by rewrite merge_sort_Permutation in Hn.
  - apply list_elem_of_fmap. exists (k, x). cbn. destruct (Hg k x Hx) as [-> _]. split; [done|]. by apply elem_of_map_to_list.
Qed.

Lemma groupNames_elem g n : group_ok g → n ∈ groupNames g ↔ ∃ k x, n = string_bytes k ∧ mg_metrics g !! k = Some x.
Proof.
  intros Hg. rewrite groupNames_perm by done. rewrite list_elem_of_fmap. split.
  - intros (k & -> & Hin). apply list_elem_of_fmap in Hin as ([k' x] & -> & Hin). apply elem_of_map_to_list in Hin. eauto.
  - intros (k & x & -> & Hx). exists k. split; [done|]. apply list_elem_of_fmap. exists (k, x). split; [done|]. by apply elem_of_map_to_list.
Qed.

Lemma groupJson_ok g : group_ok g → json_ok (groupJson g).
Proof.
  intros Hg. constructor. apply Forall_fmap, Forall_forall. intros n Hn. cbn. apply groupNames_elem in Hn as (k & x & -> & Hx); [|done].
  destruct (Hg k x Hx) as (_ & Hp & Hv). split; [done|]. rewrite (groupValues_at g k x) by done. by constructor.
Qed.

Lemma groupJson_at g k x : group_ok g → mg_metrics g !! k = Some x → jget (string_bytes k) (groupJson g) = Some (JNum (metricValue x)).
Proof.
  intros Hg Hx. apply jget_in.
  - rewrite <- list_fmap_compose. unfold compose. cbn. rewrite list_fmap_id. by apply groupNames_nodup.
  - apply list_elem_of_fmap. exists (string_bytes k). rewrite (groupValues_at g k x) by done. split; [done|]. apply groupNames_elem; eauto.
Qed.

(** The registry of a process: groups under their names, no name with a quote, no
    group that is no user's and starts like one in other letters, or is called
    users. *)
Definition registry_ok (H : LogHost) (reg : registry) : Prop :=
  ∀ n g, reg !! n = Some g → mg_name g = n ∧ plain (groupName g) ∧ group_ok g ∧ hasPrefix userMetricGroupPrefix (lowerName H g) = isUser g ∧ groupName g ≠ string_bytes "users".

Lemma enabled_elem reg g : g ∈ enabledGroups reg ↔ (∃ n, reg !! n = Some g) ∧ mg_enableLogging g = true.
Proof.
  unfold enabledGroups. rewrite list_elem_of_In, filter_In, <- list_elem_of_In, list_elem_of_fmap. split; intros [Hr He]; (split; [|done]).
  - destruct Hr as ([n g'] & -> & Hin). apply elem_of_map_to_list in Hin. eauto.
  - destruct Hr as [n Hn]. exists (n, g). split; [done|]. by apply elem_of_map_to_list.
Qed.

Lemma enabled_nodup H reg : registry_ok H reg → NoDup (groupName <$> enabledGroups reg).
Proof.
  intros Hok. unfold enabledGroups. assert (Hm : Forall (λ x : string * MetricGroup, mg_name x.2 = x.1) (map_to_list reg)).
  { apply Forall_forall. intros [n g] Hin. apply elem_of_map_to_list in Hin. cbn. by destruct (Hok n g Hin). }
  assert (Hd : NoDup (map_to_list reg).*1) by apply NoDup_fst_map_to_list. revert Hm Hd. generalize (map_to_list reg). intros l. induction l as [|[n g] l IH]; intros Hm Hd; [constructor|].
  apply Forall_cons in Hm as [Hn Hm]. cbn in Hn, Hd. apply NoDup_cons in Hd as [Hk Hd]. cbn. destruct (mg_enableLogging g); [|by apply IH]. cbn. apply NoDup_cons. split; [|by apply IH].
  intros Hin. apply Hk. apply list_elem_of_fmap in Hin as (g' & E & Hin). apply list_elem_of_In, filter_In in Hin as [Hin _]. apply list_elem_of_In, list_elem_of_fmap in Hin as (kv & -> & Hin).
  apply list_elem_of_fmap. exists kv. split; [|done]. rewrite Forall_forall in Hm. rewrite <- (Hm kv Hin), <- Hn. unfold groupName in E. by apply (inj string_bytes) in E.
Qed.

Lemma user_split g : isUser g = true → groupName g = userMetricGroupPrefix ++ userName g.
Proof. intros Hu. apply bool_decide_eq_true in Hu. rewrite <- Hu at 1. unfold userName. by rewrite take_drop. Qed.

Lemma plain_text s : forallb (λ c, (32 <=? c) && negb (c =? 34) && negb (c =? 92)) s = true → plain s.
Proof. intros Hs. apply Forall_forall. intros c Hc. rewrite forallb_forall in Hs. specialize (Hs c). rewrite <- list_elem_of_In in Hs. specialize (Hs Hc). lia. Qed.

(** The groups of the registry in the order of the text, and what is known of them. *)
Lemma registry_split H reg : registry_ok H reg → ∃ a u b, sortGroups H (enabledGroups reg) = a ++ u ++ b ∧
  Forall (λ g, isUser g = false) a ∧ Forall (λ g, isUser g = true) u ∧ Forall (λ g, isUser g = false) b ∧
  NoDup (groupName <$> a ++ u ++ b) ∧ (∀ g, g ∈ a ++ u ++ b ↔ (∃ n, reg !! n = Some g) ∧ mg_enableLogging g = true).
Proof.
  intros Hok. assert (HP : sortGroups H (enabledGroups reg) ≡ₚ enabledGroups reg) by apply merge_sort_Permutation.
  destruct (sorted_users H (sortGroups H (enabledGroups reg))) as (a & u & b & E & Ha & Hu & Hb).
  - apply (StronglySorted_merge_sort _).
  - rewrite HP. apply Forall_forall. intros g Hg. apply enabled_elem in Hg as [[n Hn] _]. by destruct (Hok n g Hn) as (_ & _ & _ & ? & _).
  - exists a, u, b. rewrite <- E. split_and!; [done..| |]; [rewrite HP; by apply (enabled_nodup H)|]. intros g. rewrite HP. apply enabled_elem.
Qed.

Lemma root_ok H reg a u b : registry_ok H reg → (∀ g, g ∈ a ++ u ++ b → ∃ n, reg !! n = Some g) → Forall (λ g, isUser g = true) u → json_ok (JObj (rootFields a u b)).
Proof.
  intros Hok Hreg Hu. assert (Hg : ∀ g, g ∈ a ++ u ++ b → plain (groupName g) ∧ json_ok (groupJson g)).
  { intros g Hin. destruct (Hreg g Hin) as [n Hn]. destruct (Hok n g Hn) as (_ & ? & ? & _). split; [done|by apply groupJson_ok]. }
  constructor. unfold rootFields. apply Forall_app_2; [|apply Forall_app_2].
  - apply Forall_fmap, Forall_forall. intros g Hin. apply Hg. set_solver.
  - unfold usersField. destruct u as [|g u]; [constructor|]. apply Forall_singleton. split; [by apply plain_text|]. constructor. apply Forall_fmap, Forall_forall. intros h Hin. cbn.
    destruct (Hg h) as [Hp Hj]; [rewrite !elem_of_app; naive_solver|]. split; [|done]. rewrite Forall_forall in Hu. rewrite user_split in Hp by (by apply Hu). by apply Forall_app in Hp as [_ Hp].
  - apply Forall_fmap, Forall_forall. intros g Hin. apply Hg. set_solver.
Qed.

Lemma root_nodup a u b : NoDup (groupName <$> a ++ u ++ b) → Forall (λ g, groupName g ≠ string_bytes "users") (a ++ u ++ b) →
  NoDup (rootFields a u b).*1 ∧ (Forall (λ g, isUser g = true) u → NoDup (userField <$> u).*1).
Proof.
  intros Hn Hne. rewrite !fmap_app in Hn. unfold rootFields. rewrite !fmap_app, <- !list_fmap_compose. change (fst ∘ systemField) with groupName. change (fst ∘ userField) with userName.
  apply NoDup_app in Hn as (Na & Hab & Hn). apply NoDup_app in Hn as (Nu & Hub & Nb). split.
  - apply NoDup_app. split; [done|]. split.
    + intros x Hx Hin. apply elem_of_app in Hin as [Hin|Hin]; [|by apply (Hab x); [|apply elem_of_app; right]].
      destruct u as [|g u]; [by apply elem_of_nil in Hin|]. cbn in Hin. apply list_elem_of_singleton in Hin as ->. apply list_elem_of_fmap in Hx as (h & E & Hh). rewrite Forall_forall in Hne. apply (Hne h); [apply elem_of_app; by left|done].
    + apply NoDup_app. split; [destruct u; [constructor|apply NoDup_singleton]|]. split; [|done]. intros x Hx Hin. destruct u as [|g u]; [by apply elem_of_nil in Hx|]. cbn in Hx. apply list_elem_of_singleton in Hx as ->.
      apply list_elem_of_fmap in Hin as (h & E & Hh). rewrite Forall_forall in Hne. apply (Hne h); [rewrite !elem_of_app; naive_solver|done].
  - intros Hu. assert (E : groupName <$> u = app userMetricGroupPrefix <$> (userName <$> u)).
    { rewrite <- list_fmap_compose. apply list_fmap_ext. intros i g Hi. apply user_split. rewrite Forall_forall in Hu. apply Hu. by eapply list_elem_of_lookup_2. }
    rewrite E in Nu. by apply NoDup_fmap_1 in Nu.
Qed.

(** C28: the text of the metrics is an object in which every metric of every enabled
    group is found with its value, the groups of users under users.  No name has a
    quote, a backslash or a control character, metric names are different, and no
    group other than those of users is called users or begins like one of theirs
    in other letters; values are above -2^63. *)
Theorem metrics_shown H reg n g k x : registry_ok H reg → reg !! n = Some g → mg_enableLogging g = true → mg_metrics g !! k = Some x →
  ∃ root, parseJSON (GetMetricsAsJSON H reg) = Some root ∧
    ((if isUser g then jget (string_bytes "users") root ≫= jget (userName g) else jget (groupName g) root) ≫= jget (string_bytes k)) = Some (JNum (metricValue x)).
Proof.
  intros Hok Hn He Hx. destruct (registry_split H reg Hok) as (a & u & b & E & Ha & Hu & Hb & Hnd & Hel). exists (JObj (rootFields a u b)).
  destruct (Hok n g Hn) as (_ & _ & Hg & _ & _). unfold GetMetricsAsJSON, rawJSON. rewrite E, loop_text by done. split.
  { apply parse_render, (root_ok H reg); [done| |done]. intros h Hin. by apply Hel in Hin as [? _]. }
  assert (Hne : Forall (λ g, groupName g ≠ string_bytes "users") (a ++ u ++ b)).
  { apply Forall_forall. intros h Hin. apply Hel in Hin as [[m Hm] _]. by destruct (Hok m h Hm) as (_ & _ & _ & _ & ?). }
  destruct (root_nodup a u b Hnd Hne) as [Hr Hus]. specialize (Hus Hu). assert (Hin : g ∈ a ++ u ++ b) by (apply Hel; eauto). rewrite !elem_of_app in Hin. rewrite Forall_forall in Ha, Hu, Hb.
  destruct (isUser g) eqn:Eu.
  - destruct Hin as [Hin|[Hin|Hin]]; [by rewrite Ha in Eu| |by rewrite Hb in Eu].
    rewrite (jget_in _ (JObj (userField <$> u)) _ Hr); [|unfold rootFields; rewrite !elem_of_app; right; left; destruct u; [by apply elem_of_nil in Hin|left]]. cbn [mbind option_bind].
    rewrite (jget_in _ (groupJson g) _ Hus); [|apply list_elem_of_fmap; by exists g]. cbn [mbind option_bind]. by apply groupJson_at.
  - assert (g ∈ a ∨ g ∈ b) as Hin' by (destruct Hin as [?|[Hin|?]]; [by left|by rewrite Hu in Eu|by right]).
    rewrite (jget_in _ (groupJson g) _ Hr); [cbn [mbind option_bind]; by apply groupJson_at|]. unfold rootFields. rewrite !elem_of_app, !list_elem_of_fmap. destruct Hin'; [left|right; right]; by exists g.
Qed.

(** A user with a quote in the name: the text is no JSON, for everybody. *)
Example quoted_user_breaks_json H : let reg : registry := RegisterMetric (UserMetricGroup (bytes_string [97; 34; 98])) UserMetricUploadBytes COUNTER ∅ in
  parseJSON (GetMetricsAsJSON H reg) = None.
Proof. vm_compute. reflexivity. Qed.

(** ** The log of the metrics *)

(** Logging that is disabled before it was enabled leaves its token: the loop of the
    next call ends at once, and no tick is logged although the ticker runs. *)
Example early_disable_stops_later : let x := EnableLogging (DisableLogging exporter0) in
  tickerOn x = Some true ∧ option_map (λ r, (r.1, loops r.2)) (logMetricsLoop false x) = Some (Stopped, 0).
Proof. by split. Qed.

(** A registry with traffic of the server and of a user. *)
Definition counter0 (name : string) (v : Z) : Metric := MCounter (mkCounter name v false [] 0).
Definition traffic0 : MetricGroup := mkGroup "traffic" {[ "UploadBytes" := counter0 "UploadBytes" 42 ]} true.
Definition ann0 : MetricGroup := mkGroup "user - ann" {[ "UploadBytes" := counter0 "UploadBytes" 7 ]} true.
Definition registry0 : registry := <[ "traffic" := traffic0 ]> {[ "user - ann" := ann0 ]}.

Lemma group0_ok name v : - 2 ^ 63 < v < 2 ^ 63 → group_ok (mkGroup name {[ "UploadBytes" := counter0 "UploadBytes" v ]} true).
Proof. intros Hv k x Hx. cbn in Hx. apply lookup_singleton_Some in Hx as [<- <-]. split_and!; [done|by apply plain_text|apply Hv..]. Qed.

Lemma registry0_ok : registry_ok host0 registry0.
Proof.
  intros n g Hn. unfold registry0 in Hn. apply lookup_insert_Some in Hn as [[<- <-]|[_ Hn]]; [|apply lookup_singleton_Some in Hn as [<- <-]].
  - split_and!; [done|by apply plain_text|by apply group0_ok|reflexivity|discriminate].
  - split_and!; [done|by apply plain_text|by apply group0_ok|reflexivity|discriminate].
Qed.

Lemma metrics_shown_witness : ∃ root, parseJSON (GetMetricsAsJSON host0 registry0) = Some root ∧
  (jget (string_bytes "users") root ≫= jget (string_bytes "ann")) ≫= jget (string_bytes "UploadBytes") = Some (JNum 7).
Proof.
  exact (metrics_shown host0 registry0 "user - ann" ann0 "UploadBytes" (counter0 "UploadBytes" 7) registry0_ok eq_refl eq_refl eq_refl).
Defined.

End MetricsJson.
Export MetricsJson.
