(* ===== verification/Updater.v ===== *)
(** * Versions and update checks: pkg/version/scheme.go, pkg/version/updater

    Version numbers with their text, the history of update checks with its file,
    and when the client checks again (pkg/cli/client.go).  The answer of the
    release server is an argument, [addDays] is [time.AddDate] in the local time
    zone, and protobuf is a parameter.  Clock readings are nanoseconds. *)

From S2P Require Import Prelude Common Net ConfigServer PanelText.
From Stdlib Require Import ZifyBool.
From stdpp Require Import sorting.
Local Open Scope Z_scope.

Module Updater.

(** ** Versions *)

Record Version := mkVersion { Major : Z; Minor : Z; Patch : Z }.

Definition VersionString (v : Version) : bytes := Itoa (Major v) ++ [46] ++ Itoa (Minor v) ++ [46] ++ Itoa (Patch v).
Definition ToTag (v : Version) : bytes := [118] ++ VersionString v.

Definition IsLessThan (v another : Version) : bool :=
  if Major another <? Major v then false
  else if Major v <? Major another then true
  else if Minor another <? Minor v then false
  else if Minor v <? Minor another then true
  else if Patch another <=? Patch v then false
  else true.

(** The longest run of digits at the front. *)
Fixpoint spanDigits (s : bytes) : bytes * bytes :=
  match s with
  | c :: s' => if is_digit c then let '(d, r) := spanDigits s' in (c :: d, r) else ([], s)
  | [] => ([], [])
  end.

(** [strconv.Atoi] of digits with the error dropped: a number that does not fit is
    the largest int. *)
Definition atoiOfDigits (ds : bytes) : Z := Z.min (digits_value 0 ds) (2 ^ 63 - 1).

(** The expression of [versionFmt]: three runs of digits with dots between; what
    follows does not matter. *)
Definition matchVersion (s : bytes) : option (bytes * bytes * bytes) :=
  match spanDigits s with
  | ((_ :: _) as a, 46 :: s) =>
      match spanDigits s with
      | ((_ :: _) as b, 46 :: s) => match spanDigits s with ((_ :: _) as c, _) => Some (a, b, c) | _ => None end
      | _ => None
      end
  | _ => None
  end.

Definition versionOf (m : option (bytes * bytes * bytes)) (msg : string) : outcome Version :=
  match m with
  | Some (a, b, c) => Ret (mkVersion (atoiOfDigits a) (atoiOfDigits b) (atoiOfDigits c))
  | None => Err (Errorf msg)
  end.

Definition ParseVersion (s : bytes) : outcome Version := versionOf (matchVersion s) "failed to parse version %s".
Definition ParseTag (tag : bytes) : outcome Version :=
  versionOf (match tag with 118 :: s => matchVersion s | _ => None end) "failed to parse tag %s".

Definition AppVersion : bytes := string_bytes "3.32.0".

(** ** One check (updater/checker.go) *)

Record UpdateRecord := mkRecord {
  TimeUnix : Z; RVersion : bytes; LatestVersion : option bytes; NewReleaseFound : option bool; RError : option bytes
}.

Definition UpToDateMessage : bytes := string_bytes "already up to date".
Definition nanos : Z := 10 ^ 9.

(** [query] is what asking the release server gives; errors are their formats. *)
Definition CheckUpdate (now : Z) (query : outcome bytes) : UpdateRecord * bytes * option goerr :=
  let failed (msg : string) := (mkRecord (now / nanos) AppVersion None None (Some (string_bytes msg)), [], Some (Errorf msg)) in
  match query with
  | Ret remoteTag =>
      match ParseVersion AppVersion with
      | Ret currentVersion =>
          match ParseTag remoteTag with
          | Ret remoteVersion =>
              let record found := mkRecord (now / nanos) AppVersion (Some (VersionString remoteVersion)) (Some found) None in
              if IsLessThan currentVersion remoteVersion
              then (record true, string_bytes "update is available at https://github.com/enfein/mieru/releases/tag/" ++ remoteTag, None)
              else (record false, UpToDateMessage, None)
          | _ => failed "parse release tag failed: %w"
          end
      | _ => failed "parse application version failed: %w"
      end
  | _ => failed "queryLatestVersion() failed: %w"
  end.

(** ** The history (updater/history.go) *)

Notation History := (list UpdateRecord).

(** [sort.SliceStable], the latest record first. *)
Fixpoint insertRecord (r : UpdateRecord) (h : History) : History :=
  match h with
  | x :: h' => if TimeUnix r <? TimeUnix x then x :: insertRecord r h' else r :: h
  | [] => [r]
  end.
Definition sortRecords (h : History) : History := foldr insertRecord [] h.

Definition Insert (r : UpdateRecord) (h : History) : History := sortRecords (h ++ [r]).
Definition Trim (h : History) : History := if 1 <? len h then take 1 (sortRecords h) else h.

Section Store.
Context (addDays : Z → Z → Z).
Context (marshal : History → outcome bytes) (unmarshal : bytes → outcome History).

Definition ShouldCheckUpdate (now : Z) (h : History) : bool :=
  match sortRecords h with
  | [] => true
  | lastCheck :: _ =>
      let before days := addDays (TimeUnix lastCheck) days * nanos <? now in
      if negb (bool_decide (default [] (RError lastCheck) = [])) then before 7
      else if default false (NewReleaseFound lastCheck) then before 7 else before 30
  end.

(** [LoadFrom] changes nothing when it fails. *)
Definition LoadFrom (file : option bytes) (h : History) : outcome unit * History :=
  match file with
  | None => (Err (Errorf "os.ReadFile() failed: %w"), h)
  | Some b => match unmarshal b with Ret uh => (Ret tt, uh) | _ => (Err (Errorf "proto.Unmarshal() failed: %w"), h) end
  end.

(** [disk]: whether writing the file succeeds. *)
Definition StoreTo (disk : bool) (h : History) (file : option bytes) : outcome unit * option bytes :=
  match marshal h with
  | Ret b => if disk then (Ret tt, Some b) else (Err (Errorf "os.WriteFile() failed: %w"), file)
  | _ => (Err (Errorf "proto.Marshal() failed: %w"), file)
  end.

(** ** In the client (pkg/cli/client.go) *)

Definition clientShouldCheckUpdate (noCheckUpdate : bool) (now : Z) (file : option bytes) : bool :=
  if noCheckUpdate then false
  else match LoadFrom file [] with (Ret _, h) => ShouldCheckUpdate now h | _ => true end.

Definition clientCheckUpdateAndUpdateHistory (now : Z) (query : outcome bytes) (disk : bool) (file : option bytes)
    : bytes * option goerr * option bytes :=
  let h := (LoadFrom file []).2 in
  let '(record, msg, checkErr) := CheckUpdate now query in
  let h := Trim (Insert record h) in
  (msg, checkErr, (StoreTo disk h file).2).
End Store.

(** * Properties *)

Lemma spanDigits_spec d s : forallb is_digit d = true → (∀ c, head s = Some c → is_digit c = false) → spanDigits (d ++ s) = (d, s).
Proof.
  induction d as [|c d IH]; intros Hd Hs; cbn in *.
  - destruct s as [|c s]; [done|]. cbn. by rewrite (Hs c).
  - apply andb_prop in Hd as [-> Hd]. by rewrite IH.
Qed.

Definition fits (n : Z) : Prop := 0 ≤ n < 2 ^ 63.
Definition version_ok (v : Version) : Prop := fits (Major v) ∧ fits (Minor v) ∧ fits (Patch v).

Lemma Itoa_run n : fits n → Itoa n ≠ [] ∧ forallb is_digit (Itoa n) = true ∧ atoiOfDigits (Itoa n) = n.
Proof.
  intros Hn. unfold fits in Hn. destruct (digits_spec 20 n) as (Hne & Hd & Hv); [cbn; lia|lia|].
  unfold Itoa. rewrite (proj2 (Z.ltb_ge _ _)) by lia. split_and!; [done|done|]. unfold atoiOfDigits. rewrite Hv. lia.
Qed.

Lemma dot_head (s : bytes) c : head (46 :: s) = Some c → is_digit c = false.
Proof. by intros [= <-]. Qed.

Lemma matchVersion_runs a b c s : a ≠ [] → b ≠ [] → c ≠ [] → forallb is_digit a = true → forallb is_digit b = true → forallb is_digit c = true →
  (∀ x, head s = Some x → is_digit x = false) → matchVersion (a ++ 46 :: b ++ 46 :: c ++ s) = Some (a, b, c).
Proof.
  intros Ha Hb Hc Da Db Dc Hs. unfold matchVersion. rewrite spanDigits_spec by (done || apply dot_head). destruct a; [done|].
  rewrite spanDigits_spec by (done || apply dot_head). destruct b; [done|]. rewrite spanDigits_spec by done. by destruct c.
Qed.

(** What is printed is read back, whatever text follows the last number. *)
Lemma match_printed v s msg : version_ok v → (∀ c, head s = Some c → is_digit c = false) →
  versionOf (matchVersion (VersionString v ++ s)) msg = Ret v.
Proof.
  intros (H1 & H2 & H3) Hs. destruct v as [a b c]. cbn in H1, H2, H3. unfold VersionString. cbn [Major Minor Patch].
  destruct (Itoa_run a H1) as (Na & Da & Va), (Itoa_run b H2) as (Nb & Db & Vb), (Itoa_run c H3) as (Nc & Dc & Vc).
  rewrite <- !app_assoc. cbn [app]. rewrite matchVersion_runs by done. unfold versionOf. by rewrite Va, Vb, Vc.
Qed.

Lemma ParseVersion_String v s : version_ok v → (∀ c, head s = Some c → is_digit c = false) → ParseVersion (VersionString v ++ s) = Ret v.
Proof. apply match_printed. Qed.
Lemma ParseTag_ToTag v s : version_ok v → (∀ c, head s = Some c → is_digit c = false) → ParseTag (ToTag v ++ s) = Ret v.
Proof. apply match_printed. Qed.

(** The order of versions is the lexicographic one. *)
Lemma IsLessThan_lex v w : IsLessThan v w = true ↔
  Major v < Major w ∨ (Major v = Major w ∧ (Minor v < Minor w ∨ (Minor v = Minor w ∧ Patch v < Patch w))).
Proof. unfold IsLessThan. repeat case_if; bool_to_Z; lia. Qed.

Lemma IsLessThan_total v w : IsLessThan v w = true ∨ v = w ∨ IsLessThan w v = true.
Proof.
  rewrite !IsLessThan_lex. destruct v as [a b c], w as [a' b' c']. cbn.
  destruct (decide (a = a')), (decide (b = b')), (decide (c = c')); subst; auto; lia.
Qed.

(** ** The history *)

Definition newest_first (h : History) : Prop := Sorted (λ x y, TimeUnix y ≤ TimeUnix x) h.

Lemma insertRecord_head r h : (∀ x, x ∈ h → TimeUnix x ≤ TimeUnix r) → insertRecord r h = r :: h.
Proof. destruct h as [|x h]; [done|]. intros Hx. cbn. rewrite (proj2 (Z.ltb_ge _ _)); [done|]. apply Hx, list_elem_of_here. Qed.

Lemma insertRecord_perm r h : insertRecord r h ≡ₚ r :: h.
Proof. induction h as [|x h IH]; [done|]. cbn. case_if; [|done]. rewrite IH. apply Permutation_swap. Qed.

Lemma sortRecords_perm h : sortRecords h ≡ₚ h.
Proof. induction h as [|x h IH]; [done|]. cbn. by rewrite insertRecord_perm, IH. Qed.

Lemma insertRecord_newest r h : newest_first h → newest_first (insertRecord r h).
Proof.
  unfold newest_first. induction 1 as [|x h Hh IH Hx]; [by repeat constructor|]. cbn. case_if.
  - constructor; [done|]. destruct h as [|y h]; cbn; [constructor; lia|]. inversion Hx; subst. case_if; constructor; lia.
  - constructor; [by constructor|]. constructor. lia.
Qed.

Lemma sortRecords_newest h : newest_first (sortRecords h).
Proof. induction h as [|x h IH]; [constructor|]. by apply insertRecord_newest. Qed.

Lemma newest_head x h : newest_first (x :: h) → ∀ y, y ∈ h → TimeUnix y ≤ TimeUnix x.
Proof.
  intros Hs y Hy. apply Sorted_StronglySorted in Hs; [|intros a b c; lia]. inversion Hs as [|? ? _ Hf]; subst.
  rewrite Forall_forall in Hf. by apply Hf.
Qed.

(** After a check that is newer than all before, only this check is kept. *)
Lemma trim_insert r h : (∀ x, x ∈ h → TimeUnix x < TimeUnix r) → Trim (Insert r h) = [r].
Proof.
  intros Hr. assert (H1 : ∀ l, (∀ x, x ∈ l → TimeUnix x < TimeUnix r) → ∃ t, sortRecords (l ++ [r]) = r :: t).
  { intros l Hl. pose proof (sortRecords_newest (l ++ [r])) as Hs. pose proof (sortRecords_perm (l ++ [r])) as Hp.
    destruct (sortRecords (l ++ [r])) as [|y t]; [apply Permutation_length in Hp; rewrite length_app in Hp; cbn in Hp; lia|].
    assert (Hy : y ∈ l ++ [r]) by (rewrite <- Hp; apply list_elem_of_here).
    apply elem_of_app in Hy as [Hy|Hy%list_elem_of_singleton]; [|subst; by eexists].
    assert (Hr' : r ∈ y :: t) by (rewrite Hp; apply elem_of_app; right; apply list_elem_of_here).
    apply elem_of_cons in Hr' as [<-|Hr']; [by eexists|]. pose proof (newest_head _ _ Hs r Hr'). specialize (Hl y Hy). lia. }
  destruct (H1 h Hr) as (t & Ht). unfold Insert. rewrite Ht.
  assert (Hall : ∀ x, x ∈ r :: t → TimeUnix x ≤ TimeUnix r).
  { intros x [->|Hx]%elem_of_cons; [lia|]. pose proof (sortRecords_newest (h ++ [r])) as Hs. rewrite Ht in Hs. by apply (newest_head _ _ Hs). }
  unfold Trim. case_if.
  - cbn [sortRecords foldr]. fold (sortRecords t). rewrite insertRecord_head; [done|]. intros x Hx. rewrite sortRecords_perm in Hx.
    apply Hall. by apply list_elem_of_further.
  - destruct t; [done|]. bool_to_Z. unfold len in *. cbn in *. lia.
Qed.

(** What a check that ends with [tag] says. *)
Definition newer (query : outcome bytes) : bool :=
  match query with
  | Ret tag => match ParseTag tag with Ret v => IsLessThan (mkVersion 3 32 0) v | _ => false end
  | _ => false
  end.
Definition readable (query : outcome bytes) : bool :=
  match query with Ret tag => match ParseTag tag with Ret _ => true | _ => false end | _ => false end.

Lemma CheckUpdate_cases now query : ∃ r msg err, CheckUpdate now query = (r, msg, err) ∧ TimeUnix r = now / nanos ∧
  (err = None ↔ readable query = true) ∧
  (if readable query then RError r = None ∧ NewReleaseFound r = Some (newer query) ∧ (msg = UpToDateMessage ↔ newer query = false)
   else default [] (RError r) ≠ []).
Proof.
  unfold CheckUpdate, readable, newer. assert (Hc : ParseVersion AppVersion = Ret (mkVersion 3 32 0)) by (vm_compute; reflexivity).
  destruct query as [tag|e|p]; cbv zeta; [|by eexists _, _, _..]. rewrite Hc. destruct (ParseTag tag) as [v|e|p]; [|by eexists _, _, _..].
  destruct (IsLessThan (mkVersion 3 32 0) v); eexists _, _, _; (split; [reflexivity|]); split_and!; done.
Qed.

Section Paced.
Context (addDays : Z → Z → Z).
Context (marshal : History → outcome bytes) (unmarshal : bytes → outcome History).
Context (marshal_unmarshal : ∀ h, ∃ b, marshal h = Ret b ∧ unmarshal b = Ret h).

(** how often updates are checked.  When the clock has passed the checks in the
    history file, a check whose result can be stored is the only one that the file
    keeps.  It announces a release exactly when the tag it got is a version newer
    than the program, and fails exactly when there is no readable tag.  From then
    on the client checks again exactly after 30 days, or after 7 days when the
    check failed or found a release, unless the configuration forbids it; with an
    unreadable file it checks at once. *)
Theorem update_checks_paced now query file :
  (∀ x, x ∈ (LoadFrom unmarshal file []).2 → TimeUnix x < now / nanos) →
  ∃ msg err file', clientCheckUpdateAndUpdateHistory marshal unmarshal now query true file = (msg, err, file') ∧
    (err = None ↔ readable query = true) ∧
    (err = None → (msg = UpToDateMessage ↔ newer query = false)) ∧
    (∀ later, clientShouldCheckUpdate addDays unmarshal false later file' = true ↔
       addDays (now / nanos) (if readable query && negb (newer query) then 30 else 7) * nanos < later) ∧
    (∀ later, clientShouldCheckUpdate addDays unmarshal true later file' = false ∧ clientShouldCheckUpdate addDays unmarshal false later None = true).
Proof.
  intros Hold. destruct (CheckUpdate_cases now query) as (r & msg & err & Hc & Ht & He & Hr).
  unfold clientCheckUpdateAndUpdateHistory. rewrite Hc, trim_insert by (intros x Hx; rewrite Ht; by apply Hold).
  destruct (marshal_unmarshal [r]) as (b & Hb & Hu). unfold StoreTo. rewrite Hb. eexists _, _, _. split; [reflexivity|]. split; [done|]. split; [|split].
  - intros ->. by destruct (readable query); [destruct Hr as (_ & _ & ?)|destruct He as [He _]; specialize (He eq_refl)].
  - intros later. unfold clientShouldCheckUpdate, LoadFrom. cbn [snd]. rewrite Hu. unfold ShouldCheckUpdate. cbn [sortRecords foldr insertRecord].
    rewrite Ht. destruct (readable query).
    + destruct Hr as (-> & -> & _). cbn [default negb]. rewrite bool_decide_eq_true_2 by done. cbn [andb negb from_option id]. destruct (newer query); apply Z.ltb_lt.
    + rewrite bool_decide_eq_false_2 by done. apply Z.ltb_lt.
  - intros later. done.
Qed.
End Paced.

(** A record that the clock had not reached, for instance after the clock was set
    back, stays: the result of a check is dropped. *)
Theorem future_record_stays r r0 : TimeUnix r < TimeUnix r0 → Trim (Insert r [r0]) = [r0].
Proof.
  intros H. unfold Insert, sortRecords. cbn [app foldr insertRecord]. rewrite (proj2 (Z.ltb_ge _ _)) by lia.
  unfold Trim. change (1 <? len [r0; r]) with true. unfold sortRecords. cbn [foldr insertRecord]. by rewrite (proj2 (Z.ltb_ge _ _)) by lia.
Qed.

(** ** Witnesses *)

#[local] Instance UpdateRecord_eq_dec : EqDecision UpdateRecord.
Proof. solve_decision. Defined.
#[local] Instance UpdateRecord_countable : Countable UpdateRecord.
Proof. refine (inj_countable' (λ r, (TimeUnix r, RVersion r, LatestVersion r, NewReleaseFound r, RError r)) (λ '(a, b, c, d, e), mkRecord a b c d e) _). by intros []. Defined.

Lemma update_checks_paced_witness : ∃ file', clientCheckUpdateAndUpdateHistory demoMarshal demoUnmarshal (10 ^ 18) (Ret (string_bytes "v3.33.0")) true None =
    (string_bytes "update is available at https://github.com/enfein/mieru/releases/tag/v3.33.0", None, file') ∧
  clientShouldCheckUpdate (λ t d, t + d * 86400) demoUnmarshal false (10 ^ 18 + 7 * 86400 * nanos) file' = false ∧
  clientShouldCheckUpdate (λ t d, t + d * 86400) demoUnmarshal false (10 ^ 18 + 8 * 86400 * nanos) file' = true.
Proof.
  destruct (update_checks_paced (λ t d, t + d * 86400) demoMarshal demoUnmarshal demo_marshal_unmarshal (10 ^ 18) (Ret (string_bytes "v3.33.0")) None) as (msg & err & file' & H & _ & _ & Hl & _).
  - intros x Hx. apply elem_of_nil in Hx. destruct Hx.
  - exists file'. split_and!.
    + rewrite H. assert (E : (msg, err) = (clientCheckUpdateAndUpdateHistory demoMarshal demoUnmarshal (10 ^ 18) (Ret (string_bytes "v3.33.0")) true None).1) by (rewrite H; reflexivity).
      vm_compute in E. injection E as -> ->. vm_compute. reflexivity.
    + apply not_true_is_false. rewrite Hl. vm_compute. discriminate.
    + apply Hl. vm_compute. reflexivity.
Defined.
End Updater.
Export Updater.
