(* ===== verification/ClientCli.v ===== *)
(** * Commands of the client program: pkg/cli/client.go, pkg/appctl/client.go

    A machine ([world]) has the configuration file of the client, the clients that
    run on it, each with its listeners, the ports that other programs listen on,
    and the history of update checks.  A command returns what it prints, one line
    per entry, and the new machine.  A client process that ends, by an error or by
    [log.Fatalf], is not on the machine any more.  A listener takes its port on all
    addresses.  Texts of errors are their formats. *)

From S2P Require Import Prelude Mathext Common Rng Cipher Auth Segment SessionState Scheduler Socks Net SocksUDP Dns.
From S2P Require Import Egress SocksAuth TrafficPattern Mux PortBinding ConfigServer ConfigClient PanelText Url Links Updater.
From stdpp Require Import sorting.
From Stdlib Require Import ZifyBool.
Local Open Scope Z_scope.

Module ClientCli.

Definition ClientConfigIsEmpty : string := "mieru client config is empty".
Definition ClientConfigNotExist : string := "mieru client config file doesn't exist".
Definition ClientNotRunning : string := "mieru client is not running".
Definition ClientNotRunningErr : string := "mieru client is not running: %w".
Definition GetClientConfigFailedErr : string := "get mieru client config failed: %w".
Definition StoreClientConfigFailedErr : string := "store mieru client config failed: %w".
Definition ValidateFullClientConfigFailedErr : string := "validate full client config failed: %w".
Definition ClientGetActiveProfileFailedErr : string := "mieru client get active profile failed: %w".
Definition HTTPNotCompatible : string := "HTTP(S) proxy is not compatible with socks5 user password authentication".

Definition emptyConfig : PbClientConfig := mkClientConfig [] None None None None None None None None None.

(** [proto.Equal] with the empty message: an empty list is an absent one. *)
Definition isEmptyConfig (c : PbClientConfig) : bool :=
  match c with
  | mkClientConfig [] None None None None None None None None auth => match auth with None | Some [] => true | _ => false end
  | _ => false
  end.

(** The texts of [common.AllIPAddr] and [common.LocalIPAddr]. *)
Definition allIPText (dualStack : bool) : bytes := if dualStack then string_bytes "::" else string_bytes "0.0.0.0".
Definition localIPText : bytes := string_bytes "127.0.0.1".

Definition listenAddress (dualStack lan : bool) (port : Z) : bytes :=
  MaybeDecorateIPv6 (if lan then allIPText dualStack else localIPText) ++ [58] ++ Itoa port.

(** Listening on a port: it is an error when someone already does. *)
Definition Listen (used : list Z) (port : Z) (fmt : string) : outcome (list Z) :=
  if bool_decide (port ∈ used) then Err (Errorf fmt) else Ret (port :: used).

Section Client.
Context {V : Type}.
Context (parseDuration : bytes → outcome Z)
        (marshal : PbClientConfig → outcome bytes) (unmarshal : bytes → outcome PbClientConfig)
        (marshalJSON : PbClientConfig → outcome bytes) (unmarshalJSON : bytes → outcome PbClientConfig)
        (marshalPattern : TrafficPattern → outcome bytes) (unmarshalPattern : bytes → outcome TrafficPattern)
        (patternJSON : TrafficPattern → outcome bytes).
Context (net : muxNet) (hostSeed : Z) (dualStack : bool).
Context (addDays : Z → Z → Z) (marshalHistory : list UpdateRecord → outcome bytes) (unmarshalHistory : bytes → outcome (list UpdateRecord)).

(** A running client. *)
Record client := mkClient {
  d_rpcPort : option Z;            (** where the management service listens, if it does *)
  d_mux : Mux V;
  d_credentials : list Credential;
  d_noWait : bool;
  d_socksPort : Z;
  d_socksAddr : bytes;
  d_http : option (Z * bytes)      (** port and address of the HTTP proxy *)
}.

Definition clientPorts (d : client) : list Z := option_list (d_rpcPort d) ++ [d_socksPort d] ++ option_list (fst <$> d_http d).

Record world := mkWorld {
  w_file : option bytes;
  w_clients : list client;
  w_others : list Z;
  w_history : option bytes
}.

Definition usedPorts (w : world) : list Z := w_others w ++ concat (clientPorts <$> w_clients w).
Definition setFile (f : option bytes) (w : world) : world := mkWorld f (w_clients w) (w_others w) (w_history w).
Definition setClients (ds : list client) (w : world) : world := mkWorld (w_file w) ds (w_others w) (w_history w).
Definition setHistory (h : option bytes) (w : world) : world := mkWorld (w_file w) (w_clients w) (w_others w) h.

Notation load w := (LoadClientConfig unmarshal (w_file w)).

(** ** The process: [clientRunFunc] *)

(** What a configuration starts after the management service has started: the mux,
    the socks5 server and the HTTP proxy.  [used] are the ports in use. *)
Definition runProxy (c : PbClientConfig) (rpc : option Z) (used : list Z) : outcome client :=
  let socks := default 0 (cc_socks5Port c) in
  let http := default 0 (cc_httpProxyPort c) in
  let credentials := default [] (cc_socks5Authentication c) in
  let! p := (match GetActiveProfileFromConfig c (default "" (cc_activeProfile c)) with
             | Err _ => Err (Errorf ClientGetActiveProfileFailedErr) | r => r end) in
  let! (mux, _) := NewClientMuxFromProfile net hostSeed p ∅ in
  let noWait := match cp_HandshakeMode p with Some HANDSHAKE_NO_WAIT => true | _ => false end in
  let! used := Listen used socks "Listen on socks5 address %q failed: %v" in
  let d := mkClient rpc mux credentials noWait socks (listenAddress dualStack (default false (cc_socks5ListenLAN c)) socks) in
  if http =? 0 then Ret (d None)
  else if 0 <? len credentials then Err (Errorf HTTPNotCompatible)
  else
    let! _ := Listen used http "run HTTP proxy server failed: %v" in
    Ret (d (Some (http, listenAddress dualStack (default false (cc_httpProxyListenLAN c)) http))).

(** Whether the management service answered at some time, and the client, or why
    the process ended. *)
Definition clientRunFunc (w : world) : bool * outcome client :=
  match load w with
  | Ret c =>
      if isEmptyConfig c then (false, Err (Errorf ClientConfigIsEmpty))
      else match ValidateFullClientConfig parseDuration c with
           | Ret _ =>
               let rpc := default 0 (cc_rpcPort c) in
               if rpc =? 0 then (false, runProxy c None (usedPorts w))
               else match Listen (usedPorts w) rpc "Listen on RPC address %q failed: %v" with
                    | Ret used => (true, runProxy c (Some rpc) used)
                    | Err e => (false, Err e)
                    | Panic s => (false, Panic s)
                    end
           | _ => (false, Err (Errorf ValidateFullClientConfigFailedErr))
           end
  | Err ErrFileNotExist => (false, Err (Errorf ClientConfigNotExist))
  | _ => (false, Err (Errorf GetClientConfigFailedErr))
  end.

(** ** Is a client running *)

Inductive notRunning := FileNotExist | ConnRefused | OtherError.

Definition NewClientManagementRPCClient (w : world) : Z + notRunning :=
  match load w with
  | Ret c =>
      let port := default 0 (cc_rpcPort c) in
      if isEmptyConfig c then inr OtherError
      else if (port <? 1) || (65535 <? port) then inr OtherError
      else inl port
  | Err ErrFileNotExist => inr FileNotExist
  | _ => inr OtherError
  end.

Definition IsClientDaemonRunning (w : world) : client + notRunning :=
  match NewClientManagementRPCClient w with
  | inr e => inr e
  | inl port =>
      match find (λ d, bool_decide (d_rpcPort d = Some port)) (w_clients w) with
      | Some d => inl d
      | None => if bool_decide (port ∈ usedPorts w) then inr OtherError else inr ConnRefused
      end
  end.

Definition isRunning (w : world) : bool := match IsClientDaemonRunning w with inl _ => true | inr _ => false end.

(** ** Starting and stopping *)

Definition listeningText (state : string) (c : PbClientConfig) : bytes :=
  string_bytes ("mieru client is " ++ state ++ ", listening to socks5://")%string ++
  (if default false (cc_socks5ListenLAN c) then string_bytes "0.0.0.0:" else string_bytes "127.0.0.1:") ++ Itoa (default 0 (cc_socks5Port c)).

Definition proxyURI (c : PbClientConfig) : bytes := string_bytes "socks5://127.0.0.1:" ++ Itoa (default 0 (cc_socks5Port c)).

(** The end of [clientStartFunc]: the update check.  [query] is the answer of the
    release server through a proxy, or without one when the text is empty. *)
Definition afterStart (now : Z) (query : bytes → outcome bytes) (disk : bool) (c : PbClientConfig) (w : world) : outcome (list bytes) * world :=
  let line := listeningText "started" c in
  if clientShouldCheckUpdate addDays unmarshalHistory (default false (ca_noCheckUpdate <$> cc_advancedSettings c)) now (w_history w) then
    let '(msg, _, h) := clientCheckUpdateAndUpdateHistory marshalHistory unmarshalHistory now (query (proxyURI c)) disk (w_history w) in
    (Ret (if bool_decide (msg = UpToDateMessage) then [line] else [line; []; msg]), setHistory h w)
  else (Ret [line], w).

(** [exec]: the program can be executed; [early]: a poll finds the management
    service of a process that then ends. *)
Definition clientStartFunc (exec early : bool) (now : Z) (query : bytes → outcome bytes) (disk : bool) (w : world) : outcome (list bytes) * world :=
  match load w with
  | Ret c =>
      match ValidateFullClientConfig parseDuration c with
      | Ret _ =>
          if isRunning w then (Ret [listeningText "running" c], w)
          else if negb exec then (Err (Errorf "start mieru client failed: %w"), w)
          else
            let '(served, r) := clientRunFunc w in
            let w := match r with Ret d => setClients (w_clients w ++ [d]) w | _ => w end in
            if isRunning w || (served && early) then afterStart now query disk c w else (Err (Errorf ClientNotRunningErr), w)
      | _ => (Err (Errorf ValidateFullClientConfigFailedErr), w)
      end
  | Err ErrFileNotExist => (Err (Errorf ClientConfigNotExist), w)
  | _ => (Err (Errorf GetClientConfigFailedErr), w)
  end.

(** [Exit] closes the socks5 server and the service, and with both the process
    ends. *)
Definition exitClient (port : Z) (w : world) : world :=
  setClients (filter (λ d, d_rpcPort d ≠ Some port) (w_clients w)) w.

Definition clientStopFunc (w : world) : outcome (list bytes) * world :=
  match NewClientManagementRPCClient w with
  | inl port =>
      if isRunning w then (Ret [string_bytes "mieru client is stopped"], exitClient port w)
      else (Ret [string_bytes ClientNotRunning], w)
  | inr _ => (Ret [string_bytes ClientNotRunning], w)
  end.

Definition clientStatusFunc (w : world) : outcome (list bytes) * world :=
  (match IsClientDaemonRunning w with
   | inl _ => Ret [string_bytes "mieru client is running"]
   | inr ConnRefused => Err (Errorf ClientNotRunning)
   | inr FileNotExist => Err (Errorf "mieru client config file doesn't exist, please create one with mieru apply config <FILE> command")
   | inr OtherError => Err (Errorf ClientNotRunningErr)
   end, w).

(** ** The configuration *)

(** How the commands that need a configuration read it. *)
Definition loadConfig (w : world) : outcome PbClientConfig :=
  match load w with
  | Ret c => Ret c
  | Err ErrFileNotExist => Err (Errorf ClientConfigNotExist)
  | Err _ => Err (Errorf GetClientConfigFailedErr)
  | Panic s => Panic s
  end.

(** A missing file is created with an empty configuration. *)
Definition ensureFile (w : world) : outcome world :=
  match load w with
  | Err ErrFileNotExist =>
      match StoreClientConfig marshal emptyConfig with
      | Ret f => Ret (setFile f w) | Err _ => Err (Errorf StoreClientConfigFailedErr) | Panic s => Panic s
      end
  | _ => Ret w
  end.

(** A command that ends with writing the file. *)
Definition written (lines : list bytes) (r : outcome (option bytes)) (w : world) : outcome (list bytes) * world :=
  match r with Ret f => (Ret lines, setFile f w) | Err e => (Err e, w) | Panic s => (Panic s, w) end.

Definition withFile (f : world → outcome (list bytes) * world) (w : world) : outcome (list bytes) * world :=
  match ensureFile w with Ret w => f w | Err e => (Err e, w) | Panic s => (Panic s, w) end.

Definition printed (r : outcome (list bytes)) (w : world) : outcome (list bytes) * world := (r, w).

(** [json]: what reading the file of the argument gives. *)
Definition ApplyJSONClientConfig (json : option bytes) (file : option bytes) : outcome (option bytes) :=
  match json with
  | None => Err (Errorf "os.ReadFile(%q) failed: %w")
  | Some b => match unmarshalJSON b with
              | Ret c => applyClientConfig parseDuration marshal unmarshal c file
              | Err _ => Err (Errorf "common.UnmarshalJSON() failed: %w") | Panic s => Panic s end
  end.

Definition clientApplyConfigFunc (json : option bytes) : world → outcome (list bytes) * world :=
  withFile (λ w, written [] (ApplyJSONClientConfig json (w_file w)) w).

Definition clientImportConfigFunc (url : bytes) : world → outcome (list bytes) * world :=
  withFile (λ w, written [] (ApplyURLClientConfig marshal unmarshal unmarshalPattern parseDuration url (w_file w)) w).

Definition jsonLine (r : outcome bytes) : outcome (list bytes) :=
  match r with Ret b => Ret [b] | Err _ => Err (Errorf "common.MarshalJSON() failed: %w") | Panic s => Panic s end.

Definition clientDescribeConfigFunc : world → outcome (list bytes) * world :=
  withFile (λ w, printed (match load w with
    | Ret c => match marshalJSON c with Ret b => Ret [b] | Err _ => Err (Errorf GetClientConfigFailedErr) | Panic s => Panic s end
    | Err _ => Err (Errorf GetClientConfigFailedErr)
    | Panic s => Panic s
    end) w).

Definition activeProfile (c : PbClientConfig) : outcome PbClientProfile :=
  match GetActiveProfileFromConfig c (default "" (cc_activeProfile c)) with
  | Err _ => Err (Errorf ClientGetActiveProfileFailedErr) | r => r end.

Definition clientDescribeEffectiveTrafficPatternFunc (w : world) : outcome (list bytes) * world :=
  printed (let! c := loadConfig w in let! p := activeProfile c in
    let! (tp, _) := NewConfig hostSeed (cp_trafficPattern p) ∅ in jsonLine (patternJSON (effective tp))) w.

(** trafficpattern.Encode: the absent pattern is encoded as no bytes. *)
Definition EncodePattern (tp : option TrafficPattern) : bytes :=
  match tp with
  | None => []
  | Some tp => match marshalPattern tp with Ret b => b64Encode false true b | _ => [] end
  end.

Definition DecodePattern (encoded : bytes) : outcome TrafficPattern :=
  match StdDecode encoded with
  | None => Err (Errorf "decode base64 string failed: %w")
  | Some b => match unmarshalPattern b with Ret tp => Ret tp | Err _ => Err (Errorf "proto.Unmarshal() failed: %w") | Panic s => Panic s end
  end.

Definition clientExportTrafficPatternFunc (w : world) : outcome (list bytes) * world :=
  printed (let! c := loadConfig w in let! p := activeProfile c in Ret [EncodePattern (cp_trafficPattern p)]) w.

Definition explainTrafficPatternFunc (encoded : bytes) (w : world) : outcome (list bytes) * world :=
  printed (let! tp := DecodePattern encoded in jsonLine (patternJSON tp)) w.

Definition clientExportConfigFunc (w : world) : outcome (list bytes) * world :=
  printed (let! _ := loadConfig w in
    match GetURLClientConfig marshal unmarshal (w_file w) with
    | Ret u => Ret [u] | Err _ => Err (Errorf GetClientConfigFailedErr) | Panic s => Panic s end) w.

Definition errorLine (e : goerr) : bytes := match e with Errorf fmt => string_bytes fmt | _ => [] end.

(** The links of one profile, or the line that says why there are none. *)
Definition simpleLines (p : PbClientProfile) : outcome (list bytes) :=
  match ClientProfileToMultiURLs marshalPattern (Some p) with Ret urls => Ret urls | Err e => Ret [errorLine e] | Panic s => Panic s end.

Definition clientExportConfigSimpleFunc (w : world) : outcome (list bytes) * world :=
  printed (let! c := loadConfig w in let! ls := mapOutcome simpleLines (cc_profiles c) in Ret (concat ls)) w.

Definition clientExplainConfigFunc (url : bytes) (w : world) : outcome (list bytes) * world :=
  printed (let! c := ParseURLClientConfig unmarshal unmarshalPattern url in jsonLine (marshalJSON c)) w.

(** The commands that delete do not distinguish a missing file. *)
Definition loadAny (w : world) : outcome PbClientConfig :=
  match load w with Ret c => Ret c | Err _ => Err (Errorf GetClientConfigFailedErr) | Panic s => Panic s end.

Definition storeConfig (c : PbClientConfig) : outcome (option bytes) :=
  match StoreClientConfig marshal c with Ret f => Ret f | Err _ => Err (Errorf StoreClientConfigFailedErr) | Panic s => Panic s end.

Definition clientDeleteProfileFunc (name : string) (w : world) : outcome (list bytes) * world :=
  match loadAny w with
  | Ret _ => written [] (DeleteClientConfigProfile marshal unmarshal name (w_file w)) w
  | Err e => (Err e, w)
  | Panic s => (Panic s, w)
  end.

Definition noHTTP (c : PbClientConfig) : PbClientConfig :=
  mkClientConfig (cc_profiles c) (cc_activeProfile c) (cc_rpcPort c) (cc_socks5Port c) (cc_advancedSettings c) (cc_loggingLevel c)
    (cc_socks5ListenLAN c) None None (cc_socks5Authentication c).

Definition clientDeleteHTTPProxyFunc (w : world) : outcome (list bytes) * world :=
  match loadAny w with
  | Ret c =>
      match cc_httpProxyPort c, cc_httpProxyListenLAN c with
      | None, None => (Ret [string_bytes "HTTP proxy is already deleted from client config."], w)
      | _, _ => written [string_bytes "HTTP proxy is deleted from client config."] (storeConfig (noHTTP c)) w
      end
  | Err e => (Err e, w)
  | Panic s => (Panic s, w)
  end.

Definition noAuthentication (c : PbClientConfig) : PbClientConfig :=
  mkClientConfig (cc_profiles c) (cc_activeProfile c) (cc_rpcPort c) (cc_socks5Port c) (cc_advancedSettings c) (cc_loggingLevel c)
    (cc_socks5ListenLAN c) (cc_httpProxyPort c) (cc_httpProxyListenLAN c) None.

Definition clientDeleteSocks5AuthenticationFunc (w : world) : outcome (list bytes) * world :=
  match loadAny w with
  | Ret c =>
      if len (default [] (cc_socks5Authentication c)) =? 0
      then (Ret [string_bytes "socks5 user password authentication is already deleted from client config."], w)
      else written [string_bytes "socks5 user password authentication is deleted from client config."] (storeConfig (noAuthentication c)) w
  | Err e => (Err e, w)
  | Panic s => (Panic s, w)
  end.

Definition clientCheckUpdateFunc (now : Z) (query : bytes → outcome bytes) (disk : bool) (w : world) : outcome (list bytes) * world :=
  let uri := if isRunning w then match load w with Ret c => proxyURI c | _ => [] end else [] in
  let '(msg, err, h) := clientCheckUpdateAndUpdateHistory marshalHistory unmarshalHistory now (query uri) disk (w_history w) in
  (match err with
   | None => Ret [msg]
   | Some _ => if bool_decide (uri = []) then Err (Errorf "check update without proxy failed: %w; please start mieru proxy client and try again")
               else Err (Errorf "check update with proxy %s failed: %w")
   end, setHistory h w).

(** ** Sequences of commands *)

Inductive command :=
| Start (exec early : bool) (now : Z) (query : bytes → outcome bytes) (disk : bool)
| Stop | Status
| ApplyConfig (json : option bytes) | DescribeConfig | DescribePattern
| ImportConfig (url : bytes) | ExportSimple | ExportConfig | ExportPattern
| ExplainConfig (url : bytes) | ExplainPattern (encoded : bytes)
| DeleteProfile (name : string) | DeleteHTTP | DeleteAuthentication
| CheckUpdate (now : Z) (query : bytes → outcome bytes) (disk : bool).

Definition execute (k : command) : world → outcome (list bytes) * world :=
  match k with
  | Start exec early now query disk => clientStartFunc exec early now query disk
  | Stop => clientStopFunc
  | Status => clientStatusFunc
  | ApplyConfig json => clientApplyConfigFunc json
  | DescribeConfig => clientDescribeConfigFunc
  | DescribePattern => clientDescribeEffectiveTrafficPatternFunc
  | ImportConfig url => clientImportConfigFunc url
  | ExportSimple => clientExportConfigSimpleFunc
  | ExportConfig => clientExportConfigFunc
  | ExportPattern => clientExportTrafficPatternFunc
  | ExplainConfig url => clientExplainConfigFunc url
  | ExplainPattern encoded => explainTrafficPatternFunc encoded
  | DeleteProfile name => clientDeleteProfileFunc name
  | DeleteHTTP => clientDeleteHTTPProxyFunc
  | DeleteAuthentication => clientDeleteSocks5AuthenticationFunc
  | CheckUpdate now query disk => clientCheckUpdateFunc now query disk
  end.

(** What the user can reach from a machine without a client. *)
Inductive reachable : world → Prop :=
| reachable_fresh others history : reachable (mkWorld None [] others history)
| reachable_step k w : reachable w → reachable (execute k w).2.

(** * Properties *)

Context (marshal_ok : ∀ c, wire c → ∃ b, marshal c = Ret b ∧ bytes_ok b ∧ unmarshal b = Ret c).
Context (unmarshal_wire : ∀ b c, unmarshal b = Ret c → wire c) (unmarshalJSON_wire : ∀ b c, unmarshalJSON b = Ret c → wire c).

Notation ValidateFull := (ValidateFullClientConfig parseDuration).
Notation names c := (cp_profileName <$> cc_profiles c).

(** A configuration as the commands leave it in the file: it passes validation, its
    profiles are sorted, each name once, and every password in clear text has its
    hash beside it (the password itself is kept). *)
Record normal (c : PbClientConfig) : Prop := {
  nf_valid : ValidateFull c = Ret tt;
  nf_sorted : StronglySorted String.le (names c);
  nf_nodup : NoDup (names c);
  nf_hashed : hashProfile <$> cc_profiles c = cc_profiles c;
  nf_set : is_Some (cc_activeProfile c) ∧ is_Some (cc_socks5Port c) ∧ is_Some (cc_loggingLevel c);
  nf_wire : wire c
}.

Definition config_ok (c : PbClientConfig) : Prop := c = emptyConfig ∨ normal c.
Definition file_ok (f : option bytes) : Prop := f = None ∨ ∃ b c, f = Some b ∧ unmarshal b = Ret c ∧ config_ok c.

(** ** Sorted profiles *)

Lemma lookup_nodup {A} (key : A → string) l x : NoDup (key <$> l) → x ∈ l → listToMap key l !! key x = Some x.
Proof.
  induction l as [|y l IH] using rev_ind; intros Hn Hx; [by apply elem_of_nil in Hx|].
  rewrite lookup_listToMap_app. rewrite fmap_app in Hn. apply NoDup_app in Hn as (Hl & Hd & _).
  apply elem_of_app in Hx as [Hx|Hx%list_elem_of_singleton].
  - unfold listToMap at 1. cbn [foldl]. rewrite lookup_insert_ne; [cbn; by apply IH|].
    intros E. apply (Hd (key x)); [by apply list_elem_of_fmap_2|]. rewrite <- E. apply list_elem_of_here.
  - subst. unfold listToMap at 1. cbn [foldl]. by rewrite lookup_insert_eq.
Qed.

Lemma sorted_values_id {A} (key : A → string) l :
  StronglySorted String.le (key <$> l) → NoDup (key <$> l) → sortedValues (listToMap key l) = l.
Proof.
  intros Hs Hn. assert (Hnames : sortedNames (listToMap key l) = key <$> l).
  { apply (StronglySorted_unique String.le); [apply (StronglySorted_merge_sort String.le)|done|].
    apply NoDup_Permutation; [apply sortedNames_NoDup|done|]. intros n. rewrite elem_of_sortedNames. split.
    - intros [x Hx]. apply lookup_listToMap in Hx as [<- Hx]. by apply list_elem_of_fmap_2.
    - intros (x & -> & Hx)%list_elem_of_fmap. exists x. by apply lookup_nodup. }
  unfold sortedValues. rewrite Hnames. clear Hnames Hs.
  assert (Hall : ∀ x, x ∈ l → listToMap key l !! key x = Some x) by (intros; by apply lookup_nodup). clear Hn.
  revert Hall. generalize (listToMap key l). intros m. induction l as [|x l IH]; intros Hall; [done|]. cbn.
  rewrite (Hall x (list_elem_of_here _ _)). f_equal. apply IH. intros y Hy. by apply Hall, list_elem_of_further.
Qed.

Lemma merge_names dst src : names (mergeClientConfigByProfile dst src) = sortedNames (profileMap (cc_profiles src) ∪ profileMap (cc_profiles dst)).
Proof. apply (sortedValues_names cp_profileName), merge_keyed. Qed.

Lemma stored_names_same c : names (storedClient c) = names c.
Proof. cbn. by rewrite <- list_fmap_compose. Qed.

Lemma merge_normal dst src : wire dst → wire src → ValidateFull (mergeClientConfigByProfile dst src) = Ret tt →
  normal (storedClient (mergeClientConfigByProfile dst src)).
Proof.
  intros Hd Hs Hv. split.
  - by apply storedClient_full.
  - rewrite stored_names_same, merge_names. apply (StronglySorted_merge_sort String.le).
  - rewrite stored_names_same, merge_names. apply sortedNames_NoDup.
  - cbn. rewrite <- list_fmap_compose. apply list_fmap_ext. intros ? p _. apply hashProfile_idem.
  - cbn. eauto.
  - unfold wire in *. cbn. by destruct (cc_socks5Authentication src).
Qed.

(** A normal configuration is what merging it into nothing and storing it gives. *)
Lemma merge_empty c : normal c → mergeClientConfigByProfile emptyConfig c = c ∧ storedClient c = c.
Proof.
  intros [_ Hs Hn Hh ([a Ha] & [p Hp] & [l Hl]) _]. destruct c as [ps act rpc socks adv log lan http hlan auth]. cbn in *. subst. split.
  - unfold mergeClientConfigByProfile. cbn. f_equal; first [by destruct rpc|by destruct adv|by destruct lan|by destruct http|by destruct hlan|by destruct auth|idtac].
    change (profileMap []) with (∅ : gmap string PbClientProfile). rewrite (right_id ∅ (∪)). by apply sorted_values_id.
  - unfold storedClient, set_profiles. cbn. by rewrite Hh.
Qed.

Lemma config_ok_wire c : config_ok c → wire c.
Proof. intros [->|H]; [done|apply H]. Qed.

Lemma store_ok c : wire c → ∃ b, StoreClientConfig marshal c = Ret (Some b) ∧ bytes_ok b ∧ unmarshal b = Ret (storedClient c).
Proof. intros Hw. destruct (marshal_ok (storedClient c)) as (b & Hm & Hb & Hu); [exact Hw|]. exists b. unfold StoreClientConfig. by rewrite Hm. Qed.

(** ** Every command keeps the file sound *)

Lemma apply_file src file f : file_ok file → wire src → applyClientConfig parseDuration marshal unmarshal src file = Ret f → file_ok f.
Proof.
  intros Hf Hw. unfold applyClientConfig. intros (_ & _ & H)%obind_ret_inv. apply obind_ret_inv in H as (dst & Hl & H).
  apply obind_ret_inv in H as ([] & Hv & H). destruct Hf as [->|(b & c & -> & Hu & Hc)]; [done|]. cbn in Hl. rewrite Hu in Hl. injection Hl as ->.
  pose proof (merge_normal dst src (config_ok_wire _ Hc) Hw Hv) as Hn.
  destruct (store_ok (mergeClientConfigByProfile dst src) (nf_wire _ Hn)) as (b' & Hs & _ & Hb'). rewrite Hs in H. injection H as <-. right.
  exists b', (storedClient (mergeClientConfigByProfile dst src)). split_and!; [done|done|by right].
Qed.

Lemma filter_names (P : PbClientProfile → Prop) `{∀ p, Decision (P p)} ps :
  StronglySorted String.le (cp_profileName <$> ps) → NoDup (cp_profileName <$> ps) →
  StronglySorted String.le (cp_profileName <$> filter P ps) ∧ NoDup (cp_profileName <$> filter P ps).
Proof.
  induction ps as [|p ps IH]; [done|]. cbn [fmap list_fmap]. intros Hs Hn. inversion Hs as [|? ? Hs' Hall]; subst. apply NoDup_cons in Hn as [Hp Hn].
  destruct (IH Hs' Hn) as [H1 H2]. assert (Hsub : ∀ n, n ∈ (cp_profileName <$> filter P ps) → n ∈ (cp_profileName <$> ps)).
  { intros n (q & -> & Hq)%list_elem_of_fmap. apply list_elem_of_filter in Hq as [_ Hq]. by apply list_elem_of_fmap_2. }
  rewrite filter_cons. destruct (decide (P p)); [|done]. cbn [fmap list_fmap]. split.
  - constructor; [done|]. rewrite Forall_forall in Hall |- *. auto.
  - apply NoDup_cons. auto.
Qed.

Lemma delete_normal c name : normal c → default "" (cc_activeProfile c) ≠ name →
  normal (set_profiles (filter (λ p, cp_profileName p ≠ name) (cc_profiles c)) c) ∧
  storedClient (set_profiles (filter (λ p, cp_profileName p ≠ name) (cc_profiles c)) c) = set_profiles (filter (λ p, cp_profileName p ≠ name) (cc_profiles c)) c.
Proof.
  intros [Hv Hs Hn Hh Hset Hw] Hact. destruct (filter_names (λ p, cp_profileName p ≠ name) _ Hs Hn) as [Hs' Hn'].
  assert (Hh' : hashProfile <$> filter (λ p, cp_profileName p ≠ name) (cc_profiles c) = filter (λ p, cp_profileName p ≠ name) (cc_profiles c)).
  { clear - Hh. induction (cc_profiles c) as [|p ps IH]; [done|]. cbn in Hh. injection Hh as Hp Hps. rewrite filter_cons. destruct (decide _); [|by apply IH].
    cbn. rewrite Hp. f_equal. by apply IH. }
  split; [|unfold storedClient; cbn; by rewrite Hh'].
  split; cbn; try done. revert Hv. rewrite !ValidateFullClient_ret, !ValidatePatchClient_ret. intros ((Hp & Ha & Hm) & H1 & H2 & H3). cbn.
  split_and!; try done.
  - apply Forall_forall. intros p [_ Hin]%list_elem_of_filter. rewrite Forall_forall in Hp. by apply Hp.
  - apply list_elem_of_fmap in H2 as (p & Hpn & Hpin). rewrite Hpn. apply list_elem_of_fmap_2, list_elem_of_filter. split; [congruence|done].
Qed.

Lemma noHTTP_normal c : normal c → normal (noHTTP c) ∧ storedClient (noHTTP c) = noHTTP c.
Proof.
  intros [Hv Hs Hn Hh Hset Hw]. split; [|unfold storedClient, set_profiles, noHTTP; cbn; by rewrite Hh].
  split; cbn; try done. revert Hv. rewrite !ValidateFullClient_ret, !ValidatePatchClient_ret. intros (Hp & H1 & H2 & H3).
  split_and!; try apply Hp; try done. unfold portsValid in *. cbn in *. destruct (cc_httpProxyPort c); [|done].
  apply andb_prop in H3 as [H3 _]. by rewrite H3.
Qed.

Lemma noAuthentication_normal c : normal c → normal (noAuthentication c) ∧ storedClient (noAuthentication c) = noAuthentication c.
Proof.
  intros [Hv Hs Hn Hh Hset Hw]. split; [|unfold storedClient, set_profiles, noAuthentication; cbn; by rewrite Hh].
  split; cbn; try done. revert Hv. rewrite !ValidateFullClient_ret, !ValidatePatchClient_ret. intros (Hp & H1 & H2 & H3).
  split_and!; try apply Hp; try done.
Qed.

Lemma ensureFile_ok w : file_ok (w_file w) → ∃ w', ensureFile w = Ret w' ∧ w_clients w' = w_clients w ∧ w_others w' = w_others w ∧ w_history w' = w_history w ∧
  file_ok (w_file w') ∧ (w_file w = None → load w' = Ret emptyConfig) ∧ (w_file w ≠ None → w' = w).
Proof.
  unfold ensureFile. intros [Hf|(b & c & Hf & Hu & Hc)]; rewrite Hf; cbn [LoadClientConfig].
  - destruct (store_ok emptyConfig) as (b & -> & _ & Hu); [done|]. exists (setFile (Some b) w). cbn. split_and!; try done.
    right. exists b, emptyConfig. split_and!; [done|done|by left].
  - rewrite Hu. exists w. split_and!; try done. right. by exists b, c.
Qed.

Lemma written_ok lines r w : (∀ f, r = Ret f → file_ok f) → file_ok (w_file w) → file_ok (w_file (written lines r w).2).
Proof. intros H Hw. destruct r; cbn; auto. Qed.

Lemma withFile_ok f w : file_ok (w_file w) → (∀ w', w_clients w' = w_clients w → file_ok (w_file w') → file_ok (w_file (f w').2)) → file_ok (w_file (withFile f w).2).
Proof. intros Hw Hf. unfold withFile. destruct (ensureFile_ok w Hw) as (w' & -> & Hc & _ & _ & Hok & _). by apply Hf. Qed.

Lemma stored_file c f : wire c → config_ok c → storedClient c = c → storeConfig c = Ret f → file_ok f.
Proof.
  intros Hw Hc Hs. unfold storeConfig. destruct (store_ok c Hw) as (b & -> & _ & Hu). intros [= <-]. right. exists b, c. rewrite Hs in Hu. by split_and!.
Qed.

Lemma load_ok w c : file_ok (w_file w) → load w = Ret c → config_ok c.
Proof. intros [->|(b & c' & -> & Hu & Hc)]; cbn; [done|]. rewrite Hu. by intros [= <-]. Qed.

Lemma start_file exec early now query disk w : w_file (clientStartFunc exec early now query disk w).2 = w_file w.
Proof. unfold clientStartFunc, afterStart. by repeat case_match. Qed.

Lemma execute_file k w : file_ok (w_file w) → file_ok (w_file (execute k w).2).
Proof.
  intros Hw. destruct k; cbn [execute]; try exact Hw.
  - by rewrite start_file.
  - unfold clientStopFunc. by repeat case_match.
  - apply withFile_ok; [done|]. intros w' _ Hw'. apply written_ok; [|done]. intros f Hf. unfold ApplyJSONClientConfig in Hf. destruct json as [b|]; [|done].
    destruct (unmarshalJSON b) as [c| |] eqn:E; [|done..]. by apply (apply_file c (w_file w')); [|eapply unmarshalJSON_wire|].
  - apply withFile_ok; [done|]. by intros w' _ Hw'.
  - apply withFile_ok; [done|]. intros w' _ Hw'. apply written_ok; [|done]. intros f Hf. unfold ApplyURLClientConfig in Hf.
    apply obind_ret_inv in Hf as (c & Hp & Hf). apply (apply_file c (w_file w')); [done| |done]. unfold ParseURLClientConfig, URLToClientConfig in Hp.
    repeat (case_match; try discriminate Hp; simplify_eq); done || by eapply unmarshal_wire.
  - unfold clientDeleteProfileFunc, loadAny. destruct (load w) as [c| |] eqn:El; [|done..]. apply written_ok; [|done]. intros f Hf.
    unfold DeleteClientConfigProfile in Hf. rewrite El in Hf. cbn [obind] in Hf. case_bool_decide; [done|].
    set (c' := set_profiles _ c) in *. assert (Hs : config_ok c' ∧ storedClient c' = c').
    { destruct (load_ok w c Hw El) as [->|Hn]; [by split; [left|]|]. destruct (delete_normal c name Hn) as [? ?]; [done|]. by split; [right|]. }
    destruct Hs as [H1 H2]. apply (stored_file _ f (config_ok_wire _ H1) H1 H2). unfold storeConfig. by rewrite Hf.
  - unfold clientDeleteHTTPProxyFunc, loadAny. destruct (load w) as [c| |] eqn:El; [|done..].
    destruct (load_ok w c Hw El) as [->|Hn]; [done|]. destruct (noHTTP_normal c Hn) as [H1 H2].
    repeat case_match; try done; (apply written_ok; [|done]; intros f Hf; by apply (stored_file (noHTTP c)); [apply H1|right|..]).
  - unfold clientDeleteSocks5AuthenticationFunc, loadAny. destruct (load w) as [c| |] eqn:El; [|done..].
    destruct (load_ok w c Hw El) as [->|Hn]; [done|]. destruct (noAuthentication_normal c Hn) as [H1 H2].
    case_if; [done|]. apply written_ok; [|done]. intros f Hf. by apply (stored_file (noAuthentication c)); [apply H1|right|..].
  - unfold clientCheckUpdateFunc. by repeat case_match.
Qed.

(** ** The running clients *)

(** A client that serves: a dial on its mux passes every check, and its HTTP proxy
    can use its socks5 server. *)
Definition client_ok (d : client) : Prop :=
  dialGuards (d_mux d) = None ∧ m_done (d_mux d) = false ∧ (d_http d ≠ None → d_credentials d = []).

Lemma Listen_ret used p fmt u : Listen used p fmt = Ret u ↔ p ∉ used ∧ u = p :: used.
Proof. unfold Listen. case_bool_decide; split; [done|by intros [? _]|by intros [= <-]|by intros [_ ->]]. Qed.

Lemma valid_active c p : ValidateFull c = Ret tt → GetActiveProfileFromConfig c (default "" (cc_activeProfile c)) = Ret p → ValidateClientConfigSingleProfile p = Ret tt.
Proof.
  rewrite ValidateFullClient_ret, ValidatePatchClient_ret. intros ((Hp & _) & _) Hg. unfold GetActiveProfileFromConfig in Hg.
  destruct (find _ (cc_profiles c)) as [q|] eqn:E; [|done]. injection Hg as ->. apply find_some in E as [E _]. apply list_elem_of_In in E.
  rewrite Forall_forall in Hp. by apply Hp.
Qed.

Lemma active_found c : ValidateFull c = Ret tt → ∃ p, GetActiveProfileFromConfig c (default "" (cc_activeProfile c)) = Ret p.
Proof.
  rewrite ValidateFullClient_ret. intros (_ & _ & Hin & _). unfold GetActiveProfileFromConfig. destruct (find _ (cc_profiles c)) as [p|] eqn:E; [by exists p|].
  exfalso. apply list_elem_of_fmap in Hin as (p & Hname & Hpin). apply list_elem_of_In in Hpin. apply (find_none _ _ E) in Hpin. apply bool_decide_eq_false in Hpin. congruence.
Qed.

(** A mux that was made can dial. *)
Lemma made_mux_ok p (m : Mux V) c' : ValidateClientConfigSingleProfile p = Ret tt → NewClientMuxFromProfile net hostSeed p ∅ = Ret (m, c') →
  dialGuards m = None ∧ m_done m = false.
Proof.
  intros Hv Hm. assert (Hcoh : Rng.cache_coherent string_bytes ∅) by (intros ? ? H; by rewrite lookup_empty in H).
  destruct (hexDecode (string_bytes (pu_hashedPassword (cp_user p)))) as [k|] eqn:Eh.
  - destruct (profile_mux_ok (V := V) net hostSeed p ∅ Hv) as (m' & c2 & Hm' & Hg & (Hd & _) & _); [by rewrite Eh|done|].
    rewrite Hm' in Hm. by injection Hm as -> ->.
  - exfalso. unfold NewClientMuxFromProfile in Hm. apply obind_ret_inv in Hm as ([cfg c1] & _ & Hm). apply obind_ret_inv in Hm as (k & Hk & _).
    unfold clientKey in Hk. rewrite Eh in Hk. case_bool_decide as Hh; [|done]. rewrite Hh in Eh. done.
Qed.

Lemma runProxy_ok c rpc used d : ValidateFull c = Ret tt → runProxy c rpc used = Ret d →
  client_ok d ∧ d_rpcPort d = rpc ∧ d_socksPort d = default 0 (cc_socks5Port c) ∧ NoDup ([d_socksPort d] ++ option_list (fst <$> d_http d)) ∧
  ∀ x, x ∈ [d_socksPort d] ++ option_list (fst <$> d_http d) → x ∉ used.
Proof.
  intros Hv Hr. unfold runProxy in Hr. apply obind_ret_inv in Hr as (p & Hp & Hr). apply obind_ret_inv in Hr as ([m c'] & Hm & Hr).
  apply obind_ret_inv in Hr as (u1 & Hl1 & Hr). apply Listen_ret in Hl1 as [Hs ->].
  assert (Hg : GetActiveProfileFromConfig c (default "" (cc_activeProfile c)) = Ret p) by (by destruct (GetActiveProfileFromConfig c _)).
  destruct (made_mux_ok p m c' (valid_active c p Hv Hg) Hm) as [Hd1 Hd2]. case_if_in Hr.
  - injection Hr as <-. unfold client_ok. cbn. split_and!; [done..|apply NoDup_singleton|]. intros x Hx%list_elem_of_singleton. by subst x.
  - case_if_in Hr; [done|]. apply obind_ret_inv in Hr as (u2 & Hl2 & Hr). apply Listen_ret in Hl2 as [Hh ->]. injection Hr as <-. unfold client_ok. cbn.
    apply not_elem_of_cons in Hh as [Hne Hh]. split_and!; [done|done| |done|done| |].
    + intros _. destruct (default [] (cc_socks5Authentication c)); [done|]. bool_to_Z. unfold len in *. cbn in *. lia.
    + apply NoDup_cons. split; [|apply NoDup_singleton]. intros Hx%list_elem_of_singleton. by apply Hne.
    + intros x [Hx|Hx%list_elem_of_singleton]%elem_of_cons; by subst x.
Qed.

Lemma clientRun_ok w b d : clientRunFunc w = (b, Ret d) → client_ok d ∧ (NoDup (usedPorts w) → NoDup (usedPorts w ++ clientPorts d)).
Proof.
  unfold clientRunFunc. destruct (load w) as [c|[]|]; try (by intros [= ]). case_if; [by intros [= ]|].
  destruct (ValidateFull c) as [[]| |] eqn:Hv; try (by intros [= ]). case_if.
  - intros [= _ Hr]. destruct (runProxy_ok c None (usedPorts w) d Hv Hr) as (Hok & Hrpc & _ & Hn & Hdis). split; [done|]. intros Hu.
    unfold clientPorts. rewrite Hrpc. apply NoDup_app. split_and!; [done| |done]. intros x Hx Hx'. by apply (Hdis x).
  - destruct (Listen _ _ _) as [u| |] eqn:El; try (by intros [= ]). apply Listen_ret in El as [Hfree ->]. intros [= _ Hr].
    destruct (runProxy_ok c _ _ d Hv Hr) as (Hok & Hrpc & _ & Hn & Hdis). split; [done|]. intros Hu. unfold clientPorts. rewrite Hrpc. apply NoDup_app. split_and!; [done| |].
    + intros x Hx Hx'. cbn [option_list app] in Hx'. apply elem_of_cons in Hx' as [->|Hx']; [done|]. apply (Hdis x Hx'). by apply list_elem_of_further.
    + cbn [option_list]. apply NoDup_cons. split; [|done]. intros Hx. apply (Hdis _ Hx). apply list_elem_of_here.
Qed.

Definition clients_ok (w : world) : Prop := NoDup (usedPorts w) ∧ Forall client_ok (w_clients w).

Lemma usedPorts_add ds d w : usedPorts (setClients (ds ++ [d]) w) = usedPorts (setClients ds w) ++ clientPorts d.
Proof. unfold usedPorts. cbn. by rewrite fmap_app, concat_app, app_assoc; cbn; rewrite app_nil_r. Qed.

Lemma exit_ports port w : usedPorts (exitClient port w) `sublist_of` usedPorts w.
Proof.
  unfold usedPorts, exitClient. cbn. apply sublist_app; [done|]. induction (w_clients w) as [|d ds IH]; [done|].
  rewrite filter_cons. destruct (decide _); cbn; [by apply sublist_app|by apply sublist_inserts_l].
Qed.

Lemma afterStart_clients now query disk c w : w_clients (afterStart now query disk c w).2 = w_clients w ∧ w_others (afterStart now query disk c w).2 = w_others w.
Proof. unfold afterStart. by repeat case_match. Qed.

Lemma start_clients exec early now query disk w :
  let w' := (clientStartFunc exec early now query disk w).2 in
  w_others w' = w_others w ∧ (w_clients w' = w_clients w ∨ ∃ b d, clientRunFunc w = (b, Ret d) ∧ w_clients w' = w_clients w ++ [d]).
Proof.
  cbv zeta. unfold clientStartFunc. destruct (load w) as [c|[]|]; try (by split; [|left]). destruct (ValidateFull c); try (by split; [|left]).
  case_if; [by split; [|left]|]. case_if; [by split; [|left]|]. destruct (clientRunFunc w) as [b [d| |]]; case_if;
    try (destruct (afterStart_clients now query disk c w) as [-> ->]; by split; [|left]); try (by split; [|left]).
  - destruct (afterStart_clients now query disk c (setClients (w_clients w ++ [d]) w)) as [-> ->]. split; [done|right]. by exists b, d.
  - split; [done|right]. by exists b, d.
Qed.

(** The commands other than start and stop leave the clients alone. *)
Lemma other_clients k w : (∀ e f n q d, k ≠ Start e f n q d) → k ≠ Stop → w_clients (execute k w).2 = w_clients w ∧ w_others (execute k w).2 = w_others w.
Proof.
  assert (Hwf : ∀ f, (∀ w', w_clients (f w').2 = w_clients w' ∧ w_others (f w').2 = w_others w') →
    w_clients (withFile f w).2 = w_clients w ∧ w_others (withFile f w).2 = w_others w).
  { intros f Hf. unfold withFile. destruct (ensureFile w) as [w'| |] eqn:E; [|done..]. destruct (Hf w') as [-> ->].
    unfold ensureFile in E. by repeat (case_match; simplify_eq). }
  assert (Hwr : ∀ l r w, w_clients (written l r w).2 = w_clients w ∧ w_others (written l r w).2 = w_others w) by (by intros l [] w').
  intros Hs Ht. destruct k; cbn [execute]; try done.
  - by destruct (Hs exec early now query disk).
  - by apply Hwf.
  - by apply Hwf.
  - by apply Hwf.
  - unfold clientDeleteProfileFunc. by case_match.
  - unfold clientDeleteHTTPProxyFunc. by repeat case_match.
  - unfold clientDeleteSocks5AuthenticationFunc. by repeat case_match.
  - unfold clientCheckUpdateFunc. by repeat case_match.
Qed.

Lemma clients_ok_same w w' : w_clients w' = w_clients w → w_others w' = w_others w → clients_ok w → clients_ok w'.
Proof. unfold clients_ok, usedPorts. by intros -> ->. Qed.

Lemma execute_clients k w : clients_ok w → clients_ok (execute k w).2.
Proof.
  intros Hw. assert (Hk : (∃ e f n q d, k = Start e f n q d) ∨ k = Stop ∨ ((∀ e f n q d, k ≠ Start e f n q d) ∧ k ≠ Stop)).
  { destruct k; try (by right; right); [left; by eexists _, _, _, _, _|by right; left]. }
  destruct Hk as [(e & f & n & q & d & ->)|[->|[Hs Ht]]].
  - cbn [execute]. destruct (start_clients e f n q d w) as [Ho [Hc|(b & d' & Hr & Hc)]]; [by eapply clients_ok_same|].
    destruct Hw as [Hn Hall]. destruct (clientRun_ok w b d' Hr) as [Hok Hnd]. eapply (clients_ok_same (setClients (w_clients w ++ [d']) w)); [done|done|].
    split; [rewrite usedPorts_add; by apply Hnd|]. cbn. apply Forall_app. split; [done|by apply Forall_singleton].
  - cbn [execute]. unfold clientStopFunc. case_match; [|done]. case_match; [|done]. destruct Hw as [Hn Hall]. split.
    + eapply sublist_NoDup; [exact Hn|apply exit_ports].
    + cbn. apply Forall_forall. intros d [_ Hd]%list_elem_of_filter. rewrite Forall_forall in Hall. by apply Hall.
  - destruct (other_clients k w Hs Ht) as [Hc Ho]. by eapply clients_ok_same.
Qed.

Lemma reachable_file w : reachable w → file_ok (w_file w).
Proof. induction 1 as [|k w _ IH]; [by left|by apply execute_file]. Qed.

Lemma reachable_clients w : reachable w → NoDup (w_others w) → clients_ok w.
Proof.
  induction 1 as [others history|k w Hr IH]; intros Hn.
  - split; [|constructor]. unfold usedPorts. cbn. by rewrite app_nil_r.
  - apply execute_clients, IH. replace (w_others w) with (w_others (execute k w).2); [done|].
    destruct k; try (by apply other_clients); cbn [execute]; [by apply start_clients|unfold clientStopFunc; by repeat case_match].
Qed.

(** Applying a normal configuration to the empty one stores it as it is. *)
Lemma apply_normal c b : normal c → marshal c = Ret b → ∀ file, LoadClientConfig unmarshal file = Ret emptyConfig → applyClientConfig parseDuration marshal unmarshal c file = Ret (Some b).
Proof.
  intros Hn Hb file Hfile. destruct (merge_empty c Hn) as [Hm Hs]. unfold applyClientConfig. pose proof (nf_valid c Hn) as Hv.
  pose proof (proj1 (ValidateFullClient_ret _ _) Hv) as (-> & _). cbn [obind]. rewrite Hfile. cbn [obind]. rewrite Hm, Hv. cbn [obind].
  unfold StoreClientConfig. by rewrite Hs, Hb.
Qed.

(** C36: sharing the configuration of a client.  On every machine that commands can
    lead to, the file is missing, empty, or a valid configuration with every
    password hashed; for a configuration that is not empty, export prints one link for it, and importing this link on a machine
    whose client has no configuration yet gives that machine the same configuration,
    so that with the same ports in use the same client starts there. *)
Theorem export_import w c : reachable w → load w = Ret c →
  c = emptyConfig ∨ normal c ∧ ∃ u, execute ExportConfig w = (Ret [u], w) ∧
    ∀ w2, w_file w2 = None ∨ load w2 = Ret emptyConfig →
      ∃ w2', execute (ImportConfig u) w2 = (Ret [], w2') ∧ load w2' = Ret c ∧ w_clients w2' = w_clients w2 ∧
        (usedPorts w2 = usedPorts w → clientRunFunc w2' = clientRunFunc w).
Proof.
  intros Hr Hl. pose proof (reachable_file w Hr) as Hf. destruct (load_ok w c Hf Hl) as [->|Hn]; [by left|right]. split; [done|].
  destruct (marshal_ok c (nf_wire c Hn)) as (b & Hb & Hbytes & Hu).
  destruct (config_link_roundtrip parseDuration marshal unmarshal unmarshalPattern c b Hb Hbytes Hu) as (u & Hurl & _ & Happly). exists u. split.
  - cbn [execute]. unfold clientExportConfigFunc, loadConfig, GetURLClientConfig. rewrite Hl. cbn [obind]. by rewrite Hurl.
  - pose proof (apply_normal c b Hn Hb) as Hap.
    intros w2 Hw2. assert (∃ w', ensureFile w2 = Ret w' ∧ w_clients w' = w_clients w2 ∧ w_others w' = w_others w2 ∧ load w' = Ret emptyConfig) as (w' & He & Hc' & Ho' & Hl').
    { destruct Hw2 as [Hw2|Hw2].
      - destruct (ensureFile_ok w2) as (w' & ? & ? & ? & _ & _ & ? & _); [by left|]. exists w'. split_and!; auto.
      - exists w2. unfold ensureFile. by rewrite Hw2. }
    exists (setFile (Some b) w'). split_and!.
    + cbn [execute]. unfold clientImportConfigFunc, withFile. rewrite He, Happly. by rewrite (Hap (w_file w') Hl').
    + cbn. done.
    + done.
    + intros Hp. unfold clientRunFunc. cbn [w_file setFile LoadClientConfig]. rewrite Hu, Hl.
      assert (usedPorts (setFile (Some b) w') = usedPorts w) as -> by (rewrite <- Hp; unfold usedPorts; cbn; by rewrite Hc', Ho'). done.
Qed.

(** The ports of a configuration. *)
Definition configPorts (c : PbClientConfig) : list Z := [default 0 (cc_rpcPort c); default 0 (cc_socks5Port c)] ++ option_list (cc_httpProxyPort c).

Lemma valid_not_empty c : ValidateFull c = Ret tt → isEmptyConfig c = false.
Proof.
  rewrite ValidateFullClient_ret. intros (_ & _ & Hin & _). destruct c as [[|p ps] ? ? ? ? ? ? ? ? ?]; [by apply elem_of_nil in Hin|]. done.
Qed.

Lemma rpc_free port ds others : port ∉ others ++ concat (clientPorts <$> ds) → Forall (λ d, d_rpcPort d ≠ Some port) ds.
Proof.
  intros Hp. apply Forall_forall. intros d Hd E. apply Hp, elem_of_app. right. apply list_elem_of_In, in_concat. exists (clientPorts d).
  split; apply list_elem_of_In; [by apply list_elem_of_fmap_2|]. unfold clientPorts. rewrite E. apply list_elem_of_here.
Qed.

Lemma find_last port ds d : Forall (λ d, d_rpcPort d ≠ Some port) ds → d_rpcPort d = Some port →
  find (λ d, bool_decide (d_rpcPort d = Some port)) (ds ++ [d]) = Some d ∧ find (λ d, bool_decide (d_rpcPort d = Some port)) ds = None ∧
  filter (λ d, d_rpcPort d ≠ Some port) (ds ++ [d]) = ds.
Proof.
  induction 1 as [|x ds Hx Hds IH]; intros Hd; cbn [app find].
  - rewrite bool_decide_eq_true_2 by done. by rewrite filter_cons, decide_False by (intros H; by apply H).
  - destruct (IH Hd) as (-> & -> & IH3). rewrite !bool_decide_eq_false_2 by done. split_and!; try done.
    rewrite filter_cons, decide_True by done. by rewrite IH3.
Qed.

(** What is started from a valid configuration whose ports are free. *)
Lemma runProxy_starts c p rpc used : ValidateFull c = Ret tt → GetActiveProfileFromConfig c (default "" (cc_activeProfile c)) = Ret p →
  hexDecode (string_bytes (pu_hashedPassword (cp_user p))) ≠ None →
  (∀ x, x ∈ [default 0 (cc_socks5Port c)] ++ option_list (cc_httpProxyPort c) → x ∉ used) →
  cc_httpProxyPort c = None ∨ default [] (cc_socks5Authentication c) = [] →
  ∃ d, runProxy c rpc used = Ret d ∧ d_credentials d = default [] (cc_socks5Authentication c) ∧
    d_socksAddr d = listenAddress dualStack (default false (cc_socks5ListenLAN c)) (default 0 (cc_socks5Port c)) ∧
    d_http d = (λ h, (h, listenAddress dualStack (default false (cc_httpProxyListenLAN c)) h)) <$> cc_httpProxyPort c ∧
    m_username (d_mux d) = pu_name (cp_user p) ∧ userPassword (toUser (cp_user p)) = Some (m_password (d_mux d)).
Proof.
  intros Hv Hg Hh Hfree Hauth. assert (Hcoh : Rng.cache_coherent string_bytes ∅) by (intros ? ? H; by rewrite lookup_empty in H).
  destruct (profile_mux_ok (V := V) net hostSeed p ∅ (valid_active c p Hv Hg) Hh Hcoh) as (m & c' & Hm & _ & _ & Hname & _ & Hkey & _).
  unfold runProxy. rewrite Hg. cbn [obind]. rewrite Hm. cbn [obind].
  assert (Hs : Listen used (default 0 (cc_socks5Port c)) "Listen on socks5 address %q failed: %v" = Ret (default 0 (cc_socks5Port c) :: used)).
  { apply Listen_ret. split; [|done]. apply Hfree, list_elem_of_here. }
  rewrite Hs. cbn [obind]. apply ValidateFullClient_ret in Hv as (_ & _ & _ & Hports). unfold portsValid in Hports.
  destruct (cc_httpProxyPort c) as [h|] eqn:Eh; change (default 0 (Some ?x)) with x.
  - destruct Hauth as [?|Hauth]; [done|]. unfold validPort in Hports. rewrite !andb_true_iff, !negb_true_iff in Hports.
    change (default 0 (Some h)) with h. replace (h =? 0) with false by lia. rewrite Hauth. cbn [len length].
    change (0 <? len []) with false. cbv iota.
    assert (Hl : Listen (default 0 (cc_socks5Port c) :: used) h "run HTTP proxy server failed: %v" = Ret (h :: default 0 (cc_socks5Port c) :: used)).
    { apply Listen_ret. split; [|done]. apply not_elem_of_cons. split; [lia|]. apply Hfree. by apply list_elem_of_further, list_elem_of_here. }
    rewrite Hl. cbn [obind]. eexists. split; [reflexivity|]. by split_and!.
  - eexists. split; [reflexivity|]. by split_and!.
Qed.

Lemma run_starts w c p : load w = Ret c → ValidateFull c = Ret tt → GetActiveProfileFromConfig c (default "" (cc_activeProfile c)) = Ret p →
  hexDecode (string_bytes (pu_hashedPassword (cp_user p))) ≠ None → default 0 (cc_rpcPort c) ≠ 0 →
  (∀ x, x ∈ configPorts c → x ∉ usedPorts w) → cc_httpProxyPort c = None ∨ default [] (cc_socks5Authentication c) = [] →
  ∃ d, clientRunFunc w = (true, Ret d) ∧ d_rpcPort d = Some (default 0 (cc_rpcPort c)) ∧ client_ok d ∧
    d_credentials d = default [] (cc_socks5Authentication c) ∧
    d_socksAddr d = listenAddress dualStack (default false (cc_socks5ListenLAN c)) (default 0 (cc_socks5Port c)) ∧
    d_http d = (λ h, (h, listenAddress dualStack (default false (cc_httpProxyListenLAN c)) h)) <$> cc_httpProxyPort c ∧
    m_username (d_mux d) = pu_name (cp_user p) ∧ userPassword (toUser (cp_user p)) = Some (m_password (d_mux d)).
Proof.
  intros Hl Hv Hg Hh Hrpc Hfree Hauth. pose proof (proj1 (ValidateFullClient_ret _ _) Hv) as (_ & _ & _ & Hports). unfold portsValid in Hports.
  destruct (runProxy_starts c p (Some (default 0 (cc_rpcPort c))) (default 0 (cc_rpcPort c) :: usedPorts w) Hv Hg Hh) as (d & Hd & Hprops); [|done|].
  { intros x Hx. apply not_elem_of_cons. split; [|apply Hfree; by apply list_elem_of_further].
    cbn [app] in Hx. apply elem_of_cons in Hx as [->|Hx]; [lia|]. destruct (cc_httpProxyPort c); [|by apply elem_of_nil in Hx].
    apply list_elem_of_singleton in Hx as ->. lia. }
  exists d. destruct (runProxy_ok _ _ _ _ Hv Hd) as (Hok & Hr & _). split; [|by split].
  unfold clientRunFunc. rewrite Hl, valid_not_empty, Hv, (proj2 (Z.eqb_neq _ _) Hrpc) by done.
  unfold Listen. rewrite bool_decide_eq_false_2 by (apply Hfree, list_elem_of_here). by rewrite Hd.
Qed.

Lemma rpc_client w c : load w = Ret c → ValidateFull c = Ret tt → default 0 (cc_rpcPort c) ≠ 0 → NewClientManagementRPCClient w = inl (default 0 (cc_rpcPort c)).
Proof.
  intros Hl Hv Hrpc. unfold NewClientManagementRPCClient. rewrite Hl, valid_not_empty by done. apply ValidateFullClient_ret in Hv as (_ & _ & _ & Hports).
  unfold portsValid, validPortOrZero in Hports. rewrite !andb_true_iff in Hports. by replace ((_ <? 1) || (65535 <? _)) with false by lia.
Qed.

(** Where a server listens: on the loopback address, or on all addresses when the
    local network is let in, with both families when the host has both. *)
Definition servesAt (lan dual : bool) (port : Z) : bytes :=
  string_bytes (match lan, dual with false, _ => "127.0.0.1:" | true, false => "0.0.0.0:" | true, true => "[::]:" end) ++ Itoa port.

Lemma listenAddress_at dual lan port : listenAddress dual lan port = servesAt lan dual port.
Proof. by destruct lan, dual. Qed.

(** C40: a client starts and stops.  Let the configuration be valid, the hashed
    password of its active profile hexadecimal, its management port set (a client
    without one is not seen by start), its ports free, and let it not combine an
    HTTP proxy with socks5 passwords (such a client ends).  Then start reports the
    address of the socks5 server, and a client runs whose socks5 server and, where
    one is configured, HTTP proxy listen at their ports, on the loopback address
    unless the configuration lets the local network in, and whose dials pass every
    check, with the user of the profile and the key that the server computes for
    it.  Status reports it, starting again changes nothing, and stop ends this
    client and no other. *)
Theorem client_starts_and_stops w c p early now query disk :
  load w = Ret c → ValidateFull c = Ret tt → GetActiveProfileFromConfig c (default "" (cc_activeProfile c)) = Ret p →
  hexDecode (string_bytes (pu_hashedPassword (cp_user p))) ≠ None → default 0 (cc_rpcPort c) ≠ 0 →
  (∀ x, x ∈ configPorts c → x ∉ usedPorts w) → cc_httpProxyPort c = None ∨ default [] (cc_socks5Authentication c) = [] →
  ∃ d lines w1 w2,
    execute (Start true early now query disk) w = (Ret (listeningText "started" c :: lines), w1) ∧ w_clients w1 = w_clients w ++ [d] ∧
    client_ok d ∧ d_credentials d = default [] (cc_socks5Authentication c) ∧
    d_socksAddr d = servesAt (default false (cc_socks5ListenLAN c)) dualStack (default 0 (cc_socks5Port c)) ∧
    d_http d = (λ h, (h, servesAt (default false (cc_httpProxyListenLAN c)) dualStack h)) <$> cc_httpProxyPort c ∧
    m_username (d_mux d) = pu_name (cp_user p) ∧ userPassword (toUser (cp_user p)) = Some (m_password (d_mux d)) ∧
    execute Status w1 = (Ret [string_bytes "mieru client is running"], w1) ∧
    execute (Start true early now query disk) w1 = (Ret [listeningText "running" c], w1) ∧
    execute Stop w1 = (Ret [string_bytes "mieru client is stopped"], w2) ∧ w_clients w2 = w_clients w ∧ w_file w2 = w_file w ∧
    execute Status w2 = (Err (Errorf ClientNotRunning), w2).
Proof.
  intros Hl Hv Hg Hh Hrpc Hfree Hauth. destruct (run_starts w c p Hl Hv Hg Hh Hrpc Hfree Hauth) as (d & Hrun & Hdr & Hok & Hd1 & Hd2 & Hd3 & Hd4 & Hd5).
  rewrite listenAddress_at in Hd2. assert (Hd3' : d_http d = (λ h, (h, servesAt (default false (cc_httpProxyListenLAN c)) dualStack h)) <$> cc_httpProxyPort c)
    by (rewrite Hd3; destruct (cc_httpProxyPort c); cbn; by rewrite ?listenAddress_at). clear Hd3.
  set (port := default 0 (cc_rpcPort c)) in *. assert (Hport : port ∉ usedPorts w) by (apply Hfree, list_elem_of_here).
  destruct (find_last port (w_clients w) d (rpc_free _ _ _ Hport) Hdr) as (Hf1 & Hf2 & Hf3).
  assert (Hrunning : ∀ w', load w' = Ret c → w_clients w' = w_clients w ++ [d] → IsClientDaemonRunning w' = inl d).
  { intros w' Hl' Hc'. unfold IsClientDaemonRunning. rewrite (rpc_client w' c), Hc' by done. fold port. by rewrite Hf1. }
  assert (Hnot : ∀ w', load w' = Ret c → w_clients w' = w_clients w → w_others w' = w_others w → IsClientDaemonRunning w' = inr ConnRefused).
  { intros w' Hl' Hc' Ho'. unfold IsClientDaemonRunning. rewrite (rpc_client w' c), Hc' by done. fold port. rewrite Hf2.
    rewrite bool_decide_eq_false_2; [done|]. unfold usedPorts. by rewrite Hc', Ho'. }
  set (w0 := setClients (w_clients w ++ [d]) w). assert (∃ lines h, afterStart now query disk c w0 = (Ret (listeningText "started" c :: lines), setHistory h w0)) as (lines & h & Hafter).
  { unfold afterStart. case_match; [|by exists [], (w_history w0)]. case_match. case_match. case_bool_decide; by eexists _, _. }
  assert (Hl0 : load (setHistory h w0) = Ret c) by done. exists d, lines, (setHistory h w0), (exitClient port (setHistory h w0)).
  split_and!; try done; cbn [execute].
  - unfold clientStartFunc, isRunning. rewrite Hl, Hv, (Hnot w) by done. cbn [negb]. rewrite Hrun. fold w0. rewrite (Hrunning w0) by done. exact Hafter.
  - unfold clientStatusFunc. by rewrite Hrunning.
  - unfold clientStartFunc, isRunning. by rewrite Hl0, Hv, Hrunning.
  - unfold clientStopFunc, isRunning. by rewrite (rpc_client _ c), Hrunning.
  - unfold clientStatusFunc. rewrite Hnot; [done|done|exact Hf3|done].
Qed.

Lemma apply_fresh c j others : normal c → unmarshalJSON j = Ret c →
  ∃ w, reachable w ∧ load w = Ret c ∧ w_clients w = [] ∧ w_others w = others.
Proof.
  intros Hn Hj. set (w0 := mkWorld None [] others None). exists (execute (ApplyConfig (Some j)) w0).2.
  split; [constructor; constructor|]. cbn [execute]. unfold clientApplyConfigFunc, withFile.
  destruct (ensureFile_ok w0) as (w' & -> & Hc & Ho & _ & _ & Hl & _); [by left|]. specialize (Hl eq_refl).
  destruct (marshal_ok c (nf_wire c Hn)) as (b & Hb & _ & Hu). unfold ApplyJSONClientConfig. rewrite Hj.
  rewrite (apply_normal c b Hn Hb _ Hl). by cbn.
Qed.

(** ** What goes wrong *)

(** A readable link has no active profile and no ports: importing one on a machine
    without a configuration is refused, and leaves the empty configuration. *)
Lemma simple_link_needs_settings w u p lines : w_file w = None → hasPrefix u (string_bytes "mieru://") = false →
  hasPrefix u (string_bytes "mierus://") = true → URLToClientProfile unmarshalPattern u = Ret p →
  (execute (ImportConfig u) w).1 ≠ Ret lines ∧ load (execute (ImportConfig u) w).2 = Ret emptyConfig.
Proof.
  intros Hw H1 H2 Hp. cbn [execute]. unfold clientImportConfigFunc, withFile. destruct (ensureFile_ok w) as (w' & -> & _ & _ & _ & _ & Hl & _); [by left|].
  specialize (Hl Hw). unfold ApplyURLClientConfig, ParseURLClientConfig. rewrite H1, H2, Hp. cbn [obind]. unfold applyClientConfig.
  destruct (ValidateClientConfigPatch _ _) as [[]| |]; cbn [obind]; [|done..]. rewrite Hl. cbn [obind].
  destruct (ValidateFull _) as [[]| |] eqn:Hv; cbn [obind]; [|done..]. exfalso. by apply ValidateFullClient_ret in Hv as (_ & Ha & _).
Qed.

(** After the management port was changed in the configuration, the client that
    runs is lost: status and stop report that none runs, and starting one fails on
    the socks5 port, which the lost client keeps, although it can report success
    when a poll comes early. *)
Lemma lost_client w c : load w = Ret c → ValidateFull c = Ret tt → default 0 (cc_rpcPort c) ≠ 0 → default 0 (cc_rpcPort c) ∉ usedPorts w →
  default 0 (cc_socks5Port c) ∈ usedPorts w → ∀ early now query disk,
  execute Status w = (Err (Errorf ClientNotRunning), w) ∧ execute Stop w = (Ret [string_bytes ClientNotRunning], w) ∧
  w_clients (execute (Start true early now query disk) w).2 = w_clients w ∧
  (early = false → (execute (Start true early now query disk) w).1 = Err (Errorf ClientNotRunningErr)) ∧
  (early = true → ∃ lines, (execute (Start true early now query disk) w).1 = Ret (listeningText "started" c :: lines)).
Proof.
  intros Hl Hv Hrpc Hfree Hsocks early now query disk. set (port := default 0 (cc_rpcPort c)) in *.
  assert (Hf : find (λ d, bool_decide (d_rpcPort d = Some port)) (w_clients w) = None).
  { pose proof (rpc_free _ _ _ Hfree) as Hall. induction Hall as [|d ds Hd Hds IH]; [done|]. cbn. by rewrite bool_decide_eq_false_2. }
  assert (Hnot : IsClientDaemonRunning w = inr ConnRefused).
  { unfold IsClientDaemonRunning. rewrite (rpc_client w c) by done. fold port. rewrite Hf. by rewrite bool_decide_eq_false_2. }
  assert (Hrun : ∃ r, clientRunFunc w = (true, r) ∧ ∀ d, r ≠ Ret d).
  { unfold clientRunFunc. rewrite Hl, valid_not_empty, Hv by done. fold port. rewrite (proj2 (Z.eqb_neq _ _) Hrpc). unfold Listen at 1.
    rewrite bool_decide_eq_false_2 by done. eexists. split; [reflexivity|]. intros d Hd. destruct (runProxy_ok _ _ _ _ Hv Hd) as (_ & _ & Hs & _ & Hdis).
    apply (Hdis (d_socksPort d)); [apply list_elem_of_here|]. rewrite Hs. by apply list_elem_of_further. }
  destruct Hrun as (r & Hrun & Hr). cbn [execute]. unfold clientStatusFunc, clientStopFunc, clientStartFunc, isRunning.
  rewrite (rpc_client w c), Hl, Hv, Hnot by done. cbn [negb]. rewrite Hrun.
  assert (Hw : match r with Ret d => setClients (w_clients w ++ [d]) w | _ => w end = w) by (destruct r as [d| |]; [by destruct (Hr d)|done..]).
  rewrite Hw, Hnot. cbn [orb andb]. split_and!; [done..| |by intros ->|].
  - destruct early; [by apply afterStart_clients|done].
  - intros ->. unfold afterStart. repeat case_match; by eexists.
Qed.

(** With the management service switched off, start leaves a client running and
    reports that none runs. *)
Lemma start_without_service w c b d early now query disk : load w = Ret c → ValidateFull c = Ret tt → default 0 (cc_rpcPort c) = 0 → clientRunFunc w = (b, Ret d) →
  execute (Start true early now query disk) w = (Err (Errorf ClientNotRunningErr), setClients (w_clients w ++ [d]) w).
Proof.
  intros Hl Hv Hrpc Hrun. assert (Hnot : ∀ w', load w' = Ret c → isRunning w' = false).
  { intros w' Hl'. unfold isRunning, IsClientDaemonRunning, NewClientManagementRPCClient. by rewrite Hl', valid_not_empty, Hrpc. }
  assert (Hb : b = false). { unfold clientRunFunc in Hrun. rewrite Hl, valid_not_empty, Hv, Hrpc in Hrun by done. cbn in Hrun. by injection Hrun. }
  cbn [execute]. unfold clientStartFunc. rewrite Hl, Hv, (Hnot w Hl). cbn [negb]. rewrite Hrun, Hb. by rewrite Hnot.
Qed.

(** A valid configuration with an HTTP proxy and socks5 passwords never runs. *)
Lemma http_and_passwords_end w c b d : load w = Ret c → ValidateFull c = Ret tt → cc_httpProxyPort c ≠ None → default [] (cc_socks5Authentication c) ≠ [] →
  clientRunFunc w ≠ (b, Ret d).
Proof.
  intros Hl Hv Hh Ha Hr. destruct (clientRun_ok w b d Hr) as [(_ & _ & Hok) _]. unfold clientRunFunc in Hr. rewrite Hl, valid_not_empty, Hv in Hr by done.
  assert (Hp : ∃ rpc used, runProxy c rpc used = Ret d) by (repeat case_match; simplify_eq; by eexists _, _). destruct Hp as (rpc & used & Hp).
  apply ValidateFullClient_ret in Hv as (_ & _ & _ & Hports). unfold portsValid, validPort in Hports. destruct (cc_httpProxyPort c) as [h|] eqn:Eh; [|done].
  rewrite !andb_true_iff, !negb_true_iff in Hports. unfold runProxy in Hp. rewrite Eh in Hp. change (default 0 (Some h)) with h in Hp.
  apply obind_ret_inv in Hp as (p & _ & Hp). apply obind_ret_inv in Hp as ([m c'] & _ & Hp). apply obind_ret_inv in Hp as (u & _ & Hp). replace (h =? 0) with false in Hp by lia.
  destruct (default [] (cc_socks5Authentication c)) as [|a l]; [done|]. by replace (0 <? len (a :: l)) with true in Hp by (unfold len; cbn; lia).
Qed.
End Client.
Arguments client : clear implicits.
Arguments world : clear implicits.

(** ** Witnesses *)

(** A coding of messages as bytes. *)
Fixpoint bits (p : positive) : bytes := match p with xH => [] | xO p => 0 :: bits p | xI p => 1 :: bits p end.
Fixpoint unbits (l : bytes) : positive := match l with [] => xH | c :: l => if c =? 0 then xO (unbits l) else xI (unbits l) end.

Definition bitMarshal (c : PbClientConfig) : outcome bytes := Ret (bits (encode c)).
Definition bitUnmarshal (b : bytes) : outcome PbClientConfig :=
  match decode (unbits b) with
  | Some c => match cc_socks5Authentication c with Some [] => Err (Errorf "proto.Unmarshal() failed") | _ => Ret c end
  | None => Err (Errorf "proto.Unmarshal() failed")
  end.

Lemma bits_ok p : bytes_ok (bits p) ∧ unbits (bits p) = p.
Proof.
  induction p as [p [H1 H2]|p [H1 H2]|]; cbn; rewrite ?H2; (split; [|done]); try (apply Forall_cons; split; [unfold in_u8; lia|done]). constructor.
Qed.

Lemma bit_laws : (∀ c, wire c → ∃ b, bitMarshal c = Ret b ∧ bytes_ok b ∧ bitUnmarshal b = Ret c) ∧ (∀ b c, bitUnmarshal b = Ret c → wire c).
Proof.
  split.
  - intros c Hw. destruct (bits_ok (encode c)) as [H1 H2]. exists (bits (encode c)). unfold bitUnmarshal. rewrite H2, decode_encode. split_and!; [done|done|].
    unfold wire in Hw. by destruct (cc_socks5Authentication c) as [[|]|].
  - intros b c. unfold bitUnmarshal, wire. destruct (decode _) as [c'|]; [|done]. destruct (cc_socks5Authentication c') as [[|]|] eqn:E; [done|..]; intros [= <-]; congruence.
Qed.

Definition sharedConfig : PbClientConfig :=
  mkClientConfig [mkProfile "home" (mkPbUser "alice" "" "00ff" [] (mkRights false false))
    [mkServerEndpoint (string_bytes "12.34.56.78") [] [mkBinding 443 [] TCP]] None None None None]
    (Some "home") (Some 8964) (Some 1080) None (Some 0) None (Some 8080) None None.

Lemma sharedConfig_normal : normal (λ _, Ret 0) sharedConfig.
Proof.
  split; [vm_compute; reflexivity|by repeat constructor|apply NoDup_singleton|vm_compute; reflexivity|cbn; eauto|done].
Qed.

Notation demoWorld := (world demoV).
Notation demoExecute := (execute (V := demoV) (λ _, Ret 0) bitMarshal bitUnmarshal bitMarshal bitUnmarshal noPattern noPatternBack noPattern demoNetwork 7 true
  (λ t d, t + d * 86400) (λ _, Err ErrUnsupported) (λ _, Err ErrUnsupported)).

Lemma export_import_witness : ∃ w w2' u : _, demoExecute ExportConfig w = (Ret [u], w) ∧
  demoExecute (ImportConfig u) (mkWorld None [] [22] None) = (Ret [], w2') ∧ LoadClientConfig bitUnmarshal (w_file w2') = Ret sharedConfig.
Proof.
  destruct bit_laws as [H1 H2].
  destruct (apply_fresh (V := demoV) (λ _, Ret 0) bitMarshal bitUnmarshal bitMarshal bitUnmarshal noPattern noPatternBack noPattern demoNetwork 7 true
    (λ t d, t + d * 86400) (λ _, Err ErrUnsupported) (λ _, Err ErrUnsupported) H1 sharedConfig (bits (encode sharedConfig)) [] sharedConfig_normal) as (w & Hr & Hl & _ & _).
  { destruct (H1 sharedConfig) as (b & [= <-] & _ & Hb); [discriminate|exact Hb]. }
  destruct (export_import (V := demoV) (λ _, Ret 0) bitMarshal bitUnmarshal bitMarshal bitUnmarshal noPattern noPatternBack noPattern demoNetwork 7 true
    (λ t d, t + d * 86400) (λ _, Err ErrUnsupported) (λ _, Err ErrUnsupported) H1 H2 H2 w sharedConfig Hr Hl) as [E|(_ & u & Hu & Himp)]; [discriminate E|].
  destruct (Himp (mkWorld None [] [22] None)) as (w2' & H3 & H4 & _); [left; reflexivity|]. exists w, w2', u. split; [exact Hu|]. split; [exact H3|exact H4].
Defined.

Lemma client_starts_and_stops_witness : ∃ d lines w1, 
  demoExecute (Start true false 0 (λ _, Err ErrTimeout) true) (mkWorld (Some (bits (encode sharedConfig))) [] [22] None) = (Ret (string_bytes "mieru client is started, listening to socks5://127.0.0.1:1080" :: lines), w1) ∧
  w_clients w1 = [d] ∧ d_socksAddr d = string_bytes "127.0.0.1:1080" ∧ (demoExecute Stop w1).1 = Ret [string_bytes "mieru client is stopped"].
Proof.
  assert (Hl : bitUnmarshal (bits (encode sharedConfig)) = Ret sharedConfig).
  { destruct bit_laws as [H1 _]. destruct (H1 sharedConfig) as (b & [= <-] & _ & Hb); [discriminate|exact Hb]. }
  destruct (client_starts_and_stops (V := demoV) (λ _, Ret 0) bitMarshal bitUnmarshal bitMarshal bitUnmarshal noPattern noPatternBack noPattern demoNetwork 7 true
    (λ t d, t + d * 86400) (λ _, Err ErrUnsupported) (λ _, Err ErrUnsupported) (mkWorld (Some (bits (encode sharedConfig))) [] [22] None) sharedConfig
    (mkProfile "home" (mkPbUser "alice" "" "00ff" [] (mkRights false false)) [mkServerEndpoint (string_bytes "12.34.56.78") [] [mkBinding 443 [] TCP]] None None None None)
    false 0 (λ _, Err ErrTimeout) true) as (d & lines & w1 & w2 & H1 & H2 & _ & _ & H3 & _ & _ & _ & _ & _ & H4 & _).
  - exact Hl.
  - vm_compute. reflexivity.
  - vm_compute. reflexivity.
  - vm_compute. discriminate.
  - discriminate.
  - intros x Hx. apply (bool_decide_unpack _). revert x Hx. apply Forall_forall. by apply (bool_decide_unpack _).
  - right. reflexivity.
  - exists d, lines, w1. split; [exact H1|]. split; [exact H2|]. split; [exact H3|]. rewrite H4. reflexivity.
Defined.
End ClientCli.
Export ClientCli.
