(* ===== verification/HttpProxy.v ===== *)
(** * The HTTP proxy of the client: pkg/socks5/http2socks.go, parse.go

    A browser that uses the HTTP proxy of the client sends CONNECT requests, which
    become tunnels, and plain requests, which are sent on.  Either goes through the
    socks5 server of the client.  The HTTP server and client of the standard
    library are arguments: a request comes with its parsed URL and its headers, and
    [roundTrip] is what [http.Client.Do] returns. *)

From S2P Require Import Prelude Mathext Common Rng Cipher Auth Segment SessionState Scheduler Socks Net Interact SocksUDP Dns.
From S2P Require Import Egress SocksAuth TrafficPattern Mux PortBinding ConfigServer ConfigClient PanelText Url Links.
From Stdlib Require Import ZifyBool.
Local Open Scope Z_scope.

Module HttpProxy.

(** ** The address of the socks5 server: parse.go *)

Record proxyClient := mkProxyClient { pc_Host : bytes; pc_Credential : option Credential; pc_Timeout : Z }.

(** [URL.Query]: pairs that cannot be parsed are dropped. *)
Definition Query (u : URL) : Values :=
  foldl (λ v s, match parsePair s with Some (Some (k, x)) => Add k x v | _ => v end) ∅ (Split 38 (RawQuery u)).

Definition parseProxy (parseDuration : bytes → outcome Z) (proxyURI : bytes) : outcome proxyClient :=
  match Parse proxyURI with
  | None => Err (Errorf "parse %q: %w")
  | Some uri =>
      if negb (bool_decide (Scheme uri = string_bytes "socks5")) then Err (Errorf "unsupported protocol %s")
      else
        let user := default [] (fst <$> UserInfo uri) in
        let password := default [] (mjoin (snd <$> UserInfo uri)) in
        let! cred :=
          (if bool_decide (user = []) && bool_decide (password = []) then Ret None
           else if bool_decide (user = []) || bool_decide (password = []) || (255 <? len user) || (255 <? len password)
           then Err (Errorf "invalid user name or password")
           else Ret (Some (mkCredential user password))) in
        let timeout := Get (string_bytes "timeout") (Query uri) in
        let! t := (if bool_decide (timeout = []) then Ret 0 else parseDuration timeout) in
        Ret (mkProxyClient (Host uri) cred t)
  end.

(** ** Headers *)

(** A header has a list of values for each name, in the canonical form: upper case
    at the start and after a hyphen, lower case elsewhere. *)
Notation Header := (gmap bytes (list bytes)).

Definition tokenByte (c : Z) : bool := alnum c || bool_decide (c ∈ string_bytes "!#$%&'*+-.^_`|~").
Fixpoint canonicalBytes (upper : bool) (s : bytes) : bytes :=
  match s with [] => [] | c :: s => (if upper then upperByte c else lowerByte c) :: canonicalBytes (c =? 45) s end.
Definition CanonicalHeaderKey (s : bytes) : bytes := if forallb tokenByte s then canonicalBytes true s else s.

Definition headerAdd (k v : bytes) (h : Header) : Header :=
  let k := CanonicalHeaderKey k in <[k := default [] (h !! k) ++ [v]]> h.
Definition headerDel (k : bytes) (h : Header) : Header := delete (CanonicalHeaderKey k) h.

Definition hopByHopHeaders : list bytes :=
  string_bytes <$> ["Connection"; "Proxy-Connection"; "Keep-Alive"; "TE"; "Transfer-Encoding"; "Upgrade"]%string.

Definition deleteHopByHopHeaders (h : Header) : Header := foldl (λ h k, headerDel k h) h hopByHopHeaders.

(** The order in which the map is traversed only matters for names that have the
    same canonical form. *)
Definition copyHeaders (dst src : Header) : Header :=
  foldl (λ dst kv, foldl (λ dst v, headerAdd kv.1 v dst) dst kv.2) dst (map_to_list src).

(** ** Requests *)

Record httpRequest := mkHttpRequest { rq_Method : bytes; rq_URL : URL; rq_Header : Header; rq_Body : bytes }.
Record httpResponse := mkHttpResponse { rs_StatusCode : Z; rs_Header : Header; rs_Body : bytes }.

(** [URL.Port]. *)
Definition URLPort (u : URL) : bytes :=
  match LastIndexByte 58 (Host u) with
  | Some i => if validOptionalPort (drop i (Host u)) then drop (S i) (Host u) else []
  | None => []
  end.

(** What the handler does with the connection of the browser. *)
Inductive httpReply :=
| Unanswered                                            (** it returns without an answer *)
| TakenOver (written : bytes) (target : option bytes)   (** it takes the connection and relays it to the target, or leaves it *)
| Answered (r : httpResponse).

(** The counters that are added to. *)
Inductive httpCount := HTTPRequests | HTTPConnErrors | HTTPSchemeErrors.

Definition connectPort (u : URL) : option bytes :=
  if negb (bool_decide (URLPort u = [])) then Some (URLPort u)
  else if bool_decide (Scheme u = string_bytes "http") then Some (string_bytes "80")
  else if bool_decide (Scheme u = string_bytes "https") then Some (string_bytes "443")
  else None.

Definition established : bytes := string_bytes "HTTP/1.1 200 Connection Established" ++ [13; 10; 13; 10].

(** [hijacker]: the writer can be taken over, and whether that works; [dial]:
    the connection through the socks5 server. *)
Definition ServeHTTP (hijacker hijack : bool) (dial : bytes → outcome unit) (roundTrip : httpRequest → outcome httpResponse) (resHeader : Header) (req : httpRequest)
    : httpReply * list httpCount :=
  if bool_decide (rq_Method req = string_bytes "CONNECT") then
    if negb hijacker || negb hijack then (Unanswered, [HTTPRequests; HTTPConnErrors])
    else match connectPort (rq_URL req) with
         | None => (TakenOver [] None, [HTTPRequests; HTTPSchemeErrors])
         | Some port =>
             let target := MaybeDecorateIPv6 (Hostname (rq_URL req)) ++ [58] ++ port in
             match dial target with
             | Ret _ => (TakenOver established (Some target), [HTTPRequests])
             | _ => (TakenOver [] None, [HTTPRequests; HTTPConnErrors])
             end
         end
  else
    let outReq := mkHttpRequest (rq_Method req) (rq_URL req) (deleteHopByHopHeaders (rq_Header req)) (rq_Body req) in
    match roundTrip outReq with
    | Ret resp =>
        (Answered (mkHttpResponse (rs_StatusCode resp) (copyHeaders resHeader (deleteHopByHopHeaders (rs_Header resp))) (rs_Body resp)), [HTTPRequests])
    | _ => (Unanswered, [HTTPRequests; HTTPConnErrors])
    end.

(** [Dial] of client.go on a connection to the socks5 server. *)
Definition dialThrough (parseDuration : bytes → outcome Z) (proxyURI : bytes) (w : world) (target : bytes) : outcome unit * world :=
  match parseProxy parseDuration proxyURI with
  | Ret c => let '(r, w) := run (dialSocks5Long (pc_Credential c) Socks5ConnectCmd target true) w in
             (match r with Ret _ => Ret tt | Err e => Err e | Panic s => Panic s end, w)
  | Err e => (Err e, w)
  | Panic s => (Panic s, w)
  end.

Definition HTTPTransportProxyFunc (proxy : bytes) : outcome URL :=
  if negb (hasPrefix proxy (string_bytes "http://")) && negb (hasPrefix proxy (string_bytes "https://")) && negb (hasPrefix proxy (string_bytes "socks5://"))
  then Err (Errorf "unsupport proxy URL %s") else match Parse proxy with Some u => Ret u | None => Err (Errorf "parse %q: %w") end.

(** * Properties *)

(** ** Tunnels *)

(** A destination: an address, or a name that a socks5 message can hold. *)
Definition dest_ok (h : bytes) : Prop :=
  (ParseIP h ≠ [] ∧ (isIPv6 h = true ∨ 58 ∉ h)) ∨ (h ≠ [] ∧ Forall nameChar h ∧ ParseIP h = [] ∧ len h ≤ 255).

Definition hostPort (h p : bytes) : bytes := MaybeDecorateIPv6 h ++ [58] ++ p.

Lemma ipChar_not c : ipChar c → c ≠ 91 ∧ c ≠ 93.
Proof. intros [H|[->| ->]]; [|done..]. split; intros ->; by apply H. Qed.

Lemma nameChar_not c : nameChar c → c ≠ 91 ∧ c ≠ 93 ∧ c ≠ 58.
Proof.
  intros [H|H].
  - unfold alnum in H. lia.
  - repeat (apply elem_of_cons in H as [->|H]; [done|]). by apply elem_of_nil in H.
Qed.

Lemma Forall_notin {A} (P : A → Prop) l x : Forall P l → (∀ c, P c → c ≠ x) → x ∉ l.
Proof. intros Hf Hc Hin. rewrite Forall_forall in Hf. by destruct (Hc x (Hf x Hin)). Qed.

(** The text of a destination: in brackets, or without colons and brackets. *)
Lemma dest_text h : dest_ok h → 91 ∉ h ∧ 93 ∉ h ∧ (MaybeDecorateIPv6 h = [91] ++ h ++ [93] ∨ MaybeDecorateIPv6 h = h ∧ 58 ∉ h ∧ h ≠ []).
Proof.
  unfold MaybeDecorateIPv6. intros [[Hip H6]|(Hne & Hn & Hip & _)].
  - pose proof (ParseIP_chars h Hip) as Hc. split_and!; [eapply Forall_notin; [exact Hc|]; intros c ?; by apply ipChar_not..|].
    assert (h ≠ []) by (intros ->; done). destruct (isIPv6 h); [by left|right]. by destruct H6.
  - split_and!; [eapply Forall_notin; [exact Hn|]; intros c ?; by apply nameChar_not..|]. right.
    assert (H58 : 58 ∉ h) by (eapply Forall_notin; [exact Hn|]; intros c ?; by apply nameChar_not).
    assert (isIPv6 h = false) as ->; [|done]. unfold isIPv6, SplitHostPort. rewrite LastIndexByte_none by done. by rewrite Hip.
Qed.

Lemma digits_no p c : forallb is_digit p = true → is_digit c = false → c ∉ p.
Proof. intros Hp Hc Hin. rewrite forallb_forall in Hp. rewrite (Hp c) in Hc; [done|]. by apply list_elem_of_In. Qed.

Lemma hostname_port u h p : dest_ok h → forallb is_digit p = true → Host u = hostPort h p → Hostname u = h ∧ URLPort u = p.
Proof.
  intros Hd Hp Hu. destruct (dest_text h Hd) as (H91 & H93 & Ht). unfold Hostname, URLPort. rewrite Hu. unfold hostPort.
  change ([58] ++ p) with (58 :: p). rewrite LastIndexByte_last by (by apply digits_no). rewrite drop_app_length. cbn [validOptionalPort]. rewrite Hp. cbn [andb].
  change (58 =? 58) with true. cbn [andb]. rewrite take_app_length. split; [|by rewrite drop_app_ge, Nat.sub_succ_l, Nat.sub_diag by lia].
  destruct Ht as [->|(-> & H58 & Hne)].
  - rewrite (bool_decide_eq_true_2 (take 1 _ = _)), (bool_decide_eq_true_2 (last _ = _)) by (first [done|by rewrite app_assoc, last_snoc]). cbn [andb].
    rewrite !length_app. cbn [app drop length]. replace (1 + (length h + 1) - 2)%nat with (length h) by lia. rewrite drop_0. apply take_app_length.
  - rewrite bool_decide_eq_false_2; [done|]. destruct h as [|c h]; [done|]. intros [= ->]. by apply H91, list_elem_of_here.
Qed.

Lemma contains_false c s : c ∉ s → contains c s = false.
Proof.
  intros Hc. unfold contains. apply not_true_is_false. intros H. apply existsb_exists in H as (x & Hx & E). apply Z.eqb_eq in E as <-. apply Hc. by apply list_elem_of_In.
Qed.

Lemma SplitHostPort_hostPort h p : dest_ok h → forallb is_digit p = true → SplitHostPort (hostPort h p) = Ret (h, p).
Proof.
  intros Hd Hp. destruct (dest_text h Hd) as (H91 & H93 & Ht). unfold SplitHostPort, hostPort. change ([58] ++ p) with (58 :: p). rewrite LastIndexByte_last by (by apply digits_no).
  assert (Hp91 : 91 ∉ 58 :: p) by (apply not_elem_of_cons; split; [done|by apply digits_no]). assert (Hp93 : 93 ∉ 58 :: p) by (apply not_elem_of_cons; split; [done|by apply digits_no]).
  assert (Hend : ∀ X : bytes, drop (S (length X)) (X ++ 58 :: p) = p) by (intros X; by rewrite drop_app_ge, Nat.sub_succ_l, Nat.sub_diag by lia).
  destruct Ht as [->|(-> & H58 & Hne)].
  - rewrite Hend. rewrite <- !app_assoc. cbn [app]. assert (Hi : IndexByte 93 (91 :: h ++ 93 :: 58 :: p) = Some (S (length h))).
    { change (91 :: h ++ 93 :: 58 :: p) with ((91 :: h) ++ 93 :: 58 :: p). rewrite IndexByte_skip; [done|]. by apply not_elem_of_cons. }
    assert (Hl1 : length (91 :: h ++ 93 :: 58 :: p) = (length h + 3 + length p)%nat) by (cbn [length]; rewrite length_app; cbn [length]; lia).
    assert (Hl2 : length (91 :: h ++ [93]) = (length h + 2)%nat) by (cbn [length]; rewrite length_app; cbn [length]; lia).
    rewrite Hi, Hl1, Hl2. rewrite (proj2 (Nat.eqb_neq _ _)), (proj2 (Nat.eqb_eq _ _)) by lia. cbn [obind].
    rewrite contains_false, contains_false.
    + do 2 f_equal. cbn [drop]. rewrite Nat.sub_succ, Nat.sub_0_r, drop_0. apply take_app_length.
    + change (91 :: h ++ 93 :: 58 :: p) with ((91 :: h) ++ [93] ++ 58 :: p). rewrite app_assoc, drop_app_ge by (rewrite length_app; cbn; lia).
      rewrite length_app. cbn [length]. by replace (S (S (length h)) - (S (length h) + 1))%nat with 0%nat by lia.
    + cbn [drop]. rewrite drop_0. apply not_elem_of_app. split; [done|]. apply not_elem_of_cons. by split.
  - rewrite Hend, take_app_length. assert (match h ++ 58 :: p with 91 :: _ => true | _ => false end = false) as ->.
    { destruct h as [|c h]; [done|]. cbn. apply not_elem_of_cons in H91 as [Hc _]. repeat (destruct c as [|c|c]; try done). }
    rewrite contains_false by done. cbn [obind]. rewrite !drop_0, !contains_false by (apply not_elem_of_app; by split). done.
Qed.

(** ** The URI of the socks5 server *)

Lemma hostPort_plain h p : dest_ok h → forallb is_digit p = true → plainHost (hostPort h p).
Proof.
  intros Hd Hp. assert (Hh : plainHost h).
  { destruct Hd as [[Hip _]|(_ & Hn & _)]; [by apply ip_plain, ParseIP_chars|by apply name_plain]. }
  assert (Hpp : plainHost p). { apply ip_plain. apply Forall_forall. intros c Hc. rewrite forallb_forall in Hp. apply digit_ip, Hp. by apply list_elem_of_In. }
  assert (plainHost (MaybeDecorateIPv6 h)).
  { unfold MaybeDecorateIPv6. case_if; [|done]. apply Forall_app. split; [by repeat constructor|]. apply Forall_app. split; [done|by repeat constructor]. }
  apply Forall_app. split; [done|]. apply Forall_app. split; [by repeat constructor|done].
Qed.

Lemma parseHost_hostPort h p : dest_ok h → forallb is_digit p = true → parseHost (hostPort h p) = Some (hostPort h p).
Proof.
  intros Hd Hp. pose proof (hostPort_plain h p Hd Hp) as Hpl. destruct (dest_text h Hd) as (H91 & H93 & Ht). unfold parseHost. rewrite host_unescape by done.
  unfold hostPort in *. change ([58] ++ p) with (58 :: p) in *. destruct Ht as [->|(-> & H58 & Hne)].
  - rewrite <- !app_assoc. cbn [app]. change (91 :: h ++ 93 :: 58 :: p) with ((91 :: h) ++ 93 :: 58 :: p).
    rewrite LastIndexByte_last by (apply not_elem_of_cons; split; [done|by apply digits_no]).
    rewrite drop_app_ge, Nat.sub_succ_l, Nat.sub_diag by lia. cbn [drop validOptionalPort]. rewrite Hp. change (58 =? 58) with true. cbn [negb andb]. rewrite take_app_length.
    assert (Index (91 :: h) (string_bytes "%25") = None) as ->; [|done].
    assert (H37 : 37 ∉ 91 :: h).
    { apply not_elem_of_cons. split; [done|]. intros Hin. destruct Hd as [[Hip _]|(_ & Hn & _)].
      - pose proof (ParseIP_chars h Hip) as Hc. rewrite Forall_forall in Hc. destruct (Hc _ Hin) as [Hx|[Hx|Hx]]; [by apply Hx|done|done].
      - rewrite Forall_forall in Hn. destruct (Hn _ Hin) as [Hx|Hx]; [done|]. by apply (bool_decide_pack _) in Hx. }
    clear -H37. induction (91 :: h) as [|c t IH]; [done|]. apply not_elem_of_cons in H37 as [Hc Ht].
    cbn [Index]. rewrite bool_decide_eq_false_2; [by rewrite IH|]. intros E. apply Hc. change (length (string_bytes "%25")) with 3%nat in E. cbn in E. by injection E.
  - rewrite LastIndexByte_last by (by apply digits_no). rewrite drop_app_length. cbn [validOptionalPort]. rewrite Hp. change (58 =? 58) with true. cbn [andb].
    destruct h as [|c h]; [done|]. cbn [app]. apply not_elem_of_cons in H91 as [Hc _]. destruct c as [|c|c]; try done. repeat (destruct c as [c|c|]; try done).
Qed.

(** The URI that the client makes for its own socks5 server is read back as the
    address of that server, without credentials. *)
Lemma proxy_uri_parses parseDuration h p t : dest_ok h → forallb is_digit p = true → parseDuration (string_bytes "10s") = Ret t →
  parseProxy parseDuration (string_bytes "socks5://" ++ hostPort h p ++ string_bytes "?timeout=10s") = Ret (mkProxyClient (hostPort h p) None t).
Proof.
  intros Hd Hp Ht. pose proof (host_inert _ (hostPort_plain h p Hd Hp)) as Hi. set (A := hostPort h p) in *. assert (HA : ∀ c, inert c = false → c ∉ A) by (intros c; by apply inert_notin).
  assert (HP : Parse (string_bytes "socks5://" ++ A ++ string_bytes "?timeout=10s") = Some (mkURL (string_bytes "socks5") [] None A [] (string_bytes "timeout=10s"))).
  { change (string_bytes "socks5://" ++ A ++ string_bytes "?timeout=10s") with (string_bytes "socks5:" ++ (47 :: 47 :: A) ++ 63 :: string_bytes "timeout=10s").
    unfold Parse. rewrite Cut_none.
    2: { rewrite !not_elem_of_app, !not_elem_of_cons. split_and!; try done; try (by apply (bool_decide_unpack _)). by apply HA. }
    assert (existsb control (string_bytes "socks5:" ++ (47 :: 47 :: A) ++ 63 :: string_bytes "timeout=10s") = false) as ->.
    { rewrite !existsb_app. cbn [existsb]. rewrite (inert_control A) by done. reflexivity. }
    rewrite bool_decide_eq_false_2 by done. unfold getScheme.
    change (schemeLoop ?raw [] (string_bytes "socks5:" ++ ?rest)) with (Some (string_bytes "socks5", rest)). cbv iota beta.
    unfold cutQuery. rewrite Cut_at by (rewrite !not_elem_of_cons; split_and!; try done; by apply HA).
    rewrite parse_rest by (try done; by apply HA). unfold parseAuthority. rewrite LastIndexByte_none by (by apply HA). unfold A. by rewrite parseHost_hostPort. }
  unfold parseProxy. rewrite HP. cbn [Scheme UserInfo Host RawQuery]. rewrite bool_decide_eq_true_2 by done. cbn [negb].
  assert (Hq : Get (string_bytes "timeout") (Query (mkURL (string_bytes "socks5") [] None A [] (string_bytes "timeout=10s"))) = string_bytes "10s") by (vm_compute; reflexivity).
  rewrite Hq. cbn [fmap option_fmap option_map mjoin default]. rewrite !bool_decide_eq_true_2 by done. cbn [andb obind]. rewrite bool_decide_eq_false_2 by done. by rewrite Ht.
Qed.

(** ** The request on the wire *)

Definition destAddr (h : bytes) (n : Z) : AddrSpec := if bool_decide (ParseIP h = []) then mkAddr h [] n else mkAddr [] (ParseIP h) n.

Lemma len_To16 x : len (To16 x) = 0 ∨ len (To16 x) = 16.
Proof. unfold To16. repeat case_if; [|bool_to_Z; by right|by left]. right. bool_to_Z. rewrite len_app. change (len v4InV6Prefix) with 12. lia. Qed.

Lemma len_ParseIP h : ParseIP h ≠ [] → len (ParseIP h) = 16.
Proof.
  unfold ParseIP. destruct (ParseAddr h) as [x|]; [|done]. intros Hne. destruct (len_To16 x) as [H|H]; [|done]. exfalso. apply Hne. unfold len in H. by destruct (To16 x).
Qed.

Lemma destAddr_ok h n : dest_ok h → in_u16 n → addr_ok (destAddr h n).
Proof.
  unfold destAddr, addr_ok. intros Hd Hn. case_bool_decide as Hip; cbn [Port IP FQDN]; (split; [done|]).
  - right. right. split; [done|]. destruct Hd as [[? _]|(Hne & _ & _ & Hl)]; [done|]. destruct h; [done|]. rewrite len_cons in *. pose proof (len_nonneg h). lia.
  - right. left. by apply len_ParseIP.
Qed.

Lemma connectRequest_write cmd h n : dest_ok h → in_u16 n → ∃ b, writeAddr (destAddr h n) = Ret b ∧ connectRequest cmd h n = [Socks5Version; cmd; 0] ++ b.
Proof.
  intros Hd Hn. unfold connectRequest, destAddr, writeAddr.
  assert (Hport : [u8 (Z.shiftr n 8); u8 n] = [u8 (Z.shiftr (u16 n) 8); u8 (Z.land (u16 n) 0xff)]).
  { rewrite u16_small by done. do 2 f_equal. unfold u8. change 0xff with (Z.ones 8). rewrite Z.land_ones by lia. by rewrite Zmod_mod. }
  case_bool_decide as Hip; cbn [IP FQDN Port].
  - rewrite Hip. cbn. destruct Hd as [[? _]|(Hne & _ & _ & Hl)]; [done|].
    assert (0 <? len h = true) as -> by (destruct h; [done|]; rewrite len_cons; pose proof (len_nonneg h); lia). eexists. split; [reflexivity|]. cbn [app] in *. by rewrite Hport.
  - pose proof (len_ParseIP h Hip) as H16. rewrite H16. change (16 =? 0) with false. cbv iota.
    destruct (0 <? len (To4 (ParseIP h))); [eexists; split; [reflexivity|]; by rewrite Hport|].
    assert (HT : To16 (ParseIP h) = ParseIP h) by (unfold To16; by rewrite H16). rewrite HT, H16. change (0 <? 16) with true. cbv iota. eexists. split; [reflexivity|]. by rewrite Hport.
Qed.

Lemma connectRequest_reads cmd h n rest : dest_ok h → in_u16 n →
  readRequest (mkRequest 0 zeroAddr []) (connectRequest cmd h n ++ rest) = Ret (mkRequest cmd (normalized (destAddr h n)) (connectRequest cmd h n), rest).
Proof.
  intros Hd Hn. destruct (connectRequest_write cmd h n Hd Hn) as (b & Hw & ->). destruct (readAddr_write (destAddr h n) rest (destAddr_ok h n Hd Hn)) as (b' & Hw' & _ & Hr).
  rewrite Hw in Hw'. injection Hw' as <-. unfold readRequest. cbn [DstAddr]. by rewrite (readMessage_write cmd _ b rest Hw Hr).
Qed.

(** The connection to a socks5 server that takes clients without authentication and
    answers the request with [resp]. *)
Definition socksAnswers (resp : bytes) (writes : nat) : endpoint := mkEnd ([Socks5Version; Socks5NoAuth] ++ resp) [2; len resp] [] (2 + writes) false.

Lemma dial_plain h p n resp writes proxy cs : dest_ok h → forallb is_digit p = true → ParseUint16 p = Ret n → 10 ≤ len resp ≤ 512 → nth 1 resp 0 = 0 →
  ∃ w, run (dialSocks5Long None Socks5ConnectCmd (hostPort h p) true) (mkWorld (socksAnswers resp writes) proxy cs) = (Ret None, w) ∧
    written (wConn w) = [Socks5Version; 1; Socks5NoAuth] ++ connectRequest Socks5ConnectCmd h n ∧ closed (wConn w) = false.
Proof.
  intros Hd Hp Hn Hl H0. unfold dialSocks5Long, clientAuth, RoundTrip, socksAnswers. cbn [pbind run endOf wConn endWrite closed writesLeft plus setEnd wProxy counts].
  cbn [run endOf wConn setEnd incoming chunks Interact.written writesLeft closed app].
  unfold endRead at 1. cbn [closed incoming chunks]. assert (len (Socks5Version :: Socks5NoAuth :: resp) =? 0 = false) as -> by (rewrite !len_cons; pose proof (len_nonneg resp); lia).
  cbn [tail Interact.written writesLeft]. change (Z.to_nat (Z.min 4 (Z.max 1 2))) with 2%nat. cbn [take drop pbind run]. rewrite take_0, drop_0.
  change (negb (len [Socks5Version; Socks5NoAuth] =? 2)) with false. change (negb (nth 0 [Socks5Version; Socks5NoAuth] 0 =? Socks5Version)) with false.
  change (negb (nth 1 [Socks5Version; Socks5NoAuth] 0 =? Socks5NoAuth)) with false. cbv iota. cbn [pbind run]. rewrite SplitHostPort_hostPort by done. cbn [pbind]. rewrite Hn. cbn [pbind].
  cbn [run endOf wConn setEnd endWrite closed writesLeft]. unfold endRead. cbn [closed incoming chunks].
  assert (len resp =? 0 = false) as -> by lia. assert (Htake : take (Z.to_nat (Z.min 512 (Z.max 1 (len resp)))) resp = resp).
  { apply take_ge. unfold len in *. lia. }
  rewrite Htake. assert (len resp <? 10 = false) as -> by lia. rewrite H0. change (negb (0 =? 0)) with false. cbv iota.
  change (Socks5ConnectCmd =? Socks5UDPAssociateCmd) with false. cbv iota. cbn [run]. eexists. split; [reflexivity|]. by split.
Qed.

Lemma ParseUint16_ret p n : ParseUint16 p = Ret n → p ≠ [] ∧ forallb is_digit p = true ∧ in_u16 n.
Proof.
  unfold ParseUint16. intros H. case_if_in H; [done|]. case_if_in H; [done|]. injection H as <-. apply orb_false_iff in Heqb as [H1 H2]. apply negb_false_iff in H2.
  split_and!; [by intros ->|done|]. pose proof (digits_value_nonneg p 0 ltac:(lia) (proj1 (forallb_digits p) H2)). unfold in_u16. lia.
Qed.

(** C23: tunnels of the HTTP proxy.  Take a CONNECT request with an explicit port for
    a name, an IPv4 address or an IPv6 address that is not the mapped form of an
    IPv4 one, and a socks5 server that accepts it with a reply of 10 to 512 bytes.
    The request becomes one socks5 request to the server whose address the proxy
    was given: the proxy finds that address in its URI, the request names exactly
    this destination for whoever reads it, and the browser is told that the
    connection is established and is relayed to it. *)
Theorem http_connect_reaches parseDuration t sh sp u h p n resp writes proxy cs roundTrip hdr hs body rest :
  parseDuration (string_bytes "10s") = Ret t → dest_ok sh → forallb is_digit sp = true →
  dest_ok h → ParseUint16 p = Ret n → Host u = hostPort h p → 10 ≤ len resp ≤ 512 → nth 1 resp 0 = 0 →
  let uri := string_bytes "socks5://" ++ hostPort sh sp ++ string_bytes "?timeout=10s" in
  let w := mkWorld (socksAnswers resp writes) proxy cs in
  parseProxy parseDuration uri = Ret (mkProxyClient (hostPort sh sp) None t) ∧
  ServeHTTP true true (λ a, (dialThrough parseDuration uri w a).1) roundTrip hdr (mkHttpRequest (string_bytes "CONNECT") u hs body) =
    (TakenOver established (Some (hostPort h p)), [HTTPRequests]) ∧
  ∃ w' req, dialThrough parseDuration uri w (hostPort h p) = (Ret tt, w') ∧ written (wConn w') = [Socks5Version; 1; Socks5NoAuth] ++ req ∧
    readRequest (mkRequest 0 zeroAddr []) (req ++ rest) = Ret (mkRequest Socks5ConnectCmd (normalized (destAddr h n)) req, rest).
Proof.
  intros Ht Hsh Hsp Hd Hn Hu Hl H0 uri w. destruct (ParseUint16_ret p n Hn) as (Hpne & Hp & Hn16). pose proof (proxy_uri_parses parseDuration sh sp t Hsh Hsp Ht) as Huri. fold uri in Huri.
  destruct (dial_plain h p n resp writes proxy cs Hd Hp Hn Hl H0) as (w' & Hrun & Hw & _). fold w in Hrun.
  assert (Hdial : dialThrough parseDuration uri w (hostPort h p) = (Ret tt, w')) by (unfold dialThrough; rewrite Huri; cbn [pc_Credential]; by rewrite Hrun).
  split; [done|]. split.
  - destruct (hostname_port u h p Hd Hp Hu) as [Hh Hport]. unfold ServeHTTP. cbn [rq_Method rq_URL]. rewrite bool_decide_eq_true_2 by done. cbn [negb orb].
    unfold connectPort. rewrite Hport, bool_decide_eq_false_2 by done. cbn [negb]. rewrite Hh. fold (hostPort h p). by rewrite Hdial.
  - exists w', (connectRequest Socks5ConnectCmd h n). split_and!; [done|done|]. by apply connectRequest_reads.
Qed.

(** ** Plain requests *)

Definition header_ok (h : Header) : Prop := map_Forall (λ k vs, CanonicalHeaderKey k = k ∧ vs ≠ []) h.

Lemma hop_canonical : CanonicalHeaderKey <$> hopByHopHeaders = string_bytes <$> ["Connection"; "Proxy-Connection"; "Keep-Alive"; "Te"; "Transfer-Encoding"; "Upgrade"]%string.
Proof. vm_compute. reflexivity. Qed.

Lemma deleteHop_lookup h k : deleteHopByHopHeaders h !! k = if decide (k ∈ CanonicalHeaderKey <$> hopByHopHeaders) then None else h !! k.
Proof.
  unfold deleteHopByHopHeaders. revert h. induction hopByHopHeaders as [|x l IH]; intros h; cbn [foldl fmap list_fmap].
  - by rewrite decide_False by apply not_elem_of_nil.
  - rewrite IH. unfold headerDel. destruct (decide (k = CanonicalHeaderKey x)) as [->|Hne].
    + rewrite lookup_delete_eq. rewrite (decide_True (P := _ ∈ _ :: _)) by apply list_elem_of_here. by case_decide.
    + rewrite lookup_delete_ne by done. repeat case_decide; try done; set_solver.
Qed.

Lemma addAll_values_header k vs : ∀ dst : Header, CanonicalHeaderKey k = k → vs ≠ [] → foldl (λ d v, headerAdd k v d) dst vs = <[k := default [] (dst !! k) ++ vs]> dst.
Proof.
  intros dst Hk Hne. induction vs as [|v vs IH] using rev_ind; [done|]. rewrite foldl_app. cbn [foldl]. destruct vs as [|v0 vs].
  - cbn [foldl app]. unfold headerAdd. by rewrite Hk.
  - rewrite IH by done. unfold headerAdd. rewrite Hk, lookup_insert_eq, insert_insert_eq. f_equal. symmetry. apply app_assoc.
Qed.

Lemma copy_list L : ∀ dst : Header, NoDup L.*1 → Forall (λ kv, CanonicalHeaderKey kv.1 = kv.1 ∧ kv.2 ≠ []) L → Forall (λ kv, dst !! kv.1 = None) L →
  foldl (λ dst kv, foldl (λ dst v, headerAdd kv.1 v dst) dst kv.2) dst L = list_to_map L ∪ dst.
Proof.
  induction L as [|[k vs] L IH]; intros dst Hn Hc Hd; cbn [foldl list_to_map foldr]; [by rewrite (left_id ∅ (∪))|].
  apply NoDup_cons in Hn as [Hk Hn]. apply Forall_cons in Hc as [[Hck Hv] Hc]. apply Forall_cons in Hd as [Hdk Hd]. cbn [fst snd] in *.
  rewrite addAll_values_header by done. rewrite Hdk. cbn [default app]. rewrite IH; [|done|done|].
  - cbn. rewrite <- insert_union_l. apply map_eq. intros x. destruct (decide (x = k)) as [->|Hx].
    + rewrite lookup_insert_eq. rewrite lookup_union, lookup_insert_eq. rewrite not_elem_of_list_to_map_1 by done. done.
    + by rewrite lookup_insert_ne, !lookup_union, lookup_insert_ne by done.
  - apply Forall_forall. intros x Hx. rewrite lookup_insert_ne; [rewrite Forall_forall in Hd; by apply Hd|]. intros ->. apply Hk. by apply list_elem_of_fmap_2.
Qed.

Lemma copyHeaders_empty src : header_ok src → copyHeaders ∅ src = src.
Proof.
  intros Hok. unfold copyHeaders. rewrite copy_list.
  - by rewrite (right_id ∅ (∪)), list_to_map_to_list.
  - apply NoDup_fst_map_to_list.
  - apply Forall_forall. intros [k vs] Hkv. apply elem_of_map_to_list in Hkv. by apply (Hok k vs).
  - apply Forall_forall. intros kv _. apply lookup_empty.
Qed.

(** Plain requests pass through: the request that is sent and the response that is
    returned have the body, the status and every header of the original except the
    six that only concern one connection. *)
Theorem http_forwards req resp roundTrip dial hijacker hijack : rq_Method req ≠ string_bytes "CONNECT" → header_ok (rs_Header resp) →
  (∀ out, rq_Method out = rq_Method req → rq_URL out = rq_URL req → rq_Body out = rq_Body req →
    (∀ k, rq_Header out !! k = if decide (k ∈ CanonicalHeaderKey <$> hopByHopHeaders) then None else rq_Header req !! k) → roundTrip out = Ret resp) →
  ∃ ans, ServeHTTP hijacker hijack dial roundTrip ∅ req = (Answered ans, [HTTPRequests]) ∧ rs_StatusCode ans = rs_StatusCode resp ∧ rs_Body ans = rs_Body resp ∧
    ∀ k, rs_Header ans !! k = if decide (k ∈ CanonicalHeaderKey <$> hopByHopHeaders) then None else rs_Header resp !! k.
Proof.
  intros Hm Hok Hrt. unfold ServeHTTP. rewrite bool_decide_eq_false_2 by done. rewrite Hrt by (first [done|apply deleteHop_lookup]).
  eexists. split; [reflexivity|]. cbn [rs_StatusCode rs_Body rs_Header]. split_and!; [done|done|]. intros k.
  rewrite copyHeaders_empty; [apply deleteHop_lookup|]. intros x vs Hx. rewrite deleteHop_lookup in Hx. case_decide; [done|]. by apply (Hok x vs).
Qed.

(** ** What goes wrong *)

(** When a request fails, the handler returns without an answer, for which the HTTP
    server of the standard library sends the status 200 with an empty body; a
    failed tunnel leaves the connection of the browser open and unanswered. *)
Theorem failure_is_silent dial roundTrip hdr req e :
  (rq_Method req ≠ string_bytes "CONNECT" → (∀ out, roundTrip out = Err e) → (ServeHTTP true true dial roundTrip hdr req).1 = Unanswered) ∧
  (rq_Method req = string_bytes "CONNECT" → (∀ a, dial a = Err e) → (ServeHTTP true true dial roundTrip hdr req).1 = TakenOver [] None).
Proof.
  split; intros Hm Hf; unfold ServeHTTP.
  - by rewrite bool_decide_eq_false_2, Hf.
  - rewrite bool_decide_eq_true_2 by done. cbn [negb orb]. destruct (connectPort _); [by rewrite Hf|done].
Qed.

(** An IPv4-mapped address loses its brackets, and the dial fails. *)
Theorem mapped_tunnel_fails :
  let u := mkURL [] [] None (string_bytes "[::ffff:1.2.3.4]:443") [] [] in
  Hostname u = string_bytes "::ffff:1.2.3.4" ∧ URLPort u = string_bytes "443" ∧
  (∃ e, SplitHostPort (MaybeDecorateIPv6 (Hostname u) ++ [58] ++ URLPort u) = Err e).
Proof. vm_compute. split; [done|]. split; [done|]. by eexists. Qed.

(** ** Witnesses *)

Lemma http_connect_reaches_witness :
  let uri := string_bytes "socks5://127.0.0.1:1080?timeout=10s" in
  let w := mkWorld (socksAnswers [5; 0; 0; 1; 0; 0; 0; 0; 0; 0] 0) (peerSends [] 0) [] in
  let u := mkURL [] [] None (string_bytes "example.com:443") [] [] in
  (ServeHTTP true true (λ a, (dialThrough (λ _, Ret (10 ^ 10)) uri w a).1) (λ _, Err ErrUnsupported) ∅ (mkHttpRequest (string_bytes "CONNECT") u ∅ [])).1 =
    TakenOver established (Some (string_bytes "example.com:443")) ∧
  ∃ req, readRequest (mkRequest 0 zeroAddr []) (req ++ [1; 2; 3]) = Ret (mkRequest Socks5ConnectCmd (mkAddr (string_bytes "example.com") [] 443) req, [1; 2; 3]).
Proof.
  destruct (http_connect_reaches (λ _, Ret (10 ^ 10)) (10 ^ 10) (string_bytes "127.0.0.1") (string_bytes "1080")
    (mkURL [] [] None (string_bytes "example.com:443") [] []) (string_bytes "example.com") (string_bytes "443") 443 [5; 0; 0; 1; 0; 0; 0; 0; 0; 0] 0 (peerSends [] 0) []
    (λ _, Err ErrUnsupported) ∅ ∅ [] [1; 2; 3]) as (_ & H1 & w' & req & _ & _ & H2).
  - reflexivity.
  - left. split; [vm_compute; discriminate|right; by apply (bool_decide_unpack _)].
  - reflexivity.
  - right. split_and!; [discriminate| |reflexivity|vm_compute; discriminate].
    unfold nameChar. apply (bool_decide_unpack (Forall (λ c, alnum c = true ∨ c ∈ string_bytes "-._~") (string_bytes "example.com"))). vm_compute. exact I.
  - reflexivity.
  - reflexivity.
  - vm_compute. split; discriminate.
  - reflexivity.
  - split; [exact (f_equal fst H1)|]. exists req. exact H2.
Defined.

End HttpProxy.
Export HttpProxy.
