(* ===== verification/PanelConfig.v ===== *)
(** * The configuration of the web panel: mieru-panel/config/config.go

    The panel keeps its configuration in memory and in a file.  [copyConfig]
    copies the list of users but not the device lists, which are slices: copies of
    a configuration share their arrays.  So a device list in memory is a [slice]
    into a heap of arrays, and a configuration is parametric in the type of device
    lists: slices in memory, plain lists in the file. *)

From S2P Require Import Prelude ConfigServer PanelText.
Local Open Scope Z_scope.

Module PanelConfig.

Record Quotas := mkQuotas { q_DayMB : Z; q_MonthMB : Z }.

Record DeviceFingerprint := mkDevice {
  d_Hash : bytes;
  d_HWID : bytes;
  d_UserAgent : bytes;
  d_IP : bytes;
  d_FirstSeen : Z;
  d_LastSeen : Z
}.

Record User (D : Type) := mkUser {
  u_Name : bytes;
  u_Password : bytes;
  u_SubToken : bytes;
  u_Quotas : Quotas;
  u_ExpiresAt : Z;
  u_MaxDevices : Z;
  u_Devices : D
}.
Arguments mkUser {D}. Arguments u_Name {D}. Arguments u_Password {D}. Arguments u_SubToken {D}. Arguments u_Quotas {D}.
Arguments u_ExpiresAt {D}. Arguments u_MaxDevices {D}. Arguments u_Devices {D}.

Record Config (D : Type) := mkConfig {
  AdminUsername : bytes;
  AdminPasswordHash : bytes;
  ServerIP : bytes;
  ServerPortRange : bytes;
  DefaultPort : Z;
  PanelPort : Z;
  BindAddr : bytes;
  SessionSecret : bytes;
  Users : list (User D);
  LoggingLevel : bytes;
  MTU : Z;
  Multiplexing : bytes;
  AllowedUserAgents : list bytes;
  RequireHWID : bool
}.
Arguments mkConfig {D}. Arguments AdminUsername {D}. Arguments AdminPasswordHash {D}. Arguments ServerIP {D}.
Arguments ServerPortRange {D}. Arguments DefaultPort {D}. Arguments PanelPort {D}. Arguments BindAddr {D}.
Arguments SessionSecret {D}. Arguments Users {D}. Arguments LoggingLevel {D}. Arguments MTU {D}. Arguments Multiplexing {D}.
Arguments AllowedUserAgents {D}. Arguments RequireHWID {D}.

Definition set_Devices {D E} (d : E) (u : User D) : User E :=
  mkUser (u_Name u) (u_Password u) (u_SubToken u) (u_Quotas u) (u_ExpiresAt u) (u_MaxDevices u) d.
Definition set_Users {D E} (us : list (User E)) (c : Config D) : Config E :=
  mkConfig (AdminUsername c) (AdminPasswordHash c) (ServerIP c) (ServerPortRange c) (DefaultPort c) (PanelPort c) (BindAddr c)
    (SessionSecret c) us (LoggingLevel c) (MTU c) (Multiplexing c) (AllowedUserAgents c) (RequireHWID c).
Definition set_admin {D} (name hash : bytes) (c : Config D) : Config D :=
  mkConfig name hash (ServerIP c) (ServerPortRange c) (DefaultPort c) (PanelPort c) (BindAddr c)
    (SessionSecret c) (Users c) (LoggingLevel c) (MTU c) (Multiplexing c) (AllowedUserAgents c) (RequireHWID c).

(** ** Slices of devices *)

Record slice := mkSlice { sl_arr : nat; sl_len : nat; sl_cap : nat }.
Notation heap := (gmap nat (list DeviceFingerprint)).

Definition noDevice : DeviceFingerprint := mkDevice [] [] [] [] 0 0.
(** A nil slice; the array 0 is empty and is never written. *)
Definition nilSlice : slice := mkSlice 0 0 0.

Definition deref (h : heap) (s : slice) : list DeviceFingerprint := take (sl_len s) (default [] (h !! sl_arr s)).

(** [s[j] = d] for an index in range. *)
Definition writeAt (s : slice) (j : nat) (d : DeviceFingerprint) (h : heap) : heap := alter (<[j := d]>) (sl_arr s) h.

(** [append(s, d)]; [grow] is the capacity that the runtime chooses. *)
Definition appendDevice (grow : nat → nat) (s : slice) (d : DeviceFingerprint) (h : heap) : slice * heap :=
  if (sl_len s <? sl_cap s)%nat then (mkSlice (sl_arr s) (S (sl_len s)) (sl_cap s), writeAt s (sl_len s) d h)
  else
    let cap := Nat.max (grow (sl_cap s)) (S (sl_len s)) in
    let a := base.fresh ({[0%nat]} ∪ dom (D := gset nat) h) in
    (mkSlice a (S (sl_len s)) cap, <[a := deref h s ++ [d] ++ replicate (cap - S (sl_len s)) noDevice]> h).

(** A fresh slice of a list, as decoding makes one. *)
Definition newSlice (l : list DeviceFingerprint) (h : heap) : slice * heap :=
  let a := base.fresh ({[0%nat]} ∪ dom (D := gset nat) h) in
  (mkSlice a (length l) (length l), <[a := l]> h).

(** The plain configuration that a configuration in memory stands for. *)
Definition resolve (h : heap) (c : Config slice) : Config (list DeviceFingerprint) :=
  set_Users ((λ u, set_Devices (deref h (u_Devices u)) u) <$> Users c) c.

Fixpoint allocUsers (us : list (User (list DeviceFingerprint))) (h : heap) : list (User slice) * heap :=
  match us with
  | [] => ([], h)
  | u :: us =>
      let '(s, h) := newSlice (u_Devices u) h in
      let '(us, h) := allocUsers us h in (set_Devices s u :: us, h)
  end.
Definition allocConfig (c : Config (list DeviceFingerprint)) (h : heap) : Config slice * heap :=
  let '(us, h) := allocUsers (Users c) h in (set_Users us c, h).

(** ** The store *)

Record Store := mkStore { s_heap : heap; s_cfg : Config slice; s_file : option bytes }.

Definition defaultPanelPort : Z := 8080.
Definition defaultBindAddr : bytes := string_bytes "127.0.0.1".

Definition orElse (s d : bytes) : bytes := if bool_decide (s = []) then d else s.

Definition normalizeDefaults {D} (c : Config D) : Config D :=
  mkConfig (orElse (AdminUsername c) (string_bytes "admin")) (AdminPasswordHash c) (ServerIP c) (ServerPortRange c)
    (DefaultPort c) (if PanelPort c =? 0 then defaultPanelPort else PanelPort c) (orElse (BindAddr c) defaultBindAddr)
    (SessionSecret c) (Users c) (orElse (LoggingLevel c) (string_bytes "INFO")) (if MTU c =? 0 then 1400 else MTU c)
    (orElse (Multiplexing c) (string_bytes "MULTIPLEXING_HIGH")) (AllowedUserAgents c) (RequireHWID c).

(** [hash]: bcrypt of "admin"; [secret]: the 32 random bytes. *)
Definition defaultConfig {D} (hash : outcome bytes) (secret : outcome bytes) : outcome (Config D) :=
  let! hash := hash in
  let! secret := secret in
  Ret (mkConfig (string_bytes "admin") hash (string_bytes "127.0.0.1") (string_bytes "2012-2022") 2015 defaultPanelPort
    defaultBindAddr (string_bytes (ConfigServer.hexEncode secret)) [] (string_bytes "INFO") 1400
    (string_bytes "MULTIPLEXING_HIGH") [] false).

Section Store.
Context (marshal : Config (list DeviceFingerprint) → bytes).
Context (unmarshal : bytes → option (Config (list DeviceFingerprint))).

(** [disk]: [None] when writing succeeds, otherwise what is left in the file. *)
Definition writeConfig (disk : option (option bytes)) (c : Config (list DeviceFingerprint)) : outcome unit * option bytes :=
  match disk with None => (Ret tt, Some (marshal c)) | Some rest => (Err (Errorf "write config"), rest) end.

(** [copyConfig] copies the users and shares the device arrays. *)
Definition copyConfig (c : Config slice) : Config slice := set_Users (Users c) c.

Definition Snapshot (s : Store) : Config slice := copyConfig (s_cfg s).

Definition Update (disk : option (option bytes)) (update : Config slice → heap → outcome (Config slice) * heap) (s : Store)
    : outcome unit * Store :=
  match update (copyConfig (s_cfg s)) (s_heap s) with
  | (Ret next, h) =>
      match writeConfig disk (resolve h next) with
      | (Ret _, f) => (Ret tt, mkStore h next f)
      | (Err e, f) => (Err e, mkStore h (s_cfg s) f)
      | (Panic p, f) => (Panic p, mkStore h (s_cfg s) f)
      end
  | (Err e, h) => (Err e, mkStore h (s_cfg s) (s_file s))
  | (Panic p, h) => (Panic p, mkStore h (s_cfg s) (s_file s))
  end.

(** [NewStore]: the file, or the defaults when there is none. *)
Definition loadOrCreate (hash secret : outcome bytes) (disk : option (option bytes)) (file : option bytes) : outcome Store :=
  match file with
  | None =>
      let! created := defaultConfig hash secret in
      match writeConfig disk created with
      | (Ret _, f) => let '(c, h) := allocConfig created {[0%nat := []]} in Ret (mkStore h c f)
      | (Err e, _) => Err e
      | (Panic p, _) => Panic p
      end
  | Some raw =>
      match unmarshal raw with
      | None => Err (Errorf "json: cannot unmarshal")
      | Some c => let '(c, h) := allocConfig (normalizeDefaults c) {[0%nat := []]} in Ret (mkStore h c file)
      end
  end.
End Store.

(** ** Well-formed stores

    Every slice lies within its array and no two users share one. *)

Definition slice_ok (h : heap) (s : slice) : Prop :=
  (sl_len s ≤ sl_cap s)%nat ∧ ∃ l, h !! sl_arr s = Some l ∧ length l = sl_cap s.
Definition arrays (us : list (User slice)) : list nat := (λ u, sl_arr (u_Devices u)) <$> filter (λ u, sl_cap (u_Devices u) ≠ 0%nat) us.
Record users_ok (h : heap) (us : list (User slice)) : Prop := {
  uo_slices : Forall (λ u, slice_ok h (u_Devices u)) us;
  uo_distinct : NoDup (arrays us);
  uo_nil : h !! 0%nat = Some []
}.
Definition store_ok (s : Store) : Prop := users_ok (s_heap s) (Users (s_cfg s)).

Lemma fresh_array (h : heap) : let a := base.fresh ({[0%nat]} ∪ dom (D := gset nat) h) in h !! a = None ∧ a ≠ 0%nat.
Proof.
  cbn. pose proof (is_fresh ({[0%nat]} ∪ dom (D := gset nat) h)) as H. split; [apply not_elem_of_dom|]; set_solver.
Qed.

Lemma deref_extend (h h' : heap) s : h ⊆ h' → slice_ok h s → deref h' s = deref h s.
Proof. intros Hs (_ & l & Hl & _). unfold deref. by rewrite Hl, (lookup_weaken _ _ _ _ Hl Hs). Qed.
Lemma slice_ok_extend (h h' : heap) s : h ⊆ h' → slice_ok h s → slice_ok h' s.
Proof. intros Hs (Hc & l & Hl & Hn). split; [done|]. exists l. split; [by eapply lookup_weaken|done]. Qed.

Definition plain (h : heap) (us : list (User slice)) : list (User (list DeviceFingerprint)) :=
  (λ u, set_Devices (deref h (u_Devices u)) u) <$> us.

Lemma plain_extend (h h' : heap) us : h ⊆ h' → Forall (λ u, slice_ok h (u_Devices u)) us → plain h' us = plain h us.
Proof.
  intros Hs Hok. unfold plain. apply list_fmap_ext. intros i u Hu. rewrite (deref_extend h h'); [done..|].
  by eapply (Forall_lookup_1 (λ u, slice_ok h (u_Devices u))).
Qed.

(** Decoded lists get arrays of their own. *)
Lemma allocUsers_spec us : ∀ h us' h', h !! 0%nat = Some [] → allocUsers us h = (us', h') →
  h ⊆ h' ∧ plain h' us' = us ∧ Forall (λ u, slice_ok h' (u_Devices u)) us' ∧ NoDup (arrays us') ∧
  (∀ a, a ∈ arrays us' → h !! a = None).
Proof.
  induction us as [|u us IH]; intros h us' h' H0 Ha; cbn in Ha.
  { injection Ha as <- <-. split_and!; [done|done|constructor|constructor|]. intros a Hin. inversion Hin. }
  pose proof (fresh_array h) as [Hf Hf0]. cbn in Hf, Hf0. set (a := base.fresh _) in *.
  destruct (allocUsers us (<[a := u_Devices u]> h)) as [us1 h1] eqn:E. injection Ha as <- <-.
  assert (Hsub : h ⊆ <[a := u_Devices u]> h) by by apply insert_subseteq.
  apply IH in E as (Hs & Hp & Hok & Hnd & Hnew); [|by rewrite lookup_insert_ne].
  assert (Ha : h1 !! a = Some (u_Devices u)) by (eapply lookup_weaken; [apply lookup_insert_eq|done]).
  split_and!.
  - by etrans.
  - cbn. f_equal; [|done]. unfold deref; cbn. rewrite Ha. cbn. rewrite firstn_all. by destruct u.
  - constructor; [|done]. split; cbn; [done|]. by exists (u_Devices u).
  - unfold arrays. rewrite filter_cons. case_decide as Hd; [|done]. cbn. constructor; [|done].
    intros Hin. apply Hnew in Hin. by rewrite lookup_insert_eq in Hin.
  - intros b Hb. unfold arrays in Hb. rewrite filter_cons in Hb. case_decide; cbn in Hb.
    + apply elem_of_cons in Hb as [->|Hb]; [done|]. apply Hnew in Hb. by apply lookup_insert_None in Hb as [? _].
    + apply Hnew in Hb. by apply lookup_insert_None in Hb as [? _].
Qed.

Lemma allocConfig_spec c h c' h' : h !! 0%nat = Some [] → allocConfig c h = (c', h') →
  h ⊆ h' ∧ resolve h' c' = c ∧ users_ok h' (Users c').
Proof.
  intros H0 Ha. unfold allocConfig in Ha. destruct (allocUsers (Users c) h) as [us h1] eqn:E. injection Ha as <- <-.
  apply allocUsers_spec in E as (Hs & Hp & Hok & Hnd & _); [|done]. split_and!; [done|..].
  - unfold resolve. cbn. change (_ <$> us) with (plain h1 us). rewrite Hp. by destruct c.
  - split; [done|done|by eapply lookup_weaken].
Qed.

(** ** Writing through a slice

    [touches h s h']: [h'] differs from [h] only in the array of [s], whose
    capacity stays, and in new arrays. *)
Definition touches (h : heap) (s : slice) (h' : heap) : Prop :=
  ∀ a l, h !! a = Some l → (a ≠ sl_arr s ∨ sl_cap s = 0%nat → h' !! a = Some l) ∧ ∃ l', h' !! a = Some l' ∧ length l' = length l.

Lemma touches_refl h s : touches h s h.
Proof. intros a l Ha. eauto. Qed.

Lemma touches_alter h s f : slice_ok h s → (∀ l, length l = sl_cap s → length (f l) = length l) →
  touches h s (alter f (sl_arr s) h).
Proof.
  intros (_ & l0 & Hl0 & Hn) Hf a l Ha. destruct (decide (a = sl_arr s)) as [->|Hne].
  - rewrite Ha in Hl0. injection Hl0 as ->. rewrite lookup_alter_eq, Ha. cbn. split; [|eauto].
    intros [?|Hc]; [done|]. rewrite Hc in Hn. apply nil_length_inv in Hn as ->. pose proof (Hf [] (eq_sym Hc)) as Hz. by apply nil_length_inv in Hz as ->.
  - rewrite lookup_alter_ne by done. eauto.
Qed.

Lemma touches_new h s l : touches h s (<[base.fresh ({[0%nat]} ∪ dom (D := gset nat) h) := l]> h).
Proof.
  pose proof (fresh_array h) as [Hf _]. cbn in Hf. intros a l' Ha. rewrite lookup_insert_ne by congruence. eauto.
Qed.

(** Slices of other arrays are as before. *)
Lemma touches_other h s h' s' : touches h s h' → slice_ok h s → slice_ok h s' → sl_arr s' ≠ sl_arr s ∨ sl_cap s' = 0%nat →
  slice_ok h' s' ∧ deref h' s' = deref h s'.
Proof.
  intros Ht (_ & l0 & Hl0 & Hn0) (Hc & l & Hl & Hn) Hd. destruct (Ht _ _ Hl) as [Hsame (l' & Hl' & Hlen)].
  assert (H : h' !! sl_arr s' = Some l).
  { apply Hsame. destruct (decide (sl_arr s' = sl_arr s)) as [E|]; [right|by left]. rewrite E, Hl0 in Hl. injection Hl as ->. lia. }
  split; [split; [done|by exists l]|]. unfold deref. by rewrite H, Hl.
Qed.

Lemma deref_length h s : slice_ok h s → length (deref h s) = sl_len s.
Proof. intros (Hc & l & Hl & Hn). unfold deref. rewrite Hl. cbn. rewrite length_take. lia. Qed.

Lemma writeAt_spec h s j d : slice_ok h s → (j < sl_len s)%nat →
  touches h s (writeAt s j d h) ∧ slice_ok (writeAt s j d h) s ∧ deref (writeAt s j d h) s = <[j := d]> (deref h s).
Proof.
  intros Hok Hj. pose proof Hok as (Hc & l & Hl & Hn). unfold writeAt. split_and!.
  - apply touches_alter; [done|]. intros l' _. apply length_insert.
  - split; [done|]. exists (<[j := d]> l). rewrite lookup_alter_eq, Hl. cbn. by rewrite length_insert.
  - unfold deref. rewrite lookup_alter_eq, Hl. cbn. by rewrite take_insert_lt.
Qed.

Lemma appendDevice_spec grow h s d s' h' : slice_ok h s → appendDevice grow s d h = (s', h') →
  touches h s h' ∧ slice_ok h' s' ∧ deref h' s' = deref h s ++ [d] ∧ (sl_arr s' = sl_arr s ∧ sl_cap s' = sl_cap s ∨ h !! sl_arr s' = None) ∧
  sl_cap s' ≠ 0%nat.
Proof.
  intros Hok. pose proof Hok as (Hc & l & Hl & Hn). unfold appendDevice. destruct (Nat.ltb_spec (sl_len s) (sl_cap s)) as [Hlt|Hge]; intros [= <- <-].
  - unfold writeAt. cbn. split_and!; [| | |by left|lia].
    + apply touches_alter; [done|]. intros l' _. apply length_insert.
    + split; [cbn; lia|]. exists (<[sl_len s := d]> l). cbn. rewrite lookup_alter_eq, Hl. cbn. by rewrite length_insert.
    + unfold deref. cbn. rewrite lookup_alter_eq, Hl. cbn. rewrite (take_S_r _ _ d) by (rewrite list_lookup_insert_eq; [done|lia]).
      by rewrite take_insert_ge by lia.
  - pose proof (fresh_array h) as [Hf _]. cbn in Hf. cbn. set (a := base.fresh _) in *. set (cap := Nat.max _ _).
    assert (Hcap : (S (sl_len s) ≤ cap)%nat) by (unfold cap; lia). pose proof (deref_length h s Hok) as Hd. split_and!; [| | |by right|lia].
    + apply touches_new.
    + split; [cbn; lia|]. eexists. cbn. rewrite lookup_insert_eq. split; [reflexivity|]. rewrite length_app. cbn. rewrite length_replicate. lia.
    + unfold deref at 1. cbn. rewrite lookup_insert_eq. cbn. rewrite cons_middle, app_assoc. apply take_app_length'. rewrite length_app. cbn. lia.
Qed.

End PanelConfig.
Export PanelConfig.
