(* ===== verification/PanelAuth.v ===== *)
(** * Logging in to the web panel: mieru-panel/handlers/auth.go, challenge.go,
    totp.go, login_totp_finish.go, mieru-panel/pkg/admin2fa, pkg/ratelimit

    A handler takes the time, the request and the state of the application, and
    returns the response and the new state.  The clock is read once per request.
    bcrypt, AES-GCM, the TOTP library and the JSON encoding of the second-factor
    file are parameters; a request body is [None] when it is not valid JSON.
    Audit and application logs are not modelled, and the messages of errors of the
    operating system are abbreviated. *)

From S2P Require Import Prelude Float Cipher Net ConfigServer PanelText PanelConfig.
From Stdlib Require Import ZifyBool Sorted.
From stdpp Require Import sorting.
Local Open Scope Z_scope.

Module PanelAuth.

(** ** Requests and responses *)

Inductive method := GET | POST | PUT | PATCH | DELETE | OtherMethod.
#[global] Instance method_eq_dec : EqDecision method.
Proof. solve_decision. Defined.

Record request (B : Type) := mkRequest {
  r_method : method;
  r_forwardedFor : bytes;
  r_remoteAddr : bytes;
  r_cookie : option bytes;
  r_body : option B
}.
Arguments mkRequest {B}. Arguments r_method {B}. Arguments r_forwardedFor {B}. Arguments r_remoteAddr {B}.
Arguments r_cookie {B}. Arguments r_body {B}.

Inductive body :=
| BError (msg : string)
| BOk
| BChallenge (token : bytes)
| BLocked (msg : string) (retryAfter secLeft : Z)
| BMe (username : bytes)
| BSetup (secret qrUri : bytes)
| BBackupCodes (codes : list bytes)
| BStatus (enabled : bool) (remaining : Z) (activatedAt : bytes).

(** [w_cookie]: the value of the session cookie that is set, empty to clear it. *)
Record response := mkResp { w_status : Z; w_cookie : option bytes; w_body : body }.
Definition reply (status : Z) (b : body) : response := mkResp status None b.
Definition errorReply (status : Z) (msg : string) : response := reply status (BError msg).

Definition clientIP {B} (r : request B) : bytes :=
  let v := TrimSpace (r_forwardedFor r) in
  if negb (bool_decide (v = [])) then
    match Split 44 v with
    | first :: _ :: _ => TrimSpace first
    | _ => v
    end
  else
    match LastIndexByte 58 (r_remoteAddr r) with
    | Some i => take i (r_remoteAddr r)
    | None => r_remoteAddr r
    end.

(** ** The rate limiter (pkg/ratelimit) *)

Record bucket := mkBucket { b_tokens : float; b_lastFill : Z }.
Record Limiter := mkLimiter {
  l_buckets : gmap bytes bucket;
  l_burst : float;
  l_rate : float;
  l_expireAt : Z
}.

Definition NewLimiter (burst : Z) (perSecond : float) (keepFor : Z) : Limiter :=
  mkLimiter ∅ (of_Z binary64 (if burst <=? 0 then 1 else burst))
    (if fle perSecond (of_Z binary64 0) then of_Z binary64 1 else perSecond) keepFor.

(** [Duration.Seconds]. *)
Definition Seconds (d : Z) : float :=
  fadd binary64 (of_Z binary64 (Z.quot d Second)) (fdiv binary64 (of_Z binary64 (Z.rem d Second)) (of_Z binary64 Second)).

Definition reap (now : Z) (l : Limiter) : Limiter :=
  mkLimiter (filter (λ kb : bytes * bucket, ¬ (l_expireAt l < now - b_lastFill kb.2)) (l_buckets l))
    (l_burst l) (l_rate l) (l_expireAt l).

(** The bucket of a key, filled up to the present. *)
Definition refill (now : Z) (l : Limiter) (b : option bucket) : bucket :=
  match b with
  | None => mkBucket (l_burst l) now
  | Some b =>
      let tokens := fadd binary64 (b_tokens b) (fmul binary64 (Seconds (now - b_lastFill b)) (l_rate l)) in
      mkBucket (if flt (l_burst l) tokens then l_burst l else tokens) now
  end.

Definition set_bucket (key : bytes) (b : bucket) (l : Limiter) : Limiter :=
  mkLimiter (<[key := b]> (l_buckets l)) (l_burst l) (l_rate l) (l_expireAt l).

Definition Allow (now : Z) (key : bytes) (l : option Limiter) : bool * option Limiter :=
  match l with
  | None => (true, None)
  | Some l =>
      let b := refill now l (l_buckets l !! key) in
      if flt (b_tokens b) (of_Z binary64 1) then (false, Some (reap now (set_bucket key b l)))
      else (true, Some (reap now (set_bucket key (mkBucket (fsub binary64 (b_tokens b) (of_Z binary64 1)) now) l)))
  end.

(** ** Lockout after wrong codes (pkg/admin2fa/lockout.go) *)

Definition lockoutFailures : Z := 5.
Definition lockoutWindow : Z := 15 * 60 * Second.
Definition lockoutDuration : Z := 15 * 60 * Second.

Record TotpStep2Lockout := mkLockout {
  failTimes : gmap bytes (list Z);
  lockedUntil : gmap bytes Z
}.
Definition NewTotpStep2Lockout : TotpStep2Lockout := mkLockout ∅ ∅.

(** [None] is the zero time. *)
Definition LockedUntil (user : bytes) (now : Z) (l : option TotpStep2Lockout) : option Z * option TotpStep2Lockout :=
  match l with
  | None => (None, None)
  | Some l =>
      match lockedUntil l !! user with
      | Some until => if now <? until then (Some until, Some l) else (None, Some (mkLockout (failTimes l) (delete user (lockedUntil l))))
      | None => (None, Some l)
      end
  end.

(** The failures that still count, with the new one; the fifth locks. *)
Definition recordNow (user : bytes) (now : Z) (l : TotpStep2Lockout) : option Z * TotpStep2Lockout :=
  let cutoff := now - lockoutWindow in
  let pruned := List.filter (λ t, negb (t <? cutoff)) (default [] (failTimes l !! user)) ++ [now] in
  if lockoutFailures <=? len pruned then
    let until := now + lockoutDuration in
    (Some until, mkLockout (delete user (failTimes l)) (<[user := until]> (lockedUntil l)))
  else (None, mkLockout (<[user := pruned]> (failTimes l)) (lockedUntil l)).

Definition RecordFailure (user : bytes) (now : Z) (l : option TotpStep2Lockout) : option Z * option TotpStep2Lockout :=
  match l with
  | None => (None, None)
  | Some l =>
      match lockedUntil l !! user with
      | Some ut => if now <? ut then (Some ut, Some l) else let '(r, l) := recordNow user now l in (r, Some l)
      | None => let '(r, l) := recordNow user now l in (r, Some l)
      end
  end.

Definition Clear (user : bytes) (l : option TotpStep2Lockout) : option TotpStep2Lockout :=
  match l with
  | None => None
  | Some l => Some (mkLockout (delete user (failTimes l)) (delete user (lockedUntil l)))
  end.

(** ** The second-factor file (pkg/admin2fa/store.go) *)

Record Persisted := mkPersisted {
  p_Enabled : bool;
  p_Secret : bytes;
  p_PendingSecret : bytes;
  p_BackupCodes : list bytes;
  p_ActivatedAt : bytes
}.
Definition noPersisted : Persisted := mkPersisted false [] [] [] [].

Inductive file := Missing | Unreadable | Content (b : bytes).

Record App := mkApp {
  a_Config : Store;
  a_LoginLimiter : option Limiter;
  a_SubLimiter : option Limiter;
  a_TwoFAKey : option bytes;
  a_TwoFAStore : option file;
  a_TotpLockout : option TotpStep2Lockout
}.
Definition set_Config (s : Store) (a : App) : App :=
  mkApp s (a_LoginLimiter a) (a_SubLimiter a) (a_TwoFAKey a) (a_TwoFAStore a) (a_TotpLockout a).
Definition set_LoginLimiter (l : option Limiter) (a : App) : App :=
  mkApp (a_Config a) l (a_SubLimiter a) (a_TwoFAKey a) (a_TwoFAStore a) (a_TotpLockout a).
Definition set_SubLimiter (l : option Limiter) (a : App) : App :=
  mkApp (a_Config a) (a_LoginLimiter a) l (a_TwoFAKey a) (a_TwoFAStore a) (a_TotpLockout a).
Definition set_TwoFA (f : file) (a : App) : App :=
  mkApp (a_Config a) (a_LoginLimiter a) (a_SubLimiter a) (a_TwoFAKey a) (Some f) (a_TotpLockout a).
Definition set_TotpLockout (l : option TotpStep2Lockout) (a : App) : App :=
  mkApp (a_Config a) (a_LoginLimiter a) (a_SubLimiter a) (a_TwoFAKey a) (a_TwoFAStore a) l.

Definition isAllDigits (s : bytes) : bool := forallb is_digit s.

(** [Duration.Round(time.Second) / time.Second]. *)
Definition roundSeconds (d : Z) : Z :=
  if d <? 0 then - ((- d + Second / 2) / Second) else (d + Second / 2) / Second.

Definition writeLockedLogin (now until : Z) (msg : string) : response :=
  let sec := roundSeconds (until - now) in
  let sec := if sec <? 1 then 15 * 60 else sec in
  let secLeft := Unix until - Unix now in
  reply 423 (BLocked msg sec (if secLeft <? 1 then sec else secLeft)).

Definition minAdminPasswordLen : Z := 5.

Record loginPayload := mkLogin {
  lp_Username : bytes;
  lp_Password : bytes;
  lp_Code : bytes;
  lp_ChallengeToken : bytes;
  lp_UseBackup : bool
}.
Record credentialsBody := mkCredentials { cb_CurrentPassword : bytes; cb_NewUsername : bytes; cb_NewPassword : bytes }.
Record passwordCodeBody := mkPasswordCode { pc_Password : bytes; pc_Code : bytes }.

(** The random numbers of a handler: the secret of the TOTP library, the nonce of
    AES-GCM, the codes, the salts of their hashes; [None] when the generator fails. *)
Record draws := mkDraws { dr_seed : bytes; dr_nonce : option bytes; dr_codes : nat → option bytes; dr_salts : nat → bytes }.

(** The libraries, as one record of functions.  [unicodeUpper] is
    [strings.ToUpper] on strings that are not ASCII. *)
Record libs := mkLibs {
  bcryptCompare : bytes → bytes → bool;
  bcryptGenerate : bytes → bytes → outcome bytes;
  totpValidate : bytes → bytes → Z → bool;
  totpGenerate : bytes → bytes → outcome (bytes * bytes);
  gcmSeal : bytes → bytes → bytes → bytes;
  gcmOpen : bytes → bytes → bytes → option bytes;
  marshal2FA : Persisted → bytes;
  unmarshal2FA : bytes → option Persisted;
  rfc3339 : Z → bytes;
  unicodeUpper : bytes → bytes;
  marshalConfig : Config (list DeviceFingerprint) → bytes
}.

Section Panel.
Context (L : libs).

Definition Read (f : file) : outcome Persisted :=
  match f with
  | Missing => Ret noPersisted
  | Unreadable => Err (Errorf "read 2fa file")
  | Content b => match unmarshal2FA L b with Some p => Ret p | None => Err (Errorf "json: cannot unmarshal") end
  end.

(** [disk]: [None] when writing succeeds, otherwise the file that is left. *)
Definition Write (disk : option file) (update : Persisted → outcome Persisted) (f : file) : outcome unit * file :=
  match (match f with
         | Content b => match unmarshal2FA L b with Some p => Ret p | None => Err (Errorf "json: cannot unmarshal") end
         | _ => Ret noPersisted
         end) with
  | Ret p =>
      match update p with
      | Ret p => match disk with None => (Ret tt, Content (marshal2FA L p)) | Some f' => (Err (Errorf "write 2fa file"), f') end
      | Err e => (Err e, f)
      | Panic s => (Panic s, f)
      end
  | Err e => (Err e, f)
  | Panic s => (Panic s, f)
  end.

(** *** AES-GCM (pkg/admin2fa/crypto.go) *)

Definition SealAESGCM (key : bytes) (nonce : option bytes) (plaintext : bytes) : outcome bytes :=
  if negb (len key =? 32) then Err (Errorf "admin2fa: AES key must be 32 bytes")
  else match nonce with
       | None => Err (Errorf "rand.Reader")
       | Some nonce => Ret (StdEncode (nonce ++ gcmSeal L key nonce plaintext))
       end.

Definition OpenAESGCM (key enc : bytes) : outcome bytes :=
  if negb (len key =? 32) then Err (Errorf "admin2fa: AES key must be 32 bytes")
  else match StdDecode enc with
       | None => Err (Errorf "illegal base64 data")
       | Some raw =>
           if len raw <? 12 then Err (Errorf "admin2fa: ciphertext too short")
           else match gcmOpen L key (take 12 raw) (drop 12 raw) with
                | Some p => Ret p
                | None => Err (Errorf "cipher: message authentication failed")
                end
       end.

(** *** Backup codes (pkg/admin2fa/codes.go) *)

Definition hyphen : Z := 45.

Fixpoint GenerateBackupPlainCodes (n : nat) (rs : nat → option bytes) : outcome (list bytes) :=
  match n with
  | O => Ret []
  | S n =>
      match rs O with
      | None => Err (Errorf "cryptorand.Read")
      | Some b =>
          let line := string_bytes (hexEncode b) in
          let! out := GenerateBackupPlainCodes n (λ i, rs (S i)) in
          Ret ((take 4 line ++ [hyphen] ++ drop 4 line) :: out)
      end
  end.

Definition normBackupPlain (s : bytes) : bytes := removeByte hyphen (ToUpper (unicodeUpper L) (TrimSpace s)).

Fixpoint HashBackupCodes (salts : nat → bytes) (plain : list bytes) : outcome (list bytes) :=
  match plain with
  | [] => Ret []
  | p :: plain =>
      let! hash := bcryptGenerate L (salts O) (normBackupPlain p) in
      let! hashes := HashBackupCodes (λ i, salts (S i)) plain in
      Ret (hash :: hashes)
  end.

Definition MatchBackupCode (plainInput : bytes) (hashes : list bytes) : option nat :=
  let want := normBackupPlain plainInput in
  if negb (len want =? 8) then None else fst <$> list_find (λ h, bcryptCompare L h want = true) hashes.

(** *** Second factor *)

Definition twoFACoreEnabled (a : App) : bool :=
  match a_TwoFAStore a, a_TwoFAKey a with Some _, Some k => len k =? 32 | _, _ => false end.

Definition admin2FAConfiguredAndEnabled (a : App) : outcome bool :=
  match a_TwoFAStore a, a_TwoFAKey a with
  | Some f, Some k =>
      if negb (len k =? 32) then Ret false
      else let! p := Read f in Ret (p_Enabled p && negb (bool_decide (TrimSpace (p_Secret p) = [])))
  | _, _ => Ret false
  end.

Definition decrypt2FASecret (a : App) (blob : bytes) : outcome bytes := OpenAESGCM (default [] (a_TwoFAKey a)) blob.

Definition validateTOTPCode (secretBase32 code : bytes) (now : Z) : bool :=
  let code := removeByte 32 (TrimSpace code) in
  if negb (len code =? 6) || negb (isAllDigits code) then false else totpValidate L code secretBase32 now.

(** [a.TwoFAStore.Write]; without a store the call is on a nil pointer. *)
Definition persist2FA (disk : option file) (update : Persisted → outcome Persisted) (a : App) : outcome unit * App :=
  match a_TwoFAStore a with
  | None => (Panic "nil pointer dereference", a)
  | Some f => let '(r, f) := Write disk update f in (r, set_TwoFA f a)
  end.

(** Removing the element [idx] of the backup codes, as the closure of
    [maybeConsumeBackup] does it on the list that it reads. *)
Definition removeBackup (idx : nat) (st : Persisted) : outcome Persisted :=
  let codes := p_BackupCodes st in
  if (idx <? length codes)%nat
  then Ret (mkPersisted (p_Enabled st) (p_Secret st) (p_PendingSecret st) (take idx codes ++ drop (S idx) codes) (p_ActivatedAt st))
  else Panic "slice bounds out of range".

Definition maybeConsumeBackup (disk : option file) (code : bytes) (state : Persisted) (a : App) : outcome bool * App :=
  match MatchBackupCode code (p_BackupCodes state) with
  | None => (Ret false, a)
  | Some idx =>
      match persist2FA disk (removeBackup idx) a with
      | (Ret _, a) => (Ret true, a)
      | (Err _, a) => (Ret false, a)
      | (Panic s, a) => (Panic s, a)
      end
  end.

(** A panic in a handler aborts the request: no response. *)
Definition checkCode (now : Z) (disk : option file) (secretPlain code : bytes) (useBackup : bool) (state : Persisted) (a : App)
    : outcome bool * App :=
  if useBackup then maybeConsumeBackup disk code state a
  else if validateTOTPCode secretPlain code now then (Ret true, a)
  else maybeConsumeBackup disk code state a.

Definition handleLoginTotpFinish (now : Z) (disk : option file) (cfg : Config slice) (req : loginPayload) (a : App)
    : option response * App :=
  let user := lp_Username req in
  let '(ut, lo) := LockedUntil user now (a_TotpLockout a) in
  let a := set_TotpLockout lo a in
  match ut with
  | Some ut => (Some (writeLockedLogin now ut "Too many invalid codes. Try again later."), a)
  | None =>
      if negb (bool_decide (user = AdminUsername cfg)) then (Some (errorReply 401 "invalid challenge"), a)
      else if negb (verifyChallengeToken now (lp_ChallengeToken req) user (SessionSecret cfg))
      then (Some (errorReply 401 "invalid or expired challenge"), a)
      else
        match a_TwoFAStore a, a_TwoFAKey a with
        | Some f, Some k =>
            if negb (len k =? 32) then (Some (errorReply 500 "two-factor unavailable"), a)
            else
              match Read f with
              | Ret state =>
                  if negb (p_Enabled state) || bool_decide (p_Secret state = [])
                  then (Some (errorReply 400 "two-factor not enabled"), a)
                  else
                    match decrypt2FASecret a (p_Secret state) with
                    | Ret secretPlain =>
                        match checkCode now disk secretPlain (lp_Code req) (lp_UseBackup req) state a with
                        | (Ret true, a) =>
                            (Some (mkResp 200 (Some (sessionCookie now (SessionSecret cfg) user)) BOk),
                             set_TotpLockout (Clear user (a_TotpLockout a)) a)
                        | (Ret false, a) =>
                            let '(lock, lo) := RecordFailure user now (a_TotpLockout a) in
                            (Some (match lock with
                                   | Some until => writeLockedLogin now until "Too many invalid codes. Try again later."
                                   | None => errorReply 401 "invalid code"
                                   end), set_TotpLockout lo a)
                        | (_, a) => (None, a)
                        end
                    | _ => (Some (errorReply 500 "2FA decryption failed"), a)
                    end
              | _ => (Some (errorReply 500 "read 2fa file"), a)
              end
        | _, _ => (Some (errorReply 500 "two-factor unavailable"), a)
        end
  end.

(** *** Login *)

Definition consumeFailedPasswordAttempt (now : Z) (ip : bytes) (a : App) : bool * App :=
  let '(ok, l) := Allow now ip (a_LoginLimiter a) in (ok, set_LoginLimiter l a).

(** A wrong name or password. *)
Definition refuseLogin (now : Z) (ip : bytes) (a : App) : option response * App :=
  let '(ok, a) := consumeFailedPasswordAttempt now ip a in
  (Some (if ok then errorReply 401 "invalid credentials" else errorReply 429 "too many attempts, try again later"), a).

Definition HandleLogin (now : Z) (disk : option file) (r : request loginPayload) (a : App) : option response * App :=
  if negb (bool_decide (r_method r = POST)) then (Some (errorReply 405 "method not allowed"), a)
  else
    let ip := clientIP r in
    match r_body r with
    | None => (Some (errorReply 400 "invalid json"), a)
    | Some req =>
        let req := mkLogin (TrimSpace (lp_Username req)) (lp_Password req) (lp_Code req) (lp_ChallengeToken req) (lp_UseBackup req) in
        let cfg := Snapshot (a_Config a) in
        if negb (bool_decide (TrimSpace (lp_Code req) = [])) && negb (bool_decide (TrimSpace (lp_ChallengeToken req) = []))
        then handleLoginTotpFinish now disk cfg req a
        else if bool_decide (lp_Username req = []) || bool_decide (lp_Password req = []) then refuseLogin now ip a
        else if negb (bool_decide (lp_Username req = AdminUsername cfg)) then refuseLogin now ip a
        else if negb (bcryptCompare L (AdminPasswordHash cfg) (lp_Password req)) then refuseLogin now ip a
        else
          match admin2FAConfiguredAndEnabled a with
          | Ret true => (Some (reply 200 (BChallenge (signChallengeToken now (lp_Username req) (SessionSecret cfg) (60 * Second)))), a)
          | Ret false => (Some (mkResp 200 (Some (sessionCookie now (SessionSecret cfg) (lp_Username req))) BOk), a)
          | _ => (Some (errorReply 500 "2FA unavailable"), a)
          end
    end.

Definition HandleLogout {B} (r : request B) : response :=
  if negb (bool_decide (r_method r = POST)) then errorReply 405 "method not allowed" else mkResp 200 (Some []) BOk.

Definition HandleMe (a : App) : response := reply 200 (BMe (AdminUsername (Snapshot (a_Config a)))).

(** [disk] is that of the configuration file. *)
Definition HandleAdminCredentials (disk : option (option bytes)) (salt : bytes) (r : request credentialsBody) (a : App)
    : response * App :=
  if negb (bool_decide (r_method r = POST)) then (errorReply 405 "method not allowed", a)
  else
    match r_body r with
    | None => (errorReply 400 "invalid json", a)
    | Some req =>
        let newUsername := TrimSpace (cb_NewUsername req) in
        if bool_decide (cb_CurrentPassword req = []) || bool_decide (newUsername = []) || bool_decide (cb_NewPassword req = [])
        then (errorReply 400 "missing fields", a)
        else if len (cb_NewPassword req) <? minAdminPasswordLen then (errorReply 400 "password too short", a)
        else if negb (validAdminUsername newUsername) then (errorReply 400 "invalid username", a)
        else if negb (bcryptCompare L (AdminPasswordHash (Snapshot (a_Config a))) (cb_CurrentPassword req))
        then (errorReply 401 "invalid current password", a)
        else
          match bcryptGenerate L salt (cb_NewPassword req) with
          | Ret newHash =>
              let '(res, s) := Update (marshalConfig L) disk (λ cfg h, (Ret (set_admin newUsername newHash cfg), h)) (a_Config a) in
              ((if is_ret res then reply 200 BOk else errorReply 500 "write config"), set_Config s a)
          | _ => (errorReply 500 "failed to update credentials", a)
          end
    end.

Definition RequireAuth {B} (next : Z → request B → App → option response * App) (now : Z) (r : request B) (a : App)
    : option response * App :=
  if negb (validateSessionCookie now (r_cookie r) (SessionSecret (Snapshot (a_Config a))))
  then (Some (errorReply 401 "unauthorized"), a) else next now r a.

(** *** Enrolment (totp.go) *)

Definition Handle2FASetup {B} (disk : option file) (d : draws) (r : request B) (a : App) : option response * App :=
  if negb (bool_decide (r_method r = POST)) then (Some (errorReply 405 "method not allowed"), a)
  else if negb (twoFACoreEnabled a) then (Some (errorReply 503 "two-factor storage unavailable"), a)
  else
    match Read (default Missing (a_TwoFAStore a)) with
    | Ret cur =>
        if p_Enabled cur then (Some (errorReply 409 "2FA already enabled"), a)
        else
          match totpGenerate L (dr_seed d) (AdminUsername (Snapshot (a_Config a))) with
          | Ret (secretPlain, url) =>
              match SealAESGCM (default [] (a_TwoFAKey a)) (dr_nonce d) secretPlain with
              | Ret enc =>
                  match persist2FA disk (λ p, Ret (mkPersisted (p_Enabled p) (p_Secret p) enc (p_BackupCodes p) (p_ActivatedAt p))) a with
                  | (Ret _, a) => (Some (reply 200 (BSetup secretPlain url)), a)
                  | (Err _, a) => (Some (errorReply 500 "write 2fa file"), a)
                  | (Panic _, a) => (None, a)
                  end
              | _ => (Some (errorReply 500 "encrypt"), a)
              end
          | _ => (Some (errorReply 500 "generate"), a)
          end
    | _ => (Some (errorReply 500 "read 2fa file"), a)
    end.

(** New backup codes and their hashes. *)
Definition newBackupCodes (d : draws) : outcome (list bytes * list bytes) :=
  let! plains := GenerateBackupPlainCodes 10 (dr_codes d) in
  let! hashes := HashBackupCodes (dr_salts d) plains in
  Ret (plains, hashes).

Definition Handle2FAVerifySetup (now : Z) (disk : option file) (d : draws) (r : request bytes) (a : App) : option response * App :=
  if negb (bool_decide (r_method r = POST)) then (Some (errorReply 405 "method not allowed"), a)
  else
    match r_body r with
    | None => (Some (errorReply 400 "invalid json"), a)
    | Some code =>
        match a_TwoFAStore a with
        | None => (None, a)
        | Some f =>
            match Read f with
            | Ret p =>
                if p_Enabled p then (Some (errorReply 409 "already enabled"), a)
                else if bool_decide (p_PendingSecret p = []) then (Some (errorReply 400 "no pending enrollment"), a)
                else
                  match decrypt2FASecret a (p_PendingSecret p) with
                  | Ret secretPlain =>
                      if negb (validateTOTPCode secretPlain code now) then (Some (errorReply 401 "invalid code"), a)
                      else
                        match newBackupCodes d with
                        | Ret (plains, hashes) =>
                            match persist2FA disk (λ st, Ret (mkPersisted true (p_PendingSecret st) [] hashes (rfc3339 L now))) a with
                            | (Ret _, a) => (Some (reply 200 (BBackupCodes plains)), a)
                            | (Err _, a) => (Some (errorReply 500 "write 2fa file"), a)
                            | (Panic _, a) => (None, a)
                            end
                        | _ => (Some (errorReply 500 "backup codes"), a)
                        end
                  | _ => (Some (errorReply 401 "invalid code"), a)
                  end
            | _ => (Some (errorReply 500 "read 2fa file"), a)
            end
        end
    end.

(** The password and the code that two handlers ask for again. *)
Definition passwordAndCode (now : Z) (b : passwordCodeBody) (p : Persisted) (a : App) : option response :=
  if negb (bcryptCompare L (AdminPasswordHash (Snapshot (a_Config a))) (pc_Password b)) then Some (errorReply 401 "invalid password")
  else
    match decrypt2FASecret a (p_Secret p) with
    | Ret sec => if validateTOTPCode sec (pc_Code b) now then None else Some (errorReply 401 "invalid code")
    | _ => Some (errorReply 401 "invalid code")
    end.

Definition Handle2FADisable (now : Z) (disk : option file) (r : request passwordCodeBody) (a : App) : option response * App :=
  if negb (bool_decide (r_method r = POST)) then (Some (errorReply 405 "method not allowed"), a)
  else
    match r_body r, a_TwoFAStore a with
    | None, _ => (Some (errorReply 400 "invalid json"), a)
    | Some b, None => (None, a)
    | Some b, Some f =>
        match Read f with
        | Ret p =>
            if negb (p_Enabled p) then (Some (errorReply 400 "2FA not enabled"), a)
            else
              match passwordAndCode now b p a with
              | Some resp => (Some resp, a)
              | None =>
                  match persist2FA disk (λ _, Ret noPersisted) a with
                  | (Ret _, a) => (Some (reply 200 BOk), a)
                  | (Err _, a) => (Some (errorReply 500 "write 2fa file"), a)
                  | (Panic _, a) => (None, a)
                  end
              end
        | _ => (Some (errorReply 500 "read 2fa file"), a)
        end
    end.

Definition Handle2FARegenerateBackup (now : Z) (disk : option file) (d : draws) (r : request passwordCodeBody) (a : App)
    : option response * App :=
  if negb (bool_decide (r_method r = POST)) then (Some (errorReply 405 "method not allowed"), a)
  else
    match r_body r, a_TwoFAStore a with
    | None, _ => (Some (errorReply 400 "invalid json"), a)
    | Some b, None => (None, a)
    | Some b, Some f =>
        match Read f with
        | Ret p =>
            if negb (p_Enabled p) then (Some (errorReply 400 "2FA not enabled"), a)
            else
              match passwordAndCode now b p a with
              | Some resp => (Some resp, a)
              | None =>
                  match newBackupCodes d with
                  | Ret (plains, hashes) =>
                      match persist2FA disk (λ st, Ret (mkPersisted (p_Enabled st) (p_Secret st) (p_PendingSecret st) hashes (p_ActivatedAt st))) a with
                      | (Ret _, a) => (Some (reply 200 (BBackupCodes plains)), a)
                      | (Err _, a) => (Some (errorReply 500 "write 2fa file"), a)
                      | (Panic _, a) => (None, a)
                      end
                  | _ => (Some (errorReply 500 "backup codes"), a)
                  end
              end
        | _ => (Some (errorReply 400 "2FA not enabled"), a)
        end
    end.

Definition Handle2FAStatus {B} (r : request B) (a : App) : response :=
  if negb (bool_decide (r_method r = GET)) then errorReply 405 "method not allowed"
  else if negb (twoFACoreEnabled a) then reply 200 (BStatus false 0 [])
  else
    match Read (default Missing (a_TwoFAStore a)) with
    | Ret p => reply 200 (BStatus (p_Enabled p) (len (p_BackupCodes p)) (p_ActivatedAt p))
    | _ => errorReply 500 "read 2fa file"
    end.
End Panel.

(** * Properties *)

(** Guards of handlers, as propositions. *)
Ltac guards :=
  repeat match goal with
  | H : negb _ = false |- _ => apply negb_false_iff in H
  | H : negb _ = true |- _ => apply negb_true_iff in H
  | H : bool_decide _ = true |- _ => apply bool_decide_eq_true in H
  | H : bool_decide _ = false |- _ => apply bool_decide_eq_false in H
  | H : _ || _ = false |- _ => apply orb_false_iff in H as [? ?]
  | H : _ && _ = true |- _ => apply andb_true_iff in H as [? ?]
  end.

(** Some request that carries the cookie [c]. *)
Definition withCookie {B} (c : bytes) (r : request B) : request B :=
  mkRequest (r_method r) (r_forwardedFor r) (r_remoteAddr r) (Some c) (r_body r).

(** Configurations whose administrator can have a session, and times that a
    64-bit number of seconds can hold. *)
Definition admin_ok (a : App) : Prop := token_name (AdminUsername (s_cfg (a_Config a))).
Definition time_ok (now : Z) : Prop := 0 ≤ now < 2 ^ 63.

Lemma unix_ok now d : time_ok now → 0 ≤ d ≤ 24 * 3600 * Second → - 2 ^ 63 < Unix (now + d) < 2 ^ 63.
Proof. unfold time_ok, Unix, Second. intros. Z.to_euclidean_division_equations. lia. Qed.

(** What the second step accepts as a code. *)
Definition code_accepted (L : libs) (now : Z) (disk : option file) (req : loginPayload) (state : Persisted) (secret : bytes) : Prop :=
  (lp_UseBackup req = false ∧ validateTOTPCode L secret (lp_Code req) now = true) ∨
  ((lp_UseBackup req = true ∨ validateTOTPCode L secret (lp_Code req) now = false) ∧
   is_Some (MatchBackupCode L (lp_Code req) (p_BackupCodes state)) ∧ disk = None).

(** What a request must bring to get a session: the name, and either the password
    while there is no second factor, or an unexpired challenge and a code. *)
Definition login_allowed (L : libs) (now : Z) (disk : option file) (r : request loginPayload) (a : App) : Prop :=
  let cfg := s_cfg (a_Config a) in
  r_method r = POST ∧ ∃ req, r_body r = Some req ∧ TrimSpace (lp_Username req) = AdminUsername cfg ∧
  if negb (bool_decide (TrimSpace (lp_Code req) = [])) && negb (bool_decide (TrimSpace (lp_ChallengeToken req) = [])) then
    (LockedUntil (AdminUsername cfg) now (a_TotpLockout a)).1 = None ∧
    verifyChallengeToken now (lp_ChallengeToken req) (AdminUsername cfg) (SessionSecret cfg) = true ∧
    ∃ f k state secret, a_TwoFAStore a = Some f ∧ a_TwoFAKey a = Some k ∧ len k = 32 ∧ Read L f = Ret state ∧
      p_Enabled state = true ∧ p_Secret state ≠ [] ∧ OpenAESGCM L k (p_Secret state) = Ret secret ∧
      code_accepted L now disk req state secret
  else
    AdminUsername cfg ≠ [] ∧ lp_Password req ≠ [] ∧ bcryptCompare L (AdminPasswordHash cfg) (lp_Password req) = true ∧
    admin2FAConfiguredAndEnabled L a = Ret false.

Lemma checkCode_true L now disk secret req f state a :
  a_TwoFAStore a = Some f → Read L f = Ret state → p_Enabled state = true →
  (checkCode L now disk secret (lp_Code req) (lp_UseBackup req) state a).1 = Ret true ↔ code_accepted L now disk req state secret.
Proof.
  intros Hf Hr He. unfold checkCode, code_accepted.
  assert (Hb : (maybeConsumeBackup L disk (lp_Code req) state a).1 = Ret true ↔
    is_Some (MatchBackupCode L (lp_Code req) (p_BackupCodes state)) ∧ disk = None).
  { unfold maybeConsumeBackup. destruct (MatchBackupCode _ _ _) as [idx|] eqn:E.
    2: { split; [done|]. intros [[? [=]] _]. }
    assert (Hidx : (idx < length (p_BackupCodes state))%nat).
    { unfold MatchBackupCode in E. case_if_in E; [done|]. apply fmap_Some in E as ([i x] & Hi & ->).
      apply list_find_Some in Hi as [Hi _]. by apply lookup_lt_Some in Hi. }
    unfold persist2FA, Write. rewrite Hf. destruct f as [| |b]; cbn in Hr.
    - injection Hr as <-. done.
    - done.
    - destruct (unmarshal2FA L b); [|done]. injection Hr as ->. unfold removeBackup.
      rewrite (proj2 (Nat.ltb_lt _ _)) by done. destruct disk; cbn; naive_solver. }
  destruct (lp_UseBackup req).
  - rewrite Hb. naive_solver.
  - destruct (validateTOTPCode _ _ _ _); [naive_solver|]. rewrite Hb. naive_solver.
Qed.

Lemma totpFinish_cookie L now disk cfg req a resp a' c :
  handleLoginTotpFinish L now disk cfg req a = (Some resp, a') → w_cookie resp = Some c →
  c = sessionCookie now (SessionSecret cfg) (AdminUsername cfg).
Proof.
  unfold handleLoginTotpFinish, writeLockedLogin, errorReply, reply. intros H Hc.
  repeat (case_match; simplify_eq/=; try done). guards. congruence.
Qed.

(** Whether a handler sets a session cookie. *)
Definition sets_session (out : option response * App) : Prop := ∃ w c, out.1 = Some w ∧ w_cookie w = Some c.

Lemma sets_none (w : response) a : w_cookie w = None → ¬ sets_session (Some w, a).
Proof. intros Hw (w' & c & [= <-] & Hc). congruence. Qed.

Lemma refuse_no_session now ip a : ¬ sets_session (refuseLogin now ip a).
Proof. unfold refuseLogin. destruct (consumeFailedPasswordAttempt _ _ _) as [[] ?]; by apply sets_none. Qed.

(** A branch that refuses while the condition asks for what is missing. *)
Ltac refused :=
  split;
  [let H := fresh in intros H; exfalso; revert H; first [apply refuse_no_session | by apply sets_none]
  |intros; destruct_and?; repeat match goal with H : ∃ _, _ |- _ => destruct H end; destruct_and?; simplify_eq; first [done | congruence]].

Lemma totpFinish_exact L now disk cfg req a :
  sets_session (handleLoginTotpFinish L now disk cfg req a) ↔
  lp_Username req = AdminUsername cfg ∧ (LockedUntil (lp_Username req) now (a_TotpLockout a)).1 = None ∧
  verifyChallengeToken now (lp_ChallengeToken req) (lp_Username req) (SessionSecret cfg) = true ∧
  ∃ f k state secret, a_TwoFAStore a = Some f ∧ a_TwoFAKey a = Some k ∧ len k = 32 ∧ Read L f = Ret state ∧
    p_Enabled state = true ∧ p_Secret state ≠ [] ∧ OpenAESGCM L k (p_Secret state) = Ret secret ∧
    code_accepted L now disk req state secret.
Proof.
  unfold handleLoginTotpFinish. destruct (LockedUntil _ now (a_TotpLockout a)) as [[ut|] lo]; cbn [fst].
  { refused. }
  destruct (bool_decide _) eqn:Hu; cbn [negb]; guards; [|refused].
  destruct (verifyChallengeToken _ _ _ _) eqn:Hv; cbn [negb]; [|refused].
  set (a1 := set_TotpLockout lo a). change (a_TwoFAStore a1) with (a_TwoFAStore a). change (a_TwoFAKey a1) with (a_TwoFAKey a).
  destruct (a_TwoFAStore a) as [f|] eqn:Hf; [|refused].
  destruct (a_TwoFAKey a) as [k|] eqn:Hk; [|refused].
  destruct (Z.eqb_spec (len k) 32) as [Hlen|Hlen]; cbn [negb]; [|refused].
  destruct (Read L f) as [state|e|m] eqn:Hr; [|refused..].
  destruct (p_Enabled state) eqn:He; cbn [negb orb]; [|refused].
  destruct (bool_decide (p_Secret state = [])) eqn:Hs; guards; [refused|].
  unfold decrypt2FASecret. change (a_TwoFAKey a1) with (a_TwoFAKey a). rewrite Hk. change (default [] (Some k)) with k.
  destruct (OpenAESGCM L k (p_Secret state)) as [secret|e|m] eqn:Ho; [|refused..].
  pose proof (checkCode_true L now disk secret req f state a1 Hf Hr He) as Hcode.
  assert (Hno : lp_Username req = AdminUsername cfg ∧ None = None (A := Z) ∧ true = true ∧
    (∃ f' k' st' s', Some f = Some f' ∧ Some k = Some k' ∧ len k' = 32 ∧ Read L f' = Ret st' ∧ p_Enabled st' = true ∧ p_Secret st' ≠ [] ∧
       OpenAESGCM L k' (p_Secret st') = Ret s' ∧ code_accepted L now disk req st' s') → code_accepted L now disk req state secret).
  { intros (_ & _ & _ & f' & k' & st' & s' & [= <-] & [= <-] & _ & Hr' & _ & _ & Ho' & Hc).
    rewrite Hr in Hr'. injection Hr' as <-. rewrite Ho in Ho'. by injection Ho' as <-. }
  rewrite <- Hcode in Hno.
  destruct (checkCode _ _ _ _ _ _ _ _) as [[[]|e|m] a2]; cbn [fst] in *.
  - split; [|by intros _; eexists _, _]. intros _. split_and!; [done..|]. exists f, k, state, secret.
    split_and!; try done. by apply Hcode.
  - destruct (RecordFailure _ _ _) as [lock lo']. split; [intros H; exfalso; revert H; apply sets_none; by destruct lock|].
    by intros Hc%Hno.
  - split; [by intros (w & c & ? & _)|]. by intros Hc%Hno.
  - split; [by intros (w & c & ? & _)|]. by intros Hc%Hno.
Qed.

Lemma login_exact L now disk r a : sets_session (HandleLogin L now disk r a) ↔ login_allowed L now disk r a.
Proof.
  unfold HandleLogin, login_allowed. cbn zeta. change (Snapshot (a_Config a)) with (copyConfig (s_cfg (a_Config a))).
  assert (Hcopy : copyConfig (s_cfg (a_Config a)) = s_cfg (a_Config a)) by (by destruct (s_cfg (a_Config a))). rewrite Hcopy.
  set (cfg := s_cfg (a_Config a)).
  destruct (bool_decide (r_method r = POST)) eqn:Hm; cbn [negb]; guards; [|refused].
  destruct (r_body r) as [req|] eqn:Hb; [|refused].
  cbn [lp_Username lp_Code lp_ChallengeToken lp_UseBackup lp_Password]. case_if.
  - rewrite totpFinish_exact. cbn [lp_Username lp_Code lp_ChallengeToken lp_UseBackup lp_Password]. split.
    + intros (Hu & Hl & Hv & f & k & st & s & H). split; [done|]. exists req. rewrite Heqb, <- Hu. split_and!; [done..|]. by exists f, k, st, s.
    + intros (_ & req' & [= <-] & Hu & H). rewrite Heqb, <- Hu in H. naive_solver.
  - transitivity (TrimSpace (lp_Username req) = AdminUsername cfg ∧ AdminUsername cfg ≠ [] ∧ lp_Password req ≠ [] ∧
      bcryptCompare L (AdminPasswordHash cfg) (lp_Password req) = true ∧ admin2FAConfiguredAndEnabled L a = Ret false).
    2: { split; [intros (? & ? & ? & ? & ?); split; [done|]; exists req; by rewrite Heqb|].
         intros (_ & req' & [= <-] & Hu & H). rewrite Heqb in H. naive_solver. }
    destruct (bool_decide (TrimSpace (lp_Username req) = []) || _) eqn:He.
    { apply orb_true_iff in He as [He|He]; guards; refused. }
    destruct (bool_decide (TrimSpace (lp_Username req) = AdminUsername cfg)) eqn:Hu; cbn [negb]; guards;
      [|refused].
    destruct (bcryptCompare L _ _) eqn:Hp; cbn [negb]; [|refused].
    destruct (admin2FAConfiguredAndEnabled L a) as [[]|e|m]; [refused|..|].
    + split; [|by intros _; eexists _, _]. intros _. split_and!; try done. congruence.
    + refused.
    + refused.
Qed.

Lemma login_cookie L now disk r a w c : (HandleLogin L now disk r a).1 = Some w → w_cookie w = Some c →
  c = sessionCookie now (SessionSecret (s_cfg (a_Config a))) (AdminUsername (s_cfg (a_Config a))).
Proof.
  unfold HandleLogin. intros H Hc. repeat (case_match; simplify_eq/=; try done).
  - destruct (handleLoginTotpFinish _ _ _ _ _ _) as [[w'|] a'] eqn:E; [|done]. cbn in H. injection H as ->.
    by apply (totpFinish_cookie _ _ _ _ _ _ _ _ _ E).
  - unfold refuseLogin in H. destruct (consumeFailedPasswordAttempt _ _ _) as [[] ?]; by simplify_eq/=.
  - unfold refuseLogin in H. destruct (consumeFailedPasswordAttempt _ _ _) as [[] ?]; by simplify_eq/=.
  - unfold refuseLogin in H. destruct (consumeFailedPasswordAttempt _ _ _) as [[] ?]; by simplify_eq/=.
  - guards. congruence.
Qed.

(** *** The contract of a login *)

(** A code of the authenticator: six digits, spaces apart. *)
Definition totp_passes (L : libs) (seed code : bytes) (now : Z) : Prop :=
  let digits := removeByte 32 (TrimSpace code) in
  len digits = 6 ∧ Forall (λ c, 48 ≤ c ≤ 57) digits ∧ totpValidate L digits seed now = true.

(** A backup code: eight characters that match one of the hashes. *)
Definition backup_passes (L : libs) (code : bytes) (hashes : list bytes) : Prop :=
  len (normBackupPlain L code) = 8 ∧ ∃ h, h ∈ hashes ∧ bcryptCompare L h (normBackupPlain L code) = true.

(** The second factor is not in use. *)
Definition factor_off (L : libs) (a : App) : Prop :=
  match a_TwoFAStore a, a_TwoFAKey a with
  | Some f, Some k => len k ≠ 32 ∨ ∃ p, Read L f = Ret p ∧ (p_Enabled p = false ∨ TrimSpace (p_Secret p) = [])
  | _, _ => True
  end.

(** The second factor is in use, and a code passes it. *)
Definition factor_passed (L : libs) (now : Z) (disk : option file) (req : loginPayload) (a : App) : Prop :=
  ∃ f k state seed, a_TwoFAStore a = Some f ∧ a_TwoFAKey a = Some k ∧ len k = 32 ∧ Read L f = Ret state ∧
    p_Enabled state = true ∧ p_Secret state ≠ [] ∧ OpenAESGCM L k (p_Secret state) = Ret seed ∧
    ((lp_UseBackup req = false ∧ totp_passes L seed (lp_Code req) now) ∨ (backup_passes L (lp_Code req) (p_BackupCodes state) ∧ disk = None)).

(** A request with a code and a token is the second step, any other is the first.
    The second step asks for no password: the token stands for it. *)
Definition session_due (L : libs) (now : Z) (disk : option file) (r : request loginPayload) (a : App) : Prop :=
  let cfg := s_cfg (a_Config a) in
  r_method r = POST ∧ ∃ req, r_body r = Some req ∧ TrimSpace (lp_Username req) = AdminUsername cfg ∧
  ((TrimSpace (lp_Code req) ≠ [] ∧ TrimSpace (lp_ChallengeToken req) ≠ [] ∧
    (∀ l until, a_TotpLockout a = Some l → lockedUntil l !! AdminUsername cfg = Some until → until ≤ now) ∧
    signed_token now (lp_ChallengeToken req) (AdminUsername cfg) (SessionSecret cfg) ∧ factor_passed L now disk req a) ∨
   ((TrimSpace (lp_Code req) = [] ∨ TrimSpace (lp_ChallengeToken req) = []) ∧
    AdminUsername cfg ≠ [] ∧ lp_Password req ≠ [] ∧ bcryptCompare L (AdminPasswordHash cfg) (lp_Password req) = true ∧ factor_off L a)).

Lemma totp_passes_iff L seed code now : validateTOTPCode L seed code now = true ↔ totp_passes L seed code now.
Proof.
  unfold validateTOTPCode, totp_passes. cbn zeta. set (d := removeByte _ _).
  assert (Hd : isAllDigits d = true ↔ Forall (λ c, 48 ≤ c ≤ 57) d).
  { unfold isAllDigits. rewrite forallb_forall, Forall_forall. split; intros H c Hc; specialize (H c ltac:(by apply list_elem_of_In)); unfold is_digit in *; lia. }
  destruct (Z.eqb_spec (len d) 6) as [Hl|Hl]; cbn [negb orb]; [|naive_solver].
  destruct (isAllDigits d); cbn [negb]; [|split; [done|]; intros (_ & Hf & _); by apply Hd in Hf]. naive_solver.
Qed.

Lemma backup_passes_iff L code hashes : is_Some (MatchBackupCode L code hashes) ↔ backup_passes L code hashes.
Proof.
  unfold MatchBackupCode, backup_passes. destruct (Z.eqb_spec (len (normBackupPlain L code)) 8) as [Hl|Hl]; cbn [negb]; [|by split; [intros [? [=]]|intros [? _]]].
  rewrite fmap_is_Some. split.
  - intros [[i h] Hi]. split; [done|]. apply list_find_Some in Hi as (Hi & Hh & _). exists h. split; [by eapply list_elem_of_lookup_2|done].
  - intros (_ & h & Hin & Hh). by eapply list_find_elem_of.
Qed.

Lemma code_accepted_iff L now disk req state seed : code_accepted L now disk req state seed ↔
  (lp_UseBackup req = false ∧ totp_passes L seed (lp_Code req) now) ∨ (backup_passes L (lp_Code req) (p_BackupCodes state) ∧ disk = None).
Proof.
  unfold code_accepted. rewrite <- totp_passes_iff, <- backup_passes_iff.
  destruct (lp_UseBackup req), (validateTOTPCode _ _ _ _); naive_solver.
Qed.

Lemma factor_off_iff L a : admin2FAConfiguredAndEnabled L a = Ret false ↔ factor_off L a.
Proof.
  unfold admin2FAConfiguredAndEnabled, factor_off. destruct (a_TwoFAStore a) as [f|]; [|done]. destruct (a_TwoFAKey a) as [k|]; [|done].
  destruct (Z.eqb_spec (len k) 32) as [Hl|Hl]; cbn [negb]; [|by split; [left|]].
  destruct (Read L f) as [p| |]; cbn [obind]; [|by split; [|intros [?|(? & ? & _)]]..].
  split.
  - intros [= He]. right. exists p. split; [done|]. destruct (p_Enabled p); [|by left]. right. by apply negb_false_iff, bool_decide_eq_true in He.
  - intros [?|(? & [= <-] & [-> | E])]; [done..|]. rewrite E. cbn. by rewrite andb_false_r.
Qed.

Lemma unlocked_iff user now l : (LockedUntil user now l).1 = None ↔ ∀ l0 until, l = Some l0 → lockedUntil l0 !! user = Some until → until ≤ now.
Proof.
  destruct l as [l|]; cbn; [|naive_solver]. destruct (lockedUntil l !! user) as [until|] eqn:E; cbn; [|naive_solver].
  destruct (Z.ltb_spec now until) as [Hlt|Hge]; cbn; [|naive_solver]. split; [done|]. intros H. specialize (H l until eq_refl E). lia.
Qed.

Lemma session_due_iff L now disk r a : login_allowed L now disk r a ↔ session_due L now disk r a.
Proof.
  unfold login_allowed, session_due, factor_passed. cbn zeta. apply and_iff_compat_l. apply exist_proper. intros req.
  do 2 apply and_iff_compat_l. rewrite <- factor_off_iff, <- verifyChallengeToken_signed, <- unlocked_iff. setoid_rewrite <- code_accepted_iff.
  destruct (bool_decide (TrimSpace (lp_Code req) = [])) eqn:Hc, (bool_decide (TrimSpace (lp_ChallengeToken req) = [])) eqn:Ht; guards; cbn [negb andb]; naive_solver.
Qed.

(** C18: a login gives a session exactly to a POST request that names the
    administrator and brings either the password, while no second factor is in
    use, or, while codes are not locked, a code of the authenticator or a backup
    code together with a token that the panel signed for the administrator and
    that has not expired; the second step asks for no password.  The session is
    then accepted for 24 hours and not a second longer. *)
Theorem session_given_exactly L now disk r a : time_ok now → admin_ok a →
  (sets_session (HandleLogin L now disk r a) ↔ session_due L now disk r a) ∧
  ∀ w c later, (HandleLogin L now disk r a).1 = Some w → w_cookie w = Some c →
    (validateSessionCookie later (Some c) (SessionSecret (s_cfg (a_Config a))) = true ↔ later / 1000000000 ≤ now / 1000000000 + 24 * 3600).
Proof.
  intros Ht Ha. split; [by rewrite login_exact, session_due_iff|]. intros w c later Hw Hc.
  rewrite (login_cookie L now disk r a w c Hw Hc), sessionCookie_token, token_session, Z.leb_le; [|done|apply unix_ok; [done|unfold Second; lia]].
  unfold Unix, Second. change (10 ^ 9) with 1000000000. replace (now + 24 * 3600 * 1000000000) with (now + 86400 * 1000000000) by lia.
  by rewrite Z.div_add by lia.
Qed.

(** A session is also a challenge: as long as it lasts, its cookie serves as the
    token of the second step, so that a new session needs a code but no
    password. *)
Theorem session_is_a_challenge L now disk r a w c : time_ok now → admin_ok a →
  (HandleLogin L now disk r a).1 = Some w → w_cookie w = Some c →
  ∀ later, later / 1000000000 ≤ now / 1000000000 + 24 * 3600 →
    verifyChallengeToken later c (AdminUsername (s_cfg (a_Config a))) (SessionSecret (s_cfg (a_Config a))) = true.
Proof.
  intros Ht Ha Hw Hc later Hl. rewrite (login_cookie L now disk r a w c Hw Hc), sessionCookie_token, token_challenge; [|done|apply unix_ok; [done|unfold Second; lia]].
  rewrite bool_decide_eq_true_2 by done. apply Z.leb_le. unfold Unix, Second. change (10 ^ 9) with 1000000000.
  replace (now + 24 * 3600 * 1000000000) with (now + 86400 * 1000000000) by lia. by rewrite Z.div_add by lia.
Qed.

(** C39: the challenge that the panel returns after the password, before the second
    factor, is also a session: for sixty seconds [RequireAuth] lets every request
    through that carries it as a cookie. *)
Theorem challenge_is_a_session {B} L now disk r a (next : Z → request B → App → option response * App) :
  time_ok now → admin_ok a →
  ∀ w a' tok, HandleLogin L now disk r a = (Some w, a') → w_body w = BChallenge tok →
  a' = a ∧ w_cookie w = None ∧ admin2FAConfiguredAndEnabled L a = Ret true ∧
  ∀ later r', Unix later ≤ Unix (now + 60 * Second) → RequireAuth next later (withCookie tok r') a = next later (withCookie tok r') a.
Proof.
  intros Ht Ha w a' tok H Hb.
  assert (Hw : a' = a ∧ w_cookie w = None ∧ admin2FAConfiguredAndEnabled L a = Ret true ∧
    tok = signChallengeToken now (AdminUsername (s_cfg (a_Config a))) (SessionSecret (s_cfg (a_Config a))) (60 * Second)).
  { unfold HandleLogin, handleLoginTotpFinish, writeLockedLogin, refuseLogin, errorReply, reply in H.
    repeat (case_match; simplify_eq/=; try done). guards. split_and!; congruence. }
  destruct Hw as (-> & Hc & H2 & ->). split_and!; [done..|]. intros later r' Hl. unfold RequireAuth, withCookie. cbn [r_cookie].
  change (SessionSecret (Snapshot (a_Config a))) with (SessionSecret (s_cfg (a_Config a))).
  rewrite challenge_token, token_session; [|done|apply unix_ok; [done|unfold Second; lia]].
  by rewrite (proj2 (Z.leb_le _ _) Hl).
Qed.

(** ** Guessing codes *)

(** The second factor is enabled and its secret can be read. *)
Definition factor_ready (L : libs) (a : App) : bool :=
  match a_TwoFAStore a, a_TwoFAKey a with
  | Some f, Some k =>
      (len k =? 32) &&
      match Read L f with
      | Ret state => p_Enabled state && negb (bool_decide (p_Secret state = [])) && is_ret (OpenAESGCM L k (p_Secret state))
      | _ => false
      end
  | _, _ => false
  end.

(** Whether the second step gets to look at the code of a request. *)
Definition examines (L : libs) (now : Z) (r : request loginPayload) (a : App) : bool :=
  let cfg := s_cfg (a_Config a) in
  match r_body r with
  | Some req =>
      bool_decide (r_method r = POST) &&
      negb (bool_decide (TrimSpace (lp_Code req) = [])) && negb (bool_decide (TrimSpace (lp_ChallengeToken req) = [])) &&
      bool_decide (TrimSpace (lp_Username req) = AdminUsername cfg) &&
      bool_decide ((LockedUntil (AdminUsername cfg) now (a_TotpLockout a)).1 = None) &&
      verifyChallengeToken now (lp_ChallengeToken req) (AdminUsername cfg) (SessionSecret cfg) && factor_ready L a
  | None => false
  end.

Record attempt := mkAttempt { at_time : Z; at_disk : option file; at_request : request loginPayload }.

(** The times of the wrong codes that were examined since the last accepted one,
    while the requests are served one after the other. *)
Fixpoint wrongCodes (L : libs) (rs : list attempt) (ts : list Z) (a : App) : list Z :=
  match rs with
  | [] => ts
  | r :: rs =>
      let '(w, a') := HandleLogin L (at_time r) (at_disk r) (at_request r) a in
      let ok := match w with Some w => bool_decide (is_Some (w_cookie w)) | None => false end in
      wrongCodes L rs (if examines L (at_time r) (at_request r) a then if ok then [] else ts ++ [at_time r] else ts) a'
  end.

(** Looking at a code changes at most the second-factor file, and on the state that
    was just read it cannot panic. *)
Lemma checkCode_keeps L now disk secret code useBackup f state a :
  a_TwoFAStore a = Some f → Read L f = Ret state →
  ∃ b f', checkCode L now disk secret code useBackup state a = (Ret b, set_TwoFA f' a).
Proof.
  intros Hf Hr.
  assert (Hsame : set_TwoFA f a = a) by (by destruct a; cbn in Hf; subst).
  assert (Hb : ∃ b f', maybeConsumeBackup L disk code state a = (Ret b, set_TwoFA f' a)).
  { unfold maybeConsumeBackup. destruct (MatchBackupCode _ _ _) as [idx|] eqn:E; [|exists false, f; by rewrite Hsame].
    unfold persist2FA, Write. rewrite Hf. destruct f as [| |b]; cbn in Hr; [injection Hr as <-|done|].
    - unfold MatchBackupCode in E. by case_if_in E.
    - destruct (unmarshal2FA L b); [|done]. injection Hr as ->. unfold removeBackup.
      rewrite (proj2 (Nat.ltb_lt _ _)); [destruct disk; eauto|]. unfold MatchBackupCode in E. case_if_in E; [done|].
      apply fmap_Some in E as ([i x] & Hi & ->). apply list_find_Some in Hi as [Hi _]. by apply lookup_lt_Some in Hi. }
  unfold checkCode. destruct useBackup; [done|]. destruct (validateTOTPCode _ _ _ _); [exists true, f; by rewrite Hsame|done].
Qed.

(** What the second step does to the lockout: it looks for a lock, and when it
    examines a code it clears or records. *)
Definition finish_effect (user : bytes) (now : Z) (examined : bool) (a : App) (out : option response * App) : Prop :=
  let lo := (LockedUntil user now (a_TotpLockout a)).2 in
  a_Config out.2 = a_Config a ∧
  if examined then
    (sets_session out ∧ a_TotpLockout out.2 = Clear user lo) ∨
    (¬ sets_session out ∧ a_TotpLockout out.2 = (RecordFailure user now lo).2)
  else ¬ sets_session out ∧ (a_TotpLockout out.2 = lo ∨ a_TotpLockout out.2 = a_TotpLockout a).

Ltac unexamined := split; [done|]; split; [by apply sets_none|by left].

Lemma totpFinish_effect L now disk cfg req a : let user := lp_Username req in
  finish_effect user now
    (bool_decide (user = AdminUsername cfg) && bool_decide ((LockedUntil user now (a_TotpLockout a)).1 = None) &&
     verifyChallengeToken now (lp_ChallengeToken req) user (SessionSecret cfg) && factor_ready L a)
    a (handleLoginTotpFinish L now disk cfg req a).
Proof.
  cbn zeta. unfold handleLoginTotpFinish, finish_effect, factor_ready. set (user := lp_Username req).
  destruct (LockedUntil user now (a_TotpLockout a)) as [[ut|] lo]; cbn [fst snd].
  { rewrite (bool_decide_eq_false_2 (Some ut = None)), andb_false_r by done. unexamined. }
  rewrite (bool_decide_eq_true_2 (None = None)), andb_true_r by done.
  destruct (bool_decide _) eqn:Hu; cbn [negb andb]; [|unexamined].
  destruct (verifyChallengeToken _ _ _ _) eqn:Hv; cbn [negb andb]; [|unexamined].
  set (a1 := set_TotpLockout lo a). change (a_TwoFAStore a1) with (a_TwoFAStore a). change (a_TwoFAKey a1) with (a_TwoFAKey a).
  destruct (a_TwoFAStore a) as [f|] eqn:Hf; [|unexamined]. destruct (a_TwoFAKey a) as [k|] eqn:Hk; [|unexamined].
  destruct (len k =? 32); cbn [negb andb]; [|unexamined].
  destruct (Read L f) as [state|e|m] eqn:Hr; [|unexamined..].
  destruct (p_Enabled state) eqn:He; cbn [negb orb andb]; [|unexamined].
  destruct (bool_decide (p_Secret state = [])) eqn:Hs; cbn [negb andb]; [unexamined|].
  unfold decrypt2FASecret. change (a_TwoFAKey a1) with (a_TwoFAKey a). rewrite Hk. change (default [] (Some k)) with k.
  destruct (OpenAESGCM L k (p_Secret state)) as [secret|e|m] eqn:Ho; cbn [is_ret]; [|unexamined..].
  destruct (checkCode_keeps L now disk secret (lp_Code req) (lp_UseBackup req) f state a1 Hf Hr) as ([] & f' & ->).
  - split; [done|]. left. split; [by eexists _, _|done].
  - change (a_TotpLockout (set_TwoFA f' a1)) with lo. destruct (RecordFailure user now lo) as [lock lo'].
    split; [done|]. right. split; [|done]. apply sets_none. by destruct lock.
Qed.

Lemma HandleLogin_effect L now disk r a : let user := AdminUsername (s_cfg (a_Config a)) in
  finish_effect user now (examines L now r a) a (HandleLogin L now disk r a) ∨
  (examines L now r a = false ∧ a_Config (HandleLogin L now disk r a).2 = a_Config a ∧
   ∃ u, a_TotpLockout (HandleLogin L now disk r a).2 = (LockedUntil u now (a_TotpLockout a)).2 ∨
        a_TotpLockout (HandleLogin L now disk r a).2 = a_TotpLockout a).
Proof.
  cbn zeta. unfold HandleLogin, examines. change (Snapshot (a_Config a)) with (copyConfig (s_cfg (a_Config a))).
  assert (Hcopy : copyConfig (s_cfg (a_Config a)) = s_cfg (a_Config a)) by (by destruct (s_cfg (a_Config a))). rewrite Hcopy.
  set (cfg := s_cfg (a_Config a)).
  destruct (r_body r) as [req|]; [|right; split; [done|]; destruct (negb _); (split; [done|]; exists []; by right)].
  destruct (bool_decide (r_method r = POST)); cbn [negb andb]; [|right; split; [done|]; split; [done|]; exists []; by right].
  cbn [lp_Username lp_Code lp_ChallengeToken lp_UseBackup lp_Password].
  destruct (negb (bool_decide (TrimSpace (lp_Code req) = []))); cbn [andb];
    [destruct (negb (bool_decide (TrimSpace (lp_ChallengeToken req) = []))); cbn [andb]|].
  - match goal with |- context [handleLoginTotpFinish L now disk cfg ?q a] => pose proof (totpFinish_effect L now disk cfg q a) as H end.
    cbn [lp_Username lp_ChallengeToken] in H. cbn zeta in H.
    destruct (bool_decide (TrimSpace (lp_Username req) = AdminUsername cfg)) eqn:Hu; cbn [andb] in *; guards.
    + left. by rewrite <- Hu.
    + right. destruct H as (Hc & _ & H). split; [done|]. split; [done|]. by exists (TrimSpace (lp_Username req)).
  - right. split; [done|]. unfold refuseLogin, consumeFailedPasswordAttempt. split.
    + repeat (case_match; try done); by simplify_eq/=.
    + exists []. right. repeat (case_match; try done); by simplify_eq/=.
  - right. split; [done|]. unfold refuseLogin, consumeFailedPasswordAttempt. split.
    + repeat (case_match; try done); by simplify_eq/=.
    + exists []. right. repeat (case_match; try done); by simplify_eq/=.
Qed.

(** The wrong codes [ts] and the lockout of the user: the failures that still
    count are the latest of them, at most four; all the others have left the
    window, or will have when the lock ends. *)
Record guess_inv (user : bytes) (now : Z) (ts : list Z) (l : TotpStep2Lockout) : Prop := {
  gi_old : ∃ old, ts = old ++ default [] (failTimes l !! user) ∧
    Forall (λ x, x + lockoutWindow ≤ now ∨ ∃ until, lockedUntil l !! user = Some until ∧ x + lockoutWindow ≤ until) old;
  gi_few : (length (default [] (failTimes l !! user)) ≤ 4)%nat;
  gi_sorted : StronglySorted Z.le ts;
  gi_past : Forall (λ x, x ≤ now) ts;
  gi_gaps : ∀ k t t', ts !! k = Some t → ts !! (k + 5)%nat = Some t' → t + lockoutWindow ≤ t'
}.

Lemma guess_inv_later user now now' ts l : now ≤ now' → guess_inv user now ts l → guess_inv user now' ts l.
Proof.
  intros Hn [(old & -> & Ho) Hf Hs Hp Hg]. split; [|done|done| |done].
  - exists old. split; [done|]. eapply Forall_impl; [exact Ho|]. cbn. intros x [Hx|Hx]; [left; lia|by right].
  - eapply Forall_impl; [exact Hp|]. cbn. lia.
Qed.

Lemma guess_inv_nil user now l : failTimes l !! user = None → guess_inv user now [] l.
Proof. intros H. split; rewrite ?H; [by exists []|cbn; lia|constructor|constructor|by intros k t t' ?]. Qed.

Lemma guess_inv_look user now ts l u l' : guess_inv user now ts l → (LockedUntil u now (Some l)).2 = Some l' → guess_inv user now ts l'.
Proof.
  intros [(old & -> & Ho) Hf Hs Hp Hg]. cbn. destruct (lockedUntil l !! u) as [until|] eqn:E; [|intros [= <-]; split; eauto].
  destruct (now <? until) eqn:Hlt; cbn; intros [= <-]; [split; eauto|]. split; cbn; [|done..].
  exists old. split; [done|]. eapply Forall_impl; [exact Ho|]. cbn. intros x [Hx|(until' & Hu & Hx)]; [by left|].
  destruct (decide (u = user)) as [->|Hne]; [left; rewrite E in Hu; injection Hu as <-; lia|].
  right. exists until'. by rewrite lookup_delete_ne.
Qed.

Lemma look_unlocked user now l l' : LockedUntil user now (Some l) = (None, Some l') → lockedUntil l' !! user = None.
Proof.
  cbn. destruct (lockedUntil l !! user) as [until|] eqn:E; [|by intros [= <-]].
  case_if; [done|]. intros [= <-]. apply lookup_delete_eq.
Qed.

(** On a sorted list, keeping what is not before a point keeps a suffix. *)
Lemma filter_suffix (cut : Z) l : StronglySorted Z.le l →
  ∃ pre, l = pre ++ List.filter (λ t, negb (t <? cut)) l ∧ Forall (λ x, x < cut) pre.
Proof.
  induction l as [|x l IH]; intros Hs; [by exists []|]. apply StronglySorted_inv in Hs as [Hs Hx]. cbn.
  destruct (x <? cut) eqn:E; cbn [negb].
  - destruct (IH Hs) as (pre & Hl & Hpre). exists (x :: pre). cbn. split; [by f_equal|]. constructor; [lia|done].
  - exists []. split; [|done]. cbn. f_equal. rewrite List.forallb_filter_id; [done|].
    apply forallb_forall. intros y Hy. rewrite Forall_forall in Hx. specialize (Hx y (proj2 (list_elem_of_In _ _) Hy)). lia.
Qed.

Lemma StronglySorted_snoc (l : list Z) x : StronglySorted Z.le l → Forall (λ y, y ≤ x) l → StronglySorted Z.le (l ++ [x]).
Proof.
  induction 1 as [|y l Hs IH Hy]; intros Hx; cbn; [repeat constructor|]. apply Forall_cons in Hx as [Hyx Hx].
  constructor; [by apply IH|]. apply Forall_app_2; [done|by constructor].
Qed.

(** Recording a wrong code while there is no lock. *)
Lemma guess_inv_record user now ts l : lockedUntil l !! user = None → guess_inv user now ts l →
  guess_inv user now (ts ++ [now]) (recordNow user now l).2.
Proof.
  intros Hul [(old & -> & Ho) Hf Hs Hp Hg]. set (F := default [] (failTimes l !! user)) in *.
  destruct (filter_suffix (now - lockoutWindow) F) as (pre & HF & Hpre).
  { by apply StronglySorted_app in Hs as (_ & _ & ?). }
  set (G := List.filter (λ t, negb (t <? now - lockoutWindow)) F) in *.
  assert (Hold : Forall (λ x, x + lockoutWindow ≤ now) (old ++ pre)).
  { apply Forall_app_2; [|eapply Forall_impl; [exact Hpre|cbn; lia]].
    eapply Forall_impl; [exact Ho|]. cbn. intros x [Hx|(u & Hu & _)]; [done|]. by rewrite Hul in Hu. }
  assert (Hlen : (length F = length pre + length G)%nat) by (rewrite HF at 1; apply length_app).
  assert (Hgap : ∀ k t t', ((old ++ F) ++ [now]) !! k = Some t → ((old ++ F) ++ [now]) !! (k + 5)%nat = Some t' → t + lockoutWindow ≤ t').
  { intros k t t' Hk Hk5. destruct (decide (k + 5 < length (old ++ F))%nat) as [Hlt|Hge].
    - rewrite lookup_app_l in Hk5 by done. rewrite lookup_app_l in Hk by lia. by eapply Hg.
    - pose proof (lookup_lt_Some _ _ _ Hk5) as Hb. rewrite length_app in Hb. cbn in Hb.
      rewrite lookup_app_r in Hk5 by lia. replace (k + 5 - length (old ++ F))%nat with 0%nat in Hk5 by lia. injection Hk5 as <-.
      rewrite length_app in Hb, Hge. rewrite lookup_app_l in Hk by (rewrite length_app; lia).
      rewrite lookup_app_l in Hk by lia. apply Forall_app in Hold as [Hold _]. by eapply (Forall_lookup_1 _ _ _ _ Hold). }
  assert (Hpast : Forall (λ x, x ≤ now) ((old ++ F) ++ [now])) by (apply Forall_app_2; [done|by constructor]).
  assert (Hsort : StronglySorted Z.le ((old ++ F) ++ [now])) by by apply StronglySorted_snoc.
  unfold recordNow. fold F. fold G. case_if; cbn [snd].
  - split; cbn; rewrite ?lookup_delete_eq, ?lookup_insert_eq; cbn; [|lia|done..].
    exists ((old ++ F) ++ [now]). split; [by rewrite app_nil_r|]. eapply Forall_impl; [exact Hpast|].
    cbn. intros x Hx. right. exists (now + lockoutDuration). split; [done|]. unfold lockoutDuration, lockoutWindow. lia.
  - split; cbn; rewrite ?lookup_insert_eq; cbn; [| |done..].
    + exists (old ++ pre). split; [by rewrite HF at 1; rewrite <- !app_assoc|].
      eapply Forall_impl; [exact Hold|]. cbn. by left.
    + unfold len, lockoutFailures in *. rewrite length_app in *. cbn in *. lia.
Qed.

Lemma LockedUntil_some u now l : ∃ l', (LockedUntil u now (Some l)).2 = Some l'.
Proof. cbn. repeat (case_match; eauto). Qed.

(** One request keeps the invariant. *)
Lemma guess_inv_login L now disk r a ts l : a_TotpLockout a = Some l → guess_inv (AdminUsername (s_cfg (a_Config a))) now ts l →
  let out := HandleLogin L now disk r a in
  let ok := match out.1 with Some w => bool_decide (is_Some (w_cookie w)) | None => false end in
  a_Config out.2 = a_Config a ∧ ∃ l', a_TotpLockout out.2 = Some l' ∧
  guess_inv (AdminUsername (s_cfg (a_Config a))) now (if examines L now r a then if ok then [] else ts ++ [now] else ts) l'.
Proof.
  intros Hl Hi. cbn zeta. set (user := AdminUsername _) in *.
  assert (Hok : sets_session (HandleLogin L now disk r a) ↔
    (match (HandleLogin L now disk r a).1 with Some w => bool_decide (is_Some (w_cookie w)) | None => false end) = true).
  { unfold sets_session. destruct (HandleLogin L now disk r a).1 as [w|]; [|naive_solver]. rewrite bool_decide_eq_true. split.
    - intros (w' & c & [= <-] & Hc). by exists c.
    - intros [c Hc]. by exists w, c. }
  assert (Hlook : ∀ u, ∃ l', (LockedUntil u now (Some l)).2 = Some l' ∧ guess_inv user now ts l').
  { intros u. destruct (LockedUntil_some u now l) as [l' Hl']. exists l'. split; [done|]. by eapply guess_inv_look. }
  destruct (HandleLogin_effect L now disk r a) as [H|(He & Hc & u & [H|H])].
  - unfold finish_effect in H. fold user in H. rewrite Hl in H. destruct H as [Hc H]. split; [done|].
    destruct (examines L now r a) eqn:He.
    + assert (Hno : ∃ l', LockedUntil user now (Some l) = (None, Some l')).
      { unfold examines in He. destruct (r_body r); [|done]. rewrite Hl in He. guards.
        destruct (LockedUntil_some user now l) as [l' Hl']. exists l'. by apply injective_projections. }
      destruct Hno as [l1 Hl1]. rewrite Hl1 in H. cbn [fst snd] in H.
      assert (Hi1 : guess_inv user now ts l1) by (eapply guess_inv_look; [exact Hi|by rewrite Hl1]).
      destruct H as [[Hs H]|[Hs H]]; rewrite Hok in Hs.
      * rewrite Hs. cbn in H. eexists. split; [exact H|]. apply guess_inv_nil. apply lookup_delete_eq.
      * apply not_true_is_false in Hs. rewrite Hs. pose proof (look_unlocked user now l l1 Hl1) as Hu. cbn in H. rewrite Hu in H.
        pose proof (guess_inv_record user now ts l1 Hu Hi1) as Hr. destruct (recordNow user now l1) as [lk l2]. eexists. by split.
    + destruct H as [_ [H|H]]; [|exists l; by rewrite H]. destruct (Hlook user) as (l' & Hl' & Hi'). exists l'. by rewrite H.
  - rewrite He. split; [done|]. destruct (Hlook u) as (l' & Hl' & Hi'). exists l'. by rewrite H, Hl.
  - rewrite He. split; [done|]. exists l. by rewrite H.
Qed.

Lemma wrongCodes_gaps L rs : ∀ now ts a l, a_TotpLockout a = Some l → guess_inv (AdminUsername (s_cfg (a_Config a))) now ts l →
  StronglySorted Z.le (now :: (at_time <$> rs)) →
  StronglySorted Z.le (wrongCodes L rs ts a) ∧
  ∀ k t t', wrongCodes L rs ts a !! k = Some t → wrongCodes L rs ts a !! (k + 5)%nat = Some t' → t + lockoutWindow ≤ t'.
Proof.
  induction rs as [|r rs IH]; intros now ts a l Hl Hi Hs; [exact (conj (gi_sorted _ _ _ _ Hi) (gi_gaps _ _ _ _ Hi))|].
  cbn [fmap list_fmap] in Hs. apply StronglySorted_inv in Hs as [Hs Hn]. apply Forall_cons in Hn as [Hn _].
  apply (guess_inv_later _ _ (at_time r)) in Hi; [|done].
  destruct (guess_inv_login L (at_time r) (at_disk r) (at_request r) a ts l Hl Hi) as (Hc & l' & Hl' & Hi').
  cbn [wrongCodes]. destruct (HandleLogin L (at_time r) (at_disk r) (at_request r) a) as [w a'] eqn:E. cbn [fst snd] in *.
  apply (IH (at_time r) _ a' l'); [done|by rewrite Hc|done].
Qed.

(** In a sorted list whose elements five places apart are far apart, few fall into
    one window. *)
Lemma window_count (W s : Z) l : StronglySorted Z.le l → (∀ k t t', l !! k = Some t → l !! (k + 5)%nat = Some t' → t + W ≤ t') →
  (length (filter (λ t, (s ≤ t < s + W)%Z) l) ≤ 5)%nat.
Proof.
  induction 1 as [|x l Hs IH Hx]; intros Hg; [cbn; lia|].
  assert (Hg' : ∀ k t t', l !! k = Some t → l !! (k + 5)%nat = Some t' → t + W ≤ t') by (intros k; exact (Hg (S k))).
  rewrite filter_cons. case_decide as Hin; [|by apply IH]. cbn [length]. rewrite <- (take_drop 4 l), filter_app, length_app.
  assert (Hfar : filter (λ t, s ≤ t < s + W) (drop 4 l) = []).
  { apply elem_of_nil_inv. intros y [Hyw Hy]%list_elem_of_filter. destruct (drop 4 l) as [|z rest] eqn:E; [by apply not_elem_of_nil in Hy|].
    assert (Hz : l !! 4%nat = Some z) by (rewrite <- (Nat.add_0_r 4), <- lookup_drop, E; done).
    pose proof (Hg 0%nat x z eq_refl Hz) as Hxz.
    assert (Hzy : z ≤ y); [|cbn in Hyw; lia]. apply elem_of_cons in Hy as [->|Hy]; [done|].
    assert (Hdrop : StronglySorted Z.le (drop 4 l)) by (rewrite <- (take_drop 4 l) in Hs; by apply StronglySorted_app in Hs as (_ & _ & ?)).
    rewrite E in Hdrop. apply StronglySorted_inv in Hdrop as [_ Hf]. rewrite Forall_forall in Hf. by apply Hf. }
  rewrite Hfar. pose proof (length_filter (λ t, s ≤ t < s + W) (take 4 l)) as H1. pose proof (length_take_le l 4) as H2. rewrite length_take in H1. cbn. lia.
Qed.

(** C38: codes cannot be guessed fast.  Through any sequence of login requests, of
    the wrong codes for the administrator that the panel examined since it last
    accepted one, at most five fall into any span of less than 15 minutes. *)
Theorem code_guesses_limited L rs a : a_TotpLockout a = Some NewTotpStep2Lockout → StronglySorted Z.le (at_time <$> rs) →
  ∀ start, (length (filter (λ t, (start ≤ t < start + 15 * 60 * 1000000000)%Z) (wrongCodes L rs [] a)) ≤ 5)%nat.
Proof.
  intros Hl Hs start. destruct rs as [|r rs]; [cbn; lia|].
  destruct (wrongCodes_gaps L (r :: rs) (at_time r) [] a NewTotpStep2Lockout Hl) as [Hsort Hgap]; [by apply guess_inv_nil| |].
  { cbn [fmap list_fmap] in *. apply StronglySorted_cons. split; [|done]. apply StronglySorted_inv in Hs as [_ Hs]. by constructor. }
  apply window_count; [exact Hsort|exact Hgap].
Qed.

(** ** Example libraries

    Toy functions with the laws: hashes and ciphertexts are a text of the plain
    string, the file is the lists with their lengths. *)

Definition demoEncode : bytes → bytes := flat_map (λ z, (if z <? 0 then 45 else 43) :: replicate (Z.to_nat (Z.abs z)) 49).
Fixpoint ones (l : bytes) : nat := match l with c :: l => if c =? 49 then S (ones l) else O | [] => O end.
Fixpoint demoDecode (fuel : nat) (l : bytes) : bytes :=
  match fuel, l with
  | S fuel, c :: l => (if c =? 45 then - Z.of_nat (ones l) else Z.of_nat (ones l)) :: demoDecode fuel (drop (ones l) l)
  | _, _ => []
  end.

(** A list with its length in front. *)
Definition packed (s : bytes) : bytes := len s :: s.
Definition unpack (s : bytes) : bytes * bytes := match s with n :: s => (take (Z.to_nat n) s, drop (Z.to_nat n) s) | [] => ([], []) end.
Definition packAll (l : list bytes) : bytes := len (map len l) :: flat_map packed l.
Fixpoint unpackAll (n : nat) (s : bytes) : list bytes :=
  match n with O => [] | S n => let '(x, s) := unpack s in x :: unpackAll n s end.
Definition demoMarshal2FA (p : Persisted) : bytes :=
  (if p_Enabled p then 1 else 0) :: packed (p_Secret p) ++ packed (p_PendingSecret p) ++ packed (p_ActivatedAt p) ++ packAll (p_BackupCodes p).
Definition demoUnmarshal2FA (b : bytes) : option Persisted :=
  match b with
  | e :: b =>
      let '(secret, b) := unpack b in
      let '(pending, b) := unpack b in
      let '(date, b) := unpack b in
      match b with
      | n :: b => Some (mkPersisted (e =? 1) secret pending (unpackAll (Z.to_nat n) b) date)
      | [] => None
      end
  | [] => None
  end.

Definition demoLibs : libs := mkLibs
  (λ h pw, bool_decide (h = demoEncode pw)) (λ _ pw, Ret (demoEncode pw))
  (λ code secret _, bool_decide (code = string_bytes "123456")) (λ seed name, Ret (seed, name))
  (λ _ _ p, demoEncode p) (λ _ _ c, Some (demoDecode (length c) c))
  demoMarshal2FA demoUnmarshal2FA (λ _, []) id (λ _, []).

Definition demoConfig : Config slice :=
  mkConfig (string_bytes "admin") (demoEncode (string_bytes "hunter2")) [] [] 2015 8080 [] (string_bytes "secret") [] [] 1400 [] [] false.
Definition demoApp (f : file) : App :=
  mkApp (mkStore {[0%nat := []]} demoConfig None) None None (Some (replicate 32 7)) (Some f) (Some NewTotpStep2Lockout).
Definition demoPost {B} (b : B) : request B := mkRequest POST [] (string_bytes "10.0.0.9:5000") None (Some b).
Definition demoNow : Z := 1700000000 * Second.

Lemma demo_admin_ok f : admin_ok (demoApp f).
Proof. split; [apply (bool_decide_unpack _); vm_compute; exact I|intros H; by apply (bool_decide_unpack (bar ∉ string_bytes "admin") ltac:(vm_compute; exact I)) in H]. Qed.

(** A login with the password while there is no second factor. *)
Definition demoLogin : request loginPayload := demoPost (mkLogin (string_bytes "admin") (string_bytes "hunter2") [] [] false).

Lemma session_given_exactly_witness :
  (sets_session (HandleLogin demoLibs demoNow None demoLogin (demoApp Missing)) ↔
   session_due demoLibs demoNow None demoLogin (demoApp Missing)) ∧
  ∃ w c, (HandleLogin demoLibs demoNow None demoLogin (demoApp Missing)).1 = Some w ∧ w_cookie w = Some c ∧
    validateSessionCookie demoNow (Some c) (string_bytes "secret") = true.
Proof.
  destruct (session_given_exactly demoLibs demoNow None demoLogin (demoApp Missing)) as [H1 H2]; [split; reflexivity || discriminate|apply demo_admin_ok|].
  split; [exact H1|]. eexists _, _. split; [reflexivity|]. split; [reflexivity|].
  apply (H2 _ _ demoNow eq_refl eq_refl). vm_compute. discriminate.
Defined.

Lemma session_is_a_challenge_witness :
  verifyChallengeToken (demoNow + 20 * 3600 * Second) (sessionCookie demoNow (string_bytes "secret") (string_bytes "admin")) (string_bytes "admin") (string_bytes "secret") = true.
Proof.
  apply (session_is_a_challenge demoLibs demoNow None demoLogin (demoApp Missing) (default (reply 0 (BError "")) (HandleLogin demoLibs demoNow None demoLogin (demoApp Missing)).1));
    [split; reflexivity || discriminate|apply demo_admin_ok|reflexivity|reflexivity|].
  vm_compute. discriminate.
Defined.

(** The second factor is enabled. *)
Definition demoEnabled : file :=
  Content (demoMarshal2FA (mkPersisted true (StdEncode (replicate 12 1 ++ demoEncode (string_bytes "JBSWY3DP"))) [] [] [])).

Lemma challenge_is_a_session_witness : ∃ w tok,
  (HandleLogin demoLibs demoNow None demoLogin (demoApp demoEnabled)).1 = Some w ∧ w_body w = BChallenge tok ∧
  RequireAuth (λ _ _ a, (Some (HandleMe a), a)) (demoNow + 30 * Second) (withCookie tok (demoPost tt)) (demoApp demoEnabled) =
    (Some (HandleMe (demoApp demoEnabled)), demoApp demoEnabled).
Proof.
  eexists _, _. split; [reflexivity|]. split; [reflexivity|].
  destruct (challenge_is_a_session (B := unit) demoLibs demoNow None demoLogin (demoApp demoEnabled) (λ _ _ a, (Some (HandleMe a), a)))
    with (w := reply 200 (BChallenge (signChallengeToken demoNow (string_bytes "admin") (string_bytes "secret") (60 * Second))))
         (a' := demoApp demoEnabled) (tok := signChallengeToken demoNow (string_bytes "admin") (string_bytes "secret") (60 * Second))
    as (_ & _ & _ & H); [split; reflexivity || discriminate|apply demo_admin_ok|reflexivity|reflexivity|].
  apply H. vm_compute. discriminate.
Defined.

(** A wrong code with a valid challenge, a second after the last. *)
Definition demoGuess (i : nat) : attempt :=
  let now := demoNow + Z.of_nat i * Second in
  mkAttempt now None (demoPost (mkLogin (string_bytes "admin") [] (string_bytes "000000")
    (signChallengeToken now (string_bytes "admin") (string_bytes "secret") (60 * Second)) false)).

Definition demoGuesses : list attempt := demoGuess <$> [0; 1; 2; 3; 4; 5; 904]%nat.

Lemma demo_wrong : wrongCodes demoLibs demoGuesses [] (demoApp demoEnabled) = (λ i, demoNow + i * Second) <$> [0; 1; 2; 3; 4; 904].
Proof. vm_compute. reflexivity. Qed.
Lemma demo_sorted : StronglySorted Z.le (at_time <$> demoGuesses).
Proof.
  change (at_time <$> demoGuesses) with ((λ i, demoNow + Z.of_nat i * Second) <$> [0; 1; 2; 3; 4; 5; 904]%nat).
  repeat constructor; vm_compute; discriminate.
Qed.

Lemma code_guesses_limited_witness :
  let ts := wrongCodes demoLibs demoGuesses [] (demoApp demoEnabled) in
  length ts = 6%nat ∧ (length (filter (λ t, (demoNow ≤ t < demoNow + 15 * 60 * 1000000000)%Z) ts) ≤ 5)%nat.
Proof.
  cbn zeta. split; [by rewrite demo_wrong|].
  apply (code_guesses_limited demoLibs demoGuesses (demoApp demoEnabled)); [reflexivity|exact demo_sorted].
Defined.

End PanelAuth.
Export PanelAuth.
