(* ===== verification/PanelFactor.v ===== *)
(** * The second factor of the web panel from enrolment to login

    Properties of the handlers of PanelAuth taken together: an administrator who
    enrols can log in with the codes of the secret and with each backup code
    once; and what two concurrent requests can do to the backup codes. *)

From S2P Require Import Prelude Cipher Net ConfigServer PanelText PanelConfig PanelAuth.
From Stdlib Require Import ZifyBool.
Local Open Scope Z_scope.

Module PanelFactor.

Definition ascii_text (s : bytes) : Prop := Forall (λ c, 0 ≤ c < 128) s.
Definition ascii_state (p : Persisted) : Prop :=
  ascii_text (p_Secret p) ∧ ascii_text (p_PendingSecret p) ∧ Forall ascii_text (p_BackupCodes p) ∧ ascii_text (p_ActivatedAt p).

(** What the libraries document: bcrypt accepts the password of a hash and no
    other of at most 72 bytes, AES-GCM opens what it sealed, JSON keeps ASCII
    strings, hashes and dates are ASCII. *)
Record lib_laws (L : libs) : Prop := {
  bcrypt_exact salt pw h pw' : bcryptGenerate L salt pw = Ret h → len pw' ≤ 72 → bcryptCompare L h pw' = true ↔ pw' = pw;
  bcrypt_short salt pw : len pw ≤ 72 → ∃ h, bcryptGenerate L salt pw = Ret h ∧ ascii_text h;
  gcm_open k n p : len k = 32 → len n = 12 → gcmOpen L k n (gcmSeal L k n p) = Some p;
  gcm_bytes k n p : bytes_ok (gcmSeal L k n p);
  json_2fa p : ascii_state p → unmarshal2FA L (marshal2FA L p) = Some p;
  rfc3339_ascii t : ascii_text (rfc3339 L t)
}.

Section Factor.
Context (L : libs) (HL : lib_laws L).

(** ** The secret *)

Lemma seal_open k n p enc : len k = 32 → len n = 12 → bytes_ok n → SealAESGCM L k (Some n) p = Ret enc →
  OpenAESGCM L k enc = Ret p ∧ enc ≠ [] ∧ Forall (λ c, 33 ≤ c < 128) enc.
Proof.
  intros Hk Hn Hok. unfold SealAESGCM, OpenAESGCM. rewrite (proj2 (Z.eqb_eq _ _) Hk). cbn [negb]. intros [= <-].
  assert (Hb : bytes_ok (n ++ gcmSeal L k n p)) by (apply Forall_app_2; [done|apply (gcm_bytes L HL)]).
  rewrite b64_roundtrip by done. rewrite len_app, Hn. pose proof (len_nonneg (gcmSeal L k n p)).
  rewrite (proj2 (Z.ltb_ge _ _)) by lia.
  assert (H12 : length n = 12%nat) by (unfold len in Hn; lia).
  rewrite take_app_length', drop_app_length' by done. rewrite (gcm_open L HL) by done.
  split_and!; [done| |by apply b64_encode_plain].
  destruct n as [|x [|y [|z n]]]; cbn; try done; unfold len in Hn; cbn in Hn; lia.
Qed.

Lemma plain_ascii s : Forall (λ c, 33 ≤ c < 128) s → ascii_text s.
Proof. intros H. eapply Forall_impl; [exact H|]. cbn. lia. Qed.

(** ** Backup codes *)

Lemma length_hexEncode b : length (string_bytes (hexEncode b)) = (2 * length b)%nat.
Proof. induction b as [|x b IH]; [done|]. cbn in *. unfold string_bytes in *. cbn. rewrite IH. lia. Qed.

(** A code as it is typed is the code as it is hashed. *)
Lemma norm_code b : bytes_ok b → length b = 4%nat →
  let line := string_bytes (hexEncode b) in
  normBackupPlain L (take 4 line ++ [hyphen] ++ drop 4 line) = map upperByte line ∧ len (map upperByte line) = 8.
Proof.
  intros Hb Hl. cbn zeta. pose proof (hexEncode_chars b Hb) as Hc. pose proof (length_hexEncode b) as Hlen.
  set (line := string_bytes (hexEncode b)) in *. split; [|unfold len; rewrite length_map; lia].
  unfold normBackupPlain.
  assert (Hall : ∀ P : Z → Prop, Forall P line → P hyphen → Forall P (take 4 line ++ [hyphen] ++ drop 4 line)).
  { intros P HP Hh. rewrite !Forall_app. split_and!; [by apply Forall_take|by constructor|by apply Forall_drop]. }
  rewrite TrimSpace_plain; [|apply Hall; [eapply Forall_impl; [exact Hc|cbn; lia]|unfold hyphen; lia]].
  unfold ToUpper. replace (is_ascii _) with true.
  2: { symmetry. apply forallb_forall. intros c Hin. apply list_elem_of_In in Hin. revert c Hin. rewrite <- Forall_forall.
       apply Hall; [eapply Forall_impl; [exact Hc|cbn; lia]|done]. }
  assert (Hkeep : ∀ l, Forall (λ c, 48 ≤ c < 103) l → removeByte hyphen (map upperByte l) = map upperByte l).
  { intros l Hl'. unfold removeByte. apply List.forallb_filter_id, forallb_forall. intros c (d & <- & Hd)%in_map_iff.
    apply list_elem_of_In in Hd. rewrite Forall_forall in Hl'. specialize (Hl' d Hd). cbn in Hl'.
    unfold upperByte, hyphen. destruct ((97 <=? d) && (d <=? 122)) eqn:?; lia. }
  rewrite !map_app. unfold removeByte in *. rewrite !List.filter_app. cbn [map List.filter].
  replace (negb (upperByte hyphen =? hyphen)) with false by done. cbn [app].
  rewrite !Hkeep by (by apply Forall_take + by apply Forall_drop). by rewrite <- map_app, take_drop.
Qed.

(** A backup code is never a TOTP code: it has a hyphen. *)
Lemma code_of_draw b now secret : bytes_ok b → length b = 4%nat →
  let line := string_bytes (hexEncode b) in validateTOTPCode L secret (take 4 line ++ [hyphen] ++ drop 4 line) now = false.
Proof.
  intros Hb Hl. cbn zeta. unfold validateTOTPCode. set (line := string_bytes (hexEncode b)).
  destruct (_ || _) eqn:E; [done|]. apply orb_false_iff in E as [_ E]. guards. exfalso.
  pose proof (hexEncode_chars b Hb) as Hc. fold line in Hc.
  assert (Hp : Forall (λ c, 33 ≤ c < 128) (take 4 line ++ [hyphen] ++ drop 4 line)).
  { assert (Forall (λ c, 33 ≤ c < 128) line) by (eapply Forall_impl; [exact Hc|cbn; lia]).
    rewrite !Forall_app. split_and!; [by apply Forall_take|constructor; [unfold hyphen; lia|constructor]|by apply Forall_drop]. }
  rewrite TrimSpace_plain in E by done. unfold isAllDigits in E. rewrite forallb_forall in E.
  assert (Hd : is_digit hyphen = true); [|done]. apply E. unfold removeByte. apply filter_In. split; [|done].
  apply in_or_app. right. by left.
Qed.

(** What the codes that the panel hands out have in common. *)
Definition code_shape (c : bytes) : Prop :=
  len (normBackupPlain L c) = 8 ∧ TrimSpace c ≠ [] ∧ ∀ secret now, validateTOTPCode L secret c now = false.

Lemma shape_of_draw b : bytes_ok b → length b = 4%nat →
  code_shape (take 4 (string_bytes (hexEncode b)) ++ [hyphen] ++ drop 4 (string_bytes (hexEncode b))).
Proof.
  intros Hb Hl. destruct (norm_code b Hb Hl) as [Hn H8]. cbn zeta in Hn, H8. split_and!; [by rewrite Hn| |intros; by apply code_of_draw].
  intros E. assert (H0 : len (normBackupPlain L (take 4 (string_bytes (hexEncode b)) ++ [hyphen] ++ drop 4 (string_bytes (hexEncode b)))) = 0).
  { unfold normBackupPlain. by rewrite E. }
  rewrite Hn in H0. lia.
Qed.

Definition draws_ok (rs : nat → option bytes) : Prop := ∀ i, ∃ b, rs i = Some b ∧ bytes_ok b ∧ length b = 4%nat.

Lemma codes_generated n : ∀ rs, draws_ok rs → ∃ codes, GenerateBackupPlainCodes n rs = Ret codes ∧ length codes = n ∧
  Forall code_shape codes.
Proof.
  induction n as [|n IH]; intros rs Hrs; [by exists []|]. destruct (Hrs 0%nat) as (b & Hb & Hok & Hl).
  destruct (IH (λ i, rs (S i))) as (codes & Hg & Hn & Hf); [intros i; apply Hrs|].
  eexists. split; [cbn [GenerateBackupPlainCodes]; rewrite Hb, Hg; reflexivity|]. split; [cbn; by rewrite Hn|].
  constructor; [|done]. by apply shape_of_draw.
Qed.

(** The hash of each code accepts this code and no other. *)
Definition hash_of (c h : bytes) : Prop := ∀ c', len (normBackupPlain L c') = 8 →
  bcryptCompare L h (normBackupPlain L c') = true ↔ normBackupPlain L c' = normBackupPlain L c.

Lemma codes_hashed codes : ∀ salts, Forall code_shape codes →
  ∃ hashes, HashBackupCodes L salts codes = Ret hashes ∧ Forall2 hash_of codes hashes ∧ Forall ascii_text hashes.
Proof.
  induction codes as [|c codes IH]; intros salts Hf; [by exists []|]. apply Forall_cons in Hf as [[Hc _] Hf].
  destruct (IH (λ i, salts (S i)) Hf) as (hs & Hh & H2 & Ha).
  destruct (bcrypt_short L HL (salts O) (normBackupPlain L c)) as (h & Hg & Hasc); [lia|].
  exists (h :: hs). cbn [HashBackupCodes]. rewrite Hg. cbn. rewrite Hh. split_and!; [done| |by constructor].
  constructor; [|done]. intros c' Hc'. apply (bcrypt_exact L HL _ _ _ _ Hg). lia.
Qed.

Lemma match_code codes hashes i c : Forall2 hash_of codes hashes → NoDup (normBackupPlain L <$> codes) →
  codes !! i = Some c → len (normBackupPlain L c) = 8 → MatchBackupCode L c hashes = Some i.
Proof.
  intros H2 Hnd Hc Hlen. unfold MatchBackupCode. rewrite (proj2 (Z.eqb_eq _ _) Hlen). cbn [negb].
  destruct (Forall2_lookup_l _ _ _ _ _ H2 Hc) as (h & Hh & Hho).
  assert (Hf : list_find (λ h, bcryptCompare L h (normBackupPlain L c) = true) hashes = Some (i, h)); [|by rewrite Hf].
  apply list_find_Some. split_and!; [done|by apply Hho|]. intros j h' Hj Hlt Hm.
  destruct (Forall2_lookup_r _ _ _ _ _ H2 Hj) as (c' & Hc' & Hho'). apply Hho' in Hm; [|done].
  assert (i = j); [|lia]. eapply (NoDup_lookup _ _ _ (normBackupPlain L c) Hnd); rewrite list_lookup_fmap.
  - by rewrite Hc.
  - rewrite Hc'. cbn. by rewrite Hm.
Qed.

(** A code that was removed matches nothing that is left. *)
Lemma match_removed codes hashes i c : Forall2 hash_of codes hashes → NoDup (normBackupPlain L <$> codes) →
  codes !! i = Some c → len (normBackupPlain L c) = 8 → MatchBackupCode L c (take i hashes ++ drop (S i) hashes) = None.
Proof.
  intros H2 Hnd Hc Hlen. unfold MatchBackupCode. rewrite (proj2 (Z.eqb_eq _ _) Hlen). cbn [negb].
  assert (Hf : list_find (λ h, bcryptCompare L h (normBackupPlain L c) = true) (take i hashes ++ drop (S i) hashes) = None); [|by rewrite Hf].
  apply list_find_None, Forall_forall. intros h Hin Hm.
  assert (Hj : ∃ j, j ≠ i ∧ hashes !! j = Some h).
  { apply elem_of_app in Hin as [Hin|Hin]; apply list_elem_of_lookup in Hin as [j Hj].
    - apply lookup_take_Some in Hj as [Hj Hlt]. exists j. split; [lia|done].
    - rewrite lookup_drop in Hj. exists (S i + j)%nat. split; [lia|done]. }
  destruct Hj as (j & Hne & Hj). destruct (Forall2_lookup_r _ _ _ _ _ H2 Hj) as (c' & Hc' & Hho'). apply Hho' in Hm; [|done].
  apply Hne. eapply (NoDup_lookup _ _ _ (normBackupPlain L c) Hnd); rewrite list_lookup_fmap.
  - rewrite Hc'. cbn. by rewrite Hm.
  - by rewrite Hc.
Qed.

(** ** Enrolment *)

(** The second factor is enabled with this secret, and these backup codes are
    left. *)
Record enrolled (a : App) (secret : bytes) (codes : list bytes) : Prop := {
  en_state : ∃ k f state, a_TwoFAKey a = Some k ∧ len k = 32 ∧ a_TwoFAStore a = Some f ∧ Read L f = Ret state ∧
    p_Enabled state = true ∧ OpenAESGCM L k (p_Secret state) = Ret secret ∧ p_Secret state ≠ [] ∧
    Forall (λ c, 33 ≤ c < 128) (p_Secret state) ∧ Forall2 hash_of codes (p_BackupCodes state) ∧ ascii_state state;
  en_distinct : NoDup (normBackupPlain L <$> codes);
  en_shape : Forall code_shape codes
}.

(** Writing the file succeeds and can be read back. *)
Lemma persist_ret a f p upd p' : a_TwoFAStore a = Some f → Read L f = Ret p → upd p = Ret p' → ascii_state p' →
  persist2FA L None upd a = (Ret tt, set_TwoFA (Content (marshal2FA L p')) a) ∧ Read L (Content (marshal2FA L p')) = Ret p'.
Proof.
  intros Hf Hr Hu Ha. unfold persist2FA, Write. rewrite Hf. cbn [Read]. rewrite (json_2fa L HL) by done. split; [|done].
  destruct f as [| |b]; cbn in Hr; [injection Hr as <-; by rewrite Hu|done|].
  destruct (unmarshal2FA L b); [|done]. injection Hr as ->. by rewrite Hu.
Qed.

Lemma enrolment_works {B} d now code (r : request B) (r' : request bytes) a k f s0 n secret url :
  a_TwoFAKey a = Some k → len k = 32 → a_TwoFAStore a = Some f → Read L f = Ret s0 → p_Enabled s0 = false → ascii_state s0 →
  dr_nonce d = Some n → len n = 12 → bytes_ok n →
  totpGenerate L (dr_seed d) (AdminUsername (s_cfg (a_Config a))) = Ret (secret, url) →
  draws_ok (dr_codes d) → (∀ codes, GenerateBackupPlainCodes 10 (dr_codes d) = Ret codes → NoDup (normBackupPlain L <$> codes)) →
  r_method r = POST → r_method r' = POST → r_body r' = Some code → validateTOTPCode L secret code now = true →
  ∃ a1 a2 codes, Handle2FASetup L None d r a = (Some (reply 200 (BSetup secret url)), a1) ∧
    Handle2FAVerifySetup L now None d r' a1 = (Some (reply 200 (BBackupCodes codes)), a2) ∧
    length codes = 10%nat ∧ enrolled a2 secret codes ∧
    a_Config a2 = a_Config a ∧ a_TotpLockout a2 = a_TotpLockout a.
Proof.
  intros Hk Hlk Hf Hr He (Hs1 & Hs2 & Hs3 & Hs4) Hn Hln Hbn Hg Hd Hnd Hm Hm' Hb Hv.
  assert (Hseal : ∃ enc, SealAESGCM L k (Some n) secret = Ret enc).
  { unfold SealAESGCM. rewrite (proj2 (Z.eqb_eq _ _) Hlk). by eexists. }
  destruct Hseal as [enc Hseal]. destruct (seal_open k n secret enc Hlk Hln Hbn Hseal) as (Hopen & Hne & Hplain).
  set (s1 := mkPersisted (p_Enabled s0) (p_Secret s0) enc (p_BackupCodes s0) (p_ActivatedAt s0)).
  assert (Ha1 : ascii_state s1) by (split_and!; [done|by apply plain_ascii|done..]).
  destruct (persist_ret a f s0 (λ p, Ret (mkPersisted (p_Enabled p) (p_Secret p) enc (p_BackupCodes p) (p_ActivatedAt p))) s1
    Hf Hr eq_refl Ha1) as [Hp1 Hr1].
  set (f1 := Content (marshal2FA L s1)) in *. set (a1 := set_TwoFA f1 a) in *.
  destruct (codes_generated 10 (dr_codes d) Hd) as (codes & Hgen & Hlen & H8).
  destruct (codes_hashed codes (dr_salts d) H8) as (hashes & Hhash & H2 & Hasc).
  set (s2 := mkPersisted true enc [] hashes (rfc3339 L now)).
  assert (Ha2 : ascii_state s2) by (split_and!; [by apply plain_ascii|constructor|done|apply (rfc3339_ascii L HL)]).
  destruct (persist_ret a1 f1 s1 (λ st, Ret (mkPersisted true (p_PendingSecret st) [] hashes (rfc3339 L now))) s2
    eq_refl Hr1 eq_refl Ha2) as [Hp2 Hr2].
  exists a1, (set_TwoFA (Content (marshal2FA L s2)) a1), codes. split_and!; [..|done|done].
  - unfold Handle2FASetup, twoFACoreEnabled. rewrite Hm, Hf, Hk. rewrite bool_decide_eq_true_2 by done. cbn [negb].
    rewrite (proj2 (Z.eqb_eq _ _) Hlk). cbn [negb]. change (default Missing (Some f)) with f. rewrite Hr, He.
    change (AdminUsername (Snapshot (a_Config a))) with (AdminUsername (s_cfg (a_Config a))). rewrite Hg, Hn.
    change (default [] (Some k)) with k. by rewrite Hseal, Hp1.
  - unfold Handle2FAVerifySetup. rewrite Hm', Hb. rewrite bool_decide_eq_true_2 by done. cbn [negb].
    change (a_TwoFAStore a1) with (Some f1). cbn match. rewrite Hr1. cbn [p_Enabled s1]. rewrite He. cbn [p_PendingSecret s1].
    rewrite bool_decide_eq_false_2 by done. unfold decrypt2FASecret. change (a_TwoFAKey a1) with (a_TwoFAKey a). rewrite Hk.
    change (default [] (Some k)) with k. rewrite Hopen, Hv. cbn [negb]. unfold newBackupCodes. rewrite Hgen. cbn [obind]. rewrite Hhash.
    cbn [obind]. by rewrite Hp2.
  - done.
  - split; [|by apply Hnd|done]. exists k, (Content (marshal2FA L s2)), s2. by split_and!.
Qed.

(** ** Login *)

(** The requests of the two steps, from any address. *)
Definition stepOne (xff addr user password : bytes) : request loginPayload :=
  mkRequest POST xff addr None (Some (mkLogin user password [] [] false)).
Definition stepTwo (xff addr user code tok : bytes) (useBackup : bool) : request loginPayload :=
  mkRequest POST xff addr None (Some (mkLogin user [] code tok useBackup)).

Lemma enrolled_enabled a secret codes : enrolled a secret codes → admin2FAConfiguredAndEnabled L a = Ret true.
Proof.
  intros [(k & f & st & Hk & Hlk & Hf & Hr & He & _ & Hne & Hpl & _) _ _]. unfold admin2FAConfiguredAndEnabled.
  rewrite Hf, Hk, (proj2 (Z.eqb_eq _ _) Hlk). cbn [negb]. rewrite Hr. cbn [obind]. rewrite He, TrimSpace_plain by done.
  by rewrite bool_decide_eq_false_2.
Qed.


(** The second step for an enrolled administrator with a valid challenge. *)
Lemma enrolled_stepTwo a secret codes xff addr user code tok b now disk :
  enrolled a secret codes → TrimSpace user = AdminUsername (s_cfg (a_Config a)) → TrimSpace code ≠ [] → TrimSpace tok ≠ [] →
  (LockedUntil (AdminUsername (s_cfg (a_Config a))) now (a_TotpLockout a)).1 = None →
  verifyChallengeToken now tok (AdminUsername (s_cfg (a_Config a))) (SessionSecret (s_cfg (a_Config a))) = true →
  ∀ k f state, a_TwoFAKey a = Some k → a_TwoFAStore a = Some f → Read L f = Ret state →
  sets_session (HandleLogin L now disk (stepTwo xff addr user code tok b) a) ↔
    code_accepted L now disk (mkLogin user [] code tok b) state secret.
Proof.
  intros [(k & f & st & Hk & Hlk & Hf & Hr & He & Ho & Hne & _) _ _] Hu Hc Ht Hl Hv k' f' st' Hk' Hf' Hr'.
  rewrite Hk in Hk'. injection Hk' as <-. rewrite Hf in Hf'. injection Hf' as <-. rewrite Hr in Hr'. injection Hr' as <-.
  rewrite login_exact. unfold login_allowed, stepTwo. cbn zeta. cbn [r_method r_body]. split.
  - intros (_ & req & [= <-] & _ & H). cbn [lp_Code lp_ChallengeToken] in H.
    rewrite !bool_decide_eq_false_2 in H by done. cbn [negb andb] in H.
    destruct H as (_ & _ & f' & k' & st' & s' & Hf' & Hk' & _ & Hr' & _ & _ & Ho' & H).
    rewrite Hk in Hk'. injection Hk' as <-. rewrite Hf in Hf'. injection Hf' as <-. rewrite Hr in Hr'. injection Hr' as <-.
    rewrite Ho in Ho'. by injection Ho' as <-.
  - intros H. split; [done|]. eexists. split; [reflexivity|]. split; [done|]. cbn [lp_Code lp_ChallengeToken].
    rewrite !bool_decide_eq_false_2 by done. cbn [negb andb]. split_and!; [done|done|]. by exists f, k, st, secret.
Qed.

Lemma removed_enrolled codes hashes i : Forall2 hash_of codes hashes → NoDup (normBackupPlain L <$> codes) → Forall code_shape codes →
  Forall2 hash_of (delete i codes) (take i hashes ++ drop (S i) hashes) ∧ NoDup (normBackupPlain L <$> delete i codes) ∧
  Forall code_shape (delete i codes).
Proof.
  intros H2 Hnd Hs. rewrite delete_take_drop. split_and!.
  - apply Forall2_app; [by apply Forall2_take|by apply Forall2_drop].
  - eapply sublist_NoDup; [exact Hnd|]. rewrite <- delete_take_drop. apply fmap_sublist, sublist_delete.
  - apply Forall_app_2; [by apply Forall_take|by apply Forall_drop].
Qed.

(** A login with a backup code uses the code up. *)
Lemma backup_login a secret codes xff addr user tok b now i c :
  enrolled a secret codes → TrimSpace user = AdminUsername (s_cfg (a_Config a)) → TrimSpace tok ≠ [] →
  (LockedUntil (AdminUsername (s_cfg (a_Config a))) now (a_TotpLockout a)).1 = None →
  verifyChallengeToken now tok (AdminUsername (s_cfg (a_Config a))) (SessionSecret (s_cfg (a_Config a))) = true →
  codes !! i = Some c →
  ∃ w a', HandleLogin L now None (stepTwo xff addr user c tok b) a = (Some w, a') ∧ is_Some (w_cookie w) ∧
    enrolled a' secret (delete i codes) ∧ a_Config a' = a_Config a.
Proof.
  intros [(k & f & st & Hk & Hlk & Hf & Hr & He & Ho & Hne & Hpl & H2 & Hasc) Hnd Hs] Hu Ht Hl Hv Hi.
  destruct (Forall_lookup_1 _ _ _ _ Hs Hi) as (H8 & Hc & Hno).
  pose proof (match_code codes (p_BackupCodes st) i c H2 Hnd Hi H8) as Hm.
  assert (Hidx : (i < length (p_BackupCodes st))%nat) by (rewrite <- (Forall2_length _ _ _ H2); by eapply lookup_lt_Some).
  set (st' := mkPersisted (p_Enabled st) (p_Secret st) (p_PendingSecret st)
    (take i (p_BackupCodes st) ++ drop (S i) (p_BackupCodes st)) (p_ActivatedAt st)).
  assert (Hasc' : ascii_state st').
  { destruct Hasc as (? & ? & Hb & ?). split_and!; [done..| |done]. apply Forall_app_2; [by apply Forall_take|by apply Forall_drop]. }
  destruct (LockedUntil (AdminUsername (s_cfg (a_Config a))) now (a_TotpLockout a)) as [ut lo] eqn:El. cbn [fst] in Hl. subst ut.
  set (a1 := set_TotpLockout lo a).
  assert (Hrem : removeBackup i st = Ret st') by (unfold removeBackup; by rewrite (proj2 (Nat.ltb_lt _ _) Hidx)).
  destruct (persist_ret a1 f st (removeBackup i) st' Hf Hr Hrem Hasc') as [Hp Hr'].
  eexists _, _. split; [|split; [|split]].
  - unfold HandleLogin, stepTwo. cbn [r_method r_body]. rewrite bool_decide_eq_true_2 by done.
    cbn [negb lp_Username lp_Code lp_ChallengeToken lp_UseBackup lp_Password].
    rewrite !bool_decide_eq_false_2 by done. cbn [negb andb]. unfold handleLoginTotpFinish.
    cbn [lp_Username lp_Code lp_ChallengeToken lp_UseBackup lp_Password]. rewrite Hu, El. fold a1.
    change (AdminUsername (Snapshot (a_Config a))) with (AdminUsername (s_cfg (a_Config a))).
    change (SessionSecret (Snapshot (a_Config a))) with (SessionSecret (s_cfg (a_Config a))).
    rewrite bool_decide_eq_true_2 by done. rewrite Hv. cbn [negb].
    change (a_TwoFAStore a1) with (a_TwoFAStore a). rewrite Hf. change (a_TwoFAKey a1) with (a_TwoFAKey a). rewrite Hk.
    rewrite (proj2 (Z.eqb_eq _ _) Hlk). cbn [negb]. rewrite Hr, He, bool_decide_eq_false_2 by done. cbn [negb orb].
    unfold decrypt2FASecret. change (a_TwoFAKey a1) with (a_TwoFAKey a). rewrite Hk. change (default [] (Some k)) with k. rewrite Ho.
    unfold checkCode. rewrite Hno. unfold maybeConsumeBackup. rewrite Hm, Hp. destruct b; reflexivity.
  - by eexists.
  - destruct (removed_enrolled codes (p_BackupCodes st) i H2 Hnd Hs) as (? & ? & ?). split; [|done..].
    exists k, (Content (marshal2FA L st')), st'. by split_and!.
  - done.
Qed.

(** The backup codes that match are those that are left. *)
Lemma match_iff codes hashes code : Forall2 hash_of codes hashes →
  is_Some (MatchBackupCode L code hashes) ↔
  len (normBackupPlain L code) = 8 ∧ ∃ c, c ∈ codes ∧ normBackupPlain L code = normBackupPlain L c.
Proof.
  intros H2. unfold MatchBackupCode. destruct (Z.eqb_spec (len (normBackupPlain L code)) 8) as [H8|H8]; cbn [negb].
  2: { split; [by intros [? [=]]|by intros [? _]]. }
  rewrite fmap_is_Some. split.
  - intros [[j h] (Hj & Hm & _)%list_find_Some]. split; [done|]. cbn in Hm.
    destruct (Forall2_lookup_r _ _ _ _ _ H2 Hj) as (c & Hc & Hho). exists c. split; [by eapply list_elem_of_lookup_2|by apply Hho].
  - intros (_ & c & [j Hj]%list_elem_of_lookup & Hn). destruct (Forall2_lookup_l _ _ _ _ _ H2 Hj) as (h & Hh & Hho).
    destruct (list_find _ hashes) as [x|] eqn:E; [by exists x|]. apply list_find_None in E. rewrite Forall_forall in E.
    exfalso. apply (E h); [by eapply list_elem_of_lookup_2|]. by apply Hho.
Qed.

(** After an entry is removed, none that is left is equal to it. *)
Lemma delete_distinct codes i j c c' : NoDup (normBackupPlain L <$> codes) → codes !! i = Some c → delete i codes !! j = Some c' →
  normBackupPlain L c = normBackupPlain L c' → False.
Proof.
  intros Hnd Hi Hj Heq. destruct (decide (j < i)%nat) as [Hlt|Hge].
  - rewrite list_lookup_delete_lt in Hj by done. assert (j = i); [|lia].
    eapply (NoDup_lookup _ _ _ (normBackupPlain L c) Hnd); rewrite list_lookup_fmap; [rewrite Hj; cbn; by rewrite Heq|by rewrite Hi].
  - rewrite list_lookup_delete_ge in Hj by lia. assert (S j = i); [|lia].
    eapply (NoDup_lookup _ _ _ (normBackupPlain L c) Hnd); rewrite list_lookup_fmap; [rewrite Hj; cbn; by rewrite Heq|by rewrite Hi].
Qed.

(** The first step for an enrolled administrator. *)
Lemma enrolled_stepOne a secret codes xff addr user password t2 :
  enrolled a secret codes → AdminUsername (s_cfg (a_Config a)) ≠ [] → TrimSpace user = AdminUsername (s_cfg (a_Config a)) →
  password ≠ [] → bcryptCompare L (AdminPasswordHash (s_cfg (a_Config a))) password = true →
  HandleLogin L t2 None (stepOne xff addr user password) a =
    (Some (reply 200 (BChallenge (signChallengeToken t2 (AdminUsername (s_cfg (a_Config a))) (SessionSecret (s_cfg (a_Config a))) (60 * Second)))), a).
Proof.
  intros Hen Hne Hu Hp Hb. unfold HandleLogin, stepOne. cbn [r_method r_body]. rewrite bool_decide_eq_true_2 by done.
  cbn [negb lp_Username lp_Code lp_ChallengeToken lp_UseBackup lp_Password].
  rewrite (bool_decide_eq_true_2 (TrimSpace [] = [])) by done. cbn [negb andb]. rewrite Hu.
  change (AdminUsername (Snapshot (a_Config a))) with (AdminUsername (s_cfg (a_Config a))).
  change (AdminPasswordHash (Snapshot (a_Config a))) with (AdminPasswordHash (s_cfg (a_Config a))).
  change (SessionSecret (Snapshot (a_Config a))) with (SessionSecret (s_cfg (a_Config a))).
  rewrite !bool_decide_eq_false_2, bool_decide_eq_true_2 by done. cbn [negb orb]. rewrite Hb. cbn [negb].
  by rewrite (enrolled_enabled a secret codes Hen).
Qed.

Lemma token_nonempty exp user secret : token_name user → - 2 ^ 63 < exp < 2 ^ 63 → TrimSpace (token exp user secret) ≠ [].
Proof.
  intros Hn He. rewrite token_plain by done. intros E. pose proof (token_parts exp user secret Hn He) as [Hd _].
  rewrite E in Hd. injection Hd as Hd. by destruct user.
Qed.

(** What an enrolled administrator can log in with. *)
Lemma enrolled_login a secret codes xff addr user password t2 t3 :
  enrolled a secret codes → admin_ok a → time_ok t2 → AdminUsername (s_cfg (a_Config a)) ≠ [] →
  TrimSpace user = AdminUsername (s_cfg (a_Config a)) → password ≠ [] →
  bcryptCompare L (AdminPasswordHash (s_cfg (a_Config a))) password = true →
  Unix t3 ≤ Unix (t2 + 60 * Second) → (LockedUntil (AdminUsername (s_cfg (a_Config a))) t3 (a_TotpLockout a)).1 = None →
  ∃ tok, HandleLogin L t2 None (stepOne xff addr user password) a = (Some (reply 200 (BChallenge tok)), a) ∧
  (∀ code, TrimSpace code ≠ [] →
     sets_session (HandleLogin L t3 None (stepTwo xff addr user code tok false) a) ↔
     validateTOTPCode L secret code t3 = true ∨
     (len (normBackupPlain L code) = 8 ∧ ∃ c, c ∈ codes ∧ normBackupPlain L code = normBackupPlain L c)) ∧
  (∀ i c b, codes !! i = Some c → ∃ w a', HandleLogin L t3 None (stepTwo xff addr user c tok b) a = (Some w, a') ∧
     is_Some (w_cookie w) ∧ enrolled a' secret (delete i codes) ∧
     ∀ t4 disk tok' b', ¬ sets_session (HandleLogin L t4 disk (stepTwo xff addr user c tok' b') a')).
Proof.
  intros Hen Hok Ht Hne Hu Hp Hb Hle Hl. pose proof (unix_ok t2 (60 * Second) Ht ltac:(unfold Second; lia)) as Hr.
  eexists. split; [by apply (enrolled_stepOne a secret codes)|]. rewrite challenge_token. set (tok := token _ _ _).
  assert (Hv : verifyChallengeToken t3 tok (AdminUsername (s_cfg (a_Config a))) (SessionSecret (s_cfg (a_Config a))) = true).
  { unfold tok. rewrite token_challenge by done. rewrite bool_decide_eq_true_2 by done. cbn [andb]. lia. }
  assert (Htok : TrimSpace tok ≠ []) by by apply token_nonempty. split.
  - intros code Hc. destruct (en_state _ _ _ Hen) as (k & f & st & Hk & _ & Hf & Hrd & _ & _ & _ & _ & H2 & _).
    rewrite (enrolled_stepTwo a secret codes xff addr user code tok false t3 None Hen Hu Hc Htok Hl Hv k f st Hk Hf Hrd).
    rewrite <- (match_iff codes (p_BackupCodes st) code H2). unfold code_accepted. cbn [lp_UseBackup lp_Code].
    destruct (validateTOTPCode L secret code t3); naive_solver.
  - intros i c b Hi. destruct (backup_login a secret codes xff addr user tok b t3 i c Hen Hu Htok Hl Hv Hi)
      as (w & a' & Hlog & Hw & Hen' & Hcfg). exists w, a'. split_and!; [done..|]. intros t4 disk tok' b' Hs.
    assert (Hshape : code_shape c) by by apply (Forall_lookup_1 _ _ _ _ (en_shape _ _ _ Hen) Hi).
    apply login_exact in Hs as (_ & req & [= <-] & _ & Hs). cbn [lp_Code lp_ChallengeToken lp_Username lp_Password] in Hs.
    destruct (negb (bool_decide (TrimSpace c = [])) && negb (bool_decide (TrimSpace tok' = []))); [|by destruct Hs as (_ & ? & _)].
    destruct Hs as (_ & _ & f & k & st & s' & Hf & Hk & _ & Hrd & _ & _ & _ & Hacc).
    destruct (en_state _ _ _ Hen') as (k1 & f1 & st1 & Hk1 & _ & Hf1 & Hrd1 & _ & _ & _ & _ & H2 & _).
    rewrite Hf in Hf1. injection Hf1 as <-. rewrite Hrd in Hrd1. injection Hrd1 as <-.
    unfold code_accepted in Hacc. cbn [lp_UseBackup lp_Code] in Hacc. destruct Hshape as (H8 & _ & Hno). rewrite Hno in Hacc.
    destruct Hacc as [[_ [=]]|(_ & Hm & _)]. apply (match_iff _ _ _ H2) in Hm as (_ & c' & Hc' & Heq).
    apply list_elem_of_lookup in Hc' as [j Hj].
    apply (delete_distinct codes i j c c'); [apply (en_distinct _ _ _ Hen)|done..].
Qed.

(** C19: the second factor works.  Enrolment with a valid first code succeeds and
    hands out ten backup codes.  After it the password gives only a challenge; with
    it, within a minute and while codes are not locked, exactly the codes of the
    secret and the unused backup codes give a session, and a backup code that was
    used never does again. *)
Theorem second_factor_works {B} d now code (r : request B) (r' : request bytes) a k f s0 n secret url :
  a_TwoFAKey a = Some k → len k = 32 → a_TwoFAStore a = Some f → Read L f = Ret s0 → p_Enabled s0 = false → ascii_state s0 →
  dr_nonce d = Some n → len n = 12 → bytes_ok n →
  totpGenerate L (dr_seed d) (AdminUsername (s_cfg (a_Config a))) = Ret (secret, url) →
  draws_ok (dr_codes d) → (∀ codes, GenerateBackupPlainCodes 10 (dr_codes d) = Ret codes → NoDup (normBackupPlain L <$> codes)) →
  r_method r = POST → r_method r' = POST → r_body r' = Some code → validateTOTPCode L secret code now = true →
  admin_ok a → AdminUsername (s_cfg (a_Config a)) ≠ [] →
  ∃ a1 a2 codes, Handle2FASetup L None d r a = (Some (reply 200 (BSetup secret url)), a1) ∧
    Handle2FAVerifySetup L now None d r' a1 = (Some (reply 200 (BBackupCodes codes)), a2) ∧ length codes = 10%nat ∧
  ∀ xff addr user password t2 t3, time_ok t2 → TrimSpace user = AdminUsername (s_cfg (a_Config a)) → password ≠ [] →
    bcryptCompare L (AdminPasswordHash (s_cfg (a_Config a))) password = true →
    Unix t3 ≤ Unix (t2 + 60 * Second) → (LockedUntil (AdminUsername (s_cfg (a_Config a))) t3 (a_TotpLockout a)).1 = None →
  ∃ tok, HandleLogin L t2 None (stepOne xff addr user password) a2 = (Some (reply 200 (BChallenge tok)), a2) ∧
    (∀ code, TrimSpace code ≠ [] →
       sets_session (HandleLogin L t3 None (stepTwo xff addr user code tok false) a2) ↔
       validateTOTPCode L secret code t3 = true ∨
       (len (normBackupPlain L code) = 8 ∧ ∃ c, c ∈ codes ∧ normBackupPlain L code = normBackupPlain L c)) ∧
    (∀ i c b, codes !! i = Some c → ∃ w a', HandleLogin L t3 None (stepTwo xff addr user c tok b) a2 = (Some w, a') ∧
       is_Some (w_cookie w) ∧ enrolled a' secret (delete i codes) ∧
       ∀ t4 disk tok' b', ¬ sets_session (HandleLogin L t4 disk (stepTwo xff addr user c tok' b') a')).
Proof.
  intros Hk Hlk Hf Hr He Hasc Hn Hln Hbn Hg Hd Hnd Hm Hm' Hb Hv Hok Hne.
  destruct (enrolment_works d now code r r' a k f s0 n secret url) as (a1 & a2 & codes & H1 & H2 & H3 & Hen & Hcfg & Hlo); [done..|].
  exists a1, a2, codes. split_and!; [done..|]. intros xff addr user password t2 t3 Ht Hu Hp Hbc Hle Hl.
  apply (enrolled_login a2 secret codes xff addr user password t2 t3 Hen); rewrite ?Hlo; unfold admin_ok; by rewrite ?Hcfg.
Qed.

(** ** Two requests at once *)

(** two requests that read the second-factor file before either writes it can
    spend one backup code twice: both are accepted, and the second one removes
    the code that follows, which was never used; when no code follows, it panics
    instead. *)
Theorem backup_code_race a secret codes i c :
  enrolled a secret codes → codes !! i = Some c →
  ∃ f state a1, a_TwoFAStore a = Some f ∧ Read L f = Ret state ∧
    maybeConsumeBackup L None c state a = (Ret true, a1) ∧ enrolled a1 secret (delete i codes) ∧
    if (S i <? length codes)%nat
    then ∃ a2, maybeConsumeBackup L None c state a1 = (Ret true, a2) ∧ enrolled a2 secret (delete i (delete i codes))
    else is_panic (maybeConsumeBackup L None c state a1).1 = true.
Proof.
  intros [(k & f & st & Hk & Hlk & Hf & Hr & He & Ho & Hne & Hpl & H2 & Hasc) Hnd Hs] Hi.
  destruct (Forall_lookup_1 _ _ _ _ Hs Hi) as (H8 & _ & _). pose proof (Forall2_length _ _ _ H2) as Hlen.
  pose proof (lookup_lt_Some _ _ _ Hi) as Hlt. pose proof (match_code codes (p_BackupCodes st) i c H2 Hnd Hi H8) as Hm.
  assert (Hdel : ∀ s, ascii_state s → (i < length (p_BackupCodes s))%nat → ∃ s', removeBackup i s = Ret s' ∧ ascii_state s' ∧
    p_Enabled s' = p_Enabled s ∧ p_Secret s' = p_Secret s ∧ p_BackupCodes s' = take i (p_BackupCodes s) ++ drop (S i) (p_BackupCodes s)).
  { intros s (? & ? & Hb & ?) Hi'. unfold removeBackup. rewrite (proj2 (Nat.ltb_lt _ _) Hi'). eexists. split; [reflexivity|].
    split_and!; [|done..]. split_and!; [done..| |done]. apply Forall_app_2; [by apply Forall_take|by apply Forall_drop]. }
  destruct (Hdel st Hasc) as (s1 & Hr1 & Ha1 & He1 & Hs1 & Hb1); [lia|].
  destruct (persist_ret a f st (removeBackup i) s1 Hf Hr Hr1 Ha1) as [Hp1 Hrd1].
  destruct (removed_enrolled codes (p_BackupCodes st) i H2 Hnd Hs) as (H2' & Hnd' & Hs').
  set (f1 := Content (marshal2FA L s1)) in *. set (a1 := set_TwoFA f1 a) in *.
  exists f, st, a1. split_and!; [done|done|unfold maybeConsumeBackup; by rewrite Hm, Hp1|..].
  { split; [|done..]. exists k, f1, s1. rewrite He1, Hs1, Hb1. by split_and!. }
  assert (Hlen1 : length (p_BackupCodes s1) = pred (length codes)).
  { rewrite Hb1, length_app, length_take, length_drop. lia. }
  destruct (Nat.ltb_spec (S i) (length codes)) as [Hmore|Hlast].
  - destruct (Hdel s1 Ha1) as (s2 & Hr2 & Ha2 & He2 & Hs2 & Hb2); [lia|].
    destruct (persist_ret a1 f1 s1 (removeBackup i) s2 eq_refl Hrd1 Hr2 Ha2) as [Hp2 Hrd2].
    destruct (removed_enrolled (delete i codes) (p_BackupCodes s1) i) as (? & ? & ?); [by rewrite Hb1|done|done|].
    eexists. split; [unfold maybeConsumeBackup; by rewrite Hm, Hp2|]. split; [|done..].
    exists k, (Content (marshal2FA L s2)), s2. rewrite He2, Hs2, Hb2, He1, Hs1. by split_and!.
  - unfold maybeConsumeBackup. rewrite Hm. unfold persist2FA, Write. change (a_TwoFAStore a1) with (Some f1). cbn match.
    unfold f1. cbn match. rewrite (json_2fa L HL) by done. unfold removeBackup.
    by rewrite (proj2 (Nat.ltb_ge _ _)) by lia.
Qed.

(** ** What the login does not limit *)

(** The limit on wrong passwords does not stop the right one, so it does not stop
    a search for it: an address that is over the limit is still told. *)
Lemma limiter_spares_right_password a l xff addr user password now disk :
  TrimSpace user = AdminUsername (s_cfg (a_Config a)) → AdminUsername (s_cfg (a_Config a)) ≠ [] → password ≠ [] →
  bcryptCompare L (AdminPasswordHash (s_cfg (a_Config a))) password = true →
  (HandleLogin L now disk (stepOne xff addr user password) (set_LoginLimiter l a)).1 =
  (HandleLogin L now disk (stepOne xff addr user password) a).1.
Proof.
  intros Hu Hne Hp Hb. unfold HandleLogin, stepOne. cbn [r_method r_body]. rewrite bool_decide_eq_true_2 by done.
  cbn [negb lp_Username lp_Code lp_ChallengeToken lp_UseBackup lp_Password a_Config set_LoginLimiter].
  rewrite (bool_decide_eq_true_2 (TrimSpace [] = [])) by done. cbn [negb andb]. rewrite Hu.
  change (AdminUsername (Snapshot (a_Config a))) with (AdminUsername (s_cfg (a_Config a))).
  change (AdminPasswordHash (Snapshot (a_Config a))) with (AdminPasswordHash (s_cfg (a_Config a))).
  rewrite !bool_decide_eq_false_2, bool_decide_eq_true_2 by done. cbn [negb orb]. rewrite Hb. cbn [negb].
  change (admin2FAConfiguredAndEnabled L (set_LoginLimiter l a)) with (admin2FAConfiguredAndEnabled L a).
  by destruct (admin2FAConfiguredAndEnabled L a) as [[]| |].
Qed.

(** The key of the limiter is what the client writes into a header. *)
Lemma client_chooses_key {B} (r : request B) : Forall (λ c, 33 ≤ c < 128) (r_forwardedFor r) → r_forwardedFor r ≠ [] →
  44 ∉ r_forwardedFor r → clientIP r = r_forwardedFor r.
Proof.
  intros Hp Hne Hc. unfold clientIP. rewrite TrimSpace_plain by done. rewrite bool_decide_eq_false_2 by done. cbn [negb].
  by rewrite Split_none.
Qed.

(** Changing the credentials does not end the sessions that exist. *)
Lemma sessions_survive_new_password disk salt r a cookie now :
  validateSessionCookie now cookie (SessionSecret (s_cfg (a_Config (HandleAdminCredentials L disk salt r a).2))) =
  validateSessionCookie now cookie (SessionSecret (s_cfg (a_Config a))).
Proof.
  unfold HandleAdminCredentials, Update, writeConfig. repeat (case_match; simplify_eq/=; try done).
Qed.

End Factor.

(** ** The example libraries have the laws *)

Lemma ones_app n s : ones (replicate n 49 ++ demoEncode s) = n.
Proof. induction n as [|n IH]; cbn; [|by rewrite IH]. destruct s as [|z s]; [done|]. cbn. by destruct (z <? 0). Qed.

Lemma demo_decode fuel : ∀ s, (length s ≤ fuel)%nat → demoDecode fuel (demoEncode s) = s.
Proof.
  induction fuel as [|fuel IH]; intros [|z s] Hf; try done; cbn in Hf; [lia|].
  cbn [demoEncode flat_map demoDecode app]. change (flat_map _ s) with (demoEncode s).
  rewrite ones_app, drop_app_length' by (by rewrite length_replicate). rewrite IH by lia. f_equal. destruct (z <? 0) eqn:E; cbn; lia.
Qed.

Lemma demo_length s : (length s ≤ length (demoEncode s))%nat.
Proof. induction s as [|z s IH]; [done|]. cbn. rewrite length_app. fold (demoEncode s). change (flat_map _ s) with (demoEncode s). lia. Qed.

Lemma demo_inj s s' : demoEncode s = demoEncode s' → s = s'.
Proof.
  intros H. rewrite <- (demo_decode (length (demoEncode s)) s) by apply demo_length. rewrite H. symmetry.
  rewrite <- (demo_decode (length (demoEncode s')) s') at 1 by apply demo_length. done.
Qed.

Lemma demo_text s c : c ∈ demoEncode s → c = 45 ∨ c = 43 ∨ c = 49.
Proof.
  induction s as [|z s IH]; cbn; [by intros ?%elem_of_nil|]. intros [->|[Hc|Hc]%elem_of_app]%elem_of_cons; [by destruct (z <? 0); auto| |by apply IH].
  apply elem_of_replicate in Hc as [-> _]. auto.
Qed.

Lemma unpack_packed s r : unpack (packed s ++ r) = (s, r).
Proof. unfold packed, unpack, len. cbn. rewrite Nat2Z.id. by rewrite take_app_length, drop_app_length. Qed.

Lemma unpackAll_packed l : unpackAll (length l) (flat_map packed l) = l.
Proof. induction l as [|x l IH]; [done|]. cbn [length unpackAll flat_map]. rewrite unpack_packed. by rewrite IH. Qed.

Lemma demoLibs_laws : lib_laws demoLibs.
Proof.
  split.
  - intros salt pw h pw' [= <-] _. cbn. rewrite bool_decide_eq_true. split; [intros H; by apply demo_inj|by intros ->].
  - intros salt pw _. eexists. split; [reflexivity|]. apply Forall_forall. intros c [->|[->| ->]]%demo_text; lia.
  - intros k n p _ _. cbn. by rewrite demo_decode by apply demo_length.
  - intros k n p. apply Forall_forall. intros c [->|[->| ->]]%demo_text; unfold in_u8; lia.
  - intros [e s q bs d] _. change (demoUnmarshal2FA (demoMarshal2FA (mkPersisted e s q bs d)) = Some (mkPersisted e s q bs d)).
    unfold demoMarshal2FA, demoUnmarshal2FA. cbn [p_Enabled p_Secret p_PendingSecret p_ActivatedAt p_BackupCodes].
    rewrite !unpack_packed. cbn [packAll]. unfold packAll. f_equal. f_equal; [by destruct e|]. unfold len. rewrite length_map, Nat2Z.id. apply unpackAll_packed.
  - intros t. constructor.
Qed.

Definition demoDraws : draws := mkDraws (string_bytes "JBSWY3DP") (Some (replicate 12 1)) (λ i, Some [1; 2; 3; Z.of_nat i `mod` 256]) (λ _, []).
Lemma demo_draws_ok : draws_ok (dr_codes demoDraws).
Proof.
  intros i. eexists. split; [reflexivity|]. split; [|done].
  repeat (apply Forall_cons_2; [unfold in_u8; try lia|]); [|apply Forall_nil_2]. pose proof (Z.mod_pos_bound (Z.of_nat i) 256). lia.
Qed.

Lemma second_factor_works_witness : ∃ a1 a2 codes,
  Handle2FASetup demoLibs None demoDraws (demoPost tt) (demoApp Missing) = (Some (reply 200 (BSetup (string_bytes "JBSWY3DP") (string_bytes "admin"))), a1) ∧
  Handle2FAVerifySetup demoLibs demoNow None demoDraws (demoPost (string_bytes "123456")) a1 = (Some (reply 200 (BBackupCodes codes)), a2) ∧
  length codes = 10%nat.
Proof.
  destruct (second_factor_works demoLibs demoLibs_laws demoDraws demoNow (string_bytes "123456") (demoPost tt) (demoPost (string_bytes "123456"))
    (demoApp Missing) (replicate 32 7) Missing noPersisted (replicate 12 1) (string_bytes "JBSWY3DP") (string_bytes "admin"))
    as (a1 & a2 & codes & H1 & H2 & H3 & _); try reflexivity.
  - repeat constructor.
  - apply (bool_decide_unpack _); vm_compute; exact I.
  - apply demo_draws_ok.
  - intros codes [= <-]. apply (bool_decide_unpack _); vm_compute; exact I.
  - apply demo_admin_ok.
  - discriminate.
  - exists a1, a2, codes. split_and!; assumption.
Defined.

Lemma backup_code_race_witness : ∃ a (codes : list bytes) c f state a1, codes !! 3%nat = Some c ∧ a_TwoFAStore a = Some f ∧ Read demoLibs f = Ret state ∧
  maybeConsumeBackup demoLibs None c state a = (Ret true, a1) ∧ ∃ a2, maybeConsumeBackup demoLibs None c state a1 = (Ret true, a2).
Proof.
  destruct (enrolment_works demoLibs demoLibs_laws demoDraws demoNow (string_bytes "123456") (demoPost tt) (demoPost (string_bytes "123456"))
    (demoApp Missing) (replicate 32 7) Missing noPersisted (replicate 12 1) (string_bytes "JBSWY3DP") (string_bytes "admin"))
    as (a1 & a2 & codes & H1 & H2 & H3 & Hen & _); try reflexivity.
  - repeat constructor.
  - apply (bool_decide_unpack _); vm_compute; exact I.
  - apply demo_draws_ok.
  - intros codes [= <-]. apply (bool_decide_unpack _); vm_compute; exact I.
  - destruct (lookup_lt_is_Some_2 codes 3) as [c Hc]; [rewrite H3; lia|].
    destruct (backup_code_race demoLibs demoLibs_laws a2 (string_bytes "JBSWY3DP") codes 3 c Hen Hc) as (f & st & a3 & Hf & Hr & Hm & _ & Hif).
    rewrite H3 in Hif. destruct Hif as (a4 & Hm' & _). exists a2, codes, c, f, st, a3. split_and!; try assumption. by exists a4.
Defined.

End PanelFactor.
Export PanelFactor.
