(* ===== verification/PanelUsers.v ===== *)
(** * Users and subscriptions of the web panel: mieru-panel/handlers/users.go,
    sub.go, security.go, backup.go, advanced.go, server_config.go, stats.go

    The handlers that change the users and settings of the panel, push them to the
    proxy server, and serve subscriptions.  The server is seen through the class
    [MitaClient].  Handlers take the time, what happens to the disk, the request
    and the states of the application and of the server.  [writeMita502] is a
    response with status 502. *)

From S2P Require Import Prelude Sha256 Cipher Net ConfigServer PanelText PanelConfig PanelAuth.
From Stdlib Require Import ZifyBool.
Local Open Scope Z_scope.

Module PanelUsers.

(** ** The server *)

Record MitaUser := mkMitaUser { mu_Name : bytes; mu_Password : bytes }.
Record MitaApplyOptions := mkOptions { mo_LoggingLevel : bytes; mo_MTU : Z; mo_Multiplexing : bytes }.

Class MitaClient (M : Type) := {
  ApplyUsers : list MitaUser → bytes → MitaApplyOptions → M → outcome unit * M;
  EnsurePortBindings : bytes → MitaApplyOptions → M → outcome unit * M;
  GetStatus : M → outcome bytes;
  StartProxy : M → outcome unit * M;
  StopProxy : M → outcome unit * M
}.

(** ** Responses *)

(** The fields of the profile that depend on the configuration. *)
Record profile := mkProfile { pf_server : bytes; pf_port : Z; pf_username : bytes; pf_password : bytes; pf_multiplexing : bytes }.

Inductive panelBody :=
| PError (msg : string)
| POk
| PWarning
| PAlreadyRunning
| PCreated (autoStarted : bool)
| PPassword (password : bytes)
| PRemoved (n : Z)
| PServer (ip : bytes) (port : Z) (range : bytes)
| PAdvanced (level : bytes) (mtu : Z) (multiplexing : bytes)
| PSecurity (agents : list bytes) (hwid : bool) (defaults : list bytes)
| PProfile (p : profile).
Record panelResponse := mkPanelResp { pr_status : Z; pr_body : panelBody }.
Definition perror (status : Z) (msg : string) : panelResponse := mkPanelResp status (PError msg).
(** The text of an error. *)
Definition errText (r : outcome unit) : string := match r with Err (Errorf s) => s | _ => "" end.
Definition pok : panelResponse := mkPanelResp 200 POk.

(** ** Users *)

Definition expired (nowUnix : Z) {D} (u : User D) : bool := (0 <? u_ExpiresAt u) && (u_ExpiresAt u <? nowUnix).

Definition options {D} (cfg : Config D) : MitaApplyOptions := mkOptions (LoggingLevel cfg) (MTU cfg) (Multiplexing cfg).

Section Handlers.
Context {M : Type} `{MitaClient M} (L : libs) (unicodeLower : bytes → bytes) (grow : nat → nat).

Definition mitaUsers (now : Z) (cfg : Config slice) : list MitaUser :=
  (λ u, mkMitaUser (u_Name u) (u_Password u)) <$> filter (λ u, expired (Unix now) u = false) (Users cfg).

Definition syncMitaUsers (now : Z) (a : App) (m : M) : outcome unit * M :=
  let cfg := Snapshot (a_Config a) in
  ApplyUsers (mitaUsers now cfg) (TrimSpace (ServerPortRange cfg)) (options cfg) m.

(** [a.Config.Update] in a handler. *)
Definition updateConfig (disk : option (option bytes)) (f : Config slice → heap → outcome (Config slice) * heap) (a : App)
    : outcome unit * App :=
  let '(r, s) := Update (marshalConfig L) disk f (a_Config a) in (r, set_Config s a).

(** The end of a handler that changed the users: push them. *)
Definition pushed (now : Z) (a : App) (m : M) (resp : panelResponse) : panelResponse * App * M :=
  let '(r, m) := syncMitaUsers now a m in
  ((if is_ret r then resp else perror 502 "mita"), a, m).

(** The first user of this name, changed by [f]. *)
Fixpoint onUser (name : bytes) (f : User slice → heap → User slice * heap) (us : list (User slice)) (h : heap)
    : option (list (User slice) * heap) :=
  match us with
  | [] => None
  | u :: us =>
      if bool_decide (u_Name u = name) then let '(u, h) := f u h in Some (u :: us, h)
      else match onUser name f us h with Some (us, h) => Some (u :: us, h) | None => None end
  end.
Definition changeUser (name : bytes) (f : User slice → heap → User slice * heap) (cfg : Config slice) (h : heap)
    : outcome (Config slice) * heap :=
  match onUser name f (Users cfg) h with
  | Some (us, h) => (Ret (set_Users us cfg), h)
  | None => (Err (Errorf "user not found"), h)
  end.

Record createBody := mkCreate { cr_Name : bytes; cr_Password : bytes; cr_QuotaDay : Z; cr_QuotaMonth : Z; cr_ExpiresAt : Z; cr_MaxDevices : Z }.

Definition addUser (req : createBody) (token : bytes) (cfg : Config slice) (h : heap) : outcome (Config slice) * heap :=
  if existsb (λ u, bool_decide (u_Name u = cr_Name req)) (Users cfg) then (Err (Errorf "user already exists"), h)
  else
    let maxDevices := if cr_MaxDevices req <? 0 then 0 else cr_MaxDevices req in
    (Ret (set_Users (Users cfg ++ [mkUser (cr_Name req) (cr_Password req) token (mkQuotas (cr_QuotaDay req) (cr_QuotaMonth req))
       (cr_ExpiresAt req) maxDevices nilSlice]) cfg), h).

Definition isRun (status : bytes) : bool := Contains (ToUpper (unicodeUpper L) status) (string_bytes "RUN").

(** [rnd]: the random bytes of the token. *)
Definition createUser (now : Z) (disk : option (option bytes)) (rnd : outcome bytes) (body : option createBody) (a : App) (m : M)
    : panelResponse * App * M :=
  match body with
  | None => (perror 400 "invalid json", a, m)
  | Some req =>
      let req := mkCreate (TrimSpace (cr_Name req)) (cr_Password req) (cr_QuotaDay req) (cr_QuotaMonth req) (cr_ExpiresAt req) (cr_MaxDevices req) in
      if bool_decide (cr_Name req = []) || bool_decide (cr_Password req = []) then (perror 400 "name and password are required", a, m)
      else
        match rnd with
        | Ret b =>
            match updateConfig disk (addUser req (string_bytes (hexEncode b))) a with
            | (Ret _, a) =>
                match syncMitaUsers now a m with
                | (Ret _, m) =>
                    match GetStatus m with
                    | Ret status =>
                        if isRun status then (mkPanelResp 201 (PCreated false), a, m)
                        else let '(r, m) := StartProxy m in (mkPanelResp 201 (PCreated (is_ret r)), a, m)
                    | _ => (mkPanelResp 201 (PCreated false), a, m)
                    end
                | (_, m) => (perror 502 "mita", a, m)
                end
            | (r, a) => (perror 400 (errText r), a, m)
            end
        | _ => (perror 500 "random", a, m)
        end
  end.

Record updateBody := mkUpdate { up_QuotaDay : option Z; up_QuotaMonth : option Z; up_ExpiresAt : option Z; up_MaxDevices : option Z }.

Definition patchUser (req : updateBody) (u : User slice) : User slice :=
  mkUser (u_Name u) (u_Password u) (u_SubToken u)
    (mkQuotas (default (q_DayMB (u_Quotas u)) (up_QuotaDay req)) (default (q_MonthMB (u_Quotas u)) (up_QuotaMonth req)))
    (default (u_ExpiresAt u) (up_ExpiresAt req))
    (match up_MaxDevices req with Some n => if n <? 0 then 0 else n | None => u_MaxDevices u end)
    (u_Devices u).

Definition updateUser (now : Z) (disk : option (option bytes)) (body : option updateBody) (name : bytes) (a : App) (m : M)
    : panelResponse * App * M :=
  match body with
  | None => (perror 400 "invalid json", a, m)
  | Some req =>
      match updateConfig disk (changeUser name (λ u h, (patchUser req u, h))) a with
      | (Ret _, a) => pushed now a m pok
      | (r, a) => (perror 404 (errText r), a, m)
      end
  end.

(** [next := Devices[:0]] and appending to it: the kept devices are written over
    the array that the slice, and every copy of it, refers to. *)
Definition keepDevices (fp : bytes) (u : User slice) (h : heap) : User slice * heap :=
  if bool_decide (fp = []) then (set_Devices nilSlice u, h)
  else
    let s := u_Devices u in
    let kept := List.filter (λ d, negb (bool_decide (d_Hash d = fp))) (deref h s) in
    (set_Devices (mkSlice (sl_arr s) (length kept) (sl_cap s)) u, alter (λ l, kept ++ drop (length kept) l) (sl_arr s) h).

Definition resetDevices (disk : option (option bytes)) (name fp : bytes) (a : App) : panelResponse * App :=
  match updateConfig disk (changeUser name (keepDevices fp)) a with
  | (Ret _, a) => (pok, a)
  | (r, a) => (perror 404 (errText r), a)
  end.

Definition HandleUsersBulk (now : Z) (disk : option (option bytes)) (method : method) (body : option (list bytes)) (a : App) (m : M)
    : panelResponse * App * M :=
  if negb (bool_decide (method = POST)) then (perror 405 "method not allowed", a, m)
  else
    match body with
    | None => (perror 400 "invalid json", a, m)
    | Some names =>
        if bool_decide (names = []) then (perror 400 "no users specified", a, m)
        else
          let want := TrimSpace <$> names in
          let removed := len (filter (λ u, u_Name u ∈ want) (Users (Snapshot (a_Config a)))) in
          match updateConfig disk (λ cfg h, (Ret (set_Users (filter (λ u, u_Name u ∉ want) (Users cfg)) cfg), h)) a with
          | (Ret _, a) => pushed now a m (mkPanelResp 200 (PRemoved removed))
          | (_, a) => (perror 500 "write config", a, m)
          end
    end.

Definition deleteUser (now : Z) (disk : option (option bytes)) (name : bytes) (a : App) (m : M) : panelResponse * App * M :=
  match updateConfig disk (λ cfg h,
      if existsb (λ u, bool_decide (u_Name u = name)) (Users cfg)
      then (Ret (set_Users (filter (λ u, u_Name u ≠ name) (Users cfg)) cfg), h) else (Err (Errorf "user not found"), h)) a with
  | (Ret _, a) => pushed now a m pok
  | (r, a) => (perror 404 (errText r), a, m)
  end.

Definition set_Password (p : bytes) (u : User slice) : User slice :=
  mkUser (u_Name u) p (u_SubToken u) (u_Quotas u) (u_ExpiresAt u) (u_MaxDevices u) (u_Devices u).

Definition regeneratePassword (now : Z) (disk : option (option bytes)) (rnd : outcome bytes) (name : bytes) (a : App) (m : M)
    : panelResponse * App * M :=
  match rnd with
  | Ret b =>
      let newPass := string_bytes (hexEncode b) in
      match updateConfig disk (changeUser name (λ u h, (set_Password newPass u, h))) a with
      | (Ret _, a) => pushed now a m (mkPanelResp 200 (PPassword newPass))
      | (r, a) => (perror 404 (errText r), a, m)
      end
  | _ => (perror 500 "random", a, m)
  end.

(** ** Subscriptions *)

Definition hash16 (s : bytes) : bytes := take 16 (string_bytes (hexEncode (Sum256 s))).

Definition deviceFingerprint (hwid ua : bytes) : bytes :=
  let hwid := TrimSpace hwid in
  if negb (bool_decide (hwid = [])) then hash16 (string_bytes "hwid:" ++ hwid)
  else
    let clean := TrimSpace ua in
    hash16 (string_bytes "ua:" ++ (if bool_decide (clean = []) then string_bytes "unknown" else clean)).

Definition uaAllowed (ua : bytes) (allowed : list bytes) : bool :=
  if bool_decide (allowed = []) then true
  else
    let low := ToLower unicodeLower ua in
    existsb (λ p, let p := TrimSpace p in negb (bool_decide (p = [])) && Contains low (ToLower unicodeLower p)) allowed.

(** A known device that is seen again. *)
Definition seenAgain (nowUnix : Z) (hwid ua ip : bytes) (d : DeviceFingerprint) : DeviceFingerprint :=
  mkDevice (d_Hash d)
    (if negb (bool_decide (hwid = [])) && bool_decide (d_HWID d = []) then hwid else d_HWID d)
    (if negb (bool_decide (ua = [])) then ua else d_UserAgent d) ip (d_FirstSeen d) nowUnix.

(** The device list of a user after a request, and whether it is admitted. *)
Definition noteDevice (nowUnix : Z) (fp hwid ua ip : bytes) (u : User slice) (h : heap) : bool * (User slice * heap) :=
  let s := u_Devices u in
  match list_find (λ d, d_Hash d = fp) (deref h s) with
  | Some (j, d) => (true, (u, writeAt s j (seenAgain nowUnix hwid ua ip d) h))
  | None =>
      if (0 <? u_MaxDevices u) && (u_MaxDevices u <=? Z.of_nat (sl_len s)) then (false, (u, h))
      else
        let '(s, h) := appendDevice grow s (mkDevice fp hwid ua ip nowUnix nowUnix) h in
        (true, (set_Devices s u, h))
  end.

(** Whether the first user of the name admits the device; [true] if there is
    none. *)
Definition deviceAllowed (nowUnix : Z) (name fp hwid ua ip : bytes) (us : list (User slice)) (h : heap) : bool :=
  match list_find (λ u, u_Name u = name) us with
  | Some (_, u) => (noteDevice nowUnix fp hwid ua ip u h).1
  | None => true
  end.

(** A failed write is only logged. *)
Definition recordDevice (now : Z) (disk : option (option bytes)) (name fp hwid ua ip : bytes) (a : App) : bool * App :=
  let t := Unix now in
  let allowed := deviceAllowed t name fp hwid ua ip (Users (s_cfg (a_Config a))) (s_heap (a_Config a)) in
  let '(_, a) := updateConfig disk (λ cfg h,
      match onUser name (λ u h, (noteDevice t fp hwid ua ip u h).2) (Users cfg) h with
      | Some (us, h) => (Ret (set_Users us cfg), h)
      | None => (Ret cfg, h)
      end) a in
  (allowed, a).

Definition buildSingBoxProfile (cfg : Config slice) (u : User slice) : profile :=
  let multiplexing := TrimSpace (Multiplexing cfg) in
  mkProfile (ServerIP cfg) (DefaultPort cfg) (u_Name u) (u_Password u)
    (if bool_decide (multiplexing = []) then string_bytes "MULTIPLEXING_HIGH" else multiplexing).

Record subRequest := mkSub { sr_method : method; sr_token : bytes; sr_ip : bytes; sr_ua : bytes; sr_hwid : bytes }.

(** The token is what follows /sub/ in the path.  [None]: the handler panics. *)
Definition HandleSubscription (now : Z) (disk : option (option bytes)) (r : subRequest) (a : App) : option panelResponse * App :=
  if negb (bool_decide (sr_method r = GET)) then (Some (perror 405 "method not allowed"), a)
  else
    let token := TrimSpace (sr_token r) in
    if bool_decide (token = []) then (Some (perror 404 "token not found"), a)
    else
      let ip := sr_ip r in let ua := sr_ua r in let hwid := TrimSpace (sr_hwid r) in
      let '(ok, l) := Allow now (token ++ [bar] ++ ip) (a_SubLimiter a) in
      let a := set_SubLimiter l a in
      if negb ok then
        (if len token <? 8 then None else Some (perror 429 "too many requests"), a)
      else
        let cfg := Snapshot (a_Config a) in
        match list_find (λ u, u_SubToken u = token) (Users cfg) with
        | None => (Some (perror 404 "invalid token"), a)
        | Some (_, u) =>
            if expired (Unix now) u then (Some (perror 410 "subscription expired"), a)
            else if RequireHWID cfg && bool_decide (hwid = []) then (Some (perror 403 "client does not present X-HWID"), a)
            else if negb (uaAllowed ua (AllowedUserAgents cfg)) then (Some (perror 403 "this client is not permitted"), a)
            else
              let fp := deviceFingerprint hwid ua in
              let '(allowed, a) := recordDevice now disk (u_Name u) fp hwid ua ip a in
              if negb allowed then (Some (perror 403 "device limit reached for this subscription"), a)
              else (Some (mkPanelResp 200 (PProfile (buildSingBoxProfile cfg u))), a)
        end.
End Handlers.

(** * Properties *)

(** ** Changing one user

    The plain users of a configuration, and a change of the first of a name. *)

Notation plainUser := (User (list DeviceFingerprint)).

Fixpoint onPlain (name : bytes) (g : plainUser → plainUser) (us : list plainUser) : list plainUser :=
  match us with
  | [] => []
  | u :: us => if bool_decide (u_Name u = name) then g u :: us else u :: onPlain name g us
  end.

(** A change through the slice of a user, and what it does to the plain user. *)
Definition local_change (f : User slice → heap → User slice * heap) (g : plainUser → plainUser) : Prop :=
  ∀ u h u' h', h !! 0%nat = Some [] → slice_ok h (u_Devices u) → f u h = (u', h') →
  touches h (u_Devices u) h' ∧ slice_ok h' (u_Devices u') ∧
  set_Devices (deref h' (u_Devices u')) u' = g (set_Devices (deref h (u_Devices u)) u) ∧
  ((sl_arr (u_Devices u') = sl_arr (u_Devices u) ∧ sl_cap (u_Devices u') = sl_cap (u_Devices u)) ∨
   h !! sl_arr (u_Devices u') = None ∨ sl_cap (u_Devices u') = 0%nat).

Lemma arrays_cons u us : arrays (u :: us) = (if decide (sl_cap (u_Devices u) ≠ 0%nat) then [sl_arr (u_Devices u)] else []) ++ arrays us.
Proof. unfold arrays. rewrite filter_cons. by case_decide. Qed.

Lemma in_arrays us u : u ∈ us → sl_cap (u_Devices u) ≠ 0%nat → sl_arr (u_Devices u) ∈ arrays us.
Proof. intros Hin Hc. unfold arrays. apply (list_elem_of_fmap_2 (λ u : User slice, sl_arr (u_Devices u))). by apply list_elem_of_filter. Qed.

Lemma arrays_in us a : a ∈ arrays us → ∃ u, u ∈ us ∧ sl_arr (u_Devices u) = a ∧ sl_cap (u_Devices u) ≠ 0%nat.
Proof. intros Ha. unfold arrays in Ha. apply list_elem_of_fmap in Ha as (u & -> & Hu). apply list_elem_of_filter in Hu as [Hc Hu]. by exists u. Qed.

(** The slices of the others are not the slice of a user. *)
Lemma others_apart h u us : Forall (λ u, slice_ok h (u_Devices u)) (u :: us) → NoDup (arrays (u :: us)) →
  ∀ u2, u2 ∈ us → sl_arr (u_Devices u2) ≠ sl_arr (u_Devices u) ∨ sl_cap (u_Devices u2) = 0%nat.
Proof.
  intros Hok Hnd u2 Hin. destruct (decide (sl_cap (u_Devices u2) = 0%nat)) as [|Hc]; [by right|left]. intros E.
  apply Forall_cons in Hok as [(_ & l & Hl & Hn) Hok]. rewrite Forall_forall in Hok. destruct (Hok u2 Hin) as (_ & l2 & Hl2 & Hn2).
  rewrite E, Hl in Hl2. injection Hl2 as <-. rewrite arrays_cons in Hnd. rewrite decide_True in Hnd by lia.
  apply NoDup_app in Hnd as (_ & Hnd & _). apply (Hnd (sl_arr (u_Devices u))); [apply list_elem_of_here|]. rewrite <- E. by apply in_arrays.
Qed.

Lemma onUser_ok name f g us : local_change f g → ∀ h us' h', users_ok h us → onUser name f us h = Some (us', h') →
  users_ok h' us' ∧ plain h' us' = onPlain name g (plain h us) ∧ (∃ u, u ∈ us ∧ touches h (u_Devices u) h') ∧
  (∀ a, a ∈ arrays us' → a ∈ arrays us ∨ h !! a = None).
Proof.
  intros Hloc. induction us as [|u us IH]; intros h us' h' [Hok Hnd H0] Hon; [done|]. cbn [onUser] in Hon.
  pose proof (others_apart h u us Hok Hnd) as Hap. apply Forall_cons in Hok as [Hu Hok]. cbn [plain fmap list_fmap onPlain].
  change (u_Name (set_Devices (deref h (u_Devices u)) u)) with (u_Name u).
  destruct (bool_decide (u_Name u = name)) eqn:En.
  - destruct (f u h) as [u' h1] eqn:Ef. injection Hon as <- <-. destruct (Hloc u h u' h1 H0 Hu Ef) as (Ht & Hs' & Hp & Harr).
    assert (Hrest : ∀ u2, u2 ∈ us → slice_ok h1 (u_Devices u2) ∧ deref h1 (u_Devices u2) = deref h (u_Devices u2)).
    { intros u2 Hin. rewrite Forall_forall in Hok. apply (touches_other h (u_Devices u)); auto. }
    assert (H01 : h1 !! 0%nat = Some []).
    { destruct (Ht 0%nat [] H0) as [_ (l' & Hl' & Hn)]. by apply nil_length_inv in Hn as ->. }
    rewrite arrays_cons in Hnd. apply NoDup_app in Hnd as (_ & Hsep & Hnd).
    split_and!; [split|..].
    + constructor; [done|]. apply Forall_forall. intros u2 Hin. by apply Hrest.
    + rewrite arrays_cons. destruct (decide (sl_cap (u_Devices u') ≠ 0%nat)) as [Hc'|]; [|exact Hnd]. cbn [app]. constructor; [|done]. intros Hin. destruct Harr as [[Ea Ec]|[Hnew|Hz]]; [|..|done].
      * apply (Hsep (sl_arr (u_Devices u))); [rewrite decide_True by lia; apply list_elem_of_here|by rewrite <- Ea].
      * apply arrays_in in Hin as (u2 & Hin & Ha & _). rewrite Forall_forall in Hok. destruct (Hok u2 Hin) as (_ & l & Hl & _). congruence.
    + done.
    + cbn. rewrite Hp. f_equal. apply list_fmap_ext. intros i u2 Hu2. by rewrite (proj2 (Hrest u2 (list_elem_of_lookup_2 _ _ _ Hu2))).
    + exists u. split; [apply list_elem_of_here|done].
    + intros a. rewrite !arrays_cons. intros [Ha|Ha]%elem_of_app; [|left; apply elem_of_app; by right].
      destruct (decide (sl_cap (u_Devices u') ≠ 0%nat)) as [Hc'|]; [|by apply elem_of_nil in Ha]. apply list_elem_of_singleton in Ha as ->.
      destruct Harr as [[Ea Ec]|[Hnew|Hz]]; [left|by right|done]. apply elem_of_app. left. rewrite decide_True by lia. rewrite Ea. apply list_elem_of_here.
  - destruct (onUser name f us h) as [[us1 h1]|] eqn:E; [|done]. injection Hon as <- <-.
    rewrite arrays_cons in Hnd. apply NoDup_app in Hnd as (Hn1 & Hsep & Hnd).
    destruct (IH h us1 h1) as ([Hok1 Hnd1 H01] & Hp & (u0 & Hin0 & Ht) & Hnew); [by split|done|].
    assert (Hu1 : slice_ok h1 (u_Devices u) ∧ deref h1 (u_Devices u) = deref h (u_Devices u)).
    { rewrite Forall_forall in Hok. apply (touches_other h (u_Devices u0)); auto.
      destruct (decide (sl_cap (u_Devices u) = 0%nat)) as [|Hc]; [by right|left]. intros E1.
      destruct (Hap u0 Hin0) as [?|Hz]; [congruence|]. destruct (Hok u0 Hin0) as (_ & l0 & Hl0 & Hn0). destruct Hu as (_ & l & Hl & Hn).
      rewrite E1, Hl0 in Hl. injection Hl as <-. lia. }
    split_and!; [split|..].
    + constructor; [by apply Hu1|done].
    + rewrite arrays_cons. apply NoDup_app. split_and!; [done| |done]. intros a Ha Hin. destruct (Hnew a Hin) as [Hold|Hnone]; [by apply (Hsep a)|].
      case_decide; [|by apply elem_of_nil in Ha]. apply list_elem_of_singleton in Ha as ->. destruct Hu as (_ & l & Hl & _). congruence.
    + done.
    + cbn. rewrite (proj2 Hu1). f_equal. exact Hp.
    + exists u0. split; [by apply list_elem_of_further|done].
    + intros a. rewrite !arrays_cons. intros [Ha|Ha]%elem_of_app; [left; apply elem_of_app; by left|].
      destruct (Hnew a Ha) as [|]; [left; apply elem_of_app; by right|by right].
Qed.

(** A change that does not touch the devices. *)
Lemma local_pure (f : User slice → User slice) (g : plainUser → plainUser) :
  (∀ u, u_Devices (f u) = u_Devices u) → (∀ u d, set_Devices d (f u) = g (set_Devices d u)) → local_change (λ u h, (f u, h)) g.
Proof.
  intros Hd Hg u h u' h' _ Hok [= <- <-]. rewrite Hd. split_and!; [apply touches_refl|done|by rewrite Hg|by left].
Qed.

(** Noting a device, on plain lists. *)
Definition noted (nowUnix : Z) (fp hwid ua ip : bytes) (u : plainUser) : bool * plainUser :=
  match list_find (λ d, d_Hash d = fp) (u_Devices u) with
  | Some (j, d) => (true, set_Devices (<[j := seenAgain nowUnix hwid ua ip d]> (u_Devices u)) u)
  | None =>
      if (0 <? u_MaxDevices u) && (u_MaxDevices u <=? len (u_Devices u)) then (false, u)
      else (true, set_Devices (u_Devices u ++ [mkDevice fp hwid ua ip nowUnix nowUnix]) u)
  end.

Lemma noteDevice_noted grow t fp hwid ua ip u h : slice_ok h (u_Devices u) →
  (noteDevice grow t fp hwid ua ip u h).1 = (noted t fp hwid ua ip (set_Devices (deref h (u_Devices u)) u)).1.
Proof.
  intros Hok. unfold noteDevice, noted. cbn [u_Devices set_Devices u_MaxDevices]. unfold len. rewrite deref_length by done.
  destruct (list_find _ _) as [[j d]|]; [done|]. case_if; [done|]. by destruct (appendDevice _ _ _ _).
Qed.

Lemma local_note grow t fp hwid ua ip :
  local_change (λ u h, (noteDevice grow t fp hwid ua ip u h).2) (λ u, (noted t fp hwid ua ip u).2).
Proof.
  intros u h u' h' _ Hok. unfold noteDevice, noted. cbn [u_Devices set_Devices u_MaxDevices]. unfold len. rewrite deref_length by done.
  destruct (list_find _ (deref h (u_Devices u))) as [[j d]|] eqn:Ef.
  - intros [= <- <-]. apply list_find_Some in Ef as (Hj & _). apply lookup_lt_Some in Hj. rewrite deref_length in Hj by done.
    destruct (writeAt_spec h (u_Devices u) j (seenAgain t hwid ua ip d) Hok Hj) as (? & ? & Hd). rewrite Hd. split_and!; try done. by left.
  - case_if; [intros [= <- <-]; split_and!; [apply touches_refl|done|done|by left]|].
    destruct (appendDevice _ _ _ _) as [s' h1] eqn:Ea. intros [= <- <-]. cbn [u_Devices set_Devices].
    destruct (appendDevice_spec grow h (u_Devices u) _ s' h1 Hok Ea) as (? & ? & Hd & [[? ?]|?] & ?); rewrite Hd; split_and!; try done; auto.
Qed.

(** Forgetting a device, or all. *)
Definition forgotten (fp : bytes) (u : plainUser) : plainUser :=
  set_Devices (if bool_decide (fp = []) then [] else List.filter (λ d, negb (bool_decide (d_Hash d = fp))) (u_Devices u)) u.

Lemma length_filter_le {A} (p : A → bool) l : (length (List.filter p l) ≤ length l)%nat.
Proof. induction l as [|x l IH]; cbn; [lia|]. destruct (p x); cbn; lia. Qed.

Lemma local_forget fp : local_change (keepDevices fp) (forgotten fp).
Proof.
  intros u h u' h' H0 Hok. unfold keepDevices, forgotten. cbn [u_Devices set_Devices]. case_bool_decide.
  { intros [= <- <-]. cbn. split_and!; [apply touches_refl|split; cbn; [lia|by exists []]|done|by right; right]. }
  intros [= <- <-]. cbn [u_Devices set_Devices]. pose proof Hok as (Hc & l & Hl & Hn). pose proof (deref_length h (u_Devices u) Hok) as Hd.
  set (p := λ d, negb (bool_decide (d_Hash d = fp))). set (kept := List.filter p (deref h (u_Devices u))).
  assert (Hk : (length kept ≤ sl_len (u_Devices u))%nat) by (rewrite <- Hd; apply length_filter_le).
  split_and!; cbn [sl_arr sl_cap sl_len]; [..|by left].
  - apply touches_alter; [done|]. intros l' Hl'. rewrite length_app, length_drop. lia.
  - split; cbn; [lia|]. exists (kept ++ drop (length kept) l). rewrite lookup_alter_eq, Hl. cbn. split; [done|]. rewrite length_app, length_drop. lia.
  - unfold deref. cbn. rewrite lookup_alter_eq, Hl. cbn. rewrite take_app_length. unfold kept, deref. by rewrite Hl.
Qed.

(** ** Subscriptions *)

Definition plainUsers (a : App) : list plainUser := plain (s_heap (a_Config a)) (Users (s_cfg (a_Config a))).

(** The first user of a name. *)
Definition userNamed {D} (name : bytes) (us : list (User D)) : option (User D) := snd <$> list_find (λ u, u_Name u = name) us.

Lemma userNamed_cons {D} name (u : User D) us : userNamed name (u :: us) = if decide (u_Name u = name) then Some u else userNamed name us.
Proof. unfold userNamed. cbn. case_decide; [done|]. by destruct (list_find _ us) as [[]|]. Qed.

Lemma userNamed_plain name h us : userNamed name (plain h us) = (λ u, set_Devices (deref h (u_Devices u)) u) <$> userNamed name us.
Proof. induction us as [|u us IH]; [done|]. cbn [plain fmap list_fmap]. rewrite !userNamed_cons. cbn [u_Name set_Devices]. case_decide; [done|exact IH]. Qed.

Lemma userNamed_onPlain name name' g us : (∀ u, u_Name (g u) = u_Name u) →
  userNamed name (onPlain name' g us) = (if decide (name = name') then g <$> userNamed name us else userNamed name us).
Proof.
  intros Hg. induction us as [|u us IH]; [by destruct (decide (name = name'))|]. cbn [onPlain]. case_bool_decide as E; rewrite !userNamed_cons, ?Hg.
  - subst name'. destruct (decide (u_Name u = name)) as [->|Hne]; [by rewrite decide_True|]. rewrite decide_False by congruence. done.
  - rewrite IH. destruct (decide (u_Name u = name)) as [<-|Hne]; [by rewrite decide_False by congruence|]. done.
Qed.

Lemma onUser_none name f us h : onUser name f us h = None ↔ userNamed name us = None.
Proof.
  induction us as [|u us IH]; [done|]. cbn [onUser]. rewrite userNamed_cons. case_bool_decide; case_decide; try done.
  - by destruct (f u h).
  - rewrite <- IH. by destruct (onUser name f us h) as [[]|].
Qed.

Lemma noted_props t fp hwid ua ip u ok u' : noted t fp hwid ua ip u = (ok, u') →
  u_Name u' = u_Name u ∧ u_MaxDevices u' = u_MaxDevices u ∧
  (∃ more, d_Hash <$> u_Devices u' = (d_Hash <$> u_Devices u) ++ more) ∧
  (ok = true ↔ fp ∈ d_Hash <$> u_Devices u ∨ u_MaxDevices u ≤ 0 ∨ len (u_Devices u) < u_MaxDevices u) ∧
  (ok = true → fp ∈ d_Hash <$> u_Devices u') ∧
  (0 < u_MaxDevices u → len (u_Devices u) ≤ u_MaxDevices u → len (u_Devices u') ≤ u_MaxDevices u').
Proof.
  unfold noted. destruct (list_find _ _) as [[j d]|] eqn:Ef.
  - apply list_find_Some in Ef as (Hj & Hd & _). intros [= <- <-]. cbn.
    assert (Hh : d_Hash <$> <[j := seenAgain t hwid ua ip d]> (u_Devices u) = d_Hash <$> u_Devices u).
    { rewrite list_fmap_insert. apply list_insert_id. rewrite list_lookup_fmap, Hj. cbn. by rewrite Hd. }
    assert (Hin : fp ∈ d_Hash <$> u_Devices u) by (rewrite <- Hd; apply list_elem_of_fmap_2; by eapply list_elem_of_lookup_2).
    rewrite Hh. split_and!; [done..|exists []; by rewrite app_nil_r|naive_solver|naive_solver|]. unfold len. by rewrite length_insert.
  - apply list_find_None in Ef. assert (Hno : fp ∉ d_Hash <$> u_Devices u).
    { intros (d & -> & Hd)%list_elem_of_fmap. rewrite Forall_forall in Ef. by apply (Ef d Hd). }
    case_if; intros [= <- <-]; cbn.
    + split_and!; [done..|exists []; by rewrite app_nil_r|split; [done|intros [?|?]; [done|lia]]|done|done].
    + rewrite fmap_app. split_and!; [done..|by exists [fp]| |intros _; apply elem_of_app; right; apply list_elem_of_here|].
      * split; [intros _; right; lia|done].
      * intros H0 Hle. rewrite len_app. change (len [_]) with 1. lia.
Qed.

Lemma noted_name t fp hwid ua ip u : u_Name (noted t fp hwid ua ip u).2 = u_Name u.
Proof. destruct (noted t fp hwid ua ip u) as [ok u'] eqn:E. by apply noted_props in E as (? & _). Qed.

(** Recording a device on a sound store, when the disk works. *)
Lemma recordDevice_spec L grow now name fp hwid ua ip a ok a' : store_ok (a_Config a) →
  recordDevice L grow now None name fp hwid ua ip a = (ok, a') →
  store_ok (a_Config a') ∧
  ok = (match userNamed name (plainUsers a) with Some u => (noted (Unix now) fp hwid ua ip u).1 | None => true end) ∧
  plainUsers a' = onPlain name (λ u, (noted (Unix now) fp hwid ua ip u).2) (plainUsers a) ∧
  a' = set_Config (a_Config a') a ∧
  set_Users (Users (s_cfg (a_Config a))) (s_cfg (a_Config a')) = s_cfg (a_Config a).
Proof.
  intros Hok. unfold recordDevice, updateConfig, Update, writeConfig. cbn zeta.
  assert (Hcopy : copyConfig (s_cfg (a_Config a)) = s_cfg (a_Config a)) by (by destruct (s_cfg (a_Config a))). rewrite Hcopy.
  assert (Hallow : deviceAllowed grow (Unix now) name fp hwid ua ip (Users (s_cfg (a_Config a))) (s_heap (a_Config a)) =
    match userNamed name (plainUsers a) with Some u => (noted (Unix now) fp hwid ua ip u).1 | None => true end).
  { unfold plainUsers, deviceAllowed. rewrite userNamed_plain. unfold userNamed.
    destruct (list_find _ (Users (s_cfg (a_Config a)))) as [[j u]|] eqn:E; [|done]. cbn. apply noteDevice_noted.
    apply list_find_Some in E as (Hj & _). exact (Forall_lookup_1 _ _ _ _ (uo_slices _ _ Hok) Hj). }
  destruct (onUser name _ (Users (s_cfg (a_Config a))) (s_heap (a_Config a))) as [[us h']|] eqn:E; intros [= <- <-].
  - destruct (onUser_ok name _ _ _ (local_note grow (Unix now) fp hwid ua ip) _ _ _ Hok E) as (Hok' & Hp & _).
    split_and!; [done..|]. cbn. by destruct (s_cfg (a_Config a)).
  - split_and!; [done|done| |by destruct a as [[] ? ? ? ? ?]|cbn; by destruct (s_cfg (a_Config a))].
    unfold plainUsers at 1. cbn. fold (plainUsers a). apply onUser_none in E.
    assert (Hn : userNamed name (plainUsers a) = None) by (unfold plainUsers; by rewrite userNamed_plain, E).
    clear -Hn. induction (plainUsers a) as [|u us IH]; [done|]. rewrite userNamed_cons in Hn. cbn [onPlain].
    case_decide; [done|]. rewrite bool_decide_eq_false_2 by done. f_equal. by apply IH.
Qed.

(** The user of a token. *)
Definition userOfToken {D} (token : bytes) (us : list (User D)) : option (User D) := snd <$> list_find (λ u, u_SubToken u = token) us.

Lemma userOfToken_cons {D} token (u : User D) us :
  userOfToken token (u :: us) = if decide (u_SubToken u = token) then Some u else userOfToken token us.
Proof. unfold userOfToken. cbn. case_decide; [done|]. by destruct (list_find _ us) as [[]|]. Qed.

Lemma userOfToken_plain token h us : userOfToken token (plain h us) = (λ u, set_Devices (deref h (u_Devices u)) u) <$> userOfToken token us.
Proof. induction us as [|u us IH]; [done|]. cbn [plain fmap list_fmap]. rewrite !userOfToken_cons. cbn [u_SubToken set_Devices]. case_decide; [done|exact IH]. Qed.

Lemma userOfToken_in {D} token (us : list (User D)) u : userOfToken token us = Some u → u ∈ us ∧ u_SubToken u = token.
Proof.
  unfold userOfToken. intros ([j v] & Hf & ->)%fmap_Some. apply list_find_Some in Hf as (Hj & Ht & _). split; [by eapply list_elem_of_lookup_2|done].
Qed.

Lemma named_unique {D} (us : list (User D)) u : NoDup (u_Name <$> us) → u ∈ us → userNamed (u_Name u) us = Some u.
Proof.
  induction us as [|v us IH]; intros Hnd Hin; [by apply elem_of_nil in Hin|]. rewrite userNamed_cons. cbn in Hnd. apply NoDup_cons in Hnd as [Hn Hnd].
  apply elem_of_cons in Hin as [->|Hin]; [by rewrite decide_True|]. rewrite decide_False; [by apply IH|].
  intros E. apply Hn. rewrite E. by apply (list_elem_of_fmap_2 u_Name).
Qed.

(** What a request must satisfy to be served, on the plain users. *)
Definition sub_allowed (unicodeLower : bytes → bytes) (now : Z) (r : subRequest) (a : App) (u : plainUser) : Prop :=
  let cfg := s_cfg (a_Config a) in
  let hwid := TrimSpace (sr_hwid r) in
  sr_method r = GET ∧ TrimSpace (sr_token r) ≠ [] ∧
  (Allow now (TrimSpace (sr_token r) ++ [bar] ++ sr_ip r) (a_SubLimiter a)).1 = true ∧
  userOfToken (TrimSpace (sr_token r)) (plainUsers a) = Some u ∧ expired (Unix now) u = false ∧
  (RequireHWID cfg = true → hwid ≠ []) ∧ uaAllowed unicodeLower (sr_ua r) (AllowedUserAgents cfg) = true ∧
  (deviceFingerprint hwid (sr_ua r) ∈ d_Hash <$> u_Devices u ∨ u_MaxDevices u ≤ 0 ∨ len (u_Devices u) < u_MaxDevices u).

Definition profileOf {D} (cfg : Config slice) (u : User D) : profile :=
  buildSingBoxProfile cfg (set_Devices nilSlice u).

Definition served (out : option panelResponse * App) (p : profile) : Prop := out.1 = Some (mkPanelResp 200 (PProfile p)).

(** What a request leaves behind: a sound store with at most one device list
    changed. *)
Definition sub_result (now : Z) (r : subRequest) (a : App) (out : option panelResponse * App) : Prop :=
  store_ok (a_Config out.2) ∧ set_Users (Users (s_cfg (a_Config a))) (s_cfg (a_Config out.2)) = s_cfg (a_Config a) ∧
  ((plainUsers out.2 = plainUsers a ∧ ∀ p, ¬ served out p) ∨
   ∃ u, userOfToken (TrimSpace (sr_token r)) (plainUsers a) = Some u ∧
     let f := noted (Unix now) (deviceFingerprint (TrimSpace (sr_hwid r)) (sr_ua r)) (TrimSpace (sr_hwid r)) (sr_ua r) (sr_ip r) in
     plainUsers out.2 = onPlain (u_Name u) (λ u, (f u).2) (plainUsers a) ∧
     (∀ p, served out p ↔ (f u).1 = true ∧ p = profileOf (s_cfg (a_Config a)) u)).

Lemma sub_quiet now r a out : store_ok (a_Config a) → a_Config out.2 = a_Config a →
  (∀ p, out.1 ≠ Some (mkPanelResp 200 (PProfile p))) → sub_result now r a out.
Proof.
  intros Hok Hc Hw. unfold sub_result, plainUsers, served. rewrite Hc. split_and!; [done|by destruct (s_cfg (a_Config a))|by left].
Qed.

Lemma sub_effect L lower grow now r a : store_ok (a_Config a) → NoDup (u_Name <$> Users (s_cfg (a_Config a))) →
  let out := HandleSubscription L lower grow now None r a in
  sub_result now r a out ∧ ∀ u, sub_allowed lower now r a u ↔ served out (profileOf (s_cfg (a_Config a)) u) ∧ userOfToken (TrimSpace (sr_token r)) (plainUsers a) = Some u.
Proof.
  intros Hok Hnd. cbn zeta. unfold HandleSubscription, sub_allowed. cbn zeta.
  destruct (bool_decide (sr_method r = GET)) eqn:Hm; cbn [negb]; guards; [|split; [by apply sub_quiet|intros u; split; [by intros [? _]|by intros [? _]]]].
  destruct (bool_decide (TrimSpace (sr_token r) = [])) eqn:Ht; guards; [split; [by apply sub_quiet|intros u; split; [by intros (_ & ? & _)|by intros [? _]]]|].
  destruct (Allow _ _ _) as [ok l]. cbn [fst]. destruct ok; cbn [negb].
  2: { split; [apply sub_quiet; [done|done|by intros p; destruct (_ <? _)]|intros u; split; [by intros (_ & _ & ? & _)|intros [H _]; by destruct (len (TrimSpace (sr_token r)) <? 8)]]. }
  set (a1 := set_SubLimiter l a). change (Snapshot (a_Config a1)) with (copyConfig (s_cfg (a_Config a))).
  assert (Hcopy : copyConfig (s_cfg (a_Config a)) = s_cfg (a_Config a)) by (by destruct (s_cfg (a_Config a))). rewrite Hcopy.
  pose proof (userOfToken_plain (TrimSpace (sr_token r)) (s_heap (a_Config a)) (Users (s_cfg (a_Config a)))) as Htok.
  fold (plainUsers a) in Htok. unfold userOfToken at 2 in Htok.
  destruct (list_find _ (Users (s_cfg (a_Config a)))) as [[j v]|] eqn:Ef; cbn in Htok.
  2: { split; [by apply sub_quiet|]. intros u. rewrite Htok. split; [by intros (_ & _ & _ & ? & _)|by intros [_ ?]]. }
  set (u0 := set_Devices (deref (s_heap (a_Config a)) (u_Devices v)) v) in *.
  change (expired (Unix now) v) with (expired (Unix now) u0). rewrite Htok.
  destruct (expired (Unix now) u0) eqn:He; [split; [by apply sub_quiet|intros u; split; [intros (_ & _ & _ & [= <-] & ? & _); congruence|by intros [? _]]]|].
  destruct (RequireHWID _ && _) eqn:Hh.
  { apply andb_true_iff in Hh as [Hh1 Hh2]. guards. split; [by apply sub_quiet|]. intros u. split; [|by intros [? _]].
    intros (_ & _ & _ & _ & _ & Hq & _). by apply Hq in Hh1. }
  destruct (uaAllowed _ _ _) eqn:Hu; cbn [negb]; [|split; [by apply sub_quiet|intros u; split; [by intros (_ & _ & _ & _ & _ & _ & ? & _)|by intros [? _]]]].
  assert (Hnamed : userNamed (u_Name u0) (plainUsers a) = Some u0).
  { apply named_unique; [|by apply userOfToken_in in Htok as [? _]]. unfold plainUsers, plain. rewrite <- list_fmap_compose. exact Hnd. }
  destruct (recordDevice _ _ _ _ _ _ _ _ _ a1) as [allowed a2] eqn:Er.
  change (u_Name v) with (u_Name u0) in Er.
  destruct (recordDevice_spec L grow now (u_Name u0) _ _ _ _ a1 allowed a2 Hok Er) as (Hok2 & Ha & Hp & Hset & Hcfg).
  change (plainUsers a1) with (plainUsers a) in *. rewrite Hnamed in Ha.
  pose proof (noted_props (Unix now) (deviceFingerprint (TrimSpace (sr_hwid r)) (sr_ua r)) (TrimSpace (sr_hwid r)) (sr_ua r) (sr_ip r) u0) as Hn.
  destruct (noted _ _ _ _ _ u0) as [okn un] eqn:En. specialize (Hn _ _ eq_refl) as (_ & _ & _ & Hiff & _). cbn [fst] in Ha. subst okn.
  assert (Hserved : ∀ p, served ((if negb allowed then (Some (perror 403 "device limit reached for this subscription"), a2)
      else (Some (mkPanelResp 200 (PProfile (buildSingBoxProfile (s_cfg (a_Config a)) v))), a2))) p ↔
      allowed = true ∧ p = profileOf (s_cfg (a_Config a)) u0).
  { intros p. destruct allowed; cbn [negb]; unfold served; cbn; [|by split; [|intros [? _]]].
    change (profileOf (s_cfg (a_Config a)) u0) with (buildSingBoxProfile (s_cfg (a_Config a)) v). split; [by intros [= <-]|by intros [_ ->]]. }
  split.
  - split_and!; [by destruct allowed|by destruct allowed|]. right. exists u0. split; [done|]. cbn zeta. rewrite En. split; [by destruct allowed|]. exact Hserved.
  - intros u. rewrite Hserved. split.
    + intros (_ & _ & _ & [= <-] & _ & _ & _ & H). split; [|done]. split; [by apply Hiff|done].
    + intros [[Hal _] [= <-]]. split_and!; try done; [|by apply Hiff]. intros Hq Hz. by rewrite Hq, bool_decide_eq_true_2 in Hh.
Qed.

(** *** The contract of a subscription *)

(** The user can still use the account at a time in nanoseconds: there is no expiry,
    or the second of the expiry has not passed. *)
Definition notExpired (now : Z) {D} (u : User D) : Prop := 0 < u_ExpiresAt u → now / 1000000000 ≤ u_ExpiresAt u.
#[global] Instance notExpired_dec now {D} (u : User D) : Decision (notExpired now u) := ltac:(unfold notExpired; apply _).

(** The list of clients is empty, or one of its entries that is not blank occurs in
    the name of the client, in any case. *)
Definition permits (unicodeLower : bytes → bytes) (ua : bytes) (allowed : list bytes) : Prop :=
  allowed = [] ∨ ∃ p pre post, p ∈ allowed ∧ TrimSpace p ≠ [] ∧
    ToLower unicodeLower ua = pre ++ ToLower unicodeLower (TrimSpace p) ++ post.

(** A device goes by its hardware id, or else by the name of the client. *)
Definition deviceTag (hwid ua : bytes) : bytes :=
  match TrimSpace hwid, TrimSpace ua with
  | _ :: _, _ => string_bytes "hwid:" ++ TrimSpace hwid
  | [], [] => string_bytes "ua:unknown"
  | [], name => string_bytes "ua:" ++ name
  end.

Record entitled (unicodeLower : bytes → bytes) (now : Z) (r : subRequest) (a : App) (u : plainUser) : Prop := {
  en_method : sr_method r = GET;
  en_token : TrimSpace (sr_token r) ≠ [];
  en_user : list_find (λ u, u_SubToken u = TrimSpace (sr_token r)) (plainUsers a) ≫= (λ x, Some x.2) = Some u;
  en_notExpired : notExpired now u;
  en_rate : (Allow now (TrimSpace (sr_token r) ++ [bar] ++ sr_ip r) (a_SubLimiter a)).1 = true;
  en_hwid : RequireHWID (s_cfg (a_Config a)) = true → TrimSpace (sr_hwid r) ≠ [];
  en_client : permits unicodeLower (sr_ua r) (AllowedUserAgents (s_cfg (a_Config a)));
  en_device : hash16 (deviceTag (TrimSpace (sr_hwid r)) (sr_ua r)) ∈ d_Hash <$> u_Devices u ∨ u_MaxDevices u ≤ 0 ∨ len (u_Devices u) < u_MaxDevices u
}.

(** The profile of a user: the server, the credentials, and how to multiplex. *)
Definition profile_of (c : Config slice) (u : plainUser) (p : profile) : Prop :=
  pf_server p = ServerIP c ∧ pf_port p = DefaultPort c ∧ pf_username p = u_Name u ∧ pf_password p = u_Password u ∧
  (TrimSpace (Multiplexing c) = [] → pf_multiplexing p = string_bytes "MULTIPLEXING_HIGH") ∧
  (TrimSpace (Multiplexing c) ≠ [] → pf_multiplexing p = TrimSpace (Multiplexing c)).

Lemma Contains_infix s sub : Contains s sub = true ↔ ∃ pre post, s = pre ++ sub ++ post.
Proof.
  assert (Htake : ∀ s, take (length sub) s = sub ↔ ∃ post, s = sub ++ post).
  { intros s0. split; [intros E; exists (drop (length sub) s0); by rewrite <- E at 1; rewrite take_drop|intros [post ->]; apply take_app_length]. }
  induction s as [|c s IH]; cbn [Contains]; rewrite orb_true_iff, bool_decide_eq_true, Htake.
  - split; [intros [[post E]|?]; [by exists [], post|done]|]. intros (pre & post & E). left. destruct pre; [by exists post|done].
  - rewrite IH. split.
    + intros [[post E]|(pre & post & ->)]; [by exists [], post|by exists (c :: pre), post].
    + intros ([|c' pre] & post & E); [left; by exists post|]. right. injection E as <- ->. by exists pre, post.
Qed.

Lemma uaAllowed_permits lower ua allowed : uaAllowed lower ua allowed = true ↔ permits lower ua allowed.
Proof.
  unfold uaAllowed, permits. case_bool_decide; [by split; [left|]|]. rewrite existsb_exists. split.
  - intros (p & Hp%list_elem_of_In & [Hne Hc]%andb_true_iff). guards. apply Contains_infix in Hc as (pre & post & E). right. by exists p, pre, post.
  - intros [?|(p & pre & post & Hp & Hne & E)]; [done|]. exists p. split; [by apply list_elem_of_In|]. rewrite bool_decide_eq_false_2 by done.
    apply Contains_infix. by exists pre, post.
Qed.

Lemma deviceTag_hash hwid ua : hash16 (deviceTag hwid ua) = deviceFingerprint hwid ua.
Proof.
  unfold deviceTag, deviceFingerprint. destruct (TrimSpace hwid) as [|c h]; [|by rewrite bool_decide_eq_false_2].
  rewrite bool_decide_eq_true_2 by done. cbn [negb]. destruct (TrimSpace ua) as [|c n]; [|by rewrite bool_decide_eq_false_2].
  rewrite bool_decide_eq_true_2 by done. by f_equal.
Qed.

Lemma notExpired_expired now {D} (u : User D) : notExpired now u ↔ expired (Unix now) u = false.
Proof. unfold notExpired, expired, Unix, Second. rewrite andb_false_iff, Z.ltb_ge, Z.ltb_ge. change (10 ^ 9) with 1000000000. lia. Qed.

(** The users that are sent are those that can still use their account. *)
Lemma mitaUsers_notExpired now c : mitaUsers now c = (λ u, mkMitaUser (u_Name u) (u_Password u)) <$> filter (notExpired now) (Users c).
Proof. unfold mitaUsers. f_equal. apply list_filter_iff. intros u. symmetry. apply notExpired_expired. Qed.

Lemma entitled_allowed lower now r a u : entitled lower now r a u ↔ sub_allowed lower now r a u.
Proof.
  assert (Huser : list_find (λ u, u_SubToken u = TrimSpace (sr_token r)) (plainUsers a) ≫= (λ x, Some x.2) = userOfToken (TrimSpace (sr_token r)) (plainUsers a))
    by (unfold userOfToken; by destruct (list_find _ _) as [[]|]).
  unfold sub_allowed. cbn zeta. rewrite <- Huser, <- notExpired_expired, uaAllowed_permits, <- deviceTag_hash. split.
  - by intros [? ? ? ? ? ? ? ?].
  - by intros (? & ? & ? & ? & ? & ? & ? & ?).
Qed.

Lemma profile_of_is c u p : profile_of c u p ↔ p = profileOf c u.
Proof.
  unfold profile_of, profileOf, buildSingBoxProfile. cbn [u_Name u_Password set_Devices]. split.
  - intros (H1 & H2 & H3 & H4 & H5 & H6). destruct p. cbn in *. case_bool_decide; [rewrite H5 by done|rewrite H6 by done]; congruence.
  - intros ->. cbn. case_bool_decide; by split_and!.
Qed.

(** C21: a subscription is served exactly to requests with the token of a user who
    has not expired, which the rate limiter of the token and the address admits,
    with a hardware id where one is required, from an allowed client, and from a
    device that is known or for which the user has room; what is served has the
    address and the port of the server and the name and the password of that
    user.  The store is sound and the names of its users are different. *)
Theorem subscription_exact L lower grow now r a : store_ok (a_Config a) → NoDup (u_Name <$> Users (s_cfg (a_Config a))) →
  let out := HandleSubscription L lower grow now None r a in
  (∀ u, entitled lower now r a u → ∃ p, served out p ∧ profile_of (s_cfg (a_Config a)) u p) ∧
  (∀ p, served out p → ∃ u, entitled lower now r a u ∧ profile_of (s_cfg (a_Config a)) u p).
Proof.
  intros Hok Hnd. cbn zeta. destruct (sub_effect L lower grow now r a Hok Hnd) as [(_ & _ & Hres) Hall]. split.
  - intros u Hu%entitled_allowed. exists (profileOf (s_cfg (a_Config a)) u). split; [by apply Hall in Hu as [? _]|by apply profile_of_is].
  - intros p Hp. destruct Hres as [[_ Hno]|(u & Htok & _ & Hs)]; [by apply Hno in Hp|].
    pose proof Hp as Hp'. apply Hs in Hp as [_ ->]. exists u. split; [|by apply profile_of_is]. apply entitled_allowed. by apply Hall.
Qed.

(** The fingerprints that were served, with the name of the user, in a sequence of
    requests. *)
Fixpoint servedDevices (L : libs) (lower : bytes → bytes) (grow : nat → nat) (rs : list (Z * subRequest)) (a : App) : list (bytes * bytes) * App :=
  match rs with
  | [] => ([], a)
  | (now, r) :: rs =>
      let '(w, a) := HandleSubscription L lower grow now None r a in
      let '(ds, a) := servedDevices L lower grow rs a in
      (match w with
       | Some (mkPanelResp 200 (PProfile p)) => [(pf_username p, deviceFingerprint (TrimSpace (sr_hwid r)) (sr_ua r))]
       | _ => []
       end ++ ds, a)
  end.

(** One request keeps the limit of a user and every recorded device. *)
Lemma sub_step L lower grow now r a name u : store_ok (a_Config a) → NoDup (u_Name <$> Users (s_cfg (a_Config a))) →
  userNamed name (plainUsers a) = Some u → 0 < u_MaxDevices u → len (u_Devices u) ≤ u_MaxDevices u →
  let out := HandleSubscription L lower grow now None r a in
  store_ok (a_Config out.2) ∧ NoDup (u_Name <$> Users (s_cfg (a_Config out.2))) ∧
  ∃ u', userNamed name (plainUsers out.2) = Some u' ∧ u_MaxDevices u' = u_MaxDevices u ∧ len (u_Devices u') ≤ u_MaxDevices u ∧
    (∀ fp, fp ∈ d_Hash <$> u_Devices u → fp ∈ d_Hash <$> u_Devices u') ∧
    (∀ p, served out p → pf_username p = name → deviceFingerprint (TrimSpace (sr_hwid r)) (sr_ua r) ∈ d_Hash <$> u_Devices u').
Proof.
  intros Hok Hnd Hn H0 Hle. cbn zeta. destruct (sub_effect L lower grow now r a Hok Hnd) as [(Hok' & Hcfg & Hres) _].
  set (out := HandleSubscription L lower grow now None r a) in *. split; [done|].
  assert (Hnames : ∀ a' : App, u_Name <$> Users (s_cfg (a_Config a')) = u_Name <$> plainUsers a') by (intros a'; unfold plainUsers, plain; by rewrite <- list_fmap_compose).
  rewrite Hnames in *. destruct Hres as [[Hp Hno]|(v & Htok & Hp & Hs)]; rewrite Hp.
  { split; [done|]. exists u. split_and!; try done. intros p Hsv. by apply Hno in Hsv. }
  set (f := noted (Unix now) _ _ _ _) in *. assert (Hfn : ∀ w, u_Name (f w).2 = u_Name w) by (intros w; apply noted_name). split.
  { replace (u_Name <$> onPlain _ _ _) with (u_Name <$> plainUsers a); [done|]. clear -Hfn. induction (plainUsers a) as [|w us IH]; [done|].
    cbn [onPlain]. case_bool_decide; cbn; [by rewrite Hfn|]. by f_equal. }
  rewrite userNamed_onPlain by done. rewrite Hn. destruct (decide (name = u_Name v)) as [->|Hne].
  - exists (f u).2. split; [done|].
    assert (v = u) as ->.
    { apply userOfToken_in in Htok as [Hin _]. rewrite (named_unique (plainUsers a) v) in Hn by done. congruence. }
    destruct (f u) as [ok u'] eqn:Ef. destruct (noted_props _ _ _ _ _ _ _ _ Ef) as (_ & Hm & [more Hh] & _ & Hok1 & Hl). cbn [snd fst] in *.
    split_and!; [done|by rewrite <- Hm; apply Hl|intros fp Hin; rewrite Hh; apply elem_of_app; by left|].
    intros p [Hok2 _]%Hs _. by apply Hok1.
  - exists u. split_and!; try done. intros p [_ ->]%Hs Hpn. cbn in Hpn. congruence.
Qed.

Lemma served_run L lower grow rs : ∀ a name u, store_ok (a_Config a) → NoDup (u_Name <$> Users (s_cfg (a_Config a))) →
  userNamed name (plainUsers a) = Some u → 0 < u_MaxDevices u → len (u_Devices u) ≤ u_MaxDevices u →
  let '(ds, a') := servedDevices L lower grow rs a in
  ∃ u', userNamed name (plainUsers a') = Some u' ∧ u_MaxDevices u' = u_MaxDevices u ∧ len (u_Devices u') ≤ u_MaxDevices u ∧
    (∀ fp, fp ∈ d_Hash <$> u_Devices u → fp ∈ d_Hash <$> u_Devices u') ∧ (∀ fp, (name, fp) ∈ ds → fp ∈ d_Hash <$> u_Devices u').
Proof.
  induction rs as [|[now r] rs IH]; intros a name u Hok Hnd Hn H0 Hle; cbn [servedDevices].
  { exists u. split_and!; try done. intros fp Hin. by apply elem_of_nil in Hin. }
  destruct (sub_step L lower grow now r a name u Hok Hnd Hn H0 Hle) as (Hok1 & Hnd1 & u1 & Hn1 & Hm1 & Hl1 & Hk1 & Hs1).
  destruct (HandleSubscription L lower grow now None r a) as [w a1]. cbn [snd] in *.
  specialize (IH a1 name u1 Hok1 Hnd1 Hn1 ltac:(lia) ltac:(lia)). destruct (servedDevices L lower grow rs a1) as [ds a2].
  destruct IH as (u2 & Hn2 & Hm2 & Hl2 & Hk2 & Hs2). exists u2. split_and!; [done|lia|lia|auto|].
  intros fp [Hin|Hin]%elem_of_app; [|by apply Hs2]. apply Hk2. repeat case_match; try (by apply elem_of_nil in Hin).
  apply list_elem_of_singleton in Hin. injection Hin as -> ->. eapply Hs1; reflexivity.
Qed.

(** the device limit holds.  In any sequence of subscription requests, a user
    with a limit is served on at most that many different devices, counting those
    recorded before. *)
Theorem device_limit L lower grow rs a name u fps : store_ok (a_Config a) → NoDup (u_Name <$> Users (s_cfg (a_Config a))) →
  userNamed name (plainUsers a) = Some u → 0 < u_MaxDevices u → len (u_Devices u) ≤ u_MaxDevices u →
  NoDup fps → (∀ fp, fp ∈ fps → fp ∈ d_Hash <$> u_Devices u ∨ (name, fp) ∈ (servedDevices L lower grow rs a).1) →
  len fps ≤ u_MaxDevices u.
Proof.
  intros Hok Hnd Hn H0 Hle Hdist Hin. pose proof (served_run L lower grow rs a name u Hok Hnd Hn H0 Hle) as Hrun.
  destruct (servedDevices L lower grow rs a) as [ds a']. destruct Hrun as (u' & _ & Hm & Hl & Hk & Hs). cbn [fst] in Hin.
  etrans; [|exact Hl]. unfold len. apply inj_le. rewrite <- (length_fmap d_Hash (u_Devices u')). apply submseteq_length, NoDup_submseteq; [done|].
  intros fp Hfp. destruct (Hin fp Hfp); auto.
Qed.

(** ** Witnesses *)

Definition demoUser (name password token : string) (maxDevices : Z) : plainUser :=
  PanelConfig.mkUser (string_bytes name) (string_bytes password) (string_bytes token) (mkQuotas 0 0) 0 maxDevices [].
Definition demoUsers : list plainUser := [demoUser "ann" "pw1" "0123456789abcdef" 1; demoUser "bob" "pw2" "fedcba9876543210" 0].
Definition demoPanel : App :=
  let '(c, h) := allocConfig (set_Users demoUsers demoConfig) {[0%nat := []]} in set_Config (mkStore h c None) (demoApp Missing).
Definition demoSub (ua : string) : subRequest :=
  mkSub GET (string_bytes "0123456789abcdef") (string_bytes "10.0.0.9") (string_bytes ua) [].
Definition demoGrow (n : nat) : nat := (2 * n)%nat.

Lemma demo_panel_ok : store_ok (a_Config demoPanel) ∧ NoDup (u_Name <$> Users (s_cfg (a_Config demoPanel))).
Proof.
  unfold demoPanel. destruct (allocConfig (set_Users demoUsers demoConfig) {[0%nat := []]}) as [c h] eqn:E.
  pose proof (allocConfig_spec _ _ _ _ (lookup_singleton_eq _ _) E) as (_ & Hr & Hok). split; [exact Hok|]. cbn.
  replace (u_Name <$> Users c) with (u_Name <$> demoUsers); [by apply (bool_decide_unpack _)|].
  change demoUsers with (Users (set_Users demoUsers demoConfig)). rewrite <- Hr. unfold resolve. cbn. by rewrite <- list_fmap_compose.
Qed.

Lemma subscription_exact_witness : ∃ p,
  served (HandleSubscription demoLibs id demoGrow demoNow None (demoSub "phone") demoPanel) p ∧
  pf_username p = string_bytes "ann" ∧ pf_password p = string_bytes "pw1".
Proof.
  destruct (proj1 (subscription_exact demoLibs id demoGrow demoNow (demoSub "phone") demoPanel (proj1 demo_panel_ok) (proj2 demo_panel_ok)) (demoUser "ann" "pw1" "0123456789abcdef" 1))
    as (p & Hp & _ & _ & Hn & Hw & _).
  - split; try reflexivity; try discriminate; [left; reflexivity|right; right; reflexivity].
  - exists p. split; [exact Hp|]. split; [exact Hn|exact Hw].
Defined.

(** The second device of ann is refused. *)
Definition demoRequests : list (Z * subRequest) := [(demoNow, demoSub "phone"); (demoNow + Second, demoSub "tablet"); (demoNow + 2 * Second, demoSub "phone")].
Lemma demo_served : (servedDevices demoLibs id demoGrow demoRequests demoPanel).1 =
  replicate 2 (string_bytes "ann", deviceFingerprint [] (string_bytes "phone")).
Proof. vm_compute. reflexivity. Qed.

Lemma device_limit_witness : len [deviceFingerprint [] (string_bytes "phone")] ≤ 1.
Proof.
  apply (device_limit demoLibs id demoGrow demoRequests demoPanel (string_bytes "ann") (demoUser "ann" "pw1" "0123456789abcdef" 1)).
  - exact (proj1 demo_panel_ok).
  - exact (proj2 demo_panel_ok).
  - vm_compute. reflexivity.
  - reflexivity.
  - apply Z.leb_le. reflexivity.
  - apply NoDup_singleton.
  - intros fp ->%list_elem_of_singleton. right. rewrite demo_served. apply list_elem_of_here.
Defined.

End PanelUsers.
Export PanelUsers.
