(* ===== verification/PanelSettings.v ===== *)
(** * Settings and life of the web panel: mieru-panel/handlers/security.go,
    backup.go, advanced.go, server_config.go, stats.go, users.go (routing),
    mieru-panel/main.go

    The handlers of the settings, the restoring of a backup, starting and
    stopping the proxy, the start of the panel, and the properties that hold
    through all of them. *)

From S2P Require Import Prelude Cipher Net ConfigServer PanelText PanelConfig PanelAuth PanelUsers.
From Stdlib Require Import ZifyBool.
Local Open Scope Z_scope.

Module PanelSettings.

(** ** Settings *)

Definition set_security (agents : list bytes) (hwid : bool) (c : Config slice) : Config slice :=
  mkConfig (AdminUsername c) (AdminPasswordHash c) (ServerIP c) (ServerPortRange c) (DefaultPort c) (PanelPort c) (BindAddr c)
    (SessionSecret c) (Users c) (LoggingLevel c) (MTU c) (Multiplexing c) agents hwid.
Definition set_server (ip range : bytes) (port : Z) (c : Config slice) : Config slice :=
  mkConfig (AdminUsername c) (AdminPasswordHash c) ip range port (PanelPort c) (BindAddr c)
    (SessionSecret c) (Users c) (LoggingLevel c) (MTU c) (Multiplexing c) (AllowedUserAgents c) (RequireHWID c).
Definition set_advanced (level mux : bytes) (mtu : Z) (c : Config slice) : Config slice :=
  mkConfig (AdminUsername c) (AdminPasswordHash c) (ServerIP c) (ServerPortRange c) (DefaultPort c) (PanelPort c) (BindAddr c)
    (SessionSecret c) (Users c) level mtu mux (AllowedUserAgents c) (RequireHWID c).

Section Settings.
Context {M : Type} `{MitaClient M} (L : libs) (unicodeLower : bytes → bytes).

(** The entries without spaces and without repetitions up to case. *)
Fixpoint cleanAgents (seen : list bytes) (l : list bytes) : list bytes :=
  match l with
  | [] => []
  | p :: l =>
      let s := TrimSpace p in
      if bool_decide (s = []) then cleanAgents seen l
      else
        let key := ToLower unicodeLower s in
        if bool_decide (key ∈ seen) then cleanAgents seen l else s :: cleanAgents (key :: seen) l
  end.

Definition DefaultAllowedUserAgents : list bytes :=
  string_bytes <$> ["Karing"; "sing-box"; "mihomo"; "ClashMeta"; "clash-verge"; "NekoBox"; "HiddifyNext"; "v2ray"; "FLClash"].

Definition HandleSubscriptionSecurity (disk : option (option bytes)) (method : method) (body : option (list bytes * bool)) (a : App) : panelResponse * App :=
  match method with
  | GET => let cfg := Snapshot (a_Config a) in (mkPanelResp 200 (PSecurity (AllowedUserAgents cfg) (RequireHWID cfg) DefaultAllowedUserAgents), a)
  | PUT | POST =>
      match body with
      | None => (perror 400 "invalid json", a)
      | Some (agents, hwid) =>
          match updateConfig L disk (λ cfg h, (Ret (set_security (cleanAgents [] agents) hwid cfg), h)) a with
          | (Ret _, a) => (pok, a)
          | (_, a) => (perror 500 "write config", a)
          end
      end
  | _ => (perror 405 "method not allowed", a)
  end.

(** After a change of settings a failed push is only a warning. *)
Definition pushedOrWarn (now : Z) (a : App) (m : M) : panelResponse * App * M :=
  let '(r, m) := syncMitaUsers now a m in ((if is_ret r then pok else mkPanelResp 200 PWarning), a, m).

(** One to five digits, a hyphen, one to five digits. *)
Definition portRangeOk (s : bytes) : bool :=
  match Split 45 s with
  | [x; y] =>
      forallb is_digit x && (1 <=? len x) && (len x <=? 5) && forallb is_digit y && (1 <=? len y) && (len y <=? 5)
  | _ => false
  end.

Record serverConfigPayload := mkServerPayload { sp_ServerIP : bytes; sp_DefaultPort : Z; sp_ServerPortRange : bytes }.

Definition HandleServerConfig (now : Z) (disk : option (option bytes)) (method : method) (body : option serverConfigPayload) (a : App) (m : M)
    : panelResponse * App * M :=
  match method with
  | GET => let cfg := Snapshot (a_Config a) in (mkPanelResp 200 (PServer (ServerIP cfg) (DefaultPort cfg) (ServerPortRange cfg)), a, m)
  | PUT | POST =>
      match body with
      | None => (perror 400 "invalid json", a, m)
      | Some req =>
          let ip := TrimSpace (sp_ServerIP req) in
          let range := TrimSpace (sp_ServerPortRange req) in
          if bool_decide (ip = []) then (perror 400 "serverIP is required", a, m)
          else if (sp_DefaultPort req <=? 0) || (65535 <? sp_DefaultPort req) then (perror 400 "defaultPort must be in 1..65535", a, m)
          else if negb (portRangeOk range) then (perror 400 "serverPortRange must be like 2012-2022", a, m)
          else
            match updateConfig L disk (λ cfg h, (Ret (set_server ip range (sp_DefaultPort req) cfg), h)) a with
            | (Ret _, a) => pushedOrWarn now a m
            | (_, a) => (perror 500 "write config", a, m)
            end
      end
  | _ => (perror 405 "method not allowed", a, m)
  end.

Definition allowedLogLevels : list bytes := string_bytes <$> ["DEBUG"; "INFO"; "WARN"; "ERROR"].
Definition allowedMultiplexing : list bytes :=
  string_bytes <$> ["MULTIPLEXING_OFF"; "MULTIPLEXING_LOW"; "MULTIPLEXING_MIDDLE"; "MULTIPLEXING_HIGH"].

Record advancedPayload := mkAdvancedPayload { ap_LoggingLevel : bytes; ap_MTU : Z; ap_Multiplexing : bytes }.

Definition HandleAdvancedSettings (now : Z) (disk : option (option bytes)) (method : method) (body : option advancedPayload) (a : App) (m : M)
    : panelResponse * App * M :=
  match method with
  | GET => let cfg := Snapshot (a_Config a) in (mkPanelResp 200 (PAdvanced (LoggingLevel cfg) (MTU cfg) (Multiplexing cfg)), a, m)
  | PUT | POST =>
      match body with
      | None => (perror 400 "invalid json", a, m)
      | Some req =>
          let level := ToUpper (unicodeUpper L) (TrimSpace (ap_LoggingLevel req)) in
          let mux := ToUpper (unicodeUpper L) (TrimSpace (ap_Multiplexing req)) in
          if negb (bool_decide (level ∈ allowedLogLevels)) then (perror 400 "loggingLevel must be one of DEBUG/INFO/WARN/ERROR", a, m)
          else if (ap_MTU req <? 1280) || (1500 <? ap_MTU req) then (perror 400 "mtu must be in 1280..1500", a, m)
          else if negb (bool_decide (mux ∈ allowedMultiplexing)) then (perror 400 "multiplexing must be one of MULTIPLEXING_OFF/LOW/MIDDLE/HIGH", a, m)
          else
            match updateConfig L disk (λ cfg h, (Ret (set_advanced level mux (ap_MTU req) cfg), h)) a with
            | (Ret _, a) => pushedOrWarn now a m
            | (_, a) => (perror 500 "write config", a, m)
            end
      end
  | _ => (perror 405 "method not allowed", a, m)
  end.

(** ** Backup *)

Definition keepIfBlank (s current : bytes) : bytes := if bool_decide (TrimSpace s = []) then current else s.

(** What a restored configuration keeps of the current one. *)
Definition restored {D E} (current : Config E) (incoming : Config D) : Config D :=
  mkConfig (keepIfBlank (AdminUsername incoming) (AdminUsername current))
    (keepIfBlank (AdminPasswordHash incoming) (AdminPasswordHash current))
    (ServerIP incoming) (ServerPortRange incoming) (DefaultPort incoming) (PanelPort current) (BindAddr current)
    (keepIfBlank (SessionSecret incoming) (SessionSecret current))
    (Users incoming) (LoggingLevel incoming) (MTU incoming) (Multiplexing incoming) (AllowedUserAgents incoming) (RequireHWID incoming).

(** The decoded configuration has arrays of its own. *)
Definition HandleConfigRestore (now : Z) (disk : option (option bytes)) (method : method)
    (body : option (Config (list DeviceFingerprint))) (a : App) (m : M) : panelResponse * App * M :=
  if negb (bool_decide (method = POST)) && negb (bool_decide (method = PUT)) then (perror 405 "method not allowed", a, m)
  else
    match body with
    | None => (perror 400 "invalid json", a, m)
    | Some incoming =>
        let current := Snapshot (a_Config a) in
        match updateConfig L disk (λ _ h, let '(c, h) := allocConfig (restored current incoming) h in (Ret c, h)) a with
        | (Ret _, a) => pushedOrWarn now a m
        | (_, a) => (perror 500 "write config", a, m)
        end
    end.

(** What [HandleConfigBackup] sends. *)
Definition backupOf (a : App) : Config (list DeviceFingerprint) := resolve (s_heap (a_Config a)) (Snapshot (a_Config a)).

(** ** Starting and stopping the proxy (stats.go, server_config.go) *)

Definition HandleStart (now : Z) (method : method) (a : App) (m : M) : panelResponse * M :=
  if negb (bool_decide (method = POST)) then (perror 405 "method not allowed", m)
  else
    let cfg := Snapshot (a_Config a) in
    if bool_decide (TrimSpace (ServerPortRange cfg) = [])
    then (perror 400 "server port range is not configured; open Server tab and set it", m)
    else if bool_decide (length (Users cfg) = 0%nat) then (perror 400 "create at least one user before starting mita", m)
    else if match GetStatus m with Ret s => isRun L s | _ => false end then (mkPanelResp 200 PAlreadyRunning, m)
    else
      match syncMitaUsers now a m with
      | (Ret _, m) => let '(r, m) := StartProxy m in ((if is_ret r then pok else perror 502 "mita"), m)
      | (_, m) => (perror 502 "mita", m)
      end.

Definition HandleStop (method : method) (m : M) : panelResponse * M :=
  if negb (bool_decide (method = POST)) then (perror 405 "method not allowed", m)
  else let '(r, m) := StopProxy m in ((if is_ret r then pok else perror 502 "mita"), m).

Definition BootstrapMita (now : Z) (a : App) (m : M) : outcome unit * M :=
  let cfg := Snapshot (a_Config a) in
  match EnsurePortBindings (TrimSpace (ServerPortRange cfg)) (options cfg) m with
  | (Ret _, m) =>
      if (0 <? length (Users cfg))%nat then
        match syncMitaUsers now a m with
        | (Ret _, m) => (Ret tt, m)
        | (_, m) => (Err (Errorf "sync users: %w"), m)
        end
      else (Ret tt, m)
  | (_, m) => (Err (Errorf "ensure port bindings: %w"), m)
  end.

(** Attempts, each with its time and with what the server does after it when it
    failed; [true] when one succeeded. *)
Fixpoint bootstrapAttempts (attempts : list (Z * (M → M))) (a : App) (m : M) : bool * M :=
  match attempts with
  | [] => (false, m)
  | (now, meanwhile) :: attempts =>
      match BootstrapMita now a m with
      | (Ret _, m) => (true, m)
      | (_, m) => bootstrapAttempts attempts a (meanwhile m)
      end
  end.
Definition bootstrapMitaLoop (attempts : list (Z * (M → M))) : App → M → bool * M := bootstrapAttempts (take 30 attempts).

(** ** The start of the panel (main.go) *)

Record env := mkEnv { env_AdminUser : bytes; env_AdminPass : bytes; env_ServerIP : bytes; env_DefaultPort : bytes; env_PortRange : bytes }.

(** A variable that is set and differs replaces the setting. *)
Definition override (v current : bytes) : bytes := if negb (bool_decide (v = [])) && negb (bool_decide (current = v)) then v else current.

Definition applyEnvOverrides (disk : option (option bytes)) (salt : bytes) (e : env) (s : Store) : outcome unit * Store :=
  let port c := match Atoi (TrimSpace (env_DefaultPort e)) with
                | Ret n => if (0 <? n) && (n <? 65536) then n else DefaultPort c
                | _ => DefaultPort c
                end in
  match (if bool_decide (env_AdminPass e = []) then Ret None
         else let! h := bcryptGenerate L salt (env_AdminPass e) in Ret (Some h)) with
  | Ret hashedPass =>
      Update (marshalConfig L) disk (λ c h,
        (Ret (mkConfig (override (TrimSpace (env_AdminUser e)) (AdminUsername c)) (default (AdminPasswordHash c) hashedPass)
           (override (TrimSpace (env_ServerIP e)) (ServerIP c)) (override (TrimSpace (env_PortRange e)) (ServerPortRange c))
           (if bool_decide (TrimSpace (env_DefaultPort e) = []) then DefaultPort c else port c)
           (PanelPort c) (BindAddr c) (SessionSecret c) (Users c) (LoggingLevel c) (MTU c) (Multiplexing c)
           (AllowedUserAgents c) (RequireHWID c)), h)) s
  | Err e => (Err e, s)
  | Panic p => (Panic p, s)
  end.

(** The path after /api/users/, without slashes at its ends, in its parts. *)
Fixpoint trimLeftByte (c : Z) (s : bytes) : bytes := match s with x :: s' => if x =? c then trimLeftByte c s' else s | [] => [] end.
Definition trimByte (c : Z) (s : bytes) : bytes := rev (trimLeftByte c (rev (trimLeftByte c s))).
Definition TrimPrefix (s p : bytes) : bytes := default s (stripPrefix p s).

Inductive userRoute :=
| RDelete (name : bytes)
| RUpdate (name : bytes)
| RRegenerate (name : bytes)
| RConfig (name : bytes)
| RResetAll (name : bytes)
| RResetOne (name fp : bytes)
| RNotFound
| RNotAllowed.

Definition HandleUserActions (method : method) (path : bytes) : userRoute :=
  match Split 47 (trimByte 47 (TrimPrefix path (string_bytes "/api/users/"))) with
  | name :: rest =>
      if bool_decide (name = []) then RNotFound
      else
        match rest, method with
        | [], DELETE => RDelete name
        | [], PATCH | [], PUT => RUpdate name
        | [x], POST => if bool_decide (x = string_bytes "regenerate") then RRegenerate name else RNotAllowed
        | [x], GET => if bool_decide (x = string_bytes "config") then RConfig name else RNotAllowed
        | [x], DELETE => if bool_decide (x = string_bytes "devices") then RResetAll name else RNotAllowed
        | [x; fp], DELETE => if bool_decide (x = string_bytes "devices") then RResetOne name fp else RNotAllowed
        | _, _ => RNotAllowed
        end
  | [] => RNotFound
  end.
End Settings.

(** * Properties *)

(** ** Through any sequence of requests *)

Notation names us := (u_Name <$> us).

(** Sound device lists and different names. *)
Definition panel_ok (s : Store) : Prop := store_ok s ∧ NoDup (names (Users (s_cfg s))).

(** A change of the configuration that keeps both, and leaves the old
    configuration sound in the new heap, as it must when it is not written. *)
Definition keeps_ok (f : Config slice → heap → outcome (Config slice) * heap) : Prop :=
  ∀ c h r h', users_ok h (Users c) → NoDup (names (Users c)) → f c h = (r, h') →
  users_ok h' (Users c) ∧ match r with Ret next => users_ok h' (Users next) ∧ NoDup (names (Users next)) | _ => True end.

Lemma updateConfig_ok L disk f a : keeps_ok f → panel_ok (a_Config a) → panel_ok (a_Config (updateConfig L disk f a).2).
Proof.
  intros Hf [Hok Hnd]. unfold updateConfig, Update, writeConfig.
  assert (Hcopy : copyConfig (s_cfg (a_Config a)) = s_cfg (a_Config a)) by (by destruct (s_cfg (a_Config a))). rewrite Hcopy.
  destruct (f (s_cfg (a_Config a)) (s_heap (a_Config a))) as [r h'] eqn:E. destruct (Hf _ _ _ _ Hok Hnd E) as [Hold Hnew].
  destruct r as [next|e|p]; [destruct disk|..]; cbn; try (by split). exact Hnew.
Qed.

Lemma users_ok_touched h s h' us : touches h s h' → users_ok h us → users_ok h' us.
Proof.
  intros Ht [Hok Hnd H0]. split; [|done|].
  - eapply Forall_impl; [exact Hok|]. intros u (Hc & l & Hl & Hn). split; [done|]. destruct (Ht _ _ Hl) as [_ (l' & Hl' & Hlen)]. exists l'. split; [done|lia].
  - destruct (Ht _ _ H0) as [_ (l' & Hl' & Hlen)]. by apply nil_length_inv in Hlen as ->.
Qed.

Lemma onUser_names name f us : (∀ u h, u_Name (f u h).1 = u_Name u) → ∀ h us' h', onUser name f us h = Some (us', h') → names us' = names us.
Proof.
  intros Hf. induction us as [|u us IH]; intros h us' h' E; [done|]. cbn in E. case_bool_decide.
  - pose proof (Hf u h) as Hn. destruct (f u h) as [u' h1]. injection E as <- <-. cbn in *. by rewrite Hn.
  - destruct (onUser name f us h) as [[us1 h1]|] eqn:E1; [|done]. injection E as <- <-. cbn. f_equal. by eapply IH.
Qed.

Lemma change_keeps name f g : local_change f g → (∀ u h, u_Name (f u h).1 = u_Name u) → keeps_ok (changeUser name f).
Proof.
  intros Hl Hn c h r h' Hok Hnd. unfold changeUser. destruct (onUser name f (Users c) h) as [[us h1]|] eqn:E; intros [= <- <-]; [|done].
  destruct (onUser_ok name f g (Users c) Hl h us h1 Hok E) as (Hok' & _ & (u & _ & Ht) & _). split; [by eapply users_ok_touched|].
  cbn. split; [done|]. by rewrite (onUser_names name f _ Hn _ _ _ E).
Qed.

Lemma filter_keeps (P : User slice → Prop) `{!∀ u, Decision (P u)} h us : users_ok h us → NoDup (names us) →
  users_ok h (filter P us) ∧ NoDup (names (filter P us)).
Proof.
  intros [Hok Hnd H0] Hn. pose proof (sublist_filter P us) as Hsub. split; [split; [|eapply sublist_NoDup; [exact Hnd|]|done]|].
  - apply Forall_forall. intros u [_ Hu]%list_elem_of_filter. rewrite Forall_forall in Hok. auto.
  - unfold arrays. apply fmap_sublist. clear -Hsub. induction us as [|u us IH]; [constructor|]. rewrite !filter_cons.
    destruct (decide (P u)); repeat case_decide; rewrite ?filter_cons; repeat case_decide; try done;
      first [apply sublist_skip | apply sublist_cons | idtac]; apply IH; apply sublist_filter.
  - eapply sublist_NoDup; [exact Hn|]. by apply fmap_sublist.
Qed.

Lemma pure_keeps (f : Config slice → Config slice) : (∀ c, Users (f c) = Users c) → keeps_ok (λ c h, (Ret (f c), h)).
Proof. intros Hf c h r h' Hok Hnd [= <- <-]. by rewrite Hf. Qed.

Lemma add_keeps req token : keeps_ok (addUser req token).
Proof.
  intros c h r h' [Hok Hnd H0] Hn. unfold addUser. destruct (existsb _ _) eqn:E; intros [= <- <-]; [by split|]. cbn. split; [by split|]. split; [split; [| |done]|].
  - apply Forall_app_2; [done|]. constructor; [|done]. split; cbn; [lia|by exists []].
  - unfold arrays. rewrite filter_app, fmap_app. rewrite app_nil_r. exact Hnd.
  - rewrite fmap_app. apply NoDup_app. split_and!; [done| |by apply NoDup_singleton]. intros x Hx [= ->]%list_elem_of_singleton.
    apply list_elem_of_fmap in Hx as (u & Hu & Hin). apply not_true_iff_false in E. apply E, existsb_exists. exists u.
    split; [by apply list_elem_of_In|]. by apply bool_decide_eq_true.
Qed.

Lemma restore_keeps c0 : NoDup (names (Users c0)) → keeps_ok (λ _ h, let '(c, h) := allocConfig c0 h in (Ret c, h)).
Proof.
  intros Hn c h r h' [Hok Hnd H0] _. destruct (allocConfig c0 h) as [c1 h1] eqn:E. intros [= <- <-].
  destruct (allocConfig_spec c0 h c1 h1 H0 E) as (Hs & Hr & Hok1). split.
  - split; [|done|by eapply lookup_weaken]. eapply Forall_impl; [exact Hok|]. intros u Hu. by eapply slice_ok_extend.
  - split; [done|]. rewrite <- Hr in Hn. unfold resolve in Hn. cbn in Hn. rewrite <- list_fmap_compose in Hn. exact Hn.
Qed.

(** A request to a handler that changes the configuration. *)
Inductive panelOp :=
| OCreate (now : Z) (disk : option (option bytes)) (rnd : outcome bytes) (body : option createBody)
| OUpdate (now : Z) (disk : option (option bytes)) (body : option updateBody) (name : bytes)
| ODelete (now : Z) (disk : option (option bytes)) (name : bytes)
| OBulk (now : Z) (disk : option (option bytes)) (method : method) (body : option (list bytes))
| ORegenerate (now : Z) (disk : option (option bytes)) (rnd : outcome bytes) (name : bytes)
| OReset (disk : option (option bytes)) (name fp : bytes)
| OSubscribe (now : Z) (disk : option (option bytes)) (r : subRequest)
| OSecurity (disk : option (option bytes)) (method : method) (body : option (list bytes * bool))
| OServer (now : Z) (disk : option (option bytes)) (method : method) (body : option serverConfigPayload)
| OAdvanced (now : Z) (disk : option (option bytes)) (method : method) (body : option advancedPayload)
| ORestore (now : Z) (disk : option (option bytes)) (method : method) (body : option (Config (list DeviceFingerprint)))
| OCredentials (disk : option (option bytes)) (salt : bytes) (r : request credentialsBody).

Section Steps.
Context {M : Type} `{MitaClient M} (L : libs) (lower : bytes → bytes) (grow : nat → nat).

(** The status of the response, and the states. *)
Definition panelStep (o : panelOp) (a : App) (m : M) : Z * App * M :=
  let st (x : panelResponse * App * M) := let '(r, a, m) := x in (pr_status r, a, m) in
  match o with
  | OCreate now disk rnd body => st (createUser L now disk rnd body a m)
  | OUpdate now disk body name => st (updateUser L now disk body name a m)
  | ODelete now disk name => st (deleteUser L now disk name a m)
  | OBulk now disk meth body => st (HandleUsersBulk L now disk meth body a m)
  | ORegenerate now disk rnd name => st (regeneratePassword L now disk rnd name a m)
  | OReset disk name fp => let '(r, a) := resetDevices L disk name fp a in (pr_status r, a, m)
  | OSubscribe now disk r => let '(w, a) := HandleSubscription L lower grow now disk r a in (default 0 (pr_status <$> w), a, m)
  | OSecurity disk meth body => let '(r, a) := HandleSubscriptionSecurity L lower disk meth body a in (pr_status r, a, m)
  | OServer now disk meth body => st (HandleServerConfig L now disk meth body a m)
  | OAdvanced now disk meth body => st (HandleAdvancedSettings L now disk meth body a m)
  | ORestore now disk meth body => st (HandleConfigRestore L now disk meth body a m)
  | OCredentials disk salt r => let '(w, a) := HandleAdminCredentials L disk salt r a in (w_status w, a, m)
  end.

(** A backup that is restored has different names. *)
Definition op_ok (o : panelOp) : Prop :=
  match o with ORestore _ _ _ (Some c) => NoDup (names (Users c)) | _ => True end.

Lemma note_keeps t name fp hwid ua ip : keeps_ok (λ cfg h,
  match onUser name (λ u h, (noteDevice grow t fp hwid ua ip u h).2) (Users cfg) h with
  | Some (us, h) => (Ret (set_Users us cfg), h)
  | None => (Ret cfg, h)
  end).
Proof.
  intros c h r h' Hok Hnd. destruct (onUser name _ (Users c) h) as [[us h1]|] eqn:E; intros [= <- <-]; [|done].
  destruct (onUser_ok name _ _ (Users c) (local_note grow t fp hwid ua ip) h us h1 Hok E) as (Hok' & _ & (u & _ & Ht) & _).
  split; [by eapply users_ok_touched|]. cbn. split; [done|]. erewrite onUser_names; [done| |exact E].
  intros u0 h0. unfold noteDevice. destruct (list_find _ _) as [[]|]; [done|]. case_if; [done|]. by destruct (appendDevice _ _ _ _).
Qed.

Lemma reset_keeps name fp : keeps_ok (changeUser name (keepDevices fp)).
Proof. eapply change_keeps; [apply local_forget|]. intros u h. unfold keepDevices. by case_bool_decide. Qed.

Lemma patch_keeps name req : keeps_ok (changeUser name (λ u h, (patchUser req u, h))).
Proof.
  apply (change_keeps name _ (λ u, set_Devices (u_Devices u) (patchUser req (set_Devices nilSlice u)))); [|done]. by apply local_pure.
Qed.

Lemma password_keeps name p : keeps_ok (changeUser name (λ u h, (set_Password p u, h))).
Proof.
  apply (change_keeps name _ (λ u, set_Devices (u_Devices u) (set_Password p (set_Devices nilSlice u)))); [|done]. by apply local_pure.
Qed.

Lemma select_keeps (P : User slice → Prop) `{!∀ u, Decision (P u)} : keeps_ok (λ c h, (Ret (set_Users (filter P (Users c)) c), h)).
Proof. intros c h r h' Hok Hnd [= <- <-]. split; [done|]. by apply filter_keeps. Qed.

Lemma delete_keeps name : keeps_ok (λ cfg h,
  if existsb (λ u, bool_decide (u_Name u = name)) (Users cfg)
  then (Ret (set_Users (filter (λ u, u_Name u ≠ name) (Users cfg)) cfg), h) else (Err (Errorf "user not found"), h)).
Proof. intros c h r h' Hok Hnd. case_if; intros [= <- <-]; [|done]. split; [done|]. by apply filter_keeps. Qed.

Hint Resolve add_keeps reset_keeps patch_keeps password_keeps delete_keeps note_keeps : panel.

(** The handler ends in the state that its update leaves. *)
Ltac after_update :=
  match goal with
  | Hok : panel_ok (a_Config ?a) |- context [updateConfig L ?d ?f ?a] =>
      let HU := fresh in
      assert (HU : panel_ok (a_Config (updateConfig L d f a).2))
        by (apply updateConfig_ok; [first [solve [auto with panel] | by apply select_keeps | by apply pure_keeps | by apply restore_keeps]|exact Hok]);
      destruct (updateConfig L d f a) as [[?|?|?] ?]; cbn [snd] in HU
  end.

Lemma step_ok o a m : op_ok o → panel_ok (a_Config a) → panel_ok (a_Config (panelStep o a m).1.2).
Proof.
  intros Ho Hok. destruct o as [now disk rnd bd|now disk bd name|now disk name|now disk meth bd|now disk rnd name|disk name fp|now disk r
    |disk meth bd|now disk meth bd|now disk meth bd|now disk meth bd|disk salt r]; cbn [panelStep].
  - unfold createUser. destruct bd as [req|]; [|done]. case_if; [done|]. destruct rnd; [|done..]. after_update; [|done..].
    destruct (syncMitaUsers _ _ _) as [[] ?]; [|done..]. destruct (GetStatus _); [|done..]. case_if; [done|]. by destruct (StartProxy _).
  - unfold updateUser, pushed. destruct bd as [req|]; [|done]. after_update; [|done..]. by destruct (syncMitaUsers _ _ _).
  - unfold deleteUser, pushed. after_update; [|done..]. by destruct (syncMitaUsers _ _ _).
  - unfold HandleUsersBulk, pushed. case_if; [done|]. destruct bd as [ns|]; [|done]. case_if; [done|]. after_update; [|done..]. by destruct (syncMitaUsers _ _ _).
  - unfold regeneratePassword, pushed. destruct rnd; [|done..]. after_update; [|done..]. by destruct (syncMitaUsers _ _ _).
  - unfold resetDevices. by after_update.
  - unfold HandleSubscription. case_if; [done|]. case_if; [done|]. destruct (Allow _ _ _) as [ok l]. case_if; [done|].
    destruct (list_find _ _) as [[j u]|]; [|done]. repeat (case_if; [done|]). unfold recordDevice.
    assert (Hok1 : panel_ok (a_Config (set_SubLimiter l a))) by done. after_update; by case_if.
  - unfold HandleSubscriptionSecurity. destruct meth; try done; (destruct bd as [[ags hw]|]; [|done]; by after_update).
  - unfold HandleServerConfig, pushedOrWarn. destruct meth; try done;
      (destruct bd as [req|]; [|done]; repeat (case_if; [done|]); after_update; [|done..]; by destruct (syncMitaUsers _ _ _)).
  - unfold HandleAdvancedSettings, pushedOrWarn. destruct meth; try done;
      (destruct bd as [req|]; [|done]; repeat (case_if; [done|]); after_update; [|done..]; by destruct (syncMitaUsers _ _ _)).
  - unfold HandleConfigRestore, pushedOrWarn. case_if; [done|]. destruct bd as [c|]; [|done]. after_update; [|done..]. by destruct (syncMitaUsers _ _ _).
  - unfold HandleAdminCredentials. case_if; [done|]. destruct (r_body r) as [req|]; [|done]. repeat (case_if; [done|]). destruct (bcryptGenerate _ _ _) as [hash| |]; [|done..].
    pose proof (updateConfig_ok L disk (λ c h, (Ret (set_admin (TrimSpace (cb_NewUsername req)) hash c), h)) a ltac:(by apply pure_keeps) Hok) as HU.
    unfold updateConfig in HU. by destruct (Update _ _ _ _).
Qed.
Fixpoint panelRun (os : list panelOp) (a : App) (m : M) : App * M :=
  match os with
  | [] => (a, m)
  | o :: os => let '(_, a, m) := panelStep o a m in panelRun os a m
  end.
End Steps.

Lemma loaded_ok {marshal unmarshal hash secret disk file s} : loadOrCreate marshal unmarshal hash secret disk file = Ret s →
  (∀ raw c, file = Some raw → unmarshal raw = Some c → NoDup (names (Users c))) → panel_ok s.
Proof.
  assert (Halloc : ∀ c : Config (list DeviceFingerprint), NoDup (names (Users c)) → ∀ c' h f, allocConfig c {[0%nat := []]} = (c', h) → panel_ok (mkStore h c' f)).
  { intros c Hn c' h f E. apply allocConfig_spec in E as (_ & Hr & Hok); [|by rewrite lookup_singleton_eq]. split; [done|].
    rewrite <- Hr in Hn. unfold resolve in Hn. cbn in Hn. by rewrite <- list_fmap_compose in Hn. }
  unfold loadOrCreate. destruct file as [raw|]; intros Hl Hn.
  - destruct (unmarshal raw) as [c|] eqn:Eu; [|done]. destruct (allocConfig _ _) as [c' h] eqn:E. injection Hl as <-. eapply Halloc, E. cbn. by eapply Hn.
  - unfold defaultConfig in Hl. destruct hash as [hash| |]; [|done..]. destruct secret as [secret| |]; [|done..]. cbn [obind writeConfig] in Hl.
    destruct disk; [done|]. destruct (allocConfig _ _) as [c' h] eqn:E. injection Hl as <-. eapply Halloc, E. constructor.
Qed.

(** C20: the panel stays sound as long as nothing that it reads in repeats a name.
    From a start without a file, or with one in which no two users share a name,
    through any sequence of requests in which no restored backup repeats a name,
    with any failures of the disk and any answers of the server, the names of the
    users in memory stay different, every device list stays within its array, and
    no two users share an array, although every copy of the configuration shares
    them all. *)
Theorem panel_stays_sound {M : Type} `{MitaClient M} (L : libs) lower grow unmarshal hash secret disk file os a (m : M) :
  loadOrCreate (marshalConfig L) unmarshal hash secret disk file = Ret (a_Config a) →
  (∀ raw c, file = Some raw → unmarshal raw = Some c → NoDup (names (Users c))) → Forall op_ok os →
  panel_ok (a_Config (panelRun L lower grow os a m).1).
Proof.
  intros Hl Hn Hos. pose proof (loaded_ok Hl Hn) as Hok. clear Hl Hn. revert a m Hok.
  induction Hos as [|o os Ho Hos IH]; intros a m Hok; [done|]. cbn [panelRun].
  pose proof (step_ok L lower grow o a m Ho Hok) as Hstep. destruct (panelStep L lower grow o a m) as [[st a'] m']. by apply IH.
Qed.

(** ** What the server has

    What the panel relies on: a successful push of users that can be sent leaves a
    server that has exactly these users, and starting the proxy keeps them unless
    there are none. *)
Class MitaTable (M : Type) `{MitaClient M} := {
  mita_ok : M → Prop;
  mita_sends : list MitaUser → bytes → MitaApplyOptions → Prop;
  mita_has : M → list MitaUser → Prop;
  apply_has us range opts m m' : mita_ok m → mita_sends us range opts → ApplyUsers us range opts m = (Ret tt, m') → mita_has m' us;
  start_has us m : us ≠ [] → mita_has m us → mita_has (StartProxy m).2 us
}.

(** The time of a request that changes users. *)
Definition userOpTime (o : panelOp) : option Z :=
  match o with
  | OCreate now _ _ _ | OUpdate now _ _ _ | ODelete now _ _ | OBulk now _ _ _ | ORegenerate now _ _ _ => Some now
  | _ => None
  end.

(** What is sent for a configuration can be sent; a new user is not the only one
    and expired already. *)
Definition sendable {M : Type} `{MitaTable M} (o : panelOp) (now : Z) (c : Config slice) : Prop :=
  mita_sends (mitaUsers now c) (TrimSpace (ServerPortRange c)) (options c) ∧
  match o with OCreate _ _ _ _ => mitaUsers now c ≠ [] | _ => True end.

Section Pushed.
Context {M : Type} `{MitaTable M} (L : libs) (lower : bytes → bytes) (grow : nat → nat).

Lemma sync_has o now a (m m' : M) : mita_ok m → sendable o now (s_cfg (a_Config a)) → syncMitaUsers now a m = (Ret tt, m') →
  mita_has m' (mitaUsers now (s_cfg (a_Config a))).
Proof.
  unfold syncMitaUsers. assert (Snapshot (a_Config a) = s_cfg (a_Config a)) as -> by (unfold Snapshot, copyConfig; by destruct (s_cfg (a_Config a))).
  intros Hm [Hs _] E. by eapply apply_has.
Qed.

Lemma pushed_has o now a (m : M) resp r a' m' : mita_ok m → sendable o now (s_cfg (a_Config a')) → pushed now a m resp = (r, a', m') →
  pr_status r < 300 → mita_has m' (mitaUsers now (s_cfg (a_Config a'))).
Proof.
  intros Hm Hs. unfold pushed. destruct (syncMitaUsers now a m) as [[[]|e|p] m1] eqn:E; intros [= <- <- <-]; cbn; try lia. intros _. by eapply sync_has.
Qed.

(** A response that is not a success. *)
Ltac refused := intros [= <- <- <-] Hst; cbn in Hst; lia.

(** When a request that creates, changes or deletes users succeeds, the server
    then has exactly the users of the panel's new configuration that have not
    expired, with their passwords, in order. *)
Lemma success_has o now a (m : M) st a' m' : userOpTime o = Some now → mita_ok m → sendable o now (s_cfg (a_Config a')) →
  panelStep L lower grow o a m = (st, a', m') → 200 ≤ st < 300 → mita_has m' (mitaUsers now (s_cfg (a_Config a'))).
Proof.
  intros Ho Hm Hsend. destruct o as [t disk rnd bd|t disk bd name|t disk name|t disk meth bd|t disk rnd name| | | | | | |]; try done; injection Ho as ->; cbn [panelStep].
  - unfold createUser. destruct bd as [req|]; [|refused]. case_if; [refused|]. destruct rnd; [|refused..].
    destruct (updateConfig _ _ _ _) as [[?| |] a1]; [|refused..].
    destruct (syncMitaUsers _ _ _) as [[[]| |] m1] eqn:E; [|refused..].
    assert (Hhas : s_cfg (a_Config a1) = s_cfg (a_Config a') → mita_has m1 (mitaUsers now (s_cfg (a_Config a')))).
    { intros Ea. rewrite <- Ea in *. by eapply sync_has. }
    destruct (GetStatus _); [|intros [= <- <- <-]; auto..]. case_if; [intros [= <- <- <-]; auto|].
    pose proof (start_has (mitaUsers now (s_cfg (a_Config a'))) m1 (proj2 Hsend)) as Hs. destruct (StartProxy m1) as [r m2]. intros [= <- <- <-] _. auto.
  - unfold updateUser. destruct bd as [req|]; [|refused]. destruct (updateConfig _ _ _ _) as [[?| |] a1]; [|refused..].
    destruct (pushed _ _ _ _) as [[r a2] m2] eqn:E. intros [= <- <- <-] Hst. eapply pushed_has; [done|exact Hsend|exact E|lia].
  - unfold deleteUser. destruct (updateConfig _ _ _ _) as [[?| |] a1]; [|refused..].
    destruct (pushed _ _ _ _) as [[r a2] m2] eqn:E. intros [= <- <- <-] Hst. eapply pushed_has; [done|exact Hsend|exact E|lia].
  - unfold HandleUsersBulk. case_if; [refused|]. destruct bd as [ns|]; [|refused]. case_if; [refused|].
    destruct (updateConfig _ _ _ _) as [[?| |] a1]; [|refused..].
    destruct (pushed _ _ _ _) as [[r a2] m2] eqn:E. intros [= <- <- <-] Hst. eapply pushed_has; [done|exact Hsend|exact E|lia].
  - unfold regeneratePassword. destruct rnd as [b| |]; [|refused..]. destruct (updateConfig _ _ _ _) as [[?| |] a1]; [|refused..].
    destruct (pushed _ _ _ _) as [[r a2] m2] eqn:E. intros [= <- <- <-] Hst. eapply pushed_has; [done|exact Hsend|exact E|lia].
Qed.
End Pushed.

(** ** Backups *)

(** restoring a backup gives back everything that it holds, in memory and in
    the file, except the port and the address that the panel listens on, which
    stay; whatever happened between the two. *)
Theorem backup_restores {M : Type} `{MitaClient M} (L : libs) now meth a0 a (m : M) r a' m' :
  meth = POST ∨ meth = PUT → store_ok (a_Config a) → let b := backupOf a0 in
  TrimSpace (AdminUsername b) ≠ [] → TrimSpace (AdminPasswordHash b) ≠ [] → TrimSpace (SessionSecret b) ≠ [] →
  HandleConfigRestore L now None meth (Some b) a m = (r, a', m') →
  let c := s_cfg (a_Config a) in
  let expected := mkConfig (AdminUsername b) (AdminPasswordHash b) (ServerIP b) (ServerPortRange b) (DefaultPort b) (PanelPort c) (BindAddr c)
    (SessionSecret b) (Users b) (LoggingLevel b) (MTU b) (Multiplexing b) (AllowedUserAgents b) (RequireHWID b) in
  pr_status r = 200 ∧ backupOf a' = expected ∧ s_file (a_Config a') = Some (marshalConfig L expected) ∧ store_ok (a_Config a').
Proof.
  intros Hm [_ _ H0] b Hu Hp Hs. unfold HandleConfigRestore.
  assert (negb (bool_decide (meth = POST)) && negb (bool_decide (meth = PUT)) = false) as -> by (destruct Hm as [-> | ->]; done).
  unfold updateConfig, Update. set (inc := restored _ b).
  assert (Hinc : inc = restored (s_cfg (a_Config a)) b) by (unfold inc, Snapshot, copyConfig; by destruct (s_cfg (a_Config a))).
  unfold restored, keepIfBlank in Hinc. rewrite !bool_decide_eq_false_2 in Hinc by done. clearbody inc. cbn zeta. rewrite <- Hinc.
  destruct (allocConfig inc (s_heap (a_Config a))) as [c1 h1] eqn:E. destruct (allocConfig_spec _ _ _ _ H0 E) as (_ & Hr & Hok).
  cbn [writeConfig]. rewrite Hr. unfold pushedOrWarn. destruct (syncMitaUsers _ _ _) as [res m1]. intros [= <- <- <-].
  split_and!; [by destruct res| |done|done]. unfold backupOf, Snapshot, copyConfig. cbn. rewrite <- Hr. by destruct c1.
Qed.

(** ** Routes *)

Lemma trimLeftByte_head c s : head s ≠ Some c → trimLeftByte c s = s.
Proof. destruct s as [|x s]; [done|]. intros Hc. cbn. destruct (Z.eqb_spec x c) as [->|]; done. Qed.

Lemma trimByte_id c s : head s ≠ Some c → last s ≠ Some c → trimByte c s = s.
Proof.
  intros Hh Hl. unfold trimByte. rewrite (trimLeftByte_head c s) by done. rewrite trimLeftByte_head; [apply rev_involutive|].
  rewrite rev_alt. by rewrite <- head_reverse in Hl.
Qed.

Lemma head_in {A} (s : list A) x : head s = Some x → x ∈ s.
Proof. destruct s; [done|]. intros [= ->]. apply list_elem_of_here. Qed.

(** A name without a slash is routed to the handlers of its user. *)
Lemma user_routes name fp : name ≠ [] → fp ≠ [] → 47 ∉ name → 47 ∉ fp →
  let path rest := string_bytes "/api/users/" ++ name ++ rest in
  HandleUserActions DELETE (path []) = RDelete name ∧ HandleUserActions PATCH (path []) = RUpdate name ∧
  HandleUserActions DELETE (path (47 :: string_bytes "devices/" ++ fp)) = RResetOne name fp.
Proof.
  intros Hn Hf Hsn Hsf path.
  assert (Hpre : ∀ rest, TrimPrefix (path rest) (string_bytes "/api/users/") = name ++ rest).
  { intros rest. unfold TrimPrefix, stripPrefix, path. rewrite take_app_length, drop_app_length. done. }
  unfold HandleUserActions. rewrite !Hpre, !app_nil_r.
  rewrite (trimByte_id 47 name) by first [by intros H%head_in | by intros H%last_Some_elem_of].
  rewrite Split_none by done. rewrite bool_decide_eq_false_2 by done. split_and!; [done..|].
  rewrite trimByte_id.
  - change (47 :: string_bytes "devices/" ++ fp) with ([47] ++ string_bytes "devices" ++ [47] ++ fp). rewrite Split_cons by done.
    rewrite Split_cons by (by apply (bool_decide_unpack _)). rewrite Split_none by done. rewrite bool_decide_eq_false_2 by done.
    by rewrite bool_decide_eq_true_2.
  - destruct name as [|x name]; [done|]. intros [= ->]. apply Hsn, list_elem_of_here.
  - rewrite last_app, last_cons, last_app. destruct (last fp) as [y|] eqn:E; [|by apply last_None in E]. intros [= ->]. by apply last_Some_elem_of in E.
Qed.

(** A server that takes every push. *)
Definition demoMita : MitaClient (list MitaUser) := {|
  ApplyUsers us _ _ _ := (Ret tt, us);
  EnsurePortBindings _ _ m := (Ret tt, m);
  GetStatus _ := Ret (string_bytes "IDLE");
  StartProxy m := (Ret tt, m);
  StopProxy m := (Ret tt, m)
|}.

(** A name with a slash is accepted when the user is created, and a request to
    delete that user is taken for another one. *)
Example slash_name_misrouted :
  (@createUser _ demoMita demoLibs demoNow None (Ret (replicate 32 5)) (Some (mkCreate (string_bytes "ann/devices") (string_bytes "pw") 0 0 0 0)) demoPanel []).1.1
    = mkPanelResp 201 (PCreated true) ∧
  HandleUserActions DELETE (string_bytes "/api/users/" ++ string_bytes "ann/devices") = RResetAll (string_bytes "ann").
Proof. split; vm_compute; reflexivity. Qed.

(** ** Sharing

    A reset of one device whose write fails answers 404, and the list in memory is no longer the old one: the shared array was written. *)

Definition demoDevice (h : string) : DeviceFingerprint := mkDevice (string_bytes h) [] [] [] 0 0.
Definition demoShared : Store :=
  mkStore {[0%nat := []; 1%nat := [demoDevice "a"; demoDevice "b"]]}
    (set_Users [PanelConfig.mkUser (string_bytes "ann") [] [] (mkQuotas 0 0) 0 0 (mkSlice 1 2 2)] demoConfig) None.

Example failed_reset_corrupts :
  let a := set_Config demoShared (demoApp Missing) in
  let '(r, a') := resetDevices demoLibs (Some None) (string_bytes "ann") (string_bytes "a") a in
  r = perror 404 "write config" ∧ (u_Devices <$> plainUsers a) = [[demoDevice "a"; demoDevice "b"]] ∧
  (u_Devices <$> plainUsers a') = [[demoDevice "b"; demoDevice "b"]].
Proof. vm_compute. done. Qed.

(** The secret of a backup replaces the current one, and the sessions with it. *)
Lemma restore_replaces_secret {D E} (current : Config E) (incoming : Config D) :
  TrimSpace (SessionSecret incoming) ≠ [] → SessionSecret (restored current incoming) = SessionSecret incoming.
Proof. intros Hs. cbn. unfold keepIfBlank. by rewrite bool_decide_eq_false_2. Qed.

(** A restored backup that repeats a name is accepted, and the panel then has two
    users of that name, which creating a user would have refused. *)
Example restore_repeats_names :
  let twice := set_Users (Users (backupOf demoPanel) ++ Users (backupOf demoPanel)) (backupOf demoPanel) in
  let '(r, a', _) := @HandleConfigRestore _ demoMita demoLibs demoNow None POST (Some twice) demoPanel [] in
  pr_status r = 200 ∧ names (Users (s_cfg (a_Config a'))) = string_bytes <$> ["ann"; "bob"; "ann"; "bob"] ∧ ~ panel_ok (a_Config a').
Proof.
  cbv zeta. destruct (HandleConfigRestore _ _ _ _ _ _ _) as [[r a'] m] eqn:E.
  assert (Hn : names (Users (s_cfg (a_Config (r, a', m).1.2))) = string_bytes <$> ["ann"; "bob"; "ann"; "bob"]) by (rewrite <- E; vm_compute; reflexivity).
  assert (Hr : pr_status (r, a', m).1.1 = 200) by (rewrite <- E; vm_compute; reflexivity).
  split; [exact Hr|]. split; [exact Hn|]. intros [_ Hnd]. cbn [fst snd] in Hn. rewrite Hn in Hnd. revert Hnd. apply (bool_decide_unpack _). vm_compute. exact I.
Qed.

(** ** Witnesses *)

Definition demoCreate (name : string) : panelOp :=
  OCreate demoNow None (Ret (replicate 32 5)) (Some (mkCreate (string_bytes name) (string_bytes "pw") 0 0 0 1)).

Lemma panel_stays_sound_witness : ∃ a : App, length (Users (s_cfg (a_Config a))) = 2%nat ∧ panel_ok (a_Config a).
Proof.
  destruct (loadOrCreate (marshalConfig demoLibs) (λ _, None) (Ret [1]) (Ret [2]) None None) as [s| |] eqn:E; [|discriminate E..].
  exists (@panelRun _ demoMita demoLibs id demoGrow [demoCreate "ann"; demoCreate "bob"; demoCreate "ann"] (set_Config s (demoApp Missing)) []).1.
  split; [|apply (@panel_stays_sound _ demoMita demoLibs id demoGrow (λ _, None) (Ret [1]) (Ret [2]) None None); [exact E|discriminate|repeat constructor]].
  vm_compute in E. injection E as <-. vm_compute. reflexivity.
Defined.

Lemma backup_restores_witness :
  let '(_, a', _) := @HandleConfigRestore _ demoMita demoLibs demoNow None POST (Some (backupOf demoPanel)) (demoApp Missing) [] in
  u_Name <$> Users (backupOf a') = string_bytes <$> ["ann"; "bob"].
Proof.
  destruct (@HandleConfigRestore _ demoMita demoLibs demoNow None POST (Some (backupOf demoPanel)) (demoApp Missing) []) as [[r a'] m'] eqn:E.
  destruct (@backup_restores _ demoMita demoLibs demoNow POST demoPanel (demoApp Missing) [] r a' m') as (_ & Hb & _).
  - left. reflexivity.
  - split; [constructor|constructor|reflexivity].
  - vm_compute. discriminate.
  - vm_compute. discriminate.
  - vm_compute. discriminate.
  - exact E.
  - rewrite Hb. vm_compute. reflexivity.
Defined.

End PanelSettings.
Export PanelSettings.
