(* ===== verification/PanelMita.v ===== *)
(** * The panel's client of the server: mieru-panel/pkg/mita/client.go, the adapter
    of mieru-panel/main.go

    The panel drives the server by running its commands.  Here the commands of
    MitaCli are run on a daemon, which makes the server an instance of the class
    that the handlers of the panel were verified against, and gives the
    properties that hold from the panel to the running proxy.

    A world holds the daemon, whether each next temporary file can be written, and
    the time.  A failed command is an error; logging of failures is left out.  The
    payload is the JSON value that the panel builds; the texts of JSON are
    parameters: [encodeJSON] writes a value, [unmarshalJSON] reads a server
    configuration, [decodeEnvelope] reads the output of [describe config]. *)

From S2P Require Import Prelude Mathext Common Sha256 Rng Cipher Auth Segment SessionState Session Scheduler Socks Net SocksUDP Dns.
From S2P Require Import Egress SocksAuth TrafficPattern Mux PortBinding ConfigServer ConfigClient ServerControl MitaCli.
From S2P Require Import PanelText PanelConfig PanelAuth PanelUsers PanelSettings.
From Stdlib Require Import ZifyBool.
Local Open Scope Z_scope.

Module PanelMita.

Definition DefaultPortRange : bytes := string_bytes "2012-2022".

Inductive json :=
| JString (s : bytes)
| JNumber (n : Z)
| JArray (l : list json)
| JObject (fields : list (string * json)).

(** What varies in the value that is written to the file; the key users is absent
    for [None]. *)
Record payload := mkPayload { pl_portRange : bytes; pl_users : option (list MitaUser); pl_loggingLevel : bytes; pl_mtu : Z }.

(** The tags of [User]. *)
Definition userJSON (u : MitaUser) : json := JObject [("name", JString (mu_Name u)); ("password", JString (mu_Password u))].

(** The map of [ApplyUsers] and [EnsurePortBindings], its keys in the order in
    which they are written. *)
Definition payloadJSON (p : payload) : json := JObject
  ([("loggingLevel", JString (pl_loggingLevel p)); ("mtu", JNumber (pl_mtu p));
    ("portBindings", JArray [JObject [("portRange", JString (pl_portRange p)); ("protocol", JString (string_bytes "TCP"))]])] ++
   match pl_users p with Some us => [("users", JArray (userJSON <$> us))] | None => [] end).

Record PanelPortBinding := mkPanelBinding { pb_PortRange : option bytes; pb_Port : option Z; pb_Protocol : bytes }.
Record DescribeConfigUser := mkDescribeUser { du_Name : bytes; du_HashedPassword : bytes; du_Password : bytes }.
Record describeConfigEnvelope := mkEnvelope { de_PortBindings : list PanelPortBinding; de_Users : list DescribeConfigUser }.

Definition effectivePortRange (portRange : bytes) : bytes :=
  if bool_decide (TrimSpace portRange = []) then DefaultPortRange else TrimSpace portRange.

Definition normalize (o : MitaApplyOptions) : MitaApplyOptions :=
  mkOptions (if bool_decide (TrimSpace (mo_LoggingLevel o) = []) then string_bytes "INFO" else mo_LoggingLevel o)
    (if mo_MTU o <=? 0 then 1400 else mo_MTU o)
    (if bool_decide (TrimSpace (mo_Multiplexing o) = []) then string_bytes "MULTIPLEXING_HIGH" else mo_Multiplexing o).

(** Lines as printed, each with its end. *)
Definition printed (lines : list bytes) : bytes := concat ((λ l, l ++ [10]) <$> lines).

(** ** What the server reads *)

Definition levelOf (s : bytes) : option Z :=
  snd <$> head (filter (λ p, string_bytes p.1 = s)
    [("DEFAULT", 0); ("FATAL", 1); ("ERROR", 2); ("WARN", 3); ("INFO", 4); ("DEBUG", 5); ("TRACE", 6)]).

(** *** Reading a configuration by the field names of servercfg.proto and base.proto

    What protojson documents: an object gives each field that it names, a name
    that is unknown or occurs twice is an error, a string names an enum value, and
    a number fits its field.  Fields that no payload has are left out: [None] says
    nothing about the reader. *)

Section Fields.
Context {M : Type} (field : string → json → M → option M).
Fixpoint readFields (fields : list (string * json)) (m : M) : option M :=
  match fields with [] => Some m | (k, v) :: rest => field k v m ≫= readFields rest end.
Definition readObject (m : M) (j : json) : option M :=
  match j with JObject fields => if bool_decide (NoDup fields.*1) then readFields fields m else None | _ => None end.
End Fields.

Definition readArray {A} (read : json → option A) (j : json) : option (list A) :=
  match j with JArray l => mapM read l | _ => None end.
Definition readString (j : json) : option bytes := match j with JString s => Some s | _ => None end.
Definition readInt32 (j : json) : option Z :=
  match j with JNumber n => if (- 2 ^ 31 <=? n) && (n <? 2 ^ 31) then Some n else None | _ => None end.
Definition readLevel (j : json) : option Z := readString j ≫= levelOf.
Definition readProtocol (j : json) : option Protocol :=
  s ← readString j; snd <$> head (filter (λ p : string * Protocol, string_bytes p.1 = s) [("UDP", UDP); ("TCP", TCP)]).

Definition bindingField (k : string) (v : json) (b : PortBinding) : option PortBinding :=
  if bool_decide (k = "port") then (λ n, mkBinding n (bPortRange b) (bProtocol b)) <$> readInt32 v
  else if bool_decide (k = "protocol") then (λ pr, mkBinding (bPort b) (bPortRange b) pr) <$> readProtocol v
  else if bool_decide (k = "portRange") then (λ s, mkBinding (bPort b) s (bProtocol b)) <$> readString v
  else None.

Definition userField (k : string) (v : json) (u : PbUser) : option PbUser :=
  if bool_decide (k = "name") then (λ s, mkPbUser (bytes_string s) (pu_password u) (pu_hashedPassword u) (pu_quotas u) (pu_rights u)) <$> readString v
  else if bool_decide (k = "password") then (λ s, mkPbUser (pu_name u) (bytes_string s) (pu_hashedPassword u) (pu_quotas u) (pu_rights u)) <$> readString v
  else if bool_decide (k = "hashedPassword") then (λ s, mkPbUser (pu_name u) (pu_password u) (bytes_string s) (pu_quotas u) (pu_rights u)) <$> readString v
  else None.

Definition noUser : PbUser := mkPbUser "" "" "" [] (mkRights false false).

Definition configField (k : string) (v : json) (c : PbServerConfig) : option PbServerConfig :=
  if bool_decide (k = "portBindings") then
    (λ l, mkPbServerConfig (if bool_decide (l = []) then None else Some l) (sc_users c) (sc_advancedSettings c) (sc_loggingLevel c) (sc_mtu c) (sc_egress c) (sc_dns c) (sc_trafficPattern c))
      <$> readArray (readObject bindingField (mkBinding 0 [] UNKNOWN_TRANSPORT_PROTOCOL)) v
  else if bool_decide (k = "users") then
    (λ l, mkPbServerConfig (sc_portBindings c) l (sc_advancedSettings c) (sc_loggingLevel c) (sc_mtu c) (sc_egress c) (sc_dns c) (sc_trafficPattern c))
      <$> readArray (readObject userField noUser) v
  else if bool_decide (k = "loggingLevel") then
    (λ l, mkPbServerConfig (sc_portBindings c) (sc_users c) (sc_advancedSettings c) (Some l) (sc_mtu c) (sc_egress c) (sc_dns c) (sc_trafficPattern c)) <$> readLevel v
  else if bool_decide (k = "mtu") then
    (λ n, mkPbServerConfig (sc_portBindings c) (sc_users c) (sc_advancedSettings c) (sc_loggingLevel c) (Some n) (sc_egress c) (sc_dns c) (sc_trafficPattern c)) <$> readInt32 v
  else None.

Definition readServerConfig : json → option PbServerConfig :=
  readObject configField (mkPbServerConfig None [] None None None None None None).

Definition asciiText (s : bytes) : bool := forallb (λ c, (0 <=? c) && (c <? 128)) s.
Fixpoint jsonText (j : json) : bool :=
  match j with
  | JString s => asciiText s
  | JNumber _ => true
  | JArray l => forallb jsonText l
  | JObject fields => forallb (λ kv, jsonText kv.2) fields
  end.

Definition pbUser (u : MitaUser) : PbUser := mkPbUser (bytes_string (mu_Name u)) (bytes_string (mu_Password u)) "" [] (mkRights false false).

(** The configuration that a payload describes. *)
Definition payloadConfig (p : payload) : PbServerConfig :=
  mkPbServerConfig (Some [mkBinding 0 (pl_portRange p) TCP]) (pbUser <$> default [] (pl_users p)) None
    (levelOf (pl_loggingLevel p)) (Some (pl_mtu p)) None None None.

Definition ascii (s : bytes) : Prop := Forall (λ c, 0 ≤ c < 128) s.

(** A payload that JSON carries: ASCII texts, a known level, a 32-bit number. *)
Record payload_text (p : payload) : Prop := {
  pt_range : ascii (pl_portRange p);
  pt_users : Forall (λ u, ascii (mu_Name u) ∧ ascii (mu_Password u)) (default [] (pl_users p));
  pt_level : levelOf (pl_loggingLevel p) ≠ None;
  pt_mtu : - 2 ^ 31 ≤ pl_mtu p < 2 ^ 31
}.

Lemma ascii_bytes b : ascii b → string_bytes (bytes_string b) = b.
Proof. intros Hb. apply bytes_string_bytes. eapply Forall_impl; [exact Hb|]. cbn. lia. Qed.

Lemma bytes_string_inj b b' : ascii b → ascii b' → bytes_string b = bytes_string b' → b = b'.
Proof. intros Hb Hb' E. by rewrite <- (ascii_bytes b Hb), E, ascii_bytes. Qed.

Lemma ascii_text s : ascii s → asciiText s = true.
Proof. intros Hs. apply forallb_forall. intros c Hc. unfold ascii in Hs. rewrite Forall_forall in Hs. specialize (Hs c (proj2 (list_elem_of_In s c) Hc)). lia. Qed.

Lemma read_users us : readArray (readObject userField noUser) (JArray (userJSON <$> us)) = Some (pbUser <$> us).
Proof.
  cbn. induction us as [|u us IH]; [done|]. cbn [fmap list_fmap mapM]. rewrite IH. reflexivity.
Qed.

(** What the panel writes is read as the configuration that it means. *)
Lemma read_payload p : payload_text p → readServerConfig (payloadJSON p) = Some (payloadConfig p).
Proof.
  intros [_ _ Hl Hm]. unfold readServerConfig, payloadJSON, payloadConfig, readObject.
  destruct p as [range us level mtu]. cbn [pl_portRange pl_users pl_loggingLevel pl_mtu] in *.
  destruct (levelOf level) as [z|] eqn:El; [|done].
  assert (Hn : (- 2 ^ 31 <=? mtu) && (mtu <? 2 ^ 31) = true) by lia.
  rewrite bool_decide_eq_true_2 by (destruct us; cbn; by repeat (apply NoDup_cons; split; [set_solver|]) || apply NoDup_nil).
  destruct us as [us|]; cbn [app readFields].
  - unfold configField. cbn -[levelOf readArray]. rewrite El. cbn -[readArray]. unfold readInt32. rewrite Hn. cbn -[readArray].
    rewrite read_users. reflexivity.
  - unfold configField. cbn -[levelOf]. rewrite El. cbn. by rewrite Hn.
Qed.

Lemma payload_ascii p : payload_text p → jsonText (payloadJSON p) = true.
Proof.
  intros [Hr Hu Hl _]. destruct p as [range us level mtu]. cbn [pl_portRange pl_users pl_loggingLevel default] in *. unfold payloadJSON. cbn [jsonText].
  assert (Hlev : asciiText level = true).
  { unfold levelOf in Hl. destruct (filter _ _) as [|x l] eqn:E in Hl; [done|].
    assert (Hx : x ∈ x :: l) by left. rewrite <- E in Hx. apply list_elem_of_filter in Hx as [<- Hx].
    clear -Hx. do 7 (apply elem_of_cons in Hx as [->|Hx]; [vm_compute; reflexivity|]). by apply not_elem_of_nil in Hx. }
  rewrite forallb_app. cbn -[asciiText string_bytes]. rewrite Hlev, (ascii_text range Hr). destruct us as [us|]; [|done].
  cbn -[asciiText string_bytes]. change (asciiText (string_bytes "TCP")) with true. cbn [andb]. rewrite andb_true_r.
  apply forallb_forall. intros j Hj%list_elem_of_In. apply list_elem_of_fmap in Hj as (u & -> & Hx). cbn in Hu. rewrite Forall_forall in Hu.
  destruct (Hu u Hx) as [Hn Hp]. unfold userJSON. cbn -[asciiText]. by rewrite (ascii_text _ Hn), (ascii_text _ Hp).
Qed.

Section Client.
Context {V T : Type} `{BTree T} `{MuxUnderlay V T}.
Context (parseDuration : bytes → outcome Z)
        (marshal : PbServerConfig → outcome bytes) (unmarshal : bytes → outcome PbServerConfig)
        (marshalJSON : PbServerConfig → outcome bytes) (unmarshalJSON : bytes → outcome PbServerConfig)
        (encodeJSON : json → bytes) (decodeEnvelope : bytes → option describeConfigEnvelope)
        (unicodeUpper : bytes → bytes).
Context (net : muxNet) (dualStack : bool) (hostSeed : Z).
Notation daemon := (option (service V)).

Record world := mkWorld { w_daemon : daemon; w_tmp : list bool; w_now : Z }.
Definition set_daemon (d : daemon) (w : world) : world := mkWorld d (w_tmp w) (w_now w).

(** [Client.run]: what the command prints, without space around it. *)
Definition run (cmd : daemon → outcome (list bytes) * daemon) (w : world) : outcome bytes * world :=
  match cmd (w_daemon w) with
  | (Ret lines, d) => (Ret (TrimSpace (printed lines)), set_daemon d w)
  | (Err e, d) => (Err e, set_daemon d w)
  | (Panic _, d) => (Err (Errorf "exit status 2"), set_daemon d w)
  end.

Definition describe : daemon → outcome (list bytes) * daemon := serverDescribeConfigFunc unmarshal marshalJSON.
Definition applyConfig : option bytes → daemon → outcome (list bytes) * daemon := serverApplyConfigFunc parseDuration marshal unmarshal unmarshalJSON.
Definition reload : daemon → outcome (list bytes) * daemon := serverReloadFunc parseDuration unmarshal net dualStack.
Definition start : daemon → outcome (list bytes) * daemon := serverStartFunc parseDuration unmarshal net dualStack hostSeed.

Definition clientGetConfig (w : world) : outcome describeConfigEnvelope :=
  match (run describe w).1 with
  | Ret out =>
      if bool_decide (out = []) then Err (Errorf "empty mita describe config output")
      else match decodeEnvelope out with Some env => Ret env | None => Err (Errorf "parse mita config: %w") end
  | Err e => Err e
  | Panic p => Panic p
  end.

Definition applyConfigPayload (p : payload) (w : world) : outcome unit * world :=
  let w' := mkWorld (w_daemon w) (drop 1 (w_tmp w)) (w_now w) in
  if negb (default true (head (w_tmp w))) then (Err (Errorf "write temporary file"), w')
  else
    match run (applyConfig (Some (encodeJSON (payloadJSON p)))) w' with
    | (Ret _, w) => match run reload w with (Ret _, w) => (Ret tt, w) | (Err e, w) => (Err e, w) | (Panic q, w) => (Panic q, w) end
    | (Err e, w) => (Err e, w)
    | (Panic q, w) => (Panic q, w)
    end.

Definition clientApplyUsers (users : list MitaUser) (portRange : bytes) (opts : MitaApplyOptions) : world → outcome unit * world :=
  let o := normalize opts in
  applyConfigPayload (mkPayload (effectivePortRange portRange) (Some users) (mo_LoggingLevel o) (mo_MTU o)).

Definition clientEnsurePortBindings (portRange : bytes) (opts : MitaApplyOptions) (w : world) : outcome unit * world :=
  let o := normalize opts in
  match clientGetConfig w with
  | Ret env =>
      if negb (bool_decide (de_PortBindings env = [])) then (Ret tt, w)
      else applyConfigPayload (mkPayload (effectivePortRange portRange) None (mo_LoggingLevel o) (mo_MTU o)) w
  | _ => applyConfigPayload (mkPayload (effectivePortRange portRange) None (mo_LoggingLevel o) (mo_MTU o)) w
  end.

Definition clientGetStatus (w : world) : outcome bytes :=
  match (run serverStatusFunc w).1 with
  | Ret out =>
      let up := ToUpper unicodeUpper out in
      Ret (if Contains up (string_bytes "RUNNING") then string_bytes "RUNNING"
           else if Contains up (string_bytes "IDLE") || Contains up (string_bytes "STOPPED") then string_bytes "IDLE"
           else TrimSpace out)
  | Err e => Err e
  | Panic p => Panic p
  end.

Definition ended {A} (x : outcome A * world) : outcome unit * world :=
  match x with (Ret _, w) => (Ret tt, w) | (Err e, w) => (Err e, w) | (Panic p, w) => (Panic p, w) end.
Definition clientStart (w : world) : outcome unit * world := ended (run start w).
Definition clientStop (w : world) : outcome unit * world := ended (run (serverStopFunc (w_now w)) w).

Definition mitaAdapter : MitaClient world := {|
  ApplyUsers := clientApplyUsers;
  EnsurePortBindings := clientEnsurePortBindings;
  GetStatus := clientGetStatus;
  StartProxy := clientStart;
  StopProxy := clientStop
|}.
#[local] Existing Instance mitaAdapter.

(** * Properties *)

(** ** The laws of the parameters *)

Context (json_laws : ∀ j c, jsonText j = true → readServerConfig j = Some c → unmarshalJSON (encodeJSON j) = Ret c).

Lemma json_payload p : payload_text p → unmarshalJSON (encodeJSON (payloadJSON p)) = Ret (payloadConfig p).
Proof. intros Hp. apply json_laws; [by apply payload_ascii|by apply read_payload]. Qed.

Context (marshal_unmarshal : ∀ c, onWire c → ∃ b, marshal c = Ret b ∧ unmarshal b = Ret c).
Context `{!MuxUnderlayLaws V T}.
Notation Load := (LoadServerConfig unmarshal).

Definition sent (us : list MitaUser) (range : bytes) (opts : MitaApplyOptions) : payload :=
  let o := normalize opts in mkPayload (effectivePortRange range) (Some us) (mo_LoggingLevel o) (mo_MTU o).

(** The daemon has stored a valid configuration with exactly these users, their
    passwords hashed, and if the proxy runs, its mux has them. *)
Definition server_has (w : world) (us : list MitaUser) : Prop :=
  ∃ s c, w_daemon w = Some s ∧ Load (ServerControl.s_file s) = Ret c ∧ ValidateFullServerConfig parseDuration c = Ret tt ∧
    sc_users c = HashUserPasswords false (pbUser <$> us) ∧ serves (muxUsers (sc_users c)) s ∧ Rng.cache_coherent string_bytes (s_cache s).

(** The caches of the daemon are its own, and a proxy that runs is the one that the
    daemon started with. *)
Definition daemon_ok (s : service V) : Prop := Rng.cache_coherent string_bytes (s_cache s) ∧ reaches s.
Definition world_ok (w : world) : Prop := ∀ s, w_daemon w = Some s → daemon_ok s.

(** A daemon that has just been run is sound. *)
Lemma Run_daemon_ok s s' : Run parseDuration unmarshal net dualStack hostSeed s = (Ret tt, s') → Rng.cache_coherent string_bytes (s_cache s) →
  s_socks s = None → daemon_ok s'.
Proof.
  unfold Run. intros Hr Hc Hk. assert (daemon_ok s) as Hs by (split; [done|]; intros id k; by rewrite Hk).
  destruct (Load (ServerControl.s_file s)) as [c| |]; [|done..]. destruct (ValidateFullServerConfig parseDuration c) as [[]| |] eqn:Ev; [|by injection Hr as <-..].
  cbn [is_ret] in Hr. unfold startProxy in Hr. cbn [s_cache set_status] in Hr. destruct (buildServer _ _ _ c (s_cache s)) as [[[mux k] cache]| |] eqn:Eb; [|done..].
  destruct (Start net mux) as [[[]| |] mux']; [|done..]. injection Hr as <-. split; [exact (built_cache parseDuration net dualStack hostSeed c _ _ _ _ Hc Ev Eb)|].
  by intros id k' [= <- <-].
Qed.

Lemma run_ret cmd w out w' : run cmd w = (Ret out, w') → ∃ lines d, cmd (w_daemon w) = (Ret lines, d) ∧ w' = set_daemon d w.
Proof. unfold run. destruct (cmd (w_daemon w)) as [[lines| |] d]; [|done..]. intros [= _ <-]. by exists lines, d. Qed.

(** What a successful push does: the payload is stored in place of everything. *)
Lemma payload_effect p w w' : payload_text p → applyConfigPayload p w = (Ret tt, w') →
  ∃ s s', w_daemon w = Some s ∧ w_daemon w' = Some s' ∧ Load (ServerControl.s_file s') = Ret (stored (payloadConfig p)) ∧
    ValidateFullServerConfig parseDuration (stored (payloadConfig p)) = Ret tt ∧ s_cache s' = s_cache s ∧
    (reaches s → serves (muxUsers (sc_users (stored (payloadConfig p)))) s').
Proof.
  intros Hp. unfold applyConfigPayload. case_if; [done|]. destruct (run (applyConfig _) _) as [[out1| |] w1] eqn:E1; [|done..].
  destruct (run reload w1) as [[out2| |] w2] eqn:E2; [|done..]. intros [= <-].
  apply run_ret in E1 as (l1 & d1 & E1 & ->). apply run_ret in E2 as (l2 & d2 & E2 & ->). cbn [w_daemon set_daemon] in *.
  apply (apply_effect parseDuration marshal unmarshal unmarshalJSON marshal_unmarshal) in E1 as (s & c & f & Hs & -> & Hj & _ & Hl);
    [|intros c; rewrite json_payload by done; by intros [= <-]].
  rewrite json_payload in Hj by done. injection Hj as <-.
  apply reload_effect in E2 as (s1 & s2 & c2 & [= <-] & -> & Hl2 & Hv & Hf & Hk & _ & Hc & _ & Hm). cbn in Hl2. rewrite Hl in Hl2. injection Hl2 as <-.
  exists s, s2. split_and!; try done; [by rewrite Hf|]. intros Hr id k Hid. rewrite Hk in Hid. by eapply Hm, Hr.
Qed.

Lemma server_apply us range opts w w' : world_ok w → payload_text (sent us range opts) → clientApplyUsers us range opts w = (Ret tt, w') → server_has w' us.
Proof.
  intros Hw Hp E. apply payload_effect in E as (s & s' & Hs & Hs' & Hl & Hv & Hc & Hm); [|done].
  exists s', (stored (payloadConfig (sent us range opts))). destruct (Hw s Hs) as [Hcoh Hr].
  split_and!; try done; [by apply Hm|by rewrite Hc].
Qed.

Lemma server_start us w : us ≠ [] → server_has w us → server_has (clientStart w).2 us.
Proof.
  intros Hne (s & c & Hd & Hl & Hv & Hu & Hs & Hc).
  destruct (start_effect parseDuration unmarshal net dualStack hostSeed s c Hl Hv) as (s' & Hs' & Hf & Hc' & Hm); [|done..|].
  { rewrite Hu. by destruct us. }
  assert (w_daemon (clientStart w).2 = Some s').
  { unfold clientStart, ended, run, start. rewrite Hd. by destruct (serverStartFunc _ _ _ _ _ _) as [[| |] d]; cbn in Hs' |- *. }
  exists s', c. split_and!; try done. by rewrite Hf.
Qed.

#[local] Instance mitaServer : MitaTable world := {|
  mita_ok := world_ok;
  mita_sends us range opts := payload_text (sent us range opts);
  mita_has := server_has;
  apply_has := server_apply;
  start_has := server_start
|}.
(** ** From the panel to the server *)

Lemma listToMap_in {A} (key : A → string) l x : NoDup (key <$> l) → x ∈ l → listToMap key l !! key x = Some x.
Proof.
  intros Hnd (l1 & l2 & ->)%list_elem_of_split. change (x :: l2) with ([x] ++ l2). rewrite !lookup_listToMap_app.
  rewrite fmap_app, fmap_cons in Hnd. apply NoDup_app in Hnd as (_ & _ & Hnd). apply NoDup_cons in Hnd as [Hx _].
  assert (listToMap key l2 !! key x = None) as ->.
  { destruct (listToMap key l2 !! key x) as [y|] eqn:E; [|done]. apply lookup_listToMap in E as [E Hy]. exfalso. apply Hx. rewrite <- E.
    by apply list_elem_of_fmap_2. }
  cbn. unfold listToMap. cbn. by rewrite lookup_insert_eq.
Qed.

Lemma unix_le t t' : t ≤ t' → Unix t ≤ Unix t'.
Proof. unfold Unix, Second. intros. by apply Z.div_le_mono. Qed.

Lemma expired_later {D} (t t' : Z) (u : PanelConfig.User D) : t ≤ t' → expired t' u = false → expired t u = false.
Proof. unfold expired. lia. Qed.

(** A profile is that of a user who has not expired. *)
Lemma served_user L lower grow now r a p : store_ok (a_Config a) → NoDup (PanelConfig.u_Name <$> PanelConfig.Users (s_cfg (a_Config a))) →
  PanelUsers.served (HandleSubscription L lower grow now None r a) p →
  ∃ v, v ∈ PanelConfig.Users (s_cfg (a_Config a)) ∧ expired (Unix now) v = false ∧ p = buildSingBoxProfile (s_cfg (a_Config a)) v.
Proof.
  intros Hok Hnd Hp. destruct (sub_effect L lower grow now r a Hok Hnd) as [(_ & _ & Hres) Hall].
  destruct Hres as [[_ Hno]|(u & Htok & _ & Hs)]; [by apply Hno in Hp|]. pose proof Hp as [_ ->]%Hs.
  destruct (proj2 (Hall u)) as (_ & _ & _ & _ & He & _); [done|]. unfold plainUsers in Htok. rewrite userOfToken_plain in Htok.
  apply fmap_Some in Htok as (v & Hv & ->). exists v. split_and!; [by apply userOfToken_in in Hv as [? _]|done|done].
Qed.

Lemma mitaUsers_in now c v : v ∈ PanelConfig.Users c → expired (Unix now) v = false →
  mkMitaUser (PanelConfig.u_Name v) (PanelConfig.u_Password v) ∈ mitaUsers now c.
Proof.
  intros Hv He. unfold mitaUsers. apply (list_elem_of_fmap_2 (λ u : PanelConfig.User slice, mkMitaUser (PanelConfig.u_Name u) (PanelConfig.u_Password u))).
  by apply list_elem_of_filter.
Qed.

Lemma mitaUsers_names now c : mu_Name <$> mitaUsers now c = PanelConfig.u_Name <$> filter (λ u, expired (Unix now) u = false) (PanelConfig.Users c).
Proof. unfold mitaUsers. by rewrite <- list_fmap_compose. Qed.

(** The user that a client makes of a profile. *)
Definition profileUser (p : profile) : PbUser := mkPbUser (bytes_string (pf_username p)) (bytes_string (pf_password p)) "" [] (mkRights false false).

(** A user who was sent is found by name, with the key of the profile. *)
Lemma sent_user_key us u : NoDup (mu_Name <$> us) → Forall (λ u, ascii (mu_Name u) ∧ ascii (mu_Password u)) us → u ∈ us →
  ∃ pu k, UserListToMap (HashUserPasswords false (pbUser <$> us)) !! bytes_string (mu_Name u) = Some pu ∧
    clientKey (pbUser u) = Ret k ∧ userPassword (toUser pu) = Some k.
Proof.
  intros Hnd Ha Hu. exists (HashUserPassword false (pbUser u)), (HashPassword (string_bytes (bytes_string (mu_Password u))) (string_bytes (bytes_string (mu_Name u)))).
  split_and!; [|done|by rewrite HashUserPassword_key, (clientKey_server (pbUser u) _ eq_refl)].
  replace (bytes_string (mu_Name u)) with (pu_name (HashUserPassword false (pbUser u))) by (by rewrite HashUserPassword_name).
  apply listToMap_in; [|by do 2 apply list_elem_of_fmap_2]. unfold HashUserPasswords. rewrite <- !list_fmap_compose.
  rewrite (list_fmap_ext _ (bytes_string ∘ mu_Name)) by (intros i x _; cbn; by rewrite HashUserPassword_name).
  rewrite list_fmap_compose. apply NoDup_fmap_2_strong; [|done]. intros x y Hx Hy. rewrite Forall_forall in Ha.
  apply list_elem_of_fmap in Hx as (x' & -> & Hx'). apply list_elem_of_fmap in Hy as (y' & -> & Hy'). by apply bytes_string_inj; apply Ha.
Qed.

(** ** What a push forgets *)

(** Everything that the panel does not know is gone after a push: the stored
    configuration is replaced, although the help of the command speaks of a
    patch. *)
Lemma push_forgets p w w' : payload_text p → applyConfigPayload p w = (Ret tt, w') →
  ∃ s c, w_daemon w' = Some s ∧ Load (ServerControl.s_file s) = Ret c ∧ sc_egress c = None ∧ sc_dns c = None ∧
    sc_trafficPattern c = None ∧ sc_advancedSettings c = None ∧ Forall (λ u, pu_quotas u = []) (sc_users c).
Proof.
  intros Hp E. apply payload_effect in E as (s & s' & _ & Hd & Hl & _); [|done]. eexists s', _. split; [done|]. split; [exact Hl|].
  split_and!; try done. cbn. apply Forall_fmap, Forall_fmap, Forall_true. intros u. cbn. unfold HashUserPassword. by case_bool_decide.
Qed.

(** One name or password of more than 64 bytes, which the panel accepts, makes
    every push fail. *)
Lemma long_name_blocks us range opts w w' u : payload_text (sent us range opts) → u ∈ us → 64 < len (mu_Name u) ∨ 64 < len (mu_Password u) →
  clientApplyUsers us range opts w ≠ (Ret tt, w').
Proof.
  intros Hp Hu Hlong E. pose proof Hp as [_ Ha _ _]. cbn in Ha. rewrite Forall_forall in Ha. destruct (Ha u Hu) as [Hn Hw].
  unfold clientApplyUsers, applyConfigPayload in E. case_if_in E; [done|]. destruct (run (applyConfig _) _) as [[out1| |] w1] eqn:E1; [|done..].
  apply run_ret in E1 as (l1 & d1 & E1 & ->). apply (apply_effect parseDuration marshal unmarshal unmarshalJSON marshal_unmarshal) in E1 as (s & c & f & _ & _ & Hj & Hv & _);
    [|intros c; change (mkPayload _ _ _ _) with (sent us range opts); rewrite json_payload by done; by intros [= <-]].
  change (mkPayload _ _ _ _) with (sent us range opts) in Hj. rewrite json_payload in Hj by done. injection Hj as <-.
  apply ValidatePatch_ret in Hv as [_ Hv _ _ _ _ _]. cbn [sc_users payloadConfig pl_users sent default] in Hv.
  rewrite Forall_fmap, Forall_forall in Hv. specialize (Hv u Hu). cbn in Hv. apply obind_ret_tt in Hv as [Hv _].
  unfold validateCredentials in Hv. cbn [pu_name pu_password pu_hashedPassword pbUser] in Hv. rewrite !ascii_bytes in Hv by done. do 3 (case_if_in Hv; [done|]).
  destruct Hlong as [Hl|Hl]; [lia|]. destruct (decide (bytes_string (mu_Password u) = "")) as [Eb|Eb];
    [|rewrite bool_decide_eq_false_2 in Hv by done; cbn [negb andb] in Hv; case_if_in Hv; [done|lia]].
  apply (f_equal string_bytes) in Eb. rewrite ascii_bytes in Eb by done. rewrite Eb in Hl. change (len (string_bytes "")) with 0 in Hl. lia.
Qed.

(** When all the users of the panel have expired the push leaves none, and the
    start that follows, by hand or after a user was created, ends the daemon. *)
Lemma start_empty_ends w s : server_has w [] → w_daemon w = Some s → s_status s = IDLE → s_socks s = None → w_daemon (clientStart w).2 = None.
Proof.
  intros (s0 & c & Hd & Hl & Hv & Hu & _ & Hc) Hd' Hst Hk. rewrite Hd in Hd'. injection Hd' as ->.
  destruct (start_without_users_is_fatal parseDuration unmarshal net dualStack hostSeed s c Hl Hv Hu Hk Hc) as (q & s1 & E).
  unfold clientStart, ended, run, start. rewrite Hd. unfold serverStartFunc, withDaemon, GetServerStatusWithRPC. cbn [rpc fst]. rewrite Hst. cbn.
  unfold call, rpc. by rewrite E.
Qed.

(** ** A push is accepted *)

Record pushable (p : payload) : Prop := {
  pu_text : payload_text p;
  pu_creds : Forall (λ u, 1 ≤ len (mu_Name u) ≤ 64 ∧ 1 ≤ len (mu_Password u) ≤ 64) (default [] (pl_users p));
  pu_mtu : 1280 ≤ pl_mtu p ≤ 1500;
  pu_ports : is_ret (FlatPortBindings [mkBinding 0 (pl_portRange p) TCP]) = true
}.

(** A daemon that answers, and whose mux is that of a server. *)
Definition ready (s : service V) : Prop :=
  s_status s ≠ UNKNOWN ∧ ∀ id, s_muxRef s = Some id → ∃ mux, s_muxes s !! id = Some mux ∧ m_isClient mux = false.

Lemma payload_valid p : pushable p → patch_ok parseDuration (payloadConfig p).
Proof.
  intros [[_ Ha _ _] Hc Hm Hp]. split; try done.
  - cbn. apply Forall_fmap. rewrite Forall_forall in *. intros u Hu. destruct (Ha u Hu) as [Hn Hw]. destruct (Hc u Hu) as [Hln Hlw].
    assert (Hne : ∀ b, ascii b → 1 ≤ len b → bytes_string b ≠ "").
    { intros b Hb Hl E. apply (f_equal string_bytes) in E. rewrite ascii_bytes in E by done. rewrite E in Hl. change (len (string_bytes "")) with 0 in Hl. lia. }
    unfold ValidateServerConfigSingleUser, validateCredentials. cbn [compose pu_name pu_password pu_hashedPassword pbUser]. rewrite !ascii_bytes by done.
    rewrite !bool_decide_eq_false_2 by (apply Hne; [done|lia]). cbn. rewrite (proj2 (Z.ltb_ge 64 (len (mu_Name u)))), (proj2 (Z.ltb_ge 64 (len (mu_Password u)))) by lia. done.
  - cbn. unfold validateMtu. cbn. case_if; [lia|done].
Qed.

Lemma SetEndpoints_isClient eps (m : Mux V) : m_isClient (SetEndpoints net eps m) = m_isClient m.
Proof.
  assert (Hl : ∀ ps (m : Mux V), m_isClient (listenAll net ps m) = m_isClient m).
  { intros ps. unfold listenAll. induction ps as [|p ps IH]; intros m0; [done|]. cbn. rewrite IH. unfold acceptUnderlayLoop. by repeat case_match. }
  unfold SetEndpoints. repeat case_if; try done. cbn. apply Hl.
Qed.

Lemma reload_ready s c : ready s → Load (ServerControl.s_file s) = Ret c → patch_ok parseDuration c → GetPortBindings c ≠ [] →
  ∃ lines s', reload (Some s) = (Ret lines, Some s') ∧ ready s'.
Proof.
  intros [Hst Hm] Hl Hp Hb. unfold reload, serverReloadFunc, withDaemon, GetServerStatusWithRPC. cbn [rpc fst]. unfold IsServerDaemonRunning.
  rewrite bool_decide_eq_false_2 by done. cbn [is_ret]. unfold call, rpc, Reload. rewrite Hl, (proj2 (ValidateFull_ret parseDuration c)) by done.
  destruct (s_muxRef s) as [id|] eqn:Er; [|eexists _, _; split; [reflexivity|]; split; [done|]; intros id Hid; congruence].
  destruct (Hm id eq_refl) as (mux & Hmux & Hcl). rewrite Hmux. pose proof (ok_ports _ _ Hp) as Hf. destruct (FlatPortBindings (GetPortBindings c)) as [flat| |] eqn:Ef; [|done..].
  destruct (PortBindingsToUnderlayProperties_spec dualStack _ (mtuOf c) flat Ef) as (eps & He & _). unfold reloadMux. rewrite He. cbn [obind].
  unfold SetServerUsers. rewrite SetEndpoints_isClient, Hcl. cbn [obind]. unfold SetServerUserHintIsMandatory. cbn [m_isClient]. eexists _, _. split; [reflexivity|].
  split; [done|]. cbn [s_muxRef s_muxes set_muxes]. intros id' Hid. rewrite Er in Hid. injection Hid as <-. eexists. rewrite lookup_insert_eq.
  split; [reflexivity|]. cbn [m_isClient]. by rewrite ?SetEndpoints_isClient.
Qed.

Lemma push_accepted p w s : pushable p → w_daemon w = Some s → ready s → head (w_tmp w) ≠ Some false →
  ∃ s' w', applyConfigPayload p w = (Ret tt, w') ∧ w_daemon w' = Some s' ∧ ready s' ∧ w_tmp w' = drop 1 (w_tmp w).
Proof.
  intros Hp Hd [Hst Hm] Ht. unfold applyConfigPayload. assert (default true (head (w_tmp w)) = true) as -> by (destruct (w_tmp w) as [|[] ?]; done).
  cbn [negb]. unfold run at 1. cbn [w_daemon]. rewrite Hd. unfold applyConfig, serverApplyConfigFunc, withDaemon, GetServerStatusWithRPC. cbn [rpc fst].
  unfold IsServerDaemonRunning. rewrite bool_decide_eq_false_2 by done. cbn [is_ret obind]. rewrite json_payload by apply Hp. cbn [obind].
  pose proof (payload_valid p Hp) as Hv. rewrite (proj2 (ValidatePatch_ret parseDuration _) Hv). cbn [is_ret].
  destruct (set_config_effect marshal unmarshal marshal_unmarshal (payloadConfig p) s) as (f & Hf & Hl); [done|]. unfold call, rpc. rewrite Hf.
  destruct (reload_ready (set_file f s) (stored (payloadConfig p))) as (lines & s' & Hr & Hready); [by split|done|by apply stored_patch_ok|done|].
  unfold run. cbn [set_daemon w_daemon]. rewrite Hr. eexists s', _. split_and!; [reflexivity|done|done|done].
Qed.
(** ** The start of the panel *)

(** What the panel would send for a configuration at a time. *)
Definition panelPayload (now : Z) (c : Config slice) : payload := sent (mitaUsers now c) (TrimSpace (ServerPortRange c)) (options c).

(** Commands that keep a daemon sound. *)
Lemma run_ok cmd w : (∀ s r s', daemon_ok s → cmd (Some s) = (r, Some s') → daemon_ok s') → (∀ r s', cmd None ≠ (r, Some s')) → world_ok w → world_ok (run cmd w).2.
Proof.
  intros Hc Hn Hw. unfold run. destruct (cmd (w_daemon w)) as [r d] eqn:E.
  assert (world_ok (set_daemon d w)); [|by destruct r].
  intros s' [= ->]. destruct (w_daemon w) as [s|] eqn:Ed; [|by apply Hn in E]. by eapply Hc; [apply Hw|].
Qed.

Lemma setconfig_ok c (s : service V) : daemon_ok s → daemon_ok (SetConfig marshal unmarshal c s).2.
Proof. intros Hs. unfold SetConfig. by destruct (StoreServerConfig marshal c). Qed.

Lemma reload_keeps_ok (s : service V) : daemon_ok s → daemon_ok (Reload parseDuration unmarshal net dualStack s).2.
Proof. intros Hs. unfold Reload. by repeat case_match. Qed.

Lemma apply_ok b w : world_ok w → world_ok (run (applyConfig b) w).2.
Proof.
  intros Hw. apply run_ok; [|done|done]. intros s r s' Hs E. unfold applyConfig, serverApplyConfigFunc, withDaemon, GetServerStatusWithRPC in E. cbn [rpc fst] in E.
  case_if_in E; [|by injection E as <- <-]. revert E. case_match; [|by intros [= <- <-]..]. unfold call, rpc.
  match goal with |- context [SetConfig marshal unmarshal ?c s] => pose proof (setconfig_ok c s Hs) as Hc; destruct (SetConfig marshal unmarshal c s) as [[| |] s1] end;
    cbn in Hc; by intros [= <- <-].
Qed.

Lemma reload_ok w : world_ok w → world_ok (run reload w).2.
Proof.
  intros Hw. apply run_ok; [|done|done]. intros s r s' Hs E. unfold reload, serverReloadFunc, withDaemon, GetServerStatusWithRPC in E. cbn [rpc fst] in E.
  case_if_in E; [|by injection E as <- <-]. revert E. unfold call, rpc. pose proof (reload_keeps_ok s Hs) as Hc.
  destruct (Reload _ _ _ _ s) as [[| |] s1]; cbn in Hc; by intros [= <- <-].
Qed.

Lemma payload_ok p w : world_ok w → world_ok (applyConfigPayload p w).2.
Proof.
  intros Hw. unfold applyConfigPayload. case_if; [exact Hw|].
  pose proof (apply_ok (Some (encodeJSON (payloadJSON p))) (mkWorld (w_daemon w) (drop 1 (w_tmp w)) (w_now w)) Hw) as H1.
  destruct (run (applyConfig _) _) as [[| |] w1]; [|done..]. pose proof (reload_ok w1 H1) as H2. by destruct (run reload w1) as [[| |] w2].
Qed.

Lemma ensure_ok range opts w : world_ok w → world_ok (clientEnsurePortBindings range opts w).2.
Proof. intros Hw. unfold clientEnsurePortBindings. destruct (clientGetConfig w); [case_if; [done|]|..]; by apply payload_ok. Qed.

Lemma bootstrap_ok now a w : world_ok w → world_ok (BootstrapMita now a w).2.
Proof.
  intros Hw. unfold BootstrapMita. cbn [EnsurePortBindings mitaAdapter].
  match goal with |- context [clientEnsurePortBindings ?r ?o w] => pose proof (ensure_ok r o w Hw) as H1; destruct (clientEnsurePortBindings r o w) as [[| |] w1] end; [|done..].
  case_if; [|done]. unfold syncMitaUsers. cbn [ApplyUsers mitaAdapter]. unfold clientApplyUsers.
  match goal with |- context [applyConfigPayload ?p w1] => pose proof (payload_ok p w1 H1) as H2; destruct (applyConfigPayload p w1) as [[| |] w2] end; done.
Qed.

(** A bootstrap that succeeds leaves a server with the users. *)
Lemma bootstrap_has now a w w' : world_ok w → PanelConfig.Users (s_cfg (a_Config a)) ≠ [] → payload_text (panelPayload now (s_cfg (a_Config a))) →
  BootstrapMita now a w = (Ret tt, w') → server_has w' (mitaUsers now (s_cfg (a_Config a))).
Proof.
  intros Hw Hu Hp. assert (Hsnap : Snapshot (a_Config a) = s_cfg (a_Config a)) by (unfold Snapshot, copyConfig; by destruct (s_cfg (a_Config a))).
  unfold BootstrapMita, syncMitaUsers. rewrite Hsnap. cbn [EnsurePortBindings ApplyUsers mitaAdapter].
  match goal with |- context [clientEnsurePortBindings ?r ?o w] => pose proof (ensure_ok r o w Hw) as H1; destruct (clientEnsurePortBindings r o w) as [[| |] w1] end; [|done..].
  cbn in H1. destruct (PanelConfig.Users (s_cfg (a_Config a))) as [|u0 us0] eqn:Eu; [done|]. cbn [length Nat.ltb Nat.leb].
  destruct (clientApplyUsers _ _ _ w1) as [[[]| |] w2] eqn:E; [|done..]. intros [= <-]. by eapply server_apply.
Qed.

(** A reachable server takes the bootstrap. *)
Lemma bootstrap_ready now a w s : pushable (panelPayload now (s_cfg (a_Config a))) → w_daemon w = Some s → ready s →
  Forall (eq true) (take 2 (w_tmp w)) → ∃ w', BootstrapMita now a w = (Ret tt, w').
Proof.
  intros Hp Hd Hr Ht. assert (Hsnap : Snapshot (a_Config a) = s_cfg (a_Config a)) by (unfold Snapshot, copyConfig; by destruct (s_cfg (a_Config a))).
  unfold BootstrapMita, syncMitaUsers. rewrite Hsnap. cbn [EnsurePortBindings ApplyUsers mitaAdapter]. set (c := s_cfg (a_Config a)) in *.
  assert (Hens : ∃ s1 w1, clientEnsurePortBindings (TrimSpace (ServerPortRange c)) (options c) w = (Ret tt, w1) ∧ w_daemon w1 = Some s1 ∧ ready s1 ∧ head (w_tmp w1) ≠ Some false).
  { set (p0 := mkPayload (effectivePortRange (TrimSpace (ServerPortRange c))) None (mo_LoggingLevel (normalize (options c))) (mo_MTU (normalize (options c)))).
    assert (Hp0 : pushable p0) by (destruct Hp as [[? ? ? ?] ? ? ?]; split; [split|..]; done).
    assert (Hacc : ∃ s1 w1, applyConfigPayload p0 w = (Ret tt, w1) ∧ w_daemon w1 = Some s1 ∧ ready s1 ∧ head (w_tmp w1) ≠ Some false).
    { destruct (push_accepted p0 w s Hp0 Hd Hr) as (s1 & w1 & E & H1 & H2 & H3); [by destruct (w_tmp w) as [|[] ?]; inversion Ht|].
      exists s1, w1. split_and!; try done. rewrite H3. destruct (w_tmp w) as [|x [|y t]]; cbn; [done..|]. inversion Ht as [|? ? _ Hy]; subst. inversion Hy; subst. by intros [= <-]. }
    unfold clientEnsurePortBindings. fold p0. destruct (clientGetConfig w); [|exact Hacc..]. case_if; [|exact Hacc].
    exists s, w. split_and!; try done. destruct (w_tmp w) as [|x t]; cbn; [done|]. inversion Ht; subst. by intros [= <-]. }
  destruct Hens as (s1 & w1 & -> & H1 & H2 & H3). case_if; [|by eexists].
  destruct (push_accepted (panelPayload now c) w1 s1 Hp H1 H2 H3) as (s2 & w2 & E & _).
  change (clientApplyUsers _ _ _ w1) with (applyConfigPayload (panelPayload now c) w1). rewrite E. by eexists.
Qed.

(** The world after attempts that failed. *)
Definition worldAfter (pre : list (Z * (world → world))) (a : App) (w : world) : world :=
  foldl (λ w x, x.2 (BootstrapMita x.1 a w).2) w pre.

(** C25: the panel brings the server up to date.  Take a panel with at least one
    user, all of whose names and passwords are ASCII of 1 to 64 bytes, with a known
    logging level, an MTU of 1280 to 1500 and a valid port range.  If at one of the
    first thirty attempts the daemon answers and two temporary files can be
    written, then, whatever the attempts before gave and whatever happened between
    them, short of a proxy that was restarted by a call, the loop at the start of
    the panel succeeds, and the daemon has the users that had not expired at the
    attempt that succeeded, in its file and in the mux that its proxy serves if it
    runs. *)
Theorem bootstrap_recovers pre now meanwhile post a w s :
  (length pre < 30)%nat → PanelConfig.Users (s_cfg (a_Config a)) ≠ [] → (∀ t, pushable (panelPayload t (s_cfg (a_Config a)))) →
  world_ok w → Forall (λ x, ∀ w, world_ok w → world_ok (x.2 w)) pre →
  w_daemon (worldAfter pre a w) = Some s → ready s → Forall (eq true) (take 2 (w_tmp (worldAfter pre a w))) →
  ∃ t w', bootstrapMitaLoop (pre ++ (now, meanwhile) :: post) a w = (true, w') ∧ t ∈ now :: (fst <$> pre) ∧
    server_has w' ((λ u, mkMitaUser (PanelConfig.u_Name u) (PanelConfig.u_Password u)) <$> filter (notExpired t) (PanelConfig.Users (s_cfg (a_Config a)))).
Proof.
  intros Hlen Hu Hp Hw Hpre Hd Hr Ht. setoid_rewrite <- mitaUsers_notExpired. unfold bootstrapMitaLoop.
  assert (∃ post', take 30 (pre ++ (now, meanwhile) :: post) = pre ++ (now, meanwhile) :: post') as [post' ->].
  { exists (take (29 - length pre) post). rewrite take_app_ge by lia. f_equal. by replace (30 - length pre)%nat with (S (29 - length pre)) by lia. }
  clear Hlen post. revert w Hw Hd Ht. induction Hpre as [|[t mw] pre Hmw Hpre IH]; intros w Hw Hd Ht; cbn [app bootstrapAttempts].
  - destruct (bootstrap_ready now a w s (Hp now) Hd Hr Ht) as [w' E]. rewrite E. exists now, w'. split_and!; [done|apply list_elem_of_here|].
    eapply bootstrap_has; [done|done|apply Hp|exact E].
  - pose proof (bootstrap_ok t a w Hw) as Hw1. cbn [worldAfter foldl fst snd] in Hd, Ht.
    destruct (BootstrapMita t a w) as [r w1] eqn:E. cbn [snd] in Hw1, Hd, Ht.
    assert (Hrest : ∃ t0 w', bootstrapAttempts (pre ++ (now, meanwhile) :: post') a (mw w1) = (true, w') ∧ t0 ∈ now :: (fst <$> (t, mw) :: pre) ∧ server_has w' (mitaUsers t0 (s_cfg (a_Config a)))).
    { destruct (IH (mw w1) (Hmw _ Hw1) Hd Ht) as (t0 & w' & E0 & Hin & Hh). exists t0, w'. split_and!; try done. cbn. set_solver. }
    destruct r as [[]| |]; [|exact Hrest..]. exists t, w1. split_and!; [done|cbn; set_solver|]. exact (bootstrap_has t a w w1 Hw Hu (pu_text _ (Hp t)) E).
Qed.
End Client.

(** ** Witnesses

    The users of PanelUsers on a daemon in the network of Mux. *)

#[local] Existing Instance demoWriter.
#[local] Existing Instance demoUnderlay.
#[local] Existing Instance demoUnderlayLaws.

Definition demoEncodeJSON (j : json) : bytes := match readServerConfig j with Some c => [Zpos (encode c)] | None => [] end.
Lemma demo_json j c : jsonText j = true → readServerConfig j = Some c → demoUnmarshal (demoEncodeJSON j) = Ret c.
Proof. intros _ E. unfold demoEncodeJSON. rewrite E. cbn. by rewrite decode_encode. Qed.

Definition demoAdapter : MitaClient (world (V := demoV)) :=
  mitaAdapter (λ _, Ret 0) demoMarshal demoUnmarshal demoMarshal demoUnmarshal demoEncodeJSON (λ _, None) Datatypes.id demoNetwork false 42.
(** A daemon that was run with a valid configuration: its proxy serves. *)
Definition demoDaemon : service demoV := (demoRun (demoService [1])).2.
Definition demoWorld : world := mkWorld (Some demoDaemon) [] 0.

Lemma demo_ready : ready demoDaemon.
Proof.
  split; [vm_compute; discriminate|]. intros i Hid. assert (Href : s_muxRef demoDaemon = Some 0%nat) by (vm_compute; reflexivity).
  assert (Hc : ∀ i, i = 0%nat → m_isClient <$> s_muxes demoDaemon !! i = Some false) by (intros ? ->; vm_compute; reflexivity).
  rewrite Href in Hid. injection Hid as Hid. specialize (Hc i (eq_sym Hid)). apply fmap_Some in Hc as (mux & E & Hc). exists mux. split; [exact E|exact (eq_sym Hc)].
Qed.
Lemma demo_daemon_ok : daemon_ok demoDaemon.
Proof.
  apply (Run_daemon_ok (λ _, Ret 0) demoParse demoNetwork false 42 (demoService [1])); [|exact empty_coherent|reflexivity].
  exact (ret_pair (demoRun (demoService [1])) ltac:(vm_compute; reflexivity)).
Qed.
Lemma demo_world_ok d : world_ok (mkWorld (V := demoV) (if d : bool then Some demoDaemon else None) [] 0).
Proof. intros s Hs. destruct d; [|discriminate Hs]. change (Some demoDaemon = Some s) in Hs. rewrite <- (Some_inj _ _ Hs). exact demo_daemon_ok. Qed.

(** A change of the device limit of ann. *)
Definition demoChange : panelOp := OUpdate demoNow None (Some (mkUpdate None None None (Some 3))) (string_bytes "ann").
Definition demoChanged : App :=
  (updateConfig demoLibs None (changeUser (string_bytes "ann") (λ u h, (patchUser (mkUpdate None None None (Some 3)) u, h))) demoPanel).2.

Lemma demo_mitaUsers t a : a = demoPanel ∨ a = demoChanged → mitaUsers t (s_cfg (a_Config a)) =
  [mkMitaUser (string_bytes "ann") (string_bytes "pw1"); mkMitaUser (string_bytes "bob") (string_bytes "pw2")].
Proof. intros [-> | ->]; vm_compute; reflexivity. Qed.

Lemma demo_pushable t a : a = demoPanel ∨ a = demoChanged → pushable (panelPayload t (s_cfg (a_Config a))).
Proof.
  intros Ha. unfold panelPayload. rewrite (demo_mitaUsers t a Ha).
  assert (TrimSpace (ServerPortRange (s_cfg (a_Config a))) = [] ∧ options (s_cfg (a_Config a)) = mkOptions [] 1400 []) as [-> ->].
  { destruct Ha as [-> | ->]; split; vm_compute; reflexivity. }
  assert (Hascii : ∀ b, forallb (λ c, (0 <=? c) && (c <? 128)) b = true → ascii b).
  { intros b Hb. apply Forall_forall. intros c Hc. rewrite forallb_forall in Hb. specialize (Hb c (proj1 (list_elem_of_In b c) Hc)). lia. }
  split; [split|..].
  - apply Hascii. vm_compute. reflexivity.
  - cbn [sent pl_users default]. do 2 (apply Forall_cons; split; [split; apply Hascii; vm_compute; reflexivity|]). constructor.
  - vm_compute. discriminate.
  - vm_compute. split; [discriminate|reflexivity].
  - repeat constructor; vm_compute; discriminate.
  - vm_compute. split; discriminate.
  - vm_compute. reflexivity.
Qed.

Lemma demo_change : ∃ w', @panelStep _ demoAdapter demoLibs Datatypes.id demoGrow demoChange demoPanel demoWorld = (200, demoChanged, w').
Proof.
  assert (Hu : updateConfig demoLibs None (changeUser (string_bytes "ann") (λ u h, (patchUser (mkUpdate None None None (Some 3)) u, h))) demoPanel = (Ret tt, demoChanged)).
  { vm_compute. reflexivity. }
  destruct (push_accepted (λ _, Ret 0) demoMarshal demoUnmarshal demoUnmarshal demoEncodeJSON demoNetwork false demo_json (λ c _, demo_marshal_unmarshal c)
    (panelPayload demoNow (s_cfg (a_Config demoChanged))) demoWorld demoDaemon (demo_pushable demoNow demoChanged (or_intror eq_refl)) eq_refl demo_ready)
    as (s' & w' & E & _); [discriminate|].
  exists w'. cbn [panelStep demoChange]. unfold updateUser. rewrite Hu. unfold pushed, syncMitaUsers.
  assert (Snapshot (a_Config demoChanged) = s_cfg (a_Config demoChanged)) as -> by (vm_compute; reflexivity).
  cbn [ApplyUsers demoAdapter mitaAdapter]. unfold clientApplyUsers. unfold panelPayload, sent in E. rewrite E. reflexivity.
Qed.


(** The daemon starts while the panel waits after its first attempt. *)
Lemma bootstrap_recovers_witness : ∃ t w',
  @bootstrapMitaLoop _ demoAdapter [(demoNow, λ _, demoWorld); (demoNow + 2 * Second, Datatypes.id)] demoPanel (mkWorld None [] 0) = (true, w') ∧
  server_has (λ _, Ret 0) demoUnmarshal w'
    ((λ u, mkMitaUser (PanelConfig.u_Name u) (PanelConfig.u_Password u)) <$> filter (notExpired t) (PanelConfig.Users (s_cfg (a_Config demoPanel)))).
Proof.
  destruct (bootstrap_recovers (λ _, Ret 0) demoMarshal demoUnmarshal demoMarshal demoUnmarshal demoEncodeJSON (λ _, None) Datatypes.id demoNetwork false 42
    demo_json (λ c _, demo_marshal_unmarshal c) [(demoNow, λ _, demoWorld)] (demoNow + 2 * Second) Datatypes.id [] demoPanel (mkWorld None [] 0) demoDaemon) as (t & w' & H1 & _ & H2).
  - cbn. lia.
  - vm_compute. discriminate.
  - intros t. exact (demo_pushable t demoPanel (or_introl eq_refl)).
  - exact (demo_world_ok false).
  - apply Forall_singleton. intros w _. exact (demo_world_ok true).
  - reflexivity.
  - exact demo_ready.
  - constructor.
  - exists t, w'. split; [exact H1|exact H2].
Defined.

End PanelMita.
Export PanelMita.
