(* ===== verification/PanelStats.v ===== *)
(** * Traffic statistics in the panel: mieru-panel/pkg/mita/client.go, handlers
    users.go and stats.go

    The panel reads the tables that the commands of the server print.  The parsers
    of the two tables share their first half, which is one definition here.  The
    regular expression [\s{2,}] is a loop over the line. *)

From S2P Require Import Prelude Float Net Egress SessionState Mux ConfigServer Metrics CliTables PanelText PanelConfig PanelAuth PanelUsers PanelSettings PanelMita.
From Stdlib Require Import ZifyBool.
Local Open Scope Z_scope.

Module PanelStats.

(** ** Tables *)

Definition blank (c : Z) : bool := bool_decide (c ∈ [9; 10; 12; 13; 32]).

(** The fields of a line, separated by two or more blanks: [cur] is the field so
    far and [sp] the blanks after it. *)
Fixpoint splitRuns (cur sp s : bytes) : list bytes :=
  match s with
  | [] => if 2 <=? len sp then [cur; []] else [cur ++ sp]
  | c :: s =>
      if blank c then splitRuns cur (sp ++ [c]) s
      else if 2 <=? len sp then cur :: splitRuns [c] [] s
      else splitRuns (cur ++ sp ++ [c]) [] s
  end.

Fixpoint dropWhile (p : Z → bool) (s : bytes) : bytes := match s with c :: s' => if p c then dropWhile p s' else s | [] => [] end.
Definition trimRightSet (p : Z → bool) (s : bytes) : bytes := rev (dropWhile p (rev s)).

Definition HasPrefix (s p : bytes) : bool := bool_decide (take (length p) s = p).

(** The columns of a line by the names of the header. *)
Definition colByName (header cols : list bytes) : gmap bytes bytes :=
  foldl (λ m x, <[x.1 := TrimSpace x.2]> m) ∅ (zip header cols).

(** The rows after the first line that begins with the word. *)
Fixpoint tableRows (word : bytes) (header : option (list bytes)) (lines : list bytes) : list (gmap bytes bytes) :=
  match lines with
  | [] => []
  | raw :: lines =>
      let line := trimRightSet (λ c, bool_decide (c ∈ [32; 9; 13])) raw in
      if bool_decide (TrimSpace line = []) then tableRows word header lines
      else
        let cols := splitRuns [] [] (dropWhile (λ c, c =? 32) line) in
        match header with
        | None => if HasPrefix (TrimSpace line) word then tableRows word (Some cols) lines else tableRows word None lines
        | Some h => colByName h cols :: tableRows word header lines
        end
  end.
Definition parseRows (word out : bytes) : list (gmap bytes bytes) :=
  if bool_decide (TrimSpace out = []) then [] else tableRows word None (Split 10 out).

Definition col (m : gmap bytes bytes) (name : string) : bytes := default [] (m !! string_bytes name).

Record UserMetricsRow := mkMetricsRow {
  um_Name : bytes; um_LastActive : bytes; um_DayDown : bytes; um_DayUp : bytes;
  um_WeekDown : bytes; um_WeekUp : bytes; um_MonthDown : bytes; um_MonthUp : bytes
}.

Definition clean (s : bytes) : bytes := let s := TrimSpace s in if bool_decide (s = string_bytes "-") then [] else s.

Definition metricsRow (m : gmap bytes bytes) : UserMetricsRow :=
  mkMetricsRow (col m "User") (clean (col m "LastActive")) (clean (col m "1DayDown")) (clean (col m "1DayUp"))
    (clean (col m "7DaysDown")) (clean (col m "7DaysUp")) (clean (col m "30DaysDown")) (clean (col m "30DaysUp")).

(** A later row of the same name replaces an earlier one. *)
Definition parseGetUsersTable (out : bytes) : gmap bytes UserMetricsRow :=
  foldl (λ r m, if bool_decide (col m "User" = []) then r else <[col m "User" := metricsRow m]> r) ∅ (parseRows (string_bytes "User") out).

Record ConnectionInfo := mkConnection {
  ci_SessionID : bytes; ci_Protocol : bytes; ci_Local : bytes; ci_Remote : bytes; ci_State : bytes;
  ci_RecvQ : bytes; ci_SendQ : bytes; ci_LastRecv : bytes; ci_LastSend : bytes
}.

Definition connectionRow (m : gmap bytes bytes) : ConnectionInfo :=
  mkConnection (col m "SessionID") (col m "Protocol") (col m "Local") (col m "Remote") (col m "State")
    (col m "RecvQ+Buf") (col m "SendQ+Buf") (col m "LastRecv") (col m "LastSend").
Definition parseConnectionsTable (out : bytes) : list ConnectionInfo :=
  filter (λ r, ci_SessionID r ≠ []) (connectionRow <$> parseRows (string_bytes "SessionID") out).

Definition arrowDown : bytes := [226; 134; 147; 32].
Definition arrowUp : bytes := [226; 134; 145; 32].
Definition combineDownUp (down up : bytes) : bytes :=
  let d := TrimSpace down in let u := TrimSpace up in
  if bool_decide (d = []) && bool_decide (u = []) then []
  else if bool_decide (u = []) then arrowDown ++ d
  else if bool_decide (d = []) then arrowUp ++ u
  else arrowDown ++ d ++ string_bytes " / " ++ arrowUp ++ u.

Record UserStats := mkStats { us_Name : bytes; us_TodayRaw : bytes; us_MonthRaw : bytes; us_TotalRaw : bytes; us_RawRecord : bytes }.

(** The metrics of a failed command are empty. *)
Definition statsOf (metrics : gmap bytes UserMetricsRow) (name : bytes) : UserStats :=
  match metrics !! name with
  | Some m => mkStats name (combineDownUp (um_DayDown m) (um_DayUp m)) (combineDownUp (um_MonthDown m) (um_MonthUp m))
                (combineDownUp (um_MonthDown m) (um_MonthUp m)) (um_LastActive m)
  | None => mkStats name [] [] [] []
  end.
Definition GetUsers (config : outcome describeConfigEnvelope) (users : outcome bytes) : outcome (list UserStats) :=
  let! env := config in
  let metrics := match users with Ret out => parseGetUsersTable out | _ => ∅ end in
  Ret (statsOf metrics <$> filter (λ n, n ≠ []) ((λ u, TrimSpace (du_Name u)) <$> de_Users env)).

(** ** The list of users in the panel (handlers/users.go) *)

Record userItem := mkItem {
  it_User : PanelConfig.User slice; it_trafficDay : bytes; it_trafficMon : bytes; it_lastActive : bytes; it_expired : bool
}.

(** No statistics when they could not be read. *)
Definition statsByName (stats : outcome (list UserStats)) : gmap bytes UserStats :=
  match stats with Ret l => foldl (λ m s, <[us_Name s := s]> m) ∅ l | _ => ∅ end.

Definition listUsers (now : Z) (stats : outcome (list UserStats)) (a : App) : list userItem :=
  let cfg := Snapshot (a_Config a) in
  (λ u, let stat := default (mkStats [] [] [] [] []) (statsByName stats !! PanelConfig.u_Name u) in
        mkItem u (us_TodayRaw stat) (us_MonthRaw stat) (us_RawRecord stat) (expired (Unix now) u)) <$> PanelConfig.Users cfg.

(** ** Other outputs *)

Fixpoint lastIndex (c : Z) (s : bytes) : option nat :=
  match s with
  | [] => None
  | x :: s => match lastIndex c s with Some i => Some (S i) | None => if x =? c then Some 0%nat else None end
  end.

(** From the first opening to the last closing brace. *)
Definition extractJSONObject (s : bytes) : bytes :=
  let s := TrimSpace s in
  let s := match IndexByte 123 s with Some i => drop i s | None => s end in
  let s := match lastIndex 125 s with Some j => take (S j) s | None => s end in
  TrimSpace s.

Definition firstLine (s : bytes) : bytes := match IndexByte 10 s with Some i => TrimSpace (take i s) | None => TrimSpace s end.

(** The ring of [Logs]: the last lines. *)
Definition logRing (n : nat) (lines : list bytes) : list bytes :=
  foldl (λ ring l, if (length ring =? n)%nat then drop 1 ring ++ [l] else ring ++ [l]) [] lines.

(** * Properties *)

(** ** Fields *)

(** Visible characters with single spaces between them; [b]: the character before
    was a space. *)
Fixpoint spaced (b : bool) (s : bytes) : bool :=
  match s with
  | [] => negb b
  | c :: s => if c =? 32 then negb b && spaced true s else (33 <=? c) && (c <? 127) && spaced false s
  end.
Definition tidy (f : bytes) : Prop := spaced true f = true.

Lemma blank_visible c : 33 ≤ c < 127 → blank c = false.
Proof. intros Hc. unfold blank. apply bool_decide_eq_false_2. rewrite !elem_of_cons, elem_of_nil. lia. Qed.

Lemma split_spaced f : ∀ b cur rest, spaced b f = true →
  splitRuns cur (if b then [32] else []) (f ++ rest) = splitRuns (cur ++ (if b then [32] else []) ++ f) [] rest.
Proof.
  induction f as [|c f IH]; intros b cur rest Hf; cbn in Hf.
  { destruct b; [done|]. cbn. by rewrite app_nil_r. }
  cbn [app splitRuns]. destruct (Z.eqb_spec c 32) as [->|Hne].
  - destruct b; [done|]. cbn in Hf. change (blank 32) with true. cbn [app]. rewrite (IH true) by done. done.
  - rewrite blank_visible by lia. assert (2 <=? len (if b then [32] else []) = false) as -> by (by destruct b).
    rewrite (IH false) by lia. f_equal. by rewrite <- !app_assoc.
Qed.

Lemma tidy_first f : tidy f → ∃ c f', f = c :: f' ∧ 33 ≤ c < 127 ∧ spaced false f' = true.
Proof. unfold tidy. destruct f as [|c f]; [done|]. cbn. destruct (Z.eqb_spec c 32); [done|]. intros Hf. exists c, f. split; [done|lia]. Qed.

Lemma split_tidy f cur sp rest : tidy f → (cur = [] ∧ sp = []) ∨ 2 ≤ len sp →
  splitRuns cur sp (f ++ rest) = (if 2 <=? len sp then [cur] else []) ++ splitRuns f [] rest.
Proof.
  intros (c & f' & -> & Hc & Hf)%tidy_first Hs. cbn [app splitRuns]. rewrite blank_visible by lia.
  destruct Hs as [[-> ->]|Hs].
  - cbn [app]. change (2 <=? len []) with false. cbn [app]. by rewrite (split_spaced f' false) by done.
  - rewrite (proj2 (Z.leb_le _ _)) by lia. cbn [app]. f_equal. by rewrite (split_spaced f' false) by done.
Qed.

Lemma split_blanks k : ∀ cur sp rest, splitRuns cur sp (replicate k 32 ++ rest) = splitRuns cur (sp ++ replicate k 32) rest.
Proof.
  induction k as [|k IH]; intros cur sp rest; [by rewrite app_nil_r|]. cbn [replicate app splitRuns]. change (blank 32) with true. cbn [app].
  rewrite IH. by rewrite <- app_assoc.
Qed.

(** A line of fields, each followed by a number of blanks. *)
Definition lineOf (fs : list (bytes * nat)) : bytes := concat ((λ x, x.1 ++ replicate x.2 32) <$> fs).

Lemma split_line fs : ∀ cur sp f, Forall (λ x, tidy x.1 ∧ (2 ≤ x.2)%nat) fs → tidy f → (cur = [] ∧ sp = []) ∨ 2 ≤ len sp →
  splitRuns cur sp (lineOf fs ++ f) = (if 2 <=? len sp then [cur] else []) ++ (fst <$> fs) ++ [f].
Proof.
  induction fs as [|[g k] fs IH]; intros cur sp f Hfs Hf Hs; cbn.
  - rewrite <- (app_nil_r f) at 1. rewrite split_tidy by done. cbn. by rewrite app_nil_r.
  - apply Forall_cons in Hfs as [[Hg Hk] Hfs]. cbn in Hg, Hk. unfold lineOf in *. rewrite <- !app_assoc, split_tidy by done. f_equal.
    rewrite split_blanks. cbn [app]. assert (2 ≤ len (replicate k 32)) by (unfold len; rewrite length_replicate; lia).
    rewrite IH by auto. by rewrite (proj2 (Z.leb_le _ _)) by lia.
Qed.

(** ** Trimming *)

Lemma spaced_last f : ∀ b, spaced b f = true → f ≠ [] → ∃ f' c, f = f' ++ [c] ∧ 33 ≤ c < 127.
Proof.
  induction f as [|c f IH]; intros b Hf Hne; [done|]. cbn in Hf. destruct f as [|d f].
  - destruct (Z.eqb_spec c 32); cbn in Hf; [by rewrite andb_false_r in Hf|]. exists [], c. split; [done|lia].
  - destruct (IH (c =? 32)) as (f' & e & -> & He); [|done|exists (c :: f'), e; done].
    destruct (Z.eqb_spec c 32); by apply andb_true_iff in Hf as [_ Hf].
Qed.

Lemma tidy_ends f : tidy f → ∃ x f' y, (f = [x] ∧ x = y ∨ f = x :: f' ++ [y]) ∧ 33 ≤ x < 127 ∧ 33 ≤ y < 127.
Proof.
  intros Hf. pose proof (tidy_first f Hf) as (x & f1 & -> & Hx & H1). destruct f1 as [|d f1]; [exists x, [], x; auto|].
  destruct (spaced_last (d :: f1) false H1) as (f2 & y & -> & Hy); [done|]. exists x, f2, y. auto.
Qed.

(** Text that begins and ends with a visible character. *)
Definition solid (s : bytes) : Prop := (∃ x, head s = Some x ∧ 33 ≤ x < 127) ∧ ∃ y, last s = Some y ∧ 33 ≤ y < 127.

Lemma tidy_solid f : tidy f → solid f.
Proof.
  intros (x & f' & y & [[-> ->]| ->] & Hx & Hy)%tidy_ends; split; eexists; (split; [cbn; try done|done]).
  rewrite app_comm_cons, last_snoc. done.
Qed.

Lemma solid_app s t u : solid s → solid u → solid (s ++ t ++ u).
Proof.
  intros [(x & Hx & Hx') _] [_ (y & Hy & Hy')]. split.
  - exists x. split; [|done]. by destruct s.
  - exists y. split; [|done]. rewrite !last_app, Hy. by destruct s.
Qed.

Lemma line_solid fs f : Forall (λ x, tidy x.1 ∧ (2 ≤ x.2)%nat) fs → tidy f → solid (lineOf fs ++ f).
Proof.
  intros Hfs Hf. destruct fs as [|[g k] fs]; [by apply tidy_solid|]. apply Forall_cons in Hfs as [[Hg _] _]. cbn.
  unfold lineOf. cbn. rewrite <- !app_assoc. replace (g ++ replicate k 32 ++ concat ((λ x, x.1 ++ replicate x.2 32) <$> fs) ++ f)
    with (g ++ (replicate k 32 ++ concat ((λ x, x.1 ++ replicate x.2 32) <$> fs)) ++ f) by (by rewrite !app_assoc).
  apply solid_app; by apply tidy_solid.
Qed.

Lemma stripAll_stop fuel ps c s : (∀ p, p ∈ ps → ∃ d p', p = d :: p' ∧ d ≠ c) → stripAll fuel ps (c :: s) = c :: s.
Proof.
  intros Hp. destruct fuel as [|fuel]; [done|]. cbn [stripAll]. assert (omap (λ p, stripPrefix p (c :: s)) ps = []) as ->; [|done].
  induction ps as [|p ps IH]; [done|]. cbn. destruct (Hp p) as (d & p' & -> & Hd); [apply list_elem_of_here|].
  unfold stripPrefix. rewrite bool_decide_eq_false_2 by (cbn; by intros [= <- _]). apply IH. intros q Hq. apply Hp. by apply list_elem_of_further.
Qed.

Lemma stripAll_one fuel pre c post s : (∀ p, p ∈ pre → ∃ d p', p = d :: p' ∧ d ≠ c) →
  stripAll (S fuel) (pre ++ [c] :: post) (c :: s) = stripAll fuel (pre ++ [c] :: post) s.
Proof.
  intros Hp. cbn [stripAll]. rewrite omap_app. assert (omap (λ p, stripPrefix p (c :: s)) pre = []) as ->.
  { induction pre as [|p pre IH]; [done|]. cbn. destruct (Hp p) as (d & p' & -> & Hd); [apply list_elem_of_here|].
    unfold stripPrefix. rewrite bool_decide_eq_false_2 by (cbn; by intros [= <- _]). apply IH. intros q Hq. apply Hp. by apply list_elem_of_further. }
  assert (Hs : stripPrefix [c] (c :: s) = Some s) by (unfold stripPrefix; by rewrite bool_decide_eq_true_2).
  cbn [omap list_omap app]. by rewrite Hs.
Qed.

(** No space starts or ends with a visible character. *)
Lemma spaces_heads c : 33 ≤ c < 127 → (∀ p, p ∈ spaces → ∃ d p', p = d :: p' ∧ d ≠ c) ∧ (∀ p, p ∈ map (@rev Z) spaces → ∃ d p', p = d :: p' ∧ d ≠ c).
Proof.
  intros Hc. split; intros p Hp; unfold spaces in Hp; cbn in Hp; rewrite !elem_of_cons, elem_of_nil in Hp;
    destruct_or!; subst; eexists _, _; (split; [reflexivity|lia]).
Qed.

Lemma strip_trailing t s fuel : Forall (λ c, c = 32 ∨ c = 10) t → (∃ y, head s = Some y ∧ 33 ≤ y < 127) → (length t ≤ fuel)%nat →
  stripAll fuel (map (@rev Z) spaces) (t ++ s) = s.
Proof.
  intros Ht (y & Hy & Hy'). revert fuel. induction Ht as [|c t Hc Ht IH]; intros fuel Hf; cbn [app].
  - destruct s as [|z s]; [done|]. injection Hy as ->. apply stripAll_stop. by apply (spaces_heads y).
  - destruct fuel as [|fuel]; [cbn in Hf; lia|]. cbn in Hf. rewrite <- (IH fuel) at 2 by lia.
    destruct Hc as [->| ->]; [apply (stripAll_one fuel [[9]; [10]; [11]; [12]; [13]] 32)|apply (stripAll_one fuel [[9]] 10)];
      intros p Hp; rewrite !elem_of_cons, elem_of_nil in Hp; destruct_or!; subst; eexists _, _; (split; [reflexivity|lia]).
Qed.

Lemma TrimSpace_solid s t : solid s → Forall (λ c, c = 32 ∨ c = 10) t → TrimSpace (s ++ t) = s.
Proof.
  intros [(x & Hx & Hx') (y & Hy & Hy')] Ht. unfold TrimSpace. assert (TrimLeftSpace (s ++ t) = s ++ t) as ->.
  { unfold TrimLeftSpace. destruct s as [|z s]; [done|]. injection Hx as ->. apply stripAll_stop. by apply (spaces_heads x). }
  unfold TrimRightSpace. rewrite rev_app_distr, strip_trailing, rev_involutive; [done|..].
  - rewrite Forall_forall in *. intros c Hc. apply Ht. rewrite list_elem_of_In in *. by apply in_rev.
  - exists y. split; [|done]. rewrite rev_alt. change (rev_append s []) with (reverse s). by rewrite head_reverse.
  - rewrite length_rev, length_app. lia.
Qed.

Lemma dropWhile_stop p c s : p c = false → dropWhile p (c :: s) = c :: s.
Proof. intros Hp. cbn. by rewrite Hp. Qed.

Lemma dropWhile_all p t s : Forall (λ c, p c = true) t → dropWhile p (t ++ s) = dropWhile p s.
Proof. induction 1 as [|c t Hc _ IH]; [done|]. cbn. by rewrite Hc. Qed.

Lemma trimRight_solid k s : solid s → trimRightSet (λ c, bool_decide (c ∈ [32; 9; 13])) (s ++ replicate k 32) = s.
Proof.
  intros [_ (y & Hy & Hy')]. unfold trimRightSet. rewrite rev_app_distr, dropWhile_all.
  - apply last_Some in Hy as [s' ->]. rewrite rev_app_distr. cbn [rev app]. rewrite dropWhile_stop; [by rewrite <- rev_unit, rev_involutive|].
    apply bool_decide_eq_false_2. rewrite !elem_of_cons, elem_of_nil. lia.
  - rewrite Forall_forall. intros c Hc. rewrite list_elem_of_In, <- in_rev, <- list_elem_of_In in Hc. by apply elem_of_replicate_inv in Hc as ->.
Qed.

(** ** Lines of a table *)

Lemma join_cons delim x y l : join delim (x :: y :: l) = x ++ delim ++ join delim (y :: l).
Proof. cbn. by rewrite <- !app_assoc. Qed.

Lemma row_line fs : ∀ ws f, length ws = S (length fs) → ∃ ks k, length ks = length fs ∧ Forall (λ n : nat, (2 ≤ n)%nat) ks ∧
  join twoSpaces (zip_with padRight ws (fs ++ [f])) = lineOf (zip fs ks) ++ f ++ replicate k 32.
Proof.
  induction fs as [|g fs IH]; intros ws f Hw; destruct ws as [|w ws]; try done; injection Hw as Hw.
  - exists [], (Z.to_nat (w - runes f)). destruct ws; [|done]. split_and!; [done|constructor|]. cbn. by rewrite app_nil_r.
  - destruct (IH ws f Hw) as (ks & k & Hl & Hk & E). set (n := Z.to_nat (w - runes g)). exists ((n + 2)%nat :: ks), k.
    split_and!; [cbn; congruence|constructor; [lia|done]|].
    destruct (zip_with padRight ws (fs ++ [f])) as [|y l] eqn:Ez.
    { apply (f_equal length) in Ez. rewrite length_zip_with, length_app in Ez. cbn in Ez. lia. }
    cbn [app zip_with]. rewrite Ez, join_cons, E. unfold lineOf, padRight. cbn. fold n. rewrite replicate_add. cbn. by rewrite <- !app_assoc.
Qed.

(** A row as printed, up to the blanks at its end. *)
Definition row_printed (row : list bytes) (raw : bytes) : Prop :=
  ∃ fs f ks k, row = fs ++ [f] ∧ Forall tidy row ∧ length ks = length fs ∧ Forall (λ n : nat, (2 ≤ n)%nat) ks ∧ raw = lineOf (zip fs ks) ++ f ++ replicate k 32.

Lemma zip_ok fs ks : Forall tidy fs → Forall (λ n : nat, (2 ≤ n)%nat) ks → length ks = length fs → Forall (λ x, tidy x.1 ∧ (2 ≤ x.2)%nat) (zip fs ks).
Proof. intros Hf Hk Hl. apply Forall_forall. intros [g n] Hin. split; [eapply (proj1 (Forall_forall _ _) Hf), elem_of_zip_l|eapply (proj1 (Forall_forall _ _) Hk), elem_of_zip_r]; exact Hin. Qed.

Lemma tidy_chars f : tidy f → Forall (λ c, 32 ≤ c < 127) f.
Proof.
  unfold tidy. generalize true at 1. induction f as [|c f IH]; intros b Hf; [constructor|]. cbn in Hf.
  destruct (Z.eqb_spec c 32) as [->|]; [apply andb_true_iff in Hf as [_ Hf]|apply andb_true_iff in Hf as [Hc Hf]]; constructor; eauto; lia.
Qed.

(** The parts of a printed row: a solid text that splits into the fields, then
    blanks; no end of line anywhere. *)
Lemma row_parts row raw : row_printed row raw → ∃ s k, raw = s ++ replicate k 32 ∧ solid s ∧ splitRuns [] [] s = row ∧ 10 ∉ raw ∧ ∃ t, s = default [] (head row) ++ t.
Proof.
  intros (fs & f & ks & k & -> & Ht & Hl & Hk & ->). apply Forall_app in Ht as [Hfs Hf]. apply (proj1 (Forall_singleton _ _)) in Hf.
  pose proof (zip_ok fs ks Hfs Hk Hl) as Hz. exists (lineOf (zip fs ks) ++ f), k. split; [by rewrite app_assoc|split; [by apply line_solid|split; [|split]]].
  - rewrite split_line by auto. cbn. by rewrite fst_zip by lia.
  - rewrite !not_elem_of_app. split_and!.
    + unfold lineOf. rewrite list_elem_of_In, in_concat. intros (l & Hl' & Hin). apply list_elem_of_In in Hl', Hin.
      apply list_elem_of_fmap in Hl' as ([g n] & -> & Hg). rewrite Forall_forall in Hz. destruct (Hz _ Hg) as [Hgt _]. cbn in Hgt, Hin.
      apply elem_of_app in Hin as [Hin|Hin]; [|by apply elem_of_replicate_inv in Hin].
      apply tidy_chars in Hgt. rewrite Forall_forall in Hgt. specialize (Hgt _ Hin). lia.
    + intros Hin. apply tidy_chars in Hf. rewrite Forall_forall in Hf. specialize (Hf _ Hin). lia.
    + intros Hin. by apply elem_of_replicate_inv in Hin.
  - destruct fs as [|g fs]; [exists []; cbn; by rewrite app_nil_r|]. destruct ks as [|n ks]; [done|]. unfold lineOf. cbn. rewrite <- !app_assoc. by eexists.
Qed.

Lemma solid_ne s : solid s → s ≠ [].
Proof. intros [(x & Hx & _) _]. by destruct s. Qed.

Lemma TrimSpace_self s : solid s → TrimSpace s = s.
Proof. intros Hs. rewrite <- (app_nil_r s) at 1. apply TrimSpace_solid; [done|constructor]. Qed.

Lemma drop_spaces s : solid s → dropWhile (λ c, c =? 32) s = s.
Proof. intros [(x & Hx & Hx') _]. destruct s as [|z s]; [done|]. injection Hx as ->. apply dropWhile_stop. lia. Qed.

Lemma tableRows_rows word h rows raws : Forall2 row_printed rows raws → tableRows word (Some h) raws = colByName h <$> rows.
Proof.
  induction 1 as [|row raw rows raws Hr _ IH]; [done|]. apply row_parts in Hr as (s & k & -> & Hs & Hsp & _). cbn [tableRows].
  rewrite trimRight_solid by done. rewrite TrimSpace_self by done. rewrite bool_decide_eq_false_2 by (by apply solid_ne).
  rewrite drop_spaces by done. by rewrite Hsp, IH.
Qed.

Lemma tableRows_header word row raw raws : row_printed row raw → head row = Some word →
  tableRows word None (raw :: raws) = tableRows word (Some row) raws.
Proof.
  intros Hr Hw. apply row_parts in Hr as (s & k & -> & Hs & Hsp & _ & t & Ht). rewrite Hw in Ht. cbn in Ht. cbn [tableRows].
  rewrite trimRight_solid by done. rewrite TrimSpace_self by done. rewrite bool_decide_eq_false_2 by (by apply solid_ne).
  assert (HasPrefix s word = true) as -> by (unfold HasPrefix; apply bool_decide_eq_true_2; rewrite Ht; by rewrite take_app_length).
  rewrite drop_spaces by done. by rewrite Hsp.
Qed.

(** ** The output of a command *)

(** The lines of the trimmed output are the printed rows again. *)
Lemma output_lines rows : ∀ lines, rows ≠ [] → Forall2 row_printed rows lines →
  ∃ raws, Forall2 row_printed rows raws ∧ Split 10 (TrimSpace (printed lines)) = raws ∧ TrimSpace (printed lines) ≠ [] ∧
    solid (TrimSpace (printed lines)) ∧ ∃ t, Forall (λ c, c = 32 ∨ c = 10) t ∧ printed lines = TrimSpace (printed lines) ++ t.
Proof.
  induction rows as [|row rows IH]; intros lines Hne Hall; [done|]. inversion Hall as [|? raw ? lines' Hr Hrest]; subst.
  pose proof Hr as (fs & f & ks & k & Hrow & Ht & Hl & Hk & Hraw). pose proof (row_parts _ _ Hr) as (s & k' & Hs & Hsolid & Hsp & Hnl & _).
  destruct rows as [|row2 rows].
  - inversion Hrest; subst lines'. assert (Hp : printed [raw] = s ++ (replicate k' 32 ++ [10])) by (unfold printed; cbn; rewrite app_nil_r, Hs; by rewrite <- app_assoc).
    assert (Hb : Forall (λ c, c = 32 ∨ c = 10) (replicate k' 32 ++ [10])).
    { apply Forall_app. split; [apply Forall_replicate; by left|constructor; [by right|constructor]]. }
    assert (Htr : TrimSpace (printed [raw]) = s) by (rewrite Hp; by apply TrimSpace_solid). rewrite Htr.
    exists [s]. split_and!; [|by rewrite Split_none by (rewrite Hs in Hnl; set_solver)|by apply solid_ne|done|].
    + constructor; [|constructor]. exists fs, f, ks, 0%nat. split_and!; try done. cbn. rewrite app_nil_r.
      rewrite Hraw in Hs.
      assert (Hx : trimRightSet (λ c, bool_decide (c ∈ [32; 9; 13])) (lineOf (zip fs ks) ++ f ++ replicate k 32) = lineOf (zip fs ks) ++ f).
      { rewrite app_assoc. apply trimRight_solid. subst row. apply Forall_app in Ht as [Hfs Hf]. apply line_solid; [by apply zip_ok|by apply (proj1 (Forall_singleton _ _)) in Hf]. }
      rewrite Hs in Hx. by rewrite trimRight_solid in Hx.
    + exists (replicate k' 32 ++ [10]). done.
  - destruct (IH lines') as (raws & H1 & H2 & H3 & H4 & t & H5 & H6); [done|done|].
    assert (Hp : printed (raw :: lines') = (raw ++ [10] ++ TrimSpace (printed lines')) ++ t).
    { unfold printed at 1. cbn. fold (printed lines'). rewrite H6 at 1. by rewrite <- !app_assoc. }
    assert (Hsol : solid (raw ++ [10] ++ TrimSpace (printed lines'))).
    { rewrite Hs, <- app_assoc, (app_assoc (replicate k' 32)). by apply solid_app. }
    assert (Htr : TrimSpace (printed (raw :: lines')) = raw ++ [10] ++ TrimSpace (printed lines')) by (rewrite Hp; by apply TrimSpace_solid).
    rewrite Htr. exists (raw :: raws). split_and!; [by constructor|by rewrite Split_cons, H2 by done|by apply solid_ne|done|]. exists t. done.
Qed.

Lemma widths_length row rows : Forall (λ r, length r = length row) rows → length (widths (row :: rows)) = length row.
Proof.
  intros Hr. unfold widths. cbn [head]. assert (H0 : ∀ ws : list Z, length ws = length row →
    length (foldl (λ ws r, zip_with Z.max ws (len <$> r)) ws rows) = length row).
  { induction Hr as [|r rows Hl _ IH]; intros ws Hw; [done|]. apply IH. rewrite length_zip_with, length_fmap. lia. }
  apply H0. rewrite length_zip_with, length_fmap, length_replicate. cbn. lia.
Qed.

(** A table of tidy fields is printed, a line for each row. *)
Lemma table_printed row rows : row ≠ [] → Forall (λ r, length r = length row) rows → Forall (Forall tidy) (row :: rows) →
  ∃ lines, printTable (row :: rows) twoSpaces = Ret lines ∧ Forall2 row_printed (row :: rows) lines.
Proof.
  intros Hne Hl Ht. assert (Hall : Forall (λ r, length r = length row) (row :: rows)) by (by constructor).
  exists ((λ r, join twoSpaces (zip_with padRight (widths (row :: rows)) r)) <$> row :: rows). split.
  - unfold printTable. assert (forallb (λ r, (length r =? length row)%nat) (row :: rows) = true) as ->; [|by destruct row].
    apply forallb_forall. intros r Hr%list_elem_of_In. apply Nat.eqb_eq. by apply (proj1 (Forall_forall _ _) Hall).
  - pose proof (widths_length row rows Hl) as Hw. revert Hw. generalize (widths (row :: rows)) as ws. intros ws Hw.
    apply Forall2_fmap_r, Forall_Forall2_diag, Forall_forall. intros r Hr. pose proof (proj1 (Forall_forall _ _) Hall r Hr) as Hlr. cbn in Hlr.
    pose proof (proj1 (Forall_forall _ _) Ht r Hr) as Htr. destruct (rev r) as [|f fs'] eqn:Er.
    { apply (f_equal length) in Er. rewrite length_rev in Er. destruct row; [done|]. cbn in *. lia. }
    apply (f_equal (@rev _)) in Er. rewrite rev_involutive in Er. cbn in Er. subst r. rewrite length_app in Hlr. cbn in Hlr.
    destruct (row_line (rev fs') ws f) as (ks & k & Hlk & Hk & E); [lia|]. exists (rev fs'), f, ks, k. done.
Qed.

(** What is read from a printed table are the rows, by the names of the columns. *)
Lemma table_read word row rows : head row = Some word → Forall (λ r, length r = length row) rows → Forall (Forall tidy) (row :: rows) →
  ∃ lines, printTable (row :: rows) twoSpaces = Ret lines ∧ parseRows word (TrimSpace (printed lines)) = colByName row <$> rows.
Proof.
  intros Hw Hl Ht. destruct (table_printed row rows) as (lines & Hp & Hr); [by destruct row|done..|]. exists lines. split; [done|].
  destruct (output_lines (row :: rows) lines) as (raws & H1 & H2 & H3 & H4 & _); [done|done|]. unfold parseRows.
  rewrite (TrimSpace_self (TrimSpace _)) by done. rewrite bool_decide_eq_false_2 by done. rewrite H2.
  inversion H1 as [|? raw ? raws' Hraw Hraws]; subst. rewrite (tableRows_header word row) by done. by apply tableRows_rows.
Qed.

(** ** Rows of users *)

Lemma visible_tidy s : visible s → tidy s.
Proof.
  intros [Hne Hv]. unfold tidy. assert (H0 : ∀ t, Forall (λ c, 33 ≤ c < 127) t → spaced false t = true).
  { induction 1 as [|c t Hc _ IH]; [done|]. cbn. rewrite IH. destruct (Z.eqb_spec c 32); lia. }
  destruct Hv as [|c t Hc Ht]; [done|]. cbn. rewrite (H0 t Ht). destruct (Z.eqb_spec c 32); lia.
Qed.

Lemma Itoa_neg n : n < 0 → visible (Itoa n).
Proof.
  intros Hn. unfold Itoa. rewrite (proj2 (Z.ltb_lt n 0)) by lia. split; [done|]. constructor; [lia|].
  eapply Forall_impl; [apply digits_text; lia|]. cbn. lia.
Qed.

Lemma byte_count_text b s : ByteCountIEC b = Ret s → visible s ∧ last s = Some 66.
Proof.
  unfold ByteCountIEC. case_if.
  - intros [= <-]. assert (Hv : visible (Itoa b)) by (destruct (Z.ltb_spec b 0); [by apply Itoa_neg|by apply Itoa_visible]).
    destruct Hv as [Hne Hv]. split; [|by rewrite last_app]. split; [by destruct (Itoa b)|]. apply Forall_app. split; [done|]. by apply (bool_decide_unpack _).
  - destruct (iecLoop _ _ _ _) as [div exp]. destruct (string_bytes "KMGTP" !! Z.to_nat exp) as [c|] eqn:Ec; intros [= <-].
    assert (Hc : 33 ≤ c < 127).
    { apply list_elem_of_lookup_2 in Ec. revert c Ec. apply Forall_forall. by apply (bool_decide_unpack _). }
    destruct (fixed1_visible (fdiv binary64 (of_Z binary64 b) (of_Z binary64 div))) as [Hne Hv]. split; [|by rewrite !last_app]. split; [by destruct (fixed1 _)|].
    apply Forall_app. split; [done|]. apply Forall_cons. split; [lia|]. by apply (bool_decide_unpack _).
Qed.

(** The text of a cell in the panel: nothing for a counter that does not exist. *)
Definition cell (c : option Counter) (s : bytes) : bytes := match c with None => [] | Some _ => s end.

Lemma recent_text now hours c s : recent now hours c = Ret s → tidy s ∧ clean s = cell c s.
Proof.
  unfold recent. destruct c as [c|]; [|intros [= <-]; split; by vm_compute]. intros ([n c'] & _ & Hb)%obind_ret_inv.
  apply byte_count_text in Hb as [Hv Hl]. apply visible_tidy in Hv. split; [done|]. unfold clean. rewrite TrimSpace_self by (by apply tidy_solid).
  rewrite bool_decide_eq_false_2; [done|]. intros ->. done.
Qed.

(** The row that the table has for a user of the reply. *)
Definition rowOf (now : Z) (clock : nat → nat → Z) (x : Z * userWithMetrics) (row : list bytes) : Prop :=
  ∃ down up act d1 u1 d7 u7 d30 u30, userCounters now clock x.2.2 None None = Ret (down, up) ∧
    recent x.1 24 down = Ret d1 ∧ recent x.1 24 up = Ret u1 ∧ recent x.1 720 down = Ret d30 ∧ recent x.1 720 up = Ret u30 ∧
    row = [string_bytes (pu_name x.2.1); act; d1; u1; d7; u7; d30; u30] ∧ Forall tidy row.

Lemma read_row n a d1 u1 d7 u7 d30 u30 : Forall tidy [n; a; d1; u1; d7; u7; d30; u30] →
  metricsRow (colByName usersHeader [n; a; d1; u1; d7; u7; d30; u30]) = mkMetricsRow n (clean a) (clean d1) (clean u1) (clean d7) (clean u7) (clean d30) (clean u30)
  ∧ col (colByName usersHeader [n; a; d1; u1; d7; u7; d30; u30]) "User" = n.
Proof.
  intros Ht. repeat (apply Forall_cons in Ht as [?Hf Ht]). unfold metricsRow, col, colByName, usersHeader. cbn [fmap list_fmap zip zip_with foldl fst snd].
  rewrite !TrimSpace_self by (by apply tidy_solid).
  split; [f_equal|]; repeat first [rewrite lookup_insert_eq | rewrite lookup_insert_ne by (by vm_compute)]; done.
Qed.

(** A map that is filled from a list of keys and values. *)
Lemma fold_insert {A B} (key : A → bytes) (val : A → B) l : ∀ (r : gmap bytes B) x,
  x ∈ l → (∀ y, y ∈ l → key y = key x → val y = val x) → foldl (λ m y, <[key y := val y]> m) r l !! key x = Some (val x).
Proof.
  induction l as [|y l IH] using rev_ind; intros r x Hx Hv; [by apply not_elem_of_nil in Hx|]. rewrite foldl_app. cbn.
  destruct (decide (key y = key x)) as [E|Hne].
  - rewrite E, lookup_insert_eq. f_equal. apply Hv; [set_solver|done].
  - rewrite lookup_insert_ne by done. apply IH; [|intros z Hz; apply Hv; set_solver].
    apply elem_of_app in Hx as [Hx|Hx]; [done|]. apply list_elem_of_singleton in Hx as ->. done.
Qed.

Lemma fold_named (ms : list (gmap bytes bytes)) : ∀ r : gmap bytes UserMetricsRow, Forall (λ n, n ≠ []) ((λ m, col m "User") <$> ms) →
  foldl (λ r m, if bool_decide (col m "User" = []) then r else <[col m "User" := metricsRow m]> r) r ms =
  foldl (λ r m, <[col m "User" := metricsRow m]> r) r ms.
Proof. induction ms as [|m ms IH]; intros r Hn; [done|]. apply Forall_cons in Hn as [Hm Hn]. cbn [foldl]. rewrite bool_decide_eq_false_2 by done. by apply IH. Qed.

Section Shown.
Context (rfc3339 : Z → bytes) (rfc3339_tidy : ∀ t, tidy (rfc3339 t)).

Lemma rows_of now clock items : ∀ rows, userRows rfc3339 now clock items = Ret rows →
  Forall (λ x, tidy (string_bytes (pu_name x.2.1))) items → Forall2 (rowOf now clock) items rows.
Proof.
  induction items as [|[t [u ms]] items IH]; intros rows Hr Hn; cbn in Hr.
  { injection Hr as <-. constructor. }
  apply Forall_cons in Hn as [Hn Hns]. apply obind_ret_inv in Hr as ([down up] & Hc & Hr). cbn in Hr.
  apply obind_ret_inv in Hr as (row & Hrow & Hr). apply obind_ret_inv in Hr as (rest & Hrest & Hr). injection Hr as <-.
  constructor; [|by apply IH]. unfold userRow in Hrow.
  apply obind_ret_inv in Hrow as (d & _ & Hrow). apply obind_ret_inv in Hrow as (d1 & Hd1 & Hrow). apply obind_ret_inv in Hrow as (d7 & Hd7 & Hrow).
  apply obind_ret_inv in Hrow as (d30 & Hd30 & Hrow). apply obind_ret_inv in Hrow as (tu & _ & Hrow). apply obind_ret_inv in Hrow as (u1 & Hu1 & Hrow).
  apply obind_ret_inv in Hrow as (u7 & Hu7 & Hrow). apply obind_ret_inv in Hrow as (u30 & Hu30 & Hrow). injection Hrow as <-.
  exists down, up, (lastActive rfc3339 d tu), d1, u1, d7, u7, d30, u30. split_and!; try done.
  assert (tidy (lastActive rfc3339 d tu)) by (unfold lastActive; destruct d, tu; try case_if; auto; by vm_compute).
  repeat constructor; try done; eapply recent_text; eassumption.
Qed.

(** The table of the users, printed and read again. *)
Lemma users_read now clock items rows : userRows rfc3339 now clock items = Ret rows →
  Forall (λ x, tidy (string_bytes (pu_name x.2.1))) items → NoDup ((λ x, string_bytes (pu_name x.2.1)) <$> items) →
  ∃ lines, usersTable rfc3339 now clock items = Ret lines ∧
    ∀ x, x ∈ items → ∃ row, rowOf now clock x row ∧
      parseGetUsersTable (TrimSpace (printed lines)) !! string_bytes (pu_name x.2.1) = Some (metricsRow (colByName usersHeader row)).
Proof.
  intros Hr Hn Hd. pose proof (rows_of now clock items rows Hr Hn) as Hall.
  assert (Hrows : Forall (λ r, length r = length usersHeader ∧ Forall tidy r) rows).
  { clear -Hall. induction Hall as [|x row items rows (? & ? & ? & ? & ? & ? & ? & ? & ? & _ & _ & _ & _ & _ & -> & Ht) _ IH]; constructor; [by split|done]. }
  destruct (table_read (string_bytes "User") usersHeader rows) as (lines & Hp & Hread); [done|..].
  { eapply Forall_impl; [exact Hrows|]. by intros ? [? _]. }
  { constructor; [unfold usersHeader; repeat (constructor; [by vm_compute|]); constructor|]. eapply Forall_impl; [exact Hrows|]. by intros ? [_ ?]. }
  exists lines. split; [unfold usersTable; rewrite Hr; exact Hp|]. intros x Hx. unfold parseGetUsersTable. rewrite Hread.
  assert (Hkeys : (λ m, col m "User") <$> (colByName usersHeader <$> rows) = (λ x, string_bytes (pu_name x.2.1)) <$> items).
  { clear -Hall. induction Hall as [|x row items rows (? & ? & ? & ? & ? & ? & ? & ? & ? & _ & _ & _ & _ & _ & -> & Ht) _ IH]; [done|].
    cbn [fmap list_fmap]. rewrite (proj2 (read_row _ _ _ _ _ _ _ _ Ht)). by f_equal. }
  rewrite fold_named by (rewrite Hkeys; eapply Forall_fmap, Forall_impl; [exact Hn|]; intros y Hy%tidy_solid%solid_ne; exact Hy).
  apply list_elem_of_lookup in Hx as [i Hi]. destruct (Forall2_lookup_l _ _ _ _ _ Hall Hi) as (row & Hrow & Hof). exists row. split; [done|].
  assert (Hname : col (colByName usersHeader row) "User" = string_bytes (pu_name x.2.1)).
  { destruct Hof as (? & ? & ? & ? & ? & ? & ? & ? & ? & _ & _ & _ & _ & _ & -> & Ht). by apply (read_row _ _ _ _ _ _ _ _ Ht). }
  rewrite <- Hname. apply (fold_insert (λ m, col m "User") metricsRow).
  - apply list_elem_of_fmap_2. by eapply list_elem_of_lookup_2.
  - intros y Hy Ey. rewrite <- Hkeys in Hd. apply list_elem_of_lookup in Hy as [j Hj]. f_equal.
    assert (i = j) as <-; [|rewrite list_lookup_fmap, Hrow in Hj; by injection Hj].
    apply (NoDup_lookup _ i j (col y "User") Hd); rewrite list_lookup_fmap; [rewrite list_lookup_fmap, Hrow; cbn; by f_equal|by rewrite Hj].
Qed.

Lemma stats_named metrics env (items : list (Z * userWithMetrics)) x : Forall (λ x, tidy (string_bytes (pu_name x.2.1))) items →
  du_Name <$> de_Users env = (λ x, string_bytes (pu_name x.2.1)) <$> items → x ∈ items →
  statsByName (Ret (statsOf metrics <$> filter (λ n, n ≠ []) ((λ u, TrimSpace (du_Name u)) <$> de_Users env)))
    !! string_bytes (pu_name x.2.1) = Some (statsOf metrics (string_bytes (pu_name x.2.1))).
Proof.
  intros Hn He Hx. assert (Hk : ∀ n, us_Name (statsOf metrics n) = n) by (intros n; unfold statsOf; by destruct (metrics !! n)).
  rewrite <- (Hk (string_bytes (pu_name x.2.1))) at 1. apply (fold_insert us_Name (λ s, s)).
  - pose proof (proj1 (Forall_forall _ _) Hn x Hx) as Htx. cbn in Htx. apply list_elem_of_fmap_2, list_elem_of_filter. split; [by apply solid_ne, tidy_solid|].
    replace ((λ u, TrimSpace (du_Name u)) <$> de_Users env) with (TrimSpace <$> (du_Name <$> de_Users env)) by (by rewrite <- list_fmap_compose).
    rewrite He. apply list_elem_of_fmap. exists (string_bytes (pu_name x.2.1)). split; [by rewrite TrimSpace_self by (by apply tidy_solid)|].
    by apply (list_elem_of_fmap_2 (λ x, string_bytes (pu_name x.2.1))).
  - intros y (n & -> & _)%list_elem_of_fmap Hy. rewrite !Hk in Hy. by rewrite Hy.
Qed.

(** C26: the panel shows the traffic that the server counted.  Let the names of the
    users be tidy (visible characters and single spaces) and no two of them equal,
    let the panel know exactly these users, and let the rows of their counters be
    computable.  Then the command prints a table, and in the list that the panel
    makes of its output every user has the day and the month of its own counters,
    with nothing for a counter that does not exist. *)
Theorem traffic_shown now clock items rows env panelNow a : userRows rfc3339 now clock items = Ret rows →
  Forall (λ x, tidy (string_bytes (pu_name x.2.1))) items → NoDup ((λ x, string_bytes (pu_name x.2.1)) <$> items) →
  du_Name <$> de_Users env = (λ x, string_bytes (pu_name x.2.1)) <$> items →
  ∃ lines, usersTable rfc3339 now clock items = Ret lines ∧
    ∀ x it, x ∈ items → it ∈ listUsers panelNow (GetUsers (Ret env) (Ret (TrimSpace (printed lines)))) a →
      PanelConfig.u_Name (it_User it) = string_bytes (pu_name x.2.1) →
      ∃ down up d1 u1 d30 u30, userCounters now clock x.2.2 None None = Ret (down, up) ∧
        recent x.1 24 down = Ret d1 ∧ recent x.1 24 up = Ret u1 ∧ recent x.1 720 down = Ret d30 ∧ recent x.1 720 up = Ret u30 ∧
        it_trafficDay it = combineDownUp (cell down d1) (cell up u1) ∧ it_trafficMon it = combineDownUp (cell down d30) (cell up u30).
Proof.
  intros Hr Hn Hd He. destruct (users_read now clock items rows Hr Hn Hd) as (lines & Hp & Hread). exists lines. split; [done|].
  intros [t [user ms]] it Hx Hit Hname. destruct (Hread _ Hx) as (row & Hof & Hrow). set (metrics := parseGetUsersTable (TrimSpace (printed lines))) in *.
  destruct Hof as (down & up & act & d1 & u1 & d7 & u7 & d30 & u30 & Hc & H1 & H2 & H3 & H4 & -> & Ht).
  rewrite (proj1 (read_row _ _ _ _ _ _ _ _ Ht)) in Hrow. exists down, up, d1, u1, d30, u30. split_and!; try done; clear Ht.
  all: unfold listUsers in Hit; apply list_elem_of_fmap in Hit as (u & -> & _); cbn [it_User it_trafficDay it_trafficMon fst snd] in *; rewrite Hname.
  all: cbn [fst snd]; unfold GetUsers; cbn [obind]; fold metrics; pose proof (stats_named metrics env items (t, (user, ms)) Hn He Hx) as Hs; cbn [fst snd] in Hs; rewrite Hs; cbn [default from_option fst snd].
  all: unfold statsOf; rewrite Hrow; cbn; f_equal; by eapply recent_text.
Qed.
End Shown.

(** The ring keeps the last lines. *)
Lemma logRing_last n lines : (0 < n)%nat → logRing n lines = drop (length lines - n) lines.
Proof.
  intros Hn. unfold logRing. induction lines as [|l lines IH] using rev_ind; [by rewrite drop_nil|]. rewrite foldl_app, length_app. cbn [foldl length].
  rewrite IH, length_drop. destruct (Nat.eqb_spec (length lines - (length lines - n)) n) as [E|Hne].
  - rewrite drop_drop, drop_app_le by lia. do 2 f_equal. lia.
  - replace (length lines - n)%nat with 0%nat by lia. replace (length lines + 1 - n)%nat with 0%nat by lia. done.
Qed.

(** ** Witnesses *)

Definition demoTime (t : Z) : bytes := string_bytes "2026-01-02T03:04:05Z".
Definition demoCounter (name : string) (bytes : Z) : PbMetric := mkPbMetric name METRIC_COUNTER_TIME_SERIES bytes [mkHistory 1000000 bytes NO_ROLL_UP].
Definition demoItem (name : string) (down up : Z) : Z * userWithMetrics :=
  (2000 * Second, (mkPbUser name "" "" [] (mkRights false false), [demoCounter "DownloadBytes" down; demoCounter "UploadBytes" up])).
Definition demoRows (items : list (Z * userWithMetrics)) : list (list bytes) :=
  match userRows demoTime (2000 * Second) (λ _ _, 2000 * Second) items with Ret rows => rows | _ => [] end.
Definition demoNamed (names : list string) : describeConfigEnvelope := mkEnvelope [] ((λ n, mkDescribeUser (string_bytes n) [] []) <$> names).
Definition demoTraffic : list (Z * userWithMetrics) := [demoItem "ann" 1536 100; demoItem "bob smith" 3145728 0].

Lemma traffic_shown_witness : ∃ lines, usersTable demoTime (2000 * Second) (λ _ _, 2000 * Second) demoTraffic = Ret lines ∧
  ∀ x it, x ∈ demoTraffic → it ∈ listUsers demoNow (GetUsers (Ret (demoNamed ["ann"; "bob smith"])) (Ret (TrimSpace (printed lines)))) demoPanel →
    PanelConfig.u_Name (it_User it) = string_bytes (pu_name x.2.1) →
    ∃ down up d1 u1 d30 u30, userCounters (2000 * Second) (λ _ _, 2000 * Second) x.2.2 None None = Ret (down, up) ∧
      recent x.1 24 down = Ret d1 ∧ recent x.1 24 up = Ret u1 ∧ recent x.1 720 down = Ret d30 ∧ recent x.1 720 up = Ret u30 ∧
      it_trafficDay it = combineDownUp (cell down d1) (cell up u1) ∧ it_trafficMon it = combineDownUp (cell down d30) (cell up u30).
Proof.
  apply (traffic_shown demoTime) with (rows := demoRows demoTraffic).
  - intros t. by vm_compute.
  - vm_compute. reflexivity.
  - repeat constructor; by vm_compute.
  - by apply (bool_decide_unpack _).
  - reflexivity.
Defined.

(** A name with two spaces in it breaks the columns: the row of the user [ann  x] is
    read as a row of the user ann, whose traffic of the day is now a time. *)
Lemma double_space_name : ∃ lines,
  usersTable demoTime (2000 * Second) (λ _ _, 2000 * Second) [demoItem "ann" 1536 100; demoItem "ann  x" 9 7] = Ret lines ∧
  us_TodayRaw (statsOf (parseGetUsersTable (TrimSpace (printed lines))) (string_bytes "ann"))
    = arrowDown ++ string_bytes "2026-01-02T03:04:05Z / " ++ arrowUp ++ string_bytes "9B" ∧
  statsOf (parseGetUsersTable (TrimSpace (printed lines))) (string_bytes "ann  x") = mkStats (string_bytes "ann  x") [] [] [] [].
Proof. eexists. split; [vm_compute; reflexivity|]. split; vm_compute; reflexivity. Qed.

End PanelStats.
Export PanelStats.
