(* ===== verification/PanelDash.v ===== *)
(** * Logs, audit trail and dashboard of the web panel

    mieru-panel/pkg/applog, pkg/audit, pkg/dashboardmetrics, handlers/dashboard.go,
    logs.go, audit_endpoint.go.  Times are nanoseconds since the Unix epoch, their
    text, JSON and the files of /proc are arguments. *)

From S2P Require Import Prelude Float Net PanelText Url.
From Stdlib Require Import ZifyBool SpecFloat Sorted.
Local Open Scope Z_scope.

Module PanelDash.

(** ** The log of the panel: applog.go *)

Inductive Level := LevelDebug | LevelInfo | LevelWarn | LevelError.
#[global] Instance Level_eq_dec : EqDecision Level.
Proof. solve_decision. Defined.

Definition levelText (l : Level) : bytes :=
  match l with
  | LevelDebug => string_bytes "DEBUG" | LevelInfo => string_bytes "INFO" | LevelWarn => string_bytes "WARN" | LevelError => string_bytes "ERROR"
  end.

Record LogEntry := mkLogEntry { le_Seq : Z; le_Time : Z; le_Level : Level; le_Source : bytes; le_Message : bytes }.
Record Logger := mkLogger { lg_entries : list LogEntry; lg_cap : Z; lg_seq : Z }.

Definition NewLogger (capacity : Z) : Logger := mkLogger [] (if capacity <=? 0 then 500 else capacity) 0.

Definition emit (now : Z) (level : Level) (source msg : bytes) (l : Logger) : LogEntry * Logger :=
  let seq := u64 (lg_seq l + 1) in
  let e := mkLogEntry seq now level source msg in
  let entries := if lg_cap l <=? len (lg_entries l) then drop 1 (lg_entries l) else lg_entries l in
  (e, mkLogger (entries ++ [e]) (lg_cap l) seq).

Definition sourcePrefix (s : bytes) : bytes := if bool_decide (s = []) then [] else string_bytes "[" ++ s ++ string_bytes "] ".

(** The line on the standard output; [stamp] is the text of the time. *)
Definition logLine (stamp : bytes) (e : LogEntry) : bytes :=
  let level := levelText (le_Level e) in
  stamp ++ [32] ++ level ++ replicate (5 - length level) 32 ++ [32] ++ sourcePrefix (le_Source e) ++ le_Message e ++ [10].

Definition LogSnapshot (sinceSeq : Z) (l : Logger) : list LogEntry := filter (λ e, sinceSeq < le_Seq e) (lg_entries l).

(** [StdlibSink.Write]: the lines of the standard logger. *)
Definition trimRightBytes (p : Z → bool) (s : bytes) : bytes := foldr (λ c t, match t with [] => if p c then [] else [c] | _ => c :: t end) [] s.
Definition sinkWrite (now : Z) (source p : bytes) (l : Logger) : Logger :=
  let msg := trimRightBytes (λ c, (c =? 13) || (c =? 10)) p in
  if bool_decide (msg = []) then l else (emit now LevelInfo source msg l).2.

Definition Hour : Z := 3600 * 10 ^ 9.
Definition applogErrorsLastHour (now : Z) (l : Logger) : Z :=
  len (filter (λ e, le_Level e = LevelError ∧ now - Hour < le_Time e) (LogSnapshot 0 l)).

(** [HandleLogs]: the parameter since, when it is a number. *)
Definition ParseUint64 (s : bytes) : option Z :=
  if bool_decide (s = []) || negb (forallb is_digit s) then None
  else if digits_value 0 s <? 2 ^ 64 then Some (digits_value 0 s) else None.
Definition HandleLogs (since : bytes) (l : Logger) : list LogEntry := LogSnapshot (default 0 (ParseUint64 (TrimSpace since))) l.

(** ** The audit trail: audit.go *)

Section Audit.
Context {entry : Type} (timeSet : entry → bool) (setTime : Z → entry → entry).
Context (marshal : entry → outcome bytes) (unmarshal : bytes → outcome entry).

(** [path]: whether a file is configured; [disk]: whether the file can be opened
    for writing. *)
Definition auditLog (path disk : bool) (now : Z) (e : entry) (file : option bytes) : option bytes :=
  if negb path then file
  else
    let e := if timeSet e then e else setTime now e in
    match marshal e with
    | Ret body => if disk then Some (default [] file ++ body ++ [10]) else file
    | _ => file
    end.

Definition auditTail (path : bool) (n : Z) (file : option bytes) : list entry :=
  if negb path || (n <=? 0) then []
  else match file with
       | None => []
       | Some body =>
           let lines := Split 10 (trimRightBytes (λ c, c =? 10) body) in
           let lines := if n <? len lines then drop (Z.to_nat (len lines - n)) lines else lines in
           omap (λ l, match unmarshal l with Ret e => Some e | _ => None end) (rev lines)
       end.

(** [HandleAudit]: the parameter n, when it is a number up to 5000. *)
Definition HandleAudit (path : bool) (v : bytes) (file : option bytes) : list entry :=
  let n := match Atoi v with Ret p => if (0 <? p) && (p <=? 5000) then p else 200 | _ => 200 end in
  auditTail path n file.
End Audit.

(** ** The chart: timeseries.go *)

Record Bucket := mkBucket { b_T : Z; b_RxBytes : Z; b_TxBytes : Z; b_Errors : Z; b_Requests : Z }.
Record TimeseriesRing := mkRing { r_max : Z; r_buckets : list Bucket }.

Definition NewTimeseriesRing (max : Z) : TimeseriesRing := mkRing (if max <? 1 then 60 else max) [].
Definition AppendBucket (b : Bucket) (r : TimeseriesRing) : TimeseriesRing :=
  if r_max r <=? len (r_buckets r) then mkRing (r_max r) (drop 1 (r_buckets r) ++ [b]) else mkRing (r_max r) (r_buckets r ++ [b]).

(** ** System samples: proc_linux.go *)

Record CPUTimes := mkCPU { cpu_Idle : Z; cpu_Total : Z }.
Record NetDevBytes := mkNetDev { nd_RxBytes : Z; nd_TxBytes : Z }.

Notation f64 := (of_Z binary64).
Notation "x ⊖ y" := (fsub binary64 x y) (at level 50, left associativity).
Notation "x ⊗ y" := (fmul binary64 x y) (at level 40, left associativity).
Notation "x ⊘ y" := (fdiv binary64 x y) (at level 40, left associativity).
Notation "x ⊕ y" := (fadd binary64 x y) (at level 50, left associativity).

Definition CPUPercent (prev cur : CPUTimes) : float :=
  let dIdle := f64 (cpu_Idle cur) ⊖ f64 (cpu_Idle prev) in
  let dTotal := f64 (cpu_Total cur) ⊖ f64 (cpu_Total prev) in
  if fle dTotal (f64 0) then f64 0
  else
    let busy := dTotal ⊖ dIdle in
    let p := f64 100 ⊗ busy ⊘ dTotal in
    if flt p (f64 0) then f64 0 else if flt (f64 100) p then f64 100 else p.

Definition NetMbps (prev cur : NetDevBytes) (dt : float) : float * float :=
  if fle dt (f64 0) then (f64 0, f64 0)
  else
    let d (c p : Z) := let x := f64 c ⊖ f64 p in if flt x (f64 0) then f64 0 else x in
    let mbps x := x ⊘ dt ⊗ f64 8 ⊘ f64 1000000 in
    (mbps (d (nd_RxBytes cur) (nd_RxBytes prev)), mbps (d (nd_TxBytes cur) (nd_TxBytes prev))).

(** [strings.Fields] of ASCII text, and the lines of a [bufio.Scanner]. *)
Definition isBlank (c : Z) : bool := bool_decide (c ∈ [9; 10; 11; 12; 13; 32]).
Fixpoint fieldsFrom (cur s : bytes) : list bytes :=
  match s with
  | [] => if bool_decide (cur = []) then [] else [cur]
  | c :: s => if isBlank c then (if bool_decide (cur = []) then fieldsFrom [] s else cur :: fieldsFrom [] s) else fieldsFrom (cur ++ [c]) s
  end.
Definition Fields (s : bytes) : list bytes := fieldsFrom [] s.

Definition dropCR (l : bytes) : bytes := match rev l with 13 :: l' => rev l' | _ => l end.
Definition scanLines (s : bytes) : list bytes :=
  let ls := Split 10 s in
  let ls := match rev ls with [] :: ls' => rev ls' | _ => ls end in dropCR <$> ls.

Definition hasPrefixText (s : bytes) (p : string) : bool := bool_decide (take (length (string_bytes p)) s = string_bytes p).
Definition nthField (i : nat) (fs : list bytes) : bytes := default [] (fs !! i).

(** [strconv.ParseUint] with the error dropped: 0, or the largest number when the
    text is one that does not fit. *)
Definition parseUintValue (s : bytes) : Z :=
  if bool_decide (s = []) || negb (forallb is_digit s) then 0 else Z.min (digits_value 0 s) (2 ^ 64 - 1).

Definition ReadCPUTimes (stat : outcome bytes) : outcome CPUTimes :=
  let! b := stat in
  match scanLines b with
  | [] => Err (Errorf "proc/stat: empty")
  | line :: _ =>
      if negb (hasPrefixText line "cpu ") then Err (Errorf "proc/stat: no cpu line")
      else
        let fields := Fields line in
        if len fields <? 6 then Err (Errorf "proc/stat: short cpu line")
        else
          let sum := foldl (λ s f, u64 (s + default 0 (ParseUint64 f))) 0 (drop 1 fields) in
          Ret (mkCPU (u64 (parseUintValue (nthField 4 fields) + parseUintValue (nthField 5 fields))) sum)
  end.

Definition parseMeminfoKB (line : bytes) : Z := let fields := Fields line in if len fields <? 2 then 0 else parseUintValue (nthField 1 fields).

(** The last line of each name counts. *)
Definition meminfo (name : string) (ls : list bytes) : Z :=
  foldl (λ v line, if hasPrefixText line name then parseMeminfoKB line else v) 0 ls.

Definition ReadMemUsageMB (info : outcome bytes) : outcome (float * float) :=
  let! b := info in
  let ls := scanLines b in
  let memTotal := meminfo "MemTotal:" ls in
  let memAvail := meminfo "MemAvailable:" ls in
  if memTotal =? 0 then Err (Errorf "meminfo: no MemTotal")
  else
    let memAvail := if memAvail =? 0 then meminfo "MemFree:" ls else memAvail in
    let usedKB := f64 memTotal ⊖ f64 memAvail in
    let usedKB := if flt usedKB (f64 0) then f64 0 else usedKB in
    Ret (usedKB ⊘ f64 1024, f64 memTotal ⊘ f64 1024).

Definition netDevLine (line : bytes) : option NetDevBytes :=
  match IndexByte 58 line with
  | None => None
  | Some idx =>
      if bool_decide (TrimSpace (take idx line) = string_bytes "lo") then None
      else
        let fields := Fields (drop (S idx) line) in
        if len fields <? 9 then None
        else match ParseUint64 (nthField 0 fields), ParseUint64 (nthField 8 fields) with
             | Some rx, Some tx => Some (mkNetDev rx tx)
             | _, _ => None
             end
  end.

Definition ReadPrimaryNetDevBytes (dev : outcome bytes) : outcome NetDevBytes :=
  let! b := dev in
  match head (omap netDevLine (drop 2 (scanLines b))) with
  | Some d => Ret d
  | None => Err (Errorf "proc/net/dev: no suitable iface")
  end.

(** ** The dashboard: dashboard.go *)

Inductive json := JNumber (x : float) | JObject (fields : list (string * json)) | JOther.

Definition jget (k : string) (fields : list (string * json)) : option json := snd <$> List.find (λ x, String.eqb x.1 k) fields.

Record mitaMetricsFlat := mkFlat {
  fl_DirectDecrypt : Z; fl_FailedDecrypt : Z; fl_IterateDecrypt : Z;
  fl_ActiveOpens : Z; fl_CurrEstablished : Z; fl_MaxConn : Z; fl_PassiveOpens : Z;
  fl_DownloadBytes : Z; fl_UploadBytes : Z
}.
Definition emptyFlat : mitaMetricsFlat := mkFlat 0 0 0 0 0 0 0 0 0.

Section Dashboard.
Context (oob : float → Z).

(** Numbers of a decoded document are [float64]. *)
Definition asInt64 (v : option json) : Z := match v with Some (JNumber x) => to_i64 oob x | _ => 0 end.

(** The fields of a group; the loop over the document sets them group by group. *)
Definition groupField (root : list (string * json)) (g k : string) : Z :=
  match jget g root with Some (JObject m) => asInt64 (jget k m) | _ => 0 end.

(** [decode]: the document that the text is, if it is an object. *)
Definition flattenMitaMetricsJSON (decoded : option (list (string * json))) : mitaMetricsFlat :=
  match decoded with
  | None => emptyFlat
  | Some root =>
      mkFlat (groupField root "cipher - server" "DirectDecrypt") (groupField root "cipher - server" "FailedDirectDecrypt")
        (groupField root "cipher - server" "IterateDecrypt")
        (groupField root "connections" "ActiveOpens") (groupField root "connections" "CurrEstablished")
        (groupField root "connections" "MaxConn") (groupField root "connections" "PassiveOpens")
        (groupField root "traffic" "DownloadBytes") (groupField root "traffic" "UploadBytes")
  end.

Record mitaCumSnap := mkSnap { sn_down : Z; sn_up : Z; sn_decrypt : Z; sn_failed : Z }.

Record dashRuntime := mkDash {
  da_ts : TimeseriesRing;
  da_cpuPercent : float; da_memUsedMB : float; da_memTotalMB : float; da_netRxMbps : float; da_netTxMbps : float;
  da_cpuPrev : option CPUTimes;
  da_netPrev : option (NetDevBytes * Z);     (** with the time it was read *)
  da_mitaPrev : option mitaCumSnap
}.

Definition InitDashboardRuntime : dashRuntime := mkDash (NewTimeseriesRing 60) (f64 0) (f64 0) (f64 0) (f64 0) (f64 0) None None None.

Definition finite (x : float) : float := match x with S754_nan | S754_infinity _ => f64 0 | _ => x end.

(** [Duration.Seconds]. *)
Definition durationSeconds (d : Z) : float := f64 (Z.quot d (10 ^ 9)) ⊕ (f64 (Z.rem d (10 ^ 9)) ⊘ f64 (10 ^ 9)).

Definition dashboardSysSample (mem stat dev : outcome bytes) (now : Z) (a : dashRuntime) : dashRuntime :=
  let '(memUsed, memTotal) := match ReadMemUsageMB mem with Ret m => m | _ => (f64 0, f64 0) end in
  let '(cpuPercent, cpuPrev) :=
    match ReadCPUTimes stat with
    | Ret cur => (match da_cpuPrev a with Some prev => CPUPercent prev cur | None => da_cpuPercent a end, Some cur)
    | _ => (da_cpuPercent a, da_cpuPrev a)
    end in
  let '(rx, tx, netPrev) :=
    match ReadPrimaryNetDevBytes dev with
    | Ret cur =>
        match da_netPrev a with
        | Some (prev, at_) => let '(rx, tx) := NetMbps prev cur (durationSeconds (now - at_)) in (finite rx, finite tx, Some (cur, now))
        | None => (da_netRxMbps a, da_netTxMbps a, Some (cur, now))
        end
    | _ => (da_netRxMbps a, da_netTxMbps a, da_netPrev a)
    end in
  mkDash (da_ts a) cpuPercent memUsed memTotal rx tx cpuPrev netPrev (da_mitaPrev a).

Definition nonNegDelta (cur prev : Z) : Z := let d := i64 (cur - prev) in if d <? 0 then 0 else d.

Definition Minute : Z := 60 * 10 ^ 9.

(** What came since the previous totals, in the minute of [now]. *)
Definition minuteBucket (flat : mitaMetricsFlat) (now : Z) (prev : option mitaCumSnap) : Bucket :=
  let t := now - now `mod` Minute in
  match prev with
  | Some prev => mkBucket t (nonNegDelta (fl_DownloadBytes flat) (sn_down prev)) (nonNegDelta (fl_UploadBytes flat) (sn_up prev))
                   (nonNegDelta (fl_FailedDecrypt flat) (sn_failed prev)) (nonNegDelta (fl_DirectDecrypt flat) (sn_decrypt prev))
  | None => mkBucket t 0 0 0 0
  end.

(** [raw]: the decoded metrics, or that reading them failed. *)
Definition dashboardMinuteSample (raw : outcome (option (list (string * json)))) (now : Z) (a : dashRuntime) : dashRuntime :=
  let flat := match raw with Ret d => flattenMitaMetricsJSON d | _ => emptyFlat end in
  mkDash (AppendBucket (minuteBucket flat now (da_mitaPrev a)) (da_ts a)) (da_cpuPercent a) (da_memUsedMB a) (da_memTotalMB a)
    (da_netRxMbps a) (da_netTxMbps a) (da_cpuPrev a) (da_netPrev a)
    (Some (mkSnap (fl_DownloadBytes flat) (fl_UploadBytes flat) (fl_DirectDecrypt flat) (fl_FailedDecrypt flat))).
End Dashboard.

(** * Properties *)

(** ** Rings *)

(** Adding to a ring of [cap] places keeps the last of all that was added. *)
Definition push {A} (cap : nat) (l : list A) (x : A) : list A := if (cap <=? length l)%nat then drop 1 l ++ [x] else l ++ [x].
Definition lasts {A} (n : nat) (l : list A) : list A := drop (length l - n) l.

Lemma lasts_push {A} cap (l : list A) x : (0 < cap)%nat → push cap (lasts cap l) x = lasts cap (l ++ [x]).
Proof.
  intros Hc. unfold push, lasts. rewrite length_drop, length_app. cbn [length]. case_if.
  - rewrite drop_drop, drop_app_le by lia. do 2 f_equal. lia.
  - rewrite drop_app_le by lia. do 2 f_equal. lia.
Qed.

Lemma lasts_all {A} n (l : list A) : (length l ≤ n)%nat → lasts n l = l.
Proof. intros. unfold lasts. by replace (length l - n)%nat with 0%nat by lia. Qed.

Lemma push_le {A} cap (l : list A) x : (0 < cap)%nat → (length l ≤ cap)%nat → push cap l x = lasts cap (l ++ [x]).
Proof. intros. by rewrite <- lasts_push, lasts_all. Qed.

Lemma dash_filter_keeps {A} (P : A → Prop) `{∀ x, Decision (P x)} l : Forall P l → filter P l = l.
Proof. induction 1 as [|x l Hx Hl IH]; [done|]. by rewrite filter_cons, decide_True, IH. Qed.
Lemma filter_drops {A} (P : A → Prop) `{∀ x, Decision (P x)} l : Forall (λ x, ¬ P x) l → filter P l = [].
Proof. induction 1 as [|x l Hx Hl IH]; [done|]. by rewrite filter_cons, decide_False, IH. Qed.

(** ** The log *)

Definition event := (Z * Level * bytes * bytes)%type.
Definition emitEvent (l : Logger) (e : event) : Logger := let '(now, level, source, msg) := e in (emit now level source msg l).2.
Definition emitAll (es : list event) (l : Logger) : Logger := foldl emitEvent l es.

Fixpoint numbered (seq : Z) (es : list event) : list LogEntry :=
  match es with [] => [] | (now, level, source, msg) :: es => mkLogEntry (seq + 1) now level source msg :: numbered (seq + 1) es end.

Lemma dash_numbered_app es1 es2 : ∀ seq, numbered seq (es1 ++ es2) = numbered seq es1 ++ numbered (seq + len es1) es2.
Proof.
  induction es1 as [|[[[now level] source] msg] es1 IH]; intros seq; cbn; [f_equal; unfold len; cbn; lia|].
  rewrite IH. do 3 f_equal. rewrite len_cons. lia.
Qed.

Lemma length_numbered seq es : length (numbered seq es) = length es.
Proof. revert seq. induction es as [|[[[? ?] ?] ?] es IH]; intros seq; cbn; [done|by rewrite IH]. Qed.

Lemma numbered_after es : ∀ seq e, e ∈ numbered seq es → seq < le_Seq e.
Proof.
  induction es as [|[[[now level] source] msg] es IH]; intros seq e; cbn; [by intros ?%elem_of_nil|].
  intros [->|H]%elem_of_cons; [cbn; lia|]. apply IH in H. lia.
Qed.

(** A log as [emit] leaves it: no more entries than it can hold, numbered up to the
    number of the last one. *)
Definition log_ok (l : Logger) : Prop := 0 ≤ lg_seq l ∧ len (lg_entries l) ≤ lg_cap l ∧ 0 < lg_cap l ∧ Forall (λ e, le_Seq e ≤ lg_seq l) (lg_entries l).

Lemma emitAll_entries es l : log_ok l → lg_seq l + len es < 2 ^ 64 →
  lg_entries (emitAll es l) = lasts (Z.to_nat (lg_cap l)) (lg_entries l ++ numbered (lg_seq l) es) ∧
  lg_seq (emitAll es l) = lg_seq l + len es ∧ lg_cap (emitAll es l) = lg_cap l.
Proof.
  intros (H0 & Hlen & Hcap & _) Hseq. induction es as [|e es IH] using rev_ind.
  - cbn. rewrite app_nil_r, lasts_all by (unfold len in Hlen; lia). split_and!; [done|unfold len; cbn; lia|done].
  - assert (Hl : len (es ++ [e]) = len es + 1) by (rewrite len_app; done). rewrite Hl in *.
    destruct IH as (IH1 & IH2 & IH3); [lia|]. unfold emitAll in *. rewrite foldl_app. cbn [foldl]. set (l' := foldl emitEvent l es) in *.
    destruct e as [[[now level] source] msg]. unfold emitEvent, emit. cbn [snd lg_entries lg_seq lg_cap].
    assert (Hu : u64 (lg_seq l' + 1) = lg_seq l + len es + 1). { pose proof (len_nonneg es). rewrite IH2, u64_small; unfold in_u64; lia. }
    rewrite Hu, IH3. split_and!; [|lia|done]. rewrite dash_numbered_app. cbn [numbered]. rewrite app_assoc.
    rewrite <- lasts_push by lia. unfold push. rewrite <- IH1. unfold len. replace (lg_cap l <=? Z.of_nat (length (lg_entries l'))) with (Z.to_nat (lg_cap l) <=? length (lg_entries l'))%nat by lia. by case_if.
Qed.

Lemma emitAll_ok es l : log_ok l → lg_seq l + len es < 2 ^ 64 → log_ok (emitAll es l).
Proof.
  intros Hok Hseq. pose proof (emitAll_entries es l Hok Hseq) as (H1 & H2 & H3). destruct Hok as (H0 & Hlen & Hcap & Hall). pose proof (len_nonneg es).
  unfold log_ok. rewrite H1, H2, H3. split_and!; [lia| |done|].
  - unfold lasts, len. rewrite length_drop. lia.
  - apply Forall_drop, Forall_app. split; [eapply Forall_impl; [exact Hall|]; cbn; lia|].
    clear - H0. revert H0. generalize (lg_seq l). induction es as [|[[[now level] source] msg] es IH]; intros seq H0; cbn; [constructor|].
    rewrite len_cons. pose proof (len_nonneg es). constructor; [cbn; lia|]. eapply Forall_impl; [apply IH; lia|]. cbn. lia.
Qed.

(** Polling the log: someone who asks for what came after the last number they have
    seen gets every entry since then, once and in order, as long as not more were
    made than the log holds. *)
Theorem log_polling es l : log_ok l → lg_seq l + len es < 2 ^ 64 → len es ≤ lg_cap l →
  LogSnapshot (lg_seq l) (emitAll es l) = numbered (lg_seq l) es ∧ log_ok (emitAll es l).
Proof.
  intros Hok Hseq Hes. split; [|by apply emitAll_ok]. destruct (emitAll_entries es l Hok Hseq) as (H1 & _). destruct Hok as (_ & Hlen & Hcap & Hall).
  unfold LogSnapshot. rewrite H1. unfold lasts. rewrite drop_app_le by (rewrite length_app, length_numbered; unfold len in *; lia).
  rewrite filter_app. rewrite (dash_filter_keeps _ (numbered _ _)) by (apply Forall_forall; intros e He; by apply numbered_after in He).
  rewrite filter_drops; [done|]. apply Forall_drop. eapply Forall_impl; [exact Hall|]. cbn. lia.
Qed.

(** ** The audit trail *)

Lemma rev_reverse {A} (l : list A) : rev l = reverse l.
Proof. apply rev_alt. Qed.

Lemma trimRight_app p s t : Forall (λ c, p c = true) t → trimRightBytes p (s ++ t) = trimRightBytes p s.
Proof.
  intros Ht. unfold trimRightBytes. rewrite foldr_app. f_equal. induction Ht as [|c t Hc Ht IH]; [done|]. cbn [foldr]. by rewrite IH, Hc.
Qed.

Lemma trimRight_id p s : (∀ c, last s = Some c → p c = false) → trimRightBytes p s = s.
Proof.
  induction s as [|c s IH]; intros Hl; [done|]. unfold trimRightBytes in *. cbn [foldr]. destruct s as [|d s].
  - cbn. by rewrite (Hl c).
  - rewrite IH; [done|]. intros x Hx. apply Hl. by rewrite last_cons_cons.
Qed.

Lemma concat_lines (bs : list bytes) : bs ≠ [] → concat ((λ b, b ++ [10]) <$> bs) = joinWith 10 bs ++ [10].
Proof.
  intros Hne. induction bs as [|b [|b2 bs] IH]; [done|cbn; by rewrite app_nil_r|]. cbn [fmap list_fmap concat joinWith].
  cbn [fmap list_fmap concat] in IH. rewrite IH by done. cbn [joinWith]. by rewrite <- !app_assoc.
Qed.

Lemma joinWith_last (bs : list bytes) c : Forall (λ b, b ≠ [] ∧ 10 ∉ b) bs → last (joinWith 10 bs) = Some c → c ≠ 10.
Proof.
  induction bs as [|b [|b2 bs] IH]; intros Hf Hl; [done| |].
  - apply Forall_cons in Hf as [[_ Hb] _]. cbn in Hl. intros ->. apply Hb. apply last_Some in Hl as [l ->]. apply elem_of_app. right. apply list_elem_of_here.
  - apply Forall_cons in Hf as [_ Hf]. change (joinWith 10 (b :: b2 :: bs)) with (b ++ [10] ++ joinWith 10 (b2 :: bs)) in Hl. assert (Hne : joinWith 10 (b2 :: bs) ≠ []).
    { apply Forall_cons in Hf as [[Hb2 _] _]. destruct b2; [done|]. cbn. by destruct bs. }
    rewrite app_assoc, last_app in Hl. apply (IH Hf).
    destruct (last (joinWith 10 (b2 :: bs))) eqn:E; [exact Hl|]. by apply last_None in E.
Qed.

Section AuditTrail.
Context {entry : Type} (timeSet : entry → bool) (setTime : Z → entry → entry).
Context (marshal : entry → outcome bytes) (unmarshal : bytes → outcome entry).
Context (marshal_line : ∀ e, ∃ b, marshal e = Ret b ∧ b ≠ [] ∧ 10 ∉ b ∧ unmarshal b = Ret e).

Definition stamped (x : Z * entry) : entry := if timeSet x.2 then x.2 else setTime x.1 x.2.
Definition logged (xs : list (Z * entry)) (file : option bytes) : option bytes :=
  foldl (λ f x, auditLog timeSet setTime marshal true true x.1 x.2 f) file xs.

Lemma logged_file xs : ∃ bs, length bs = length xs ∧ Forall2 (λ b x, unmarshal b = Ret (stamped x) ∧ b ≠ [] ∧ 10 ∉ b) bs xs ∧
  logged xs None = match xs with [] => None | _ => Some (concat ((λ b, b ++ [10]) <$> bs)) end.
Proof.
  induction xs as [|x xs IH] using rev_ind; [exists []; by split_and!|]. destruct IH as (bs & Hl & Hf & Hx).
  destruct (marshal_line (stamped x)) as (b & Hb & Hne & Hnl & Hu). exists (bs ++ [b]). split_and!.
  - rewrite !length_app. cbn. lia.
  - apply Forall2_app; [done|]. by constructor.
  - unfold logged in *. rewrite foldl_app. cbn [foldl]. rewrite Hx. unfold auditLog. cbn [negb]. fold (stamped x). rewrite Hb.
    rewrite fmap_app, concat_app. cbn [fmap list_fmap concat]. rewrite app_nil_r. destruct xs as [|y xs]; [|done].
    inversion Hf; subst. done.
Qed.

(** The audit page shows the last actions, the newest first: the entries that were
    logged, each with the time it was logged at, and none is lost before the file
    has more than the page asks for. *)
Theorem audit_tail xs n : 0 < n → auditTail unmarshal true n (logged xs None) = take (Z.to_nat n) (rev (stamped <$> xs)).
Proof.
  intros Hn. destruct (logged_file xs) as (bs & Hl & Hf & ->). unfold auditTail. replace (negb true || (n <=? 0)) with false by lia.
  destruct xs as [|x xs]; [cbn; by rewrite take_nil|]. set (ys := x :: xs) in *. assert (Hne : bs ≠ []) by (by destruct bs).
  assert (Hok : Forall (λ b, b ≠ [] ∧ 10 ∉ b) bs) by (clear - Hf; induction Hf as [|b y bs ys (_ & ? & ?) Hf IH]; constructor; auto).
  rewrite concat_lines by done. rewrite trimRight_app by (repeat constructor).
  rewrite trimRight_id by (intros c Hc; apply joinWith_last in Hc; [lia|done]).
  rewrite Split_join by (done || (eapply Forall_impl; [exact Hok|]; by intros b [_ ?])).
  assert (Hmap : ∀ (bs : list bytes) ys, Forall2 (λ b x, unmarshal b = Ret (stamped x) ∧ b ≠ [] ∧ 10 ∉ b) bs ys →
    omap (λ l, match unmarshal l with Ret e => Some e | _ => None end) bs = stamped <$> ys).
  { clear. induction 1 as [|b y bs ys [Hb _] Hf IH]; [done|]. cbn. by rewrite Hb, IH. }
  assert (Htake : rev (if n <? len bs then drop (Z.to_nat (len bs - n)) bs else bs) = take (Z.to_nat n) (rev bs)).
  { rewrite firstn_rev. f_equal. unfold len. case_if; bool_to_Z; [f_equal; lia|]. by replace (length bs - Z.to_nat n)%nat with 0%nat by lia. }
  rewrite Htake, (Hmap _ (take (Z.to_nat n) (rev ys))), fmap_take.
  - by rewrite !rev_reverse, fmap_reverse.
  - apply Forall2_take. rewrite !rev_reverse. by apply Forall2_reverse.
Qed.
End AuditTrail.

(** ** The chart *)

Section Chart.
Context (oob : float → Z).
Notation doc := (list (string * json)).
Notation flatOf d := (flattenMitaMetricsJSON oob d).

Definition sampleAll (xs : list (Z * outcome (option doc))) (a : dashRuntime) : dashRuntime :=
  foldl (λ a x, dashboardMinuteSample oob x.2 x.1 a) a xs.

Definition downOf (r : outcome (option doc)) : Z := fl_DownloadBytes (match r with Ret d => flatOf d | _ => emptyFlat end).

(** The received bytes of all minutes so far, given the total before. *)
Fixpoint deltas (prev : option Z) (downs : list Z) : list Z :=
  match downs with
  | [] => []
  | d :: downs => match prev with Some p => nonNegDelta d p | None => 0 end :: deltas (Some d) downs
  end.

Definition ring_ok (a : dashRuntime) : Prop := r_max (da_ts a) = 60 ∧ len (r_buckets (da_ts a)) ≤ 60.

Lemma append_push b r : AppendBucket b r = mkRing (r_max r) (push (Z.to_nat (r_max r)) (r_buckets r) b) ∨ r_max r < 0.
Proof.
  destruct (decide (r_max r < 0)); [by right|left]. unfold AppendBucket, push, len.
  replace (Z.to_nat (r_max r) <=? length (r_buckets r))%nat with (r_max r <=? Z.of_nat (length (r_buckets r))) by lia. by case_if.
Qed.

Lemma lasts_fmap {A B} (f : A → B) n l : f <$> lasts n l = lasts n (f <$> l).
Proof. unfold lasts. by rewrite fmap_drop, length_fmap. Qed.

(** The buckets are those of the last sixty minutes. *)
Lemma sample_buckets xs a : ring_ok a → ring_ok (sampleAll xs a) ∧
  b_RxBytes <$> r_buckets (da_ts (sampleAll xs a)) =
    lasts 60 ((b_RxBytes <$> r_buckets (da_ts a)) ++ deltas (sn_down <$> da_mitaPrev a) ((λ x, downOf x.2) <$> xs)).
Proof.
  revert a. induction xs as [|[now r] xs IH]; intros a [Hm Hl].
  - cbn. rewrite app_nil_r, lasts_all by (rewrite length_fmap; unfold len in Hl; lia). done.
  - cbn [sampleAll foldl fst snd]. set (a1 := dashboardMinuteSample oob r now a).
    assert (Hts : r_buckets (da_ts a1) = push 60 (r_buckets (da_ts a)) (minuteBucket (match r with Ret d => flatOf d | _ => emptyFlat end) now (da_mitaPrev a)) ∧ r_max (da_ts a1) = 60).
    { unfold a1, dashboardMinuteSample. cbn [da_ts]. destruct (append_push (minuteBucket (match r with Ret d => flatOf d | _ => emptyFlat end) now (da_mitaPrev a)) (da_ts a)) as [->|]; [|lia].
      cbn [r_buckets r_max]. by rewrite Hm. }
    destruct Hts as [Hb Hmax]. assert (Hok : ring_ok a1).
    { split; [done|]. rewrite Hb, push_le by (unfold len in Hl; lia). unfold lasts, len. rewrite length_drop. lia. }
    destruct (IH a1 Hok) as [H1 H2]. split; [done|]. unfold sampleAll in H2. rewrite H2. cbn [fmap list_fmap deltas snd].
    rewrite Hb, push_le, lasts_fmap, fmap_app by (unfold len in Hl; lia). cbn [fmap list_fmap].
    change (sn_down <$> da_mitaPrev a1) with (Some (downOf r)).
    assert (E : ∀ (l t : list Z), lasts 60 (lasts 60 l ++ t) = lasts 60 (l ++ t)).
    { intros l t. unfold lasts. rewrite !length_app, length_drop. destruct (decide (length l ≤ 60)%nat).
      - replace (length l - 60)%nat with 0%nat by lia. rewrite drop_0. do 2 f_equal. lia.
      - rewrite <- (drop_app_le l t (length l - 60)) by lia. rewrite drop_drop. f_equal. lia. }
    rewrite E, <- app_assoc. do 2 f_equal. cbn [app]. f_equal. by destruct (da_mitaPrev a).
Qed.
(** A list of totals as a server that is not restarted reports them. *)
Definition totals_ok (downs : list Z) : Prop := Sorted Z.le downs ∧ Forall (λ d, 0 ≤ d < 2 ^ 63) downs.

Definition sumZ (l : list Z) : Z := foldr Z.add 0 l.

Lemma deltas_sum downs : ∀ d k, totals_ok (d :: downs) → (k ≤ length downs)%nat →
  sumZ (drop k (deltas (Some d) downs)) = default 0 (last (d :: downs)) - default 0 ((d :: downs) !! k).
Proof.
  induction downs as [|e downs IH]; intros d k [Hs Hf] Hk.
  - cbn in Hk. replace k with 0%nat by lia. cbn. lia.
  - assert (Hok : totals_ok (e :: downs)) by (split; [by inversion Hs|by inversion Hf]). rewrite last_cons_cons. cbn [deltas]. destruct k as [|k].
    + rewrite drop_0. change (sumZ (?x :: ?l)) with (x + sumZ l). assert (Hd : nonNegDelta e d = e - d).
      { inversion Hs as [|? ? _ Hh]; subst. inversion Hh; subst. apply Forall_cons in Hf as [Hd Hf]. apply Forall_cons in Hf as [He _].
        unfold nonNegDelta. rewrite i64_small by lia. case_if; bool_to_Z; lia. }
      pose proof (IH e 0%nat Hok ltac:(lia)) as H0. rewrite drop_0 in H0. rewrite H0, Hd. cbn. lia.
    + cbn [drop]. rewrite (IH e k Hok) by (cbn in Hk; lia). done.
Qed.

(** The chart adds up: when the panel has read the totals of a running server every
    minute, the received bytes of the minutes that the chart shows are together the
    growth of the total since the oldest of them, or since the panel was started. *)
Theorem chart_accounts xs x0 : totals_ok (downOf x0.2 :: ((λ x, downOf x.2) <$> xs)) →
  let a := sampleAll (x0 :: xs) InitDashboardRuntime in
  let downs := downOf x0.2 :: ((λ x, downOf x.2) <$> xs) in
  len (r_buckets (da_ts a)) ≤ 60 ∧
  sumZ (b_RxBytes <$> r_buckets (da_ts a)) = default 0 (last downs) - default 0 (downs !! (length downs - 61)%nat).
Proof.
  intros Hok a downs. destruct (sample_buckets (x0 :: xs) InitDashboardRuntime) as [[_ Hlen] Hb]; [by split|]. split; [exact Hlen|].
  unfold a. rewrite Hb. cbn [fmap list_fmap option_fmap option_map deltas app InitDashboardRuntime da_ts NewTimeseriesRing r_buckets da_mitaPrev].
  set (ds := deltas (Some (downOf x0.2)) _). assert (Hds : length ds = length xs).
  { unfold ds. clear. generalize (downOf x0.2). induction xs as [|x xs IH]; intros d; [done|]. cbn. f_equal. apply IH. }
  unfold lasts, downs. cbn [length]. rewrite length_fmap, Hds. destruct (decide (length xs ≤ 59)%nat).
  - replace (S (length xs) - 60)%nat with 0%nat by lia. replace (S (length xs) - 61)%nat with 0%nat by lia. rewrite drop_0. change (sumZ (0 :: ds)) with (0 + sumZ ds).
    rewrite <- (deltas_sum _ _ 0%nat Hok) by lia. rewrite drop_0. done.
  - replace (S (length xs) - 60)%nat with (S (length xs - 60)) by lia. cbn [drop].
    replace (S (length xs) - 61)%nat with (length xs - 60)%nat by lia. apply deltas_sum; [exact Hok|]. rewrite length_fmap. lia.
Qed.

(** A failed read counts as totals of zero: the next minute shows all traffic since
    the server was started. *)
Theorem failed_read_spikes now1 now2 e d a : ring_ok a → 0 ≤ downOf (Ret d) < 2 ^ 63 →
  b_RxBytes <$> last (r_buckets (da_ts (sampleAll [(now1, Err e); (now2, Ret d)] a))) = Some (downOf (Ret d)).
Proof.
  intros Hok Hd. destruct (sample_buckets [(now1, Err e); (now2, Ret d)] a Hok) as [_ Hb].
  rewrite <- fmap_last, Hb. cbn [fmap list_fmap snd deltas]. unfold lasts. rewrite length_app. cbn [length].
  rewrite drop_app_le by lia. rewrite last_app. cbn [last]. f_equal. unfold nonNegDelta. change (downOf (Err e)) with 0. rewrite Z.sub_0_r.
  rewrite i64_small by lia. case_if; bool_to_Z; lia.
Qed.
End Chart.

End PanelDash.
Export PanelDash.
