(* ===== verification/PanelMain.v ===== *)
(** * The program of the web panel: mieru-panel/main.go

    The routes with the check of the session in front of the protected ones, the
    pages of the interface, the init command, the monitor of the server's state, and
    the status handlers (handlers/stats.go, health.go, connections.go,
    server_status.go, sub_export.go).  A path is the escaped path of the request, as
    the multiplexer of net/http matches it. *)

From S2P Require Import Prelude Net ConfigServer PanelText Url PanelConfig PanelAuth PanelUsers PanelStats.
From Stdlib Require Import ZifyBool.
Local Open Scope Z_scope.

Module PanelMain.

(** ** Paths *)

Definition slash : Z := 47.

(** [path.Clean]; [out] holds the segments so far, the last first. *)
Fixpoint cleanSegments (rooted : bool) (out segs : list bytes) : list bytes :=
  match segs with
  | [] => rev out
  | s :: segs =>
      cleanSegments rooted
        (if bool_decide (s = []) || bool_decide (s = string_bytes ".") then out
         else if bool_decide (s = string_bytes "..") then
           match out with
           | [] => if rooted then [] else [s]
           | t :: rest => if bool_decide (t = string_bytes "..") then s :: out else rest
           end
         else s :: out) segs
  end.
Definition Clean (p : bytes) : bytes :=
  let rooted := bool_decide (head p = Some slash) in
  let segs := cleanSegments rooted [] (Split slash p) in
  if rooted then slash :: joinWith slash segs
  else if bool_decide (segs = []) then string_bytes "." else joinWith slash segs.

(** [cleanPath] of net/http: a trailing slash stays. *)
Definition cleanPath (p : bytes) : bytes :=
  let p := if bool_decide (head p = Some slash) then p else slash :: p in
  let np := Clean p in
  if bool_decide (last p = Some slash) && negb (bool_decide (np = [slash])) then np ++ [slash] else np.

(** ** The multiplexer *)

(** [pathUnescape], which undoes the escapes of a path: a segment that is not well escaped is taken as it is. *)
Definition pathUnescape (seg : bytes) : bytes := default seg (unescape seg encodePath).

(** The segments of a pattern, and those of an escaped path. *)
Definition segments (p : bytes) : list bytes := Split slash (drop 1 p).
Definition pathSegments (path : bytes) : list bytes := pathUnescape <$> segments path.

(** A pattern with a slash at its end matches the paths below it. *)
Definition isTree (pattern : bytes) : bool := bool_decide (last pattern = Some slash).
Definition matches (pattern path : bytes) : bool :=
  let ps := segments pattern in
  let ss := pathSegments path in
  if isTree pattern then (length ps <=? length ss)%nat && bool_decide (take (length ps - 1) ps = take (length ps - 1) ss)
  else bool_decide (ps = ss).

(** The longest pattern that matches. *)
Fixpoint bestMatch {E} (routes : list (bytes * E)) (path : bytes) : option (bytes * E) :=
  match routes with
  | [] => None
  | (p, e) :: routes =>
      let rest := bestMatch routes path in
      if matches p path then
        match rest with Some (q, _) => if (length p <? length q)%nat then rest else Some (p, e) | None => Some (p, e) end
      else rest
  end.

Inductive routed (E : Type) := Redirect (to : bytes) | Found (e : E) | NotFound.
Arguments Redirect {E}. Arguments Found {E}. Arguments NotFound {E}.

(** [exactMatch]: nothing of the path is below the pattern. *)
Definition exactMatch (pattern path : bytes) : bool :=
  negb (isTree pattern) || (bool_decide (last path = Some slash) && (length (segments pattern) =? length (segments path))%nat).

(** A path that only a tree above matches is sent to the tree of its own name, if
    there is one; a path that is not clean is sent to the clean one. *)
Definition route {E} (routes : list (bytes * E)) (escapedPath : bytes) : routed E :=
  let path := cleanPath escapedPath in
  let slashed := path ++ [slash] in
  let exact := match bestMatch routes path with Some (p, _) => exactMatch p path | None => false end in
  if negb exact && negb (bool_decide (last path = Some slash)) &&
     match bestMatch routes slashed with Some (p, _) => exactMatch p slashed | None => false end
  then Redirect slashed
  else if negb (bool_decide (path = escapedPath)) then Redirect path
  else match bestMatch routes path with Some (_, e) => Found e | None => NotFound end.

(** ** The routes *)

Inductive panelEndpoint :=
  | Pages | Subscription | Login | Healthz | Metrics_
  | Logout | Me | Users_ | UserActions | UsersBulk | Stats | Status | DashMetrics | DashTimeseries | MitaStart | MitaStop | MitaLogs | Connections
  | AdminCredentials | Setup2FA | VerifySetup2FA | Disable2FA | Regenerate2FA | Status2FA | ServerConfig_ | Advanced | SubscriptionSecurity
  | ConfigBackup | ConfigRestore | SubscriptionsExport | Logs | Audit.
#[global] Instance panelEndpoint_eq_dec : EqDecision panelEndpoint.
Proof. solve_decision. Defined.

(** The outer routes: [None] is the handler of the protected ones. *)
Definition outerRoutes : list (bytes * option panelEndpoint) := [
  (string_bytes "/", Some Pages); (string_bytes "/sub/", Some Subscription); (string_bytes "/api/login", Some Login);
  (string_bytes "/api/healthz", Some Healthz); (string_bytes "/metrics", Some Metrics_); (string_bytes "/api/", None)].
Definition protectedRoutes : list (bytes * panelEndpoint) := [
  (string_bytes "/api/logout", Logout); (string_bytes "/api/me", Me); (string_bytes "/api/users", Users_); (string_bytes "/api/users/", UserActions);
  (string_bytes "/api/users/bulk-delete", UsersBulk); (string_bytes "/api/stats", Stats); (string_bytes "/api/status", Status);
  (string_bytes "/api/dashboard/metrics", DashMetrics); (string_bytes "/api/dashboard/timeseries", DashTimeseries);
  (string_bytes "/api/mita/start", MitaStart); (string_bytes "/api/mita/stop", MitaStop); (string_bytes "/api/mita/logs", MitaLogs);
  (string_bytes "/api/connections", Connections); (string_bytes "/api/admin/credentials", AdminCredentials);
  (string_bytes "/api/auth/2fa/setup", Setup2FA); (string_bytes "/api/auth/2fa/verify-setup", VerifySetup2FA);
  (string_bytes "/api/auth/2fa/disable", Disable2FA); (string_bytes "/api/auth/2fa/regenerate-backup", Regenerate2FA);
  (string_bytes "/api/auth/2fa/status", Status2FA); (string_bytes "/api/server-config", ServerConfig_); (string_bytes "/api/advanced", Advanced);
  (string_bytes "/api/security/subscription", SubscriptionSecurity); (string_bytes "/api/config/backup", ConfigBackup);
  (string_bytes "/api/config/restore", ConfigRestore); (string_bytes "/api/subscriptions/export", SubscriptionsExport);
  (string_bytes "/api/logs", Logs); (string_bytes "/api/audit", Audit)].
Definition isPublic (e : panelEndpoint) : bool := match e with Pages | Subscription | Login | Healthz | Metrics_ => true | _ => false end.

(** A redirect answers 301, a path without a handler 404. *)
Definition redirectTo : response := errorReply 301 "Moved Permanently".
Definition notFoundReply : response := errorReply 404 "404 page not found".

Section Serve.
Context {B : Type} (handle : panelEndpoint → Z → request B → App → option response * App).

Definition protected (path : bytes) (now : Z) (r : request B) (a : App) : option response * App :=
  match route protectedRoutes path with
  | Redirect _ => (Some redirectTo, a)
  | Found e => handle e now r a
  | NotFound => (Some notFoundReply, a)
  end.
Definition servePanel (path : bytes) (now : Z) (r : request B) (a : App) : option response * App :=
  match route outerRoutes path with
  | Redirect _ => (Some redirectTo, a)
  | Found (Some e) => handle e now r a
  | Found None => RequireAuth (protected path) now r a
  | NotFound => (Some notFoundReply, a)
  end.
End Serve.

(** ** The pages *)

(** The embedded files: whether a name is a directory. *)
Notation FS := (gmap bytes bool).
Definition exists_ (static : FS) (name : bytes) : bool := match static !! name with Some isDir => negb isDir | None => false end.

Definition indexHtml : bytes := string_bytes "index.html".
Definition pathJoin (a b : bytes) : bytes := if bool_decide (a = []) then Clean b else Clean (a ++ [slash] ++ b).
Definition candidates (target : bytes) : list bytes := [target; target ++ string_bytes ".html"; pathJoin target indexHtml].
Definition trimSlash (p : bytes) : bytes := match p with c :: p' => if c =? slash then p' else p | [] => [] end.
Definition spaHandler (static : FS) (urlPath : bytes) : bytes :=
  let p := Clean urlPath in
  if bool_decide (p = string_bytes ".") || bool_decide (p = [slash]) then indexHtml
  else default indexHtml (List.find (exists_ static) (candidates (trimSlash p))).

Record served_ := mkServed { sv_status : Z; sv_contentType : bytes; sv_cacheControl : bytes }.
(** [mime]: the types by extension, [readable]: whether the file can be read. *)
Definition serveStatic (mime : bytes → bytes) (readable : bytes → bool) (name : bytes) : served_ :=
  if negb (readable name) then mkServed 503 [] []
  else mkServed 200 (mime name)
    (if HasSuffix name (string_bytes ".html") then string_bytes "no-store"
     else if HasPrefix name (string_bytes "_next/static/") then string_bytes "public, max-age=31536000, immutable"
     else string_bytes "public, max-age=300").

(** ** The init command *)

Record initFlags := mkInitFlags {
  if_serverIP : bytes; if_adminPass : bytes; if_firstUser : bytes; if_firstUserPass : bytes; if_defaultPort : Z; if_portRange : bytes }.

Definition envOr (val fallback : bytes) : bytes := let val := TrimSpace val in if bool_decide (val = []) then fallback else val.
Definition randomHex (drawn : outcome bytes) : outcome bytes := let! b := drawn in Ret (string_bytes (ConfigServer.hexEncode b)).

Definition initConfig (f : initFlags) (hash secret : bytes) (users : list (User (list DeviceFingerprint))) : Config (list DeviceFingerprint) :=
  mkConfig (string_bytes "admin") hash (if_serverIP f) (if_portRange f) (if_defaultPort f) 8080 (string_bytes "127.0.0.1") secret users [] 0 [] [] false.

(** [fs]: the flags, or the error of parsing them; [secret], [token]: the draws of
    the random source; [file]: the file before, the result
    has the file afterwards. *)
Definition runInit (L : libs) (salt : bytes) (fs : outcome initFlags) (secret token : outcome bytes) (mkdir : outcome unit) (disk : option (option bytes)) (file : option bytes)
    : outcome unit * option bytes :=
  let res :=
    let! f := fs in
    if bool_decide (if_serverIP f = []) || bool_decide (if_adminPass f = []) then Err (Errorf "server-ip and admin-pass are required")
    else
      let! hash := bcryptGenerate L salt (if_adminPass f) in
      let! sessionSecret := randomHex secret in
      let! users :=
        (if bool_decide (TrimSpace (if_firstUser f) = []) then Ret []
         else if bool_decide (TrimSpace (if_firstUserPass f) = []) then Err (Errorf "first-user-pass is required when first-user is provided")
         else let! token := randomHex token in
              Ret [mkUser (TrimSpace (if_firstUser f)) (if_firstUserPass f) token (mkQuotas 0 0) 0 0 []]) in
      let! _ := mkdir in
      Ret (initConfig f hash sessionSecret users) in
  match res with
  | Ret cfg => writeConfig (marshalConfig L) disk cfg
  | Err e => (Err e, file)
  | Panic p => (Panic p, file)
  end.

(** The address of the panel: the port of the configuration, the host of the
    environment. *)
Definition listenAddr (panelHost : bytes) {D} (cfg : Config D) : bytes :=
  envOr panelHost (string_bytes "0.0.0.0") ++ [58] ++ Itoa (PanelPort cfg).

(** ** The monitor of the server *)

Inductive mitaState := OFFLINE | RUNNING | IDLE.
#[global] Instance mitaState_eq_dec : EqDecision mitaState.
Proof. solve_decision. Defined.

Definition stateOf (L : libs) (status : outcome bytes) : mitaState :=
  match status with Ret s => if isRun L s then RUNNING else IDLE | _ => OFFLINE end.
(** One tick: the last state and the change that is told. *)
Definition monitorTick (L : libs) (last : option mitaState) (status : outcome bytes) : option mitaState * option (mitaState * mitaState) :=
  let state := stateOf L status in
  match last with
  | None => (Some state, None)
  | Some prev => if bool_decide (state = prev) then (last, None) else (Some state, Some (prev, state))
  end.
Fixpoint monitorMitaState (L : libs) (last : option mitaState) (ticks : list (outcome bytes)) : list (mitaState * mitaState) :=
  match ticks with
  | [] => []
  | s :: ticks => let '(last, n) := monitorTick L last s in option_list n ++ monitorMitaState L last ticks
  end.

(** ** The client of the command line: pkg/mita/client.go *)

(** A failed run, with what it printed. *)
Record RunError := mkRunError { re_Op : bytes; re_Reason : bytes; re_Stdout : bytes; re_Stderr : bytes }.
(** An error of the client: of a run, or of reading its output. *)
Inductive mitaErr := MRun (e : RunError) | MOther (text : bytes).
Definition errorText (e : mitaErr) : bytes :=
  match e with MRun e => string_bytes "mita " ++ re_Op e ++ string_bytes " failed: " ++ re_Reason e | MOther t => t end.
(** The output and the standard error of a run, and its error. *)
Record ran := mkRan { rn_out : bytes; rn_stderr : bytes; rn_err : option RunError }.

Record mitaClient := mkMitaClient { mc_binary : bytes; mc_logFile : bytes }.
Definition DefaultLogFile : bytes := string_bytes "/var/log/mita/mita.log".
Definition NewMitaClient (binary envLogFile : bytes) : mitaClient :=
  mkMitaClient (if bool_decide (TrimSpace binary = []) then string_bytes "mita" else binary) (envOr envLogFile DefaultLogFile).

Definition offlineWords : list bytes := string_bytes <$> [
  "daemon is not running"; "connection refused"; "no such file or directory"; "code = unavailable"; "transport: error while dialing"].
Definition looksOfflineMessage (lower : bytes → bytes) (msg : bytes) : bool :=
  let m := ToLower lower msg in existsb (Contains m) offlineWords.

Definition GetUsersMetrics (r : ran) : gmap bytes UserMetricsRow := match rn_err r with Some _ => ∅ | None => parseGetUsersTable (rn_out r) end.
Definition GetConnections (r : ran) : mitaErr + list ConnectionInfo :=
  match rn_err r with Some e => inl (MRun e) | None => inr (parseConnectionsTable (rn_out r)) end.
Definition DaemonVersion (r : ran) : mitaErr + bytes := match rn_err r with Some e => inl (MRun e) | None => inr (TrimSpace (rn_out r)) end.

(** [isObject]: whether [json.Unmarshal] takes a text for an object. *)
Definition GetDaemonMetricsJSON (isObject : bytes → bool) (r : ran) : goerr + bytes :=
  let raw := TrimSpace (rn_out r) in
  let raw := if bool_decide (raw = []) then TrimSpace (rn_stderr r) else raw in
  let raw := extractJSONObject raw in
  let failed msg := match rn_err r with Some _ => Errorf "mita get metrics failed: %s" | None => Errorf msg end in
  if bool_decide (raw = []) then inl (failed "empty metrics output")
  else if negb (isObject raw) then inl (failed "metrics output is not json: %w") else inr raw.

(** The last mebibyte of the log, [lines] lines of it.  [bufio.Scanner] gives the
    lines without their ends, and fails at a line of a mebibyte. *)
Definition maxRead : Z := 2 ^ 20.
Definition dropCR (l : bytes) : bytes := match last l with Some 13 => take (length l - 1) l | _ => l end.
Definition logLines (s : bytes) : list bytes := let ls := Split 10 s in dropCR <$> (match last ls with Some [] => take (length ls - 1) ls | _ => ls end).
Inductive logFile_ := NoLog | LogUnreadable | LogText (s : bytes).
Definition mitaLogs (lines : Z) (f : logFile_) : outcome bytes :=
  let lines := if lines <=? 0 then 200 else lines in
  match f with
  | NoLog => Ret []
  | LogUnreadable => Err (Errorf "open mita log %s: %w")
  | LogText s =>
      let s := if maxRead <? len s then drop (Z.to_nat (len s - maxRead)) s else s in
      let ls := logLines s in
      if existsb (λ l, maxRead <=? len l) (Split 10 s) then Err (Errorf "bufio.Scanner: token too long")
      else Ret (joinWith 10 (logRing (Z.to_nat lines) ls))
  end.

(** ** Status handlers *)

Inductive statusBody :=
  | SError (msg : bytes) | SUnavailable (reason : bytes) | SConnections (rows : list ConnectionInfo) | SStats (rows : list UserStats) | SStatus (s : bytes) (available : bool)
  | SHealth (uptime users : Z) (mita : bytes) (telegram : bool) | SText (s : bytes).
Record statusReply := mkStatusReply { st_status : Z; st_body : statusBody }.
Definition methodRefused : statusReply := mkStatusReply 405 (SError (string_bytes "method not allowed")).

Section Status.
Context (L : libs) (lower : bytes → bytes).

Definition isMitaRunning (status : mitaErr + bytes) : bool :=
  match status with inl _ => false | inr s => Contains (ToUpper (unicodeUpper L) s) (string_bytes "RUNNING") end.
Definition offlineStats : list bytes := offlineWords ++ [string_bytes "eof"].
Definition isDaemonOffline (e : mitaErr) : bool :=
  match e with
  | MRun e => let msg := ToLower lower (re_Reason e ++ [32] ++ re_Stderr e ++ [32] ++ re_Stdout e) in existsb (Contains msg) offlineStats
  | MOther _ => false
  end.
Definition writeMita502 (e : mitaErr) : statusReply := mkStatusReply 502 (SError (errorText e)).

Definition HandleConnections (m : method) (status : mitaErr + bytes) (conns : mitaErr + list ConnectionInfo) : statusReply :=
  if negb (bool_decide (m = GET)) then methodRefused
  else if negb (isMitaRunning status) then mkStatusReply 200 (SUnavailable (string_bytes "server not running"))
  else match conns with
       | inl e => mkStatusReply 200 (SUnavailable (errorText e))
       | inr rows => mkStatusReply 200 (SConnections rows)
       end.
Definition HandleStats (m : method) (stats : mitaErr + list UserStats) : statusReply :=
  if negb (bool_decide (m = GET)) then methodRefused
  else match stats with
       | inl e => if isDaemonOffline e then mkStatusReply 200 (SUnavailable []) else writeMita502 e
       | inr rows => mkStatusReply 200 (SStats rows)
       end.
Definition HandleStatus (m : method) (status : mitaErr + bytes) : statusReply :=
  if negb (bool_decide (m = GET)) then methodRefused
  else match status with
       | inl e => if isDaemonOffline e then mkStatusReply 200 (SStatus (string_bytes "OFFLINE") false) else writeMita502 e
       | inr s => mkStatusReply 200 (SStatus s true)
       end.

Definition TelegramConfigured (token chat : bytes) : bool := negb (bool_decide (token = [])) && negb (bool_decide (chat = [])).
Definition HandleHealthz (m : method) (uptime : Z) (telegram : bool) (status : mitaErr + bytes) (a : App) : statusReply :=
  if negb (bool_decide (m = GET)) then methodRefused
  else mkStatusReply 200 (SHealth uptime (len (Users (Snapshot (a_Config a)))) (match status with inr s => s | inl _ => string_bytes "unknown" end) telegram).

(** One metric of the text: two comments and the value. *)
Definition exposition (name help typ : string) (v : Z) : bytes :=
  string_bytes "# HELP " ++ string_bytes name ++ [32] ++ string_bytes help ++ [10] ++
  string_bytes "# TYPE " ++ string_bytes name ++ [32] ++ string_bytes typ ++ [10] ++ string_bytes name ++ [32] ++ Itoa v ++ [10].
Definition HandleMetrics (m : method) (uptime : Z) (status : mitaErr + bytes) (conns : mitaErr + list ConnectionInfo) (a : App) : statusReply :=
  if negb (bool_decide (m = GET)) then methodRefused
  else
    let running := isMitaRunning status in
    let connCount := if running then match conns with inr rows => len rows | inl _ => 0 end else 0 in
    mkStatusReply 200 (SText (
      exposition "mieru_panel_uptime_seconds" "Time since panel started." "counter" uptime ++
      exposition "mieru_panel_users_total" "Number of configured users." "gauge" (len (Users (Snapshot (a_Config a)))) ++
      exposition "mieru_panel_mita_running" "1 when mita reports RUNNING, 0 otherwise." "gauge" (if running then 1 else 0) ++
      exposition "mieru_panel_active_connections" "Number of mita sessions returned by `mita get connections`." "gauge" connCount)).

(** ** The list of subscriptions *)

Definition subPath (token : bytes) : bytes := string_bytes "/sub/" ++ token.
Definition exportLine (scheme host : bytes) {D} (u : User D) : bytes := u_Name u ++ [9] ++ scheme ++ string_bytes "://" ++ host ++ subPath (u_SubToken u) ++ [10].
Definition exportedUsers (nowUnix : Z) (a : App) : list (User slice) := filter (λ u, expired nowUnix u = false) (Users (Snapshot (a_Config a))).
Definition HandleSubscriptionsExport (m : method) (nowUnix : Z) (tls : bool) (proto host : bytes) (a : App) : statusReply :=
  if negb (bool_decide (m = GET)) then methodRefused
  else
    let scheme := if tls || bool_decide (ToLower lower proto = string_bytes "https") then string_bytes "https" else string_bytes "http" in
    let host := if bool_decide (host = []) then TrimSpace (ServerIP (Snapshot (a_Config a))) else host in
    mkStatusReply 200 (SText (string_bytes "# mieru-panel subscriptions export" ++ [10] ++ string_bytes "# format: <user>\t<sing-box JSON URL>" ++ [10] ++
      concat (exportLine scheme host <$> exportedUsers nowUnix a))).
End Status.

(** * Properties *)

(** ** Routes *)

Lemma bestMatch_some {E} (routes : list (bytes * E)) path p e : bestMatch routes path = Some (p, e) →
  (p, e) ∈ routes ∧ matches p path = true ∧ ∀ q e', (q, e') ∈ routes → matches q path = true → (length q ≤ length p)%nat.
Proof.
  revert p e. induction routes as [|[q f] routes IH]; intros p e Hb; [done|]. cbn [bestMatch] in Hb.
  assert (Hskip : ∀ p e, bestMatch routes path = Some (p, e) → (matches q path = true → (length q ≤ length p)%nat) →
    (p, e) ∈ (q, f) :: routes ∧ matches p path = true ∧ ∀ q0 e', (q0, e') ∈ (q, f) :: routes → matches q0 path = true → (length q0 ≤ length p)%nat).
  { intros p0 e0 H0 Hq. destruct (IH _ _ H0) as (H1 & H2 & H3). split_and!; [by right|done|]. intros q0 e' Hin Hm. apply elem_of_cons in Hin as [[= -> ->]|Hin]; [by apply Hq|by eapply H3]. }
  destruct (matches q path) eqn:Em; [|by apply Hskip]. destruct (bestMatch routes path) as [[q' e']|] eqn:Er.
  - destruct (Nat.ltb_spec (length q) (length q')); [apply Hskip; [done|injection Hb as <- <-; lia]|]. injection Hb as <- <-. destruct (IH _ _ eq_refl) as (_ & _ & H3).
    split_and!; [by left|done|]. intros q0 e0 Hin Hm. apply elem_of_cons in Hin as [[= -> ->]|Hin]; [done|]. specialize (H3 _ _ Hin Hm). lia.
  - injection Hb as <- <-. split_and!; [by left|done|]. intros q0 e0 Hin Hm. apply elem_of_cons in Hin as [[= -> ->]|Hin]; [done|]. exfalso. clear -Er Hin Hm.
    induction routes as [|[q1 e1] routes IH]; [by apply elem_of_nil in Hin|]. cbn [bestMatch] in Er. apply elem_of_cons in Hin as [[= -> ->]|Hin].
    + rewrite Hm in Er. destruct (bestMatch routes path) as [[? ?]|]; [|discriminate]. by case_if_in Er.
    + apply IH; [|done]. destruct (matches q1 path); [|done]. destruct (bestMatch routes path) as [[? ?]|]; [|done]. by case_if_in Er.
Qed.

Lemma route_found {E} (routes : list (bytes * E)) path e : route routes path = Found e → ∃ p, bestMatch routes path = Some (p, e).
Proof.
  unfold route. destruct (_ && _); [done|]. case_bool_decide as Hc; cbn [negb]; [|done]. rewrite Hc.
  destruct (bestMatch routes path) as [[p e']|]; [|done]. intros [= ->]. by exists p.
Qed.

Lemma Split_last sep s : Split sep (s ++ [sep]) = Split sep s ++ [[]].
Proof.
  induction s as [|c s IH]; cbn; [by rewrite Z.eqb_refl|]. rewrite IH. destruct (c =? sep); [done|].
  destruct (Split sep s) as [|p ps] eqn:E; [|done]. destruct s as [|x s]; cbn in E; [done|]. destruct (x =? sep); [done|]. by destruct (Split sep s).
Qed.

Lemma pathSegments_slash path : path ≠ [] → length (pathSegments (path ++ [slash])) = S (length (pathSegments path)).
Proof.
  intros Hne. unfold pathSegments, segments. rewrite !length_fmap. destruct path as [|c path]; [done|].
  change (drop 1 ((c :: path) ++ [slash])) with (path ++ [slash]). change (drop 1 (c :: path)) with path. rewrite Split_last, length_app. cbn. lia.
Qed.

(** The paths below /api/, as the multiplexer reads them. *)
Definition belowApi (path : bytes) : Prop := ∃ seg rest, pathSegments path = string_bytes "api" :: seg :: rest.
Definition apiPath (seg : string) : list bytes := [string_bytes "api"; string_bytes seg].

(** A handler that is reached without the check is a public one, and below /api/
    only those of the login and of the health check are. *)
Lemma outer_public path e : route outerRoutes path = Found (Some e) →
  isPublic e = true ∧ (belowApi path → pathSegments path = apiPath "login" ∨ pathSegments path = apiPath "healthz").
Proof.
  intros Hr. apply route_found in Hr as [p Hb]. apply bestMatch_some in Hb as (Hin & Hm & Hmax). split.
  - unfold outerRoutes in Hin. rewrite !elem_of_cons in Hin. destruct_or! Hin; try (injection Hin as -> ->; reflexivity); [discriminate|by apply elem_of_nil in Hin].
  - intros (seg & rest & Hs). assert (Hapi : (5 ≤ length p)%nat).
    { apply (Hmax (string_bytes "/api/") None); [repeat first [left; reflexivity|right]|]. unfold matches. rewrite Hs. reflexivity. }
    unfold outerRoutes in Hin. rewrite !elem_of_cons in Hin. unfold matches in Hm. rewrite Hs in Hm.
    destruct_or! Hin; try discriminate; try (by apply elem_of_nil in Hin); injection Hin as -> ->; [cbn in Hapi; lia|..].
    + exfalso. vm_compute in Hm. discriminate.
    + left. rewrite Hs. symmetry. by apply bool_decide_eq_true in Hm.
    + right. rewrite Hs. symmetry. by apply bool_decide_eq_true in Hm.
    + exfalso. apply bool_decide_eq_true in Hm. vm_compute in Hm. discriminate.
Qed.

(** The pages match every path, so that no path is without a handler. *)
Lemma outer_matched path : ∃ p e, bestMatch outerRoutes path = Some (p, e).
Proof.
  assert (Hroot : matches (string_bytes "/") path = true).
  { unfold matches. assert (1 ≤ length (pathSegments path))%nat; [|by destruct (pathSegments path); [cbn in *; lia|]].
    unfold pathSegments, segments. rewrite length_fmap. destruct (drop 1 path) as [|c s]; cbn; [lia|]. destruct (c =? slash); [cbn; lia|]. destruct (Split slash s); cbn; lia. }
  unfold outerRoutes. cbn [bestMatch]. rewrite Hroot. repeat case_match; eauto.
Qed.

(** Below /api/ no path is sent to a tree of its own name. *)
Lemma api_not_slashed path p e : belowApi path → bestMatch outerRoutes (path ++ [slash]) = Some (p, e) → exactMatch p (path ++ [slash]) = false.
Proof.
  intros (seg & rest & Hs) Hb. apply bestMatch_some in Hb as (Hin & Hm & _).
  assert (Hlen : (3 ≤ length (segments (path ++ [slash])))%nat).
  { rewrite <- (length_fmap pathUnescape). fold (pathSegments (path ++ [slash])). rewrite pathSegments_slash; [rewrite Hs; cbn; lia|]. intros ->. vm_compute in Hs. discriminate. }
  assert (Hshort : (length (segments p) ≤ 2)%nat).
  { unfold outerRoutes in Hin. rewrite !elem_of_cons in Hin. destruct_or! Hin; try (by apply elem_of_nil in Hin); injection Hin as -> ->; vm_compute; lia. }
  unfold exactMatch, matches in *. destruct (isTree p); cbn [negb orb].
  - apply andb_false_iff. right. apply Nat.eqb_neq. lia.
  - apply bool_decide_eq_true in Hm. apply (f_equal length) in Hm. unfold pathSegments in Hm. rewrite length_fmap in Hm. lia.
Qed.

(** C22: the panel checks the session.  Without a valid session a request has no way
    to a protected handler: two panels that differ in these handlers only answer
    alike; below /api/, but for the login and the health check, the panel is left
    as it is and the answer is 401 for a clean path and a redirect to the clean
    path for any other.  With a session every protected route leads to its
    handler, and without one it answers 401. *)
Theorem api_needs_session {B} (h : panelEndpoint → Z → request B → App → option response * App) path now r a :
  let valid := validateSessionCookie now (r_cookie r) (SessionSecret (Snapshot (a_Config a))) in
  (valid = false → ∀ h', (∀ e, isPublic e = true → h e = h' e) → servePanel h path now r a = servePanel h' path now r a) ∧
  (valid = false → belowApi path → pathSegments path ≠ apiPath "login" → pathSegments path ≠ apiPath "healthz" →
    ∃ w, servePanel h path now r a = (Some w, a) ∧ w_status w = if bool_decide (cleanPath path = path) then 401 else 301) ∧
  (∀ p e, (p, e) ∈ protectedRoutes → servePanel h p now r a = if valid then h e now r a else (Some (errorReply 401 "unauthorized"), a)).
Proof.
  intros valid. split_and!.
  - intros Hv h' Hh. unfold servePanel. destruct (route outerRoutes path) as [to|[e|]|] eqn:E; [done| | |done].
    + rewrite (Hh e); [done|]. by apply outer_public in E as [? _].
    + unfold RequireAuth. fold valid. by rewrite Hv.
  - intros Hv Hp H1 H2. unfold servePanel. destruct (route outerRoutes path) as [to|[e|]|] eqn:E.
    + exists redirectTo. split; [done|]. case_bool_decide as Hc; [exfalso|done]. unfold route in E. rewrite Hc in E.
      destruct (bestMatch outerRoutes (path ++ [slash])) as [[q e]|] eqn:Eb; [rewrite (api_not_slashed _ _ _ Hp Eb) in E|];
        rewrite andb_false_r, (bool_decide_eq_true_2 (path = path)) in E by done; cbn [negb] in E; by destruct (bestMatch outerRoutes path) as [[]|].
    + apply outer_public in E as [_ E]. destruct (E Hp); contradiction.
    + unfold RequireAuth. fold valid. rewrite Hv. eexists. split; [done|]. rewrite bool_decide_eq_true_2; [done|].
      unfold route in E. destruct (_ && _) in E; [done|]. case_bool_decide; [done|]. done.
    + exfalso. destruct (outer_matched path) as (p & e & Em). unfold route in E. destruct (_ && _) in E; [done|]. case_bool_decide as Hc; cbn [negb] in E; [|done].
      rewrite Hc, Em in E. done.
  - intros p e Hin. assert (HF : Forall (λ pe, route outerRoutes pe.1 = Found None ∧ route protectedRoutes pe.1 = Found pe.2) protectedRoutes).
    { unfold protectedRoutes at 2. repeat (constructor; [split; vm_compute; reflexivity|]). constructor. }
    rewrite Forall_forall in HF. destruct (HF _ Hin) as [E1 E2]. cbn in E1, E2. unfold servePanel. rewrite E1. unfold RequireAuth. fold valid.
    destruct valid; [|done]. cbn [negb]. unfold protected. by rewrite E2.
Qed.

(** ** Paths *)

Definition good (s : bytes) : Prop := s ≠ [] ∧ s ≠ string_bytes "." ∧ s ≠ string_bytes ".." ∧ slash ∉ s.

Lemma split_pieces sep p : Forall (λ s, sep ∉ s) (Split sep p).
Proof.
  induction p as [|c p IH]; cbn; [by repeat constructor; apply not_elem_of_nil|]. destruct (Z.eqb_spec c sep) as [->|Hne]; [constructor; [apply not_elem_of_nil|done]|].
  destruct (Split sep p) as [|q ps]; [repeat constructor; rewrite not_elem_of_cons; split; [congruence|apply not_elem_of_nil]|].
  apply Forall_cons in IH as [Hq IH]. constructor; [|done]. rewrite not_elem_of_cons. split; [congruence|done].
Qed.

Lemma clean_good out segs : Forall good out → Forall (λ s, slash ∉ s) segs → Forall good (cleanSegments true out segs).
Proof.
  revert out. induction segs as [|s segs IH]; intros out Ho Hs; cbn [cleanSegments]; [by apply Forall_rev|]. apply Forall_cons in Hs as [Hn Hs]. apply IH; [|done].
  destruct (bool_decide_reflect (s = [])); [done|]. destruct (bool_decide_reflect (s = string_bytes ".")); [done|]. cbn [orb].
  destruct (bool_decide_reflect (s = string_bytes "..")); [|constructor; [by split_and!|done]].
  destruct out as [|t out]; [done|]. apply Forall_cons in Ho as [Ht Ho]. rewrite bool_decide_false by (by destruct Ht as (_ & _ & ? & _)). done.
Qed.

Lemma clean_keeps rooted out segs : Forall good segs → cleanSegments rooted out segs = rev out ++ segs.
Proof.
  revert out. induction segs as [|s segs IH]; intros out Hs; cbn [cleanSegments]; [by rewrite app_nil_r|]. apply Forall_cons in Hs as [(H1 & H2 & H3 & _) Hs].
  rewrite !bool_decide_false by done. cbn [orb]. rewrite IH by done. cbn. by rewrite <- app_assoc.
Qed.

Lemma clean_skip rooted out segs : cleanSegments rooted out ([] :: segs) = cleanSegments rooted out segs.
Proof. done. Qed.

(** The text of cleaned segments. *)
Definition rootedPath (segs : list bytes) : bytes := slash :: joinWith slash segs.
Lemma Clean_good segs : Forall good segs → Clean (rootedPath segs) = rootedPath segs ∧ (segs ≠ [] → Clean (rootedPath segs ++ [slash]) = rootedPath segs).
Proof.
  intros Hg. assert (Hn : Forall (λ s, slash ∉ s) segs) by (eapply Forall_impl; [exact Hg|]; by intros s (_ & _ & _ & ?)). unfold Clean, rootedPath. split.
  - rewrite bool_decide_true by done. cbn [Split]. rewrite Z.eqb_refl. destruct segs as [|s segs]; [done|]. rewrite Split_join by done. rewrite clean_skip, clean_keeps by done. reflexivity.
  - intros Hne. rewrite bool_decide_true by done. cbn [app Split]. rewrite Z.eqb_refl. f_equal. f_equal.
    assert (Hj : joinWith slash segs ++ [slash] = joinWith slash (segs ++ [[]])).
    { clear -Hne. induction segs as [|s segs IH]; [done|]. destruct segs as [|t segs]; [done|]. change (joinWith slash (s :: t :: segs)) with (s ++ [slash] ++ joinWith slash (t :: segs)).
      rewrite <- !app_assoc, IH by done. done. }
    rewrite Hj, Split_join; [|by destruct segs|apply Forall_app_2; [done|repeat constructor; apply not_elem_of_nil]].
    rewrite clean_skip. clear -Hg. enough (E : ∀ out, cleanSegments true out (segs ++ [[]]) = rev out ++ segs) by apply E.
    induction segs as [|s segs IH]; intros out; cbn [app cleanSegments]; [rewrite bool_decide_true by done; cbn; by rewrite app_nil_r|]. apply Forall_cons in Hg as [(H1 & H2 & H3 & _) Hg].
    rewrite !bool_decide_false by done. cbn [orb]. rewrite IH by done. cbn. by rewrite <- app_assoc.
Qed.

Lemma Clean_rooted p : head p = Some slash → ∃ segs, Clean p = rootedPath segs ∧ Forall good segs.
Proof. intros Hp. unfold Clean. rewrite bool_decide_true by done. eexists. split; [done|]. apply clean_good; [constructor|apply split_pieces]. Qed.

Lemma joinWith_pages_last segs : Forall good segs → last (rootedPath segs) = Some slash → segs = [].
Proof.
  intros Hg Hl. destruct segs as [|s segs]; [done|exfalso]. unfold rootedPath in Hl. revert Hl. generalize slash at 1. revert s Hg. induction segs as [|t segs IH]; intros s Hg c Hl.
  - apply Forall_cons in Hg as [(H1 & _ & _ & H4) _]. cbn [joinWith] in Hl. destruct s as [|x s]; [done|]. apply H4. apply last_Some in Hl as [l' E].
    destruct l' as [|y l']; [discriminate|]. injection E as _ E. rewrite E. set_solver.
  - apply Forall_cons in Hg as [Hs Hg]. change (joinWith slash (s :: t :: segs)) with (s ++ slash :: joinWith slash (t :: segs)) in Hl.
    apply (IH t Hg slash). rewrite <- Hl. rewrite app_comm_cons. by rewrite last_app_cons.
Qed.

(** A cleaned path is not cleaned again: a redirect is followed by no other for the
    same reason. *)
Theorem cleanPath_idempotent p : cleanPath (cleanPath p) = cleanPath p.
Proof.
  unfold cleanPath at 2 3. set (q := if bool_decide (head p = Some slash) then p else slash :: p). assert (Hq : head q = Some slash) by (unfold q; by case_bool_decide).
  destruct (Clean_rooted q Hq) as (segs & E & Hg). rewrite E. destruct (Clean_good segs Hg) as [C1 C2]. destruct (decide (segs = [])) as [->|Hne]; [by destruct (bool_decide (last q = Some slash))|].
  assert (Hnr : rootedPath segs ≠ [slash]).
  { intros Er. apply Hne. apply joinWith_pages_last; [done|]. by rewrite Er. }
  rewrite (bool_decide_false (rootedPath segs = [slash])) by done. cbn [negb]. rewrite andb_true_r. destruct (bool_decide (last q = Some slash)).
  - unfold cleanPath. rewrite (bool_decide_true (head (rootedPath segs ++ [slash]) = Some slash)) by done. rewrite C2 by done.
    by rewrite last_snoc, bool_decide_true, (bool_decide_false (rootedPath segs = [slash])) by done.
  - unfold cleanPath. rewrite (bool_decide_true (head (rootedPath segs) = Some slash)) by done. rewrite C1. rewrite (bool_decide_false (last (rootedPath segs) = Some slash)); [done|]. intros Hl. apply Hne. by apply joinWith_pages_last.
Qed.

(** ** The pages *)

(** A page is a file of the interface, below its root: its name has no segment that
    leads out, and a path without a file gets the start page. *)
Theorem pages_are_files static p : head p = Some slash →
  let n := spaHandler static p in
  (n = indexHtml ∨ exists_ static n = true) ∧ ∃ segs, Forall good segs ∧ n ∈ indexHtml :: candidates (joinWith slash segs).
Proof.
  intros Hp. cbn zeta. destruct (Clean_rooted p Hp) as (segs & E & Hg). unfold spaHandler. rewrite E. split.
  - case_if; [by left|]. destruct (List.find _ _) as [n|] eqn:Ef; [right; by apply find_some in Ef as [_ ?]|by left].
  - exists segs. split; [done|]. case_if; [left|]. cbn [trimSlash rootedPath]. rewrite Z.eqb_refl. destruct (List.find _ _) as [n|] eqn:Ef; [|left]. right. apply find_some in Ef as [Hin _]. by apply list_elem_of_In.
Qed.

(** ** The monitor *)

(** The changes in a sequence of states. *)
Fixpoint changes (prev : mitaState) (l : list mitaState) : list (mitaState * mitaState) :=
  match l with [] => [] | s :: l => (if bool_decide (s = prev) then [] else [(prev, s)]) ++ changes s l end.

(** Every change of the state is told once, and nothing else is; the first state is
    not a change. *)
Theorem monitor_tells_changes L ticks : monitorMitaState L None ticks = match stateOf L <$> ticks with [] => [] | s :: l => changes s l end.
Proof.
  assert (Hc : ∀ prev ticks, monitorMitaState L (Some prev) ticks = changes prev (stateOf L <$> ticks)).
  { clear. intros prev ticks. revert prev. induction ticks as [|t ticks IH]; intros prev; [done|]. cbn. destruct (bool_decide_reflect (stateOf L t = prev)) as [->|]; cbn; by rewrite IH. }
  destruct ticks as [|t ticks]; [done|]. cbn. apply Hc.
Qed.

(** ** The first start *)

(** The laws of the libraries that the first start relies on: a configuration is read
    back, and a password matches its hash. *)
Record init_laws (L : libs) (unmarshal : bytes → option (Config (list DeviceFingerprint))) : Prop := {
  il_config : ∀ c, unmarshal (marshalConfig L c) = Some c;
  il_bcrypt : ∀ salt pass h, bcryptGenerate L salt pass = Ret h → bcryptCompare L h pass = true }.

Lemma TrimSpace_admin : TrimSpace (string_bytes "admin") = string_bytes "admin".
Proof. reflexivity. Qed.

(** After init, the panel starts from the file, and admin logs in with the password
    of the command; the first user is there. *)
Theorem init_admin_logs_in L unmarshal salt f secret token file raw hash sec limiter sublimiter key now disk :
  init_laws L unmarshal → runInit L salt (Ret f) secret token (Ret tt) None file = (Ret tt, Some raw) →
  ∃ st, loadOrCreate (marshalConfig L) unmarshal hash sec None (Some raw) = Ret st ∧
    login_allowed L now disk (mkRequest POST [] [] None (Some (mkLogin (string_bytes "admin") (if_adminPass f) [] [] false))) (mkApp st limiter sublimiter key None None) ∧
    (TrimSpace (if_firstUser f) ≠ [] → ∃ u, Users (s_cfg st) = [u] ∧ u_Name u = TrimSpace (if_firstUser f) ∧ u_Password u = if_firstUserPass f) ∧
    ServerIP (s_cfg st) = if_serverIP f.
Proof.
  intros [Hm Hb] Hr. unfold runInit in Hr. cbn [obind] in Hr. destruct (bool_decide_reflect (if_serverIP f = [])); [discriminate|]. destruct (bool_decide_reflect (if_adminPass f = [])) as [|Hpass]; [discriminate|]. cbn [orb] in Hr.
  destruct (bcryptGenerate L salt (if_adminPass f)) as [h| |] eqn:Eh; [|discriminate..]. cbn [obind] in Hr. destruct (randomHex secret) as [ss| |]; [|discriminate..]. cbn [obind] in Hr.
  destruct (if bool_decide (TrimSpace (if_firstUser f) = []) then _ else _) as [us| |] eqn:Eu in Hr; [|discriminate..]. cbn [obind] in Hr. cbn in Hr. injection Hr as <-.
  unfold loadOrCreate. rewrite Hm. destruct (allocConfig _ _) as [c hp] eqn:Ea. eexists. split; [done|].
  assert (Hc : AdminUsername c = string_bytes "admin" ∧ AdminPasswordHash c = h ∧ ServerIP c = if_serverIP f ∧ ∃ h0, (Users c, hp) = allocUsers us h0).
  { unfold allocConfig in Ea. cbn in Ea. destruct (allocUsers us _) as [us' hp'] eqn:Eal. injection Ea as <- <-. cbn. split_and!; [done..|]. by eexists; symmetry. }
  destruct Hc as (Hn & Hh & Hip & h0 & Hal). split_and!; [|intros Hfirst|done].
  - unfold login_allowed. cbn [a_Config s_cfg r_method r_body]. split; [reflexivity|]. eexists. split; [reflexivity|]. cbn [lp_Username lp_Code lp_ChallengeToken lp_Password]. rewrite TrimSpace_admin, Hn. split; [reflexivity|].
    rewrite (bool_decide_true (TrimSpace [] = [])) by reflexivity. cbn [negb andb]. split_and!; [discriminate|exact Hpass|rewrite Hh; by eapply Hb|reflexivity].
  - cbn. rewrite bool_decide_false in Eu by done. destruct (bool_decide (TrimSpace (if_firstUserPass f) = [])); [discriminate|]. destruct (randomHex token) as [tk| |]; [|discriminate..].
    cbn in Eu. injection Eu as <-. cbn in Hal. injection Hal as -> _. by eexists.
Qed.

(** ** The list of subscriptions *)

(** The path of a link of the list leads to the handler of subscriptions, with the
    token as its last part. *)
Theorem exported_link_routes token : good token → route outerRoutes (subPath token) = Found (Some Subscription) ∧ drop 5 (subPath token) = token.
Proof.
  intros Hg. split; [|done]. assert (Es : subPath token = rootedPath [string_bytes "sub"; token]) by reflexivity.
  assert (Hgs : Forall good [string_bytes "sub"; token]) by (repeat constructor; try apply Hg; try discriminate; by apply (bool_decide_unpack _)).
  destruct (Clean_good _ Hgs) as [C1 _]. assert (Hl : last (subPath token) ≠ Some slash). { rewrite Es. intros Hl. by apply joinWith_pages_last in Hl. }
  assert (Hclean : cleanPath (subPath token) = subPath token).
  { unfold cleanPath. rewrite (bool_decide_true (head (subPath token) = Some slash)) by done. rewrite (bool_decide_false (last (subPath token) = Some slash)) by done. rewrite Es, C1. done. }
  assert (Hseg : segments (subPath token) = [string_bytes "sub"; token]).
  { unfold segments. change (drop 1 (subPath token)) with (joinWith slash [string_bytes "sub"; token]). apply Split_join; [done|].
    eapply Forall_impl; [exact Hgs|]. by intros s (_ & _ & _ & ?). }
  assert (Hslash : segments (subPath token ++ [slash]) = [string_bytes "sub"; token; []]).
  { unfold segments in *. change (drop 1 (subPath token ++ [slash])) with (drop 1 (subPath token) ++ [slash]). by rewrite Split_last, Hseg. }
  assert (Hb : ∀ path rest, pathSegments path = string_bytes "sub" :: rest → rest ≠ [] → bestMatch outerRoutes path = Some (string_bytes "/sub/", Some Subscription)).
  { intros path rest Hp Hne. unfold outerRoutes, bestMatch, matches. rewrite Hp. by destruct rest. }
  unfold route. rewrite Hclean, (Hb _ [pathUnescape token]), (Hb _ [pathUnescape token; []]) by (done || (unfold pathSegments; by rewrite ?Hseg, ?Hslash)).
  unfold exactMatch at 2. rewrite Hslash. change (length (segments (string_bytes "/sub/"))) with 2%nat. cbn [length Nat.eqb]. rewrite andb_false_r, orb_false_r.
  change (isTree (string_bytes "/sub/")) with true. cbn [negb]. rewrite andb_false_r. by rewrite bool_decide_eq_true_2.
Qed.

(** ** Witnesses *)

(** A panel whose handlers tell which one was reached. *)
Definition demoHandle (e : panelEndpoint) (now : Z) (r : request unit) (a : App) : option response * App :=
  (Some (reply 200 (BError (if bool_decide (e = Users_) then "users" else "other"))), a).

Lemma api_needs_session_witness :
  let r := mkRequest GET [] [] None (Some tt) in
  servePanel demoHandle (string_bytes "/api/users") demoNow r (demoApp Missing) = (Some (errorReply 401 "unauthorized"), demoApp Missing) ∧
  ∃ w, servePanel demoHandle (string_bytes "/%61pi/users/x") demoNow r (demoApp Missing) = (Some w, demoApp Missing) ∧ w_status w = 401.
Proof.
  cbv zeta. split.
  - refine (eq_trans (proj2 (proj2 (api_needs_session demoHandle [] demoNow (mkRequest GET [] [] None (Some tt)) (demoApp Missing))) (string_bytes "/api/users") Users_ _) _); [|reflexivity].
    repeat first [left; reflexivity|right].
  - destruct (proj1 (proj2 (api_needs_session demoHandle (string_bytes "/%61pi/users/x") demoNow (mkRequest GET [] [] None (Some tt)) (demoApp Missing)))) as (w & Hw & Hs);
      [reflexivity|eexists _, _; vm_compute; reflexivity|vm_compute; discriminate|vm_compute; discriminate|].
    exists w. split; [exact Hw|exact Hs].
Defined.

End PanelMain.
Export PanelMain.
