(* ===== verification/PanelBoard.v ===== *)
(** * The dashboard of the panel: mieru-panel/handlers/dashboard.go

    The collector, which takes a sample of the system every five seconds and one of
    the server every minute, and the two handlers that show them.  The samples are
    those of PanelDash; the ticks come in any order. *)

From S2P Require Import Prelude Float PanelText PanelConfig PanelAuth PanelDash PanelMain.
From Stdlib Require Import ZifyBool.
Local Open Scope Z_scope.

Module PanelBoard.

(** A tick with what is read then. *)
Inductive dashTick :=
| SysTick (mem stat dev : outcome bytes) (now : Z)
| MinTick (raw : outcome (option (list (string * PanelDash.json)))) (now : Z).

Section Board.
Context (oob : float → Z).

Definition tickStep (a : dashRuntime) (t : dashTick) : dashRuntime :=
  match t with
  | SysTick mem stat dev now => dashboardSysSample mem stat dev now a
  | MinTick raw now => dashboardMinuteSample oob raw now a
  end.
(** [RunDashboardCollector] after a number of ticks. *)
Definition RunDashboardCollector (ticks : list dashTick) : dashRuntime := foldl tickStep InitDashboardRuntime ticks.

Record dashboardSystemWire := mkSystemWire { sy_CPUPercent : float; sy_MemUsedMB : float; sy_MemTotalMB : float; sy_NetRxMbps : float; sy_NetTxMbps : float }.
Record dashboardMetricsWire := mkMetricsWire {
  dm_Version : bytes; dm_UptimeSeconds : Z; dm_Mita : mitaMetricsFlat; dm_System : dashboardSystemWire; dm_ErrorsLastHour : Z; dm_PanelUptimeSeconds : Z }.
Inductive dashReply := DashRefused | DashMetrics (w : dashboardMetricsWire) | DashSeries (buckets : list (bytes * Bucket)).

Definition systemWire (a : dashRuntime) : dashboardSystemWire :=
  mkSystemWire (da_cpuPercent a) (da_memUsedMB a) (da_memTotalMB a) (da_netRxMbps a) (da_netTxMbps a).

(** The metrics and the version of the server are asked for at the request. *)
Definition HandleDashboardMetrics (m : method) (raw : outcome (option (list (string * PanelDash.json)))) (version : outcome bytes)
    (log : Logger) (now startedAt : Z) (a : dashRuntime) : dashReply :=
  if negb (bool_decide (m = GET)) then DashRefused
  else
    let flat := match raw with Ret d => flattenMitaMetricsJSON oob d | _ => emptyFlat end in
    DashMetrics (mkMetricsWire (match version with Ret v => v | _ => [] end) 0 flat (systemWire a) (applogErrorsLastHour now log) (Z.quot (now - startedAt) (10 ^ 9))).

(** [SnapshotJSON]: every bucket with the text of its time; a zero time is now. *)
Definition SnapshotJSON (isZero : Z → bool) (rfc3339 : Z → bytes) (now : Z) (r : TimeseriesRing) : list (bytes * Bucket) :=
  (λ b, (rfc3339 (if isZero (b_T b) then now else b_T b), b)) <$> r_buckets r.
Definition HandleDashboardTimeseries (m : method) (isZero : Z → bool) (rfc3339 : Z → bytes) (now : Z) (a : dashRuntime) : dashReply :=
  if negb (bool_decide (m = GET)) then DashRefused else DashSeries (SnapshotJSON isZero rfc3339 now (da_ts a)).

(** * Properties *)

(** The minute of a time, and the minutes of the ticks of the server. *)
Definition minuteOf (now : Z) : Z := now - now `mod` Minute.
Definition minuteTimes (ticks : list dashTick) : list Z := omap (λ t, match t with MinTick _ now => Some (minuteOf now) | _ => None end) ticks.

Lemma sys_keeps_ring mem stat dev now a : da_ts (dashboardSysSample mem stat dev now a) = da_ts a.
Proof. unfold dashboardSysSample. repeat case_match; done. Qed.

Lemma minute_ring raw now a : ring_ok a → ring_ok (dashboardMinuteSample oob raw now a) ∧
  b_T <$> r_buckets (da_ts (dashboardMinuteSample oob raw now a)) = lasts 60 ((b_T <$> r_buckets (da_ts a)) ++ [minuteOf now]).
Proof.
  intros [Hm Hl]. unfold dashboardMinuteSample, ring_ok. cbn [da_ts]. set (b := minuteBucket _ _ _). assert (Hb : b_T b = minuteOf now) by (unfold b, minuteBucket; by repeat case_match).
  unfold AppendBucket. rewrite Hm. destruct (Z.leb_spec 60 (len (r_buckets (da_ts a)))) as [Hf|Hf]; cbn [r_max r_buckets].
  - split; [split; [done|]; rewrite len_app; unfold len in *; rewrite length_drop; cbn; lia|]. rewrite fmap_app, fmap_drop. cbn. rewrite Hb. unfold lasts.
    rewrite length_app, length_fmap. cbn. assert (Hlen : length (r_buckets (da_ts a)) = 60%nat) by (unfold len in *; lia). rewrite Hlen. rewrite drop_app_le by (rewrite length_fmap; lia). done.
  - split; [split; [done|]; rewrite len_app; change (len [b]) with 1; lia|]. rewrite fmap_app. cbn. rewrite Hb. unfold lasts. rewrite length_app, length_fmap. cbn.
    replace (length (r_buckets (da_ts a)) + 1 - 60)%nat with 0%nat by (unfold len in *; lia). done.
Qed.

Lemma lasts_twice {A} n (l k : list A) : lasts n (lasts n l ++ k) = lasts n (l ++ k).
Proof.
  unfold lasts. rewrite !length_app, length_drop. destruct (decide (length l ≤ n)%nat) as [Hle|Hgt].
  - replace (length l - n)%nat with 0%nat by lia. rewrite drop_0. f_equal. lia.
  - replace (length l - (length l - n))%nat with n by lia. replace (n + length k - n)%nat with (length k) by lia.
    replace (length l + length k - n)%nat with ((length l - n) + length k)%nat by lia. rewrite <- drop_drop. f_equal. rewrite drop_app_le by lia. done.
Qed.

Lemma collector_ring ticks : ∀ a, ring_ok a → ring_ok (foldl tickStep a ticks) ∧
  b_T <$> r_buckets (da_ts (foldl tickStep a ticks)) = lasts 60 ((b_T <$> r_buckets (da_ts a)) ++ minuteTimes ticks).
Proof.
  induction ticks as [|t ticks IH]; intros a Ha.
  - cbn. split; [done|]. rewrite app_nil_r. unfold lasts. rewrite length_fmap. destruct Ha as [_ Hl]. replace (length (r_buckets (da_ts a)) - 60)%nat with 0%nat by (unfold len in *; lia). done.
  - cbn [foldl]. destruct t as [mem stat dev now|raw now]; cbn [tickStep].
    + assert (E : da_ts (dashboardSysSample mem stat dev now a) = da_ts a) by apply sys_keeps_ring. destruct (IH (dashboardSysSample mem stat dev now a)) as [I1 I2]; [unfold ring_ok; by rewrite E|].
      split; [done|]. by rewrite I2, E.
    + destruct (minute_ring raw now a Ha) as [Hr Hb]. destruct (IH _ Hr) as [I1 I2]. split; [done|]. rewrite I2, Hb, lasts_twice. by rewrite <- app_assoc.
Qed.

(** The chart that a browser gets has the minutes of the last hour that the collector
    saw, oldest first, however the samples of the system fall between them. *)
Theorem chart_has_last_hour ticks isZero rfc3339 now : ∃ bs, HandleDashboardTimeseries GET isZero rfc3339 now (RunDashboardCollector ticks) = DashSeries bs ∧
  b_T <$> (snd <$> bs) = lasts 60 (minuteTimes ticks) ∧ len bs ≤ 60.
Proof.
  destruct (collector_ring ticks InitDashboardRuntime) as [[_ Hl] Hb]; [by split|]. unfold HandleDashboardTimeseries, RunDashboardCollector. eexists. split; [reflexivity|]. unfold SnapshotJSON. split.
  - rewrite <- !list_fmap_compose. exact Hb.
  - unfold len in *. rewrite length_fmap. done.
Qed.
End Board.

End PanelBoard.
Export PanelBoard.
