(* ===== verification/Process.v ===== *)
(** * The process around the proxy

    pkg/stderror (which errors are which, and error types), pkg/appctl/appstatus.go,
    apptime.go, apptype.go and config_file_type.go, the choice of the configuration
    file and its reading and writing in pkg/appctl/client.go and server.go, the
    dialer of pkg/common/dialer.go, the connections of apis/common/conn.go and the
    profiles of pkg/common/debug.go.

    An error is a tree: what [fmt.Errorf] and [WrapErrorWithType] put around a value
    that a package declares or a call returns.  The variables of the process that
    remember the path of the configuration are the record [places]; files are a map,
    and what the system allows is the record [host]. *)

From S2P Require Import ServerControl.
From S2P Require Import Prelude Net Url PanelText PanelMain.
From S2P Require Import PortBinding ConfigServer ConfigClient.
Local Open Scope Z_scope.

Module Process.

(** ** Errors: pkg/stderror *)

(** The errors that the package declares, and two of package io. *)
Inductive sentinel :=
 | EOF_ | ErrClosedPipe_ | ErrAlreadyExist_ | ErrAlreadyStarted_ | ErrDisconnected_ | ErrEmpty_
 | ErrFileNotExist_ | ErrFull_ | ErrIDNotMatch_ | ErrInternal_ | ErrInvalidArgument_ | ErrInvalidOperation_
 | ErrNoEnoughData_ | ErrNotFound_ | ErrNotReady_ | ErrNotRunning_ | ErrNullPointer_ | ErrOutOfRange_
 | ErrTimeout_ | ErrUnknownCommand_ | ErrUnsupported_.
Definition sentinelText (s : sentinel) : bytes :=
  string_bytes (match s with
                | EOF_ => "EOF" | ErrClosedPipe_ => "io: read/write on closed pipe"
                | ErrAlreadyExist_ => "ALREADY EXIST" | ErrAlreadyStarted_ => "ALREADY STARTED"
                | ErrDisconnected_ => "DISCONNECTED" | ErrEmpty_ => "EMPTY"
                | ErrFileNotExist_ => "FILE NOT EXIST" | ErrFull_ => "FULL" | ErrIDNotMatch_ => "ID NOT MATCH"
                | ErrInternal_ => "INTERNAL" | ErrInvalidArgument_ => "INVALID ARGUMENT"
                | ErrInvalidOperation_ => "INVALID OPERATION" | ErrNoEnoughData_ => "NO ENOUGH DATA"
                | ErrNotFound_ => "NOT FOUND" | ErrNotReady_ => "NOT READY" | ErrNotRunning_ => "NOT RUNNING"
                | ErrNullPointer_ => "NULL POINTER" | ErrOutOfRange_ => "OUT OF RANGE"
                | ErrTimeout_ => "TIMEOUT" | ErrUnknownCommand_ => "UNKNOWN COMMAND"
                | ErrUnsupported_ => "UNSUPPORTED"
                end).
#[global] Instance sentinel_eq_dec : EqDecision sentinel.
Proof. solve_decision. Defined.

Inductive ErrorType := NO_ERROR | UNKNOWN_ERROR | PROTOCOL_ERROR_ | NETWORK_ERROR_ | CRYPTO_ERROR_ | REPLAY_ERROR_.
#[global] Instance ErrorType_eq_dec : EqDecision ErrorType.
Proof. solve_decision. Defined.

(** [NetError] is a value that implements [net.Error]; [Wrapped] is the result of
    [fmt.Errorf] with the verb %w behind [before]. *)
Inductive error_ :=
| Declared (s : sentinel)
| Message (text : bytes)
| NetError (text : bytes) (timeout : bool)
| Wrapped (before : bytes) (e : error_)
| TypedError (err : option error_) (errType : ErrorType).

Fixpoint Error (e : error_) : bytes :=
  match e with
  | Declared s => sentinelText s
  | Message t | NetError t _ => t
  | Wrapped before e => before ++ Error e
  | TypedError (Some e) _ => Error e
  | TypedError None _ => []
  end.

Definition Unwrap (e : error_) : option error_ :=
  match e with Wrapped _ e => Some e | TypedError e _ => e | _ => None end.

(** [errors.Is] for a declared error: the value itself or one it wraps. *)
Fixpoint Is (e : error_) (s : sentinel) : bool :=
  match e with
  | Declared s' => bool_decide (s' = s)
  | Message _ | NetError _ _ => false
  | Wrapped _ e => Is e s
  | TypedError (Some e) _ => Is e s
  | TypedError None _ => false
  end.

Section Categories.
Context (unicodeLower : bytes → bytes).

Definition says_ (e : error_) (words : string) : bool := Contains (ToLower unicodeLower (Error e)) (string_bytes words).
Definition IsClosed (e : error_) : bool := if Is e ErrClosedPipe_ then true else says_ e "use of closed network connection".
Definition IsConnRefused (e : error_) : bool :=
  says_ e "connection refused" || says_ e "no connection could be made because the target machine actively refused it".
Definition IsPermissionDenied (e : error_) : bool := says_ e "permission denied".
End Categories.
Definition IsEOF (e : error_) : bool := Is e EOF_.
Definition IsNotReady (e : error_) : bool := Is e ErrNotReady_.
Definition IsTimeout (e : error_) : bool :=
  match e with NetError _ true => true | _ => Is e ErrTimeout_ end.

Definition WrapErrorWithType (err : option error_) (t : ErrorType) : error_ := TypedError err t.
Definition GetErrorType (err : option error_) : ErrorType :=
  match err with
  | None => NO_ERROR
  | Some (TypedError _ t) => t
  | Some _ => UNKNOWN_ERROR
  end.

(** ** Status, start time and type of the application *)

(** The status is a variable that is empty until it is set. *)
Definition GetAppStatus (v : option AppStatus) : AppStatus := match v with None => UNKNOWN | Some st => st end.
Definition SetAppStatus (st : AppStatus) (v : option AppStatus) : outcome (option AppStatus) :=
  match st with UNKNOWN => Panic "can't set app status to UNKNOWN" | _ => Ret (Some st) end.

Inductive AppType := UNKNOWN_APP | CLIENT_APP | SERVER_APP.
#[global] Instance AppType_eq_dec : EqDecision AppType.
Proof. solve_decision. Defined.

(** The type is set once; [None] is a [sync.Once] that has not run. *)
Definition SetAppType (t : AppType) (st : option AppType) : outcome (option AppType) :=
  if bool_decide (t = UNKNOWN_APP) then Panic "can't set AppType to UNKNOWN"
  else Ret (match st with None => Some t | Some _ => st end).
Definition appType (st : option AppType) : AppType := default UNKNOWN_APP st.
Definition IsClientApp (st : option AppType) : bool := bool_decide (appType st = CLIENT_APP).
Definition IsServerApp (st : option AppType) : bool := bool_decide (appType st = SERVER_APP).

(** Times in nanoseconds; a zero time is [None]. *)
Definition RecordAppStartTime (now : Z) (st : option Z) : option Z := match st with None => Some now | Some _ => st end.
Definition Elapsed (now : Z) (st : option Z) : outcome Z :=
  match st with
  | None => Panic "app start time is not recorded"
  | Some t => let d := i64 (now - t) in Ret (d - Z.rem d 1000)
  end.

(** ** The configuration file *)

Inductive ConfigFileType := INVALID_CONFIG_FILE_TYPE | PROTOBUF_CONFIG_FILE_TYPE | JSON_CONFIG_FILE_TYPE.
Definition FindConfigFileType (fileName : bytes) : ConfigFileType :=
  if HasSuffix fileName (string_bytes ".json") then JSON_CONFIG_FILE_TYPE else PROTOBUF_CONFIG_FILE_TYPE.

(** [filepath.Dir]: what is before the last slash, cleaned. *)
Definition Dir (p : bytes) : bytes :=
  Clean (match LastIndexByte slash p with Some i => take (S i) p | None => [] end).

(** What the system answers: the environment, [os.UserConfigDir], [os.MkdirAll],
    [os.Stat], and whether a file can be opened, written and removed. *)
Record host := mkHost {
  h_env : string → option bytes;
  h_userConfigDir : outcome bytes;
  h_mkdirAll : bytes → outcome unit;
  h_stat : bytes → outcome unit;
  h_canOpen : bytes → bool;
  h_canWrite : bytes → bool;
  h_canRemove : bytes → bool
}.

(** What the process remembers, and the files. *)
Record places := mkPlaces { p_dir : bytes; p_path : bytes; p_files : gmap bytes bytes }.
Definition set_place (path : bytes) (s : places) : places := mkPlaces (Dir path) path (p_files s).
Definition set_dir (d : bytes) (s : places) : places := mkPlaces d (p_path s) (p_files s).
Definition set_path (p : bytes) (s : places) : places := mkPlaces (p_dir s) p (p_files s).
Definition set_files (m : gmap bytes bytes) (s : places) : places := mkPlaces (p_dir s) (p_path s) m.

Section Files.
Context (H : host).

Definition prepareClientConfigDir (s : places) : outcome unit * places :=
  if negb (bool_decide (p_dir s = [])) then (h_mkdirAll H (p_dir s), s)
  else match h_userConfigDir H with
       | Ret d => let s := set_dir (d ++ string_bytes "/mieru") s in (h_mkdirAll H (p_dir s), s)
       | Err e => (Err e, s)
       | Panic m => (Panic m, s)
       end.

Definition clientConfigFilePath (s : places) : outcome (bytes * ConfigFileType) * places :=
  match h_env H "MIERU_CONFIG_FILE" with
  | Some v => (Ret (v, PROTOBUF_CONFIG_FILE_TYPE), set_place v s)
  | None =>
  match h_env H "MIERU_CONFIG_JSON_FILE" with
  | Some v => (Ret (v, JSON_CONFIG_FILE_TYPE), set_place v s)
  | None =>
      if negb (bool_decide (p_path s = [])) then (Ret (p_path s, FindConfigFileType (p_path s)), s)
      else match prepareClientConfigDir s with
           | (Ret _, s) => let s := set_path (p_dir s ++ string_bytes "/client.conf.pb") s in (Ret (p_path s, FindConfigFileType (p_path s)), s)
           | (_, s) => (Err (Errorf "prepareClientConfigDir() failed: %w"), s)
           end
  end end.

Definition ClientUpdaterHistoryPath (s : places) : outcome bytes * places :=
  match prepareClientConfigDir s with
  | (Ret _, s) => (Ret (pathJoin (p_dir s) (string_bytes "client.updater.pb")), s)
  | (Err e, s) => (Err e, s)
  | (Panic m, s) => (Panic m, s)
  end.

Definition serverConfigFilePath (s : places) : outcome (bytes * ConfigFileType) * places :=
  match h_env H "MITA_CONFIG_FILE" with
  | Some v => (Ret (v, PROTOBUF_CONFIG_FILE_TYPE), set_place v s)
  | None =>
  match h_env H "MITA_CONFIG_JSON_FILE" with
  | Some v => (Ret (v, JSON_CONFIG_FILE_TYPE), set_place v s)
  | None =>
      if negb (bool_decide (p_path s = [])) then (Ret (p_path s, FindConfigFileType (p_path s)), s)
      else (Err (Errorf "server config file path is empty"), s)
  end end.

Definition checkServerConfigDir (s : places) : outcome unit * places := (h_stat H (p_dir s), s).

(** [ServerUDS], with the path that the process remembers. *)
Definition ServerUDS (cached : bytes) : bytes := default cached (h_env H "MITA_UDS_PATH").

(** [os.Remove] of a file that may not exist. *)
Definition removeFile (path : bytes) (s : places) : outcome unit * places :=
  match p_files s !! path with
  | None => (Ret tt, s)
  | Some _ => if h_canRemove H path then (Ret tt, set_files (delete path (p_files s)) s) else (Err (Errorf "remove: permission denied"), s)
  end.
Definition deleteClientConfigFile (s : places) : outcome unit * places :=
  match clientConfigFilePath s with
  | (Ret (path, _), s) => removeFile path s
  | (_, s) => (Err (Errorf "clientConfigFilePath() failed: %w"), s)
  end.
Definition deleteServerConfigFile (s : places) : outcome unit * places :=
  match serverConfigFilePath s with
  | (Ret (path, _), s) => removeFile path s
  | (_, s) => (Err (Errorf "serverConfigFilePath() failed: %w"), s)
  end.

(** The two encodings of a configuration. *)
Record codec (C : Type) := mkCodec {
  k_marshal : C → outcome bytes; k_unmarshal : bytes → outcome C;
  k_marshalJSON : C → outcome bytes; k_unmarshalJSON : bytes → outcome C
}.
Context {C : Type} (K : codec C).

(** Decoding and encoding by the type of the file. *)
Definition decodeConfig (t : ConfigFileType) (b : bytes) : outcome C :=
  match t with
  | PROTOBUF_CONFIG_FILE_TYPE => match k_unmarshal C K b with Ret c => Ret c | _ => Err (Errorf "proto.Unmarshal() failed: %w") end
  | JSON_CONFIG_FILE_TYPE => match k_unmarshalJSON C K b with Ret c => Ret c | _ => Err (Errorf "common.UnmarshalJSON() failed: %w") end
  | INVALID_CONFIG_FILE_TYPE => Err (Errorf "config file type is invalid")
  end.
Definition encodeConfig (t : ConfigFileType) (c : C) : outcome bytes :=
  match t with
  | PROTOBUF_CONFIG_FILE_TYPE => match k_marshal C K c with Ret b => Ret b | _ => Err (Errorf "proto.Marshal() failed: %w") end
  | JSON_CONFIG_FILE_TYPE => match k_marshalJSON C K c with Ret b => Ret b | _ => Err (Errorf "common.MarshalJSON() failed: %w") end
  | INVALID_CONFIG_FILE_TYPE => Err (Errorf "config file type is invalid")
  end.

(** Reading and writing the file, once it is chosen. *)
Definition readConfigFile (name : bytes) (t : ConfigFileType) (s : places) : outcome C * places :=
  (match p_files s !! name with
   | None => Err ErrFileNotExist
   | Some b => if h_canOpen H name then decodeConfig t b else Err (Errorf "os.Open() failed: %w")
   end, s).
Definition writeConfigFile (name : bytes) (t : ConfigFileType) (c : C) (s : places) : outcome unit * places :=
  match encodeConfig t c with
  | Ret b => if h_canWrite H name then (Ret tt, set_files (<[name := b]> (p_files s)) s) else (Err (Errorf "os.WriteFile(%q) failed: %w"), s)
  | Err e => (Err e, s)
  | Panic m => (Panic m, s)
  end.
End Files.
Arguments k_marshal {C} _.
Arguments k_unmarshal {C} _.
Arguments k_marshalJSON {C} _.
Arguments k_unmarshalJSON {C} _.

(** Loading and storing: the path is chosen, the directory is prepared (client) or
    checked (server), the file is read or written. *)
Definition withConfigFile {A} (path : places → outcome (bytes * ConfigFileType) * places) (prepare : places → outcome unit * places)
    (pathErr prepareErr : string) (f : bytes → ConfigFileType → places → outcome A * places) (s : places) : outcome A * places :=
  match path s with
  | (Ret (name, t), s) =>
      match prepare s with
      | (Ret _, s) => f name t s
      | (_, s) => (Err (Errorf prepareErr), s)
      end
  | (_, s) => (Err (Errorf pathErr), s)
  end.

Section Disk.
Context (H : host) (KC : codec PbClientConfig) (KS : codec PbServerConfig).

Definition withClientFile {A} : (bytes → ConfigFileType → places → outcome A * places) → places → outcome A * places :=
  withConfigFile (clientConfigFilePath H) (prepareClientConfigDir H) "clientConfigFilePath() failed: %w" "prepareClientConfigDir() failed: %w".
Definition withServerFile {A} : (bytes → ConfigFileType → places → outcome A * places) → places → outcome A * places :=
  withConfigFile (serverConfigFilePath H) (checkServerConfigDir H) "serverConfigFilePath() failed: %w" "checkServerConfigDir() failed: %w".

Definition LoadClientConfigFile : places → outcome PbClientConfig * places := withClientFile (readConfigFile H KC).
Definition StoreClientConfigFile (c : PbClientConfig) : places → outcome unit * places :=
  withClientFile (λ name t, writeConfigFile H KC name t (storedClient c)).
Definition LoadServerConfigFile : places → outcome PbServerConfig * places := withServerFile (readConfigFile H KS).
Definition StoreServerConfigFile (config : option PbServerConfig) (s : places) : outcome unit * places :=
  match config with
  | None => (Err (Errorf "ServerConfig is nil"), s)
  | Some c => withServerFile (λ name t, writeConfigFile H KS name t (stored c)) s
  end.

(** [GetJSONClientConfig] and [GetJSONServerConfig]. *)
Definition GetJSONClientConfig (s : places) : outcome bytes * places :=
  match LoadClientConfigFile s with
  | (Ret c, s) => (match k_marshalJSON KC c with Ret b => Ret b | _ => Err (Errorf "common.MarshalJSON() failed: %w") end, s)
  | (_, s) => (Err (Errorf "LoadClientConfig() failed: %w"), s)
  end.
Definition GetJSONServerConfig (s : places) : outcome bytes * places :=
  match LoadServerConfigFile s with
  | (Ret c, s) => (match k_marshalJSON KS c with Ret b => Ret b | _ => Err (Errorf "common.MarshalJSON() failed: %w") end, s)
  | (_, s) => (Err (Errorf "LoadServerConfig() failed: %w"), s)
  end.
End Disk.

(** The state of a process that has just started. *)
Definition clientPlaces0 (files : gmap bytes bytes) : places := mkPlaces [] [] files.
Definition serverPlaces0 (files : gmap bytes bytes) : places :=
  mkPlaces (string_bytes "/etc/mita") (string_bytes "/etc/mita/server.conf.pb") files.

(** ** The dialer of datagrams: pkg/common/dialer.go *)

Section Dialer.
Context {A S : Type} (ResolveUDPAddr : string → bytes → outcome A) (ListenUDP : string → option A → outcome S) (ApplyUDPControl : S → outcome unit).

(** [ListenPacket]: the result, and the sockets that the call leaves open.  The
    remote address is not used. *)
Definition ListenPacket (control : bool) (network : string) (laddr : bytes) : outcome S * list S :=
  if bool_decide (network ∈ ["udp"; "udp4"; "udp6"]) then
    match (if bool_decide (laddr = []) then Ret None
           else match ResolveUDPAddr network laddr with Ret a => Ret (Some a) | _ => Err (Errorf "net.ResolveUDPAddr() failed: %w") end) with
    | Ret a =>
        match ListenUDP network a with
        | Ret conn =>
            if control then match ApplyUDPControl conn with
                            | Ret _ => (Ret conn, [conn])
                            | _ => (Err (Errorf "ApplyUDPControl() failed: %w"), [conn])
                            end
            else (Ret conn, [conn])
        | _ => (Err (Errorf "net.ListenUDP() failed: %w"), [])
        end
    | Err e => (Err e, [])
    | Panic m => (Panic m, [])
    end
  else (Err (Errorf "unknown network"), []).
End Dialer.

(** ** Connections with children: apis/common/conn.go *)

(** A connection by its number, or one that closes others with it. *)
Inductive hconn := RawConn (id : nat) | HierarchyConn (conn : hconn) (subConnections : list hconn).

Definition WrapHierarchyConn (c : hconn) : hconn := HierarchyConn c [].
Definition AddConn (c : hconn) (h : hconn) : hconn :=
  match h with HierarchyConn conn subs => HierarchyConn conn (subs ++ [WrapHierarchyConn c]) | RawConn _ => h end.

(** [Close]: the connections in the order in which they are closed. *)
Fixpoint closeOrder (h : hconn) : list nat :=
  match h with
  | RawConn i => [i]
  | HierarchyConn conn subs => concat (map closeOrder subs) ++ closeOrder conn
  end.

(** [UserName]: [user] says which connections know a user. *)
Fixpoint hconnUserName (user : nat → option string) (h : hconn) : string :=
  match h with RawConn i => default "" (user i) | HierarchyConn conn _ => hconnUserName user conn end.

(** ** Profiles: pkg/common/debug.go *)

(** Descriptors are numbers.  [g_file] is the variable of the package;
    [g_running] the descriptor that the profiler of the runtime writes to; [g_open] the
    descriptors that were created and not closed, with their paths. *)
Record debugState := mkDebug {
  g_file : option nat;
  g_running : option nat;
  g_open : gmap nat bytes;
  g_next : nat;
  g_disk : gmap bytes bytes
}.

(** [os.Create]: the file is empty afterwards. *)
Definition createFile (ok : bool) (path : bytes) (g : debugState) : option (nat * debugState) :=
  if ok then Some (g_next g, mkDebug (g_file g) (g_running g) (<[g_next g := path]> (g_open g)) (S (g_next g)) (<[path := []]> (g_disk g))) else None.

(** The variable that receives the file is one of the function: [:=] declares it. *)
Definition StartCPUProfile (ok : bool) (filePath : bytes) (g : debugState) : option error_ * debugState :=
  if bool_decide (filePath = []) then (Some (Message (string_bytes "file path is empty")), g)
  else match g_file g with
  | Some _ => (Some (Declared ErrAlreadyStarted_), g)
  | None =>
      match createFile ok filePath g with
      | None => (Some (Wrapped (string_bytes "os.Create() failed: ") (Message (string_bytes "create"))), g)
      | Some (fd, g) =>
          match g_running g with
          | Some _ => (Some (Wrapped (string_bytes "pprof.StartCPUProfile() failed: ") (Message (string_bytes "cpu profiling already in use"))), g)
          | None => (None, mkDebug (g_file g) (Some fd) (g_open g) (g_next g) (g_disk g))
          end
      end
  end.

(** [pprof.StopCPUProfile] writes what was collected, [prof], from the start of the
    file, and forgets the file. *)
Definition overwrite (b old : bytes) : bytes := b ++ drop (length b) old.
Definition StopCPUProfile (prof : bytes) (g : debugState) : debugState :=
  let disk := match g_running g ≫= (g_open g !!.) with Some path => <[path := overwrite prof (default [] (g_disk g !! path))]> (g_disk g) | None => g_disk g end in
  let opened := match g_file g with Some fd => delete fd (g_open g) | None => g_open g end in
  mkDebug None None opened (g_next g) disk.

Definition GetHeapProfile (ok : bool) (filePath : bytes) (heap : option bytes) (g : debugState) : option error_ * debugState :=
  if bool_decide (filePath = []) then (Some (Message (string_bytes "file path is empty")), g)
  else match createFile ok filePath g with
       | None => (Some (Wrapped (string_bytes "os.Create() failed: ") (Message (string_bytes "create"))), g)
       | Some (fd, g) =>
           let closed d := mkDebug (g_file g) (g_running g) (delete fd (g_open g)) (g_next g) d in
           match heap with
           | None => (Some (Wrapped (string_bytes "pprof.WriteHeapProfile() failed: ") (Message (string_bytes "write"))), closed (g_disk g))
           | Some b => (None, closed (<[filePath := b]> (g_disk g)))
           end
       end.

(** [runtime.Stack] fills a buffer with the traces as far as they fit. *)
Definition stack (trace : bytes) (size : Z) : bytes := take (Z.to_nat size) trace.
Fixpoint allStackTrace (fuel : nat) (trace : bytes) (size : Z) : option bytes :=
  match fuel with
  | O => None
  | S fuel =>
      let b := stack trace size in
      if len b <? size then Some b else allStackTrace fuel trace (4 * size)
  end.
Definition GetAllStackTrace (fuel : nat) (trace : bytes) : option bytes := allStackTrace fuel trace 16384.
Definition GetStackTrace (trace : bytes) : bytes := stack trace 4096.

(** What [getMemoryStatistics] takes from the statistics of the runtime. *)
Record memStats := mkMemStats { HeapAlloc : Z; HeapObjects : Z; HeapSys : Z; NextGC : Z; StackSys : Z }.
Record memoryStatistics := mkMemoryStatistics {
  HeapBytes : Z; HeapObjects_ : Z; MaxHeapBytes : Z; TargetHeapBytes : Z; StackBytes : Z }.
Definition getMemoryStatistics (ms : memStats) : memoryStatistics :=
  mkMemoryStatistics (HeapAlloc ms) (HeapObjects ms) (HeapSys ms) (NextGC ms) (StackSys ms).

(** ** Errors: what wrapping keeps *)

Lemma Contains_app_r a b sub : Contains b sub = true → Contains (a ++ b) sub = true.
Proof. induction a as [|x a IH]; [done|]. cbn [app Contains]. intros Hb. rewrite IH by done. apply orb_true_r. Qed.

Lemma ascii_app a b : is_ascii (a ++ b) = is_ascii a && is_ascii b.
Proof. apply forallb_app. Qed.

Lemma says_wrapped ul before e w : is_ascii before = true → is_ascii (Error e) = true → says_ ul e w = true → says_ ul (Wrapped before e) w = true.
Proof.
  intros Hb He. unfold says_, ToLower. cbn [Error]. rewrite ascii_app, Hb, He. cbn. rewrite map_app. apply Contains_app_r.
Qed.

(** Adding a text in front, or a type, keeps what an error is taken for, except
    that a timeout of a connection is only seen at the top. *)
Theorem wrapping_keeps_category ul before e t : is_ascii before = true → is_ascii (Error e) = true →
  Forall (λ q : error_ → bool, q e = true → q (Wrapped before e) = true ∧ q (WrapErrorWithType (Some e) t) = true)
    [IsEOF; IsNotReady; IsClosed ul; IsConnRefused ul; IsPermissionDenied ul] ∧
  (Is e ErrTimeout_ = true → IsTimeout (Wrapped before e) = true).
Proof.
  intros Hb He. pose proof (λ w, says_wrapped ul before e w Hb He) as Hs.
  assert (Ht : ∀ w, says_ ul (TypedError (Some e) t) w = says_ ul e w) by done.
  split; [|done]. rewrite !Forall_cons. split_and!; [auto..| | | |done].
  - unfold IsClosed. cbn [Is WrapErrorWithType]. destruct (Is e ErrClosedPipe_); [done|]. intros Hc. rewrite Ht. auto.
  - unfold IsConnRefused, WrapErrorWithType. rewrite !Ht. intros Hc. split; [|done]. apply orb_true_iff in Hc as [Hc|Hc]; apply orb_true_iff; auto.
  - unfold IsPermissionDenied, WrapErrorWithType. rewrite Ht. auto.
Qed.

(** A wrapped timeout of a connection is no timeout any more, and an error that is
    wrapped after it got a type has none: the receiving loop panics on such a one. *)
Theorem wrapping_loses before text e t :
  IsTimeout (NetError text true) = true ∧ IsTimeout (Wrapped before (NetError text true)) = false ∧
  GetErrorType (Some (WrapErrorWithType e t)) = t ∧ GetErrorType (Some (Wrapped before (WrapErrorWithType e t))) = UNKNOWN_ERROR.
Proof. done. Qed.

(** ** The type and the age of the application *)

Definition setTypes (ts : list AppType) (st : option AppType) : outcome (option AppType) :=
  foldl (λ r t, let! st := r in SetAppType t st) (Ret st) ts.

(** The first type that is set stays. *)
Lemma first_type_stays ts t : UNKNOWN_APP ∉ ts → setTypes ts (Some t) = Ret (Some t).
Proof.
  unfold setTypes. induction ts as [|x ts IH]; [done|]. intros [Hx Hts]%not_elem_of_cons. cbn [foldl obind]. unfold SetAppType at 2.
  rewrite bool_decide_false by congruence. by apply IH.
Qed.

Theorem first_type_wins t ts : UNKNOWN_APP ∉ t :: ts →
  ∃ st, setTypes (t :: ts) None = Ret st ∧ appType st = t ∧ IsClientApp st = negb (IsServerApp st).
Proof.
  intros [Ht Hts]%not_elem_of_cons. exists (Some t). unfold setTypes. cbn [foldl obind]. unfold SetAppType at 2. rewrite bool_decide_false by congruence.
  split; [by apply first_type_stays|]. split; [done|]. by destruct t.
Qed.

Theorem elapsed_since_start start now later : start ≤ now < start + 2 ^ 63 →
  ∃ d, Elapsed now (RecordAppStartTime later (RecordAppStartTime start None)) = Ret d ∧ d mod 1000 = 0 ∧ now - start - 1000 < d ≤ now - start.
Proof.
  intros Hn. cbn. rewrite i64_small by lia. eexists. split; [reflexivity|]. set (x := now - start). rewrite Z.rem_mod_nonneg by lia.
  pose proof (Z.mod_pos_bound x 1000). pose proof (Z.div_mod x 1000). split; [|lia].
  replace (x - x mod 1000) with (x / 1000 * 1000) by lia. apply Z_mod_mult.
Qed.

(** ** The configuration file: one place, and what is stored is loaded *)

(** A choice of the file that does not change: in every state of [inv] the path is
    [name], of type [t], the directory is there, and no file is touched. *)
Record steady (path : places → outcome (bytes * ConfigFileType) * places) (prepare : places → outcome unit * places)
    (name : bytes) (t : ConfigFileType) (inv : places → Prop) : Prop := {
  st_path : ∀ s, inv s → ∃ s', path s = (Ret (name, t), s') ∧ inv s' ∧ p_files s' = p_files s ∧ p_dir s' ≠ [];
  st_prepare : ∀ s, inv s → p_dir s ≠ [] → prepare s = (Ret tt, s);
  st_files : ∀ m s, inv s → inv (set_files m s)
}.

Section Steady.
Context (H : host) {C : Type} (K : codec C) path prepare name t inv (Hst : steady path prepare name t inv) (pe re : string).
Notation withFile := (withConfigFile path prepare pe re).

Lemma withFile_steady {A} (f : bytes → ConfigFileType → places → outcome A * places) s : inv s →
  ∃ s', inv s' ∧ p_files s' = p_files s ∧ withFile f s = f name t s'.
Proof.
  intros Hi. destruct (st_path _ _ _ _ _ Hst s Hi) as (s' & E & Hi' & Hf & Hd). exists s'. unfold withConfigFile.
  rewrite E, (st_prepare _ _ _ _ _ Hst s' Hi' Hd). done.
Qed.

Context (Hopen : h_canOpen H name = true) (Hwrite : h_canWrite H name = true).

Lemma load_steady s : inv s → ∃ s', inv s' ∧ p_files s' = p_files s ∧
  withFile (readConfigFile H K) s = (match p_files s !! name with None => Err ErrFileNotExist | Some b => decodeConfig K t b end, s').
Proof.
  intros Hi. destruct (withFile_steady (readConfigFile H K) s Hi) as (s' & Hi' & Hf & ->). exists s'. unfold readConfigFile. by rewrite Hopen, Hf.
Qed.

Lemma store_steady c s : inv s → ∃ s', inv s' ∧
  withFile (λ n t, writeConfigFile H K n t c) s = (match encodeConfig K t c with Ret _ => Ret tt | Err e => Err e | Panic m => Panic m end, s') ∧
  p_files s' = match encodeConfig K t c with Ret b => <[name := b]> (p_files s) | _ => p_files s end.
Proof.
  intros Hi. destruct (withFile_steady (λ n t, writeConfigFile H K n t c) s Hi) as (s' & Hi' & Hf & ->). unfold writeConfigFile. rewrite Hwrite.
  destruct (encodeConfig K t c) as [b| |]; [|by exists s'..]. eexists. split_and!; [by apply (st_files _ _ _ _ _ Hst)|done|]. cbn. by rewrite Hf.
Qed.

Context (Hremove : h_canRemove H name = true).

Lemma delete_steady s : inv s → ∃ s' s'', path s = (Ret (name, t), s') ∧ removeFile H name s' = (Ret tt, s'') ∧ inv s'' ∧ p_files s'' = delete name (p_files s).
Proof.
  intros Hi. destruct (st_path _ _ _ _ _ Hst s Hi) as (s' & E & Hi' & Hf & Hd). exists s'. unfold removeFile.
  destruct (p_files s' !! name) eqn:En; rewrite ?Hremove; eexists; split_and!; try done.
  - by apply (st_files _ _ _ _ _ Hst).
  - cbn. by rewrite Hf.
  - rewrite <- Hf. by rewrite delete_id.
Qed.
End Steady.

(** Where a client looks: a variable of the environment, or the directory of the user. *)
Definition clientDir (d : bytes) : bytes := d ++ string_bytes "/mieru".
Definition clientPlace (H : host) : option (bytes * ConfigFileType) :=
  match h_env H "MIERU_CONFIG_FILE", h_env H "MIERU_CONFIG_JSON_FILE", h_userConfigDir H with
  | Some v, _, _ => Some (v, PROTOBUF_CONFIG_FILE_TYPE)
  | None, Some v, _ => Some (v, JSON_CONFIG_FILE_TYPE)
  | None, None, Ret d => Some (clientDir d ++ string_bytes "/client.conf.pb", PROTOBUF_CONFIG_FILE_TYPE)
  | None, None, _ => None
  end.
Definition serverPlace (H : host) : bytes * ConfigFileType :=
  match h_env H "MITA_CONFIG_FILE", h_env H "MITA_CONFIG_JSON_FILE" with
  | Some v, _ => (v, PROTOBUF_CONFIG_FILE_TYPE)
  | None, Some v => (v, JSON_CONFIG_FILE_TYPE)
  | None, None => (string_bytes "/etc/mita/server.conf.pb", PROTOBUF_CONFIG_FILE_TYPE)
  end.

(** What the process remembers is nothing, or the place. *)
Definition clientInv (H : host) (s : places) : Prop :=
  match h_env H "MIERU_CONFIG_FILE", h_env H "MIERU_CONFIG_JSON_FILE", h_userConfigDir H with
  | None, None, Ret d => (p_dir s = [] ∧ p_path s = []) ∨ (p_dir s = clientDir d ∧ (p_path s = [] ∨ p_path s = clientDir d ++ string_bytes "/client.conf.pb"))
  | _, _, _ => True
  end.
Definition serverInv (H : host) (s : places) : Prop :=
  match h_env H "MITA_CONFIG_FILE", h_env H "MITA_CONFIG_JSON_FILE" with
  | None, None => p_path s = string_bytes "/etc/mita/server.conf.pb" ∧ p_dir s = string_bytes "/etc/mita"
  | _, _ => True
  end.

Lemma cleanSegments_nonempty rooted segs out : Forall (.≠ []) out → Forall (.≠ []) (cleanSegments rooted out segs).
Proof.
  revert out. induction segs as [|x segs IH]; intros out Ho; cbn [cleanSegments]; [by apply Forall_rev|]. apply IH.
  case_if; [done|]. assert (x ≠ []) by (intros ->; discriminate). case_if; [|by constructor].
  destruct out as [|y out]; [destruct rooted; by repeat constructor|]. case_if; [by constructor|by inversion Ho].
Qed.

Lemma Clean_nonempty p : Clean p ≠ [].
Proof.
  unfold Clean. pose proof (cleanSegments_nonempty (bool_decide (head p = Some slash)) (Split slash p) [] (Forall_nil_2 _)) as Hf.
  destruct (bool_decide (head p = Some slash)); [done|]. destruct (cleanSegments _ _ _) as [|x [|y l]]; [done| |].
  - by apply Forall_cons in Hf as [? _].
  - by destruct x.
Qed.

Lemma client_type d : FindConfigFileType (clientDir d ++ string_bytes "/client.conf.pb") = PROTOBUF_CONFIG_FILE_TYPE.
Proof.
  unfold FindConfigFileType. assert (E : HasSuffix (clientDir d ++ string_bytes "/client.conf.pb") (string_bytes ".json") = false); [|by rewrite E].
  set (p := clientDir d ++ _). assert (Hl : last p = Some 98) by (unfold p; by rewrite last_app).
  unfold HasSuffix. apply andb_false_iff. right. apply bool_decide_eq_false. intros E.
  rewrite <- (take_drop (length p - length (string_bytes ".json")) p), E, last_app in Hl. discriminate.
Qed.

(** The choice of a client is steady when its directories can be made. *)
Lemma client_steady H name t : clientPlace H = Some (name, t) → (∀ d, h_mkdirAll H d = Ret tt) →
  steady (clientConfigFilePath H) (prepareClientConfigDir H) name t (clientInv H).
Proof.
  unfold clientPlace, clientInv. intros Hp Hm. split.
  - intros s Hi. unfold clientConfigFilePath. destruct (h_env H "MIERU_CONFIG_FILE") as [v|]; [injection Hp as <- <-; eexists; split_and!; try done; apply Clean_nonempty|].
    destruct (h_env H "MIERU_CONFIG_JSON_FILE") as [v|]; [injection Hp as <- <-; eexists; split_and!; try done; apply Clean_nonempty|].
    destruct (h_userConfigDir H) as [d| |] eqn:Ed; [|done..]. injection Hp as <- <-.
    assert (Hc : clientDir d ≠ []) by (unfold clientDir; by destruct d). case_bool_decide as Hq; cbn [negb].
    + unfold prepareClientConfigDir. case_bool_decide as Hd; cbn [negb]; rewrite ?Ed; cbn [p_dir p_path set_path set_dir]; rewrite Hm; cbn [p_dir p_path set_path set_dir]; try change (d ++ string_bytes "/mieru") with (clientDir d).
      * rewrite client_type. eexists. split_and!; [done| |done|done]. cbn. auto.
      * destruct Hi as [[? _]|[Hi _]]; [done|]. rewrite Hi, client_type. eexists. split_and!; [done| |done|cbn; by rewrite Hi]. right. auto.
    + destruct Hi as [[_ ?]|[? [?|Hq']]]; [done..|]. rewrite Hq', client_type. eexists. split_and!; try done; [right; auto|congruence].
  - intros s _ Hd. unfold prepareClientConfigDir. by rewrite bool_decide_false, Hm.
  - intros m s. by destruct (h_env H "MIERU_CONFIG_FILE"), (h_env H "MIERU_CONFIG_JSON_FILE"), (h_userConfigDir H).
Qed.

Lemma server_steady H name t : serverPlace H = (name, t) → (∀ d, h_stat H d = Ret tt) →
  steady (serverConfigFilePath H) (checkServerConfigDir H) name t (serverInv H).
Proof.
  unfold serverPlace, serverInv. intros Hp Hm. split.
  - intros s Hi. unfold serverConfigFilePath. destruct (h_env H "MITA_CONFIG_FILE") as [v|]; [injection Hp as <- <-; eexists; split_and!; try done; apply Clean_nonempty|].
    destruct (h_env H "MITA_CONFIG_JSON_FILE") as [v|]; [injection Hp as <- <-; eexists; split_and!; try done; apply Clean_nonempty|].
    injection Hp as <- <-. destruct Hi as [Hi Hd]. rewrite Hi. eexists. split_and!; try done. by rewrite Hd.
  - intros s _ _. unfold checkServerConfigDir. by rewrite Hm.
  - intros m s. by destruct (h_env H "MITA_CONFIG_FILE"), (h_env H "MITA_CONFIG_JSON_FILE").
Qed.

(** Calls on the configuration file, and the same calls on the contents of one file
    as ConfigClient and ConfigServer have them. *)
Inductive fileCall (C : Type) := CallLoad | CallStore (c : C) | CallDelete.
Arguments CallLoad {C}.
Arguments CallStore {C} c.
Arguments CallDelete {C}.

Definition noConfig {C S} (r : outcome unit * S) : outcome (option C) * S := (let! _ := r.1 in Ret None, r.2).
Definition someConfig {C S} (r : outcome C * S) : outcome (option C) * S := (let! c := r.1 in Ret (Some c), r.2).
Fixpoint runCalls {C S} (exec : fileCall C → S → outcome (option C) * S) (calls : list (fileCall C)) (s : S) : list (outcome (option C)) * S :=
  match calls with
  | [] => ([], s)
  | k :: calls => let '(r, s) := exec k s in let '(rs, s) := runCalls exec calls s in (r :: rs, s)
  end.

Definition clientCall (H : host) (K : codec PbClientConfig) (k : fileCall PbClientConfig) (s : places) : outcome (option PbClientConfig) * places :=
  match k with
  | CallLoad => someConfig (LoadClientConfigFile H K s)
  | CallStore c => noConfig (StoreClientConfigFile H K c s)
  | CallDelete => noConfig (deleteClientConfigFile H s)
  end.
Definition serverCall (H : host) (K : codec PbServerConfig) (k : fileCall PbServerConfig) (s : places) : outcome (option PbServerConfig) * places :=
  match k with
  | CallLoad => someConfig (LoadServerConfigFile H K s)
  | CallStore c => noConfig (StoreServerConfigFile H K (Some c) s)
  | CallDelete => noConfig (deleteServerConfigFile H s)
  end.

(** The specification: one file, which is absent or has contents. *)
Definition specCall {C} (load : option bytes → outcome C) (store : C → outcome (option bytes)) (k : fileCall C) (file : option bytes)
    : outcome (option C) * option bytes :=
  match k with
  | CallLoad => (let! c := load file in Ret (Some c), file)
  | CallStore c => match store c with Ret f => (Ret None, f) | Err e => (Err e, file) | Panic m => (Panic m, file) end
  | CallDelete => (Ret None, None)
  end.

(** Running calls against a specification that each of them refines. *)
Lemma runCalls_refine {C} (exec : fileCall C → places → outcome (option C) * places) spec (R : places → option bytes → Prop) :
  (∀ k s f, R s f → (exec k s).1 = (spec k f).1 ∧ R (exec k s).2 (spec k f).2) →
  ∀ calls s f, R s f → (runCalls exec calls s).1 = (runCalls spec calls f).1 ∧ R (runCalls exec calls s).2 (runCalls spec calls f).2.
Proof.
  intros Hs calls. induction calls as [|k calls IH]; intros s f Hr; [done|]. cbn [runCalls].
  destruct (Hs k s f Hr) as [E Hr']. destruct (exec k s) as [r1 s1], (spec k f) as [r2 f2]. cbn in E, Hr'. subst r2.
  destruct (IH s1 f2 Hr') as [E2 Hr2]. destruct (runCalls exec calls s1), (runCalls spec calls f2). cbn in *. by subst.
Qed.

(** The file of a state, and the other files untouched. *)
Definition holds (inv : places → Prop) (name : bytes) (files : gmap bytes bytes) (s : places) (f : option bytes) : Prop :=
  inv s ∧ p_files s !! name = f ∧ ∀ n, n ≠ name → p_files s !! n = files !! n.

Lemma holds_store (inv : places → Prop) name files s s' b : holds inv name files s (p_files s !! name) → inv s' → p_files s' = <[name := b]> (p_files s) →
  holds inv name files s' (Some b).
Proof. intros (_ & _ & Ho) Hi E. split_and!; [done|rewrite E; apply lookup_insert_eq|]. intros n Hn. rewrite E, lookup_insert_ne by done. auto. Qed.
Lemma holds_delete (inv : places → Prop) name files s s' : holds inv name files s (p_files s !! name) → inv s' → p_files s' = delete name (p_files s) →
  holds inv name files s' None.
Proof. intros (_ & _ & Ho) Hi E. split_and!; [done|rewrite E; apply lookup_delete_eq|]. intros n Hn. rewrite E, lookup_delete_ne by done. auto. Qed.
Lemma holds_same (inv : places → Prop) name files s s' : holds inv name files s (p_files s !! name) → inv s' → p_files s' = p_files s →
  holds inv name files s' (p_files s !! name).
Proof. intros (_ & _ & Ho) Hi E. split_and!; [done|by rewrite E|]. intros n Hn. rewrite E. auto. Qed.

Definition mayUse (H : host) (name : bytes) : Prop := h_canOpen H name = true ∧ h_canWrite H name = true ∧ h_canRemove H name = true.

Lemma client_call_refines H K name t files k s f : clientPlace H = Some (name, t) → (∀ d, h_mkdirAll H d = Ret tt) → mayUse H name →
  holds (clientInv H) name files s f →
  let spec := specCall (LoadClientConfig (decodeConfig K t)) (StoreClientConfig (encodeConfig K t)) in
  (clientCall H K k s).1 = (spec k f).1 ∧ holds (clientInv H) name files (clientCall H K k s).2 (spec k f).2.
Proof.
  intros Hp Hm (Ho & Hw & Hd) Hh. pose proof (client_steady H name t Hp Hm) as Hst. pose proof Hh as (Hi & <- & _). destruct k as [|c|]; cbn zeta; cbn [clientCall specCall].
  - unfold LoadClientConfigFile, withClientFile. destruct (load_steady H K _ _ _ _ _ Hst "clientConfigFilePath() failed: %w" "prepareClientConfigDir() failed: %w" Ho s Hi) as (s' & Hi' & Hf & ->).
    cbn. split; [done|by apply (holds_same _ _ _ s)].
  - unfold StoreClientConfigFile, withClientFile. destruct (store_steady H K _ _ _ _ _ Hst "clientConfigFilePath() failed: %w" "prepareClientConfigDir() failed: %w" Hw (storedClient c) s Hi) as (s' & Hi' & -> & Hf).
    unfold StoreClientConfig. destruct (encodeConfig K t (storedClient c)) as [b| |]; cbn; split; try done; [by apply (holds_store _ _ _ s)|by apply (holds_same _ _ _ s)..].
  - unfold deleteClientConfigFile. destruct (delete_steady H _ _ _ _ _ Hst Hd s Hi) as (s' & s'' & -> & -> & Hi' & Hf). cbn. split; [done|by apply (holds_delete _ _ _ s)].
Qed.

Lemma server_call_refines H K name t files k s f : serverPlace H = (name, t) → (∀ d, h_stat H d = Ret tt) → mayUse H name →
  holds (serverInv H) name files s f →
  let spec := specCall (LoadServerConfig (decodeConfig K t)) (StoreServerConfig (encodeConfig K t)) in
  (serverCall H K k s).1 = (spec k f).1 ∧ holds (serverInv H) name files (serverCall H K k s).2 (spec k f).2.
Proof.
  intros Hp Hm (Ho & Hw & Hd) Hh. pose proof (server_steady H name t Hp Hm) as Hst. pose proof Hh as (Hi & <- & _). destruct k as [|c|]; cbn zeta; cbn [serverCall specCall].
  - unfold LoadServerConfigFile, withServerFile. destruct (load_steady H K _ _ _ _ _ Hst "serverConfigFilePath() failed: %w" "checkServerConfigDir() failed: %w" Ho s Hi) as (s' & Hi' & Hf & ->).
    cbn. split; [done|by apply (holds_same _ _ _ s)].
  - unfold StoreServerConfigFile, withServerFile. destruct (store_steady H K _ _ _ _ _ Hst "serverConfigFilePath() failed: %w" "checkServerConfigDir() failed: %w" Hw (stored c) s Hi) as (s' & Hi' & -> & Hf).
    unfold StoreServerConfig. destruct (encodeConfig K t (stored c)) as [b| |]; cbn; split; try done; [by apply (holds_store _ _ _ s)|by apply (holds_same _ _ _ s)..].
  - unfold deleteServerConfigFile. destruct (delete_steady H _ _ _ _ _ Hst Hd s Hi) as (s' & s'' & -> & -> & Hi' & Hf). cbn. split; [done|by apply (holds_delete _ _ _ s)].
Qed.

(** The disk of a client refines one file: through every sequence of calls it is the
    file of [clientPlace], whatever the process remembers on the way, and no other
    file changes. *)
Theorem client_disk_is_one_file H K name t files calls : clientPlace H = Some (name, t) → (∀ d, h_mkdirAll H d = Ret tt) → mayUse H name →
  let spec := specCall (LoadClientConfig (decodeConfig K t)) (StoreClientConfig (encodeConfig K t)) in
  let '(rs, s) := runCalls (clientCall H K) calls (clientPlaces0 files) in
  let '(rs', f) := runCalls spec calls (files !! name) in
  rs = rs' ∧ p_files s !! name = f ∧ ∀ n, n ≠ name → p_files s !! n = files !! n.
Proof.
  intros Hp Hm Hu spec.
  destruct (runCalls_refine (clientCall H K) spec (holds (clientInv H) name files) (λ k s f, client_call_refines H K name t files k s f Hp Hm Hu) calls (clientPlaces0 files) (files !! name)) as [E (_ & Hf & Ho)].
  { split_and!; [|done..]. unfold clientInv. repeat case_match; auto. }
  destruct (runCalls (clientCall H K) _ _), (runCalls spec _ _). done.
Qed.

Theorem server_disk_is_one_file H K name t files calls : serverPlace H = (name, t) → (∀ d, h_stat H d = Ret tt) → mayUse H name →
  let spec := specCall (LoadServerConfig (decodeConfig K t)) (StoreServerConfig (encodeConfig K t)) in
  let '(rs, s) := runCalls (serverCall H K) calls (serverPlaces0 files) in
  let '(rs', f) := runCalls spec calls (files !! name) in
  rs = rs' ∧ p_files s !! name = f ∧ ∀ n, n ≠ name → p_files s !! n = files !! n.
Proof.
  intros Hp Hm Hu spec.
  destruct (runCalls_refine (serverCall H K) spec (holds (serverInv H) name files) (λ k s f, server_call_refines H K name t files k s f Hp Hm Hu) calls (serverPlaces0 files) (files !! name)) as [E (_ & Hf & Ho)].
  { split_and!; [|done..]. unfold serverInv. repeat case_match; auto. }
  destruct (runCalls (serverCall H K) _ _), (runCalls spec _ _). done.
Qed.

(** The history of updates is beside a configuration that the environment names, but
    only once the path was asked for; before, it is in the directory of the user. *)
Theorem history_beside_config H v d s : h_env H "MIERU_CONFIG_FILE" = Some v → h_userConfigDir H = Ret d → (∀ d, h_mkdirAll H d = Ret tt) →
  (ClientUpdaterHistoryPath H (clientConfigFilePath H s).2).1 = Ret (pathJoin (Dir v) (string_bytes "client.updater.pb")) ∧
  (ClientUpdaterHistoryPath H (clientPlaces0 (p_files s))).1 = Ret (pathJoin (clientDir d) (string_bytes "client.updater.pb")).
Proof.
  intros Hv Hd Hm. unfold ClientUpdaterHistoryPath, clientConfigFilePath, prepareClientConfigDir. rewrite Hv. cbn [snd p_dir set_place].
  rewrite bool_decide_false by apply Clean_nonempty. cbn [negb]. rewrite Hm. cbn [p_dir clientPlaces0]. rewrite bool_decide_true by done. cbn [negb]. rewrite Hd. cbn [p_dir set_dir]. by rewrite Hm.
Qed.

(** ** The dialer *)

(** A socket comes with the result, except when the control function fails: then the
    caller gets an error and nobody closes the socket. *)
Theorem dialer_socket_owned {A S} resolve (listen : string → option A → outcome S) apply control network laddr r open :
  ListenPacket resolve listen apply control network laddr = (r, open) →
  (∀ c, r = Ret c → open = [c]) ∧ (is_ret r = false → open ≠ [] → r = Err (Errorf "ApplyUDPControl() failed: %w")).
Proof.
  unfold ListenPacket. intros E. repeat case_match; simplify_eq; split; try done; by intros c [= ->].
Qed.

Example control_failure_leaks : ListenPacket (λ _ _, Ret tt) (λ _ _, Ret 7) (λ _, Err (Errorf "setsockopt")) true "udp" [] =
  (Err (Errorf "ApplyUDPControl() failed: %w"), [7]).
Proof. reflexivity. Qed.

(** ** Connections with children *)

Lemma children_added conn cs subs :
  foldl (λ h c, AddConn c h) (HierarchyConn conn subs) cs = HierarchyConn conn (subs ++ (WrapHierarchyConn <$> cs)).
Proof.
  revert subs. induction cs as [|c cs IH]; intros subs; cbn [foldl]; [by rewrite app_nil_r|]. cbn [AddConn]. rewrite IH. by rewrite <- app_assoc.
Qed.
Lemma close_wrapped c : closeOrder (WrapHierarchyConn c) = closeOrder c.
Proof. done. Qed.

(** Closing a connection closes every child that was added, in order, each with its
    own children, and the connection itself last; the user stays that of the
    connection. *)
Theorem hierarchy_closes user i cs : let h := foldl (λ h c, AddConn c h) (WrapHierarchyConn (RawConn i)) cs in
  closeOrder h = concat (closeOrder <$> cs) ++ [i] ∧ hconnUserName user h = default "" (user i).
Proof.
  cbn zeta. change (WrapHierarchyConn (RawConn i)) with (HierarchyConn (RawConn i) []). rewrite children_added. split; [|done].
  cbn [closeOrder app]. f_equal. f_equal. change (map closeOrder (WrapHierarchyConn <$> cs)) with (closeOrder <$> (WrapHierarchyConn <$> cs)).
  rewrite <- list_fmap_compose. apply list_fmap_ext. intros ? c _. apply close_wrapped.
Qed.

(** ** Profiles *)

Definition debug0 (disk : gmap bytes bytes) : debugState := mkDebug None None ∅ 0 disk.
Inductive debugCall := StartCall (ok : bool) (path : bytes) | StopCall (prof : bytes) | HeapCall (ok : bool) (path : bytes) (heap : option bytes).
Definition debugStep (k : debugCall) (g : debugState) : option error_ * debugState :=
  match k with
  | StartCall ok path => StartCPUProfile ok path g
  | StopCall prof => (None, StopCPUProfile prof g)
  | HeapCall ok path heap => GetHeapProfile ok path heap g
  end.
Fixpoint debugRun (ks : list debugCall) (g : debugState) : list (option error_) * debugState :=
  match ks with
  | [] => ([], g)
  | k :: ks => let '(r, g) := debugStep k g in let '(rs, g) := debugRun ks g in (r :: rs, g)
  end.

(** The variable of the package stays nil, descriptors are fresh, and the profiler
    writes to one that is open. *)
Record debug_ok (g : debugState) : Prop := {
  dk_file : g_file g = None;
  dk_next : ∀ fd p, g_open g !! fd = Some p → (fd < g_next g)%nat;
  dk_running : ∀ fd, g_running g = Some fd → is_Some (g_open g !! fd)
}.

Lemma create_ok ok path g fd g' : debug_ok g → createFile ok path g = Some (fd, g') →
  debug_ok g' ∧ fd = g_next g ∧ g_open g' !! fd = Some path ∧ g_running g' = g_running g ∧ g_file g' = None ∧ g_open g' = <[fd := path]> (g_open g).
Proof.
  intros [Hf Hn Hr] E. unfold createFile in E. destruct ok; [|done]. injection E as <- <-. cbn. split_and!; try done; [|by rewrite lookup_insert_eq].
  split; cbn; [done| |].
  - intros fd p. rewrite lookup_insert_Some. intros [[<- _]|[_ Hl]]; [lia|]. apply Hn in Hl. lia.
  - intros fd Hfd. destruct (Hr fd Hfd) as [p Hp]. rewrite lookup_insert_ne; [eauto|]. apply Hn in Hp. lia.
Qed.

Lemma debug_step_ok k g : debug_ok g → debug_ok (debugStep k g).2 ∧ (debugStep k g).1 ≠ Some (Declared ErrAlreadyStarted_).
Proof.
  intros Hk. destruct k as [ok path|prof|ok path heap]; cbn [debugStep].
  - unfold StartCPUProfile. case_bool_decide; [done|]. rewrite (dk_file g Hk). destruct (createFile ok path g) as [[fd g']|] eqn:E; [|done].
    apply create_ok in E as (Hk' & -> & Ho & Hr & Hf & _); [|done]. destruct (g_running g'); [done|]. split; [|done].
    destruct Hk' as [K1 K2 K3]. split; cbn; [done|done|]. intros fd [= <-]. eauto.
  - split; [|done]. destruct Hk as [K1 K2 K3]. split; cbn; rewrite ?K1; done.
  - unfold GetHeapProfile. case_bool_decide; [done|]. destruct (createFile ok path g) as [[fd g']|] eqn:E; [|done].
    apply create_ok in E as (Hk' & -> & Ho & Hr & Hf & Hop); [|done]. cbn zeta.
    assert (Hc : ∀ d, debug_ok (mkDebug (g_file g') (g_running g') (delete (g_next g) (g_open g')) (g_next g') d)); [|destruct heap; split; try done; apply Hc].
    intros d. destruct Hk' as [K1 K2 K3]. split; cbn; [done| |].
    + intros fd p [_ Hl]%lookup_delete_Some. eauto.
    + intros fd Hfd. rewrite lookup_delete_ne; [auto|]. intros <-. rewrite Hr in Hfd. apply (dk_running g Hk) in Hfd as [p Hp]. apply (dk_next g Hk) in Hp. lia.
Qed.

(** No call is ever answered with ErrAlreadyStarted: the file that a start keeps is a
    variable of its own, so the guard sees nil and Stop has nothing to close. *)
Theorem never_already_started ks disk : let '(rs, g) := debugRun ks (debug0 disk) in
  Some (Declared ErrAlreadyStarted_) ∉ rs ∧ g_file g = None.
Proof.
  assert (Hr : ∀ ks g, debug_ok g → Some (Declared ErrAlreadyStarted_) ∉ (debugRun ks g).1 ∧ debug_ok (debugRun ks g).2).
  { clear. induction ks as [|k ks IH]; intros g Hg; [split; [apply not_elem_of_nil|done]|]. cbn [debugRun]. destruct (debug_step_ok k g Hg) as [Hk Hne].
    destruct (debugStep k g) as [r g1]. destruct (IH g1 Hk) as [I1 I2]. destruct (debugRun ks g1) as [rs g2]. cbn in *. split; [|done].
    rewrite not_elem_of_cons. split; [congruence|done]. }
  assert (H0 : debug_ok (debug0 disk)) by (split; cbn; done). destruct (Hr ks _ H0) as [R1 R2]. destruct (debugRun ks (debug0 disk)) as [rs g]. split; [done|by apply dk_file].
Qed.

(** A profile that is started, and not disturbed, is written to its file when it is
    stopped; its descriptor stays open. *)
Theorem profile_is_written path prof g : debug_ok g → path ≠ [] → g_running g = None →
  (StartCPUProfile true path g).1 = None ∧
  let g' := StopCPUProfile prof (StartCPUProfile true path g).2 in
  g_disk g' !! path = Some prof ∧ g_running g' = None ∧ g_open g' = <[g_next g := path]> (g_open g).
Proof.
  intros Hg Hp Hr. unfold StartCPUProfile. rewrite bool_decide_false by done. rewrite (dk_file g Hg). cbn. rewrite Hr. cbn. rewrite ?(dk_file g Hg), lookup_insert_eq. cbn. rewrite !lookup_insert_eq. unfold overwrite. cbn. by rewrite drop_nil, app_nil_r.
Qed.

(** A second start empties the file that it names before it fails: that of the
    running profile if it is the same. *)
Theorem second_start_truncates path other g : debug_ok g → path ≠ [] → g_running g = Some other →
  is_Some (StartCPUProfile true path g).1 ∧ g_disk (StartCPUProfile true path g).2 !! path = Some [] ∧ g_running (StartCPUProfile true path g).2 = Some other.
Proof.
  intros Hg Hp Hr. unfold StartCPUProfile. rewrite bool_decide_false by done. rewrite (dk_file g Hg). cbn. rewrite Hr. cbn. by rewrite lookup_insert_eq.
Qed.

Lemma stack_len trace size : 0 ≤ size → len (stack trace size) = Z.min size (len trace).
Proof. intros Hs. unfold stack, len. rewrite length_take. lia. Qed.

(** The buffer for the traces grows until they fit: the text is whole. *)
Lemma allStackTrace_whole fuel trace size : 0 < size → len trace < size * 4 ^ Z.of_nat fuel → allStackTrace (S fuel) trace size = Some trace.
Proof.
  revert size. induction fuel as [|fuel IH]; intros size Hs Hl; cbn [allStackTrace]; rewrite stack_len by lia; case_if;
    try (unfold stack; rewrite take_ge; [done|unfold len in *; lia]).
  - exfalso. change (4 ^ Z.of_nat 0) with 1 in Hl. lia.
  - apply (IH (4 * size)); [lia|]. rewrite Nat2Z.inj_succ, Z.pow_succ_r in Hl by lia. lia.
Qed.

Theorem all_stack_trace_whole trace : len trace < 2 ^ 62 → GetAllStackTrace 25 trace = Some trace.
Proof. intros Hl. apply allStackTrace_whole; [done|]. change (16384 * 4 ^ Z.of_nat 24) with (2 ^ 62). done. Qed.

End Process.
Export Process.
