(* ===== verification/Connections.v ===== *)
(** * The list of connections: from the sessions to the panel

    What a session tells of itself ([ToSessionInfo], pkg/protocol/session.go), the
    lists of an underlay and of a mux, the calls of the management services, the
    table of pkg/cli/shared.go and the commands that print it, and the panel that
    reads it (PanelStats).  Times are in microseconds in a session, as there, and in
    nanoseconds elsewhere. *)

From S2P Require Import Prelude Mathext Segment Scheduler SessionState Session UnderlayLoop Net Mux.
From S2P Require Import ConfigServer ServerControl MitaCli Metrics CliTables PanelText PanelMita PanelStats.
From Stdlib Require Import ZifyBool.
Local Open Scope Z_scope.

Module Connections.

(** ** Sessions *)

(** [sessionState.String]. *)
Definition stateName (st : Z) : string :=
  if st =? sessionInit then "INITIALIZED" else if st =? sessionAttached then "ATTACHED"
  else if st =? sessionEstablished then "ESTABLISHED" else if st =? sessionClosed then "CLOSED" else "UNKNOWN".

(** [appctlpb.SessionInfo]; a field that is not set is empty. *)
Record SessionInfo := mkInfo {
  si_Id : bytes; si_Protocol : bytes; si_LocalAddr : bytes; si_RemoteAddr : bytes; si_State : bytes;
  si_RecvQ : Z; si_RecvBuf : Z; si_SendQ : Z; si_SendBuf : Z;
  si_LastRecvTime : Z * Z; si_LastRecvSeq : Z; si_LastSendTime : Z * Z; si_LastSendSeq : Z
}.

(** The addresses of the connection of an underlay: its own, and that of the peer
    (on a packet underlay the address of the server, which only a client has). *)
Record underlayConn := mkConn { uc_local : bytes; uc_peer : option bytes }.

(** Seconds and nanoseconds of [time.UnixMicro]. *)
Definition timestamp (micro : Z) : Z * Z := (micro / 1000000, micro `mod` 1000000 * 1000).

Section Sessions.
Context {T : Type} `{BTree T}.
Implicit Types (s : Session T) (u : Underlay T) (c : underlayConn).

(** [LocalAddr] and [RemoteAddr] of an underlay, as texts. *)
Definition LocalAddr u c : bytes :=
  match u_transport u with UnknownTransport => [] | _ => uc_local c end.
Definition RemoteAddr u c : bytes :=
  match u_transport u with
  | StreamTransport => default [] (uc_peer c)
  | PacketTransport => if u_isClient u then default [] (uc_peer c) else []
  | UnknownTransport => []
  end.

(** [RemoteAddr] of a session: the address that it was added with, if it has one. *)
Definition sessionRemoteAddr (remoteAddr : string) (conn : option (Underlay T * underlayConn)) : bytes :=
  if negb (bool_decide (remoteAddr = "")) then string_bytes remoteAddr
  else match conn with Some (u, c) => RemoteAddr u c | None => [] end.

Definition ToSessionInfo (conn : option (Underlay T * underlayConn)) s : SessionInfo :=
  let info protocol local remote recvTime recvSeq sendTime sendSeq :=
    mkInfo (Itoa (id s)) protocol local remote (string_bytes (stateName (state s)))
      (u32 (Len (recvQueue s))) (u32 (Len (recvBuf s))) (u32 (Len (sendQueue s))) (u32 (Len (sendBuf s)))
      recvTime recvSeq sendTime sendSeq in
  match conn with
  | None => info [] (string_bytes "-") (string_bytes "-") (0, 0) 0 (0, 0) 0
  | Some (u, c) =>
      let '(protocol, recvTime, recvSeq) :=
        match u_transport u with
        | StreamTransport => (string_bytes "TCP", timestamp (lastRXTime s), 0)
        | PacketTransport => (string_bytes "UDP", timestamp (lastRXTime s), u32 (Max 0 (nextRecv s - 1)))
        | UnknownTransport => (string_bytes "UNKNOWN", (0, 0), 0)
        end in
      info protocol (LocalAddr u c) (RemoteAddr u c) recvTime recvSeq (timestamp (lastTXTime s)) (u32 (Max 0 (nextSend s - 1)))
  end.

(** [SessionInfos]: the map is walked in some order, here that of [map_to_list]. *)
Definition SessionInfos (v : Underlay T * underlayConn) : list SessionInfo :=
  (λ x, ToSessionInfo (Some v) x.2.1) <$> map_to_list (sessionMap v.1).
End Sessions.

(** [ExportSessionInfoList] of a mux, over the [SessionInfos] of its underlays. *)
Definition ExportSessionInfoList {V} (infos : V → list SessionInfo) (m : Mux V) : list SessionInfo :=
  concat ((λ k, match m_store m !! k with Some e => infos (und e) | None => [] end) <$> m_underlays m).

(** [GetSessionInfoList] of the server. *)
Definition GetSessionInfoList {V} (infos : V → list SessionInfo) (s : service V) : outcome (list SessionInfo) * service V :=
  (match s_muxRef s with
   | None => Err (Errorf "server multiplexier is unavailable")
   | Some k => match s_muxes s !! k with Some m => Ret (ExportSessionInfoList infos m) | None => Ret [] end
   end, s).

(** ** The table *)

(** [Sub]: the difference, within the range of a duration. *)
Definition durationSub (a b : Z) : Z := Z.min (2 ^ 63 - 1) (Z.max (- 2 ^ 63) (a - b)).

(** [Duration.String] of a number of seconds. *)
Definition secondsText (d : Z) : bytes :=
  let a := Z.abs d in
  (if d <? 0 then string_bytes "-" else []) ++
  (if 3600 <=? a then Itoa (a / 3600) ++ string_bytes "h" else []) ++
  (if 60 <=? a then Itoa (a / 60 `mod` 60) ++ string_bytes "m" else []) ++
  Itoa (a `mod` 60) ++ string_bytes "s".

(** [time.Since(time.Unix(sec, nsec)).Truncate(time.Second)] as a text. *)
Definition sinceText (now : Z) (t : Z * Z) : bytes :=
  secondsText (Z.quot (durationSub now (t.1 * 1000000000 + t.2)) 1000000000).

Definition connectionsHeader : list bytes :=
  string_bytes <$> ["SessionID"; "Protocol"; "Local"; "Remote"; "State"; "RecvQ+Buf"; "SendQ+Buf"; "LastRecv"; "LastSend"].
Definition withSeq (text : bytes) (seq : Z) : bytes := text ++ string_bytes " (" ++ Itoa seq ++ string_bytes ")".
Definition plus (a b : Z) : bytes := Itoa a ++ string_bytes "+" ++ Itoa b.

(** A row; [now] is the clock at the two calls of [time.Since]. *)
Definition connectionCells (now : Z * Z) (si : SessionInfo) : list bytes :=
  let recv := sinceText now.1 (si_LastRecvTime si) in
  [si_Id si; si_Protocol si; si_LocalAddr si; si_RemoteAddr si; si_State si;
   plus (si_RecvQ si) (si_RecvBuf si); plus (si_SendQ si) (si_SendBuf si);
   if bool_decide (si_Protocol si = string_bytes "TCP") then recv else withSeq recv (si_LastRecvSeq si);
   withSeq (sinceText now.2 (si_LastSendTime si)) (si_LastSendSeq si)].

Definition connectionRows (clock : nat → Z * Z) (items : list SessionInfo) : list (list bytes) :=
  imap (λ i si, connectionCells (clock i) si) items.
Definition printSessionInfoList (clock : nat → Z * Z) (items : list SessionInfo) : outcome (list bytes) :=
  printTable (connectionsHeader :: connectionRows clock items) twoSpaces.

(** ** The command *)

Section Command.
Context {V : Type} (infos : V → list SessionInfo).
Definition serverGetConnectionsFunc (clock : nat → Z * Z) : option (service V) → outcome (list bytes) * option (service V) := withDaemon (λ _ d,
  call "get connections failed: %w" (GetSessionInfoList infos) (λ items d, (printSessionInfoList clock items, d)) d).
End Command.

(** * Properties *)

(** A connection as the panel has it, from the cells of its row. *)
Definition connectionOf (now : Z * Z) (si : SessionInfo) : ConnectionInfo :=
  match connectionCells now si with
  | [a; b; c; d; e; f; g; h; i] => mkConnection a b c d e f g h i
  | _ => mkConnection [] [] [] [] [] [] [] [] []
  end.

Lemma visible_app a b : visible a → visible b → visible (a ++ b).
Proof. intros [Ha Ha'] [Hb Hb']. split; [by destruct a|by apply Forall_app]. Qed.
Lemma visible_opt a b : a = [] ∨ visible a → visible b → visible (a ++ b).
Proof. intros [->|Ha] Hb; [done|by apply visible_app]. Qed.

Lemma Itoa_any_visible n : visible (Itoa n).
Proof. destruct (Z.ltb_spec n 0); [by apply Itoa_neg|by apply Itoa_visible]. Qed.

Lemma letter_visible x : visible (string_bytes x) → ∀ n, visible (Itoa n ++ string_bytes x).
Proof. intros Hx n. apply visible_app; [apply Itoa_any_visible|done]. Qed.

Lemma visible_closed s : bool_decide (s ≠ [] ∧ Forall (λ c, 33 ≤ c < 127) s) = true → visible s.
Proof. apply bool_decide_eq_true_1. Qed.

Lemma secondsText_visible d : visible (secondsText d).
Proof.
  assert (Hl : ∀ n, visible (Itoa n ++ string_bytes "s")) by (apply letter_visible; by apply visible_closed).
  unfold secondsText. apply visible_opt; [case_if; [right; by apply visible_closed|by left]|].
  apply visible_opt; [case_if; [right; apply letter_visible; by apply visible_closed|by left]|].
  apply visible_opt; [case_if; [right; apply letter_visible; by apply visible_closed|by left]|apply Hl].
Qed.

Lemma spaced_app a b : spaced true a = true → spaced true b = true → ∀ x, spaced x a = true → spaced x (a ++ [32] ++ b) = true.
Proof.
  intros _ Hb. induction a as [|c a IH]; intros x Ha; cbn in *.
  - by rewrite Ha, Hb.
  - destruct (c =? 32); apply andb_true_iff in Ha as [H1 H2]; rewrite H1; cbn; by apply IH.
Qed.

Lemma withSeq_tidy t n : visible t → tidy (withSeq t n).
Proof.
  intros Ht. unfold withSeq. change (string_bytes " (") with ([32] ++ string_bytes "("). rewrite <- !app_assoc.
  apply visible_tidy in Ht as Ht'. apply spaced_app; [done| |done]. apply visible_tidy, visible_app; [by apply visible_closed|].
  apply visible_app; [apply Itoa_any_visible|by apply visible_closed].
Qed.

Lemma plus_tidy a b : tidy (plus a b).
Proof. apply visible_tidy, visible_app; [apply Itoa_any_visible|]. apply visible_app; [by apply visible_closed|apply Itoa_any_visible]. Qed.

(** What has to hold of a session for its row to be read: texts without runs of
    blanks, and none of them empty. *)
Record readable (si : SessionInfo) : Prop := {
  rd_id : tidy (si_Id si); rd_protocol : tidy (si_Protocol si); rd_local : tidy (si_LocalAddr si);
  rd_remote : tidy (si_RemoteAddr si); rd_state : tidy (si_State si)
}.

Lemma cells_tidy now si : readable si → Forall tidy (connectionCells now si).
Proof.
  intros [H1 H2 H3 H4 H5]. unfold connectionCells. repeat (apply Forall_cons; split); try done; try apply plus_tidy.
  - case_if; [apply visible_tidy, secondsText_visible|apply withSeq_tidy, secondsText_visible].
  - apply withSeq_tidy, secondsText_visible.
Qed.

(** Reading a row by the names of the columns gives its cells back. *)
Lemma connection_read now si : readable si → connectionRow (colByName connectionsHeader (connectionCells now si)) = connectionOf now si.
Proof.
  intros Hr. pose proof (cells_tidy now si Hr) as Ht. unfold connectionOf. destruct (connectionCells now si) as [|a [|b [|c [|d [|e [|f [|g [|h [|i [|]]]]]]]]]] eqn:E; try done.
  unfold colByName, connectionsHeader. cbn [fmap list_fmap zip zip_with foldl fst snd].
  repeat (apply Forall_cons in Ht as [?Hc Ht]). rewrite !TrimSpace_self by (by apply tidy_solid). reflexivity.
Qed.

Definition connectionsOf (clock : nat → Z * Z) (items : list SessionInfo) : list ConnectionInfo := imap (λ i si, connectionOf (clock i) si) items.

Lemma rows_read clock items : Forall readable items → connectionRow <$> (colByName connectionsHeader <$> connectionRows clock items) = connectionsOf clock items.
Proof.
  intros Hr. unfold connectionRows, connectionsOf. revert clock. induction Hr as [|si items Hs _ IH]; intros clock; [done|]. rewrite !imap_cons, !fmap_cons.
  f_equal; [by apply connection_read|apply (IH (clock ∘ S))].
Qed.

Lemma rows_tidy clock items : Forall readable items → Forall (Forall tidy) (connectionRows clock items).
Proof.
  intros Hr. unfold connectionRows. revert clock. induction Hr as [|si items Hs _ IH]; intros clock; [constructor|]. rewrite imap_cons.
  constructor; [by apply cells_tidy|apply (IH (clock ∘ S))].
Qed.

Lemma rows_length clock items : Forall (λ r, length r = length connectionsHeader) (connectionRows clock items).
Proof.
  unfold connectionRows. revert clock. induction items as [|si items IH]; intros clock; [constructor|]. rewrite imap_cons. constructor; [done|apply (IH (clock ∘ S))].
Qed.

Lemma connectionsOf_ids clock items : Forall readable items → Forall (λ r, ci_SessionID r ≠ []) (connectionsOf clock items).
Proof.
  intros Hr. unfold connectionsOf. revert clock. induction Hr as [|si items [Hi _ _ _ _] _ IH]; intros clock; [constructor|]. rewrite imap_cons.
  constructor; [|apply (IH (clock ∘ S))]. cbn. by apply solid_ne, tidy_solid.
Qed.

(** The table of readable sessions, read by the panel, is the list of sessions. *)
Lemma table_shown clock items : Forall readable items →
  ∃ lines, printSessionInfoList clock items = Ret lines ∧ parseConnectionsTable (TrimSpace (printed lines)) = connectionsOf clock items.
Proof.
  intros Hr. destruct (table_read (string_bytes "SessionID") connectionsHeader (connectionRows clock items)) as (lines & Hp & Hread); [done|apply rows_length| |].
  { constructor; [|by apply rows_tidy]. by apply (bool_decide_unpack _). }
  exists lines. split; [done|]. unfold parseConnectionsTable. rewrite Hread, rows_read by done. apply filter_full, Forall_forall. by apply connectionsOf_ids.
Qed.

(** ** The sessions of a server *)

Section Server.
Context {T : Type} `{BTree T}.
Notation V := (Underlay T * underlayConn)%type.

Lemma state_tidy st : tidy (string_bytes (stateName st)).
Proof. unfold stateName. repeat case_if; by apply (bool_decide_unpack _). Qed.

(** An underlay with both addresses: its sessions are readable. *)
Lemma infos_readable (v : V) : u_transport v.1 ≠ UnknownTransport → tidy (LocalAddr v.1 v.2) → tidy (RemoteAddr v.1 v.2) → Forall readable (SessionInfos v).
Proof.
  intros Ht Hl Hr. unfold SessionInfos. apply Forall_fmap, Forall_forall. intros [k [s a]] _. destruct v as [u c]. unfold compose. cbn [fst snd] in *.
  unfold ToSessionInfo. destruct (u_transport u); [done|..]; split; cbn; try done; try (by apply (bool_decide_unpack _)); try apply state_tidy; apply visible_tidy, Itoa_any_visible.
Qed.

Definition hasAddresses (v : V) : Prop := u_transport v.1 ≠ UnknownTransport ∧ tidy (LocalAddr v.1 v.2) ∧ tidy (RemoteAddr v.1 v.2).

Lemma exported_readable (m : Mux V) : (∀ k e, k ∈ m_underlays m → m_store m !! k = Some e → hasAddresses (und e)) → Forall readable (ExportSessionInfoList SessionInfos m).
Proof.
  intros Ha. unfold ExportSessionInfoList. apply Forall_concat, Forall_fmap, Forall_forall. intros k Hk. unfold compose.
  destruct (m_store m !! k) as [e|] eqn:E; [|constructor]. destruct (Ha k e Hk E) as (? & ? & ?). by apply infos_readable.
Qed.

(** The connections of a server, from its sessions to the panel: when the underlays
    of the mux that it refers to have addresses, the command succeeds, and what the
    panel reads of its output is one entry for each session of each underlay, with
    its number, addresses, state and queues. *)
Theorem connections_shown clock (s : service V) id m : s_status s ≠ UNKNOWN → s_muxRef s = Some id → s_muxes s !! id = Some m →
  (∀ k e, k ∈ m_underlays m → m_store m !! k = Some e → hasAddresses (und e)) →
  ∃ lines, serverGetConnectionsFunc SessionInfos clock (Some s) = (Ret lines, Some s) ∧
    parseConnectionsTable (TrimSpace (printed lines)) = connectionsOf clock (ExportSessionInfoList SessionInfos m).
Proof.
  intros Hst Hm Hl Ha. destruct (table_shown clock (ExportSessionInfoList SessionInfos m)) as (lines & Hp & Hr).
  { by apply exported_readable. }
  exists lines. split; [|done]. unfold serverGetConnectionsFunc, withDaemon, GetServerStatusWithRPC. cbn [rpc fst]. unfold IsServerDaemonRunning.
  rewrite bool_decide_false by done. cbn [is_ret]. unfold call, rpc, GetSessionInfoList. rewrite Hm, Hl. by rewrite Hp.
Qed.

(** On a server every session over UDP has an empty remote address in the list,
    although the session knows the address of its client. *)
Theorem udp_remote_missing (u : Underlay T) c s addr : u_transport u = PacketTransport → u_isClient u = false → addr ≠ "" →
  si_RemoteAddr (ToSessionInfo (Some (u, c)) s) = [] ∧ sessionRemoteAddr addr (Some (u, c)) = string_bytes addr.
Proof.
  intros Ht Hc Ha. unfold ToSessionInfo, sessionRemoteAddr, RemoteAddr. rewrite Ht, Hc, bool_decide_false by done. done.
Qed.
End Server.

(** ** Examples *)

(** A server that listens on one port and has one session, number 7, of a client. *)
Definition oneSession (tp : TransportProtocol) : Underlay (list segment) :=
  mkUnderlay false 1400 tp ∅
    (match NewSession 1000000 7 false 1400 ∅ with Ret s => {[7 := (SessionState.set_state sessionEstablished s, "5.6.7.8:1234")]} | _ => ∅ end) [] false.
Definition serverOf (tp : TransportProtocol) (peer : option bytes) : service (Underlay (list segment) * underlayConn) :=
  let m := mkMux false [] [0%nat] {[0%nat := mkEntry (mkSched 0 None None) None (oneSession tp, mkConn (string_bytes "1.2.3.4:443") peer)]} [] false true false [] "" [] 0 ∅ None false in
  mkService None RUNNING {[0%nat := m]} (Some 0%nat) None ∅.
Definition clock9 (_ : nat) : Z * Z := (9000000000, 9500000000).
Definition linesOf (s : service (Underlay (list segment) * underlayConn)) : list bytes :=
  match (serverGetConnectionsFunc SessionInfos clock9 (Some s)).1 with Ret l => l | _ => [] end.
Definition panelSees (s : service (Underlay (list segment) * underlayConn)) : list ConnectionInfo := parseConnectionsTable (TrimSpace (printed (linesOf s))).

(** Over TCP the panel shows the session. *)
Lemma connections_shown_witness : ∃ lines, serverGetConnectionsFunc SessionInfos clock9 (Some (serverOf StreamTransport (Some (string_bytes "5.6.7.8:1234")))) = (Ret lines, Some (serverOf StreamTransport (Some (string_bytes "5.6.7.8:1234")))) ∧
  (λ c, (ci_SessionID c, ci_Remote c, ci_State c)) <$> parseConnectionsTable (TrimSpace (printed lines)) = [(string_bytes "7", string_bytes "5.6.7.8:1234", string_bytes "ESTABLISHED")].
Proof.
  edestruct (connections_shown clock9 (serverOf StreamTransport (Some (string_bytes "5.6.7.8:1234"))) 0%nat) as (lines & E & Hp); [discriminate|reflexivity|reflexivity| |].
  - intros k e [->|[]%elem_of_nil]%elem_of_cons. intros [= <-]. split_and!; [discriminate|by apply (bool_decide_unpack _)..].
  - exists lines. split; [exact E|]. rewrite Hp. vm_compute. reflexivity.
Defined.

(** Over UDP the address of the client is missing and every column behind it moves to
    the left: the state stands where the address should be. *)
Example udp_columns_shift : (λ c, (ci_SessionID c, ci_Remote c, ci_State c, ci_LastSend c)) <$> panelSees (serverOf PacketTransport None) =
  [(string_bytes "7", string_bytes "ESTABLISHED", string_bytes "0+0", [])].
Proof. vm_compute. reflexivity. Qed.

End Connections.
Export Connections.
