(* ===== verification/Reports.v ===== *)
(** * Commands that report: pkg/cli/server.go and client.go

    The commands that read something of a running daemon (metrics, connections,
    users, traces, profiles, traffic patterns), the first steps of the daemons
    (the configuration of a first run, the permissions of the socket, where the
    client logs), and the test of a connection.  A server process is its management
    service with its metrics and profiles; texts of errors are their formats. *)

From S2P Require Import PanelMita PanelStats.
From S2P Require Import Prelude Mathext Segment Rng SessionState UnderlayLoop TrafficPattern Mux PortBinding ConfigServer ConfigClient ServerControl.
From S2P Require Import Metrics CliTables PanelText Net Url Links Updater ClientCli.
From S2P Require Import Log MetricsJson MitaCli Connections Process.
Local Open Scope Z_scope.

Module Reports.

Definition GetServerStatusFailedErr : string := "get mita server status failed: %w".

(** ** Commands of the server *)

Section Server.
Context {V : Type}.
Context (unmarshal : bytes → outcome PbServerConfig) (hostSeed : Z)
        (marshalPattern : TrafficPattern → outcome bytes) (patternJSON : TrafficPattern → outcome bytes)
        (indent : bytes → outcome bytes) (statsJSON : memoryStatistics → outcome bytes) (rfc3339 : Z → bytes).

Record mita := mkMita { p_service : service V; p_registry : registry; p_debug : debugState }.
Definition set_debug (g : debugState) (p : mita) : mita := mkMita (p_service p) (p_registry p) g.
Notation server := (option mita).

(** How a report begins: the status of the daemon; [refused] is the text for one that
    does not listen. *)
Definition onDaemon {A} (refused : string) (f : mita → outcome A * mita) (d : server) : outcome A * server :=
  match d with
  | None => (Err (Errorf refused), None)
  | Some p =>
      if is_ret (IsServerDaemonRunning (s_status (p_service p))) then let '(r, p) := f p in (r, Some p)
      else (Err (Errorf ServerNotRunningErr), d)
  end.
Definition report {A} (refused fmt : string) (f : mita → outcome A) : server → outcome A * server :=
  onDaemon refused (λ p, (match f p with Err _ => Err (Errorf fmt) | r => r end, p)).
Definition line (r : outcome bytes) : outcome (list bytes) := let! b := r in Ret [b].

(** The RPCs. *)
Definition GetMetrics (H : LogHost) (p : mita) : outcome bytes := indent (GetMetricsAsJSON H (p_registry p)).
Definition GetUsers (p : mita) : outcome (list userWithMetrics) :=
  match LoadServerConfig unmarshal (s_file (p_service p)) with
  | Ret c => Ret (usersReply (p_registry p) c)
  | _ => Err (Errorf "LoadServerConfig() failed: %w")
  end.
Definition GetConfigOf (p : mita) : outcome PbServerConfig := (GetConfig unmarshal (p_service p)).1.
Definition GetVersion : outcome (Z * Z * Z) :=
  let! v := ParseVersion AppVersion in Ret (u32 (Major v), u32 (Minor v), u32 (Patch v)).

Definition serverGetMetricsFunc (H : LogHost) : server → outcome (list bytes) * server :=
  report ServerNotRunningWithCommand "get metrics failed: %w" (λ p, line (GetMetrics H p)).
(** [times]: the clock at the turn of each user. *)
Definition serverGetUsersFunc (now : Z) (clock : nat → nat → Z) (times : nat → Z) : server → outcome (list bytes) * server :=
  onDaemon ServerNotRunningWithCommand (λ p,
    (match GetUsers p with
     | Ret items => usersTable rfc3339 now clock (imap (λ i x, (times i, x)) items)
     | _ => Err (Errorf "get users failed: %w")
     end, p)).
Definition serverGetQuotasFunc (clock : nat → Z) (now : Z) (roll : nat → nat → Z) : server → outcome (list bytes) * server :=
  onDaemon ServerNotRunningWithCommand (λ p,
    (match GetUsers p with
     | Ret items => quotasTable clock now roll items
     | _ => Err (Errorf "get users failed: %w")
     end, p)).

Definition serverDescribeEffectiveTrafficPatternFunc : server → outcome (list bytes) * server :=
  onDaemon ServerNotRunningWithCommand (λ p,
    (match GetConfigOf p with
     | Ret c => let! (tp, _) := NewConfig hostSeed (sc_trafficPattern c) ∅ in jsonLine (patternJSON (effective tp))
     | _ => Err (Errorf "get mita server config failed: %w")
     end, p)).
Definition serverExportTrafficPatternFunc : server → outcome (list bytes) * server :=
  report ServerNotRunningWithCommand "get mita server config failed: %w" (λ p, let! c := GetConfigOf p in Ret [EncodePattern marshalPattern (sc_trafficPattern c)]).

(** The four that look into the process tell nothing of how to start the daemon. *)
Definition serverGetThreadDumpFunc (fuel : nat) (trace : bytes) : server → outcome (list bytes) * server :=
  report GetServerStatusFailedErr "get thread dump failed: %w" (λ _, Ret (option_list (GetAllStackTrace fuel trace))).
Definition serverGetMemoryStatisticsFunc (ms : memStats) : server → outcome (list bytes) * server :=
  report GetServerStatusFailedErr "get memory statistics failed: %w" (λ _, line (statsJSON (getMemoryStatistics ms))).

Definition savedLine (before : string) (path : bytes) : bytes := string_bytes before ++ [34] ++ path ++ [34].
Definition serverGetHeapProfileFunc (ok : bool) (path : bytes) (heap : option bytes) : server → outcome (list bytes) * server :=
  onDaemon GetServerStatusFailedErr (λ p,
    let '(e, g) := GetHeapProfile ok path heap (p_debug p) in
    (match e with Some _ => Err (Errorf "get heap profile failed: %w") | None => Ret [savedLine "heap profile is saved to " path] end, set_debug g p)).
Definition serverStartCPUProfileFunc (ok : bool) (path : bytes) : server → outcome (list bytes) * server :=
  onDaemon GetServerStatusFailedErr (λ p,
    let '(e, g) := StartCPUProfile ok path (p_debug p) in
    (match e with Some _ => Err (Errorf "start CPU profile failed: %w") | None => Ret [savedLine "CPU profile will be saved to " path] end, set_debug g p)).
Definition serverStopCPUProfileFunc (prof : bytes) : server → outcome (list bytes) * server :=
  onDaemon GetServerStatusFailedErr (λ p, (Ret [], set_debug (StopCPUProfile prof (p_debug p)) p)).

(** [check update] does not ask the daemon. *)
Definition serverCheckUpdateFunc (now : Z) (query : outcome bytes) (d : server) : outcome (list bytes) * server :=
  (match Updater.CheckUpdate now query with
   | (_, msg, None) => Ret [msg]
   | (_, _, Some _) => Err (Errorf "check update failed: %w")
   end, d).
End Server.
Arguments mkMita {V}.
Arguments p_service {V}.
Arguments p_registry {V}.
Arguments p_debug {V}.

(** ** The first steps of the server *)

Definition emptyServerConfig : PbServerConfig := mkPbServerConfig None [] None None None None None None.

(** [serverRunFunc]: the configuration, which is created when the file is missing. *)
Definition serverFirstConfig (H : host) (K : codec PbServerConfig) (s : places) : outcome PbServerConfig * places :=
  match LoadServerConfigFile H K s with
  | (Ret c, s) => (Ret c, s)
  | (Err ErrFileNotExist, s) =>
      match StoreServerConfigFile H K (Some emptyServerConfig) s with
      | (Ret _, s) => match LoadServerConfigFile H K s with
                      | (Ret c, s) => (Ret c, s)
                      | (_, s) => (Err (Errorf "get mita server config failed: %w"), s)
                      end
      | (_, s) => (Err (Errorf "create empty mita server config file failed: %w"), s)
      end
  | (_, s) => match LoadServerConfigFile H K s with
              | (Ret c, s) => (Ret c, s)
              | (_, s) => (Err (Errorf "get mita server config failed: %w"), s)
              end
  end.

(** [updateServerUDSPermission]: the calls that it makes on the socket. *)
Inductive udsCall := Chown (path : bytes) (uid gid : Z) | Chmod (path : bytes) (mode : Z).
(** Read, write and search for the owner and the group. *)
Definition mode0770 : Z := 7 * 64 + 7 * 8.
Record accounts := mkAccounts { lookupUser : string → outcome (bytes * bytes) }.
Definition getUid (a : accounts) (name : string) : outcome bytes := let! (uid, _) := lookupUser a name in Ret uid.
Definition getGid (a : accounts) (name : string) : outcome bytes := let! (_, gid) := lookupUser a name in Ret gid.
Definition failsWith {A} (fmt : string) (r : outcome A) : outcome A := match r with Err _ => Err (Errorf fmt) | r => r end.
Definition updateServerUDSPermission (a : accounts) (uds : bytes) (system : udsCall → outcome ()) : outcome (list udsCall) :=
  let! uidStr := failsWith "getUid(%q) failed: %w" (getUid a "mita") in
  let! uid := failsWith "convert mita UID with strconv.Atoi(%q) failed: %w" (Atoi uidStr) in
  let! gidStr := failsWith "getGid(%q) failed: %w" (getGid a "mita") in
  let! gid := failsWith "convert mita UID with strconv.Atoi(%q) failed: %w" (Atoi gidStr) in
  let! _ := failsWith "os.Chown(%q) failed: %w" (system (Chown uds uid gid)) in
  let! _ := failsWith "os.Chmod(%q) failed: %w" (system (Chmod uds mode0770)) in
  Ret [Chown uds uid gid; Chmod uds mode0770].

(** The metrics of a server that starts: the dump of the last run is loaded and the
    next one enabled, and the groups of a client are not reported. *)
Definition setGroupLogging (b : bool) (name : string) (reg : registry) : registry :=
  alter (λ g, mkGroup (mg_name g) (mg_metrics g) b) name reg.
Definition metricsDumpPath : string := "/var/lib/mita/metrics.pb".
Definition serverMetricsSetup (mkdir : bool) (unmarshal : bytes → outcome (list PbMetricGroup)) (now : Z) (clock : nat → nat → Z) (file : option bytes)
    (reg : registry) (x : exporter) : registry * exporter :=
  let '(reg, x) :=
    if mkdir then
      let x := SetMetricsDumpFilePath (string_bytes metricsDumpPath) x in
      ((LoadMetricsFromDump unmarshal now clock metricsDumpPath file reg).2, match EnableMetricsDump x with Ret x => x | _ => x end)
    else (reg, x) in
  (setGroupLogging false "HTTP proxy" (setGroupLogging false "cipher - client" reg), x).

(** ** Commands of the client *)

Section Client.
Context {V : Type} (infos : V → list SessionInfo) (unmarshal : bytes → outcome PbClientConfig).
Context (indent : bytes → outcome bytes) (statsJSON : memoryStatistics → outcome bytes).

(** [newClientManagementRPCClient] and what the commands make of it: the running
    client, or an error. *)
Definition newClientManagementRPCClient (w : @world V) : outcome (@client V) :=
  match IsClientDaemonRunning unmarshal w with
  | inr _ => Err (Errorf ClientNotRunning)
  | inl d => match NewClientManagementRPCClient unmarshal w with
             | inl _ => Ret d
             | inr _ => Err (Errorf "create mieru client management RPC client failed: %w")
             end
  end.

(** The metrics, the profiles and the traces are those of the client process. *)
Definition clientGetMetricsFunc (H : LogHost) (reg : registry) (w : @world V) : outcome (list bytes) :=
  let! _ := newClientManagementRPCClient w in failsWith "get metrics failed: %w" (line (indent (GetMetricsAsJSON H reg))).
Definition clientGetConnectionsFunc (clock : nat → Z * Z) (w : @world V) : outcome (list bytes) :=
  let! d := newClientManagementRPCClient w in printSessionInfoList clock (ExportSessionInfoList infos (d_mux d)).
Definition clientGetThreadDumpFunc (fuel : nat) (trace : bytes) (w : @world V) : outcome (list bytes) :=
  let! _ := newClientManagementRPCClient w in Ret (option_list (GetAllStackTrace fuel trace)).
Definition clientGetMemoryStatisticsFunc (ms : memStats) (w : @world V) : outcome (list bytes) :=
  let! _ := newClientManagementRPCClient w in failsWith "get memory statistics failed: %w" (line (statsJSON (getMemoryStatistics ms))).
Definition clientGetHeapProfileFunc (ok : bool) (path : bytes) (heap : option bytes) (w : @world V) (g : debugState) : outcome (list bytes) * debugState :=
  match newClientManagementRPCClient w with
  | Ret _ =>
      let '(e, g) := GetHeapProfile ok path heap g in
      (match e with Some _ => Err (Errorf "get heap profile failed: %w") | None => Ret [savedLine "heap profile is saved to " path] end, g)
  | Err e => (Err e, g)
  | Panic m => (Panic m, g)
  end.
Definition clientStartCPUProfileFunc (ok : bool) (path : bytes) (w : @world V) (g : debugState) : outcome (list bytes) * debugState :=
  match newClientManagementRPCClient w with
  | Ret _ =>
      let '(e, g) := StartCPUProfile ok path g in
      (match e with Some _ => Err (Errorf "start CPU profile failed: %w") | None => Ret [savedLine "CPU profile will be saved to " path] end, g)
  | Err e => (Err e, g)
  | Panic m => (Panic m, g)
  end.
Definition clientStopCPUProfileFunc (prof : bytes) (w : @world V) (g : debugState) : outcome (list bytes) * debugState :=
  match newClientManagementRPCClient w with
  | Ret _ => (Ret [], StopCPUProfile prof g)
  | Err e => (Err e, g)
  | Panic m => (Panic m, g)
  end.

(** [clientTestFunc]: a GET through the socks5 port of the client; [get] answers with
    a status code and the text of the duration. *)
Definition testDestination (s : list bytes) : bytes :=
  match s with [_; _; dest] => dest | _ => string_bytes "https://google.com/generate_204" end.
Definition clientTestFunc (get : bytes → bytes → outcome (Z * bytes)) (s : list bytes) (w : @world V) : outcome (list bytes) :=
  match IsClientDaemonRunning unmarshal w with
  | inr _ => Err (Errorf ClientNotRunning)
  | inl _ =>
      let! c := failsWith GetClientConfigFailedErr (LoadClientConfig unmarshal (w_file w)) in
      let! (status, d) := get (proxyURI c) (testDestination s) in
      if (status <? 200) || (300 <=? status) then Err (Errorf "received unexpected status code %d after %v")
      else Ret [string_bytes "Connected to " ++ [34] ++ testDestination s ++ [34] ++ string_bytes " after " ++ d]
  end.

(** Where a client that runs writes its log: to a new file, unless a variable names the
    configuration or there is none. *)
Definition clientLogOutput (H : host) (prepared : outcome ()) (t : Moment) (pid : Z) (canOpen readable : bool) (removable : bytes → bool) (d : Log.Dir)
    : option bytes * Log.Dir :=
  match h_env H "MIERU_CONFIG_FILE", h_env H "MIERU_CONFIG_JSON_FILE" with
  | None, None =>
      match NewClientLogFile prepared t pid canOpen d with
      | (Ret name, d) => (Some name, (RemoveOldClientLogFiles prepared readable removable d).2)
      | (_, d) => (None, d)
      end
  | _, _ => (None, d)
  end.

(** The interval of the metrics log: a bad one is ignored. *)
Definition metricsInterval (parseDuration : bytes → outcome Z) (text : bytes) (x : exporter) : exporter :=
  EnableLogging (if bool_decide (text = []) then x
                 else match parseDuration text with
                      | Ret d => match SetLoggingDuration d x with Ret x => x | _ => x end
                      | _ => x
                      end).
End Client.

(** * Properties *)

Section ServerProperties.
Context {V : Type}.
Context (unmarshal : bytes → outcome PbServerConfig) (hostSeed : Z)
        (marshalPattern : TrafficPattern → outcome bytes) (patternJSON : TrafficPattern → outcome bytes)
        (indent : bytes → outcome bytes) (statsJSON : memoryStatistics → outcome bytes) (rfc3339 : Z → bytes).
Notation server := (option (@mita V)).

Inductive serverReport :=
| RMetrics (H : LogHost) | RUsers (now : Z) (clock : nat → nat → Z) (times : nat → Z) | RQuotas (clock : nat → Z) (now : Z) (roll : nat → nat → Z)
| RPattern | RExport | RThreads (fuel : nat) (trace : bytes) | RMemory (ms : memStats)
| RHeap (ok : bool) (path : bytes) (heap : option bytes) | RStart (ok : bool) (path : bytes) | RStop (prof : bytes)
| RUpdate (now : Z) (query : outcome bytes).

Definition runReport (r : serverReport) : server → outcome (list bytes) * server :=
  match r with
  | RMetrics H => serverGetMetricsFunc indent H
  | RUsers now clock times => serverGetUsersFunc unmarshal rfc3339 now clock times
  | RQuotas clock now roll => serverGetQuotasFunc unmarshal clock now roll
  | RPattern => serverDescribeEffectiveTrafficPatternFunc unmarshal hostSeed patternJSON
  | RExport => serverExportTrafficPatternFunc unmarshal marshalPattern
  | RThreads fuel trace => serverGetThreadDumpFunc fuel trace
  | RMemory ms => serverGetMemoryStatisticsFunc statsJSON ms
  | RHeap ok path heap => serverGetHeapProfileFunc ok path heap
  | RStart ok path => serverStartCPUProfileFunc ok path
  | RStop prof => serverStopCPUProfileFunc prof
  | RUpdate now query => serverCheckUpdateFunc now query
  end.

(** What a report does to the profiles of the process. *)
Definition debugOf (r : serverReport) (g : debugState) : debugState :=
  match r with
  | RHeap ok path heap => (GetHeapProfile ok path heap g).2
  | RStart ok path => (StartCPUProfile ok path g).2
  | RStop prof => StopCPUProfile prof g
  | _ => g
  end.
Definition daemonUp (p : @mita V) : bool := is_ret (IsServerDaemonRunning (s_status (p_service p))).

Lemma onDaemon_up {A} refused (f : @mita V → outcome A * @mita V) p : daemonUp p = true → onDaemon refused f (Some p) = ((f p).1, Some (f p).2).
Proof. intros Hu. unfold onDaemon, daemonUp in *. rewrite Hu. by destruct (f p). Qed.

Lemma report_state r p : (runReport r (Some p)).2 = Some (if daemonUp p then set_debug (debugOf r (p_debug p)) p else p).
Proof.
  destruct (daemonUp p) eqn:E.
  2: { destruct r; cbn [runReport]; try done; unfold serverGetMetricsFunc, serverGetUsersFunc, serverGetQuotasFunc, serverDescribeEffectiveTrafficPatternFunc, serverExportTrafficPatternFunc,
         serverGetThreadDumpFunc, serverGetMemoryStatisticsFunc, serverGetHeapProfileFunc, serverStartCPUProfileFunc, serverStopCPUProfileFunc, report, onDaemon; unfold daemonUp in E; by rewrite E. }
  assert (Hs : set_debug (p_debug p) p = p) by (by destruct p).
  destruct r; cbn [runReport debugOf]; unfold serverGetMetricsFunc, serverGetUsersFunc, serverGetQuotasFunc, serverDescribeEffectiveTrafficPatternFunc, serverExportTrafficPatternFunc,
         serverGetThreadDumpFunc, serverGetMemoryStatisticsFunc, serverGetHeapProfileFunc, serverStartCPUProfileFunc, serverStopCPUProfileFunc, report; rewrite ?onDaemon_up by done; cbn [fst snd]; rewrite ?Hs; try done.
  - by destruct (GetHeapProfile _ _ _ _).
  - by destruct (StartCPUProfile _ _ _).
Qed.

(** Reports leave the server as it is: its service and its metrics. *)
Fixpoint runReports (rs : list serverReport) (d : server) : list (outcome (list bytes)) * server :=
  match rs with [] => ([], d) | r :: rs => let '(o, d) := runReport r d in let '(os, d) := runReports rs d in (o :: os, d) end.

Theorem reports_change_nothing rs p : ∃ p', (runReports rs (Some p)).2 = Some p' ∧ p_service p' = p_service p ∧ p_registry p' = p_registry p ∧
  (daemonUp p = true → p_debug p' = foldl (λ g r, debugOf r g) (p_debug p) rs).
Proof.
  revert p. induction rs as [|r rs IH]; intros p; [by exists p|]. cbn [runReports]. pose proof (report_state r p) as Hr. destruct (runReport r (Some p)) as [o d]. cbn in Hr. subst d.
  destruct (IH (if daemonUp p then set_debug (debugOf r (p_debug p)) p else p)) as (p' & E & H1 & H2 & H3). destruct (runReports rs _) as [os d]. cbn in E. subst d.
  exists p'. split; [done|]. rewrite H1, H2. split; [by destruct (daemonUp p)|]. split; [by destruct (daemonUp p)|]. intros Hu. rewrite H3; rewrite Hu; done.
Qed.

(** A profile in progress: its file is open and has no contents yet. *)
Definition profiling (path : bytes) (g : debugState) : Prop :=
  debug_ok g ∧ ∃ fd, g_running g = Some fd ∧ g_open g !! fd = Some path ∧ g_disk g !! path = Some [].
Definition spares (path : bytes) (r : serverReport) : Prop :=
  match r with RHeap _ p _ => p ≠ path | RStop _ => False | _ => True end.

Lemma profiling_create ok p path g fd g' : profiling path g → createFile ok p g = Some (fd, g') → profiling path g'.
Proof.
  intros (Hk & k & Hr & Ho & Hd) E. pose proof (create_ok _ _ _ _ _ Hk E) as (Hk' & -> & _ & Hr' & _ & Hop). split; [done|]. exists k. rewrite Hr', Hop.
  assert (k ≠ g_next g) by (pose proof (dk_next g Hk k path Ho); lia). split; [done|]. rewrite lookup_insert_ne by done. split; [done|].
  unfold createFile in E. destruct ok; [|done]. injection E as <-. cbn. destruct (decide (p = path)) as [->|Hp]; [by rewrite lookup_insert_eq|by rewrite lookup_insert_ne].
Qed.

Lemma profiling_kept path r g : profiling path g → spares path r → profiling path (debugOf r g).
Proof.
  intros Hp Hs. destruct r as [| | | | | | |ok p heap|ok p| |]; cbn [debugOf]; try done.
  - pose proof (debug_step_ok (HeapCall ok p heap) g (proj1 Hp)) as [Hk _]. cbn [debugStep] in Hk. unfold GetHeapProfile in *. case_bool_decide; [done|].
    destruct (createFile ok p g) as [[fd g']|] eqn:E; [|done]. pose proof (create_ok _ _ _ _ _ (proj1 Hp) E) as (_ & -> & _). destruct Hp as (Hk0 & k & Hr & Ho & Hd).
    destruct (profiling_create ok p path g _ g' (conj Hk0 (ex_intro _ k (conj Hr (conj Ho Hd)))) E) as (_ & k' & Hr' & Ho' & Hd').
    pose proof (create_ok _ _ _ _ _ Hk0 E) as (_ & _ & _ & Hrr & _). assert (k' = k) as -> by congruence. assert (k ≠ g_next g) by (pose proof (dk_next g Hk0 k path Ho); lia).
    cbn zeta in *. destruct heap; (split; [done|]); exists k; cbn; rewrite lookup_delete_ne by done; split_and!; try done. by rewrite lookup_insert_ne.
  - pose proof (debug_step_ok (StartCall ok p) g (proj1 Hp)) as [Hk _]. cbn [debugStep] in Hk. unfold StartCPUProfile in *. case_bool_decide; [done|]. rewrite (dk_file g (proj1 Hp)) in *.
    destruct (createFile ok p g) as [[fd g']|] eqn:E; [|done]. pose proof (profiling_create _ _ _ _ _ _ Hp E) as Hp'. destruct Hp' as (? & k & Hr & ?). rewrite Hr in *. by split; [|exists k].
Qed.

(** A profile is saved through the commands of the server: start, then any reports that
    do not stop it and write no heap to its file, then stop. *)
Theorem profile_saved_by_commands rs path prof p : daemonUp p = true → debug_ok (p_debug p) → g_running (p_debug p) = None → path ≠ [] → Forall (spares path) rs →
  ∃ p', (runReports (RStart true path :: rs ++ [RStop prof]) (Some p)).2 = Some p' ∧ g_disk (p_debug p') !! path = Some prof ∧ p_service p' = p_service p.
Proof.
  intros Hu Hk Hr Hne Hs. destruct (reports_change_nothing (RStart true path :: rs ++ [RStop prof]) p) as (p' & E & H1 & _ & H3). exists p'. split_and!; [done| |done].
  rewrite H3 by done. cbn [foldl]. rewrite foldl_app. cbn [foldl]. set (g0 := debugOf (RStart true path) (p_debug p)).
  assert (H0 : profiling path g0).
  { pose proof (debug_step_ok (StartCall true path) (p_debug p) Hk) as [Hk' _]. split; [done|]. exists (g_next (p_debug p)). unfold g0. cbn [debugOf]. unfold StartCPUProfile.
    rewrite bool_decide_false by done. rewrite (dk_file _ Hk). cbn. rewrite Hr. cbn. by rewrite !lookup_insert_eq. }
  assert (Hg : ∀ g, profiling path g → profiling path (foldl (λ g r, debugOf r g) g rs)).
  { clear -Hs. induction Hs as [|r rs Hr _ IH]; intros g Hg; [done|]. apply IH. by apply profiling_kept. }
  pose proof (Hg _ H0) as Hf. revert Hf. clear. generalize (foldl (λ g r, debugOf r g) g0 rs). intros g (_ & fd & Hr' & Ho & Hd). cbn [debugOf]. unfold StopCPUProfile. rewrite Hr'. cbn. rewrite Ho. cbn. rewrite lookup_insert_eq, Hd. unfold overwrite. cbn. by rewrite drop_nil, app_nil_r.
Qed.
End ServerProperties.

(** ** A first run *)

(** A server that finds no configuration creates an empty one and goes on with it; one
    that can be read is used as it is. *)
Theorem first_run_creates H K name t files b0 : serverPlace H = (name, t) → (∀ d, h_stat H d = Ret tt) → mayUse H name →
  encodeConfig K t emptyServerConfig = Ret b0 → decodeConfig K t b0 = Ret emptyServerConfig →
  let '(r, s) := serverFirstConfig H K (serverPlaces0 files) in
  (∀ n, n ≠ name → p_files s !! n = files !! n) ∧
  (files !! name = None → r = Ret emptyServerConfig ∧ p_files s !! name = Some b0) ∧
  (∀ b c, files !! name = Some b → decodeConfig K t b = Ret c → r = Ret c ∧ p_files s !! name = Some b).
Proof.
  intros Hp Hm Hu He Hd. set (s0 := serverPlaces0 files).
  assert (H0 : holds (serverInv H) name files s0 (files !! name)) by (split_and!; [unfold serverInv; repeat case_match; auto|done..]).
  pose proof (λ k s f, server_call_refines H K name t files k s f Hp Hm Hu) as Hc. cbn zeta in Hc. unfold serverFirstConfig.
  pose proof (Hc CallLoad s0 _ H0) as [L1 R1]. cbn [serverCall specCall someConfig fst snd] in L1, R1. destruct (LoadServerConfigFile H K s0) as [r1 s1]. cbn [fst snd] in L1, R1.
  destruct (files !! name) as [b|] eqn:Ef; cbn [LoadServerConfig obind] in L1.
  - destruct (decodeConfig K t b) as [c| |] eqn:Ec; destruct r1 as [c1|e1|m1]; cbn [obind] in L1; try discriminate.
    + injection L1 as ->. destruct R1 as (_ & R2 & R3). split_and!; [done|done|]. intros b' c' [= <-]. intros E. rewrite Ec in E. by injection E as <-.
    + injection L1 as ->. assert (Hne : e ≠ ErrFileNotExist) by (unfold decodeConfig in Ec; repeat case_match; simplify_eq; done).
      pose proof (Hc CallLoad s1 _ R1) as [_ R4]. cbn [serverCall specCall someConfig fst snd] in R4. destruct (LoadServerConfigFile H K s1) as [r2 s2] eqn:E2. cbn [fst snd] in R4.
      destruct R4 as (_ & R5 & R6). destruct e; try done; destruct r2; (split_and!; [done|done|intros b' c' [= <-]; rewrite Ec; done]).
    + unfold decodeConfig in Ec. repeat case_match; simplify_eq.
  - destruct r1 as [c1|e1|m1]; cbn [obind] in L1; [done| |done]. injection L1 as ->.
    pose proof (Hc (CallStore emptyServerConfig) s1 _ R1) as [L2 R4]. cbn [serverCall specCall noConfig fst snd] in L2, R4. unfold StoreServerConfig in L2, R4.
    change (stored emptyServerConfig) with emptyServerConfig in L2, R4. rewrite He in L2, R4. cbn [obind fst snd] in L2, R4.
    destruct (StoreServerConfigFile H K (Some emptyServerConfig) s1) as [r2 s2]. cbn [fst snd] in L2, R4. destruct r2 as [u| |]; [|done..].
    pose proof (Hc CallLoad s2 _ R4) as [L3 R5]. cbn [serverCall specCall someConfig fst snd LoadServerConfig] in L3, R5. rewrite Hd in L3. cbn [obind] in L3.
    destruct (LoadServerConfigFile H K s2) as [r3 s3]. cbn [fst snd] in L3, R5. destruct r3 as [c3| |]; cbn [obind] in L3; [|done..]. injection L3 as ->.
    destruct R5 as (_ & R6 & R7). split_and!; done.
Qed.

(** The dump is enabled exactly when its directory is there, and what a server reports
    has no group of a client. *)
Theorem server_metrics mkdir unmarshal now clock file reg x : let '(reg', x') := serverMetricsSetup mkdir unmarshal now clock file reg x in
  metricsDump x' = metricsDump x || mkdir ∧
  ∀ name g, name ∈ ["cipher - client"; "HTTP proxy"] → reg' !! name = Some g → mg_enableLogging g = false.
Proof.
  unfold serverMetricsSetup. set (r := if mkdir then _ else _). destruct r as [reg1 x1] eqn:E. split.
  - unfold r in E. destruct mkdir; injection E as <- <-; [|by rewrite orb_false_r]. cbn. by rewrite orb_true_r.
  - intros name g Hn. rewrite !elem_of_cons, elem_of_nil in Hn. unfold setGroupLogging. destruct Hn as [->|[->|[]]].
    + rewrite lookup_alter_ne, lookup_alter_eq by done. intros (g0 & _ & ->)%fmap_Some. done.
    + rewrite lookup_alter_eq. intros (g0 & _ & ->)%fmap_Some. done.
Qed.

(** The socket belongs to the account of the server, and nobody else may use it. *)
Theorem socket_belongs_to_mita a uds system uid gid : lookupUser a "mita" = Ret (Itoa uid, Itoa gid) → 0 ≤ uid < 2 ^ 32 → 0 ≤ gid < 2 ^ 32 → (∀ c, system c = Ret ()) →
  updateServerUDSPermission a uds system = Ret [Chown uds uid gid; Chmod uds mode0770].
Proof.
  intros Hl Hu Hg Hs. unfold updateServerUDSPermission, getUid, getGid. rewrite Hl. cbn [obind failsWith]. rewrite Atoi_Itoa by lia. cbn [obind failsWith]. rewrite Atoi_Itoa by lia. cbn [obind failsWith]. by rewrite !Hs.
Qed.

(** ** The client *)

(** The commands reach a client exactly when one runs: creating the RPC client does not
    fail then. *)
Lemma reaches_running {V} unmarshal (w : @world V) d : newClientManagementRPCClient unmarshal w = Ret d ↔ IsClientDaemonRunning unmarshal w = inl d.
Proof.
  unfold newClientManagementRPCClient, IsClientDaemonRunning. destruct (NewClientManagementRPCClient unmarshal w) as [port|e]; [|done].
  destruct (find _ _) as [d'|]; [|by case_if]. split; intros [= ->]; done.
Qed.

(** The list of connections of a client has one readable row for each session. *)
Theorem client_connections_shown {T : Type} `{BTree T} unmarshal clock (w : @world (Underlay T * underlayConn)) d : IsClientDaemonRunning unmarshal w = inl d →
  (∀ k e, k ∈ m_underlays (d_mux d) → m_store (d_mux d) !! k = Some e → hasAddresses (und e)) →
  ∃ lines, clientGetConnectionsFunc SessionInfos unmarshal clock w = Ret lines ∧
    PanelStats.parseConnectionsTable (TrimSpace (PanelMita.printed lines)) = connectionsOf clock (ExportSessionInfoList SessionInfos (d_mux d)).
Proof.
  intros Hr Ha. apply reaches_running in Hr. unfold clientGetConnectionsFunc. rewrite Hr. cbn [obind]. by apply table_shown, exported_readable.
Qed.

(** An interval that is not a positive duration changes nothing; either way the loop of
    the log is started. *)
Theorem metrics_interval parseDuration text x : let x' := metricsInterval parseDuration text x in
  loops x' = loops x + 1 ∧ logDuration x' = match parseDuration text with Ret d => if bool_decide (text ≠ []) && (0 <? d) then d else logDuration x | _ => logDuration x end.
Proof.
  cbn zeta. unfold metricsInterval. destruct (decide (text = [])) as [->|Ht].
  - rewrite bool_decide_true by done. split; [done|]. by destruct (parseDuration []).
  - rewrite (bool_decide_false (text = [])), (bool_decide_true (text ≠ [])) by done. destruct (parseDuration text) as [d| |]; [|done..]. unfold SetLoggingDuration. cbn [andb].
    destruct (Z.leb_spec d 0); destruct (Z.ltb_spec 0 d); try lia; done.
Qed.

End Reports.
Export Reports.
